(* ===== verification/_CoqProject ===== *)
-Q . S2P
Prelude.v
Bytes.v
Ring.v
Riscv.v
KString.v
Kalloc.v
Vm.v
VmSpec.v
VmUser.v
VmFree.v
UserMem.v
Spinlock.v
Cache.v
Bio.v
BioSpec.v
Log.v
LogCrash.v
LogTxn.v
UserIO.v
Pipe.v
Proc.v
ProcSpec.v
Blocks.v
Fs.v
FsSpec.v
FsFile.v
FsWrite.v
FsTrunc.v
FsDir.v
FsPath.v
FsTop.v
FsDemo.v
LogBlocks.v
FsLog.v
FsLogDemo.v
ProcTop.v
FsBalance.v
File.v
Sysfile.v
Balance.v
SysDemo.v
Grep.v
Sh.v
ShSpec.v
Runcmd.v
Umalloc.v
UmallocTop.v
Printf.v
Ulib.v
Sched.v
SchedTop.v
Virtio.v
VirtioSpec.v
VirtioRw.v
VirtioTop.v
VirtioDemo.v
Console.v
ConsoleIn.v
ConsoleSpec.v
VmExec.v
ProcMem.v
Exec.v
ExecSpec.v
ExecLoad.v
ExecStack.v
ExecTop.v
Primes.v
PrimesTop.v
Xargs.v
Find.v
Mkfs.v
MkfsSpec.v
MkfsAppend.v
MkfsFiles.v
MkfsTop.v
MkfsImage.v
Sysproc.v
Clock.v
Trap.v
TrapTop.v
