(* ===== verification/Prelude.v ===== *)
(** * A verification development of the xv6 kernel and its user programs

    The program is xv6 for RISC-V: a kernel ([src/kernel]), the programs that run on it
    ([src/user]) and a tool that makes a disk image ([src/mkfs]).  The kernel's parts call each
    other in layers.  System calls ([sysfile.c]) use open files ([file.c]), which are pipes
    ([pipe.c]), devices or inodes; inodes are in the file system ([fs.c]), which changes blocks
    in transactions of the log ([log.c]) over the buffer cache ([bio.c]) over the disk driver
    ([virtio_disk.c]).  Processes ([proc.c]) have page tables ([vm.c]) in pages of the allocator
    ([kalloc.c]), and the scheduler moves the harts between them under spin locks
    ([spinlock.c]).

    ** Conventions

    A C function is a function in the monad [M]: it returns, panics, waits ([Blocked]) or runs
    out of fuel.  Integers are [Z] with the wrap-around of their width written out ([u8],
    [u16], [u32], [u64], [i32]); arrays are functions on indices, changed with [upd]; memory is
    a function from addresses to bytes.  Code that runs under a lock is one step, and what other
    harts, processes or devices can do between two steps is a step relation.  What one layer
    needs of another is a class with its laws in a second class ([BlockCache], [Blocks], [Txn],
    [UserMem], [Files], [Terminal], ...); clients are proved against the laws and the layer
    below has an instance.

    ** Files

    - This file: integers, the monad and its tactics, arrays and loops.  [Bytes]: byte arrays.
      [Riscv]: constants and macros of [riscv.h], [memlayout.h] and [param.h].
    - Memory.  [KString]: [string.c].  [Kalloc]: the page allocator gives each page to one
      owner.  [Vm]: the code of [vm.c]; [VmSpec], [VmUser], [VmFree]: page tables as trees, and
      mapping, growing, shrinking, copying and freeing an address space; [UserMem]: the copies
      between kernel and user, for every address that a program can pass.
    - [Spinlock]: [spinlock.c], with harts interleaved at the atomic instructions.
    - Blocks.  [Cache]: the interface of the buffer cache.  [Bio], [BioSpec]: [bio.c] and
      [sleeplock.c] implement it, with the replacement order.  [Log], [LogCrash], [LogTxn]:
      [log.c], with crashes at every disk write and during recovery.
    - Disk driver.  [Virtio]: [virtio_disk.c], its threads and the device.  [VirtioSpec],
      [VirtioRw]: the invariant.  [VirtioTop]: transfers are right, nothing panics, no wakeup
      is lost.  [VirtioDemo]: a write, evaluated.
    - File system.  [Blocks]: the interface to the blocks and transactions.  [Fs]: the code of
      [fs.c].  [FsSpec], [FsFile], [FsWrite], [FsTrunc], [FsDir], [FsPath], [FsTop]: block
      allocation, inodes, contents of files, directories and paths.  [LogBlocks]: the log over
      a buffer cache is such a block layer.  [FsLog]: [fs.c], [log.c] and [bio.c] together: a
      write to a file is atomic under crashes.  [FsDemo], [FsLogDemo]: small disks on which the
      theorems are applied.
    - System calls on files.  [UserIO]: the interface to user memory.  [Pipe]: [pipe.c].
      [File]: [file.c].  [Sysfile]: [sysfile.c] and the arguments of [syscall.c].  [FsBalance],
      [Balance]: no call leaks or loses a reference, a lock or a transaction, on any path.
      [SysDemo]: a process on a small disk.
    - Processes.  [Proc], [ProcSpec], [ProcTop]: the process table.  [Sched], [SchedTop]: the
      scheduler and the switches; safety under any interleaving, and fairness.  [Sysproc],
      [Clock]: [sysproc.c], the dispatch of [syscall.c] and the clock interrupt; sleeping for a
      time under any interleaving.
    - Traps.  [Trap]: [trap.c], [trampoline.S], the accessors of [riscv.h] and the claims of
      [plic.c], on the registers of a hart.  [TrapTop]: a trap from user space and
      back, and an interrupt in the kernel.
    - exec.  [VmExec], [ProcMem]: address spaces that are built step by step, with the frames
      they use.  [Exec]: the code of [exec.c], the file behind an interface.  [ExecSpec]: the
      image of a program as a function of the file and the arguments.  [ExecLoad],
      [ExecStack], [ExecTop]: [exec] gives exactly that image or leaves the process as it was,
      and loses no frame.
    - Console.  [Ring]: rings whose counters wrap around.  [Console]: [uart.c] and the output of
      [console.c], with its locks.  [ConsoleIn], [ConsoleSpec]: the input of [console.c] refines
      a line editor.
    - Output.  [Printf]: [printf.c] of the kernel and of user programs.
    - User programs.  [Ulib]: [ulib.c].  [Umalloc], [UmallocTop]: [umalloc.c].  [Grep]: [grep.c]
      against the meaning of patterns.  [Sh], [ShSpec]: the parser of [sh.c] against a grammar.
      [Runcmd]: running a command in [sh.c], as a tree of processes with their descriptors.
      [Primes], [PrimesTop]: the processes and pipes of [primes.c], in any order.  [Xargs]:
      [xargs.c] against cutting the input into lines and words.  [Find]: [find.c] on a tree of
      files.
    - Disk image.  [Mkfs]: [mkfs.c].  [MkfsSpec], [MkfsAppend], [MkfsFiles], [MkfsTop],
      [MkfsImage]: the image holds the given files, and the invariants that the theorems on
      [fs.c] assume hold of it.

    ** Fuel

    A loop whose recursion is not structural has fuel, fixed where the code bounds the loop: the
    pages or bytes left for the loops over memory and files, [NBUF] + 1 for the ring of [bio.c],
    the length of the path for [namex], of the line for the shell and of the input for [grep],
    of the bytes for the appends of [mkfs.c], 32 digits for a number, [NUM] for the chains and the ring of the disk.  The free descriptors
    bound the recursion of [find] as they do in the program.  The theorems say
    that the code returns with that fuel, not only that a result is right.  In [umalloc.c] and
    in the functions on strings the fuel is an argument: the theorem on the allocator gives
    fuel with which [malloc] and [free] return, and a result does not depend on the fuel.

    ** Not modelled

    [sys_exec]; [consoleinit] and [uartintr]; [plicinit] and [plicinithart]; [start.c], [main.c],
    [entry.S], [kernelvec.S] and [swtch.S]; [ramdisk.c], which is not built; the other small
    user programs and the tests.  The theorems on traps take [yield], what runs while
    interrupts are on, and the handlers of the devices as parameters with laws ([trap_laws]),
    and the dispatch of system calls takes the calls on files as a parameter.  The scheduler
    leaves out the locks of children and of init that [exit] takes and the lock that [fork]
    holds.  In the model of the shell a [wait] is the order of the parts of the process tree.
    [sbrk] under [malloc] is a limit, not the system call.
    The buffer cache and the log are proved over an array of blocks
    with atomic, ordered writes; [VirtioTop] proves of the driver that a returned transfer is
    done, and the two are not composed in one theorem.  The device of [Virtio] answers every
    request with success, and memory is sequentially consistent. *)

From stdpp Require Export base list gmap strings.
From Stdlib Require Export ZArith Lia.

#[global] Open Scope Z_scope.

(** ** Machine integers *)

Definition u8 (z : Z) : Z := z mod 2 ^ 8.
Definition u16 (z : Z) : Z := z mod 2 ^ 16.
Definition u32 (z : Z) : Z := z mod 2 ^ 32.
Definition u64 (z : Z) : Z := z mod 2 ^ 64.

(** Two's complement reading of the low 32 bits: the value of a C [int]. *)
Definition i32 (z : Z) : Z := (z + 2 ^ 31) mod 2 ^ 32 - 2 ^ 31.

Lemma u8_bound z : 0 <= u8 z < 256.
Proof. unfold u8. apply Z.mod_pos_bound. lia. Qed.

Lemma u32_bound z : 0 <= u32 z < 2 ^ 32.
Proof. unfold u32. apply Z.mod_pos_bound. lia. Qed.

Lemma u64_bound z : 0 <= u64 z < 2 ^ 64.
Proof. unfold u64. apply Z.mod_pos_bound. lia. Qed.

Lemma u8_small z : 0 <= z < 256 -> u8 z = z.
Proof. intros. unfold u8. apply Z.mod_small. lia. Qed.

Lemma u32_small z : 0 <= z < 2 ^ 32 -> u32 z = z.
Proof. intros. unfold u32. by apply Z.mod_small. Qed.

Lemma u64_small z : 0 <= z < 2 ^ 64 -> u64 z = z.
Proof. intros. unfold u64. by apply Z.mod_small. Qed.

Lemma i32_small z : - 2 ^ 31 <= z < 2 ^ 31 -> i32 z = z.
Proof. intros. unfold i32. rewrite Z.mod_small; lia. Qed.

(** ** Outcomes

    A kernel function either returns, calls [panic] (which never returns),
    waits for another thread (it sleeps on a channel or spins on a lock), or,
    in a definition by fuel, runs out of fuel. *)

Inductive res (A : Type) : Type :=
  | Ok (a : A)
  | Panic (msg : string)
  | Blocked
  | NoFuel.
Arguments Ok {A} a.
Arguments Panic {A} msg%_string.
Arguments Blocked {A}.
Arguments NoFuel {A}.

(** Stateful code over a state [S] that returns an [A]. *)
Definition M (S A : Type) : Type := S -> res (A * S).

Definition ret {S A} (a : A) : M S A := fun s => Ok (a, s).

Definition bind {S A B} (m : M S A) (k : A -> M S B) : M S B :=
  fun s => match m s with
           | Ok (a, s') => k a s'
           | Panic e => Panic e
           | Blocked => Blocked
           | NoFuel => NoFuel
           end.

Definition panic {S A} (msg : string) : M S A := fun _ => Panic msg.
Arguments panic {S A} msg%_string.
Definition blocked {S A} : M S A := fun _ => Blocked.
Definition nofuel {S A} : M S A := fun _ => NoFuel.
Definition gets {S A} (f : S -> A) : M S A := fun s => Ok (f s, s).
Definition modify {S} (f : S -> S) : M S unit := fun s => Ok (tt, f s).
Definition put {S} (s' : S) : M S unit := fun _ => Ok (tt, s').

(** Run code of a component inside the state of a component that contains it. *)
Definition zoom {S T A} (get : S -> T) (set : T -> S -> S) (m : M T A) : M S A :=
  fun s => match m (get s) with
           | Ok (a, t) => Ok (a, set t s)
           | Panic e => Panic e
           | Blocked => Blocked
           | NoFuel => NoFuel
           end.

Declare Scope kmonad_scope.
Delimit Scope kmonad_scope with kmonad.
Notation "'let!' x ':=' c 'in' k" := (bind c (fun x => k))
  (at level 10, x binder, c at level 100, k at level 200,
   format "'let!'  x  ':='  c  'in' '//' k") : kmonad_scope.
Notation "c ';;' k" := (bind c (fun _ => k))
  (at level 100, right associativity, format "c  ';;' '//' k") : kmonad_scope.
#[global] Open Scope kmonad_scope.

(** [if (b) panic(msg);] *)
Definition panic_if {S} (b : bool) (msg : string) : M S unit :=
  if b then panic msg else ret tt.
Arguments panic_if {S} b msg%_string.

(** [for(x in l) f(x);] *)
Fixpoint mfor {S A} (l : list A) (f : A -> M S unit) : M S unit :=
  match l with
  | [] => ret tt
  | x :: l' => f x ;; mfor l' f
  end.

Section MonadLemmas.
Context {S A B C : Type}.
Implicit Types (m : M S A) (k : A -> M S B) (s : S).

Lemma bind_ok m k s a s' : m s = Ok (a, s') -> bind m k s = k a s'.
Proof. intros H. unfold bind. by rewrite H. Qed.

Lemma bind_panic m k s e : m s = Panic e -> bind m k s = Panic e.
Proof. intros H. unfold bind. by rewrite H. Qed.

Lemma bind_ok_inv m k s b s' :
  bind m k s = Ok (b, s') -> exists a s1, m s = Ok (a, s1) /\ k a s1 = Ok (b, s').
Proof. unfold bind. destruct (m s) as [[a s1]| | |]; naive_solver. Qed.

Lemma bind_assoc m k (h : B -> M S C) s :
  bind (bind m k) h s = bind m (fun a => bind (k a) h) s.
Proof. unfold bind. by destruct (m s) as [[? ?]| | |]. Qed.

Lemma ret_ok (a : A) s : ret a s = Ok (a, s).
Proof. reflexivity. Qed.

Lemma ret_inv (a a' : A) s s' : ret a s = Ok (a', s') -> a' = a /\ s' = s.
Proof. by intros [= <- <-]. Qed.

Lemma gets_inv (f : S -> A) s a s' : gets f s = Ok (a, s') -> a = f s /\ s' = s.
Proof. by intros [= <- <-]. Qed.

Lemma panic_if_false msg s : panic_if false msg s = Ok (tt, s).
Proof. reflexivity. Qed.

Lemma zoom_ok {T} (get : S -> T) set (m' : M T A) s a t :
  m' (get s) = Ok (a, t) -> zoom get set m' s = Ok (a, set t s).
Proof. intros H. unfold zoom. by rewrite H. Qed.

Lemma zoom_ok_inv {T} (get : S -> T) set (m' : M T A) s a s' :
  zoom get set m' s = Ok (a, s') -> exists t, m' (get s) = Ok (a, t) /\ s' = set t s.
Proof. unfold zoom. destruct (m' (get s)) as [[? ?]| | |]; naive_solver. Qed.

Lemma mfor_app_ok (l1 l2 : list A) (f : A -> M S unit) s s' :
  mfor l1 f s = Ok (tt, s') -> mfor (l1 ++ l2) f s = mfor l2 f s'.
Proof.
  revert s. induction l1 as [|x l1 IH]; intros s; cbn [mfor app]; [by intros [= ->]|].
  unfold bind. destruct (f x s) as [[[] s1]| | |]; [apply IH|done..].
Qed.
End MonadLemmas.

(** [mstep H] executes the first command of the goal with the equation [H],
    [mcomp] by computation; [mauto] executes the commands that compute by themselves. *)
Ltac mstep H := erewrite bind_ok; [| apply H].
Ltac mcomp := erewrite bind_ok; [| reflexivity ]; cbn beta.
Ltac mauto := repeat (first
  [ erewrite bind_ok; [| reflexivity ]
  | progress (unfold ret, gets, modify, put, panic, panic_if)
  | progress cbn beta iota ]).

(** [mrun_inv H] turns [H : bind m k s = Ok r] into the runs of its parts. *)
Ltac mrun_inv H :=
  let a := fresh "a" in let s1 := fresh "s" in
  let H1 := fresh "Hrun" in let H2 := fresh "Hrest" in
  apply bind_ok_inv in H as (a & s1 & H1 & H2).

(** ** Arrays: total functions on indices *)

Definition upd {A} (f : Z -> A) (i : Z) (v : A) : Z -> A := fun x => if x =? i then v else f x.

Lemma upd_eq {A} (f : Z -> A) i v : upd f i v i = v.
Proof. unfold upd. by rewrite Z.eqb_refl. Qed.

Lemma upd_ne {A} (f : Z -> A) i v x : x <> i -> upd f i v x = f x.
Proof. intros. unfold upd. by rewrite (proj2 (Z.eqb_neq _ _)). Qed.

(** ** Loops

    [upto n] are the values of [i] in [for(i = 0; i < n; i++)]; [msearch] runs a loop
    body until it returns from the function. *)

Definition upto (n : Z) : list Z := Z.of_nat <$> seq 0 (Z.to_nat n).

Lemma elem_of_upto n i : i ∈ upto n <-> 0 <= i < n.
Proof.
  unfold upto. rewrite list_elem_of_fmap. split.
  - intros (k & -> & Hk). apply elem_of_seq in Hk. lia.
  - intros Hi. exists (Z.to_nat i). rewrite elem_of_seq. lia.
Qed.

Lemma upto_lookup n k : 0 <= k < n -> upto n !! Z.to_nat k = Some k.
Proof.
  intros Hk. unfold upto. rewrite list_lookup_fmap, lookup_seq_lt by lia. cbn. f_equal. lia.
Qed.

Lemma NoDup_upto n : NoDup (upto n).
Proof. apply NoDup_fmap_2_strong; [intros; lia|apply NoDup_seq]. Qed.

Lemma length_upto n : length (upto n) = Z.to_nat n.
Proof. unfold upto. by rewrite length_fmap, length_seq. Qed.

Lemma upto_S n : 0 <= n -> upto (n + 1) = upto n ++ [n].
Proof.
  intros Hn. unfold upto. replace (Z.to_nat (n + 1)) with (Z.to_nat n + 1)%nat by lia.
  rewrite seq_app, fmap_app. cbn. by rewrite Z2Nat.id by lia.
Qed.

Fixpoint msearch {S A B} (l : list A) (f : A -> M S (option B)) : M S (option B) :=
  match l with
  | [] => ret None
  | x :: l' =>
      let! r := f x in
      match r with
      | Some b => ret (Some b)
      | None => msearch l' f
      end
  end.

(** A search passes the elements for which the body goes on, keeping [P]. *)
Lemma msearch_skip {S A B} (P : S -> Prop) (f : A -> M S (option B)) l1 l2 : forall s,
  (forall y s, y ∈ l1 -> P s -> exists s', f y s = Ok (None, s') /\ P s') -> P s ->
  exists s', P s' /\ msearch (l1 ++ l2) f s = msearch l2 f s'.
Proof.
  induction l1 as [|y l1 IH]; intros s Hf Hs; [by exists s|].
  destruct (Hf y s) as (s1 & H1 & Hs1); [by left|done|].
  destruct (IH s1) as (s2 & Hs2 & E); [intros; apply Hf; [by right|done]|done|].
  exists s2. split; [done|]. cbn [msearch app]. by rewrite (bind_ok _ _ _ _ _ H1).
Qed.

(** The values of a loop variable before, at and after [k]. *)
Lemma upto_split n k : 0 <= k < n ->
  exists l2, upto n = upto k ++ k :: l2 /\ forall i, i ∈ l2 -> k < i < n.
Proof.
  intros Hk. exists (Z.of_nat <$> seq (S (Z.to_nat k)) (Z.to_nat n - S (Z.to_nat k))). split.
  - unfold upto. replace (Z.to_nat n) with (Z.to_nat k + S (Z.to_nat n - S (Z.to_nat k)))%nat at 1 by lia.
    rewrite seq_app, fmap_app. cbn. by rewrite Z2Nat.id by lia.
  - intros i (j & -> & Hj)%list_elem_of_fmap. apply elem_of_seq in Hj. lia.
Qed.

(** ** Shared arithmetic *)

Create HintDb xv6.

(** [lia] after the equations of the divisions and remainders. *)
Ltac dlia := Z.div_mod_to_equations; lia.

(** Split the boolean comparisons of the goal and of the hypotheses. *)
Ltac bsplit := repeat match goal with
  | H : (_ =? _)%Z = true |- _ => apply Z.eqb_eq in H
  | H : (_ =? _)%Z = false |- _ => apply Z.eqb_neq in H
  | H : (_ <? _)%Z = true |- _ => apply Z.ltb_lt in H
  | H : (_ <? _)%Z = false |- _ => apply Z.ltb_ge in H
  | H : (_ <=? _)%Z = true |- _ => apply Z.leb_le in H
  | H : (_ <=? _)%Z = false |- _ => apply Z.leb_gt in H
  | H : (_ && _)%bool = true |- _ => apply andb_true_iff in H as [? ?]
  | H : (_ || _)%bool = false |- _ => apply orb_false_iff in H as [? ?]
  | H : negb _ = true |- _ => apply negb_true_iff in H
  | H : negb _ = false |- _ => apply negb_false_iff in H
  end.

Ltac zcase := repeat (match goal with
  | |- context [ (?x =? ?y)%Z ] => destruct (Z.eqb_spec x y)
  | |- context [ (?x <? ?y)%Z ] => destruct (Z.ltb_spec x y)
  | |- context [ (?x <=? ?y)%Z ] => destruct (Z.leb_spec x y)
  end; cbn [andb orb negb]).

(** Clearing the low [n] bits rounds down to a multiple of [2 ^ n]. *)
Lemma land_lnot_ones x n :
  0 <= n -> Z.land x (Z.lnot (2 ^ n - 1)) = x - x mod 2 ^ n.
Proof.
  intros Hn. replace (2 ^ n - 1) with (Z.ones n) by (rewrite Z.ones_equiv; lia).
  rewrite <- Z.ldiff_land, Z.ldiff_ones_r by done.
  rewrite Z.shiftl_mul_pow2, Z.shiftr_div_pow2 by done.
  pose proof (Z.div_mod x (2 ^ n)). lia.
Qed.

(** Keeping the low [n] bits is the remainder modulo [2 ^ n]. *)
Lemma land_ones_mod x n : 0 <= n -> Z.land x (2 ^ n - 1) = x mod 2 ^ n.
Proof.
  intros Hn. replace (2 ^ n - 1) with (Z.ones n) by (rewrite Z.ones_equiv; lia).
  by apply Z.land_ones.
Qed.

Lemma testbit_high y n i : 0 <= y < 2 ^ n -> n <= i -> Z.testbit y i = false.
Proof.
  intros Hy Hi. destruct (Z.eq_dec y 0) as [->|]; [apply Z.bits_0|].
  apply Z.bits_above_log2; [lia|].
  apply Z.lt_le_trans with n; [apply Z.log2_lt_pow2|]; lia.
Qed.

(** Setting a field of low bits that are clear is an addition. *)
Lemma lor_low x y n : 0 <= n -> 0 <= y < 2 ^ n -> Z.lor (x * 2 ^ n) y = x * 2 ^ n + y.
Proof.
  intros Hn Hy. assert (Z.land (x * 2 ^ n) y = 0) as Hland.
  { rewrite <- Z.shiftl_mul_pow2 by done. apply Z.bits_inj'. intros i Hi.
    rewrite Z.land_spec, Z.bits_0, Z.shiftl_spec by done.
    destruct (Z.lt_ge_cases i n).
    - by rewrite Z.testbit_neg_r by lia.
    - rewrite (testbit_high y n i) by lia. by rewrite andb_false_r. }
  by rewrite Z.add_nocarry_lxor, Z.lxor_lor.
Qed.
