(* ===== verification/Bytes.v ===== *)
(** * Arrays of bytes

    Blocks, directory entries and kernel buffers are lists of bytes.  [sub] is a range
    of one, [splice] overwrites a range, [le_get] and [le_put] are the little-endian
    integers that the structures of [kernel/fs.h] lay out in them. *)

From S2P Require Import Prelude.

Definition bytes (bs : list Z) : Prop := Forall (fun b => 0 <= b < 256) bs.

Definition sub (d : list Z) (off n : Z) : list Z := take (Z.to_nat n) (drop (Z.to_nat off) d).

Definition splice (d : list Z) (off : Z) (bs : list Z) : list Z :=
  take (Z.to_nat off) d ++ bs ++ drop (Z.to_nat off + length bs) d.

Fixpoint le_get (bs : list Z) : Z :=
  match bs with
  | [] => 0
  | b :: bs' => b + 256 * le_get bs'
  end.

Fixpoint le_put (n : nat) (v : Z) : list Z :=
  match n with
  | O => []
  | S k => v mod 256 :: le_put k (v / 256)
  end.

Definition get_le (d : list Z) (off n : Z) : Z := le_get (sub d off n).
Definition put_le (d : list Z) (off n v : Z) : list Z := splice d off (le_put (Z.to_nat n) v).

(** The length of an array, and that a range is inside it. *)
Abbreviation zlen l := (Z.of_nat (length l)).
Definition in_range (d : list Z) (off n : Z) : Prop := 0 <= off /\ 0 <= n /\ off + n <= zlen d.

(** Two ranges do not overlap. *)
Definition apart (off n off' n' : Z) : Prop := off + n <= off' \/ off' + n' <= off.

Lemma length_sub d off n : in_range d off n -> zlen (sub d off n) = n.
Proof. intros (? & ? & ?). unfold sub. rewrite length_take, length_drop. lia. Qed.

Lemma sub_lookup d off n i : in_range d off n ->
  sub d off n !! i = if Z.of_nat i <? n then d !! (Z.to_nat off + i)%nat else None.
Proof.
  intros (? & ? & ?). unfold sub. destruct (Z.ltb_spec (Z.of_nat i) n).
  - rewrite lookup_take_lt by lia. by rewrite lookup_drop.
  - apply lookup_ge_None_2. rewrite length_take. lia.
Qed.

Lemma length_splice d off bs : in_range d off (zlen bs) -> length (splice d off bs) = length d.
Proof. intros (? & ? & ?). unfold splice. rewrite !length_app, length_take, length_drop. lia. Qed.

(** Also at the end of an array, which then grows. *)
Lemma splice_lookup_le d off bs i : 0 <= off <= zlen d ->
  splice d off bs !! i = if (off <=? Z.of_nat i) && (Z.of_nat i <? off + zlen bs) then bs !! (i - Z.to_nat off)%nat else d !! i.
Proof.
  intros Hr. unfold splice. destruct (Z.leb_spec off (Z.of_nat i)); cbn [andb].
  - rewrite lookup_app_r by (rewrite length_take; lia). rewrite length_take, Nat.min_l by lia.
    destruct (Z.ltb_spec (Z.of_nat i) (off + zlen bs)).
    + by rewrite lookup_app_l by lia.
    + rewrite lookup_app_r by lia. rewrite lookup_drop. f_equal. lia.
  - rewrite lookup_app_l by (rewrite length_take; lia). by rewrite lookup_take_lt by lia.
Qed.

Lemma splice_lookup d off bs i : in_range d off (zlen bs) ->
  splice d off bs !! i = if (off <=? Z.of_nat i) && (Z.of_nat i <? off + zlen bs) then bs !! (i - Z.to_nat off)%nat else d !! i.
Proof. intros (? & ? & ?). apply splice_lookup_le. lia. Qed.

Lemma sub_splice_same d off bs : in_range d off (zlen bs) -> sub (splice d off bs) off (zlen bs) = bs.
Proof.
  intros Hr. apply list_eq. intros i. rewrite sub_lookup by (unfold in_range; rewrite length_splice by done; apply Hr).
  rewrite splice_lookup by done. destruct Hr as (? & ? & ?). destruct (Z.ltb_spec (Z.of_nat i) (zlen bs)).
  - rewrite (proj2 (Z.leb_le _ _)), (proj2 (Z.ltb_lt _ _)) by lia. cbn. f_equal. lia.
  - symmetry. apply lookup_ge_None_2. lia.
Qed.

Lemma sub_splice_other d off bs off' n' :
  in_range d off (zlen bs) -> in_range d off' n' -> apart off (zlen bs) off' n' -> sub (splice d off bs) off' n' = sub d off' n'.
Proof.
  intros Hr Hr' Ha. apply list_eq. intros i. rewrite !sub_lookup by (unfold in_range; rewrite ?length_splice; done).
  destruct (Z.ltb_spec (Z.of_nat i) n'); [|done]. rewrite splice_lookup by done.
  destruct Hr as (? & ? & ?), Hr' as (? & ? & ?).
  destruct (_ && _) eqn:E; [|done]. bsplit. destruct Ha; lia.
Qed.

Lemma sub_all d : sub d 0 (zlen d) = d.
Proof. unfold sub. rewrite Nat2Z.id. cbn. by rewrite firstn_all. Qed.

Lemma sub_sub d off n off' n' : in_range d off n -> 0 <= off' -> 0 <= n' -> off' + n' <= n ->
  sub (sub d off n) off' n' = sub d (off + off') n'.
Proof.
  intros Hr ? ? ?. pose proof (length_sub _ _ _ Hr). apply list_eq. intros i. destruct Hr as (? & ? & ?).
  rewrite !sub_lookup by (unfold in_range; lia). destruct (Z.ltb_spec (Z.of_nat i) n'); [|done].
  rewrite (proj2 (Z.ltb_lt _ _)) by lia. f_equal. lia.
Qed.

Lemma sub_splice_in d off bs k n : in_range d off (zlen bs) -> 0 <= k -> 0 <= n -> k + n <= zlen bs ->
  sub (splice d off bs) (off + k) n = sub bs k n.
Proof.
  intros Hr ? ? ?. rewrite <- (sub_splice_same d off bs Hr) at 2. rewrite sub_sub; [done| |done..].
  unfold in_range in *. rewrite length_splice; [lia|unfold in_range; lia].
Qed.

Lemma sub_app d off n m : 0 <= off -> 0 <= n -> 0 <= m -> off + n <= zlen d -> sub d off (n + m) = sub d off n ++ sub d (off + n) m.
Proof.
  intros. unfold sub. replace (Z.to_nat (n + m)) with (Z.to_nat n + Z.to_nat m)%nat by lia.
  rewrite <- (take_take_drop (drop (Z.to_nat off) d) (Z.to_nat n) (Z.to_nat m)). f_equal.
  rewrite drop_drop. do 2 f_equal. lia.
Qed.

Lemma sub_zero d off : sub d off 0 = [].
Proof. reflexivity. Qed.

Lemma bytes_sub d off n : bytes d -> bytes (sub d off n).
Proof. intros H. apply Forall_take, Forall_drop, H. Qed.

Lemma bytes_splice d off bs : bytes d -> bytes bs -> bytes (splice d off bs).
Proof. intros H1 H2. unfold splice. apply Forall_app. split; [by apply Forall_take|]. apply Forall_app. split; [done|by apply Forall_drop]. Qed.

(** ** Integers *)

Lemma length_le_put n v : length (le_put n v) = n.
Proof. revert v. induction n; intros; cbn; auto. Qed.

Lemma bytes_le_put n v : bytes (le_put n v).
Proof. revert v. induction n as [|n IH]; intros v; cbn; constructor; [apply Z.mod_pos_bound; lia|apply IH]. Qed.

Lemma le_get_put n v : le_get (le_put n v) = v mod 256 ^ Z.of_nat n.
Proof.
  revert v. induction n as [|n IH]; intros v.
  - cbn. by rewrite Z.mod_1_r.
  - cbn [le_put le_get]. rewrite IH. rewrite Nat2Z.inj_succ, Z.pow_succ_r by lia.
    rewrite (Z.rem_mul_r v 256) by lia. lia.
Qed.

Lemma le_get_bound bs : bytes bs -> 0 <= le_get bs < 256 ^ zlen bs.
Proof.
  induction 1 as [|b bs Hb Hbs IH]; [cbn; lia|]. cbn [le_get length]. rewrite Nat2Z.inj_succ, Z.pow_succ_r by lia. lia.
Qed.

Lemma get_put_same d off n v : in_range d off n -> get_le (put_le d off n v) off n = v mod 256 ^ n.
Proof.
  intros Hr. unfold get_le, put_le. destruct Hr as (? & ? & ?).
  assert (zlen (le_put (Z.to_nat n) v) = n) as El by (rewrite length_le_put; lia).
  rewrite <- El at 2. rewrite sub_splice_same by (rewrite El; unfold in_range; lia). rewrite le_get_put. do 2 f_equal. lia.
Qed.

Lemma get_put_other d off n v off' n' :
  in_range d off n -> in_range d off' n' -> apart off n off' n' -> get_le (put_le d off n v) off' n' = get_le d off' n'.
Proof.
  intros Hr Hr' Ha. unfold get_le, put_le. destruct Hr as (? & ? & ?).
  assert (zlen (le_put (Z.to_nat n) v) = n) as El by (rewrite length_le_put; lia).
  rewrite sub_splice_other by (rewrite ?El; done || (unfold in_range; lia)). done.
Qed.

Lemma length_put_le d off n v : in_range d off n -> length (put_le d off n v) = length d.
Proof. intros (? & ? & ?). apply length_splice. unfold in_range. rewrite length_le_put. lia. Qed.

Lemma bytes_put_le d off n v : bytes d -> bytes (put_le d off n v).
Proof. intros. apply bytes_splice; [done|apply bytes_le_put]. Qed.

Lemma get_le_bound d off n : bytes d -> in_range d off n -> 0 <= get_le d off n < 256 ^ n.
Proof.
  intros Hb Hr. pose proof (le_get_bound (sub d off n)) as H. rewrite (length_sub d off n Hr) in H. by apply H, bytes_sub.
Qed.
