(* ===== verification/Ring.v ===== *)
(** * Ring buffers

    [ring n f st l]: the array [f] of [n] entries holds the list [l] from index [st] on, modulo
    [n].  The rings of the disk and of the console are such arrays, with counters that wrap
    around at a multiple of [n]. *)

From S2P Require Import Prelude.

Section Ring.
Context (n : Z) (Hn : 0 < n).
Implicit Types (f : Z -> Z) (l : list Z).

Definition ring (f : Z -> Z) (st : Z) (l : list Z) : Prop :=
  forall j q, l !! j = Some q -> f ((st + Z.of_nat j) mod n) = q.

Lemma ring_nil f st : ring f st [].
Proof. by intros j q. Qed.

Lemma ring_start f st st' l : st mod n = st' mod n -> ring f st l -> ring f st' l.
Proof. intros E R j q Hj. rewrite <- (R j q Hj). f_equal. by rewrite <- (Zplus_mod_idemp_l st), E, Zplus_mod_idemp_l. Qed.

Lemma ring_pop f st q l : ring f st (q :: l) -> f (st mod n) = q /\ ring f (st + 1) l.
Proof.
  intros R. split; [rewrite <- (R O q eq_refl); f_equal; f_equal; lia|].
  intros j q' Hj. rewrite <- (R (S j) q' Hj). f_equal. f_equal. lia.
Qed.

Lemma ring_app f st l l' : ring f st (l ++ l') <-> ring f st l /\ ring f (st + Z.of_nat (length l)) l'.
Proof.
  split.
  - intros R. split; intros j q Hj.
    + apply R. by apply lookup_app_l_Some.
    + rewrite <- (R (length l + j)%nat q); [f_equal; f_equal; lia|]. by rewrite lookup_app_r, Nat.add_sub' by lia.
  - intros [R1 R2] j q [Hj|[Hl Hj]]%lookup_app_Some; [by apply R1|]. rewrite <- (R2 _ _ Hj). f_equal. f_equal. lia.
Qed.

(** Different places among [n] that follow each other. *)
Lemma ring_place st i j : 0 <= i < n -> 0 <= j < n -> (st + i) mod n = (st + j) mod n -> i = j.
Proof.
  intros Hi Hj E. assert ((i - j) mod n = 0) as H0.
  { replace (i - j) with ((st + i) - (st + j)) by lia. by rewrite Zminus_mod, E, Z.sub_diag, Z.mod_0_l by lia. }
  apply Z.mod_divide in H0 as [k Hk]; [|lia]. assert (k = 0) by nia. lia.
Qed.

Lemma ring_push f st l k q : ring f st l -> Z.of_nat (length l) < n -> k mod n = (st + Z.of_nat (length l)) mod n ->
  ring (upd f (k mod n) q) st (l ++ [q]).
Proof.
  intros R Hl -> j q' Hj. destruct (decide (j = length l)) as [->|Hne].
  - rewrite lookup_app_r, Nat.sub_diag in Hj by lia. injection Hj as <-. apply upd_eq.
  - assert (j < length l)%nat. { apply lookup_lt_Some in Hj. rewrite length_app in Hj. cbn in Hj. lia. }
    rewrite lookup_app_l in Hj by lia. rewrite upd_ne; [by apply R|]. intros E%ring_place; lia.
Qed.
End Ring.
