(* ===== verification/Riscv.v ===== *)
(** * Constants and macros of [kernel/riscv.h], [kernel/memlayout.h] and
      [kernel/param.h]

    Page arithmetic ([PGROUNDUP], [PGROUNDDOWN]), page-table entries
    ([PA2PTE], [PTE2PA], [PTE_FLAGS]) and virtual-address indices ([PX]), with
    the arithmetic reading of their bit operations. *)

From S2P Require Import Prelude.

(** ** [kernel/param.h] *)

Definition NPROC : Z := 64.
Definition NOFILE : Z := 16.
Definition NFILE : Z := 100.
Definition NINODE : Z := 50.
Definition NDEV : Z := 10.
Definition ROOTDEV : Z := 1.
Definition MAXARG : Z := 32.
Definition MAXOPBLOCKS : Z := 10.
Definition LOGSIZE : Z := MAXOPBLOCKS * 3.
Definition NBUF : Z := MAXOPBLOCKS * 3.
Definition FSSIZE : Z := 1000.
Definition MAXPATH : Z := 128.

(** ** [kernel/riscv.h] *)

Definition PGSIZE : Z := 4096.
Definition PGSHIFT : Z := 12.

Definition PGROUNDUP (sz : Z) : Z := Z.land (u64 (sz + PGSIZE - 1)) (Z.lnot (PGSIZE - 1)).
Definition PGROUNDDOWN (a : Z) : Z := Z.land a (Z.lnot (PGSIZE - 1)).

Definition PTE_V : Z := Z.shiftl 1 0.
Definition PTE_R : Z := Z.shiftl 1 1.
Definition PTE_W : Z := Z.shiftl 1 2.
Definition PTE_X : Z := Z.shiftl 1 3.
Definition PTE_U : Z := Z.shiftl 1 4.

Definition PA2PTE (pa : Z) : Z := u64 (Z.shiftl (Z.shiftr pa 12) 10).
Definition PTE2PA (pte : Z) : Z := u64 (Z.shiftl (Z.shiftr pte 10) 12).
Definition PTE_FLAGS (pte : Z) : Z := Z.land pte 0x3FF.

Definition PXMASK : Z := 0x1FF.
Definition PXSHIFT (level : Z) : Z := PGSHIFT + 9 * level.
Definition PX (level va : Z) : Z := Z.land (Z.shiftr va (PXSHIFT level)) PXMASK.

Definition MAXVA : Z := Z.shiftl 1 (9 + 9 + 9 + 12 - 1).

Definition SATP_SV39 : Z := Z.shiftl 8 60.
Definition MAKE_SATP (pagetable : Z) : Z := Z.lor SATP_SV39 (Z.shiftr pagetable 12).

(** ** [kernel/memlayout.h] *)

Definition UART0 : Z := 0x10000000.
Definition VIRTIO0 : Z := 0x10001000.
Definition CLINT : Z := 0x2000000.
Definition PLIC : Z := 0x0c000000.
Definition KERNBASE : Z := 0x80000000.
Definition PHYSTOP : Z := KERNBASE + 128 * 1024 * 1024.
Definition TRAMPOLINE : Z := MAXVA - PGSIZE.
Definition TRAPFRAME : Z := TRAMPOLINE - PGSIZE.
Definition KSTACK (p : Z) : Z := TRAMPOLINE - (p + 1) * 2 * PGSIZE.

(** [lia] with the values of the layout constants. *)
Ltac klia := unfold TRAPFRAME, TRAMPOLINE, PHYSTOP, KERNBASE, PGSIZE in *;
  try change MAXVA with (2 ^ 38) in *; lia.
Ltac kdlia := unfold TRAPFRAME, TRAMPOLINE, PHYSTOP, KERNBASE, PGSIZE in *;
  try change MAXVA with (2 ^ 38) in *; dlia.

(** ** The arithmetic of the macros *)

Lemma PGROUNDDOWN_spec a : PGROUNDDOWN a = a - a mod PGSIZE.
Proof. apply (land_lnot_ones a 12). lia. Qed.

Lemma PGROUNDUP_spec sz :
  0 <= sz -> sz + PGSIZE - 1 < 2 ^ 64 -> PGROUNDUP sz = PGSIZE * ((sz + PGSIZE - 1) / PGSIZE).
Proof.
  intros. unfold PGROUNDUP. rewrite u64_small by (unfold PGSIZE in *; lia).
  change (Z.lnot (PGSIZE - 1)) with (Z.lnot (2 ^ 12 - 1)).
  rewrite land_lnot_ones by lia. change (2 ^ 12) with PGSIZE. unfold PGSIZE. dlia.
Qed.

Lemma PX_spec level va : 0 <= level -> PX level va = (va / 2 ^ PXSHIFT level) mod 512.
Proof.
  intros. unfold PX. rewrite Z.shiftr_div_pow2 by (unfold PXSHIFT, PGSHIFT; lia).
  apply (land_ones_mod _ 9). lia.
Qed.

Lemma PX_bound level va : 0 <= level -> 0 <= PX level va < 512.
Proof. intros. rewrite PX_spec by done. apply Z.mod_pos_bound. lia. Qed.

Lemma PA2PTE_spec pa : 0 <= pa < 2 ^ 64 -> PA2PTE pa = pa / PGSIZE * 1024.
Proof.
  intros. unfold PA2PTE.
  rewrite Z.shiftr_div_pow2, Z.shiftl_mul_pow2 by lia.
  change (2 ^ 12) with PGSIZE. change (2 ^ 10) with 1024.
  apply u64_small. unfold PGSIZE. dlia.
Qed.

Lemma PTE2PA_spec pte : 0 <= pte < 2 ^ 54 -> PTE2PA pte = pte / 1024 * PGSIZE.
Proof.
  intros. unfold PTE2PA.
  rewrite Z.shiftr_div_pow2, Z.shiftl_mul_pow2 by lia.
  change (2 ^ 12) with PGSIZE. change (2 ^ 10) with 1024.
  apply u64_small. unfold PGSIZE. dlia.
Qed.

Lemma PTE_FLAGS_spec pte : PTE_FLAGS pte = pte mod 1024.
Proof. apply (land_ones_mod _ 10). lia. Qed.

(** A page-aligned physical address and flag bits go into one entry and come
    back out of it. *)
Lemma PA2PTE_lor pa flags :
  0 <= pa < 2 ^ 56 -> 0 <= flags < 1024 ->
  Z.lor (PA2PTE pa) flags = pa / PGSIZE * 1024 + flags.
Proof. intros. rewrite PA2PTE_spec by lia. apply (lor_low _ _ 10); lia. Qed.

Lemma PTE2PA_make pa flags :
  0 <= pa < 2 ^ 56 -> pa mod PGSIZE = 0 -> 0 <= flags < 1024 ->
  PTE2PA (Z.lor (PA2PTE pa) flags) = pa.
Proof.
  intros. rewrite PA2PTE_lor by done. unfold PGSIZE in *.
  rewrite PTE2PA_spec by dlia. unfold PGSIZE. dlia.
Qed.

Lemma PTE_FLAGS_make pa flags :
  0 <= pa < 2 ^ 56 -> 0 <= flags < 1024 -> PTE_FLAGS (Z.lor (PA2PTE pa) flags) = flags.
Proof. intros. rewrite PTE_FLAGS_spec, PA2PTE_lor by done. dlia. Qed.
