(* ===== verification/KString.v ===== *)
(** * Byte memory and [kernel/string.c]

    Memory is a function from addresses to bytes; [load8]/[store8] and the
    little-endian [load_le]/[store_le] (the latter at 8 bytes is a [uint64]
    access) are its only accesses.  The functions of string.c are loops over
    it, each with the number of remaining iterations as a [nat].  C leaves
    pointer arithmetic that leaves the object undefined, so pointers are
    unbounded integers here. *)

From S2P Require Import Prelude.

(** ** Byte memory *)

Definition mem : Type := Z -> Z.

Definition load8 (m : mem) (a : Z) : Z := u8 (m a).
Definition store8 (m : mem) (a v : Z) : mem := fun x => if x =? a then u8 v else m x.

Fixpoint load_le (m : mem) (a : Z) (n : nat) : Z :=
  match n with
  | O => 0
  | S k => load8 m a + 256 * load_le m (a + 1) k
  end.

Fixpoint store_le (m : mem) (a : Z) (n : nat) (v : Z) : mem :=
  match n with
  | O => m
  | S k => store_le (store8 m a v) (a + 1) k (v / 256)
  end.

Definition load64 (m : mem) (a : Z) : Z := load_le m a 8.
Definition store64 (m : mem) (a v : Z) : mem := store_le m a 8 v.

(** The memories agree at the addresses outside [[a, a + n)]. *)
Definition same_outside (a n : Z) (m m' : mem) : Prop :=
  forall x, ~ (a <= x < a + n) -> m' x = m x.

(** ** [kernel/string.c] *)

Fixpoint memset_loop (m : mem) (cdst c i : Z) (n : nat) : mem :=
  match n with
  | O => m
  | S k => memset_loop (store8 m (cdst + i) c) cdst c (i + 1) k
  end.

Definition memset (m : mem) (dst c n : Z) : mem := memset_loop m dst c 0 (Z.to_nat n).

Fixpoint memcmp_loop (m : mem) (s1 s2 : Z) (n : nat) : Z :=
  match n with
  | O => 0
  | S k =>
      if negb (load8 m s1 =? load8 m s2) then load8 m s1 - load8 m s2
      else memcmp_loop m (s1 + 1) (s2 + 1) k
  end.

Definition memcmp (m : mem) (v1 v2 n : Z) : Z := memcmp_loop m v1 v2 (Z.to_nat n).

(** [while(n-- > 0) *d++ = *s++;] *)
Fixpoint copy_forward (m : mem) (d s : Z) (n : nat) : mem :=
  match n with
  | O => m
  | S k => copy_forward (store8 m d (load8 m s)) (d + 1) (s + 1) k
  end.

(** [while(n-- > 0) *--d = *--s;] *)
Fixpoint copy_backward (m : mem) (d s : Z) (n : nat) : mem :=
  match n with
  | O => m
  | S k => copy_backward (store8 m (d - 1) (load8 m (s - 1))) (d - 1) (s - 1) k
  end.

Definition memmove (m : mem) (dst src n : Z) : mem :=
  if (src <? dst) && (dst <? src + n)
  then copy_backward m (dst + n) (src + n) (Z.to_nat n)
  else copy_forward m dst src (Z.to_nat n).

Definition memcpy (m : mem) (dst src n : Z) : mem := memmove m dst src n.

Fixpoint strncmp_loop (m : mem) (p q : Z) (n : nat) : Z :=
  match n with
  | O => 0
  | S k =>
      if negb (load8 m p =? 0) && (load8 m p =? load8 m q)
      then strncmp_loop m (p + 1) (q + 1) k
      else load8 m p - load8 m q
  end.

Definition strncmp (m : mem) (p q n : Z) : Z := strncmp_loop m p q (Z.to_nat n).

(** [while(n-- > 0) *s++ = 0;] *)
Fixpoint zero_fill (m : mem) (s : Z) (n : nat) : mem :=
  match n with
  | O => m
  | S k => zero_fill (store8 m s 0) (s + 1) k
  end.

Fixpoint strncpy_loop (m : mem) (s t : Z) (n : nat) : mem :=
  match n with
  | O => m
  | S k =>
      let m' := store8 m s (load8 m t) in
      if negb (load8 m t =? 0) then strncpy_loop m' (s + 1) (t + 1) k
      else zero_fill m' (s + 1) k
  end.

Definition strncpy (m : mem) (s t n : Z) : mem := strncpy_loop m s t (Z.to_nat n).

(** The copying loop with the final [*s = 0]; [n] counts the iterations that
    [--n > 0] still allows. *)
Fixpoint safestrcpy_loop (m : mem) (s t : Z) (n : nat) : mem :=
  match n with
  | O => store8 m s 0
  | S k =>
      let m' := store8 m s (load8 m t) in
      if negb (load8 m t =? 0) then safestrcpy_loop m' (s + 1) (t + 1) k
      else store8 m' (s + 1) 0
  end.

Definition safestrcpy (m : mem) (s t n : Z) : mem :=
  if n <=? 0 then m else safestrcpy_loop m s t (Z.to_nat (n - 1)).

(** The loop runs until a NUL byte; [None] when the fuel runs out first. *)
Fixpoint strlen_loop (m : mem) (s n : Z) (fuel : nat) : option Z :=
  match fuel with
  | O => None
  | S k => if load8 m (s + n) =? 0 then Some n else strlen_loop m s (n + 1) k
  end.

Definition strlen (m : mem) (s : Z) (fuel : nat) : option Z := strlen_loop m s 0 fuel.

(** ** What a byte range holds *)

(** The [n] bytes at [a]. *)
Fixpoint bytes_at (m : mem) (a : Z) (n : nat) : list Z :=
  match n with
  | O => []
  | S k => load8 m a :: bytes_at m (a + 1) k
  end.

(** The C string at [a], cut after [n] bytes, without its NUL. *)
Fixpoint cstr (m : mem) (a : Z) (n : nat) : list Z :=
  match n with
  | O => []
  | S k => if load8 m a =? 0 then [] else load8 m a :: cstr m (a + 1) k
  end.

(** ** Loads and stores *)

Lemma load8_bound m a : 0 <= load8 m a < 256.
Proof. apply u8_bound. Qed.

Lemma store8_eq m a v : store8 m a v a = u8 v.
Proof. unfold store8. by rewrite Z.eqb_refl. Qed.

Lemma store8_ne m a v x : x <> a -> store8 m a v x = m x.
Proof. intros. unfold store8. by rewrite (proj2 (Z.eqb_neq x a)). Qed.

Lemma load8_store8_eq m a v : load8 (store8 m a v) a = u8 v.
Proof. unfold load8. rewrite store8_eq. apply u8_small, u8_bound. Qed.

Lemma load8_store8_ne m a v x : x <> a -> load8 (store8 m a v) x = load8 m x.
Proof. intros. unfold load8. by rewrite store8_ne. Qed.

Lemma load8_same m m' a : m' a = m a -> load8 m' a = load8 m a.
Proof. unfold load8. congruence. Qed.

Lemma store_le_outside m a n v : same_outside a (Z.of_nat n) m (store_le m a n v).
Proof.
  revert m a v. induction n as [|n IH]; intros m a v x Hx; [done|].
  cbn [store_le]. rewrite IH by lia. apply store8_ne. lia.
Qed.

Lemma load_le_ext m m' a n :
  (forall x, a <= x < a + Z.of_nat n -> m' x = m x) -> load_le m' a n = load_le m a n.
Proof.
  revert a. induction n as [|n IH]; intros a H; [done|].
  cbn [load_le]. rewrite (load8_same m m'), IH; [done| |]; intros; apply H; lia.
Qed.

Lemma load_le_bound m a n : 0 <= load_le m a n < 256 ^ Z.of_nat n.
Proof.
  revert a. induction n as [|n IH]; intros a; [cbn; lia|].
  cbn [load_le]. specialize (IH (a + 1)). pose proof (load8_bound m a).
  rewrite Nat2Z.inj_succ, Z.pow_succ_r by lia. lia.
Qed.

Lemma load_le_store_le m a n v : load_le (store_le m a n v) a n = v mod 256 ^ Z.of_nat n.
Proof.
  revert m a v. induction n as [|n IH]; intros m a v; [cbn; by rewrite Z.mod_1_r|].
  cbn [load_le store_le]. rewrite IH.
  rewrite (load8_same (store8 m a v)) by (apply store_le_outside; lia).
  rewrite load8_store8_eq, Nat2Z.inj_succ, Z.pow_succ_r by lia.
  rewrite Z.rem_mul_r by lia. unfold u8. change (2 ^ 8) with 256. lia.
Qed.

Lemma load64_bound m a : 0 <= load64 m a < 2 ^ 64.
Proof. exact (load_le_bound m a 8). Qed.

Lemma load64_store64_eq m a v : load64 (store64 m a v) a = u64 v.
Proof. apply (load_le_store_le m a 8). Qed.

Lemma store64_outside m a v : same_outside a 8 m (store64 m a v).
Proof. apply (store_le_outside m a 8). Qed.

Lemma load64_ext m m' a :
  (forall x, a <= x < a + 8 -> m' x = m x) -> load64 m' a = load64 m a.
Proof. apply (load_le_ext m m' a 8). Qed.

Lemma load64_store64_ne m a b v :
  b + 8 <= a \/ a + 8 <= b -> load64 (store64 m b v) a = load64 m a.
Proof. intros. apply load64_ext. intros x Hx. apply store64_outside. lia. Qed.

Lemma load64_zero m a : (forall x, a <= x < a + 8 -> m x = 0) -> load64 m a = 0.
Proof. intros H. unfold load64. cbn [load_le]. unfold load8. by rewrite !H by lia. Qed.

Lemma same_outside_refl a n m : same_outside a n m m.
Proof. by intros x _. Qed.

Lemma same_outside_trans a n m1 m2 m3 :
  same_outside a n m1 m2 -> same_outside a n m2 m3 -> same_outside a n m1 m3.
Proof. intros H1 H2 x Hx. by rewrite H2, H1. Qed.

Lemma same_outside_weaken a n b k m m' :
  same_outside a n m m' -> b <= a -> a + n <= b + k -> same_outside b k m m'.
Proof. intros H ? ? x Hx. apply H. lia. Qed.

Lemma store8_outside m a v b k : b <= a < b + k -> same_outside b k m (store8 m a v).
Proof. intros H x Hx. apply store8_ne. lia. Qed.

#[export] Hint Resolve load8_bound load64_bound u8_bound u64_bound same_outside_refl : xv6.

(** ** Correctness of the functions *)

Lemma memset_loop_spec n m dst c i :
  (forall x, dst + i <= x < dst + i + Z.of_nat n -> memset_loop m dst c i n x = u8 c) /\
  same_outside (dst + i) (Z.of_nat n) m (memset_loop m dst c i n).
Proof.
  revert m i. induction n as [|n IH]; intros m i; [split; [lia|apply same_outside_refl]|].
  cbn [memset_loop]. destruct (IH (store8 m (dst + i) c) (i + 1)) as [Hin Hout]. split.
  - intros x Hx. destruct (Z.eq_dec x (dst + i)) as [->|].
    + rewrite Hout by lia. apply store8_eq.
    + apply Hin. lia.
  - intros x Hx. rewrite Hout by lia. apply store8_ne. lia.
Qed.

Lemma memset_in m dst c n x : dst <= x < dst + n -> memset m dst c n x = u8 c.
Proof. intros. apply memset_loop_spec. lia. Qed.

Lemma memset_outside m dst c n : 0 <= n -> same_outside dst n m (memset m dst c n).
Proof. intros ? x ?. apply memset_loop_spec. lia. Qed.

Lemma memset_load64 m dst n a : dst <= a -> a + 8 <= dst + n -> load64 (memset m dst 0 n) a = 0.
Proof.
  intros. unfold load64. cbn [load_le]. unfold load8.
  rewrite !memset_in by lia. reflexivity.
Qed.

(** [memset] sets exactly the [n] bytes at [dst] to the low byte of [c] and
    no byte outside them. *)
Theorem memset_spec (m : mem) (dst c n : Z) (Hn : 0 <= n) :
  (forall i, 0 <= i < n -> load8 (memset m dst c n) (dst + i) = u8 c) /\
  same_outside dst n m (memset m dst c n).
Proof.
  split; [|by apply memset_outside].
  intros i Hi. unfold load8. rewrite memset_in by lia. apply u8_small, u8_bound.
Qed.

(** Copying upwards reads each source byte before it can be overwritten when
    the destination does not start inside the source. *)
Lemma copy_forward_spec n m d s :
  d <= s \/ s + Z.of_nat n <= d ->
  (forall i, 0 <= i < Z.of_nat n -> load8 (copy_forward m d s n) (d + i) = load8 m (s + i)) /\
  same_outside d (Z.of_nat n) m (copy_forward m d s n).
Proof.
  revert m d s. induction n as [|n IH]; intros m d s Hds; [split; [lia|apply same_outside_refl]|].
  cbn [copy_forward].
  destruct (IH (store8 m d (load8 m s)) (d + 1) (s + 1)) as [Hin Hout]; [lia|]. split.
  - intros i Hi. destruct (Z.eq_dec i 0) as [->|].
    + rewrite !Z.add_0_r. rewrite (load8_same _ _ _ (Hout d ltac:(lia))).
      rewrite load8_store8_eq. apply u8_small, u8_bound.
    + replace (d + i) with (d + 1 + (i - 1)) by lia. rewrite Hin by lia.
      rewrite load8_store8_ne by lia. f_equal. lia.
  - intros x Hx. rewrite Hout by lia. apply store8_ne. lia.
Qed.

(** Copying downwards, with [d] and [s] one past the ends of the ranges. *)
Lemma copy_backward_spec n m d s :
  s <= d ->
  (forall i, 1 <= i <= Z.of_nat n -> load8 (copy_backward m d s n) (d - i) = load8 m (s - i)) /\
  same_outside (d - Z.of_nat n) (Z.of_nat n) m (copy_backward m d s n).
Proof.
  revert m d s. induction n as [|n IH]; intros m d s Hds; [split; [lia|apply same_outside_refl]|].
  cbn [copy_backward].
  destruct (IH (store8 m (d - 1) (load8 m (s - 1))) (d - 1) (s - 1)) as [Hin Hout]; [lia|]. split.
  - intros i Hi. destruct (Z.eq_dec i 1) as [->|].
    + rewrite (load8_same _ _ _ (Hout (d - 1) ltac:(lia))).
      rewrite load8_store8_eq. apply u8_small, u8_bound.
    + replace (d - i) with (d - 1 - (i - 1)) by lia. rewrite Hin by lia.
      rewrite load8_store8_ne by lia. f_equal. lia.
  - intros x Hx. rewrite Hout by lia. apply store8_ne. lia.
Qed.

Lemma memmove_load m dst src n i :
  0 <= i < n -> load8 (memmove m dst src n) (dst + i) = load8 m (src + i).
Proof.
  intros Hi. unfold memmove.
  destruct (Z.ltb_spec src dst), (Z.ltb_spec dst (src + n)); cbn [andb].
  1: replace (dst + i) with (dst + n - (n - i)) by lia;
     replace (src + i) with (src + n - (n - i)) by lia;
     apply copy_backward_spec; lia.
  all: apply copy_forward_spec; lia.
Qed.

Lemma memmove_outside m dst src n : 0 <= n -> same_outside dst n m (memmove m dst src n).
Proof.
  intros Hn x Hx. unfold memmove.
  destruct (Z.ltb_spec src dst), (Z.ltb_spec dst (src + n)); cbn [andb].
  1: apply copy_backward_spec; lia.
  all: apply copy_forward_spec; lia.
Qed.

(** [memmove] copies the [n] source bytes as they were before the call,
    however the two ranges overlap, and writes no other byte. *)
Theorem memmove_spec (m : mem) (dst src n : Z) (Hn : 0 <= n) :
  (forall i, 0 <= i < n -> load8 (memmove m dst src n) (dst + i) = load8 m (src + i)) /\
  same_outside dst n m (memmove m dst src n).
Proof. split; [intros; by apply memmove_load | by apply memmove_outside]. Qed.

Lemma memcmp_loop_zero n m s1 s2 :
  memcmp_loop m s1 s2 n = 0 <-> bytes_at m s1 n = bytes_at m s2 n.
Proof.
  revert s1 s2. induction n as [|n IH]; intros s1 s2; [done|].
  cbn [memcmp_loop bytes_at]. destruct (Z.eqb_spec (load8 m s1) (load8 m s2)) as [E|E]; cbn [negb].
  - rewrite IH, E. split; [by intros -> | by intros [=]].
  - split; [lia | by intros [=]].
Qed.

Lemma cstr_length m a n : (length (cstr m a n) <= n)%nat.
Proof.
  revert a. induction n as [|n IH]; intros a; [done|]. cbn [cstr].
  destruct (_ =? 0); cbn; [lia|]. specialize (IH (a + 1)). lia.
Qed.

Lemma cstr_ext m m' a b n :
  (forall i, 0 <= i < Z.of_nat n -> load8 m' (b + i) = load8 m (a + i)) -> cstr m' b n = cstr m a n.
Proof.
  revert a b. induction n as [|n IH]; intros a b H; [done|]. cbn [cstr].
  rewrite <- (Z.add_0_r b), <- (Z.add_0_r a), (H 0), !Z.add_0_r by lia.
  rewrite (IH (a + 1) (b + 1)); [done|]. intros i Hi.
  rewrite <- !Z.add_assoc. apply H. lia.
Qed.

Lemma strncmp_loop_zero n m p q :
  strncmp_loop m p q n = 0 <-> cstr m p n = cstr m q n.
Proof.
  revert p q. induction n as [|n IH]; intros p q; [done|].
  cbn [strncmp_loop cstr].
  destruct (Z.eqb_spec (load8 m p) 0) as [Ep|Ep]; cbn [negb andb].
  - rewrite Ep. destruct (Z.eqb_spec (load8 m q) 0); split; [done|lia|lia|done].
  - destruct (Z.eqb_spec (load8 m p) (load8 m q)) as [E|E].
    + rewrite <- E. destruct (Z.eqb_spec (load8 m p) 0); [done|].
      rewrite IH. split; [by intros ->|by intros [=]].
    + destruct (Z.eqb_spec (load8 m q) 0); split; [lia|done|lia|by intros [=]].
Qed.

(** [strncmp] returns 0 exactly when the two C strings, cut after [n]
    bytes, are the same string. *)
Theorem strncmp_zero (m : mem) (p q n : Z) :
  strncmp m p q n = 0 <-> cstr m p (Z.to_nat n) = cstr m q (Z.to_nat n).
Proof. apply strncmp_loop_zero. Qed.

Lemma zero_fill_spec n m s :
  (forall i, 0 <= i < Z.of_nat n -> load8 (zero_fill m s n) (s + i) = 0) /\
  same_outside s (Z.of_nat n) m (zero_fill m s n).
Proof.
  revert m s. induction n as [|n IH]; intros m s; [split; [lia|apply same_outside_refl]|].
  cbn [zero_fill]. destruct (IH (store8 m s 0) (s + 1)) as [Hin Hout]. split.
  - intros i Hi. destruct (Z.eq_dec i 0) as [->|].
    + rewrite Z.add_0_r, (load8_same _ _ _ (Hout s ltac:(lia))). by rewrite load8_store8_eq.
    + replace (s + i) with (s + 1 + (i - 1)) by lia. apply Hin. lia.
  - intros x Hx. rewrite Hout by lia. apply store8_ne. lia.
Qed.

(** The source range is not touched by a copy to a disjoint destination. *)
Definition disjoint_ranges (a n b k : Z) : Prop := a + n <= b \/ b + k <= a.

Lemma strncpy_loop_spec n m s t :
  disjoint_ranges s (Z.of_nat n) t (Z.of_nat n) ->
  (forall i, 0 <= i < Z.of_nat n -> load8 (strncpy_loop m s t n) (s + i) =
     if i <? Z.of_nat (length (cstr m t n)) then load8 m (t + i) else 0) /\
  same_outside s (Z.of_nat n) m (strncpy_loop m s t n).
Proof.
  unfold disjoint_ranges. revert m s t.
  induction n as [|n IH]; intros m s t Hd; [split; [lia|apply same_outside_refl]|].
  cbn [strncpy_loop cstr]. set (m' := store8 m s (load8 m t)).
  assert (Hm' : forall x, x <> s -> load8 m' x = load8 m x) by (intros; by apply load8_store8_ne).
  assert (Hs : load8 m' s = load8 m t)
    by (unfold m'; rewrite load8_store8_eq; apply u8_small, load8_bound).
  destruct (Z.eqb_spec (load8 m t) 0) as [E|E]; cbn [negb].
  - destruct (zero_fill_spec n m' (s + 1)) as [Hin Hout]. split.
    + intros i Hi. rewrite (proj2 (Z.ltb_ge _ _)) by (cbn; lia).
      destruct (Z.eq_dec i 0) as [->|].
      * rewrite Z.add_0_r, (load8_same _ _ _ (Hout s ltac:(lia))). congruence.
      * replace (s + i) with (s + 1 + (i - 1)) by lia. apply Hin. lia.
    + intros x Hx. rewrite Hout by lia. apply store8_ne. lia.
  - destruct (IH m' (s + 1) (t + 1)) as [Hin Hout]; [lia|].
    rewrite (cstr_ext m m' (t + 1) (t + 1)) in Hin by (intros; apply Hm'; lia). split.
    + intros i Hi. cbn [length]. destruct (Z.eq_dec i 0) as [->|].
      * rewrite (proj2 (Z.ltb_lt _ _)), !Z.add_0_r by lia.
        by rewrite (load8_same _ _ _ (Hout s ltac:(lia))).
      * replace (s + i) with (s + 1 + (i - 1)) by lia. rewrite Hin by lia.
        rewrite Hm' by lia. replace (t + 1 + (i - 1)) with (t + i) by lia.
        zcase; lia.
    + intros x Hx. rewrite Hout by lia. apply store8_ne. lia.
Qed.

Lemma cstr_nul_free m a n i :
  (i < length (cstr m a n))%nat -> load8 m (a + Z.of_nat i) <> 0.
Proof.
  revert a i. induction n as [|n IH]; intros a i Hi; [cbn in Hi; lia|].
  cbn [cstr] in Hi. destruct (Z.eqb_spec (load8 m a) 0) as [E|E]; [cbn in Hi; lia|].
  destruct i as [|i]; [by rewrite Z.add_0_r|].
  replace (a + Z.of_nat (S i)) with (a + 1 + Z.of_nat i) by lia. apply IH. cbn in Hi. lia.
Qed.

(** A memory that holds [k] bytes of the string at [t], and then a NUL or the
    end of the range, reads back as that string. *)
Lemma cstr_read_back n m m' s t k :
  (k <= n)%nat ->
  (forall i, (i < k)%nat -> load8 m' (s + Z.of_nat i) = load8 m (t + Z.of_nat i)) ->
  (forall i, (i < k)%nat -> load8 m (t + Z.of_nat i) <> 0) ->
  ((k < n)%nat -> load8 m' (s + Z.of_nat k) = 0) ->
  cstr m' s n = cstr m t k.
Proof.
  revert s t k. induction n as [|n IH]; intros s t k Hk Hcp Hnz Hend.
  { by replace k with 0%nat by lia. }
  destruct k as [|k]; cbn [cstr].
  { specialize (Hend ltac:(lia)). rewrite Z.add_0_r in Hend. by rewrite Hend. }
  pose proof (Hcp 0%nat ltac:(lia)) as Hcp0. pose proof (Hnz 0%nat ltac:(lia)) as Hnz0.
  rewrite Z.add_0_r in Hnz0. rewrite !Z.add_0_r in Hcp0. rewrite Hcp0.
  rewrite (proj2 (Z.eqb_neq _ _) Hnz0). f_equal. apply IH; [lia| | |].
  - intros i Hi. replace (s + 1 + Z.of_nat i) with (s + Z.of_nat (S i)) by lia.
    rewrite Hcp by lia. f_equal. lia.
  - intros i Hi. replace (t + 1 + Z.of_nat i) with (t + Z.of_nat (S i)) by lia. apply Hnz. lia.
  - intros Hlt. replace (s + 1 + Z.of_nat k) with (s + Z.of_nat (S k)) by lia. apply Hend. lia.
Qed.

Lemma cstr_take m a n k : (length (cstr m a n) <= k <= n)%nat -> cstr m a k = cstr m a n.
Proof.
  revert a k. induction n as [|n IH]; intros a k Hk; [by replace k with 0%nat by lia|].
  cbn [cstr] in *. destruct (Z.eqb_spec (load8 m a) 0) as [E|E].
  - destruct k; [done|]. cbn [cstr]. by rewrite E.
  - cbn [length] in Hk. destruct k; [lia|]. cbn [cstr].
    rewrite (proj2 (Z.eqb_neq _ _) E). f_equal. apply IH. lia.
Qed.

Lemma cstr_self_length m a n : cstr m a (length (cstr m a n)) = cstr m a n.
Proof. apply cstr_take. pose proof (cstr_length m a n). lia. Qed.

(** [strncpy] into a disjoint buffer writes only its [n] bytes and leaves
    there the source string cut after [n] bytes; the rest is NUL. *)
Theorem strncpy_spec (m : mem) (s t n : Z) (Hd : disjoint_ranges s n t n) (Hn : 0 <= n) :
  cstr (strncpy m s t n) s (Z.to_nat n) = cstr m t (Z.to_nat n) /\
  (forall i, Z.of_nat (length (cstr m t (Z.to_nat n))) <= i < n ->
     load8 (strncpy m s t n) (s + i) = 0) /\
  same_outside s n m (strncpy m s t n).
Proof.
  unfold strncpy.
  destruct (strncpy_loop_spec (Z.to_nat n) m s t) as [Hin Hout]; [by rewrite Z2Nat.id|].
  rewrite Z2Nat.id in Hin, Hout by done.
  pose proof (cstr_length m t (Z.to_nat n)). split_and!; [| |done].
  - rewrite <- (cstr_self_length m t). apply cstr_read_back; [lia| | |].
    + intros i Hi. rewrite Hin by lia. zcase; lia.
    + intros i Hi. by apply cstr_nul_free in Hi.
    + intros Hlt. rewrite Hin by lia. zcase; lia.
  - intros i Hi. rewrite Hin by lia. zcase; lia.
Qed.

Lemma safestrcpy_loop_spec n m s t :
  disjoint_ranges s (Z.of_nat n + 1) t (Z.of_nat n + 1) ->
  (forall i, 0 <= i < Z.of_nat (length (cstr m t n)) ->
     load8 (safestrcpy_loop m s t n) (s + i) = load8 m (t + i)) /\
  load8 (safestrcpy_loop m s t n) (s + Z.of_nat (length (cstr m t n))) = 0 /\
  same_outside s (Z.of_nat n + 1) m (safestrcpy_loop m s t n).
Proof.
  unfold disjoint_ranges. revert m s t. induction n as [|n IH]; intros m s t Hd.
  { cbn [safestrcpy_loop cstr length]. split_and!; [cbn; lia| |].
    - rewrite Z.add_0_r. by rewrite load8_store8_eq.
    - apply store8_outside. lia. }
  cbn [safestrcpy_loop cstr]. set (m' := store8 m s (load8 m t)).
  assert (Hs : load8 m' s = load8 m t)
    by (unfold m'; rewrite load8_store8_eq; apply u8_small, load8_bound).
  assert (Hm' : forall x, x <> s -> load8 m' x = load8 m x) by (intros; by apply load8_store8_ne).
  destruct (Z.eqb_spec (load8 m t) 0) as [E|E]; cbn [negb].
  - cbn [length]. split_and!; [cbn; lia| |].
    + rewrite Z.add_0_r, load8_store8_ne by lia. congruence.
    + intros x Hx. rewrite !store8_ne by lia. apply store8_ne. lia.
  - destruct (IH m' (s + 1) (t + 1)) as (Hin & Hnul & Hout); [lia|].
    rewrite (cstr_ext m m' (t + 1) (t + 1)) in Hin, Hnul by (intros; apply Hm'; lia).
    cbn [length]. split_and!.
    + intros i Hi. destruct (Z.eq_dec i 0) as [->|].
      * rewrite !Z.add_0_r. by rewrite (load8_same _ _ _ (Hout s ltac:(lia))).
      * replace (s + i) with (s + 1 + (i - 1)) by lia. rewrite Hin by lia.
        rewrite Hm'; [f_equal; lia|]. pose proof (cstr_length m (t + 1) n). lia.
    + rewrite Nat2Z.inj_succ. rewrite <- Hnul. f_equal. lia.
    + intros x Hx. rewrite Hout by lia. apply store8_ne. lia.
Qed.

(** [safestrcpy] with [n > 0] always leaves a NUL-terminated string: the
    source string cut after [n - 1] bytes; it writes only its [n] bytes. *)
Theorem safestrcpy_spec (m : mem) (s t n : Z) (Hd : disjoint_ranges s n t n) (Hn : 0 < n) :
  cstr (safestrcpy m s t n) s (Z.to_nat n) = cstr m t (Z.to_nat (n - 1)) /\
  load8 (safestrcpy m s t n) (s + Z.of_nat (length (cstr m t (Z.to_nat (n - 1))))) = 0 /\
  same_outside s n m (safestrcpy m s t n).
Proof.
  unfold safestrcpy. rewrite (proj2 (Z.leb_gt _ _) Hn).
  destruct (safestrcpy_loop_spec (Z.to_nat (n - 1)) m s t) as (Hin & Hnul & Hout).
  { rewrite Z2Nat.id by lia. by rewrite Z.sub_add. }
  rewrite Z2Nat.id, Z.sub_add in Hout by lia.
  pose proof (cstr_length m t (Z.to_nat (n - 1))). split_and!; [|done|done].
  rewrite <- (cstr_self_length m t) at 1. apply cstr_read_back; [lia| | |].
  - intros i Hi. apply Hin. lia.
  - intros i Hi. by apply cstr_nul_free in Hi.
  - intros _. done.
Qed.

Lemma strlen_loop_spec k m s n fuel :
  (forall j, (j < k)%nat -> load8 m (s + n + Z.of_nat j) <> 0) ->
  load8 m (s + n + Z.of_nat k) = 0 -> (k < fuel)%nat ->
  strlen_loop m s n fuel = Some (n + Z.of_nat k).
Proof.
  revert n fuel. induction k as [|k IH]; intros n fuel Hnz Hz Hf; (destruct fuel as [|fuel]; [lia|]);
    cbn [strlen_loop].
  - rewrite Z.add_0_r in Hz. rewrite Hz. cbn. f_equal. lia.
  - pose proof (Hnz 0%nat ltac:(lia)) as H0. rewrite Z.add_0_r in H0.
    rewrite (proj2 (Z.eqb_neq _ _) H0), IH; [f_equal; lia| | |lia].
    + intros j Hj. replace (s + (n + 1) + Z.of_nat j) with (s + n + Z.of_nat (S j)) by lia.
      apply Hnz. lia.
    + rewrite <- Hz. f_equal. lia.
Qed.

(** [strlen] returns the distance of the first NUL byte. *)
Lemma strlen_spec (m : mem) (s : Z) (k fuel : nat) :
  (forall j, (j < k)%nat -> load8 m (s + Z.of_nat j) <> 0) ->
  load8 m (s + Z.of_nat k) = 0 -> (k < fuel)%nat ->
  strlen m s fuel = Some (Z.of_nat k).
Proof.
  intros. unfold strlen. apply (strlen_loop_spec k m s 0); [|by rewrite Z.add_0_r|done].
  intros. rewrite Z.add_0_r. auto.
Qed.

(** The proofs of the clients use the lemmas above, not the loops. *)
#[global] Opaque memset memmove load64 store64.
