(* ===== verification/Kalloc.v ===== *)
(** * The physical page allocator, [kernel/kalloc.c]

    The free list is threaded through the free pages themselves: the first
    eight bytes of a free page hold the address of the next one ([struct run]).
    The bodies run with [kmem.lock] held, so each is one atomic step.

    [kmem_inv] relates the pointers in memory to the list of free pages, the
    theorems give every operation's effect on that list, and the transition
    system [kstep] (allocations, frees and client writes in any order) shows
    that a page is never handed out twice. *)

From S2P Require Import Prelude Riscv KString.

(** Addresses that the linker script [kernel/kernel.ld] assigns. *)
Class Linker := {
  kend : Z;         (* end: first address after the kernel *)
  etext : Z;        (* end of the kernel text *)
  trampoline : Z;   (* the trampoline page *)
}.

(** The kernel is loaded at [KERNBASE], fits below [PHYSTOP] and has its
    trampoline in a page of its own. *)
Class LinkerOk (L : Linker) := {
  etext_ge : KERNBASE < etext;
  etext_aligned : etext mod PGSIZE = 0;
  kend_ge : etext <= kend;
  kend_le : kend <= PHYSTOP;
  trampoline_range : KERNBASE <= trampoline < etext;
  trampoline_aligned : trampoline mod PGSIZE = 0;
}.

(** Physical memory, [kmem.freelist] and the global [kernel_pagetable]. *)
Record phys := Phys { pmem : mem; freelist : Z; kernel_pagetable : Z }.

Definition set_pmem (m : mem) (s : phys) : phys := Phys m (freelist s) (kernel_pagetable s).
Definition set_freelist (p : Z) (s : phys) : phys := Phys (pmem s) p (kernel_pagetable s).
Definition set_kernel_pagetable (p : Z) (s : phys) : phys := Phys (pmem s) (freelist s) p.

Section Kalloc.
Context `{L : Linker}.

Definition kfree (pa : Z) : M phys unit :=
  panic_if (negb (pa mod PGSIZE =? 0) || (pa <? kend) || (PHYSTOP <=? pa)) "kfree" ;;
  modify (fun s => set_pmem (memset (pmem s) pa 1 PGSIZE) s) ;;
  modify (fun s => set_pmem (store64 (pmem s) pa (freelist s)) s) ;;
  modify (set_freelist pa).

Fixpoint freerange_loop (p pa_end : Z) (fuel : nat) : M phys unit :=
  match fuel with
  | O => nofuel
  | S k =>
      if p + PGSIZE <=? pa_end
      then kfree p ;; freerange_loop (p + PGSIZE) pa_end k
      else ret tt
  end.

Definition freerange (pa_start pa_end : Z) : M phys unit :=
  freerange_loop (PGROUNDUP pa_start) pa_end (Z.to_nat ((pa_end - PGROUNDUP pa_start) / PGSIZE + 2)).

Definition kinit : M phys unit := freerange kend PHYSTOP.

Definition kalloc : M phys Z :=
  let! r := gets freelist in
  (if negb (r =? 0) then modify (fun s => set_freelist (load64 (pmem s) r) s) else ret tt) ;;
  (if negb (r =? 0) then modify (fun s => set_pmem (memset (pmem s) r 5 PGSIZE) s) else ret tt) ;;
  ret r.

(** ** The free list as a list *)

Definition page_ok (pa : Z) : Prop := pa mod PGSIZE = 0 /\ kend <= pa < PHYSTOP.

Fixpoint free_list_at (m : mem) (p : Z) (l : list Z) : Prop :=
  match l with
  | [] => p = 0
  | x :: l' => p = x /\ free_list_at m (load64 m x) l'
  end.

Record kmem_inv (s : phys) (l : list Z) : Prop := {
  ki_list : free_list_at (pmem s) (freelist s) l;
  ki_nodup : NoDup l;
  ki_pages : Forall page_ok l;
}.

(** The [n] page frames from [p] up, and all the frames of the allocator. *)
Fixpoint pages_from (p : Z) (n : nat) : list Z :=
  match n with
  | O => []
  | S k => p :: pages_from (p + PGSIZE) k
  end.

Definition all_pages : list Z :=
  pages_from (PGROUNDUP kend) (Z.to_nat ((PHYSTOP - PGROUNDUP kend) / PGSIZE)).

(** ** Clients of the allocator

    The allocator with the pages its clients hold: clients allocate, free a page
    they hold, and write anywhere in the pages they hold or below the
    allocator's memory. *)
Record kworld := KWorld { kw_phys : phys; kw_out : list Z }.

Inductive kstep : kworld -> kworld -> Prop :=
  | kstep_alloc s s' out pa :
      kalloc s = Ok (pa, s') -> pa <> 0 -> kstep (KWorld s out) (KWorld s' (pa :: out))
  | kstep_alloc_fail s s' out :
      kalloc s = Ok (0, s') -> kstep (KWorld s out) (KWorld s' out)
  | kstep_free s s' out1 pa out2 :
      kfree pa s = Ok (tt, s') ->
      kstep (KWorld s (out1 ++ pa :: out2)) (KWorld s' (out1 ++ out2))
  | kstep_write s out x v :
      x < kend \/ Exists (fun pa => pa <= x < pa + PGSIZE) out ->
      kstep (KWorld s out) (KWorld (set_pmem (store8 (pmem s) x v) s) out).
End Kalloc.

Definition in_page (pa x : Z) : Prop := pa <= x < pa + PGSIZE.

(** The memories agree on the pages of [l]. *)
Definition same_pages (l : list Z) (m m' : mem) : Prop :=
  forall pa x, pa ∈ l -> in_page pa x -> m' x = m x.

Section KallocProofs.
Context {L : Linker} {LOk : LinkerOk L}.

Lemma linker_bounds :
  KERNBASE < kend <= PHYSTOP /\ KERNBASE < etext <= kend /\ KERNBASE <= trampoline < etext.
Proof.
  pose proof etext_ge. pose proof kend_ge. pose proof kend_le. pose proof trampoline_range. lia.
Qed.

Lemma page_ok_bounds pa : page_ok pa -> KERNBASE < pa /\ pa + PGSIZE <= PHYSTOP.
Proof.
  intros [Ha Hb]. pose proof linker_bounds. kdlia.
Qed.

Lemma aligned_disjoint pa pb x :
  pa mod PGSIZE = 0 -> pb mod PGSIZE = 0 -> pa <> pb -> in_page pa x -> ~ in_page pb x.
Proof. unfold in_page, PGSIZE. intros. dlia. Qed.

Lemma page_ok_disjoint pa pb x :
  page_ok pa -> page_ok pb -> pa <> pb -> in_page pa x -> ~ in_page pb x.
Proof. intros [? _] [? _]. by apply aligned_disjoint. Qed.

Lemma free_list_same m m' l : forall p,
  same_pages l m m' -> free_list_at m p l -> free_list_at m' p l.
Proof.
  induction l as [|x l IH]; intros p Hs; cbn [free_list_at]; [done|]. intros [-> Hl].
  split; [done|]. rewrite (load64_ext m m').
  - apply IH; [|done]. intros pa y Hpa. apply Hs. by right.
  - intros y Hy. apply (Hs x); [by left|]. unfold in_page. klia.
Qed.

(** Writes outside the free pages keep the free list. *)
Lemma kmem_inv_same s s' l :
  freelist s' = freelist s -> same_pages l (pmem s) (pmem s') -> kmem_inv s l -> kmem_inv s' l.
Proof.
  intros Hf Hs [Hl Hn Hp]. split; [|done|done]. rewrite Hf. by eapply free_list_same.
Qed.

Lemma same_outside_pages pa n l m m' :
  same_outside pa n m m' -> (forall pb x, pb ∈ l -> in_page pb x -> ~ (pa <= x < pa + n)) ->
  same_pages l m m'.
Proof. intros Ho Hd pb x Hpb Hx. apply Ho. eauto. Qed.

Lemma outside_page_same pa l m m' :
  same_outside pa PGSIZE m m' -> page_ok pa -> Forall page_ok l -> pa ∉ l -> same_pages l m m'.
Proof.
  intros Ho Hpa Hl Hni. eapply same_outside_pages; [done|].
  intros pb x Hpb Hx. rewrite Forall_forall in Hl.
  apply (page_ok_disjoint pb pa x); [auto|done|by intros ->|done].
Qed.

Lemma kfree_run (s : phys) (pa : Z) :
  page_ok pa ->
  kfree pa s = Ok (tt, Phys (store64 (memset (pmem s) pa 1 PGSIZE) pa (freelist s)) pa (kernel_pagetable s)).
Proof.
  intros [Ha Hb]. unfold kfree.
  rewrite (proj2 (Z.eqb_eq _ _) Ha), (proj2 (Z.ltb_ge pa kend)), (proj2 (Z.leb_gt _ _)) by lia.
  reflexivity.
Qed.

Lemma kfree_mem_outside s pa :
  same_outside pa PGSIZE (pmem s) (store64 (memset (pmem s) pa 1 PGSIZE) pa (freelist s)).
Proof.
  eapply same_outside_trans; [apply memset_outside; klia|].
  eapply same_outside_weaken; [apply store64_outside| |]; klia.
Qed.

Lemma kmem_head_bound s l : kmem_inv s l -> 0 <= freelist s < 2 ^ 64.
Proof.
  intros [Hl _ Hp]. destruct l as [|x l]; cbn in Hl; [lia|]. destruct Hl as [-> _].
  apply Forall_cons in Hp as [Hx _]. apply page_ok_bounds in Hx. klia.
Qed.

(** What [kfree] of a page that is not free does. *)
Lemma kfree_ok s l pa :
  kmem_inv s l -> page_ok pa -> pa ∉ l ->
  exists s', kfree pa s = Ok (tt, s') /\ kmem_inv s' (pa :: l) /\
    same_outside pa PGSIZE (pmem s) (pmem s') /\ kernel_pagetable s' = kernel_pagetable s.
Proof.
  intros Hinv Hpa Hni. pose proof (kmem_head_bound _ _ Hinv) as Hb.
  destruct Hinv as [Hl Hn Hp]. eexists. split; [by apply kfree_run|].
  split; [|split; [apply kfree_mem_outside|done]]. split; cbn [pmem freelist].
  - split; [done|]. rewrite load64_store64_eq, u64_small by done.
    eapply free_list_same; [|done].
    eapply outside_page_same; eauto using kfree_mem_outside.
  - by constructor.
  - by constructor.
Qed.

(** What [kalloc] does: it fails only with an empty free list, and otherwise
    returns its first page filled with 5. *)
Lemma kalloc_nil s : kmem_inv s [] -> kalloc s = Ok (0, s).
Proof. intros [Hl _ _]. cbn in Hl. unfold kalloc, bind, gets. by rewrite Hl. Qed.

Lemma kalloc_cons s pa l :
  kmem_inv s (pa :: l) ->
  exists s', kalloc s = Ok (pa, s') /\ kmem_inv s' l /\ page_ok pa /\ (pa ∉ l) /\
    (forall x, in_page pa x -> pmem s' x = 5) /\
    same_outside pa PGSIZE (pmem s) (pmem s') /\ kernel_pagetable s' = kernel_pagetable s.
Proof.
  intros [[Hf Hl] Hn Hp]. apply NoDup_cons in Hn as [Hni Hn].
  apply Forall_cons in Hp as [Hpa Hp]. pose proof (page_ok_bounds _ Hpa) as Hb.
  exists (Phys (memset (pmem s) pa 5 PGSIZE) (load64 (pmem s) pa) (kernel_pagetable s)).
  assert (same_outside pa PGSIZE (pmem s) (memset (pmem s) pa 5 PGSIZE)) as Ho
    by (apply memset_outside; klia).
  split_and!; [| |done|done| |done|done].
  - unfold kalloc, bind, gets, modify, ret. rewrite Hf.
    rewrite (proj2 (Z.eqb_neq pa 0)) by klia. reflexivity.
  - split; cbn [pmem freelist]; [|done|done].
    eapply free_list_same; [|done]. by eapply outside_page_same.
  - intros x Hx. cbn [pmem]. by rewrite memset_in.
Qed.

(** [kfree] panics on exactly the addresses that are not page frames of the
    allocator. *)
Theorem kfree_panics (s : phys) (pa : Z) :
  (exists e, kfree pa s = Panic e) <-> ~ page_ok pa.
Proof.
  split.
  - intros [e He] Hpa. by rewrite kfree_run in He.
  - intros Hpa. exists "kfree"%string. unfold kfree, bind, panic_if.
    destruct (Z.eqb_spec (pa mod PGSIZE) 0), (Z.ltb_spec pa kend), (Z.leb_spec PHYSTOP pa);
      cbn; try done. exfalso. apply Hpa. split; [done|lia].
Qed.

(** ** [kinit] *)

Lemma PGROUNDUP_kend :
  PGROUNDUP kend mod PGSIZE = 0 /\ kend <= PGROUNDUP kend < kend + PGSIZE /\
  PGROUNDUP kend <= PHYSTOP.
Proof.
  pose proof linker_bounds. rewrite PGROUNDUP_spec by klia. kdlia.
Qed.

Lemma elem_of_pages_from n p x :
  x ∈ pages_from p n <-> exists i, 0 <= i < Z.of_nat n /\ x = p + PGSIZE * i.
Proof.
  revert p. induction n as [|n IH]; intros p; cbn [pages_from].
  - rewrite elem_of_nil. split; [done|]. intros (i & Hi & _). lia.
  - rewrite elem_of_cons, IH. split.
    + intros [->|(i & Hi & ->)]; [exists 0 | exists (i + 1)]; lia.
    + intros (i & Hi & ->). destruct (Z.eq_dec i 0) as [->|]; [left; lia|].
      right. exists (i - 1). lia.
Qed.

Lemma elem_of_all_pages pa : pa ∈ all_pages <-> page_ok pa.
Proof.
  unfold all_pages. rewrite elem_of_pages_from. pose proof PGROUNDUP_kend as (Ha & Hb & Hc).
  unfold page_ok. split.
  - intros (i & Hi & ->). rewrite Z2Nat.id in Hi by kdlia. kdlia.
  - intros [Hm Hr]. exists ((pa - PGROUNDUP kend) / PGSIZE). rewrite Z2Nat.id by kdlia. kdlia.
Qed.

Lemma freerange_loop_ok n : forall s l p fuel,
  kmem_inv s l -> p mod PGSIZE = 0 -> kend <= p -> p + PGSIZE * Z.of_nat n = PHYSTOP ->
  (forall pa, pa ∈ l -> pa < p) -> (n < fuel)%nat ->
  exists s', freerange_loop p PHYSTOP fuel s = Ok (tt, s') /\
    kmem_inv s' (reverse (pages_from p n) ++ l).
Proof.
  induction n as [|n IH]; intros s l p fuel Hinv Ha Hk Hp Hl Hf; (destruct fuel as [|fuel]; [lia|]);
    cbn [freerange_loop pages_from].
  - rewrite (proj2 (Z.leb_gt _ _)) by klia. by eexists.
  - rewrite (proj2 (Z.leb_le _ _)) by klia.
    destruct (kfree_ok s l p) as (s1 & Hrun & Hinv1 & _); [done|split; [done|klia]| |].
    { intros Hin. apply Hl in Hin. lia. }
    mstep Hrun. destruct (IH s1 (p :: l) (p + PGSIZE) fuel) as (s' & Hr & Hi); [done|kdlia|klia|klia| |lia|].
    { intros pa [->|Hin]%elem_of_cons; [klia|]. apply Hl in Hin. klia. }
    exists s'. split; [done|]. by rewrite reverse_cons, <- app_assoc.
Qed.

Lemma kinit_ok s :
  freelist s = 0 -> exists s', kinit s = Ok (tt, s') /\ kmem_inv s' (reverse all_pages).
Proof.
  intros Hf. pose proof PGROUNDUP_kend as (Ha & Hb & Hc).
  destruct (freerange_loop_ok (Z.to_nat ((PHYSTOP - PGROUNDUP kend) / PGSIZE)) s [] (PGROUNDUP kend)
    (Z.to_nat ((PHYSTOP - PGROUNDUP kend) / PGSIZE + 2))) as (s' & Hr & Hi).
  - split; [done|constructor|constructor].
  - done.
  - lia.
  - rewrite Z2Nat.id by kdlia. kdlia.
  - intros pa Hin. by apply elem_of_nil in Hin.
  - kdlia.
  - exists s'. split; [done|]. by rewrite app_nil_r in Hi.
Qed.

(** ** Safety of the allocator for its clients *)

Lemma pages_from_NoDup n p : NoDup (pages_from p n).
Proof.
  revert p. induction n as [|n IH]; intros p; cbn [pages_from]; constructor; [|done].
  rewrite elem_of_pages_from. intros (i & Hi & Heq). klia.
Qed.

(** Free pages and held pages are together all the frames. *)
Definition kworld_inv (w : kworld) : Prop :=
  exists l, kmem_inv (kw_phys w) l /\ l ++ kw_out w ≡ₚ all_pages.

Lemma kworld_inv_page w l pa :
  l ++ kw_out w ≡ₚ all_pages -> pa ∈ kw_out w -> page_ok pa /\ pa ∉ l.
Proof.
  intros Hp Hin. split.
  - apply elem_of_all_pages. rewrite <- Hp. set_solver.
  - assert (NoDup (l ++ kw_out w)) as Hn by (rewrite Hp; apply pages_from_NoDup).
    apply NoDup_app in Hn as (_ & Hd & _). intros Hl. by apply (Hd pa).
Qed.

Lemma kstep_inv w w' : kstep w w' -> kworld_inv w -> kworld_inv w'.
Proof.
  intros Hstep (l & Hinv & Hperm). destruct Hstep as
    [s s' out pa Hrun Hnz|s s' out Hrun|s s' out1 pa out2 Hrun|s out x v Hx]; cbn [kw_phys kw_out] in *.
  - destruct l as [|pb l].
    { rewrite kalloc_nil in Hrun by done. by simplify_eq. }
    destruct (kalloc_cons s pb l Hinv) as (s1 & Hr & Hi & _). rewrite Hr in Hrun. simplify_eq.
    exists l. split; [done|]. cbn [kw_out]. rewrite <- Hperm. symmetry. apply Permutation_middle.
  - destruct l as [|pb l].
    { rewrite kalloc_nil in Hrun by done. simplify_eq. by exists []. }
    destruct (kalloc_cons s pb l Hinv) as (s1 & Hr & Hi & Hpb & _). rewrite Hr in Hrun.
    apply page_ok_bounds in Hpb. simplify_eq. klia.
  - assert (pa ∈ out1 ++ pa :: out2) as Hin by set_solver.
    destruct (kworld_inv_page (KWorld s (out1 ++ pa :: out2)) l pa Hperm Hin) as [Hpa Hni].
    destruct (kfree_ok s l pa Hinv Hpa Hni) as (s1 & Hr & Hi & _). rewrite Hr in Hrun. simplify_eq.
    exists (pa :: l). split; [done|]. cbn [kw_out]. rewrite <- Hperm.
    rewrite <- (Permutation_middle out1). apply Permutation_middle.
  - exists l. split; [|done]. apply (kmem_inv_same s); [done| |done].
    intros pb y Hpb Hy. apply store8_ne. intros ->.
    assert (page_ok pb) as Hok by (apply elem_of_all_pages; rewrite <- Hperm, elem_of_app; by left).
    destruct Hx as [Hx|Hx].
    + destruct Hok. unfold in_page in Hy. lia.
    + apply Exists_exists in Hx as (pa & Hin & Hxa).
      destruct (kworld_inv_page (KWorld s out) l pa Hperm Hin) as [Hpa Hni].
      apply (page_ok_disjoint pb pa x); [done|done|by intros ->|done|done].
Qed.

(** C6. Whatever clients allocate, free and write after [kinit], the pages they
    hold are distinct frames of the allocator; [kalloc] always returns, and
    returns a frame nobody holds unless all the frames are held. *)
Theorem kalloc_exclusive (s0 s1 : phys) (w : kworld)
    (H0 : freelist s0 = 0) (H1 : kinit s0 = Ok (tt, s1)) (Hr : rtc kstep (KWorld s1 []) w) :
  NoDup (kw_out w) /\ Forall page_ok (kw_out w) /\
  exists pa s', kalloc (kw_phys w) = Ok (pa, s') /\
    (pa = 0 /\ kw_out w ≡ₚ all_pages \/ page_ok pa /\ pa ∉ kw_out w).
Proof.
  assert (kworld_inv w) as (l & Hinv & Hperm).
  { destruct (kinit_ok s0 H0) as (s2 & Hr2 & Hi2). rewrite Hr2 in H1. simplify_eq.
    assert (kworld_inv (KWorld s1 [])) as Hi.
    { exists (reverse all_pages). split; [done|]. cbn. by rewrite app_nil_r, reverse_Permutation. }
    clear Hr2 Hi2. remember (KWorld s1 []) as w0 eqn:Hw0. clear Hw0.
    induction Hr as [|w1 w2 w3 Hs _ IH]; [done|]. eauto using kstep_inv. }
  assert (NoDup (l ++ kw_out w)) as Hn by (rewrite Hperm; apply pages_from_NoDup).
  apply NoDup_app in Hn as (_ & Hd & Hn). split_and!; [done| |].
  - apply Forall_forall. intros pa Hin. by eapply kworld_inv_page.
  - destruct l as [|pa l].
    + exists 0, (kw_phys w). split; [by apply kalloc_nil|]. by left.
    + destruct (kalloc_cons _ _ _ Hinv) as (s' & Hrun & _ & Hpa & _).
      exists pa, s'. split; [done|]. right. split; [done|]. apply Hd. by left.
Qed.
End KallocProofs.

(** A small machine: the kernel fills all but two pages of memory. *)
Definition small_linker : Linker := {|
  kend := PHYSTOP - 2 * PGSIZE - 100;
  etext := KERNBASE + 2 * PGSIZE;
  trampoline := KERNBASE + PGSIZE;
|}.

Lemma small_linker_ok : LinkerOk small_linker.
Proof. split; vm_compute; repeat split; congruence. Qed.

Lemma kalloc_exclusive_witness :
  exists s1, @kinit small_linker (Phys (fun _ => 0) 0 0) = Ok (tt, s1) /\
    exists pa s', @kalloc s1 = Ok (pa, s').
Proof.
  destruct (@kinit_ok small_linker small_linker_ok (Phys (fun _ => 0) 0 0) eq_refl) as (s1 & Hr & _).
  exists s1. split; [exact Hr|].
  destruct (@kalloc_exclusive small_linker small_linker_ok (Phys (fun _ => 0) 0 0) s1 (KWorld s1 [])
    eq_refl Hr (rtc_refl _ _)) as (_ & _ & pa & s' & Hk & _).
  exists pa, s'. exact Hk.
Defined.
