(* ===== verification/Vm.v ===== *)
(** * Page tables and user memory, [kernel/vm.c]: the operations

    A page table is the physical address of its root page; entries are 64-bit
    loads and stores in the memory of [Kalloc.phys], so page tables, user pages
    and the free list share one memory.  A virtual address argument is a
    [uint64] (at least 0 and below [2 ^ 64]); sums that C computes in [uint64]
    wrap.  The loops over virtual addresses carry fuel for the number of pages
    they can visit; [VmSpec] and [VmUser] show that it is enough. *)

From S2P Require Import Prelude Riscv KString Kalloc.

Definition pload64 (a : Z) : M phys Z := gets (fun s => load64 (pmem s) a).
Definition pstore64 (a v : Z) : M phys unit := modify (fun s => set_pmem (store64 (pmem s) a v) s).
Definition pmemset (dst c n : Z) : M phys unit := modify (fun s => set_pmem (memset (pmem s) dst c n) s).
Definition pmemmove (dst src n : Z) : M phys unit :=
  modify (fun s => set_pmem (memmove (pmem s) dst src n) s).

(** [x & flag] as a C condition. *)
Definition has (x flag : Z) : bool := negb (Z.land x flag =? 0).

Section Vm.
Context {L : Linker}.

(** The loop of [walk] over the levels 2 and 1, and the final
    [&pagetable[PX(0, va)]]. *)
Fixpoint walk_levels (levels : list Z) (pagetable va : Z) (alloc : bool) : M phys Z :=
  match levels with
  | [] => ret (pagetable + 8 * PX 0 va)
  | level :: rest =>
      let pte := pagetable + 8 * PX level va in
      let! v := pload64 pte in
      if has v PTE_V then walk_levels rest (PTE2PA v) va alloc
      else if negb alloc then ret 0
      else
        let! pt := kalloc in
        if pt =? 0 then ret 0
        else
          pmemset pt 0 PGSIZE ;;
          pstore64 pte (Z.lor (PA2PTE pt) PTE_V) ;;
          walk_levels rest pt va alloc
  end.

Definition walk (pagetable va : Z) (alloc : bool) : M phys Z :=
  panic_if (MAXVA <=? va) "walk" ;;
  walk_levels [2; 1] pagetable va alloc.

Definition walkaddr (pagetable va : Z) : M phys Z :=
  if MAXVA <=? va then ret 0
  else
    let! pte := walk pagetable va false in
    if pte =? 0 then ret 0
    else
      let! v := pload64 pte in
      if negb (has v PTE_V) then ret 0
      else if negb (has v PTE_U) then ret 0
      else ret (PTE2PA v).

Fixpoint mappages_loop (pagetable a last pa perm : Z) (fuel : nat) : M phys Z :=
  match fuel with
  | O => nofuel
  | S k =>
      let! pte := walk pagetable a true in
      if pte =? 0 then ret (-1)
      else
        let! v := pload64 pte in
        panic_if (has v PTE_V) "remap" ;;
        pstore64 pte (Z.lor (Z.lor (PA2PTE pa) perm) PTE_V) ;;
        if a =? last then ret 0
        else mappages_loop pagetable (u64 (a + PGSIZE)) last (u64 (pa + PGSIZE)) perm k
  end.

Definition mappages (pagetable va size pa perm : Z) : M phys Z :=
  let a := PGROUNDDOWN va in
  let last := PGROUNDDOWN (u64 (va + size - 1)) in
  mappages_loop pagetable a last pa perm
    (Z.to_nat ((if a <=? last then last - a else MAXVA) / PGSIZE + 2)).

Definition kvmmap (va pa sz perm : Z) : M phys unit :=
  let! kpt := gets kernel_pagetable in
  let! r := mappages kpt va sz pa perm in
  panic_if (negb (r =? 0)) "kvmmap".

Definition kvminit : M phys unit :=
  let! kpt := kalloc in
  modify (set_kernel_pagetable kpt) ;;
  pmemset kpt 0 PGSIZE ;;
  kvmmap UART0 UART0 PGSIZE (Z.lor PTE_R PTE_W) ;;
  kvmmap VIRTIO0 VIRTIO0 PGSIZE (Z.lor PTE_R PTE_W) ;;
  kvmmap CLINT CLINT 0x10000 (Z.lor PTE_R PTE_W) ;;
  kvmmap PLIC PLIC 0x400000 (Z.lor PTE_R PTE_W) ;;
  kvmmap KERNBASE KERNBASE (etext - KERNBASE) (Z.lor PTE_R PTE_X) ;;
  kvmmap etext etext (PHYSTOP - etext) (Z.lor PTE_R PTE_W) ;;
  kvmmap TRAMPOLINE trampoline PGSIZE (Z.lor PTE_R PTE_X).

Definition kvmpa (va : Z) : M phys Z :=
  let off := va mod PGSIZE in
  let! kpt := gets kernel_pagetable in
  let! pte := walk kpt va false in
  panic_if (pte =? 0) "kvmpa" ;;
  let! v := pload64 pte in
  panic_if (negb (has v PTE_V)) "kvmpa" ;;
  ret (u64 (PTE2PA v + off)).

Fixpoint uvmunmap_loop (pagetable a last : Z) (do_free : bool) (fuel : nat) : M phys unit :=
  match fuel with
  | O => nofuel
  | S k =>
      if a <? last then
        let! pte := walk pagetable a false in
        panic_if (pte =? 0) "uvmunmap: walk" ;;
        let! v := pload64 pte in
        panic_if (negb (has v PTE_V)) "uvmunmap: not mapped" ;;
        panic_if (PTE_FLAGS v =? PTE_V) "uvmunmap: not a leaf" ;;
        (if do_free then kfree (PTE2PA v) else ret tt) ;;
        pstore64 pte 0 ;;
        uvmunmap_loop pagetable (u64 (a + PGSIZE)) last do_free k
      else ret tt
  end.

Definition uvmunmap (pagetable va npages : Z) (do_free : bool) : M phys unit :=
  panic_if (negb (va mod PGSIZE =? 0)) "uvmunmap: not aligned" ;;
  let last := u64 (va + u64 (npages * PGSIZE)) in
  uvmunmap_loop pagetable va last do_free (Z.to_nat ((last - va) / PGSIZE + 2)).

Definition uvmcreate : M phys Z :=
  let! pagetable := kalloc in
  if pagetable =? 0 then ret 0
  else pmemset pagetable 0 PGSIZE ;; ret pagetable.

Definition uvminit (pagetable src sz : Z) : M phys unit :=
  panic_if (PGSIZE <=? sz) "inituvm: more than a page" ;;
  let! pa := kalloc in
  pmemset pa 0 PGSIZE ;;
  let! _ := mappages pagetable 0 PGSIZE pa (Z.lor (Z.lor (Z.lor PTE_W PTE_R) PTE_X) PTE_U) in
  pmemmove pa src sz.

Definition uvmdealloc (pagetable oldsz newsz : Z) : M phys Z :=
  if oldsz <=? newsz then ret oldsz
  else
    (if PGROUNDUP newsz <? PGROUNDUP oldsz
     then
       let npages := i32 ((PGROUNDUP oldsz - PGROUNDUP newsz) / PGSIZE) in
       uvmunmap pagetable (PGROUNDUP newsz) (u64 npages) true
     else ret tt) ;;
    ret newsz.

(** Permissions of the pages of [uvmalloc]. *)
Definition PTE_WXRU : Z := Z.lor (Z.lor (Z.lor PTE_W PTE_X) PTE_R) PTE_U.

Fixpoint uvmalloc_loop (pagetable a oldsz newsz : Z) (fuel : nat) : M phys Z :=
  match fuel with
  | O => nofuel
  | S k =>
      if a <? newsz then
        let! pa := kalloc in
        if pa =? 0 then
          uvmdealloc pagetable a oldsz ;; ret 0
        else
          pmemset pa 0 PGSIZE ;;
          let! r := mappages pagetable a PGSIZE pa PTE_WXRU in
          if negb (r =? 0) then
            kfree pa ;; uvmdealloc pagetable a oldsz ;; ret 0
          else uvmalloc_loop pagetable (u64 (a + PGSIZE)) oldsz newsz k
      else ret newsz
  end.

Definition uvmalloc (pagetable oldsz newsz : Z) : M phys Z :=
  if newsz <? oldsz then ret oldsz
  else
    uvmalloc_loop pagetable (PGROUNDUP oldsz) (PGROUNDUP oldsz) newsz
      (Z.to_nat ((newsz - PGROUNDUP oldsz) / PGSIZE + 2)).

(** [depth] bounds the depth of the tree of page-table pages. *)
Fixpoint freewalk (depth : nat) (pagetable : Z) : M phys unit :=
  match depth with
  | O => nofuel
  | S k =>
      mfor (Z.of_nat <$> seq 0 512) (fun i =>
        let! pte := pload64 (pagetable + 8 * i) in
        if has pte PTE_V && negb (has pte (Z.lor (Z.lor PTE_R PTE_W) PTE_X)) then
          freewalk k (PTE2PA pte) ;;
          pstore64 (pagetable + 8 * i) 0
        else panic_if (has pte PTE_V) "freewalk: leaf") ;;
      kfree pagetable
  end.

Definition uvmfree (pagetable sz : Z) : M phys unit :=
  (if 0 <? sz then uvmunmap pagetable 0 (PGROUNDUP sz / PGSIZE) true else ret tt) ;;
  freewalk 3 pagetable.

(** The loop of [uvmcopy]; the label [err] is [uvmcopy_err]. *)
Definition uvmcopy_err (new i : Z) : M phys Z :=
  uvmunmap new 0 (i / PGSIZE) true ;; ret (-1).

Fixpoint uvmcopy_loop (old new i sz : Z) (fuel : nat) : M phys Z :=
  match fuel with
  | O => nofuel
  | S k =>
      if i <? sz then
        let! pte := walk old i false in
        panic_if (pte =? 0) "uvmcopy: pte should exist" ;;
        let! v := pload64 pte in
        panic_if (negb (has v PTE_V)) "uvmcopy: page not present" ;;
        let! pa := kalloc in
        if pa =? 0 then uvmcopy_err new i
        else
          pmemmove pa (PTE2PA v) PGSIZE ;;
          let! r := mappages new i PGSIZE pa (PTE_FLAGS v) in
          if negb (r =? 0) then kfree pa ;; uvmcopy_err new i
          else uvmcopy_loop old new (u64 (i + PGSIZE)) sz k
      else ret 0
  end.

Definition uvmcopy (old new sz : Z) : M phys Z :=
  uvmcopy_loop old new 0 sz (Z.to_nat (sz / PGSIZE + 2)).

Definition uvmclear (pagetable va : Z) : M phys unit :=
  let! pte := walk pagetable va false in
  panic_if (pte =? 0) "uvmclear" ;;
  let! v := pload64 pte in
  pstore64 pte (Z.land v (Z.lnot PTE_U)).

Fixpoint copyout_loop (pagetable dstva src len : Z) (fuel : nat) : M phys Z :=
  match fuel with
  | O => nofuel
  | S k =>
      if 0 <? len then
        let va0 := PGROUNDDOWN dstva in
        let! pa0 := walkaddr pagetable va0 in
        if pa0 =? 0 then ret (-1)
        else
          let n0 := PGSIZE - (dstva - va0) in
          let n := if len <? n0 then len else n0 in
          pmemmove (pa0 + (dstva - va0)) src n ;;
          copyout_loop pagetable (u64 (va0 + PGSIZE)) (src + n) (len - n) k
      else ret 0
  end.

Definition copyout (pagetable dstva src len : Z) : M phys Z :=
  copyout_loop pagetable dstva src len (Z.to_nat (len / PGSIZE + 3)).

Fixpoint copyin_loop (pagetable dst srcva len : Z) (fuel : nat) : M phys Z :=
  match fuel with
  | O => nofuel
  | S k =>
      if 0 <? len then
        let va0 := PGROUNDDOWN srcva in
        let! pa0 := walkaddr pagetable va0 in
        if pa0 =? 0 then ret (-1)
        else
          let n0 := PGSIZE - (srcva - va0) in
          let n := if len <? n0 then len else n0 in
          pmemmove dst (pa0 + (srcva - va0)) n ;;
          copyin_loop pagetable (dst + n) (u64 (va0 + PGSIZE)) (len - n) k
      else ret 0
  end.

Definition copyin (pagetable dst srcva len : Z) : M phys Z :=
  copyin_loop pagetable dst srcva len (Z.to_nat (len / PGSIZE + 3)).

(** The inner loop of [copyinstr] over the [n] bytes left in the page: the
    memory, whether a NUL was copied, and the final [dst] and [max]. *)
Fixpoint copyinstr_page (m : mem) (p dst max : Z) (n : nat) : mem * bool * Z * Z :=
  match n with
  | O => (m, false, dst, max)
  | S k =>
      if load8 m p =? 0 then (store8 m dst 0, true, dst, max)
      else copyinstr_page (store8 m dst (load8 m p)) (p + 1) (dst + 1) (max - 1) k
  end.

Fixpoint copyinstr_loop (pagetable dst srcva max : Z) (fuel : nat) : M phys Z :=
  match fuel with
  | O => nofuel
  | S k =>
      if 0 <? max then
        let va0 := PGROUNDDOWN srcva in
        let! pa0 := walkaddr pagetable va0 in
        if pa0 =? 0 then ret (-1)
        else
          let n0 := PGSIZE - (srcva - va0) in
          let n := if max <? n0 then max else n0 in
          let! r := gets (fun s => copyinstr_page (pmem s) (pa0 + (srcva - va0)) dst max (Z.to_nat n)) in
          let '(m', got_null, dst', max') := r in
          modify (set_pmem m') ;;
          if got_null then ret 0
          else copyinstr_loop pagetable dst' (u64 (va0 + PGSIZE)) max' k
      else ret (-1)
  end.

Definition copyinstr (pagetable dst srcva max : Z) : M phys Z :=
  copyinstr_loop pagetable dst srcva max (Z.to_nat (max / PGSIZE + 3)).
End Vm.
