(* ===== verification/VmSpec.v ===== *)
(** * Page tables as logical trees

    [pt_rep m r d t]: in memory [m], the page table with root page [r] has the
    level-1 pages [d] (by index in the root) and the level-0 pages [t] (by
    virtual page number divided by 512).  [lookup_pte] is the entry of a
    virtual page.  [vm_inv] adds the free list: table pages and free pages are
    distinct frames.  The lemmas give the effect of [walk] and [mappages] on
    this view. *)

From S2P Require Import Prelude Riscv KString Kalloc Vm.

(** ** Entries *)

Definition dir_pte (p : Z) : Z := Z.lor (PA2PTE p) PTE_V.

Lemma has_V v : has v PTE_V = Z.odd v.
Proof.
  unfold has, PTE_V. change (Z.shiftl 1 0) with (2 ^ 1 - 1). rewrite land_ones_mod by lia.
  change (2 ^ 1) with 2. rewrite Zmod_odd. by destruct (Z.odd v).
Qed.

Lemma has_V_0 : has 0 PTE_V = false.
Proof. done. Qed.

(** Virtual page numbers and the three indices of a virtual address. *)
Lemma PX_vpn va :
  0 <= va < MAXVA ->
  PX 0 va = va / PGSIZE mod 512 /\ PX 1 va = va / PGSIZE / 512 mod 512 /\
  PX 2 va = va / PGSIZE / 512 / 512 /\
  0 <= va / PGSIZE / 512 / 512 < 512.
Proof.
  intros H. change MAXVA with (2 ^ 38) in H. rewrite !PX_spec by lia.
  unfold PXSHIFT, PGSHIFT, PGSIZE. cbn [Z.mul Z.add Pos.mul Pos.add].
  rewrite !Z.div_div by lia. cbn. split_and!; [done|done| |dlia|dlia].
  apply Z.mod_small. dlia.
Qed.

(** ** Pages of a page table *)

Section PtPages.
Definition pt_pages (r : Z) (d t : gmap Z Z) : list Z :=
  r :: (map_to_list d).*2 ++ (map_to_list t).*2.

Lemma elem_of_map_values (m : gmap Z Z) p : p ∈ (map_to_list m).*2 <-> exists i, m !! i = Some p.
Proof.
  rewrite list_elem_of_fmap. split.
  - intros ([i q] & -> & Hin). apply elem_of_map_to_list in Hin. eauto.
  - intros [i Hi]. exists (i, p). split; [done|]. by apply elem_of_map_to_list.
Qed.

Lemma elem_of_pt_pages r d t p :
  p ∈ pt_pages r d t <-> p = r \/ (exists i, d !! i = Some p) \/ (exists k, t !! k = Some p).
Proof. unfold pt_pages. by rewrite elem_of_cons, elem_of_app, !elem_of_map_values. Qed.

Lemma map_values_inj (m : gmap Z Z) i j p :
  NoDup (map_to_list m).*2 -> m !! i = Some p -> m !! j = Some p -> i = j.
Proof.
  intros Hn Hi Hj. apply elem_of_map_to_list in Hi, Hj.
  apply list_elem_of_lookup in Hi as [a Ha], Hj as [b Hb].
  assert (a = b) as <-; [|congruence].
  apply (NoDup_lookup _ a b p Hn); rewrite list_lookup_fmap; [by rewrite Ha|by rewrite Hb].
Qed.

Lemma map_values_insert (m : gmap Z Z) k q :
  m !! k = None -> (map_to_list (<[k:=q]> m)).*2 ≡ₚ q :: (map_to_list m).*2.
Proof. intros H. by rewrite map_to_list_insert. Qed.

Lemma pt_pages_add_dir r d t i p :
  d !! i = None -> pt_pages r (<[i:=p]> d) t ≡ₚ p :: pt_pages r d t.
Proof. intros H. unfold pt_pages. rewrite map_values_insert by done. apply perm_swap. Qed.

Lemma pt_pages_add_tab r d t k q :
  t !! k = None -> pt_pages r d (<[k:=q]> t) ≡ₚ q :: pt_pages r d t.
Proof.
  intros H. unfold pt_pages. rewrite map_values_insert by done.
  rewrite <- Permutation_middle. apply perm_swap.
Qed.
End PtPages.

(** The memories agree at the addresses outside the pages of [l]. *)
Definition same_except (l : list Z) (m m' : mem) : Prop :=
  forall x, (forall pa, pa ∈ l -> ~ in_page pa x) -> m' x = m x.

Definition lookup_pte (m : mem) (t : gmap Z Z) (n : Z) : Z :=
  match t !! (n / 512) with
  | Some q => load64 m (q + 8 * (n mod 512))
  | None => 0
  end.

(** The address of the level-0 entry of virtual page [n], 0 when its
    level-0 page does not exist. *)
Definition pte_slot (t : gmap Z Z) (n : Z) : Z :=
  match t !! (n / 512) with
  | Some q => q + 8 * (n mod 512)
  | None => 0
  end.

Section VmSpec.
Context {L : Linker} {LOk : LinkerOk L}.

Record pt_rep (m : mem) (r : Z) (d t : gmap Z Z) : Prop := {
  pr_dir i : 0 <= i < 512 ->
    match d !! i with
    | Some p => load64 m (r + 8 * i) = dir_pte p
    | None => has (load64 m (r + 8 * i)) PTE_V = false
    end;
  pr_tab i p j : d !! i = Some p -> 0 <= j < 512 ->
    match t !! (i * 512 + j) with
    | Some q => load64 m (p + 8 * j) = dir_pte q
    | None => has (load64 m (p + 8 * j)) PTE_V = false
    end;
  pr_dkeys i p : d !! i = Some p -> 0 <= i < 512;
  pr_tkeys k q : t !! k = Some q -> 0 <= k /\ exists p, d !! (k / 512) = Some p;
  pr_ok : Forall page_ok (pt_pages r d t);
  pr_nodup : NoDup (pt_pages r d t);
}.

Record vm_inv (s : phys) (l : list Z) (r : Z) (d t : gmap Z Z) : Prop := {
  vi_kmem : kmem_inv s l;
  vi_rep : pt_rep (pmem s) r d t;
  vi_disj : forall p, p ∈ pt_pages r d t -> p ∉ l;
}.

(** ** Distinctness of the pages of a table *)

Lemma pt_page_ok m r d t p : pt_rep m r d t -> p ∈ pt_pages r d t -> page_ok p.
Proof. intros H. pose proof (pr_ok _ _ _ _ H) as Hf. rewrite Forall_forall in Hf. apply Hf. Qed.

Lemma pt_nodup_parts m r d t : pt_rep m r d t ->
  NoDup (map_to_list d).*2 /\ NoDup (map_to_list t).*2 /\
  (forall i, d !! i = Some r -> False) /\ (forall k, t !! k = Some r -> False) /\
  (forall i k p, d !! i = Some p -> t !! k = Some p -> False).
Proof.
  intros H. pose proof (pr_nodup _ _ _ _ H) as Hn. unfold pt_pages in Hn.
  apply NoDup_cons in Hn as [Hr Hn]. apply NoDup_app in Hn as (Hd & Hdt & Ht).
  rewrite elem_of_app, !elem_of_map_values in Hr.
  split_and!; [done|done|by eauto|by eauto|].
  intros i k p Hi Hk. apply (Hdt p); apply elem_of_map_values; eauto.
Qed.

Lemma page_load64_same m m' p j :
  (forall x, in_page p x -> m' x = m x) -> 0 <= j < 512 ->
  load64 m' (p + 8 * j) = load64 m (p + 8 * j).
Proof. intros H Hj. apply load64_ext. intros x Hx. apply H. unfold in_page. klia. Qed.

Lemma pt_rep_same m m' r d t :
  same_pages (pt_pages r d t) m m' -> pt_rep m r d t -> pt_rep m' r d t.
Proof.
  intros Hs H. split; [| |apply H|apply H|apply H|apply H].
  - intros i Hi. rewrite (page_load64_same m m'); [by apply H| |done].
    intros x. apply Hs. apply elem_of_pt_pages. by left.
  - intros i p j Hp Hj. rewrite (page_load64_same m m'); [by eapply H| |done].
    intros x. apply Hs. apply elem_of_pt_pages. eauto.
Qed.

Lemma lookup_pte_same m m' r d t n :
  same_pages (pt_pages r d t) m m' -> lookup_pte m' t n = lookup_pte m t n.
Proof.
  intros Hs. unfold lookup_pte. destruct (t !! (n / 512)) as [q|] eqn:E; [|done].
  apply page_load64_same; [|apply Z.mod_pos_bound; lia].
  intros x. apply Hs. apply elem_of_pt_pages. eauto.
Qed.

(** A store into one page does not touch the others. *)
Lemma store64_other_page m p j v q x :
  p mod PGSIZE = 0 -> q mod PGSIZE = 0 -> p <> q -> 0 <= j < 512 -> in_page q x ->
  store64 m (p + 8 * j) v x = m x.
Proof.
  intros Hp Hq Hne Hj Hx. apply store64_outside. intros Hin.
  apply (aligned_disjoint q p x); [done|done|congruence|done|]. unfold in_page. klia.
Qed.

Lemma store64_page_entry m p j v j' :
  0 <= j < 512 -> 0 <= j' < 512 -> 
  load64 (store64 m (p + 8 * j) v) (p + 8 * j') =
    if j' =? j then u64 v else load64 m (p + 8 * j').
Proof.
  intros. destruct (Z.eqb_spec j' j) as [->|]; [apply load64_store64_eq|].
  apply load64_store64_ne. lia.
Qed.

Lemma load64_other_page m p j v q j' :
  p mod PGSIZE = 0 -> q mod PGSIZE = 0 -> p <> q -> 0 <= j < 512 -> 0 <= j' < 512 ->
  load64 (store64 m (p + 8 * j) v) (q + 8 * j') = load64 m (q + 8 * j').
Proof.
  intros. apply page_load64_same; [|done]. intros x Hx. by apply (store64_other_page m p j v q).
Qed.

Lemma dir_pte_facts p : page_ok p ->
  PTE2PA (dir_pte p) = p /\ has (dir_pte p) PTE_V = true /\ u64 (dir_pte p) = dir_pte p /\
  PTE_FLAGS (dir_pte p) = PTE_V.
Proof.
  intros Hp. pose proof (page_ok_bounds _ Hp) as Hb. destruct Hp as [Ha _]. unfold dir_pte.
  change PTE_V with 1 in *. split_and!.
  - apply PTE2PA_make; [klia|done|lia].
  - change 1 with PTE_V at 2. rewrite has_V, PA2PTE_lor by klia.
    rewrite Z.odd_add, Z.odd_mul. by rewrite andb_false_r.
  - rewrite PA2PTE_lor by klia. apply u64_small. kdlia.
  - apply PTE_FLAGS_make; klia.
Qed.

Lemma zero_page_load64 m p j :
  (forall x, in_page p x -> m x = 0) -> 0 <= j < 512 -> load64 m (p + 8 * j) = 0.
Proof.
  intros H Hj. apply load64_zero. intros x Hx. apply H. unfold in_page. klia.
Qed.

Lemma pt_aligned m r d t p : pt_rep m r d t -> p ∈ pt_pages r d t -> p mod PGSIZE = 0.
Proof. intros H Hp. by destruct (pt_page_ok m r d t p H Hp). Qed.

Lemma pt_rep_leaf_store m r d t k q j v :
  pt_rep m r d t -> t !! k = Some q -> 0 <= j < 512 -> pt_rep (store64 m (q + 8 * j) v) r d t.
Proof.
  intros H Hq Hj. destruct (pt_nodup_parts _ _ _ _ H) as (_ & _ & _ & Hrt & Hdt).
  assert (forall p, p ∈ pt_pages r d t -> p mod PGSIZE = 0) as Hal by (intros; by eapply pt_aligned).
  assert (q mod PGSIZE = 0) as Hqa by (apply Hal, elem_of_pt_pages; eauto).
  split; [| |apply H|apply H|apply H|apply H].
  - intros i Hi. rewrite load64_other_page; [by apply H|done| | |done|done].
    + apply Hal, elem_of_pt_pages. by left.
    + intros ->. eauto.
  - intros i p j' Hp Hj'. rewrite load64_other_page; [by eapply H|done| | |done|done].
    + apply Hal, elem_of_pt_pages. eauto.
    + intros ->. eauto.
Qed.

Lemma vpn_eq n n' : n / 512 = n' / 512 -> n mod 512 = n' mod 512 -> n = n'.
Proof. intros. dlia. Qed.

Lemma lookup_pte_leaf_store m r d t n q v n' :
  pt_rep m r d t -> t !! (n / 512) = Some q ->
  lookup_pte (store64 m (q + 8 * (n mod 512)) v) t n' =
    if n' =? n then u64 v else lookup_pte m t n'.
Proof.
  intros H Hq. unfold lookup_pte.
  assert (0 <= n mod 512 < 512) as Hj by (apply Z.mod_pos_bound; lia).
  assert (0 <= n' mod 512 < 512) as Hj' by (apply Z.mod_pos_bound; lia).
  destruct (Z.eqb_spec n' n) as [->|Hne].
  { rewrite Hq. apply load64_store64_eq. }
  destruct (t !! (n' / 512)) as [q'|] eqn:Hq'; [|done].
  destruct (Z.eq_dec (n' / 512) (n / 512)) as [E|E].
  - rewrite E, Hq in Hq'. injection Hq' as <-. rewrite store64_page_entry by done.
    destruct (Z.eqb_spec (n' mod 512) (n mod 512)); [|done]. exfalso. by apply Hne, vpn_eq.
  - apply load64_other_page; [..|done|done].
    + eapply pt_aligned; [done|]. apply elem_of_pt_pages. eauto.
    + eapply pt_aligned; [done|]. apply elem_of_pt_pages. eauto.
    + intros <-. apply E. destruct (pt_nodup_parts _ _ _ _ H) as (_ & Ht & _).
      by eapply map_values_inj.
Qed.

(** ** Adding a table page *)

Section AddPage.
Context (m m1 : mem) (r : Z) (d t : gmap Z Z) (q : Z).
Context (Hrep : pt_rep m r d t) (Hq : page_ok q) (Hfresh : q ∉ pt_pages r d t).
Context (Hsame : same_pages (pt_pages r d t) m m1) (Hzero : forall x, in_page q x -> m1 x = 0).

Lemma fresh_ne p : p ∈ pt_pages r d t -> p <> q.
Proof. by intros Hp ->. Qed.

Lemma add_page_ok r' d' t' :
  pt_pages r' d' t' ≡ₚ q :: pt_pages r d t ->
  Forall page_ok (pt_pages r' d' t') /\ NoDup (pt_pages r' d' t').
Proof.
  intros Hp. rewrite Hp. split.
  - constructor; [done|]. by apply (pr_ok m).
  - constructor; [done|]. by apply (pr_nodup m).
Qed.

Lemma pt_rep_add_tab k p :
  t !! k = None -> 0 <= k -> d !! (k / 512) = Some p ->
  pt_rep (store64 m1 (p + 8 * (k mod 512)) (dir_pte q)) r d (<[k:=q]> t).
Proof.
  intros Hk Hk0 Hp. destruct (pt_nodup_parts _ _ _ _ Hrep) as (Hdn & _ & Hdr & _ & _).
  assert (Hrep1 := pt_rep_same m m1 r d t Hsame Hrep).
  assert (forall a, a ∈ pt_pages r d t -> a mod PGSIZE = 0) as Hal by (intros; by eapply pt_aligned).
  assert (p ∈ pt_pages r d t) as Hpin by (apply elem_of_pt_pages; eauto).
  assert (0 <= k mod 512 < 512) as Hkm by (apply Z.mod_pos_bound; lia).
  destruct (add_page_ok r d (<[k:=q]> t)) as [Hok Hnd]; [by apply pt_pages_add_tab|].
  split; [| |apply Hrep| |done|done].
  - intros i Hi. rewrite load64_other_page; [by apply Hrep1|auto| | |done|done].
    + apply Hal, elem_of_pt_pages. by left.
    + intros ->. eauto.
  - intros i a j Ha Hj. destruct (Z.eq_dec a p) as [->|Hap].
    + assert (i = k / 512) as -> by (by eapply map_values_inj).
      rewrite store64_page_entry by done. destruct (Z.eqb_spec j (k mod 512)) as [->|Hne].
      * replace (k / 512 * 512 + k mod 512) with k by dlia.
        rewrite lookup_insert_eq. by apply dir_pte_facts.
      * rewrite lookup_insert_ne by dlia. by apply Hrep1.
    + rewrite load64_other_page; [|auto|apply Hal, elem_of_pt_pages; eauto|done|done|done].
      rewrite lookup_insert_ne; [by apply Hrep1|].
      intros ->. apply Hap. replace ((i * 512 + j) / 512) with i in Hp by dlia. congruence.
  - intros k' q' Hk'. destruct (Z.eq_dec k' k) as [->|].
    + eauto.
    + rewrite lookup_insert_ne in Hk' by done. by eapply Hrep.
Qed.

Lemma lookup_pte_add_tab k p n :
  t !! k = None -> d !! (k / 512) = Some p ->
  lookup_pte (store64 m1 (p + 8 * (k mod 512)) (dir_pte q)) (<[k:=q]> t) n = lookup_pte m t n.
Proof.
  intros Hk Hp. assert (p ∈ pt_pages r d t) as Hpin by (apply elem_of_pt_pages; eauto).
  assert (0 <= k mod 512 < 512) as Hkm by (apply Z.mod_pos_bound; lia).
  assert (0 <= n mod 512 < 512) as Hnm by (apply Z.mod_pos_bound; lia).
  assert (p mod PGSIZE = 0) as Hpa by (by eapply pt_aligned).
  unfold lookup_pte. destruct (Z.eq_dec (n / 512) k) as [<-|Hne].
  - rewrite lookup_insert_eq, Hk. rewrite load64_other_page; [|done|apply Hq|by apply fresh_ne|done|done].
    by apply zero_page_load64.
  - rewrite lookup_insert_ne by done. destruct (t !! (n / 512)) as [q'|] eqn:Hq'; [|done].
    assert (q' ∈ pt_pages r d t) as Hq'in by (apply elem_of_pt_pages; eauto).
    rewrite load64_other_page; [|done|by eapply pt_aligned| |done|done].
    + apply page_load64_same; [|done]. intros x. by apply Hsame.
    + intros ->. destruct (pt_nodup_parts _ _ _ _ Hrep) as (_ & _ & _ & _ & Hdt). eauto.
Qed.

Lemma pt_rep_add_dir i :
  d !! i = None -> 0 <= i < 512 ->
  pt_rep (store64 m1 (r + 8 * i) (dir_pte q)) r (<[i:=q]> d) t.
Proof.
  intros Hi0 Hi. destruct (pt_nodup_parts _ _ _ _ Hrep) as (_ & _ & Hdr & _ & _).
  assert (Hrep1 := pt_rep_same m m1 r d t Hsame Hrep).
  assert (forall a, a ∈ pt_pages r d t -> a mod PGSIZE = 0) as Hal by (intros; by eapply pt_aligned).
  assert (r ∈ pt_pages r d t) as Hrin by (apply elem_of_pt_pages; by left).
  destruct (add_page_ok r (<[i:=q]> d) t) as [Hok Hnd]; [by apply pt_pages_add_dir|].
  split; [| | | |done|done].
  - intros i' Hi'. rewrite store64_page_entry by done. destruct (Z.eqb_spec i' i) as [->|].
    + rewrite lookup_insert_eq. by apply dir_pte_facts.
    + rewrite lookup_insert_ne by done. by apply Hrep1.
  - intros i' a j Ha Hj. destruct (Z.eq_dec i' i) as [->|].
    + rewrite lookup_insert_eq in Ha. injection Ha as <-.
      destruct (t !! (i * 512 + j)) as [q'|] eqn:Hq'.
      * destruct (pr_tkeys _ _ _ _ Hrep _ _ Hq') as (_ & p & Hp).
        replace ((i * 512 + j) / 512) with i in Hp by dlia. congruence.
      * rewrite load64_other_page; [|auto|apply Hq|by apply fresh_ne|done|done].
        by rewrite zero_page_load64.
    + rewrite lookup_insert_ne in Ha by done.
      rewrite load64_other_page; [by apply Hrep1|auto|apply Hal, elem_of_pt_pages; eauto| |done|done].
      intros <-. eauto.
  - intros i' a Ha. destruct (Z.eq_dec i' i) as [->|]; [done|].
    rewrite lookup_insert_ne in Ha by done. by eapply Hrep.
  - intros k q' Hk. destruct (pr_tkeys _ _ _ _ Hrep _ _ Hk) as (? & p & Hp). split; [done|].
    exists p. rewrite lookup_insert_ne; [done|]. congruence.
Qed.

Lemma lookup_pte_add_dir i n :
  0 <= i < 512 -> lookup_pte (store64 m1 (r + 8 * i) (dir_pte q)) t n = lookup_pte m t n.
Proof.
  intros Hi. assert (0 <= n mod 512 < 512) as Hnm by (apply Z.mod_pos_bound; lia).
  unfold lookup_pte. destruct (t !! (n / 512)) as [q'|] eqn:Hq'; [|done].
  assert (q' ∈ pt_pages r d t) as Hq'in by (apply elem_of_pt_pages; eauto).
  rewrite load64_other_page; [|eapply pt_aligned; [done|apply elem_of_pt_pages; by left]
    |by eapply pt_aligned| |done|done].
  - apply page_load64_same; [|done]. intros x. by apply Hsame.
  - intros <-. destruct (pt_nodup_parts _ _ _ _ Hrep) as (_ & _ & _ & Hrt & _). eauto.
Qed.
End AddPage.

(** ** [walk] *)

Lemma pte_slot_none m r d t n :
  pt_rep m r d t -> d !! (n / 512 / 512) = None -> t !! (n / 512) = None.
Proof.
  intros H Hd. destruct (t !! (n / 512)) eqn:E; [|done].
  destruct (pr_tkeys _ _ _ _ H _ _ E) as (_ & p & Hp). congruence.
Qed.

Lemma walk_guard r va alloc s :
  va < MAXVA -> walk r va alloc s = walk_levels [2; 1] r va alloc s.
Proof. intros. unfold walk. rewrite (proj2 (Z.leb_gt _ _)) by done. reflexivity. Qed.

(** One level of the walk through an existing table page. *)
Lemma walk_level_present level rest pt va alloc s p :
  page_ok p -> load64 (pmem s) (pt + 8 * PX level va) = dir_pte p ->
  walk_levels (level :: rest) pt va alloc s = walk_levels rest p va alloc s.
Proof.
  intros Hp Hv. destruct (dir_pte_facts p Hp) as (Hpa & HV & _).
  cbn [walk_levels]. unfold bind, pload64, gets. by rewrite Hv, HV, Hpa.
Qed.

Lemma walk_level_absent level rest pt va s :
  has (load64 (pmem s) (pt + 8 * PX level va)) PTE_V = false ->
  walk_levels (level :: rest) pt va false s = Ok (0, s).
Proof. intros Hv. cbn [walk_levels]. unfold bind, pload64, gets. by rewrite Hv. Qed.

(** The root entry and the level-1 entry of a virtual address. *)
Lemma rep_dir_entry m r d t va :
  pt_rep m r d t -> 0 <= va < MAXVA ->
  match d !! (va / PGSIZE / 512 / 512) with
  | Some p => load64 m (r + 8 * PX 2 va) = dir_pte p /\ page_ok p
  | None => has (load64 m (r + 8 * PX 2 va)) PTE_V = false
  end.
Proof.
  intros H Hva. destruct (PX_vpn va Hva) as (_ & _ & -> & Hb).
  pose proof (pr_dir _ _ _ _ H _ Hb) as Hd.
  destruct (d !! (va / PGSIZE / 512 / 512)) as [p|] eqn:E; [|done]. split; [done|].
  eapply pt_page_ok; [done|]. apply elem_of_pt_pages. eauto.
Qed.

Lemma rep_tab_entry m r d t va p :
  pt_rep m r d t -> 0 <= va < MAXVA -> d !! (va / PGSIZE / 512 / 512) = Some p ->
  match t !! (va / PGSIZE / 512) with
  | Some q => load64 m (p + 8 * PX 1 va) = dir_pte q /\ page_ok q
  | None => has (load64 m (p + 8 * PX 1 va)) PTE_V = false
  end.
Proof.
  intros H Hva Hp. destruct (PX_vpn va Hva) as (_ & -> & _ & _).
  pose proof (pr_tab _ _ _ _ H _ _ (va / PGSIZE / 512 mod 512) Hp) as Ht.
  replace (va / PGSIZE / 512 / 512 * 512 + va / PGSIZE / 512 mod 512)
    with (va / PGSIZE / 512) in Ht by dlia.
  specialize (Ht ltac:(apply Z.mod_pos_bound; lia)).
  destruct (t !! (va / PGSIZE / 512)) as [q|] eqn:E; [|done]. split; [done|].
  eapply pt_page_ok; [done|]. apply elem_of_pt_pages. eauto.
Qed.

Lemma walk_slot_here va t q :
  0 <= va < MAXVA -> t !! (va / PGSIZE / 512) = Some q ->
  q + 8 * PX 0 va = pte_slot t (va / PGSIZE).
Proof. intros Hva Hq. destruct (PX_vpn va Hva) as (-> & _). unfold pte_slot. by rewrite Hq. Qed.

(** Without allocation, [walk] returns the address of the level-0 entry. *)
Lemma walk_noalloc s r d t va :
  pt_rep (pmem s) r d t -> 0 <= va < MAXVA ->
  walk r va false s = Ok (pte_slot t (va / PGSIZE), s).
Proof.
  intros H Hva. rewrite walk_guard by lia.
  pose proof (rep_dir_entry _ _ _ _ va H Hva) as Hd.
  destruct (d !! (va / PGSIZE / 512 / 512)) as [p|] eqn:Ed.
  2:{ rewrite walk_level_absent by done. unfold pte_slot.
      by rewrite (pte_slot_none _ _ _ _ _ H Ed). }
  destruct Hd as [Hd Hp]. rewrite (walk_level_present _ _ _ _ _ _ p) by done.
  pose proof (rep_tab_entry _ _ _ _ va p H Hva Ed) as Ht.
  destruct (t !! (va / PGSIZE / 512)) as [q|] eqn:Et.
  2:{ rewrite walk_level_absent by done. unfold pte_slot. by rewrite Et. }
  destruct Ht as [Ht Hq]. rewrite (walk_level_present _ _ _ _ _ _ q) by done.
  cbn [walk_levels]. by rewrite (walk_slot_here _ t).
Qed.

Lemma pte_slot_nonzero m r d t n :
  pt_rep m r d t -> (pte_slot t n <> 0 <-> is_Some (t !! (n / 512))).
Proof.
  intros H. unfold pte_slot. destruct (t !! (n / 512)) as [q|] eqn:E; split; try done.
  - intros _ Hz. assert (page_ok q) as Hq by (eapply pt_page_ok; [done|apply elem_of_pt_pages; eauto]).
    apply page_ok_bounds in Hq. assert (0 <= n mod 512 < 512) by (apply Z.mod_pos_bound; lia). klia.
Qed.

(** ** Growing a page table *)

(** From [s] to [s'] the page table [r] has taken table pages from the free list
    and now has the entries [F]; no other memory changed. *)
Record pt_maps (s : phys) (l : list Z) (r : Z) (d t : gmap Z Z)
               (s' : phys) (l' : list Z) (d' t' : gmap Z Z) (F : Z -> Z) : Prop := {
  pg_inv : vm_inv s' l' r d' t';
  pg_perm : pt_pages r d' t' ++ l' ≡ₚ pt_pages r d t ++ l;
  pg_lookup n : lookup_pte (pmem s') t' n = F n;
  pg_frame : same_except (pt_pages r d t ++ l) (pmem s) (pmem s');
  pg_kpt : kernel_pagetable s' = kernel_pagetable s;
}.

(** The same with all the entries as they were. *)
Definition pt_grow s l r d t s' l' d' t' : Prop :=
  pt_maps s l r d t s' l' d' t' (fun n => lookup_pte (pmem s) t n).

Lemma same_except_trans l m1 m2 m3 :
  same_except l m1 m2 -> same_except l m2 m3 -> same_except l m1 m3.
Proof. intros H1 H2 x Hx. by rewrite H2, H1. Qed.

Lemma same_except_mono l l' m m' :
  (forall p, p ∈ l -> p ∈ l') -> same_except l m m' -> same_except l' m m'.
Proof. intros Hl H x Hx. apply H. auto. Qed.

Lemma same_except_perm l l' m m' : l ≡ₚ l' -> same_except l m m' -> same_except l' m m'.
Proof. intros Hp. apply same_except_mono. intros p. by rewrite Hp. Qed.

Lemma pt_grow_refl s l r d t : vm_inv s l r d t -> pt_grow s l r d t s l d t.
Proof. intros H. split; try done. Qed.

Lemma pt_maps_trans s1 l1 r d1 t1 s2 l2 d2 t2 s3 l3 d3 t3 F G :
  pt_maps s1 l1 r d1 t1 s2 l2 d2 t2 F -> pt_maps s2 l2 r d2 t2 s3 l3 d3 t3 G ->
  pt_maps s1 l1 r d1 t1 s3 l3 d3 t3 G.
Proof.
  intros [Ha1 Hb1 Hc1 Hd1 He1] [Ha2 Hb2 Hc2 Hd2 He2]. split; [done| |done| |congruence].
  - by rewrite Hb2.
  - eapply same_except_trans; [done|]. by eapply same_except_perm.
Qed.

Lemma pt_maps_ext s l r d t s' l' d' t' F G :
  (forall n, F n = G n) -> pt_maps s l r d t s' l' d' t' F -> pt_maps s l r d t s' l' d' t' G.
Proof. intros HFG [Ha Hb Hc Hd He]. split; try done. intros n. by rewrite Hc. Qed.

Lemma pt_grow_trans s1 l1 r d1 t1 s2 l2 d2 t2 s3 l3 d3 t3 :
  pt_grow s1 l1 r d1 t1 s2 l2 d2 t2 -> pt_grow s2 l2 r d2 t2 s3 l3 d3 t3 ->
  pt_grow s1 l1 r d1 t1 s3 l3 d3 t3.
Proof.
  intros H1 H2. eapply pt_maps_ext; [|by eapply pt_maps_trans].
  intros n. apply (pg_lookup _ _ _ _ _ _ _ _ _ _ H1).
Qed.

(** [pt = kalloc(); memset(pt, 0, PGSIZE); *pte = PA2PTE(pt) | PTE_V] with [pte]
    the entry [j] of the table page [e]. *)
Definition new_table (s0 : phys) (pa e j : Z) : phys :=
  set_pmem (store64 (memset (pmem s0) pa 0 PGSIZE) (e + 8 * j) (dir_pte pa)) s0.

Lemma walk_level_alloc level rest pt va s pa s0 :
  has (load64 (pmem s) (pt + 8 * PX level va)) PTE_V = false ->
  kalloc s = Ok (pa, s0) -> pa <> 0 ->
  walk_levels (level :: rest) pt va true s =
    walk_levels rest pa va true (new_table s0 pa pt (PX level va)).
Proof.
  intros Hv Hk Hpa. cbn [walk_levels]. unfold bind, pload64, gets. rewrite Hv. cbn [negb].
  rewrite Hk, (proj2 (Z.eqb_neq _ _) Hpa). reflexivity.
Qed.

Lemma walk_level_nomem level rest pt va s s0 :
  has (load64 (pmem s) (pt + 8 * PX level va)) PTE_V = false ->
  kalloc s = Ok (0, s0) -> walk_levels (level :: rest) pt va true s = Ok (0, s0).
Proof.
  intros Hv Hk. cbn [walk_levels]. unfold bind, pload64, gets. rewrite Hv. cbn [negb].
  by rewrite Hk.
Qed.

Lemma new_table_facts s pa l s0 e j :
  kmem_inv s (pa :: l) -> kalloc s = Ok (pa, s0) -> page_ok e -> e <> pa -> e ∉ l -> 0 <= j < 512 ->
  let m1 := memset (pmem s0) pa 0 PGSIZE in
  kmem_inv (new_table s0 pa e j) l /\ page_ok pa /\ pa <> 0 /\ (pa ∉ l) /\
  (forall x, in_page pa x -> m1 x = 0) /\ same_outside pa PGSIZE (pmem s) m1 /\
  kernel_pagetable (new_table s0 pa e j) = kernel_pagetable s.
Proof.
  intros Hinv Hk He Hne Hel Hj m1.
  destruct (kalloc_cons _ _ _ Hinv) as (s0' & Hk' & Hinv0 & Hpa & Hni & _ & Ho & Hkpt).
  rewrite Hk in Hk'. injection Hk' as <-.
  assert (same_outside pa PGSIZE (pmem s0) m1) as Ho1 by (apply memset_outside; klia).
  split_and!.
  - apply (kmem_inv_same s0); [done| |done]. intros pb x Hpb Hx. unfold new_table. cbn [pmem set_pmem].
    rewrite (store64_other_page m1 e j _ pb); [|apply He| |by intros <-|done|done].
    + apply Ho1. apply (page_ok_disjoint pb pa x); [|done|by intros ->|done].
      pose proof (ki_pages _ _ Hinv0) as Hf. rewrite Forall_forall in Hf. auto.
    + pose proof (ki_pages _ _ Hinv0) as Hf. rewrite Forall_forall in Hf. by apply Hf.
  - done.
  - apply page_ok_bounds in Hpa. klia.
  - done.
  - intros x Hx. unfold m1. rewrite memset_in by done. done.
  - by eapply same_outside_trans.
  - done.
Qed.

(** Adding a fresh zeroed page [pa] as entry [j] of the page [e] of the table. *)
Section NewTable.
Context (s : phys) (pa : Z) (l : list Z) (s0 : phys) (r : Z) (d t : gmap Z Z).
Context (Hinv : vm_inv s (pa :: l) r d t) (Hk : kalloc s = Ok (pa, s0)).

Lemma new_table_grow e j d' t' :
  e ∈ pt_pages r d t -> 0 <= j < 512 ->
  pt_pages r d' t' ≡ₚ pa :: pt_pages r d t ->
  pt_rep (pmem (new_table s0 pa e j)) r d' t' ->
  (forall n, lookup_pte (pmem (new_table s0 pa e j)) t' n = lookup_pte (pmem s) t n) ->
  pt_grow s (pa :: l) r d t (new_table s0 pa e j) l d' t'.
Proof.
  intros He Hj Hp Hrep Hlk. destruct Hinv as [Hkm Hr Hd].
  assert (page_ok e) as Heok by (by eapply pt_page_ok).
  assert (e ∉ pa :: l) as Hel by (by apply Hd).
  rewrite not_elem_of_cons in Hel. destruct Hel as [Hne Hel].
  destruct (new_table_facts s pa l s0 e j) as (Hkm' & Hpa & _ & Hni & _ & Ho & Hkpt); [done..|].
  split.
  - split; [done|done|]. intros p. rewrite Hp. intros [->|Hin]%elem_of_cons; [done|].
    apply Hd in Hin. rewrite not_elem_of_cons in Hin. by destruct Hin.
  - rewrite Hp. by rewrite <- Permutation_middle.
  - done.
  - intros x Hx. unfold new_table. cbn [pmem set_pmem].
    rewrite store64_outside.
    + apply Ho. apply (Hx pa). rewrite elem_of_app, elem_of_cons. auto.
    + intros Hin. apply (Hx e). { rewrite elem_of_app. by left. } unfold in_page. klia.
  - done.
Qed.

Lemma new_table_side e j :
  e ∈ pt_pages r d t -> 0 <= j < 512 ->
  page_ok pa /\ (pa ∉ pt_pages r d t) /\
  same_pages (pt_pages r d t) (pmem s) (memset (pmem s0) pa 0 PGSIZE) /\
  (forall x, in_page pa x -> memset (pmem s0) pa 0 PGSIZE x = 0).
Proof.
  intros He Hj. destruct Hinv as [Hkm Hr Hd].
  assert (e ∉ pa :: l) as Hel by (by apply Hd).
  rewrite not_elem_of_cons in Hel. destruct Hel as [Hne Hel].
  destruct (new_table_facts s pa l s0 e j) as (_ & Hpa & _ & _ & Hz & Ho & _);
    [done|done|by eapply pt_page_ok|done|done|done|].
  assert (pa ∉ pt_pages r d t) as Hfresh by (intros Hin; apply (Hd pa Hin); by left).
  split_and!; [done|done| |done].
  eapply outside_page_same; [done|done|by apply (pr_ok (pmem s))|done].
Qed.

Lemma grow_dir i :
  d !! i = None -> 0 <= i < 512 ->
  pt_grow s (pa :: l) r d t (new_table s0 pa r i) l (<[i:=pa]> d) t.
Proof.
  intros Hi0 Hi. assert (r ∈ pt_pages r d t) as Hr by (apply elem_of_pt_pages; by left).
  destruct (new_table_side r i) as (Hpa & Hf & Hs & Hz); [done|done|].
  apply new_table_grow; [done|done|by apply pt_pages_add_dir| |].
  - by apply (pt_rep_add_dir (pmem s)); [apply Hinv|..].
  - intros n. by eapply lookup_pte_add_dir; [apply Hinv|..].
Qed.

Lemma grow_tab k p :
  t !! k = None -> 0 <= k -> d !! (k / 512) = Some p ->
  pt_grow s (pa :: l) r d t (new_table s0 pa p (k mod 512)) l d (<[k:=pa]> t).
Proof.
  intros Hk0 Hkp Hp. assert (p ∈ pt_pages r d t) as Hpin by (apply elem_of_pt_pages; eauto).
  assert (0 <= k mod 512 < 512) as Hj by (apply Z.mod_pos_bound; lia).
  destruct (new_table_side p (k mod 512)) as (Hpa & Hf & Hs & Hz); [done|done|].
  apply new_table_grow; [done|done|by apply pt_pages_add_tab| |].
  - by apply (pt_rep_add_tab (pmem s)); [apply Hinv|..].
  - intros n. by eapply lookup_pte_add_tab; [apply Hinv|..].
Qed.
End NewTable.

Lemma walk_dir_alloc s l r d t va :
  vm_inv s l r d t -> 0 <= va < MAXVA ->
  (l = [] /\ walk_levels [2; 1] r va true s = Ok (0, s)) \/
  exists p s1 l1 d1, d1 !! (va / PGSIZE / 512 / 512) = Some p /\
    walk_levels [2; 1] r va true s = walk_levels [1] p va true s1 /\
    pt_grow s l r d t s1 l1 d1 t /\ (length l <= length l1 + 1)%nat.
Proof.
  intros Hinv Hva. pose proof (rep_dir_entry _ _ _ _ va (vi_rep _ _ _ _ _ Hinv) Hva) as Hd.
  destruct (d !! (va / PGSIZE / 512 / 512)) as [p|] eqn:Ed.
  { right. exists p, s, l, d. split_and!; [done| |by apply pt_grow_refl|lia].
    destruct Hd as [Hd Hp]. by apply walk_level_present. }
  destruct l as [|pa l].
  { left. split; [done|]. apply walk_level_nomem; [done|]. apply kalloc_nil, Hinv. }
  right. destruct (kalloc_cons _ _ _ (vi_kmem _ _ _ _ _ Hinv)) as (s0 & Hk & _ & Hpa & _).
  destruct (PX_vpn va Hva) as (_ & _ & Hpx & Hb).
  exists pa, (new_table s0 pa r (PX 2 va)), l, (<[va / PGSIZE / 512 / 512 := pa]> d).
  split_and!; [by rewrite lookup_insert_eq| | |cbn; lia].
  - apply walk_level_alloc; [done|done|]. apply page_ok_bounds in Hpa. klia.
  - rewrite Hpx. by apply grow_dir.
Qed.

Lemma walk_tab_alloc s l r d t va p :
  vm_inv s l r d t -> 0 <= va < MAXVA -> d !! (va / PGSIZE / 512 / 512) = Some p ->
  (l = [] /\ walk_levels [1] p va true s = Ok (0, s)) \/
  exists q s1 l1 t1, t1 !! (va / PGSIZE / 512) = Some q /\
    walk_levels [1] p va true s = walk_levels [] q va true s1 /\
    pt_grow s l r d t s1 l1 d t1 /\ (length l <= length l1 + 1)%nat.
Proof.
  intros Hinv Hva Hp. pose proof (rep_tab_entry _ _ _ _ va p (vi_rep _ _ _ _ _ Hinv) Hva Hp) as Ht.
  destruct (t !! (va / PGSIZE / 512)) as [q|] eqn:Et.
  { right. exists q, s, l, t. split_and!; [done| |by apply pt_grow_refl|lia].
    destruct Ht as [Ht Hq]. by apply walk_level_present. }
  destruct l as [|pa l].
  { left. split; [done|]. apply walk_level_nomem; [done|]. apply kalloc_nil, Hinv. }
  right. destruct (kalloc_cons _ _ _ (vi_kmem _ _ _ _ _ Hinv)) as (s0 & Hk & _ & Hpa & _).
  destruct (PX_vpn va Hva) as (_ & Hpx & _ & Hb).
  exists pa, (new_table s0 pa p (PX 1 va)), l, (<[va / PGSIZE / 512 := pa]> t).
  split_and!; [by rewrite lookup_insert_eq| | |cbn; lia].
  - apply walk_level_alloc; [done|done|]. apply page_ok_bounds in Hpa. klia.
  - rewrite Hpx. apply grow_tab; [done|done|done| |done]. dlia.
Qed.

(** With allocation, [walk] returns the address of the level-0 entry, adding the
    table pages it needs (at most two), or 0 when the free list is exhausted (which
    needs fewer than two free pages); no mapping of the page table changes. *)
Lemma walk_alloc s l r d t va :
  vm_inv s l r d t -> 0 <= va < MAXVA ->
  exists a s' l' d' t', walk r va true s = Ok (a, s') /\ pt_grow s l r d t s' l' d' t' /\
    (a = 0 /\ l' = [] /\ (length l < 2)%nat \/
     a <> 0 /\ a = pte_slot t' (va / PGSIZE) /\ is_Some (t' !! (va / PGSIZE / 512)) /\
     (length l <= length l' + 2)%nat).
Proof.
  intros Hinv Hva. rewrite walk_guard by lia.
  destruct (walk_dir_alloc s l r d t va Hinv Hva) as [(-> & ->)|(p & s1 & l1 & d1 & Hp & -> & Hg1 & Hl1)].
  { exists 0, s, [], d, t. split_and!; [done|by apply pt_grow_refl|left; cbn; auto with lia]. }
  destruct (walk_tab_alloc s1 l1 r d1 t va p) as [(-> & ->)|(q & s2 & l2 & t2 & Hq & -> & Hg2 & Hl2)];
    [by eapply pg_inv|done|done| |].
  { exists 0, s1, [], d1, t. cbn in Hl1. split_and!; [done|done|left; split_and!; lia || done]. }
  exists (pte_slot t2 (va / PGSIZE)), s2, l2, d1, t2. split_and!.
  - cbn [walk_levels]. by rewrite (walk_slot_here _ t2).
  - by eapply pt_grow_trans.
  - right. split_and!; [|done|done|lia].
    eapply pte_slot_nonzero; [apply (pg_inv _ _ _ _ _ _ _ _ _ _ Hg2)|done].
Qed.

(** ** Entries of level 0 *)

Definition set_leaf (s : phys) (t : gmap Z Z) (n v : Z) : phys :=
  set_pmem (store64 (pmem s) (pte_slot t n) v) s.

Lemma leaf_store s l r d t n v :
  vm_inv s l r d t -> is_Some (t !! (n / 512)) ->
  pt_maps s l r d t (set_leaf s t n v) l d t
    (fun n' => if n' =? n then u64 v else lookup_pte (pmem s) t n') /\
  same_except (pt_pages r d t) (pmem s) (pmem (set_leaf s t n v)).
Proof.
  intros [Hk Hr Hd] [q Hq].
  assert (set_leaf s t n v = set_pmem (store64 (pmem s) (q + 8 * (n mod 512)) v) s) as ->
    by (unfold set_leaf, pte_slot; by rewrite Hq).
  set (s' := set_pmem _ s).
  assert (0 <= n mod 512 < 512) as Hj by (apply Z.mod_pos_bound; lia).
  assert (q ∈ pt_pages r d t) as Hqin by (apply elem_of_pt_pages; eauto).
  assert (same_except (pt_pages r d t) (pmem s) (pmem s')) as Hse.
  { intros x Hx. apply store64_outside. intros Hin. apply (Hx q Hqin). unfold in_page. klia. }
  split; [|done]. split; [split|done| | |done].
  - apply (kmem_inv_same s); [done| |done]. intros pb x Hpb Hx.
    apply store64_other_page with pb; [by eapply pt_aligned| |by intros ->; apply (Hd pb)|done|done].
    pose proof (ki_pages _ _ Hk) as Hf. rewrite Forall_forall in Hf. by apply Hf.
  - by eapply pt_rep_leaf_store.
  - done.
  - intros n'. by apply (lookup_pte_leaf_store _ r d).
  - eapply same_except_mono; [|done]. intros p Hp. rewrite elem_of_app. by left.
Qed.

Lemma load_slot s r d t n :
  pt_rep (pmem s) r d t -> is_Some (t !! (n / 512)) ->
  load64 (pmem s) (pte_slot t n) = lookup_pte (pmem s) t n.
Proof. intros _ [q Hq]. unfold pte_slot, lookup_pte. by rewrite Hq. Qed.

(** ** [mappages] *)

Definition leaf_pte (pa perm : Z) : Z := Z.lor (Z.lor (PA2PTE pa) perm) PTE_V.

Lemma leaf_pte_facts pa perm :
  0 <= pa < 2 ^ 56 -> 0 <= perm < 1024 ->
  u64 (leaf_pte pa perm) = leaf_pte pa perm /\ has (leaf_pte pa perm) PTE_V = true /\
  PTE_FLAGS (leaf_pte pa perm) = Z.lor perm PTE_V /\
  (pa mod PGSIZE = 0 -> PTE2PA (leaf_pte pa perm) = pa).
Proof.
  intros Hpa Hperm. unfold leaf_pte. rewrite <- Z.lor_assoc. change PTE_V with 1.
  assert (0 <= Z.lor perm 1 < 1024) as Hb.
  { split; [apply Z.lor_nonneg; lia|]. change 1024 with (2 ^ 10).
    apply Z.log2_lt_pow2; [|rewrite Z.log2_lor by lia].
    - assert (Z.lor perm 1 <> 0); [|pose proof (Z.lor_nonneg perm 1); lia].
      intros H. apply Z.lor_eq_0_iff in H. lia.
    - destruct (Z.eq_dec perm 0) as [->|]; [by cbn|].
      apply Z.max_lub_lt; [|by cbn]. apply Z.log2_lt_pow2; lia. }
  split_and!.
  - rewrite PA2PTE_lor by done. apply u64_small. kdlia.
  - change (has (Z.lor (PA2PTE pa) (Z.lor perm 1)) PTE_V = true).
    rewrite has_V, Z.lor_assoc, <- Z.bit0_odd, Z.lor_spec. by rewrite orb_true_r.
  - by apply PTE_FLAGS_make.
  - intros Ha. by apply PTE2PA_make.
Qed.

(** One iteration: the walk, and the store of the new entry. *)
Lemma map_one s l r d t n pa perm :
  vm_inv s l r d t -> 0 <= n < 2 ^ 26 -> has (lookup_pte (pmem s) t n) PTE_V = false ->
  0 <= pa < 2 ^ 56 -> 0 <= perm < 1024 ->
  exists pte s1 l1 d1 t1, walk r (PGSIZE * n) true s = Ok (pte, s1) /\
    (pte = 0 /\ l1 = [] /\ pt_grow s l r d t s1 l1 d1 t1 /\ (length l < 2)%nat \/
     pte <> 0 /\ (length l <= length l1 + 2)%nat /\ has (load64 (pmem s1) pte) PTE_V = false /\
     pt_maps s l r d t (set_pmem (store64 (pmem s1) pte (leaf_pte pa perm)) s1) l1 d1 t1
       (fun i => if i =? n then leaf_pte pa perm else lookup_pte (pmem s) t i)).
Proof.
  intros Hinv Hn Hfree Hpa Hperm.
  destruct (walk_alloc s l r d t (PGSIZE * n) Hinv) as (a & s1 & l1 & d1 & t1 & Hw & Hg & Hres); [klia|].
  replace (PGSIZE * n / PGSIZE) with n in Hres by kdlia.
  exists a, s1, l1, d1, t1. split; [done|].
  destruct Hres as [(-> & -> & Hl)|(Ha & -> & Hsome & Hl)]; [by left|right].
  pose proof (pg_inv _ _ _ _ _ _ _ _ _ _ Hg) as Hinv1.
  destruct (leaf_store s1 l1 r d1 t1 n (leaf_pte pa perm) Hinv1 Hsome) as [Hst _].
  destruct (leaf_pte_facts pa perm) as (Hu64 & _); [done|done|]. split_and!; [done|done| |].
  - by rewrite (load_slot s1 r d1), (pg_lookup _ _ _ _ _ _ _ _ _ _ Hg) by (apply Hinv1 || done).
  - eapply pt_maps_ext; [|by eapply pt_maps_trans]. intros i. cbn beta.
    by rewrite Hu64, (pg_lookup _ _ _ _ _ _ _ _ _ _ Hg).
Qed.

Lemma mappages_store pte v (K : unit -> M phys Z) s1 :
  has (load64 (pmem s1) pte) PTE_V = false ->
  bind (pload64 pte) (fun w => bind (panic_if (has w PTE_V) "remap")
    (fun _ => bind (pstore64 pte v) K)) s1 = K tt (set_pmem (store64 (pmem s1) pte v) s1).
Proof. intros H. unfold bind, pload64, gets, panic_if. by rewrite H. Qed.

(** [mappages] on whole pages: the entries of the first [j] pages are set; all of
    them on success, and -1 only when memory is exhausted. *)
Lemma mappages_loop_ok k : forall s l r d t n pa perm fuel,
  vm_inv s l r d t -> 0 <= n -> n + Z.of_nat k < 2 ^ 26 ->
  (forall i, n <= i <= n + Z.of_nat k -> has (lookup_pte (pmem s) t i) PTE_V = false) ->
  0 <= pa -> pa + PGSIZE * Z.of_nat k < 2 ^ 56 -> 0 <= perm < 1024 -> (k < fuel)%nat ->
  exists ret s' l' d' t' j,
    mappages_loop r (PGSIZE * n) (PGSIZE * (n + Z.of_nat k)) pa perm fuel s = Ok (ret, s') /\
    pt_maps s l r d t s' l' d' t' (fun i => if (n <=? i) && (i <? n + j)
      then leaf_pte (pa + PGSIZE * (i - n)) perm else lookup_pte (pmem s) t i) /\
    (ret = 0 /\ j = Z.of_nat k + 1 /\ (length l <= length l' + 2 * S k)%nat \/
     ret = -1 /\ 0 <= j <= Z.of_nat k /\ l' = [] /\ (length l < 2 * S k)%nat).
Proof.
  induction k as [|k IH]; intros s l r d t n pa perm fuel Hinv Hn Hnk Hfree Hpa Hpak Hperm Hf;
    (destruct fuel as [|fuel]; [lia|]); cbn [mappages_loop];
    (destruct (map_one s l r d t n pa perm) as (pte & s1 & l1 & d1 & t1 & Hw & [(-> & -> & Hg & Hl)|(Hnz & Hl & Hv & Hm)]);
     [done|lia|apply Hfree; lia|klia|done| |]).
  1,3: exists (-1), s1, [], d1, t1, 0; split_and!;
     [by mstep Hw | eapply pt_maps_ext; [|exact Hg]; intros i; zcase; lia || done | right; split_and!; lia || done].
  all: mstep Hw; rewrite (proj2 (Z.eqb_neq _ _) Hnz), mappages_store by done.
  - rewrite (proj2 (Z.eqb_eq _ _)) by lia.
    eexists 0, _, l1, d1, t1, 1. split_and!; [done| |left; lia].
    eapply pt_maps_ext; [|exact Hm]. intros i. cbn beta. zcase; try lia; [|done..]. f_equal. lia.
  - rewrite (proj2 (Z.eqb_neq _ _)), !u64_small by klia.
    set (s2 := set_pmem _ s1) in *.
    destruct (IH s2 l1 r d1 t1 (n + 1) (pa + PGSIZE) perm fuel) as (ret & s' & l' & d' & t' & j & Hrun' & Hm' & Hres);
      [by eapply pg_inv|lia|lia| |klia|klia|done|lia|].
    { intros i Hi. rewrite (pg_lookup _ _ _ _ _ _ _ _ _ _ Hm), (proj2 (Z.eqb_neq _ _)) by lia.
      apply Hfree. lia. }
    exists ret, s', l', d', t', (j + 1). split_and!.
    + rewrite <- Hrun'. f_equal; klia.
    + eapply pt_maps_ext; [|by eapply pt_maps_trans].
      intros i. cbn beta. rewrite (pg_lookup _ _ _ _ _ _ _ _ _ _ Hm).
      zcase; try lia; try done; f_equal; klia.
    + destruct Hres as [(-> & -> & Hl')|(-> & Hj & -> & Hl')]; [left|right]; split_and!; lia || done.
Qed.

(** [mappages(pagetable, va, size, pa, perm)] with [size > 0] inside the address
    space and no page of the range mapped: it returns 0 with every page of the
    range mapped to consecutive frames from [pa], or -1 with memory exhausted
    and a prefix of the range mapped; no other entry changes. *)
Lemma mappages_ok s l r d t va size pa perm :
  vm_inv s l r d t -> 0 <= va -> 0 < size -> va + size <= MAXVA ->
  (forall i, va / PGSIZE <= i <= (va + size - 1) / PGSIZE -> has (lookup_pte (pmem s) t i) PTE_V = false) ->
  0 <= pa -> pa + size + PGSIZE < 2 ^ 56 -> 0 <= perm < 1024 ->
  exists ret s' l' d' t' j,
    mappages r va size pa perm s = Ok (ret, s') /\
    pt_maps s l r d t s' l' d' t' (fun i => if (va / PGSIZE <=? i) && (i <? va / PGSIZE + j)
      then leaf_pte (pa + PGSIZE * (i - va / PGSIZE)) perm else lookup_pte (pmem s) t i) /\
    (ret = 0 /\ va / PGSIZE + j = (va + size - 1) / PGSIZE + 1 /\
       Z.of_nat (length l) <= Z.of_nat (length l') + 2 * j \/
     ret = -1 /\ 0 <= j /\ va / PGSIZE + j <= (va + size - 1) / PGSIZE /\ l' = [] /\
       Z.of_nat (length l) < 2 * ((va + size - 1) / PGSIZE - va / PGSIZE + 1)).
Proof.
  intros Hinv Hva Hsz Hmax Hfree Hpa Hpa2 Hperm. unfold mappages.
  rewrite u64_small, !PGROUNDDOWN_spec by klia.
  set (n := va / PGSIZE) in *. set (k := Z.to_nat ((va + size - 1) / PGSIZE - n)).
  assert (n <= (va + size - 1) / PGSIZE) as Hnk by (unfold n; apply Z.div_le_mono; klia).
  replace (va - va mod PGSIZE) with (PGSIZE * n) by (unfold n; kdlia).
  replace (va + size - 1 - (va + size - 1) mod PGSIZE) with (PGSIZE * (n + Z.of_nat k))
    by (unfold k; rewrite Z2Nat.id by lia; kdlia).
  rewrite (proj2 (Z.leb_le _ _)) by klia.
  replace (PGSIZE * (n + Z.of_nat k) - PGSIZE * n) with (Z.of_nat k * PGSIZE) by lia.
  rewrite Z.div_mul by klia.
  destruct (mappages_loop_ok k s l r d t n pa perm (Z.to_nat (Z.of_nat k + 2)))
    as (ret & s' & l' & d' & t' & j & Hrun & Hm & Hres); try done.
  - unfold n. kdlia.
  - unfold k. rewrite Z2Nat.id by lia. unfold n in *. kdlia.
  - intros i Hi. apply Hfree. lia.
  - unfold k. rewrite Z2Nat.id by lia. unfold n in *. kdlia.
  - lia.
  - exists ret, s', l', d', t', j. split_and!; [done|done|].
    destruct Hres as [(-> & -> & Hl)|(-> & Hj & -> & Hl)]; [left|right]; split_and!; lia || done.
Qed.
End VmSpec.
