(* ===== verification/VmUser.v ===== *)
(** * User address spaces: growing, shrinking, copying and freeing

    [uvm_inv] adds to a page table the map [U] of the user pages it owns (virtual
    page number to frame): table pages, user pages and free pages are distinct
    frames of the allocator.  [uvm_step] relates the states before and after an
    operation: which frames moved where ([us_perm]: none is lost), what every
    virtual page now maps to ([us_vpte]) and that kept user pages and memory
    outside are untouched. *)

From S2P Require Import Prelude Riscv KString Kalloc Vm VmSpec.

(** The valid entry of a virtual page. *)
Definition vpte (m : mem) (t : gmap Z Z) (n : Z) : option Z :=
  if has (lookup_pte m t n) PTE_V then Some (lookup_pte m t n) else None.

Definition upages (U : gmap Z Z) : list Z := (map_to_list U).*2.

(** [U] without the virtual pages from [n] up to [e]. *)
Definition udrop (n e : Z) (U : gmap Z Z) : gmap Z Z :=
  filter (fun p => ~ (n <= p.1 < e)) U.

Lemma lookup_udrop n e U i :
  udrop n e U !! i = if (n <=? i) && (i <? e) then None else U !! i.
Proof.
  unfold udrop. destruct (U !! i) as [pa|] eqn:E; zcase;
    first [apply map_lookup_filter_Some; split; [done|cbn; lia]
          |apply map_lookup_filter_None; rewrite E; naive_solver lia].
Qed.

Lemma udrop_nil n e U : e <= n -> udrop n e U = U.
Proof. intros H. apply map_eq. intros i. rewrite lookup_udrop. by zcase; try lia. Qed.

Lemma udrop_step n e U : n < e -> udrop (n + 1) e (delete n U) = udrop n e U.
Proof.
  intros H. apply map_eq. intros i. rewrite !lookup_udrop, lookup_delete.
  destruct (decide (n = i)); zcase; lia || done.
Qed.

Section VmUser.
Context {L : Linker} {LOk : LinkerOk L}.

Record uvm_inv (s : phys) (l : list Z) (r : Z) (d t U : gmap Z Z) : Prop := {
  ui_vm : vm_inv s l r d t;
  ui_map n pa : U !! n = Some pa -> 0 <= n < 2 ^ 26 /\
    exists v, vpte (pmem s) t n = Some v /\ PTE2PA v = pa /\ PTE_FLAGS v <> PTE_V;
  ui_ok : Forall page_ok (upages U);
  ui_nodup : NoDup (pt_pages r d t ++ upages U ++ l);
}.

Record uvm_step (s : phys) (l : list Z) (r : Z) (d t U : gmap Z Z)
    (s' : phys) (l' : list Z) (d' t' U' : gmap Z Z) (G : Z -> option Z) : Prop := {
  us_inv : uvm_inv s' l' r d' t' U';
  us_perm : pt_pages r d' t' ++ upages U' ++ l' ≡ₚ pt_pages r d t ++ upages U ++ l;
  us_vpte n : vpte (pmem s') t' n = G n;
  us_keep n pa x : U !! n = Some pa -> U' !! n = Some pa -> in_page pa x -> pmem s' x = pmem s x;
  us_frame : same_except (pt_pages r d t ++ upages U ++ l) (pmem s) (pmem s');
  us_kpt : kernel_pagetable s' = kernel_pagetable s;
}.

Lemma uvm_step_refl s l r d t U :
  uvm_inv s l r d t U -> uvm_step s l r d t U s l d t U (vpte (pmem s) t).
Proof. intros H. split; try done. Qed.

Lemma uvm_step_trans s1 l1 r d1 t1 U1 s2 l2 d2 t2 U2 s3 l3 d3 t3 U3 F G :
  uvm_step s1 l1 r d1 t1 U1 s2 l2 d2 t2 U2 F -> uvm_step s2 l2 r d2 t2 U2 s3 l3 d3 t3 U3 G ->
  (forall n pa, U1 !! n = Some pa -> U3 !! n = Some pa -> U2 !! n = Some pa) ->
  uvm_step s1 l1 r d1 t1 U1 s3 l3 d3 t3 U3 G.
Proof.
  intros [Ha1 Hb1 Hc1 Hd1 He1 Hf1] [Ha2 Hb2 Hc2 Hd2 He2 Hf2] HU. split; [done| |done| | |congruence].
  - by rewrite Hb2.
  - intros n pa x H1 H3 Hx. by rewrite (Hd2 n pa), (Hd1 n pa) by eauto.
  - eapply same_except_trans; [done|]. by eapply same_except_perm.
Qed.

Lemma uvm_step_ext s l r d t U s' l' d' t' U' F G :
  (forall n, F n = G n) -> uvm_step s l r d t U s' l' d' t' U' F ->
  uvm_step s l r d t U s' l' d' t' U' G.
Proof. intros HFG [Ha Hb Hc Hd He Hf]. split; try done. intros n. by rewrite Hc. Qed.

(** Facts about the frames. *)
Lemma uvm_user_page s l r d t U n pa :
  uvm_inv s l r d t U -> U !! n = Some pa ->
  page_ok pa /\ (pa ∉ pt_pages r d t) /\ pa ∉ l.
Proof.
  intros [_ _ Hok Hn] Hpa. assert (pa ∈ upages U) as Hin by (apply elem_of_map_values; eauto).
  rewrite Forall_forall in Hok. apply NoDup_app in Hn as (_ & Hd1 & Hn).
  apply NoDup_app in Hn as (_ & Hd2 & _). split_and!; [by apply Hok| |by apply Hd2].
  intros Hp. apply (Hd1 pa Hp). rewrite elem_of_app. by left.
Qed.

Lemma vpte_some m t n v :
  vpte m t n = Some v -> lookup_pte m t n = v /\ has v PTE_V = true.
Proof. unfold vpte. destruct (has _ _) eqn:E; [|done]. by intros [= <-]. Qed.

Lemma vpte_none m t n : vpte m t n = None <-> has (lookup_pte m t n) PTE_V = false.
Proof. unfold vpte. by destruct (has _ _). Qed.

Lemma vpte_slot m t n v : vpte m t n = Some v -> is_Some (t !! (n / 512)).
Proof.
  intros H. apply vpte_some in H as [Hl Hv]. unfold lookup_pte in Hl.
  destruct (t !! (n / 512)); [done|]. subst v. by rewrite has_V_0 in Hv.
Qed.

(** ** Unmapping one page *)

Lemma upages_delete U n pa : U !! n = Some pa -> upages U ≡ₚ pa :: upages (delete n U).
Proof.
  intros H. unfold upages. rewrite <- (insert_delete_id U n pa) at 1 by done.
  rewrite map_to_list_insert; [done|]. by rewrite lookup_delete_eq.
Qed.

Lemma delete_some_ne (U : gmap Z Z) n n' pa :
  delete n U !! n' = Some pa -> n' <> n /\ U !! n' = Some pa.
Proof. rewrite lookup_delete_Some. intros [Hne H]. by split; [intros ->|]. Qed.

(** [kfree] of a user page leaves the page table alone. *)
Lemma free_user_page s l r d t U n pa :
  uvm_inv s l r d t U -> U !! n = Some pa ->
  exists s1, kfree pa s = Ok (tt, s1) /\ vm_inv s1 (pa :: l) r d t /\
    (forall i, lookup_pte (pmem s1) t i = lookup_pte (pmem s) t i) /\
    same_outside pa PGSIZE (pmem s) (pmem s1) /\ kernel_pagetable s1 = kernel_pagetable s.
Proof.
  intros Hinv Hpa. destruct (uvm_user_page _ _ _ _ _ _ _ _ Hinv Hpa) as (Hok & Hnp & Hnl).
  destruct (ui_vm _ _ _ _ _ _ Hinv) as [Hk Hr Hd].
  destruct (kfree_ok s l pa Hk Hok Hnl) as (s1 & Hrun & Hk1 & Ho & Hkpt).
  assert (same_pages (pt_pages r d t) (pmem s) (pmem s1)) as Hsp
    by (eapply outside_page_same; eauto; by apply (pr_ok (pmem s))).
  exists s1. split_and!; [done|split|intros i; by eapply lookup_pte_same|done|done].
  - done.
  - by eapply pt_rep_same.
  - intros p Hp [->|Hin]%elem_of_cons; [done|]. by apply (Hd p).
Qed.

Lemma same_except_user pa l m m' : same_outside pa PGSIZE m m' -> pa ∈ l -> same_except l m m'.
Proof. intros Ho Hin x Hx. apply Ho. by apply (Hx pa). Qed.

Lemma vpte_ext m m' t t' n :
  lookup_pte m' t' n = lookup_pte m t n -> vpte m' t' n = vpte m t n.
Proof. unfold vpte. by intros ->. Qed.

Lemma clear_free_page s l r d t U n pa s1 :
  uvm_inv s l r d t U -> U !! n = Some pa ->
  kfree pa s = Ok (tt, s1) ->
  uvm_step s l r d t U (set_leaf s1 t n 0) (pa :: l) d t (delete n U)
    (fun i => if i =? n then None else vpte (pmem s) t i).
Proof.
  intros Hinv Hpa Hrun. destruct (free_user_page s l r d t U n pa Hinv Hpa)
    as (s1' & Hrun' & Hvm & Hlk & Ho & Hkpt). rewrite Hrun in Hrun'. injection Hrun' as <-.
  destruct (ui_map _ _ _ _ _ _ Hinv n pa Hpa) as (Hn & v & Hv & _).
  destruct (leaf_store s1 (pa :: l) r d t n 0 Hvm (vpte_slot _ _ _ _ Hv)) as [Hm Hse].
  assert (forall i, vpte (pmem (set_leaf s1 t n 0)) t i = if i =? n then None else vpte (pmem s) t i) as Hvp.
  { intros i. unfold vpte. rewrite (pg_lookup _ _ _ _ _ _ _ _ _ _ Hm), Hlk.
    by destruct (i =? n). }
  assert (pt_pages r d t ++ upages (delete n U) ++ pa :: l ≡ₚ pt_pages r d t ++ upages U ++ l) as Hperm.
  { rewrite (upages_delete U n pa Hpa). by rewrite <- Permutation_middle. }
  split; [split|done|done| | |].
  - apply Hm.
  - intros n' pb [Hne Hb]%delete_some_ne. destruct (ui_map _ _ _ _ _ _ Hinv n' pb Hb) as (Hn' & v' & Hv' & ?).
    split; [done|]. exists v'. rewrite Hvp, (proj2 (Z.eqb_neq _ _) Hne). done.
  - pose proof (ui_ok _ _ _ _ _ _ Hinv) as Hf. rewrite (upages_delete U n pa Hpa) in Hf.
    by apply Forall_cons in Hf as [_ Hf].
  - rewrite Hperm. by apply (ui_nodup s).
  - intros n' pb x Hb [Hne _]%delete_some_ne Hx.
    destruct (uvm_user_page _ _ _ _ _ _ _ _ Hinv Hb) as (Hok & Hnp & _).
    destruct (uvm_user_page _ _ _ _ _ _ _ _ Hinv Hpa) as (Hoka & _).
    rewrite Hse; [apply Ho|].
    + apply (page_ok_disjoint pb pa x); [done|done| |done]. intros ->. apply Hne.
      assert (NoDup (upages U)) as Hnd.
      { pose proof (ui_nodup _ _ _ _ _ _ Hinv) as Hnd.
        apply NoDup_app in Hnd as (_ & _ & Hnd). by apply NoDup_app in Hnd as (Hnd & _). }
      by eapply map_values_inj.
    + intros p Hp. apply (page_ok_disjoint pb p x); [done| |by intros ->|done].
      eapply pt_page_ok; [apply Hinv|done].
  - eapply same_except_trans.
    + eapply same_except_user; [exact Ho|]. rewrite !elem_of_app. right; left. apply elem_of_map_values. eauto.
    + eapply same_except_mono; [|exact Hse]. intros p Hp. rewrite elem_of_app. by left.
  - rewrite (pg_kpt _ _ _ _ _ _ _ _ _ _ Hm). done.
Qed.

(** ** Allocating and mapping one page *)

Lemma unmapped_key s l r d t U n :
  uvm_inv s l r d t U -> vpte (pmem s) t n = None -> U !! n = None.
Proof.
  intros Hinv Hfree. destruct (U !! n) as [pb|] eqn:E; [|done].
  destruct (ui_map _ _ _ _ _ _ Hinv n pb E) as (_ & v & Hv & _). congruence.
Qed.

Lemma same_except_same_pages P l m m' :
  same_except P m m' -> Forall page_ok P -> Forall page_ok l -> (forall p, p ∈ l -> p ∉ P) ->
  same_pages l m m'.
Proof.
  rewrite !Forall_forall. intros Hs HP Hl Hd pb x Hpb Hx. apply Hs. intros pa Hpa.
  apply (page_ok_disjoint pb pa x); [auto|auto| |done]. intros ->. by apply (Hd pa).
Qed.

Lemma same_outside_except pa m m' : same_outside pa PGSIZE m m' -> same_except [pa] m m'.
Proof. intros Ho. eapply same_except_user; [done|]. by left. Qed.

Lemma vm_pages_ok s l r d t : vm_inv s l r d t -> Forall page_ok (pt_pages r d t ++ l).
Proof. intros [Hk Hr _]. apply Forall_app. split; [apply Hr|apply Hk]. Qed.

Section AllocMap.
Variables (s : phys) (pa : Z) (l : list Z) (r : Z) (d t U : gmap Z Z).
Hypothesis Hinv : uvm_inv s (pa :: l) r d t U.

Lemma fresh_frame : page_ok pa /\ (pa ∉ pt_pages r d t) /\ (pa ∉ upages U) /\ pa ∉ l.
Proof.
  pose proof (ki_pages _ _ (vi_kmem _ _ _ _ _ (ui_vm _ _ _ _ _ _ Hinv))) as Hok.
  pose proof (ui_nodup _ _ _ _ _ _ Hinv) as Hnd.
  apply Forall_cons in Hok as [Hok _]. split; [done|].
  rewrite <- (Permutation_middle (upages U) l pa), <- (Permutation_middle _ _ pa) in Hnd.
  apply NoDup_cons in Hnd as [Hni _]. rewrite !elem_of_app in Hni. tauto.
Qed.

(** The page is taken off the free list and filled. *)
Lemma alloc_fill s1 :
  kmem_inv s1 l -> same_outside pa PGSIZE (pmem s) (pmem s1) ->
  vm_inv s1 l r d t /\ (forall i, lookup_pte (pmem s1) t i = lookup_pte (pmem s) t i).
Proof.
  intros Hk Ho. destruct fresh_frame as (Hok & Hnp & _).
  destruct (ui_vm _ _ _ _ _ _ Hinv) as [_ Hr Hd].
  assert (same_pages (pt_pages r d t) (pmem s) (pmem s1)) as Hsp
    by (eapply outside_page_same; eauto; by apply (pr_ok (pmem s))).
  split; [split|intros i; by eapply lookup_pte_same].
  - done.
  - by eapply pt_rep_same.
  - intros p Hp Hin. apply (Hd p Hp). by right.
Qed.

(** The table then grows, with a mapping [F] that agrees on the user pages [U']. *)
Lemma alloc_maps s1 s2 l2 d2 t2 F :
  kmem_inv s1 l -> same_outside pa PGSIZE (pmem s) (pmem s1) ->
  kernel_pagetable s1 = kernel_pagetable s ->
  pt_maps s1 l r d t s2 l2 d2 t2 F ->
  same_except (pt_pages r d t ++ upages U ++ pa :: l) (pmem s) (pmem s2) /\
  same_pages (upages U) (pmem s) (pmem s2) /\
  (forall x, in_page pa x -> pmem s2 x = pmem s1 x) /\
  pt_pages r d2 t2 ++ l2 ≡ₚ pt_pages r d t ++ l /\
  kernel_pagetable s2 = kernel_pagetable s.
Proof.
  intros Hk Ho Hkpt Hm. destruct fresh_frame as (Hok & Hnp & Hnu & Hnl).
  destruct (alloc_fill s1 Hk Ho) as [Hvm1 _].
  pose proof (ui_nodup _ _ _ _ _ _ Hinv) as Hnd. pose proof (ui_ok _ _ _ _ _ _ Hinv) as Huok.
  apply NoDup_app in Hnd as (_ & Hpu & Hnd). apply NoDup_app in Hnd as (_ & Hul & _).
  pose proof (pg_frame _ _ _ _ _ _ _ _ _ _ Hm) as Hfr.
  split_and!.
  - eapply same_except_trans; [|eapply same_except_mono; [|exact Hfr]].
    + eapply same_except_user; [exact Ho|]. rewrite !elem_of_app. right; right. by left.
    + intros p. rewrite !elem_of_app, elem_of_cons. tauto.
  - intros p x Hp Hx. transitivity (pmem s1 x).
    + apply (same_except_same_pages (pt_pages r d t ++ l) (upages U) (pmem s1) (pmem s2)) with p;
        [done|by eapply vm_pages_ok|done| |done|done].
      intros p' Hp'. rewrite elem_of_app. intros [?|?]; [apply (Hpu p'); [done|]|apply (Hul p'); [done|]].
      * rewrite elem_of_app. by left.
      * by right.
    + apply (outside_page_same pa (upages U) (pmem s) (pmem s1) Ho Hok Huok Hnu p); done.
  - intros x Hx. apply (same_except_same_pages (pt_pages r d t ++ l) [pa] (pmem s1) (pmem s2)) with pa;
      [done|by eapply vm_pages_ok|by apply Forall_singleton| |by left|done].
    intros p' ->%list_elem_of_singleton. rewrite elem_of_app. tauto.
  - apply Hm.
  - rewrite (pg_kpt _ _ _ _ _ _ _ _ _ _ Hm). done.
Qed.

(** Mapping succeeded: the page belongs to the address space. *)
Lemma alloc_map_success n s1 s2 l2 d2 t2 perm :
  0 <= n < 2 ^ 26 -> vpte (pmem s) t n = None ->
  kmem_inv s1 l -> same_outside pa PGSIZE (pmem s) (pmem s1) ->
  kernel_pagetable s1 = kernel_pagetable s ->
  0 <= perm < 1024 -> Z.lor perm PTE_V <> PTE_V ->
  pt_maps s1 l r d t s2 l2 d2 t2
    (fun i => if i =? n then leaf_pte pa perm else lookup_pte (pmem s1) t i) ->
  uvm_step s (pa :: l) r d t U s2 l2 d2 t2 (<[n:=pa]> U)
    (fun i => if i =? n then Some (leaf_pte pa perm) else vpte (pmem s) t i).
Proof.
  intros Hn Hfree Hk Ho Hkpt Hperm Hleaf Hm. destruct (alloc_fill s1 Hk Ho) as [_ Hlk].
  destruct (alloc_maps _ _ _ _ _ _ Hk Ho Hkpt Hm) as (Hfr & Hsp & _ & Hpp & Hkp).
  destruct fresh_frame as (Hok & Hnp & Hnu & Hnl). pose proof (unmapped_key _ _ _ _ _ _ n Hinv Hfree) as HUn.
  pose proof (page_ok_bounds _ Hok) as Hpab.
  destruct (leaf_pte_facts pa perm) as (_ & HV & Hfl & Hpa); [klia|done|].
  assert (forall i, vpte (pmem s2) t2 i = if i =? n then Some (leaf_pte pa perm) else vpte (pmem s) t i) as Hv.
  { intros i. unfold vpte. rewrite (pg_lookup _ _ _ _ _ _ _ _ _ _ Hm), Hlk.
    destruct (i =? n); [by rewrite HV|done]. }
  assert (pt_pages r d2 t2 ++ upages (<[n:=pa]> U) ++ l2 ≡ₚ pt_pages r d t ++ upages U ++ pa :: l) as Hperm'.
  { unfold upages. rewrite map_values_insert by done. cbn [app].
    rewrite <- !Permutation_middle. constructor. rewrite !(Permutation_app_comm _ l2), !(Permutation_app_comm _ l).
    rewrite !app_assoc. apply Permutation_app_tail. done. }
  split; [split| |exact Hv| |exact Hfr|exact Hkp].
  - apply Hm.
  - intros i pb. rewrite lookup_insert_Some, Hv. intros [[<- <-]|[Hne Hb]].
    + split; [done|]. exists (leaf_pte pa perm). rewrite Z.eqb_refl. destruct Hok as [Hal _].
      split_and!; [done|auto|]. by rewrite Hfl.
    + rewrite (proj2 (Z.eqb_neq i n)) by done. by apply (ui_map _ _ _ _ _ _ Hinv).
  - unfold upages. rewrite map_values_insert by done. constructor; [done|]. by apply (ui_ok s (pa :: l) r d t).
  - rewrite Hperm'. apply Hinv.
  - exact Hperm'.
  - intros i pb x Hb _ Hx. apply (Hsp pb); [|done]. apply elem_of_map_values. eauto.
Qed.

(** Mapping failed: giving the page back leaves the address space as it was. *)
Lemma alloc_map_failure s1 s2 l2 d2 t2 :
  kmem_inv s1 l -> same_outside pa PGSIZE (pmem s) (pmem s1) ->
  kernel_pagetable s1 = kernel_pagetable s ->
  pt_maps s1 l r d t s2 l2 d2 t2 (fun i => lookup_pte (pmem s1) t i) ->
  exists s3, kfree pa s2 = Ok (tt, s3) /\
    uvm_step s (pa :: l) r d t U s3 (pa :: l2) d2 t2 U (vpte (pmem s) t).
Proof.
  intros Hk Ho Hkpt Hm. destruct (alloc_fill s1 Hk Ho) as [_ Hlk].
  destruct (alloc_maps _ _ _ _ _ _ Hk Ho Hkpt Hm) as (Hfr & Hsp & _ & Hpp & Hkp).
  destruct fresh_frame as (Hok & Hnp & Hnu & Hnl).
  assert (pa ∉ pt_pages r d2 t2 ++ l2) as Hnp2 by (rewrite Hpp, elem_of_app; tauto).
  rewrite elem_of_app in Hnp2.
  destruct (pg_inv _ _ _ _ _ _ _ _ _ _ Hm) as [Hk2 Hr2 Hd2].
  destruct (kfree_ok s2 l2 pa Hk2 Hok) as (s3 & Hrun & Hk3 & Ho3 & Hkpt3); [tauto|].
  assert (same_pages (pt_pages r d2 t2) (pmem s2) (pmem s3)) as Hsp3
    by (eapply outside_page_same; [exact Ho3|done|by apply (pr_ok (pmem s2))|tauto]).
  assert (forall i, vpte (pmem s3) t2 i = vpte (pmem s) t i) as Hv.
  { intros i. apply vpte_ext. rewrite (lookup_pte_same _ _ _ _ _ _ Hsp3).
    by rewrite (pg_lookup _ _ _ _ _ _ _ _ _ _ Hm). }
  assert (pt_pages r d2 t2 ++ upages U ++ pa :: l2 ≡ₚ pt_pages r d t ++ upages U ++ pa :: l) as Hperm'.
  { rewrite <- !Permutation_middle. constructor.
    rewrite !(Permutation_app_comm (upages U)), !app_assoc. by apply Permutation_app_tail. }
  exists s3. split; [done|]. split; [split| |exact Hv| | |congruence].
  - split; [done|by eapply pt_rep_same|]. intros p Hp [->|Hin]%elem_of_cons; [tauto|by apply (Hd2 p)].
  - intros i pb Hb. rewrite Hv. by apply (ui_map _ _ _ _ _ _ Hinv).
  - apply (ui_ok _ _ _ _ _ _ Hinv).
  - rewrite Hperm'. apply Hinv.
  - exact Hperm'.
  - intros i pb x Hb _ Hx. assert (pb ∈ upages U) as Hin by (apply elem_of_map_values; eauto).
    rewrite <- (Hsp pb x Hin Hx). apply (outside_page_same pa (upages U) (pmem s2) (pmem s3)) with pb; try done.
    apply (ui_ok _ _ _ _ _ _ Hinv).
  - eapply same_except_trans; [exact Hfr|]. eapply same_except_user; [exact Ho3|].
    rewrite !elem_of_app. right; right. by left.
Qed.
End AllocMap.

(** ** [uvmunmap] *)

(** The body of the loop on a user page. *)
Lemma unmap_one s l r d t U n pa fuel e :
  uvm_inv s l r d t U -> U !! n = Some pa -> n < e -> e <= 2 ^ 26 ->
  exists s1, uvmunmap_loop r (PGSIZE * n) (PGSIZE * e) true (S fuel) s =
      uvmunmap_loop r (PGSIZE * (n + 1)) (PGSIZE * e) true fuel s1 /\
    uvm_step s l r d t U s1 (pa :: l) d t (delete n U)
      (fun i => if i =? n then None else vpte (pmem s) t i).
Proof.
  intros Hinv Hpa Hne He. destruct (ui_map _ _ _ _ _ _ Hinv n pa Hpa) as (Hn & v & Hv & HPA & Hfl).
  pose proof (vi_rep _ _ _ _ _ (ui_vm _ _ _ _ _ _ Hinv)) as Hrep.
  pose proof (vpte_slot _ _ _ _ Hv) as Hslot. apply vpte_some in Hv as [Hlk HV].
  destruct (free_user_page s l r d t U n pa Hinv Hpa) as (s1 & Hrun & _).
  exists (set_leaf s1 t n 0). split; [|by apply clear_free_page].
  cbn [uvmunmap_loop]. rewrite (proj2 (Z.ltb_lt _ _)) by klia.
  mstep (walk_noalloc s r d t (PGSIZE * n) Hrep). 2:klia.
  replace (PGSIZE * n / PGSIZE) with n by kdlia.
  rewrite (proj2 (Z.eqb_neq _ 0)) by (by eapply pte_slot_nonzero).
  mcomp. mcomp.
  rewrite (load_slot s r d t n Hrep Hslot), Hlk, HV, (proj2 (Z.eqb_neq _ _) Hfl), HPA.
  mcomp. mcomp. mstep Hrun.
  mcomp.
  rewrite u64_small by klia. by replace (PGSIZE * n + PGSIZE) with (PGSIZE * (n + 1)) by lia.
Qed.

Lemma uvmunmap_loop_ok k : forall s l r d t U n fuel,
  uvm_inv s l r d t U -> n + Z.of_nat k <= 2 ^ 26 ->
  (forall i, n <= i < n + Z.of_nat k -> is_Some (U !! i)) -> (k < fuel)%nat ->
  exists s' l', uvmunmap_loop r (PGSIZE * n) (PGSIZE * (n + Z.of_nat k)) true fuel s = Ok (tt, s') /\
    uvm_step s l r d t U s' l' d t (udrop n (n + Z.of_nat k) U)
      (fun i => if (n <=? i) && (i <? n + Z.of_nat k) then None else vpte (pmem s) t i).
Proof.
  induction k as [|k IH]; intros s l r d t U n fuel Hinv Hn Hmap Hf; (destruct fuel as [|fuel]; [lia|]).
  { exists s, l. cbn [uvmunmap_loop]. rewrite (proj2 (Z.ltb_ge _ _)) by lia. split; [done|].
    rewrite udrop_nil by lia. eapply uvm_step_ext; [|by apply uvm_step_refl].
    intros i. by zcase; try lia. }
  destruct (Hmap n) as [pa Hpa]; [lia|].
  destruct (unmap_one s l r d t U n pa fuel (n + Z.of_nat (S k))) as (s1 & -> & Hs1); [done|done|lia|lia|].
  destruct (IH s1 (pa :: l) r d t (delete n U) (n + 1) fuel) as (s' & l' & Hrun & Hs'); [apply Hs1|lia| |lia|].
  { intros i Hi. rewrite lookup_delete_ne by lia. apply Hmap. lia. }
  replace (n + 1 + Z.of_nat k) with (n + Z.of_nat (S k)) in * by lia.
  exists s', l'. split; [done|]. rewrite udrop_step in Hs' by lia.
  eapply uvm_step_ext; [|eapply uvm_step_trans; [exact Hs1|exact Hs'|]].
  - intros i. cbn beta. rewrite (us_vpte _ _ _ _ _ _ _ _ _ _ _ _ Hs1). by zcase; try lia.
  - intros i pb Hb. rewrite lookup_udrop, lookup_delete. destruct (decide (n = i)); [|done].
    zcase; done || lia.
Qed.

Lemma uvmunmap_ok s l r d t U n k :
  uvm_inv s l r d t U -> 0 <= n -> 0 <= k -> n + k <= 2 ^ 26 ->
  (forall i, n <= i < n + k -> is_Some (U !! i)) ->
  exists s' l', uvmunmap r (PGSIZE * n) k true s = Ok (tt, s') /\
    uvm_step s l r d t U s' l' d t (udrop n (n + k) U)
      (fun i => if (n <=? i) && (i <? n + k) then None else vpte (pmem s) t i).
Proof.
  intros Hinv Hn Hk Hnk Hmap. unfold uvmunmap.
  replace (PGSIZE * n mod PGSIZE) with 0 by kdlia. mcomp.
  rewrite (u64_small (k * PGSIZE)), u64_small by klia.
  replace (PGSIZE * n + k * PGSIZE) with (PGSIZE * (n + Z.of_nat (Z.to_nat k))) by klia.
  destruct (uvmunmap_loop_ok (Z.to_nat k) s l r d t U n
    (Z.to_nat ((PGSIZE * (n + Z.of_nat (Z.to_nat k)) - PGSIZE * n) / PGSIZE + 2))) as (s' & l' & Hrun & Hs).
  - done.
  - lia.
  - intros i Hi. apply Hmap. lia.
  - kdlia.
  - exists s', l'. by replace (n + Z.of_nat (Z.to_nat k)) with (n + k) in * by lia.
Qed.

(** ** One iteration of [uvmalloc] and [uvmcopy]

    [kalloc], fill the page, [mappages] one page and, if that fails, [kfree]. *)
Lemma alloc_map s l r d t U n perm (fill : Z -> mem -> mem) :
  uvm_inv s l r d t U -> 0 <= n < 2 ^ 26 -> vpte (pmem s) t n = None ->
  0 <= perm < 1024 -> Z.lor perm PTE_V <> PTE_V ->
  (forall pa m, page_ok pa -> same_outside pa PGSIZE m (fill pa m)) ->
  (kalloc s = Ok (0, s) /\ l = []) \/
  exists pa s0 s2, kalloc s = Ok (pa, s0) /\ pa <> 0 /\ pa ∈ l /\ same_outside pa PGSIZE (pmem s) (pmem s0) /\
    ((exists l2 d2 t2,
        mappages r (PGSIZE * n) PGSIZE pa perm (set_pmem (fill pa (pmem s0)) s0) = Ok (0, s2) /\
        uvm_step s l r d t U s2 l2 d2 t2 (<[n:=pa]> U)
          (fun i => if i =? n then Some (leaf_pte pa perm) else vpte (pmem s) t i) /\
        (forall x, in_page pa x -> pmem s2 x = fill pa (pmem s0) x) /\
        (length l <= length l2 + 3)%nat) \/
     exists s3 l2 d2 t2,
       mappages r (PGSIZE * n) PGSIZE pa perm (set_pmem (fill pa (pmem s0)) s0) = Ok (-1, s2) /\
       kfree pa s2 = Ok (tt, s3) /\ uvm_step s l r d t U s3 l2 d2 t2 U (vpte (pmem s) t) /\
       (length l < 3)%nat).
Proof.
  intros Hinv Hn Hfree Hperm Hleaf Hfill. destruct l as [|pa l].
  { left. split; [apply kalloc_nil, Hinv|done]. }
  right. destruct (kalloc_cons s pa l) as (s0 & Hk & Hk0 & Hok & Hnl & _ & Ho0 & Hkpt); [apply Hinv|].
  pose proof (page_ok_bounds _ Hok) as Hb. set (s1 := set_pmem (fill pa (pmem s0)) s0).
  assert (same_outside pa PGSIZE (pmem s) (pmem s1)) as Ho1
    by (eapply same_outside_trans; [exact Ho0|by apply Hfill]).
  assert (kmem_inv s1 l) as Hk1.
  { apply (kmem_inv_same s0); [done| |done]. eapply outside_page_same; [by apply Hfill|done|apply Hk0|done]. }
  destruct (alloc_fill s pa l r d t U Hinv s1 Hk1 Ho1) as [Hvm1 Hlk1].
  destruct (mappages_ok s1 l r d t (PGSIZE * n) PGSIZE pa perm) as (rv & s2 & l2 & d2 & t2 & j & Hmap & Hm & Hres);
    [done|klia|klia|klia| |klia|klia|done|].
  { intros i Hi. assert (i = n) as -> by kdlia. rewrite Hlk1. by apply vpte_none. }
  replace (PGSIZE * n / PGSIZE) with n in * by kdlia.
  replace ((PGSIZE * n + PGSIZE - 1) / PGSIZE) with n in * by kdlia.
  exists pa, s0, s2. split_and!; [done|klia|by left|done|].
  destruct Hres as [(-> & Hj & Hl)|(-> & Hj & Hj' & -> & Hl)]; [left|right].
  - assert (j = 1) as -> by lia.
    assert (pt_maps s1 l r d t s2 l2 d2 t2
      (fun i => if i =? n then leaf_pte pa perm else lookup_pte (pmem s1) t i)) as Hm'.
    { eapply pt_maps_ext; [|exact Hm]. intros i. cbn beta. zcase; try lia; [|done..]. f_equal. lia. }
    exists l2, d2, t2. split_and!; [done|by eapply alloc_map_success| |cbn; lia].
    intros x Hx. by apply (alloc_maps _ _ _ _ _ _ _ Hinv _ _ _ _ _ _ Hk1 Ho1 Hkpt Hm').
  - assert (j = 0) as -> by lia.
    destruct (alloc_map_failure s pa l r d t U Hinv s1 s2 [] d2 t2 Hk1 Ho1 Hkpt) as (s3 & Hkf & Hst).
    { eapply pt_maps_ext; [|exact Hm]. intros i. cbn beta. zcase; lia || done. }
    exists s3, [pa], d2, t2. split_and!; [done|done|done|cbn; lia].
Qed.

(** ** [uvmdealloc] and [uvmalloc] *)

(** The number of pages of [sz] bytes; [usize U sz]: [U] has exactly those pages. *)
Definition npages (sz : Z) : Z := PGROUNDUP sz / PGSIZE.
Definition usize (U : gmap Z Z) (sz : Z) : Prop :=
  forall i, is_Some (U !! i) <-> 0 <= i < npages sz.

Lemma npages_spec sz :
  0 <= sz <= MAXVA ->
  PGROUNDUP sz = PGSIZE * npages sz /\ 0 <= npages sz <= 2 ^ 26 /\ sz <= PGSIZE * npages sz < sz + PGSIZE.
Proof.
  intros H. unfold npages. change MAXVA with (2 ^ 38) in H. rewrite PGROUNDUP_spec by klia. kdlia.
Qed.

Lemma npages_mono a b : 0 <= a -> a <= b -> b <= MAXVA -> npages a <= npages b.
Proof.
  intros. destruct (npages_spec a) as (_ & _ & ?), (npages_spec b) as (_ & _ & ?); [lia..|]. klia.
Qed.

Lemma npages_pages n : 0 <= n <= 2 ^ 26 -> npages (PGSIZE * n) = n.
Proof. intros. destruct (npages_spec (PGSIZE * n)) as (_ & _ & ?); [klia|]. klia. Qed.

Lemma uvmdealloc_ok s l r d t U oldsz newsz :
  uvm_inv s l r d t U -> 0 <= newsz -> newsz <= oldsz -> oldsz <= MAXVA ->
  (forall i, npages newsz <= i < npages oldsz -> is_Some (U !! i)) ->
  exists s' l', uvmdealloc r oldsz newsz s = Ok (newsz, s') /\
    uvm_step s l r d t U s' l' d t (udrop (npages newsz) (npages oldsz) U)
      (fun i => if (npages newsz <=? i) && (i <? npages oldsz) then None else vpte (pmem s) t i).
Proof.
  intros Hinv Hn Hle Hmax Hmap. unfold uvmdealloc.
  destruct (npages_spec oldsz) as (Ho & Hob & _); [lia|].
  destruct (npages_spec newsz) as (Hw & Hwb & _); [lia|].
  pose proof (npages_mono newsz oldsz Hn Hle Hmax) as Hnn.
  assert (npages oldsz = npages newsz -> uvm_step s l r d t U s l d t (udrop (npages newsz) (npages oldsz) U)
      (fun i => if (npages newsz <=? i) && (i <? npages oldsz) then None else vpte (pmem s) t i)) as Hsame.
  { intros Heq. rewrite udrop_nil by lia. eapply uvm_step_ext; [|by apply uvm_step_refl].
    intros i. zcase; lia || done. }
  destruct (Z.leb_spec oldsz newsz).
  { assert (oldsz = newsz) as -> by lia. by exists s, l; auto. }
  rewrite Ho, Hw. destruct (Z.ltb_spec (PGSIZE * npages newsz) (PGSIZE * npages oldsz)).
  2:{ exists s, l. split; [done|]. apply Hsame. klia. }
  replace ((PGSIZE * npages oldsz - PGSIZE * npages newsz) / PGSIZE) with (npages oldsz - npages newsz) by kdlia.
  rewrite i32_small, u64_small by klia.
  destruct (uvmunmap_ok s l r d t U (npages newsz) (npages oldsz - npages newsz)) as (s' & l' & Hrun & Hs);
    [done|lia|lia|lia| |].
  { intros i Hi. apply Hmap. lia. }
  replace (npages newsz + (npages oldsz - npages newsz)) with (npages oldsz) in Hs by lia.
  exists s', l'. split; [by mstep Hrun|done].
Qed.

Lemma PTE_WXRU_facts : 0 <= PTE_WXRU < 1024 /\ Z.lor PTE_WXRU PTE_V <> PTE_V.
Proof. done. Qed.

(** What a successful [uvmalloc] or [uvmcopy] adds: virtual page [i] from [n] up to
    [e] gets a frame [pa] with the permissions [P i] and the bytes [C i]. *)
Record uvm_grown (P : Z -> Z) (C : Z -> Z -> Z)
    (s' : phys) (t' U U' : gmap Z Z) (n e : Z) : Prop := {
  ug_old i : ~ (n <= i < e) -> U' !! i = U !! i;
  ug_new i : n <= i < e -> exists pa, U' !! i = Some pa /\
    vpte (pmem s') t' i = Some (leaf_pte pa (P i)) /\
    forall j, 0 <= j < PGSIZE -> load8 (pmem s') (pa + j) = C i j;
}.

(** Zeroed pages with all permissions. *)
Definition uvm_zeroed := uvm_grown (fun _ => PTE_WXRU) (fun _ _ => 0).

(** Mapping page [n] and then growing from [n + 1] grows from [n]; and dropping
    the pages up to [n + 1] undoes it. *)
Lemma grown_cons P C s l r d t U s2 l2 d2 t2 s' l' d' t' U' n pa e :
  uvm_step s l r d t U s2 l2 d2 t2 (<[n:=pa]> U)
    (fun i => if i =? n then Some (leaf_pte pa (P n)) else vpte (pmem s) t i) ->
  (forall j, 0 <= j < PGSIZE -> load8 (pmem s2) (pa + j) = C n j) -> U !! n = None -> n < e ->
  uvm_grown P C s' t' (<[n:=pa]> U) U' (n + 1) e ->
  uvm_step s2 l2 r d2 t2 (<[n:=pa]> U) s' l' d' t' U'
    (fun i => if (n + 1 <=? i) && (i <? e) then vpte (pmem s') t' i else vpte (pmem s2) t2 i) ->
  uvm_grown P C s' t' U U' n e /\
  uvm_step s l r d t U s' l' d' t' U'
    (fun i => if (n <=? i) && (i <? e) then vpte (pmem s') t' i else vpte (pmem s) t i).
Proof.
  intros Hst Hz HUn He [Hold Hnew] Hst'.
  assert (U' !! n = Some pa) as HU'n by (rewrite Hold, lookup_insert_eq by lia; done).
  pose proof (us_vpte _ _ _ _ _ _ _ _ _ _ _ _ Hst) as Hv.
  pose proof (us_vpte _ _ _ _ _ _ _ _ _ _ _ _ Hst') as Hv'.
  assert (vpte (pmem s') t' n = Some (leaf_pte pa (P n))) as Hvn
    by (rewrite Hv', Hv; zcase; lia || done).
  split; [split|].
  - intros i Hi. by rewrite Hold, lookup_insert_ne by lia.
  - intros i Hi. destruct (Z.eq_dec i n) as [->|]; [|apply Hnew; lia]. exists pa. split_and!; [done| |].
    + exact Hvn.
    + intros j Hj. rewrite <- Hz by done. unfold load8. f_equal.
      apply (us_keep _ _ _ _ _ _ _ _ _ _ _ _ Hst' n pa); [by rewrite lookup_insert_eq|done|unfold in_page; klia].
  - eapply uvm_step_ext; [|eapply uvm_step_trans; [exact Hst|exact Hst'|]].
    + intros i. cbn beta. rewrite Hv. zcase; try lia; by subst.
    + intros i pb Hb _. rewrite lookup_insert_ne; [done|congruence].
Qed.

Lemma drop_cons s l r d t U s2 l2 d2 t2 s' l' d' t' n0 n pa v :
  uvm_step s l r d t U s2 l2 d2 t2 (<[n:=pa]> U)
    (fun i => if i =? n then Some v else vpte (pmem s) t i) ->
  U !! n = None -> vpte (pmem s) t n = None -> n0 <= n ->
  uvm_step s2 l2 r d2 t2 (<[n:=pa]> U) s' l' d' t' (udrop n0 (n + 1) (<[n:=pa]> U))
    (fun i => if (n0 <=? i) && (i <? n + 1) then None else vpte (pmem s2) t2 i) ->
  udrop n0 (n + 1) (<[n:=pa]> U) = udrop n0 n U /\
  uvm_step s l r d t U s' l' d' t' (udrop n0 n U)
    (fun i => if (n0 <=? i) && (i <? n) then None else vpte (pmem s) t i).
Proof.
  intros Hst HUn Hvn Hn Hst'.
  assert (udrop n0 (n + 1) (<[n:=pa]> U) = udrop n0 n U) as Heq.
  { apply map_eq. intros i. rewrite !lookup_udrop, lookup_insert.
    destruct (decide (n = i)) as [<-|]; zcase; lia || done. }
  split; [done|]. rewrite Heq in Hst'.
  eapply uvm_step_ext; [|eapply uvm_step_trans; [exact Hst|exact Hst'|]].
  - intros i. cbn beta. rewrite (us_vpte _ _ _ _ _ _ _ _ _ _ _ _ Hst). zcase; try lia; by subst.
  - intros i pb Hb _. rewrite lookup_insert_ne; [done|congruence].
Qed.

Lemma uvmalloc_loop_ok k : forall s l r d t U n n0 newsz fuel,
  uvm_inv s l r d t U -> 0 <= n0 <= n -> n + Z.of_nat k <= 2 ^ 26 ->
  npages newsz = n + Z.of_nat k -> 0 <= newsz <= MAXVA ->
  (forall i, n0 <= i < n -> is_Some (U !! i)) ->
  (forall i, n <= i < n + Z.of_nat k -> vpte (pmem s) t i = None) -> (k < fuel)%nat ->
  exists rv s' l' d' t' U', uvmalloc_loop r (PGSIZE * n) (PGSIZE * n0) newsz fuel s = Ok (rv, s') /\
    (rv = newsz /\ uvm_zeroed s' t' U U' n (n + Z.of_nat k) /\
      uvm_step s l r d t U s' l' d' t' U' (fun i => if (n <=? i) && (i <? n + Z.of_nat k)
        then vpte (pmem s') t' i else vpte (pmem s) t i) /\ (length l <= length l' + 3 * k)%nat \/
     rv = 0 /\ U' = udrop n0 n U /\ (length l < 3 * k)%nat /\
      uvm_step s l r d t U s' l' d' t' U'
        (fun i => if (n0 <=? i) && (i <? n) then None else vpte (pmem s) t i)).
Proof.
  induction k as [|k IH]; intros s l r d t U n n0 newsz fuel Hinv Hn0 Hn Hnp Hsz Hmap Hfree Hf;
    (destruct fuel as [|fuel]; [lia|]); cbn [uvmalloc_loop];
    (destruct (npages_spec newsz) as (_ & _ & Hsz'); [done|]).
  { rewrite (proj2 (Z.ltb_ge _ _)) by klia. exists newsz, s, l, d, t, U. split; [done|left].
    split_and!; [done|split; [done|lia]| |lia]. eapply uvm_step_ext; [|by apply uvm_step_refl].
    intros i. by zcase; try lia. }
  rewrite (proj2 (Z.ltb_lt _ _)) by klia.
  destruct (alloc_map s l r d t U n PTE_WXRU (fun pa m => memset m pa 0 PGSIZE))
    as [[Hk ->]|(pa & s0 & s2 & Hk & Hpa & _ & _ &
      [(l2 & d2 & t2 & Hmp & Hst & Hz & Hl)|(s3 & l2 & d2 & t2 & Hmp & Hkf & Hst & Hl)])];
    [done|lia|apply Hfree; lia|apply PTE_WXRU_facts|apply PTE_WXRU_facts|intros; apply memset_outside; klia|..].
  - mstep Hk. cbn [Z.eqb].
    destruct (uvmdealloc_ok s [] r d t U (PGSIZE * n) (PGSIZE * n0)) as (s' & l' & Hd & Hs); [done|klia|klia|klia| |].
    { rewrite !npages_pages by lia. done. }
    rewrite !npages_pages in Hs by lia. exists 0, s', l', d, t, (udrop n0 n U).
    split; [by mstep Hd|right]. split_and!; [done|done|cbn; lia|done].
  - mstep Hk. rewrite (proj2 (Z.eqb_neq _ _) Hpa). mcomp. mstep Hmp. cbn [Z.eqb negb].
    rewrite u64_small by klia. replace (PGSIZE * n + PGSIZE) with (PGSIZE * (n + 1)) by lia.
    assert (U !! n = None) as HUn by (eapply unmapped_key; [exact Hinv|]; apply Hfree; lia).
    destruct (IH s2 l2 r d2 t2 (<[n:=pa]> U) (n + 1) n0 newsz fuel)
      as (rv & s' & l' & d' & t' & U' & Hrun & Hres); [apply Hst|lia|lia|lia|done| | |lia|].
    { intros i Hi. rewrite lookup_insert. destruct (decide (n = i)); [done|]. apply Hmap. lia. }
    { intros i Hi. rewrite (us_vpte _ _ _ _ _ _ _ _ _ _ _ _ Hst), (proj2 (Z.eqb_neq _ _)) by lia.
      apply Hfree. lia. }
    exists rv, s', l', d', t', U'. split; [exact Hrun|].
    replace (n + 1 + Z.of_nat k) with (n + Z.of_nat (S k)) in Hres by lia.
    destruct Hres as [(-> & Hg & Hst' & Hl')|(-> & -> & Hl' & Hst')]; [left|right]; split; try done.
    + apply and_assoc. split; [|lia]. eapply grown_cons; [exact Hst| |done|lia|done|exact Hst'].
      intros j Hj. unfold load8. by rewrite Hz, memset_in by (unfold in_page; klia).
    + destruct (drop_cons _ _ _ _ _ _ _ _ _ _ s' l' d' t' n0 n _ _ Hst) as [Heq Hs];
        [done|apply Hfree; lia|lia|exact Hst'|]. rewrite Heq. split_and!; [done|lia|done].
  - mstep Hk. rewrite (proj2 (Z.eqb_neq _ _) Hpa). mcomp. mstep Hmp. cbn [Z.eqb negb]. mstep Hkf.
    destruct (uvmdealloc_ok s3 l2 r d2 t2 U (PGSIZE * n) (PGSIZE * n0)) as (s' & l' & Hd & Hs);
      [apply Hst|klia|klia|klia| |].
    { rewrite !npages_pages by lia. done. }
    rewrite !npages_pages in Hs by lia. exists 0, s', l', d2, t2, (udrop n0 n U).
    split; [by mstep Hd|right]. split_and!; [done|done|lia|].
    eapply uvm_step_ext; [|eapply uvm_step_trans; [exact Hst|exact Hs|done]].
    intros i. cbn beta. by rewrite (us_vpte _ _ _ _ _ _ _ _ _ _ _ _ Hst).
Qed.

(** [uvmalloc]: with the range unmapped it either maps zeroed pages over all of it
    and returns [newsz], or returns 0 with every mapping as it was; it succeeds
    when there are three free pages for every page it maps. *)
Lemma uvmalloc_ok s l r d t U oldsz newsz :
  uvm_inv s l r d t U -> 0 <= oldsz <= newsz -> newsz <= MAXVA ->
  (forall i, npages oldsz <= i < npages newsz -> vpte (pmem s) t i = None) ->
  exists rv s' l' d' t' U', uvmalloc r oldsz newsz s = Ok (rv, s') /\
    (rv = newsz /\ uvm_zeroed s' t' U U' (npages oldsz) (npages newsz) /\
      uvm_step s l r d t U s' l' d' t' U' (fun i => if (npages oldsz <=? i) && (i <? npages newsz)
        then vpte (pmem s') t' i else vpte (pmem s) t i) /\
      Z.of_nat (length l) <= Z.of_nat (length l') + 3 * (npages newsz - npages oldsz) \/
     rv = 0 /\ U' = U /\ Z.of_nat (length l) < 3 * (npages newsz - npages oldsz) /\
      uvm_step s l r d t U s' l' d' t' U (vpte (pmem s) t)).
Proof.
  intros Hinv Ho Hmax Hfree. unfold uvmalloc. rewrite (proj2 (Z.ltb_ge _ _)) by lia.
  destruct (npages_spec oldsz) as (-> & Hob & Hos); [lia|].
  destruct (npages_spec newsz) as (_ & Hnb & Hns); [lia|].
  pose proof (npages_mono oldsz newsz) as Hmono.
  set (k := Z.to_nat (npages newsz - npages oldsz)).
  assert (npages newsz = npages oldsz + Z.of_nat k) as Hk by (unfold k; lia). rewrite Hk in *.
  destruct (uvmalloc_loop_ok k s l r d t U (npages oldsz) (npages oldsz) newsz
    (Z.to_nat ((newsz - PGSIZE * npages oldsz) / PGSIZE + 2)))
    as (rv & s' & l' & d' & t' & U' & Hrun & Hres); [done|lia|lia|done|lia|lia|done|kdlia|].
  exists rv, s', l', d', t', U'. split; [done|].
  destruct Hres as [(-> & Hg & Hst & Hl)|(-> & -> & Hl & Hst)]; [left; split_and!; lia || done|right].
  rewrite udrop_nil in * by lia. split_and!; [done|done|lia|].
  eapply uvm_step_ext; [|exact Hst]. intros i. cbn beta. zcase; lia || done.
Qed.

(** ** [uvmcopy] *)

Lemma flags_valid v : has v PTE_V = true -> Z.lor (PTE_FLAGS v) PTE_V = PTE_FLAGS v.
Proof.
  rewrite has_V. intros Hv. apply Z.bits_inj'. intros i Hi. rewrite Z.lor_spec.
  destruct (Z.eq_dec i 0) as [->|].
  - unfold PTE_FLAGS. by rewrite Z.land_spec, !Z.bit0_odd, Hv.
  - change PTE_V with 1. rewrite (testbit_high 1 1) by lia. by rewrite orb_false_r.
Qed.

Lemma flags_bound v : 0 <= PTE_FLAGS v < 1024.
Proof. rewrite PTE_FLAGS_spec. apply Z.mod_pos_bound. lia. Qed.

Section Uvmcopy.
(** The address space that is copied, in the state [s0]. *)
Variables (s0 : phys) (l0 : list Z) (old : Z) (d0 t0 U0 : gmap Z Z).
Hypothesis Hold : uvm_inv s0 l0 old d0 t0 U0.

Definition old_pages : list Z := pt_pages old d0 t0 ++ upages U0.
Definition old_flags (i : Z) : Z := PTE_FLAGS (lookup_pte (pmem s0) t0 i).
Definition old_byte (i j : Z) : Z := load8 (pmem s0) (PTE2PA (lookup_pte (pmem s0) t0 i) + j).

(** The frames of the other address space and the free pages are not its pages,
    and its pages are as in [s0]. *)
Definition apart (s : phys) (all : list Z) : Prop :=
  (forall p, p ∈ old_pages -> p ∉ all) /\ same_pages old_pages (pmem s0) (pmem s).

Lemma old_pages_ok : Forall page_ok old_pages.
Proof.
  apply Forall_app. split; [|apply Hold].
  by apply (pr_ok (pmem s0)), (vi_rep s0 l0), Hold.
Qed.

Lemma uvm_all_ok s l r d t U : uvm_inv s l r d t U -> Forall page_ok (pt_pages r d t ++ upages U ++ l).
Proof.
  intros [Hvm _ Hu _]. apply vm_pages_ok in Hvm. apply Forall_app in Hvm as [? ?].
  by rewrite !Forall_app.
Qed.

Lemma apart_step s l r d t U s' l' d' t' U' G :
  uvm_inv s l r d t U -> uvm_step s l r d t U s' l' d' t' U' G ->
  apart s (pt_pages r d t ++ upages U ++ l) -> apart s' (pt_pages r d' t' ++ upages U' ++ l').
Proof.
  intros Hinv Hst [Hd Hs]. pose proof (us_perm _ _ _ _ _ _ _ _ _ _ _ _ Hst) as Hp. split.
  - intros p Hp0. rewrite Hp. by apply Hd.
  - intros p x Hp0 Hx. rewrite <- (Hs p x Hp0 Hx).
    apply (same_except_same_pages (pt_pages r d t ++ upages U ++ l) old_pages) with p; try done.
    + apply Hst.
    + by eapply uvm_all_ok.
    + apply old_pages_ok.
Qed.

Lemma old_walk s all n pa :
  apart s all -> U0 !! n = Some pa ->
  exists pte, walk old (PGSIZE * n) false s = Ok (pte, s) /\ pte <> 0 /\
    load64 (pmem s) pte = lookup_pte (pmem s0) t0 n.
Proof.
  intros [_ Hs] Hpa. destruct (ui_map _ _ _ _ _ _ Hold n pa Hpa) as (Hn & v & Hv & _).
  assert (same_pages (pt_pages old d0 t0) (pmem s0) (pmem s)) as Hs'.
  { intros p x Hp. apply Hs. unfold old_pages. rewrite elem_of_app. by left. }
  assert (pt_rep (pmem s) old d0 t0) as Hrep.
  { eapply pt_rep_same; [done|]. by apply (vi_rep s0 l0), Hold. }
  exists (pte_slot t0 n). pose proof (vpte_slot _ _ _ _ Hv) as Hslot. split_and!.
  - rewrite (walk_noalloc s old d0 t0) by (done || klia). by replace (PGSIZE * n / PGSIZE) with n by kdlia.
  - by eapply pte_slot_nonzero.
  - rewrite (load_slot s old d0) by done. by eapply lookup_pte_same.
Qed.

Lemma old_content s all n pa p (m : mem) j :
  apart s all -> U0 !! n = Some pa -> p ∈ all -> page_ok p -> 0 <= j < PGSIZE ->
  same_outside p PGSIZE (pmem s) m -> load8 m (pa + j) = old_byte n j.
Proof.
  intros [Hd Hs] Hpa Hp Hpok Hj Ho. destruct (ui_map _ _ _ _ _ _ Hold n pa Hpa) as (Hn & v & Hv & HPA & _).
  apply vpte_some in Hv as [Hv _]. unfold old_byte. rewrite Hv, HPA. unfold load8. f_equal.
  assert (pa ∈ upages U0) as Hin by (apply elem_of_map_values; eauto).
  assert (pa ∈ old_pages) as Hin' by (unfold old_pages; rewrite elem_of_app; by right).
  pose proof old_pages_ok as Hok. rewrite Forall_forall in Hok.
  assert (in_page pa (pa + j)) as Hx by (unfold in_page; klia).
  rewrite Ho; [by apply (Hs pa)|].
  apply (page_ok_disjoint pa p); [auto|done| |done]. intros ->. by apply (Hd p).
Qed.

(** The byte that [memmove] put into the new frame [p]. *)
Lemma copied_byte s l r d t U n pa p s1 s2 j :
  uvm_inv s l r d t U -> apart s (pt_pages r d t ++ upages U ++ l) -> U0 !! n = Some pa ->
  p ∈ l -> same_outside p PGSIZE (pmem s) (pmem s1) ->
  (forall x, in_page p x -> pmem s2 x = memmove (pmem s1) p pa PGSIZE x) ->
  0 <= j < PGSIZE -> load8 (pmem s2) (p + j) = old_byte n j.
Proof.
  intros Hinv Hap Hpa Hp Ho Hz Hj.
  assert (load8 (pmem s2) (p + j) = load8 (memmove (pmem s1) p pa PGSIZE) (p + j)) as ->
    by (unfold load8; by rewrite Hz by (unfold in_page; klia)).
  assert (p ∈ pt_pages r d t ++ upages U ++ l) as Hin by (rewrite !elem_of_app; by right; right).
  pose proof (uvm_all_ok _ _ _ _ _ _ Hinv) as Hok. rewrite Forall_forall in Hok.
  rewrite memmove_load by done. eapply old_content; eauto.
Qed.

Lemma uvmcopy_err_ok s l r d t U n :
  uvm_inv s l r d t U -> 0 <= n <= 2 ^ 26 -> (forall i, 0 <= i < n -> is_Some (U !! i)) ->
  exists s' l', uvmcopy_err r (PGSIZE * n) s = Ok (-1, s') /\
    uvm_step s l r d t U s' l' d t (udrop 0 n U)
      (fun i => if (0 <=? i) && (i <? n) then None else vpte (pmem s) t i).
Proof.
  intros Hinv Hn Hmap. unfold uvmcopy_err. replace (PGSIZE * n / PGSIZE) with n by kdlia.
  destruct (uvmunmap_ok s l r d t U 0 n) as (s' & l' & Hrun & Hs); [done|lia|lia|lia|done|].
  exists s', l'. split; [|exact Hs]. change 0 with (PGSIZE * 0) at 1. by mstep Hrun.
Qed.

(** The body of the loop up to [mappages]. *)
Lemma uvmcopy_body s all new n pa sz fuel :
  apart s all -> U0 !! n = Some pa -> PGSIZE * n < sz ->
  uvmcopy_loop old new (PGSIZE * n) sz (S fuel) s =
  (let! p := kalloc in
   if p =? 0 then uvmcopy_err new (PGSIZE * n)
   else
     pmemmove p pa PGSIZE ;;
     let! r := mappages new (PGSIZE * n) PGSIZE p (old_flags n) in
     if negb (r =? 0) then kfree p ;; uvmcopy_err new (PGSIZE * n)
     else uvmcopy_loop old new (u64 (PGSIZE * n + PGSIZE)) sz fuel) s.
Proof.
  intros Hap Hpa Hn. destruct (old_walk s all n pa Hap Hpa) as (pte & Hw & Hnz & Hld).
  destruct (ui_map _ _ _ _ _ _ Hold n pa Hpa) as (_ & v & Hv & HPA & _). apply vpte_some in Hv as [Hv HV].
  cbn [uvmcopy_loop]. rewrite (proj2 (Z.ltb_lt _ _) Hn). mstep Hw.
  rewrite (proj2 (Z.eqb_neq _ _) Hnz). mcomp. mcomp. unfold old_flags. rewrite Hld, Hv, HV, HPA. mcomp. done.
Qed.

Lemma uvmcopy_loop_ok k : forall s l new d t U n sz fuel,
  uvm_inv s l new d t U -> 0 <= n -> apart s (pt_pages new d t ++ upages U ++ l) ->
  npages sz = n + Z.of_nat k -> 0 <= sz <= MAXVA ->
  (forall i, n <= i < n + Z.of_nat k -> is_Some (U0 !! i)) ->
  (forall i, 0 <= i < n -> is_Some (U !! i)) ->
  (forall i, n <= i < n + Z.of_nat k -> vpte (pmem s) t i = None) -> (k < fuel)%nat ->
  exists rv s' l' d' t' U', uvmcopy_loop old new (PGSIZE * n) sz fuel s = Ok (rv, s') /\
    apart s' (pt_pages new d' t' ++ upages U' ++ l') /\
    (rv = 0 /\ uvm_grown old_flags old_byte s' t' U U' n (n + Z.of_nat k) /\
      uvm_step s l new d t U s' l' d' t' U' (fun i => if (n <=? i) && (i <? n + Z.of_nat k)
        then vpte (pmem s') t' i else vpte (pmem s) t i) \/
     rv = -1 /\ U' = udrop 0 n U /\ (length l < 3 * k)%nat /\
      uvm_step s l new d t U s' l' d' t' U'
        (fun i => if (0 <=? i) && (i <? n) then None else vpte (pmem s) t i)).
Proof.
  induction k as [|k IH]; intros s l new d t U n sz fuel Hinv Hn0 Hap Hnp Hsz Hmap0 Hmap Hfree Hf;
    (destruct fuel as [|fuel]; [lia|]); (destruct (npages_spec sz) as (_ & Hnb & Hsz'); [done|]).
  { cbn [uvmcopy_loop]. rewrite (proj2 (Z.ltb_ge _ _)) by klia. exists 0, s, l, d, t, U.
    split_and!; [done|done|left]. split_and!; [done|split; [done|lia]|].
    eapply uvm_step_ext; [|by apply uvm_step_refl]. intros i. by zcase; try lia. }
  destruct (Hmap0 n) as [pa0 Hpa0]; [lia|].
  rewrite (uvmcopy_body s _ new n pa0 sz fuel Hap Hpa0) by klia.
  destruct (ui_map _ _ _ _ _ _ Hold n pa0 Hpa0) as (_ & v & Hv & HPA & Hfl). apply vpte_some in Hv as [Hv HV].
  destruct (alloc_map s l new d t U n (old_flags n) (fun pa m => memmove m pa pa0 PGSIZE))
    as [[Hk ->]|(pa & s1 & s2 & Hk & Hpa & Hpl & Ho &
      [(l2 & d2 & t2 & Hmp & Hst & Hz & Hl)|(s3 & l2 & d2 & t2 & Hmp & Hkf & Hst & Hl)])];
    [done|lia|apply Hfree; lia|apply flags_bound| |intros; apply memmove_outside; klia|..].
  { unfold old_flags. by rewrite Hv, flags_valid. }
  - mstep Hk. cbn [Z.eqb]. destruct (uvmcopy_err_ok s [] new d t U n) as (s' & l' & Hd & Hs); [done|lia|done|].
    exists (-1), s', l', d, t, (udrop 0 n U). split_and!; [done|by eapply apart_step|right].
    split_and!; [done|done|cbn; lia|done].
  - mstep Hk. rewrite (proj2 (Z.eqb_neq _ _) Hpa). mcomp. mstep Hmp. cbn [Z.eqb negb].
    rewrite u64_small by klia. replace (PGSIZE * n + PGSIZE) with (PGSIZE * (n + 1)) by lia.
    assert (U !! n = None) as HUn by (eapply unmapped_key; [exact Hinv|]; apply Hfree; lia).
    destruct (IH s2 l2 new d2 t2 (<[n:=pa]> U) (n + 1) sz fuel)
      as (rv & s' & l' & d' & t' & U' & Hrun & Hap' & Hres);
      [apply Hst|lia|by eapply apart_step|lia|done| | | |lia|].
    { intros i Hi. apply Hmap0. lia. }
    { intros i Hi. rewrite lookup_insert. destruct (decide (n = i)); [done|]. apply Hmap. lia. }
    { intros i Hi. rewrite (us_vpte _ _ _ _ _ _ _ _ _ _ _ _ Hst), (proj2 (Z.eqb_neq _ _)) by lia.
      apply Hfree. lia. }
    exists rv, s', l', d', t', U'. split_and!; [exact Hrun|done|].
    replace (n + 1 + Z.of_nat k) with (n + Z.of_nat (S k)) in Hres by lia.
    destruct Hres as [(-> & Hg & Hst')|(-> & -> & Hl' & Hst')]; [left|right]; split; try done.
    + eapply grown_cons; [exact Hst| |done|lia|done|exact Hst'].
      intros j Hj. by eapply (copied_byte s l).
    + destruct (drop_cons _ _ _ _ _ _ _ _ _ _ s' l' d' t' 0 n _ _ Hst) as [Heq Hs];
        [done|apply Hfree; lia|lia|exact Hst'|]. rewrite Heq. split_and!; [done|lia|done].
  - mstep Hk. rewrite (proj2 (Z.eqb_neq _ _) Hpa). mcomp. mstep Hmp. cbn [Z.eqb negb]. mstep Hkf.
    destruct (uvmcopy_err_ok s3 l2 new d2 t2 U n) as (s' & l' & Hd & Hs); [apply Hst|lia|done|].
    exists (-1), s', l', d2, t2, (udrop 0 n U).
    split_and!; [done|eapply apart_step; [|exact Hs|]; [apply Hst|by eapply apart_step]|right].
    split_and!; [done|done|lia|]. eapply uvm_step_ext; [|eapply uvm_step_trans; [exact Hst|exact Hs|done]].
    intros i. cbn beta. by rewrite (us_vpte _ _ _ _ _ _ _ _ _ _ _ _ Hst).
Qed.

Lemma uvmcopy_ok s l new d t U sz :
  uvm_inv s l new d t U -> apart s (pt_pages new d t ++ upages U ++ l) ->
  0 <= sz <= MAXVA -> (forall i, 0 <= i < npages sz -> is_Some (U0 !! i)) ->
  (forall i, 0 <= i < npages sz -> vpte (pmem s) t i = None) ->
  exists rv s' l' d' t' U', uvmcopy old new sz s = Ok (rv, s') /\
    same_pages old_pages (pmem s0) (pmem s') /\
    (rv = 0 /\ uvm_grown old_flags old_byte s' t' U U' 0 (npages sz) /\
      uvm_step s l new d t U s' l' d' t' U' (fun i => if (0 <=? i) && (i <? npages sz)
        then vpte (pmem s') t' i else vpte (pmem s) t i) \/
     rv = -1 /\ U' = U /\ Z.of_nat (length l) < 3 * npages sz /\
      uvm_step s l new d t U s' l' d' t' U (vpte (pmem s) t)).
Proof.
  intros Hinv Hap Hsz Hmap0 Hfree. destruct (npages_spec sz) as (_ & Hnb & Hns); [done|].
  assert (npages sz = 0 + Z.of_nat (Z.to_nat (npages sz))) as Hk by lia. rewrite Hk in Hmap0, Hfree.
  destruct (uvmcopy_loop_ok (Z.to_nat (npages sz)) s l new d t U 0 sz (Z.to_nat (sz / PGSIZE + 2)))
    as (rv & s' & l' & d' & t' & U' & Hrun & Hap' & Hres); [done|done|done|done|done|done|lia|done|kdlia|].
  exists rv, s', l', d', t', U'. split_and!; [done|apply Hap'|].
  rewrite <- Hk in Hres. destruct Hres as [Hres|(-> & -> & Hl & Hst)]; [by left|right].
  rewrite udrop_nil in * by lia. split_and!; [done|done|lia|].
  eapply uvm_step_ext; [|exact Hst]. intros i. cbn beta. zcase; lia || done.
Qed.
End Uvmcopy.

(** ** A fresh page table *)

Lemma uvmcreate_ok s p l :
  kmem_inv s (p :: l) ->
  exists s', uvmcreate s = Ok (p, s') /\ uvm_inv s' l p ∅ ∅ ∅ /\
    same_outside p PGSIZE (pmem s) (pmem s') /\ kernel_pagetable s' = kernel_pagetable s.
Proof.
  intros Hk. destruct (kalloc_cons s p l Hk) as (s0 & Hrun & Hk0 & Hok & Hnl & _ & Ho & Hkpt).
  pose proof (page_ok_bounds _ Hok) as Hb. unfold uvmcreate. mstep Hrun.
  rewrite (proj2 (Z.eqb_neq p 0)) by klia. mcomp. eexists. split; [reflexivity|].
  assert (same_outside p PGSIZE (pmem s0) (memset (pmem s0) p 0 PGSIZE)) as Hm by (apply memset_outside; klia).
  split_and!; [|by eapply same_outside_trans|done].
  split; [split|done|done|]; cbn [pmem set_pmem].
  - apply (kmem_inv_same s0); [done| |done]. eapply outside_page_same; [exact Hm|done|apply Hk0|done].
  - split; try done.
    + intros i Hi. rewrite lookup_empty. by rewrite zero_page_load64 by (intros; by rewrite ?memset_in).
    + unfold pt_pages. rewrite map_to_list_empty. by apply Forall_singleton.
    + unfold pt_pages. rewrite map_to_list_empty. apply NoDup_singleton.
  - intros q. unfold pt_pages. rewrite map_to_list_empty. by intros ->%list_elem_of_singleton.
  - unfold pt_pages, upages. rewrite map_to_list_empty. cbn. constructor; [done|apply Hk0].
Qed.

Lemma vpte_empty m n : vpte m ∅ n = None.
Proof. done. Qed.

(** A page of the free list that someone else takes and writes. *)
Lemma uvm_inv_other s s' p l r d t U :
  uvm_inv s (p :: l) r d t U -> kmem_inv s' l -> same_outside p PGSIZE (pmem s) (pmem s') ->
  uvm_inv s' l r d t U /\ (forall n, vpte (pmem s') t n = vpte (pmem s) t n).
Proof.
  intros Hinv Hk Ho. destruct (alloc_fill s p l r d t U Hinv s' Hk Ho) as [Hvm Hlk].
  assert (forall n, vpte (pmem s') t n = vpte (pmem s) t n) as Hv by (intros n; by apply vpte_ext).
  split; [split|done].
  - done.
  - intros n pa Hpa. rewrite Hv. by apply (ui_map _ _ _ _ _ _ Hinv).
  - apply (ui_ok _ _ _ _ _ _ Hinv).
  - pose proof (ui_nodup _ _ _ _ _ _ Hinv) as Hnd.
    rewrite <- (Permutation_middle (upages U) l p), <- (Permutation_middle _ _ p) in Hnd.
    by apply NoDup_cons in Hnd as [_ Hnd].
Qed.

(** ** The operations on a process's memory *)

(** C7. [uvmalloc] of a process that has exactly the pages of [oldsz] bytes: it
    returns [newsz] with exactly the pages of [newsz] bytes, the new ones zeroed,
    readable, writable and executable by the user in frames that were free, or it
    returns 0 with every mapping and user page as before. It returns [newsz] if
    three frames per page are free. No frame is lost and no other memory changes. *)
Theorem uvmalloc_correct (s : phys) (l : list Z) (r : Z) (d t U : gmap Z Z) (oldsz newsz : Z)
    (Hinv : uvm_inv s l r d t U) (Hsize : usize U oldsz)
    (Hsz : 0 <= oldsz <= newsz) (Hmax : newsz <= MAXVA)
    (Hfree : forall i, npages oldsz <= i < npages newsz -> vpte (pmem s) t i = None) :
  exists rv s' l' d' t' U', uvmalloc r oldsz newsz s = Ok (rv, s') /\
    (3 * (npages newsz - npages oldsz) <= Z.of_nat (length l) -> rv = newsz) /\
    (rv = newsz /\ usize U' newsz /\
      uvm_zeroed s' t' U U' (npages oldsz) (npages newsz) /\
      uvm_step s l r d t U s' l' d' t' U' (fun i => if (npages oldsz <=? i) && (i <? npages newsz)
        then vpte (pmem s') t' i else vpte (pmem s) t i) \/
     rv = 0 /\ uvm_step s l r d t U s' l' d' t' U (vpte (pmem s) t)).
Proof.
  destruct (uvmalloc_ok s l r d t U oldsz newsz Hinv Hsz Hmax Hfree)
    as (rv & s' & l' & d' & t' & U' & Hrun & [(-> & Hg & Hst & _)|(-> & -> & Hl & Hst)]).
  - exists newsz, s', l', d', t', U'. split_and!; [done|done|left]. split_and!; [done| |done|done].
    pose proof (npages_mono oldsz newsz) as Hmono. destruct (npages_spec oldsz) as (_ & Hb & _); [lia|].
    intros i. destruct (decide (npages oldsz <= i < npages newsz)) as [Hi|Hi].
    + destruct (ug_new _ _ _ _ _ _ _ _ Hg i Hi) as (pa & -> & _). split; [lia|eauto].
    + rewrite (ug_old _ _ _ _ _ _ _ _ Hg i Hi), (Hsize i). lia.
  - exists 0, s', l', d', t', U. split_and!; [done|lia|right; done].
Qed.

(** [uvmdealloc] of a process that has exactly the pages of [oldsz] bytes: it
    returns [newsz] with exactly the pages of [newsz] bytes; the frames of the
    others are free again and no other mapping or memory changes. *)
Theorem uvmdealloc_correct (s : phys) (l : list Z) (r : Z) (d t U : gmap Z Z) (oldsz newsz : Z)
    (Hinv : uvm_inv s l r d t U) (Hsize : usize U oldsz) (Hsz : 0 <= newsz <= oldsz) (Hmax : oldsz <= MAXVA) :
  exists s' l', uvmdealloc r oldsz newsz s = Ok (newsz, s') /\
    usize (udrop (npages newsz) (npages oldsz) U) newsz /\
    uvm_step s l r d t U s' l' d t (udrop (npages newsz) (npages oldsz) U)
      (fun i => if (npages newsz <=? i) && (i <? npages oldsz) then None else vpte (pmem s) t i).
Proof.
  pose proof (npages_mono newsz oldsz) as Hmono. destruct (npages_spec newsz) as (_ & Hb & _); [lia|].
  destruct (uvmdealloc_ok s l r d t U oldsz newsz) as (s' & l' & Hrun & Hst); [done|lia|lia|done| |].
  { intros i Hi. apply Hsize. lia. }
  exists s', l'. split_and!; [done| |done]. intros i. rewrite lookup_udrop.
  zcase; rewrite ?(Hsize i), ?is_Some_alt; lia || (split; [done|lia]).
Qed.

(** C8. [uvmcopy] of a process with exactly the pages of [sz] bytes into an empty
    address space: it returns 0 and the copy has exactly those pages, in frames
    of its own, each with the permissions and the bytes of the original, or it
    returns -1 with the copy empty as before, which needs fewer than three free
    frames per page. The original is unchanged. *)
Theorem uvmcopy_correct (s : phys) (l : list Z) (old new : Z) (d0 t0 U0 d t : gmap Z Z) (sz : Z)
    (Hold : uvm_inv s l old d0 t0 U0) (Hsize : usize U0 sz) (Hsz : 0 <= sz <= MAXVA)
    (Hnew : uvm_inv s l new d t ∅)
    (Hapart : forall p, p ∈ pt_pages old d0 t0 ++ upages U0 -> p ∉ pt_pages new d t)
    (Hfree : forall i, 0 <= i < npages sz -> vpte (pmem s) t i = None) :
  exists rv s' l' d' t' U', uvmcopy old new sz s = Ok (rv, s') /\
    same_pages (pt_pages old d0 t0 ++ upages U0) (pmem s) (pmem s') /\
    (rv = 0 /\ usize U' sz /\
      uvm_grown (old_flags s t0) (old_byte s t0) s' t' ∅ U' 0 (npages sz) /\
      uvm_step s l new d t ∅ s' l' d' t' U' (fun i => if (0 <=? i) && (i <? npages sz)
        then vpte (pmem s') t' i else vpte (pmem s) t i) \/
     rv = -1 /\ Z.of_nat (length l) < 3 * npages sz /\
      uvm_step s l new d t ∅ s' l' d' t' ∅ (vpte (pmem s) t)).
Proof.
  destruct (uvmcopy_ok s l old d0 t0 U0 Hold s l new d t ∅ sz Hnew)
    as (rv & s' & l' & d' & t' & U' & Hrun & Hsame & Hres); [|done| |done|].
  - split; [|done]. intros p Hp Hin. rewrite !elem_of_app in Hin. destruct Hin as [Hin|[Hin|Hin]].
    + by apply (Hapart p).
    + unfold upages in Hin. rewrite map_to_list_empty in Hin. by apply elem_of_nil in Hin.
    + pose proof (ui_nodup _ _ _ _ _ _ Hold) as Hnd. rewrite app_assoc in Hnd.
      apply NoDup_app in Hnd as (_ & Hd & _). by apply (Hd p).
  - intros i Hi. by apply Hsize.
  - exists rv, s', l', d', t', U'. split_and!; [done|done|].
    destruct Hres as [(-> & Hg & Hst)|(-> & -> & Hl & Hst)]; [left|right]; [|done].
    split_and!; [done| |done|done]. intros i. destruct (decide (0 <= i < npages sz)) as [Hi|Hi].
    + destruct (ug_new _ _ _ _ _ _ _ _ Hg i Hi) as (pa & -> & _). split; [done|eauto].
    + rewrite (ug_old _ _ _ _ _ _ _ _ Hg i Hi), lookup_empty, is_Some_alt. split; [done|lia].
Qed.
(** A page that is not mapped stops [uvmunmap]. *)
Lemma uvmunmap_unmapped s r d t n k do_free :
  pt_rep (pmem s) r d t -> 0 <= n -> 0 < k -> n + k <= 2 ^ 26 -> vpte (pmem s) t n = None ->
  exists e, uvmunmap r (PGSIZE * n) k do_free s = Panic e.
Proof.
  intros Hrep Hn Hk Hnk Hnone. unfold uvmunmap.
  replace (PGSIZE * n mod PGSIZE) with 0 by kdlia. mcomp.
  rewrite (u64_small (k * PGSIZE)), u64_small by klia.
  replace (Z.to_nat _) with (S (Z.to_nat (k + 1))) by (klia || kdlia). cbn [uvmunmap_loop].
  rewrite (proj2 (Z.ltb_lt _ _)) by klia. mstep (walk_noalloc s r d t (PGSIZE * n) Hrep). 2:klia.
  replace (PGSIZE * n / PGSIZE) with n by kdlia.
  destruct (Z.eqb_spec (pte_slot t n) 0) as [|Hnz]; [by eexists|]. mcomp. mcomp.
  rewrite (load_slot s r d t n Hrep) by (by eapply pte_slot_nonzero).
  apply vpte_none in Hnone. rewrite Hnone. by eexists.
Qed.

(** [uvmdealloc] from an [oldsz] that is larger than the process, which the
    comment above it allows, panics as soon as it spans a page the process does
    not have. *)
Theorem uvmdealloc_oversize_panics (s : phys) (r : Z) (d t : gmap Z Z) (oldsz newsz : Z)
    (Hrep : pt_rep (pmem s) r d t) (Hsz : 0 <= newsz <= oldsz) (Hmax : oldsz <= MAXVA)
    (Hpages : npages newsz < npages oldsz)
    (Hnone : vpte (pmem s) t (npages newsz) = None) :
  exists e, uvmdealloc r oldsz newsz s = Panic e.
Proof.
  destruct (npages_spec oldsz) as (Ho & Hob & _); [lia|].
  destruct (npages_spec newsz) as (Hw & Hwb & _); [lia|]. unfold uvmdealloc.
  rewrite (proj2 (Z.leb_gt oldsz newsz)) by (destruct (Z.eq_dec oldsz newsz) as [->|]; lia).
  rewrite Ho, Hw, (proj2 (Z.ltb_lt _ _)) by klia.
  replace ((PGSIZE * npages oldsz - PGSIZE * npages newsz) / PGSIZE) with (npages oldsz - npages newsz) by kdlia.
  rewrite i32_small, u64_small by klia.
  destruct (uvmunmap_unmapped s r d t (npages newsz) (npages oldsz - npages newsz) true) as [e He];
    [done|lia..|done|].
  exists e. by apply bind_panic.
Qed.
(** [mappages] over an unmapped range inside the address space: it returns 0
    with every page of the range mapped to consecutive frames from [pa] with the
    permissions [perm], or -1 with the free list exhausted and a prefix of the
    range mapped. Every other entry is unchanged, table pages come from the free
    list and no frame is lost; two free frames per page are enough to succeed. *)
Theorem mappages_correct (s : phys) (l : list Z) (r : Z) (d t : gmap Z Z) (va size pa perm : Z)
    (Hinv : vm_inv s l r d t) (Hva : 0 <= va) (Hsize : 0 < size) (Hmax : va + size <= MAXVA)
    (Hpa : 0 <= pa) (Hpa' : pa + size + PGSIZE < 2 ^ 56) (Hperm : 0 <= perm < 1024)
    (Hfree : forall i, va / PGSIZE <= i <= (va + size - 1) / PGSIZE -> vpte (pmem s) t i = None) :
  exists rv s' l' d' t' j, mappages r va size pa perm s = Ok (rv, s') /\
    pt_maps s l r d t s' l' d' t' (fun i => if (va / PGSIZE <=? i) && (i <? va / PGSIZE + j)
      then leaf_pte (pa + PGSIZE * (i - va / PGSIZE)) perm else lookup_pte (pmem s) t i) /\
    (rv = 0 /\ va / PGSIZE + j = (va + size - 1) / PGSIZE + 1 \/
     rv = -1 /\ 0 <= j /\ va / PGSIZE + j <= (va + size - 1) / PGSIZE /\ l' = [] /\
       Z.of_nat (length l) < 2 * ((va + size - 1) / PGSIZE - va / PGSIZE + 1)).
Proof.
  destruct (mappages_ok s l r d t va size pa perm) as (rv & s' & l' & d' & t' & j & Hrun & Hm & Hres); try done.
  { intros i Hi. by apply vpte_none, Hfree. }
  exists rv, s', l', d', t', j. split_and!; [done|done|]. tauto.
Qed.
End VmUser.

(** ** Example address spaces, on a machine with 64 free pages *)

Definition demo_linker : Linker := {|
  kend := PHYSTOP - 64 * PGSIZE - 100;
  etext := KERNBASE + 2 * PGSIZE;
  trampoline := KERNBASE + PGSIZE;
|}.

#[global] Instance demo_linker_ok : LinkerOk demo_linker.
Proof. split; vm_compute; repeat split; congruence. Qed.

Section Demo.
#[local] Existing Instance demo_linker.

Lemma demo_boot : exists s l, kmem_inv s l /\ length l = 64%nat.
Proof.
  destruct (kinit_ok (Phys (fun _ => 0) 0 0) eq_refl) as (s & _ & Hk).
  exists s, (reverse all_pages). split; [exact Hk|]. rewrite length_reverse. by vm_compute.
Qed.

Lemma demo_empty : exists s l r, uvm_inv s l r ∅ ∅ ∅ /\ length l = 63%nat.
Proof.
  destruct demo_boot as (s & [|p l] & Hk & Hl); [done|].
  destruct (uvmcreate_ok s p l Hk) as (s' & _ & Hinv & _). exists s', l, p. split; [done|]. cbn in Hl. lia.
Qed.

Lemma mappages_correct_witness :
  exists s l r, uvm_inv s l r ∅ ∅ ∅ /\
    exists rv s', mappages r 0x3000 10000 0x80000000 PTE_WXRU s = Ok (rv, s').
Proof.
  destruct demo_empty as (s & l & r & Hinv & Hl). exists s, l, r. split; [exact Hinv|].
  destruct (mappages_correct s l r ∅ ∅ 0x3000 10000 0x80000000 PTE_WXRU (ui_vm _ _ _ _ _ _ Hinv)
    ltac:(lia) ltac:(lia) ltac:(by vm_compute) ltac:(lia) ltac:(by vm_compute) ltac:(by vm_compute)
    ltac:(intros; apply vpte_empty)) as (rv & s' & l' & d' & t' & j & Hrun & _).
  exists rv, s'. exact Hrun.
Defined.

Lemma usize_empty : usize ∅ 0.
Proof. intros i. rewrite lookup_empty, is_Some_alt. change (npages 0) with 0. split; [done|lia]. Qed.

Lemma uvmalloc_correct_witness :
  exists s l r, uvm_inv s l r ∅ ∅ ∅ /\ exists s', uvmalloc r 0 5000 s = Ok (5000, s').
Proof.
  destruct demo_empty as (s & l & r & Hinv & Hl). exists s, l, r. split; [exact Hinv|].
  destruct (uvmalloc_correct s l r ∅ ∅ ∅ 0 5000 Hinv usize_empty ltac:(lia) ltac:(by vm_compute)
    ltac:(intros; apply vpte_empty)) as (rv & s' & l' & d' & t' & U' & Hrun & Hrv & _).
  exists s'. rewrite Hrv in Hrun; [exact Hrun|]. change (npages 5000 - npages 0) with 2. lia.
Defined.

(** Two pages of user memory. *)
Lemma demo_space : exists s l r d t U, uvm_inv s l r d t U /\ usize U 8192 /\ length l <> 0%nat /\
  (forall i v, vpte (pmem s) t i = Some v -> U !! i = Some (PTE2PA v)).
Proof.
  destruct demo_empty as (s & l & r & Hinv & Hl).
  destruct (uvmalloc_ok s l r ∅ ∅ ∅ 0 8192 Hinv) as (rv & s' & l' & d' & t' & U' & Hrun & Hres);
    [lia|by vm_compute|intros; apply vpte_empty|].
  change (npages 0) with 0 in *. change (npages 8192) with 2 in *.
  destruct Hres as [(_ & Hg & Hst & Hl')|(_ & _ & Hl' & _)]; [|lia].
  assert (usize U' 8192) as Hsz.
  { intros i. change (npages 8192) with 2. destruct (decide (0 <= i < 2)) as [Hi|Hi].
    + destruct (ug_new _ _ _ _ _ _ _ _ Hg i Hi) as (pa & -> & _). split; [done|eauto].
    + rewrite (ug_old _ _ _ _ _ _ _ _ Hg i Hi), lookup_empty, is_Some_alt. split; [done|lia]. }
  exists s', l', r, d', t', U'. split_and!; [apply Hst|done|lia|].
  intros i v Hv. assert (0 <= i < 2) as Hi.
  { rewrite (us_vpte _ _ _ _ _ _ _ _ _ _ _ _ Hst), vpte_empty in Hv. revert Hv. by zcase. }
  destruct (proj2 (Hsz i) Hi) as [pa Hpa].
  destruct (ui_map _ _ _ _ _ _ (us_inv _ _ _ _ _ _ _ _ _ _ _ _ Hst) i pa Hpa) as (_ & v' & Hv' & HPA & _).
  congruence.
Qed.

Lemma uvmdealloc_correct_witness :
  exists s l r d t U, uvm_inv s l r d t U /\ exists s', uvmdealloc r 8192 100 s = Ok (100, s').
Proof.
  destruct demo_space as (s & l & r & d & t & U & Hinv & Hsz & _).
  exists s, l, r, d, t, U. split; [exact Hinv|].
  destruct (uvmdealloc_correct s l r d t U 8192 100 Hinv Hsz ltac:(lia) ltac:(by vm_compute))
    as (s' & l' & Hrun & _).
  exists s'. exact Hrun.
Defined.

Lemma uvmdealloc_oversize_panics_witness :
  exists s l r d t U, uvm_inv s l r d t U /\ exists e, uvmdealloc r 12288 8192 s = Panic e.
Proof.
  destruct demo_space as (s & l & r & d & t & U & Hinv & Hsz & _ & Honly).
  exists s, l, r, d, t, U. split; [exact Hinv|].
  apply (uvmdealloc_oversize_panics s r d t 12288 8192 (vi_rep _ _ _ _ _ (ui_vm _ _ _ _ _ _ Hinv))
    ltac:(lia) ltac:(by vm_compute) ltac:(by vm_compute)).
  change (npages 8192) with 2. destruct (vpte (pmem s) t 2) as [v|] eqn:E; [|reflexivity].
  destruct (proj1 (Hsz 2) (ex_intro _ _ (Honly 2 v E))) as [_ Hlt]. by vm_compute in Hlt.
Defined.

Lemma demo_two : exists s l old d0 t0 U0 new, uvm_inv s l old d0 t0 U0 /\ usize U0 8192 /\
  uvm_inv s l new ∅ ∅ ∅ /\ (forall p, p ∈ pt_pages old d0 t0 ++ upages U0 -> p ∉ pt_pages new ∅ ∅).
Proof.
  destruct demo_space as (s & [|p l] & r & d & t & U & Hinv & Hsz & Hl & _); [done|].
  destruct (uvmcreate_ok s p l) as (s' & _ & Hnew & Ho & _); [apply Hinv|].
  destruct (uvm_inv_other s s' p l r d t U Hinv) as [Hold _]; [apply Hnew|done|].
  destruct (fresh_frame s p l r d t U Hinv) as (_ & Hnp & Hnu & _).
  exists s', l, r, d, t, U, p. split_and!; [done|done|done|].
  intros q Hq Hin. unfold pt_pages in Hin at 1. rewrite map_to_list_empty in Hin.
  apply list_elem_of_singleton in Hin as ->. apply elem_of_app in Hq as [?|?]; done.
Qed.

Lemma uvmcopy_correct_witness :
  exists s l old d0 t0 U0 new, uvm_inv s l old d0 t0 U0 /\ uvm_inv s l new ∅ ∅ ∅ /\
    exists rv s', uvmcopy old new 8192 s = Ok (rv, s').
Proof.
  destruct demo_two as (s & l & old & d0 & t0 & U0 & new & Hold & Hsz & Hnew & Hap).
  exists s, l, old, d0, t0, U0, new. split; [exact Hold|]. split; [exact Hnew|].
  destruct (uvmcopy_correct s l old new d0 t0 U0 ∅ ∅ 8192 Hold Hsz ltac:(by vm_compute) Hnew Hap
    ltac:(intros; apply vpte_empty)) as (rv & s' & l' & d' & t' & U' & Hrun & _).
  exists rv, s'. exact Hrun.
Defined.
End Demo.
