(* ===== verification/VmFree.v ===== *)
(** * Freeing page tables: [freewalk] and [uvmfree]

    [pt_tree k p P]: the page-table page [p] is the root of a tree of at most [k]
    levels whose pages are [P] and that has no leaf entry.  [freewalk] with depth
    [k] gives exactly those pages back to the allocator. *)

From S2P Require Import Prelude Riscv KString Kalloc Vm VmSpec VmUser.

(** The indices of a page-table page. *)
Definition pt_indices : list Z := Z.of_nat <$> seq 0 512.

Lemma elem_of_pt_indices i : i ∈ pt_indices <-> 0 <= i < 512.
Proof.
  unfold pt_indices. rewrite list_elem_of_fmap. split.
  - intros (n & -> & Hn). apply elem_of_seq in Hn. lia.
  - intros Hi. exists (Z.to_nat i). rewrite elem_of_seq. lia.
Qed.

Lemma NoDup_pt_indices : NoDup pt_indices.
Proof. apply NoDup_fmap_2_strong; [intros; lia|apply NoDup_seq]. Qed.

Section ConcatLemmas.
Context {A B : Type}.
Implicit Types (f : A -> list B) (ks : list A).

Lemma elem_of_concat_fmap f ks x : x ∈ concat (f <$> ks) <-> exists i, i ∈ ks /\ x ∈ f i.
Proof.
  rewrite list_elem_of_In, in_concat. split.
  - intros (l & Hl & Hx). rewrite <- list_elem_of_In in Hl. rewrite <- list_elem_of_In in Hx.
    apply list_elem_of_fmap in Hl as (i & -> & Hi). eauto.
  - intros (i & Hi & Hx). exists (f i). rewrite <- (list_elem_of_In _ x), <- list_elem_of_In. split; [|done].
    apply list_elem_of_fmap. eauto.
Qed.

Lemma NoDup_concat_fmap f ks :
  NoDup ks -> (forall i, NoDup (f i)) -> (forall i j x, x ∈ f i -> x ∈ f j -> i = j) ->
  NoDup (concat (f <$> ks)).
Proof.
  intros Hn Hf Hd. induction Hn as [|i ks Hi Hn IH]; [constructor|]. cbn.
  apply NoDup_app. split_and!; [done| |done].
  intros x Hx Hx'. apply elem_of_concat_fmap in Hx' as (j & Hj & Hx').
  by rewrite (Hd i j x Hx Hx') in Hi.
Qed.
End ConcatLemmas.

Section VmFree.
Context {L : Linker} {LOk : LinkerOk L}.

(** What entry [i] of page [p] holds: a subtree with the pages [c i], or nothing. *)
Definition pt_child (sub : mem -> Z -> list Z -> Prop) (m : mem) (p : Z) (c : Z -> list Z) (i : Z) : Prop :=
  if has (load64 m (p + 8 * i)) PTE_V
  then exists q, load64 m (p + 8 * i) = dir_pte q /\ page_ok q /\ sub m q (c i)
  else c i = [].

Fixpoint pt_tree (k : nat) (m : mem) (p : Z) (P : list Z) : Prop :=
  match k with
  | O => False
  | S k' => exists c, P = concat (c <$> pt_indices) ++ [p] /\
      forall i, 0 <= i < 512 -> pt_child (pt_tree k') m p c i
  end.

Lemma pt_tree_root k m p P : pt_tree k m p P -> p ∈ P.
Proof. destruct k; [done|]. intros (c & -> & _). rewrite elem_of_app. right. by left. Qed.

(** A tree depends on its own pages only. *)
Lemma pt_tree_same k : forall m m' p P,
  same_pages P m m' -> pt_tree k m p P -> pt_tree k m' p P.
Proof.
  induction k as [|k IH]; intros m m' p P Hs; [done|]. intros (c & -> & Hc).
  exists c. split; [done|]. intros i Hi. specialize (Hc i Hi). unfold pt_child in *.
  rewrite (page_load64_same m m'); [|intros x; apply Hs; rewrite elem_of_app; right; by left|done].
  destruct (has _ _); [|done]. destruct Hc as (q & Hq & Hok & Hsub). exists q. split_and!; [done|done|].
  eapply IH; [|done]. intros pa x Hpa. apply Hs. rewrite elem_of_app. left.
  apply elem_of_concat_fmap. exists i. by rewrite elem_of_pt_indices.
Qed.

Lemma dir_pte_not_leaf q :
  page_ok q -> has (dir_pte q) (Z.lor (Z.lor PTE_R PTE_W) PTE_X) = false.
Proof.
  intros Hq. destruct (dir_pte_facts q Hq) as (_ & _ & _ & Hfl).
  unfold has. replace (Z.lor (Z.lor PTE_R PTE_W) PTE_X) with (Z.land 0x3FF 14) by done.
  rewrite Z.land_assoc. unfold PTE_FLAGS in Hfl. by rewrite Hfl.
Qed.

Definition freewalk_entry (k : nat) (p i : Z) : M phys unit :=
  let! pte := pload64 (p + 8 * i) in
  if has pte PTE_V && negb (has pte (Z.lor (Z.lor PTE_R PTE_W) PTE_X)) then
    freewalk k (PTE2PA pte) ;;
    pstore64 (p + 8 * i) 0
  else panic_if (has pte PTE_V) "freewalk: leaf".

Lemma freewalk_unfold k p :
  freewalk (S k) p = (mfor pt_indices (freewalk_entry k p) ;; kfree p).
Proof. reflexivity. Qed.

(** [freed s l s' l' P]: the pages of [P] went to the free list. *)
Definition freed (s : phys) (l : list Z) (s' : phys) (l' P : list Z) : Prop :=
  kmem_inv s' l' /\ l' ≡ₚ P ++ l /\ same_except P (pmem s) (pmem s') /\
  kernel_pagetable s' = kernel_pagetable s.

Section Freewalk.
Variable k : nat.
(** The induction hypothesis: subtrees of depth [k]. *)
Hypothesis IH : forall s l p P, kmem_inv s l -> pt_tree k (pmem s) p P ->
  Forall page_ok P -> NoDup (P ++ l) ->
  exists s' l', freewalk k p s = Ok (tt, s') /\ freed s l s' l' P.

Lemma store_own_page s l p i :
  kmem_inv s l -> page_ok p -> p ∉ l -> 0 <= i < 512 ->
  kmem_inv (set_pmem (store64 (pmem s) (p + 8 * i) 0) s) l.
Proof.
  intros Hk Hp Hni Hi. apply (kmem_inv_same s); [done| |done].
  intros pb x Hpb Hx. pose proof (ki_pages _ _ Hk) as Hf. rewrite Forall_forall in Hf.
  apply (store64_other_page _ p i 0 pb); [apply Hp|by apply Hf|by intros ->|done|done].
Qed.

(** One entry: its subtree is freed; nothing changes but those pages and the entry. *)
Lemma freewalk_entry_ok s l p c i :
  kmem_inv s l -> pt_child (pt_tree k) (pmem s) p c i -> 0 <= i < 512 ->
  page_ok p -> Forall page_ok (c i) -> NoDup (p :: c i ++ l) ->
  exists s' l', freewalk_entry k p i s = Ok (tt, s') /\
    kmem_inv s' l' /\ l' ≡ₚ c i ++ l /\ kernel_pagetable s' = kernel_pagetable s /\
    (forall x, (forall q, q ∈ c i -> ~ in_page q x) -> ~ (p + 8 * i <= x < p + 8 * i + 8) ->
       pmem s' x = pmem s x).
Proof.
  intros Hk Hc Hi Hp Hok Hnd. apply NoDup_cons in Hnd as [Hpn Hnd]. unfold freewalk_entry. mcomp.
  unfold pt_child in Hc. destruct (has (load64 (pmem s) (p + 8 * i)) PTE_V) eqn:HV.
  2:{ exists s, l. rewrite Hc. cbn [andb]. split_and!; done. }
  destruct Hc as (q & Hq & Hqok & Hsub). rewrite Hq, dir_pte_not_leaf by done. cbn [andb negb].
  destruct (dir_pte_facts q Hqok) as (-> & _).
  destruct (IH s l q (c i) Hk Hsub Hok Hnd) as (s1 & l1 & Hrun & Hk1 & Hl1 & Hs1 & Hkp1).
  mstep Hrun. eexists _, l1. split; [reflexivity|]. split_and!; [|done|done|].
  - apply store_own_page; [done|done| |done]. by rewrite Hl1.
  - intros x Hx Hne. cbn [pmem set_pmem]. rewrite store64_outside by done. by apply Hs1.
Qed.

Lemma pt_child_same m m' p c i :
  load64 m' (p + 8 * i) = load64 m (p + 8 * i) -> same_pages (c i) m m' ->
  pt_child (pt_tree k) m p c i -> pt_child (pt_tree k) m' p c i.
Proof.
  intros Hl Hs. unfold pt_child. rewrite Hl. destruct (has _ _); [|done].
  intros (q & Hq & Hok & Hsub). exists q. split_and!; [done|done|by eapply pt_tree_same].
Qed.

(** Freeing the subtree of entry [i] keeps the one of another entry [j]. *)
Lemma pt_child_other s s1 p c i j R :
  (forall x, (forall q, q ∈ c i -> ~ in_page q x) -> ~ (p + 8 * i <= x < p + 8 * i + 8) ->
     pmem s1 x = pmem s x) ->
  i <> j -> 0 <= i < 512 -> 0 <= j < 512 -> page_ok p -> Forall page_ok (c i) -> Forall page_ok (c j) ->
  NoDup (p :: c i ++ R) -> (forall q, q ∈ c j -> q ∈ R) ->
  pt_child (pt_tree k) (pmem s) p c j -> pt_child (pt_tree k) (pmem s1) p c j.
Proof.
  rewrite !Forall_forall. intros Hf Hne Hi Hj Hp Hoki Hokj Hnd HR.
  apply NoDup_cons in Hnd as [Hpn Hnd]. rewrite elem_of_app in Hpn. apply NoDup_app in Hnd as (_ & Hd & _).
  apply pt_child_same.
  - apply load64_ext. intros x Hx. apply Hf; [|lia]. intros q Hq.
    apply (page_ok_disjoint p q); [done|auto|intros ->; tauto|unfold in_page; klia].
  - intros q x Hq Hx. apply Hf.
    + intros q' Hq'. apply (page_ok_disjoint q q'); [auto|auto| |done]. intros ->. apply (Hd q' Hq'). auto.
    + intros Hin. apply (page_ok_disjoint q p x); [auto|done| |done|unfold in_page; klia].
      intros ->. apply HR in Hq. tauto.
Qed.

Lemma freewalk_entries_ok p c ks : forall s l,
  kmem_inv s l -> NoDup ks -> (forall i, i ∈ ks -> 0 <= i < 512 /\ pt_child (pt_tree k) (pmem s) p c i) ->
  page_ok p -> Forall page_ok (concat (c <$> ks)) -> NoDup (p :: concat (c <$> ks) ++ l) ->
  exists s' l', mfor ks (freewalk_entry k p) s = Ok (tt, s') /\ kmem_inv s' l' /\
    l' ≡ₚ concat (c <$> ks) ++ l /\ kernel_pagetable s' = kernel_pagetable s /\
    same_except (p :: concat (c <$> ks)) (pmem s) (pmem s').
Proof.
  induction ks as [|i ks IHks]; intros s l Hk Hn Hc Hp Hok Hnd; [by exists s, l|].
  cbn [fmap list_fmap concat mfor] in *. apply NoDup_cons in Hn as [Hi Hn].
  apply Forall_app in Hok as [Hok1 Hok2]. rewrite <- app_assoc in Hnd.
  destruct (Hc i) as [Hib Hci]; [by left|].
  assert (NoDup (p :: c i ++ l)) as Hnd1.
  { apply NoDup_cons in Hnd as [Hp1 Hnd]. rewrite !elem_of_app in Hp1. apply NoDup_app in Hnd as (H1 & H2 & H3).
    apply NoDup_app in H3 as (_ & _ & H3). constructor; [rewrite elem_of_app; tauto|].
    apply NoDup_app. split_and!; [done| |done]. intros x Hx Hx'. apply (H2 x Hx). rewrite elem_of_app. by right. }
  destruct (freewalk_entry_ok s l p c i Hk Hci Hib Hp Hok1 Hnd1) as (s1 & l1 & Hrun & Hk1 & Hl1 & Hkp1 & Hf1).
  mstep Hrun. destruct (IHks s1 l1 Hk1 Hn) as (s' & l' & Hrun' & Hk' & Hl' & Hkp' & Hf').
  - intros j Hj. destruct (Hc j) as [Hjb Hcj]; [by right|]. split; [done|].
    assert (forall q, q ∈ c j -> q ∈ concat (c <$> ks)) as HR by (intros q Hq; apply elem_of_concat_fmap; eauto).
    eapply pt_child_other; [exact Hf1|intros ->; done|done|done|done|exact Hok1| |exact Hnd| |exact Hcj].
    + rewrite Forall_forall in *. auto.
    + intros q Hq. rewrite elem_of_app. auto.
  - done.
  - done.
  - by rewrite Hl1, app_assoc, (Permutation_app_comm _ (c i)), <- app_assoc.
  - exists s', l'. split_and!; [done|done| |congruence|].
    + rewrite Hl', Hl1, !app_assoc. apply Permutation_app_tail. apply Permutation_app_comm.
    + intros x Hx. rewrite Hf', Hf1; [done| | |].
      * intros q Hq. apply Hx. right. rewrite elem_of_app. by left.
      * intros Hin. apply (Hx p); [by left|]. unfold in_page. klia.
      * intros q [->|Hq]%elem_of_cons; apply Hx; [by left|]. right. rewrite elem_of_app. by right.
Qed.
End Freewalk.

(** [freewalk] of a tree returns and frees exactly its pages. *)
Lemma freewalk_ok k : forall s l p P,
  kmem_inv s l -> pt_tree k (pmem s) p P -> Forall page_ok P -> NoDup (P ++ l) ->
  exists s' l', freewalk k p s = Ok (tt, s') /\ freed s l s' l' P.
Proof.
  induction k as [|k IH]; intros s l p P Hk Ht Hok Hnd; [done|].
  destruct Ht as (c & -> & Hc). apply Forall_app in Hok as [Hok Hp]. rewrite Forall_singleton in Hp.
  rewrite <- app_assoc, (Permutation_app_comm [p]), app_assoc, <- (Permutation_app_comm [p]) in Hnd.
  cbn [app] in Hnd. rewrite freewalk_unfold.
  destruct (freewalk_entries_ok k IH p c pt_indices s l) as (s1 & l1 & Hrun & Hk1 & Hl1 & Hkp1 & Hf1);
    [done|apply NoDup_pt_indices| |done|done|done|].
  { intros i Hi. apply elem_of_pt_indices in Hi. auto. }
  mstep Hrun. destruct (kfree_ok s1 l1 p Hk1 Hp) as (s2 & Hrun2 & Hk2 & Ho2 & Hkp2).
  { rewrite Hl1. by apply NoDup_cons in Hnd as [? _]. }
  exists s2, (p :: l1). split; [done|]. split_and!; [done| | |congruence].
  - rewrite Hl1, <- app_assoc. apply Permutation_middle.
  - eapply same_except_trans.
    + eapply same_except_mono; [|exact Hf1]. intros q. rewrite elem_of_app, elem_of_cons, list_elem_of_singleton. tauto.
    + eapply same_except_user; [exact Ho2|]. rewrite elem_of_app. right. by left.
Qed.

(** ** The tree of a page table without leaves *)

Definition tab_pages (t : gmap Z Z) (i j : Z) : list Z := option_list (t !! (i * 512 + j)).
Definition dir_pages (d t : gmap Z Z) (i : Z) : list Z :=
  match d !! i with
  | Some p => concat (tab_pages t i <$> pt_indices) ++ [p]
  | None => []
  end.

Lemma elem_of_option_list (o : option Z) x : x ∈ option_list o <-> o = Some x.
Proof.
  destruct o; cbn; [rewrite list_elem_of_singleton|by rewrite elem_of_nil].
  split; [by intros ->|by intros [= ->]].
Qed.

Lemma concat_nils (ks : list Z) : concat ((fun _ => [] : list Z) <$> ks) = [].
Proof. by induction ks. Qed.

Section Tree.
Variables (m : mem) (r : Z) (d t : gmap Z Z).
Hypothesis Hrep : pt_rep m r d t.
Hypothesis Hleaf : forall n, has (lookup_pte m t n) PTE_V = false.

Lemma elem_of_dir_pages i x :
  x ∈ dir_pages d t i <-> exists p, d !! i = Some p /\
    (x = p \/ exists j, 0 <= j < 512 /\ t !! (i * 512 + j) = Some x).
Proof.
  unfold dir_pages. destruct (d !! i) as [p|].
  2:{ rewrite elem_of_nil. split; [done|]. by intros (p & Hp & _). }
  rewrite elem_of_app, list_elem_of_singleton, elem_of_concat_fmap. split.
  - intros [(j & Hj & Hx)| ->]; exists p; [|by auto]. split; [done|right]. exists j.
    unfold tab_pages in Hx. by rewrite elem_of_option_list, elem_of_pt_indices in *.
  - intros (p' & [= <-] & [->|(j & Hj & Hx)]); [by right|left]. exists j.
    unfold tab_pages. by rewrite elem_of_option_list, elem_of_pt_indices.
Qed.

Lemma tree_pages_perm : concat (dir_pages d t <$> pt_indices) ++ [r] ≡ₚ pt_pages r d t.
Proof.
  destruct (pt_nodup_parts _ _ _ _ Hrep) as (Hd & Ht & Hdr & Htr & Hdt).
  apply NoDup_Permutation; [|by apply (pr_nodup m)|].
  - apply NoDup_app. split_and!; [|intros x Hx Hr; apply list_elem_of_singleton in Hr as ->|apply NoDup_singleton].
    + apply NoDup_concat_fmap; [apply NoDup_pt_indices| |].
      * intros i. unfold dir_pages. destruct (d !! i) as [p|] eqn:Hp; [|constructor].
        apply NoDup_app. split_and!; [| |apply NoDup_singleton].
        -- apply NoDup_concat_fmap; [apply NoDup_pt_indices| |].
           ++ intros j. unfold tab_pages. destruct (t !! _); [apply NoDup_singleton|constructor].
           ++ intros j j' x. unfold tab_pages. rewrite !elem_of_option_list. intros H1 H2.
              pose proof (map_values_inj _ _ _ _ Ht H1 H2). lia.
        -- intros x (j & _ & Hx)%elem_of_concat_fmap ->%list_elem_of_singleton.
           unfold tab_pages in Hx. rewrite elem_of_option_list in Hx. by apply (Hdt i _ p Hp Hx).
      * intros i i' x. rewrite !elem_of_dir_pages. intros (p & Hp & Hx) (p' & Hp' & Hx').
        destruct Hx as [->|(j & Hj & Hx)], Hx' as [Hx'|(j' & Hj' & Hx')].
        -- rewrite <- Hx' in Hp'. by apply (map_values_inj d i i' p).
        -- exfalso. by apply (Hdt i (i' * 512 + j') p).
        -- rewrite Hx' in Hx. exfalso. by apply (Hdt i' (i * 512 + j) p').
        -- pose proof (map_values_inj _ _ _ _ Ht Hx Hx'). dlia.
    + apply elem_of_concat_fmap in Hx as (i & _ & Hx). apply elem_of_dir_pages in Hx as (p & Hp & [->|(j & _ & Hx)]).
      * by apply (Hdr i).
      * by eapply Htr.
  - intros x. rewrite elem_of_pt_pages, elem_of_app, list_elem_of_singleton, elem_of_concat_fmap.
    setoid_rewrite elem_of_dir_pages. setoid_rewrite elem_of_pt_indices. split.
    + intros [(i & Hi & p & Hp & [->|(j & Hj & Hx)])| ->]; eauto.
    + intros [->|[[i Hi]|[k Hk]]]; [by right|left..].
      * exists i. split; [by eapply (pr_dkeys m r d t)|]. exists x. auto.
      * destruct (pr_tkeys _ _ _ _ Hrep k x Hk) as (Hk0 & p & Hp). exists (k / 512).
        split; [by eapply (pr_dkeys m r d t)|]. exists p. split; [done|right]. exists (k mod 512).
        split; [dlia|]. by replace (k / 512 * 512 + k mod 512) with k by dlia.
Qed.

Lemma pt_tree_of_rep : pt_tree 3 m r (concat (dir_pages d t <$> pt_indices) ++ [r]).
Proof.
  exists (dir_pages d t). split; [done|]. intros i Hi. pose proof (pr_dir _ _ _ _ Hrep i Hi) as Hdir.
  unfold pt_child, dir_pages. destruct (d !! i) as [p|] eqn:Hp; [|by rewrite Hdir].
  assert (page_ok p) as Hpok by (eapply pt_page_ok; [done|apply elem_of_pt_pages; eauto]).
  rewrite Hdir. destruct (dir_pte_facts p Hpok) as (_ & -> & _). exists p. split_and!; [done|done|].
  exists (tab_pages t i). split; [done|]. intros j Hj. pose proof (pr_tab _ _ _ _ Hrep i p j Hp Hj) as Htab.
  unfold pt_child, tab_pages. destruct (t !! (i * 512 + j)) as [q|] eqn:Hq; [|by rewrite Htab].
  assert (page_ok q) as Hqok by (eapply pt_page_ok; [done|apply elem_of_pt_pages; eauto]).
  rewrite Htab. destruct (dir_pte_facts q Hqok) as (_ & -> & _). exists q. split_and!; [done|done|].
  exists (fun _ => []). split; [by rewrite concat_nils|]. intros e He. unfold pt_child.
  specialize (Hleaf ((i * 512 + j) * 512 + e)). unfold lookup_pte in Hleaf.
  replace (((i * 512 + j) * 512 + e) / 512) with (i * 512 + j) in Hleaf by dlia. rewrite Hq in Hleaf.
  replace (((i * 512 + j) * 512 + e) mod 512) with e in Hleaf by dlia. by rewrite Hleaf.
Qed.
End Tree.

(** The first half of [uvmfree]: no user page is left. *)
Lemma uvmfree_unmap s l r d t U sz :
  uvm_inv s l r d t U -> usize U sz -> 0 <= sz <= MAXVA ->
  (forall n, is_Some (vpte (pmem s) t n) -> is_Some (U !! n)) ->
  exists s1 l1, (if 0 <? sz then uvmunmap r 0 (PGROUNDUP sz / PGSIZE) true else ret tt) s = Ok (tt, s1) /\
    uvm_step s l r d t U s1 l1 d t ∅ (fun _ => None).
Proof.
  intros Hinv Hsize Hsz Honly. destruct (npages_spec sz) as (_ & Hnb & Hns); [done|].
  assert (udrop 0 (npages sz) U = ∅) as Hdrop.
  { apply map_eq. intros i. rewrite lookup_udrop, lookup_empty. pose proof (Hsize i) as Hi.
    destruct (U !! i); [|by zcase]. assert (0 <= i < npages sz) by (apply Hi; eauto). zcase; lia || done. }
  assert (forall i, (if (0 <=? i) && (i <? npages sz) then None else vpte (pmem s) t i) = None) as HN.
  { intros i. destruct (vpte (pmem s) t i) eqn:E; [|by zcase].
    assert (0 <= i < npages sz) by (apply Hsize, Honly; rewrite E; eauto). zcase; lia || done. }
  destruct (Z.ltb_spec 0 sz).
  - destruct (uvmunmap_ok s l r d t U 0 (npages sz)) as (s1 & l1 & Hrun & Hst); [done|lia|lia|lia| |].
    { intros i Hi. by apply Hsize. }
    rewrite Z.add_0_l, Hdrop in Hst. exists s1, l1. split; [exact Hrun|].
    eapply uvm_step_ext; [|exact Hst]. exact HN.
  - exists s, l. assert (npages sz = 0) as Hz by klia. rewrite Hz, udrop_nil in Hdrop by lia. subst U.
    split; [done|]. eapply uvm_step_ext; [|by apply uvm_step_refl].
    intros i. rewrite <- (HN i), Hz. zcase; lia || done.
Qed.

Lemma uvmfree_ok s l r d t U sz :
  uvm_inv s l r d t U -> usize U sz -> 0 <= sz <= MAXVA ->
  (forall n, is_Some (vpte (pmem s) t n) -> is_Some (U !! n)) ->
  exists s' l', uvmfree r sz s = Ok (tt, s') /\ kmem_inv s' l' /\
    l' ≡ₚ pt_pages r d t ++ upages U ++ l /\
    same_except (pt_pages r d t ++ upages U ++ l) (pmem s) (pmem s') /\
    kernel_pagetable s' = kernel_pagetable s.
Proof.
  intros Hinv Hsize Hsz Honly.
  destruct (uvmfree_unmap s l r d t U sz Hinv Hsize Hsz Honly) as (s1 & l1 & Hrun & Hst).
  unfold uvmfree. mstep Hrun. destruct (ui_vm _ _ _ _ _ _ (us_inv _ _ _ _ _ _ _ _ _ _ _ _ Hst)) as [Hk1 Hr1 Hd1].
  pose proof (tree_pages_perm _ _ _ _ Hr1) as Hperm.
  pose proof (us_perm _ _ _ _ _ _ _ _ _ _ _ _ Hst) as Hp. unfold upages in Hp at 1. rewrite map_to_list_empty in Hp.
  cbn [fmap list_fmap app] in Hp.
  destruct (freewalk_ok 3 s1 l1 r (concat (dir_pages d t <$> pt_indices) ++ [r]))
    as (s2 & l2 & Hrun2 & Hk2 & Hl2 & Hs2 & Hkp2); [done| | | |].
  - apply pt_tree_of_rep; [done|]. intros n. apply vpte_none. apply (us_vpte _ _ _ _ _ _ _ _ _ _ _ _ Hst).
  - rewrite Hperm. apply Hr1.
  - rewrite Hperm, Hp. apply Hinv.
  - exists s2, l2. split_and!; [done|done| | |].
    + by rewrite Hl2, Hperm, Hp.
    + eapply same_except_trans; [apply Hst|]. eapply same_except_mono; [|exact Hs2].
      intros p. rewrite Hperm, elem_of_app. by left.
    + rewrite Hkp2. apply Hst.
Qed.

(** The frames [P] went back to the allocator, whose free pages were [l]; only
    frames of [P] and [l] were written. *)
Definition returned (s s' : phys) (l l' P : list Z) : Prop :=
  kmem_inv s' l' /\ l' ≡ₚ P ++ l /\ same_except (P ++ l) (pmem s) (pmem s').

(** C9. [uvmfree] of an address space whose only mappings are the user pages of
    [sz] bytes returns, and leaks nothing: the free list afterwards holds exactly
    the old free pages, the user pages and every page of the page table. *)
Theorem uvmfree_no_leak (s : phys) (l : list Z) (r : Z) (d t U : gmap Z Z) (sz : Z)
    (Hinv : uvm_inv s l r d t U) (Hsize : usize U sz) (Hsz : 0 <= sz <= MAXVA)
    (Honly : forall n, is_Some (vpte (pmem s) t n) -> is_Some (U !! n)) :
  exists s' l', uvmfree r sz s = Ok (tt, s') /\ returned s s' l l' (pt_pages r d t ++ upages U).
Proof.
  destruct (uvmfree_ok s l r d t U sz Hinv Hsize Hsz Honly) as (s' & l' & Hrun & Hk & Hl & Hs & _).
  exists s', l'. split; [done|]. unfold returned. by rewrite <- app_assoc.
Qed.
End VmFree.

Lemma uvmfree_no_leak_witness :
  exists s l r d t U, @uvm_inv demo_linker s l r d t U /\ exists s', @uvmfree demo_linker r 8192 s = Ok (tt, s').
Proof.
  destruct demo_space as (s & l & r & d & t & U & Hinv & Hsz & _ & Honly).
  exists s, l, r, d, t, U. split; [exact Hinv|].
  destruct (@uvmfree_no_leak demo_linker demo_linker_ok s l r d t U 8192 Hinv Hsz ltac:(by vm_compute))
    as (s' & l' & Hrun & _); [|exists s'; exact Hrun].
  intros n [v Hv]. exists (PTE2PA v). apply Honly, Hv.
Defined.
