(* ===== verification/UserMem.v ===== *)
(** * Kernel access to user memory: [walkaddr], [copyout], [copyin], [copyinstr]

    [uaddr m t va] is the physical address that a user access to [va] reaches, or
    [None] if the page table [t] does not let the user reach [va].  The theorems
    hold for every [va] and length a user program can pass. *)

From S2P Require Import Prelude Riscv KString Kalloc Vm VmSpec VmUser.

Definition uframe (m : mem) (t : gmap Z Z) (n : Z) : option Z :=
  match vpte m t n with
  | Some v => if has v PTE_U then Some (PTE2PA v) else None
  | None => None
  end.

Definition uaddr (m : mem) (t : gmap Z Z) (va : Z) : option Z :=
  if va <? MAXVA
  then pa ← uframe m t (va / PGSIZE); Some (pa + va mod PGSIZE)
  else None.

(** The user reaches only the pages that the address space owns. *)
Definition user_only (m : mem) (t U : gmap Z Z) : Prop :=
  forall n pa, uframe m t n = Some pa -> U !! n = Some pa.

Section UserMem.
Context {L : Linker} {LOk : LinkerOk L}.

Lemma walkaddr_ok s r d t va :
  pt_rep (pmem s) r d t -> 0 <= va ->
  walkaddr r va s = Ok (if va <? MAXVA then default 0 (uframe (pmem s) t (va / PGSIZE)) else 0, s).
Proof.
  intros Hrep Hva. unfold walkaddr.
  destruct (Z.leb_spec MAXVA va), (Z.ltb_spec va MAXVA); try lia; [done|].
  mstep (walk_noalloc s r d t va Hrep); [|lia].
  destruct (decide (is_Some (t !! (va / PGSIZE / 512)))) as [Hs|Hs].
  - rewrite (proj2 (Z.eqb_neq _ 0)) by (by eapply pte_slot_nonzero). mcomp.
    rewrite (load_slot s r d t) by done. unfold uframe, vpte.
    destruct (has _ PTE_V); [|done]. by destruct (has _ PTE_U).
  - apply eq_None_not_Some in Hs. unfold pte_slot, uframe, vpte, lookup_pte. by rewrite Hs.
Qed.

Section Space.
Variables (s0 : phys) (l : list Z) (r : Z) (d t U : gmap Z Z).
Hypothesis Hinv : uvm_inv s0 l r d t U.
Hypothesis Honly : user_only (pmem s0) t U.

(** Memory in which the page table is as in [s0]. *)
Definition same_table (m : mem) : Prop := same_pages (pt_pages r d t) (pmem s0) m.

Lemma same_table_uframe m n : same_table m -> uframe m t n = uframe (pmem s0) t n.
Proof. intros H. unfold uframe. by rewrite (vpte_ext (pmem s0) m t t n) by (by eapply lookup_pte_same). Qed.

Lemma uframe_page n pa :
  uframe (pmem s0) t n = Some pa -> page_ok pa /\ (pa ∉ pt_pages r d t) /\ (pa ∈ upages U) /\ pa <> 0.
Proof.
  intros Hn%Honly. destruct (uvm_user_page _ _ _ _ _ _ _ _ Hinv Hn) as (Hok & Hnp & _).
  split_and!; [done|done|apply elem_of_map_values; eauto|]. apply page_ok_bounds in Hok. klia.
Qed.

Lemma uframe_inj n n' pa :
  uframe (pmem s0) t n = Some pa -> uframe (pmem s0) t n' = Some pa -> n = n'.
Proof.
  intros H1%Honly H2%Honly. eapply map_values_inj; [|done|done].
  pose proof (ui_nodup _ _ _ _ _ _ Hinv) as Hnd.
  apply NoDup_app in Hnd as (_ & _ & Hnd). by apply NoDup_app in Hnd as (? & _).
Qed.

Lemma uaddr_some va a :
  uaddr (pmem s0) t va = Some a ->
  va < MAXVA /\ exists pa, uframe (pmem s0) t (va / PGSIZE) = Some pa /\ a = pa + va mod PGSIZE /\ in_page pa a.
Proof.
  unfold uaddr. destruct (Z.ltb_spec va MAXVA); [|done].
  destruct (uframe _ _ _) as [pa|]; [|done]. cbn. intros [= <-]. split; [done|]. exists pa.
  split_and!; [done|done|]. unfold in_page. pose proof (Z.mod_pos_bound va PGSIZE). klia.
Qed.

(** Two user addresses reach the same byte only if they are equal. *)
Lemma uaddr_inj va va' a :
  uaddr (pmem s0) t va = Some a -> uaddr (pmem s0) t va' = Some a -> va = va'.
Proof.
  intros (_ & pa & Hf & Ha & Hp)%uaddr_some (_ & pa' & Hf' & Ha' & Hp')%uaddr_some.
  destruct (uframe_page _ _ Hf) as (Hok & _), (uframe_page _ _ Hf') as (Hok' & _).
  destruct (decide (pa = pa')) as [<-|Hne].
  - pose proof (uframe_inj _ _ _ Hf Hf'). kdlia.
  - exfalso. by apply (page_ok_disjoint pa pa' a).
Qed.

Lemma walkaddr_table s va :
  same_table (pmem s) -> 0 <= va ->
  walkaddr r va s = Ok (if va <? MAXVA then default 0 (uframe (pmem s0) t (va / PGSIZE)) else 0, s).
Proof.
  intros Hs Hva. rewrite (walkaddr_ok s r d t) by (done || (eapply pt_rep_same; [done|apply Hinv])).
  by rewrite same_table_uframe.
Qed.

(** The page part of a transfer at [va]: the frame, and the number of bytes. *)
Definition chunk (va len : Z) : Z :=
  let n0 := PGSIZE - (va - PGROUNDDOWN va) in if len <? n0 then len else n0.

Lemma chunk_spec va len :
  0 <= va < 2 ^ 64 -> 0 < len ->
  va - PGROUNDDOWN va = va mod PGSIZE /\ 0 < chunk va len <= len /\
  va mod PGSIZE + chunk va len <= PGSIZE /\
  (chunk va len = len \/ va + chunk va len = PGROUNDDOWN va + PGSIZE).
Proof. intros Hva Hlen. unfold chunk. rewrite PGROUNDDOWN_spec by done. zcase; kdlia. Qed.

Lemma uaddr_chunk va pa i :
  0 <= va -> va < MAXVA -> uframe (pmem s0) t (va / PGSIZE) = Some pa -> 0 <= i < PGSIZE - va mod PGSIZE ->
  uaddr (pmem s0) t (va + i) = Some (pa + va mod PGSIZE + i).
Proof.
  intros Hva Hmax Hf Hi. unfold uaddr. change MAXVA with (2 ^ 38) in *.
  assert ((va + i) / PGSIZE = va / PGSIZE) as -> by kdlia. rewrite Hf. cbn.
  rewrite (proj2 (Z.ltb_lt _ _)) by kdlia. f_equal. kdlia.
Qed.

(** [walkaddr] at the start of the page of [va] finds the frame of [va]. *)
Lemma walkaddr_page s va :
  same_table (pmem s) -> 0 <= va < 2 ^ 64 ->
  (exists pa, walkaddr r (PGROUNDDOWN va) s = Ok (pa, s) /\ va < MAXVA /\
     uframe (pmem s0) t (va / PGSIZE) = Some pa) \/
  (walkaddr r (PGROUNDDOWN va) s = Ok (0, s) /\ uaddr (pmem s0) t va = None).
Proof.
  intros Hs Hva. rewrite PGROUNDDOWN_spec by done.
  rewrite walkaddr_table by (done || kdlia). unfold uaddr. change MAXVA with (2 ^ 38).
  assert ((va - va mod PGSIZE) / PGSIZE = va / PGSIZE) as -> by kdlia.
  destruct (Z.ltb_spec va (2 ^ 38)).
  - rewrite (proj2 (Z.ltb_lt _ _)) by kdlia.
    destruct (uframe _ _ _) as [pa|]; [left; by exists pa|by right].
  - rewrite (proj2 (Z.ltb_ge _ _)) by kdlia. by right.
Qed.

(** ** [copyout] *)

(** The first [n] bytes at [src] of [m] were written to the user addresses from
    [va], and nothing else changed. *)
Record user_written (m m' : mem) (va src n : Z) : Prop := {
  uw_bytes i : 0 <= i < n ->
    exists a, uaddr (pmem s0) t (va + i) = Some a /\ load8 m' a = load8 m (src + i);
  uw_frame x : (forall i, 0 <= i < n -> uaddr (pmem s0) t (va + i) <> Some x) -> m' x = m x;
}.

(** No byte of the kernel buffer is in a user page. *)
Definition kernel_buffer (a n : Z) : Prop :=
  forall i pa, 0 <= i < n -> pa ∈ upages U -> ~ in_page pa (a + i).

Lemma chunk_written m va src len pa :
  0 <= va < 2 ^ 64 -> 0 < len -> va < MAXVA -> uframe (pmem s0) t (va / PGSIZE) = Some pa ->
  user_written m (memmove m (pa + (va - PGROUNDDOWN va)) src (chunk va len)) va src (chunk va len).
Proof.
  intros Hva Hlen Hmax Hf. destruct (chunk_spec va len Hva Hlen) as (-> & Hc & Hc' & _). split.
  - intros i Hi. exists (pa + va mod PGSIZE + i). split; [apply uaddr_chunk; lia || done|].
    by apply memmove_load.
  - intros x Hx. apply memmove_outside; [lia|]. intros Hin.
    apply (Hx (x - (pa + va mod PGSIZE))); [lia|].
    rewrite (uaddr_chunk va pa) by (lia || done). f_equal. lia.
Qed.

Lemma user_written_table m m' va src n :
  user_written m m' va src n -> same_table m -> same_table m'.
Proof.
  intros Hw Hs p x Hp Hx. rewrite <- (Hs p x Hp Hx). apply Hw. intros i Hi.
  intros (_ & pa & Hf & _ & Hin)%uaddr_some. destruct (uframe_page _ _ Hf) as (Hok & Hnp & _).
  apply (page_ok_disjoint pa p x); [done| |by intros ->|done|done].
  eapply pt_page_ok; [apply Hinv|done].
Qed.

Lemma user_written_kernel m m' va src n a k :
  user_written m m' va src n -> kernel_buffer a k -> forall i, 0 <= i < k -> load8 m' (a + i) = load8 m (a + i).
Proof.
  intros Hw Hb i Hi. unfold load8. f_equal. apply Hw. intros j Hj.
  intros (_ & pa & Hf & _ & Hin)%uaddr_some. destruct (uframe_page _ _ Hf) as (_ & _ & Hu & _).
  by apply (Hb i pa).
Qed.

Lemma user_written_trans m1 m2 m3 va src n k :
  0 <= n -> 0 <= k -> kernel_buffer src (n + k) ->
  user_written m1 m2 va src n -> user_written m2 m3 (va + n) (src + n) k ->
  user_written m1 m3 va src (n + k).
Proof.
  intros Hn Hk Hb H1 H2. split.
  - intros i Hi. destruct (Z.lt_ge_cases i n) as [Hin|Hin].
    + destruct (uw_bytes _ _ _ _ _ H1 i) as (a & Ha & Hla); [lia|]. exists a. split; [done|].
      rewrite <- Hla. unfold load8. f_equal. apply H2. intros j Hj Haj.
      pose proof (uaddr_inj _ _ _ Ha Haj). lia.
    + destruct (uw_bytes _ _ _ _ _ H2 (i - n)) as (a & Ha & Hla); [lia|].
      exists a. replace (va + n + (i - n)) with (va + i) in Ha by lia. split; [done|].
      rewrite Hla. replace (src + n + (i - n)) with (src + i) by lia.
      by apply (user_written_kernel _ _ _ _ _ src (n + k) H1 Hb).
  - intros x Hx. rewrite (uw_frame _ _ _ _ _ H2), (uw_frame _ _ _ _ _ H1); [done| |].
    + intros i Hi. apply Hx. lia.
    + intros i Hi. replace (va + n + i) with (va + (n + i)) by lia. apply Hx. lia.
Qed.

Lemma copyout_loop_ok fuel : forall s va src len,
  same_table (pmem s) -> 0 <= va < 2 ^ 64 -> 0 <= len -> kernel_buffer src len ->
  va mod PGSIZE + len <= PGSIZE * Z.of_nat fuel ->
  exists rv n s', copyout_loop r va src len (S fuel) s = Ok (rv, s') /\
    s' = set_pmem (pmem s') s /\ user_written (pmem s) (pmem s') va src n /\
    (rv = 0 /\ n = len \/ rv = -1 /\ 0 <= n < len /\ uaddr (pmem s0) t (va + n) = None).
Proof.
  induction fuel as [|fuel IH]; intros s va src len Hs Hva Hlen Hb Hf; cbn [copyout_loop].
  all: assert (0 < len \/ len = 0) as [Hpos| ->] by lia.
  1: pose proof (Z.mod_pos_bound va PGSIZE); klia.
  1,3: exists 0, 0, s; split_and!; [done|by destruct s|split; [lia|done]|by left].
  rewrite (proj2 (Z.ltb_lt _ _) Hpos).
  destruct (walkaddr_page s va Hs Hva) as [(pa & Hw & Hmax & Hfr)|[Hw Hnone]]; mstep Hw.
  2:{ exists (-1), 0, s. split_and!; [done|by destruct s|split; [lia|done]|right].
      split_and!; [done|lia..|]. by rewrite Z.add_0_r. }
  destruct (uframe_page _ _ Hfr) as (_ & _ & _ & Hnz). rewrite (proj2 (Z.eqb_neq _ _) Hnz).
  fold (chunk va len). destruct (chunk_spec va len Hva Hpos) as (_ & Hc & Hc' & Hnext).
  pose proof (chunk_written (pmem s) va src len pa Hva Hpos Hmax Hfr) as Hw1. mcomp.
  set (s1 := set_pmem _ s) in *. set (n := chunk va len) in *.
  assert (exists rv k s', copyout_loop r (u64 (PGROUNDDOWN va + PGSIZE)) (src + n) (len - n) (S fuel) s1 = Ok (rv, s') /\
    s' = set_pmem (pmem s') s1 /\ user_written (pmem s1) (pmem s') (va + n) (src + n) k /\
    (rv = 0 /\ k = len - n \/ rv = -1 /\ 0 <= k < len - n /\ uaddr (pmem s0) t (va + n + k) = None))
    as (rv & k & s' & Hrun & Hs' & Hw2 & Hres).
  { assert (same_table (pmem s1)) as Hs1 by (by eapply user_written_table).
    assert (kernel_buffer (src + n) (len - n)) as Hb1.
    { intros i p Hi. replace (src + n + i) with (src + (n + i)) by lia. apply Hb. lia. }
    destruct Hnext as [Hn|Hn].
    - exists 0, 0, s1. replace (len - n) with 0 by lia.
      split_and!; [by destruct fuel|by destruct s1|split; [lia|done]|by left].
    - change MAXVA with (2 ^ 38) in Hmax. rewrite <- Hn, u64_small by kdlia.
      rewrite PGROUNDDOWN_spec in Hn by done. apply IH; [done|kdlia|lia|done|kdlia]. }
  exists rv, (n + k), s'. split_and!; [exact Hrun|by rewrite Hs'| |].
  - eapply user_written_trans; [lia|lia| |exact Hw1|exact Hw2].
    intros i p Hi. apply Hb. lia.
  - destruct Hres as [[-> ->]|(-> & Hk & Hnone)]; [left; lia|right]. split_and!; [done|lia..|].
    by replace (va + (n + k)) with (va + n + k) by lia.
Qed.

(** ** [copyin] *)

(** The bytes at the user addresses from [va] were written to the [n] bytes at
    [dst], and nothing else changed. *)
Record kernel_written (m m' : mem) (va dst n : Z) : Prop := {
  kw_bytes i : 0 <= i < n ->
    exists a, uaddr (pmem s0) t (va + i) = Some a /\ load8 m' (dst + i) = load8 m a;
  kw_frame : same_outside dst n m m';
}.

(** A kernel buffer outside the page table too. *)
Definition kernel_dst (a n : Z) : Prop :=
  kernel_buffer a n /\ forall i p, 0 <= i < n -> p ∈ pt_pages r d t -> ~ in_page p (a + i).

Lemma kernel_dst_sub a n b k : kernel_dst a n -> a <= b -> b + k <= a + n -> kernel_dst b k.
Proof.
  intros [H1 H2] Hb Hk. split; intros i p Hi Hp; replace (b + i) with (a + (b - a + i)) by lia;
    [apply H1|apply H2]; lia || done.
Qed.

Lemma kernel_written_table m m' va dst n :
  kernel_dst dst n -> kernel_written m m' va dst n -> same_table m -> same_table m'.
Proof.
  intros [_ Hd] Hw Hs p x Hp Hx. rewrite <- (Hs p x Hp Hx). apply Hw. intros Hin.
  apply (Hd (x - dst) p); [lia|done|]. by replace (dst + (x - dst)) with x by lia.
Qed.

(** A user byte is not in the buffer. *)
Lemma uaddr_kernel va a dst n :
  kernel_buffer dst n -> uaddr (pmem s0) t va = Some a -> ~ (dst <= a < dst + n).
Proof.
  intros Hb (_ & pa & Hf & _ & Hin)%uaddr_some Ha. destruct (uframe_page _ _ Hf) as (_ & _ & Hu & _).
  apply (Hb (a - dst) pa); [lia|done|]. by replace (dst + (a - dst)) with a by lia.
Qed.

Lemma kernel_written_trans m1 m2 m3 va dst n k :
  0 <= n -> 0 <= k -> kernel_buffer dst (n + k) ->
  kernel_written m1 m2 va dst n -> kernel_written m2 m3 (va + n) (dst + n) k ->
  kernel_written m1 m3 va dst (n + k).
Proof.
  intros Hn Hk Hb H1 H2. split.
  - intros i Hi. destruct (Z.lt_ge_cases i n) as [Hin|Hin].
    + destruct (kw_bytes _ _ _ _ _ H1 i) as (a & Ha & Hla); [lia|]. exists a. split; [done|].
      rewrite <- Hla. unfold load8. f_equal. apply H2. lia.
    + destruct (kw_bytes _ _ _ _ _ H2 (i - n)) as (a & Ha & Hla); [lia|].
      exists a. replace (va + n + (i - n)) with (va + i) in Ha by lia. split; [done|].
      replace (dst + n + (i - n)) with (dst + i) in Hla by lia. rewrite Hla. unfold load8. f_equal.
      apply H1. intros Hx. apply (uaddr_kernel _ _ _ _ Hb Ha). lia.
  - intros x Hx. rewrite (kw_frame _ _ _ _ _ H2), (kw_frame _ _ _ _ _ H1); [done|lia|lia].
Qed.

Lemma chunk_read m va dst len pa :
  0 <= va < 2 ^ 64 -> 0 < len -> va < MAXVA -> uframe (pmem s0) t (va / PGSIZE) = Some pa ->
  kernel_written m (memmove m dst (pa + (va - PGROUNDDOWN va)) (chunk va len)) va dst (chunk va len).
Proof.
  intros Hva Hlen Hmax Hf. destruct (chunk_spec va len Hva Hlen) as (-> & Hc & Hc' & _). split.
  - intros i Hi. exists (pa + va mod PGSIZE + i). split; [apply uaddr_chunk; lia || done|].
    by apply memmove_load.
  - apply memmove_outside. lia.
Qed.

Lemma copyin_loop_ok fuel : forall s dst va len,
  same_table (pmem s) -> 0 <= va < 2 ^ 64 -> 0 <= len -> kernel_dst dst len ->
  va mod PGSIZE + len <= PGSIZE * Z.of_nat fuel ->
  exists rv n s', copyin_loop r dst va len (S fuel) s = Ok (rv, s') /\
    s' = set_pmem (pmem s') s /\ kernel_written (pmem s) (pmem s') va dst n /\
    (rv = 0 /\ n = len \/ rv = -1 /\ 0 <= n < len /\ uaddr (pmem s0) t (va + n) = None).
Proof.
  induction fuel as [|fuel IH]; intros s dst va len Hs Hva Hlen Hb Hf; cbn [copyin_loop].
  all: assert (0 < len \/ len = 0) as [Hpos| ->] by lia.
  1: pose proof (Z.mod_pos_bound va PGSIZE); klia.
  1,3: exists 0, 0, s; split_and!; [done|by destruct s|split; [lia|done]|by left].
  rewrite (proj2 (Z.ltb_lt _ _) Hpos).
  destruct (walkaddr_page s va Hs Hva) as [(pa & Hw & Hmax & Hfr)|[Hw Hnone]]; mstep Hw.
  2:{ exists (-1), 0, s. split_and!; [done|by destruct s|split; [lia|done]|right].
      split_and!; [done|lia..|]. by rewrite Z.add_0_r. }
  destruct (uframe_page _ _ Hfr) as (_ & _ & _ & Hnz). rewrite (proj2 (Z.eqb_neq _ _) Hnz).
  fold (chunk va len). destruct (chunk_spec va len Hva Hpos) as (_ & Hc & Hc' & Hnext).
  pose proof (chunk_read (pmem s) va dst len pa Hva Hpos Hmax Hfr) as Hw1. mcomp.
  set (s1 := set_pmem _ s) in *. set (n := chunk va len) in *.
  assert (exists rv k s', copyin_loop r (dst + n) (u64 (PGROUNDDOWN va + PGSIZE)) (len - n) (S fuel) s1 = Ok (rv, s') /\
    s' = set_pmem (pmem s') s1 /\ kernel_written (pmem s1) (pmem s') (va + n) (dst + n) k /\
    (rv = 0 /\ k = len - n \/ rv = -1 /\ 0 <= k < len - n /\ uaddr (pmem s0) t (va + n + k) = None))
    as (rv & k & s' & Hrun & Hs' & Hw2 & Hres).
  { assert (same_table (pmem s1)) as Hs1
      by (eapply kernel_written_table; [|exact Hw1|done]; eapply kernel_dst_sub; [exact Hb|lia..]).
    assert (kernel_dst (dst + n) (len - n)) as Hb1 by (eapply kernel_dst_sub; [exact Hb|lia..]).
    destruct Hnext as [Hn|Hn].
    - exists 0, 0, s1. replace (len - n) with 0 by lia.
      split_and!; [by destruct fuel|by destruct s1|split; [lia|done]|by left].
    - change MAXVA with (2 ^ 38) in Hmax. rewrite <- Hn, u64_small by kdlia.
      rewrite PGROUNDDOWN_spec in Hn by done. apply IH; [done|kdlia|lia|done|kdlia]. }
  exists rv, (n + k), s'. split_and!; [exact Hrun|by rewrite Hs'| |].
  - eapply kernel_written_trans; [lia|lia| |exact Hw1|exact Hw2].
    eapply kernel_dst_sub; [exact Hb|lia..].
  - destruct Hres as [[-> ->]|(-> & Hk & Hnone)]; [left; lia|right]. split_and!; [done|lia..|].
    by replace (va + (n + k)) with (va + n + k) by lia.
Qed.

(** ** [copyinstr] *)

(** How many bytes of the page were copied: up to the NUL and with it, or all. *)
Lemma copyinstr_page_ok n : forall m p dst max m' g dst' max',
  (forall i, 0 <= i < Z.of_nat n -> ~ (dst <= p + i < dst + Z.of_nat n)) ->
  copyinstr_page m p dst max n = (m', g, dst', max') ->
  exists k, 0 <= k <= Z.of_nat n /\ dst' = dst + k /\ max' = max - k /\
    (forall i, 0 <= i < k -> load8 m (p + i) <> 0) /\
    (if g then k < Z.of_nat n /\ load8 m (p + k) = 0 else k = Z.of_nat n) /\
    (forall i, 0 <= i < k + Z.b2z g -> load8 m' (dst + i) = load8 m (p + i)) /\
    same_outside dst (k + Z.b2z g) m m'.
Proof.
  induction n as [|n IH]; intros m p dst max m' g dst' max' Hd; cbn [copyinstr_page].
  { intros [= <- <- <- <-]. exists 0. cbn. split_and!; try lia. done. }
  destruct (Z.eqb_spec (load8 m p) 0) as [Hz|Hz].
  - intros [= <- <- <- <-]. exists 0. cbn. rewrite !Z.add_0_r. split_and!; try lia.
    + intros i Hi. assert (i = 0) as -> by lia. rewrite !Z.add_0_r, Hz. unfold load8. by rewrite store8_eq.
    + intros x Hx. apply store8_ne. lia.
  - intros Hrun. assert (forall i, 0 <= i < Z.of_nat n -> load8 (store8 m dst (load8 m p)) (p + 1 + i) = load8 m (p + 1 + i)) as Hsrc.
    { intros i Hi. unfold load8. f_equal. apply store8_ne. specialize (Hd (1 + i)). lia. }
    apply IH in Hrun as (k & Hk & -> & -> & Hnz & Hg & Hb & Ho).
    2:{ intros i Hi. specialize (Hd (1 + i)). lia. }
    exists (k + 1). split_and!; try lia.
    + intros i Hi. destruct (Z.eq_dec i 0) as [->|]; [by rewrite Z.add_0_r|].
      replace (p + i) with (p + 1 + (i - 1)) by lia. rewrite <- Hsrc by lia. apply Hnz. lia.
    + destruct g; [|lia]. destruct Hg as [Hg1 Hg2]. split; [lia|].
      rewrite Hsrc in Hg2 by lia. by replace (p + (k + 1)) with (p + 1 + k) by lia.
    + intros i Hi. destruct (Z.eq_dec i 0) as [->|].
      * rewrite !Z.add_0_r. unfold load8. rewrite Ho, store8_eq by lia.
        unfold load8. by rewrite !(u8_small (u8 _)) by apply u8_bound.
      * replace (dst + i) with (dst + 1 + (i - 1)) by lia. rewrite Hb, Hsrc by (destruct g; cbn in *; lia).
        f_equal. lia.
    + intros x Hx. rewrite Ho by lia. apply store8_ne. destruct g; cbn in Hx; lia.
Qed.

(** The string of [n] bytes at [va], with its NUL if [g], was copied to [dst]. *)
Definition string_copied (m m' : mem) (va dst n : Z) (g : bool) : Prop :=
  kernel_written m m' va dst (n + Z.b2z g) /\
  (forall i, 0 <= i < n -> load8 m' (dst + i) <> 0) /\ (g = true -> load8 m' (dst + n) = 0).

Lemma chunk_string m va dst max pa m' g dst' max' :
  0 <= va < 2 ^ 64 -> 0 < max -> va < MAXVA -> uframe (pmem s0) t (va / PGSIZE) = Some pa ->
  kernel_buffer dst max ->
  copyinstr_page m (pa + (va - PGROUNDDOWN va)) dst max (Z.to_nat (chunk va max)) = (m', g, dst', max') ->
  exists k, 0 <= k <= chunk va max /\ dst' = dst + k /\ max' = max - k /\ string_copied m m' va dst k g /\
    (if g then k < chunk va max else k = chunk va max).
Proof.
  intros Hva Hlen Hmax Hf Hb Hrun. destruct (chunk_spec va max Hva Hlen) as (Hoff & Hc & Hc' & _).
  rewrite Hoff in Hrun. pose proof (Z.mod_pos_bound va PGSIZE) as Hm.
  assert (forall i, 0 <= i < chunk va max -> uaddr (pmem s0) t (va + i) = Some (pa + va mod PGSIZE + i)) as Hua
    by (intros i Hi; apply uaddr_chunk; lia || done).
  apply copyinstr_page_ok in Hrun as (k & Hk & -> & -> & Hnz & Hg & Hbytes & Ho); rewrite ?Z2Nat.id in * by lia.
  2:{ intros i Hi Hin. apply (uaddr_kernel _ _ dst max Hb (Hua i Hi)). lia. }
  exists k. split_and!; [lia|lia|done|done| |destruct g; lia]. split_and!; [split|..].
  - intros i Hi. exists (pa + va mod PGSIZE + i). split; [apply Hua; destruct g; cbn in Hi; lia|].
    by apply Hbytes.
  - done.
  - intros i Hi. rewrite Hbytes by (destruct g; cbn; lia). by apply Hnz.
  - intros ->. rewrite Hbytes by (cbn; lia). apply Hg.
Qed.

Lemma string_copied_trans m1 m2 m3 va dst n k g :
  0 <= n -> 0 <= k -> kernel_buffer dst (n + (k + Z.b2z g)) ->
  string_copied m1 m2 va dst n false -> string_copied m2 m3 (va + n) (dst + n) k g ->
  string_copied m1 m3 va dst (n + k) g.
Proof.
  intros Hn Hk Hb (H1 & Hnz1 & _) (H2 & Hnz2 & Hg). cbn in H1. rewrite Z.add_0_r in H1. split_and!.
  - replace (n + k + Z.b2z g) with (n + (k + Z.b2z g)) by lia.
    eapply kernel_written_trans; [lia|destruct g; cbn; lia|exact Hb|exact H1|exact H2].
  - intros i Hi. destruct (Z.lt_ge_cases i n) as [Hin|Hin].
    + assert (load8 m3 (dst + i) = load8 m2 (dst + i)) as ->; [|by apply Hnz1; lia].
      unfold load8. f_equal. apply H2. lia.
    + replace (dst + i) with (dst + n + (i - n)) by lia. apply Hnz2. lia.
  - intros Hgt. replace (dst + (n + k)) with (dst + n + k) by lia. by apply Hg.
Qed.

Lemma copyinstr_loop_ok fuel : forall s dst va max,
  same_table (pmem s) -> 0 <= va < 2 ^ 64 -> 0 <= max -> kernel_dst dst max ->
  va mod PGSIZE + max <= PGSIZE * Z.of_nat fuel ->
  exists rv n g s', copyinstr_loop r dst va max (S fuel) s = Ok (rv, s') /\
    s' = set_pmem (pmem s') s /\ string_copied (pmem s) (pmem s') va dst n g /\
    (rv = 0 /\ g = true /\ 0 <= n < max \/
     rv = -1 /\ g = false /\ 0 <= n <= max /\ (n = max \/ uaddr (pmem s0) t (va + n) = None)).
Proof.
  assert (forall m va dst, string_copied m m va dst 0 false) as Hnil
    by (intros m va dst; split_and!; [split; [cbn; lia|done]|lia|done]).
  induction fuel as [|fuel IH]; intros s dst va max Hs Hva Hlen Hb Hf; cbn [copyinstr_loop].
  all: assert (0 < max \/ max = 0) as [Hpos| ->] by lia.
  1: pose proof (Z.mod_pos_bound va PGSIZE); klia.
  1,3: exists (-1), 0, false, s; split_and!; [done|by destruct s|done|right; auto with lia].
  rewrite (proj2 (Z.ltb_lt _ _) Hpos).
  destruct (walkaddr_page s va Hs Hva) as [(pa & Hw & Hmax & Hfr)|[Hw Hnone]]; mstep Hw.
  2:{ exists (-1), 0, false, s. split_and!; [done|by destruct s|done|right].
      split_and!; [done|done|lia..|]. rewrite Z.add_0_r. by right. }
  destruct (uframe_page _ _ Hfr) as (_ & _ & _ & Hnz). rewrite (proj2 (Z.eqb_neq _ _) Hnz).
  fold (chunk va max). destruct (chunk_spec va max Hva Hpos) as (_ & Hc & Hc' & Hnext). mcomp.
  destruct (copyinstr_page _ _ _ _ _) as [[[m' g] dst'] max'] eqn:Hpage.
  apply chunk_string in Hpage as (k & Hk & -> & -> & Hcp & Hg); [|done|done|done|done|apply Hb].
  mcomp. set (s1 := set_pmem m' s). destruct g.
  { exists 0, k, true, s1. split_and!; [done|done|exact Hcp|left]. split_and!; [done|done|lia..]. }
  assert (same_table (pmem s1)) as Hs1.
  { eapply (kernel_written_table (pmem s)); [|apply Hcp|done]. eapply kernel_dst_sub; [exact Hb|cbn; lia..]. }
  assert (exists rv n g s', copyinstr_loop r (dst + k) (u64 (PGROUNDDOWN va + PGSIZE)) (max - k) (S fuel) s1 = Ok (rv, s') /\
    s' = set_pmem (pmem s') s1 /\ string_copied (pmem s1) (pmem s') (va + k) (dst + k) n g /\
    (rv = 0 /\ g = true /\ 0 <= n < max - k \/
     rv = -1 /\ g = false /\ 0 <= n <= max - k /\ (n = max - k \/ uaddr (pmem s0) t (va + k + n) = None)))
    as (rv & n & g & s' & Hrun & Hs' & Hcp2 & Hres).
  { assert (kernel_dst (dst + k) (max - k)) as Hb1 by (eapply kernel_dst_sub; [exact Hb|lia..]).
    rewrite <- Hg in Hnext. destruct Hnext as [Hn|Hn].
    - exists (-1), 0, false, s1. replace (max - k) with 0 by lia.
      split_and!; [by destruct fuel|by destruct s1|done|right]. auto with lia.
    - change MAXVA with (2 ^ 38) in Hmax. rewrite <- Hn, u64_small by kdlia.
      rewrite PGROUNDDOWN_spec in Hn by done. apply IH; [done|kdlia|lia|done|kdlia]. }
  exists rv, (k + n), g, s'. split_and!; [exact Hrun|by rewrite Hs'| |].
  - eapply string_copied_trans; [lia|lia| |exact Hcp|exact Hcp2].
    eapply kernel_dst_sub; [exact Hb|lia|]. destruct g; cbn; lia.
  - destruct Hres as [(-> & -> & Hn)|(-> & -> & Hn & Hnone)]; [left; auto with lia|right].
    split_and!; [done|done|lia..|]. destruct Hnone as [->|Hnone]; [left; lia|right].
    by replace (va + (k + n)) with (va + k + n) by lia.
Qed.

End Space.

Lemma copyout_ok (s : phys) (l : list Z) (r : Z) (d t U : gmap Z Z) (dstva src len : Z)
    (Hinv : uvm_inv s l r d t U) (Honly : user_only (pmem s) t U)
    (Hva : 0 <= dstva < 2 ^ 64) (Hlen : 0 <= len < 2 ^ 64) (Hsrc : kernel_buffer U src len) :
  exists rv n s', copyout r dstva src len s = Ok (rv, s') /\
    s' = set_pmem (pmem s') s /\ user_written s t (pmem s) (pmem s') dstva src n /\
    (rv = 0 /\ n = len \/ rv = -1 /\ 0 <= n < len /\ uaddr (pmem s) t (dstva + n) = None).
Proof.
  unfold copyout. replace (Z.to_nat (len / PGSIZE + 3)) with (S (Z.to_nat (len / PGSIZE + 2))) by kdlia.
  apply (copyout_loop_ok s l r d t U); [done|done|done|done|lia|done|]. rewrite Z2Nat.id by kdlia. kdlia.
Qed.

(** C10. [copyout], for every user address and length: either it returns 0 and the
    [len] bytes at [src] are at the user addresses from [dstva], or it returns -1
    because the user cannot reach [dstva + n] for some [n < len], with the first
    [n] bytes copied. It writes only bytes the user can reach in that range. *)
Theorem copyout_correct (s : phys) (l : list Z) (r : Z) (d t U : gmap Z Z) (dstva src len : Z)
    (Hinv : uvm_inv s l r d t U) (Honly : user_only (pmem s) t U)
    (Hva : 0 <= dstva < 2 ^ 64) (Hlen : 0 <= len < 2 ^ 64) (Hsrc : kernel_buffer U src len) :
  exists rv n s', copyout r dstva src len s = Ok (rv, s') /\
    s' = set_pmem (pmem s') s /\ user_written s t (pmem s) (pmem s') dstva src n /\
    (rv = 0 /\ n = len \/ rv = -1 /\ 0 <= n < len /\ uaddr (pmem s) t (dstva + n) = None).
Proof. exact (copyout_ok s l r d t U dstva src len Hinv Honly Hva Hlen Hsrc). Qed.

Lemma copyin_ok (s : phys) (l : list Z) (r : Z) (d t U : gmap Z Z) (dst srcva len : Z)
    (Hinv : uvm_inv s l r d t U) (Honly : user_only (pmem s) t U)
    (Hva : 0 <= srcva < 2 ^ 64) (Hlen : 0 <= len < 2 ^ 64) (Hdst : kernel_dst r d t U dst len) :
  exists rv n s', copyin r dst srcva len s = Ok (rv, s') /\
    s' = set_pmem (pmem s') s /\ kernel_written s t (pmem s) (pmem s') srcva dst n /\
    (rv = 0 /\ n = len \/ rv = -1 /\ 0 <= n < len /\ uaddr (pmem s) t (srcva + n) = None).
Proof.
  unfold copyin. replace (Z.to_nat (len / PGSIZE + 3)) with (S (Z.to_nat (len / PGSIZE + 2))) by kdlia.
  apply (copyin_loop_ok s l r d t U); [done|done|done|done|lia|done|]. rewrite Z2Nat.id by kdlia. kdlia.
Qed.

(** [copyin], for every user address and length: either it returns 0 and the
    [len] bytes at the user addresses from [srcva] are at [dst], or it returns -1
    because the user cannot reach [srcva + n] for some [n < len], with the first
    [n] bytes copied. It changes no other byte. *)
Theorem copyin_correct (s : phys) (l : list Z) (r : Z) (d t U : gmap Z Z) (dst srcva len : Z)
    (Hinv : uvm_inv s l r d t U) (Honly : user_only (pmem s) t U)
    (Hva : 0 <= srcva < 2 ^ 64) (Hlen : 0 <= len < 2 ^ 64) (Hdst : kernel_dst r d t U dst len) :
  exists rv n s', copyin r dst srcva len s = Ok (rv, s') /\
    s' = set_pmem (pmem s') s /\ kernel_written s t (pmem s) (pmem s') srcva dst n /\
    (rv = 0 /\ n = len \/ rv = -1 /\ 0 <= n < len /\ uaddr (pmem s) t (srcva + n) = None).
Proof. exact (copyin_ok s l r d t U dst srcva len Hinv Honly Hva Hlen Hdst). Qed.

Lemma copyinstr_ok (s : phys) (l : list Z) (r : Z) (d t U : gmap Z Z) (dst srcva max : Z)
    (Hinv : uvm_inv s l r d t U) (Honly : user_only (pmem s) t U)
    (Hva : 0 <= srcva < 2 ^ 64) (Hlen : 0 <= max < 2 ^ 64) (Hdst : kernel_dst r d t U dst max) :
  exists rv n g s', copyinstr r dst srcva max s = Ok (rv, s') /\
    s' = set_pmem (pmem s') s /\ string_copied s t (pmem s) (pmem s') srcva dst n g /\
    (rv = 0 /\ g = true /\ 0 <= n < max \/
     rv = -1 /\ g = false /\ 0 <= n <= max /\ (n = max \/ uaddr (pmem s) t (srcva + n) = None)).
Proof.
  unfold copyinstr. replace (Z.to_nat (max / PGSIZE + 3)) with (S (Z.to_nat (max / PGSIZE + 2))) by kdlia.
  apply (copyinstr_loop_ok s l r d t U); [done|done|done|done|lia|done|]. rewrite Z2Nat.id by kdlia. kdlia.
Qed.

(** C11. [copyinstr], for every user address and [max]: it returns 0 exactly when
    it has copied a string of fewer than [max] non-NUL bytes and its NUL, and -1
    when it copied [max] bytes without a NUL or the user cannot reach the next
    one. It changes no byte outside the ones it copied. *)
Theorem copyinstr_correct (s : phys) (l : list Z) (r : Z) (d t U : gmap Z Z) (dst srcva max : Z)
    (Hinv : uvm_inv s l r d t U) (Honly : user_only (pmem s) t U)
    (Hva : 0 <= srcva < 2 ^ 64) (Hlen : 0 <= max < 2 ^ 64) (Hdst : kernel_dst r d t U dst max) :
  exists rv n g s', copyinstr r dst srcva max s = Ok (rv, s') /\
    s' = set_pmem (pmem s') s /\ string_copied s t (pmem s) (pmem s') srcva dst n g /\
    (rv = 0 /\ g = true /\ 0 <= n < max \/
     rv = -1 /\ g = false /\ 0 <= n <= max /\ (n = max \/ uaddr (pmem s) t (srcva + n) = None)).
Proof. exact (copyinstr_ok s l r d t U dst srcva max Hinv Honly Hva Hlen Hdst). Qed.
End UserMem.

(** ** Examples: two pages of user memory and a buffer below the kernel's pages *)

Section Demo.
#[local] Existing Instance demo_linker.

Lemma demo_user_only s t U :
  (forall i v, vpte (pmem s) t i = Some v -> U !! i = Some (PTE2PA v)) -> user_only (pmem s) t U.
Proof.
  intros H n pa. unfold uframe. destruct (vpte _ _ _) as [v|] eqn:E; [|done].
  destruct (has _ _); [|done]. intros [= <-]. auto.
Qed.

Lemma demo_kernel_dst s l r d t U : uvm_inv s l r d t U -> kernel_dst r d t U 0x2000 6000.
Proof.
  intros Hinv. pose proof (uvm_all_ok _ _ _ _ _ _ Hinv) as Hok. rewrite Forall_forall in Hok.
  split; intros i p Hi Hp Hin; (assert (page_ok p) as Hb; [apply Hok; rewrite !elem_of_app; auto|]);
    apply page_ok_bounds in Hb; unfold in_page in Hin; klia.
Qed.

Lemma copyout_correct_witness :
  exists s l r d t U, uvm_inv s l r d t U /\ exists rv s', copyout r 100 0x2000 6000 s = Ok (rv, s').
Proof.
  destruct demo_space as (s & l & r & d & t & U & Hinv & _ & _ & Honly).
  exists s, l, r, d, t, U. split; [exact Hinv|].
  destruct (copyout_correct s l r d t U 100 0x2000 6000 Hinv (demo_user_only _ _ _ Honly) ltac:(lia) ltac:(lia)
    (proj1 (demo_kernel_dst _ _ _ _ _ _ Hinv))) as (rv & n & s' & Hrun & _).
  exists rv, s'. exact Hrun.
Defined.

Lemma copyin_correct_witness :
  exists s l r d t U, uvm_inv s l r d t U /\ exists rv s', copyin r 0x2000 100 6000 s = Ok (rv, s').
Proof.
  destruct demo_space as (s & l & r & d & t & U & Hinv & _ & _ & Honly).
  exists s, l, r, d, t, U. split; [exact Hinv|].
  destruct (copyin_correct s l r d t U 0x2000 100 6000 Hinv (demo_user_only _ _ _ Honly) ltac:(lia) ltac:(lia)
    (demo_kernel_dst _ _ _ _ _ _ Hinv)) as (rv & n & s' & Hrun & _).
  exists rv, s'. exact Hrun.
Defined.

Lemma copyinstr_correct_witness :
  exists s l r d t U, uvm_inv s l r d t U /\ exists rv s', copyinstr r 0x2000 100 6000 s = Ok (rv, s').
Proof.
  destruct demo_space as (s & l & r & d & t & U & Hinv & _ & _ & Honly).
  exists s, l, r, d, t, U. split; [exact Hinv|].
  destruct (copyinstr_correct s l r d t U 0x2000 100 6000 Hinv (demo_user_only _ _ _ Honly) ltac:(lia) ltac:(lia)
    (demo_kernel_dst _ _ _ _ _ _ Hinv)) as (rv & n & g & s' & Hrun & _).
  exists rv, s'. exact Hrun.
Defined.
End Demo.
