(* ===== verification/Spinlock.v ===== *)
(** * Spin locks, [kernel/spinlock.c]

    [push_off]/[pop_off], [acquire], [release] and [holding] over the per-CPU
    state of [struct cpu] and the interrupt-enable bit of each hart.  [acquire]
    and [release] are also split at the points where other harts can run: the
    step relation [lstep] interleaves the harts at that grain around critical
    sections that consist of single accesses to shared data.  The theorems give
    mutual exclusion, and that every interleaving has the effect of the critical
    sections executed one after the other in the order of their acquisitions:
    the reason why the other files model a critical section as one step. *)

From S2P Require Import Prelude Riscv.

(** The fields of [struct cpu] that the locks use, and [sstatus.SIE]. *)
Record cpu := Cpu { noff : Z; intena : bool; intr : bool }.

(** [lkcpu]: the index of [lk->cpu] in [cpus], or [None] for 0. *)
Record spinlock := Spinlock { locked : Z; lkcpu : option Z }.

Record smp := Smp { cpus : Z -> cpu; locks : Z -> spinlock }.

Definition set_cpu (h : Z) (c : cpu) (s : smp) : smp := Smp (upd (cpus s) h c) (locks s).
Definition set_lock (lk : Z) (l : spinlock) (s : smp) : smp := Smp (cpus s) (upd (locks s) lk l).

Section Ops.
(** The hart that executes, [r_tp()]. *)
Variable h : Z.

Definition initlock (lk : Z) : M smp unit := modify (set_lock lk (Spinlock 0 None)).

Definition push_off : M smp unit :=
  let! c := gets (fun s => cpus s h) in
  let old := intr c in
  let c1 := Cpu (noff c) (intena c) false in
  let c2 := if noff c1 =? 0 then Cpu (noff c1) old (intr c1) else c1 in
  modify (set_cpu h (Cpu (i32 (noff c2 + 1)) (intena c2) (intr c2))).

Definition pop_off : M smp unit :=
  let! c := gets (fun s => cpus s h) in
  panic_if (intr c) "pop_off - interruptible" ;;
  panic_if (noff c <? 1) "pop_off" ;;
  let n := noff c - 1 in
  modify (set_cpu h (Cpu n (intena c) (if (n =? 0) && intena c then true else intr c))).

Definition holding (lk : Z) : M smp bool :=
  gets (fun s => negb (locked (locks s lk) =? 0) && bool_decide (lkcpu (locks s lk) = Some h)).

(** [acquire] up to the loop, one test-and-set, and the end of [acquire]. *)
Definition acquire_enter (lk : Z) : M smp unit :=
  push_off ;;
  let! r := holding lk in
  panic_if r "acquire".

Definition test_and_set (lk : Z) : M smp Z :=
  let! l := gets (fun s => locks s lk) in
  modify (set_lock lk (Spinlock 1 (lkcpu l))) ;;
  ret (locked l).

Definition acquire_mark (lk : Z) : M smp unit :=
  modify (fun s => set_lock lk (Spinlock (locked (locks s lk)) (Some h)) s).

Definition acquire (lk : Z) : M smp unit :=
  acquire_enter lk ;;
  let! old := test_and_set lk in
  if negb (old =? 0) then blocked else acquire_mark lk.

(** [release] up to the clearing of [lk->cpu], and the store that unlocks. *)
Definition release_unmark (lk : Z) : M smp unit :=
  let! r := holding lk in
  panic_if (negb r) "release" ;;
  modify (fun s => set_lock lk (Spinlock (locked (locks s lk)) None) s).

Definition lock_release (lk : Z) : M smp unit :=
  modify (fun s => set_lock lk (Spinlock 0 (lkcpu (locks s lk))) s).

Definition release (lk : Z) : M smp unit :=
  release_unmark lk ;;
  lock_release lk ;;
  pop_off.
End Ops.

(** ** Matched [push_off] and [pop_off] *)

Inductive offop := Push | Pop.

Definition run_offop (h : Z) (o : offop) : M smp unit :=
  match o with Push => push_off h | Pop => pop_off h end.

(** The nesting depth after [ops] from depth [n], if they never pop more than they
    have pushed. *)
Fixpoint depth (n : nat) (ops : list offop) : option nat :=
  match ops with
  | [] => Some n
  | Push :: ops' => depth (S n) ops'
  | Pop :: ops' => match n with O => None | S k => depth k ops' end
  end.

Lemma cpus_set_eq h c s : cpus (set_cpu h c s) h = c.
Proof. apply upd_eq. Qed.

Lemma cpus_set_ne h h' c s : h' <> h -> cpus (set_cpu h c s) h' = cpus s h'.
Proof. apply upd_ne. Qed.

Lemma locks_set_eq lk l s : locks (set_lock lk l s) lk = l.
Proof. apply upd_eq. Qed.

(** [push_off] and [pop_off] on a CPU at depth [n] whose interrupts were [b] at
    depth 0. *)
Definition at_depth (c : cpu) (n : Z) (b : bool) : Prop :=
  noff c = n /\ (if n =? 0 then intr c = b else intena c = b /\ intr c = false).

Lemma push_off_depth h s n b :
  at_depth (cpus s h) n b -> 0 <= n < 2 ^ 31 - 1 ->
  exists c, push_off h s = Ok (tt, set_cpu h c s) /\ at_depth c (n + 1) b.
Proof.
  intros [Hn Hi] Hb. unfold push_off. mcomp. eexists. split; [reflexivity|]. unfold at_depth.
  rewrite (proj2 (Z.eqb_neq (n + 1) 0)) by lia. cbn [noff intena intr]. rewrite Hn.
  destruct (Z.eqb_spec n 0); cbn [noff intena intr]; rewrite i32_small by lia.
  - subst. auto.
  - destruct Hi. auto.
Qed.

Lemma pop_off_depth h s n b :
  at_depth (cpus s h) n b -> 0 < n ->
  exists c, pop_off h s = Ok (tt, set_cpu h c s) /\ at_depth c (n - 1) b.
Proof.
  intros [Hn Hi] Hb. rewrite (proj2 (Z.eqb_neq n 0)) in Hi by lia. destruct Hi as [Hi Hf].
  unfold pop_off. mcomp. rewrite Hf, Hn, (proj2 (Z.ltb_ge n 1)) by lia. mcomp. mcomp.
  eexists. split; [reflexivity|]. unfold at_depth. cbn [noff intena intr]. split; [done|].
  rewrite Hi. destruct (n - 1 =? 0); [by destruct b|done].
Qed.

Lemma depth_run ops : forall n m h s b,
  depth n ops = Some m -> at_depth (cpus s h) (Z.of_nat n) b ->
  Z.of_nat n + Z.of_nat (length ops) < 2 ^ 31 ->
  exists s', mfor ops (run_offop h) s = Ok (tt, s') /\ at_depth (cpus s' h) (Z.of_nat m) b /\
    locks s' = locks s /\ forall h', h' <> h -> cpus s' h' = cpus s h'.
Proof.
  induction ops as [|o ops IH]; intros n m h s b Hm Hd Hb; cbn [depth mfor] in *.
  { injection Hm as <-. by exists s. }
  assert (exists c k, run_offop h o s = Ok (tt, set_cpu h c s) /\ at_depth c (Z.of_nat k) b /\
    depth k ops = Some m /\ Z.of_nat k <= Z.of_nat n + 1) as (c & k & Hrun & Hc & Hk & Hkn).
  { destruct o; cbn [run_offop length] in *.
    - destruct (push_off_depth h s (Z.of_nat n) b Hd) as (c & Hrun & Hc); [lia|].
      exists c, (S n). split_and!; [done| |done|lia]. by replace (Z.of_nat (S n)) with (Z.of_nat n + 1) by lia.
    - destruct n as [|n]; [done|].
      destruct (pop_off_depth h s (Z.of_nat (S n)) b Hd) as (c & Hrun & Hc); [lia|].
      exists c, n. split_and!; [done| |done|lia]. by replace (Z.of_nat n) with (Z.of_nat (S n) - 1) by lia. }
  mstep Hrun. cbn [length] in Hb.
  destruct (IH k m h (set_cpu h c s) b Hk) as (s' & Hr & Hs & Hl & Ho); [by rewrite cpus_set_eq|lia|].
  exists s'. split_and!; [done|done|done|]. intros h' Hne. by rewrite Ho, cpus_set_ne.
Qed.

Lemma depth_bound ops : forall n m, depth n ops = Some m -> Z.of_nat m <= Z.of_nat n + Z.of_nat (length ops).
Proof.
  induction ops as [|[] ops IH]; intros n m; cbn [depth length].
  - intros [= ->]. lia.
  - intros H%IH. lia.
  - destruct n; [done|]. intros H%IH. lia.
Qed.

(** Matched [push_off]s and [pop_off]s never panic; at a depth above 0
    interrupts are off, and back at depth 0 they are as they were before the
    first [push_off]. *)
Theorem push_pop_matched (h : Z) (s : smp) (ops1 ops2 : list offop) (n : nat)
    (H0 : noff (cpus s h) = 0) (H1 : depth 0 ops1 = Some n) (H2 : depth n ops2 = Some O)
    (Hlen : Z.of_nat (length ops1) + Z.of_nat (length ops2) < 2 ^ 30) :
  exists s1 s2, mfor ops1 (run_offop h) s = Ok (tt, s1) /\ mfor ops2 (run_offop h) s1 = Ok (tt, s2) /\
    noff (cpus s1 h) = Z.of_nat n /\ (n <> O -> intr (cpus s1 h) = false) /\
    noff (cpus s2 h) = 0 /\ intr (cpus s2 h) = intr (cpus s h).
Proof.
  destruct (depth_run ops1 0 n h s (intr (cpus s h)) H1) as (s1 & Hr1 & Hd1 & _); [done|lia|].
  assert (Z.of_nat n <= Z.of_nat (length ops1)) as Hn by (by apply (depth_bound ops1 0)).
  destruct (depth_run ops2 n 0 h s1 (intr (cpus s h)) H2 Hd1) as (s2 & Hr2 & Hd2 & _); [lia|].
  exists s1, s2. destruct Hd1 as [Hn1 Hi1], Hd2 as [Hn2 Hi2]. split_and!; try done.
  intros Hne. rewrite (proj2 (Z.eqb_neq _ _)) in Hi1 by lia. apply Hi1.
Qed.

Lemma push_pop_matched_witness :
  exists s1 s2, mfor [Push; Push; Pop] (run_offop 3) (Smp (fun _ => Cpu 0 false true) (fun _ => Spinlock 0 None)) = Ok (tt, s1) /\
    mfor [Pop] (run_offop 3) s1 = Ok (tt, s2) /\ intr (cpus s2 3) = true.
Proof.
  destruct (push_pop_matched 3 (Smp (fun _ => Cpu 0 false true) (fun _ => Spinlock 0 None))
    [Push; Push; Pop] [Pop] 1 eq_refl eq_refl eq_refl ltac:(by vm_compute))
    as (s1 & s2 & H1 & H2 & _ & _ & _ & H3).
  exists s1, s2. split; [exact H1|]. split; [exact H2|]. exact H3.
Defined.

(** ** Harts that interleave at the grain of memory accesses *)

Section Interleaving.
(** The data that lock [lk] protects; a critical section is a list of accesses. *)
Context {D : Type}.
Variable lk : Z.
Implicit Types (ops : list (D -> D)) (h : Z).

(** Where a hart is: outside; in the loop of [acquire]; after the test-and-set that
    got the lock; in the critical section, with its remaining accesses; before the
    unlocking store of [release]; before [pop_off]. *)
Inductive pc :=
  | Idle
  | Spin (ops : list (D -> D))
  | Mark (ops : list (D -> D))
  | Crit (ops : list (D -> D))
  | Unlock
  | PopOff.

(** [w_order]: the critical sections in the order in which they got the lock. *)
Record world := World { w_smp : smp; w_pc : Z -> pc; w_data : D; w_order : list (list (D -> D)) }.

Inductive lstep : world -> world -> Prop :=
  | ls_enter h ops s s' p d o :
      p h = Idle -> acquire_enter h lk s = Ok (tt, s') ->
      lstep (World s p d o) (World s' (upd p h (Spin ops)) d o)
  | ls_spin h ops s s' old p d o :
      p h = Spin ops -> test_and_set lk s = Ok (old, s') -> old <> 0 ->
      lstep (World s p d o) (World s' p d o)
  | ls_got h ops s s' p d o :
      p h = Spin ops -> test_and_set lk s = Ok (0, s') ->
      lstep (World s p d o) (World s' (upd p h (Mark ops)) d (o ++ [ops]))
  | ls_mark h ops s s' p d o :
      p h = Mark ops -> acquire_mark h lk s = Ok (tt, s') ->
      lstep (World s p d o) (World s' (upd p h (Crit ops)) d o)
  | ls_access h f ops s p d o :
      p h = Crit (f :: ops) ->
      lstep (World s p d o) (World s (upd p h (Crit ops)) (f d) o)
  | ls_unmark h s s' p d o :
      p h = Crit [] -> release_unmark h lk s = Ok (tt, s') ->
      lstep (World s p d o) (World s' (upd p h Unlock) d o)
  | ls_unlock h s s' p d o :
      p h = Unlock -> lock_release lk s = Ok (tt, s') ->
      lstep (World s p d o) (World s' (upd p h PopOff) d o)
  | ls_pop h s s' p d o :
      p h = PopOff -> pop_off h s = Ok (tt, s') ->
      lstep (World s p d o) (World s' (upd p h Idle) d o).

(** The lock is free and every hart is outside with its counter at 0. *)
Definition lock_init (w : world) : Prop :=
  locks (w_smp w) lk = Spinlock 0 None /\ (forall h, w_pc w h = Idle /\ noff (cpus (w_smp w) h) = 0) /\
  w_order w = [].

Definition run_ops (d : D) ops : D := foldl (fun d f => f d) d ops.

(** The critical sections one after the other. *)
Definition serial (d : D) (o : list (list (D -> D))) : D := foldl run_ops d o.

Definition in_lock (p : pc) : bool :=
  match p with Mark _ | Crit _ | Unlock => true | _ => false end.
Definition remaining (p : pc) : list (D -> D) :=
  match p with Mark ops | Crit ops => ops | _ => [] end.
Definition pc_depth (p : pc) : Z := match p with Idle => 0 | _ => 1 end.

(** [owner]: the hart that has the lock. *)
Record lock_inv (d0 : D) (b0 : Z -> bool) (w : world) (owner : option Z) : Prop := {
  li_owner h : in_lock (w_pc w h) = true <-> owner = Some h;
  li_locked : locked (locks (w_smp w) lk) = match owner with Some _ => 1 | None => 0 end;
  li_cpu h : lkcpu (locks (w_smp w) lk) = Some h <-> exists ops, w_pc w h = Crit ops;
  li_data : serial d0 (w_order w) =
    match owner with Some h => run_ops (w_data w) (remaining (w_pc w h)) | None => w_data w end;
  li_depth h : at_depth (cpus (w_smp w) h) (pc_depth (w_pc w h)) (b0 h);
}.

Lemma lock_init_inv w :
  lock_init w -> lock_inv (w_data w) (fun h => intr (cpus (w_smp w) h)) w None.
Proof.
  intros (Hl & Hh & Ho). split.
  - intros h. by rewrite (proj1 (Hh h)).
  - by rewrite Hl.
  - intros h. rewrite Hl, (proj1 (Hh h)). cbn. split; [done|]. by intros [? ?].
  - by rewrite Ho.
  - intros h. destruct (Hh h) as [-> Hn]. done.
Qed.

Lemma in_lock_upd p h q owner :
  (forall i, in_lock (p i) = true <-> owner = Some i) -> in_lock q = in_lock (p h) ->
  forall i, in_lock (upd p h q i) = true <-> owner = Some i.
Proof. intros H Hq i. unfold upd. destruct (Z.eqb_spec i h) as [->|]; [by rewrite Hq|done]. Qed.

Lemma holding_owner d0 b0 w owner h :
  lock_inv d0 b0 w owner ->
  exists r, holding h lk (w_smp w) = Ok (r, w_smp w) /\ (r = true <-> exists ops, w_pc w h = Crit ops).
Proof.
  intros Hinv. eexists. split; [reflexivity|]. rewrite <- (li_cpu _ _ _ _ Hinv h), andb_true_iff, bool_decide_eq_true.
  split; [by intros [_ ?]|]. intros Hc. split; [|done]. apply (li_cpu _ _ _ _ Hinv) in Hc as [ops Hops].
  assert (owner = Some h) as -> by (apply (li_owner _ _ _ _ Hinv); by rewrite Hops).
  by rewrite (li_locked _ _ _ _ Hinv).
Qed.

(** What [acquire_enter] and [pop_off] do to a hart at the right depth. *)
Lemma acquire_enter_ok d0 b0 w owner h :
  lock_inv d0 b0 w owner -> w_pc w h = Idle ->
  exists c, acquire_enter h lk (w_smp w) = Ok (tt, set_cpu h c (w_smp w)) /\ at_depth c 1 (b0 h).
Proof.
  intros Hinv Hpc. pose proof (li_depth _ _ _ _ Hinv h) as Hd. rewrite Hpc in Hd.
  destruct (push_off_depth h (w_smp w) 0 (b0 h) Hd) as (c & Hrun & Hc); [lia|]. exists c. split; [|done].
  unfold acquire_enter. mstep Hrun. unfold holding. mcomp. cbn [locks set_cpu].
  destruct (holding_owner _ _ _ _ h Hinv) as (r & Hr & Hrt). injection Hr as <-.
  destruct (_ && _); [|done]. destruct (proj1 Hrt eq_refl) as [ops Hops]. congruence.
Qed.

Lemma pop_off_ok d0 b0 w owner h :
  lock_inv d0 b0 w owner -> w_pc w h = PopOff ->
  exists c, pop_off h (w_smp w) = Ok (tt, set_cpu h c (w_smp w)) /\ at_depth c 0 (b0 h).
Proof.
  intros Hinv Hpc. pose proof (li_depth _ _ _ _ Hinv h) as Hd. rewrite Hpc in Hd.
  destruct (pop_off_depth h (w_smp w) 1 (b0 h) Hd) as (c & Hrun & Hc); [lia|]. by exists c.
Qed.

Lemma release_unmark_ok d0 b0 w owner h ops :
  lock_inv d0 b0 w owner -> w_pc w h = Crit ops ->
  release_unmark h lk (w_smp w) = Ok (tt, set_lock lk (Spinlock 1 None) (w_smp w)).
Proof.
  intros Hinv Hpc. destruct (holding_owner _ _ _ _ h Hinv) as (r & Hr & Hrt).
  unfold release_unmark. mstep Hr. rewrite (proj2 Hrt) by eauto. mcomp. unfold modify.
  assert (owner = Some h) as -> by (apply (li_owner _ _ _ _ Hinv); by rewrite Hpc).
  by rewrite (li_locked _ _ _ _ Hinv).
Qed.

Lemma serial_snoc d o ops : serial d (o ++ [ops]) = run_ops (serial d o) ops.
Proof. unfold serial. by rewrite foldl_app. Qed.

(** The data clause when hart [h] moves without leaving or entering the lock. *)
Lemma owner_data (p : Z -> pc) h q owner (d d' : D) :
  (forall i, in_lock (p i) = true <-> owner = Some i) -> in_lock q = in_lock (p h) ->
  (in_lock q = true -> run_ops d' (remaining q) = run_ops d (remaining (p h))) ->
  (in_lock q = false -> d' = d) ->
  match owner with Some i => run_ops d' (remaining (upd p h q i)) | None => d' end =
  match owner with Some i => run_ops d (remaining (p i)) | None => d end.
Proof.
  intros Ho Hq Ht Hf. destruct (in_lock q) eqn:E.
  - assert (owner = Some h) as -> by (apply Ho; congruence). rewrite upd_eq. auto.
  - rewrite Hf by done. destruct owner as [i|]; [|done]. rewrite upd_ne; [done|].
    intros ->. assert (in_lock (p h) = true) by (by apply Ho). congruence.
Qed.

Lemma depth_upd (c0 : Z -> cpu) (p : Z -> pc) b0 h c q :
  (forall i, at_depth (c0 i) (pc_depth (p i)) (b0 i)) -> at_depth c (pc_depth q) (b0 h) ->
  forall i, at_depth (upd c0 h c i) (pc_depth (upd p h q i)) (b0 i).
Proof. intros H Hc i. unfold upd. by destruct (Z.eqb_spec i h) as [->|]. Qed.

Lemma depth_upd_pc (c0 : Z -> cpu) (p : Z -> pc) b0 h q :
  (forall i, at_depth (c0 i) (pc_depth (p i)) (b0 i)) -> pc_depth q = pc_depth (p h) ->
  forall i, at_depth (c0 i) (pc_depth (upd p h q i)) (b0 i).
Proof. intros H Hq i. unfold upd. destruct (Z.eqb_spec i h) as [->|]; [by rewrite Hq|done]. Qed.

(** Only the hart that moves to or from [Crit] changes whose lock it is. *)
Lemma crit_upd (p : Z -> pc) h q (o : option Z) :
  (forall i, o = Some i <-> exists ops, p i = Crit ops) ->
  ((exists ops, q = Crit ops) <-> exists ops, p h = Crit ops) ->
  forall i, o = Some i <-> exists ops, upd p h q i = Crit ops.
Proof. intros H Hq i. unfold upd. destruct (Z.eqb_spec i h) as [->|]; [by rewrite H, Hq|done]. Qed.

(** A hart moves without touching the lock. *)
Lemma local_move d0 b0 s p d o owner h q d' (c' : Z -> cpu) :
  lock_inv d0 b0 (World s p d o) owner -> in_lock q = in_lock (p h) ->
  ((exists ops, q = Crit ops) <-> exists ops, p h = Crit ops) ->
  (in_lock q = true -> run_ops d' (remaining q) = run_ops d (remaining (p h))) ->
  (in_lock q = false -> d' = d) ->
  (forall i, at_depth (c' i) (pc_depth (upd p h q i)) (b0 i)) ->
  lock_inv d0 b0 (World (Smp c' (locks s)) (upd p h q) d' o) owner.
Proof.
  intros [Ho Hl Hc Hd Hdep] Hq Hcr H1 H2 Hdep'. split; cbn [w_smp w_pc w_data w_order cpus locks] in *.
  - by apply in_lock_upd.
  - done.
  - by apply crit_upd.
  - rewrite Hd. symmetry. by apply owner_data.
  - done.
Qed.

(** The hart [h] that has the lock moves inside it and sets [lk->cpu]. *)
Lemma owner_move d0 b0 s p d o h q cpu' :
  lock_inv d0 b0 (World s p d o) (Some h) -> in_lock q = true -> remaining q = remaining (p h) ->
  cpu' = (match q with Crit _ => Some h | _ => None end) -> pc_depth q = pc_depth (p h) ->
  lock_inv d0 b0 (World (set_lock lk (Spinlock 1 cpu') s) (upd p h q) d o) (Some h).
Proof.
  intros [Ho Hl Hc Hd Hdep] Hq Hr -> Hpd. assert (in_lock (p h) = true) as Hph by (by apply Ho).
  split; cbn [w_smp w_pc w_data w_order cpus locks set_lock] in *.
  - by apply in_lock_upd; [|congruence].
  - by rewrite upd_eq.
  - rewrite upd_eq. intros i. cbn [lkcpu]. unfold upd. destruct (Z.eqb_spec i h) as [->|Hne].
    + destruct q; split; try done; try (by intros [? ?]); eauto.
    + split; [by destruct q; intros [=]|]. intros [ops Hi].
      assert (Some h = Some i) by (apply Ho; by rewrite Hi). congruence.
  - by rewrite upd_eq, Hr.
  - by apply depth_upd_pc.
Qed.

(** [h] gets the lock, and [h] gives it up. *)
Lemma got_move d0 b0 s p d o h ops :
  lock_inv d0 b0 (World s p d o) None -> p h = Spin ops ->
  lock_inv d0 b0 (World (set_lock lk (Spinlock 1 (lkcpu (locks s lk))) s) (upd p h (Mark ops)) d (o ++ [ops])) (Some h).
Proof.
  intros [Ho Hl Hc Hd Hdep] Hp. split; cbn [w_smp w_pc w_data w_order cpus locks set_lock] in *.
  - intros i. unfold upd. destruct (Z.eqb_spec i h) as [->|]; [done|]. rewrite Ho. split; congruence.
  - by rewrite upd_eq.
  - rewrite upd_eq. apply crit_upd; [done|]. rewrite Hp. split; by intros [? ?].
  - by rewrite upd_eq, serial_snoc, Hd.
  - by apply depth_upd_pc; [|rewrite Hp].
Qed.

Lemma unlock_move d0 b0 s p d o h :
  lock_inv d0 b0 (World s p d o) (Some h) -> p h = Unlock ->
  lock_inv d0 b0 (World (set_lock lk (Spinlock 0 (lkcpu (locks s lk))) s) (upd p h PopOff) d o) None.
Proof.
  intros [Ho Hl Hc Hd Hdep] Hp. split; cbn [w_smp w_pc w_data w_order cpus locks set_lock] in *.
  - intros i. unfold upd. destruct (Z.eqb_spec i h) as [->|Hne]; [done|]. rewrite Ho. split; congruence.
  - by rewrite upd_eq.
  - rewrite upd_eq. apply crit_upd; [done|]. rewrite Hp. split; by intros [? ?].
  - by rewrite Hd, Hp.
  - by apply depth_upd_pc; [|rewrite Hp].
Qed.

Ltac no_crit Hp := rewrite Hp; split; by intros [? ?].

Lemma lstep_inv d0 b0 w w' owner :
  lstep w w' -> lock_inv d0 b0 w owner -> exists owner', lock_inv d0 b0 w' owner'.
Proof.
  intros Hst Hinv. pose proof (li_owner _ _ _ _ Hinv) as Ho. pose proof (li_depth _ _ _ _ Hinv) as Hdep.
  pose proof (li_locked _ _ _ _ Hinv) as Hl.
  destruct Hst as
    [h ops s s' p d o Hp Hrun|h ops s s' old p d o Hp Hrun Hold|h ops s s' p d o Hp Hrun
    |h ops s s' p d o Hp Hrun|h f ops s p d o Hp|h s s' p d o Hp Hrun|h s s' p d o Hp Hrun|h s s' p d o Hp Hrun];
    cbn [w_smp w_pc w_data w_order] in *;
    try (assert (owner = Some h) as -> by (apply Ho; by rewrite Hp)).
  - destruct (acquire_enter_ok _ _ _ _ h Hinv Hp) as (c & Hr & Hcd). cbn [w_smp] in Hr. rewrite Hrun in Hr. injection Hr as ->.
    exists owner. apply (local_move _ _ _ _ d); [done|by rewrite Hp|no_crit Hp|done|done|by apply depth_upd].
  - injection Hrun as <- <-. exists owner. destruct owner as [i|]; [|done]. rewrite <- Hl.
    destruct Hinv as [_ _ Hc Hd _]. split; cbn [w_smp w_pc w_data w_order cpus locks set_lock]; rewrite ?upd_eq; done.
  - injection Hrun as Hz <-. destruct owner as [h'|]; [by rewrite Hl in Hz|]. exists (Some h). by apply got_move.
  - injection Hrun as <-. rewrite Hl. exists (Some h). by apply owner_move; rewrite ?Hp.
  - exists (Some h). destruct s as [c0 l0]. apply (local_move _ _ (Smp c0 l0) _ d); rewrite ?Hp; try done; [split; eauto|].
    by apply depth_upd_pc; [|rewrite Hp].
  - pose proof (release_unmark_ok _ _ _ _ h _ Hinv Hp) as Hr. cbn [w_smp] in Hr. rewrite Hr in Hrun.
    injection Hrun as <-. exists (Some h).
    by apply owner_move; rewrite ?Hp.
  - injection Hrun as <-. exists None. by apply unlock_move.
  - destruct (pop_off_ok _ _ _ _ h Hinv Hp) as (c & Hr & Hcd). cbn [w_smp] in Hr. rewrite Hrun in Hr. injection Hr as ->.
    exists owner. apply (local_move _ _ _ _ d); [done|by rewrite Hp|no_crit Hp|done|done|by apply depth_upd].
Qed.

(** A hart whose next operation panics. *)
Definition lpanics (w : world) : Prop := exists h e,
  (w_pc w h = Idle /\ acquire_enter h lk (w_smp w) = Panic e) \/
  (w_pc w h = Crit [] /\ release_unmark h lk (w_smp w) = Panic e) \/
  (w_pc w h = PopOff /\ pop_off h (w_smp w) = Panic e).

(** C13. Harts that run [acquire], a critical section and [release], interleaved in
    any way: at most one is in its critical section, with its interrupts off;
    [holding] is true on that hart only; no hart panics; and when no hart is in
    the lock, the data is what the critical sections give one after the other. *)
Theorem spinlock_serializes (w0 w : world) (Hinit : lock_init w0) (Hr : rtc lstep w0 w) :
  ~ lpanics w /\
  (forall h h' ops ops', w_pc w h = Crit ops -> w_pc w h' = Crit ops' -> h = h') /\
  (forall h, exists r, holding h lk (w_smp w) = Ok (r, w_smp w) /\ (r = true <-> exists ops, w_pc w h = Crit ops)) /\
  (forall h ops, w_pc w h = Crit ops -> intr (cpus (w_smp w) h) = false) /\
  ((forall h, in_lock (w_pc w h) = false) -> w_data w = serial (w_data w0) (w_order w)).
Proof.
  assert (exists owner, lock_inv (w_data w0) (fun h => intr (cpus (w_smp w0) h)) w owner) as [owner Hinv].
  { apply lock_init_inv in Hinit. revert Hinit. generalize (fun h => intr (cpus (w_smp w0) h)) as b0.
    generalize (w_data w0) as d0. generalize (@None Z) as owner.
    induction Hr as [w|w1 w2 w3 Hst _ IH]; intros owner d0 b0 Hi; [eauto|].
    destruct (lstep_inv _ _ _ _ _ Hst Hi) as [owner' Hi']. eauto. }
  split_and!.
  - intros (h & e & [[Hp He]|[[Hp He]|[Hp He]]]).
    + destruct (acquire_enter_ok _ _ _ _ h Hinv Hp) as (c & Hok & _). congruence.
    + by rewrite (release_unmark_ok _ _ _ _ h _ Hinv Hp) in He.
    + destruct (pop_off_ok _ _ _ _ h Hinv Hp) as (c & Hok & _). congruence.
  - intros h h' ops ops' H1 H2.
    assert (owner = Some h) as E by (apply (li_owner _ _ _ _ Hinv); by rewrite H1).
    assert (owner = Some h') as E' by (apply (li_owner _ _ _ _ Hinv); by rewrite H2). congruence.
  - intros h. by eapply holding_owner.
  - intros h ops Hp. pose proof (li_depth _ _ _ _ Hinv h) as [_ Hd]. rewrite Hp in Hd. apply Hd.
  - intros Hfree. rewrite (li_data _ _ _ _ Hinv). destruct owner as [h|]; [|done].
    assert (in_lock (w_pc w h) = true) by (by apply (li_owner _ _ _ _ Hinv)). rewrite Hfree in *. done.
Qed.
End Interleaving.

(** One hart has entered its critical section, which increments the data, while
    another spins. *)
Lemma spinlock_serializes_witness :
  let w0 := World (Smp (fun _ => Cpu 0 false true) (fun _ => Spinlock 0 None)) (fun _ => Idle) 0 [] in
  lock_init 5 w0 /\ exists w, rtc (lstep 5) w0 w /\ w_data w = 1 /\ ~ lpanics 5 w.
Proof.
  intros w0. assert (lock_init 5 w0) as Hinit by (split_and!; done). split; [exact Hinit|].
  assert (exists w, rtc (lstep 5) w0 w /\ w_data w = 1) as (w & Hr & Hd).
  { eexists. split.
    - eapply rtc_l. { apply (ls_enter 5 1 [Z.succ]); [reflexivity|vm_compute; reflexivity]. }
      eapply rtc_l. { apply (ls_enter 5 2 [Z.pred]); [reflexivity|vm_compute; reflexivity]. }
      eapply rtc_l. { apply (ls_got 5 1 [Z.succ]); [reflexivity|vm_compute; reflexivity]. }
      eapply rtc_l. { eapply (ls_spin 5 2 [Z.pred] _ _ 1); [reflexivity|vm_compute; reflexivity|discriminate]. }
      eapply rtc_l. { apply (ls_mark 5 1 [Z.succ]); [reflexivity|vm_compute; reflexivity]. }
      eapply rtc_l. { apply (ls_access 5 1 Z.succ []). reflexivity. }
      apply rtc_refl.
    - reflexivity. }
  exists w. split; [exact Hr|]. split; [exact Hd|]. apply (spinlock_serializes 5 w0 w Hinit Hr).
Defined.
