(* ===== verification/Cache.v ===== *)
(** * What the block cache promises to its clients

    [acache] is the abstract cache: the disk, the contents of every block as
    readers see it, the disk writes so far, the reference counts (32-bit, as
    [b->refcnt]) and the buffers that the running process has locked.  The class
    [BlockCache] names the operations of [kernel/bio.c] that clients call and
    [BlockCacheOk] states their effect on the abstract cache.  [Bio] proves it of
    the code; [Log] uses nothing else. *)

From S2P Require Import Prelude Riscv.

Definition BSIZE : Z := 1024.

Abbreviation block := (list Z).

Record acache := ACache {
  a_disk : Z -> block;
  a_view : Z -> block;
  a_writes : list (Z * block);
  a_refs : Z -> Z;
  a_held : gmap Z Z;   (* locked buffer to its block number *)
}.

Definition a_bread (i b : Z) (a : acache) : acache :=
  ACache (a_disk a) (a_view a) (a_writes a) (upd (a_refs a) b (u32 (a_refs a b + 1))) (<[i:=b]> (a_held a)).
Definition a_set (b : Z) (d : block) (a : acache) : acache :=
  ACache (a_disk a) (upd (a_view a) b d) (a_writes a) (a_refs a) (a_held a).
Definition a_bwrite (b : Z) (a : acache) : acache :=
  ACache (upd (a_disk a) b (a_view a b)) (a_view a) (a_writes a ++ [(b, a_view a b)]) (a_refs a) (a_held a).
Definition a_ref (b n : Z) (a : acache) : acache :=
  ACache (a_disk a) (a_view a) (a_writes a) (upd (a_refs a) b (u32 (a_refs a b + n))) (a_held a).
Definition a_brelse (i b : Z) (a : acache) : acache :=
  ACache (a_disk a) (a_view a) (a_writes a) (upd (a_refs a) b (u32 (a_refs a b - 1))) (delete i (a_held a)).
Definition a_boot (d : Z -> block) : acache := ACache d d [] (fun _ => 0) ∅.

(** Fewer blocks are referenced than there are buffers. *)
Definition available (a : acache) : Prop :=
  exists X : gset Z, (forall b, a_refs a b <> 0 -> b ∈ X) /\ Z.of_nat (size X) < NBUF.

(** No locked buffer can be recycled. *)
Definition sane (a : acache) : Prop := forall i b, a_held a !! i = Some b -> a_refs a b <> 0.

Class BlockCache (S : Type) := {
  c_dev : Z;
  c_bread : Z -> Z -> M S Z;
  c_bwrite : Z -> M S unit;
  c_brelse : Z -> M S unit;
  c_bpin : Z -> M S unit;
  c_bunpin : Z -> M S unit;
  c_data : S -> Z -> block;          (* b->data *)
  c_blockno : S -> Z -> Z;           (* b->blockno *)
  c_set : Z -> block -> M S unit;    (* assignment to b->data *)
  c_boot : (Z -> block) -> S;        (* memory at power-on, with the disk *)
  c_binit : M S unit;
  c_disk : S -> Z -> block;          (* the disk *)
  c_writes : S -> list (Z * block);  (* the disk writes since power-on *)
  c_rep : S -> acache -> Prop;
}.

(** Abstract caches with the same entries. *)
Definition a_equiv (a a' : acache) : Prop :=
  (forall b, a_disk a' b = a_disk a b) /\ (forall b, a_view a' b = a_view a b) /\
  a_writes a' = a_writes a /\ (forall b, a_refs a' b = a_refs a b) /\ a_held a' = a_held a.

Class BlockCacheOk (S : Type) {C : BlockCache S} := {
  c_dev_int : u32 c_dev = c_dev;
  c_obs_ok s a : c_rep s a -> (forall b, c_disk s b = a_disk a b) /\ c_writes s = a_writes a;
  c_rep_equiv s a a' : c_rep s a -> a_equiv a a' -> c_rep s a';
  c_refs_bound s a b : c_rep s a -> 0 <= a_refs a b < 2 ^ 32;
  c_boot_ok d : exists s, c_binit (c_boot d) = Ok (tt, s) /\ c_rep s (a_boot d);
  c_bread_ok s a b : c_rep s a -> sane a -> (forall i, a_held a !! i <> Some b) ->
    available a \/ a_refs a b <> 0 -> a_refs a b <> 2 ^ 32 - 1 ->
    exists i s', c_bread c_dev b s = Ok (i, s') /\ a_held a !! i = None /\ c_rep s' (a_bread i b a);
  c_data_ok s a i b : c_rep s a -> a_held a !! i = Some b -> c_data s i = a_view a b /\ c_blockno s i = b;
  c_set_ok s a i b d : c_rep s a -> a_held a !! i = Some b ->
    exists s', c_set i d s = Ok (tt, s') /\ c_rep s' (a_set b d a);
  c_bwrite_ok s a i b : c_rep s a -> a_held a !! i = Some b ->
    exists s', c_bwrite i s = Ok (tt, s') /\ c_rep s' (a_bwrite b a);
  c_bpin_ok s a i b : c_rep s a -> a_held a !! i = Some b ->
    exists s', c_bpin i s = Ok (tt, s') /\ c_rep s' (a_ref b 1 a);
  c_bunpin_ok s a i b : c_rep s a -> a_held a !! i = Some b ->
    exists s', c_bunpin i s = Ok (tt, s') /\ c_rep s' (a_ref b (-1) a);
  c_brelse_ok s a i b : c_rep s a -> a_held a !! i = Some b ->
    (u32 (a_refs a b - 1) = 0 -> a_view a b = a_disk a b) ->
    exists s', c_brelse i s = Ok (tt, s') /\ c_rep s' (a_brelse i b a);
}.
