(* ===== verification/Bio.v ===== *)
(** * The buffer cache, [kernel/bio.c], and sleep locks, [kernel/sleeplock.c]

    The buffers form a doubly linked ring through [prev] and [next], most recently
    used first.  A buffer is its index in [bcache.buf]; [head] is the index of
    [bcache.head].  [disk] is what the device holds and [writes] the writes it has
    received, in order; a transfer by [virtio_disk_rw] has its documented effect
    ([disk_rw]).  Each section of code under [bcache.lock] or under the spin lock
    of a sleep lock is one step; waiting for a sleep lock is [Blocked].

    [bio_rep] relates the buffers to the abstract cache of [Cache], and the file
    ends with the proof that this code implements that interface. *)

From S2P Require Import Prelude Riscv Cache.

Record sleeplock := Sleeplock { sl_locked : bool; sl_pid : Z }.

Record buf := Buf {
  b_valid : bool; b_dev : Z; b_blockno : Z; b_lock : sleeplock;
  b_refcnt : Z; b_prev : Z; b_next : Z; b_data : block;
}.

Record bcache := Bcache { bufs : Z -> buf; disk : Z -> block; writes : list (Z * block) }.

Definition head : Z := NBUF.

Definition set_buf (i : Z) (b : buf) (s : bcache) : bcache :=
  Bcache (upd (bufs s) i b) (disk s) (writes s).
Definition modify_buf (i : Z) (f : buf -> buf) : M bcache unit :=
  modify (fun s => set_buf i (f (bufs s i)) s).

Definition with_valid v (b : buf) := Buf v (b_dev b) (b_blockno b) (b_lock b) (b_refcnt b) (b_prev b) (b_next b) (b_data b).
Definition with_lock l (b : buf) := Buf (b_valid b) (b_dev b) (b_blockno b) l (b_refcnt b) (b_prev b) (b_next b) (b_data b).
Definition with_refcnt n (b : buf) := Buf (b_valid b) (b_dev b) (b_blockno b) (b_lock b) n (b_prev b) (b_next b) (b_data b).
Definition with_prev p (b : buf) := Buf (b_valid b) (b_dev b) (b_blockno b) (b_lock b) (b_refcnt b) p (b_next b) (b_data b).
Definition with_next p (b : buf) := Buf (b_valid b) (b_dev b) (b_blockno b) (b_lock b) (b_refcnt b) (b_prev b) p (b_data b).
Definition with_data d (b : buf) := Buf (b_valid b) (b_dev b) (b_blockno b) (b_lock b) (b_refcnt b) (b_prev b) (b_next b) d.

(** ** [kernel/sleeplock.c], on the lock of a buffer *)

Definition initsleeplock (i : Z) : M bcache unit := modify_buf i (with_lock (Sleeplock false 0)).

Section Ops.
(** [myproc()->pid] of the process that runs. *)
Variable me : Z.

Definition acquiresleep (i : Z) : M bcache unit :=
  let! b := gets (fun s => bufs s i) in
  if sl_locked (b_lock b) then blocked
  else modify_buf i (with_lock (Sleeplock true me)).

Definition releasesleep (i : Z) : M bcache unit := modify_buf i (with_lock (Sleeplock false 0)).

Definition holdingsleep (i : Z) : M bcache bool :=
  gets (fun s => sl_locked (b_lock (bufs s i)) && (sl_pid (b_lock (bufs s i)) =? me)).

(** ** [kernel/bio.c] *)

(** [virtio_disk_rw(b, write)]: the block of [b] is written to or read from the
    device. *)
Definition disk_rw (i : Z) (write : bool) : M bcache unit :=
  if write
  then modify (fun s => Bcache (bufs s) (upd (disk s) (b_blockno (bufs s i)) (b_data (bufs s i)))
                 (writes s ++ [(b_blockno (bufs s i), b_data (bufs s i))]))
  else modify (fun s => set_buf i (with_data (disk s (b_blockno (bufs s i))) (bufs s i)) s).

(** The four assignments that put [b] in front of the list. *)
Definition link_front (i : Z) : M bcache unit :=
  let! first := gets (fun s => b_next (bufs s head)) in
  modify_buf i (with_next first) ;;
  modify_buf i (with_prev head) ;;
  let! first := gets (fun s => b_next (bufs s head)) in
  modify_buf first (with_prev i) ;;
  modify_buf head (with_next i).

Definition unlink (i : Z) : M bcache unit :=
  let! b := gets (fun s => bufs s i) in
  modify_buf (b_next b) (with_prev (b_prev b)) ;;
  let! b := gets (fun s => bufs s i) in
  modify_buf (b_prev b) (with_next (b_next b)).

(** The indices of [bcache.buf]. *)
Definition buf_ids : list Z := Z.of_nat <$> seq 0 (Z.to_nat NBUF).

(** [initsleeplock] sets only the lock of the buffer: the order of it and of the four
    assignments does not matter. *)
Definition binit : M bcache unit :=
  modify_buf head (with_prev head) ;;
  modify_buf head (with_next head) ;;
  mfor buf_ids (fun i =>
    initsleeplock i ;;
    link_front i).

Fixpoint bget_cached (dev blockno b : Z) (fuel : nat) : M bcache (option Z) :=
  match fuel with
  | O => nofuel
  | S k =>
      if b =? head then ret None
      else
        let! x := gets (fun s => bufs s b) in
        if (b_dev x =? dev) && (b_blockno x =? blockno) then ret (Some b)
        else bget_cached dev blockno (b_next x) k
  end.

Fixpoint bget_unused (b : Z) (fuel : nat) : M bcache (option Z) :=
  match fuel with
  | O => nofuel
  | S k =>
      if b =? head then ret None
      else
        let! x := gets (fun s => bufs s b) in
        if b_refcnt x =? 0 then ret (Some b)
        else bget_unused (b_prev x) k
  end.

Definition recycle (dev blockno : Z) (b : buf) : buf :=
  Buf false dev blockno (b_lock b) 1 (b_prev b) (b_next b) (b_data b).

(** [bget] up to the release of [bcache.lock]. *)
Definition bget_ref (dev blockno : Z) : M bcache Z :=
  let! first := gets (fun s => b_next (bufs s head)) in
  let! found := bget_cached dev blockno first (Z.to_nat (NBUF + 1)) in
  match found with
  | Some b => modify_buf b (fun x => with_refcnt (u32 (b_refcnt x + 1)) x) ;; ret b
  | None =>
      let! last := gets (fun s => b_prev (bufs s head)) in
      let! free := bget_unused last (Z.to_nat (NBUF + 1)) in
      match free with
      | Some b => modify_buf b (recycle dev blockno) ;; ret b
      | None => panic "bget: no buffers"
      end
  end.

Definition bget (dev blockno : Z) : M bcache Z :=
  let! b := bget_ref dev blockno in
  acquiresleep b ;;
  ret b.

Definition bread (dev blockno : Z) : M bcache Z :=
  let! b := bget dev blockno in
  let! valid := gets (fun s => b_valid (bufs s b)) in
  (if negb valid then disk_rw b false ;; modify_buf b (with_valid true) else ret tt) ;;
  ret b.

Definition bwrite (b : Z) : M bcache unit :=
  let! r := holdingsleep b in
  panic_if (negb r) "bwrite" ;;
  disk_rw b true.

Definition bunpin (b : Z) : M bcache unit :=
  modify_buf b (fun x => with_refcnt (u32 (b_refcnt x - 1)) x).

Definition brelse (b : Z) : M bcache unit :=
  let! r := holdingsleep b in
  panic_if (negb r) "brelse" ;;
  releasesleep b ;;
  modify_buf b (fun x => with_refcnt (u32 (b_refcnt x - 1)) x) ;;
  let! n := gets (fun s => b_refcnt (bufs s b)) in
  if n =? 0 then unlink b ;; link_front b else ret tt.

Definition bpin (b : Z) : M bcache unit :=
  modify_buf b (fun x => with_refcnt (u32 (b_refcnt x + 1)) x).
End Ops.

(** Assignment to [b->data] by the code that holds [b]. *)
Definition bset_data (b : Z) (d : block) : M bcache unit := modify_buf b (with_data d).

(** ** The ring of buffers as a list *)

(** Consecutive elements of the list are linked both ways. *)
Fixpoint chain (f : Z -> buf) (l : list Z) : Prop :=
  match l with
  | a :: (b :: _) as l' => b_next (f a) = b /\ b_prev (f b) = a /\ chain f l'
  | _ => True
  end.

Lemma chain_cons f a b l :
  chain f (a :: b :: l) <-> b_next (f a) = b /\ b_prev (f b) = a /\ chain f (b :: l).
Proof. done. Qed.

Lemma chain_app f l x r : chain f (l ++ x :: r) <-> chain f (l ++ [x]) /\ chain f (x :: r).
Proof.
  induction l as [|a l IH]; [cbn; tauto|]. destruct l as [|b l].
  - cbn [app] in *. rewrite !chain_cons. cbn. tauto.
  - cbn [app] in *. rewrite !chain_cons, IH. tauto.
Qed.

Lemma chain_prefix f l r : chain f (l ++ r) -> chain f l.
Proof.
  induction l as [|a l IH]; [done|]. destruct l as [|b l]; [done|].
  cbn [app] in *. rewrite !chain_cons. tauto.
Qed.

(** [next] matters for all but the last element, [prev] for all but the first. *)
Lemma chain_ext f g l :
  (forall i, i ∈ removelast l -> b_next (g i) = b_next (f i)) ->
  (forall i, i ∈ tail l -> b_prev (g i) = b_prev (f i)) -> chain f l -> chain g l.
Proof.
  induction l as [|a l IH]; [done|]. destruct l as [|b l]; [done|]. intros Hn Hp. rewrite !chain_cons.
  intros (H1 & H2 & H3). split_and!.
  - rewrite Hn; [done|]. by left.
  - rewrite Hp; [done|]. by left.
  - apply IH; [|intros i Hi; apply Hp; by right|done].
    intros i Hi. apply Hn. change (i ∈ a :: removelast (b :: l)). by right.
Qed.

Lemma elem_of_removelast (l : list Z) x i : i ∈ removelast (l ++ [x]) <-> i ∈ l.
Proof. by rewrite removelast_last. Qed.

(** The ring: from [head] through the buffers back to [head]. *)
Definition ring (f : Z -> buf) (order : list Z) : Prop := chain f (head :: order ++ [head]).

Lemma elem_of_buf_ids i : i ∈ buf_ids <-> 0 <= i < NBUF.
Proof.
  unfold buf_ids. rewrite list_elem_of_fmap. split.
  - intros (n & -> & Hn). apply elem_of_seq in Hn. unfold NBUF, MAXOPBLOCKS in *. lia.
  - intros Hi. exists (Z.to_nat i). rewrite elem_of_seq. unfold NBUF, MAXOPBLOCKS in *. lia.
Qed.

Lemma ring_ext f g order :
  (forall i, b_next (g i) = b_next (f i) /\ b_prev (g i) = b_prev (f i)) -> ring f order -> ring g order.
Proof. intros H. apply chain_ext; intros i _; apply H. Qed.

(** The two ends of the ring. *)
Lemma ring_split f l1 l2 :
  ring f (l1 ++ l2) <-> chain f (head :: l1 ++ [hd head l2]) /\ chain f (hd head l2 :: tail (l2 ++ [head])).
Proof.
  unfold ring. rewrite <- app_assoc.
  assert (l2 ++ [head] = hd head l2 :: tail (l2 ++ [head])) as E by (by destruct l2).
  rewrite E at 1. apply (chain_app f (head :: l1)).
Qed.

(** A buffer without its links. *)
Definition core (b : buf) : buf := with_next 0 (with_prev 0 b).

Lemma core_fields a b : core a = core b ->
  b_valid a = b_valid b /\ b_dev a = b_dev b /\ b_blockno a = b_blockno b /\ b_lock a = b_lock b /\
  b_refcnt a = b_refcnt b /\ b_data a = b_data b.
Proof. destruct a, b. cbn. intros [=]. by subst. Qed.

(** Split on the indices of [upd]. *)
Ltac upd_cases := unfold upd; repeat (match goal with
  | |- context [?a =? ?b] => destruct (Z.eqb_spec a b); subst; try congruence
  end; cbn); try done; try congruence.

Lemma link_front_run s i :
  i <> head -> b_next (bufs s head) <> i ->
  exists g, link_front i s = Ok (tt, Bcache g (disk s) (writes s)) /\
    (forall x, core (g x) = core (bufs s x)) /\
    (forall x, b_next (g x) = if x =? head then i else if x =? i then b_next (bufs s head) else b_next (bufs s x)) /\
    (forall x, b_prev (g x) = if x =? b_next (bufs s head) then i else if x =? i then head else b_prev (bufs s x)).
Proof.
  intros Hi Hn. eexists. split; [reflexivity|]. cbn [bufs set_buf].
  assert (upd (upd (bufs s) i (with_next (b_next (bufs s head)) (bufs s i))) i
    (with_prev head (upd (bufs s) i (with_next (b_next (bufs s head)) (bufs s i)) i)) head = bufs s head) as ->
    by (rewrite !upd_ne; done).
  split_and!; intros x; upd_cases. by rewrite <- e.
Qed.

Lemma link_front_ring f g i order :
  ring f order -> NoDup (head :: i :: order) ->
  (forall x, b_next (g x) = if x =? head then i else if x =? i then b_next (f head) else b_next (f x)) ->
  (forall x, b_prev (g x) = if x =? b_next (f head) then i else if x =? i then head else b_prev (f x)) ->
  ring g (i :: order).
Proof.
  intros Hr Hnd Hgn Hgp. apply NoDup_cons in Hnd as [Hh Hnd]. apply NoDup_cons in Hnd as [Hi Hnd].
  assert (i <> head) as Hih by (intros ->; apply Hh; by left).
  assert (exists n r, order ++ [head] = n :: r) as (n & r & E) by (destruct order; cbn; eauto).
  unfold ring in *. cbn [app]. rewrite E in *. apply chain_cons in Hr as (Hn & Hp & Hc).
  assert (n <> i) as Hni.
  { destruct order as [|o order]; cbn in E; injection E as <- _; [done|]. intros ->. apply Hi. by left. }
  rewrite !chain_cons, Hgn, Hgp, Hgn, Hgp, Hn, !Z.eqb_refl, (proj2 (Z.eqb_neq i n)), (proj2 (Z.eqb_neq i head)) by done.
  split_and!; [done..|]. eapply chain_ext; [| |exact Hc].
  - intros x Hx. rewrite <- E in Hx. apply elem_of_removelast in Hx. rewrite Hgn.
    rewrite (proj2 (Z.eqb_neq x head)), (proj2 (Z.eqb_neq x i)); [done| |]; intros ->; [done|].
    apply Hh. by right.
  - intros x Hx. cbn [tail] in Hx. rewrite Hgp, Hn.
    assert (x ∈ order ++ [head]) as Hx' by (rewrite E; by right).
    assert (x <> n) as Hxn.
    { intros ->. destruct order as [|o order]; cbn in E; injection E as <- <-; [by apply elem_of_nil in Hx|].
      apply NoDup_cons in Hnd as [Hno _]. apply elem_of_app in Hx as [?|Hx]; [done|].
      apply list_elem_of_singleton in Hx. apply Hh. rewrite <- Hx. right. by left. }
    assert (x <> i) as Hxi.
    { intros ->. apply elem_of_app in Hx' as [?|Hx']; [done|]. by apply list_elem_of_singleton in Hx'. }
    by rewrite (proj2 (Z.eqb_neq x n)), (proj2 (Z.eqb_neq x i)).
Qed.

Lemma unlink_run s i :
  b_next (bufs s i) <> i -> b_prev (bufs s i) <> i ->
  exists g, unlink i s = Ok (tt, Bcache g (disk s) (writes s)) /\
    (forall x, core (g x) = core (bufs s x)) /\
    (forall x, b_next (g x) = if x =? b_prev (bufs s i) then b_next (bufs s i) else b_next (bufs s x)) /\
    (forall x, b_prev (g x) = if x =? b_next (bufs s i) then b_prev (bufs s i) else b_prev (bufs s x)).
Proof.
  intros Hn Hp. eexists. split; [reflexivity|]. cbn [bufs set_buf].
  rewrite (upd_ne _ _ _ i) by done. split_and!; intros x; upd_cases. by rewrite e.
Qed.

Lemma unlink_ring f g i l1 l2 :
  ring f (l1 ++ i :: l2) -> NoDup (head :: l1 ++ i :: l2) ->
  (forall x, b_next (g x) = if x =? b_prev (f i) then b_next (f i) else b_next (f x)) ->
  (forall x, b_prev (g x) = if x =? b_next (f i) then b_prev (f i) else b_prev (f x)) ->
  ring g (l1 ++ l2).
Proof.
  intros Hr Hnd Hgn Hgp. unfold ring in *.
  assert (exists n r, l2 ++ [head] = n :: r) as (n & r & E) by (destruct l2; cbn; eauto).
  destruct (exists_last (l := head :: l1)) as (q & p & Eq); [done|].
  replace (head :: (l1 ++ i :: l2) ++ [head]) with (q ++ p :: i :: n :: r) in Hr.
  2:{ rewrite <- app_assoc. cbn [app]. rewrite E. change (head :: l1 ++ i :: n :: r) with ((head :: l1) ++ i :: n :: r).
      by rewrite Eq, <- app_assoc. }
  replace (head :: (l1 ++ l2) ++ [head]) with (q ++ p :: n :: r).
  2:{ rewrite <- app_assoc, E. change (head :: l1 ++ n :: r) with ((head :: l1) ++ n :: r).
      by rewrite Eq, <- app_assoc. }
  apply chain_app in Hr as [Hc1 Hc2]. rewrite !chain_cons in Hc2. destruct Hc2 as (Hpi & Hip & Hin & Hni & Hc3).
  rewrite Hip, Hin in *. apply chain_app. rewrite chain_cons, Hgn, Hgp, !Z.eqb_refl.
  assert (NoDup ((q ++ [p]) ++ i :: l2)) as Hnd' by (rewrite <- Eq; exact Hnd).
  apply NoDup_app in Hnd' as (Hq & Hqi & Hil). apply NoDup_cons in Hil as [Hi Hl2].
  apply NoDup_app in Hq as (Hq & Hqp & _).
  split_and!; try done.
  - eapply chain_ext; [| |exact Hc1].
    + intros x Hx. apply elem_of_removelast in Hx. rewrite Hgn, (proj2 (Z.eqb_neq x p)); [done|].
      intros ->. apply (Hqp p Hx). by left.
    + intros x Hx. rewrite <- Eq in Hx. cbn [tail] in Hx. rewrite Hgp, (proj2 (Z.eqb_neq x n)); [done|]. intros ->.
      apply NoDup_cons in Hnd as [Hh Hnd]. destruct l2 as [|o l2]; cbn in E; injection E as <- <-.
      * apply Hh. rewrite elem_of_app. by left.
      * apply NoDup_app in Hnd as (_ & Hd & _). apply (Hd o Hx). right. by left.
  - eapply chain_ext; [| |exact Hc3].
    + intros x Hx. rewrite <- E in Hx. apply elem_of_removelast in Hx. rewrite Hgn, (proj2 (Z.eqb_neq x p)); [done|].
      intros ->. apply (Hqi p); [rewrite elem_of_app; right; by left|]. by right.
    + intros x Hx. cbn [tail] in Hx. rewrite Hgp, (proj2 (Z.eqb_neq x n)); [done|]. intros ->.
      destruct l2 as [|o l2]; cbn in E; injection E as <- <-; [by apply elem_of_nil in Hx|].
      apply elem_of_app in Hx as [Hx|Hx]; [by apply NoDup_cons in Hl2 as [? _]|].
      apply list_elem_of_singleton in Hx. apply NoDup_cons in Hnd as [Hh _]. apply Hh.
      rewrite <- Hx, elem_of_app. right. right. by left.
Qed.

(** ** The searches of [bget] *)

Definition is_block (dev blockno : Z) (b : buf) : bool := (b_dev b =? dev) && (b_blockno b =? blockno).

Lemma bget_cached_run s dev blockno l : forall fuel,
  chain (bufs s) (l ++ [head]) -> head ∉ l -> (length l < fuel)%nat ->
  bget_cached dev blockno (hd head l) fuel s =
    Ok (List.find (fun i => is_block dev blockno (bufs s i)) l, s).
Proof.
  induction l as [|x l IH]; intros fuel Hc Hh Hf; (destruct fuel as [|fuel]; [cbn in Hf; lia|]).
  { done. }
  cbn [bget_cached hd List.find]. rewrite (proj2 (Z.eqb_neq x head)) by (intros ->; apply Hh; by left).
  mcomp. fold (is_block dev blockno (bufs s x)). destruct (is_block _ _ _); [done|].
  assert (b_next (bufs s x) = hd head l /\ chain (bufs s) (l ++ [head])) as [-> Hc'].
  { destruct l; cbn [app] in Hc; apply chain_cons in Hc as (-> & _ & ?); done. }
  apply IH; [done|intros Hin; apply Hh; by right|cbn in Hf; lia].
Qed.

Lemma bget_unused_run s l : forall fuel,
  chain (bufs s) (head :: l) -> head ∉ l -> (length l < fuel)%nat ->
  bget_unused (List.last l head) fuel s = Ok (List.find (fun i => b_refcnt (bufs s i) =? 0) (rev l), s).
Proof.
  induction l as [|x l IH] using rev_ind; intros fuel Hc Hh Hf; rewrite ?length_app in Hf;
    (destruct fuel as [|fuel]; [cbn in Hf; lia|]); [done|].
  rewrite elem_of_app in Hh. cbn [bget_unused]. rewrite rev_app_distr, last_last. cbn [rev app List.find].
  rewrite (proj2 (Z.eqb_neq x head)) by (intros ->; apply Hh; right; by left).
  mcomp. destruct (b_refcnt (bufs s x) =? 0); [done|].
  assert (b_prev (bufs s x) = List.last l head) as ->.
  { destruct (exists_last (l := head :: l)) as (q & p & Eq); [done|].
    change (head :: l ++ [x]) with ((head :: l) ++ [x]) in Hc. rewrite Eq, <- app_assoc in Hc.
    apply (chain_app _ q p [x]) in Hc as [_ Hc]. apply chain_cons in Hc as (_ & -> & _).
    destruct l as [|y l]; [by destruct q as [|? []]; injection Eq|].
    change (List.last (y :: l) head) with (List.last (head :: y :: l) head). by rewrite Eq, last_last. }
  apply IH; [|tauto|cbn in Hf; lia].
  by apply (chain_prefix _ (head :: l) [x]).
Qed.

(** ** The invariant of the cache *)

(** The file system's device is [dv]; only it is read.  [bi_idle]: a buffer that
    was never used for it is unreferenced.  [bi_clean]: an unreferenced buffer has
    what the disk has, so recycling it loses nothing. *)
Record bc_inv (dv : Z) (s : bcache) (order : list Z) : Prop := {
  bi_ring : ring (bufs s) order;
  bi_perm : order ≡ₚ buf_ids;
  bi_unique i j : 0 <= i < NBUF -> 0 <= j < NBUF -> b_dev (bufs s i) = dv -> b_dev (bufs s j) = dv ->
    b_blockno (bufs s i) = b_blockno (bufs s j) -> i = j;
  bi_idle i : 0 <= i < NBUF -> b_dev (bufs s i) <> dv ->
    b_refcnt (bufs s i) = 0 /\ sl_locked (b_lock (bufs s i)) = false;
  bi_clean i : 0 <= i < NBUF -> b_dev (bufs s i) = dv -> b_refcnt (bufs s i) = 0 ->
    sl_locked (b_lock (bufs s i)) = false -> b_valid (bufs s i) = true ->
    b_data (bufs s i) = disk s (b_blockno (bufs s i));
  bi_refcnt i : 0 <= i < NBUF -> 0 <= b_refcnt (bufs s i) < 2 ^ 32;
}.

(** The buffer that caches a block. *)
Definition cached (dv : Z) (s : bcache) (blockno : Z) : option Z :=
  List.find (fun i => is_block dv blockno (bufs s i)) buf_ids.

(** The contents of a block as the cache gives it out, and its references. *)
Definition view (dv : Z) (s : bcache) (blockno : Z) : block :=
  match cached dv s blockno with
  | Some i => if b_valid (bufs s i) then b_data (bufs s i) else disk s blockno
  | None => disk s blockno
  end.
Definition refs (dv : Z) (s : bcache) (blockno : Z) : Z :=
  match cached dv s blockno with Some i => b_refcnt (bufs s i) | None => 0 end.

Lemma find_ext {A} (f g : A -> bool) l : (forall x, f x = g x) -> List.find f l = List.find g l.
Proof. intros H. induction l as [|x l IH]; [done|]. cbn. by rewrite H, IH. Qed.

Lemma is_block_true dev bno b : is_block dev bno b = true <-> b_dev b = dev /\ b_blockno b = bno.
Proof. unfold is_block. by rewrite andb_true_iff, !Z.eqb_eq. Qed.

(** A list of all the buffers. *)
Lemma perm_ids order i : order ≡ₚ buf_ids -> i ∈ order <-> 0 <= i < NBUF.
Proof. intros ->. apply elem_of_buf_ids. Qed.

Lemma perm_nodup order : order ≡ₚ buf_ids -> NoDup (head :: order).
Proof.
  intros Hp. constructor; [rewrite (perm_ids order) by done; unfold head; lia|]. rewrite Hp.
  apply NoDup_fmap_2_strong; [intros; lia|apply NoDup_seq].
Qed.

Section Inv.
Variables (dv : Z) (s : bcache) (order : list Z).
Hypothesis Hinv : bc_inv dv s order.

Lemma order_ids i : i ∈ order <-> 0 <= i < NBUF.
Proof. apply perm_ids, Hinv. Qed.

Lemma order_nodup : NoDup (head :: order).
Proof. apply perm_nodup, Hinv. Qed.

Lemma order_length : length order = Z.to_nat NBUF.
Proof. by rewrite (bi_perm _ _ _ Hinv). Qed.

(** Any list of all the buffers gives the same answer: blocks are cached once. *)
Lemma find_block l bno i :
  (forall x, x ∈ l <-> 0 <= x < NBUF) ->
  List.find (fun i => is_block dv bno (bufs s i)) l = Some i <->
  0 <= i < NBUF /\ b_dev (bufs s i) = dv /\ b_blockno (bufs s i) = bno.
Proof.
  intros Hl. split.
  - intros Hf. apply find_some in Hf as [Hin Hb]. apply list_elem_of_In, Hl in Hin.
    apply is_block_true in Hb. tauto.
  - intros (Hi & Hd & Hb). destruct (List.find _ l) as [j|] eqn:E.
    + apply find_some in E as [Hin Hj]. apply list_elem_of_In, Hl in Hin. apply is_block_true in Hj as [Hjd Hjb].
      f_equal. by apply (bi_unique _ _ _ Hinv); [..|congruence].
    + pose proof (find_none _ _ E i) as Hn. cbn in Hn. rewrite (proj2 (is_block_true dv bno _)) in Hn by done.
      discriminate Hn. by apply list_elem_of_In, Hl.
Qed.

Lemma cached_some bno i :
  cached dv s bno = Some i <-> 0 <= i < NBUF /\ b_dev (bufs s i) = dv /\ b_blockno (bufs s i) = bno.
Proof. apply find_block. intros x. apply elem_of_buf_ids. Qed.

Lemma find_order bno : List.find (fun i => is_block dv bno (bufs s i)) order = cached dv s bno.
Proof.
  apply option_eq. intros i. rewrite cached_some. apply find_block. intros x. apply order_ids.
Qed.
End Inv.

(** ** Changing one buffer *)

Section Change.
Variables (dv : Z) (s : bcache) (order : list Z) (i : Z) (s' : bcache).
Hypothesis Hinv : bc_inv dv s order.
Hypothesis Hi : 0 <= i < NBUF.
Hypothesis Hdev : b_dev (bufs s i) = dv.
Hypothesis Hother : forall x, x <> i -> bufs s' x = bufs s x.
Hypothesis Hkey : b_dev (bufs s' i) = b_dev (bufs s i) /\ b_blockno (bufs s' i) = b_blockno (bufs s i).
Hypothesis Hlink : b_next (bufs s' i) = b_next (bufs s i) /\ b_prev (bufs s' i) = b_prev (bufs s i).
Hypothesis Hdisk : forall b, b <> b_blockno (bufs s i) -> disk s' b = disk s b.

Lemma change_key x : b_dev (bufs s' x) = b_dev (bufs s x) /\ b_blockno (bufs s' x) = b_blockno (bufs s x).
Proof. destruct (Z.eq_dec x i) as [->|]; [done|]. by rewrite Hother. Qed.

Lemma change_inv :
  0 <= b_refcnt (bufs s' i) < 2 ^ 32 ->
  (b_refcnt (bufs s' i) = 0 -> sl_locked (b_lock (bufs s' i)) = false -> b_valid (bufs s' i) = true ->
   b_data (bufs s' i) = disk s' (b_blockno (bufs s i))) ->
  bc_inv dv s' order.
Proof.
  intros Hr Hc. split.
  - eapply ring_ext; [|apply Hinv]. intros x. destruct (Z.eq_dec x i) as [->|]; [done|]. by rewrite Hother.
  - apply Hinv.
  - intros x y Hx Hy. destruct (change_key x) as [-> ->], (change_key y) as [-> ->]. by apply Hinv.
  - intros x Hx. destruct (change_key x) as [-> _]. intros Hd.
    destruct (Z.eq_dec x i) as [->|]; [done|]. rewrite Hother by done. by apply Hinv.
  - intros x Hx. destruct (change_key x) as [-> ->]. intros Hd. destruct (Z.eq_dec x i) as [->|]; [done|].
    rewrite Hother, Hdisk by (done || (intros E; by apply (bi_unique _ _ _ Hinv) in E)). by apply Hinv.
  - intros x Hx. destruct (Z.eq_dec x i) as [->|]; [done|]. rewrite Hother by done. by apply Hinv.
Qed.

Lemma change_cached b : cached dv s' b = cached dv s b.
Proof.
  apply find_ext. intros x. unfold is_block. by destruct (change_key x) as [-> ->].
Qed.

Lemma change_view b :
  view dv s' b = if b =? b_blockno (bufs s i)
    then (if b_valid (bufs s' i) then b_data (bufs s' i) else disk s' b) else view dv s b.
Proof.
  unfold view. rewrite change_cached. destruct (Z.eqb_spec b (b_blockno (bufs s i))) as [->|Hne].
  - by rewrite (proj2 (cached_some dv s order Hinv (b_blockno (bufs s i)) i)).
  - rewrite Hdisk by done. destruct (cached dv s b) as [j|] eqn:E; [|done].
    rewrite Hother; [done|]. intros ->. apply (cached_some dv s order Hinv) in E as (_ & _ & E). congruence.
Qed.

Lemma change_refs b :
  refs dv s' b = if b =? b_blockno (bufs s i) then b_refcnt (bufs s' i) else refs dv s b.
Proof.
  unfold refs. rewrite change_cached. destruct (Z.eqb_spec b (b_blockno (bufs s i))) as [->|Hne].
  - by rewrite (proj2 (cached_some dv s order Hinv (b_blockno (bufs s i)) i)).
  - destruct (cached dv s b) as [j|] eqn:E; [|done].
    rewrite Hother; [done|]. intros ->. apply (cached_some dv s order Hinv) in E as (_ & _ & E). congruence.
Qed.
End Change.

(** ** The abstract cache that the buffers implement *)

Record bio_rep (dv me : Z) (s : bcache) (a : acache) : Prop := {
  br_inv : exists order, bc_inv dv s order;
  br_disk b : a_disk a b = disk s b;
  br_writes : a_writes a = writes s;
  br_view b : a_view a b = view dv s b;
  br_refs b : a_refs a b = refs dv s b;
  br_held i b : a_held a !! i = Some b <->
    0 <= i < NBUF /\ sl_locked (b_lock (bufs s i)) = true /\ b_blockno (bufs s i) = b;
  br_pid i : 0 <= i < NBUF -> sl_locked (b_lock (bufs s i)) = true ->
    sl_pid (b_lock (bufs s i)) = me /\ b_valid (bufs s i) = true;
}.

(** The running process changes fields of a buffer that it has locked, or that it
    locks now. *)
Section RepChange.
Variables (dv me : Z) (s : bcache) (a : acache) (i b : Z) (s' : bcache) (x' : buf).
Hypothesis Hrep : bio_rep dv me s a.
Hypothesis Hi : 0 <= i < NBUF.
Hypothesis Hdev : b_dev (bufs s i) = dv.
Hypothesis Hb : b_blockno (bufs s i) = b.
Hypothesis E : bufs s' i = x'.
Hypothesis Ho : forall x, x <> i -> bufs s' x = bufs s x.
Hypothesis Hcore : b_dev x' = dv /\ b_blockno x' = b /\ b_next x' = b_next (bufs s i) /\ b_prev x' = b_prev (bufs s i).
Hypothesis Hrc : 0 <= b_refcnt x' < 2 ^ 32.
Hypothesis Hclean : b_refcnt x' = 0 -> sl_locked (b_lock x') = false -> b_valid x' = true -> b_data x' = disk s' b.
Hypothesis Hdk : forall c, c <> b -> disk s' c = disk s c.
Hypothesis Hlock : sl_locked (b_lock x') = true -> sl_pid (b_lock x') = me /\ b_valid x' = true.

Lemma rep_change a' :
  (forall c, a_disk a' c = disk s' c) -> a_writes a' = writes s' ->
  (forall c, a_view a' c = if c =? b then (if b_valid x' then b_data x' else disk s' b) else a_view a c) ->
  (forall c, a_refs a' c = if c =? b then b_refcnt x' else a_refs a c) ->
  a_held a' = (if sl_locked (b_lock x') then <[i:=b]> (a_held a) else delete i (a_held a)) ->
  bio_rep dv me s' a'.
Proof.
  intros H1 H2 H3 H4 H5. destruct Hrep as [[order Hinv] R1 R2 R3 R4 R5 R6]. destruct Hcore as (C1 & C2 & C3 & C4).
  assert (b_dev (bufs s' i) = b_dev (bufs s i) /\ b_blockno (bufs s' i) = b_blockno (bufs s i)) as Hk
    by (rewrite E; split; congruence).
  assert (b_next (bufs s' i) = b_next (bufs s i) /\ b_prev (bufs s' i) = b_prev (bufs s i)) as Hl by (by rewrite E).
  assert (forall c, c <> b_blockno (bufs s i) -> disk s' c = disk s c) as Hd by (by rewrite Hb).
  split; try done.
  - exists order. apply (change_inv dv s order i); try done; rewrite E; [done|]. by rewrite Hb.
  - intros c. rewrite H3, (change_view dv s order i s' Hinv Hi Hdev Ho Hk Hd), E, Hb, R3.
    by destruct (Z.eqb_spec c b) as [->|].
  - intros c. by rewrite H4, (change_refs dv s order i s' Hinv Hi Hdev Ho Hk), E, Hb, R4.
  - intros j c. rewrite H5. destruct (Z.eq_dec j i) as [->|Hne].
    + rewrite E, C2. destruct (sl_locked (b_lock x')).
      * rewrite lookup_insert_eq. split; [by intros [= <-]|by intros (_ & _ & ->)].
      * rewrite lookup_delete_eq. split; [done|by intros (_ & ? & _)].
    + rewrite Ho by done. rewrite <- R5. destruct (sl_locked (b_lock x'));
        [by rewrite lookup_insert_ne|by rewrite lookup_delete_ne].
  - intros j Hj. destruct (Z.eq_dec j i) as [->|Hne]; [by rewrite E|]. rewrite Ho by done. auto.
Qed.
End RepChange.

Section Rep.
Variables (dv me : Z).
Implicit Types (s : bcache) (a : acache).

(** What holding a buffer means. *)
Lemma rep_held s a i b :
  bio_rep dv me s a -> a_held a !! i = Some b ->
  0 <= i < NBUF /\ sl_locked (b_lock (bufs s i)) = true /\ sl_pid (b_lock (bufs s i)) = me /\
  b_valid (bufs s i) = true /\ b_dev (bufs s i) = dv /\ b_blockno (bufs s i) = b /\
  cached dv s b = Some i /\ a_view a b = b_data (bufs s i) /\ a_refs a b = b_refcnt (bufs s i).
Proof.
  intros [[order Hinv] _ _ R3 R4 R5 R6] Hh. apply R5 in Hh as (Hi & Hl & Hb). destruct (R6 i Hi Hl) as [Hp Hv].
  assert (b_dev (bufs s i) = dv) as Hd.
  { destruct (Z.eq_dec (b_dev (bufs s i)) dv) as [?|Hne]; [done|].
    destruct (bi_idle _ _ _ Hinv i Hi Hne) as [_ Hf]. congruence. }
  assert (cached dv s b = Some i) as Hc by (by apply (cached_some dv s order Hinv)).
  rewrite R3, R4. unfold view, refs. rewrite Hc, Hv. done.
Qed.

Ltac same_i := cbn; rewrite ?upd_eq; try done.
Ltac other_i := intros; cbn; by rewrite ?upd_ne.

Lemma bset_data_ok s a i b d :
  bio_rep dv me s a -> a_held a !! i = Some b ->
  exists s', bset_data i d s = Ok (tt, s') /\ bio_rep dv me s' (a_set b d a).
Proof.
  intros Hrep Hh. destruct (rep_held s a i b Hrep Hh) as (Hi & Hl & Hp & Hv & Hd & Hb & Hc & Hvw & Hrf).
  eexists. split; [reflexivity|]. pose proof Hrep as [[order Hinv] R1 R2 R3 R4 R5 R6].
  eapply (rep_change dv me s a i b _ (with_data d (bufs s i))); try done; same_i; try other_i.
  - by apply Hinv.
  - by rewrite Hl.
  - intros c. unfold upd. by rewrite Hv.
  - intros c. destruct (Z.eqb_spec c b) as [->|]; done.
  - rewrite Hl. by rewrite insert_id.
Qed.

Lemma holdingsleep_ok s a i b :
  bio_rep dv me s a -> a_held a !! i = Some b -> holdingsleep me i s = Ok (true, s).
Proof.
  intros Hrep Hh. destruct (rep_held s a i b Hrep Hh) as (_ & Hl & Hp & _).
  unfold holdingsleep, gets. by rewrite Hl, Hp, Z.eqb_refl.
Qed.

Lemma bwrite_ok s a i b :
  bio_rep dv me s a -> a_held a !! i = Some b ->
  exists s', bwrite me i s = Ok (tt, s') /\ bio_rep dv me s' (a_bwrite b a).
Proof.
  intros Hrep Hh. destruct (rep_held s a i b Hrep Hh) as (Hi & Hl & Hp & Hv & Hd & Hb & Hc & Hvw & Hrf).
  unfold bwrite. mstep (holdingsleep_ok s a i b Hrep Hh). mcomp.
  eexists. split; [reflexivity|]. pose proof Hrep as [[order Hinv] R1 R2 R3 R4 R5 R6].
  rewrite Hb. eapply (rep_change dv me s a i b _ (bufs s i)); try done; cbn.
  - by apply Hinv.
  - by rewrite Hl.
  - intros c Hne. by rewrite upd_ne.
  - intros c. unfold upd. rewrite Hvw. by destruct (c =? b).
  - by rewrite R2, Hvw.
  - intros c. rewrite Hv. destruct (Z.eqb_spec c b) as [->|]; done.
  - intros c. destruct (Z.eqb_spec c b) as [->|]; done.
  - rewrite Hl. by rewrite insert_id.
Qed.

(** A new reference count of a locked buffer. *)
Lemma refcnt_ok s a i b n :
  bio_rep dv me s a -> a_held a !! i = Some b ->
  bio_rep dv me (set_buf i (with_refcnt (u32 (b_refcnt (bufs s i) + n)) (bufs s i)) s) (a_ref b n a).
Proof.
  intros Hrep Hh. destruct (rep_held s a i b Hrep Hh) as (Hi & Hl & Hp & Hv & Hd & Hb & Hc & Hvw & Hrf).
  pose proof Hrep as [[order Hinv] R1 R2 R3 R4 R5 R6].
  eapply (rep_change dv me s a i b _ (with_refcnt (u32 (b_refcnt (bufs s i) + n)) (bufs s i)));
    try done; same_i; try other_i.
  - apply u32_bound.
  - by rewrite Hl.
  - intros c. rewrite Hv. destruct (Z.eqb_spec c b) as [->|]; done.
  - intros c. unfold upd. rewrite Hrf. done.
  - rewrite Hl. by rewrite insert_id.
Qed.

Lemma bpin_ok s a i b :
  bio_rep dv me s a -> a_held a !! i = Some b ->
  exists s', bpin i s = Ok (tt, s') /\ bio_rep dv me s' (a_ref b 1 a).
Proof. intros Hrep Hh. eexists. split; [reflexivity|]. by apply refcnt_ok. Qed.

Lemma bunpin_ok s a i b :
  bio_rep dv me s a -> a_held a !! i = Some b ->
  exists s', bunpin i s = Ok (tt, s') /\ bio_rep dv me s' (a_ref b (-1) a).
Proof. intros Hrep Hh. eexists. split; [reflexivity|]. by apply (refcnt_ok s a i b (-1)). Qed.

(** [unlink] and [link_front] move a buffer to the front of the list and change
    nothing else. *)
Lemma move_front s order i :
  ring (bufs s) order -> order ≡ₚ buf_ids -> 0 <= i < NBUF ->
  exists g l1 l2, order = l1 ++ i :: l2 /\
    (unlink i ;; link_front i) s = Ok (tt, Bcache g (disk s) (writes s)) /\
    (forall x, core (g x) = core (bufs s x)) /\ ring g (i :: l1 ++ l2).
Proof.
  intros Hring Hperm Hi. assert (i ∈ order) as Hin by (by apply perm_ids).
  apply list_elem_of_split in Hin as (l1 & l2 & ->). pose proof (perm_nodup _ Hperm) as Hnd.
  assert (NoDup (head :: i :: l1 ++ l2)) as Hnd'.
  { rewrite (Permutation_middle l1 l2 i). done. }
  assert (b_next (bufs s i) <> i /\ b_prev (bufs s i) <> i) as [Hn Hp].
  { unfold ring in Hring. rewrite <- app_assoc in Hring.
    assert ((i ∉ (head :: l1)) /\ i ∉ (l2 ++ [head])) as [Hi1 Hi2].
    { apply NoDup_cons in Hnd' as [Hh Hnd']. apply NoDup_cons in Hnd' as [Hi' _].
      rewrite elem_of_cons, elem_of_app, list_elem_of_singleton. rewrite elem_of_app in Hi'.
      split; intros [?|?]; subst; try tauto; apply Hh; by left. }
    apply (chain_app _ (head :: l1) i (l2 ++ [head])) in Hring as [Hc1 Hc2]. split.
    - destruct (l2 ++ [head]) as [|n r] eqn:E; [by destruct l2|]. apply chain_cons in Hc2 as (-> & _).
      intros ->. apply Hi2. by left.
    - destruct (exists_last (l := head :: l1)) as (q & p & Eq); [done|]. rewrite Eq, <- app_assoc in Hc1.
      apply (chain_app _ q p [i]) in Hc1 as [_ Hc1]. apply chain_cons in Hc1 as (_ & -> & _).
      intros ->. apply Hi1. rewrite Eq, elem_of_app. right. by left. }
  destruct (unlink_run s i Hn Hp) as (g1 & Hrun1 & Hcore1 & Hgn1 & Hgp1).
  pose proof (unlink_ring (bufs s) g1 i l1 l2 Hring Hnd Hgn1 Hgp1) as Hring1.
  destruct (link_front_run (Bcache g1 (disk s) (writes s)) i) as (g & Hrun & Hcore & Hgn & Hgp).
  { unfold head. lia. }
  { cbn [bufs]. unfold ring in Hring1. destruct (l1 ++ l2) as [|n r] eqn:E; cbn [app] in Hring1; apply chain_cons in Hring1 as (-> & _).
    - unfold head. lia.
    - intros ->. apply NoDup_cons in Hnd' as [_ Hnd']. apply NoDup_cons in Hnd' as [Hi' _]. apply Hi'. by left. }
  exists g, l1, l2. split_and!; [done| | |].
  - mstep Hrun1. exact Hrun.
  - intros x. rewrite Hcore. apply Hcore1.
  - eapply (link_front_ring g1); [exact Hring1|exact Hnd'|exact Hgn|exact Hgp].
Qed.

(** The representation does not depend on the links, as long as they form a ring. *)
Lemma rep_relink s a g order' :
  bio_rep dv me s a -> (forall x, core (g x) = core (bufs s x)) -> ring g order' -> order' ≡ₚ buf_ids ->
  bio_rep dv me (Bcache g (disk s) (writes s)) a.
Proof.
  intros [[order Hinv] R1 R2 R3 R4 R5 R6] Hcore Hring Hperm.
  assert (forall x, b_valid (g x) = b_valid (bufs s x) /\ b_dev (g x) = b_dev (bufs s x) /\
    b_blockno (g x) = b_blockno (bufs s x) /\ b_lock (g x) = b_lock (bufs s x) /\
    b_refcnt (g x) = b_refcnt (bufs s x) /\ b_data (g x) = b_data (bufs s x)) as F by (intros x; by apply core_fields).
  assert (forall b, cached dv (Bcache g (disk s) (writes s)) b = cached dv s b) as Hcached.
  { intros b. apply find_ext. intros x. unfold is_block. cbn [bufs]. destruct (F x) as (_ & -> & -> & _). done. }
  split; cbn [bufs disk writes]; try done.
  - exists order'. split; cbn [bufs disk]; [done|done|..].
    + intros i j. destruct (F i) as (_ & -> & -> & _), (F j) as (_ & -> & -> & _). apply Hinv.
    + intros i. destruct (F i) as (_ & -> & _ & -> & -> & _). apply Hinv.
    + intros i. destruct (F i) as (-> & -> & -> & -> & -> & ->). apply Hinv.
    + intros i. destruct (F i) as (_ & _ & _ & _ & -> & _). apply Hinv.
  - intros b. rewrite R3. unfold view. rewrite Hcached. destruct (cached dv s b) as [i|]; [|done].
    cbn [bufs disk]. by destruct (F i) as (-> & _ & _ & _ & _ & ->).
  - intros b. rewrite R4. unfold refs. rewrite Hcached. destruct (cached dv s b) as [i|]; [|done].
    cbn [bufs]. by destruct (F i) as (_ & _ & _ & _ & -> & _).
  - intros i b. destruct (F i) as (_ & _ & -> & -> & _). apply R5.
  - intros i. destruct (F i) as (-> & _ & _ & -> & _). apply R6.
Qed.

(** [brelse], with its effect on the list: the last reference moves the buffer to
    the front. *)
Lemma brelse_run s a i b order :
  bio_rep dv me s a -> a_held a !! i = Some b ->
  (u32 (a_refs a b - 1) = 0 -> a_view a b = a_disk a b) ->
  ring (bufs s) order -> order ≡ₚ buf_ids ->
  exists s', brelse me i s = Ok (tt, s') /\ bio_rep dv me s' (a_brelse i b a) /\
    (u32 (a_refs a b - 1) = 0 -> exists l1 l2, order = l1 ++ i :: l2 /\ ring (bufs s') (i :: l1 ++ l2)) /\
    (u32 (a_refs a b - 1) <> 0 -> ring (bufs s') order).
Proof.
  intros Hrep Hh Hcl Hring Hperm. destruct (rep_held s a i b Hrep Hh) as (Hi & Hl & Hp & Hv & Hd & Hb & Hc & Hvw & Hrf).
  unfold brelse. mstep (holdingsleep_ok s a i b Hrep Hh). mcomp.
  unfold releasesleep, modify_buf. mcomp. mcomp. mcomp.
  cbn [bufs set_buf]. rewrite !upd_eq. cbn [b_refcnt with_refcnt].
  set (x' := with_refcnt _ _). set (s1 := set_buf i x' _).
  assert (bio_rep dv me s1 (a_brelse i b a)) as Hrep1.
  { pose proof Hrep as [[o Hinv] R1 R2 R3 R4 R5 R6].
    eapply (rep_change dv me s a i b _ x'); try done; unfold s1, x'; same_i; try other_i.
    - apply u32_bound.
    - intros Hz _ _. rewrite <- Hvw, <- R1. apply Hcl. by rewrite Hrf.
    - intros c. rewrite Hv. destruct (Z.eqb_spec c b) as [->|]; done.
    - intros c. unfold upd. by rewrite Hrf. }
  assert (ring (bufs s1) order) as Hring1.
  { eapply ring_ext; [|exact Hring]. intros x. cbn [bufs set_buf s1]. unfold upd.
    by destruct (Z.eqb_spec x i) as [->|]. }
  rewrite Hrf. cbn [b_refcnt with_lock]. destruct (Z.eqb_spec (u32 (b_refcnt (bufs s i) - 1)) 0) as [Hz|Hz].
  - destruct (move_front s1 order i Hring1 Hperm Hi) as (g & l1 & l2 & -> & Hrun & Hcore & Hring2).
    eexists. split; [exact Hrun|]. split_and!; [|by exists l1, l2|done].
    eapply rep_relink; [exact Hrep1|exact Hcore|exact Hring2|]. rewrite <- Hperm. apply Permutation_middle.
  - exists s1. done.
Qed.

Lemma brelse_ok s a i b :
  bio_rep dv me s a -> a_held a !! i = Some b ->
  (u32 (a_refs a b - 1) = 0 -> a_view a b = a_disk a b) ->
  exists s', brelse me i s = Ok (tt, s') /\ bio_rep dv me s' (a_brelse i b a).
Proof.
  intros Hrep Hh Hcl. pose proof (br_inv _ _ _ _ Hrep) as [order Hinv].
  destruct (brelse_run s a i b order Hrep Hh Hcl) as (s' & Hrun & Hrep' & _); [apply Hinv..|]. by exists s'.
Qed.

(** ** [bget] and [bread] *)

(** Under the conditions of the interface, some buffer is unreferenced. *)
Lemma unused_exists s a order :
  bio_rep dv me s a -> bc_inv dv s order -> available a ->
  exists i, List.find (fun i => b_refcnt (bufs s i) =? 0) (rev order) = Some i /\
    0 <= i < NBUF /\ b_refcnt (bufs s i) = 0.
Proof.
  intros Hrep Hinv (X & HX & Hsz).
  destruct (List.find (fun i => b_refcnt (bufs s i) =? 0) (rev order)) as [i|] eqn:E.
  { apply find_some in E as [Hin Hz]. exists i. split; [done|]. apply in_rev, list_elem_of_In in Hin.
    apply (order_ids dv s order Hinv) in Hin. by apply Z.eqb_eq in Hz. }
  exfalso. assert (forall i, 0 <= i < NBUF -> b_refcnt (bufs s i) <> 0) as Hall.
  { intros i Hi Hz. pose proof (find_none _ _ E i) as Hn. cbn in Hn. rewrite Hz in Hn. discriminate Hn.
    apply -> in_rev. apply list_elem_of_In. by apply (order_ids dv s order Hinv). }
  assert (forall i, 0 <= i < NBUF -> b_dev (bufs s i) = dv) as Hdev.
  { intros i Hi. destruct (Z.eq_dec (b_dev (bufs s i)) dv) as [?|Hne]; [done|].
    destruct (bi_idle _ _ _ Hinv i Hi Hne). by destruct (Hall i Hi). }
  set (bs := (fun i => b_blockno (bufs s i)) <$> buf_ids).
  assert (NoDup bs) as Hnd.
  { apply NoDup_fmap_2_strong; [|apply NoDup_fmap_2_strong; [intros; lia|apply NoDup_seq]].
    intros x y Hx%elem_of_buf_ids Hy%elem_of_buf_ids Heq. by apply (bi_unique _ _ _ Hinv); auto. }
  assert ((list_to_set bs : gset Z) ⊆ X) as Hsub.
  { intros b. rewrite elem_of_list_to_set. unfold bs. rewrite list_elem_of_fmap.
    intros (i & -> & Hi%elem_of_buf_ids). apply HX. rewrite (br_refs _ _ _ _ Hrep). unfold refs.
    rewrite (proj2 (cached_some dv s order Hinv (b_blockno (bufs s i)) i)) by auto. auto. }
  apply subseteq_size in Hsub. rewrite size_list_to_set in Hsub by done.
  unfold bs in Hsub. rewrite length_fmap in Hsub. change (length buf_ids) with 30%nat in Hsub.
  unfold NBUF, MAXOPBLOCKS in Hsz. lia.
Qed.

Section Recycle.
Variables (s : bcache) (order : list Z) (i b : Z).
Hypothesis Hinv : bc_inv dv s order.
Hypothesis Hi : 0 <= i < NBUF.
Hypothesis Hz : b_refcnt (bufs s i) = 0.
Hypothesis Hul : sl_locked (b_lock (bufs s i)) = false.
Hypothesis Hnone : cached dv s b = None.
Let s' := set_buf i (recycle dv b (bufs s i)) s.

Lemma recycle_i : bufs s' i = recycle dv b (bufs s i).
Proof. apply upd_eq. Qed.

Lemma recycle_ne x : x <> i -> bufs s' x = bufs s x.
Proof. apply upd_ne. Qed.

Lemma recycle_fresh x : 0 <= x < NBUF -> b_dev (bufs s x) = dv -> b_blockno (bufs s x) <> b.
Proof.
  intros Hx Hd Hb. assert (cached dv s b = Some x) by (by apply (cached_some dv s order Hinv)). congruence.
Qed.

Lemma recycle_inv : bc_inv dv s' order.
Proof.
  split.
  - eapply ring_ext; [|apply Hinv]. intros x. destruct (Z.eq_dec x i) as [->|];
      [by rewrite recycle_i|by rewrite recycle_ne].
  - apply Hinv.
  - intros x y Hx Hy. destruct (Z.eq_dec x i) as [->|], (Z.eq_dec y i) as [->|];
      rewrite ?recycle_i, ?recycle_ne by done; cbn; intros Hdx Hdy Hb; [done|..].
    + by destruct (recycle_fresh y Hy Hdy).
    + by destruct (recycle_fresh x Hx Hdx).
    + by apply (bi_unique _ _ _ Hinv).
  - intros x Hx. destruct (Z.eq_dec x i) as [->|]; [by rewrite recycle_i|rewrite recycle_ne by done]. by apply Hinv.
  - intros x Hx. destruct (Z.eq_dec x i) as [->|]; [by rewrite recycle_i|rewrite recycle_ne by done]. by apply Hinv.
  - intros x Hx. destruct (Z.eq_dec x i) as [->|]; [by rewrite recycle_i|rewrite recycle_ne by done]. by apply Hinv.
Qed.

Lemma recycle_cached c j :
  cached dv s' c = Some j <-> (j = i /\ c = b) \/ (j <> i /\ cached dv s c = Some j).
Proof.
  rewrite (cached_some dv s' order recycle_inv), (cached_some dv s order Hinv).
  destruct (Z.eq_dec j i) as [->|]; [rewrite recycle_i|rewrite recycle_ne by done]; cbn; [|naive_solver].
  split; [intros (_ & _ & <-); auto|intros [[_ ->]|[? _]]; done].
Qed.

(** The block that the buffer cached before is on the disk. *)
Lemma recycle_old c : cached dv s c = Some i -> view dv s c = disk s c.
Proof.
  intros Hc. unfold view. rewrite Hc. apply (cached_some dv s order Hinv) in Hc as (_ & Hd & <-).
  destruct (b_valid _) eqn:Hv; [|done]. by apply (bi_clean _ _ _ Hinv).
Qed.

Lemma recycle_view c : view dv s' c = view dv s c.
Proof.
  destruct (Z.eq_dec c b) as [->|Hne].
  - unfold view at 1. rewrite (proj2 (recycle_cached b i)) by auto. rewrite recycle_i. cbn.
    unfold view. by rewrite Hnone.
  - destruct (cached dv s' c) as [j|] eqn:E.
    + unfold view. rewrite E. apply recycle_cached in E as [[_ ?]|[Hj E]]; [done|]. by rewrite E, recycle_ne.
    + destruct (cached dv s c) as [j|] eqn:E'; [|unfold view; by rewrite E, E'].
      assert (j = i) as ->.
      { destruct (Z.eq_dec j i) as [?|Hj]; [done|]. assert (cached dv s' c = Some j) by (apply recycle_cached; auto). congruence. }
      rewrite (recycle_old c E'). unfold view. by rewrite E.
Qed.

Lemma recycle_refs c : refs dv s' c = if c =? b then 1 else refs dv s c.
Proof.
  unfold refs. destruct (Z.eqb_spec c b) as [->|Hne].
  - rewrite (proj2 (recycle_cached b i)) by auto. by rewrite recycle_i.
  - destruct (cached dv s' c) as [j|] eqn:E.
    + apply recycle_cached in E as [[_ ?]|[Hj E]]; [done|]. by rewrite E, recycle_ne.
    + destruct (cached dv s c) as [j|] eqn:E'; [|done].
      destruct (Z.eq_dec j i) as [->|Hj]; [done|].
      assert (cached dv s' c = Some j) by (apply recycle_cached; auto). congruence.
Qed.
End Recycle.

Lemma sane_unlocked s a i :
  bio_rep dv me s a -> sane a -> 0 <= i < NBUF -> b_refcnt (bufs s i) = 0 -> sl_locked (b_lock (bufs s i)) = false.
Proof.
  intros Hrep Hsane Hi Hz. destruct (sl_locked _) eqn:E; [|done]. exfalso.
  assert (a_held a !! i = Some (b_blockno (bufs s i))) as Hh by (by apply (br_held _ _ _ _ Hrep)).
  apply (Hsane _ _ Hh). destruct (rep_held _ _ _ _ Hrep Hh) as (_ & _ & _ & _ & _ & _ & _ & _ & ->). done.
Qed.

(** Recycling an unreferenced buffer for a block that is not cached. *)
Lemma recycle_ok s a i b :
  bio_rep dv me s a -> sane a -> cached dv s b = None -> 0 <= i < NBUF -> b_refcnt (bufs s i) = 0 ->
  bio_rep dv me (set_buf i (recycle dv b (bufs s i)) s) (a_ref b 1 a).
Proof.
  intros Hrep Hsane Hnone Hi Hz. pose proof (sane_unlocked _ _ _ Hrep Hsane Hi Hz) as Hul.
  pose proof Hrep as [[order Hinv] R1 R2 R3 R4 R5 R6]. split; try done.
  - exists order. by apply recycle_inv.
  - intros c. rewrite (recycle_view s order) by done. apply R3.
  - intros c. rewrite (recycle_refs s order) by done. cbn. unfold upd. rewrite !R4.
    destruct (Z.eqb_spec c b) as [->|]; [|done]. unfold refs. by rewrite Hnone.
  - intros j c. cbn [a_held a_ref]. rewrite R5. destruct (Z.eq_dec j i) as [->|].
    + rewrite recycle_i. cbn. rewrite Hul. split; by intros (_ & ? & _).
    + by rewrite recycle_ne.
  - intros j Hj. destruct (Z.eq_dec j i) as [->|]; [rewrite recycle_i; cbn; congruence|].
    rewrite recycle_ne by done. auto.
Qed.

Lemma ring_ends f order :
  ring f order -> b_next (f head) = hd head order /\ b_prev (f head) = List.last order head /\
  chain f (order ++ [head]).
Proof.
  intros Hring. unfold ring in Hring. split_and!.
  - destruct order; cbn [app] in Hring; by apply chain_cons in Hring as (-> & _).
  - destruct (exists_last (l := head :: order)) as (q & p & Eq); [done|].
    change (head :: order ++ [head]) with ((head :: order) ++ [head]) in Hring. rewrite Eq, <- app_assoc in Hring.
    apply (chain_app _ q p [head]) in Hring as [_ Hc]. apply chain_cons in Hc as (_ & -> & _).
    destruct order as [|y l]; [by destruct q as [|? []]; injection Eq|].
    change (List.last (y :: l) head) with (List.last (head :: y :: l) head). by rewrite Eq, last_last.
  - destruct (order ++ [head]); [done|]. by apply chain_cons in Hring as (_ & _ & ?).
Qed.

(** [bget] up to the release of [bcache.lock], on the ring as a list. *)
Definition bget_on (order : list Z) (b : Z) (s : bcache) : res (Z * bcache) :=
  match cached dv s b with
  | Some i => Ok (i, set_buf i (with_refcnt (u32 (b_refcnt (bufs s i) + 1)) (bufs s i)) s)
  | None =>
      match List.find (fun i => b_refcnt (bufs s i) =? 0) (rev order) with
      | Some i => Ok (i, set_buf i (recycle dv b (bufs s i)) s)
      | None => Panic "bget: no buffers"
      end
  end.

Lemma bget_ref_run s order b : bc_inv dv s order -> bget_ref dv b s = bget_on order b s.
Proof.
  intros Hinv. pose proof (order_nodup _ _ _ Hinv) as Hnd. apply NoDup_cons in Hnd as [Hh _].
  pose proof (bi_ring _ _ _ Hinv) as Hring. pose proof (order_length _ _ _ Hinv) as Hlen.
  destruct (ring_ends _ _ Hring) as (Hfirst & Hlast & Hc1). unfold bget_ref, bget_on. mcomp. rewrite Hfirst.
  mstep (bget_cached_run s dv b order (Z.to_nat (NBUF + 1)) Hc1 Hh); [|unfold NBUF, MAXOPBLOCKS in *; lia].
  rewrite (find_order dv s order Hinv). destruct (cached dv s b) as [i|] eqn:E; [done|].
  mcomp. rewrite Hlast.
  mstep (bget_unused_run s order (Z.to_nat (NBUF + 1)) (chain_prefix _ (head :: order) [head] Hring) Hh);
    [|unfold NBUF, MAXOPBLOCKS in *; lia].
  by destruct (List.find _ _).
Qed.

(** [bget] up to its [acquiresleep]: a reference to the block's buffer, which
    nobody has locked. *)
Lemma bget_ref_ok s a b :
  bio_rep dv me s a -> sane a -> (forall i, a_held a !! i <> Some b) -> available a \/ a_refs a b <> 0 ->
  a_refs a b <> 2 ^ 32 - 1 ->
  exists i s', bget_ref dv b s = Ok (i, s') /\ bio_rep dv me s' (a_ref b 1 a) /\
    0 <= i < NBUF /\ b_dev (bufs s' i) = dv /\ b_blockno (bufs s' i) = b /\
    sl_locked (b_lock (bufs s' i)) = false.
Proof.
  intros Hrep Hsane Hnh Hav Hmax. pose proof Hrep as [[order Hinv] R1 R2 R3 R4 R5 R6].
  rewrite (bget_ref_run s order b Hinv). unfold bget_on. destruct (cached dv s b) as [i|] eqn:E.
  - assert (E' := E). apply (cached_some dv s order Hinv) in E' as (Hi & Hd & Hb).
    assert (sl_locked (b_lock (bufs s i)) = false) as Hul.
    { destruct (sl_locked _) eqn:El; [|done]. exfalso. apply (Hnh i). by apply R5. }
    eexists i, _. split; [reflexivity|]. cbn [bufs set_buf]. rewrite upd_eq. split_and!; try done; [|lia..].
    eapply (rep_change dv me s a i b _ (with_refcnt (u32 (b_refcnt (bufs s i) + 1)) (bufs s i))); try done; same_i; try other_i.
    + apply u32_bound.
    + intros Hz. exfalso. rewrite R4 in Hmax. unfold refs in Hmax. rewrite E in Hmax.
      pose proof (bi_refcnt _ _ _ Hinv i Hi). rewrite u32_small in Hz; lia.
    + congruence.
    + intros c. destruct (Z.eqb_spec c b) as [->|]; [|done]. rewrite R3. unfold view. by rewrite E.
    + intros c. unfold upd. rewrite R4. unfold refs at 1. by rewrite E.
    + rewrite Hul. rewrite delete_id; [done|]. apply eq_None_not_Some. intros [c Hc]. apply R5 in Hc as (_ & ? & _). congruence.
  - destruct Hav as [Hav|Hav].
    2:{ rewrite R4 in Hav. unfold refs in Hav. by rewrite E in Hav. }
    destruct (unused_exists s a order Hrep Hinv Hav) as (i & -> & Hi & Hz).
    eexists i, _. split; [reflexivity|]. split; [by apply recycle_ok|].
    cbn [bufs set_buf]. rewrite upd_eq. cbn. split_and!; try done; try lia. by apply (sane_unlocked s a).
Qed.

Lemma bread_ok s a b :
  bio_rep dv me s a -> sane a -> (forall i, a_held a !! i <> Some b) -> available a \/ a_refs a b <> 0 ->
  a_refs a b <> 2 ^ 32 - 1 ->
  exists i s', bread me dv b s = Ok (i, s') /\ a_held a !! i = None /\ bio_rep dv me s' (a_bread i b a).
Proof.
  intros Hrep Hsane Hnh Hav Hmax.
  destruct (bget_ref_ok s a b Hrep Hsane Hnh Hav Hmax) as (i & s1 & Hrun & Hrep1 & Hi & Hd & Hb & Hul).
  pose proof Hrep1 as [[order Hinv] R1 R2 R3 R4 R5 R6].
  assert (cached dv s1 b = Some i) as Hc by (by apply (cached_some dv s1 order Hinv)).
  assert (a_held a !! i = None) as Hn.
  { apply eq_None_not_Some. intros [c Hci]. apply R5 in Hci as (_ & ? & _). congruence. }
  exists i. unfold bread, bget, acquiresleep. rewrite bind_assoc. mstep Hrun. rewrite bind_assoc.
  rewrite bind_assoc. mcomp. rewrite Hul. mcomp. mcomp. mcomp. cbn [bufs set_buf]. rewrite upd_eq. cbn [b_valid with_lock].
  set (x' := with_valid true (with_data (view dv s1 b) (with_lock (Sleeplock true me) (bufs s1 i)))).
  assert (forall s', bufs s' i = x' -> (forall x, x <> i -> bufs s' x = bufs s1 x) -> disk s' = disk s1 ->
    writes s' = writes s1 -> bio_rep dv me s' (a_bread i b a)) as Hfinal.
  { intros s' E Ho Hdk Hwr. eapply (rep_change dv me s1 (a_ref b 1 a) i b _ x'); try done.
    - by apply Hinv.
    - by rewrite Hdk.
    - by rewrite Hdk.
    - by rewrite Hwr.
    - intros c. cbn. destruct (Z.eqb_spec c b) as [->|]; [|done]. rewrite <- R3. done.
    - intros c. destruct (Z.eqb_spec c b) as [->|]; [|done]. unfold x'. cbn [b_refcnt with_valid with_data with_lock].
      transitivity (a_refs (a_ref b 1 a) b); [done|]. rewrite R4. unfold refs. by rewrite Hc. }
  assert (view dv s1 b = if b_valid (bufs s1 i) then b_data (bufs s1 i) else disk s1 b) as Hview
    by (unfold view; by rewrite Hc).
  destruct (b_valid (bufs s1 i)) eqn:Hv; cbn [negb].
  - eexists. split; [reflexivity|]. split; [done|]. apply Hfinal; [|other_i|done|done].
    cbn. rewrite upd_eq. unfold x'. rewrite Hview. destruct (bufs s1 i). cbn in *. by rewrite Hv.
  - eexists. split; [reflexivity|]. split; [done|]. apply Hfinal; [|other_i|done|done].
    cbn. rewrite !upd_eq. unfold x'. rewrite Hview. cbn. by rewrite Hb.
Qed.

Lemma data_ok s a i b :
  bio_rep dv me s a -> a_held a !! i = Some b -> b_data (bufs s i) = a_view a b /\ b_blockno (bufs s i) = b.
Proof.
  intros Hrep Hh. destruct (rep_held s a i b Hrep Hh) as (_ & _ & _ & _ & _ & Hb & _ & Hv & _). done.
Qed.
End Rep.

(** ** [binit] *)

(** The zeroed memory of [bcache] at boot, and the disk. *)
Definition zero_buf : buf := Buf false 0 0 (Sleeplock false 0) 0 0 0 (replicate (Z.to_nat BSIZE) 0).
Definition boot (d : Z -> block) : bcache := Bcache (fun _ => zero_buf) d [].

Lemma binit_loop_ok ks : forall s order,
  ring (bufs s) order -> (forall x, core (bufs s x) = core zero_buf) -> NoDup (head :: ks ++ order) ->
  exists g, mfor ks (fun i => initsleeplock i ;; link_front i) s = Ok (tt, Bcache g (disk s) (writes s)) /\
    ring g (rev ks ++ order) /\ (forall x, core (g x) = core zero_buf).
Proof.
  induction ks as [|i ks IH]; intros s order Hring Hcore Hnd; cbn [mfor].
  { exists (bufs s). by destruct s. }
  cbn [app] in Hnd. assert (NoDup (head :: i :: order)) as Hnd1.
  { apply NoDup_cons in Hnd as [Hh Hnd]. apply NoDup_cons in Hnd as [Hi Hnd].
    rewrite elem_of_cons, elem_of_app in Hh. rewrite elem_of_app in Hi. apply NoDup_app in Hnd as (_ & _ & Hnd).
    constructor; [rewrite elem_of_cons; tauto|]. constructor; [tauto|done]. }
  set (s1 := set_buf i (with_lock (Sleeplock false 0) (bufs s i)) s).
  assert (forall x, b_next (bufs s1 x) = b_next (bufs s x) /\ b_prev (bufs s1 x) = b_prev (bufs s x) /\
    core (bufs s1 x) = core zero_buf) as Hs1.
  { intros x. cbn. unfold upd. destruct (Z.eqb_spec x i) as [->|]; [|done].
    split_and!; [done|done|]. rewrite <- (Hcore i). specialize (Hcore i). revert Hcore.
    unfold core. destruct (bufs s i). cbn. intros [=]. by subst. }
  assert (ring (bufs s1) order) as Hring1.
  { eapply ring_ext; [|exact Hring]. intros x. destruct (Hs1 x) as (? & ? & _). done. }
  assert (i <> head) as Hih by (intros ->; apply NoDup_cons in Hnd1 as [Hh _]; apply Hh; by left).
  destruct (ring_ends _ _ Hring1) as (Hfirst & _ & _).
  destruct (link_front_run s1 i Hih) as (g & Hrun & Hcg & Hgn & Hgp).
  { rewrite Hfirst. destruct order as [|o order]; cbn; [by apply not_eq_sym|]. intros ->.
    apply NoDup_cons in Hnd1 as [_ Hnd1]. apply NoDup_cons in Hnd1 as [Hi _]. apply Hi. by left. }
  destruct (IH (Bcache g (disk s) (writes s)) (i :: order)) as (g' & Hrun' & Hring' & Hcg').
  - by eapply (link_front_ring (bufs s1)).
  - intros x. cbn [bufs]. rewrite Hcg. apply Hs1.
  - by rewrite <- Permutation_middle.
  - exists g'. split_and!; [|by cbn [rev]; rewrite <- app_assoc|done].
    rewrite bind_assoc. erewrite bind_ok; [|reflexivity]. erewrite bind_ok; [|exact Hrun]. exact Hrun'.
Qed.

Lemma binit_ok dv me d :
  dv <> 0 -> exists s, binit (boot d) = Ok (tt, s) /\ bio_rep dv me s (a_boot d).
Proof.
  intros Hdv. unfold binit. unfold modify_buf at 1 2. mcomp. mcomp.
  set (s0 := set_buf head _ _).
  destruct (binit_loop_ok buf_ids s0 []) as (g & Hrun & Hring & Hcore).
  - unfold ring. cbn [app]. rewrite chain_cons. unfold s0. cbn [bufs set_buf]. by rewrite !upd_eq.
  - intros x. unfold s0. cbn [bufs set_buf boot]. unfold upd. by destruct (x =? head).
  - rewrite app_nil_r. constructor; [rewrite elem_of_buf_ids; unfold head; lia|].
    apply NoDup_fmap_2_strong; [intros; lia|apply NoDup_seq].
  - eexists. split; [exact Hrun|]. clear Hrun. rewrite app_nil_r in Hring.
    assert (forall x, b_valid (g x) = false /\ b_dev (g x) = 0 /\ b_blockno (g x) = 0 /\
      b_lock (g x) = Sleeplock false 0 /\ b_refcnt (g x) = 0 /\ b_data (g x) = b_data zero_buf) as F
      by (intros x; apply (core_fields (g x) zero_buf), Hcore).
    assert (forall b, cached dv (Bcache g (disk s0) (writes s0)) b = None) as Hc.
    { intros b. apply eq_None_not_Some. intros [i Hi]. apply find_some in Hi as [_ Hi].
      apply is_block_true in Hi as [Hi _]. cbn in Hi. destruct (F i) as (_ & ? & _). congruence. }
    split; cbn [bufs disk writes].
    + exists (rev buf_ids). split; cbn [bufs disk]; [done|by rewrite <- Permutation_rev|..].
      * intros i j _ _ Hd. destruct (F i) as (_ & ? & _). congruence.
      * intros i _ _. destruct (F i) as (_ & _ & _ & -> & -> & _). done.
      * intros i _ Hd. destruct (F i) as (_ & ? & _). congruence.
      * intros i _. destruct (F i) as (_ & _ & _ & _ & -> & _). lia.
    + intros b. reflexivity.
    + reflexivity.
    + intros b. unfold view. by rewrite Hc.
    + intros b. unfold refs. by rewrite Hc.
    + intros i b. destruct (F i) as (_ & _ & _ & -> & _). cbn. rewrite lookup_empty. split; [done|by intros (_ & ? & _)].
    + intros i _. destruct (F i) as (_ & _ & _ & -> & _). done.
Qed.

(** ** The implementation of the interface *)

Lemma rep_equiv dv me s a a' : bio_rep dv me s a -> a_equiv a a' -> bio_rep dv me s a'.
Proof.
  intros [Hinv R1 R2 R3 R4 R5 R6] (E1 & E2 & E3 & E4 & E5). split; try done.
  - intros b. by rewrite E1.
  - by rewrite E3.
  - intros b. by rewrite E2.
  - intros b. by rewrite E4.
  - intros i b. by rewrite E5.
Qed.

Lemma refs_bound dv me s a b : bio_rep dv me s a -> 0 <= a_refs a b < 2 ^ 32.
Proof.
  intros [[order Hinv] _ _ _ R4 _ _]. rewrite R4. unfold refs. destruct (cached dv s b) as [i|] eqn:E; [|lia].
  apply (cached_some dv s order Hinv) in E as (Hi & _). by apply Hinv.
Qed.

Lemma rep_obs dv me s a :
  bio_rep dv me s a -> (forall b, disk s b = a_disk a b) /\ writes s = a_writes a.
Proof. intros Hrep. split; [intros b; symmetry; apply (br_disk _ _ _ _ Hrep)|symmetry; apply (br_writes _ _ _ _ Hrep)]. Qed.

#[export] Instance bio_cache (me : Z) : BlockCache bcache := {
  c_dev := ROOTDEV;
  c_bread := bread me;
  c_bwrite := bwrite me;
  c_brelse := brelse me;
  c_bpin := bpin;
  c_bunpin := bunpin;
  c_data s i := b_data (bufs s i);
  c_blockno s i := b_blockno (bufs s i);
  c_set := bset_data;
  c_boot := boot;
  c_binit := binit;
  c_disk := disk;
  c_writes := writes;
  c_rep := bio_rep ROOTDEV me;
}.

#[export] Instance bio_cache_ok (me : Z) : BlockCacheOk bcache (C := bio_cache me).
Proof.
  split.
  - reflexivity.
  - exact (rep_obs ROOTDEV me).
  - exact (rep_equiv ROOTDEV me).
  - exact (refs_bound ROOTDEV me).
  - exact (fun d => binit_ok ROOTDEV me d ltac:(discriminate)).
  - exact (bread_ok ROOTDEV me).
  - exact (data_ok ROOTDEV me).
  - exact (bset_data_ok ROOTDEV me).
  - exact (bwrite_ok ROOTDEV me).
  - exact (bpin_ok ROOTDEV me).
  - exact (bunpin_ok ROOTDEV me).
  - exact (brelse_ok ROOTDEV me).
Qed.
