(* ===== verification/BioSpec.v ===== *)
(** * The buffer cache as its clients see it

    [cop] are the operations of [kernel/bio.c] and the assignments to [b->data].
    From [binit] on, every sequence of operations that respects the cache's rules
    behaves as the abstract cache of [Cache]: no operation panics, waits for a lock
    or runs out of fuel, and a buffer shows the block's last contents.  The rules
    are those of the comment of [kernel/bio.c]: use a buffer only between [bread] and
    [brelse], one at a time per block, and do not reference more than [NBUF] blocks. *)

From S2P Require Import Prelude Riscv Cache Bio.

Inductive cop :=
| OpRead (b : Z)
| OpSet (i : Z) (d : block)
| OpWrite (i : Z)
| OpPin (i : Z)
| OpUnpin (i : Z)
| OpRelse (i : Z).

(** The operation of the code; [bread] returns the buffer. *)
Definition run_cop (me : Z) (o : cop) : M bcache Z :=
  match o with
  | OpRead b => bread me ROOTDEV b
  | OpSet i d => bset_data i d ;; ret i
  | OpWrite i => bwrite me i ;; ret i
  | OpPin i => bpin i ;; ret i
  | OpUnpin i => bunpin i ;; ret i
  | OpRelse i => brelse me i ;; ret i
  end.

(** The block of a locked buffer. *)
Definition held_block (a : acache) (i : Z) : Z := default 0 (a_held a !! i).

(** The operation of the abstract cache, when the code returns the buffer [r]. *)
Definition a_cop (o : cop) (r : Z) (a : acache) : acache :=
  match o with
  | OpRead b => a_bread r b a
  | OpSet i d => a_set (held_block a i) d a
  | OpWrite i => a_bwrite (held_block a i) a
  | OpPin i => a_ref (held_block a i) 1 a
  | OpUnpin i => a_ref (held_block a i) (-1) a
  | OpRelse i => a_brelse i (held_block a i) a
  end.

(** The rules.  A modified block may be released for good only when it has been
    written, and a pin may be removed only when there is one. *)
Definition legal (a : acache) (o : cop) : Prop :=
  match o with
  | OpRead b => (forall i, a_held a !! i <> Some b) /\ (available a \/ a_refs a b <> 0) /\ a_refs a b < 2 ^ 32 - 1
  | OpSet i _ | OpWrite i => is_Some (a_held a !! i)
  | OpPin i => is_Some (a_held a !! i) /\ a_refs a (held_block a i) < 2 ^ 32 - 1
  | OpUnpin i => is_Some (a_held a !! i) /\ 1 < a_refs a (held_block a i)
  | OpRelse i => is_Some (a_held a !! i) /\
      (a_refs a (held_block a i) = 1 -> a_view a (held_block a i) = a_disk a (held_block a i))
  end.

(** The states of the code with those of the abstract cache, from [binit] on the
    disk [d]. *)
Inductive reaches (me : Z) (d : Z -> block) : bcache -> acache -> Prop :=
| reach_boot s : binit (boot d) = Ok (tt, s) -> reaches me d s (a_boot d)
| reach_step s a o r s' :
    reaches me d s a -> legal a o -> run_cop me o s = Ok (r, s') -> reaches me d s' (a_cop o r a).

(** No block is locked twice. *)
Definition locks_apart (a : acache) : Prop :=
  forall i j b, a_held a !! i = Some b -> a_held a !! j = Some b -> i = j.

(** One operation: it returns, and the states stay related. *)
Definition step_ok (me : Z) (s : bcache) (a : acache) (o : cop) : Prop :=
  exists r s', run_cop me o s = Ok (r, s') /\ bio_rep ROOTDEV me s' (a_cop o r a) /\
    sane (a_cop o r a) /\ locks_apart (a_cop o r a) /\
    match o with OpRead _ => a_held a !! r = None | _ => True end.

Section Step.
Context (me : Z).

Lemma refs_sane (a a' : acache) b n :
  sane a -> n <> 0 -> a_held a' = a_held a -> (forall c, a_refs a' c = upd (a_refs a) b n c) -> sane a'.
Proof.
  intros Hs Hn Eh Er i c Hc. rewrite Er. unfold upd. destruct (c =? b); [done|]. rewrite Eh in Hc. by eapply Hs.
Qed.

Lemma step_read s a b :
  bio_rep ROOTDEV me s a -> sane a -> locks_apart a -> legal a (OpRead b) -> step_ok me s a (OpRead b).
Proof.
  intros Hrep Hs Hl (Hnh & Hav & Hmax). pose proof (refs_bound _ _ _ _ b Hrep) as Hb.
  destruct (bread_ok ROOTDEV me s a b) as (i & s' & Hrun & Hi & Hrep'); try done; [lia|].
  exists i, s'. split_and!; try done; cbn.
  - intros j c. cbn. rewrite lookup_insert_Some. intros Hj. unfold upd. destruct (Z.eqb_spec c b) as [->|Hne].
    + rewrite u32_small by lia. lia.
    + destruct Hj as [[_ ?]|[_ Hj]]; [congruence|]. by eapply Hs.
  - intros j k c. cbn. rewrite !lookup_insert_Some. intros [[<- <-]|[Hj1 Hj2]] [[<- E]|[Hk1 Hk2]]; try done.
    + by destruct (Hnh k).
    + subst. by destruct (Hnh j).
    + by eapply Hl.
Qed.

Lemma locked_step s a o i b (m : M bcache unit) a' :
  sane a -> locks_apart a -> run_cop me o = (m ;; ret i) -> a_cop o i a = a' ->
  match o with OpRead _ => False | _ => True end ->
  (exists s', m s = Ok (tt, s') /\ bio_rep ROOTDEV me s' a') ->
  (a_held a' = a_held a /\ (forall c, a_refs a' c = a_refs a c) \/
   a_held a' = a_held a /\ (exists n, n <> 0 /\ forall c, a_refs a' c = upd (a_refs a) b n c) \/
   a_held a' = delete i (a_held a) /\ (exists n, forall c, a_refs a' c = upd (a_refs a) b n c) /\ a_held a !! i = Some b) ->
  step_ok me s a o.
Proof.
  intros Hs Hl Em Ea Ho (s' & Hrun & Hrep) Hcase. exists i, s'. rewrite Em, Ea. split_and!; [by mstep Hrun|done| | |by destruct o].
  - destruct Hcase as [[Eh Er]|[[Eh (n & Hn & Er)]|[Eh ((n & Er) & Hh)]]].
    + intros j c Hc. rewrite Er. rewrite Eh in Hc. by eapply Hs.
    + by eapply refs_sane.
    + intros j c Hc. rewrite Eh in Hc. apply lookup_delete_Some in Hc as [Hj Hc]. rewrite Er, upd_ne; [by eapply Hs|].
      intros ->. apply Hj. by eapply Hl.
  - intros j k c. destruct Hcase as [[-> _]|[[-> _]|[-> _]]]; [apply Hl|apply Hl|].
    rewrite !lookup_delete_Some. intros [_ Hj] [_ Hk]. by eapply Hl.
Qed.

Lemma legal_step s a o : bio_rep ROOTDEV me s a -> sane a -> locks_apart a -> legal a o -> step_ok me s a o.
Proof.
  intros Hrep Hs Hl Hleg. destruct o as [b|i d|i|i|i|i]; [by apply step_read|..]; cbn in Hleg;
    [destruct Hleg as [b Hb]|destruct Hleg as [b Hb]|destruct Hleg as [[b Hb] Hleg]..];
    (assert (held_block a i = b) as Eb by (unfold held_block; by rewrite Hb)); try (rewrite Eb in Hleg);
    pose proof (refs_bound _ _ _ _ b Hrep) as Hbound; pose proof (Hs i b Hb) as Hne;
    (eapply (locked_step _ _ _ i b); [done|done|reflexivity|reflexivity|done|cbn [a_cop]; rewrite ?Eb|cbn [a_cop]; rewrite ?Eb; cbn]).
  - by apply bset_data_ok.
  - by left.
  - by apply bwrite_ok.
  - by left.
  - by apply bpin_ok.
  - right. left. split; [done|]. eexists. split; [|done]. rewrite u32_small by lia. lia.
  - by apply bunpin_ok.
  - right. left. split; [done|]. eexists. split; [|done]. rewrite u32_small by lia. lia.
  - apply brelse_ok; [done|done|]. intros Hz. apply Hleg. rewrite u32_small in Hz by lia. lia.
  - right. right. split; [done|]. split; [by eexists|done].
Qed.
End Step.

Lemma reaches_rep me d s a : reaches me d s a -> bio_rep ROOTDEV me s a /\ sane a /\ locks_apart a.
Proof.
  induction 1 as [s Hrun|s a o r s' _ (Hrep & Hs & Hl) Hleg Hrun].
  - destruct (binit_ok ROOTDEV me d) as (s1 & Hrun1 & Hrep); [discriminate|]. rewrite Hrun in Hrun1. injection Hrun1 as <-.
    split_and!; [done|intros i b; cbn; by rewrite lookup_empty|intros i j b; cbn; by rewrite lookup_empty].
  - destruct (legal_step me s a o Hrep Hs Hl Hleg) as (r1 & s1 & Hrun1 & H). rewrite Hrun in Hrun1.
    injection Hrun1 as <- <-. destruct H as (? & ? & ? & _). done.
Qed.

(** C12. Refinement: from [binit] on, every operation that respects the rules returns
    (no panic, no wait), the new state is that of the abstract cache, and every
    locked buffer shows the current contents of its block. *)
Theorem bio_refines_cache me d s a o :
  reaches me d s a -> legal a o ->
  exists r s', run_cop me o s = Ok (r, s') /\ let a' := a_cop o r a in
    reaches me d s' a' /\ (forall b, disk s' b = a_disk a' b) /\ writes s' = a_writes a' /\
    forall i b, a_held a' !! i = Some b -> b_data (bufs s' i) = a_view a' b /\ b_blockno (bufs s' i) = b.
Proof.
  intros Hr Hleg. destruct (reaches_rep _ _ _ _ Hr) as (Hrep & Hs & Hl).
  destruct (legal_step me s a o Hrep Hs Hl Hleg) as (r & s' & Hrun & Hrep' & _).
  exists r, s'. split; [done|]. cbn zeta. destruct (rep_obs _ _ _ _ Hrep') as [Hd Hw].
  split_and!; [by eapply reach_step|done|done|]. intros i b. by apply (data_ok ROOTDEV me).
Qed.

Lemma boot_reaches me d : exists s, reaches me d s (a_boot d).
Proof. destruct (binit_ok ROOTDEV me d) as (s & Hrun & _); [discriminate|]. exists s. by constructor. Qed.

Lemma boot_legal d b : legal (a_boot d) (OpRead b).
Proof.
  split_and!; [intros i; cbn; by rewrite lookup_empty| |done]. left. exists ∅. done.
Qed.

Lemma bio_refines_cache_witness :
  exists s, reaches 1 (fun b => [b]) s (a_boot (fun b => [b])) /\ legal (a_boot (fun b => [b])) (OpRead 5) /\
  exists r s', run_cop 1 (OpRead 5) s = Ok (r, s') /\ let a' := a_cop (OpRead 5) r (a_boot (fun b => [b])) in
    reaches 1 (fun b => [b]) s' a' /\ (forall b, disk s' b = a_disk a' b) /\ writes s' = a_writes a' /\
    forall i b, a_held a' !! i = Some b -> b_data (bufs s' i) = a_view a' b /\ b_blockno (bufs s' i) = b.
Proof.
  destruct (boot_reaches 1 (fun b => [b])) as [s Hs]. exists s. split; [exact Hs|]. split; [apply boot_legal|].
  apply (bio_refines_cache 1 (fun b => [b]) s (a_boot (fun b => [b])) (OpRead 5) Hs), boot_legal.
Defined.

(** Replacement: the buffers are always in a list, with the links of
    [struct buf] as [next] and [prev], on which [bget] of a block that is not
    cached takes the last unreferenced buffer, or panics if there is none, and
    [brelse] of the last reference moves the buffer to the front. *)
Theorem lru_replacement me d s a :
  reaches me d s a ->
  exists order, ring (bufs s) order /\ order ≡ₚ buf_ids /\
    (forall b, cached ROOTDEV s b = None ->
      bget_ref ROOTDEV b s =
        match List.find (fun i => b_refcnt (bufs s i) =? 0) (rev order) with
        | Some i => Ok (i, set_buf i (recycle ROOTDEV b (bufs s i)) s)
        | None => Panic "bget: no buffers"
        end) /\
    (forall i b, a_held a !! i = Some b -> a_refs a b = 1 -> a_view a b = a_disk a b ->
      exists l1 l2 s', order = l1 ++ i :: l2 /\ brelse me i s = Ok (tt, s') /\ ring (bufs s') (i :: l1 ++ l2)).
Proof.
  intros Hr. destruct (reaches_rep _ _ _ _ Hr) as (Hrep & _). pose proof (br_inv _ _ _ _ Hrep) as [order Hinv].
  exists order. split_and!; [apply Hinv..| |].
  - intros b Hb. rewrite (bget_ref_run ROOTDEV s order b Hinv). unfold bget_on. by rewrite Hb.
  - intros i b Hh H1 Hcl. destruct (brelse_run ROOTDEV me s a i b order Hrep Hh) as (s' & Hrun & _ & Hf & _); [done|apply Hinv..|].
    destruct Hf as (l1 & l2 & E & Hring); [by rewrite H1|]. by exists l1, l2, s'.
Qed.

(** The machine after a first [bread]. *)
Lemma read_reaches me d b : exists s i, reaches me d s (a_bread i b (a_boot d)).
Proof.
  destruct (boot_reaches me d) as [s Hs]. destruct (reaches_rep _ _ _ _ Hs) as (Hrep & Hsane & Hl).
  destruct (legal_step me s _ (OpRead b) Hrep Hsane Hl (boot_legal d b)) as (i & s' & Hrun & _).
  exists s', i. exact (reach_step me d s _ (OpRead b) i s' Hs (boot_legal d b) Hrun).
Qed.

Definition demo_cache (i : Z) : acache := a_bread i 5 (a_boot (fun b => [b])).

Lemma lru_replacement_witness :
  exists s i, reaches 1 (fun b => [b]) s (demo_cache i) /\
    a_held (demo_cache i) !! i = Some 5 /\ a_refs (demo_cache i) 5 = 1 /\ a_view (demo_cache i) 5 = a_disk (demo_cache i) 5 /\
  exists order, ring (bufs s) order /\ order ≡ₚ buf_ids /\
    (forall b, cached ROOTDEV s b = None ->
      bget_ref ROOTDEV b s =
        match List.find (fun i => b_refcnt (bufs s i) =? 0) (rev order) with
        | Some i => Ok (i, set_buf i (recycle ROOTDEV b (bufs s i)) s)
        | None => Panic "bget: no buffers"
        end) /\
    (forall j b, a_held (demo_cache i) !! j = Some b -> a_refs (demo_cache i) b = 1 ->
      a_view (demo_cache i) b = a_disk (demo_cache i) b ->
      exists l1 l2 s', order = l1 ++ j :: l2 /\ brelse 1 j s = Ok (tt, s') /\ ring (bufs s') (j :: l1 ++ l2)).
Proof.
  destruct (read_reaches 1 (fun b => [b]) 5) as (s & i & Hs). exists s, i. split; [exact Hs|].
  split; [apply lookup_insert_eq|]. split; [reflexivity|]. split; [reflexivity|].
  exact (lru_replacement 1 (fun b => [b]) s (demo_cache i) Hs).
Defined.
