(* ===== verification/Log.v ===== *)
(** * The write-ahead log, [kernel/log.c]

    The code runs over any block cache with the interface of [Cache].  The header
    block is its bytes: [get_int] and [put_int] are the [int]s of
    [struct logheader] in it.  [sleep] in [begin_op] is [Blocked]; [wakeup] does
    not change the state of the log.

    [LogCrash] has the theorems about crashes. *)

From S2P Require Import Prelude Riscv Cache.

(** ** Integers in a block *)

(** The little-endian [int] number [k] of a block. *)
Definition get_int (d : block) (k : Z) : Z :=
  let byte j := nth (Z.to_nat (4 * k + j)) d 0 in
  i32 (byte 0 + 256 * byte 1 + 65536 * byte 2 + 16777216 * byte 3).

Definition put_int (d : block) (k v : Z) : block :=
  let at_ j := Z.to_nat (4 * k + j) in
  <[at_ 3 := u8 (u32 v / 16777216)]> (<[at_ 2 := u8 (u32 v / 65536)]>
    (<[at_ 1 := u8 (u32 v / 256)]> (<[at_ 0 := u8 (u32 v)]> d))).

(** ** The state of [struct log] *)

Record log := Log {
  l_start : Z; l_size : Z; l_outstanding : Z; l_committing : bool; l_dev : Z;
  lh_n : Z; lh_block : Z -> Z;
}.

Definition with_n n (l : log) := Log (l_start l) (l_size l) (l_outstanding l) (l_committing l) (l_dev l) n (lh_block l).
Definition with_block k b (l : log) :=
  Log (l_start l) (l_size l) (l_outstanding l) (l_committing l) (l_dev l) (lh_n l) (upd (lh_block l) k b).
Definition with_outstanding n (l : log) := Log (l_start l) (l_size l) n (l_committing l) (l_dev l) (lh_n l) (lh_block l).
Definition with_committing c (l : log) := Log (l_start l) (l_size l) (l_outstanding l) c (l_dev l) (lh_n l) (lh_block l).

(** The superblock fields that [initlog] reads. *)
Record logsb := Logsb { sb_logstart : Z; sb_nlog : Z }.

Section Log.
Context {S : Type} {C : BlockCache S}.

Record lstate := LState { l_log : log; l_cache : S }.

Definition get_log : M lstate log := gets l_log.
Definition mod_log (f : log -> log) : M lstate unit := modify (fun s => LState (f (l_log s)) (l_cache s)).
Definition cache {A} (m : M S A) : M lstate A := zoom l_cache (fun c s => LState (l_log s) c) m.

(** [bread] of a device and a block number that the log holds as [int]s. *)
Definition log_bread (l : log) (n : Z) : M lstate Z := cache (c_bread (u32 (l_dev l)) (u32 n)).

Definition install_trans : M lstate unit :=
  let! l := get_log in
  mfor (upto (lh_n l)) (fun tail =>
    let! lbuf := log_bread l (l_start l + tail + 1) in
    let! dbuf := log_bread l (lh_block l tail) in
    let! d := cache (gets (fun c => c_data c lbuf)) in
    cache (c_set dbuf d) ;;
    cache (c_bwrite dbuf) ;;
    cache (c_bunpin dbuf) ;;
    cache (c_brelse lbuf) ;;
    cache (c_brelse dbuf)).

Definition read_head : M lstate unit :=
  let! l := get_log in
  let! buf := log_bread l (l_start l) in
  let! lh := cache (gets (fun c => c_data c buf)) in
  mod_log (with_n (get_int lh 0)) ;;
  mfor (upto (get_int lh 0)) (fun i => mod_log (with_block i (get_int lh (1 + i)))) ;;
  cache (c_brelse buf).

Definition write_head : M lstate unit :=
  let! l := get_log in
  let! buf := log_bread l (l_start l) in
  let! hb := cache (gets (fun c => c_data c buf)) in
  cache (c_set buf (put_int hb 0 (lh_n l))) ;;
  mfor (upto (lh_n l)) (fun i =>
    let! hb := cache (gets (fun c => c_data c buf)) in
    cache (c_set buf (put_int hb (1 + i) (lh_block l i)))) ;;
  cache (c_bwrite buf) ;;
  cache (c_brelse buf).

Definition recover_from_log : M lstate unit :=
  read_head ;;
  install_trans ;;
  mod_log (with_n 0) ;;
  write_head.

Definition initlog (dev : Z) (sb : logsb) : M lstate unit :=
  panic_if (BSIZE <=? 4 * (1 + LOGSIZE)) "initlog: too big logheader" ;;
  mod_log (fun l => Log (i32 (sb_logstart sb)) (i32 (sb_nlog sb)) (l_outstanding l) (l_committing l) dev (lh_n l) (lh_block l)) ;;
  recover_from_log.

(** The part of the boot that the log sees: [binit], then [initlog] (from the first
    process, through [fsinit]) with the memory of [log] all zero. *)
Definition bss_log : log := Log 0 0 0 false 0 0 (fun _ => 0).
Definition reboot (sb : logsb) (d : Z -> block) : res (unit * lstate) :=
  (cache c_binit ;; initlog c_dev sb) (LState bss_log (c_boot d)).

Definition begin_op : M lstate unit :=
  let! l := get_log in
  if l_committing l then blocked
  else if LOGSIZE <? lh_n l + (l_outstanding l + 1) * MAXOPBLOCKS then blocked
  else mod_log (with_outstanding (l_outstanding l + 1)).

Definition write_log : M lstate unit :=
  let! l := get_log in
  mfor (upto (lh_n l)) (fun tail =>
    let! to_ := log_bread l (l_start l + tail + 1) in
    let! from := log_bread l (lh_block l tail) in
    let! d := cache (gets (fun c => c_data c from)) in
    cache (c_set to_ d) ;;
    cache (c_bwrite to_) ;;
    cache (c_brelse from) ;;
    cache (c_brelse to_)).

Definition commit : M lstate unit :=
  let! l := get_log in
  if 0 <? lh_n l then
    write_log ;;
    write_head ;;
    install_trans ;;
    mod_log (with_n 0) ;;
    write_head
  else ret tt.

Definition end_op : M lstate unit :=
  mod_log (fun l => with_outstanding (l_outstanding l - 1) l) ;;
  let! l := get_log in
  panic_if (l_committing l) "log.committing" ;;
  if l_outstanding l =? 0 then
    mod_log (with_committing true) ;;
    commit ;;
    mod_log (with_committing false)
  else ret tt.

(** The index of [blockno] in the first [n] entries of the header, or [n]. *)
Fixpoint log_index (f : Z -> Z) (blockno i : Z) (n : nat) : Z :=
  match n with
  | O => i
  | Datatypes.S k => if u32 (f i) =? blockno then i else log_index f blockno (i + 1) k
  end.

Definition log_write (b : Z) : M lstate unit :=
  let! l := get_log in
  panic_if ((LOGSIZE <=? lh_n l) || (l_size l - 1 <=? lh_n l)) "too big a transaction" ;;
  panic_if (l_outstanding l <? 1) "log_write outside of trans" ;;
  let! blockno := cache (gets (fun c => c_blockno c b)) in
  let i := log_index (lh_block l) blockno 0 (Z.to_nat (lh_n l)) in
  mod_log (with_block i (i32 blockno)) ;;
  if i =? lh_n l
  then cache (c_bpin b) ;; mod_log (fun l => with_n (lh_n l + 1) l)
  else ret tt.
End Log.
