(* ===== verification/LogCrash.v ===== *)
(** * The log survives crashes

    The disk writes of [commit] and of [recover_from_log] are computed over the
    interface of the block cache; a crash leaves a prefix of them on the disk.
    Recovery after a crash at any point of [commit], and at any point of an
    earlier recovery, gives the file system's blocks all with their contents
    before the transaction or all with their contents after it. *)

From S2P Require Import Prelude Riscv Cache Log.

(** ** Integers in a block *)

Lemma nth_insert_eq (l : list Z) i x : (i < length l)%nat -> nth i (<[i:=x]> l) 0 = x.
Proof. intros H. rewrite nth_lookup. by rewrite list_lookup_insert_eq. Qed.

Lemma nth_insert_ne (l : list Z) i j x : i <> j -> nth i (<[j:=x]> l) 0 = nth i l 0.
Proof. intros H. rewrite !nth_lookup. by rewrite list_lookup_insert_ne. Qed.

Lemma length_put_int d k v : length (put_int d k v) = length d.
Proof. unfold put_int. cbn zeta. by rewrite !length_insert. Qed.

Lemma i32_u32 v : - 2 ^ 31 <= v < 2 ^ 31 -> i32 (u32 v) = v.
Proof. intros H. unfold i32, u32. dlia. Qed.

Lemma get_put_eq d k v :
  0 <= k -> 4 * k + 3 < Z.of_nat (length d) -> - 2 ^ 31 <= v < 2 ^ 31 -> get_int (put_int d k v) k = v.
Proof.
  intros Hk Hl Hv. unfold get_int, put_int. pose proof (u32_bound v) as Hb.
  rewrite nth_insert_ne, nth_insert_ne, nth_insert_ne, nth_insert_eq by (rewrite ?length_insert; lia).
  rewrite nth_insert_ne, nth_insert_ne, nth_insert_eq by (rewrite ?length_insert; lia).
  rewrite nth_insert_ne, nth_insert_eq by (rewrite ?length_insert; lia).
  rewrite nth_insert_eq by (rewrite ?length_insert; lia).
  rewrite <- (i32_u32 v) at 5 by done. f_equal. generalize dependent (u32 v). intros w Hw. unfold u8. dlia.
Qed.

Lemma get_put_ne d j k v : 0 <= j -> 0 <= k -> j <> k -> get_int (put_int d k v) j = get_int d j.
Proof.
  intros Hj Hk Hne. unfold get_int, put_int. by rewrite !nth_insert_ne by lia.
Qed.

(** The header block that [write_head] makes of [d]. *)
Definition put_head (d : block) (n : Z) (f : Z -> Z) : block :=
  foldl (fun d i => put_int d (1 + i) (f i)) (put_int d 0 n) (upto n).

Lemma length_put_head d n f : length (put_head d n f) = length d.
Proof.
  unfold put_head. transitivity (length (put_int d 0 n)); [|apply length_put_int].
  generalize (put_int d 0 n) as e. induction (upto n) as [|k ks IH]; intros e; [done|].
  cbn [foldl]. by rewrite IH, length_put_int.
Qed.

Lemma put_ints_get ks : forall d f k,
  (forall i, i ∈ ks -> 0 <= i) -> 0 <= k -> 4 * k + 3 < Z.of_nat (length d) ->
  (forall i, i ∈ ks -> - 2 ^ 31 <= f i < 2 ^ 31) ->
  get_int (foldl (fun d i => put_int d (1 + i) (f i)) d ks) k =
    if bool_decide (k - 1 ∈ ks) then f (k - 1) else get_int d k.
Proof.
  induction ks as [|i ks IH]; intros d f k Hp Hk Hl Hf; cbn [foldl]; [done|].
  rewrite IH; [|intros; apply Hp; by right|done|by rewrite length_put_int|intros; apply Hf; by right].
  pose proof (Hp i) as Hi. destruct (Z.eq_dec (1 + i) k) as [<-|Hne].
  - replace (1 + i - 1) with i by lia. rewrite (bool_decide_eq_true_2 (i ∈ i :: ks)) by (by left).
    rewrite get_put_eq; [by case_bool_decide|apply Z.add_nonneg_nonneg; [lia|apply Hi; by left]|lia|apply Hf; by left].
  - rewrite get_put_ne; [|lia|apply Z.add_nonneg_nonneg; [lia|apply Hi; by left]|lia].
    rewrite (bool_decide_ext (k - 1 ∈ i :: ks) (k - 1 ∈ ks)); [done|]. rewrite elem_of_cons. split; [|by right].
    intros [?|?]; [lia|done].
Qed.

Lemma get_head d n f :
  0 <= n <= LOGSIZE -> length d = Z.to_nat BSIZE -> (forall i, 0 <= i < n -> - 2 ^ 31 <= f i < 2 ^ 31) ->
  get_int (put_head d n f) 0 = n /\ forall i, 0 <= i < n -> get_int (put_head d n f) (1 + i) = f i.
Proof.
  intros Hn Hl Hf. unfold LOGSIZE, MAXOPBLOCKS, BSIZE in *. unfold put_head.
  assert (forall i, i ∈ upto n -> 0 <= i) as Hp by (intros i Hi%elem_of_upto; lia).
  assert (forall i, i ∈ upto n -> - 2 ^ 31 <= f i < 2 ^ 31) as Hf' by (intros i Hi%elem_of_upto; auto).
  split; [|intros i Hi]; (rewrite put_ints_get; [|done|lia|rewrite length_put_int; lia|done]).
  - rewrite bool_decide_eq_false_2 by (rewrite elem_of_upto; lia). apply get_put_eq; lia.
  - rewrite bool_decide_eq_true_2 by (rewrite elem_of_upto; lia). f_equal. lia.
Qed.

Lemma u32_inc_dec r : 0 <= r < 2 ^ 32 -> u32 (u32 (r + 1) - 1) = r.
Proof. intros H. unfold u32. dlia. Qed.

(** Split on the indices of [upd]. *)
Ltac upd_split := unfold upd; repeat (match goal with
  | |- context [?a =? ?b] => destruct (Z.eqb_spec a b); subst; try congruence
  end); try done.

Lemma release_two (i1 i2 b1 b2 : Z) :
  i1 <> i2 -> delete i1 (delete i2 (<[i2:=b2]> (<[i1:=b1]> (∅ : gmap Z Z)))) = ∅.
Proof.
  intros H. rewrite delete_insert_id by (by rewrite lookup_insert_ne, lookup_empty).
  by rewrite delete_insert_id by apply lookup_empty.
Qed.

(** ** Runs of the log over the cache *)

(** The disk after a sequence of writes. *)
Definition apply_writes (d : Z -> block) (ws : list (Z * block)) : Z -> block :=
  foldl (fun d w => upd d w.1 w.2) d ws.

Lemma apply_writes_app d ws ws' : apply_writes d (ws ++ ws') = apply_writes (apply_writes d ws) ws'.
Proof. unfold apply_writes. by rewrite foldl_app. Qed.

Lemma apply_writes_other ws : forall d b, (forall w, w ∈ ws -> w.1 <> b) -> apply_writes d ws b = d b.
Proof.
  induction ws as [|w ws IH]; intros d b H; cbn [apply_writes foldl]; [done|].
  fold (apply_writes (upd d w.1 w.2) ws). rewrite IH by (intros; apply H; by right).
  apply upd_ne. intros ->. by apply (H w); [left|].
Qed.

(** The last write to a block counts. *)
Lemma apply_writes_value ws d b x :
  (exists p, p ∈ ws /\ p.1 = b) -> (forall p, p ∈ ws -> p.1 = b -> p.2 = x) -> apply_writes d ws b = x.
Proof.
  induction ws as [|p ws IH] using rev_ind; intros (q & Hq & Hb) Hx; [by apply elem_of_nil in Hq|].
  rewrite apply_writes_app. cbn. unfold upd. destruct (Z.eqb_spec b p.1) as [E|E].
  - apply Hx; [|done]. rewrite elem_of_app. right. by left.
  - apply IH.
    + exists q. split; [|done]. apply elem_of_app in Hq as [?|Hq]; [done|]. apply list_elem_of_singleton in Hq. congruence.
    + intros r Hr. apply Hx. rewrite elem_of_app. by left.
Qed.

Section Steps.
Context {S : Type} {C : BlockCache S}.
Implicit Types (s : lstate (S := S)) (l : log).

Lemma cache_run {A} (m : M S A) s x c : m (l_cache s) = Ok (x, c) -> cache m s = Ok (x, LState (l_log s) c).
Proof. intros H. unfold cache, zoom. by rewrite H. Qed.

Lemma log_bread_run l (n i : Z) s c :
  u32 (l_dev l) = c_dev -> 0 <= n < 2 ^ 32 -> c_bread c_dev n (l_cache s) = Ok (i, c) ->
  log_bread l n s = Ok (i, LState (l_log s) c).
Proof. intros Hdev Hn H. unfold log_bread. rewrite Hdev, u32_small by done. by apply cache_run. Qed.

End Steps.

(** Run a command of the cache with the equation [H]. *)
Ltac crun H := erewrite bind_ok; [|exact (cache_run _ (LState _ _) _ _ H)]; cbn [l_log l_cache].

(** Run [log_bread] with the equation [H] of [c_bread]. *)
Ltac lrun H := erewrite bind_ok; [|eapply (log_bread_run _ _ _ (LState _ _)); [done|done|exact H]]; cbn [l_log l_cache].

Section Runs.
Context {S : Type} {C : BlockCache S} {COk : BlockCacheOk S}.
Implicit Types (s : lstate (S := S)) (l : log) (d v : Z -> block) (w : list (Z * block)) (rf : Z -> Z).

(** No buffer is locked. *)
Definition quiet s l d v w rf : Prop := l_log s = l /\ c_rep (l_cache s) (ACache d v w rf ∅).

Lemma quiet_equiv s l d v w rf d' v' w' rf' :
  quiet s l d v w rf -> (forall b, d' b = d b) -> (forall b, v' b = v b) -> w' = w -> (forall b, rf' b = rf b) ->
  quiet s l d' v' w' rf'.
Proof. intros [Hl Hr] H1 H2 H3 H4. split; [done|]. by eapply c_rep_equiv. Qed.

(** Fewer than [NBUF - k] blocks are referenced. *)
Definition spare rf (k : Z) : Prop :=
  exists X : gset Z, (forall b, rf b <> 0 -> b ∈ X) /\ Z.of_nat (size X) + k < NBUF.

Lemma spare_available d v w rf h : spare rf 0 -> available (ACache d v w rf h).
Proof. intros (X & HX & Hs). exists X. split; [done|lia]. Qed.

Lemma spare_ref rf k b n : spare rf (k + 1) -> spare (upd rf b n) k.
Proof.
  intros (X & HX & Hs). exists ({[b]} ∪ X). split.
  - intros c Hc. unfold upd in Hc. destruct (Z.eqb_spec c b); [set_solver|]. apply HX in Hc. set_solver.
  - pose proof (size_union_alt {[b]} X) as Hu. rewrite size_singleton in Hu.
    pose proof (subseteq_size (X ∖ {[b]}) X ltac:(set_solver)). lia.
Qed.

Lemma spare_le rf k j : spare rf k -> j <= k -> spare rf j.
Proof. intros (X & HX & Hs) Hj. exists X. split; [done|lia]. Qed.

Lemma sane_empty d v w rf : sane (ACache d v w rf ∅).
Proof. intros i b. cbn. by rewrite lookup_empty. Qed.

Lemma sane_one d v w rf i b : rf b <> 0 -> sane (ACache d v w rf {[i := b]}).
Proof. intros H j c. cbn. rewrite lookup_singleton_Some. by intros [_ <-]. Qed.

(** Two buffers: [bread] of two blocks. *)
Lemma bread_two c d v w rf b1 b2 :
  c_rep c (ACache d v w rf ∅) -> b1 <> b2 -> spare rf 0 -> spare rf 1 \/ rf b2 <> 0 ->
  rf b1 <> 2 ^ 32 - 1 -> rf b2 <> 2 ^ 32 - 1 ->
  exists i1 i2 c1 c2, c_bread c_dev b1 c = Ok (i1, c1) /\ c_bread c_dev b2 c1 = Ok (i2, c2) /\ i1 <> i2 /\
    c_rep c2 (a_bread i2 b2 (a_bread i1 b1 (ACache d v w rf ∅))).
Proof.
  intros Hr Hne Hsp Hsp2 H1 H2. pose proof (c_refs_bound _ _ b1 Hr) as Hb1. cbn in Hb1.
  destruct (c_bread_ok c _ b1 Hr) as (i1 & c1 & Hrun1 & _ & Hr1).
  { apply sane_empty. } { intros i. cbn. by rewrite lookup_empty. } { left. by apply spare_available. } { done. }
  destruct (c_bread_ok c1 _ b2 Hr1) as (i2 & c2 & Hrun2 & Hi & Hr2).
  - intros i b. cbn. rewrite lookup_insert_Some, lookup_empty. intros [[_ <-]|[_ ?]]; [|done].
    rewrite upd_eq, u32_small by lia. lia.
  - intros i. cbn. rewrite lookup_insert_Some, lookup_empty. intros [[_ ?]|[_ ?]]; congruence.
  - destruct Hsp2 as [Hsp2|Hz]; [left|right].
    + apply spare_available, spare_ref. done.
    + cbn. by rewrite upd_ne by congruence.
  - cbn. by rewrite upd_ne by congruence.
  - exists i1, i2, c1, c2. split_and!; [done|done| |done].
    intros <-. cbn in Hi. by rewrite lookup_insert_eq in Hi.
Qed.

(** ** [write_log] *)

Definition write_log_body l (tail : Z) : M lstate unit :=
  let! to_ := log_bread l (l_start l + tail + 1) in
  let! from := log_bread l (lh_block l tail) in
  let! x := cache (gets (fun c => c_data c from)) in
  cache (c_set to_ x) ;;
  cache (c_bwrite to_) ;;
  cache (c_brelse from) ;;
  cache (c_brelse to_).

Lemma write_log_body_ok s l d v w rf k :
  quiet s l d v w rf -> u32 (l_dev l) = c_dev ->
  let to_ := l_start l + k + 1 in let from := lh_block l k in
  to_ <> from -> 0 <= to_ < 2 ^ 32 -> 0 <= from < 2 ^ 32 -> spare rf 0 -> rf from <> 0 -> rf from <> 2 ^ 32 - 1 -> rf to_ <> 2 ^ 32 - 1 ->
  exists s', write_log_body l k s = Ok (tt, s') /\
    quiet s' l (upd d to_ (v from)) (upd v to_ (v from)) (w ++ [(to_, v from)]) rf.
Proof.
  destruct s as [l' c0]. intros [Hl Hr] Hdev to_ from Hne Ht Hf Hsp Hf0 Hf1 Ht1. cbn in Hl, Hr. subst l'.
  pose proof (c_refs_bound _ _ to_ Hr) as Hbt. pose proof (c_refs_bound _ _ from Hr) as Hbf. cbn in Hbt, Hbf.
  destruct (bread_two c0 d v w rf to_ from) as (i1 & i2 & c1 & c2 & H1 & H2 & Hi & Hr2);
    [done|done|done|by right|done|done|].
  set (a2 := a_bread i2 from (a_bread i1 to_ (ACache d v w rf ∅))) in *.
  assert (a_held a2 !! i1 = Some to_ /\ a_held a2 !! i2 = Some from) as [Hh1 Hh2].
  { cbn. rewrite lookup_insert_eq, lookup_insert_ne, lookup_insert_eq by done. done. }
  destruct (c_data_ok _ _ _ _ Hr2 Hh2) as [Hd2 _]. cbn in Hd2.
  destruct (c_set_ok _ _ _ _ (v from) Hr2 Hh1) as (c3 & H3 & Hr3).
  destruct (c_bwrite_ok _ _ i1 to_ Hr3 Hh1) as (c4 & H4 & Hr4).
  destruct (c_brelse_ok _ _ i2 from Hr4 Hh2) as (c5 & H5 & Hr5).
  { cbn. rewrite upd_eq, upd_ne, u32_inc_dec by done. done. }
  destruct (c_brelse_ok _ _ i1 to_ Hr5) as (c6 & H6 & Hr6).
  { cbn. rewrite lookup_delete_ne, lookup_insert_ne, lookup_insert_eq by done. done. }
  { intros _. cbn. by rewrite !upd_eq. }
  exists (LState l c6). split.
  - unfold write_log_body. fold to_ from.
    lrun H1. lrun H2. mcomp. cbn [l_cache l_log]. rewrite Hd2. crun H3. crun H4. crun H5. by apply cache_run.
  - split; [done|]. eapply c_rep_equiv; [exact Hr6|]. split_and!; cbn.
    + intros b. upd_split.
    + done.
    + by rewrite upd_eq.
    + intros b. unfold upd. rewrite !Z.eqb_refl, (proj2 (Z.eqb_neq to_ from)), (proj2 (Z.eqb_neq from to_)) by congruence.
      rewrite !u32_inc_dec by done. repeat case_match; bsplit; congruence.
    + by rewrite release_two.
Qed.

(** The blocks of the log's header, its block area and the rest of the disk. *)
Definition log_blocks l : list Z := lh_block l <$> upto (lh_n l).
Definition in_log l (b : Z) : Prop := l_start l <= b < l_start l + l_size l.

(** The log's parameters: at most [NBUF - 1] logged blocks, all outside the log,
    whose blocks in the log are inside it. *)
Record log_ok l : Prop := {
  lo_dev : u32 (l_dev l) = c_dev;
  lo_n : 0 <= lh_n l < NBUF;
  lo_size : lh_n l < l_size l;
  lo_home b : b ∈ log_blocks l -> ~ in_log l b;
  lo_start : 0 <= l_start l /\ l_start l + l_size l <= 2 ^ 31;
  lo_int b : b ∈ log_blocks l -> 0 <= b < 2 ^ 31;
  lo_nodup : NoDup (log_blocks l);
}.

Lemma log_range l k : log_ok l -> 0 <= k < lh_n l -> 0 <= l_start l + k + 1 < 2 ^ 32.
Proof. intros Hlo Hk. pose proof (lo_start l Hlo). pose proof (lo_size l Hlo). lia. Qed.

Lemma start_range l : log_ok l -> 0 <= l_start l < 2 ^ 32.
Proof. intros Hlo. pose proof (lo_start l Hlo). pose proof (lo_size l Hlo). pose proof (lo_n l Hlo). lia. Qed.

Lemma log_block_elem l k : 0 <= k < lh_n l -> lh_block l k ∈ log_blocks l.
Proof. intros Hk. unfold log_blocks. apply list_elem_of_fmap. exists k. by rewrite elem_of_upto. Qed.

(** The writes of [write_log] for the entries [ks]. *)
Definition log_data_writes l v (ks : list Z) : list (Z * block) :=
  (fun k => (l_start l + k + 1, v (lh_block l k))) <$> ks.

Lemma write_log_loop_ok l ks : forall s d v w rf,
  quiet s l d v w rf -> log_ok l -> (forall k, k ∈ ks -> 0 <= k < lh_n l) -> spare rf 0 ->
  (forall b, b ∈ log_blocks l -> rf b <> 0 /\ rf b <> 2 ^ 32 - 1) -> (forall b, in_log l b -> rf b = 0) ->
  exists s', mfor ks (write_log_body l) s = Ok (tt, s') /\
    quiet s' l (apply_writes d (log_data_writes l v ks)) (apply_writes v (log_data_writes l v ks))
      (w ++ log_data_writes l v ks) rf.
Proof.
  induction ks as [|k ks IH]; intros s d v w rf Hq Hlo Hks Hsp Hpin Hfree; cbn [mfor].
  { exists s. split; [done|]. by rewrite app_nil_r. }
  destruct (Hks k) as [Hk0 Hkn]; [by left|]. pose proof (log_block_elem l k ltac:(lia)) as Hel.
  pose proof (lo_home l Hlo _ Hel) as Hhome. pose proof (lo_size l Hlo) as Hsz.
  assert (in_log l (l_start l + k + 1)) as Hto by (unfold in_log; lia).
  destruct (Hpin _ Hel) as [Hp0 Hp1].
  destruct (write_log_body_ok s l d v w rf k Hq (lo_dev l Hlo)) as (s1 & Hrun & Hq1);
    [congruence|by apply log_range| |done|done|done| |].
  { pose proof (lo_int l Hlo _ Hel). lia. }
  { rewrite Hfree by done. lia. }
  mstep Hrun. destruct (IH s1 _ _ _ _ Hq1 Hlo) as (s' & Hrun' & Hq'); [intros; apply Hks; by right|done|done|done|].
  exists s'. split; [done|].
  assert (log_data_writes l (upd v (l_start l + k + 1) (v (lh_block l k))) ks = log_data_writes l v ks) as E.
  { apply list_fmap_ext. intros i j Hj. f_equal. apply upd_ne. intros Heq.
    apply (lo_home l Hlo (lh_block l j)); [apply log_block_elem, Hks; right; by eapply list_elem_of_lookup_2|by rewrite Heq]. }
  rewrite E in Hq'. cbn [log_data_writes fmap list_fmap]. by rewrite <- app_assoc in Hq'.
Qed.

(** ** [write_head] *)

Lemma set_loop_ok l i b f ks : forall c a,
  c_rep c a -> a_held a !! i = Some b ->
  exists c', mfor ks (fun j =>
      let! hb := cache (gets (fun c => c_data c i)) in
      cache (c_set i (put_int hb (1 + j) (f j)))) (LState l c) = Ok (tt, LState l c') /\
    c_rep c' (a_set b (foldl (fun x j => put_int x (1 + j) (f j)) (a_view a b) ks) a).
Proof.
  induction ks as [|j ks IH]; intros c a Hr Hh; cbn [mfor foldl].
  { exists c. split; [done|]. eapply c_rep_equiv; [exact Hr|]. split_and!; try done. intros x. cbn. upd_split. }
  rewrite bind_assoc. mcomp. cbn [l_cache l_log]. destruct (c_data_ok _ _ _ _ Hr Hh) as [-> _].
  destruct (c_set_ok _ _ _ _ (put_int (a_view a b) (1 + j) (f j)) Hr Hh) as (c1 & H1 & Hr1). crun H1.
  destruct (IH c1 _ Hr1 Hh) as (c' & Hrun & Hr'). exists c'. split; [exact Hrun|].
  eapply c_rep_equiv; [exact Hr'|]. split_and!; try done. intros x. cbn. rewrite upd_eq. upd_split.
Qed.

Lemma write_head_ok s l d v w rf :
  quiet s l d v w rf -> u32 (l_dev l) = c_dev -> 0 <= l_start l < 2 ^ 32 -> spare rf 0 -> rf (l_start l) <> 2 ^ 32 - 1 ->
  let h := put_head (v (l_start l)) (lh_n l) (lh_block l) in
  exists s', write_head s = Ok (tt, s') /\
    quiet s' l (upd d (l_start l) h) (upd v (l_start l) h) (w ++ [(l_start l, h)]) rf.
Proof.
  destruct s as [l' c0]. intros [Hl Hr] Hdev Hst Hsp Hmax h. cbn in Hl, Hr. subst l'.
  pose proof (c_refs_bound _ _ (l_start l) Hr) as Hb. cbn in Hb.
  destruct (c_bread_ok c0 _ (l_start l) Hr) as (i & c1 & H1 & _ & Hr1).
  { apply sane_empty. } { intros j. cbn. by rewrite lookup_empty. } { left. by apply spare_available. } { done. }
  set (a1 := a_bread i (l_start l) _) in *.
  assert (a_held a1 !! i = Some (l_start l)) as Hh by (cbn; apply lookup_insert_eq).
  destruct (c_data_ok _ _ _ _ Hr1 Hh) as [Hd _]. cbn in Hd.
  destruct (c_set_ok _ _ _ _ (put_int (v (l_start l)) 0 (lh_n l)) Hr1 Hh) as (c2 & H2 & Hr2).
  destruct (set_loop_ok l i (l_start l) (lh_block l) (upto (lh_n l)) c2 _ Hr2 Hh) as (c3 & H3 & Hr3).
  destruct (c_bwrite_ok _ _ i (l_start l) Hr3 Hh) as (c4 & H4 & Hr4).
  destruct (c_brelse_ok _ _ i (l_start l) Hr4 Hh) as (c5 & H5 & Hr5).
  { intros _. cbn. by rewrite !upd_eq. }
  exists (LState l c5). split.
  - unfold write_head. mcomp. cbn [l_log]. lrun H1. mcomp. cbn [l_cache l_log]. rewrite Hd.
    crun H2. mstep H3. crun H4. by apply cache_run.
  - split; [done|]. eapply c_rep_equiv; [exact Hr5|]. split_and!; cbn.
    + intros b. rewrite !upd_eq. unfold h, put_head. upd_split.
    + intros b. rewrite !upd_eq. unfold h, put_head. upd_split.
    + by rewrite !upd_eq.
    + intros b. unfold upd. rewrite Z.eqb_refl, u32_inc_dec by done. case_match; bsplit; congruence.
    + by rewrite delete_insert_id by apply lookup_empty.
Qed.

(** ** [install_trans] *)

Definition install_body l (tail : Z) : M lstate unit :=
  let! lbuf := log_bread l (l_start l + tail + 1) in
  let! dbuf := log_bread l (lh_block l tail) in
  let! x := cache (gets (fun c => c_data c lbuf)) in
  cache (c_set dbuf x) ;;
  cache (c_bwrite dbuf) ;;
  cache (c_bunpin dbuf) ;;
  cache (c_brelse lbuf) ;;
  cache (c_brelse dbuf).

Lemma install_body_ok s l d v w rf k :
  quiet s l d v w rf -> u32 (l_dev l) = c_dev ->
  let from := l_start l + k + 1 in let to_ := lh_block l k in
  from <> to_ -> 0 <= to_ < 2 ^ 32 -> 0 <= from < 2 ^ 32 -> spare rf 0 -> spare rf 1 \/ rf to_ <> 0 -> rf from <> 2 ^ 32 - 1 -> rf to_ <> 2 ^ 32 - 1 ->
  v from = d from ->
  exists s', install_body l k s = Ok (tt, s') /\
    quiet s' l (upd d to_ (v from)) (upd v to_ (v from)) (w ++ [(to_, v from)]) (upd rf to_ (u32 (rf to_ - 1))).
Proof.
  destruct s as [l' c0]. intros [Hl Hr] Hdev from to_ Hne Ht Hf Hsp Hsp2 Hf1 Ht1 Hvd. cbn in Hl, Hr. subst l'.
  pose proof (c_refs_bound _ _ to_ Hr) as Hbt. pose proof (c_refs_bound _ _ from Hr) as Hbf. cbn in Hbt, Hbf.
  destruct (bread_two c0 d v w rf from to_) as (i1 & i2 & c1 & c2 & H1 & H2 & Hi & Hr2); [done..|].
  set (a2 := a_bread i2 to_ (a_bread i1 from (ACache d v w rf ∅))) in *.
  assert (a_held a2 !! i1 = Some from /\ a_held a2 !! i2 = Some to_) as [Hh1 Hh2].
  { cbn. rewrite lookup_insert_eq, lookup_insert_ne, lookup_insert_eq by done. done. }
  destruct (c_data_ok _ _ _ _ Hr2 Hh1) as [Hd1 _]. cbn in Hd1.
  destruct (c_set_ok _ _ _ _ (v from) Hr2 Hh2) as (c3 & H3 & Hr3).
  destruct (c_bwrite_ok _ _ i2 to_ Hr3 Hh2) as (c4 & H4 & Hr4).
  destruct (c_bunpin_ok _ _ i2 to_ Hr4 Hh2) as (c5 & H5 & Hr5).
  destruct (c_brelse_ok _ _ i1 from Hr5 Hh1) as (c6 & H6 & Hr6).
  { intros _. cbn. by rewrite !(upd_ne _ to_) by done. }
  destruct (c_brelse_ok _ _ i2 to_ Hr6) as (c7 & H7 & Hr7).
  { cbn. rewrite lookup_delete_ne, lookup_insert_eq by done. done. }
  { intros _. cbn. by rewrite !upd_eq. }
  exists (LState l c7). split.
  - unfold install_body. fold to_ from. lrun H1. lrun H2. mcomp. cbn [l_cache l_log]. rewrite Hd1.
    crun H3. crun H4. crun H5. crun H6. by apply cache_run.
  - split; [done|]. eapply c_rep_equiv; [exact Hr7|]. split_and!; cbn.
    + intros b. upd_split.
    + done.
    + by rewrite upd_eq.
    + intros b. unfold upd. rewrite !Z.eqb_refl, (proj2 (Z.eqb_neq to_ from)), (proj2 (Z.eqb_neq from to_)) by congruence.
      assert (u32 (u32 (rf to_ + 1) + -1) = rf to_) as -> by (apply u32_inc_dec; done).
      rewrite !u32_inc_dec by done. repeat case_match; bsplit; congruence.
    + rewrite (delete_delete _ i2 i1). by rewrite release_two.
Qed.

(** The writes of [install_trans] for the entries [ks]. *)
Definition install_writes l v (ks : list Z) : list (Z * block) :=
  (fun k => (lh_block l k, v (l_start l + k + 1))) <$> ks.

Lemma install_writes_ext l v v' ks :
  (forall k, k ∈ ks -> v' (l_start l + k + 1) = v (l_start l + k + 1)) ->
  install_writes l v' ks = install_writes l v ks.
Proof. intros H. apply list_fmap_ext. intros i k Hk. f_equal. apply H. by eapply list_elem_of_lookup_2. Qed.

(** The reference counts after [install_trans]. *)
Definition unref_all (bs : list Z) rf : Z -> Z := foldl (fun rf b => upd rf b (u32 (rf b - 1))) rf bs.

Lemma unref_all_spec bs : forall rf b,
  NoDup bs -> unref_all bs rf b = if bool_decide (b ∈ bs) then u32 (rf b - 1) else rf b.
Proof.
  induction bs as [|c bs IH]; intros rf b Hn; cbn [unref_all foldl]; [done|].
  fold (unref_all bs (upd rf c (u32 (rf c - 1)))). apply NoDup_cons in Hn as [Hc Hn]. rewrite IH by done.
  destruct (Z.eq_dec b c) as [->|Hne].
  - rewrite (bool_decide_eq_false_2 _ Hc), (bool_decide_eq_true_2 (c ∈ c :: bs)) by (by left). by rewrite upd_eq.
  - rewrite upd_ne by done. rewrite (bool_decide_ext (b ∈ c :: bs) (b ∈ bs)); [done|].
    rewrite elem_of_cons. split; [intros [?|?]; done|by right].
Qed.

(** Enough buffers to install [n] blocks: they are pinned, or [n] more are free. *)
Definition install_room rf (r0 n : Z) : Prop := r0 = 1 /\ spare rf 0 \/ r0 = 0 /\ spare rf n.

Lemma install_room_step rf r0 n b :
  install_room rf r0 (n + 1) -> rf b = r0 -> install_room (upd rf b (u32 (r0 - 1))) r0 n.
Proof.
  intros [[-> (X & HX & Hs)]|[-> Hsp]] Hb; [left|right]; (split; [done|]).
  - exists X. split; [|done]. intros c Hc. apply HX. unfold upd in Hc. destruct (Z.eqb_spec c b) as [E|]; [|done]. rewrite E. lia.
  - by apply spare_ref.
Qed.

Lemma install_loop_ok l r0 ks : forall s d v w rf,
  quiet s l d v w rf -> log_ok l -> NoDup ks -> (forall k, k ∈ ks -> 0 <= k < lh_n l) ->
  install_room rf r0 (Z.of_nat (length ks)) ->
  (forall k, k ∈ ks -> rf (lh_block l k) = r0) -> (forall b, in_log l b -> rf b = 0 /\ v b = d b) ->
  exists s', mfor ks (install_body l) s = Ok (tt, s') /\
    quiet s' l (apply_writes d (install_writes l v ks)) (apply_writes v (install_writes l v ks))
      (w ++ install_writes l v ks) (unref_all (lh_block l <$> ks) rf).
Proof.
  induction ks as [|k ks IH]; intros s d v w rf Hq Hlo Hnd Hks Hroom Hr0 Hlog; cbn [mfor].
  { exists s. split; [done|]. by rewrite app_nil_r. }
  apply NoDup_cons in Hnd as [Hk Hnd]. destruct (Hks k) as [Hk0 Hkn]; [by left|].
  pose proof (log_block_elem l k ltac:(lia)) as Hel. pose proof (lo_home l Hlo _ Hel) as Hhome.
  pose proof (lo_size l Hlo) as Hsz. assert (in_log l (l_start l + k + 1)) as Hfrom by (unfold in_log; lia).
  destruct (Hlog _ Hfrom) as [Hf0 Hfv]. pose proof (Hr0 k ltac:(by left)) as Hrk.
  cbn [length] in Hroom. replace (Z.of_nat (Datatypes.S (length ks))) with (Z.of_nat (length ks) + 1) in Hroom by lia.
  assert (spare rf 0 /\ (spare rf 1 \/ rf (lh_block l k) <> 0) /\ rf (lh_block l k) <> 2 ^ 32 - 1) as (Hs1 & Hs2 & Hs3).
  { destruct Hroom as [[-> Hsp]|[-> Hsp]]; rewrite Hrk; split_and!; try lia; try done.
    - eapply spare_le; [exact Hsp|lia].
    - left. eapply spare_le; [exact Hsp|lia]. }
  destruct (install_body_ok s l d v w rf k Hq (lo_dev l Hlo)) as (s1 & Hrun & Hq1);
    [congruence| |by apply log_range|done|done| |done|done|].
  { pose proof (lo_int l Hlo _ Hel). lia. }
  { rewrite Hf0. lia. }
  mstep Hrun.
  assert (forall j, j ∈ ks -> lh_block l j <> lh_block l k) as Hinj.
  { intros j Hj Heq. apply Hk. assert (j = k) as <-; [|done]. pose proof (lo_nodup l Hlo) as Hn.
    destruct (Hks j) as [Hj0 Hjn]; [by right|]. unfold log_blocks in Hn.
    eapply (NoDup_lookup _ (Z.to_nat j) (Z.to_nat k)) in Hn; [lia|rewrite list_lookup_fmap, upto_lookup by lia; reflexivity|].
    rewrite list_lookup_fmap, upto_lookup by lia. cbn. by rewrite Heq. }
  assert (forall b, in_log l b -> upd v (lh_block l k) (v (l_start l + k + 1)) b = v b /\
    upd d (lh_block l k) (v (l_start l + k + 1)) b = d b) as Hsame.
  { intros b Hb. rewrite !upd_ne by (intros ->; done). done. }
  destruct (IH s1 _ _ _ _ Hq1 Hlo Hnd) as (s' & Hrun' & Hq').
  - intros j Hj. apply Hks. by right.
  - rewrite Hrk. by apply install_room_step.
  - intros j Hj. rewrite upd_ne by auto. apply Hr0. by right.
  - intros b Hb. rewrite upd_ne by (intros ->; done). destruct (Hsame b Hb) as [-> ->]. by apply Hlog.
  - exists s'. split; [done|]. rewrite (install_writes_ext l v) in Hq'.
    + cbn [install_writes fmap list_fmap]. by rewrite <- app_assoc in Hq'.
    + intros j Hj. apply Hsame. destruct (Hks j) as [Hj0 Hjn]; [by right|]. unfold in_log. lia.
Qed.

Lemma write_log_run s l : l_log s = l -> write_log s = mfor (upto (lh_n l)) (write_log_body l) s.
Proof. intros <-. reflexivity. Qed.

Lemma install_trans_run s l : l_log s = l -> install_trans s = mfor (upto (lh_n l)) (install_body l) s.
Proof. intros <-. reflexivity. Qed.

Lemma apply_writes_agree ws : forall d v b, d b = v b -> apply_writes d ws b = apply_writes v ws b.
Proof.
  induction ws as [|p ws IH]; intros d v b H; cbn [apply_writes foldl]; [done|]. apply IH.
  unfold upd. by destruct (b =? p.1).
Qed.

Lemma apply_data_writes l v d ks k :
  k ∈ ks -> apply_writes d (log_data_writes l v ks) (l_start l + k + 1) = v (lh_block l k).
Proof.
  intros Hk. apply apply_writes_value.
  - eexists (_, _). split; [apply list_elem_of_fmap; by exists k|done].
  - intros p Hp. apply list_elem_of_fmap in Hp as (j & -> & Hj). cbn. intros E. by replace j with k by lia.
Qed.

(** The writes of [commit]: the blocks to the log, the header, the blocks to their
    places, the header with no blocks. *)
Definition commit_head l v : block := put_head (v (l_start l)) (lh_n l) (lh_block l).
Definition home_writes l v : list (Z * block) := (fun k => (lh_block l k, v (lh_block l k))) <$> upto (lh_n l).
Definition commit_writes l v : list (Z * block) :=
  log_data_writes l v (upto (lh_n l)) ++ [(l_start l, commit_head l v)] ++
  home_writes l v ++ [(l_start l, put_head (commit_head l v) 0 (lh_block l))].

(** The logged blocks are pinned once, and nothing else is referenced. *)
Definition pinned l rf : Prop := forall b, rf b = if bool_decide (b ∈ log_blocks l) then 1 else 0.

Lemma pinned_spare l rf : log_ok l -> pinned l rf -> spare rf 0.
Proof.
  intros Hlo Hp. exists (list_to_set (log_blocks l)). split.
  - intros b Hb. rewrite elem_of_list_to_set. rewrite Hp in Hb. by case_bool_decide.
  - rewrite size_list_to_set by (by apply lo_nodup). unfold log_blocks. rewrite length_fmap, length_upto.
    pose proof (lo_n l Hlo). lia.
Qed.

Lemma pinned_log l rf b : log_ok l -> pinned l rf -> in_log l b -> rf b = 0.
Proof.
  intros Hlo Hp Hb. rewrite Hp, bool_decide_eq_false_2; [done|]. intros Hin. by apply (lo_home l Hlo b).
Qed.

Lemma start_in_log l : log_ok l -> in_log l (l_start l).
Proof. intros Hlo. pose proof (lo_n l Hlo). pose proof (lo_size l Hlo). unfold in_log. lia. Qed.

Lemma commit_ok s l d v w rf :
  quiet s l d v w rf -> log_ok l -> 0 < lh_n l -> pinned l rf -> (forall b, in_log l b -> v b = d b) ->
  exists s', commit s = Ok (tt, s') /\
    quiet s' (with_n 0 l) (apply_writes d (commit_writes l v)) (apply_writes v (commit_writes l v))
      (w ++ commit_writes l v) (fun _ => 0).
Proof.
  intros Hq Hlo Hn Hpin Hlog. pose proof (pinned_spare l rf Hlo Hpin) as Hsp. pose proof (proj1 Hq) as Hl.
  pose proof (start_in_log l Hlo) as Hst. set (ks := upto (lh_n l)).
  assert (forall k, k ∈ ks -> 0 <= k < lh_n l) as Hks by (intros k; apply elem_of_upto).
  destruct (write_log_loop_ok l ks s d v w rf Hq Hlo Hks Hsp) as (s1 & H1 & Hq1).
  { intros b Hb. rewrite Hpin, bool_decide_eq_true_2 by done. lia. }
  { intros b Hb. by apply (pinned_log l). }
  set (LW := log_data_writes l v ks) in *.
  assert (apply_writes v LW (l_start l) = v (l_start l)) as Hvs.
  { apply apply_writes_other. intros p Hp. unfold LW, log_data_writes in Hp.
    apply list_elem_of_fmap in Hp as (k & -> & Hk). apply Hks in Hk. cbn. lia. }
  destruct (write_head_ok s1 l _ _ _ rf Hq1 (lo_dev l Hlo) (start_range l Hlo) Hsp) as (s2 & H2 & Hq2).
  { rewrite (pinned_log l) by done. lia. }
  rewrite Hvs in Hq2. fold (commit_head l v) in Hq2.
  destruct (install_loop_ok l 1 ks s2 _ _ _ rf Hq2 Hlo (NoDup_upto _) Hks) as (s3 & H3 & Hq3).
  { left. done. }
  { intros k Hk. rewrite Hpin, bool_decide_eq_true_2; [done|]. by apply log_block_elem, Hks. }
  { intros b Hb. split; [by apply (pinned_log l)|]. unfold upd. destruct (b =? l_start l); [done|].
    apply apply_writes_agree. by apply Hlog. }
  assert (install_writes l (upd (apply_writes v LW) (l_start l) (commit_head l v)) ks = home_writes l v) as E.
  { apply list_fmap_ext. intros i k Hk. apply list_elem_of_lookup_2 in Hk. f_equal.
    rewrite upd_ne by (apply Hks in Hk; lia). by apply apply_data_writes. }
  rewrite E in Hq3. unfold commit. mcomp. rewrite Hl, (proj2 (Z.ltb_lt _ _) Hn).
  rewrite (bind_ok _ _ _ _ _ (eq_trans (write_log_run s l Hl) H1)). mstep H2.
  rewrite (bind_ok _ _ _ _ _ (eq_trans (install_trans_run s2 l (proj1 Hq2)) H3)). mcomp.
  set (v3 := apply_writes (upd (apply_writes v LW) (l_start l) (commit_head l v)) (home_writes l v)) in Hq3.
  set (d3 := apply_writes (upd (apply_writes d LW) (l_start l) (commit_head l v)) (home_writes l v)) in Hq3.
  assert (forall b, unref_all (lh_block l <$> ks) rf b = 0) as Hrf.
  { intros b. change (lh_block l <$> ks) with (log_blocks l). rewrite unref_all_spec by apply Hlo.
    rewrite !Hpin. destruct (decide (b ∈ log_blocks l));
      [by rewrite !bool_decide_eq_true_2|by rewrite !bool_decide_eq_false_2]. }
  assert (quiet (LState (with_n 0 (l_log s3)) (l_cache s3)) (with_n 0 l) d3 v3
    (((w ++ LW) ++ [(l_start l, commit_head l v)]) ++ home_writes l v) (fun _ => 0)) as Hq4.
  { destruct Hq3 as [Hl3 Hr3]. split; [cbn; by rewrite Hl3|]. eapply c_rep_equiv; [exact Hr3|].
    split_and!; [done..| |done]. intros b. symmetry. exact (Hrf b). }
  destruct (write_head_ok _ (with_n 0 l) _ _ _ _ Hq4 (lo_dev l Hlo) (start_range l Hlo)) as (s5 & H5 & Hq5); [by exists ∅|done|].
  exists s5. split; [exact H5|]. cbn [l_start with_n lh_n lh_block] in Hq5.
  assert (v3 (l_start l) = commit_head l v) as Hv3.
  { unfold v3. rewrite apply_writes_other; [apply upd_eq|]. intros p Hp.
    apply list_elem_of_fmap in Hp as (k & -> & Hk). cbn. intros Heq. apply Hks, log_block_elem, (lo_home l Hlo) in Hk.
    by rewrite Heq in Hk. }
  rewrite Hv3 in Hq5. eapply quiet_equiv; [exact Hq5|..]; try done; unfold commit_writes; fold ks LW.
  - intros b. by rewrite !apply_writes_app.
  - intros b. by rewrite !apply_writes_app.
  - by rewrite !app_assoc.
Qed.

(** ** Recovery *)

Lemma read_blocks_run (f : Z -> Z) (ks : list Z) : forall l (c : S),
  mfor ks (fun i => mod_log (with_block i (f i))) (LState l c) =
    Ok (tt, LState (foldl (fun l i => with_block i (f i) l) l ks) c).
Proof. induction ks as [|k ks IH]; intros l c; cbn [mfor foldl]; [done|]. mcomp. apply IH. Qed.

(** Everything but the header's array. *)
Definition same_params l l' : Prop :=
  l_start l' = l_start l /\ l_size l' = l_size l /\ l_dev l' = l_dev l /\ lh_n l' = lh_n l /\
  l_outstanding l' = l_outstanding l /\ l_committing l' = l_committing l.

Lemma with_blocks_spec (f : Z -> Z) (ks : list Z) : forall l,
  let l' := foldl (fun l i => with_block i (f i) l) l ks in
  same_params l l' /\ forall i, lh_block l' i = if bool_decide (i ∈ ks) then f i else lh_block l i.
Proof.
  induction ks as [|k ks IH]; intros l l'; [done|]. cbn [foldl] in l'. destruct (IH (with_block k (f k) l)) as [Hs Hb].
  split; [exact Hs|]. intros i. unfold l'. rewrite Hb. cbn [lh_block with_block]. unfold upd.
  destruct (Z.eqb_spec i k) as [->|Hne].
  - rewrite (bool_decide_eq_true_2 (k ∈ k :: ks)) by (by left). by case_bool_decide.
  - rewrite (bool_decide_ext (i ∈ k :: ks) (i ∈ ks)); [done|]. rewrite elem_of_cons. split; [intros [?|?]; done|by right].
Qed.

(** The log's header block on the disk says that the log holds the blocks of [l]. *)
Definition head_is (h : block) l : Prop :=
  get_int h 0 = lh_n l /\ forall i, 0 <= i < lh_n l -> get_int h (1 + i) = lh_block l i.

Lemma read_head_ok s l d v w rf :
  quiet s l d v w rf -> u32 (l_dev l) = c_dev -> 0 <= l_start l < 2 ^ 32 -> spare rf 0 -> rf (l_start l) <> 2 ^ 32 - 1 ->
  v (l_start l) = d (l_start l) ->
  exists s' l', read_head s = Ok (tt, s') /\ quiet s' l' d v w rf /\ head_is (v (l_start l)) l' /\
    l_start l' = l_start l /\ l_size l' = l_size l /\ l_dev l' = l_dev l /\
    l_outstanding l' = l_outstanding l /\ l_committing l' = l_committing l.
Proof.
  destruct s as [l' c0]. intros [Hl Hr] Hdev Hst Hsp Hmax Hvd. cbn in Hl, Hr. subst l'.
  pose proof (c_refs_bound _ _ (l_start l) Hr) as Hb. cbn in Hb.
  destruct (c_bread_ok c0 _ (l_start l) Hr) as (i & c1 & H1 & _ & Hr1).
  { apply sane_empty. } { intros j. cbn. by rewrite lookup_empty. } { left. by apply spare_available. } { done. }
  set (a1 := a_bread i (l_start l) _) in *.
  assert (a_held a1 !! i = Some (l_start l)) as Hh by (cbn; apply lookup_insert_eq).
  destruct (c_data_ok _ _ _ _ Hr1 Hh) as [Hd _]. cbn in Hd.
  destruct (c_brelse_ok _ _ i (l_start l) Hr1 Hh) as (c2 & H2 & Hr2); [done|].
  set (h := v (l_start l)) in *. set (l1 := with_n (get_int h 0) l).
  set (l2 := foldl (fun l i => with_block i (get_int h (1 + i)) l) l1 (upto (get_int h 0))).
  destruct (with_blocks_spec (fun i => get_int h (1 + i)) (upto (get_int h 0)) l1) as [(P1 & P2 & P3 & P4 & P5 & P6) Hblk].
  fold l2 in P1, P2, P3, P4, P5, P6, Hblk.
  exists (LState l2 c2), l2. split_and!; try done.
  - unfold read_head. mcomp. cbn [l_log]. lrun H1. mcomp. cbn [l_cache l_log]. rewrite Hd. mcomp.
    cbn [l_log l_cache]. fold l1. rewrite (bind_ok _ _ _ _ _ (read_blocks_run (fun i => get_int h (1 + i)) _ l1 c1)).
    by apply cache_run.
  - split; [done|]. eapply c_rep_equiv; [exact Hr2|]. split_and!; try done; cbn.
    + intros b. unfold upd. rewrite Z.eqb_refl, u32_inc_dec by done. case_match; bsplit; congruence.
    + by rewrite delete_insert_id by apply lookup_empty.
  - split; [by rewrite P4|]. intros j Hj. rewrite Hblk, bool_decide_eq_true_2; [done|]. apply elem_of_upto.
    rewrite P4 in Hj. exact Hj.
Qed.

(** The writes of [recover_from_log] on a disk whose header holds the blocks of
    [l]. *)
Definition recover_writes l d : list (Z * block) :=
  install_writes l d (upto (lh_n l)) ++ [(l_start l, put_head (d (l_start l)) 0 (lh_block l))].

(** A log with the same parameters and the same logged blocks. *)
Lemma head_is_log h l l' :
  head_is h l -> head_is h l' -> l_start l' = l_start l -> l_size l' = l_size l -> l_dev l' = l_dev l ->
  log_ok l -> log_ok l' /\ (forall ws, install_writes l' ws (upto (lh_n l')) = install_writes l ws (upto (lh_n l))) /\
    log_blocks l' = log_blocks l.
Proof.
  intros [Hn Hb] [Hn' Hb'] Hst Hsz Hdv Hlo. assert (lh_n l' = lh_n l) as En by congruence.
  assert (forall i, 0 <= i < lh_n l -> lh_block l' i = lh_block l i) as Eb.
  { intros i Hi. rewrite <- Hb, <- Hb' by lia. done. }
  assert (log_blocks l' = log_blocks l) as E.
  { unfold log_blocks. rewrite En. apply list_fmap_ext. intros i k Hk.
    apply list_elem_of_lookup_2, elem_of_upto in Hk. auto. }
  split_and!; [|intros ws; unfold install_writes; rewrite En, Hst; apply list_fmap_ext; intros i k Hk;
    apply list_elem_of_lookup_2, elem_of_upto in Hk; by rewrite Eb|done].
  split; rewrite ?E, ?En, ?Hsz, ?Hdv, ?Hst; try apply Hlo. unfold in_log. rewrite Hst, Hsz. apply Hlo.
Qed.

Lemma unref_spare l : log_ok l -> spare (unref_all (log_blocks l) (fun _ => 0)) 0.
Proof.
  intros Hlo. exists (list_to_set (log_blocks l)). split.
  - intros b. rewrite unref_all_spec by apply Hlo. case_bool_decide; [|done]. by rewrite elem_of_list_to_set.
  - rewrite size_list_to_set by apply Hlo. unfold log_blocks. rewrite length_fmap, length_upto.
    pose proof (lo_n l Hlo). lia.
Qed.

Lemma install_other l v b ks :
  log_ok l -> in_log l b -> (forall k, k ∈ ks -> 0 <= k < lh_n l) -> forall p, p ∈ install_writes l v ks -> p.1 <> b.
Proof.
  intros Hlo Hb Hks p Hp. apply list_elem_of_fmap in Hp as (k & -> & Hk). cbn. intros <-.
  by eapply (lo_home l Hlo); [apply log_block_elem, Hks|].
Qed.

(** Recovery with nothing referenced and the logged blocks of [l] in the header. *)
Lemma recover_ok s l0 l d w :
  quiet s l0 d d w (fun _ => 0) -> head_is (d (l_start l0)) l ->
  l_start l0 = l_start l -> l_size l0 = l_size l -> l_dev l0 = l_dev l -> log_ok l ->
  exists s' l', recover_from_log s = Ok (tt, s') /\ lh_n l' = 0 /\ l_start l' = l_start l /\ l_size l' = l_size l /\
    l_dev l' = l_dev l /\ l_outstanding l' = l_outstanding l0 /\ l_committing l' = l_committing l0 /\
    quiet s' l' (apply_writes d (recover_writes l d)) (apply_writes d (recover_writes l d))
      (w ++ recover_writes l d) (unref_all (log_blocks l) (fun _ => 0)).
Proof.
  intros Hq Hhd Hst Hsz Hdv Hlo.
  destruct (read_head_ok s l0 d d w _ Hq) as (s1 & l1 & H1 & Hq1 & Hhd1 & E1 & E2 & E3 & E4 & E5);
    [rewrite Hdv; apply Hlo|rewrite Hst; by apply start_range|by exists ∅|done|done|].
  rewrite Hst in E1. rewrite Hsz in E2. rewrite Hdv in E3.
  destruct (head_is_log _ l l1 Hhd Hhd1 E1 E2 E3 Hlo) as (Hlo1 & Ews & Ebs).
  set (ks := upto (lh_n l1)). assert (forall k, k ∈ ks -> 0 <= k < lh_n l1) as Hks by (intros k; apply elem_of_upto).
  destruct (install_loop_ok l1 0 ks s1 d d w _ Hq1 Hlo1 (NoDup_upto _) Hks) as (s2 & H2 & Hq2); [|done|done|].
  { right. split; [done|]. exists ∅. split; [done|]. unfold ks. rewrite length_upto, size_empty. pose proof (lo_n l1 Hlo1). lia. }
  change (lh_block l1 <$> ks) with (log_blocks l1) in Hq2. unfold ks in Hq2. rewrite Ews, Ebs in Hq2.
  assert (quiet (LState (with_n 0 (l_log s2)) (l_cache s2)) (with_n 0 l1) (apply_writes d (install_writes l d (upto (lh_n l))))
    (apply_writes d (install_writes l d (upto (lh_n l)))) (w ++ install_writes l d (upto (lh_n l)))
    (unref_all (log_blocks l) (fun _ => 0))) as Hq3.
  { destruct Hq2 as [Hl2 Hr2]. split; [cbn; by rewrite Hl2|exact Hr2]. }
  destruct (write_head_ok _ _ _ _ _ _ Hq3) as (s3 & H3 & Hq4); cbn [with_n l_dev l_start lh_n lh_block] in *.
  { by apply Hlo1. } { by apply start_range. } { by apply unref_spare. }
  { rewrite unref_all_spec, bool_decide_eq_false_2; [lia| |apply Hlo]. intros Hin. rewrite E1 in Hin.
    by apply (lo_home l Hlo _ Hin), start_in_log. }
  exists s3, (with_n 0 l1). split_and!; try done.
  - unfold recover_from_log. mstep H1. rewrite (bind_ok _ _ _ _ _ (eq_trans (install_trans_run s1 l1 (proj1 Hq1)) H2)).
    mcomp. exact H3.
  - rewrite apply_writes_other in Hq4; rewrite E1 in *.
    + eapply quiet_equiv; [exact Hq4|..]; try done; unfold recover_writes.
      * intros b. rewrite apply_writes_app. done.
      * intros b. rewrite apply_writes_app. done.
      * by rewrite app_assoc.
    + apply install_other; [done|by apply start_in_log|]. intros k. apply elem_of_upto.
Qed.

(** ** Crashes *)

(** The log's parameters are those of the superblock. *)
Definition sb_is (sb : logsb) l : Prop :=
  i32 (sb_logstart sb) = l_start l /\ i32 (sb_nlog sb) = l_size l /\ l_dev l = c_dev.

Lemma reboot_ok sb l d :
  sb_is sb l -> log_ok l -> head_is (d (l_start l)) l ->
  exists s l', reboot sb d = Ok (tt, s) /\ lh_n l' = 0 /\ l_start l' = l_start l /\ l_size l' = l_size l /\
    l_dev l' = l_dev l /\ l_outstanding l' = 0 /\ l_committing l' = false /\
    quiet s l' (apply_writes d (recover_writes l d)) (apply_writes d (recover_writes l d))
      (recover_writes l d) (unref_all (log_blocks l) (fun _ => 0)).
Proof.
  intros (E1 & E2 & E3) Hlo Hhd. destruct (c_boot_ok d) as (c & Hb & Hr).
  unfold reboot. crun Hb. unfold initlog. mcomp. mcomp. cbn [l_log l_cache l_outstanding l_committing lh_n lh_block bss_log].
  rewrite E1, E2. set (l0 := Log _ _ _ _ _ _ _).
  destruct (recover_ok (LState l0 c) l0 l d []) as (s & l' & H1 & H2 & H3 & H4 & H5 & H6 & H7 & Hq); try done.
  by exists s, l'.
Qed.

(** A disk with no committed transaction, whose blocks outside the log are those of
    [x]. *)
Definition settled l (x D : Z -> block) : Prop :=
  length (D (l_start l)) = Z.to_nat BSIZE /\ get_int (D (l_start l)) 0 = 0 /\ forall b, ~ in_log l b -> D b = x b.

(** The file system after the transaction. *)
Definition updated l d v (b : Z) : block := if bool_decide (b ∈ log_blocks l) then v b else d b.

(** A disk with a committed transaction that may be partly installed. *)
Definition committed l d v (D : Z -> block) : Prop :=
  length (D (l_start l)) = Z.to_nat BSIZE /\ head_is (D (l_start l)) l /\
  (forall k, 0 <= k < lh_n l -> D (l_start l + k + 1) = v (lh_block l k)) /\
  forall b, ~ in_log l b -> b ∉ log_blocks l -> D b = d b.

(** The disks that crashes during [commit] and during later recoveries leave. *)
Definition crashed l d v (D : Z -> block) : Prop :=
  settled l d D \/ committed l d v D \/ settled l (updated l d v) D.

Lemma log_ok_none l l' :
  log_ok l -> l_start l' = l_start l -> l_size l' = l_size l -> l_dev l' = l_dev l -> lh_n l' = 0 -> log_ok l'.
Proof.
  intros Hlo E1 E2 E3 E4. pose proof (lo_n l Hlo) as Hn. pose proof (lo_size l Hlo) as Hs.
  assert (log_blocks l' = []) as E by (unfold log_blocks; by rewrite E4).
  split; rewrite ?E, ?E1, ?E2, ?E3, ?E4; [apply Hlo|lia|lia|intros b Hb; by apply elem_of_nil in Hb|apply Hlo| |apply NoDup_nil_2].
  intros b Hb. by apply elem_of_nil in Hb.
Qed.

Lemma log_ok_empty l : log_ok l -> log_ok (with_n 0 l).
Proof. intros Hlo. by apply (log_ok_none l). Qed.

Lemma clear_head (h : block) f :
  length h = Z.to_nat BSIZE -> length (put_head h 0 f) = Z.to_nat BSIZE /\ get_int (put_head h 0 f) 0 = 0.
Proof. intros Hl. split; [by rewrite length_put_head|]. apply get_head; [done|done|lia]. Qed.

Lemma settled_head l x D f :
  log_ok l -> length (D (l_start l)) = Z.to_nat BSIZE -> (forall b, ~ in_log l b -> D b = x b) ->
  settled l x (upd D (l_start l) (put_head (D (l_start l)) 0 f)).
Proof.
  intros Hlo Hl Hx. destruct (clear_head (D (l_start l)) f Hl) as [H1 H2]. split_and!; rewrite ?upd_eq; try done.
  intros b Hb. rewrite upd_ne; [by apply Hx|]. intros ->. by apply Hb, start_in_log.
Qed.

(** The data of a committed transaction reaches its places. *)
Lemma committed_install l d v D ws :
  log_ok l -> committed l d v D -> (forall p, p ∈ ws -> p ∈ home_writes l v) -> committed l d v (apply_writes D ws).
Proof.
  intros Hlo (Hl & Hh & Hd & Ho) Hws. pose proof (lo_size l Hlo) as Hsz.
  assert (forall b, b ∉ log_blocks l -> apply_writes D ws b = D b) as Hsame.
  { intros b Hb. apply apply_writes_other. intros p Hp. apply Hws, list_elem_of_fmap in Hp as (k & -> & Hk).
    intros <-. by apply Hb, log_block_elem, elem_of_upto. }
  assert (forall b, in_log l b -> b ∉ log_blocks l) as Hlog by (intros b Hb Hin; by apply (lo_home l Hlo b)).
  pose proof (start_in_log l Hlo) as Hst. split_and!.
  - by rewrite Hsame by auto.
  - by rewrite Hsame by auto.
  - intros k Hk. rewrite Hsame; [by apply Hd|]. apply Hlog. unfold in_log. lia.
  - intros b Hb Hin. rewrite Hsame by done. by apply Ho.
Qed.

Lemma home_writes_value l v D b : b ∈ log_blocks l -> apply_writes D (home_writes l v) b = v b.
Proof.
  intros Hb. apply list_elem_of_fmap in Hb as (k & -> & Hk). apply apply_writes_value.
  - eexists (_, _). split; [apply list_elem_of_fmap; by exists k|done].
  - intros p Hp. apply list_elem_of_fmap in Hp as (j & -> & Hj). cbn. by intros ->.
Qed.

Lemma committed_done l d v D f :
  log_ok l -> committed l d v D ->
  settled l (updated l d v) (apply_writes D (home_writes l v ++ [(l_start l, put_head (D (l_start l)) 0 f)])).
Proof.
  intros Hlo Hc. destruct (committed_install l d v D (home_writes l v) Hlo Hc) as (H1 & _ & _ & H4); [done|].
  rewrite apply_writes_app. cbn [apply_writes foldl].
  assert (apply_writes D (home_writes l v) (l_start l) = D (l_start l)) as <-.
  { apply apply_writes_other. intros p Hp. apply list_elem_of_fmap in Hp as (k & -> & Hk). cbn. intros Heq.
    eapply (lo_home l Hlo); [apply log_block_elem, elem_of_upto; exact Hk|]. rewrite Heq. by apply start_in_log. }
  apply settled_head; [done|done|]. intros b Hb. unfold updated. case_bool_decide; [by apply home_writes_value|by apply H4].
Qed.

Lemma prefix_of_app {A} (P a b : list A) :
  P `prefix_of` a ++ b -> P `prefix_of` a \/ exists q, P = a ++ q /\ q `prefix_of` b.
Proof.
  intros [r Hr]. apply app_eq_inv in Hr as [(k & Ha & Hb)|(k & Ha & Hb)].
  - left. by exists k.
  - right. exists k. split; [done|]. by exists r.
Qed.

Lemma prefix_elem {A} (P a : list A) x : P `prefix_of` a -> x ∈ P -> x ∈ a.
Proof. intros [r ->] Hx. rewrite elem_of_app. by left. Qed.

Lemma prefix_one {A} (P : list A) x : P `prefix_of` [x] -> P = [] \/ P = [x].
Proof. intros [r Hr]. destruct P as [|y P]; [by left|right]. injection Hr as <- Hr. by apply eq_sym, app_eq_nil in Hr as [-> _]. Qed.

(** Writes to the log's blocks, the header apart, commit nothing. *)
Lemma settled_data l x v D P :
  log_ok l -> settled l x D -> P `prefix_of` log_data_writes l v (upto (lh_n l)) -> settled l x (apply_writes D P).
Proof.
  intros Hlo (H1 & H2 & H3) HP. pose proof (lo_size l Hlo) as Hsz.
  assert (forall p, p ∈ P -> in_log l p.1 /\ p.1 <> l_start l) as Hin.
  { intros p Hp. apply (prefix_elem _ _ _ HP), list_elem_of_fmap in Hp as (k & -> & Hk).
    apply elem_of_upto in Hk. cbn. unfold in_log. lia. }
  assert (apply_writes D P (l_start l) = D (l_start l)) as Hs.
  { apply apply_writes_other. intros p Hp. by apply Hin. }
  split_and!; rewrite ?Hs; try done. intros b Hb. rewrite apply_writes_other; [by apply H3|].
  intros p Hp <-. by apply Hb, Hin.
Qed.

(** Writing the header commits. *)
Lemma commit_point l d v :
  log_ok l -> settled l d d -> v (l_start l) = d (l_start l) ->
  committed l d v (apply_writes d (log_data_writes l v (upto (lh_n l)) ++ [(l_start l, commit_head l v)])).
Proof.
  intros Hlo Hset Hv. pose proof (lo_n l Hlo) as Hn. pose proof (lo_size l Hlo) as Hsz.
  destruct (settled_data l d v d _ Hlo Hset (reflexivity _)) as (_ & _ & Ho).
  rewrite apply_writes_app. cbn [apply_writes foldl fst snd].
  destruct Hset as (Hl & _). destruct (get_head (v (l_start l)) (lh_n l) (lh_block l)) as [Hg1 Hg2].
  { unfold LOGSIZE, NBUF in *. lia. } { by rewrite Hv. }
  { intros i Hi. pose proof (lo_int l Hlo _ (log_block_elem l i Hi)). lia. }
  split_and!; rewrite ?upd_eq.
  - unfold commit_head. by rewrite length_put_head, Hv.
  - done.
  - intros k Hk. rewrite upd_ne by lia. by apply apply_data_writes, elem_of_upto.
  - intros b Hb _. rewrite upd_ne; [by apply Ho|]. intros ->. by apply Hb, start_in_log.
Qed.

Lemma crash_in_commit l d v P :
  log_ok l -> settled l d d -> v (l_start l) = d (l_start l) -> P `prefix_of` commit_writes l v ->
  crashed l d v (apply_writes d P).
Proof.
  intros Hlo Hset Hv HP. unfold commit_writes in HP. rewrite app_assoc in HP.
  apply prefix_of_app in HP as [HP|(q & -> & HP)].
  - apply prefix_of_app in HP as [HP|(q & -> & [->| ->]%prefix_one)].
    + left. by eapply settled_data.
    + left. rewrite app_nil_r. by eapply settled_data.
    + right. left. by apply commit_point.
  - pose proof (commit_point l d v Hlo Hset Hv) as Hc. rewrite apply_writes_app.
    set (D := apply_writes d _) in *. assert (D (l_start l) = commit_head l v) as Hh.
    { unfold D. rewrite apply_writes_app. apply upd_eq. }
    rewrite <- Hh in HP.
    apply prefix_of_app in HP as [HP|(q' & -> & [->| ->]%prefix_one)].
    + right. left. apply committed_install; [done..|]. intros p. by apply prefix_elem.
    + right. left. rewrite app_nil_r. by apply committed_install.
    + right. right. by apply committed_done.
Qed.

(** Recovery from such a disk, with the disks that it passes through. *)
Definition recovers sb l d v D : Prop :=
  exists s l' rf, let D' := apply_writes D (c_writes (l_cache s)) in
    reboot sb D = Ok (tt, s) /\ lh_n l' = 0 /\ quiet s l' D' D' (c_writes (l_cache s)) rf /\
    (settled l d D' \/ settled l (updated l d v) D') /\
    forall P, P `prefix_of` c_writes (l_cache s) -> crashed l d v (apply_writes D P).

Lemma quiet_writes s l d v w rf : quiet s l d v w rf -> c_writes (l_cache s) = w.
Proof. intros [_ Hr]. by destruct (c_obs_ok _ _ Hr). Qed.

Lemma recover_settled sb l d v D x :
  sb_is sb l -> log_ok l -> x = d \/ x = updated l d v -> settled l x D -> recovers sb l d v D.
Proof.
  intros Hsb Hlo Hx Hset. destruct (reboot_ok sb (with_n 0 l) D) as (s & l' & H1 & H2 & _ & _ & _ & _ & _ & Hq).
  { done. } { by apply log_ok_empty. } { destruct Hset as (_ & H & _). split; [exact H|]. cbn. intros i Hi. lia. }
  change (recover_writes (with_n 0 l) D) with [(l_start l, put_head (D (l_start l)) 0 (lh_block l))] in Hq.
  pose proof (quiet_writes _ _ _ _ _ _ Hq) as Hw. exists s, l', (unref_all (log_blocks (with_n 0 l)) (fun _ => 0)).
  rewrite Hw. assert (settled l x (apply_writes D [(l_start l, put_head (D (l_start l)) 0 (lh_block l))])) as Hd.
  { apply settled_head; [done|apply Hset|apply Hset]. }
  split_and!; [done|done|done|destruct Hx as [->| ->]; auto|].
  intros P [->| ->]%prefix_one; unfold crashed; destruct Hx as [->| ->]; auto.
Qed.

Lemma recover_committed sb l d v D :
  sb_is sb l -> log_ok l -> committed l d v D -> recovers sb l d v D.
Proof.
  intros Hsb Hlo Hc. destruct (reboot_ok sb l D) as (s & l' & H1 & H2 & _ & _ & _ & _ & _ & Hq); [done|done|apply Hc|].
  assert (recover_writes l D = home_writes l v ++ [(l_start l, put_head (D (l_start l)) 0 (lh_block l))]) as E.
  { unfold recover_writes. f_equal. apply list_fmap_ext. intros i k Hk. f_equal. apply Hc.
    apply elem_of_upto. by eapply list_elem_of_lookup_2. }
  rewrite E in Hq. pose proof (quiet_writes _ _ _ _ _ _ Hq) as Hw.
  exists s, l', (unref_all (log_blocks l) (fun _ => 0)). rewrite Hw.
  pose proof (committed_done l d v D (lh_block l) Hlo Hc) as Hdone. split_and!; [done|done|done|by right|].
  intros P [HP|(q & -> & [->| ->]%prefix_one)]%prefix_of_app.
  - right. left. apply committed_install; [done..|]. intros p. by apply prefix_elem.
  - right. left. rewrite app_nil_r. by apply committed_install.
  - right. by right.
Qed.

Lemma crashed_recovers sb l d v D : sb_is sb l -> log_ok l -> crashed l d v D -> recovers sb l d v D.
Proof.
  intros Hsb Hlo [H|[H|H]]; [|by apply recover_committed|].
  - apply (recover_settled sb l d v D d); auto.
  - apply (recover_settled sb l d v D (updated l d v)); auto.
Qed.

(** The disks that any number of crashes during recovery make of a disk. *)
Inductive crashes (sb : logsb) : (Z -> block) -> (Z -> block) -> Prop :=
| crash_none D : crashes sb D D
| crash_recovery D s P D' :
    reboot sb D = Ok (tt, s) -> P `prefix_of` c_writes (l_cache s) -> crashes sb (apply_writes D P) D' -> crashes sb D D'.

Lemma crashes_crashed sb l d v D D' :
  sb_is sb l -> log_ok l -> crashes sb D D' -> crashed l d v D -> crashed l d v D'.
Proof.
  intros Hsb Hlo Hcr. induction Hcr as [D|D s P D' Hr HP _ IH]; intros Hd; [done|]. apply IH.
  destruct (crashed_recovers sb l d v D Hsb Hlo Hd) as (s' & l' & rf & Hr' & _ & _ & _ & Hall).
  rewrite Hr in Hr'. injection Hr' as <-. by apply Hall.
Qed.
End Runs.
