(* ===== verification/LogTxn.v ===== *)
(** * Transactions of the log

    A file system operation is [begin_op], a sequence of modified blocks that it
    passes to [log_write], and [end_op].  The theorems of this file are about the
    whole operation: it installs exactly its writes, it is atomic under crashes at
    any disk write and during any number of recoveries, and two flaws of the code:
    three admitted operations can overflow the log, and recovery leaves the buffers
    that it installs with a wrapped-around reference count. *)

From S2P Require Import Prelude Riscv Cache Bio Log LogCrash.

(** ** [log_write] *)

Lemma log_index_spec f b n : forall i,
  let r := log_index f b i n in
  i <= r < i + Z.of_nat n /\ u32 (f r) = b \/
  r = i + Z.of_nat n /\ forall j, i <= j < i + Z.of_nat n -> u32 (f j) <> b.
Proof.
  induction n as [|n IH]; intros i r; unfold r; cbn [log_index].
  - right. split; [lia|]. intros j Hj. lia.
  - destruct (Z.eqb_spec (u32 (f i)) b) as [E|E]; [left; split; [lia|done]|].
    destruct (IH (i + 1)) as [[H1 H2]|[H1 H2]]; [left; split; [lia|done]|right]. split; [lia|].
    intros j Hj. destruct (Z.eq_dec j i) as [->|]; [done|]. apply H2. lia.
Qed.

(** The logged blocks after [log_write] of the block [b]. *)
Definition logged (b : Z) (bs : list Z) : list Z := if bool_decide (b ∈ bs) then bs else bs ++ [b].

Lemma elem_of_logged b bs c : c ∈ logged b bs <-> c = b \/ c ∈ bs.
Proof.
  unfold logged. case_bool_decide; [|rewrite elem_of_app, list_elem_of_singleton; tauto].
  split; [auto|]. by intros [->|?].
Qed.

Lemma log_blocks_upd (l : log) k b :
  (forall j, 0 <= j < lh_n l -> j <> k) -> log_blocks (with_block k b l) = log_blocks l.
Proof.
  intros Hk. apply list_fmap_ext. intros i j Hj. cbn. apply upd_ne, Hk, elem_of_upto. by eapply list_elem_of_lookup_2.
Qed.

Section Txn.
Context {S : Type} {C : BlockCache S} {COk : BlockCacheOk S}.
Implicit Types (s : lstate (S := S)) (l : log) (d v : Z -> block) (w ws : list (Z * block)) (rf : Z -> Z).

(** The use of [log_write] that its comment gives, with the new contents of the
    block. *)
Definition tx_write (p : Z * block) : M lstate unit :=
  let! bp := cache (c_bread c_dev p.1) in
  cache (c_set bp p.2) ;;
  log_write bp ;;
  cache (c_brelse bp).

(** The header's entry for [b] when it is new and when it is there. *)
Definition log_entry (b : Z) l : log :=
  let i := log_index (lh_block l) b 0 (Z.to_nat (lh_n l)) in
  let l' := with_block i (i32 b) l in
  if i =? lh_n l then with_n (lh_n l + 1) l' else l'.

Lemma log_entry_params b l :
  l_dev (log_entry b l) = l_dev l /\ l_start (log_entry b l) = l_start l /\ l_size (log_entry b l) = l_size l /\
  l_outstanding (log_entry b l) = l_outstanding l /\ l_committing (log_entry b l) = l_committing l.
Proof. unfold log_entry. by destruct (_ =? _). Qed.

Lemma log_entry_blocks b l :
  log_ok l -> 0 <= b < 2 ^ 31 -> log_blocks (log_entry b l) = logged b (log_blocks l) /\
    lh_n (log_entry b l) = Z.of_nat (length (logged b (log_blocks l))) /\
    (log_index (lh_block l) b 0 (Z.to_nat (lh_n l)) =? lh_n l) = negb (bool_decide (b ∈ log_blocks l)).
Proof.
  intros Hlo Hb. pose proof (lo_n l Hlo) as Hn. unfold log_entry, logged.
  set (i := log_index _ _ _ _). rewrite (i32_small b) by lia.
  assert (length (log_blocks l) = Z.to_nat (lh_n l)) as Hlen by (unfold log_blocks; by rewrite length_fmap, length_upto).
  destruct (log_index_spec (lh_block l) b (Z.to_nat (lh_n l)) 0) as [[H1 H2]|[H1 H2]]; fold i in H1, H2.
  - pose proof (lo_int l Hlo _ (log_block_elem l i ltac:(lia))) as Hr. rewrite u32_small in H2 by lia.
    rewrite (proj2 (Z.eqb_neq i (lh_n l))) by lia.
    rewrite bool_decide_eq_true_2 by (rewrite <- H2; apply log_block_elem; lia).
    split_and!; [|cbn; lia|done]. apply list_fmap_ext. intros k j _. cbn. unfold upd.
    by destruct (Z.eqb_spec j i) as [->|].
  - rewrite (proj2 (Z.eqb_eq i (lh_n l))) by lia.
    assert (b ∉ log_blocks l) as Hnin.
    { intros Hin. pose proof (lo_int l Hlo _ Hin) as Hr. apply list_elem_of_fmap in Hin as (k & E & Hk).
      apply elem_of_upto in Hk. apply (H2 k); [lia|]. rewrite <- E. apply u32_small. lia. }
    rewrite (bool_decide_eq_false_2 _ Hnin). split_and!; [|rewrite length_app, Hlen; cbn; lia|done].
    unfold log_blocks. cbn [lh_n with_n lh_block with_block]. rewrite upto_S, fmap_app by lia. f_equal.
    + apply list_fmap_ext. intros k j Hj. apply list_elem_of_lookup_2, elem_of_upto in Hj. apply upd_ne. lia.
    + cbn. replace i with (lh_n l) by lia. by rewrite upd_eq.
Qed.

Lemma log_entry_ok b l :
  log_ok l -> 0 <= b < 2 ^ 31 -> ~ in_log l b -> lh_n l < l_size l - 1 -> lh_n l + 1 < NBUF -> log_ok (log_entry b l).
Proof.
  intros Hlo Hb Hin Hs Hn. destruct (log_entry_blocks b l Hlo Hb) as (E1 & E2 & _).
  assert (length (log_blocks l) = Z.to_nat (lh_n l)) as Hlen by (unfold log_blocks; by rewrite length_fmap, length_upto).
  destruct (log_entry_params b l) as (P1 & P2 & P3 & _ & _).
  assert (Z.of_nat (length (logged b (log_blocks l))) <= lh_n l + 1) as Hle.
  { pose proof (lo_n l Hlo). unfold logged. case_bool_decide; rewrite ?length_app; cbn; lia. }
  split; rewrite ?E1, ?E2, ?P1, ?P2, ?P3; try apply Hlo; try lia.
  - intros c Hc. unfold in_log. rewrite P2, P3. apply elem_of_logged in Hc; destruct Hc as [->|Hc']; [done|by apply (lo_home l Hlo)].
  - intros c Hc. apply elem_of_logged in Hc; destruct Hc as [->|Hc']; [done|by apply (lo_int l Hlo)].
  - unfold logged. case_bool_decide; [apply Hlo|]. apply NoDup_app. split_and!; [apply Hlo| |apply NoDup_singleton].
    intros c Hc Hc'. apply list_elem_of_singleton in Hc'. congruence.
Qed.

(** In a transaction: the log and the cache, with the disk [d] and the contents [v]. *)
Record in_txn s l d v w : Prop := {
  tx_quiet : exists rf, quiet s l d v w rf /\ pinned l rf;
  tx_ok : log_ok l;
  tx_clean b : b ∉ log_blocks l -> v b = d b;
  tx_out : 1 <= l_outstanding l;
  tx_idle : l_committing l = false;
}.

(** Both branches of [log_write] on a buffer that holds the block [b]. *)
Lemma log_write_ok l c a i b :
  c_rep c a -> a_held a !! i = Some b -> log_ok l -> 0 <= b < 2 ^ 31 ->
  lh_n l < LOGSIZE -> lh_n l < l_size l - 1 -> 1 <= l_outstanding l ->
  exists c', log_write i (LState l c) = Ok (tt, LState (log_entry b l) c') /\
    c_rep c' (if bool_decide (b ∈ log_blocks l) then a else a_ref b 1 a).
Proof.
  intros Hr Hh Hlo Hb H1 H2 H3. destruct (log_entry_blocks b l Hlo Hb) as (_ & _ & E).
  destruct (c_data_ok _ _ _ _ Hr Hh) as [_ Hbn]. destruct (c_bpin_ok _ _ _ _ Hr Hh) as (c' & Hpin & Hr').
  unfold log_write. mcomp. cbn [l_log].
  rewrite (proj2 (Z.leb_gt _ _)), (proj2 (Z.leb_gt _ _)), (proj2 (Z.ltb_ge _ _)) by lia. cbn [orb]. mcomp. mcomp.
  mcomp. cbn [l_cache l_log]. rewrite Hbn. mcomp. cbn [l_cache l_log]. rewrite E. unfold log_entry. rewrite E.
  case_bool_decide; cbn [negb].
  - by exists c.
  - exists c'. split; [|done]. crun Hpin. done.
Qed.

Lemma pinned_entry l rf b :
  log_ok l -> 0 <= b < 2 ^ 31 -> pinned l rf -> pinned (log_entry b l) (upd rf b 1).
Proof.
  intros Hlo Hb Hpin c. rewrite (proj1 (log_entry_blocks b l Hlo Hb)). unfold upd. destruct (Z.eqb_spec c b) as [->|Hne].
  - rewrite bool_decide_eq_true_2; [done|]. apply elem_of_logged. by left.
  - rewrite Hpin, (bool_decide_ext (c ∈ logged b (log_blocks l)) (c ∈ log_blocks l)); [done|].
    rewrite elem_of_logged. tauto.
Qed.

Lemma pinned_avail l rf d v w h b :
  log_ok l -> pinned l rf -> available (ACache d v w rf h) \/ rf b <> 0.
Proof. intros Hlo Hp. left. apply spare_available. by eapply pinned_spare. Qed.

Lemma tx_write_ok s l d v w p :
  in_txn s l d v w -> 0 <= p.1 < 2 ^ 31 -> ~ in_log l p.1 ->
  lh_n l + 1 < NBUF -> lh_n l < LOGSIZE -> lh_n l < l_size l - 1 ->
  exists s', tx_write p s = Ok (tt, s') /\ in_txn s' (log_entry p.1 l) d (upd v p.1 p.2) w.
Proof.
  destruct p as [b x], s as [l0 c0]. cbn [fst snd]. intros [(rf & [Hl Hr] & Hpin) Hlo Hcl Hout Hidle] Hb Hin Hn1 Hn2 Hn3.
  cbn in Hl, Hr. subst l0. destruct (log_entry_blocks b l Hlo Hb) as (Ebs & _ & _).
  assert (rf b = if bool_decide (b ∈ log_blocks l) then 1 else 0) as Hrb by apply Hpin.
  destruct (c_bread_ok c0 _ b Hr) as (i & c1 & H1 & _ & Hr1).
  { apply sane_empty. } { intros j. cbn. by rewrite lookup_empty. } { by apply (pinned_avail l). }
  { cbn. rewrite Hrb. case_bool_decide; lia. }
  set (a1 := a_bread i b _) in *. assert (a_held a1 !! i = Some b) as Hh by (cbn; apply lookup_insert_eq).
  destruct (c_set_ok _ _ _ _ x Hr1 Hh) as (c2 & H2 & Hr2).
  destruct (log_write_ok l c2 _ i b Hr2 Hh Hlo Hb Hn2 Hn3 Hout) as (c3 & H3 & Hr3).
  set (a3 := if bool_decide (b ∈ log_blocks l) then _ else a_ref _ _ _) in Hr3.
  assert (a_held a3 !! i = Some b /\ a_refs a3 b = 2) as [Hh3 Hr3b].
  { unfold a3. case_bool_decide; (split; [exact Hh|]); cbn; rewrite ?upd_eq, Hrb; done. }
  destruct (c_brelse_ok _ _ i b Hr3 Hh3) as (c4 & H4 & Hr4).
  { rewrite Hr3b. done. }
  exists (LState (log_entry b l) c4). split.
  { unfold tx_write. crun H1. crun H2. mstep H3. by apply cache_run. }
  split.
  - exists (upd rf b 1). split; [split; [done|]|].
    + eapply c_rep_equiv; [exact Hr4|]. unfold a_brelse. rewrite Hr3b.
      split_and!; cbn; try (unfold a3; case_bool_decide; done).
      * intros c. unfold a3. case_bool_decide; cbn; upd_split.
      * unfold a3. case_bool_decide; cbn; by rewrite delete_insert_id by apply lookup_empty.
    + by apply pinned_entry.
  - by apply log_entry_ok.
  - intros c. rewrite Ebs, elem_of_logged. intros Hc. rewrite upd_ne by tauto. apply Hcl. tauto.
  - by rewrite (proj1 (proj2 (proj2 (proj2 (log_entry_params b l))))).
  - by rewrite (proj2 (proj2 (proj2 (proj2 (log_entry_params b l))))).
Qed.

(** ** The writes of an operation *)

Definition log_entries ws l : log := foldl (fun l p => log_entry p.1 l) l ws.
Definition logged_all ws (bs : list Z) : list Z := foldl (fun bs p => logged p.1 bs) bs ws.

Lemma elem_of_logged_all ws : forall bs c, c ∈ logged_all ws bs <-> c ∈ bs \/ c ∈ ws.*1.
Proof.
  induction ws as [|p ws IH]; intros bs c; cbn [logged_all foldl fmap list_fmap].
  - rewrite elem_of_nil. tauto.
  - fold (logged_all ws (logged p.1 bs)). rewrite IH, elem_of_logged, elem_of_cons. tauto.
Qed.

Lemma NoDup_logged_all ws : forall bs, NoDup bs -> NoDup (logged_all ws bs).
Proof.
  induction ws as [|p ws IH]; intros bs Hn; cbn [logged_all foldl]; [done|]. apply IH. unfold logged.
  case_bool_decide; [done|]. apply NoDup_app. split_and!; [done| |apply NoDup_singleton].
  intros c Hc Hc'. apply list_elem_of_singleton in Hc'. congruence.
Qed.

(** As many entries as there are blocks. *)
Lemma length_logged_all ws : length (logged_all ws []) = size (list_to_set ws.*1 : gset Z).
Proof.
  rewrite <- (size_list_to_set (C := gset Z) (logged_all ws [])) by (apply NoDup_logged_all, NoDup_nil_2).
  f_equal. apply leibniz_equiv. intros c. rewrite !elem_of_list_to_set, elem_of_logged_all, elem_of_nil. tauto.
Qed.

Lemma length_logged_all_le ws : forall bs, (length (logged_all ws bs) <= length bs + length ws)%nat.
Proof.
  induction ws as [|p ws IH]; intros bs; cbn [logged_all foldl length]; [lia|].
  etransitivity; [apply IH|]. unfold logged. case_bool_decide; rewrite ?length_app; cbn; lia.
Qed.

(** Blocks that a file system operation may pass to [log_write]. *)
Definition fs_writes l ws : Prop := forall p, p ∈ ws -> 0 <= p.1 < 2 ^ 31 /\ ~ in_log l p.1.

(** Every write of [ws] finds the log with room. *)
Definition fits l ws (bs : list Z) : Prop :=
  forall pre p post, ws = pre ++ p :: post -> Z.of_nat (length (logged_all pre bs)) + 1 < l_size l.

Lemma fits_cons l p ws bs :
  fits l (p :: ws) bs -> Z.of_nat (length bs) + 1 < l_size l /\ fits l ws (logged p.1 bs).
Proof.
  intros H. split; [by apply (H [] p ws)|]. intros pre q post ->. by apply (H (p :: pre) q post).
Qed.

Lemma in_txn_length s l d v w : in_txn s l d v w -> Z.of_nat (length (log_blocks l)) = lh_n l.
Proof. intros H. pose proof (lo_n l (tx_ok _ _ _ _ _ H)). unfold log_blocks. rewrite length_fmap, length_upto. lia. Qed.

Lemma tx_writes_ok ws : forall s l d v w,
  in_txn s l d v w -> fs_writes l ws -> l_size l <= LOGSIZE -> fits l ws (log_blocks l) ->
  exists s', mfor ws tx_write s = Ok (tt, s') /\ in_txn s' (log_entries ws l) d (apply_writes v ws) w /\
    log_blocks (log_entries ws l) = logged_all ws (log_blocks l).
Proof.
  induction ws as [|p ws IH]; intros s l d v w Hin Hws Hsz Hfit; cbn [mfor].
  { exists s. done. }
  apply fits_cons in Hfit as [Hn Hfit]. destruct (Hws p) as [Hp1 Hp2]; [by left|].
  rewrite (in_txn_length _ _ _ _ _ Hin) in Hn. destruct (log_entry_params p.1 l) as (P1 & P2 & P3 & P4 & P5).
  destruct (tx_write_ok s l d v w p Hin Hp1 Hp2) as (s1 & Hrun & Hin1); [unfold LOGSIZE, NBUF in *; lia..|].
  destruct (log_entry_blocks p.1 l (tx_ok _ _ _ _ _ Hin) Hp1) as (E & _ & _). mstep Hrun.
  destruct (IH s1 _ _ _ _ Hin1) as (s' & Hrun' & Hin' & Hbs).
  - intros q Hq. unfold in_log. rewrite P2, P3. apply Hws. by right.
  - by rewrite P3.
  - rewrite E. intros pre q post Eq. rewrite P3. by apply (Hfit pre q post).
  - exists s'. split; [done|]. split; [exact Hin'|]. rewrite E in Hbs. exact Hbs.
Qed.

(** [log_write] when the log has no room. *)
Lemma tx_write_full s l d v w p :
  in_txn s l d v w -> l_size l - 1 <= lh_n l ->
  tx_write p s = Panic "too big a transaction".
Proof.
  destruct p as [b x], s as [l0 c0]. cbn [fst snd]. intros [(rf & [Hl Hr] & Hpin) Hlo _ _ _] Hfull.
  cbn in Hl, Hr. subst l0. destruct (c_bread_ok c0 _ b Hr) as (i & c1 & H1 & _ & Hr1).
  { apply sane_empty. } { intros j. cbn. by rewrite lookup_empty. } { by apply (pinned_avail l). }
  { cbn. rewrite Hpin. case_bool_decide; lia. }
  assert (a_held (a_bread i b (ACache d v w rf ∅)) !! i = Some b) as Hh by (cbn; apply lookup_insert_eq).
  destruct (c_set_ok _ _ _ _ x Hr1 Hh) as (c2 & H2 & Hr2).
  unfold tx_write. crun H1. crun H2. apply bind_panic. unfold log_write. mcomp. cbn [l_log].
  rewrite (proj2 (Z.leb_le (l_size l - 1) _)), orb_true_r by done. done.
Qed.

Lemma log_entries_params ws : forall l,
  l_dev (log_entries ws l) = l_dev l /\ l_start (log_entries ws l) = l_start l /\ l_size (log_entries ws l) = l_size l /\
  l_outstanding (log_entries ws l) = l_outstanding l /\ l_committing (log_entries ws l) = l_committing l.
Proof.
  induction ws as [|p ws IH]; intros l; [done|]. cbn [log_entries foldl].
  destruct (IH (log_entry p.1 l)) as (E1 & E2 & E3 & E4 & E5). destruct (log_entry_params p.1 l) as (P1 & P2 & P3 & P4 & P5).
  unfold log_entries in *. rewrite E1, E2, E3, E4, E5. done.
Qed.

(** ** The whole operation *)

(** Between operations. *)
Record idle s l d w : Prop := {
  id_quiet : quiet s l d d w (fun _ => 0);
  id_ok : log_ok l;
  id_n : lh_n l = 0;
  id_out : l_outstanding l = 0;
  id_committing : l_committing l = false;
  id_settled : settled l d d;
  id_size : l_size l <= LOGSIZE;
}.

(** Other values of [log.outstanding] and [log.committing]. *)
Definition ctl (o : Z) (c : bool) l : log := Log (l_start l) (l_size l) o c (l_dev l) (lh_n l) (lh_block l).

Lemma log_ok_ctl o c l : log_ok l -> log_ok (ctl o c l).
Proof. intros Hlo. split; apply Hlo. Qed.

Lemma log_blocks_none l : lh_n l = 0 -> log_blocks l = [].
Proof. intros E. unfold log_blocks. by rewrite E. Qed.

Lemma begin_op_ok s l d v w rf o :
  quiet s l d v w rf -> l_committing l = false -> l_outstanding l = o ->
  lh_n l + (o + 1) * MAXOPBLOCKS <= LOGSIZE ->
  exists s', begin_op s = Ok (tt, s') /\ quiet s' (ctl (o + 1) false l) d v w rf.
Proof.
  destruct s as [l' c]. intros [Hl Hr] Hc Ho Hn. cbn in Hl, Hr. subst l' o.
  exists (LState (with_outstanding (l_outstanding l + 1) l) c). split.
  - unfold begin_op. mcomp. cbn [l_log]. by rewrite Hc, (proj2 (Z.ltb_ge _ _)) by lia.
  - split; [|done]. unfold with_outstanding, ctl. cbn. by rewrite Hc.
Qed.

Lemma idle_in_txn s s' l d w o :
  idle s l d w -> quiet s' (ctl o false l) d d w (fun _ => 0) -> 1 <= o -> in_txn s' (ctl o false l) d d w.
Proof.
  intros Hi Hq Ho. split; [|apply log_ok_ctl, Hi|done|done|done].
  exists (fun _ => 0). split; [done|]. intros b. by rewrite (log_blocks_none (ctl o false l)) by apply Hi.
Qed.

(** The disk writes of [end_op] when the operation is the only one. *)
Definition end_writes l v : list (Z * block) := if 0 <? lh_n l then commit_writes l v else [].

(** After [commit], the disk and the contents agree. *)
Lemma commit_agree l d v b :
  log_ok l -> (forall b, b ∉ log_blocks l -> v b = d b) ->
  apply_writes v (commit_writes l v) b = apply_writes d (commit_writes l v) b.
Proof.
  intros Hlo Hcl. destruct (decide (b ∈ log_blocks l)) as [Hb|Hb]; [|by apply apply_writes_agree, Hcl].
  unfold commit_writes. rewrite !app_assoc. rewrite !(apply_writes_app _ _ [_]). cbn [apply_writes foldl fst snd].
  rewrite !upd_ne by (intros ->; by apply (lo_home l Hlo _ Hb), start_in_log).
  fold (apply_writes v (log_data_writes l v (upto (lh_n l)) ++ [(l_start l, commit_head l v)] ++ home_writes l v)).
  rewrite !(apply_writes_app _ _ (home_writes l v)). by rewrite !home_writes_value.
Qed.

Lemma commit_settled l d v :
  log_ok l -> settled l d d -> (forall b, b ∉ log_blocks l -> v b = d b) ->
  settled l v (apply_writes d (commit_writes l v)).
Proof.
  intros Hlo Hset Hcl. assert (v (l_start l) = d (l_start l)) as Hv.
  { apply Hcl. intros Hb. by apply (lo_home l Hlo _ Hb), start_in_log. }
  pose proof (commit_point l d v Hlo Hset Hv) as Hc. unfold commit_writes. rewrite app_assoc, apply_writes_app.
  set (D := apply_writes d _) in *. assert (D (l_start l) = commit_head l v) as <-.
  { unfold D. rewrite apply_writes_app. apply upd_eq. }
  destruct (committed_done l d v D (lh_block l) Hlo Hc) as (H1 & H2 & H3). split_and!; [done|done|].
  intros b Hb. rewrite H3 by done. unfold updated. case_bool_decide; [done|]. symmetry. by apply Hcl.
Qed.

Lemma end_op_ok s l d v w :
  in_txn s l d v w -> l_outstanding l = 1 -> settled l d d -> l_size l <= LOGSIZE ->
  exists s', end_op s = Ok (tt, s') /\
    idle s' (ctl 0 false (with_n 0 l)) (apply_writes d (end_writes l v)) (w ++ end_writes l v).
Proof.
  destruct s as [l' c]. intros [(rf & [Hl Hr] & Hpin) Hlo Hcl _ Hcm] Ho Hset Hsz. cbn in Hl, Hr. subst l'.
  unfold end_op. mcomp. mcomp. cbn [l_log l_cache]. unfold with_outstanding at 1. cbn [l_committing].
  rewrite Hcm. mcomp. cbn [l_outstanding with_outstanding]. rewrite Ho. change (1 - 1 =? 0) with true. cbv iota. mcomp.
  cbn [l_log l_cache]. set (l1 := with_committing true _). change l1 with (ctl 0 true l).
  pose proof (log_ok_ctl 0 true l Hlo) as Hlo1. unfold end_writes.
  destruct (Z.ltb_spec 0 (lh_n l)) as [Hn|Hn].
  - destruct (commit_ok (LState (ctl 0 true l) c) (ctl 0 true l) d v w rf) as (s1 & H1 & Hl1 & Hr1); try done.
    { intros b Hb. apply Hcl. intros Hin. by apply (lo_home l Hlo b). }
    mstep H1. eexists. split; [reflexivity|]. split; try done.
    + split; [cbn; by rewrite Hl1|]. cbn [l_cache]. eapply c_rep_equiv; [exact Hr1|]. split_and!; try done.
      intros b. cbn. symmetry. exact (commit_agree l d v b Hlo Hcl).
    + apply log_ok_ctl, log_ok_empty, Hlo.
    + destruct (commit_settled l d v Hlo Hset Hcl) as (S1 & S2 & _). split_and!; done.
  - assert (lh_n l = 0) as Hn0 by (pose proof (lo_n l Hlo); lia). rewrite app_nil_r.
    pose proof (log_blocks_none l Hn0) as Hnil. assert (commit (LState (ctl 0 true l) c) = Ok (tt, LState (ctl 0 true l) c)) as Hc.
    { unfold commit. mcomp. cbn [l_log ctl lh_n]. by rewrite (proj2 (Z.ltb_ge _ _)) by lia. }
    mstep Hc. eexists. split; [reflexivity|].
    split; try done; [|by apply log_ok_ctl, log_ok_empty].
    split; [cbn; unfold with_committing, ctl, with_n; cbn; by rewrite Hn0|]. cbn [l_cache].
    eapply c_rep_equiv; [exact Hr|]. split_and!; try done; cbn; intros b.
    + symmetry. apply Hcl. rewrite Hnil. apply not_elem_of_nil.
    + by rewrite Hpin, Hnil.
Qed.

(** [begin_op], the writes of an operation with their [log_write]s, [end_op]. *)
Definition txn ws : M lstate unit := begin_op ;; mfor ws tx_write ;; end_op.

(** At most [MAXOPBLOCKS] blocks, none of them in the log. *)
Definition op_writes l ws : Prop :=
  fs_writes l ws /\ Z.of_nat (size (list_to_set ws.*1 : gset Z)) <= MAXOPBLOCKS.

Lemma op_writes_fit l ws : op_writes l ws -> MAXOPBLOCKS + 1 < l_size l -> fits l ws [].
Proof.
  intros [_ Hn] Hsz pre p post ->. rewrite length_logged_all.
  assert (size (list_to_set pre.*1 : gset Z) <= size (list_to_set (pre ++ p :: post).*1 : gset Z))%nat; [|lia].
  apply subseteq_size. intros c. rewrite fmap_app, !elem_of_list_to_set, elem_of_app. tauto.
Qed.

(** The log as it is when [end_op] starts. *)
Definition txn_log ws l : log := log_entries ws (ctl 1 false l).

Lemma txn_ok s l d w ws :
  idle s l d w -> op_writes l ws -> MAXOPBLOCKS + 1 < l_size l ->
  exists s', txn ws s = Ok (tt, s') /\ log_ok (txn_log ws l) /\
    (forall b, b ∉ log_blocks (txn_log ws l) -> apply_writes d ws b = d b) /\
    idle s' (ctl 0 false (with_n 0 (txn_log ws l))) (apply_writes d (end_writes (txn_log ws l) (apply_writes d ws)))
      (w ++ end_writes (txn_log ws l) (apply_writes d ws)).
Proof.
  intros Hi Hws Hsz. pose proof (id_n _ _ _ _ Hi) as Hn.
  destruct (begin_op_ok s l d d w (fun _ => 0) 0) as (s1 & H1 & Hq1); [apply Hi..|unfold LOGSIZE, MAXOPBLOCKS; lia|].
  pose proof (idle_in_txn s s1 l d w 1 Hi Hq1 ltac:(lia)) as Htx.
  destruct (tx_writes_ok ws s1 (ctl 1 false l) d d w Htx) as (s2 & H2 & Htx2 & Hbs).
  { apply Hws. } { apply Hi. }
  { rewrite (log_blocks_none (ctl 1 false l)) by done. by apply op_writes_fit. }
  destruct (log_entries_params ws (ctl 1 false l)) as (P1 & P2 & P3 & P4 & P5).
  destruct (end_op_ok s2 (txn_log ws l) d (apply_writes d ws) w Htx2) as (s3 & H3 & Hi3).
  { exact P4. } { unfold settled, in_log, txn_log. rewrite P2, P3. apply Hi. } { unfold txn_log. rewrite P3. apply Hi. }
  exists s3. split_and!; [|apply Htx2|apply Htx2|exact Hi3]. unfold txn. mstep H1. by mstep H2.
Qed.

Lemma end_writes_value l d v b :
  log_ok l -> settled l d d -> (forall c, c ∉ log_blocks l -> v c = d c) -> ~ in_log l b ->
  apply_writes d (end_writes l v) b = v b.
Proof.
  intros Hlo Hset Hcl Hb. unfold end_writes. destruct (Z.ltb_spec 0 (lh_n l)) as [Hn|Hn].
  - by apply commit_settled.
  - symmetry. apply Hcl. rewrite log_blocks_none; [apply not_elem_of_nil|]. pose proof (lo_n l Hlo). lia.
Qed.

(** Booting from a disk with an empty log gives an idle log. *)
Lemma boot_idle sb l d :
  sb_is sb l -> log_ok l -> lh_n l = 0 -> settled l d d -> l_size l <= LOGSIZE ->
  exists s l' d' w', reboot sb d = Ok (tt, s) /\ idle s l' d' w' /\ l_start l' = l_start l /\ l_size l' = l_size l /\
    l_dev l' = l_dev l /\ forall b, ~ in_log l b -> d' b = d b.
Proof.
  intros Hsb Hlo Hn Hset Hsz.
  destruct (reboot_ok sb l d Hsb Hlo) as (s & l' & H1 & H2 & H3 & H4 & H5 & H6 & H7 & Hq).
  { split; [rewrite Hn; apply Hset|lia]. }
  assert (recover_writes l d = [(l_start l, put_head (d (l_start l)) 0 (lh_block l))]) as E.
  { unfold recover_writes. by rewrite Hn. }
  rewrite (log_blocks_none l Hn), E in Hq. destruct Hset as (S1 & S2 & _).
  destruct (settled_head l d d (lh_block l) Hlo S1 (fun _ _ => eq_refl)) as (T1 & T2 & T3).
  exists s, l', (upd d (l_start l) (put_head (d (l_start l)) 0 (lh_block l))), [(l_start l, put_head (d (l_start l)) 0 (lh_block l))].
  split; [done|]. split_and!; [|done..|exact T3]. split; try done.
  - by apply (log_ok_none l).
  - unfold settled. rewrite H3. split_and!; [exact T1|exact T2|done].
  - by rewrite H4.
Qed.

Lemma txn_log_params ws l :
  l_start (txn_log ws l) = l_start l /\ l_size (txn_log ws l) = l_size l /\ l_dev (txn_log ws l) = l_dev l.
Proof. destruct (log_entries_params ws (ctl 1 false l)) as (P1 & P2 & P3 & _). done. Qed.

Lemma settled_params l l' x D :
  l_start l' = l_start l -> l_size l' = l_size l -> settled l x D -> settled l' x D.
Proof. intros E1 E2. unfold settled, in_log. by rewrite E1, E2. Qed.

(** C3. A file system operation ([begin_op], writes of at most [MAXOPBLOCKS] blocks
    outside the log passed to [log_write], [end_op]) that starts with the log idle
    returns with the log idle again, and the disk has exactly its writes outside the
    log: the last of several writes to one block counts. *)
Theorem transaction_commits s l d w ws :
  idle s l d w -> op_writes l ws -> MAXOPBLOCKS + 1 < l_size l ->
  exists s' l' d' w', txn ws s = Ok (tt, s') /\ idle s' l' d' w' /\ l_start l' = l_start l /\ l_size l' = l_size l /\
    forall b, ~ in_log l b -> d' b = apply_writes d ws b.
Proof.
  intros Hi Hws Hsz. destruct (txn_ok s l d w ws Hi Hws Hsz) as (s' & Hrun & Hlo & Hcl & Hi').
  destruct (txn_log_params ws l) as (P1 & P2 & _). eexists s', _, _, _. split; [done|]. split; [exact Hi'|]. split_and!; [exact P1|exact P2|].
  intros b Hb. apply end_writes_value; [done|eapply settled_params; [done|done|apply Hi]|done|].
  unfold in_log. by rewrite P1, P2.
Qed.

(** C2. The operation is atomic: whatever prefix of its disk writes is on the disk at
    a crash, and however often recovery itself is cut short by further crashes,
    the next complete recovery returns, and the file system's blocks are all as
    before the operation or all as after it. *)
Theorem transaction_crash_atomic sb s l d w ws :
  idle s l d w -> op_writes l ws -> MAXOPBLOCKS + 1 < l_size l -> sb_is sb l ->
  exists s' W, txn ws s = Ok (tt, s') /\ c_writes (l_cache s') = w ++ W /\
    forall P D, P `prefix_of` W -> crashes sb (apply_writes d P) D ->
    exists s'', reboot sb D = Ok (tt, s'') /\
      ((forall b, ~ in_log l b -> c_disk (l_cache s'') b = d b) \/
       (forall b, ~ in_log l b -> c_disk (l_cache s'') b = apply_writes d ws b)).
Proof.
  intros Hi Hws Hsz Hsb. destruct (txn_ok s l d w ws Hi Hws Hsz) as (s' & Hrun & Hlo & Hcl & Hi').
  destruct (txn_log_params ws l) as (P1 & P2 & P3). set (L := txn_log ws l) in *.
  exists s', (end_writes L (apply_writes d ws)). split; [done|].
  split; [by apply (quiet_writes _ _ _ _ _ _ (id_quiet _ _ _ _ Hi'))|]. intros P D HP HD.
  assert (settled L d d) as Hset by (eapply settled_params; [exact P1|exact P2|apply Hi]).
  assert (sb_is sb L) as HsbL by (unfold sb_is; by rewrite P1, P2, P3).
  assert (crashed L d (apply_writes d ws) D) as Hcr.
  { eapply crashes_crashed; [exact HsbL|done|exact HD|]. unfold end_writes in HP. destruct (0 <? lh_n L).
    - apply crash_in_commit; [done|done| |done]. apply Hcl. intros Hb. by apply (lo_home L Hlo _ Hb), start_in_log.
    - apply prefix_nil_inv in HP as ->. by left. }
  destruct (crashed_recovers sb L _ _ D HsbL Hlo Hcr) as (s2 & l2 & rf & Hr2 & _ & [_ Hq2] & Hfin & _).
  exists s2. split; [done|]. destruct (c_obs_ok _ _ Hq2) as [Hd _].
  assert (forall b, ~ in_log l b -> ~ in_log L b) as Hlog by (intros b; unfold in_log; by rewrite P1, P2).
  destruct Hfin as [(_ & _ & Hf)|(_ & _ & Hf)]; [left|right]; intros b Hb; rewrite Hd; cbn [a_disk]; rewrite Hf by auto.
  - done.
  - unfold updated. case_bool_decide; [done|]. symmetry. by apply Hcl.
Qed.

(** C14. With the log that [mkfs] makes ([nlog = LOGSIZE]), [begin_op] admits three
    operations at once, which may write [3 * MAXOPBLOCKS] blocks; but [log_write]
    panics on the last of them, since it keeps one block less than [log.size]. *)
Theorem log_reservation_panics s l d w ws :
  idle s l d w -> l_size l = LOGSIZE -> fs_writes l ws -> NoDup ws.*1 -> Z.of_nat (length ws) = 3 * MAXOPBLOCKS ->
  (begin_op ;; begin_op ;; begin_op ;; mfor ws tx_write) s = Panic "too big a transaction".
Proof.
  intros Hi Hsz Hws Hnd Hlen. unfold MAXOPBLOCKS in Hlen.
  destruct (begin_op_ok s l d d w (fun _ => 0) 0) as (s1 & H1 & Hq1); [apply Hi..|rewrite (id_n _ _ _ _ Hi); done|].
  destruct (begin_op_ok s1 _ d d w (fun _ => 0) 1 Hq1) as (s2 & H2 & Hq2); [done|done|cbn; rewrite (id_n _ _ _ _ Hi); done|].
  destruct (begin_op_ok s2 _ d d w (fun _ => 0) 2 Hq2) as (s3 & H3 & Hq3); [done|done|cbn; rewrite (id_n _ _ _ _ Hi); done|].
  mstep H1. mstep H2. mstep H3. pose proof (idle_in_txn s s3 l d w 3 Hi Hq3 ltac:(lia)) as Htx.
  destruct (exists_last (l := ws)) as (ws' & [b x] & E); [by destruct ws|]. subst ws.
  rewrite fmap_app, NoDup_app in Hnd. destruct Hnd as (Hnd & _ & _). rewrite length_app in Hlen. cbn in Hlen.
  destruct (tx_writes_ok ws' s3 (ctl 3 false l) d d w Htx) as (s4 & H4 & Htx4 & Hbs).
  { intros p Hp. apply Hws. rewrite elem_of_app. by left. } { apply Hi. }
  { rewrite (log_blocks_none (ctl 3 false l)) by apply Hi. intros pre p post ->. rewrite length_logged_all. cbn [l_size ctl].
    rewrite Hsz, <- length_logged_all. pose proof (length_logged_all_le pre []) as Hle.
    rewrite length_app in Hlen. cbn in Hlen, Hle. unfold LOGSIZE, MAXOPBLOCKS. lia. }
  rewrite (mfor_app_ok _ _ _ _ _ H4). cbn [mfor]. destruct (log_entries_params ws' (ctl 3 false l)) as (_ & _ & P3 & _).
  apply bind_panic, (tx_write_full _ _ _ _ _ _ Htx4).
  rewrite <- (in_txn_length _ _ _ _ _ Htx4), Hbs, (log_blocks_none (ctl 3 false l)), length_logged_all by apply Hi.
  rewrite size_list_to_set, length_fmap, P3 by done. cbn [l_size ctl]. rewrite Hsz. unfold LOGSIZE, MAXOPBLOCKS. lia.
Qed.

(** [recover_from_log] calls [install_trans], which unpins each block that it
    installs although nothing pinned it: after a boot that recovers a transaction,
    the reference count of each of its blocks is [2^32 - 1]. *)
Theorem recovery_wraps_refcnt sb l d :
  sb_is sb l -> log_ok l -> head_is (d (l_start l)) l ->
  exists s a, reboot sb d = Ok (tt, s) /\ c_rep (l_cache s) a /\ forall b, b ∈ log_blocks l -> a_refs a b = 2 ^ 32 - 1.
Proof.
  intros Hsb Hlo Hh. destruct (reboot_ok sb l d Hsb Hlo Hh) as (s & l' & Hr & _ & _ & _ & _ & _ & _ & [_ Hq]).
  eexists s, _. split; [done|]. split; [exact Hq|]. intros b Hb. cbn.
  by rewrite unref_all_spec, bool_decide_eq_true_2 by (done || apply Hlo).
Qed.
End Txn.

(** ** On the buffer cache *)

(** A log of [LOGSIZE] blocks at block 2, as [mkfs] makes it. *)
Definition demo_sb : logsb := Logsb 2 30.
Definition demo_log (bs : list Z) : log :=
  Log 2 30 0 false ROOTDEV (Z.of_nat (length bs)) (fun i => nth (Z.to_nat i) bs 0).

(** The header of the log, then zeros. *)
Definition demo_disk (bs : list Z) (b : Z) : block :=
  if b =? 2 then put_head (replicate 1024 0) (Z.of_nat (length bs)) (fun i => nth (Z.to_nat i) bs 0)
  else replicate 1024 0.

Lemma demo_settled : settled (demo_log []) (demo_disk []) (demo_disk []).
Proof. split_and!; [reflexivity|vm_compute; reflexivity|done]. Qed.

Lemma demo_log_ok : log_ok (C := bio_cache 1) (demo_log []).
Proof.
  split; [reflexivity|cbn; unfold NBUF, MAXOPBLOCKS; lia|cbn; lia| |cbn; lia| |apply NoDup_nil_2];
    intros b Hb; by apply elem_of_nil in Hb.
Qed.

Lemma demo_log_one_ok : log_ok (C := bio_cache 1) (demo_log [40]).
Proof.
  split; [reflexivity|cbn; unfold NBUF, MAXOPBLOCKS; lia|cbn; lia| |cbn; lia| |apply NoDup_singleton];
    intros b Hb; apply list_elem_of_singleton in Hb; cbn in Hb; subst b; [intros [H1 H2]; vm_compute in H2; discriminate|done].
Qed.

(** The machine after a boot with an empty log. *)
Lemma demo_idle : exists (s : lstate (S := bcache)) l d w,
  idle (C := bio_cache 1) s l d w /\ l_start l = 2 /\ l_size l = 30 /\ sb_is (C := bio_cache 1) demo_sb l.
Proof.
  destruct (boot_idle (COk := bio_cache_ok 1) demo_sb (demo_log []) (demo_disk [])) as (s & l & d & w & _ & Hi & H1 & H2 & H3 & _).
  { done. } { exact demo_log_ok. } { done. } { exact demo_settled. } { done. }
  exists s, l, d, w. split_and!; [done..|]. unfold sb_is. rewrite H1, H2, H3. done.
Qed.

(** Two writes of one operation, and thirty of three. *)
Definition demo_writes : list (Z * block) := [(40, replicate 1024 7); (41, replicate 1024 8); (40, replicate 1024 9)].
Definition demo_many : list (Z * block) := (fun b => (40 + b, replicate 1024 7)) <$> upto 30.

Lemma demo_op_writes l : l_start l = 2 -> l_size l = 30 -> op_writes l demo_writes.
Proof.
  intros H1 H2. split; [|by vm_compute]. intros p Hp. unfold in_log. rewrite H1, H2.
  repeat (apply elem_of_cons in Hp as [->|Hp]; [cbn; lia|]). by apply elem_of_nil in Hp.
Qed.

Lemma transaction_commits_witness :
  exists (s : lstate (S := bcache)) l d w, idle (C := bio_cache 1) s l d w /\ op_writes l demo_writes /\
  exists s' l' d' w', txn (C := bio_cache 1) demo_writes s = Ok (tt, s') /\ idle (C := bio_cache 1) s' l' d' w' /\
    l_start l' = l_start l /\ l_size l' = l_size l /\
    forall b, ~ in_log l b -> d' b = apply_writes d demo_writes b.
Proof.
  destruct demo_idle as (s & l & d & w & Hi & H1 & H2 & Hsb). pose proof (demo_op_writes l H1 H2) as Hop.
  exists s, l, d, w. split; [done|]. split; [done|].
  apply (transaction_commits (COk := bio_cache_ok 1) s l d w demo_writes Hi Hop). rewrite H2. reflexivity.
Defined.

Lemma transaction_crash_atomic_witness :
  exists (s : lstate (S := bcache)) l d w, idle (C := bio_cache 1) s l d w /\ op_writes l demo_writes /\
  exists s' W, txn (C := bio_cache 1) demo_writes s = Ok (tt, s') /\ writes (l_cache s') = w ++ W /\
    forall P D, P `prefix_of` W -> crashes (C := bio_cache 1) demo_sb (apply_writes d P) D ->
    exists s'', reboot (C := bio_cache 1) demo_sb D = Ok (tt, s'') /\
      ((forall b, ~ in_log l b -> disk (l_cache s'') b = d b) \/
       (forall b, ~ in_log l b -> disk (l_cache s'') b = apply_writes d demo_writes b)).
Proof.
  destruct demo_idle as (s & l & d & w & Hi & H1 & H2 & Hsb). pose proof (demo_op_writes l H1 H2) as Hop.
  exists s, l, d, w. split; [done|]. split; [done|].
  apply (transaction_crash_atomic (COk := bio_cache_ok 1) demo_sb s l d w demo_writes Hi Hop); [rewrite H2; reflexivity|done].
Defined.

Lemma log_reservation_panics_witness :
  exists (s : lstate (S := bcache)) l d w, idle (C := bio_cache 1) s l d w /\
    (begin_op ;; begin_op ;; begin_op ;; mfor demo_many (tx_write (C := bio_cache 1))) s =
      Panic "too big a transaction".
Proof.
  destruct demo_idle as (s & l & d & w & Hi & H1 & H2 & Hsb). exists s, l, d, w. split; [done|].
  apply (log_reservation_panics (COk := bio_cache_ok 1) s l d w demo_many Hi H2); [|apply (bool_decide_eq_true_1 _); vm_compute; reflexivity|reflexivity].
  intros p Hp. apply list_elem_of_fmap in Hp as (b & -> & Hb). apply elem_of_upto in Hb. unfold in_log. rewrite H1, H2.
  cbn. lia.
Defined.

Lemma recovery_wraps_refcnt_witness :
  exists (s : lstate (S := bcache)) a, reboot (C := bio_cache 1) demo_sb (demo_disk [40]) = Ok (tt, s) /\
    bio_rep ROOTDEV 1 (l_cache s) a /\ forall b, b ∈ log_blocks (demo_log [40]) -> a_refs a b = 2 ^ 32 - 1.
Proof.
  apply (recovery_wraps_refcnt (COk := bio_cache_ok 1) demo_sb (demo_log [40])); [done|exact demo_log_one_ok|].
  split; [by vm_compute|]. cbn. intros i Hi. replace i with 0 by lia. by vm_compute.
Defined.

(** ** A recovered block in the buffer cache *)

Section Recovered.
Context (me : Z).
Implicit Types (s : bcache) (order : list Z).

(** [bread] of a block whose reference count is 2^32 - 1: the count of the locked buffer
    is 0. *)
Lemma wrapped_bread s a b : bio_rep ROOTDEV me s a -> a_held a = ∅ -> a_refs a b = 2 ^ 32 - 1 -> a_view a b = a_disk a b ->
  exists order i s1, bread me ROOTDEV b s = Ok (i, s1) /\ 0 <= i < NBUF /\ bc_inv ROOTDEV s1 order /\ cached ROOTDEV s1 b = Some i /\
    b_lock (bufs s1 i) = Sleeplock true me /\ b_refcnt (bufs s1 i) = 0 /\ b_blockno (bufs s1 i) = b /\ b_data (bufs s1 i) = disk s1 b /\
    forall j, 0 <= j < NBUF -> j <> i -> sl_locked (b_lock (bufs s1 j)) = false.
Proof.
  intros Hrep Hh Hr Hv. pose proof Hrep as [[order Hinv] Hd Hw Hview Hrefs Hheld Hpid]. rewrite Hrefs in Hr. rewrite Hd, Hview in Hv. unfold refs in Hr. unfold view in Hv.
  destruct (cached ROOTDEV s b) as [i|] eqn:Ec; [|done]. destruct (proj1 (cached_some _ _ _ Hinv b i) Ec) as (Hi & Edev & Eb).
  assert (forall j, 0 <= j < NBUF -> sl_locked (b_lock (bufs s j)) = false) as Hul.
  { intros j Hj. destruct (sl_locked _) eqn:E; [|done]. pose proof (proj2 (Hheld j (b_blockno (bufs s j))) (conj Hj (conj E eq_refl))) as H. by rewrite Hh, lookup_empty in H. }
  set (x1 := with_lock (Sleeplock true me) (with_refcnt (u32 (b_refcnt (bufs s i) + 1)) (bufs s i))).
  set (x := with_valid true (with_data (disk s b) x1)).
  assert (exists s1, bread me ROOTDEV b s = Ok (i, s1) /\ bufs s1 i = x /\ (forall j, j <> i -> bufs s1 j = bufs s j) /\ disk s1 = disk s) as (s1 & Hb & E1 & Eo & Ed).
  { unfold bread, bget. rewrite bind_assoc. erewrite bind_ok; [|rewrite (bget_ref_run _ s order b Hinv); unfold bget_on; rewrite Ec; reflexivity].
    unfold acquiresleep. rewrite bind_assoc, bind_assoc. mcomp. cbn [bufs set_buf]. rewrite upd_eq. cbn [b_lock with_refcnt]. rewrite (Hul i Hi). mcomp. mcomp. mcomp. cbn [bufs set_buf]. rewrite !upd_eq. cbn [b_valid with_lock with_refcnt].
    destruct (b_valid (bufs s i)) eqn:Ev; cbn [negb]; eexists; (split; [reflexivity|]); cbn [bufs set_buf disk]; rewrite ?upd_eq; (split; [|split; [intros j Hj; by rewrite ?upd_ne|done]]).
    - unfold x, x1. destruct (bufs s i). cbn in *. by subst.
    - cbn. unfold x, x1. rewrite ?upd_eq. cbn. by rewrite Eb. }
  assert (b_refcnt x = 0) as Ez by (cbn; by rewrite Hr).
  exists order, i, s1. split_and!; try done; rewrite ?E1, ?Ed; try done; try lia.
  - apply (change_inv ROOTDEV s order i s1); rewrite ?E1, ?Ed; try done. rewrite Ez. lia.
  - rewrite (change_cached ROOTDEV s i s1); rewrite ?E1; done.
  - intros j Hj Hne. rewrite Eo by done. by apply Hul.
Qed.

(** The misses that [bs] are, up to the one that gets the buffer [i]. *)
Definition misses (bs : list Z) : M bcache unit := mfor bs (fun b => let! _ := bget_ref ROOTDEV b in ret tt).

Definition unused s (i : Z) : bool := b_refcnt (bufs s i) =? 0.

Lemma find_split (f : Z -> bool) (l1 l2 : list Z) i : f i = true -> length (List.filter f l1) = O -> List.find f (l1 ++ i :: l2) = Some i.
Proof. intros Hi. induction l1 as [|x l1 IH]; cbn; [by rewrite Hi|]. by destruct (f x). Qed.

Lemma find_some (f : Z -> bool) (l1 l2 : list Z) n : length (List.filter f l1) = S n -> exists v, List.find f (l1 ++ l2) = Some v /\ v ∈ l1 /\ f v = true.
Proof. induction l1 as [|x l1 IH]; cbn; [done|]. destruct (f x) eqn:E; [intros _; exists x; split_and!; [done|by left|done]|]. intros (v & H1 & H2 & H3)%IH. exists v. split_and!; [done|by right|done]. Qed.

Lemma filter_less (f g : Z -> bool) (l : list Z) v n : NoDup l -> v ∈ l -> f v = true -> g v = false -> (forall x, x <> v -> g x = f x) ->
  length (List.filter f l) = S n -> length (List.filter g l) = n.
Proof.
  intros Hd Hv Ef Eg He. revert n. induction l as [|x l IH]; intros n; [by apply elem_of_nil in Hv|]. apply NoDup_cons in Hd as [Hx Hd]. cbn. destruct (Z.eq_dec x v) as [->|Hne].
  - rewrite Ef, Eg. cbn. intros [= <-]. f_equal. apply filter_ext_in. intros y Hy%list_elem_of_In. apply He. congruence.
  - apply elem_of_cons in Hv as [->|Hv]; [done|]. rewrite (He x Hne). destruct (f x); cbn; [|by apply IH]. destruct n as [|n]; intros [= E].
    + exfalso. apply nil_length_inv in E. assert (v ∈ List.filter f l) as H by (apply list_elem_of_In, filter_In; split; [by apply list_elem_of_In|done]). rewrite E in H. by apply elem_of_nil in H.
    + f_equal. by apply IH.
Qed.

(** Each miss takes the last unused buffer; when none is left behind [i], it takes [i]. *)
Lemma misses_reach n : forall s order l1 l2 i bs, bc_inv ROOTDEV s order -> rev order = l1 ++ i :: l2 -> unused s i = true ->
  (forall j, 0 <= j < NBUF -> j <> i -> sl_locked (b_lock (bufs s j)) = false) -> length (List.filter (unused s) l1) = n ->
  NoDup bs -> (forall c, c ∈ bs -> cached ROOTDEV s c = None) -> (n < length bs)%nat ->
  exists pre c post s2, bs = pre ++ c :: post /\ misses pre s = Ok (tt, s2) /\ bget_ref ROOTDEV c s2 = Ok (i, set_buf i (recycle ROOTDEV c (bufs s2 i)) s2) /\
    bufs s2 i = bufs s i /\ writes s2 = writes s.
Proof.
  induction n as [|n IH]; intros s order l1 l2 i [|c bs] Hinv Ho Hz Hul Hn Hnd Hc Hlt; cbn in Hlt; [lia| |lia|].
  - exists [], c, bs, s. split_and!; try done. rewrite (bget_ref_run _ s order c Hinv). unfold bget_on. rewrite (Hc c) by (by left). fold (unused s). by rewrite Ho, find_split.
  - destruct (find_some (unused s) l1 (i :: l2) n Hn) as (v & Hf & Hv & Ez). apply NoDup_cons in Hnd as [Hcb Hnd].
    assert (NoDup (l1 ++ i :: l2)) as Hdo. { rewrite <- Ho. rewrite <- (Permutation_rev order). pose proof (order_nodup _ _ _ Hinv) as H. by apply NoDup_cons in H as [_ H]. }
    assert (v <> i) as Hne. { intros ->. apply NoDup_app in Hdo as (_ & H & _). apply (H i Hv). by left. }
    assert (0 <= v < NBUF) as Hvr. { apply (order_ids _ _ _ Hinv). rewrite (Permutation_rev order), Ho. apply elem_of_app. by left. }
    set (s1 := set_buf v (recycle ROOTDEV c (bufs s v)) s). assert (bget_ref ROOTDEV c s = Ok (v, s1)) as Hg.
    { rewrite (bget_ref_run _ s order c Hinv). unfold bget_on. rewrite (Hc c) by (by left). fold (unused s). by rewrite Ho, Hf. }
    apply Z.eqb_eq in Ez as Ez'. pose proof (Hul v Hvr Hne) as Hvu. pose proof (Hc c ltac:(by left)) as Hcn.
    destruct (IH s1 order l1 l2 i bs) as (pre & c' & post & s2 & -> & H1 & H2 & H3 & H4); try done.
    + by apply recycle_inv.
    + unfold unused. rewrite (recycle_ne ROOTDEV s v c) by done. exact Hz.
    + intros j Hj Hji. destruct (Z.eq_dec j v) as [->|Hjv]; [|rewrite (recycle_ne ROOTDEV s v c) by done; by apply Hul]. unfold s1. rewrite recycle_i. exact Hvu.
    + apply (filter_less (unused s) _ l1 v n); try done; [by apply NoDup_app in Hdo as (? & _)| |].
      * unfold unused, s1. by rewrite recycle_i.
      * intros x Hx. unfold unused, s1. by rewrite recycle_ne.
    + intros c' Hc'. destruct (cached ROOTDEV s1 c') as [j|] eqn:Ej; [|done]. apply (recycle_cached ROOTDEV s order v c Hinv Hvr Hcn) in Ej as [[_ ->]|[_ Ej]]; [done|]. rewrite (Hc c') in Ej by (by right). done.
    + lia.
    + exists (c :: pre), c', post, s2. split_and!; [done| |done| |done].
      * unfold misses. cbn [mfor]. rewrite bind_assoc. mstep Hg. exact H1.
      * rewrite H3. unfold s1. by rewrite recycle_ne.
Qed.

(** C15. After a boot that recovers a transaction, a process that reads one of its blocks has a
    locked buffer with the reference count 0.  Whatever blocks are missed next, at the latest
    the miss number [NBUF] recycles the buffer for another block [c] while it is locked, and
    when the process writes its buffer, its block is written over [c]. *)
Theorem recovered_buffer_overwrites (sb : logsb) (l : log) (d : Z -> block) (b : Z)
    (Hsb : sb_is (C := bio_cache me) sb l) (Hlo : log_ok (C := bio_cache me) l) (Hh : head_is (d (l_start l)) l) (Hb : b ∈ log_blocks l) :
  exists (s : lstate (S := bcache)) i s1, reboot (C := bio_cache me) sb d = Ok (tt, s) /\ bread me ROOTDEV b (l_cache s) = Ok (i, s1) /\
    b_blockno (bufs s1 i) = b /\ b_lock (bufs s1 i) = Sleeplock true me /\ b_refcnt (bufs s1 i) = 0 /\ b_data (bufs s1 i) = disk s1 b /\
    forall bs, NoDup bs -> NBUF <= Z.of_nat (length bs) -> (forall c, c ∈ bs -> cached ROOTDEV s1 c = None) ->
    exists pre c post s2 s3 s4, bs = pre ++ c :: post /\ c <> b /\ misses pre s1 = Ok (tt, s2) /\ bget_ref ROOTDEV c s2 = Ok (i, s3) /\
      bwrite me i s3 = Ok (tt, s4) /\ writes s4 = writes s1 ++ [(c, disk s1 b)].
Proof.
  destruct (reboot_ok (COk := bio_cache_ok me) sb l d Hsb Hlo Hh) as (s & l' & Hr & _ & _ & _ & _ & _ & _ & [_ Hq]).
  destruct (wrapped_bread _ _ b Hq) as (order & i & s1 & H1 & Hi & Hinv & Ec & El & Ez & Eb & Ed & Hul); [done| |done|].
  { cbn [a_refs]. rewrite unref_all_spec by exact (lo_nodup _ Hlo). rewrite bool_decide_eq_true_2 by exact Hb. reflexivity. }
  exists s, i, s1. split; [exact Hr|]. split; [exact H1|]. clear Hr Hq H1. split; [exact Eb|]. split; [exact El|]. split; [exact Ez|]. split; [exact Ed|]. intros bs Hnd Hlen Hc.
  assert (i ∈ rev order) as (l1 & l2 & Eo)%list_elem_of_split by (rewrite <- (Permutation_rev order); by apply (order_ids _ _ _ Hinv)).
  destruct (misses_reach (length (List.filter (unused s1) l1)) s1 order l1 l2 i bs) as (pre & c & post & s2 & -> & M1 & M2 & M3 & M4); try done.
  { unfold unused. by rewrite Ez. }
  { pose proof (filter_length_le (unused s1) l1). pose proof (order_length _ _ _ Hinv) as Ho. rewrite <- length_rev, Eo, length_app in Ho. cbn in Ho. lia. }
  eexists pre, c, post, s2, _, _. split_and!; [done| |done|exact M2| |].
  - intros ->. rewrite (Hc b) in Ec; [done|]. apply elem_of_app. right. by left.
  - unfold bwrite, holdingsleep. mcomp. cbn [bufs set_buf]. rewrite upd_eq. cbn [b_lock recycle]. rewrite M3, El. cbn [sl_locked sl_pid andb]. rewrite Z.eqb_refl. cbn [negb]. mcomp. unfold disk_rw. reflexivity.
  - cbn [writes bufs set_buf]. rewrite upd_eq. cbn [b_blockno b_data recycle]. by rewrite M4, ?M3, Ed.
Qed.
End Recovered.

(** The blocks that are missed after the read of the block 40. *)
Definition demo_missed : list Z := (fun k => 41 + Z.of_nat k) <$> seq 0 30.

Definition demo_uncached : bool :=
  match reboot (C := bio_cache 1) demo_sb (demo_disk [40]) with
  | Ok (_, s) =>
      match bread 1 ROOTDEV 40 (l_cache s) with
      | Ok (_, s1) => forallb (fun c => match cached ROOTDEV s1 c with None => true | _ => false end) demo_missed
      | _ => false
      end
  | _ => false
  end.

Lemma demo_uncached_true : demo_uncached = true.
Proof. vm_compute. reflexivity. Qed.

Lemma demo_head_one : head_is (demo_disk [40] (l_start (demo_log [40]))) (demo_log [40]).
Proof. split; [by vm_compute|]. cbn. intros i Hi. replace i with 0 by lia. by vm_compute. Qed.

Lemma demo_missed_uncached (s : lstate (S := bcache)) i s1 : reboot (C := bio_cache 1) demo_sb (demo_disk [40]) = Ok (tt, s) -> bread 1 ROOTDEV 40 (l_cache s) = Ok (i, s1) ->
  forall c, c ∈ demo_missed -> cached ROOTDEV s1 c = None.
Proof.
  intros H1 H2 c Hc. pose proof demo_uncached_true as H. unfold demo_uncached in H. rewrite H1, H2 in H. rewrite forallb_forall in H. apply list_elem_of_In, H in Hc. by destruct (cached _ _ _).
Qed.

Lemma recovered_buffer_overwrites_witness : exists (s : lstate (S := bcache)) i s1 pre c s2 s3 s4,
  reboot (C := bio_cache 1) demo_sb (demo_disk [40]) = Ok (tt, s) /\ bread 1 ROOTDEV 40 (l_cache s) = Ok (i, s1) /\ misses pre s1 = Ok (tt, s2) /\
  bget_ref ROOTDEV c s2 = Ok (i, s3) /\ bwrite 1 i s3 = Ok (tt, s4) /\ writes s4 = writes s1 ++ [(c, disk s1 40)] /\ c <> 40.
Proof.
  destruct (recovered_buffer_overwrites 1 demo_sb (demo_log [40]) (demo_disk [40]) 40 ltac:(done) demo_log_one_ok demo_head_one ltac:(by left)) as (s & i & s1 & H1 & H2 & _ & _ & _ & _ & H).
  destruct (H demo_missed) as (pre & c & post & s2 & s3 & s4 & _ & M1 & M2 & M3 & M4 & M5); [apply (bool_decide_eq_true_1 _); vm_compute; reflexivity|vm_compute; discriminate|exact (demo_missed_uncached s i s1 H1 H2)|].
  exists s, i, s1, pre, c, s2, s3, s4. exact (conj H1 (conj H2 (conj M2 (conj M3 (conj M4 (conj M5 M1)))))).
Defined.
