(* ===== verification/UserIO.v ===== *)
(** * What the kernel relies on when it copies to and from user memory

    The parts of the kernel above [kernel/vm.c] see the memory of the running
    process through [copyin], [copyout] and [copyinstr] only.  [UserMem] is that
    interface, with the contents of the kernel's buffer as a list of bytes, and
    [UserMemOk] its laws, over the memory that the user sees ([None]: the user
    cannot reach the address).  [phys_user_ok] proves them of the code, for a
    kernel buffer outside the allocator's pages. *)

From S2P Require Import Prelude Bytes Riscv KString Kalloc Vm VmSpec VmUser UserMem.

(** User memory after a write of [bs] at [va]. *)
Definition u_write (um : Z -> option Z) (va : Z) (bs : list Z) : Z -> option Z :=
  fun x => if (va <=? x) && (x <? va + Z.of_nat (length bs)) then bs !! Z.to_nat (x - va) else um x.

Lemma u_write_nil um va x : u_write um va [] x = um x.
Proof.
  unfold u_write. destruct (_ && _) eqn:E; [|done]. apply andb_true_iff in E as [E1%Z.leb_le E2%Z.ltb_lt]. cbn in E2. lia.
Qed.

(** The buffer [old] with [bs] stored at its start. *)
Definition filled (bs old : list Z) : list Z := bs ++ drop (length bs) old.

(** [src] and [dst] of the C functions are the contents of the buffer: [u_copyin] and
    [u_copyinstr] take its contents before and return its contents after. *)
Class UserMem (S : Type) := {
  u_copyout : Z -> list Z -> M S Z;
  u_copyin : list Z -> Z -> M S (Z * list Z);
  u_copyinstr : list Z -> Z -> M S (Z * list Z);
  u_rep : S -> (Z -> option Z) -> Prop;
}.

Class UserMemOk (S : Type) {U : UserMem S} := {
  u_rep_ext s um um' : u_rep s um -> (forall x, um' x = um x) -> u_rep s um';
  u_copyout_ok s um va bs : u_rep s um -> 0 <= va < 2 ^ 64 -> bytes bs -> Z.of_nat (length bs) <= PGSIZE ->
    exists rv n s', u_copyout va bs s = Ok (rv, s') /\
      u_rep s' (u_write um va (take n bs)) /\ (forall i, 0 <= i < Z.of_nat n -> is_Some (um (va + i))) /\
      (rv = 0 /\ n = length bs \/ rv = -1 /\ (n < length bs)%nat /\ um (va + Z.of_nat n) = None);
  u_copyin_ok s um old va : u_rep s um -> 0 <= va < 2 ^ 64 -> bytes old -> Z.of_nat (length old) <= PGSIZE ->
    exists rv bs s', u_copyin old va s = Ok ((rv, filled bs old), s') /\ u_rep s' um /\ bytes bs /\
      (forall i b, bs !! i = Some b -> um (va + Z.of_nat i) = Some b) /\
      (rv = 0 /\ length bs = length old \/
       rv = -1 /\ (length bs < length old)%nat /\ um (va + Z.of_nat (length bs)) = None);
  u_copyinstr_ok s um old va : u_rep s um -> 0 <= va < 2 ^ 64 -> bytes old -> Z.of_nat (length old) <= PGSIZE ->
    exists rv bs s', u_rep s' um /\ (forall i b, bs !! i = Some b -> um (va + Z.of_nat i) = Some b /\ 0 < b < 256) /\
      (rv = 0 /\ u_copyinstr old va s = Ok ((rv, filled (bs ++ [0]) old), s') /\
         (length bs < length old)%nat /\ um (va + Z.of_nat (length bs)) = Some 0 \/
       rv = -1 /\ u_copyinstr old va s = Ok ((rv, filled bs old), s') /\ (length bs <= length old)%nat /\
         (length bs = length old \/ um (va + Z.of_nat (length bs)) = None));
}.

(** ** Buffers in memory *)

Fixpoint store_bytes (m : mem) (a : Z) (bs : list Z) : mem :=
  match bs with
  | [] => m
  | b :: bs' => store_bytes (store8 m a b) (a + 1) bs'
  end.

Definition load_bytes (m : mem) (a : Z) (n : nat) : list Z := (fun i => load8 m (a + Z.of_nat i)) <$> seq 0 n.

Lemma store_bytes_outside bs : forall m a, same_outside a (Z.of_nat (length bs)) m (store_bytes m a bs).
Proof.
  induction bs as [|b bs IH]; intros m a x Hx; cbn [store_bytes length] in *; [done|].
  rewrite IH by lia. apply store8_ne. lia.
Qed.

Lemma load_store_bytes bs : forall m a i b,
  bytes bs -> bs !! i = Some b -> load8 (store_bytes m a bs) (a + Z.of_nat i) = b.
Proof.
  induction bs as [|c bs IH]; intros m a i b Hb Hi; [done|]. apply Forall_cons in Hb as [Hc Hb]. cbn [store_bytes].
  destruct i as [|i]; cbn in Hi.
  - injection Hi as ->. unfold load8. rewrite Z.add_0_r, (store_bytes_outside bs _ (a + 1)), store8_eq by lia.
    rewrite !u8_small; [done|lia|]. rewrite u8_small; lia.
  - replace (a + Z.of_nat (S i)) with (a + 1 + Z.of_nat i) by lia. by apply IH.
Qed.

Lemma length_load_bytes m a n : length (load_bytes m a n) = n.
Proof. unfold load_bytes. by rewrite length_fmap, length_seq. Qed.

Lemma load_bytes_lookup m a n i b : load_bytes m a n !! i = Some b -> (i < n)%nat /\ b = load8 m (a + Z.of_nat i).
Proof.
  unfold load_bytes. rewrite list_lookup_fmap. intros (k & Hk & ->)%fmap_Some.
  apply lookup_seq in Hk as [-> Hk]. done.
Qed.

Lemma load_bytes_bytes m a n : bytes (load_bytes m a n).
Proof. apply Forall_forall. intros b Hb. apply list_elem_of_fmap in Hb as (i & -> & _). apply load8_bound. Qed.

(** ** The code as an instance *)

(** The machine with the page table of the running process. *)
Record uspace := Uspace { us_phys : phys; us_pagetable : Z }.

Definition us_run {A} (m : M phys A) : M uspace A := zoom us_phys (fun p s => Uspace p (us_pagetable s)) m.

(** The kernel's side of a transfer is at [kbuf]. *)
Definition us_fill (kbuf : Z) (bs : list Z) : M uspace unit :=
  us_run (modify (fun p => set_pmem (store_bytes (pmem p) kbuf bs) p)).
Definition us_buffer (kbuf : Z) (n : nat) : M uspace (list Z) := gets (fun s => load_bytes (pmem (us_phys s)) kbuf n).

Definition us_copyout (kbuf va : Z) (bs : list Z) : M uspace Z :=
  let! r := gets us_pagetable in
  us_fill kbuf bs ;;
  us_run (copyout r va kbuf (Z.of_nat (length bs))).

Definition us_copyin (kbuf : Z) (old : list Z) (va : Z) : M uspace (Z * list Z) :=
  let! r := gets us_pagetable in
  us_fill kbuf old ;;
  let! rv := us_run (copyin r kbuf va (Z.of_nat (length old))) in
  let! bs := us_buffer kbuf (length old) in
  ret (rv, bs).

Definition us_copyinstr (kbuf : Z) (old : list Z) (va : Z) : M uspace (Z * list Z) :=
  let! r := gets us_pagetable in
  us_fill kbuf old ;;
  let! rv := us_run (copyinstr r kbuf va (Z.of_nat (length old))) in
  let! bs := us_buffer kbuf (length old) in
  ret (rv, bs).

Section Phys.
Context {L : Linker} {LOk : LinkerOk L}.

(** A page for the buffer, below the allocator's pages. *)
Variable kbuf : Z.
Hypothesis Hkbuf : kbuf + PGSIZE <= kend.

(** The address space of a process, and what the user sees of it. *)
Definition us_rep (s : uspace) (um : Z -> option Z) : Prop :=
  exists l d t U, uvm_inv (us_phys s) l (us_pagetable s) d t U /\ user_only (pmem (us_phys s)) t U /\
    forall va, um va = load8 (pmem (us_phys s)) <$> uaddr (pmem (us_phys s)) t va.

Lemma kbuf_dst s l r d t U n : uvm_inv s l r d t U -> n <= PGSIZE -> kernel_dst r d t U kbuf n.
Proof.
  intros Hinv Hn. pose proof (uvm_all_ok _ _ _ _ _ _ Hinv) as Hok. rewrite Forall_forall in Hok.
  split; intros i p Hi Hp Hin; (assert (page_ok p) as Hb; [apply Hok; rewrite !elem_of_app; auto|]);
    destruct Hb as [_ Hb]; unfold in_page in Hin; klia.
Qed.

(** Memory that changes only in the user's pages and below the allocator's. *)
Lemma uvm_inv_keep s m l r d t U :
  uvm_inv s l r d t U -> (forall x, kend <= x -> (forall pa, pa ∈ upages U -> ~ in_page pa x) -> m x = pmem s x) ->
  uvm_inv (set_pmem m s) l r d t U /\ same_pages (pt_pages r d t) (pmem s) m.
Proof.
  intros Hinv Hm. pose proof (uvm_all_ok _ _ _ _ _ _ Hinv) as Hok. rewrite Forall_forall in Hok.
  pose proof (ui_nodup _ _ _ _ _ _ Hinv) as Hnd.
  assert (forall p x, p ∈ pt_pages r d t \/ p ∈ l -> in_page p x -> m x = pmem s x) as Hsame.
  { intros p x Hp Hx. assert (page_ok p) as Hpok by (apply Hok; rewrite !elem_of_app; tauto).
    apply Hm; [destruct Hpok; unfold in_page in Hx; lia|]. intros pa Hpa Hx'.
    apply (page_ok_disjoint pa p x); [apply Hok; rewrite !elem_of_app; auto|done| |done|done].
    intros ->. apply NoDup_app in Hnd as (_ & Hd1 & Hnd). apply NoDup_app in Hnd as (_ & Hd2 & _).
    destruct Hp as [Hp|Hp]; [|by apply (Hd2 p)]. apply (Hd1 p Hp). rewrite elem_of_app. by left. }
  assert (same_pages (pt_pages r d t) (pmem s) m) as Hpt by (intros p x Hp; apply Hsame; by left).
  split; [|done]. destruct Hinv as [[Hk Hrep Hdisj] Hmap Hpok _]. split; [split|..].
  - apply (kmem_inv_same s); [done| |done]. intros p x Hp. apply Hsame. by right.
  - by eapply pt_rep_same.
  - done.
  - intros n pa Hn. cbn [pmem set_pmem]. rewrite (vpte_ext (pmem s) m t t n) by (by eapply lookup_pte_same). by apply Hmap.
  - done.
  - done.
Qed.

(** Such memory as a change of the process's memory. *)
Lemma us_rep_keep s m um' l d t U :
  uvm_inv (us_phys s) l (us_pagetable s) d t U -> user_only (pmem (us_phys s)) t U ->
  (forall x, kend <= x -> (forall pa, pa ∈ upages U -> ~ in_page pa x) -> m x = pmem (us_phys s) x) ->
  (forall va, um' va = load8 m <$> uaddr (pmem (us_phys s)) t va) ->
  us_rep (Uspace (set_pmem m (us_phys s)) (us_pagetable s)) um'.
Proof.
  intros Hinv Honly Hm Hum'. destruct (uvm_inv_keep _ m _ _ _ _ _ Hinv Hm) as [Hinv' Hpt].
  assert (forall n, uframe m t n = uframe (pmem (us_phys s)) t n) as Hu by (intros n; by eapply same_table_uframe).
  exists l, d, t, U. cbn [us_phys us_pagetable pmem set_pmem]. split_and!; [done|intros n pa; rewrite Hu; apply Honly|].
  intros va. rewrite Hum'. unfold uaddr. by rewrite Hu.
Qed.

(** Filling the buffer changes nothing that the user sees. *)
Lemma us_fill_ok s um bs l d t U :
  uvm_inv (us_phys s) l (us_pagetable s) d t U -> user_only (pmem (us_phys s)) t U -> Z.of_nat (length bs) <= PGSIZE ->
  (forall va, um va = load8 (pmem (us_phys s)) <$> uaddr (pmem (us_phys s)) t va) ->
  exists s1, us_fill kbuf bs s = Ok (tt, s1) /\ us_pagetable s1 = us_pagetable s /\
    pmem (us_phys s1) = store_bytes (pmem (us_phys s)) kbuf bs /\
    uvm_inv (us_phys s1) l (us_pagetable s) d t U /\ user_only (pmem (us_phys s1)) t U /\
    (forall va, uaddr (pmem (us_phys s1)) t va = uaddr (pmem (us_phys s)) t va) /\
    (forall va, um va = load8 (pmem (us_phys s1)) <$> uaddr (pmem (us_phys s)) t va).
Proof.
  intros Hinv Honly Hn Hum. set (m := store_bytes (pmem (us_phys s)) kbuf bs).
  exists (Uspace (set_pmem m (us_phys s)) (us_pagetable s)). split; [done|]. cbn [us_phys us_pagetable pmem set_pmem].
  assert (forall x, kend <= x -> m x = pmem (us_phys s) x) as Hm by (intros x Hx; apply store_bytes_outside; lia).
  destruct (uvm_inv_keep _ m _ _ _ _ _ Hinv) as [Hinv' Hpt]; [intros; by apply Hm|].
  assert (forall n, uframe m t n = uframe (pmem (us_phys s)) t n) as Hu by (intros n; by eapply same_table_uframe).
  split_and!; try done.
  - intros n pa. rewrite Hu. apply Honly.
  - intros va. unfold uaddr. by rewrite Hu.
  - intros va. rewrite Hum. destruct (uaddr _ t va) as [a|] eqn:Ha; [|done]. cbn. f_equal. apply load8_same. symmetry. apply Hm.
    eapply uaddr_some in Ha as (_ & pa & Hf & _ & Hin). eapply uframe_page in Hf as ([_ Hb] & _); [|done..]. unfold in_page in Hin. lia.
Qed.

Lemma us_run_ok {A} (m : M phys A) s x p :
  m (us_phys s) = Ok (x, p) -> us_run m s = Ok (x, Uspace p (us_pagetable s)).
Proof. intros H. unfold us_run, zoom. by rewrite H. Qed.

(** Only bytes of the user's pages. *)
Lemma user_written_keep s l r d t U m' va src n :
  uvm_inv s l r d t U -> user_only (pmem s) t U -> user_written s t (pmem s) m' va src n ->
  forall x, (forall pa, pa ∈ upages U -> ~ in_page pa x) -> m' x = pmem s x.
Proof.
  intros Hinv Honly Hw x Hx. apply (uw_frame _ _ _ _ _ _ _ Hw). intros i Hi (_ & pa & Hf & _ & Hin)%uaddr_some.
  eapply uframe_page in Hf as (_ & _ & Hu & _); [|done..]. by apply (Hx pa).
Qed.

Lemma us_copyout_ok s um va bs :
  us_rep s um -> 0 <= va < 2 ^ 64 -> bytes bs -> Z.of_nat (length bs) <= PGSIZE ->
  exists rv n s', us_copyout kbuf va bs s = Ok (rv, s') /\
    us_rep s' (u_write um va (take n bs)) /\ (forall i, 0 <= i < Z.of_nat n -> is_Some (um (va + i))) /\
    (rv = 0 /\ n = length bs \/ rv = -1 /\ (n < length bs)%nat /\ um (va + Z.of_nat n) = None).
Proof.
  intros (l & d & t & U & Hinv & Honly & Hum) Hva Hb Hlen.
  destruct (us_fill_ok s um bs l d t U Hinv Honly Hlen Hum) as (s1 & H1 & Ept & Em & Hinv1 & Honly1 & Hua & Hum1).
  destruct (copyout_ok (us_phys s1) l (us_pagetable s) d t U va kbuf (Z.of_nat (length bs)) Hinv1 Honly1 Hva)
    as (rv & n & p2 & H2 & Ep2 & Hw & Hres); [klia|apply (kbuf_dst _ _ _ _ _ _ _ Hinv1 Hlen)|].
  exists rv, (Z.to_nat n), (Uspace p2 (us_pagetable s1)).
  assert (0 <= n <= Z.of_nat (length bs)) as Hn by lia. split_and!.
  - unfold us_copyout. mcomp. mstep H1. by apply us_run_ok.
  - rewrite Ep2. eapply us_rep_keep; [rewrite Ept; exact Hinv1|exact Honly1| |].
    { intros x _. by eapply user_written_keep. }
    intros x. rewrite Hua. unfold u_write. rewrite length_take_le by lia. rewrite Z2Nat.id by lia.
    destruct (Z.leb_spec va x), (Z.ltb_spec x (va + n)); cbn [andb].
    1:{ destruct (uw_bytes _ _ _ _ _ _ _ Hw (x - va)) as (a & Ha & Hla); [lia|].
      replace (va + (x - va)) with x in Ha by lia. rewrite Hua in Ha. rewrite Ha. cbn. rewrite Hla, Em.
      rewrite lookup_take_lt by lia. destruct (lookup_lt_is_Some_2 bs (Z.to_nat (x - va))) as [b Hbx]; [lia|]. rewrite Hbx.
      f_equal. rewrite <- (load_store_bytes bs (pmem (us_phys s)) kbuf (Z.to_nat (x - va)) b Hb Hbx). f_equal. lia. }
    all: rewrite Hum1; destruct (uaddr _ t x) as [a|] eqn:Ha; [|done]; cbn; f_equal; apply load8_same; symmetry;
      apply (uw_frame _ _ _ _ _ _ _ Hw); intros i Hi Hai; rewrite <- Hua in Ha;
      pose proof (uaddr_inj _ _ _ _ _ _ Hinv1 Honly1 _ _ _ Ha Hai); lia.
  - intros i Hi. rewrite Hum1. destruct (uw_bytes _ _ _ _ _ _ _ Hw i) as (a & Ha & _); [lia|].
    rewrite <- Hua, Ha. by eexists.
  - destruct Hres as [[-> ->]|(-> & Hlt & Hnone)]; [left; split; [done|lia]|right]. split_and!; [done|lia|].
    rewrite Z2Nat.id by lia. by rewrite Hum1, <- Hua, Hnone.
Qed.

(** Only bytes of the buffer. *)
Lemma kernel_written_keep s t m m' va n :
  n <= PGSIZE -> kernel_written s t m m' va kbuf n -> forall x, kend <= x -> m' x = m x.
Proof. intros Hn Hw x Hx. apply (kw_frame _ _ _ _ _ _ _ Hw). lia. Qed.

(** The buffer after a transfer of [n] bytes into it. *)
Lemma buffer_filled s t m old m' va n :
  0 <= n <= Z.of_nat (length old) -> bytes old ->
  kernel_written s t (store_bytes m kbuf old) m' va kbuf n ->
  load_bytes m' kbuf (length old) = filled (load_bytes m' kbuf (Z.to_nat n)) old.
Proof.
  intros Hn Hb Hw. apply list_eq. intros i. unfold filled. rewrite length_load_bytes.
  assert (forall k, (i < k)%nat -> load_bytes m' kbuf k !! i = Some (load8 m' (kbuf + Z.of_nat i))) as Hl.
  { intros k Hk. unfold load_bytes. by rewrite list_lookup_fmap, lookup_seq_lt. }
  destruct (decide (i < length old)%nat) as [Hi|Hi].
  - rewrite Hl by done. destruct (decide (i < Z.to_nat n)%nat) as [Hin|Hin].
    + rewrite lookup_app_l by (by rewrite length_load_bytes). by rewrite Hl.
    + rewrite lookup_app_r by (rewrite length_load_bytes; lia). rewrite length_load_bytes, lookup_drop.
      replace (Z.to_nat n + (i - Z.to_nat n))%nat with i by lia.
      destruct (lookup_lt_is_Some_2 old i Hi) as [b Hbi]. rewrite Hbi. f_equal.
      rewrite <- (load_store_bytes old m kbuf i b Hb Hbi). apply load8_same.
      apply (kw_frame _ _ _ _ _ _ _ Hw). lia.
  - rewrite !lookup_ge_None_2; [done| |]; rewrite ?length_app, ?length_load_bytes, ?length_drop; lia.
Qed.

Lemma us_copyin_ok s um old va :
  us_rep s um -> 0 <= va < 2 ^ 64 -> bytes old -> Z.of_nat (length old) <= PGSIZE ->
  exists rv bs s', us_copyin kbuf old va s = Ok ((rv, filled bs old), s') /\ us_rep s' um /\ bytes bs /\
    (forall i b, bs !! i = Some b -> um (va + Z.of_nat i) = Some b) /\
    (rv = 0 /\ length bs = length old \/
     rv = -1 /\ (length bs < length old)%nat /\ um (va + Z.of_nat (length bs)) = None).
Proof.
  intros (l & d & t & U & Hinv & Honly & Hum) Hva Hb Hlen.
  destruct (us_fill_ok s um old l d t U Hinv Honly Hlen Hum) as (s1 & H1 & Ept & Em & Hinv1 & Honly1 & Hua & Hum1).
  destruct (copyin_ok (us_phys s1) l (us_pagetable s) d t U kbuf va (Z.of_nat (length old)) Hinv1 Honly1 Hva)
    as (rv & n & p2 & H2 & Ep2 & Hw & Hres); [klia|apply (kbuf_dst _ _ _ _ _ _ _ Hinv1 Hlen)|].
  assert (0 <= n <= Z.of_nat (length old)) as Hn by lia.
  exists rv, (load_bytes (pmem p2) kbuf (Z.to_nat n)), (Uspace p2 (us_pagetable s1)). rewrite length_load_bytes. split_and!.
  - unfold us_copyin. mcomp. mstep H1. mstep (us_run_ok _ s1 _ _ H2). mcomp. cbn [us_phys].
    rewrite <- (buffer_filled (us_phys s1) t (pmem (us_phys s)) old (pmem p2) va n Hn Hb) by (by rewrite <- Em). done.
  - rewrite Ep2. eapply us_rep_keep; [rewrite Ept; exact Hinv1|exact Honly1| |].
    { intros x Hx _. eapply kernel_written_keep; [|exact Hw|done]. lia. }
    intros x. rewrite Hua, Hum1. destruct (uaddr _ t x) as [a|] eqn:Ha; [|done]. cbn. f_equal. apply load8_same. symmetry.
    eapply kernel_written_keep; [|exact Hw|]; [lia|].
    eapply uaddr_some in Ha as (_ & pa & Hf & _ & Hin). eapply uframe_page in Hf as ([_ Hbd] & _); [|done..]. unfold in_page in Hin. lia.
  - apply load_bytes_bytes.
  - intros i b (Hi & ->)%load_bytes_lookup. destruct (kw_bytes _ _ _ _ _ _ _ Hw (Z.of_nat i)) as (a & Ha & ->); [lia|].
    by rewrite Hum1, <- Hua, Ha.
  - destruct Hres as [[-> ->]|(-> & Hlt & Hnone)]; [left; split; [done|lia]|right]. split_and!; [done|lia|].
    rewrite Z2Nat.id by lia. by rewrite Hum1, <- Hua, Hnone.
Qed.

Lemma load_bytes_S m a n : load_bytes m a (S n) = load_bytes m a n ++ [load8 m (a + Z.of_nat n)].
Proof. unfold load_bytes. by rewrite seq_S, fmap_app. Qed.

Lemma us_copyinstr_ok s um old va :
  us_rep s um -> 0 <= va < 2 ^ 64 -> bytes old -> Z.of_nat (length old) <= PGSIZE ->
  exists rv bs s', us_rep s' um /\ (forall i b, bs !! i = Some b -> um (va + Z.of_nat i) = Some b /\ 0 < b < 256) /\
    (rv = 0 /\ us_copyinstr kbuf old va s = Ok ((rv, filled (bs ++ [0]) old), s') /\
       (length bs < length old)%nat /\ um (va + Z.of_nat (length bs)) = Some 0 \/
     rv = -1 /\ us_copyinstr kbuf old va s = Ok ((rv, filled bs old), s') /\ (length bs <= length old)%nat /\
       (length bs = length old \/ um (va + Z.of_nat (length bs)) = None)).
Proof.
  intros (l & d & t & U & Hinv & Honly & Hum) Hva Hb Hlen.
  destruct (us_fill_ok s um old l d t U Hinv Honly Hlen Hum) as (s1 & H1 & Ept & Em & Hinv1 & Honly1 & Hua & Hum1).
  destruct (copyinstr_ok (us_phys s1) l (us_pagetable s) d t U kbuf va (Z.of_nat (length old)) Hinv1 Honly1 Hva)
    as (rv & n & g & p2 & H2 & Ep2 & (Hw & Hnz & Hnul) & Hres); [klia|apply (kbuf_dst _ _ _ _ _ _ _ Hinv1 Hlen)|].
  assert (0 <= n /\ n + Z.b2z g <= Z.of_nat (length old)) as [Hn0 Hn].
  { destruct Hres as [(_ & -> & Hn)|(_ & -> & Hn & _)]; cbn [Z.b2z]; lia. }
  assert (us_copyinstr kbuf old va s = Ok ((rv, filled (load_bytes (pmem p2) kbuf (Z.to_nat (n + Z.b2z g))) old),
    Uspace p2 (us_pagetable s1))) as Hrun.
  { unfold us_copyinstr. mcomp. mstep H1. mstep (us_run_ok _ s1 _ _ H2). mcomp. cbn [us_phys].
    rewrite <- (buffer_filled (us_phys s1) t (pmem (us_phys s)) old (pmem p2) va (n + Z.b2z g)); [done| |done|by rewrite <- Em].
    destruct g; cbn [Z.b2z]; lia. }
  assert (forall i, 0 <= i < n + Z.b2z g -> um (va + i) = Some (load8 (pmem p2) (kbuf + i))) as Hbytes.
  { intros i Hi. destruct (kw_bytes _ _ _ _ _ _ _ Hw i Hi) as (a & Ha & ->). by rewrite Hum1, <- Hua, Ha. }
  exists rv, (load_bytes (pmem p2) kbuf (Z.to_nat n)), (Uspace p2 (us_pagetable s1)). rewrite length_load_bytes, Z2Nat.id by lia.
  split_and!.
  - rewrite Ep2. eapply us_rep_keep; [rewrite Ept; exact Hinv1|exact Honly1| |].
    { intros x Hx _. eapply kernel_written_keep; [|exact Hw|done]. lia. }
    intros x. rewrite Hua, Hum1. destruct (uaddr _ t x) as [a|] eqn:Ha; [|done]. cbn. f_equal. apply load8_same. symmetry.
    eapply kernel_written_keep; [|exact Hw|]; [lia|].
    eapply uaddr_some in Ha as (_ & pa & Hf & _ & Hin). eapply uframe_page in Hf as ([_ Hbd] & _); [|done..]. unfold in_page in Hin. lia.
  - intros i b (Hi & ->)%load_bytes_lookup. split; [apply Hbytes; destruct g; cbn [Z.b2z]; lia|].
    pose proof (load8_bound (pmem p2) (kbuf + Z.of_nat i)). specialize (Hnz (Z.of_nat i)). lia.
  - destruct Hres as [(-> & -> & Hlt)|(-> & -> & Hle & Hnone)]; cbn [Z.b2z] in *; [left|right].
    + split_and!; [done| |lia|].
      * rewrite Hrun. do 4 f_equal. replace (Z.to_nat (n + 1)) with (S (Z.to_nat n)) by lia.
        by rewrite load_bytes_S, Z2Nat.id, Hnul by lia.
      * rewrite Hbytes by lia. by rewrite Hnul.
    + split_and!; [done| |lia|].
      * rewrite Hrun. by rewrite Z.add_0_r.
      * destruct Hnone as [->|Hnone]; [left; lia|right]. by rewrite Hum1, <- Hua, Hnone.
Qed.
End Phys.

#[export] Instance phys_user (kbuf : Z) {L : Linker} : UserMem uspace := {
  u_copyout := us_copyout kbuf;
  u_copyin := us_copyin kbuf;
  u_copyinstr := us_copyinstr kbuf;
  u_rep := us_rep;
}.

Lemma us_rep_ext {L : Linker} s um um' : us_rep s um -> (forall x, um' x = um x) -> us_rep s um'.
Proof. intros (l & d & t & U & H1 & H2 & H3) H. exists l, d, t, U. split_and!; [done|done|]. intros va. by rewrite H. Qed.

Lemma phys_user_ok (kbuf : Z) {L : Linker} {LOk : LinkerOk L} :
  kbuf + PGSIZE <= kend -> UserMemOk uspace (U := phys_user kbuf).
Proof.
  intros Hk. split; [apply us_rep_ext|exact (us_copyout_ok kbuf Hk)|exact (us_copyin_ok kbuf Hk)|exact (us_copyinstr_ok kbuf Hk)].
Qed.

(** ** The reference instance: user memory as a partial map

    It states the laws as programs; the examples of the components above run on it. *)

Abbreviation flat := (Z -> option Z).

Fixpoint flat_out (va : Z) (bs : list Z) (um : flat) : Z * flat :=
  match bs with
  | [] => (0, um)
  | b :: bs' => if um va is Some _ then flat_out (va + 1) bs' (upd um va (Some b)) else (-1, um)
  end.

Fixpoint flat_in (old : list Z) (va : Z) (um : flat) : Z * list Z :=
  match old with
  | [] => (0, [])
  | o :: old' =>
      if um va is Some b then let '(rv, bs) := flat_in old' (va + 1) um in (rv, b :: bs) else (-1, old)
  end.

Fixpoint flat_instr (old : list Z) (va : Z) (um : flat) : Z * list Z :=
  match old with
  | [] => (-1, [])
  | o :: old' =>
      if um va is Some b then
        if b =? 0 then (0, 0 :: old')
        else let '(rv, bs) := flat_instr old' (va + 1) um in (rv, b :: bs)
      else (-1, old)
  end.

Definition flat_rep (s um : flat) : Prop := forall x, um x = s x /\ forall b, um x = Some b -> 0 <= b < 256.

#[export] Instance flat_user : UserMem flat := {
  u_copyout va bs := fun um => Ok (flat_out va bs um);
  u_copyin old va := fun um => Ok (flat_in old va um, um);
  u_copyinstr old va := fun um => Ok (flat_instr old va um, um);
  u_rep := flat_rep;
}.

Lemma flat_out_ok bs : forall va (s um : flat), flat_rep s um -> bytes bs ->
  exists rv n s', flat_out va bs s = (rv, s') /\ flat_rep s' (u_write um va (take n bs)) /\
    (forall i, 0 <= i < Z.of_nat n -> is_Some (um (va + i))) /\
    (rv = 0 /\ n = length bs \/ rv = -1 /\ (n < length bs)%nat /\ um (va + Z.of_nat n) = None).
Proof.
  induction bs as [|b bs IH]; intros va s um Hr Hb; cbn [flat_out].
  { exists 0, O, s. split_and!; [done| |lia|by left]. intros x. rewrite u_write_nil. apply Hr. }
  apply Forall_cons in Hb as [Hb Hbs]. rewrite <- (proj1 (Hr va)). destruct (um va) as [c|] eqn:Ec.
  - assert (flat_rep (upd s va (Some b)) (upd um va (Some b))) as Hr1.
    { intros x. unfold upd. destruct (x =? va); [|apply Hr]. split; [done|]. by intros ? [= <-]. }
    destruct (IH (va + 1) _ _ Hr1 Hbs) as (rv & n & s' & Hrun & Hrep & Hsome & Hres).
    exists rv, (S n), s'. split_and!; [done| | |].
    + intros x. pose proof (Hrep x) as Hx.
      assert (u_write um va (take (S n) (b :: bs)) x = u_write (upd um va (Some b)) (va + 1) (take n bs) x) as ->; [|done].
      unfold u_write. cbn [take length]. unfold upd. destruct (Z.eqb_spec x va) as [->|Hne].
      * rewrite (proj2 (Z.leb_gt (va + 1) va)), (proj2 (Z.leb_le va va)), (proj2 (Z.ltb_lt va _)) by lia.
        by rewrite Z.sub_diag.
      * destruct (Z.leb_spec (va + 1) x), (Z.leb_spec va x); try lia; cbn [andb]; [|done].
        replace (va + Z.of_nat (S (length (take n bs)))) with (va + 1 + Z.of_nat (length (take n bs))) by lia.
        destruct (_ <? _); [|done]. by replace (Z.to_nat (x - va)) with (S (Z.to_nat (x - (va + 1)))) by lia.
    + intros i Hi. destruct (Z.eq_dec i 0) as [->|]; [rewrite Z.add_0_r, Ec; eauto|].
      destruct (Hsome (i - 1)) as [y Hy]; [lia|]. replace (va + 1 + (i - 1)) with (va + i) in Hy by lia.
      unfold upd in Hy. destruct (Z.eqb_spec (va + i) va); [lia|eauto].
    + destruct Hres as [[-> ->]|(-> & Hn & Hnone)]; [by left|right]. split_and!; [done|cbn; lia|].
      unfold upd in Hnone. destruct (_ =? _); [done|]. rewrite <- Hnone. f_equal. lia.
  - exists (-1), O, s. split_and!; [done| |lia|right; split_and!; [done|cbn; lia|by rewrite Z.add_0_r]].
    intros x. rewrite u_write_nil. apply Hr.
Qed.

Lemma flat_in_ok old : forall va (s um : flat), flat_rep s um ->
  exists rv bs, flat_in old va s = (rv, filled bs old) /\ bytes bs /\
    (forall i b, bs !! i = Some b -> um (va + Z.of_nat i) = Some b) /\
    (rv = 0 /\ length bs = length old \/
     rv = -1 /\ (length bs < length old)%nat /\ um (va + Z.of_nat (length bs)) = None).
Proof.
  induction old as [|o old IH]; intros va s um Hr; cbn [flat_in].
  { exists 0, []. split_and!; [done|constructor|done|by left]. }
  rewrite <- (proj1 (Hr va)). destruct (um va) as [b|] eqn:Eb.
  - destruct (IH (va + 1) s um Hr) as (rv & bs & -> & Hb & Hl & Hres). exists rv, (b :: bs). split_and!.
    + done.
    + constructor; [by apply (Hr va)|done].
    + intros [|i] c Hi; cbn in Hi; [rewrite Z.add_0_r; congruence|]. apply Hl in Hi. rewrite <- Hi. f_equal. lia.
    + cbn [length]. destruct Hres as [[-> Hn]|(-> & Hn & Hnone)]; [left; split; [done|lia]|right].
      split_and!; [done|lia|]. rewrite <- Hnone. f_equal. lia.
  - exists (-1), []. split_and!; [done|constructor|done|right]. split_and!; [done|cbn; lia|]. by rewrite Z.add_0_r.
Qed.

Lemma flat_instr_ok old : forall va (s um : flat), flat_rep s um ->
  exists rv bs, (forall i b, bs !! i = Some b -> um (va + Z.of_nat i) = Some b /\ 0 < b < 256) /\
    (rv = 0 /\ flat_instr old va s = (rv, filled (bs ++ [0]) old) /\
       (length bs < length old)%nat /\ um (va + Z.of_nat (length bs)) = Some 0 \/
     rv = -1 /\ flat_instr old va s = (rv, filled bs old) /\ (length bs <= length old)%nat /\
       (length bs = length old \/ um (va + Z.of_nat (length bs)) = None)).
Proof.
  induction old as [|o old IH]; intros va s um Hr; cbn [flat_instr].
  { exists (-1), []. split; [done|right]. auto. }
  rewrite <- (proj1 (Hr va)). destruct (um va) as [b|] eqn:Eb.
  2:{ exists (-1), []. split; [done|right]. cbn [length]. rewrite Z.add_0_r. split_and!; [done..|lia|by right]. }
  destruct (Z.eqb_spec b 0) as [->|Hnz].
  { exists 0, []. split; [done|left]. cbn [length]. rewrite Z.add_0_r. split_and!; [done..|lia|done]. }
  destruct (IH (va + 1) s um Hr) as (rv & bs & Hl & Hres). exists rv, (b :: bs). split.
  - pose proof (proj2 (Hr va) b Eb). intros [|i] c Hi; cbn in Hi.
    + rewrite Z.add_0_r. injection Hi as <-. split; [done|lia].
    + apply Hl in Hi as [Hi Hc]. split; [|done]. rewrite <- Hi. f_equal. lia.
  - cbn [length]. replace (va + Z.of_nat (S (length bs))) with (va + 1 + Z.of_nat (length bs)) by lia.
    destruct Hres as [(-> & -> & Hn & Hz)|(-> & -> & Hn & Hz)]; [left|right]; split_and!; [done|done|lia|done|done|done|lia|].
    destruct Hz; [left; lia|by right].
Qed.

#[export] Instance flat_user_ok : UserMemOk flat.
Proof.
  split.
  - intros s um um' Hr H x. rewrite H. apply Hr.
  - intros s um va bs Hr _ Hb _. destruct (flat_out_ok bs va s um Hr Hb) as (rv & n & s' & E & H).
    exists rv, n, s'. cbn. by rewrite E.
  - intros s um old va Hr _ _ _. destruct (flat_in_ok old va s um Hr) as (rv & bs & E & H).
    exists rv, bs, s. cbn. by rewrite E.
  - intros s um old va Hr _ _ _. destruct (flat_instr_ok old va s um Hr) as (rv & bs & H1 & H2).
    exists rv, bs, s. cbn. split; [done|]. split; [done|].
    destruct H2 as [(-> & -> & H)|(-> & -> & H)]; [left|right]; done.
Qed.
