(* ===== verification/Pipe.v ===== *)
(** * Pipes, [kernel/pipe.c]

    A pipe is a ring buffer with 32-bit counters that wrap around.  [pipewrite] and
    [piperead] hold [pi->lock] except while they sleep, so the code between two
    sleeps is one atomic step; it ends with [Return] or with [Sleep] on a channel,
    and a process that is woken up goes on at the test of its loop.  [wakeup]s are
    recorded in order.

    [queue] is the contents of a pipe.  The theorems: the bytes in the memory of the
    writers go through the queue to the memory of the readers, in order; under any interleaving of readers, writers and closes no
    process sleeps for something that is already there; and one flaw of the code,
    a wakeup that a killed writer does not make.

    [pipealloc] and the rest of [pipeclose] (the page of the pipe) are in [File]. *)

From S2P Require Import Prelude Bytes Riscv UserIO.

Definition PIPESIZE : Z := 512.

Record pipe := Pipe { p_data : Z -> Z; nread : Z; nwrite : Z; readopen : bool; writeopen : bool }.

(** The channels [&pi->nread] and [&pi->nwrite]. *)
Inductive pchan := ChRead | ChWrite.

Inductive outcome := Return (r : Z) | Sleep (c : pchan) (i : Z).

#[export] Instance pchan_eq_dec : EqDecision pchan.
Proof. solve_decision. Defined.

Definition p_full (p : pipe) : bool := nwrite p =? u32 (nread p + PIPESIZE).
Definition p_empty (p : pipe) : bool := nread p =? nwrite p.

(** [pi->data[pi->nwrite++ % PIPESIZE] = ch] *)
Definition p_push (ch : Z) (p : pipe) : pipe :=
  Pipe (upd (p_data p) (nwrite p mod PIPESIZE) ch) (nread p) (u32 (nwrite p + 1)) (readopen p) (writeopen p).

(** [pi->data[pi->nread++ % PIPESIZE]] *)
Definition p_front (p : pipe) : Z := p_data p (nread p mod PIPESIZE).
Definition p_pop (p : pipe) : pipe :=
  Pipe (p_data p) (u32 (nread p + 1)) (nwrite p) (readopen p) (writeopen p).

(** The fields that [pipealloc] sets. *)
Definition p_init (p : pipe) : pipe := Pipe (p_data p) 0 0 true true.

Definition p_close_write (p : pipe) : pipe := Pipe (p_data p) (nread p) (nwrite p) (readopen p) false.
Definition p_close_read (p : pipe) : pipe := Pipe (p_data p) (nread p) (nwrite p) false (writeopen p).

Section Pipe.
Context {U : Type} {UM : UserMem U}.

(** The pipe, the memory of the process that runs, the wakeups so far. *)
Record pstate := PState { ps_pipe : pipe; ps_user : U; ps_woken : list pchan }.

Definition get_pipe : M pstate pipe := gets ps_pipe.
Definition mod_pipe (f : pipe -> pipe) : M pstate unit := modify (fun s => PState (f (ps_pipe s)) (ps_user s) (ps_woken s)).
Definition p_wakeup (c : pchan) : M pstate unit := modify (fun s => PState (ps_pipe s) (ps_user s) (ps_woken s ++ [c])).
Definition puser {A} (m : M U A) : M pstate A := zoom ps_user (fun u s => PState (ps_pipe s) u (ps_woken s)) m.

(** The loop of [pipewrite] at index [i] with [k] iterations left; [killed] is
    [pr->killed]. *)
Fixpoint pipewrite_loop (killed : bool) (addr i : Z) (k : nat) : M pstate outcome :=
  match k with
  | O => p_wakeup ChRead ;; ret (Return i)
  | S k' =>
      let! p := get_pipe in
      if p_full p then
        if negb (readopen p) || killed then ret (Return (-1))
        else p_wakeup ChRead ;; ret (Sleep ChWrite i)
      else
        let! r := puser (u_copyin [0] (u64 (addr + i))) in
        if r.1 =? -1 then p_wakeup ChRead ;; ret (Return i)
        else mod_pipe (p_push (nth 0 r.2 0)) ;; pipewrite_loop killed addr (i + 1) k'
  end.

(** [pipewrite], from its start ([i = 0]) or from the [sleep] at index [i]. *)
Definition pipewrite (killed : bool) (addr n i : Z) : M pstate outcome :=
  pipewrite_loop killed addr i (Z.to_nat (n - i)).

Fixpoint piperead_loop (addr i : Z) (k : nat) : M pstate outcome :=
  match k with
  | O => p_wakeup ChWrite ;; ret (Return i)
  | S k' =>
      let! p := get_pipe in
      if p_empty p then p_wakeup ChWrite ;; ret (Return i)
      else
        mod_pipe p_pop ;;
        let! r := puser (u_copyout (u64 (addr + i)) [p_front p]) in
        if r =? -1 then p_wakeup ChWrite ;; ret (Return i)
        else piperead_loop addr (i + 1) k'
  end.

(** [piperead], from its start or from its [sleep]. *)
Definition piperead (killed : bool) (addr n : Z) : M pstate outcome :=
  let! p := get_pipe in
  if p_empty p && writeopen p then
    if killed then ret (Return (-1)) else ret (Sleep ChRead 0)
  else piperead_loop addr 0 (Z.to_nat n).

(** [pipeclose] up to the test of the two flags. *)
Definition pipeclose_end (writable : bool) : M pstate unit :=
  if writable then mod_pipe p_close_write ;; p_wakeup ChRead
  else mod_pipe p_close_read ;; p_wakeup ChWrite.
End Pipe.
Arguments pstate : clear implicits.

(** ** The contents of a pipe *)

Record pipe_ok (p : pipe) : Prop := {
  po_read : 0 <= nread p < 2 ^ 32;
  po_write : 0 <= nwrite p < 2 ^ 32;
  po_size : u32 (nwrite p - nread p) <= PIPESIZE;
  po_bytes i : 0 <= p_data p i < 256;
}.

Definition queue (p : pipe) : list Z :=
  (fun k => p_data p ((nread p + Z.of_nat k) mod PIPESIZE)) <$> seq 0 (Z.to_nat (u32 (nwrite p - nread p))).

Ltac plia := unfold PIPESIZE, u32 in *; Z.div_mod_to_equations; lia.

Lemma length_queue p : Z.of_nat (length (queue p)) = u32 (nwrite p - nread p).
Proof. unfold queue. rewrite length_fmap, length_seq. pose proof (u32_bound (nwrite p - nread p)). lia. Qed.

Lemma queue_full p : pipe_ok p -> p_full p = true <-> Z.of_nat (length (queue p)) = PIPESIZE.
Proof. intros [Hr Hw Hs _]. unfold p_full. rewrite length_queue, Z.eqb_eq. split; intros; plia. Qed.

Lemma queue_empty p : pipe_ok p -> p_empty p = true <-> queue p = [].
Proof.
  intros [Hr Hw Hs _]. unfold p_empty. rewrite Z.eqb_eq, <- length_zero_iff_nil. pose proof (length_queue p) as Hl.
  split; intros H; [assert (u32 (nwrite p - nread p) = 0) by plia; lia|plia].
Qed.

(** The ring index of a queued byte: 2^32 is a multiple of the ring's size. *)
Lemma ring_index x k : (u32 x + k) mod PIPESIZE = (x + k) mod PIPESIZE.
Proof. plia. Qed.

Lemma push_ok p ch :
  pipe_ok p -> p_full p = false -> 0 <= ch < 256 -> pipe_ok (p_push ch p) /\ queue (p_push ch p) = queue p ++ [ch].
Proof.
  intros [Hr Hw Hs Hb] Hf Hch. unfold p_full in Hf. apply Z.eqb_neq in Hf.
  assert (u32 (nwrite p - nread p) < PIPESIZE) as Hlt by plia.
  assert (u32 (u32 (nwrite p + 1) - nread p) = u32 (nwrite p - nread p) + 1) as En by plia. split.
  - split; cbn; [done|apply u32_bound|rewrite En; lia|]. intros i. unfold upd. by destruct (i =? _).
  - unfold queue. cbn [nread nwrite p_push p_data]. rewrite En. pose proof (u32_bound (nwrite p - nread p)) as Hbd.
    replace (Z.to_nat (u32 (nwrite p - nread p) + 1)) with (S (Z.to_nat (u32 (nwrite p - nread p)))) by lia.
    rewrite seq_S, fmap_app. f_equal.
    + apply list_fmap_ext. intros i k Hk. apply lookup_seq in Hk as [-> Hk]. apply upd_ne. plia.
    + cbn [fmap list_fmap Nat.add]. f_equal. rewrite Z2Nat.id by lia. unfold upd. rewrite (proj2 (Z.eqb_eq _ _)); [done|]. plia.
Qed.

Lemma pop_ok p :
  pipe_ok p -> p_empty p = false -> pipe_ok (p_pop p) /\ queue p = p_front p :: queue (p_pop p) /\ 0 <= p_front p < 256.
Proof.
  intros [Hr Hw Hs Hb] He. unfold p_empty in He. apply Z.eqb_neq in He.
  assert (u32 (nwrite p - nread p) = u32 (nwrite p - u32 (nread p + 1)) + 1) as En by plia. split_and!.
  - split; cbn; [apply u32_bound|done|plia|done].
  - unfold queue. cbn [nread nwrite p_pop p_data]. rewrite En. pose proof (u32_bound (nwrite p - u32 (nread p + 1))) as Hbd.
    replace (Z.to_nat (u32 (nwrite p - u32 (nread p + 1)) + 1)) with (S (Z.to_nat (u32 (nwrite p - u32 (nread p + 1))))) by lia.
    cbn [seq fmap list_fmap]. f_equal; [unfold p_front; by rewrite Z.add_0_r|]. rewrite <- fmap_S_seq, <- list_fmap_compose.
    apply list_fmap_ext. intros i k _. cbn. rewrite ring_index. do 2 f_equal. lia.
  - apply Hb.
  - apply Hb.
Qed.

(** ** Steps of writers and readers *)

Section Steps.
Context {U : Type} {UM : UserMem U} {UMOk : UserMemOk U}.
Implicit Types (p : pipe) (u : U) (um : Z -> option Z) (w : list pchan).

(** The flags of a pipe. *)
Definition same_ends p p' : Prop := readopen p' = readopen p /\ writeopen p' = writeopen p.

(** How a step of [pipewrite] at index [i] of [n] ends, after it queued [bs]. *)
Definition write_end (killed : bool) um (addr n i : Z) (bs : list Z) p' w (o : outcome) w' : Prop :=
  let j := i + Z.of_nat (length bs) in
  (o = Return j /\ (j = n \/ j < n /\ um (u64 (addr + j)) = None) /\ w' = w ++ [ChRead]) \/
  (j < n /\ p_full p' = true /\
    ((readopen p' = false \/ killed = true) /\ o = Return (-1) /\ w' = w \/
     readopen p' = true /\ killed = false /\ o = Sleep ChWrite j /\ w' = w ++ [ChRead])).

(** Counters modulo 2^32. *)
Lemma count_same x : 0 <= x < 2 ^ 32 -> x = u32 (x + Z.of_nat 0).
Proof. intros. plia. Qed.
Lemma count_step x n : u32 (u32 (x + 1) + Z.of_nat n) = u32 (x + Z.of_nat (S n)).
Proof. plia. Qed.
Lemma count_diff x n : Z.of_nat n <= PIPESIZE -> u32 (u32 (x + Z.of_nat n) - x) = Z.of_nat n.
Proof. intros. plia. Qed.

Lemma pipewrite_loop_ok killed addr k : forall i p u um w,
  pipe_ok p -> u_rep u um ->
  exists o bs p' u' w', pipewrite_loop killed addr i k (PState p u w) = Ok (o, PState p' u' w') /\
    pipe_ok p' /\ queue p' = queue p ++ bs /\ same_ends p p' /\ u_rep u' um /\
    (forall j b, bs !! j = Some b -> um (u64 (addr + i + Z.of_nat j)) = Some b) /\
    nwrite p' = u32 (nwrite p + Z.of_nat (length bs)) /\ write_end killed um addr (i + Z.of_nat k) i bs p' w o w'.
Proof.
  induction k as [|k IH]; intros i p u um w Hp Hu; pose proof (count_same _ (po_write p Hp)) as Hcnt; cbn [pipewrite_loop].
  { exists (Return i), [], p, u, (w ++ [ChRead]). rewrite app_nil_r. split_and!; try done. left. cbn. rewrite Z.add_0_r. auto. }
  mcomp. cbn [ps_pipe]. destruct (p_full p) eqn:Hf.
  { destruct (negb (readopen p) || killed) eqn:Hc.
    - exists (Return (-1)), [], p, u, w. rewrite app_nil_r. split_and!; try done. right. cbn [length]. split_and!; [lia|done|left].
      split_and!; try done. destruct (readopen p), killed; auto.
    - apply orb_false_iff in Hc as [Hro Hki]. apply negb_false_iff in Hro.
      exists (Sleep ChWrite i), [], p, u, (w ++ [ChRead]). rewrite app_nil_r. split_and!; try done. right.
      cbn [length]. rewrite Z.add_0_r. split_and!; [lia|done|right]. done. }
  destruct (u_copyin_ok u um [0] (u64 (addr + i)) Hu (u64_bound _)) as (rv & bs & u1 & Hrun & Hu1 & Hb & Hbs & Hres).
  { apply Forall_singleton. lia. } { done. }
  erewrite bind_ok; [|unfold puser, zoom; cbn [ps_user]; rewrite Hrun; reflexivity]. cbn [fst snd ps_pipe ps_woken].
  destruct Hres as [[-> Hl]|(-> & Hl & Hnone)]; cbn in Hl.
  2:{ destruct bs as [|? []]; cbn in Hl; try lia. cbn [Z.eqb Z.opp].
      exists (Return i), [], p, u1, (w ++ [ChRead]). rewrite app_nil_r. split_and!; try done. left. cbn [length Z.of_nat] in *.
      rewrite Z.add_0_r in *. split_and!; [done|right; split; [lia|]|done]. exact Hnone. }
  destruct bs as [|ch [|]]; try done. change (0 =? -1) with false. cbv iota. mcomp. cbn [nth filled app ps_pipe ps_user ps_woken].
  unfold bytes in Hb. rewrite Forall_singleton in Hb. destruct (push_ok p ch Hp Hf Hb) as [Hp1 Hq1].
  destruct (IH (i + 1) (p_push ch p) u1 um w Hp1 Hu1) as (o & bs & p' & u' & w' & Hrun' & Hp' & Hq' & Hfl & Hu' & Hbs' & Hn' & Hend).
  exists o, (ch :: bs), p', u', w'. split_and!; try done.
  - by rewrite Hq', Hq1, <- app_assoc.
  - intros [|j] b Hj; cbn in Hj.
    + injection Hj as <-. specialize (Hbs O ch eq_refl). rewrite Z.add_0_r in *. done.
    + apply Hbs' in Hj. rewrite <- Hj. do 2 f_equal. lia.
  - rewrite Hn'. cbn [nwrite p_push length]. apply count_step.
  - unfold write_end in *. cbn [length].
    replace (i + Z.of_nat (S (length bs))) with (i + 1 + Z.of_nat (length bs)) by lia.
    by replace (i + Z.of_nat (S k)) with (i + 1 + Z.of_nat k) by lia.
Qed.

Lemma piperead_eq killed addr n p u w :
  piperead killed addr n (PState p u w) =
    (if p_empty p && writeopen p then if killed then ret (Return (-1)) else ret (Sleep ChRead 0)
     else piperead_loop addr 0 (Z.to_nat n)) (PState p u w).
Proof. reflexivity. Qed.

(** The memory of a reader after [piperead] stored [bs] from index [i] on. *)
Fixpoint stored um (addr i : Z) (bs : list Z) : Z -> option Z :=
  match bs with
  | [] => um
  | b :: bs' => stored (u_write um (u64 (addr + i)) [b]) addr (i + 1) bs'
  end.

(** [piperead_loop] takes [bs] from the queue and stores the first [j] of them: all,
    unless the user cannot reach the place of the last one, which is then lost. *)
Definition read_end um (addr i : Z) (k : nat) (bs : list Z) (j : nat) p' : Prop :=
  length bs = j /\ (j = k \/ queue p' = []) \/
  length bs = S j /\ stored um addr i (take j bs) (u64 (addr + i + Z.of_nat j)) = None.

Lemma piperead_loop_ok addr k : forall i p u um w,
  pipe_ok p -> u_rep u um ->
  exists j bs p' u', piperead_loop addr i k (PState p u w) = Ok (Return (i + Z.of_nat j), PState p' u' (w ++ [ChWrite])) /\
    pipe_ok p' /\ queue p = bs ++ queue p' /\ same_ends p p' /\ (length bs <= k)%nat /\
    u_rep u' (stored um addr i (take j bs)) /\ nread p' = u32 (nread p + Z.of_nat (length bs)) /\ read_end um addr i k bs j p'.
Proof.
  induction k as [|k IH]; intros i p u um w Hp Hu; pose proof (count_same _ (po_read p Hp)) as Hcnt; cbn [piperead_loop].
  { exists O, [], p, u. cbn [Z.of_nat]. rewrite Z.add_0_r. split_and!; try done. left. auto. }
  mcomp. cbn [ps_pipe]. destruct (p_empty p) eqn:He.
  { exists O, [], p, u. cbn [Z.of_nat]. rewrite Z.add_0_r. split_and!; try done; [cbn; lia|]. left. split; [done|right].
    by apply queue_empty. }
  destruct (pop_ok p Hp He) as (Hp1 & Hq1 & Hb1). mcomp. cbn [ps_pipe ps_user ps_woken].
  destruct (u_copyout_ok u um (u64 (addr + i)) [p_front p] Hu (u64_bound _)) as (rv & n & u1 & Hrun & Hu1 & _ & Hres).
  { by apply Forall_singleton. } { done. }
  erewrite bind_ok; [|unfold puser, zoom; cbn [ps_user]; rewrite Hrun; reflexivity]. cbn [ps_pipe ps_woken].
  destruct Hres as [[-> ->]|(-> & Hn & Hnone)]; cbn in Hn || idtac.
  2:{ assert (n = O) as -> by (cbn in Hn; lia). cbn [Z.of_nat] in Hnone. change (-1 =? -1) with true. cbv iota.
      exists O, [p_front p], (p_pop p), u1. cbn [Z.of_nat take stored]. rewrite Z.add_0_r in *.
      split_and!; try done; [cbn; lia| |].
      - eapply u_rep_ext; [exact Hu1|]. intros x. symmetry. apply u_write_nil.
      - right. cbn [length take stored Z.of_nat]. by rewrite Z.add_0_r. }
  change (0 =? -1) with false. cbv iota. cbn [length take] in Hu1.
  destruct (IH (i + 1) (p_pop p) u1 _ w Hp1 Hu1) as (j & bs & p' & u' & Hrun' & Hp' & Hq' & Hfl & Hle & Hu' & Hn' & Hend).
  exists (S j), (p_front p :: bs), p', u'. split_and!; try done.
  - by replace (i + Z.of_nat (S j)) with (i + 1 + Z.of_nat j) by lia.
  - by rewrite Hq1, Hq'.
  - cbn [length]. lia.
  - rewrite Hn'. cbn [nread p_pop length]. apply count_step.
  - unfold read_end in *. cbn [length take stored].
    destruct Hend as [[Hl Hk]|[Hl Hnone]]; [left; split; [lia|destruct Hk; [left; lia|by right]]|right].
    split; [lia|]. rewrite <- Hnone. f_equal. f_equal. lia.
Qed.
End Steps.

(** ** Readers and writers in any order *)

Section System.
Context {U : Type} {UM : UserMem U} {UMOk : UserMemOk U}.

(** Where a process is: outside, in [pipewrite] or [piperead], asleep in them. *)
Inductive pproc :=
| PIdle
| PWrite (addr n i : Z)
| PRead (addr n : Z)
| PWSleep (addr n i : Z)
| PRSleep (addr n : Z).

(** What the process finds in its memory at the address [a]. *)
Definition u_peek (u : U) (a : Z) : option Z :=
  match u_copyin [0] a u with
  | Ok (r, bs, _) => if r =? 0 then hd_error bs else None
  | _ => None
  end.

(** A byte that left the pipe: what the reader has in its place in memory, or lost, and
    whether the reader could reach that place. *)
Inductive moved := Got (b : option Z) | Lost (reachable : bool).

(** What a writer has in memory from index [i] up to the index that its call came to; a call
    that returns -1 does not tell, and has written as many as the counter says. *)
Definition sent (u : U) (addr i : Z) (p p' : pipe) (o : outcome) : list (option Z) :=
  let n := match o with
           | Return r => if r =? -1 then u32 (nwrite p' - nwrite p) else r - i
           | Sleep _ j => j - i
           end in
  (fun k => u_peek u (u64 (addr + i + Z.of_nat k))) <$> seq 0 (Z.to_nat n).

(** What a reader has in memory after its call, as far as the result says; the counter tells
    whether more bytes have left the pipe. *)
Definition received (u u' : U) (addr : Z) (p p' : pipe) (o : outcome) : list moved :=
  let r := match o with Return r => r | Sleep _ _ => 0 end in
  (fun k => if Z.of_nat k <? r then Got (u_peek u' (u64 (addr + Z.of_nat k)))
            else Lost (bool_decide (is_Some (u_peek u (u64 (addr + Z.of_nat k)))))) <$> seq 0 (Z.to_nat (Z.max r (u32 (nread p' - nread p)))).

(** [y_in] and [y_out]: what the writers had in memory for the bytes that they say they have
    written, and what became of the bytes that left the pipe. *)
Record psys := PSys {
  y_pipe : pipe; y_user : Z -> U; y_proc : Z -> pproc; y_in : list (option Z); y_out : list moved;
}.

(** [wakeup] of the channels [cs] on a process. *)
Definition p_wake (cs : list pchan) (pr : pproc) : pproc :=
  match pr with
  | PWSleep addr n i => if bool_decide (ChWrite ∈ cs) then PWrite addr n i else pr
  | PRSleep addr n => if bool_decide (ChRead ∈ cs) then PRead addr n else pr
  | _ => pr
  end.

(** A process that is not in a call may change its memory.  It is in [pipewrite] or [piperead]
    only while it has the end open, so an end is closed only when no process uses it. *)
Inductive pstep : psys -> psys -> Prop :=
| y_compute p us pr bi bo x u' um :
    pr x = PIdle -> u_rep u' um ->
    pstep (PSys p us pr bi bo) (PSys p (upd us x u') pr bi bo)
| y_call_write p us pr bi bo x addr n :
    pr x = PIdle -> writeopen p = true -> 0 <= n ->
    pstep (PSys p us pr bi bo) (PSys p us (upd pr x (PWrite addr n 0)) bi bo)
| y_call_read p us pr bi bo x addr n :
    pr x = PIdle -> readopen p = true -> 0 <= n ->
    pstep (PSys p us pr bi bo) (PSys p us (upd pr x (PRead addr n)) bi bo)
| y_write p us pr bi bo x addr n i o p' u' cs :
    pr x = PWrite addr n i -> pipewrite false addr n i (PState p (us x) []) = Ok (o, PState p' u' cs) ->
    pstep (PSys p us pr bi bo)
      (PSys p' (upd us x u')
        (upd (fun y => p_wake cs (pr y)) x match o with Return _ => PIdle | Sleep _ j => PWSleep addr n j end)
        (bi ++ sent (us x) addr i p p' o) bo)
| y_read p us pr bi bo x addr n o p' u' cs :
    pr x = PRead addr n -> piperead false addr n (PState p (us x) []) = Ok (o, PState p' u' cs) ->
    pstep (PSys p us pr bi bo)
      (PSys p' (upd us x u')
        (upd (fun y => p_wake cs (pr y)) x match o with Return _ => PIdle | Sleep _ _ => PRSleep addr n end)
        bi (bo ++ received (us x) u' addr p p' o))
| y_close p us pr bi bo x w p' u' cs :
    (forall y, match pr y with
               | PWrite _ _ _ | PWSleep _ _ _ => w = false
               | PRead _ _ | PRSleep _ _ => w = true
               | PIdle => True
               end) ->
    pipeclose_end w (PState p (us x) []) = Ok (tt, PState p' u' cs) ->
    pstep (PSys p us pr bi bo) (PSys p' (upd us x u') (fun y => p_wake cs (pr y)) bi bo).

(** A process sleeps only while its condition does not hold. *)
Definition sleeps_ok (p : pipe) (pr : pproc) : Prop :=
  match pr with
  | PIdle => True
  | PWrite _ _ i => writeopen p = true /\ 0 <= i
  | PRead _ _ => readopen p = true
  | PWSleep _ _ i => (writeopen p = true /\ 0 <= i) /\ p_full p = true /\ readopen p = true
  | PRSleep _ _ => readopen p = true /\ p_empty p = true /\ writeopen p = true
  end.

(** A byte that left the pipe is in the reader's memory, or was lost because the reader could
    not reach its place. *)
Definition delivered (b : Z) (m : moved) : Prop := m = Got (Some b) \/ m = Lost false.

(** The bytes of the writers are those that left the pipe, followed by the queued ones. *)
Definition fifo (bi : list (option Z)) (bo : list moved) (p : pipe) : Prop :=
  exists left, bi = Some <$> (left ++ queue p) /\ Forall2 delivered left bo.

Record psys_ok (y : psys) : Prop := {
  yo_pipe : pipe_ok (y_pipe y);
  yo_user x : exists um, u_rep (y_user y x) um;
  yo_fifo : fifo (y_in y) (y_out y) (y_pipe y);
  yo_sleep x : sleeps_ok (y_pipe y) (y_proc y x);
}.

(** [pipealloc] has just made the pipe and nobody uses it. *)
Definition psys_init (y : psys) : Prop :=
  (exists p, (forall i, 0 <= p_data p i < 256) /\ y_pipe y = p_init p) /\ (forall x, exists um, u_rep (y_user y x) um) /\
  (forall x, y_proc y x = PIdle) /\ y_in y = [] /\ y_out y = [].

Lemma psys_init_ok y : psys_init y -> psys_ok y.
Proof.
  intros ((p & Hb & Ep) & Hu & Hp & Hi & Ho). split; [rewrite Ep; split; cbn; done || lia|done| |].
  - exists []. by rewrite Hi, Ho, Ep.
  - intros x. by rewrite Hp.
Qed.

(** [u_peek] is the memory that the user sees. *)
Lemma u_peek_ok u um a : u_rep u um -> 0 <= a < 2 ^ 64 -> u_peek u a = um a.
Proof.
  intros Hu Ha. unfold u_peek. destruct (u_copyin_ok u um [0] a Hu Ha) as (rv & bs & u1 & -> & _ & _ & Hbs & Hres); [apply Forall_singleton; lia|done|].
  destruct Hres as [[-> Hl]|(-> & Hl & Hn)].
  - destruct bs as [|b [|]]; try done. specialize (Hbs O b eq_refl). rewrite Z.add_0_r in Hbs. done.
  - destruct bs; cbn in Hl; [|lia]. cbn in Hn. by rewrite Z.add_0_r in Hn.
Qed.

Lemma sent_ok u um addr i p p' o bs : u_rep u um ->
  (forall j b, bs !! j = Some b -> um (u64 (addr + i + Z.of_nat j)) = Some b) ->
  match o with
  | Return r => if r =? -1 then u32 (nwrite p' - nwrite p) else r - i
  | Sleep _ j => j - i
  end = Z.of_nat (length bs) -> sent u addr i p p' o = Some <$> bs.
Proof.
  intros Hu Hb Hn. unfold sent. rewrite Hn, Nat2Z.id. apply list_eq. intros k. rewrite !list_lookup_fmap. destruct (bs !! k) as [b|] eqn:Ek.
  - rewrite lookup_seq_lt by (by eapply lookup_lt_Some). cbn. f_equal. rewrite (u_peek_ok _ um) by (done || apply u64_bound). by apply Hb.
  - rewrite lookup_seq_ge by (by apply lookup_ge_None). done.
Qed.

(** The places of different bytes are different. *)
Lemma place_ne addr j k : j <> k -> 0 <= j < 2 ^ 64 -> 0 <= k < 2 ^ 64 -> u64 (addr + j) <> u64 (addr + k).
Proof. intros Hne Hj Hk E. unfold u64 in E. Z.div_mod_to_equations. lia. Qed.

Lemma stored_other bs : forall um addr i x, (forall k, 0 <= k < zlen bs -> x <> u64 (addr + (i + k))) -> stored um addr i bs x = um x.
Proof.
  induction bs as [|b bs IH]; intros um addr i x Hx; cbn [stored]; [done|]. rewrite IH.
  - unfold u_write. cbn [length Z.of_nat]. destruct (_ && _) eqn:E; [|done]. apply andb_true_iff in E as [E1%Z.leb_le E2%Z.ltb_lt]. exfalso. apply (Hx 0); [cbn; lia|]. rewrite Z.add_0_r. lia.
  - intros k Hk. replace (i + 1 + k) with (i + (k + 1)) by lia. apply Hx. cbn in *. lia.
Qed.

Lemma stored_at bs : forall um addr i k b, 0 <= i -> i + zlen bs < 2 ^ 64 -> bs !! k = Some b -> stored um addr i bs (u64 (addr + (i + Z.of_nat k))) = Some b.
Proof.
  induction bs as [|c bs IH]; intros um addr i k b Hi Hl Hk; cbn [stored]; [done|]. destruct k as [|k]; cbn in Hk, Hl.
  - injection Hk as ->. rewrite stored_other by (intros; apply place_ne; cbn in *; lia). cbn. rewrite Z.add_0_r. unfold u_write. cbn [length Z.of_nat]. rewrite Z.leb_refl, (proj2 (Z.ltb_lt _ _)), Z.sub_diag by lia. done.
  - replace (i + Z.of_nat (S k)) with (i + 1 + Z.of_nat k) by lia. apply IH; [lia| |done]. cbn in *. lia.
Qed.

Lemma received_ok u u' um addr p p' r (j n : nat) bs : u_rep u um -> u_rep u' (stored um addr 0 (take j bs)) -> r = Z.of_nat j ->
  u32 (nread p' - nread p) = Z.of_nat (length bs) -> zlen bs <= PIPESIZE -> read_end um addr 0 n bs j p' ->
  Forall2 delivered bs (received u u' addr p p' (Return r)).
Proof.
  intros Hu Hu' -> Hc Hl Hend. assert (j <= length bs)%nat as Hj by (destruct Hend as [[? _]|[? _]]; lia). unfold received. rewrite Hc, Z.max_r, Nat2Z.id by lia.
  apply Forall2_same_length_lookup_2; [by rewrite length_fmap, length_seq|]. intros k b m Hk Hm. rewrite list_lookup_fmap, lookup_seq_lt in Hm by (by eapply lookup_lt_Some). injection Hm as <-. cbn [Nat.add].
  destruct (Z.ltb_spec (Z.of_nat k) (Z.of_nat j)) as [Hlt|Hge].
  - left. f_equal. rewrite (u_peek_ok _ _ _ Hu') by apply u64_bound. rewrite <- (Z.add_0_l (Z.of_nat k)). apply stored_at; [lia| |by rewrite lookup_take_lt by lia]. rewrite length_take. unfold PIPESIZE in Hl. lia.
  - right. f_equal. apply bool_decide_eq_false_2. apply lookup_lt_Some in Hk. destruct Hend as [[E _]|[E Hn]]; [lia|]. assert (k = j) as -> by lia. rewrite (u_peek_ok _ _ _ Hu) by apply u64_bound.
    rewrite Z.add_0_r, stored_other in Hn; [by rewrite Hn; intros [? ?]|]. intros x Hx. rewrite length_take in Hx. unfold PIPESIZE in Hl. apply place_ne; lia.
Qed.

Lemma user_upd (us : Z -> U) x u' um :
  (forall x, exists um, u_rep (us x) um) -> u_rep u' um -> forall y, exists um, u_rep (upd us x u' y) um.
Proof. intros H Hu y. unfold upd. destruct (y =? x); eauto. Qed.

(** A writer that is asleep stays so only if the step left the pipe full, a reader
    only if it left it empty. *)
Lemma wake_ok p p' cs pr :
  sleeps_ok p pr -> same_ends p p' ->
  (p_full p = true -> readopen p = true -> writeopen p = true -> ChWrite ∈ cs \/ p_full p' = true) ->
  (p_empty p = true -> readopen p = true -> writeopen p = true -> ChRead ∈ cs \/ p_empty p' = true) ->
  sleeps_ok p' (p_wake cs pr).
Proof.
  intros Hs [E1 E2] Hw Hr. destruct pr; cbn in *; rewrite ?E1, ?E2; try done.
  - destruct Hs as (H1 & H2 & H3). case_bool_decide; cbn; rewrite ?E1, ?E2; [done|]. by destruct (Hw H2 H3 (proj1 H1)).
  - destruct Hs as (H1 & H2 & H3). case_bool_decide; cbn; rewrite ?E1, ?E2; [done|]. by destruct (Hr H2 H1 H3).
Qed.

Lemma full_stays p p' bs : pipe_ok p -> pipe_ok p' -> queue p' = queue p ++ bs -> p_full p = true -> p_full p' = true.
Proof.
  intros Hp Hp' E Hf. apply (queue_full p Hp) in Hf. apply (queue_full p' Hp'). pose proof (length_queue p') as Hl.
  pose proof (po_size p' Hp'). rewrite E, length_app in *. lia.
Qed.

Lemma queue_bound p : pipe_ok p -> zlen (queue p) <= PIPESIZE.
Proof. intros Hp. rewrite length_queue. apply Hp. Qed.

Lemma fifo_push p p' bi bo new : fifo bi bo p -> (exists bs, queue p' = queue p ++ bs /\ new = Some <$> bs) -> fifo (bi ++ new) bo p'.
Proof. intros (left & -> & Hd) (bs & E & ->). exists left. split; [|done]. by rewrite <- fmap_app, E, app_assoc. Qed.

Lemma fifo_pop p p' bi bo gone : fifo bi bo p -> (exists bs, queue p = bs ++ queue p' /\ Forall2 delivered bs gone) -> fifo bi (bo ++ gone) p'.
Proof. intros (left & -> & Hd) (bs & E & Hg). exists (left ++ bs). split; [by rewrite E, app_assoc|]. by apply Forall2_app. Qed.

(** The number of bytes that a step of [pipewrite] has written, by its result. *)
Lemma write_end_count killed um addr n i bs p p' w o w' : pipe_ok p' -> 0 <= i -> queue p' = queue p ++ bs -> nwrite p' = u32 (nwrite p + zlen bs) ->
  write_end killed um addr n i bs p' w o w' ->
  match o with
  | Return r => if r =? -1 then u32 (nwrite p' - nwrite p) else r - i
  | Sleep _ j => j - i
  end = zlen bs.
Proof.
  intros Hp Hi Hq Hn Hend. assert (zlen bs <= PIPESIZE) as Hl by (pose proof (queue_bound p' Hp) as Hb; rewrite Hq, length_app in Hb; lia).
  destruct Hend as [(-> & _)|(_ & _ & [(_ & -> & _)|(_ & _ & -> & _)])]; [|rewrite Hn; by apply count_diff|lia]. destruct (Z.eqb_spec (i + zlen bs) (-1)); lia.
Qed.

Lemma y_write_ok p us pr bi bo x addr n i o p' u' cs :
  psys_ok (PSys p us pr bi bo) -> pr x = PWrite addr n i ->
  pipewrite false addr n i (PState p (us x) []) = Ok (o, PState p' u' cs) ->
  psys_ok (PSys p' (upd us x u')
        (upd (fun y => p_wake cs (pr y)) x match o with Return _ => PIdle | Sleep _ j => PWSleep addr n j end)
        (bi ++ sent (us x) addr i p p' o) bo).
Proof.
  intros [Hp Hu Hf Hs] Hx Hrun. cbn in Hp, Hu, Hf, Hs. destruct (Hu x) as [um Hum].
  destruct (pipewrite_loop_ok false addr (Z.to_nat (n - i)) i p (us x) um [] Hp Hum)
    as (o1 & bs & p1 & u1 & cs1 & Hrun1 & Hp1 & Hq1 & Hfl & Hu1 & Hbs & Hn1 & Hend).
  unfold pipewrite in Hrun. rewrite Hrun in Hrun1. injection Hrun1 as <- <- <- <-.
  pose proof (Hs x) as Hwo. rewrite Hx in Hwo. cbn in Hwo. destruct Hwo as [Hwo Hi]. pose proof Hfl as [E1 E2]. split; cbn.
  - done.
  - by apply (user_upd _ _ _ um).
  - apply (fifo_push p); [done|]. exists bs. split; [done|]. eapply sent_ok; [done|done|]. by eapply write_end_count.
  - intros y. unfold upd. destruct (Z.eqb_spec y x) as [->|Hne].
    + destruct Hend as [(-> & _)|(_ & Hful & [(_ & -> & _)|(Hro & _ & -> & _)])]; cbn; [done|done|].
      rewrite E2. split_and!; [done|lia|done|done].
    + apply (wake_ok p); [apply Hs|done|intros Hful _ _; right; exact (full_stays p p' bs Hp Hp1 Hq1 Hful)|]. intros He Hro _.
      destruct Hend as [(_ & _ & ->)|(_ & _ & [([Hc|Hc] & _)|(_ & _ & _ & ->)])]; [left; by left|congruence|done|left; by left].
Qed.

Lemma y_read_ok p us pr bi bo x addr n o p' u' cs :
  psys_ok (PSys p us pr bi bo) -> pr x = PRead addr n ->
  piperead false addr n (PState p (us x) []) = Ok (o, PState p' u' cs) ->
  psys_ok (PSys p' (upd us x u')
        (upd (fun y => p_wake cs (pr y)) x match o with Return _ => PIdle | Sleep _ _ => PRSleep addr n end)
        bi (bo ++ received (us x) u' addr p p' o)).
Proof.
  intros [Hp Hu Hf Hs] Hx Hrun. cbn in Hp, Hu, Hf, Hs. destruct (Hu x) as [um Hum].
  pose proof (Hs x) as Hro. rewrite Hx in Hro. cbn in Hro.
  rewrite piperead_eq in Hrun.
  destruct (p_empty p && writeopen p) eqn:Hc.
  - apply andb_true_iff in Hc as [He Hwo]. injection Hrun as <- <- <- <-. split; cbn.
    + done.
    + by apply (user_upd _ _ _ um).
    + unfold received. cbn. rewrite Z.sub_diag. by rewrite app_nil_r.
    + intros y. unfold upd. destruct (Z.eqb_spec y x) as [->|Hne]; [done|]. apply (wake_ok p); [apply Hs|done|auto|auto].
  - destruct (piperead_loop_ok addr (Z.to_nat n) 0 p (us x) um [] Hp Hum)
      as (j & bs & p1 & u1 & Hrun1 & Hp1 & Hq1 & Hfl & _ & Hu1 & Hn1 & Hend).
    rewrite Hrun in Hrun1. injection Hrun1 as -> <- <- ->. split; cbn.
    + done.
    + exact (user_upd _ _ _ _ Hu Hu1).
    + apply (fifo_pop p); [done|]. exists bs. split; [done|]. pose proof (queue_bound p Hp) as Hb. rewrite Hq1, length_app in Hb. eapply received_ok; [done|done|done| |lia|done]. rewrite Hn1. apply count_diff. lia.
    + intros y. unfold upd. destruct (Z.eqb_spec y x) as [->|Hne]; [done|]. apply (wake_ok p); [apply Hs|done|intros _ _ _; left; by left|].
      intros He _ Hwo. by rewrite He, Hwo in Hc.
Qed.

Lemma y_close_ok p us pr bi bo x w p' u' cs :
  psys_ok (PSys p us pr bi bo) ->
  (forall y, match pr y with
             | PWrite _ _ _ | PWSleep _ _ _ => w = false
             | PRead _ _ | PRSleep _ _ => w = true
             | PIdle => True
             end) ->
  pipeclose_end w (PState p (us x) []) = Ok (tt, PState p' u' cs) ->
  psys_ok (PSys p' (upd us x u') (fun y => p_wake cs (pr y)) bi bo).
Proof.
  intros [Hp Hu Hf Hs] Hy Hrun. cbn in Hp, Hu, Hf, Hs. destruct (Hu x) as [um Hum].
  destruct w; injection Hrun as <- <- <-; (split; [split; apply Hp|by apply (user_upd _ _ _ um)|done|]);
    intros y; specialize (Hs y); specialize (Hy y); cbn [y_pipe y_proc];
    destruct (pr y); try discriminate Hy;
    cbn [p_wake]; rewrite ?bool_decide_eq_true_2 by (by left); cbn in *; tauto.
Qed.

Lemma pstep_ok y y' : psys_ok y -> pstep y y' -> psys_ok y'.
Proof.
  intros Hok Hst. destruct Hst as [p us pr bi bo x u' um Hx Hu'|p us pr bi bo x addr n Hx Hw Hn|p us pr bi bo x addr n Hx Hr Hn| | |].
  - destruct Hok as [Hp Hu Hf Hs]. split; try done. by apply (user_upd _ _ _ um).
  - destruct Hok as [Hp Hu Hf Hs]. split; try done. intros y. cbn. unfold upd. destruct (y =? x); [done|apply Hs].
  - destruct Hok as [Hp Hu Hf Hs]. split; try done. intros y. cbn. unfold upd. destruct (y =? x); [done|apply Hs].
  - by eapply y_write_ok.
  - by eapply y_read_ok.
  - by eapply y_close_ok.
Qed.

Lemma psys_reach y0 y : psys_init y0 -> rtc pstep y0 y -> psys_ok y.
Proof. intros Hi%psys_init_ok Hr. induction Hr as [|y1 y2 y3 Hst _ IH]; [done|]. apply IH. by eapply pstep_ok. Qed.
End System.

Section Claims.
Context {U : Type} {UM : UserMem U} {UMOk : UserMemOk U}.

(** [pipewrite] from index [i]: it queues the user's bytes from [i] on, in order,
    and nothing else, and ends in one of these ways: all bytes are queued; the user
    cannot reach the next byte; the pipe is full and it returns -1 because nobody
    reads or the process is killed; the pipe is full and it sleeps at the index of the
    next byte.  Readers are woken in all of them but the -1 return. *)
Theorem pipewrite_correct (killed : bool) (addr n i : Z) (p : pipe) (u : U) (um : Z -> option Z) (w : list pchan)
    (Hp : pipe_ok p) (Hu : u_rep u um) (Hi : i <= n) :
  exists o bs p' u' w', pipewrite killed addr n i (PState p u w) = Ok (o, PState p' u' w') /\
    pipe_ok p' /\ queue p' = queue p ++ bs /\ same_ends p p' /\ u_rep u' um /\
    (forall j b, bs !! j = Some b -> um (u64 (addr + i + Z.of_nat j)) = Some b) /\
    nwrite p' = u32 (nwrite p + Z.of_nat (length bs)) /\ write_end killed um addr n i bs p' w o w'.
Proof.
  pose proof (pipewrite_loop_ok killed addr (Z.to_nat (n - i)) i p u um w Hp Hu) as H.
  replace (i + Z.of_nat (Z.to_nat (n - i))) with n in H by lia. exact H.
Qed.

(** [piperead] of [n] bytes: on an empty pipe with the write end open it sleeps, or
    returns -1 if the process is killed; otherwise it takes up to [n] bytes from the
    front of the queue, stores them in order in the user's memory and returns their
    number, and wakes the writers.  If the user cannot reach the place of a byte, that
    byte is lost. *)
Theorem piperead_correct (killed : bool) (addr n : Z) (p : pipe) (u : U) (um : Z -> option Z) (w : list pchan)
    (Hp : pipe_ok p) (Hu : u_rep u um) (Hn : 0 <= n) :
  (queue p = [] /\ writeopen p = true /\
    piperead killed addr n (PState p u w) = Ok (if killed then Return (-1) else Sleep ChRead 0, PState p u w)) \/
  exists j bs p' u', piperead killed addr n (PState p u w) = Ok (Return (Z.of_nat j), PState p' u' (w ++ [ChWrite])) /\
    pipe_ok p' /\ queue p = bs ++ queue p' /\ same_ends p p' /\ Z.of_nat (length bs) <= n /\
    u_rep u' (stored um addr 0 (take j bs)) /\ nread p' = u32 (nread p + Z.of_nat (length bs)) /\ read_end um addr 0 (Z.to_nat n) bs j p'.
Proof.
  rewrite piperead_eq. destruct (p_empty p && writeopen p) eqn:Hc.
  - left. apply andb_true_iff in Hc as [He Hw]. split_and!; [by apply queue_empty|done|by destruct killed].
  - right. destruct (piperead_loop_ok addr (Z.to_nat n) 0 p u um w Hp Hu) as (j & bs & p' & u' & H & H1 & H2 & H3 & H4 & H5).
    exists j, bs, p', u'. split_and!; try done; try apply H5; [apply H3..|lia].
Qed.

(** C16. FIFO: with any number of readers and writers in any order, while the counters wrap
    around, the bytes that the writers had in memory and wrote, as many as their calls say,
    are, in this order, those that left the pipe followed by the queued ones, at most
    [PIPESIZE] of them.  Each byte that left is in the memory of the reader, where its call
    says, or the reader could not reach that place.  No process is killed. *)
Theorem pipe_fifo (y0 y : psys) (Hi : psys_init y0) (Hr : rtc pstep y0 y) :
  (exists left, y_in y = Some <$> (left ++ queue (y_pipe y)) /\ Forall2 delivered left (y_out y)) /\ zlen (queue (y_pipe y)) <= PIPESIZE.
Proof. destruct (psys_reach y0 y Hi Hr) as [Hp _ Hf _]. split; [done|by apply queue_bound]. Qed.

(** C17. No lost wakeup: a process that sleeps in [pipewrite] finds the pipe full and the
    read end open, one that sleeps in [piperead] finds it empty and the write end open,
    as long as no process is killed. *)
Theorem pipe_no_lost_wakeup (y0 y : psys) (Hi : psys_init y0) (Hr : rtc pstep y0 y) (x : Z) :
  match y_proc y x with
  | PWSleep _ _ _ => Z.of_nat (length (queue (y_pipe y))) = PIPESIZE /\ readopen (y_pipe y) = true
  | PRSleep _ _ => queue (y_pipe y) = [] /\ writeopen (y_pipe y) = true
  | _ => True
  end.
Proof.
  destruct (psys_reach y0 y Hi Hr) as [Hp _ _ Hs]. specialize (Hs x). destruct (y_proc y x); try done; cbn in Hs.
  - split; [apply queue_full; [done|apply Hs]|apply Hs].
  - split; [apply queue_empty; [done|apply Hs]|apply Hs].
Qed.

(** But a killed writer that fills an empty pipe returns -1 without a wakeup: a
    reader that sleeps there goes on sleeping with the pipe full. *)
Theorem killed_writer_no_wakeup (addr n : Z) (p : pipe) (u : U) (um : Z -> option Z) (w : list pchan)
    (Hp : pipe_ok p) (Hu : u_rep u um) (He : queue p = []) (Hn : PIPESIZE < n)
    (Hum : forall j, 0 <= j <= PIPESIZE -> is_Some (um (u64 (addr + j)))) :
  exists p' u', pipewrite true addr n 0 (PState p u w) = Ok (Return (-1), PState p' u' w) /\
    Z.of_nat (length (queue p')) = PIPESIZE.
Proof.
  destruct (pipewrite_loop_ok true addr (Z.to_nat (n - 0)) 0 p u um w Hp Hu)
    as (o & bs & p' & u' & w' & Hrun & Hp' & Hq & _ & _ & _ & _ & Hend).
  rewrite He in Hq. cbn [app] in Hq. pose proof (length_queue p') as Hl. pose proof (po_size p' Hp') as Hs. rewrite Hq in Hl.
  destruct Hend as [(_ & [Hj|[Hj Hnone]] & _)|(_ & Hf & [(_ & -> & ->)|(_ & Hk & _)])]; [unfold PIPESIZE in *; lia| | |done].
  - rewrite Z.add_0_l in Hnone. destruct (Hum (Z.of_nat (length bs))) as [b Hb]; [lia|congruence].
  - exists p', u'. split; [exact Hrun|]. by apply queue_full.
Qed.
End Claims.

(** ** Examples *)

(** An empty pipe, a process with memory at 0 to 999, and [PIPESIZE + 1] bytes to write. *)
Definition demo_pipe : pipe := p_init (Pipe (fun _ => 5) 0 0 false false).
Definition demo_user : flat := fun x => if (0 <=? x) && (x <? 1000) then Some (x mod 256) else None.

Lemma demo_pipe_ok : pipe_ok demo_pipe.
Proof. split; cbn; unfold PIPESIZE; intros; lia || (vm_compute; discriminate). Qed.

Lemma demo_user_rep : u_rep demo_user demo_user.
Proof.
  intros x. split; [done|]. intros b. unfold demo_user. destruct (_ && _); [|done]. intros [= <-]. apply (u8_bound x).
Qed.

Lemma pipewrite_correct_witness :
  exists o bs p' u' w', pipewrite false 100 20 0 (PState demo_pipe demo_user []) = Ok (o, PState p' u' w') /\
    pipe_ok p' /\ queue p' = queue demo_pipe ++ bs /\ same_ends demo_pipe p' /\ u_rep u' demo_user /\
    (forall j b, bs !! j = Some b -> demo_user (u64 (100 + 0 + Z.of_nat j)) = Some b) /\
    nwrite p' = u32 (nwrite demo_pipe + Z.of_nat (length bs)) /\ write_end false demo_user 100 20 0 bs p' [] o w'.
Proof. exact (pipewrite_correct false 100 20 0 demo_pipe demo_user demo_user [] demo_pipe_ok demo_user_rep ltac:(lia)). Defined.

Lemma piperead_correct_witness :
  (queue demo_pipe = [] /\ writeopen demo_pipe = true /\
    piperead false 100 20 (PState demo_pipe demo_user []) = Ok (Sleep ChRead 0, PState demo_pipe demo_user [])) \/
  exists j bs p' u', piperead false 100 20 (PState demo_pipe demo_user []) =
      Ok (Return (Z.of_nat j), PState p' u' ([] ++ [ChWrite])) /\
    pipe_ok p' /\ queue demo_pipe = bs ++ queue p' /\ same_ends demo_pipe p' /\ Z.of_nat (length bs) <= 20 /\
    u_rep u' (stored demo_user 100 0 (take j bs)) /\ nread p' = u32 (nread demo_pipe + Z.of_nat (length bs)) /\ read_end demo_user 100 0 (Z.to_nat 20) bs j p'.
Proof. exact (piperead_correct false 100 20 demo_pipe demo_user demo_user [] demo_pipe_ok demo_user_rep ltac:(lia)). Defined.

(** The pipe before any call. *)
Definition demo_sys0 : psys := PSys demo_pipe (fun _ => demo_user) (fun _ => PIdle) [] [].

Lemma demo_sys_init : psys_init demo_sys0.
Proof. split_and!; [eexists; split; [|reflexivity]; cbn; lia|intros; exists demo_user; apply demo_user_rep|done..]. Qed.

(** A reader that sleeps on the empty pipe. *)
Definition demo_sys2 : psys :=
  PSys demo_pipe (upd (fun _ => demo_user) 1 demo_user)
    (upd (fun y => p_wake [] (upd (fun _ => PIdle) 1 (PRead 100 20) y)) 1 (PRSleep 100 20)) [] ([] ++ received demo_user demo_user 100 demo_pipe demo_pipe (Sleep ChRead 0)).

Lemma demo_sys_run : rtc pstep demo_sys0 demo_sys2.
Proof.
  eapply rtc_l; [apply (y_call_read _ _ _ _ _ 1 100 20); [done|done|lia]|].
  eapply rtc_l; [|apply rtc_refl].
  apply (y_read demo_pipe _ _ [] [] 1 100 20 (Sleep ChRead 0) demo_pipe demo_user []); reflexivity.
Qed.

(** Process 2 writes the bytes 30, 31 and 32, and process 1 reads two of them. *)
Definition state_after (m : M (pstate flat) outcome) (p : pipe) : pstate flat :=
  match m (PState p demo_user []) with Ok (_, s) => s | _ => PState p demo_user [] end.
Definition demo_wrote : pstate flat := state_after (pipewrite false 30 3 0) demo_pipe.
Definition demo_read : pstate flat := state_after (piperead false 500 2) (ps_pipe demo_wrote).

Lemma demo_write_runs : pipewrite false 30 3 0 (PState demo_pipe demo_user []) = Ok (Return 3, PState (ps_pipe demo_wrote) (ps_user demo_wrote) [ChRead]).
Proof. vm_compute. reflexivity. Qed.
Lemma demo_read_runs : piperead false 500 2 (PState (ps_pipe demo_wrote) demo_user []) = Ok (Return 2, PState (ps_pipe demo_read) (ps_user demo_read) [ChWrite]).
Proof. vm_compute. reflexivity. Qed.

Lemma demo_fifo_run : exists y : psys (U := flat), rtc pstep demo_sys0 y /\ y_in y = [Some 30; Some 31; Some 32] /\ y_out y = [Got (Some 30); Got (Some 31)].
Proof.
  eexists. split.
  - eapply rtc_l; [apply (y_call_write _ _ _ _ _ 2 30 3); [done|done|lia]|]. eapply rtc_l; [eapply (y_write demo_pipe _ _ [] [] 2 30 3 0); [reflexivity|exact demo_write_runs]|].
    eapply rtc_l; [apply (y_call_read _ _ _ _ _ 1 500 2); [reflexivity|reflexivity|lia]|]. eapply rtc_l; [|apply rtc_refl]. eapply (y_read _ _ _ _ _ 1 500 2); [reflexivity|exact demo_read_runs].
  - cbn [y_in y_out app]. split; vm_compute; reflexivity.
Qed.

Lemma pipe_fifo_witness : exists y : psys (U := flat), rtc pstep demo_sys0 y /\ y_in y = [Some 30; Some 31; Some 32] /\ y_out y = [Got (Some 30); Got (Some 31)] /\
  exists left, y_in y = Some <$> (left ++ queue (y_pipe y)) /\ Forall2 delivered left (y_out y).
Proof.
  destruct demo_fifo_run as (y & Hr & Ei & Eo). exists y. split; [exact Hr|]. split; [exact Ei|]. split; [exact Eo|].
  exact (proj1 (pipe_fifo demo_sys0 y demo_sys_init Hr)).
Defined.

Lemma pipe_no_lost_wakeup_witness :
  y_proc demo_sys2 1 = PRSleep 100 20 /\ queue (y_pipe demo_sys2) = [] /\ writeopen (y_pipe demo_sys2) = true.
Proof. split; [reflexivity|]. exact (pipe_no_lost_wakeup demo_sys0 demo_sys2 demo_sys_init demo_sys_run 1). Defined.

Lemma killed_writer_no_wakeup_witness :
  exists p' u', pipewrite true 100 600 0 (PState demo_pipe demo_user []) = Ok (Return (-1), PState p' u' []) /\
    Z.of_nat (length (queue p')) = PIPESIZE.
Proof.
  apply (killed_writer_no_wakeup 100 600 demo_pipe demo_user demo_user [] demo_pipe_ok demo_user_rep eq_refl).
  - unfold PIPESIZE. lia.
  - intros j Hj. unfold PIPESIZE in Hj. rewrite u64_small by lia. unfold demo_user.
    rewrite (proj2 (Z.leb_le _ _)), (proj2 (Z.ltb_lt _ _)) by lia. by eexists.
Defined.
