(* ===== verification/Proc.v ===== *)
(** * Processes, [kernel/proc.c]

    The process table, with the page tables and the trapframes of the processes in
    the memory of [Kalloc.phys].  A process is its index in [proc[]]; files and inodes
    are behind the interface [Files].  Code that runs with [p->lock] held is one atomic
    step; [sleep] and [wait] are split at [sched]: a step either returns or leaves the
    process [SLEEPING] ([Slept]).

    [ProcSpec] has the theorems about the table, [Sched] the scheduler. *)

From S2P Require Import Prelude Riscv KString Kalloc Vm.

Inductive procstate := UNUSED | SLEEPING | RUNNABLE | RUNNING | ZOMBIE.

#[export] Instance procstate_eq_dec : EqDecision procstate.
Proof. solve_decision. Defined.

Definition procstate_eqb (a b : procstate) : bool := bool_decide (a = b).

(** [struct context]: the saved registers; only [ra] and [sp] are ever set by C code. *)
Record context := Context_ { ctx_ra : Z; ctx_sp : Z }.

(** [p->parent] is an index of the table, [None] for a null pointer; 0 is the null
    pointer of the other pointers. *)
Record proc := Proc {
  p_state : procstate;
  p_parent : option Z;
  p_chan : Z;
  p_killed : bool;
  p_xstate : Z;
  p_pid : Z;
  p_kstack : Z;
  p_sz : Z;
  p_pagetable : Z;
  p_trapframe : Z;
  p_context : context;
  p_ofile : Z -> Z;
  p_cwd : Z;
  p_name : list Z;
}.

Definition with_state v (p : proc) := Proc v (p_parent p) (p_chan p) (p_killed p) (p_xstate p) (p_pid p) (p_kstack p)
  (p_sz p) (p_pagetable p) (p_trapframe p) (p_context p) (p_ofile p) (p_cwd p) (p_name p).
Definition with_parent v (p : proc) := Proc (p_state p) v (p_chan p) (p_killed p) (p_xstate p) (p_pid p) (p_kstack p)
  (p_sz p) (p_pagetable p) (p_trapframe p) (p_context p) (p_ofile p) (p_cwd p) (p_name p).
Definition with_chan v (p : proc) := Proc (p_state p) (p_parent p) v (p_killed p) (p_xstate p) (p_pid p) (p_kstack p)
  (p_sz p) (p_pagetable p) (p_trapframe p) (p_context p) (p_ofile p) (p_cwd p) (p_name p).
Definition with_killed v (p : proc) := Proc (p_state p) (p_parent p) (p_chan p) v (p_xstate p) (p_pid p) (p_kstack p)
  (p_sz p) (p_pagetable p) (p_trapframe p) (p_context p) (p_ofile p) (p_cwd p) (p_name p).
Definition with_xstate v (p : proc) := Proc (p_state p) (p_parent p) (p_chan p) (p_killed p) v (p_pid p) (p_kstack p)
  (p_sz p) (p_pagetable p) (p_trapframe p) (p_context p) (p_ofile p) (p_cwd p) (p_name p).
Definition with_pid v (p : proc) := Proc (p_state p) (p_parent p) (p_chan p) (p_killed p) (p_xstate p) v (p_kstack p)
  (p_sz p) (p_pagetable p) (p_trapframe p) (p_context p) (p_ofile p) (p_cwd p) (p_name p).
Definition with_kstack v (p : proc) := Proc (p_state p) (p_parent p) (p_chan p) (p_killed p) (p_xstate p) (p_pid p) v
  (p_sz p) (p_pagetable p) (p_trapframe p) (p_context p) (p_ofile p) (p_cwd p) (p_name p).
Definition with_sz v (p : proc) := Proc (p_state p) (p_parent p) (p_chan p) (p_killed p) (p_xstate p) (p_pid p) (p_kstack p)
  v (p_pagetable p) (p_trapframe p) (p_context p) (p_ofile p) (p_cwd p) (p_name p).
Definition with_pagetable v (p : proc) := Proc (p_state p) (p_parent p) (p_chan p) (p_killed p) (p_xstate p) (p_pid p)
  (p_kstack p) (p_sz p) v (p_trapframe p) (p_context p) (p_ofile p) (p_cwd p) (p_name p).
Definition with_trapframe v (p : proc) := Proc (p_state p) (p_parent p) (p_chan p) (p_killed p) (p_xstate p) (p_pid p)
  (p_kstack p) (p_sz p) (p_pagetable p) v (p_context p) (p_ofile p) (p_cwd p) (p_name p).
Definition with_context v (p : proc) := Proc (p_state p) (p_parent p) (p_chan p) (p_killed p) (p_xstate p) (p_pid p)
  (p_kstack p) (p_sz p) (p_pagetable p) (p_trapframe p) v (p_ofile p) (p_cwd p) (p_name p).
Definition with_ofile fd v (p : proc) := Proc (p_state p) (p_parent p) (p_chan p) (p_killed p) (p_xstate p) (p_pid p)
  (p_kstack p) (p_sz p) (p_pagetable p) (p_trapframe p) (p_context p) (upd (p_ofile p) fd v) (p_cwd p) (p_name p).
Definition with_cwd v (p : proc) := Proc (p_state p) (p_parent p) (p_chan p) (p_killed p) (p_xstate p) (p_pid p)
  (p_kstack p) (p_sz p) (p_pagetable p) (p_trapframe p) (p_context p) (p_ofile p) v (p_name p).
Definition with_name v (p : proc) := Proc (p_state p) (p_parent p) (p_chan p) (p_killed p) (p_xstate p) (p_pid p)
  (p_kstack p) (p_sz p) (p_pagetable p) (p_trapframe p) (p_context p) (p_ofile p) (p_cwd p) v.

(** What processes use of files and inodes: [filedup], [fileclose], [idup],
    [begin_op(); iput(ip); end_op();] and [namei("/")]. *)
Class Files (F : Type) := {
  f_dup : Z -> M F Z;
  f_close : Z -> M F unit;
  f_idup : Z -> M F Z;
  f_iput : Z -> M F unit;
  f_root : M F Z;
}.

(** [safestrcpy(s, t, n)] on arrays: [old] is the contents of [s]. *)
Fixpoint safestrcpy_list (old t : list Z) (n : nat) : list Z :=
  match n, old, t with
  | S (S k), _ :: old', c :: t' => if c =? 0 then 0 :: old' else c :: safestrcpy_list old' t' (S k)
  | S _, _ :: old', _ => 0 :: old'
  | _, _, _ => old
  end.

(** Offsets of [epc], [sp] and [a0] in [struct trapframe], and its size. *)
Definition tf_epc : Z := 24.
Definition tf_sp : Z := 48.
Definition tf_a0 : Z := 112.
Definition tf_size : Z := 288.

(** How a step of a process ends. *)
Inductive pres := Returns (r : Z) | Slept.

Section Proc.
Context {L : Linker} {F : Type} {FO : Files F}.

(** Addresses of [forkret], [initcode], and of [&np->xstate] in the kernel's data. *)
Variables (forkret_addr initcode_addr : Z) (xstate_addr : Z -> Z).

(** The address of [&proc[i]], which [wait] uses as a channel. *)
Variable proc_addr : Z -> Z.

Record pst := Pst { procs : Z -> proc; initproc : option Z; nextpid : Z; p_phys : phys; p_files : F }.

Definition in_phys {A} (m : M phys A) : M pst A :=
  zoom p_phys (fun x s => Pst (procs s) (initproc s) (nextpid s) x (p_files s)) m.
Definition in_files {A} (m : M F A) : M pst A :=
  zoom p_files (fun x s => Pst (procs s) (initproc s) (nextpid s) (p_phys s) x) m.
Definition get_proc (i : Z) : M pst proc := gets (fun s => procs s i).
Definition mod_proc (i : Z) (f : proc -> proc) : M pst unit :=
  modify (fun s => Pst (upd (procs s) i (f (procs s i))) (initproc s) (nextpid s) (p_phys s) (p_files s)).

Definition procinit : M pst unit :=
  mfor (upto NPROC) (fun i =>
    let! pa := in_phys kalloc in
    panic_if (pa =? 0) "kalloc" ;;
    let va := KSTACK i in
    in_phys (kvmmap va pa PGSIZE (Z.lor PTE_R PTE_W)) ;;
    mod_proc i (with_kstack va)).

Definition allocpid : M pst Z :=
  let! pid := gets nextpid in
  modify (fun s => Pst (procs s) (initproc s) (i32 (nextpid s + 1)) (p_phys s) (p_files s)) ;;
  ret pid.

Definition proc_pagetable (i : Z) : M pst Z :=
  let! p := get_proc i in
  in_phys (
    let! pagetable := uvmcreate in
    if pagetable =? 0 then ret 0
    else
      let! r := mappages pagetable TRAMPOLINE PGSIZE trampoline (Z.lor PTE_R PTE_X) in
      if r <? 0 then uvmfree pagetable 0 ;; ret 0
      else
        let! r := mappages pagetable TRAPFRAME PGSIZE (p_trapframe p) (Z.lor PTE_R PTE_W) in
        if r <? 0 then
          uvmunmap pagetable TRAMPOLINE 1 false ;;
          uvmfree pagetable 0 ;;
          ret 0
        else ret pagetable).

Definition proc_freepagetable (pagetable sz : Z) : M phys unit :=
  uvmunmap pagetable TRAMPOLINE 1 false ;;
  uvmunmap pagetable TRAPFRAME 1 false ;;
  uvmfree pagetable sz.

Definition freeproc (i : Z) : M pst unit :=
  let! p := get_proc i in
  (if negb (p_trapframe p =? 0) then in_phys (kfree (p_trapframe p)) else ret tt) ;;
  mod_proc i (with_trapframe 0) ;;
  (if negb (p_pagetable p =? 0) then in_phys (proc_freepagetable (p_pagetable p) (p_sz p)) else ret tt) ;;
  mod_proc i (with_pagetable 0) ;;
  mod_proc i (with_sz 0) ;;
  mod_proc i (with_pid 0) ;;
  mod_proc i (with_parent None) ;;
  mod_proc i (fun p => with_name (0 :: tail (p_name p)) p) ;;
  mod_proc i (with_chan 0) ;;
  mod_proc i (with_killed false) ;;
  mod_proc i (with_xstate 0) ;;
  mod_proc i (with_state UNUSED).

(** The first [UNUSED] slot. *)
Fixpoint find_unused (f : Z -> proc) (l : list Z) : option Z :=
  match l with
  | [] => None
  | i :: l' => if procstate_eqb (p_state (f i)) UNUSED then Some i else find_unused f l'
  end.

Definition allocproc : M pst (option Z) :=
  let! found := gets (fun s => find_unused (procs s) (upto NPROC)) in
  match found with
  | None => ret None
  | Some i =>
      let! pid := allocpid in
      mod_proc i (with_pid pid) ;;
      let! tf := in_phys kalloc in
      mod_proc i (with_trapframe tf) ;;
      if tf =? 0 then ret None
      else
        let! pt := proc_pagetable i in
        mod_proc i (with_pagetable pt) ;;
        if pt =? 0 then freeproc i ;; ret None
        else
          mod_proc i (fun p => with_context (Context_ forkret_addr (p_kstack p + PGSIZE)) p) ;;
          ret (Some i)
  end.

(** The length of [initcode]. *)
Definition initcode_size : Z := 52.

(** ["initcode"] *)
Definition initcode_name : list Z := [105; 110; 105; 116; 99; 111; 100; 101; 0].

Definition userinit : M pst unit :=
  let! r := allocproc in
  match r with
  | None => panic "userinit: null pointer"
  | Some i =>
      modify (fun s => Pst (procs s) (Some i) (nextpid s) (p_phys s) (p_files s)) ;;
      let! p := get_proc i in
      in_phys (uvminit (p_pagetable p) initcode_addr initcode_size) ;;
      mod_proc i (with_sz PGSIZE) ;;
      in_phys (pstore64 (p_trapframe p + tf_epc) 0) ;;
      in_phys (pstore64 (p_trapframe p + tf_sp) PGSIZE) ;;
      mod_proc i (fun p => with_name (safestrcpy_list (p_name p) initcode_name 16) p) ;;
      let! ip := in_files f_root in
      mod_proc i (with_cwd ip) ;;
      mod_proc i (with_state RUNNABLE)
  end.

(** The calls of a process [me] ([myproc()]). *)
Section Calls.
Variable me : Z.

(** [sz] is a [uint]: the sums with [n] are taken modulo 2^32. *)
Definition growproc (n : Z) : M pst Z :=
  let! p := get_proc me in
  let sz := u32 (p_sz p) in
  if 0 <? n then
    let! r := in_phys (uvmalloc (p_pagetable p) sz (u32 (sz + n))) in
    if u32 r =? 0 then ret (-1)
    else mod_proc me (with_sz (u32 r)) ;; ret 0
  else if n <? 0 then
    let! r := in_phys (uvmdealloc (p_pagetable p) sz (u32 (sz + n))) in
    mod_proc me (with_sz (u32 r)) ;; ret 0
  else mod_proc me (with_sz sz) ;; ret 0.

Definition fork : M pst Z :=
  let! r := allocproc in
  match r with
  | None => ret (-1)
  | Some np =>
      let! p := get_proc me in
      let! q := get_proc np in
      let! rc := in_phys (uvmcopy (p_pagetable p) (p_pagetable q) (p_sz p)) in
      if rc <? 0 then freeproc np ;; ret (-1)
      else
        mod_proc np (with_sz (p_sz p)) ;;
        mod_proc np (with_parent (Some me)) ;;
        in_phys (pmemmove (p_trapframe q) (p_trapframe p) tf_size) ;;
        in_phys (pstore64 (p_trapframe q + tf_a0) 0) ;;
        mfor (upto NOFILE) (fun fd =>
          if negb (p_ofile p fd =? 0)
          then let! f := in_files (f_dup (p_ofile p fd)) in mod_proc np (with_ofile fd f)
          else ret tt) ;;
        let! ip := in_files (f_idup (p_cwd p)) in
        mod_proc np (with_cwd ip) ;;
        mod_proc np (fun q => with_name (safestrcpy_list (p_name q) (p_name p) 16) q) ;;
        let! q := get_proc np in
        mod_proc np (with_state RUNNABLE) ;;
        ret (p_pid q)
  end.

Definition reparent : M pst unit :=
  mfor (upto NPROC) (fun pp =>
    let! x := get_proc pp in
    let! ip := gets initproc in
    if bool_decide (p_parent x = Some me) then mod_proc pp (with_parent ip) else ret tt).

(** [wakeup1(p)]; [exit] holds [p->lock]. *)
Definition wakeup1 (p : Z) : M pst unit :=
  let! x := get_proc p in
  if (p_chan x =? proc_addr p) && procstate_eqb (p_state x) SLEEPING then mod_proc p (with_state RUNNABLE) else ret tt.

(** [exit] in its three critical sections: files and the current directory; the
    wakeup of init; the part under the locks of the parent and of [p]. *)
Definition exit_files : M pst unit :=
  let! ip := gets initproc in
  panic_if (bool_decide (ip = Some me)) "init exiting" ;;
  mfor (upto NOFILE) (fun fd =>
    let! p := get_proc me in
    if negb (p_ofile p fd =? 0)
    then in_files (f_close (p_ofile p fd)) ;; mod_proc me (with_ofile fd 0)
    else ret tt) ;;
  let! p := get_proc me in
  in_files (f_iput (p_cwd p)) ;;
  mod_proc me (with_cwd 0).

Definition exit_wake_init : M pst unit :=
  let! ip := gets initproc in
  match ip with
  | None => panic "exit: null pointer"
  | Some i => wakeup1 i
  end.

Definition exit_zombie (original_parent : option Z) (status : Z) : M pst unit :=
  reparent ;;
  (match original_parent with None => panic "exit: null pointer" | Some q => wakeup1 q end) ;;
  mod_proc me (with_xstate status) ;;
  mod_proc me (with_state ZOMBIE).

(** The whole of [exit], without interruption; [sched] does not return. *)
Definition exit (status : Z) : M pst unit :=
  exit_files ;;
  exit_wake_init ;;
  let! p := get_proc me in
  exit_zombie (p_parent p) status.

(** [sleep(chan, lk)] up to [sched], and after it. *)
Definition sleep_enter (chan : Z) : M pst unit :=
  mod_proc me (with_chan chan) ;;
  mod_proc me (with_state SLEEPING).
Definition sleep_leave : M pst unit := mod_proc me (with_chan 0).

(** The scan of [wait] over the table: [Some r] to return [r], and [havekids]. *)
Fixpoint wait_scan (addr : Z) (nps : list Z) (havekids : bool) : M pst (option Z * bool) :=
  match nps with
  | [] => ret (None, havekids)
  | np :: rest =>
      let! x := get_proc np in
      if bool_decide (p_parent x = Some me) then
        if procstate_eqb (p_state x) ZOMBIE then
          let pid := p_pid x in
          let! p := get_proc me in
          let! bad :=
            (if negb (addr =? 0)
             then
               in_phys (modify (fun s => set_pmem (store_le (pmem s) (xstate_addr np) 4 (u32 (p_xstate x))) s)) ;;
               let! rv := in_phys (copyout (p_pagetable p) addr (xstate_addr np) 4) in
               ret (rv <? 0)
             else ret false) in
          if bad then ret (Some (-1), true)
          else freeproc np ;; ret (Some pid, true)
        else wait_scan addr rest true
      else wait_scan addr rest havekids
  end.

(** One round of the loop of [wait]. *)
Definition wait (addr : Z) : M pst pres :=
  let! r := wait_scan addr (upto NPROC) false in
  match r with
  | (Some v, _) => ret (Returns v)
  | (None, havekids) =>
      let! p := get_proc me in
      if negb havekids || p_killed p then ret (Returns (-1))
      else sleep_enter (proc_addr me) ;; ret Slept
  end.

(** [yield] up to [sched]. *)
Definition yield_enter : M pst unit := mod_proc me (with_state RUNNABLE).
End Calls.

Definition wakeup (chan : Z) : M pst unit :=
  mfor (upto NPROC) (fun i =>
    let! p := get_proc i in
    if procstate_eqb (p_state p) SLEEPING && (p_chan p =? chan) then mod_proc i (with_state RUNNABLE) else ret tt).

Fixpoint kill_scan (pid : Z) (l : list Z) : M pst Z :=
  match l with
  | [] => ret (-1)
  | i :: rest =>
      let! p := get_proc i in
      if p_pid p =? pid then
        mod_proc i (with_killed true) ;;
        (if procstate_eqb (p_state p) SLEEPING then mod_proc i (with_state RUNNABLE) else ret tt) ;;
        ret 0
      else kill_scan pid rest
  end.

Definition kill (pid : Z) : M pst Z := kill_scan pid (upto NPROC).
End Proc.
