(* ===== verification/ProcSpec.v ===== *)
(** * The process table

    [tstep] are the steps of processes and of the scheduler on the table, in any order;
    [exit] is split at the points where it releases its locks.  The invariant: process
    ids are unique, every process but init has a parent that can still call [wait], and
    a process that sleeps in [wait] has no zombie child.  The last one fails for init. *)

From S2P Require Import Prelude Riscv KString Kalloc Vm Proc.

(** ** What the operations do to the table *)

Section Slots.
Context {L : Linker} {F : Type} {FO : Files F}.
Implicit Types (s : pst (F := F)).

(** From [s] to [s'] only the slot [i] and [nextpid] changed. *)
Record slot_upd s (i : Z) (p : proc) (n : Z) s' : Prop := {
  su_this : procs s' i = p;
  su_other j : j <> i -> procs s' j = procs s j;
  su_init : initproc s' = initproc s;
  su_next : nextpid s' = n;
}.

Lemma slot_refl s i : slot_upd s i (procs s i) (nextpid s) s.
Proof. done. Qed.

Lemma slot_mod s i p n s1 f x s2 :
  slot_upd s i p n s1 -> mod_proc i f s1 = Ok (x, s2) -> slot_upd s i (f p) n s2.
Proof.
  intros [H1 H2 H3 H4] [= <- <-]. split; cbn; try done; [by rewrite upd_eq, H1|]. intros j Hj. rewrite upd_ne by done. auto.
Qed.

Lemma slot_phys {A} s i p n s1 (m : M phys A) x s2 :
  slot_upd s i p n s1 -> in_phys m s1 = Ok (x, s2) -> slot_upd s i p n s2.
Proof. intros [H1 H2 H3 H4] (q & _ & ->)%zoom_ok_inv. split; done. Qed.

Lemma slot_files {A} s i p n s1 (m : M F A) x s2 :
  slot_upd s i p n s1 -> in_files m s1 = Ok (x, s2) -> slot_upd s i p n s2.
Proof. intros [H1 H2 H3 H4] (q & _ & ->)%zoom_ok_inv. split; done. Qed.

Lemma slot_when s i p n s1 (b : bool) (m : M pst unit) x s2 :
  slot_upd s i p n s1 -> (forall x s2, m s1 = Ok (x, s2) -> slot_upd s i p n s2) ->
  (if b then m else ret tt) s1 = Ok (x, s2) -> slot_upd s i p n s2.
Proof. intros H Hm. destruct b; [apply Hm|]. by intros [= <- <-]. Qed.

End Slots.

(** Follow the slot [i] through the commands that ran. *)
Ltac slot_steps := repeat match goal with
  | Hs : slot_upd _ ?i _ _ ?s1, H : mod_proc ?i _ ?s1 = Ok _ |- _ => eapply slot_mod in H; [|exact Hs]; clear Hs
  | Hs : slot_upd _ ?i _ _ ?s1, H : in_phys _ ?s1 = Ok _ |- _ => eapply slot_phys in H; [|exact Hs]; clear Hs
  | Hs : slot_upd _ ?i _ _ ?s1, H : in_files _ ?s1 = Ok _ |- _ => eapply slot_files in H; [|exact Hs]; clear Hs
  | Hs : slot_upd _ ?i _ _ ?s1, H : (if _ then in_phys _ else ret tt) ?s1 = Ok _ |- _ =>
      eapply slot_when in H; [|exact Hs|intros *; by eapply slot_phys]; clear Hs
  end.

Section Effects.
Context {L : Linker} {F : Type} {FO : Files F}.
Implicit Types (s : pst (F := F)).

(** What [freeproc] leaves of a slot. *)
Definition freed (p : proc) : proc :=
  Proc UNUSED None 0 false 0 0 (p_kstack p) 0 0 0 (p_context p) (p_ofile p) (p_cwd p) (0 :: tail (p_name p)).

Lemma freeproc_slot s i p n s1 x s2 :
  slot_upd s i p n s1 -> freeproc i s1 = Ok (x, s2) -> slot_upd s i (freed p) n s2.
Proof.
  intros Hs H. pose proof (su_this _ _ _ _ _ Hs) as E. unfold freeproc in H.
  apply bind_ok_inv in H as (q & t & [-> ->]%gets_inv & H).
  repeat (let Hr := fresh "Hr" in let t := fresh "t" in apply bind_ok_inv in H as ([] & t & Hr & H)). slot_steps. exact H.
Qed.

Lemma allocpid_slot s i p n s1 x s2 :
  slot_upd s i p n s1 -> allocpid s1 = Ok (x, s2) -> x = n /\ slot_upd s i p (i32 (n + 1)) s2.
Proof. intros [H1 H2 H3 H4] [= <- <-]. rewrite H4. by split; [|split]. Qed.

Lemma find_unused_some f l i : find_unused f l = Some i -> i ∈ l /\ p_state (f i) = UNUSED.
Proof.
  induction l as [|j l IH]; cbn [find_unused]; [done|]. unfold procstate_eqb. case_bool_decide as Hj.
  - intros [= <-]. split; [by left|done].
  - intros [? ?]%IH. split; [by right|done].
Qed.

(** What [allocproc] does to the slot that it takes. *)
Definition taken (p : proc) (pid tf pt : Z) (c : context) : proc :=
  with_context c (with_pagetable pt (with_trapframe tf (with_pid pid p))).

Lemma allocproc_slot fa s x s' :
  allocproc fa s = Ok (x, s') ->
  (x = None /\ s' = s /\ find_unused (procs s) (upto NPROC) = None) \/
  exists i, find_unused (procs s) (upto NPROC) = Some i /\
    ((x = None /\ (slot_upd s i (with_trapframe 0 (with_pid (nextpid s) (procs s i))) (i32 (nextpid s + 1)) s' \/
                   exists p, slot_upd s i (freed p) (i32 (nextpid s + 1)) s' /\ p_name p = p_name (procs s i))) \/
     exists tf pt c, x = Some i /\ slot_upd s i (taken (procs s i) (nextpid s) tf pt c) (i32 (nextpid s + 1)) s').
Proof.
  unfold allocproc. intros H. apply bind_ok_inv in H as (found & t & [-> ->]%gets_inv & H). destruct (find_unused _ _) as [i|] eqn:E; [right|left; by apply ret_inv in H as [-> ->]].
  exists i. split; [done|].
  apply bind_ok_inv in H as (pid & s1 & H1 & H). destruct (allocpid_slot s i _ _ s pid s1 (slot_refl s i) H1) as [-> Hs1]. clear H1.
  apply bind_ok_inv in H as ([] & s2 & H2 & H). apply bind_ok_inv in H as (tf & s3 & H3 & H).
  apply bind_ok_inv in H as ([] & s4 & H4 & H). slot_steps. destruct (Z.eqb_spec tf 0) as [->|Htf].
  { apply ret_inv in H as [-> ->]. left. split; [done|]. by left. }
  apply bind_ok_inv in H as (pt & s5 & H5 & H). apply bind_ok_inv in H5 as (q & s5' & [-> ->]%gets_inv & H5).
  apply bind_ok_inv in H as ([] & s6 & H6 & H). slot_steps. destruct (pt =? 0).
  - left. apply bind_ok_inv in H as ([] & s7 & H7 & [-> ->]%ret_inv). split; [done|right].
    eapply freeproc_slot in H7; [|exact H6]. eexists. split; [exact H7|done].
  - right. apply bind_ok_inv in H as ([] & s7 & H7 & [-> ->]%ret_inv). slot_steps. do 3 eexists. split; [done|]. exact H7.
Qed.

(** The fields that the invariant of the table is about. *)
Definition key (p : proc) : procstate * option Z * Z * bool * Z :=
  (p_state p, p_parent p, p_chan p, p_killed p, p_pid p).

(** [growproc] and the copying of files in [fork] change nothing of them. *)
Lemma ofile_loop_slot (ofile : Z -> Z) np fds : forall s p n s1 x s2,
  slot_upd s np p n s1 ->
  mfor fds (fun fd => if negb (ofile fd =? 0)
                      then let! f := in_files (f_dup (ofile fd)) in mod_proc np (with_ofile fd f)
                      else ret tt) s1 = Ok (x, s2) ->
  exists p', slot_upd s np p' n s2 /\ key p' = key p.
Proof.
  induction fds as [|fd fds IH]; intros s p n s1 x s2 Hs H; cbn [mfor] in H; [apply ret_inv in H as [-> ->]; eauto|].
  apply bind_ok_inv in H as (y & s3 & H1 & H). destruct (negb (ofile fd =? 0)); [|apply ret_inv in H1 as [-> ->]; eauto].
  apply bind_ok_inv in H1 as (f & s4 & H1 & H2). slot_steps. destruct (IH _ _ _ _ _ _ H2 H) as (p' & Hp' & E). eauto.
Qed.

(** What [fork] does to the table. *)
Lemma fork_slot fa me s r s' :
  fork fa me s = Ok (r, s') ->
  (r = -1 /\ (s' = s \/ exists i p, find_unused (procs s) (upto NPROC) = Some i /\ slot_upd s i p (i32 (nextpid s + 1)) s' /\
     p_state p = UNUSED /\ (p_parent p = None \/ p_parent p = p_parent (procs s i)) /\ (p_pid p = 0 \/ p_pid p = nextpid s))) \/
  exists i p, find_unused (procs s) (upto NPROC) = Some i /\ r = nextpid s /\ slot_upd s i p (i32 (nextpid s + 1)) s' /\
    key p = (RUNNABLE, Some me, p_chan (procs s i), p_killed (procs s i), nextpid s).
Proof.
  unfold fork. intros H. apply bind_ok_inv in H as (x & s1 & H1 & H).
  apply allocproc_slot in H1 as [(-> & -> & Hnone)|(i & Hi & [(-> & Hs)|(tf & pt & c & -> & Hs)])].
  - apply ret_inv in H as [-> ->]. left. split; [done|by left].
  - apply ret_inv in H as [-> ->]. left. split; [done|right]. pose proof (find_unused_some _ _ _ Hi) as [_ Hu].
    destruct Hs as [Hs|(p & Hs & _)]; (eexists i, _; split; [done|]; split; [exact Hs|]); cbn; auto.
  - pose proof (find_unused_some _ _ _ Hi) as [_ Hu].
    apply bind_ok_inv in H as (p & s2 & [-> ->]%gets_inv & H). apply bind_ok_inv in H as (q & s2 & [-> ->]%gets_inv & H).
    apply bind_ok_inv in H as (rc & s2 & H2 & H). slot_steps. destruct (rc <? 0).
    { apply bind_ok_inv in H as ([] & s3 & H3 & [-> ->]%ret_inv). eapply freeproc_slot in H3; [|exact H2].
      left. split; [done|right]. eexists i, _. split; [done|]. split; [exact H3|]. cbn. auto. }
    apply bind_ok_inv in H as ([] & s3 & H3 & H). apply bind_ok_inv in H as ([] & s4 & H4 & H).
    apply bind_ok_inv in H as ([] & s5 & H5 & H). apply bind_ok_inv in H as ([] & s6 & H6 & H).
    apply bind_ok_inv in H as ([] & s7 & H7 & H). slot_steps.
    eapply ofile_loop_slot in H7 as (p7 & Hs7 & E7); [|exact H6].
    apply bind_ok_inv in H as (ip & s8 & H8 & H). apply bind_ok_inv in H as ([] & s9 & H9 & H).
    apply bind_ok_inv in H as ([] & s10 & H10 & H). clear H6. slot_steps.
    apply bind_ok_inv in H as (q & s11 & [-> ->]%gets_inv & H). pose proof (su_this _ _ _ _ _ H10) as E10.
    apply bind_ok_inv in H as ([] & s12 & H12 & [-> ->]%ret_inv). slot_steps. right. eexists i, _. split; [done|].
    rewrite E10. cbn. unfold key in E7. cbn in E7. injection E7 as E71 E72 E73 E74 E75.
    split; [done|]. split; [exact H12|]. unfold key. cbn. congruence.
Qed.

Lemma growproc_slot me n s r s' :
  growproc me n s = Ok (r, s') -> exists p, slot_upd s me p (nextpid s) s' /\ key p = key (procs s me).
Proof.
  unfold growproc. intros H. apply bind_ok_inv in H as (p & s1 & [-> ->]%gets_inv & H). pose proof (slot_refl s me) as Hs.
  destruct (0 <? n); [|destruct (n <? 0)].
  - apply bind_ok_inv in H as (x & s1 & H1 & H). slot_steps. destruct (_ =? _); [apply ret_inv in H as [-> ->]; eauto|].
    apply bind_ok_inv in H as ([] & s2 & H2 & [-> ->]%ret_inv). slot_steps. eexists. split; [exact H2|done].
  - apply bind_ok_inv in H as (x & s1 & H1 & H). slot_steps.
    apply bind_ok_inv in H as ([] & s2 & H2 & [-> ->]%ret_inv). slot_steps. eexists. split; [exact H2|done].
  - apply bind_ok_inv in H as ([] & s2 & H2 & [-> ->]%ret_inv). slot_steps. eexists. split; [exact H2|done].
Qed.

(** From [s] to [s'] the slots of [ks] changed by [f]. *)
Record all_upd s (f : Z -> proc -> proc) (ks : list Z) s' : Prop := {
  au_slot j : procs s' j = if bool_decide (j ∈ ks) then f j (procs s j) else procs s j;
  au_init : initproc s' = initproc s;
  au_next : nextpid s' = nextpid s;
}.

Lemma table_loop (f : Z -> proc -> proc) (ip : option Z) (body : Z -> M pst unit) ks : forall s x s',
  (forall i s x s', initproc s = ip -> body i s = Ok (x, s') -> slot_upd s i (f i (procs s i)) (nextpid s) s') ->
  NoDup ks -> initproc s = ip -> mfor ks body s = Ok (x, s') -> all_upd s f ks s'.
Proof.
  induction ks as [|k ks IH]; intros s x s' Hb Hnd Hip H; cbn [mfor] in H; [by apply ret_inv in H as [-> ->]|].
  apply NoDup_cons in Hnd as [Hk Hnd]. apply bind_ok_inv in H as (y & s1 & H1 & H).
  apply Hb in H1 as [E1 E2 E3 E4]; [|done]. apply IH in H as [F1 F2 F3]; [|done|done|congruence].
  split; [|congruence|congruence]. intros j. rewrite F1. destruct (decide (j = k)) as [->|Hne].
  - rewrite (bool_decide_eq_false_2 _ Hk), (bool_decide_eq_true_2 (k ∈ k :: ks)) by (by left). done.
  - rewrite E2 by done. rewrite (bool_decide_ext (j ∈ k :: ks) (j ∈ ks)); [done|]. rewrite elem_of_cons.
    split; [intros [?|?]; done|by right].
Qed.

Lemma slot_if s i (b : bool) f x s' :
  (if b then mod_proc i f else ret tt) s = Ok (x, s') -> slot_upd s i (if b then f (procs s i) else procs s i) (nextpid s) s'.
Proof. destruct b; [apply slot_mod, slot_refl|]. by intros [-> ->]%ret_inv. Qed.

Definition reparented (me : Z) (ip : option Z) (p : proc) : proc :=
  if bool_decide (p_parent p = Some me) then with_parent ip p else p.

Lemma reparent_table me s x s' :
  reparent me s = Ok (x, s') -> all_upd s (fun _ => reparented me (initproc s)) (upto NPROC) s'.
Proof.
  apply (table_loop (fun _ => reparented me (initproc s)) (initproc s)); [|apply NoDup_upto|done].
  intros i t y t' Et H. apply bind_ok_inv in H as (p & t1 & [-> ->]%gets_inv & H).
  apply bind_ok_inv in H as (ip & t1 & [-> ->]%gets_inv & H). apply slot_if in H. unfold reparented. by rewrite <- Et.
Qed.

Definition woken (chan : Z) (p : proc) : proc :=
  if procstate_eqb (p_state p) SLEEPING && (p_chan p =? chan) then with_state RUNNABLE p else p.

Lemma wakeup_table chan s x s' : wakeup chan s = Ok (x, s') -> all_upd s (fun _ => woken chan) (upto NPROC) s'.
Proof.
  apply (table_loop (fun _ => woken chan) (initproc s)); [|apply NoDup_upto|done].
  intros i t y t' Et H. apply bind_ok_inv in H as (p & t1 & [-> ->]%gets_inv & H). by apply slot_if in H.
Qed.

Lemma wakeup1_slot pa i s x s' :
  wakeup1 pa i s = Ok (x, s') -> slot_upd s i (woken (pa i) (procs s i)) (nextpid s) s'.
Proof.
  unfold wakeup1. intros H. apply bind_ok_inv in H as (p & t1 & [-> ->]%gets_inv & H). apply slot_if in H.
  unfold woken. by rewrite andb_comm in H.
Qed.

Definition killed (p : proc) : proc :=
  let p := with_killed true p in if procstate_eqb (p_state p) SLEEPING then with_state RUNNABLE p else p.

Lemma kill_table pid l : forall s r s',
  kill_scan pid l s = Ok (r, s') ->
  (r = -1 /\ s' = s /\ forall i, i ∈ l -> p_pid (procs s i) <> pid) \/
  (r = 0 /\ exists i, i ∈ l /\ p_pid (procs s i) = pid /\ slot_upd s i (killed (procs s i)) (nextpid s) s').
Proof.
  induction l as [|i l IH]; intros s r s' H; cbn [kill_scan] in H.
  { apply ret_inv in H as [-> ->]. left. split_and!; [done|done|]. intros i Hi. by apply elem_of_nil in Hi. }
  apply bind_ok_inv in H as (p & t1 & [-> ->]%gets_inv & H). destruct (Z.eqb_spec (p_pid (procs s i)) pid) as [E|E].
  - apply bind_ok_inv in H as ([] & s1 & H1 & H). apply bind_ok_inv in H as ([] & s2 & H2 & [-> ->]%ret_inv).
    right. split; [done|]. exists i. split_and!; [by left|done|]. pose proof (slot_refl s i) as Hs. slot_steps.
    unfold killed. cbn [p_state with_killed]. destruct (procstate_eqb _ _); [by slot_steps|by apply ret_inv in H2 as [_ ->]].
  - apply IH in H as [(-> & -> & H)|(-> & j & Hj & H)]; [left|right]; (split; [done|]).
    + split; [done|]. intros j [->|Hj]%elem_of_cons; auto.
    + exists j. split; [by right|done].
Qed.

(** [exit_files] changes only files of the process. *)
Lemma exit_files_slot me s x s' :
  exit_files me s = Ok (x, s') ->
  initproc s <> Some me /\ exists p, slot_upd s me p (nextpid s) s' /\ key p = key (procs s me).
Proof.
  unfold exit_files. intros H. apply bind_ok_inv in H as (ip & t1 & [-> ->]%gets_inv & H).
  apply bind_ok_inv in H as (y & s1 & H1 & H). case_bool_decide as Hne; [done|]. apply ret_inv in H1 as [_ ->]. split; [done|].
  apply bind_ok_inv in H as ([] & s2 & H2 & H).
  assert (forall fds t p t1 x t2, slot_upd t me p (nextpid t) t1 ->
    mfor fds (fun fd => let! p := get_proc me in
      if negb (p_ofile p fd =? 0) then in_files (f_close (p_ofile p fd)) ;; mod_proc me (with_ofile fd 0) else ret tt) t1 = Ok (x, t2) ->
    exists p', slot_upd t me p' (nextpid t) t2 /\ key p' = key p) as Hloop.
  { induction fds as [|fd fds IH]; intros t p t1 z t2 Ht Hm; cbn [mfor] in Hm; [apply ret_inv in Hm as [_ ->]; eauto|].
    apply bind_ok_inv in Hm as (z1 & t3 & Hm1 & Hm). apply bind_ok_inv in Hm1 as (q & t4 & [-> ->]%gets_inv & Hm1).
    destruct (negb _); [|apply ret_inv in Hm1 as [_ ->]; eauto]. apply bind_ok_inv in Hm1 as ([] & t4 & Hm1 & Hm2). slot_steps.
    destruct (IH _ _ _ _ _ Hm2 Hm) as (p' & Hp' & E). eauto. }
  destruct (Hloop _ _ _ _ _ _ (slot_refl s me) H2) as (p & Hs & E).
  apply bind_ok_inv in H as (q & t4 & [-> ->]%gets_inv & H). apply bind_ok_inv in H as ([] & s3 & H3 & H). slot_steps.
  eexists. split; [exact H|]. exact E.
Qed.

Lemma wait_scan_table xa me addr l : forall hk s r hk' s',
  wait_scan xa me addr l hk s = Ok ((r, hk'), s') ->
  match r with
  | None => s' = s /\ (forall c, c ∈ l -> p_parent (procs s c) = Some me -> p_state (procs s c) <> ZOMBIE) /\
      (hk' = true <-> hk = true \/ exists c, c ∈ l /\ p_parent (procs s c) = Some me)
  | Some v => exists c, c ∈ l /\ p_parent (procs s c) = Some me /\ p_state (procs s c) = ZOMBIE /\
      (v = -1 /\ slot_upd s c (procs s c) (nextpid s) s' \/
       v = p_pid (procs s c) /\ slot_upd s c (freed (procs s c)) (nextpid s) s')
  end.
Proof.
  induction l as [|c l IH]; intros hk s r hk' s' H; cbn [wait_scan] in H.
  { apply ret_inv in H as [[= -> ->] ->]. split_and!; [done|intros c Hc; by apply elem_of_nil in Hc|].
    split; [by left|]. intros [?|(c & Hc & _)]; [done|by apply elem_of_nil in Hc]. }
  apply bind_ok_inv in H as (x & t & [-> ->]%gets_inv & H). case_bool_decide as Hpar.
  - unfold procstate_eqb in H. case_bool_decide as Hz.
    + apply bind_ok_inv in H as (q & t & [-> ->]%gets_inv & H). apply bind_ok_inv in H as (bad & s1 & H1 & H).
      assert (slot_upd s c (procs s c) (nextpid s) s1) as Hs1.
      { pose proof (slot_refl s c) as Hs. destruct (negb _); [|by apply ret_inv in H1 as [_ ->]].
        apply bind_ok_inv in H1 as ([] & s2 & H2 & H1). apply bind_ok_inv in H1 as (rv & s3 & H3 & [_ ->]%ret_inv). by slot_steps. }
      destruct bad.
      * apply ret_inv in H as [[= -> ->] ->]. exists c. split_and!; [by left|done|done|]. by left.
      * apply bind_ok_inv in H as ([] & s2 & H2 & H). apply ret_inv in H as [[= -> ->] ->].
        exists c. split_and!; [by left|done|done|]. right. split; [done|]. by eapply freeproc_slot.
    + apply IH in H. destruct r as [v|].
      * destruct H as (k & Hk & H). exists k. split; [by right|done].
      * destruct H as (-> & H1 & H2). split_and!; [done|intros k [->|Hk]%elem_of_cons; auto|]. rewrite H2.
        split; [intros _; right; exists c; split; [by left|done]|by left].
  - apply IH in H. destruct r as [v|].
    + destruct H as (k & Hk & H). exists k. split; [by right|done].
    + destruct H as (-> & H1 & H2). split_and!; [done|intros k [->|Hk]%elem_of_cons; auto; done|]. rewrite H2.
      split; intros [?|(k & Hk & E)]; [by left|right; exists k; split; [by right|done]|by left|right].
      apply elem_of_cons in Hk as [->|Hk]; [done|]. by exists k.
Qed.
End Effects.

(** ** Steps *)

(** Where a process is: [InWait] when it sleeps in [wait]; in [exit] after closing its
    files, after waking init, and after reading [original_parent]. *)
Inductive ppc := Normal | InWait | ExitFiles | ExitWoken | ExitParent (q : option Z).

Section Table.
Context {L : Linker} {F : Type} {FO : Files F}.

Implicit Types (s : pst (F := F)).

(** The addresses of [Proc]; the slots of the table are at different addresses. *)
Context (fa : Z) (xa pa : Z -> Z).
Hypothesis pa_inj : forall i j, 0 <= i < NPROC -> 0 <= j < NPROC -> pa i = pa j -> i = j.

Record world := World { w_st : pst (F := F); w_pc : Z -> ppc }.

Definition pstate_of (w : world) (i : Z) : procstate := p_state (procs (w_st w) i).

Inductive tstep : world -> world -> Prop :=
| t_run s pc i s' :                                   (* the scheduler takes i *)
    0 <= i < NPROC -> p_state (procs s i) = RUNNABLE -> mod_proc i (with_state RUNNING) s = Ok (tt, s') ->
    tstep (World s pc) (World s' pc)
| t_yield s pc i s' :
    0 <= i < NPROC -> p_state (procs s i) = RUNNING -> yield_enter i s = Ok (tt, s') ->
    tstep (World s pc) (World s' pc)
| t_sleep s pc i chan s' :                            (* sleep on a channel that is not a proc *)
    0 <= i < NPROC -> p_state (procs s i) = RUNNING -> pc i <> InWait -> (forall j, 0 <= j < NPROC -> chan <> pa j) ->
    sleep_enter i chan s = Ok (tt, s') ->
    tstep (World s pc) (World s' pc)
| t_leave s pc i s' :                                 (* the end of sleep *)
    0 <= i < NPROC -> p_state (procs s i) = RUNNING -> sleep_leave i s = Ok (tt, s') ->
    tstep (World s pc) (World s' pc)
| t_wakeup s pc chan s' : wakeup chan s = Ok (tt, s') -> tstep (World s pc) (World s' pc)
| t_kill s pc pid r s' : kill pid s = Ok (r, s') -> tstep (World s pc) (World s' pc)
| t_grow s pc i n r s' :
    0 <= i < NPROC -> p_state (procs s i) = RUNNING -> pc i = Normal -> growproc i n s = Ok (r, s') ->
    tstep (World s pc) (World s' pc)
| t_fork s pc i r s' :                                (* as long as pids do not wrap around *)
    0 <= i < NPROC -> p_state (procs s i) = RUNNING -> pc i = Normal -> nextpid s < 2 ^ 31 - 1 ->
    fork fa i s = Ok (r, s') ->
    tstep (World s pc) (World s' pc)
| t_wait s pc i addr o s' :
    0 <= i < NPROC -> p_state (procs s i) = RUNNING -> pc i = Normal \/ pc i = InWait ->
    wait xa pa i addr s = Ok (o, s') ->
    tstep (World s pc) (World s' (upd pc i match o with Returns _ => Normal | Slept => InWait end))
| t_exit_files s pc i s' :
    0 <= i < NPROC -> p_state (procs s i) = RUNNING -> pc i = Normal -> exit_files i s = Ok (tt, s') ->
    tstep (World s pc) (World s' (upd pc i ExitFiles))
| t_exit_wake s pc i s' :
    0 <= i < NPROC -> p_state (procs s i) = RUNNING -> pc i = ExitFiles -> exit_wake_init pa s = Ok (tt, s') ->
    tstep (World s pc) (World s' (upd pc i ExitWoken))
| t_exit_parent s pc i :
    0 <= i < NPROC -> p_state (procs s i) = RUNNING -> pc i = ExitWoken ->
    tstep (World s pc) (World s (upd pc i (ExitParent (p_parent (procs s i)))))
| t_exit_zombie s pc i q status s' :
    0 <= i < NPROC -> p_state (procs s i) = RUNNING -> pc i = ExitParent q ->
    exit_zombie pa i q status s = Ok (tt, s') ->
    tstep (World s pc) (World s' (upd pc i Normal)).

Definition used (p : proc) : Prop := p_state p <> UNUSED.
Definition alive (p : proc) : Prop := p_state p <> UNUSED /\ p_state p <> ZOMBIE.

Definition exiting (c : ppc) : Prop := match c with Normal | InWait => False | _ => True end.

Record table_inv (i0 : Z) (w : world) : Prop := {
  ti_init : initproc (w_st w) = Some i0 /\ 0 <= i0 < NPROC /\ alive (procs (w_st w) i0) /\ p_parent (procs (w_st w) i0) = None;
  ti_next : 0 < nextpid (w_st w) < 2 ^ 31;
  ti_pid i : 0 <= i < NPROC -> 0 <= p_pid (procs (w_st w) i) < nextpid (w_st w) /\
    (used (procs (w_st w) i) -> p_pid (procs (w_st w) i) <> 0);
  ti_unique i j : 0 <= i < NPROC -> 0 <= j < NPROC -> i <> j -> p_pid (procs (w_st w) i) <> 0 ->
    p_pid (procs (w_st w) i) <> p_pid (procs (w_st w) j);
  ti_parent i q : 0 <= i < NPROC -> p_parent (procs (w_st w) i) = Some q ->
    used (procs (w_st w) i) /\ q <> i /\ 0 <= q < NPROC /\ alive (procs (w_st w) q);
  ti_orphan i : 0 <= i < NPROC -> used (procs (w_st w) i) -> i <> i0 -> is_Some (p_parent (procs (w_st w) i));
  ti_wait i c : 0 <= i < NPROC -> 0 <= c < NPROC -> i <> i0 -> p_state (procs (w_st w) i) = SLEEPING ->
    p_chan (procs (w_st w) i) = pa i -> p_parent (procs (w_st w) c) = Some i -> p_state (procs (w_st w) c) <> ZOMBIE;
  ti_exit i : 0 <= i < NPROC -> exiting (w_pc w i) -> alive (procs (w_st w) i) /\ i <> i0;
  ti_exit_parent i q : 0 <= i < NPROC -> w_pc w i = ExitParent q ->
    q = p_parent (procs (w_st w) i) \/ p_parent (procs (w_st w) i) = Some i0;
}.

(** ** Steps that keep the processes *)

Definition waiting (i : Z) (p : proc) : Prop := p_state p = SLEEPING /\ p_chan p = pa i.

(** The process of a slot is the same, in a state that means the same to others. *)
Record same_proc (i : Z) (p p' : proc) : Prop := {
  sp_parent : p_parent p' = p_parent p;
  sp_pid : p_pid p' = p_pid p;
  sp_unused : p_state p' = UNUSED <-> p_state p = UNUSED;
  sp_zombie : p_state p' = ZOMBIE <-> p_state p = ZOMBIE;
}.

Definition no_zombie (s : pst (F := F)) (i : Z) : Prop :=
  forall c, 0 <= c < NPROC -> p_parent (procs s c) = Some i -> p_state (procs s c) <> ZOMBIE.

Lemma inv_soft i0 s pc s' pc' :
  table_inv i0 (World s pc) ->
  (forall i, 0 <= i < NPROC -> same_proc i (procs s i) (procs s' i)) -> initproc s' = initproc s -> nextpid s' = nextpid s ->
  (forall i, 0 <= i < NPROC -> waiting i (procs s' i) -> waiting i (procs s i) \/ no_zombie s i) ->
  (forall i, 0 <= i < NPROC -> exiting (pc' i) -> exiting (pc i) \/ alive (procs s i) /\ i <> i0) ->
  (forall i q, 0 <= i < NPROC -> pc' i = ExitParent q -> pc i = ExitParent q \/ q = p_parent (procs s i)) ->
  table_inv i0 (World s' pc').
Proof.
  intros [(I1 & I2 & I3 & I4) I5 I6 I7 I8 I9 I10 I11 I12] Hsame Ei En Hw Hx Hq. cbn in *.
  assert (forall i, 0 <= i < NPROC -> used (procs s' i) <-> used (procs s i)) as Hus.
  { intros i Hi. unfold used. by rewrite (sp_unused _ _ _ (Hsame i Hi)). }
  assert (forall i, 0 <= i < NPROC -> alive (procs s' i) <-> alive (procs s i)) as Hal.
  { intros i Hi. unfold alive. by rewrite (sp_unused _ _ _ (Hsame i Hi)), (sp_zombie _ _ _ (Hsame i Hi)). }
  assert (forall i, 0 <= i < NPROC -> p_parent (procs s' i) = p_parent (procs s i)) as Hpa by (intros; by apply (sp_parent i), Hsame).
  assert (forall i, 0 <= i < NPROC -> p_pid (procs s' i) = p_pid (procs s i)) as Hpi by (intros; by apply (sp_pid i), Hsame).
  split; cbn; rewrite ?Ei, ?En; try done.
  - split; [done|]. split; [done|]. split; [by apply Hal|by rewrite Hpa].
  - intros i Hi. rewrite Hpi, Hus by done. by apply I6.
  - intros i j Hi Hj. rewrite !Hpi by done. by apply I7.
  - intros i q Hi. rewrite Hpa, Hus by done. intros Hpar. destruct (I8 i q Hi Hpar) as (? & ? & ? & ?). by rewrite Hal.
  - intros i Hi. rewrite Hpa, Hus by done. by apply I9.
  - intros i c Hi Hc Hne H1 H2. rewrite Hpa by done. intros H3 Hz. apply (sp_zombie _ _ _ (Hsame c Hc)) in Hz.
    destruct (Hw i Hi (conj H1 H2)) as [[H4 H5]|Hnz]; [by apply (I10 i c)|by apply (Hnz c)].
  - intros i Hi Hex. rewrite Hal by done. destruct (Hx i Hi Hex) as [Hp|Hp]; [by apply I11|done].
  - intros i q Hi Hpc. rewrite Hpa by done. destruct (Hq i q Hi Hpc) as [Hp|Hp]; [by apply I12|by left].
Qed.

(** The same for a step that changes one slot. *)
Lemma inv_slot i0 s pc i p s' pc' :
  table_inv i0 (World s pc) -> slot_upd s i p (nextpid s) s' -> 0 <= i < NPROC -> same_proc i (procs s i) p ->
  (waiting i p -> waiting i (procs s i) \/ no_zombie s i) ->
  (forall j, 0 <= j < NPROC -> exiting (pc' j) -> exiting (pc j) \/ alive (procs s j) /\ j <> i0) ->
  (forall j q, 0 <= j < NPROC -> pc' j = ExitParent q -> pc j = ExitParent q \/ q = p_parent (procs s j)) ->
  table_inv i0 (World s' pc').
Proof.
  intros Hinv [E1 E2 E3 E4] Hi Hsame Hw Hx Hq. eapply inv_soft; [exact Hinv|..]; try done.
  - intros j Hj. destruct (Z.eq_dec j i) as [->|Hne]; [by rewrite E1|]. by rewrite E2.
  - intros j Hj. destruct (Z.eq_dec j i) as [->|Hne]; [by rewrite E1|]. rewrite E2 by done. by left.
Qed.

Lemma key_same i p p' : key p' = key p -> same_proc i p p' /\ (waiting i p' -> waiting i p).
Proof. intros [= E1 E2 E3 E4 E5]. split; [split; rewrite ?E1; done|]. unfold waiting. by rewrite E1, E3. Qed.

Lemma woken_same chan i p : same_proc i p (woken chan p) /\ (waiting i (woken chan p) -> waiting i p /\ chan <> pa i).
Proof.
  unfold woken, procstate_eqb, waiting. case_bool_decide as Hs; cbn [andb].
  - destruct (Z.eqb_spec (p_chan p) chan); (split; [split; cbn; rewrite ?Hs; done|]); [cbn; by intros [? _]|].
    intros [_ E]. split; [done|congruence].
  - split; [by split|]. by intros [? ?].
Qed.

Lemma killed_same i p : same_proc i p (killed p) /\ (waiting i (killed p) -> waiting i p).
Proof.
  unfold killed, procstate_eqb, waiting. cbn [p_state with_killed]. case_bool_decide as Hs; cbn.
  - split; [split; cbn; rewrite ?Hs; done|]. by intros [? _].
  - split; [by split|]. by intros [? ?].
Qed.

(** A running process changes its state. *)
Lemma run_same i p st ch : p_state p = RUNNING \/ p_state p = RUNNABLE -> st <> UNUSED -> st <> ZOMBIE ->
  same_proc i p (with_state st (with_chan ch p)) /\ same_proc i p (with_state st p) /\ same_proc i p (with_chan ch p).
Proof. intros [E|E] H1 H2; split_and!; split; cbn; rewrite ?E; done. Qed.

(** ** A new process, the end of one *)

(** A slot that no process has as a parent and that is not in [exit]. *)
Lemma idle_slot i0 s pc j :
  table_inv i0 (World s pc) -> 0 <= j < NPROC -> ~ alive (procs s j) ->
  j <> i0 /\ (forall c, 0 <= c < NPROC -> p_parent (procs s c) <> Some j) /\ ~ exiting (pc j).
Proof.
  intros [(_ & _ & I3 & _) _ _ _ I8 _ _ I11 _] Hj Hna. cbn in *. split_and!.
  - by intros ->.
  - intros c Hc Hp. by destruct (I8 c j Hc Hp) as (_ & _ & _ & ?).
  - intros Hx. by destruct (I11 j Hj Hx).
Qed.

(** A slot without a living process gets the contents [p]. *)
Lemma inv_fill i0 s pc j p n s' :
  table_inv i0 (World s pc) -> 0 <= j < NPROC -> ~ alive (procs s j) -> slot_upd s j p n s' ->
  nextpid s <= n < 2 ^ 31 -> 0 <= p_pid p < n -> (used p -> p_pid p <> 0) ->
  (p_pid p <> 0 -> forall i, 0 <= i < NPROC -> i <> j -> p_pid (procs s i) <> p_pid p) ->
  p_state p <> ZOMBIE -> p_state p <> SLEEPING ->
  (p_state p = UNUSED /\ p_parent p = None \/
   used p /\ exists q, p_parent p = Some q /\ q <> j /\ 0 <= q < NPROC /\ alive (procs s q)) ->
  table_inv i0 (World s' pc).
Proof.
  intros Hinv Hj Hna [E1 E2 E3 E4] Hn Hpid Hpz Huniq Hnz Hns Hpar.
  destruct (idle_slot _ _ _ _ Hinv Hj Hna) as (Hji & Hkids & Hpc).
  destruct Hinv as [(I1 & I2 & I3 & I4) I5 I6 I7 I8 I9 I10 I11 I12]. cbn in *.
  split; cbn; rewrite ?E3, ?E4.
  - rewrite E2 by done. done.
  - lia.
  - intros i Hi. destruct (Z.eq_dec i j) as [->|Hne]; [by rewrite E1|]. rewrite E2 by done. destruct (I6 i Hi). split; [lia|done].
  - intros i k Hi Hk Hik. destruct (Z.eq_dec i j) as [->|Hne]; [|destruct (Z.eq_dec k j) as [->|Hne']].
    + rewrite E1, E2 by done. intros H E. by apply (Huniq H k).
    + rewrite E1, E2 by done. intros H E. apply (Huniq ltac:(congruence) i); done.
    + rewrite !E2 by done. by apply I7.
  - intros i q Hi. destruct (Z.eq_dec i j) as [->|Hne].
    + rewrite E1. intros Hp. destruct Hpar as [[_ ?]|(Hu & q' & Hq & Hqj & Hqr & Hqa)]; [congruence|].
      rewrite Hp in Hq. injection Hq as <-. rewrite E2 by done. done.
    + rewrite E2 by done. intros Hp. destruct (I8 i q Hi Hp) as (A1 & A2 & A3 & A4). rewrite E2; [done|]. intros ->. done.
  - intros i Hi Hu Hne. destruct (Z.eq_dec i j) as [->|Hij].
    + rewrite E1 in *. destruct Hpar as [[? _]|(_ & q & -> & _)]; [done|eauto].
    + rewrite E2 in * by done. by apply I9.
  - intros i c Hi Hc Hne. destruct (Z.eq_dec i j) as [->|Hij]; [rewrite E1; done|]. rewrite (E2 i) by done. intros H1 H2.
    destruct (Z.eq_dec c j) as [->|Hcj]; [rewrite E1; done|]. rewrite (E2 c) by done. by apply I10.
  - intros i Hi Hx. assert (i <> j) by (by intros ->). rewrite E2 by done. by apply I11.
  - intros i q Hi Hx. assert (i <> j) by (intros ->; apply Hpc; by rewrite Hx). rewrite E2 by done. by apply I12.
Qed.

Lemma fork_inv i0 s pc i r s' :
  table_inv i0 (World s pc) -> 0 <= i < NPROC -> p_state (procs s i) = RUNNING -> nextpid s < 2 ^ 31 - 1 ->
  fork fa i s = Ok (r, s') -> table_inv i0 (World s' pc).
Proof.
  intros Hinv Hi Hrun Hn H. pose proof (ti_next _ _ Hinv) as Hn0. cbn in Hn0.
  assert (forall j, find_unused (procs s) (upto NPROC) = Some j -> 0 <= j < NPROC /\ p_state (procs s j) = UNUSED /\
    ~ alive (procs s j) /\ j <> i) as Hfind.
  { intros j [Hj Hu]%find_unused_some. apply elem_of_upto in Hj. split_and!; [lia..|done|by intros [? _]|intros ->; congruence]. }
  assert (i32 (nextpid s + 1) = nextpid s + 1) as En by (apply i32_small; lia).
  assert (forall k, 0 <= k < NPROC -> p_pid (procs s k) <> nextpid s) as Hfresh.
  { intros k Hk. destruct (ti_pid _ _ Hinv k Hk) as [? _]. cbn in *. lia. }
  apply fork_slot in H as [(-> & [->|(j & p & Hj & Hs & H1 & H2 & H3)])|(j & p & Hj & -> & Hs & E)]; [done|..];
    rewrite En in Hs; apply Hfind in Hj as (Hjr & Hju & Hna & Hji).
  - assert (p_parent (procs s j) = None) as Hp.
    { destruct (p_parent (procs s j)) as [q|] eqn:Eq; [|done]. by destruct (ti_parent _ _ Hinv j q Hjr Eq). }
    eapply inv_fill; [exact Hinv|exact Hjr|exact Hna|exact Hs|lia|..].
    + destruct H3 as [->| ->]; lia.
    + by intros [].
    + intros Hnz k Hk _. destruct H3 as [?| ->]; [done|]. by apply Hfresh.
    + by rewrite H1.
    + by rewrite H1.
    + left. split; [done|]. destruct H2 as [?|?]; congruence.
  - unfold key in E. injection E as E1 E2 E3 E4 E5.
    eapply inv_fill; [exact Hinv|exact Hjr|exact Hna|exact Hs|lia|rewrite E5; lia|rewrite E5; lia| |by rewrite E1|by rewrite E1|].
    + intros _ k Hk _. rewrite E5. by apply Hfresh.
    + right. split; [unfold used; by rewrite E1|]. exists i. split_and!; [done|done|lia..|unfold alive; rewrite Hrun; done].
Qed.

(** [wait] frees a zombie child. *)
Lemma reap_inv i0 s pc c s' :
  table_inv i0 (World s pc) -> 0 <= c < NPROC -> p_state (procs s c) = ZOMBIE ->
  slot_upd s c (freed (procs s c)) (nextpid s) s' -> table_inv i0 (World s' pc).
Proof.
  intros Hinv Hc Hz Hs. pose proof (ti_next _ _ Hinv) as Hn. cbn in Hn.
  eapply inv_fill; [exact Hinv|exact Hc|by intros []|exact Hs|lia|cbn; lia|by intros []|done|done|done|]. by left.
Qed.

(** The table after the last part of [exit]. *)
Definition zombied (me : Z) (q i0 : option Z) (status j : Z) (p : proc) : proc :=
  let p := reparented me i0 p in
  let p := if bool_decide (Some j = q) then woken (pa j) p else p in
  if bool_decide (j = me) then with_state ZOMBIE (with_xstate status p) else p.

Lemma exit_zombie_table me q status (s s' : pst (F := F)) :
  exit_zombie pa me q status s = Ok (tt, s') ->
  is_Some q /\ initproc s' = initproc s /\ nextpid s' = nextpid s /\
  forall j, 0 <= j < NPROC -> procs s' j = zombied me q (initproc s) status j (procs s j).
Proof.
  unfold exit_zombie. intros H. apply bind_ok_inv in H as ([] & s1 & H1 & H). apply reparent_table in H1 as [R1 R2 R3].
  apply bind_ok_inv in H as ([] & s2 & H2 & H). destruct q as [q|]; [|done]. apply wakeup1_slot in H2 as [W1 W2 W3 W4].
  apply bind_ok_inv in H as ([] & s3 & H3 & H). pose proof (slot_refl s2 me) as Hs. slot_steps. destruct H as [Z1 Z2 Z3 Z4].
  split; [done|]. split; [congruence|]. split; [congruence|]. intros j Hj. unfold zombied.
  assert (procs s1 j = reparented me (initproc s) (procs s j)) as Ej by (rewrite R1, bool_decide_eq_true_2; [done|by apply elem_of_upto]).
  assert (procs s2 j = if bool_decide (Some j = Some q) then woken (pa j) (procs s1 j) else procs s1 j) as Ew.
  { case_bool_decide as E; [injection E as ->; done|]. apply W2. congruence. }
  rewrite <- Ej, <- Ew. destruct (decide (j = me)) as [->|Hjm].
  - by rewrite (bool_decide_eq_true_2 (me = me)), Z1.
  - by rewrite (bool_decide_eq_false_2 (j = me)), Z2.
Qed.

Lemma reparented_parent me ip p q :
  p_parent (reparented me ip p) = Some q -> p_parent p = Some q /\ q <> me \/ p_parent p = Some me /\ ip = Some q.
Proof.
  unfold reparented. case_bool_decide as E; cbn; [by right|]. intros Hq. left. split; [done|]. by intros ->.
Qed.

Lemma reparented_fields me ip p :
  p_state (reparented me ip p) = p_state p /\ p_pid (reparented me ip p) = p_pid p /\
  p_chan (reparented me ip p) = p_chan p.
Proof. unfold reparented. by case_bool_decide. Qed.

(** The fields of the table after [exit]. *)
Lemma zombied_fields me q ip status j p :
  let p' := zombied me q ip status j p in
  p_pid p' = p_pid p /\ p_parent p' = p_parent (reparented me ip p) /\
  (j = me -> p_state p' = ZOMBIE) /\
  (j <> me -> (p_state p' = UNUSED <-> p_state p = UNUSED) /\ (p_state p' = ZOMBIE <-> p_state p = ZOMBIE) /\
    (waiting j p' -> waiting j p /\ Some j <> q)).
Proof.
  intros p'. unfold p', zombied. destruct (reparented_fields me ip p) as (F1 & F2 & F3). set (r := reparented me ip p) in *.
  destruct (woken_same (pa j) j r) as [[W1 W2 W3 W4] W5].
  set (r' := if bool_decide (Some j = q) then _ else _).
  assert (p_pid r' = p_pid p /\ p_parent r' = p_parent r /\ (p_state r' = UNUSED <-> p_state p = UNUSED) /\
    (p_state r' = ZOMBIE <-> p_state p = ZOMBIE) /\ (waiting j r' -> waiting j p /\ Some j <> q)) as (G1 & G2 & G3 & G4 & G5).
  { unfold r'. case_bool_decide as Hq; rewrite ?W1, ?W2, ?W3, ?W4, ?F1, ?F2; split_and!; try done.
    - intros Hw. by apply W5 in Hw as [_ ?].
    - unfold waiting. by rewrite F1, F3. }
  case_bool_decide as Hj; (split_and!; [done|done|done|]); done.
Qed.

Lemma exit_zombie_inv i0 s pc i q status s' :
  table_inv i0 (World s pc) -> 0 <= i < NPROC -> p_state (procs s i) = RUNNING -> pc i = ExitParent q ->
  exit_zombie pa i q status s = Ok (tt, s') -> table_inv i0 (World s' (upd pc i Normal)).
Proof.
  intros Hinv Hi Hrun Hpc H. apply exit_zombie_table in H as (_ & Ei & En & Hj).
  destruct Hinv as [(I1 & I2 & I3 & I4) I5 I6 I7 I8 I9 I10 I11 I12]. cbn in *. rewrite I1 in *.
  destruct (I11 i Hi ltac:(by rewrite Hpc)) as [_ Hne0].
  assert (forall j, 0 <= j < NPROC -> let p' := procs s' j in
    p_pid p' = p_pid (procs s j) /\ p_parent p' = p_parent (reparented i (Some i0) (procs s j)) /\
    (j = i -> p_state p' = ZOMBIE) /\
    (j <> i -> (p_state p' = UNUSED <-> p_state (procs s j) = UNUSED) /\ (p_state p' = ZOMBIE <-> p_state (procs s j) = ZOMBIE) /\
      (waiting j p' -> waiting j (procs s j) /\ Some j <> q))) as Hf.
  { intros j Hjr. cbn zeta. rewrite (Hj j Hjr). apply zombied_fields. }
  assert (forall j, 0 <= j < NPROC -> j <> i -> alive (procs s' j) <-> alive (procs s j)) as Hal.
  { intros j Hjr Hji. destruct (Hf j Hjr) as (_ & _ & _ & H). destruct (H Hji) as (A & B & _). unfold alive. by rewrite A, B. }
  assert (forall j, 0 <= j < NPROC -> used (procs s' j) <-> used (procs s j)) as Hus.
  { intros j Hjr. destruct (Hf j Hjr) as (_ & _ & Hz & H). unfold used. destruct (Z.eq_dec j i) as [->|Hji].
    - rewrite Hz, Hrun by done. done.
    - destruct (H Hji) as (A & _). by rewrite A. }
  assert (forall j, 0 <= j < NPROC -> p_pid (procs s' j) = p_pid (procs s j)) as Hpid by (intros j Hjr; apply Hf, Hjr).
  assert (forall j, 0 <= j < NPROC -> p_parent (procs s' j) = p_parent (reparented i (Some i0) (procs s j))) as Hpar
    by (intros j Hjr; apply Hf, Hjr).
  assert (forall j k, 0 <= j < NPROC -> p_parent (procs s' j) = Some k -> p_parent (procs s j) = Some k /\ k <> i \/
    p_parent (procs s j) = Some i /\ k = i0) as Hpk.
  { intros j k Hjr. rewrite Hpar by done. intros [?|[? [= ->]]]%reparented_parent; auto. }
  split; cbn; rewrite ?Ei, ?En; try done.
  - split; [done|]. split; [done|]. split; [by apply Hal|]. rewrite Hpar by done. unfold reparented. by rewrite I4.
  - intros j Hjr. rewrite Hpid, Hus by done. by apply I6.
  - intros j k Hjr Hkr. rewrite !Hpid by done. by apply I7.
  - intros j k Hjr Hk. rewrite Hus by done. destruct (Hpk j k Hjr Hk) as [[Hk' Hki]|[Hk' ->]].
    + destruct (I8 j k Hjr Hk') as (A1 & A2 & A3 & A4). split_and!; [done|done|lia..|by apply Hal].
    + destruct (I8 j i Hjr Hk') as (A1 & A2 & A3 & A4). split_and!; [done| |lia..|by apply Hal]. intros ->. congruence.
  - intros j Hjr. rewrite Hus, Hpar by done. intros Hu Hj0. destruct (I9 j Hjr Hu Hj0) as [k Hk]. unfold reparented.
    case_bool_decide; cbn; [done|by rewrite Hk].
  - intros j c Hjr Hcr Hj0 Hsl Hch Hpc'. destruct (Z.eq_dec j i) as [->|Hji].
    { exfalso. destruct (Hf i Hi) as (_ & _ & Hz & _). rewrite Hz in Hsl by done. done. }
    destruct (Hpk c j Hcr Hpc') as [[Hcp _]|[_ ->]]; [|done].
    destruct (Hf j Hjr) as (_ & _ & _ & Hw). destruct (Hw Hji) as (_ & _ & Hwj). destruct (Hwj (conj Hsl Hch)) as [[W1 W2] Hq].
    destruct (Z.eq_dec c i) as [->|Hci].
    + destruct (I12 i q Hi Hpc) as [E|E]; [congruence|]. rewrite Hcp in E. congruence.
    + destruct (Hf c Hcr) as (_ & _ & _ & Hc). destruct (Hc Hci) as (_ & B & _). rewrite B. by apply (I10 j c).
  - intros j Hjr. unfold upd. destruct (Z.eqb_spec j i) as [->|Hji]; [done|]. intros Hx. rewrite Hal by done. by apply I11.
  - intros j k Hjr. unfold upd. destruct (Z.eqb_spec j i) as [->|Hji]; [done|]. intros Hx.
    destruct (I12 j k Hjr Hx) as [->|E]; rewrite Hpar by done; unfold reparented; case_bool_decide as Hb; cbn; auto.
Qed.

(** What a step of [wait] does: it reaps a zombie child, fails, or goes to sleep on its own
    address having seen no zombie child. *)
Lemma wait_table i addr s o s' : wait xa pa i addr s = Ok (o, s') ->
  (exists c, 0 <= c < NPROC /\ p_parent (procs s c) = Some i /\ p_state (procs s c) = ZOMBIE /\
    (o = Returns (-1) /\ slot_upd s c (procs s c) (nextpid s) s' \/
     o = Returns (p_pid (procs s c)) /\ slot_upd s c (freed (procs s c)) (nextpid s) s')) \/
  o = Returns (-1) /\ s' = s \/
  o = Slept /\ no_zombie s i /\ p_killed (procs s i) = false /\
    (exists c, 0 <= c < NPROC /\ p_parent (procs s c) = Some i) /\
    slot_upd s i (with_state SLEEPING (with_chan (pa i) (procs s i))) (nextpid s) s'.
Proof.
  unfold wait. intros H. apply bind_ok_inv in H as ([r hk] & s1 & H1 & H). apply wait_scan_table in H1. destruct r as [v|].
  - apply ret_inv in H as [-> ->]. left. destruct H1 as (c & Hc%elem_of_upto & Hpar & Hz & Hr). exists c.
    split_and!; [lia..|done|done|]. destruct Hr as [[-> ?]|[-> ?]]; auto.
  - right. destruct H1 as (-> & Hnz & Hk). apply bind_ok_inv in H as (p & t & [-> ->]%gets_inv & H).
    destruct hk; cbn [negb orb] in H; [|apply ret_inv in H as [-> ->]; by left].
    destruct (p_killed (procs s i)) eqn:Hkl; [apply ret_inv in H as [-> ->]; by left|]. right.
    apply bind_ok_inv in H as ([] & s2 & H2 & [-> ->]%ret_inv). unfold sleep_enter in H2.
    apply bind_ok_inv in H2 as ([] & s3 & H2 & H3). pose proof (slot_refl s i) as Hs. slot_steps.
    split; [done|]. split; [intros c Hc; apply Hnz; by apply elem_of_upto|]. split; [done|]. split; [|done].
    destruct Hk as [Hk _]. destruct (Hk eq_refl) as [?|(c & Hc%elem_of_upto & Hp)]; [done|]. by exists c.
Qed.

Lemma pc_normal i0 s pc i : table_inv i0 (World s pc) -> table_inv i0 (World s (upd pc i Normal)).
Proof.
  intros [I1 I2 I3 I4 I5 I6 I7 I8 I9]. cbn in *. split; cbn; try done; [intros j Hj|intros j q Hj]; unfold upd;
    (destruct (j =? i); [done|auto]).
Qed.

(** A step of [wait]. *)
Lemma wait_inv i0 s pc i addr o s' :
  table_inv i0 (World s pc) -> 0 <= i < NPROC -> p_state (procs s i) = RUNNING -> ~ exiting (pc i) ->
  wait xa pa i addr s = Ok (o, s') ->
  table_inv i0 (World s' (upd pc i match o with Returns _ => Normal | Slept => InWait end)).
Proof.
  intros Hinv Hi Hrun Hpc H. apply wait_table in H as [(c & Hc & Hpar & Hz & [[-> Hs]|[-> Hs]])|[[-> ->]|(-> & Hnz & _ & _ & Hs)]].
  - apply pc_normal. eapply inv_slot; [exact Hinv|exact Hs|done|by split|by left|by left|by left].
  - apply pc_normal. by eapply reap_inv.
  - by apply pc_normal.
  - eapply inv_slot; [exact Hinv|exact Hs|done|apply run_same; [by left|done|done]|by right| |]; unfold upd.
    + intros j Hj. destruct (j =? i); [done|by left].
    + intros j q Hj. destruct (j =? i); [done|by left].
Qed.

Lemma wakeup_inv i0 s pc s' f :
  table_inv i0 (World s pc) -> all_upd s f (upto NPROC) s' ->
  (forall i p, same_proc i p (f i p) /\ (waiting i (f i p) -> waiting i p)) -> table_inv i0 (World s' pc).
Proof.
  intros Hinv [E1 E2 E3] Hf. eapply inv_soft; [exact Hinv|..|by left|by left]; try done.
  - intros i Hi. rewrite E1, bool_decide_eq_true_2 by (by apply elem_of_upto). apply Hf.
  - intros i Hi. rewrite E1, bool_decide_eq_true_2 by (by apply elem_of_upto). left. by apply Hf.
Qed.

Lemma tstep_inv i0 w w' : table_inv i0 w -> tstep w w' -> table_inv i0 w'.
Proof.
  intros Hinv Hst. destruct Hst as [s pc i s' Hi Hst Hr|s pc i s' Hi Hst Hr|s pc i ch s' Hi Hst Hpc Hch Hr|s pc i s' Hi Hst Hr|
    s pc ch s' Hr|s pc pid r s' Hr|s pc i n r s' Hi Hst Hpc Hr|s pc i r s' Hi Hst Hpc Hn Hr|s pc i addr o s' Hi Hst Hpc Hr|
    s pc i s' Hi Hst Hpc Hr|s pc i s' Hi Hst Hpc Hr|s pc i Hi Hst Hpc|s pc i q st s' Hi Hst Hpc Hr].
  - pose proof (slot_refl s i) as Hs. slot_steps.
    eapply inv_slot; [exact Hinv|exact Hr|done|apply (run_same _ _ _ 0); [by right|done|done]|by intros []|by left|by left].
  - pose proof (slot_refl s i) as Hs. unfold yield_enter in Hr. slot_steps.
    eapply inv_slot; [exact Hinv|exact Hr|done|apply (run_same _ _ _ 0); [by left|done|done]|by intros []|by left|by left].
  - unfold sleep_enter in Hr. apply bind_ok_inv in Hr as ([] & s1 & H1 & H2). pose proof (slot_refl s i) as Hs. slot_steps.
    eapply inv_slot; [exact Hinv|exact H2|done|apply run_same; [by left|done|done]| |by left|by left].
    intros [_ E]. cbn in E. by destruct (Hch i Hi).
  - pose proof (slot_refl s i) as Hs. unfold sleep_leave in Hr. slot_steps.
    eapply inv_slot; [exact Hinv|exact Hr|done|apply (run_same _ _ RUNNING); [by left|done|done]| |by left|by left].
    intros [E _]. cbn in E. congruence.
  - apply wakeup_table in Hr. eapply wakeup_inv; [exact Hinv|exact Hr|]. intros i p.
    destruct (woken_same ch i p) as [H1 H2]. split; [done|]. by intros [? _]%H2.
  - unfold kill in Hr. apply kill_table in Hr as [(_ & -> & _)|(_ & i & Hi%elem_of_upto & _ & Hs)]; [done|].
    destruct (killed_same i (procs s i)) as [H1 H2]. eapply inv_slot; [exact Hinv|exact Hs|done|done| |by left|by left]. intros; left; auto.
  - apply growproc_slot in Hr as (p & Hs & E). destruct (key_same i _ _ E) as [H1 H2].
    eapply inv_slot; [exact Hinv|exact Hs|done|done| |by left|by left]. intros; left; auto.
  - by eapply fork_inv.
  - eapply wait_inv; [exact Hinv|done|done| |exact Hr]. destruct Hpc as [-> | ->]; by intros [].
  - apply exit_files_slot in Hr as (Hne & p & Hs & E). destruct (key_same i _ _ E) as [H1 H2].
    assert (i <> i0) as Hi0 by (intros ->; apply Hne; apply Hinv).
    eapply inv_slot; [exact Hinv|exact Hs|done|done|intros; left; auto| |]; unfold upd.
    + intros j Hj. destruct (Z.eqb_spec j i) as [->|]; [|by left]. right. split; [unfold alive; by rewrite Hst|done].
    + intros j q Hj. destruct (j =? i); [done|by left].
  - unfold exit_wake_init in Hr. apply bind_ok_inv in Hr as (ip & t & [-> ->]%gets_inv & Hr).
    destruct (ti_init _ _ Hinv) as (E & H0 & _). cbn in E. rewrite E in Hr. apply wakeup1_slot in Hr.
    destruct (woken_same (pa i0) i0 (procs s i0)) as [H1 H2].
    eapply inv_slot; [exact Hinv|exact Hr|done|done|intros; left; by apply H2| |]; unfold upd.
    + intros j Hj. destruct (Z.eqb_spec j i) as [->|]; [left; by rewrite Hpc|by left].
    + intros j q Hj. destruct (j =? i); [done|by left].
  - eapply inv_soft; [exact Hinv|by split|done|done|by left| |]; unfold upd.
    + intros j Hj. destruct (Z.eqb_spec j i) as [->|]; [left; by rewrite Hpc|by left].
    + intros j q Hj. destruct (Z.eqb_spec j i) as [->|]; [|by left]. intros [= <-]. by right.
  - by eapply exit_zombie_inv.
Qed.

Lemma table_reach i0 w0 w : table_inv i0 w0 -> rtc tstep w0 w -> table_inv i0 w.
Proof. intros Hi Hr. induction Hr as [|w1 w2 w3 Hst _ IH]; [done|]. apply IH. by eapply tstep_inv. Qed.
End Table.
