(* ===== verification/Blocks.v ===== *)
(** * What the file system needs of the layers below it

    [kernel/fs.c] sees the disk through [bread], [bp->data], [log_write] and [brelse].
    [Blocks] names them and [BlocksOk] states their effect inside a transaction on an
    abstract one: the contents of the blocks, the blocks the log has taken and the
    buffers that the process holds.  [LogBlocks] gives the instance of the log over the
    buffer cache; [flat_blocks] is a small one to run the file system on. *)

From S2P Require Import Prelude Riscv Cache.

Record atx := ATx {
  t_view : Z -> block;      (* the contents of the blocks *)
  t_base : Z -> block;      (* the contents at the last commit *)
  t_logged : gset Z;
  t_held : gmap Z Z;        (* locked buffer to its block number *)
  t_cap : Z;                (* the blocks that the log can take *)
  t_home : Z -> bool;       (* the blocks outside the log *)
}.

Definition t_hold (i b : Z) (a : atx) : atx :=
  ATx (t_view a) (t_base a) (t_logged a) (<[i:=b]> (t_held a)) (t_cap a) (t_home a).
Definition t_drop (i : Z) (a : atx) : atx :=
  ATx (t_view a) (t_base a) (t_logged a) (delete i (t_held a)) (t_cap a) (t_home a).
Definition t_set (b : Z) (d : block) (a : atx) : atx :=
  ATx (upd (t_view a) b d) (t_base a) (t_logged a) (t_held a) (t_cap a) (t_home a).
Definition t_log (b : Z) (a : atx) : atx :=
  ATx (t_view a) (t_base a) ({[b]} ∪ t_logged a) (t_held a) (t_cap a) (t_home a).

(** A buffer for [b] can be had. *)
Definition t_room (a : atx) (b : Z) : Prop :=
  b ∈ t_logged a \/ Z.of_nat (size (t_logged a)) + Z.of_nat (size (t_held a)) < NBUF.

Class Blocks (S : Type) := {
  k_dev : Z;
  k_bread : Z -> Z -> M S Z;
  k_data : S -> Z -> block;
  k_set : Z -> block -> M S unit;
  k_log_write : Z -> M S unit;
  k_brelse : Z -> M S unit;
  k_initlog : Z -> Z -> Z -> M S unit;   (* device, logstart and nlog of the superblock *)
  k_rep : S -> atx -> Prop;
}.

Class BlocksOk (S : Type) {K : Blocks S} := {
  k_bread_ok s a b : k_rep s a -> 0 <= b < 2 ^ 31 -> (forall i, t_held a !! i <> Some b) -> t_room a b ->
    exists i s', k_bread k_dev b s = Ok (i, s') /\ t_held a !! i = None /\ k_rep s' (t_hold i b a);
  k_data_ok s a i b : k_rep s a -> t_held a !! i = Some b -> k_data s i = t_view a b;
  k_set_ok s a i b d : k_rep s a -> t_held a !! i = Some b ->
    exists s', k_set i d s = Ok (tt, s') /\ k_rep s' (t_set b d a);
  k_log_ok s a i b : k_rep s a -> t_held a !! i = Some b -> Z.of_nat (size (t_logged a)) < t_cap a -> t_home a b = true ->
    exists s', k_log_write i s = Ok (tt, s') /\ k_rep s' (t_log b a);
  k_brelse_ok s a i b : k_rep s a -> t_held a !! i = Some b -> b ∈ t_logged a \/ t_view a b = t_base a b ->
    exists s', k_brelse i s = Ok (tt, s') /\ k_rep s' (t_drop i a);
}.

(** [begin_op] and [end_op]: [k_depth] is the number of operations that are open, which
    nothing else changes. *)
Class Txn (S : Type) := {
  k_begin_op : M S unit;
  k_end_op : M S unit;
  k_depth : S -> Z;
}.

Class TxnOk (S : Type) {K : Blocks S} {X : Txn S} := {
  k_begin_depth s x s' : k_begin_op s = Ok (x, s') -> k_depth s' = k_depth s + 1;
  k_end_depth s x s' : k_end_op s = Ok (x, s') -> k_depth s' = k_depth s - 1;
  k_bread_depth dev b s i s' : k_bread dev b s = Ok (i, s') -> k_depth s' = k_depth s;
  k_set_depth i d s x s' : k_set i d s = Ok (x, s') -> k_depth s' = k_depth s;
  k_log_depth i s x s' : k_log_write i s = Ok (x, s') -> k_depth s' = k_depth s;
  k_brelse_depth i s x s' : k_brelse i s = Ok (x, s') -> k_depth s' = k_depth s;
}.

(** ** Blocks in memory, with no log

    The buffer of a block has the number of the block. *)

Record flat_disk := FlatDisk { fd_blocks : Z -> block; fd_base : Z -> block; fd_held : gmap Z Z; fd_logged : gset Z; fd_ops : Z }.

#[export] Instance flat_blocks : Blocks flat_disk := {|
  k_dev := ROOTDEV;
  k_bread := fun _ b s =>
    match fd_held s !! b with
    | Some _ => Blocked
    | None => Ok (b, FlatDisk (fd_blocks s) (fd_base s) (<[b:=b]> (fd_held s)) (fd_logged s) (fd_ops s))
    end;
  k_data := fun s i => fd_blocks s i;
  k_set := fun i d => modify (fun s => FlatDisk (upd (fd_blocks s) i d) (fd_base s) (fd_held s) (fd_logged s) (fd_ops s));
  k_log_write := fun i => modify (fun s => FlatDisk (fd_blocks s) (fd_base s) (fd_held s) ({[i]} ∪ fd_logged s) (fd_ops s));
  k_brelse := fun i => modify (fun s => FlatDisk (fd_blocks s) (fd_base s) (delete i (fd_held s)) (fd_logged s) (fd_ops s));
  k_initlog := fun _ _ _ => ret tt;
  k_rep := fun s a => t_view a = fd_blocks s /\ t_base a = fd_base s /\ t_held a = fd_held s /\ t_logged a = fd_logged s /\
    (forall i b, fd_held s !! i = Some b -> i = b);
|}.

#[export] Instance flat_blocks_ok : BlocksOk flat_disk.
Proof.
  split; cbn.
  - intros s a b (E1 & E2 & E3 & E4 & Hh) _ Hn _. rewrite E3 in *. exists b.
    destruct (fd_held s !! b) as [c|] eqn:E; [by rewrite <- (Hh b c E) in E; destruct (Hn b)|].
    eexists. split_and!; [done|done|..]; cbn; rewrite ?E3; try done. intros i c. rewrite lookup_insert_Some. naive_solver.
  - intros s a i b (-> & _ & E3 & _ & Hh) Hi. rewrite E3 in Hi. by rewrite (Hh i b Hi).
  - intros s a i b d (E1 & E2 & E3 & E4 & Hh) Hi. rewrite E3 in Hi. rewrite <- (Hh i b Hi). eexists. split; [done|].
    cbn. rewrite E1. split_and!; done.
  - intros s a i b (E1 & E2 & E3 & E4 & Hh) Hi _ _. rewrite E3 in Hi. rewrite <- (Hh i b Hi). eexists. split; [done|].
    cbn. rewrite E4. split_and!; done.
  - intros s a i b (E1 & E2 & E3 & E4 & Hh) Hi _. eexists. split; [done|]. cbn. rewrite E3. split_and!; [done..|].
    intros j c. rewrite lookup_delete_Some. naive_solver.
Qed.

(** An operation ends with everything committed. *)
#[export] Instance flat_txn : Txn flat_disk := {|
  k_begin_op := modify (fun s => FlatDisk (fd_blocks s) (fd_base s) (fd_held s) (fd_logged s) (fd_ops s + 1));
  k_end_op := modify (fun s => FlatDisk (fd_blocks s) (fd_blocks s) (fd_held s) ∅ (fd_ops s - 1));
  k_depth := fd_ops;
|}.

#[export] Instance flat_txn_ok : TxnOk flat_disk.
Proof.
  split; try (intros *; by intros [= <- <-]).
  intros dev b s i s'. cbn. destruct (fd_held s !! b); [done|]. by intros [= <- <-].
Qed.
