(* ===== verification/Fs.v ===== *)
(** * The file system, [kernel/fs.c]

    The code runs over any block layer with the interface of [Blocks].  A pointer to an
    entry of [icache.inode] is its index counted from 1, and 0 is the null pointer.
    Structures on the disk are read and written at their offsets in the bytes of a
    block.  [readi] and [writei] take [either_copyout] and [either_copyin] as an
    argument, over the memory they copy to or from.  Code under [icache.lock] is one
    step, and waiting for the lock of an inode is [Blocked].

    [FsSpec], [FsFile] and [FsDir] have the theorems. *)

From S2P Require Import Prelude Bytes Riscv Cache Blocks.

(** ** [kernel/fs.h], [kernel/stat.h] *)

Definition ROOTINO : Z := 1.
Definition FSMAGIC : Z := 0x10203040.
Definition NDIRECT : Z := 12.
Definition NINDIRECT : Z := BSIZE / 4.
Definition MAXFILE : Z := NDIRECT + NINDIRECT.
Definition DIRSIZ : Z := 14.

Definition T_DIR : Z := 1.
Definition T_FILE : Z := 2.
Definition T_DEVICE : Z := 3.

Record superblock := Superblock {
  sb_magic : Z; sb_size : Z; sb_nblocks : Z; sb_ninodes : Z;
  sb_nlog : Z; sb_logstart : Z; sb_inodestart : Z; sb_bmapstart : Z;
}.

(** [memmove] of the block to [sb] *)
Definition sb_of (d : block) : superblock :=
  Superblock (get_le d 0 4) (get_le d 4 4) (get_le d 8 4) (get_le d 12 4)
    (get_le d 16 4) (get_le d 20 4) (get_le d 24 4) (get_le d 28 4).

(** The low 16 bits as a [short]. *)
Definition i16 (z : Z) : Z := (z + 2 ^ 15) mod 2 ^ 16 - 2 ^ 15.

(** [struct dinode]: four [short]s, the size and the block addresses. *)
Definition dinode_size : Z := 64.
Definition IPB : Z := BSIZE / dinode_size.

Record dinode := Dinode { di_type : Z; di_major : Z; di_minor : Z; di_nlink : Z; di_size : Z; di_addrs : list Z }.

Definition naddrs : list Z := upto (NDIRECT + 1).

(** The [k]th [struct dinode] of a block, and the assignments to its fields. *)
Definition get_dinode (d : block) (k : Z) : dinode :=
  let o := dinode_size * k in
  Dinode (i16 (get_le d o 2)) (i16 (get_le d (o + 2) 2)) (i16 (get_le d (o + 4) 2)) (i16 (get_le d (o + 6) 2))
    (get_le d (o + 8) 4) ((fun j => get_le d (o + 12 + 4 * j) 4) <$> naddrs).

Definition put_dinode (d : block) (k : Z) (x : dinode) : block :=
  let o := dinode_size * k in
  splice d o (le_put 2 (di_type x) ++ le_put 2 (di_major x) ++ le_put 2 (di_minor x) ++ le_put 2 (di_nlink x) ++
    le_put 4 (di_size x) ++ concat (le_put 4 <$> di_addrs x)).

Definition IBLOCK (i : Z) (sb : superblock) : Z := u32 (i / IPB + sb_inodestart sb).
Definition BPB : Z := BSIZE * 8.
Definition BBLOCK (b : Z) (sb : superblock) : Z := u32 (b / BPB + sb_bmapstart sb).

(** [struct dirent] *)
Definition dirent_size : Z := 16.
Definition de_inum (de : list Z) : Z := get_le de 0 2.
Definition de_name (de : list Z) : list Z := sub de 2 DIRSIZ.

(** ** The state *)

Record islock := Islock { il_locked : bool; il_pid : Z }.

Record inode := Inode {
  i_dev : Z; i_inum : Z; i_ref : Z; i_lock : islock; i_valid : bool; i_di : dinode;
}.

Definition i_type (x : inode) : Z := di_type (i_di x).
Definition i_nlink (x : inode) : Z := di_nlink (i_di x).
Definition i_size (x : inode) : Z := di_size (i_di x).
Definition i_addr (x : inode) (k : Z) : Z := nth (Z.to_nat k) (di_addrs (i_di x)) 0.

Definition set_di v (x : inode) := Inode (i_dev x) (i_inum x) (i_ref x) (i_lock x) (i_valid x) v.
Definition set_ref v (x : inode) := Inode (i_dev x) (i_inum x) v (i_lock x) (i_valid x) (i_di x).
Definition set_lock v (x : inode) := Inode (i_dev x) (i_inum x) (i_ref x) v (i_valid x) (i_di x).
Definition set_valid v (x : inode) := Inode (i_dev x) (i_inum x) (i_ref x) (i_lock x) v (i_di x).
Definition with_type v (x : dinode) := Dinode v (di_major x) (di_minor x) (di_nlink x) (di_size x) (di_addrs x).
Definition with_majmin j n (x : dinode) := Dinode (di_type x) j n (di_nlink x) (di_size x) (di_addrs x).
Definition with_nlink v (x : dinode) := Dinode (di_type x) (di_major x) (di_minor x) v (di_size x) (di_addrs x).
Definition with_size v (x : dinode) := Dinode (di_type x) (di_major x) (di_minor x) (di_nlink x) v (di_addrs x).
Definition with_addr k v (x : dinode) :=
  Dinode (di_type x) (di_major x) (di_minor x) (di_nlink x) (di_size x) (<[Z.to_nat k := v]> (di_addrs x)).

Section Fs.
Context {S : Type} {K : Blocks S}.

(** [myproc()->pid] *)
Variable me : Z.

Record fs := Fs { f_sb : superblock; f_icache : Z -> inode; f_blk : S }.

Definition blk {A} (m : M S A) : M fs A := zoom f_blk (fun x s => Fs (f_sb s) (f_icache s) x) m.
Definition get_inode (ip : Z) : M fs inode := gets (fun s => f_icache s ip).
Definition mod_inode (ip : Z) (f : inode -> inode) : M fs unit :=
  modify (fun s => Fs (f_sb s) (upd (f_icache s) ip (f (f_icache s ip))) (f_blk s)).
Definition mod_di (ip : Z) (f : dinode -> dinode) : M fs unit := mod_inode ip (fun x => set_di (f (i_di x)) x).
Definition data (bp : Z) : M fs block := blk (gets (fun s => k_data s bp)).

Definition icache_ptrs : list Z := (fun i => i + 1) <$> upto NINODE.

(** ** Blocks *)

Definition readsb (dev : Z) : M fs unit :=
  let! bp := blk (k_bread (u32 dev) 1) in
  let! d := data bp in
  modify (fun s => Fs (sb_of d) (f_icache s) (f_blk s)) ;;
  blk (k_brelse bp).

Definition fsinit (dev : Z) : M fs unit :=
  readsb dev ;;
  let! sb := gets f_sb in
  panic_if (negb (sb_magic sb =? FSMAGIC)) "invalid file system" ;;
  blk (k_initlog dev (sb_logstart sb) (sb_nlog sb)).

Definition bzero (dev bno : Z) : M fs unit :=
  let! bp := blk (k_bread (u32 dev) (u32 bno)) in
  blk (k_set bp (replicate (Z.to_nat BSIZE) 0)) ;;
  blk (k_log_write bp) ;;
  blk (k_brelse bp).

Definition byte_at (d : block) (k : Z) : Z := nth (Z.to_nat k) d 0.
Definition set_byte (d : block) (k v : Z) : block := <[Z.to_nat k := u8 v]> d.

(** [b] counts up to [sb.size] in steps of [BPB] (a size below 2^31, as [b] is an
    [int]). *)
Definition balloc (dev : Z) : M fs Z :=
  let! sb := gets f_sb in
  let! r := msearch (Z.mul BPB <$> upto ((sb_size sb + BPB - 1) / BPB)) (fun b =>
    let! bp := blk (k_bread dev (BBLOCK b sb)) in
    let! r := msearch (upto (Z.min BPB (sb_size sb - b))) (fun bi =>
      let m := Z.shiftl 1 (bi mod 8) in
      let! d := data bp in
      if Z.land (byte_at d (bi / 8)) m =? 0 then
        blk (k_set bp (set_byte d (bi / 8) (Z.lor (byte_at d (bi / 8)) m))) ;;
        blk (k_log_write bp) ;;
        blk (k_brelse bp) ;;
        bzero dev (b + bi) ;;
        ret (Some (b + bi))
      else ret None) in
    match r with
    | Some x => ret (Some x)
    | None => blk (k_brelse bp) ;; ret None
    end) in
  match r with
  | Some x => ret (u32 x)
  | None => panic "balloc: out of blocks"
  end.

Definition bfree (dev b : Z) : M fs unit :=
  let! sb := gets f_sb in
  let! bp := blk (k_bread (u32 dev) (BBLOCK b sb)) in
  let bi := b mod BPB in
  let m := Z.shiftl 1 (bi mod 8) in
  let! d := data bp in
  panic_if (Z.land (byte_at d (bi / 8)) m =? 0) "freeing free block" ;;
  blk (k_set bp (set_byte d (bi / 8) (Z.land (byte_at d (bi / 8)) (Z.lnot m)))) ;;
  blk (k_log_write bp) ;;
  blk (k_brelse bp).

(** ** The inode cache *)

Definition iinit : M fs unit :=
  mfor icache_ptrs (fun ip => mod_inode ip (set_lock (Islock false 0))).

(** The entry of [inum], or the first empty entry, or nothing. *)
Fixpoint iget_scan (c : Z -> inode) (dev inum : Z) (ps : list Z) (empty : Z) : Z + Z :=
  match ps with
  | [] => inr empty
  | ip :: ps' =>
      let x := c ip in
      if (0 <? i_ref x) && (i_dev x =? dev) && (i_inum x =? inum) then inl ip
      else iget_scan c dev inum ps' (if (empty =? 0) && (i_ref x =? 0) then ip else empty)
  end.

Definition iget (dev inum : Z) : M fs Z :=
  let! r := gets (fun s => iget_scan (f_icache s) dev inum icache_ptrs 0) in
  match r with
  | inl ip => mod_inode ip (fun x => set_ref (i32 (i_ref x + 1)) x) ;; ret ip
  | inr empty =>
      panic_if (empty =? 0) "iget: no inodes" ;;
      mod_inode empty (fun x => Inode dev inum 1 (i_lock x) false (i_di x)) ;;
      ret empty
  end.

Definition ialloc (dev type : Z) : M fs Z :=
  let! sb := gets f_sb in
  let! r := msearch (tail (upto (sb_ninodes sb))) (fun inum =>
    let! bp := blk (k_bread dev (IBLOCK inum sb)) in
    let! d := data bp in
    if di_type (get_dinode d (inum mod IPB)) =? 0 then
      blk (k_set bp (put_dinode d (inum mod IPB) (Dinode type 0 0 0 0 (replicate (Z.to_nat (NDIRECT + 1)) 0)))) ;;
      blk (k_log_write bp) ;;
      blk (k_brelse bp) ;;
      let! ip := iget dev inum in
      ret (Some ip)
    else
      blk (k_brelse bp) ;;
      ret None) in
  match r with
  | Some ip => ret ip
  | None => panic "ialloc: no inodes"
  end.

Definition iupdate (ip : Z) : M fs unit :=
  let! sb := gets f_sb in
  let! x := get_inode ip in
  let! bp := blk (k_bread (i_dev x) (IBLOCK (i_inum x) sb)) in
  let! d := data bp in
  blk (k_set bp (put_dinode d (i_inum x mod IPB) (i_di x))) ;;
  blk (k_log_write bp) ;;
  blk (k_brelse bp).

Definition idup (ip : Z) : M fs Z :=
  mod_inode ip (fun x => set_ref (i32 (i_ref x + 1)) x) ;;
  ret ip.

(** [acquiresleep], [releasesleep] and [holdingsleep] of [ip->lock]. *)
Definition lock_inode (ip : Z) : M fs unit :=
  let! x := get_inode ip in
  if il_locked (i_lock x) then blocked else mod_inode ip (set_lock (Islock true me)).
Definition unlock_inode (ip : Z) : M fs unit := mod_inode ip (set_lock (Islock false 0)).
Definition holds_inode (x : inode) : bool := il_locked (i_lock x) && (il_pid (i_lock x) =? me).

Definition ilock (ip : Z) : M fs unit :=
  let! x := get_inode ip in
  panic_if ((ip =? 0) || (i_ref x <? 1)) "ilock" ;;
  lock_inode ip ;;
  if i_valid x then ret tt
  else
    let! sb := gets f_sb in
    let! bp := blk (k_bread (i_dev x) (IBLOCK (i_inum x) sb)) in
    let! d := data bp in
    mod_inode ip (set_di (get_dinode d (i_inum x mod IPB))) ;;
    blk (k_brelse bp) ;;
    mod_inode ip (set_valid true) ;;
    panic_if (di_type (get_dinode d (i_inum x mod IPB)) =? 0) "ilock: no type".

Definition iunlock (ip : Z) : M fs unit :=
  let! x := get_inode ip in
  panic_if ((ip =? 0) || negb (holds_inode x) || (i_ref x <? 1)) "iunlock" ;;
  unlock_inode ip.

(** ** Inode content *)

Definition bmap (ip bn : Z) : M fs Z :=
  let! x := get_inode ip in
  if bn <? NDIRECT then
    if i_addr x bn =? 0 then
      let! addr := balloc (i_dev x) in
      mod_di ip (with_addr bn addr) ;;
      ret addr
    else ret (i_addr x bn)
  else
    let bn := bn - NDIRECT in
    if bn <? NINDIRECT then
      let! addr :=
        (if i_addr x NDIRECT =? 0 then
           let! addr := balloc (i_dev x) in
           mod_di ip (with_addr NDIRECT addr) ;;
           ret addr
         else ret (i_addr x NDIRECT)) in
      let! bp := blk (k_bread (i_dev x) addr) in
      let! d := data bp in
      let! addr :=
        (if get_le d (4 * bn) 4 =? 0 then
           let! addr := balloc (i_dev x) in
           let! d := data bp in
           blk (k_set bp (put_le d (4 * bn) 4 addr)) ;;
           blk (k_log_write bp) ;;
           ret addr
         else ret (get_le d (4 * bn) 4)) in
      blk (k_brelse bp) ;;
      ret addr
    else panic "bmap: out of range".

Definition itrunc (ip : Z) : M fs unit :=
  mfor (upto NDIRECT) (fun i =>
    let! x := get_inode ip in
    if negb (i_addr x i =? 0) then
      bfree (i_dev x) (i_addr x i) ;;
      mod_di ip (with_addr i 0)
    else ret tt) ;;
  let! x := get_inode ip in
  (if negb (i_addr x NDIRECT =? 0) then
     let! bp := blk (k_bread (i_dev x) (i_addr x NDIRECT)) in
     mfor (upto NINDIRECT) (fun j =>
       let! d := data bp in
       if negb (get_le d (4 * j) 4 =? 0) then bfree (i_dev x) (get_le d (4 * j) 4) else ret tt) ;;
     blk (k_brelse bp) ;;
     bfree (i_dev x) (i_addr x NDIRECT) ;;
     mod_di ip (with_addr NDIRECT 0)
   else ret tt) ;;
  mod_di ip (with_size 0) ;;
  iupdate ip.

Definition iput (ip : Z) : M fs unit :=
  let! x := get_inode ip in
  (if (i_ref x =? 1) && i_valid x && (i_nlink x =? 0) then
     lock_inode ip ;;
     itrunc ip ;;
     mod_di ip (with_type 0) ;;
     iupdate ip ;;
     mod_inode ip (set_valid false) ;;
     unlock_inode ip
   else ret tt) ;;
  mod_inode ip (fun x => set_ref (i32 (i_ref x - 1)) x).

Definition iunlockput (ip : Z) : M fs unit :=
  iunlock ip ;;
  iput ip.

(** [struct stat] *)
Record stat := Stat { st_dev : Z; st_ino : Z; st_type : Z; st_nlink : Z; st_size : Z }.

Definition stati (ip : Z) : M fs stat :=
  let! x := get_inode ip in
  ret (Stat (i32 (i_dev x)) (i_inum x) (i_type x) (i_nlink x) (i_size x)).

(** [readi] and [writei] with the memory [T] of [either_copyout] and [either_copyin]:
    [out dst bs] stores the bytes [bs] at [dst]; [inp old src] reads as many bytes as
    [old] has from [src] over the bytes [old], and both return -1 on failure. *)
Section Content.
Context {T : Type} (out : Z -> list Z -> M T Z) (inp : list Z -> Z -> M T (Z * list Z)).

Definition in_fs {A} (m : M fs A) : M (fs * T) A := zoom fst (fun x s => (x, snd s)) m.
Definition in_mem {A} (m : M T A) : M (fs * T) A := zoom snd (fun x s => (fst s, x)) m.

(** At most [n / BSIZE + 2] blocks are touched. *)
Definition io_fuel (n : Z) : nat := Z.to_nat (n / BSIZE + 2).

Fixpoint readi_loop (fuel : nat) (ip dst off n tot : Z) : M (fs * T) Z :=
  if tot <? n then
    match fuel with
    | O => nofuel
    | Datatypes.S fuel =>
        let! addr := in_fs (bmap ip (off / BSIZE)) in
        let! x := in_fs (get_inode ip) in
        let! bp := in_fs (blk (k_bread (i_dev x) addr)) in
        let m := Z.min (n - tot) (BSIZE - off mod BSIZE) in
        let! d := in_fs (data bp) in
        let! r := in_mem (out dst (sub d (off mod BSIZE) m)) in
        in_fs (blk (k_brelse bp)) ;;
        if r =? -1 then ret tot
        else readi_loop fuel ip (u64 (dst + m)) (u32 (off + m)) n (u32 (tot + m))
    end
  else ret tot.

Definition readi (ip dst off n : Z) : M (fs * T) Z :=
  let! x := in_fs (get_inode ip) in
  if (i_size x <? off) || (u32 (off + n) <? off) then ret 0
  else
    let n := if i_size x <? u32 (off + n) then u32 (i_size x - off) else n in
    let! tot := readi_loop (io_fuel n) ip dst off n 0 in
    ret (i32 tot).

(** Returns the last value of [off]. *)
Fixpoint writei_loop (fuel : nat) (ip src off n tot : Z) : M (fs * T) Z :=
  if tot <? n then
    match fuel with
    | O => nofuel
    | Datatypes.S fuel =>
        let! addr := in_fs (bmap ip (off / BSIZE)) in
        let! x := in_fs (get_inode ip) in
        let! bp := in_fs (blk (k_bread (i_dev x) addr)) in
        let m := Z.min (n - tot) (BSIZE - off mod BSIZE) in
        let! d := in_fs (data bp) in
        let! r := in_mem (inp (sub d (off mod BSIZE) m) src) in
        in_fs (blk (k_set bp (splice d (off mod BSIZE) (snd r)))) ;;
        if fst r =? -1 then
          in_fs (blk (k_brelse bp)) ;;
          ret off
        else
          in_fs (blk (k_log_write bp)) ;;
          in_fs (blk (k_brelse bp)) ;;
          writei_loop fuel ip (u64 (src + m)) (u32 (off + m)) n (u32 (tot + m))
    end
  else ret off.

Definition writei (ip src off n : Z) : M (fs * T) Z :=
  let! x := in_fs (get_inode ip) in
  if (i_size x <? off) || (u32 (off + n) <? off) then ret (-1)
  else if MAXFILE * BSIZE <? u32 (off + n) then ret (-1)
  else
    let! off := writei_loop (io_fuel n) ip src off n 0 in
    (if 0 <? n then
       let! x := in_fs (get_inode ip) in
       (if i_size x <? off then in_fs (mod_di ip (with_size off)) else ret tt) ;;
       in_fs (iupdate ip)
     else ret tt) ;;
    ret (i32 n).
End Content.

(** [either_copyout(0, ...)] and [either_copyin(..., 0, ...)] on a buffer of the
    kernel, as [readi] and [writei] use them. *)
Definition buf_out (dst : Z) (bs : list Z) : M (list Z) Z := modify (fun b => splice b dst bs) ;; ret 0.
Definition buf_in (old : list Z) (src : Z) : M (list Z) (Z * list Z) :=
  gets (fun b => (0, sub b src (zlen old))).

(** Run code with a local buffer. *)
Definition local {T A} (t : T) (m : M (fs * T) A) : M fs (A * T) := fun s =>
  match m (s, t) with
  | Ok (a, (s', t')) => Ok ((a, t'), s')
  | Panic e => Panic e
  | Blocked => Blocked
  | NoFuel => NoFuel
  end.

(** ** Directories *)

(** [strncmp(s, t, n)] on arrays. *)
Fixpoint strncmp_list (s t : list Z) (n : nat) : Z :=
  match n with
  | O => 0
  | Datatypes.S k =>
      let c := default 0 (head s) in
      let d := default 0 (head t) in
      if negb (c =? 0) && (c =? d) then strncmp_list (tail s) (tail t) k else c - d
  end.

Definition namecmp (s t : list Z) : Z := strncmp_list s t (Z.to_nat DIRSIZ).

(** [strncpy(s, t, n)] into an array of [n] bytes. *)
Fixpoint strncpy_list (t : list Z) (n : nat) : list Z :=
  match n with
  | O => []
  | Datatypes.S k =>
      let c := default 0 (head t) in
      if c =? 0 then replicate n 0 else c :: strncpy_list (tail t) k
  end.

(** The offsets of the entries of a directory of [size] bytes. *)
Definition dir_offs (size : Z) : list Z := Z.mul dirent_size <$> upto ((size + dirent_size - 1) / dirent_size).

(** [readi] of one entry. *)
Definition read_dirent (dp off : Z) (msg : string) : M fs (list Z) :=
  let! r := local (replicate (Z.to_nat dirent_size) 0) (readi buf_out dp 0 off dirent_size) in
  panic_if (negb (fst r =? dirent_size)) msg ;;
  ret (snd r).

(** The inode, or 0, and the offset of its entry. *)
Definition dirlookup (dp : Z) (name : list Z) : M fs (Z * Z) :=
  let! x := get_inode dp in
  panic_if (negb (i_type x =? T_DIR)) "dirlookup not DIR" ;;
  let! r := msearch (dir_offs (i_size x)) (fun off =>
    let! de := read_dirent dp off "dirlookup read" in
    if de_inum de =? 0 then ret None
    else if namecmp name (de_name de) =? 0 then
      let! ip := iget (i_dev x) (de_inum de) in
      ret (Some (ip, off))
    else ret None) in
  ret (default (0, 0) r).

(** The offset of the first free entry of a directory, its size if there is none. *)
Definition free_dirent (dp : Z) : M fs Z :=
  let! x := get_inode dp in
  let! r := msearch (dir_offs (i_size x)) (fun off =>
    let! de := read_dirent dp off "dirlink read" in
    ret (if de_inum de =? 0 then Some off else None)) in
  ret (default (dirent_size * ((i_size x + dirent_size - 1) / dirent_size)) r).

Definition dirlink (dp : Z) (name : list Z) (inum : Z) : M fs Z :=
  let! r := dirlookup dp name in
  if negb (fst r =? 0) then
    iput (fst r) ;;
    ret (-1)
  else
    let! off := free_dirent dp in
    let de := le_put 2 inum ++ strncpy_list name (Z.to_nat DIRSIZ) in
    let! r := local de (writei buf_in dp 0 off dirent_size) in
    panic_if (negb (fst r =? dirent_size)) "dirlink" ;;
    ret 0.

(** ** Paths

    A path is its characters up to the terminating NUL. *)

Definition slash : Z := 47.

Fixpoint skip_slashes (path : list Z) : list Z :=
  match path with
  | c :: rest => if c =? slash then skip_slashes rest else path
  | [] => []
  end.

(** The characters before the next slash, and the rest. *)
Fixpoint path_elem (path : list Z) : list Z * list Z :=
  match path with
  | c :: rest => if c =? slash then ([], path) else let (e, r) := path_elem rest in (c :: e, r)
  | [] => ([], [])
  end.

(** The new path and the new contents of [name], [None] for a null pointer. *)
Definition skipelem (path name : list Z) : option (list Z * list Z) :=
  match skip_slashes path with
  | [] => None
  | s =>
      let (e, rest) := path_elem s in
      let name' := if DIRSIZ <=? zlen e then splice name 0 (take (Z.to_nat DIRSIZ) e) else splice name 0 (e ++ [0]) in
      Some (skip_slashes rest, name')
  end.

(** The loop of [namex]; it returns the inode, or 0, and [name]. *)
Fixpoint namex_loop (fuel : nat) (ip : Z) (path : list Z) (nameiparent : bool) (name : list Z) : M fs (Z * list Z) :=
  match skipelem path name with
  | None =>
      if nameiparent then iput ip ;; ret (0, name)
      else ret (ip, name)
  | Some (path, name) =>
      match fuel with
      | O => nofuel
      | Datatypes.S fuel =>
          ilock ip ;;
          let! x := get_inode ip in
          if negb (i_type x =? T_DIR) then iunlockput ip ;; ret (0, name)
          else if nameiparent && bool_decide (path = []) then iunlock ip ;; ret (ip, name)
          else
            let! next := dirlookup ip name in
            if fst next =? 0 then iunlockput ip ;; ret (0, name)
            else
              iunlockput ip ;;
              namex_loop fuel (fst next) path nameiparent name
      end
  end.

(** [cwd] is [myproc()->cwd]. *)
Definition namex (cwd : Z) (path : list Z) (nameiparent : bool) (name : list Z) : M fs (Z * list Z) :=
  let! ip := (if bool_decide (head path = Some slash) then iget ROOTDEV ROOTINO else idup cwd) in
  namex_loop (length path) ip path nameiparent name.

Definition namei (cwd : Z) (path : list Z) : M fs Z :=
  let! r := namex cwd path false (replicate (Z.to_nat DIRSIZ) 0) in
  ret (fst r).

Definition nameiparent (cwd : Z) (path name : list Z) : M fs (Z * list Z) := namex cwd path true name.
End Fs.
