(* ===== verification/FsSpec.v ===== *)
(** * Blocks and inodes of the file system

    The block allocator against the bitmap, the inodes on the disk against [dinode]s,
    and the inode cache.  The lemmas give the abstract transaction after each
    operation; [room] is the space that the log and the buffer cache must have. *)

From S2P Require Import Prelude Bytes Riscv Cache Blocks Fs.

(** ** Runs over the block layer *)

(** Block [b] modified and logged. *)
Definition t_upd (b : Z) (d : block) (a : atx) : atx :=
  ATx (upd (t_view a) b d) (t_base a) ({[b]} ∪ t_logged a) (t_held a) (t_cap a) (t_home a).

(** Space for [n] more blocks in the log besides those of [X], and [h] more buffers. *)
Record room (X : gset Z) (n h : Z) (a : atx) : Prop := {
  rm_n : 0 <= n;
  rm_h : 0 <= h;
  rm_cap : Z.of_nat (size (X ∪ t_logged a)) + n < t_cap a;
  rm_buf : Z.of_nat (size (X ∪ t_logged a)) + n + Z.of_nat (size (t_held a)) + h <= NBUF;
}.

Lemma size_logged X a : Z.of_nat (size (t_logged a)) <= Z.of_nat (size (X ∪ t_logged a)).
Proof. apply Nat2Z.inj_le, subseteq_size. set_solver. Qed.

Lemma room_le X n h n' h' a : room X n h a -> 0 <= n' <= n -> 0 <= h' <= h -> room X n' h' a.
Proof. intros [? ? ? ?] ? ?. split; lia. Qed.

Lemma room_hold X n h i b a : room X n (h + 1) a -> 0 <= h -> room X n h (t_hold i b a).
Proof.
  intros [H1 H2 H3 H4] Hh. split; cbn; [lia..|].
  destruct (decide (is_Some (t_held a !! i))) as [Hs|Hn].
  - rewrite map_size_insert_Some by done. lia.
  - rewrite map_size_insert_None by (by apply eq_None_not_Some). lia.
Qed.

Lemma room_upd_in X n h b d a : b ∈ X -> room X n h a -> room X n h (t_upd b d a).
Proof.
  intros Hb [H1 H2 H3 H4]. assert (X ∪ ({[b]} ∪ t_logged a) = X ∪ t_logged a) as E by set_solver.
  split; cbn; rewrite ?E; lia.
Qed.

Lemma room_upd X n h b d a : room X (n + 1) h a -> 0 <= n -> room X n h (t_upd b d a).
Proof.
  intros [H1 H2 H3 H4] Hn.
  assert (Z.of_nat (size (X ∪ ({[b]} ∪ t_logged a))) <= Z.of_nat (size (X ∪ t_logged a)) + 1) as E.
  { assert (size (X ∪ ({[b]} ∪ t_logged a)) <= size ({[b]} ∪ (X ∪ t_logged a)))%nat by (apply subseteq_size; set_solver).
    destruct (decide (b ∈ X ∪ t_logged a)) as [Hb|Hb].
    - replace ({[b]} ∪ (X ∪ t_logged a)) with (X ∪ t_logged a) in * by set_solver. lia.
    - rewrite (size_union {[b]}), size_singleton in H by set_solver. lia. }
  split; cbn; lia.
Qed.

(** A block in the log already costs nothing. *)
Lemma room_upd_logged X n h b d a : b ∈ t_logged a -> room X n h a -> room X n h (t_upd b d a).
Proof.
  intros Hb [H1 H2 H3 H4]. assert ({[b]} ∪ t_logged a = t_logged a) as E by set_solver. split; cbn; rewrite ?E; lia.
Qed.

Lemma room_widen X n h b a : room X (n + 1) h a -> 0 <= n -> room ({[b]} ∪ X) n h a.
Proof.
  intros Hr Hn. destruct (room_upd X n h b [] a Hr Hn) as [H1 H2 H3 H4]. cbn in H3, H4.
  assert (X ∪ ({[b]} ∪ t_logged a) = {[b]} ∪ X ∪ t_logged a) as E by set_solver. rewrite E in *. by split.
Qed.

Lemma room_widen_logged X n h b a : b ∈ t_logged a -> room X n h a -> room ({[b]} ∪ X) n h a.
Proof.
  intros Hb [H1 H2 H3 H4]. assert ({[b]} ∪ X ∪ t_logged a = X ∪ t_logged a) as E by set_solver. split; cbn; rewrite ?E; lia.
Qed.

Lemma room_t_room X n h a b : room X n h a -> 1 <= h -> t_room a b.
Proof. intros [H1 H2 H3 H4] Hh. right. pose proof (size_logged X a). lia. Qed.

Lemma hold_drop i b a : t_held a !! i = None -> t_drop i (t_hold i b a) = a.
Proof. intros H. destruct a. unfold t_drop, t_hold. cbn in *. by rewrite delete_insert_id by done. Qed.

Lemma upd_drop i b d a : t_held a !! i = None -> t_drop i (t_log b (t_set b d (t_hold i b a))) = t_upd b d a.
Proof. intros H. destruct a. unfold t_drop, t_hold, t_set, t_log, t_upd. cbn in *. by rewrite delete_insert_id by done. Qed.

(** Blocks that are not in the log are as at the last commit. *)
Definition tidy (a : atx) : Prop := forall b, b ∈ t_logged a \/ t_view a b = t_base a b.

Lemma tidy_upd b d a : tidy a -> tidy (t_upd b d a).
Proof.
  intros Ht c. cbn. unfold upd. destruct (Z.eqb_spec c b) as [->|]; [left; set_solver|]. destruct (Ht c); [left; set_solver|by right].
Qed.

Section Runs.
Context {S : Type} {K : Blocks S} {KOk : BlocksOk S}.
Implicit Types (x : S) (a : atx) (sb : superblock) (ic : Z -> inode).

Definition brep x a : Prop := k_rep x a /\ tidy a.

Lemma blk_run {A} (m : M S A) sb ic x r x' : m x = Ok (r, x') -> blk m (Fs sb ic x) = Ok (r, Fs sb ic x').
Proof. intros H. unfold blk. by erewrite zoom_ok by exact H. Qed.

Lemma data_run sb ic x a i b : brep x a -> t_held a !! i = Some b -> data i (Fs sb ic x) = Ok (t_view a b, Fs sb ic x).
Proof. intros [Hr _] Hi. apply blk_run. unfold gets. by rewrite (k_data_ok _ _ _ _ Hr Hi). Qed.

Lemma bread_run sb ic x a b X n h : brep x a -> 0 <= b < 2 ^ 31 -> (forall i, t_held a !! i <> Some b) -> room X n h a -> 1 <= h ->
  exists i x', blk (k_bread k_dev b) (Fs sb ic x) = Ok (i, Fs sb ic x') /\ t_held a !! i = None /\ brep x' (t_hold i b a).
Proof.
  intros [Hr Ht] Hb Hn Hroom Hh. destruct (k_bread_ok x a b Hr Hb Hn (room_t_room _ _ _ _ _ Hroom Hh)) as (i & x' & H1 & H2 & H3).
  exists i, x'. split_and!; [by apply blk_run|done|by split].
Qed.

(** A block that was only read. *)
Lemma drop_run sb ic x a i b : brep x (t_hold i b a) -> t_held a !! i = None ->
  exists x', blk (k_brelse i) (Fs sb ic x) = Ok (tt, Fs sb ic x') /\ brep x' a.
Proof.
  intros [Hr Ht] Hi. destruct (k_brelse_ok _ _ i b Hr) as (x' & H1 & R1); [apply lookup_insert_eq|apply Ht|].
  exists x'. rewrite hold_drop in R1 by done. split; [by apply blk_run|by split].
Qed.

(** A block that was modified. *)
Lemma finish_run sb ic x a i b d X n h : brep x (t_hold i b a) -> t_held a !! i = None -> room X n h a -> t_home a b = true ->
  exists x1 x2 x3, blk (k_set i d) (Fs sb ic x) = Ok (tt, Fs sb ic x1) /\
    blk (k_log_write i) (Fs sb ic x1) = Ok (tt, Fs sb ic x2) /\
    blk (k_brelse i) (Fs sb ic x2) = Ok (tt, Fs sb ic x3) /\ brep x3 (t_upd b d a).
Proof.
  intros [Hr Ht] Hi Hroom Hhome. pose proof (lookup_insert_eq (t_held a) i b) as Hh.
  destruct (k_set_ok _ _ i b d Hr Hh) as (x1 & H1 & R1).
  destruct (k_log_ok _ _ i b R1 Hh) as (x2 & H2 & R2); [|done|].
  { cbn. destruct Hroom. pose proof (size_logged X a). lia. }
  destruct (k_brelse_ok _ _ i b R2 Hh) as (x3 & H3 & R3); [left; cbn; set_solver|].
  rewrite upd_drop in R3 by done. exists x1, x2, x3. split_and!; [by apply blk_run..|split; [done|by apply tidy_upd]].
Qed.

Lemma bzero_ok sb ic x a b X n h : brep x a -> 0 <= b < 2 ^ 31 -> (forall i, t_held a !! i <> Some b) -> room X n h a -> 1 <= h ->
  t_home a b = true -> u32 k_dev = k_dev ->
  exists x', bzero k_dev b (Fs sb ic x) = Ok (tt, Fs sb ic x') /\ brep x' (t_upd b (replicate 1024 0) a).
Proof.
  intros Hr Hb Hn Hroom Hh Hhome Hd. destruct (bread_run sb ic x a b X n h) as (i & x0 & H0 & Hi & R0); try done.
  destruct (finish_run sb ic x0 a i b (replicate 1024 0) X n h) as (x1 & x2 & x3 & H1 & H2 & H3 & R3); try done.
  exists x3. split; [|done]. unfold bzero. rewrite Hd, u32_small by lia. mstep H0. mstep H1. mstep H2. exact H3.
Qed.
End Runs.

(** ** The bitmap *)

(** The blocks from the inodes on, and the bitmap among them. *)
Definition fs_block sb (b : Z) : Prop := sb_inodestart sb <= b < sb_size sb.
Definition bitmap_block sb (b : Z) : Prop := sb_bmapstart sb <= b < sb_bmapstart sb + (sb_size sb + BPB - 1) / BPB.

(** The layout that [mkfs] makes. *)
Record wf_sb (sb : superblock) : Prop := {
  ws_inodes : 0 < sb_ninodes sb < 2 ^ 31;
  ws_start : 1 < sb_inodestart sb;
  ws_bmap : sb_inodestart sb + (sb_ninodes sb + IPB - 1) / IPB <= sb_bmapstart sb;
  ws_size : sb_bmapstart sb + (sb_size sb + BPB - 1) / BPB <= sb_size sb < 2 ^ 31;
}.

Definition wf_view (v : Z -> block) : Prop := forall b, length (v b) = 1024%nat /\ bytes (v b).

(** [dlia] with the values of the constants. *)
Ltac fsconst := unfold bitmap_block, fs_block in *; change IPB with 16 in *; change BPB with 8192 in *;
  change BSIZE with 1024 in *; change dinode_size with 64 in *; change NDIRECT with 12 in *; change NINDIRECT with 256 in *.
Ltac fslia := fsconst; dlia.

(** Whether block [b] is in use, and a bitmap block with its bit set or cleared. *)
Definition bit (v : Z -> block) sb (b : Z) : bool := Z.testbit (byte_at (v (BBLOCK b sb)) (b mod BPB / 8)) (b mod 8).
Definition set_bit (d : block) (b : Z) : block :=
  set_byte d (b mod BPB / 8) (Z.lor (byte_at d (b mod BPB / 8)) (Z.shiftl 1 (b mod BPB mod 8))).
Definition clear_bit (d : block) (b : Z) : block :=
  set_byte d (b mod BPB / 8) (Z.land (byte_at d (b mod BPB / 8)) (Z.lnot (Z.shiftl 1 (b mod BPB mod 8)))).

Lemma land_bit y k : 0 <= k -> (Z.land y (Z.shiftl 1 k) =? 0) = negb (Z.testbit y k).
Proof.
  intros Hk. destruct (Z.testbit y k) eqn:E; cbn.
  - apply Z.eqb_neq. intros H. apply (f_equal (fun z => Z.testbit z k)) in H.
    rewrite Z.land_spec, Z.shiftl_spec, E, Z.sub_diag, Z.bits_0 in H by lia. done.
  - apply Z.eqb_eq, Z.bits_inj'. intros j Hj. rewrite Z.land_spec, Z.shiftl_spec, Z.bits_0 by lia.
    destruct (Z.eq_dec j k) as [->|Hne]; [by rewrite E|].
    replace (Z.testbit 1 (j - k)) with false; [by rewrite andb_false_r|].
    destruct (Z.lt_ge_cases (j - k) 0); [by rewrite Z.testbit_neg_r by lia|].
    symmetry. apply (testbit_high 1 1); lia.
Qed.

Lemma byte_set d j k v : 0 <= j < zlen d -> 0 <= k < zlen d -> byte_at (set_byte d k v) j = if j =? k then u8 v else byte_at d j.
Proof.
  intros Hj Hk. unfold byte_at, set_byte. rewrite !nth_lookup. destruct (Z.eqb_spec j k) as [->|Hne].
  - by rewrite list_lookup_insert_eq by lia.
  - by rewrite list_lookup_insert_ne by lia.
Qed.

Lemma bytes_set_byte d k v : bytes d -> bytes (set_byte d k v).
Proof. intros H. apply Forall_insert; [done|]. apply u8_bound. Qed.

Lemma length_set_byte d k v : length (set_byte d k v) = length d.
Proof. apply length_insert. Qed.

Lemma testbit_one j k : 0 <= j -> 0 <= k -> Z.testbit (Z.shiftl 1 k) j = (j =? k).
Proof.
  intros Hj Hk. rewrite Z.shiftl_spec by done. destruct (Z.eqb_spec j k) as [->|Hne]; [by rewrite Z.sub_diag|].
  destruct (Z.lt_ge_cases (j - k) 0); [by rewrite Z.testbit_neg_r by lia|]. apply (testbit_high 1 1); lia.
Qed.

Lemma testbit_u8 y j : 0 <= j < 8 -> Z.testbit (u8 y) j = Z.testbit y j.
Proof. intros. unfold u8. apply Z.mod_pow2_bits_low. lia. Qed.

Lemma testbit_set y j k : 0 <= j < 8 -> 0 <= k -> Z.testbit (u8 (Z.lor y (Z.shiftl 1 k))) j = (j =? k) || Z.testbit y j.
Proof. intros. rewrite testbit_u8, Z.lor_spec, testbit_one by lia. by rewrite orb_comm. Qed.

Lemma testbit_clear y j k : 0 <= j < 8 -> 0 <= k ->
  Z.testbit (u8 (Z.land y (Z.lnot (Z.shiftl 1 k)))) j = negb (j =? k) && Z.testbit y j.
Proof. intros. rewrite testbit_u8, Z.land_spec, Z.lnot_spec, testbit_one by lia. by rewrite andb_comm. Qed.

Lemma wf_view_upd v b d : wf_view v -> length d = 1024%nat -> bytes d -> wf_view (upd v b d).
Proof. intros Hv Hl Hb c. unfold upd. destruct (c =? b); [done|apply Hv]. Qed.

Section Bitmap.
Context (sb : superblock) (Hsb : wf_sb sb).

Lemma BBLOCK_spec b : 0 <= b < sb_size sb -> BBLOCK b sb = b / BPB + sb_bmapstart sb /\ bitmap_block sb (BBLOCK b sb).
Proof.
  intros Hb. destruct Hsb as [H1 H2 H3 H4]. unfold BBLOCK. rewrite u32_small by fslia. split; [done|fslia].
Qed.

Lemma bitmap_fs_block b : bitmap_block sb b -> fs_block sb b /\ 0 <= b < 2 ^ 31.
Proof. destruct Hsb as [H1 H2 H3 H4]. intros. fslia. Qed.

(** A bitmap block replaced: the bits of its other bytes and of the other blocks stay. *)
Lemma bit_upd v b c y : wf_view v -> 0 <= b < sb_size sb -> 0 <= c < sb_size sb ->
  bit (upd v (BBLOCK b sb) (set_byte (v (BBLOCK b sb)) (b mod BPB / 8) y)) sb c =
    if (BBLOCK c sb =? BBLOCK b sb) && (c mod BPB / 8 =? b mod BPB / 8) then Z.testbit (u8 y) (c mod 8) else bit v sb c.
Proof.
  intros Hv Hb Hc. unfold bit, upd. destruct (Z.eqb_spec (BBLOCK c sb) (BBLOCK b sb)) as [E|E]; [|done]. cbn [andb].
  destruct (Hv (BBLOCK b sb)) as [Hl _]. unfold BPB, BSIZE. rewrite byte_set by (rewrite Hl; dlia).
  destruct (_ =? _); [done|]. by rewrite E.
Qed.

Lemma same_bit b c : 0 <= b < sb_size sb -> 0 <= c < sb_size sb ->
  BBLOCK c sb = BBLOCK b sb -> c mod BPB / 8 = b mod BPB / 8 -> (c mod 8 =? b mod BPB mod 8) = (c =? b).
Proof.
  intros Hb Hc. destruct (BBLOCK_spec b Hb) as [-> _], (BBLOCK_spec c Hc) as [-> _]. unfold BPB, BSIZE.
  intros E1 E2. destruct (Z.eqb_spec c b) as [->|Hne]; [apply Z.eqb_eq|apply Z.eqb_neq]; dlia.
Qed.

Lemma bit_set v b c : wf_view v -> 0 <= b < sb_size sb -> 0 <= c < sb_size sb ->
  bit (upd v (BBLOCK b sb) (set_bit (v (BBLOCK b sb)) b)) sb c = (c =? b) || bit v sb c.
Proof.
  intros Hv Hb Hc. unfold set_bit. rewrite bit_upd by done. destruct (_ && _) eqn:E.
  - bsplit. rewrite testbit_set, same_bit by (done || apply Z.mod_pos_bound; lia). unfold bit. congruence.
  - destruct (Z.eqb_spec c b) as [->|]; [|done]. by rewrite !Z.eqb_refl in E.
Qed.

Lemma bit_clear v b c : wf_view v -> 0 <= b < sb_size sb -> 0 <= c < sb_size sb ->
  bit (upd v (BBLOCK b sb) (clear_bit (v (BBLOCK b sb)) b)) sb c = negb (c =? b) && bit v sb c.
Proof.
  intros Hv Hb Hc. unfold clear_bit. rewrite bit_upd by done. destruct (_ && _) eqn:E.
  - bsplit. rewrite testbit_clear, same_bit by (done || apply Z.mod_pos_bound; lia). unfold bit. congruence.
  - destruct (Z.eqb_spec c b) as [->|]; [|done]. by rewrite !Z.eqb_refl in E.
Qed.

(** Other blocks do not have bits. *)
Lemma bit_other v b d c : ~ bitmap_block sb b -> 0 <= c < sb_size sb -> bit (upd v b d) sb c = bit v sb c.
Proof. intros Hb Hc. unfold bit. rewrite upd_ne; [done|]. intros E. apply Hb. rewrite <- E. by apply BBLOCK_spec. Qed.

Lemma wf_set_bit v b : wf_view v -> wf_view (upd v (BBLOCK b sb) (set_bit (v (BBLOCK b sb)) b)).
Proof. intros Hv. destruct (Hv (BBLOCK b sb)). apply wf_view_upd; [done|by etransitivity; [apply length_set_byte|]|by apply bytes_set_byte]. Qed.

Lemma wf_clear_bit v b : wf_view v -> wf_view (upd v (BBLOCK b sb) (clear_bit (v (BBLOCK b sb)) b)).
Proof. intros Hv. destruct (Hv (BBLOCK b sb)). apply wf_view_upd; [done|by etransitivity; [apply length_set_byte|]|by apply bytes_set_byte]. Qed.
End Bitmap.

Lemma wf_zero v b : wf_view v -> wf_view (upd v b (replicate 1024 0)).
Proof. intros Hv. apply wf_view_upd; [done|apply length_replicate|]. apply Forall_replicate. lia. Qed.

(** ** [balloc] and [bfree] *)

Lemma BPB_bit sb k bi : wf_sb sb -> 0 <= k -> 0 <= bi < BPB -> BPB * k + bi < sb_size sb ->
  BBLOCK (BPB * k) sb = BBLOCK (BPB * k + bi) sb /\ (BPB * k + bi) mod BPB = bi /\ (BPB * k + bi) mod 8 = bi mod 8.
Proof.
  intros Hsb Hk Hbi Hs. destruct (BBLOCK_spec sb Hsb (BPB * k)) as [-> _]; [fslia|].
  destruct (BBLOCK_spec sb Hsb (BPB * k + bi)) as [-> _]; [fslia|]. fslia.
Qed.

(** The first block after the bitmap. *)
Definition nmeta sb : Z := sb_bmapstart sb + (sb_size sb + BPB - 1) / BPB.

(** What a transaction of the file system starts from: well-formed blocks, bits set for
    the boot block up to the bitmap, and the log elsewhere. *)
Record fs_ok sb (a : atx) : Prop := {
  fo_sb : wf_sb sb;
  fo_view : wf_view (t_view a);
  fo_meta b : 0 <= b < nmeta sb -> bit (t_view a) sb b = true;
  fo_home b : fs_block sb b -> t_home a b = true;
}.

(** The buffers that a process holds when it allocates or frees: of blocks in use. *)
Definition held_used sb (a : atx) : Prop :=
  forall i c, t_held a !! i = Some c -> ~ bitmap_block sb c /\ 0 <= c < sb_size sb /\ bit (t_view a) sb c = true.

(** [b] is the first free block. *)
Definition first_free sb (v : Z -> block) (b : Z) : Prop :=
  0 <= b < sb_size sb /\ bit v sb b = false /\ forall c, 0 <= c < b -> bit v sb c = true.

Definition t_balloc sb (b : Z) (a : atx) : atx :=
  t_upd b (replicate 1024 0) (t_upd (BBLOCK b sb) (set_bit (t_view a (BBLOCK b sb)) b) a).
Definition t_bfree sb (b : Z) (a : atx) : atx := t_upd (BBLOCK b sb) (clear_bit (t_view a (BBLOCK b sb)) b) a.

Section Balloc.
Context {S : Type} {K : Blocks S} {KOk : BlocksOk S}.
Context (sb : superblock) (ic : Z -> inode) (Hdev : u32 k_dev = k_dev).
Implicit Types (x : S) (a : atx).

Definition balloc_bit (bp b bi : Z) : M fs (option Z) :=
  let m := Z.shiftl 1 (bi mod 8) in
  let! d := data bp in
  if Z.land (byte_at d (bi / 8)) m =? 0 then
    blk (k_set bp (set_byte d (bi / 8) (Z.lor (byte_at d (bi / 8)) m))) ;;
    blk (k_log_write bp) ;;
    blk (k_brelse bp) ;;
    bzero k_dev (b + bi) ;;
    ret (Some (b + bi))
  else ret None.

Definition balloc_block (b : Z) : M fs (option Z) :=
  let! bp := blk (k_bread k_dev (BBLOCK b sb)) in
  let! r := msearch (upto (Z.min BPB (sb_size sb - b))) (balloc_bit bp b) in
  match r with
  | Some x => ret (Some x)
  | None => blk (k_brelse bp) ;; ret None
  end.

(** A bit that is set is passed. *)
Lemma balloc_bit_used x a i k bi : wf_sb sb -> brep x a -> t_held a !! i = Some (BBLOCK (BPB * k) sb) ->
  0 <= k -> 0 <= bi < BPB -> BPB * k + bi < sb_size sb -> bit (t_view a) sb (BPB * k + bi) = true ->
  balloc_bit i (BPB * k) bi (Fs sb ic x) = Ok (None, Fs sb ic x).
Proof.
  intros Hsb Hr Hi Hk Hbi Hs Hb. unfold balloc_bit. mstep (data_run sb ic _ _ _ _ Hr Hi).
  destruct (BPB_bit sb k bi Hsb Hk Hbi Hs) as (E1 & E2 & E3).
  rewrite land_bit by (apply Z.mod_pos_bound; lia). unfold bit in Hb. rewrite <- E1, E2, E3 in Hb. by rewrite Hb.
Qed.

(** A block whose bits are all set is passed. *)
Lemma balloc_block_full x a k X n h : fs_ok sb a -> held_used sb a -> brep x a -> room X n h a -> 1 <= h ->
  0 <= k -> BPB * k < sb_size sb ->
  (forall bi, 0 <= bi < BPB -> BPB * k + bi < sb_size sb -> bit (t_view a) sb (BPB * k + bi) = true) ->
  exists x', balloc_block (BPB * k) (Fs sb ic x) = Ok (None, Fs sb ic x') /\ brep x' a.
Proof.
  intros Hok Hu Hr Hroom Hh Hk Hs Hb. pose proof (fo_sb _ _ Hok) as Hsb.
  destruct (BBLOCK_spec sb Hsb (BPB * k)) as [_ Hbm]; [fslia|].
  destruct (bread_run sb ic x a (BBLOCK (BPB * k) sb) X n h) as (i & x0 & H0 & Hi & R0); try done.
  { by apply (bitmap_fs_block sb Hsb). }
  { intros i Hi. by destruct (Hu i _ Hi). }
  destruct (drop_run sb ic x0 a i _ R0 Hi) as (x' & H1 & R1). exists x'. split; [|done].
  unfold balloc_block. mstep H0. rewrite <- (app_nil_r (upto _)).
  destruct (msearch_skip (fun s => s = Fs sb ic x0) (balloc_bit i (BPB * k)) (upto (Z.min BPB (sb_size sb - BPB * k))) [] (Fs sb ic x0))
    as (s' & -> & E); [|done|].
  { intros bi s Hbi%elem_of_upto ->. eexists. split; [|done]. eapply balloc_bit_used; try done; [apply lookup_insert_eq|lia..|].
    apply Hb; lia. }
  rewrite (bind_ok _ _ _ None (Fs sb ic x0)) by (by rewrite E). mstep H1. done.
Qed.

Lemma upd_home b d a c : t_home (t_upd b d a) c = t_home a c.
Proof. done. Qed.

(** The block with the first free bit. *)
Lemma balloc_block_free x a b X n h : fs_ok sb a -> held_used sb a -> brep x a -> room X (n + 1) h a -> 0 <= n -> 1 <= h ->
  first_free sb (t_view a) b -> BBLOCK b sb ∈ X ->
  exists x', balloc_block (BPB * (b / BPB)) (Fs sb ic x) = Ok (Some b, Fs sb ic x') /\ brep x' (t_balloc sb b a).
Proof.
  intros Hok Hu Hr Hroom Hn Hh (Hb & Hfree & Hbefore) HX. pose proof (fo_sb _ _ Hok) as Hsb.
  destruct (BBLOCK_spec sb Hsb b Hb) as [EB Hbm]. destruct (bitmap_fs_block sb Hsb _ Hbm) as [Hfb Hrange].
  assert (nmeta sb <= b) as Hdata.
  { destruct (Z.lt_ge_cases b (nmeta sb)); [|done]. rewrite (fo_meta _ _ Hok b) in Hfree; [done|lia]. }
  assert (b = BPB * (b / BPB) + b mod BPB) as Eb by fslia.
  destruct (BPB_bit sb (b / BPB) (b mod BPB)) as (E1 & _ & _); [done|fslia|fslia|lia|]. rewrite <- Eb in E1.
  destruct (bread_run sb ic x a (BBLOCK b sb) X (n + 1) h) as (i & x0 & H0 & Hi & R0); try done.
  { intros i Hi. by destruct (Hu i _ Hi). }
  destruct (finish_run sb ic x0 a i (BBLOCK b sb) (set_bit (t_view a (BBLOCK b sb)) b) X (n + 1) h) as (x1 & x2 & x3 & H1 & H2 & H3 & R3);
    try done; [by apply (fo_home _ _ Hok)|].
  destruct (bzero_ok sb ic x3 (t_upd (BBLOCK b sb) (set_bit (t_view a (BBLOCK b sb)) b) a) b X (n + 1) h) as (x4 & H4 & R4); try done; [destruct Hsb; lia|..].
  { intros j Hj. destruct (Hu j b Hj) as (_ & _ & H). congruence. }
  { by apply room_upd_in. }
  { apply (fo_home _ _ Hok). unfold nmeta in Hdata. destruct Hsb. fslia. }
  exists x4. split; [|done]. unfold balloc_block. rewrite E1. mstep H0.
  destruct (upto_split (Z.min BPB (sb_size sb - BPB * (b / BPB))) (b mod BPB)) as (l2 & -> & _); [fslia|].
  destruct (msearch_skip (fun s => s = Fs sb ic x0) (balloc_bit i (BPB * (b / BPB))) (upto (b mod BPB)) (b mod BPB :: l2) (Fs sb ic x0))
    as (s' & -> & E); [|done|].
  { intros bi s Hbi%elem_of_upto ->. eexists. split; [|done]. eapply balloc_bit_used; try done; [rewrite E1; apply lookup_insert_eq|fslia..|].
    apply Hbefore. fslia. }
  assert (balloc_bit i (BPB * (b / BPB)) (b mod BPB) (Fs sb ic x0) = Ok (Some b, Fs sb ic x4)) as Hbit.
  { unfold balloc_bit. mstep (data_run sb ic _ _ i _ R0 (lookup_insert_eq _ _ _)). cbn [t_view t_hold].
    rewrite land_bit by (apply Z.mod_pos_bound; lia).
    replace (Z.testbit _ (b mod BPB mod 8)) with (bit (t_view a) sb b) by (unfold bit; f_equal; fslia).
    rewrite Hfree. cbn [negb]. mstep H1. mstep H2. mstep H3. rewrite <- Eb. mstep H4. done. }
  erewrite bind_ok; [|rewrite E; cbn [msearch]; mstep Hbit; reflexivity]. done.
Qed.

(** The blocks whose bits are set are passed. *)
Lemma balloc_skip x a X n h m rest : fs_ok sb a -> held_used sb a -> brep x a -> room X n h a -> 1 <= h ->
  0 <= m <= (sb_size sb + BPB - 1) / BPB -> (forall c, 0 <= c < BPB * m -> c < sb_size sb -> bit (t_view a) sb c = true) ->
  exists x', msearch ((Z.mul BPB <$> upto m) ++ rest) balloc_block (Fs sb ic x) = msearch rest balloc_block (Fs sb ic x') /\ brep x' a.
Proof.
  intros Hok Hu Hr Hroom Hh Hm Hb.
  destruct (msearch_skip (fun s => exists y, s = Fs sb ic y /\ brep y a) balloc_block (Z.mul BPB <$> upto m) rest (Fs sb ic x))
    as (s' & (y & -> & Ry) & E); [|by exists x|by exists y].
  intros B s (k & -> & Hk%elem_of_upto)%list_elem_of_fmap (y & -> & Ry).
  destruct (balloc_block_full y a k X n h) as (y' & H & Ry'); try done; [lia|fslia| |by eexists; split; [|by exists y']].
  intros bi Hbi Hs. apply Hb; [|done]. fslia.
Qed.

Lemma balloc_ok x a b X n h : fs_ok sb a -> held_used sb a -> brep x a -> room X (n + 1) h a -> 0 <= n -> 1 <= h ->
  first_free sb (t_view a) b -> BBLOCK b sb ∈ X ->
  exists x', balloc k_dev (Fs sb ic x) = Ok (b, Fs sb ic x') /\ brep x' (t_balloc sb b a).
Proof.
  intros Hok Hu Hr Hroom Hn Hh Hff HX. destruct Hff as (Hb & Hfree & Hbefore).
  destruct (upto_split ((sb_size sb + BPB - 1) / BPB) (b / BPB)) as (l2 & El & _); [fslia|].
  destruct (balloc_skip x a X (n + 1) h (b / BPB) (BPB * (b / BPB) :: (Z.mul BPB <$> l2))) as (y & E & Ry); try done; [fslia|..].
  { intros c Hc Hs. apply Hbefore. fslia. }
  destruct (balloc_block_free y a b X n h) as (x' & H & R'); try done. exists x'. split; [|done].
  unfold balloc. mcomp. cbn [f_sb]. rewrite El, fmap_app. fold balloc_block.
  erewrite bind_ok; [|etransitivity; [exact E|]; cbn [msearch]; mstep H; reflexivity].
  cbn. rewrite u32_small; [done|]. pose proof (ws_size _ (fo_sb _ _ Hok)). lia.
Qed.

Lemma balloc_panics x a X n h : fs_ok sb a -> held_used sb a -> brep x a -> room X n h a -> 1 <= h ->
  (forall c, 0 <= c < sb_size sb -> bit (t_view a) sb c = true) ->
  balloc k_dev (Fs sb ic x) = Panic "balloc: out of blocks".
Proof.
  intros Hok Hu Hr Hroom Hh Hb. destruct (fo_sb _ _ Hok) as [W1 W2 W3 W4].
  destruct (balloc_skip x a X n h ((sb_size sb + BPB - 1) / BPB) []) as (y & E & Ry); try done;
    [fslia|intros c Hc Hs; apply Hb; lia|].
  rewrite app_nil_r in E. unfold balloc. mcomp. cbn [f_sb]. fold balloc_block.
  erewrite bind_ok; [|etransitivity; [exact E|reflexivity]]. done.
Qed.

Lemma bfree_ok x a b X n h : fs_ok sb a -> brep x a -> room X n h a -> 1 <= h ->
  (forall i, t_held a !! i <> Some (BBLOCK b sb)) -> 0 <= b < sb_size sb -> bit (t_view a) sb b = true ->
  exists x', bfree k_dev b (Fs sb ic x) = Ok (tt, Fs sb ic x') /\ brep x' (t_bfree sb b a).
Proof.
  intros Hok Hr Hroom Hh Hu Hb Hbit. destruct (BBLOCK_spec sb (fo_sb _ _ Hok) b Hb) as [_ Hbm].
  destruct (bitmap_fs_block sb (fo_sb _ _ Hok) _ Hbm) as [Hfb Hrange].
  destruct (bread_run sb ic x a (BBLOCK b sb) X n h) as (i & x0 & H0 & Hi & R0); try done.
  destruct (finish_run sb ic x0 a i (BBLOCK b sb) (clear_bit (t_view a (BBLOCK b sb)) b) X n h) as (x1 & x2 & x3 & H1 & H2 & H3 & R3);
    try done; [by apply (fo_home _ _ Hok)|].
  exists x3. split; [|done]. unfold bfree. mcomp. cbn [f_sb]. rewrite Hdev. mstep H0.
  mstep (data_run sb ic _ _ i _ R0 (lookup_insert_eq _ _ _)). cbn [t_view t_hold].
  rewrite land_bit by (apply Z.mod_pos_bound; lia).
  replace (Z.testbit _ (b mod BPB mod 8)) with (bit (t_view a) sb b) by (unfold bit; f_equal; fslia).
  rewrite Hbit. mcomp. mstep H1. mstep H2. exact H3.
Qed.

Lemma bfree_panics x a b X n h : fs_ok sb a -> brep x a -> room X n h a -> 1 <= h ->
  (forall i, t_held a !! i <> Some (BBLOCK b sb)) -> 0 <= b < sb_size sb -> bit (t_view a) sb b = false ->
  bfree k_dev b (Fs sb ic x) = Panic "freeing free block".
Proof.
  intros Hok Hr Hroom Hh Hu Hb Hbit. destruct (BBLOCK_spec sb (fo_sb _ _ Hok) b Hb) as [_ Hbm].
  destruct (bitmap_fs_block sb (fo_sb _ _ Hok) _ Hbm) as [Hfb Hrange].
  destruct (bread_run sb ic x a (BBLOCK b sb) X n h) as (i & x0 & H0 & Hi & R0); try done.
  unfold bfree. mcomp. cbn [f_sb]. rewrite Hdev. mstep H0.
  mstep (data_run sb ic _ _ i _ R0 (lookup_insert_eq _ _ _)). cbn [t_view t_hold].
  rewrite land_bit by (apply Z.mod_pos_bound; lia).
  replace (Z.testbit _ (b mod BPB mod 8)) with (bit (t_view a) sb b) by (unfold bit; f_equal; fslia).
  by rewrite Hbit.
Qed.
End Balloc.

(** The first free block is a data block. *)
Lemma first_free_data sb a b : fs_ok sb a -> first_free sb (t_view a) b -> nmeta sb <= b < sb_size sb /\ ~ bitmap_block sb b.
Proof.
  intros Hok (Hb & Hfree & _). assert (nmeta sb <= b) as Hdata.
  { destruct (Z.lt_ge_cases b (nmeta sb)); [|done]. rewrite (fo_meta _ _ Hok b) in Hfree; [done|lia]. }
  split; [lia|]. unfold bitmap_block, nmeta in *. lia.
Qed.

Lemma first_free_dec sb v : 0 <= sb_size sb ->
  (exists b, first_free sb v b) \/ (forall c, 0 <= c < sb_size sb -> bit v sb c = true).
Proof.
  intros Hs. cut (forall n, 0 <= n <= sb_size sb -> (exists b, first_free sb v b) \/ (forall c, 0 <= c < n -> bit v sb c = true)).
  { intros H. destruct (H (sb_size sb)); [lia|by left|by right]. }
  intros n Hn. destruct Hn as [Hn Hle]. revert Hle. pattern n. revert n Hn. apply natlike_ind; [right; lia|].
  intros n Hn IH Hle. destruct IH as [IH|IH]; [lia|by left|]. destruct (bit v sb n) eqn:E.
  - right. intros c Hc. destruct (Z.eq_dec c n) as [->|]; [done|]. apply IH. lia.
  - left. exists n. split_and!; [lia|lia|done|done].
Qed.

Section Effects.
Context (sb : superblock) (a : atx) (Hok : fs_ok sb a).

Lemma t_bfree_bit b c : 0 <= b < sb_size sb -> 0 <= c < sb_size sb ->
  bit (t_view (t_bfree sb b a)) sb c = negb (c =? b) && bit (t_view a) sb c.
Proof. intros. apply bit_clear; [apply (fo_sb _ _ Hok)|apply (fo_view _ _ Hok)|done|done]. Qed.

Lemma t_balloc_bit b c : first_free sb (t_view a) b -> 0 <= c < sb_size sb ->
  bit (t_view (t_balloc sb b a)) sb c = (c =? b) || bit (t_view a) sb c.
Proof.
  intros Hff Hc. destruct (first_free_data sb a b Hok Hff) as [_ Hnb]. pose proof (fo_sb _ _ Hok). cbn [t_view t_balloc t_upd].
  rewrite bit_other by done. apply bit_set; [done|apply (fo_view _ _ Hok)|apply Hff|done].
Qed.

Lemma t_balloc_ok b : first_free sb (t_view a) b -> fs_ok sb (t_balloc sb b a).
Proof.
  intros Hff. split.
  - apply (fo_sb _ _ Hok).
  - apply wf_zero, wf_set_bit. apply (fo_view _ _ Hok).
  - intros c Hc. pose proof (first_free_data sb a b Hok Hff). rewrite t_balloc_bit by (done || lia).
    by rewrite (fo_meta _ _ Hok c Hc), orb_true_r.
  - intros c Hc. apply (fo_home _ _ Hok c Hc).
Qed.

Lemma t_bfree_ok b : nmeta sb <= b < sb_size sb -> fs_ok sb (t_bfree sb b a).
Proof.
  intros Hb. destruct (fo_sb _ _ Hok) as [W1 W2 W3 W4]. assert (0 <= nmeta sb <= sb_size sb) as Hn by (unfold nmeta; fslia). split.
  - apply (fo_sb _ _ Hok).
  - apply wf_clear_bit. apply (fo_view _ _ Hok).
  - intros c Hc. rewrite t_bfree_bit by lia. rewrite (fo_meta _ _ Hok c Hc), (proj2 (Z.eqb_neq c b)) by lia. done.
  - intros c Hc. apply (fo_home _ _ Hok c Hc).
Qed.

Lemma t_balloc_view b c : first_free sb (t_view a) b ->
  t_view (t_balloc sb b a) c = if c =? b then replicate 1024 0
    else if c =? BBLOCK b sb then set_bit (t_view a c) b else t_view a c.
Proof.
  intros Hff. cbn [t_view t_balloc t_upd]. unfold upd. destruct (c =? b); [done|]. by destruct (Z.eqb_spec c (BBLOCK b sb)) as [->|].
Qed.
End Effects.

Section BallocClaims.
Context {S : Type} {K : Blocks S} {KOk : BlocksOk S}.

(** [balloc] in a transaction with space in the log: it takes the first block whose bit
    is clear, sets that bit and no other, and zeroes the block; no block but this one
    and its bitmap block changes.  Without a free block it panics. *)
Theorem balloc_correct (sb : superblock) (ic : Z -> inode) (x : S) (a : atx) (X : gset Z)
    (Hdev : u32 k_dev = k_dev) (Hok : fs_ok sb a) (Hu : held_used sb a) (Hr : brep x a) (Hroom : room X 2 2 a) :
  (forall c, 0 <= c < sb_size sb -> bit (t_view a) sb c = true) /\ balloc k_dev (Fs sb ic x) = Panic "balloc: out of blocks" \/
  exists b x' a', balloc k_dev (Fs sb ic x) = Ok (b, Fs sb ic x') /\ brep x' a' /\ fs_ok sb a' /\
    nmeta sb <= b < sb_size sb /\ first_free sb (t_view a) b /\
    (forall c, 0 <= c < sb_size sb -> bit (t_view a') sb c = (c =? b) || bit (t_view a) sb c) /\
    t_view a' b = replicate 1024 0 /\
    (forall c, c <> b -> c <> BBLOCK b sb -> t_view a' c = t_view a c) /\
    t_held a' = t_held a /\ t_logged a' = {[b; BBLOCK b sb]} ∪ t_logged a.
Proof.
  destruct (first_free_dec sb (t_view a)) as [[b Hff]|Hfull].
  { destruct (fo_sb _ _ Hok). unfold nmeta in *. fslia. }
  - right. destruct (balloc_ok sb ic Hdev x a b ({[BBLOCK b sb]} ∪ X) 0 2) as (x' & H & R); try done; [by apply room_widen|set_solver|]. exists b, x', (t_balloc sb b a).
    split_and!; try done; try apply (first_free_data sb a b Hok Hff); try apply Hff.
    + by apply t_balloc_ok.
    + intros c Hc. by apply t_balloc_bit.
    + rewrite t_balloc_view by done. by rewrite Z.eqb_refl.
    + intros c H1 H2. rewrite t_balloc_view by done. by rewrite (proj2 (Z.eqb_neq _ _) H1), (proj2 (Z.eqb_neq _ _) H2).
    + cbn. set_solver.
  - left. split; [done|]. by apply (balloc_panics sb ic x a X 2 2).
Qed.

(** [bfree] gives back what [balloc] took: after both, every bit of the bitmap is as it
    was before; and [bfree] of a free block panics. *)
Theorem bfree_balloc_roundtrip (sb : superblock) (ic : Z -> inode) (x : S) (a : atx) (X : gset Z) (b : Z)
    (Hdev : u32 k_dev = k_dev) (Hok : fs_ok sb a) (Hu : held_used sb a) (Hr : brep x a) (Hroom : room X 2 2 a)
    (Hff : first_free sb (t_view a) b) :
  bfree k_dev b (Fs sb ic x) = Panic "freeing free block" /\
  exists x' a', (let! c := balloc k_dev in bfree k_dev c) (Fs sb ic x) = Ok (tt, Fs sb ic x') /\ brep x' a' /\
    forall c, 0 <= c < sb_size sb -> bit (t_view a') sb c = bit (t_view a) sb c.
Proof.
  assert (forall i, t_held a !! i <> Some (BBLOCK b sb)) as Hnb.
  { intros i Hi. destruct (Hu i _ Hi) as [Hn _]. apply Hn. apply BBLOCK_spec; [apply (fo_sb _ _ Hok)|apply Hff]. }
  split. { apply (bfree_panics sb ic Hdev x a b X 2 2); try done; apply Hff. }
  destruct (balloc_ok sb ic Hdev x a b ({[BBLOCK b sb]} ∪ X) 0 2) as (x1 & H1 & R1); try done; [by apply room_widen|set_solver|]. pose proof (t_balloc_ok sb a Hok b Hff) as Hok1.
  destruct (bfree_ok sb ic Hdev x1 (t_balloc sb b a) b X 0 2) as (x2 & H2 & R2); try done.
  { unfold t_balloc. do 2 (apply room_upd; [|lia]). done. }
  { apply Hff. }
  { rewrite t_balloc_bit by (try done; apply Hff). by rewrite Z.eqb_refl. }
  exists x2, (t_bfree sb b (t_balloc sb b a)). split; [by mstep H1|]. split; [done|].
  intros c Hc. rewrite (t_bfree_bit sb _ Hok1) by (try done; apply Hff). rewrite t_balloc_bit by done.
  destruct (Z.eqb_spec c b) as [->|]; [|done]. destruct Hff as (_ & -> & _). done.
Qed.
End BallocClaims.

(** ** Inodes on the disk *)

Record wf_dinode (x : dinode) : Prop := {
  wd_type : - 2 ^ 15 <= di_type x < 2 ^ 15;
  wd_major : - 2 ^ 15 <= di_major x < 2 ^ 15;
  wd_minor : - 2 ^ 15 <= di_minor x < 2 ^ 15;
  wd_nlink : - 2 ^ 15 <= di_nlink x < 2 ^ 15;
  wd_size : 0 <= di_size x < 2 ^ 32;
  wd_addrs : length (di_addrs x) = 13%nat;
  wd_addr : Forall (fun b => 0 <= b < 2 ^ 32) (di_addrs x);
}.

(** The bytes of an inode. *)
Definition dinode_bytes (x : dinode) : list Z :=
  le_put 2 (di_type x) ++ le_put 2 (di_major x) ++ le_put 2 (di_minor x) ++ le_put 2 (di_nlink x) ++
    le_put 4 (di_size x) ++ concat (le_put 4 <$> di_addrs x).

Lemma i16_le v : - 2 ^ 15 <= v < 2 ^ 15 -> i16 (le_get (le_put 2 v)) = v.
Proof. intros. rewrite le_get_put. unfold i16. change (256 ^ Z.of_nat 2) with (2 ^ 16). dlia. Qed.

Lemma u32_le v : 0 <= v < 2 ^ 32 -> le_get (le_put 4 v) = v.
Proof. intros. rewrite le_get_put. by apply Z.mod_small. Qed.

Lemma length_concat_put l : length (concat (le_put 4 <$> l)) = (4 * length l)%nat.
Proof. induction l as [|v l IH]; [done|]. cbn [fmap list_fmap concat length]. rewrite length_app, length_le_put. change (list_fmap _ _ _ l) with (le_put 4 <$> l). lia. Qed.

Lemma length_dinode_bytes x : length (di_addrs x) = 13%nat -> length (dinode_bytes x) = 64%nat.
Proof. intros H. unfold dinode_bytes. rewrite !length_app, !length_le_put, length_concat_put, H. done. Qed.

Lemma bytes_dinode_bytes x : bytes (dinode_bytes x).
Proof.
  unfold dinode_bytes, bytes. rewrite !Forall_app. split_and!; try apply bytes_le_put.
  induction (di_addrs x) as [|v l IH]; [constructor|]. rewrite fmap_cons. cbn [concat]. apply Forall_app. split; [apply bytes_le_put|done].
Qed.

Section Dinode.
Context (d : block) (k : Z) (x : dinode) (Hd : length d = 1024%nat) (Hk : 0 <= k < IPB) (Hx : wf_dinode x).

Lemma dinode_range : in_range d (dinode_size * k) (zlen (dinode_bytes x)).
Proof. unfold in_range. rewrite length_dinode_bytes by apply Hx. rewrite Hd. fslia. Qed.

Lemma length_put_dinode : length (put_dinode d k x) = 1024%nat.
Proof. unfold put_dinode. fold (dinode_bytes x). rewrite length_splice; [done|apply dinode_range]. Qed.

Lemma bytes_put_dinode : bytes d -> bytes (put_dinode d k x).
Proof. intros. apply bytes_splice; [done|apply bytes_dinode_bytes]. Qed.

Lemma put_dinode_field off n : 0 <= off -> 0 <= n -> off + n <= 64 ->
  get_le (put_dinode d k x) (dinode_size * k + off) n = le_get (sub (dinode_bytes x) off n).
Proof.
  intros. unfold get_le, put_dinode. fold (dinode_bytes x). rewrite sub_splice_in; [done|apply dinode_range|done|done|].
  by rewrite length_dinode_bytes by apply Hx.
Qed.

(** What [iupdate] writes is what [ilock] reads. *)
Lemma get_put_dinode : get_dinode (put_dinode d k x) k = x.
Proof.
  unfold get_dinode. rewrite <- (Z.add_0_r (dinode_size * k)) at 1.
  change naddrs with [0; 1; 2; 3; 4; 5; 6; 7; 8; 9; 10; 11; 12]. cbn [fmap list_fmap].
  rewrite <- !Z.add_assoc, !put_dinode_field by lia.
  destruct Hx as [H1 H2 H3 H4 H5 H6 H7]. unfold dinode_bytes. destruct x as [ty mj mi nl sz ad]. cbn in H1, H2, H3, H4, H5, H6, H7.
  do 13 (destruct ad as [|? ad]; [done|]). destruct ad; [|done]. repeat (apply Forall_cons in H7 as [? H7]).
  f_equal; cbn [di_type di_major di_minor di_nlink di_size di_addrs].
  - by apply (i16_le ty).
  - by apply (i16_le mj).
  - by apply (i16_le mi).
  - by apply (i16_le nl).
  - by apply (u32_le sz).
  - repeat (apply (f_equal2 cons); [match goal with |- _ = ?v => by apply (u32_le v) end|]). reflexivity.
Qed.

Lemma get_dinode_other k' : 0 <= k' < IPB -> k' <> k -> get_dinode (put_dinode d k x) k' = get_dinode d k'.
Proof.
  intros Hk' Hne. assert (forall off n, 0 <= off -> 0 <= n -> off + n <= 64 ->
    get_le (put_dinode d k x) (dinode_size * k' + off) n = get_le d (dinode_size * k' + off) n) as H.
  { intros off n ? ? ?. unfold get_le, put_dinode. fold (dinode_bytes x).
    rewrite sub_splice_other; [done|apply dinode_range|unfold in_range; rewrite Hd; fslia|].
    unfold apart. rewrite length_dinode_bytes by apply Hx. fslia. }
  assert (get_le (put_dinode d k x) (dinode_size * k') 2 = get_le d (dinode_size * k') 2) as H0.
  { pose proof (H 0 2) as E. rewrite Z.add_0_r in E. apply E; lia. }
  unfold get_dinode. change naddrs with [0; 1; 2; 3; 4; 5; 6; 7; 8; 9; 10; 11; 12]. cbn [fmap list_fmap].
  by rewrite <- !Z.add_assoc, H0, !H by lia.
Qed.
End Dinode.

Definition disk_inode (v : Z -> block) sb (inum : Z) : dinode := get_dinode (v (IBLOCK inum sb)) (inum mod IPB).
Definition t_iupdate sb (inum : Z) (x : dinode) (a : atx) : atx :=
  t_upd (IBLOCK inum sb) (put_dinode (t_view a (IBLOCK inum sb)) (inum mod IPB) x) a.

Lemma IBLOCK_spec sb inum : wf_sb sb -> 0 <= inum < sb_ninodes sb ->
  IBLOCK inum sb = inum / IPB + sb_inodestart sb /\ sb_inodestart sb <= IBLOCK inum sb < sb_bmapstart sb.
Proof. intros [W1 W2 W3 W4] Hi. unfold IBLOCK. rewrite u32_small by fslia. fslia. Qed.

Lemma iblock_fs_block sb inum : wf_sb sb -> 0 <= inum < sb_ninodes sb ->
  fs_block sb (IBLOCK inum sb) /\ ~ bitmap_block sb (IBLOCK inum sb) /\ 0 <= IBLOCK inum sb < nmeta sb /\ nmeta sb < 2 ^ 31.
Proof.
  intros Hsb Hi. destruct (IBLOCK_spec sb inum Hsb Hi) as [_ H]. destruct Hsb as [W1 W2 W3 W4]. unfold nmeta. fslia.
Qed.

Section InodeEffects.
Context (sb : superblock) (a : atx) (Hok : fs_ok sb a) (inum : Z) (Hi : 0 <= inum < sb_ninodes sb).
Context (x : dinode) (Hx : wf_dinode x).

Lemma t_iupdate_inode j : 0 <= j < sb_ninodes sb ->
  disk_inode (t_view (t_iupdate sb inum x a)) sb j = if j =? inum then x else disk_inode (t_view a) sb j.
Proof.
  intros Hj. pose proof (fo_sb _ _ Hok) as Hsb. destruct (fo_view _ _ Hok (IBLOCK inum sb)) as [Hl _].
  assert (forall z, 0 <= z mod IPB < IPB) as Hm by (intros z; apply Z.mod_pos_bound; done).
  unfold disk_inode, t_iupdate, upd. cbn [t_view t_upd]. unfold upd. destruct (Z.eqb_spec j inum) as [->|Hne].
  - rewrite Z.eqb_refl. by apply get_put_dinode.
  - destruct (Z.eqb_spec (IBLOCK j sb) (IBLOCK inum sb)) as [E|]; [|done]. rewrite get_dinode_other; try done; [by rewrite E|].
    destruct (IBLOCK_spec sb j Hsb Hj) as [E1 _], (IBLOCK_spec sb inum Hsb Hi) as [E2 _]. fslia.
Qed.

Lemma t_iupdate_bit c : 0 <= c < sb_size sb -> bit (t_view (t_iupdate sb inum x a)) sb c = bit (t_view a) sb c.
Proof. intros Hc. pose proof (fo_sb _ _ Hok). apply bit_other; try done. by apply iblock_fs_block. Qed.

Lemma t_iupdate_ok : fs_ok sb (t_iupdate sb inum x a).
Proof.
  pose proof (fo_sb _ _ Hok) as Hsb. destruct (fo_view _ _ Hok (IBLOCK inum sb)) as [Hl Hb].
  assert (0 <= inum mod IPB < IPB) by (by apply Z.mod_pos_bound). split; [done|..].
  - apply wf_view_upd; [apply (fo_view _ _ Hok)|by apply length_put_dinode|by apply bytes_put_dinode].
  - intros b Hb'. rewrite t_iupdate_bit; [by apply (fo_meta _ _ Hok)|]. destruct Hsb. unfold nmeta in *. fslia.
  - apply (fo_home _ _ Hok).
Qed.
End InodeEffects.

Section Inodes.
Context {S : Type} {K : Blocks S} {KOk : BlocksOk S} (me : Z).
Context (sb : superblock).
Implicit Types (x : S) (a : atx) (ic : Z -> inode) (ino : inode).

Lemma iupdate_ok x a ic ip X n h : fs_ok sb a -> brep x a -> room X n h a -> 1 <= h ->
  i_dev (ic ip) = k_dev -> 0 <= i_inum (ic ip) < sb_ninodes sb -> wf_dinode (i_di (ic ip)) ->
  (forall j, t_held a !! j <> Some (IBLOCK (i_inum (ic ip)) sb)) ->
  exists x', iupdate ip (Fs sb ic x) = Ok (tt, Fs sb ic x') /\ brep x' (t_iupdate sb (i_inum (ic ip)) (i_di (ic ip)) a).
Proof.
  intros Hok Hr Hroom Hh Hdev Hi Hx Hnh. destruct (iblock_fs_block sb _ (fo_sb _ _ Hok) Hi) as (Hfb & _ & Hrg & ?).
  destruct (bread_run sb ic x a (IBLOCK (i_inum (ic ip)) sb) X n h) as (i & x0 & H0 & Hib & R0); try done; [lia|].
  destruct (finish_run sb ic x0 a i _ (put_dinode (t_view a (IBLOCK (i_inum (ic ip)) sb)) (i_inum (ic ip) mod IPB) (i_di (ic ip))) X n h
    R0 Hib Hroom) as (x1 & x2 & x3 & H1 & H2 & H3 & R3); [by apply (fo_home _ _ Hok)|].
  exists x3. split; [|done]. unfold iupdate. mcomp. mcomp. cbn [f_sb f_icache]. rewrite Hdev. mstep H0.
  mstep (data_run sb ic _ _ i _ R0 (lookup_insert_eq _ _ _)). mstep H1. mstep H2. exact H3.
Qed.

(** An entry locked by this process, and with its inode read. *)
Definition locked ino : inode := set_lock (Islock true me) ino.
Definition loaded (d : dinode) ino : inode := Inode (i_dev ino) (i_inum ino) (i_ref ino) (Islock true me) true d.

Lemma ilock_valid x ic ip : ip <> 0 -> 1 <= i_ref (ic ip) -> il_locked (i_lock (ic ip)) = false -> i_valid (ic ip) = true ->
  ilock me ip (Fs sb ic x) = Ok (tt, Fs sb (upd ic ip (locked (ic ip))) x).
Proof.
  intros Hip Hr Hl Hv. unfold ilock. mcomp. cbn [f_icache]. rewrite (proj2 (Z.eqb_neq _ _) Hip), (proj2 (Z.ltb_ge _ _)) by lia.
  mcomp. unfold lock_inode. erewrite bind_ok; [|mcomp; cbn [f_icache]; rewrite Hl; reflexivity]. by rewrite Hv.
Qed.

(** The entry after [ilock]; [upd]s of the same entry collapse pointwise. *)
Definition same_icache (f g : Z -> inode) : Prop := forall p, f p = g p.

Lemma ilock_load x a ic ip X n h : fs_ok sb a -> brep x a -> room X n h a -> 1 <= h ->
  ip <> 0 -> 1 <= i_ref (ic ip) -> il_locked (i_lock (ic ip)) = false -> i_valid (ic ip) = false ->
  i_dev (ic ip) = k_dev -> 0 <= i_inum (ic ip) < sb_ninodes sb -> (forall j, t_held a !! j <> Some (IBLOCK (i_inum (ic ip)) sb)) ->
  let d := disk_inode (t_view a) sb (i_inum (ic ip)) in
  if di_type d =? 0 then ilock me ip (Fs sb ic x) = Panic "ilock: no type"
  else exists ic' x', ilock me ip (Fs sb ic x) = Ok (tt, Fs sb ic' x') /\ brep x' a /\ same_icache ic' (upd ic ip (loaded d (ic ip))).
Proof.
  intros Hok Hr Hroom Hh Hip Href Hl Hv Hdev Hi Hnh d. destruct (iblock_fs_block sb _ (fo_sb _ _ Hok) Hi) as (Hfb & _ & Hrg & ?).
  set (ic1 := upd ic ip (locked (ic ip))).
  destruct (bread_run sb ic1 x a (IBLOCK (i_inum (ic ip)) sb) X n h) as (i & x0 & H0 & Hib & R0); try done; [lia|].
  set (ic2 := upd ic1 ip (set_di d (ic1 ip))).
  destruct (drop_run sb ic2 x0 a i _ R0 Hib) as (x1 & H1 & R1).
  assert (ilock me ip (Fs sb ic x) = (if di_type d =? 0 then panic "ilock: no type" else ret tt)
    (Fs sb (upd ic2 ip (set_valid true (ic2 ip))) x1)) as E.
  { unfold ilock. mcomp. cbn [f_icache]. rewrite (proj2 (Z.eqb_neq _ _) Hip), (proj2 (Z.ltb_ge _ _)) by lia.
    mcomp. unfold lock_inode. erewrite bind_ok; [|mcomp; cbn [f_icache]; rewrite Hl; reflexivity]. cbn beta. rewrite Hv.
    mcomp. cbn [f_sb f_icache f_blk]. fold (locked (ic ip)). fold ic1. rewrite Hdev. mstep H0.
    mstep (data_run sb ic1 _ _ i _ R0 (lookup_insert_eq _ _ _)). mcomp. cbn [f_sb f_icache f_blk].
    change (get_dinode _ _) with d. fold ic2. mstep H1. mcomp. unfold panic_if. done. }
  destruct (di_type d =? 0); [exact E|]. eexists _, x1. split; [exact E|]. split; [done|].
  intros p. unfold ic2, ic1, upd. rewrite !Z.eqb_refl. by destruct (p =? ip).
Qed.
End Inodes.

Section InodeClaims.
Context {S : Type} {K : Blocks S} {KOk : BlocksOk S}.

(** The inode cache is write-through: [iupdate] changes one inode on the disk and no bit
    of the bitmap, and whenever an entry of that inode is locked again after it was
    recycled, [ilock] reads back exactly what [iupdate] wrote, every field at its width;
    an inode of type 0 makes [ilock] panic. *)
Theorem inode_write_through (me : Z) (sb : superblock) (ic : Z -> inode) (x : S) (a : atx) (X : gset Z) (ip : Z)
    (Hok : fs_ok sb a) (Hr : brep x a) (Hroom : room X 1 1 a)
    (Hdev : i_dev (ic ip) = k_dev) (Hi : 0 <= i_inum (ic ip) < sb_ninodes sb) (Hx : wf_dinode (i_di (ic ip)))
    (Hnh : forall j, t_held a !! j <> Some (IBLOCK (i_inum (ic ip)) sb)) :
  exists x1 a1, iupdate ip (Fs sb ic x) = Ok (tt, Fs sb ic x1) /\ brep x1 a1 /\ fs_ok sb a1 /\
    (forall j, 0 <= j < sb_ninodes sb -> j <> i_inum (ic ip) -> disk_inode (t_view a1) sb j = disk_inode (t_view a) sb j) /\
    (forall c, 0 <= c < sb_size sb -> bit (t_view a1) sb c = bit (t_view a) sb c) /\
    forall ic' ip', ip' <> 0 -> 1 <= i_ref (ic' ip') -> il_locked (i_lock (ic' ip')) = false -> i_valid (ic' ip') = false ->
      i_dev (ic' ip') = k_dev -> i_inum (ic' ip') = i_inum (ic ip) ->
      if i_type (ic ip) =? 0 then ilock me ip' (Fs sb ic' x1) = Panic "ilock: no type"
      else exists ic'' x2, ilock me ip' (Fs sb ic' x1) = Ok (tt, Fs sb ic'' x2) /\ brep x2 a1 /\
        same_icache ic'' (upd ic' ip' (loaded me (i_di (ic ip)) (ic' ip'))).
Proof.
  destruct (iupdate_ok sb x a ic ip X 1 1) as (x1 & H1 & R1); try done.
  exists x1, (t_iupdate sb (i_inum (ic ip)) (i_di (ic ip)) a). pose proof (t_iupdate_ok sb a Hok _ Hi _ Hx) as Hok1.
  split_and!; try done.
  - intros j Hj Hne. rewrite t_iupdate_inode by done. by rewrite (proj2 (Z.eqb_neq _ _) Hne).
  - intros c Hc. by apply t_iupdate_bit.
  - intros ic' ip' Hip' Href Hl Hv Hd Hn.
    pose proof (ilock_load me sb x1 (t_iupdate sb (i_inum (ic ip)) (i_di (ic ip)) a) ic' ip' X 0 1 Hok1 R1) as H. rewrite Hn in H.
    rewrite (t_iupdate_inode sb a Hok _ Hi _ Hx _ Hi), Z.eqb_refl in H. apply H; try done. by apply room_upd.
Qed.
End InodeClaims.
