(* ===== verification/FsFile.v ===== *)
(** * Files: the content of an inode

    The content of a file is the list of its bytes, in the blocks that its inode and its
    indirect block name.  [wf_file] says that the blocks are allocated, in the data area
    and all different.  The theorems are about [readi], [writei] and [itrunc] as
    operations on that list. *)

From S2P Require Import Prelude Bytes Riscv Cache Blocks Fs FsSpec.

Definition d_addr (di : dinode) (k : Z) : Z := nth (Z.to_nat k) (di_addrs di) 0.

(** The blocks of a file: [slot]s 0 to 267 are its data blocks in order, slot 268 is the
    indirect block; 0 is no block. *)
Definition ind_slot : Z := 268.
Definition baddr (v : Z -> block) (di : dinode) (bn : Z) : Z :=
  if bn <? NDIRECT then d_addr di bn
  else if d_addr di NDIRECT =? 0 then 0
  else get_le (v (d_addr di NDIRECT)) (4 * (bn - NDIRECT)) 4.
Definition slot (v : Z -> block) (di : dinode) (s : Z) : Z := if s =? ind_slot then d_addr di NDIRECT else baddr v di s.

(** Byte [k] of a file, and all of them. *)
Definition fbyte (v : Z -> block) (di : dinode) (k : Z) : Z := byte_at (v (baddr v di (k / BSIZE))) (k mod BSIZE).
Definition content (v : Z -> block) (di : dinode) : list Z := fbyte v di <$> upto (di_size di).

Record wf_slots sb (v : Z -> block) (di : dinode) : Prop := {
  wl_di : wf_dinode di;
  wl_used s : 0 <= s <= ind_slot -> slot v di s <> 0 -> nmeta sb <= slot v di s < sb_size sb /\ bit v sb (slot v di s) = true;
  wl_inj s t : 0 <= s <= ind_slot -> 0 <= t <= ind_slot -> slot v di s <> 0 -> slot v di s = slot v di t -> s = t;
}.

Record wf_file sb (v : Z -> block) (di : dinode) : Prop := {
  wf_slots_ok : wf_slots sb v di;
  wf_size : di_size di <= MAXFILE * BSIZE;
  wf_alloc bn : 0 <= bn -> bn * BSIZE < di_size di -> baddr v di bn <> 0;
}.

(** The block belongs to the file. *)
Definition owns (v : Z -> block) (di : dinode) (b : Z) : Prop := b <> 0 /\ exists s, 0 <= s <= ind_slot /\ slot v di s = b.

Ltac flia := unfold ind_slot, MAXFILE in *; fslia.

Lemma nmeta_pos sb : wf_sb sb -> 1 < nmeta sb <= sb_size sb /\ sb_size sb < 2 ^ 31.
Proof. intros [W1 W2 W3 W4]. unfold nmeta. fslia. Qed.

Lemma addr_with_addr di k j b : length (di_addrs di) = 13%nat -> 0 <= k <= 12 -> 0 <= j <= 12 ->
  d_addr (with_addr k b di) j = if j =? k then b else d_addr di j.
Proof.
  intros Hl Hk Hj. unfold d_addr, with_addr. cbn [di_addrs]. rewrite !nth_lookup. destruct (Z.eqb_spec j k) as [->|Hne].
  - by rewrite list_lookup_insert_eq by lia.
  - by rewrite list_lookup_insert_ne by lia.
Qed.

Lemma wf_with_addr di k b : wf_dinode di -> 0 <= b < 2 ^ 32 -> wf_dinode (with_addr k b di).
Proof.
  intros [H1 H2 H3 H4 H5 H6 H7] Hb. split; cbn; try done; [by rewrite length_insert|by apply Forall_insert].
Qed.

Lemma d_addr_bound di k : wf_dinode di -> 0 <= d_addr di k < 2 ^ 32.
Proof.
  intros Hdi. unfold d_addr. rewrite nth_lookup. destruct (di_addrs di !! Z.to_nat k) as [b|] eqn:E; cbn; [|lia].
  by apply (Forall_lookup_1 _ _ _ _ (wd_addr _ Hdi) E).
Qed.

Section Slots.
Context (sb : superblock).
Implicit Types (a : atx) (di : dinode).

(** The indirect block of a file is used. *)
Lemma ind_used v di : wf_slots sb v di -> d_addr di NDIRECT <> 0 ->
  nmeta sb <= d_addr di NDIRECT < sb_size sb /\ bit v sb (d_addr di NDIRECT) = true.
Proof. intros Hw Hi. apply (wl_used _ _ _ Hw ind_slot); [flia|done]. Qed.

Lemma baddr_used v di bn : wf_slots sb v di -> 0 <= bn < MAXFILE -> baddr v di bn <> 0 ->
  nmeta sb <= baddr v di bn < sb_size sb /\ bit v sb (baddr v di bn) = true.
Proof.
  intros Hw Hb. pose proof (wl_used _ _ _ Hw bn) as H. unfold slot in H. rewrite (proj2 (Z.eqb_neq bn ind_slot)) in H by flia.
  apply H. flia.
Qed.

Lemma baddr_inj v di b1 b2 : wf_slots sb v di -> 0 <= b1 < MAXFILE -> 0 <= b2 < MAXFILE -> baddr v di b1 <> 0 ->
  baddr v di b1 = baddr v di b2 -> b1 = b2.
Proof.
  intros Hw H1 H2. pose proof (wl_inj _ _ _ Hw b1 b2) as H. unfold slot in H.
  rewrite (proj2 (Z.eqb_neq b1 ind_slot)), (proj2 (Z.eqb_neq b2 ind_slot)) in H by flia. apply H; flia.
Qed.

Lemma baddr_not_ind v di bn : wf_slots sb v di -> 0 <= bn < MAXFILE -> baddr v di bn <> 0 -> baddr v di bn <> d_addr di NDIRECT.
Proof.
  intros Hw H1 H2 E. pose proof (wl_inj _ _ _ Hw bn ind_slot) as H. unfold slot in H.
  rewrite (proj2 (Z.eqb_neq bn ind_slot)), Z.eqb_refl in H by flia. cut (bn = ind_slot); [flia|]. apply H; [flia|flia|done|done].
Qed.

(** A new block in an empty slot. *)
Lemma slot_alloc a a' di di' b s : fs_ok sb a -> wf_slots sb (t_view a) di -> first_free sb (t_view a) b -> wf_dinode di' ->
  (forall t, 0 <= t <= ind_slot -> slot (t_view a') di' t = if t =? s then b else slot (t_view a) di t) ->
  (forall c, 0 <= c < sb_size sb -> bit (t_view a') sb c = (c =? b) || bit (t_view a) sb c) ->
  wf_slots sb (t_view a') di'.
Proof.
  intros Hok Hw Hff Hdi Hs Hb. pose proof (first_free_data sb a b Hok Hff) as [Hd _]. pose proof (nmeta_pos sb (fo_sb _ _ Hok)) as Hn.
  split; [done|..].
  - intros t Ht. rewrite Hs by done. destruct (t =? s).
    + intros _. split; [done|]. rewrite Hb by lia. by rewrite Z.eqb_refl.
    + intros Hne. destruct (wl_used _ _ _ Hw t Ht Hne) as [H1 H2]. split; [done|]. rewrite Hb by lia. by rewrite H2, orb_true_r.
  - assert (forall t, 0 <= t <= ind_slot -> slot (t_view a) di t <> b) as Hnew.
    { intros t Ht E. destruct (wl_used _ _ _ Hw t Ht) as [_ Hu]; [lia|]. destruct Hff as (_ & Hf & _). congruence. }
    intros t u Ht Hu. rewrite !Hs by done. destruct (Z.eqb_spec t s) as [->|], (Z.eqb_spec u s) as [->|]; try done.
    + intros _ E. by destruct (Hnew u Hu).
    + intros _ E. by destruct (Hnew t Ht).
    + intros. by apply (wl_inj _ _ _ Hw).
Qed.

(** Allocation keeps the blocks in use outside the bitmap. *)
Lemma balloc_keeps a b c : fs_ok sb a -> first_free sb (t_view a) b -> 0 <= c < sb_size sb -> bit (t_view a) sb c = true ->
  ~ bitmap_block sb c -> t_view (t_balloc sb b a) c = t_view a c.
Proof.
  intros Hok Hff Hc Hb Hnb. rewrite (t_balloc_view sb a b c Hff). destruct (Z.eqb_spec c b) as [->|].
  - destruct Hff as (_ & Hf & _). congruence.
  - destruct (Z.eqb_spec c (BBLOCK b sb)) as [->|]; [|done]. destruct Hnb. apply BBLOCK_spec; [apply (fo_sb _ _ Hok)|apply Hff].
Qed.

Lemma data_not_bitmap c : nmeta sb <= c -> ~ bitmap_block sb c.
Proof. unfold nmeta. intros H ?. fslia. Qed.

Section Alloc.
Context (a : atx) (di : dinode) (b : Z) (Hok : fs_ok sb a) (Hw : wf_slots sb (t_view a) di) (Hff : first_free sb (t_view a) b).

Lemma alloc_bound : 0 <= b < 2 ^ 32 /\ b <> 0.
Proof. pose proof (first_free_data sb a b Hok Hff) as [Hd _]. pose proof (nmeta_pos sb (fo_sb _ _ Hok)). lia. Qed.

(** The indirect block is kept by an allocation. *)
Lemma ind_kept : d_addr di NDIRECT <> 0 -> t_view (t_balloc sb b a) (d_addr di NDIRECT) = t_view a (d_addr di NDIRECT).
Proof.
  intros Hi. destruct (ind_used _ _ Hw Hi) as [H1 H2]. pose proof (nmeta_pos sb (fo_sb _ _ Hok)).
  apply balloc_keeps; try done; [lia|]. apply data_not_bitmap; lia.
Qed.

(** A direct block. *)
Lemma slot_direct s t : 0 <= s < NDIRECT -> 0 <= t <= ind_slot ->
  slot (t_view (t_balloc sb b a)) (with_addr s b di) t = if t =? s then b else slot (t_view a) di t.
Proof.
  intros Hs Ht. pose proof (wd_addrs _ (wl_di _ _ _ Hw)) as Hl.
  assert (d_addr (with_addr s b di) NDIRECT = d_addr di NDIRECT) as E12.
  { rewrite addr_with_addr by flia. by rewrite (proj2 (Z.eqb_neq NDIRECT s)) by flia. }
  unfold slot, baddr. rewrite E12. destruct (Z.eqb_spec t ind_slot) as [->|].
  { by rewrite (proj2 (Z.eqb_neq ind_slot s)) by flia. }
  destruct (Z.ltb_spec t NDIRECT).
  - by rewrite addr_with_addr by flia.
  - rewrite (proj2 (Z.eqb_neq t s)) by lia. destruct (Z.eqb_spec (d_addr di NDIRECT) 0); [done|]. by rewrite ind_kept.
Qed.

(** The indirect block. *)
Lemma slot_indirect t : d_addr di NDIRECT = 0 -> 0 <= t <= ind_slot ->
  slot (t_view (t_balloc sb b a)) (with_addr NDIRECT b di) t = if t =? ind_slot then b else slot (t_view a) di t.
Proof.
  intros H0 Ht. pose proof (wd_addrs _ (wl_di _ _ _ Hw)) as Hl. unfold slot, baddr.
  rewrite !addr_with_addr by flia. rewrite Z.eqb_refl, H0. destruct (Z.eqb_spec t ind_slot); [done|].
  destruct (Z.ltb_spec t NDIRECT).
  - rewrite addr_with_addr by flia. by rewrite (proj2 (Z.eqb_neq t NDIRECT)) by lia.
  - rewrite (proj2 (Z.eqb_neq b 0)) by apply alloc_bound. rewrite (t_balloc_view sb a b b Hff), Z.eqb_refl.
    unfold get_le, sub. rewrite drop_replicate, take_replicate.
    generalize (Z.to_nat 4 `min` (1024 - Z.to_nat (4 * (t - NDIRECT))))%nat. intros m. by induction m as [|m IH]; [|cbn [replicate le_get]; rewrite IH].
Qed.

(** An entry of the indirect block. *)
Definition t_entry (s : Z) : atx :=
  let a1 := t_balloc sb b a in
  t_upd (d_addr di NDIRECT) (put_le (t_view a1 (d_addr di NDIRECT)) (4 * (s - NDIRECT)) 4 b) a1.

Lemma slot_entry s t : d_addr di NDIRECT <> 0 -> NDIRECT <= s < ind_slot -> 0 <= t <= ind_slot ->
  slot (t_view (t_entry s)) di t = if t =? s then b else slot (t_view a) di t.
Proof.
  intros Hi Hs Ht. destruct (fo_view _ _ (t_balloc_ok sb a Hok b Hff) (d_addr di NDIRECT)) as [Hl _].
  unfold slot, baddr. cbn [t_view t_entry t_upd]. rewrite upd_eq, (proj2 (Z.eqb_neq _ _) Hi).
  destruct (Z.eqb_spec t ind_slot) as [->|]; [by rewrite (proj2 (Z.eqb_neq ind_slot s)) by lia|].
  destruct (Z.ltb_spec t NDIRECT); [by rewrite (proj2 (Z.eqb_neq t s)) by lia|].
  destruct (Z.eqb_spec t s) as [->|Hne].
  - rewrite get_put_same by (unfold in_range; rewrite Hl; flia). apply Z.mod_small, alloc_bound.
  - rewrite get_put_other by (unfold in_range, apart; rewrite ?Hl; flia). by rewrite ind_kept.
Qed.
End Alloc.
End Slots.

(** ** Free blocks *)

Definition freeset sb (v : Z -> block) : gset Z := list_to_set (filter (fun c => bit v sb c = false) (upto (sb_size sb))).
Definition nfree sb (v : Z -> block) : Z := Z.of_nat (size (freeset sb v)).

Lemma elem_of_freeset sb v c : c ∈ freeset sb v <-> 0 <= c < sb_size sb /\ bit v sb c = false.
Proof. unfold freeset. rewrite elem_of_list_to_set, list_elem_of_filter, elem_of_upto. tauto. Qed.

Lemma nfree_first sb v : 0 <= sb_size sb -> 0 < nfree sb v -> exists b, first_free sb v b.
Proof.
  intros Hs Hn. destruct (first_free_dec sb v Hs) as [?|Hall]; [done|]. exfalso. unfold nfree in Hn.
  assert (freeset sb v = ∅) as E; [|rewrite E, size_empty in Hn; lia]. apply set_eq. intros c. rewrite elem_of_freeset.
  split; [|set_solver]. intros [H1 H2]. rewrite Hall in H2 by done. done.
Qed.

Lemma nfree_balloc sb a b : fs_ok sb a -> first_free sb (t_view a) b -> nfree sb (t_view (t_balloc sb b a)) = nfree sb (t_view a) - 1.
Proof.
  intros Hok Hff. assert (freeset sb (t_view a) = {[b]} ∪ freeset sb (t_view (t_balloc sb b a))) as E.
  { apply set_eq. intros c. rewrite elem_of_union, elem_of_singleton, !elem_of_freeset.
    destruct (Z.eq_dec c b) as [->|Hne].
    - destruct Hff as (H1 & H2 & _). tauto.
    - split.
      + intros [H1 H2]. right. split; [done|]. rewrite (t_balloc_bit sb a Hok b c) by done. by rewrite (proj2 (Z.eqb_neq _ _) Hne).
      + intros [?|[H1 H2]]; [done|]. split; [done|]. rewrite (t_balloc_bit sb a Hok b c) in H2 by done.
        by rewrite (proj2 (Z.eqb_neq _ _) Hne) in H2. }
  unfold nfree. rewrite E, size_union, size_singleton; [lia|]. intros c Hc. rewrite elem_of_singleton in Hc. subst c.
  rewrite elem_of_freeset, (t_balloc_bit sb a Hok b b), Z.eqb_refl; [by intros [_ ?]|done|apply Hff].
Qed.

(** Bits decide the free blocks. *)
Lemma nfree_ext sb v v' : (forall c, 0 <= c < sb_size sb -> bit v' sb c = bit v sb c) -> nfree sb v' = nfree sb v.
Proof.
  intros H. unfold nfree. replace (freeset sb v') with (freeset sb v); [done|]. apply set_eq. intros c. rewrite !elem_of_freeset.
  split; intros [H1 H2]; (split; [done|]); [rewrite H by done|rewrite <- H by done]; done.
Qed.

(** ** Files that grow

    What the operations on a file do to the disk: its blocks stay, new ones were free,
    and blocks of others do not change. *)

Record grows sb (a : atx) (di : dinode) (a' : atx) (di' : dinode) : Prop := {
  gr_ok : fs_ok sb a';
  gr_slots : wf_slots sb (t_view a') di';
  gr_held : t_held a' = t_held a;
  gr_type : di_type di' = di_type di /\ di_major di' = di_major di /\ di_minor di' = di_minor di /\ di_nlink di' = di_nlink di;
  gr_slot t : 0 <= t <= ind_slot -> slot (t_view a) di t <> 0 -> slot (t_view a') di' t = slot (t_view a) di t;
  gr_frame c : 0 <= c < sb_size sb -> bit (t_view a) sb c = true -> ~ bitmap_block sb c -> ~ owns (t_view a) di c ->
    t_view a' c = t_view a c;
  gr_bits c : 0 <= c < sb_size sb -> bit (t_view a) sb c = true -> bit (t_view a') sb c = true;
  gr_new c : 0 <= c < sb_size sb -> bit (t_view a') sb c = true -> bit (t_view a) sb c = true \/ owns (t_view a') di' c;
  gr_fresh c : owns (t_view a') di' c -> owns (t_view a) di c \/ bit (t_view a) sb c = false;
}.

Section Grows.
Context (sb : superblock).
Implicit Types (a : atx) (di : dinode).

Lemma grows_refl a di : fs_ok sb a -> wf_slots sb (t_view a) di -> grows sb a di a di.
Proof. intros. split; auto. Qed.

Lemma owns_kept a di a' di' c : grows sb a di a' di' -> owns (t_view a) di c -> owns (t_view a') di' c.
Proof. intros Hg (Hc & s & Hs & E). split; [done|]. exists s. split; [done|]. rewrite (gr_slot _ _ _ _ _ Hg) by (try done; by rewrite E). done. Qed.

Lemma owns_range a di c : fs_ok sb a -> wf_slots sb (t_view a) di -> owns (t_view a) di c ->
  nmeta sb <= c < sb_size sb /\ 0 <= c /\ bit (t_view a) sb c = true.
Proof.
  intros Hok Hw (Hc & s & Hs & <-). destruct (wl_used _ _ _ Hw s Hs Hc) as [H1 H2]. pose proof (nmeta_pos sb (fo_sb _ _ Hok)).
  split_and!; [lia..|done].
Qed.

Lemma grows_trans a1 di1 a2 di2 a3 di3 : grows sb a1 di1 a2 di2 -> grows sb a2 di2 a3 di3 -> grows sb a1 di1 a3 di3.
Proof.
  intros G1 G2. split; try apply G2.
  - by rewrite (gr_held _ _ _ _ _ G2), (gr_held _ _ _ _ _ G1).
  - pose proof (gr_type _ _ _ _ _ G1) as (A1 & A2 & A3 & A4). pose proof (gr_type _ _ _ _ _ G2) as (B1 & B2 & B3 & B4).
    rewrite B1, B2, B3, B4. done.
  - intros t Ht Hn. pose proof (gr_slot _ _ _ _ _ G1 t Ht Hn) as E. rewrite (gr_slot _ _ _ _ _ G2); [done|done|by rewrite E].
  - intros c Hc Hb Hnb Hno. rewrite (gr_frame _ _ _ _ _ G2); [by apply (gr_frame _ _ _ _ _ G1)|done|by apply (gr_bits _ _ _ _ _ G1)|done|].
    intros [?|?]%(gr_fresh _ _ _ _ _ G1); [done|congruence].
  - intros c Hc Hb. by apply (gr_bits _ _ _ _ _ G2), (gr_bits _ _ _ _ _ G1).
  - intros c Hc [H|H]%(gr_new _ _ _ _ _ G2); [|by right|done].
    destruct (gr_new _ _ _ _ _ G1 c Hc H) as [?|H1]; [by left|]. right. by eapply owns_kept.
  - intros c Ho. destruct (gr_fresh _ _ _ _ _ G2 c Ho) as [H|H]; [by apply (gr_fresh _ _ _ _ _ G1)|].
    right. destruct (bit (t_view a1) sb c) eqn:E; [|done].
    assert (0 <= c < sb_size sb) as Hc by (pose proof (owns_range a3 di3 c (gr_ok _ _ _ _ _ G2) (gr_slots _ _ _ _ _ G2) Ho); lia).
    by rewrite (gr_bits _ _ _ _ _ G1 c Hc E) in H.
Qed.

(** A new block in slot [s]. *)
Lemma grows_alloc a a' di di' b s : fs_ok sb a -> wf_slots sb (t_view a) di -> first_free sb (t_view a) b ->
  0 <= s <= ind_slot -> slot (t_view a) di s = 0 -> wf_dinode di' ->
  di_type di' = di_type di /\ di_major di' = di_major di /\ di_minor di' = di_minor di /\ di_nlink di' = di_nlink di ->
  (forall t, 0 <= t <= ind_slot -> slot (t_view a') di' t = if t =? s then b else slot (t_view a) di t) ->
  (forall c, 0 <= c < sb_size sb -> bit (t_view a') sb c = (c =? b) || bit (t_view a) sb c) ->
  fs_ok sb a' -> t_held a' = t_held a ->
  (forall c, c <> b -> ~ bitmap_block sb c -> ~ owns (t_view a) di c -> t_view a' c = t_view a c) ->
  grows sb a di a' di'.
Proof.
  intros Hok Hw Hff Hs H0 Hdi Hty Hsl Hb Hok' Hheld Hfr. destruct (alloc_bound sb a b Hok Hff) as [_ Hb0].
  split; try done.
  - by eapply (slot_alloc sb a a' di di' b s).
  - intros t Ht Hn. rewrite Hsl by done. destruct (Z.eqb_spec t s) as [->|]; [congruence|done].
  - intros c Hc Hbt Hnb Hno. apply Hfr; try done. intros ->. destruct Hff as (_ & Hf & _). congruence.
  - intros c Hc Hbt. rewrite Hb, Hbt by done. by rewrite orb_true_r.
  - intros c Hc. rewrite Hb by done. destruct (Z.eqb_spec c b) as [->|]; [|by left]. intros _. right. split; [done|].
    exists s. split; [done|]. by rewrite Hsl, Z.eqb_refl.
  - intros c (Hc & t & Ht & E). rewrite Hsl in E by done. destruct (t =? s).
    + subst c. right. apply Hff.
    + left. split; [done|]. by exists t.
Qed.
End Grows.

(** ** [bmap] *)

Lemma room_of_upd X n h b d a : room X n h (t_upd b d a) -> room X n h a.
Proof.
  intros [H1 H2 H3 H4]. cbn in *.
  assert (Z.of_nat (size (X ∪ t_logged a)) <= Z.of_nat (size (X ∪ ({[b]} ∪ t_logged a)))) by (apply Nat2Z.inj_le, subseteq_size; set_solver).
  split; lia.
Qed.

Section Bmap.
Context {S : Type} {K : Blocks S} {KOk : BlocksOk S} (Hdev : u32 k_dev = k_dev).
Context (sb : superblock) (X : gset Z) (HX : forall b, bitmap_block sb b -> b ∈ X).
Implicit Types (x : S) (a : atx) (ic : Z -> inode) (di : dinode).

(** What the indirect block costs of the log, and of the free blocks. *)
Definition icost a di : Z := if bool_decide (d_addr di NDIRECT <> 0 /\ d_addr di NDIRECT ∈ X ∪ t_logged a) then 0 else 1.
Definition fcost di : Z := if d_addr di NDIRECT =? 0 then 1 else 0.

Lemma icost_bound a di : 0 <= icost a di <= 1.
Proof. unfold icost. case_bool_decide; lia. Qed.

Lemma icost_mono a di a' di' : d_addr di' NDIRECT = d_addr di NDIRECT -> t_logged a ⊆ t_logged a' -> icost a' di' <= icost a di.
Proof using Type.
  intros E H. unfold icost. rewrite E. case_bool_decide as H1; case_bool_decide as H2; try lia. destruct H1. destruct H2 as [H2 H3]. split; [done|].
  by apply (union_mono_l X _ _ H).
Qed.

(** The block [b] of index [bn]: the old one, or a new one. *)
Record bmapped a di (bn b : Z) a' di' : Prop := {
  bm_grows : grows sb a di a' di';
  bm_addr : baddr (t_view a') di' bn = b;
  bm_nz : b <> 0;
  bm_size : di_size di' = di_size di;
  bm_data t : 0 <= t < MAXFILE -> baddr (t_view a) di t <> 0 -> t_view a' (baddr (t_view a) di t) = t_view a (baddr (t_view a) di t);
  bm_zero : baddr (t_view a) di bn = 0 -> t_view a' b = replicate 1024 0;
  bm_room n d : room X (n + 1 + icost a di) 2 a -> 0 <= n -> room X (n + icost a' di') 2 (t_upd b d a');
  bm_free m : m + 1 + fcost di <= nfree sb (t_view a) -> m + fcost di' <= nfree sb (t_view a');
}.

Lemma bmapped_found a di bn : fs_ok sb a -> wf_slots sb (t_view a) di -> baddr (t_view a) di bn <> 0 ->
  bmapped a di bn (baddr (t_view a) di bn) a di.
Proof.
  intros Hok Hw Hnz. split; try done.
  - by apply grows_refl.
  - intros n d Hr Hn. pose proof (icost_bound a di). apply room_upd; [|lia]. eapply room_le; [exact Hr|lia|lia].
  - intros m. lia.
Qed.

(** The room that an allocation leaves. *)
Lemma room_balloc a b n h : wf_sb sb -> 0 <= b < sb_size sb -> room X (n + 1) h a -> 0 <= n -> room X n h (t_balloc sb b a).
Proof.
  intros Hsb Hb Hr Hn. unfold t_balloc. apply room_upd; [|done]. apply room_upd_in; [|done]. apply HX. by apply BBLOCK_spec.
Qed.

Lemma bmapped_data a b t di : fs_ok sb a -> wf_slots sb (t_view a) di -> first_free sb (t_view a) b -> 0 <= t < MAXFILE ->
  baddr (t_view a) di t <> 0 -> t_view (t_balloc sb b a) (baddr (t_view a) di t) = t_view a (baddr (t_view a) di t).
Proof.
  intros Hok Hw Hff Ht Hnz. destruct (baddr_used sb _ _ t Hw Ht Hnz) as [H1 H2]. pose proof (nmeta_pos sb (fo_sb _ _ Hok)).
  apply balloc_keeps; try done; [lia|]. apply data_not_bitmap. lia.
Qed.

(** A new direct block. *)
Lemma bmapped_direct a di bn b : fs_ok sb a -> wf_slots sb (t_view a) di -> first_free sb (t_view a) b ->
  0 <= bn < NDIRECT -> baddr (t_view a) di bn = 0 -> bmapped a di bn b (t_balloc sb b a) (with_addr bn b di).
Proof.
  intros Hok Hw Hff Hbn H0. pose proof (alloc_bound sb a b Hok Hff) as [Hb Hb0]. pose proof (wd_addrs _ (wl_di _ _ _ Hw)) as Hl.
  assert (d_addr (with_addr bn b di) NDIRECT = d_addr di NDIRECT) as E12.
  { rewrite addr_with_addr by flia. by rewrite (proj2 (Z.eqb_neq NDIRECT bn)) by flia. }
  split; try done.
  - apply (grows_alloc sb a _ di _ b bn); try done; try flia.
    + unfold slot. by rewrite (proj2 (Z.eqb_neq bn ind_slot)) by flia.
    + apply wf_with_addr; [apply Hw|done].
    + intros t Ht. by apply slot_direct.
    + intros c Hc. by apply t_balloc_bit.
    + by apply t_balloc_ok.
    + intros c H1 H2 _. rewrite t_balloc_view by done. rewrite (proj2 (Z.eqb_neq _ _) H1).
      destruct (Z.eqb_spec c (BBLOCK b sb)) as [->|]; [|done]. destruct H2. apply BBLOCK_spec; [apply (fo_sb _ _ Hok)|apply Hff].
  - unfold baddr. rewrite (proj2 (Z.ltb_lt _ _)) by lia. rewrite addr_with_addr by flia. by rewrite Z.eqb_refl.
  - intros t Ht Hn. by apply bmapped_data.
  - intros _. rewrite t_balloc_view by done. by rewrite Z.eqb_refl.
  - intros n d Hr Hn. pose proof (icost_bound a di). apply room_upd_logged; [set_solver|].
    apply (room_le X (n + icost a di) 2); [|split; [pose proof (icost_bound (t_balloc sb b a) (with_addr bn b di)); lia|]|lia].
    + apply room_balloc; [apply (fo_sb _ _ Hok)|apply Hff| |lia]. eapply room_le; [exact Hr|lia|lia].
    + pose proof (icost_mono a di (t_balloc sb b a) (with_addr bn b di) E12 ltac:(set_solver)). lia.
  - intros m Hm. rewrite nfree_balloc by done. unfold fcost in *. rewrite E12. lia.
Qed.

(** A new indirect block. *)
Lemma indirect_grows a di i : fs_ok sb a -> wf_slots sb (t_view a) di -> first_free sb (t_view a) i -> d_addr di NDIRECT = 0 ->
  grows sb a di (t_balloc sb i a) (with_addr NDIRECT i di) /\
  d_addr (with_addr NDIRECT i di) NDIRECT = i /\ icost (t_balloc sb i a) (with_addr NDIRECT i di) = 0.
Proof.
  intros Hok Hw Hff H0. pose proof (alloc_bound sb a i Hok Hff) as [Hb Hb0]. pose proof (wd_addrs _ (wl_di _ _ _ Hw)) as Hl.
  assert (d_addr (with_addr NDIRECT i di) NDIRECT = i) as E12 by (rewrite addr_with_addr by flia; by rewrite Z.eqb_refl).
  split_and!; [|done|].
  - apply (grows_alloc sb a _ di _ i ind_slot); try done; try flia.
    + apply wf_with_addr; [apply Hw|done].
    + intros t Ht. by apply slot_indirect.
    + intros c Hc. by apply t_balloc_bit.
    + by apply t_balloc_ok.
    + intros c H1 H2 _. rewrite t_balloc_view by done. rewrite (proj2 (Z.eqb_neq _ _) H1).
      destruct (Z.eqb_spec c (BBLOCK i sb)) as [->|]; [|done]. destruct H2. apply BBLOCK_spec; [apply (fo_sb _ _ Hok)|apply Hff].
  - unfold icost. rewrite E12, bool_decide_eq_true_2; [done|]. split; [done|]. cbn. set_solver.
Qed.

(** A new block in the indirect block. *)
Lemma bmapped_entry a di bn b : fs_ok sb a -> wf_slots sb (t_view a) di -> first_free sb (t_view a) b ->
  NDIRECT <= bn < ind_slot -> d_addr di NDIRECT <> 0 -> baddr (t_view a) di bn = 0 -> bmapped a di bn b (t_entry sb a di b bn) di.
Proof.
  intros Hok Hw Hff Hbn Hi H0. pose proof (alloc_bound sb a b Hok Hff) as [Hb Hb0].
  destruct (ind_used sb _ _ Hw Hi) as [Hir Hib]. pose proof (t_balloc_ok sb a Hok b Hff) as Hok1.
  destruct (fo_view _ _ Hok1 (d_addr di NDIRECT)) as [Hl Hby]. pose proof (nmeta_pos sb (fo_sb _ _ Hok)) as Hnm.
  assert (b <> d_addr di NDIRECT) as Hne by (destruct Hff as (_ & Hf & _); congruence).
  assert (forall c, 0 <= c < sb_size sb -> bit (t_view (t_entry sb a di b bn)) sb c = (c =? b) || bit (t_view a) sb c) as Hbits.
  { intros c Hc. unfold t_entry. cbn [t_view t_upd]. rewrite bit_other; [by apply t_balloc_bit|apply (fo_sb _ _ Hok)| |done].
    apply data_not_bitmap. lia. }
  assert (fs_ok sb (t_entry sb a di b bn)) as Hok2.
  { split; [apply (fo_sb _ _ Hok)|..].
    - apply wf_view_upd; [apply Hok1| |by apply bytes_put_le]. rewrite length_put_le; [done|]. unfold in_range. rewrite Hl. flia.
    - intros c Hc. rewrite Hbits by lia. by rewrite (fo_meta _ _ Hok c Hc), orb_true_r.
    - apply (fo_home _ _ Hok). }
  assert (forall c, c <> b -> c <> d_addr di NDIRECT -> ~ bitmap_block sb c -> t_view (t_entry sb a di b bn) c = t_view a c) as Hkeep.
  { intros c H1 H2 H3. unfold t_entry. cbn [t_view t_upd]. rewrite upd_ne by done. rewrite (t_balloc_view sb a b c Hff).
    rewrite (proj2 (Z.eqb_neq _ _) H1). destruct (Z.eqb_spec c (BBLOCK b sb)) as [->|]; [|done].
    destruct H3. apply BBLOCK_spec; [apply (fo_sb _ _ Hok)|apply Hff]. }
  assert (owns (t_view a) di (d_addr di NDIRECT)) as Hown by (split; [done|]; exists ind_slot; split; [flia|done]).
  split; try done.
  - apply (grows_alloc sb a _ di _ b bn); try done; try flia.
    + unfold slot. by rewrite (proj2 (Z.eqb_neq bn ind_slot)) by flia.
    + apply Hw.
    + intros t Ht. by apply slot_entry.
    + intros c H1 H2 H3. apply Hkeep; try done. by intros ->.
  - pose proof (slot_entry sb a di b Hok Hw Hff bn bn Hi Hbn) as E. unfold slot in E.
    rewrite (proj2 (Z.eqb_neq bn ind_slot)), Z.eqb_refl in E by flia. apply E. flia.
  - intros t Ht Hn. destruct (baddr_used sb _ _ t Hw Ht Hn) as [H1 H2]. apply Hkeep.
    + destruct Hff as (_ & Hf & _). congruence.
    + by apply (baddr_not_ind sb).
    + apply data_not_bitmap. lia.
  - intros _. unfold t_entry. cbn [t_view t_upd]. rewrite upd_ne by done. rewrite (t_balloc_view sb a b b Hff). by rewrite Z.eqb_refl.
  - intros n d Hr Hn. unfold t_entry.
    replace (icost _ di) with 0; [|unfold icost; rewrite bool_decide_eq_true_2; [done|]; split; [done|cbn; set_solver]].
    rewrite Z.add_0_r. apply room_upd_logged; [cbn; set_solver|].
    assert (room X (n + icost a di) 2 (t_balloc sb b a)) as Hr1.
    { pose proof (icost_bound a di). apply room_balloc; [apply (fo_sb _ _ Hok)|apply Hff| |lia]. eapply room_le; [exact Hr|lia|lia]. }
    unfold icost in Hr1. case_bool_decide as Hc.
    + rewrite Z.add_0_r in Hr1. destruct Hc as [_ Hc]. apply elem_of_union in Hc as [Hc|Hc].
      * by apply room_upd_in.
      * apply room_upd_logged; [cbn; set_solver|done].
    + by apply room_upd.
  - intros m Hm. unfold t_entry. rewrite (nfree_ext sb (t_view (t_balloc sb b a))); [rewrite nfree_balloc by done; lia|].
    intros c Hc. cbn [t_view t_upd]. apply bit_other; [apply (fo_sb _ _ Hok)| |done]. apply data_not_bitmap. lia.
Qed.

(** First the indirect block, then the entry. *)
Lemma bmapped_indirect a di i bn b a' di' : fs_ok sb a -> wf_slots sb (t_view a) di -> first_free sb (t_view a) i ->
  d_addr di NDIRECT = 0 -> NDIRECT <= bn < ind_slot -> bmapped (t_balloc sb i a) (with_addr NDIRECT i di) bn b a' di' -> bmapped a di bn b a' di'.
Proof.
  intros Hok Hw Hff H0 Hbn B. destruct (indirect_grows a di i Hok Hw Hff H0) as (G & E12 & Ec).
  pose proof (alloc_bound sb a i Hok Hff) as [_ Hi0].
  assert (forall t, 0 <= t < MAXFILE -> baddr (t_view (t_balloc sb i a)) (with_addr NDIRECT i di) t = baddr (t_view a) di t) as Hsl.
  { intros t Ht. pose proof (slot_indirect sb a di i Hok Hw Hff t H0) as E. unfold slot in E.
    rewrite (proj2 (Z.eqb_neq t ind_slot)) in E by flia. apply E. flia. }
  split.
  - eapply grows_trans; [exact G|apply (bm_grows _ _ _ _ _ _ B)].
  - apply (bm_addr _ _ _ _ _ _ B).
  - apply (bm_nz _ _ _ _ _ _ B).
  - by rewrite (bm_size _ _ _ _ _ _ B).
  - intros t Ht Hn. pose proof (bmapped_data a i t di Hok Hw Hff Ht Hn) as E. rewrite <- E.
    pose proof (bm_data _ _ _ _ _ _ B t Ht) as D. rewrite (Hsl t Ht) in D. by apply D.
  - intros E. apply (bm_zero _ _ _ _ _ _ B). by rewrite Hsl by flia.
  - intros n d Hr Hn. apply (bm_room _ _ _ _ _ _ B); [|done]. rewrite Ec, Z.add_0_r.
    apply room_balloc; [apply (fo_sb _ _ Hok)|apply Hff| |lia].
    replace (icost a di) with 1 in Hr; [done|]. unfold icost. rewrite bool_decide_eq_false_2; [done|]. by intros [? _].
  - intros m Hm. apply (bm_free _ _ _ _ _ _ B). rewrite nfree_balloc by done. unfold fcost in *. rewrite H0 in Hm.
    rewrite E12, (proj2 (Z.eqb_neq _ _) Hi0). cbn in Hm. lia.
Qed.

(** The part of [bmap] after the indirect block is there. *)
Definition bmap_entry (dev addr k : Z) : M fs Z :=
  let! bp := blk (k_bread dev addr) in
  let! d := data bp in
  let! addr :=
    (if get_le d (4 * k) 4 =? 0 then
       let! addr := balloc dev in
       let! d := data bp in
       blk (k_set bp (put_le d (4 * k) 4 addr)) ;;
       blk (k_log_write bp) ;;
       ret addr
     else ret (get_le d (4 * k) 4)) in
  blk (k_brelse bp) ;;
  ret addr.

Lemma fs_ok_hold a i b : fs_ok sb a -> fs_ok sb (t_hold i b a).
Proof. intros [H1 H2 H3 H4]. by split. Qed.

Lemma bmap_entry_ok ic x a di bn n : fs_ok sb a -> wf_slots sb (t_view a) di -> brep x a -> t_held a = ∅ ->
  NDIRECT <= bn < ind_slot -> d_addr di NDIRECT <> 0 -> room X (n + 1 + icost a di) 2 a -> 0 <= n ->
  baddr (t_view a) di bn <> 0 \/ 0 < nfree sb (t_view a) ->
  exists b x' a', bmap_entry k_dev (d_addr di NDIRECT) (bn - NDIRECT) (Fs sb ic x) = Ok (b, Fs sb ic x') /\ brep x' a' /\
    bmapped a di bn b a' di.
Proof.
  intros Hok Hw Hr Hh Hbn Hi Hroom Hn Hfree. destruct (ind_used sb _ _ Hw Hi) as [Hir Hib].
  pose proof (nmeta_pos sb (fo_sb _ _ Hok)) as Hnm. pose proof (icost_bound a di).
  destruct (bread_run sb ic x a (d_addr di NDIRECT) X _ 2 Hr ltac:(lia) ltac:(intros i; by rewrite Hh) Hroom ltac:(lia)) as (j & x0 & H0 & Hj & R0).
  assert (baddr (t_view a) di bn = get_le (t_view a (d_addr di NDIRECT)) (4 * (bn - NDIRECT)) 4) as Eb.
  { unfold baddr. by rewrite (proj2 (Z.ltb_ge _ _)), (proj2 (Z.eqb_neq _ _) Hi) by lia. }
  unfold bmap_entry. setoid_rewrite (bind_ok _ _ _ _ _ H0).
  setoid_rewrite (bind_ok _ _ _ _ _ (data_run sb ic _ _ j _ R0 (lookup_insert_eq _ _ _))). cbn [t_view t_hold]. rewrite <- Eb.
  destruct (Z.eqb_spec (baddr (t_view a) di bn) 0) as [E0|E0].
  - destruct Hfree as [?|Hfree]; [done|]. destruct (nfree_first sb (t_view a)) as [b Hff]; [lia|done|].
    destruct (balloc_ok sb ic Hdev x0 (t_hold j (d_addr di NDIRECT) a) b X (n + icost a di) 1) as (x1 & H1 & R1); try done; try lia.
    { by apply fs_ok_hold. }
    { intros i c. cbn. rewrite Hh, insert_empty, lookup_singleton_Some. intros [_ <-]. split_and!; [apply data_not_bitmap; lia|lia|lia|done]. }
    { apply room_hold; [|lia]. eapply room_le; [exact Hroom|lia|lia]. }
    { apply HX, BBLOCK_spec; [apply (fo_sb _ _ Hok)|apply Hff]. }
    change (t_balloc sb b (t_hold j (d_addr di NDIRECT) a)) with (t_hold j (d_addr di NDIRECT) (t_balloc sb b a)) in R1.
    destruct (finish_run sb ic x1 (t_balloc sb b a) j (d_addr di NDIRECT)
      (put_le (t_view (t_balloc sb b a) (d_addr di NDIRECT)) (4 * (bn - NDIRECT)) 4 b) X (n + icost a di) 2 R1 Hj)
      as (x2 & x3 & x4 & H2 & H3 & H4 & R4).
    { apply room_balloc; [apply (fo_sb _ _ Hok)|apply Hff| |lia]. eapply room_le; [exact Hroom|lia|lia]. }
    { apply (fo_home _ _ Hok). destruct (fo_sb _ _ Hok). unfold nmeta in *. fslia. }
    exists b, x4, (t_entry sb a di b bn). split_and!; [|done|by apply bmapped_entry].
    erewrite bind_ok; [|mstep H1; mstep (data_run sb ic _ _ j _ R1 (lookup_insert_eq _ _ _)); mstep H2; mstep H3; reflexivity].
    mstep H4. done.
  - destruct (drop_run sb ic x0 a j _ R0 Hj) as (x1 & H1 & R1). exists (baddr (t_view a) di bn), x1, a.
    split_and!; [|done|by apply bmapped_found]. mcomp. mstep H1. done.
Qed.

Lemma same_di ic ip p : upd ic ip (set_di (i_di (ic ip)) (ic ip)) p = ic p.
Proof. unfold upd. destruct (Z.eqb_spec p ip) as [->|]; [by destruct (ic ip)|done]. Qed.

(** [bmap] of a block that is there changes nothing. *)
Lemma bmap_found ic x a ip bn Y n h : fs_ok sb a -> wf_slots sb (t_view a) (i_di (ic ip)) -> brep x a -> t_held a = ∅ -> room Y n h a -> 1 <= h ->
  i_dev (ic ip) = k_dev -> 0 <= bn < MAXFILE -> baddr (t_view a) (i_di (ic ip)) bn <> 0 ->
  exists x', bmap ip bn (Fs sb ic x) = Ok (baddr (t_view a) (i_di (ic ip)) bn, Fs sb ic x') /\ brep x' a.
Proof.
  intros Hok Hw Hr Hh Hroom Hh1 Hd Hbn Hnz. set (di := i_di (ic ip)) in *. pose proof (nmeta_pos sb (fo_sb _ _ Hok)) as Hnm.
  unfold bmap, baddr in *. setoid_rewrite bind_ok; [|reflexivity]. cbn [f_icache]. rewrite Hd. unfold i_addr. fold di.
  change (nth (Z.to_nat bn) (di_addrs di) 0) with (d_addr di bn). change (nth (Z.to_nat NDIRECT) (di_addrs di) 0) with (d_addr di NDIRECT).
  destruct (Z.ltb_spec bn NDIRECT) as [Hlt|Hge].
  { rewrite (proj2 (Z.eqb_neq _ _) Hnz). by exists x. }
  destruct (Z.eqb_spec (d_addr di NDIRECT) 0) as [|Hi]; [done|]. destruct (ind_used sb _ _ Hw Hi) as [Hir Hib].
  rewrite (proj2 (Z.ltb_lt (bn - NDIRECT) NINDIRECT)) by flia.
  destruct (bread_run sb ic x a (d_addr di NDIRECT) Y n h Hr ltac:(lia) ltac:(intros i; by rewrite Hh) Hroom Hh1) as (j & x0 & H0 & Hj & R0).
  destruct (drop_run sb ic x0 a j _ R0 Hj) as (x1 & H1 & R1). exists x1. split; [|done].
  mcomp. mstep H0. mstep (data_run sb ic _ _ j _ R0 (lookup_insert_eq _ _ _)). cbn [t_view t_hold].
  rewrite (proj2 (Z.eqb_neq _ _) Hnz). mcomp. mstep H1. done.
Qed.

Lemma bmap_ok ic x a ip bn n : fs_ok sb a -> wf_slots sb (t_view a) (i_di (ic ip)) -> brep x a -> t_held a = ∅ ->
  i_dev (ic ip) = k_dev -> 0 <= bn < MAXFILE -> room X (n + 1 + icost a (i_di (ic ip))) 2 a -> 0 <= n ->
  1 + fcost (i_di (ic ip)) <= nfree sb (t_view a) ->
  exists b ic' x' a' di', bmap ip bn (Fs sb ic x) = Ok (b, Fs sb ic' x') /\ brep x' a' /\
    same_icache ic' (upd ic ip (set_di di' (ic ip))) /\ bmapped a (i_di (ic ip)) bn b a' di'.
Proof.
  intros Hok Hw Hr Hh Hd Hbn Hroom Hn Hfree. set (di := i_di (ic ip)) in *. pose proof (nmeta_pos sb (fo_sb _ _ Hok)) as Hnm.
  pose proof (icost_bound a di) as Hic.
  assert (0 <= fcost di <= 1) as Hfc by (unfold fcost; destruct (_ =? _); lia).
  destruct (Z.eq_dec (baddr (t_view a) di bn) 0) as [E0|E0].
  2: { destruct (bmap_found ic x a ip bn X (n + 1 + icost a di) 2) as (x' & H & R); try done.
    exists (baddr (t_view a) di bn), ic, x', a, di. split_and!; [done|done|intros p; by rewrite same_di|by apply bmapped_found]. }
  unfold bmap. setoid_rewrite bind_ok; [|reflexivity]. cbn [f_icache]. rewrite Hd. unfold i_addr. fold di.
  change (nth (Z.to_nat bn) (di_addrs di) 0) with (d_addr di bn). change (nth (Z.to_nat NDIRECT) (di_addrs di) 0) with (d_addr di NDIRECT).
  destruct (Z.ltb_spec bn NDIRECT) as [Hlt|Hge].
  - destruct (nfree_first sb (t_view a)) as [b Hff]; [lia|lia|].
    destruct (balloc_ok sb ic Hdev x a b X (n + icost a di) 2) as (x1 & H1 & R1); try done; try lia.
    { intros i c. by rewrite Hh. }
    { eapply room_le; [exact Hroom|lia|lia]. }
    { apply HX, BBLOCK_spec; [apply (fo_sb _ _ Hok)|apply Hff]. }
    eexists b, _, x1, (t_balloc sb b a), (with_addr bn b di). split_and!; [|done|done|apply bmapped_direct; try done; lia].
    unfold baddr in E0. rewrite (proj2 (Z.ltb_lt _ _) Hlt) in E0. rewrite E0, Z.eqb_refl. mstep H1. mcomp. done.
  - rewrite (proj2 (Z.ltb_lt (bn - NDIRECT) NINDIRECT)) by flia. fold (bmap_entry k_dev).
    destruct (Z.eqb_spec (d_addr di NDIRECT) 0) as [E12|E12].
    + destruct (nfree_first sb (t_view a)) as [i Hff]; [lia|lia|].
      destruct (balloc_ok sb ic Hdev x a i X (n + icost a di) 2) as (x1 & H1 & R1); try done; try lia.
      { intros j c. by rewrite Hh. }
      { eapply room_le; [exact Hroom|lia|lia]. }
      { apply HX, BBLOCK_spec; [apply (fo_sb _ _ Hok)|apply Hff]. }
      destruct (indirect_grows a di i Hok Hw Hff E12) as (G & Ei & Ec). set (ic1 := upd ic ip (set_di (with_addr NDIRECT i di) (ic ip))).
      destruct (bmap_entry_ok ic1 x1 (t_balloc sb i a) (with_addr NDIRECT i di) bn n) as (b & x2 & a2 & H2 & R2 & B2);
        try done; try apply G; try flia.
      { rewrite Ei. apply (alloc_bound sb a i Hok Hff). }
      { rewrite Ec, Z.add_0_r. apply room_balloc; [apply (fo_sb _ _ Hok)|apply Hff| |lia].
        replace (icost a di) with 1 in Hroom; [done|]. unfold icost. rewrite bool_decide_eq_false_2; [done|]. by intros [? _]. }
      { right. rewrite nfree_balloc by done. unfold fcost in Hfree. rewrite E12 in Hfree. cbn in Hfree. lia. }
      rewrite Ei in H2. exists b, ic1, x2, a2, (with_addr NDIRECT i di). split_and!; [|done|done|by eapply bmapped_indirect; [..|flia|exact B2]].
      erewrite bind_ok; [|mstep H1; mcomp; reflexivity]. exact H2.
    + destruct (bmap_entry_ok ic x a di bn n) as (b & x2 & a2 & H2 & R2 & B2); try done; [flia|right; lia|].
      exists b, ic, x2, a2, di. split_and!; [|done|intros p; by rewrite same_di|done]. mcomp. exact H2.
Qed.
End Bmap.

(** ** [readi] *)

Lemma length_content v di : 0 <= di_size di -> zlen (content v di) = di_size di.
Proof. intros. unfold content. rewrite length_fmap, length_upto. lia. Qed.

Lemma content_lookup v di k : 0 <= k < di_size di -> content v di !! Z.to_nat k = Some (fbyte v di k).
Proof. intros Hk. unfold content. rewrite list_lookup_fmap, upto_lookup by done. done. Qed.

(** A piece of the content inside one block. *)
Lemma content_sub v di k m : wf_view v -> 0 <= k -> 0 <= m -> k mod BSIZE + m <= BSIZE -> k + m <= di_size di ->
  sub (content v di) k m = sub (v (baddr v di (k / BSIZE))) (k mod BSIZE) m.
Proof.
  intros Hv Hk Hm Hb Hs. destruct (Hv (baddr v di (k / BSIZE))) as [Hl _]. apply list_eq. intros i.
  rewrite !sub_lookup by (unfold in_range; rewrite ?length_content, ?Hl by lia; fslia).
  destruct (Z.ltb_spec (Z.of_nat i) m); [|done]. replace (Z.to_nat k + i)%nat with (Z.to_nat (k + Z.of_nat i)) by lia.
  rewrite content_lookup by lia. unfold fbyte, byte_at.
  replace ((k + Z.of_nat i) / BSIZE) with (k / BSIZE) by fslia. replace ((k + Z.of_nat i) mod BSIZE) with (k mod BSIZE + Z.of_nat i) by fslia.
  rewrite nth_lookup. replace (Z.to_nat (k mod BSIZE) + i)%nat with (Z.to_nat (k mod BSIZE + Z.of_nat i)) by fslia.
  destruct (lookup_lt_is_Some_2 (v (baddr v di (k / BSIZE))) (Z.to_nat (k mod BSIZE + Z.of_nat i))) as [y ->]; [fslia|done].
Qed.

Lemma u64_add d k m : u64 (u64 (d + k) + m) = u64 (d + (k + m)).
Proof. unfold u64. rewrite Zplus_mod_idemp_l. f_equal. lia. Qed.

(** The blocks from [off] on that [rem] bytes touch. *)
Definition io_blocks (off rem : Z) : Z := if rem =? 0 then 0 else (off mod BSIZE + rem + BSIZE - 1) / BSIZE.

Lemma io_blocks_step off rem : 0 <= off -> 0 < rem ->
  let m := Z.min rem (BSIZE - off mod BSIZE) in 0 < m <= rem /\ io_blocks (off + m) (rem - m) = io_blocks off rem - 1 /\ 0 < io_blocks off rem.
Proof.
  intros Hoff Hrem m. unfold io_blocks, m. rewrite (proj2 (Z.eqb_neq rem 0)) by lia.
  destruct (Z.min_spec rem (BSIZE - off mod BSIZE)) as [[H ->]|[H ->]].
  - rewrite Z.sub_diag. cbn. fslia.
  - destruct (Z.eqb_spec (rem - (BSIZE - off mod BSIZE)) 0); fslia.
Qed.

Lemma io_blocks_fuel off n : 0 <= off -> 0 <= n -> 0 <= io_blocks off n <= n / BSIZE + 2.
Proof. intros. unfold io_blocks. destruct (Z.eqb_spec n 0); fslia. Qed.

Lemma io_bn k : 0 <= k < MAXFILE * BSIZE -> 0 <= k / BSIZE < MAXFILE /\ k / BSIZE * BSIZE <= k.
Proof. change (MAXFILE * BSIZE) with 274432. change MAXFILE with 268. fslia. Qed.

Section Readi.
Context {S : Type} {K : Blocks S} {KOk : BlocksOk S}.
Context (sb : superblock) (X : gset Z) (n h : Z) (ic : Z -> inode) (ip : Z) (a : atx).
Context (Hok : fs_ok sb a) (Hw : wf_file sb (t_view a) (i_di (ic ip))) (Hdev : i_dev (ic ip) = k_dev).
Context (Hheld : t_held a = ∅) (Hroom : room X n h a) (Hh : 1 <= h).

(** The memory that is copied to: [R bs] when [bs] has been stored from [dst] on, [Rf bs]
    when the store after [bs] failed. *)
Context {T : Type} (out : Z -> list Z -> M T Z) (dst : Z) (R Rf : list Z -> T -> Prop).
Hypothesis Hout : forall bs0 bs t, R bs0 t -> exists r t', out (u64 (dst + zlen bs0)) bs t = Ok (r, t') /\
  (r = 0 /\ R (bs0 ++ bs) t' \/ r = -1 /\ Rf bs0 t').

Let di := i_di (ic ip).
Let v := t_view a.

Lemma readi_loop_ok cnt off : 0 <= off -> off + cnt <= di_size di -> forall fuel tot x t,
  0 <= tot <= cnt -> io_blocks (off + tot) (cnt - tot) <= Z.of_nat fuel -> brep x a -> R (sub (content v di) off tot) t ->
  exists j x' t', readi_loop out fuel ip (u64 (dst + tot)) (off + tot) cnt tot (Fs sb ic x, t) = Ok (j, (Fs sb ic x', t')) /\ brep x' a /\
    (j = cnt /\ R (sub (content v di) off cnt) t' \/ tot <= j < cnt /\ Rf (sub (content v di) off j) t').
Proof.
  intros Hoff Hsz fuel. pose proof (wf_size _ _ _ Hw) as Hmax. fold di in Hmax. pose proof (nmeta_pos sb (fo_sb _ _ Hok)) as Hnm.
  induction fuel as [|fuel IH]; intros tot x t Htot Hfuel Hr HR.
  { destruct (Z.eq_dec tot cnt) as [->|]; [|destruct (io_blocks_step (off + tot) (cnt - tot)) as (_ & _ & ?); lia].
    cbn [readi_loop]. rewrite (proj2 (Z.ltb_ge cnt cnt)) by lia. exists cnt, x, t. split_and!; [done|done|by left]. }
  cbn [readi_loop]. destruct (Z.ltb_spec tot cnt) as [Hlt|Hge].
  2: { replace tot with cnt in * by lia. exists cnt, x, t. split_and!; [done|done|by left]. }
  destruct (io_blocks_step (off + tot) (cnt - tot)) as (Hm & Hstep & _); [lia|lia|]. set (m := Z.min _ _) in *.
  set (bn := (off + tot) / BSIZE). destruct (io_bn (off + tot)) as [Hbn Hbn']; [lia|]. fold bn in Hbn, Hbn'.
  assert (baddr v di bn <> 0) as Hnz by (apply (wf_alloc _ _ _ Hw); fold di; lia).
  destruct (bmap_found sb ic x a ip bn X n h Hok (wf_slots_ok _ _ _ Hw) Hr Hheld Hroom Hh Hdev Hbn Hnz) as (x1 & H1 & R1).
  destruct (baddr_used sb _ _ bn (wf_slots_ok _ _ _ Hw) Hbn Hnz) as [Hu _]. fold v di in H1, Hu |- *.
  destruct (bread_run sb ic x1 a (baddr v di bn) X n h R1 ltac:(lia) ltac:(intros i; by rewrite Hheld) Hroom Hh) as (j & x2 & H2 & Hj & R2).
  destruct (drop_run sb ic x2 a j _ R2 Hj) as (x3 & H3 & R3).
  assert (zlen (sub (content v di) off tot) = tot) as El by (apply length_sub; unfold in_range; rewrite length_content; lia).
  destruct (Hout (sub (content v di) off tot) (sub (v (baddr v di bn)) ((off + tot) mod BSIZE) m) t HR) as (r & t1 & Ho & Hcase).
  rewrite El in Ho. unfold in_fs, in_mem.
  erewrite bind_ok; [|by apply zoom_ok; exact H1]. erewrite bind_ok; [|by apply zoom_ok]. cbn [fst snd f_icache]. rewrite Hdev.
  erewrite bind_ok; [|by apply zoom_ok; exact H2]. erewrite bind_ok; [|by apply zoom_ok; apply (data_run sb ic _ _ j _ R2 (lookup_insert_eq _ _ _))].
  cbn [t_view t_hold fst snd]. fold v. erewrite bind_ok; [|by apply zoom_ok; exact Ho]. cbn [fst snd].
  erewrite bind_ok; [|by apply zoom_ok; exact H3]. cbn [fst snd]. destruct Hcase as [[-> HR']|[-> HR']]; cbn [Z.eqb].
  - assert (sub (content v di) off (tot + m) = sub (content v di) off tot ++ sub (v (baddr v di bn)) ((off + tot) mod BSIZE) m) as E.
    { rewrite sub_app by (rewrite ?length_content; lia). f_equal. apply content_sub; [apply (fo_view _ _ Hok)|lia|lia|unfold m; lia|lia]. }
    assert (di_size di <= 274432) as Hmx by exact Hmax. rewrite u64_add, !u32_small by lia.
    replace (off + tot + m) with (off + (tot + m)) by lia.
    destruct (IH (tot + m) x3 t1) as (k & x' & t' & Hrun & Rx & Hk); [lia| |done|by rewrite E|].
    { replace (cnt - (tot + m)) with (cnt - tot - m) by lia. replace (off + (tot + m)) with (off + tot + m) by lia. lia. }
    exists k, x', t'. split_and!; [exact Hrun|done|]. destruct Hk as [?|[? ?]]; [by left|]. right. split; [lia|done].
  - exists tot, x3, t1. split_and!; [done|done|]. right. split; [lia|done].
Qed.

(** [readi] of [cnt] bytes at [off]: the bytes of the content that there are. *)
Lemma readi_ok off cnt x t : 0 <= off < 2 ^ 32 -> 0 <= cnt < 2 ^ 32 -> brep x a -> R [] t ->
  exists j x' t', readi out ip (u64 dst) off cnt (Fs sb ic x, t) = Ok (j, (Fs sb ic x', t')) /\ brep x' a /\
    let want := if (di_size di <? off) || (2 ^ 32 <=? off + cnt) then 0 else Z.min cnt (di_size di - off) in
    (j = want /\ R (sub (content v di) off want) t' \/ 0 <= j < want /\ Rf (sub (content v di) off j) t').
Proof.
  intros Hoff Hcnt Hr HR. pose proof (wf_size _ _ _ Hw) as Hmax. pose proof (wd_size _ (wl_di _ _ _ (wf_slots_ok _ _ _ Hw))) as Hsz.
  fold di in Hmax, Hsz. change (MAXFILE * BSIZE) with 274432 in Hmax.
  assert (u32 (off + cnt) <? off = (2 ^ 32 <=? off + cnt)) as Eov.
  { unfold u32. destruct (Z.leb_spec (2 ^ 32) (off + cnt)); [apply Z.ltb_lt|apply Z.ltb_ge]; dlia. }
  unfold readi. setoid_rewrite (bind_ok _ _ _ (ic ip) (Fs sb ic x, t)); [|done]. rewrite Eov. change (i_size (ic ip)) with (di_size di).
  destruct (_ || _) eqn:Eo.
  { exists 0, x, t. split_and!; [done|done|]. left. by rewrite sub_zero. }
  bsplit. set (want := Z.min cnt (di_size di - off)).
  replace (if di_size di <? u32 (off + cnt) then u32 (di_size di - off) else cnt) with want.
  2: { rewrite !u32_small by lia. unfold want. destruct (Z.ltb_spec (di_size di) (off + cnt)); lia. }
  destruct (readi_loop_ok want off ltac:(lia) ltac:(lia) (io_fuel want) 0 x t) as (j & x' & t' & Hrun & Rx & Hj); try done; [lia| |].
  { rewrite Z.add_0_r, Z.sub_0_r. pose proof (io_blocks_fuel off want). unfold io_fuel. lia. }
  rewrite !Z.add_0_r in Hrun. exists j, x', t'. split_and!; [|done|destruct Hj as [?|[? ?]]; [by left|right; split; [lia|done]]].
  mstep Hrun. unfold ret. rewrite i32_small; [done|]. destruct Hj as [[-> _]|[? _]]; lia.
Qed.
End Readi.

(** ** [writei] *)

Section Writes.
Context (sb : superblock).
Implicit Types (a : atx) (di : dinode).

Lemma slot_data a di b d bn : wf_slots sb (t_view a) di -> 0 <= bn < MAXFILE -> baddr (t_view a) di bn = b -> b <> 0 ->
  forall t, slot (t_view (t_upd b d a)) di t = slot (t_view a) di t.
Proof.
  intros Hw Hbn <- Hnz t. pose proof (baddr_not_ind sb _ _ bn Hw Hbn Hnz) as Hne. unfold slot, baddr at 1 3. cbn [t_view t_upd].
  destruct (t =? ind_slot); [done|]. destruct (t <? NDIRECT); [done|]. by rewrite upd_ne by (by apply not_eq_sym).
Qed.

Lemma baddr_data a di b d bn : wf_slots sb (t_view a) di -> 0 <= bn < MAXFILE -> baddr (t_view a) di bn = b -> b <> 0 ->
  forall t, 0 <= t < MAXFILE -> baddr (t_view (t_upd b d a)) di t = baddr (t_view a) di t.
Proof.
  intros Hw Hbn E Hnz t Ht. pose proof (slot_data a di b d bn Hw Hbn E Hnz t) as H. unfold slot in H.
  by rewrite (proj2 (Z.eqb_neq t ind_slot)) in H by flia.
Qed.

Lemma grows_data a di b d bn : fs_ok sb a -> wf_slots sb (t_view a) di -> 0 <= bn < MAXFILE -> baddr (t_view a) di bn = b -> b <> 0 ->
  length d = 1024%nat -> bytes d -> grows sb a di (t_upd b d a) di.
Proof.
  intros Hok Hw Hbn E Hnz Hl Hby. pose proof (slot_data a di b d bn Hw Hbn E Hnz) as Hs.
  destruct (baddr_used sb _ _ bn Hw Hbn ltac:(by rewrite E)) as [Hr Hb]. rewrite E in Hr, Hb. pose proof (nmeta_pos sb (fo_sb _ _ Hok)).
  assert (forall c, 0 <= c < sb_size sb -> bit (t_view (t_upd b d a)) sb c = bit (t_view a) sb c) as Hbit.
  { intros c Hc. apply bit_other; [apply (fo_sb _ _ Hok)|apply data_not_bitmap; lia|done]. }
  assert (forall c, owns (t_view (t_upd b d a)) di c <-> owns (t_view a) di c) as Ho.
  { intros c. unfold owns. by setoid_rewrite Hs. }
  split; try done.
  - split; [apply (fo_sb _ _ Hok)|apply wf_view_upd; [apply (fo_view _ _ Hok)|done|done]| |apply (fo_home _ _ Hok)].
    intros c Hc. rewrite Hbit by lia. by apply (fo_meta _ _ Hok).
  - split; [apply Hw|..].
    + intros s Hsr. rewrite Hs. intros Hn. destruct (wl_used _ _ _ Hw s Hsr Hn) as [? ?]. rewrite Hbit by lia. done.
    + intros s t Hsr Ht. rewrite !Hs. by apply (wl_inj _ _ _ Hw).
  - intros c Hc _ _ Hno. cbn [t_view t_upd]. apply upd_ne. intros ->. apply Hno. split; [done|]. exists bn. split; [flia|].
    unfold slot. by rewrite (proj2 (Z.eqb_neq bn ind_slot)) by flia.
  - intros c Hc. by rewrite Hbit.
  - intros c Hc. rewrite Hbit by done. by left.
  - intros c. rewrite Ho. by left.
Qed.

(** The bytes of the file after one of its blocks was overwritten. *)
Lemma fbyte_data a di b bn o bs k : wf_view (t_view a) -> wf_slots sb (t_view a) di -> 0 <= bn < MAXFILE ->
  baddr (t_view a) di bn = b -> b <> 0 -> 0 <= o -> o + zlen bs <= BSIZE -> 0 <= k < MAXFILE * BSIZE -> baddr (t_view a) di (k / BSIZE) <> 0 ->
  fbyte (t_view (t_upd b (splice (t_view a b) o bs) a)) di k =
    if (bn * BSIZE + o <=? k) && (k <? bn * BSIZE + o + zlen bs) then nth (Z.to_nat (k - (bn * BSIZE + o))) bs 0 else fbyte (t_view a) di k.
Proof.
  intros Hv Hw Hbn E Hnz Ho Hlen Hk Hnz'. destruct (Hv b) as [Hl _]. destruct (io_bn k Hk) as [Hkb _].
  unfold fbyte. rewrite (baddr_data a di b _ bn Hw Hbn E Hnz) by done. cbn [t_view t_upd]. unfold upd.
  destruct (Z.eqb_spec (baddr (t_view a) di (k / BSIZE)) b) as [Eb|Eb].
  - assert (k / BSIZE = bn) as Ek by (apply (baddr_inj sb _ _ _ _ Hw Hkb Hbn Hnz'); congruence).
    unfold byte_at. rewrite Eb, nth_lookup, splice_lookup by (unfold in_range; rewrite Hl; fslia).
    replace (Z.of_nat (Z.to_nat (k mod BSIZE))) with (k mod BSIZE) by fslia.
    destruct (_ && _) eqn:C1, ((bn * BSIZE + o <=? k) && _) eqn:C2; bsplit; try done.
    + rewrite nth_lookup. do 2 f_equal. fslia.
    + exfalso. apply andb_false_iff in C2 as [?|?]; bsplit; fslia.
    + exfalso. apply andb_false_iff in C1 as [?|?]; bsplit; fslia.
    + by rewrite nth_lookup.
  - destruct (_ && _) eqn:C2; [|done]. bsplit. exfalso. apply Eb. rewrite <- E. f_equal. fslia.
Qed.
End Writes.

(** ** A file that nobody touches *)

Section Ext.
Context (sb : superblock) (v v' : Z -> block) (di : dinode).
Context (Hown : forall c, owns v di c -> v' c = v c).

Lemma slot_ext t : slot v' di t = slot v di t.
Proof.
  unfold slot, baddr. destruct (t =? ind_slot); [done|]. destruct (t <? NDIRECT); [done|].
  destruct (Z.eqb_spec (d_addr di NDIRECT) 0); [done|]. rewrite Hown; [done|]. split; [done|]. exists ind_slot. split; [flia|done].
Qed.

Lemma baddr_ext t : 0 <= t < MAXFILE -> baddr v' di t = baddr v di t.
Proof. intros Ht. pose proof (slot_ext t) as H. unfold slot in H. by rewrite (proj2 (Z.eqb_neq t ind_slot)) in H by flia. Qed.

Lemma owns_ext c : owns v' di c <-> owns v di c.
Proof. unfold owns. by setoid_rewrite slot_ext. Qed.

Lemma wf_slots_ext : (forall c, owns v di c -> bit v' sb c = bit v sb c) -> wf_slots sb v di -> wf_slots sb v' di.
Proof.
  intros Hb Hw. split; [apply Hw|..].
  - intros s Hs. rewrite slot_ext. intros Hn. destruct (wl_used _ _ _ Hw s Hs Hn) as [H1 H2]. split; [done|].
    rewrite Hb; [done|]. split; [done|]. by exists s.
  - intros s t Hs Ht. rewrite !slot_ext. by apply (wl_inj _ _ _ Hw).
Qed.

Lemma wf_file_ext : (forall c, owns v di c -> bit v' sb c = bit v sb c) -> wf_file sb v di -> wf_file sb v' di.
Proof.
  intros Hb Hw. split; [apply wf_slots_ext; [done|apply Hw]|apply Hw|].
  intros bn Hbn Hsz. pose proof (wf_size _ _ _ Hw). rewrite baddr_ext by flia. by apply (wf_alloc _ _ _ Hw).
Qed.

Lemma content_ext : wf_file sb v di -> content v' di = content v di.
Proof.
  intros Hw. unfold content. apply list_fmap_ext. intros i k Hk. apply list_elem_of_lookup_2, elem_of_upto in Hk.
  pose proof (wf_size _ _ _ Hw). destruct (io_bn k) as [Hb Hb']; [lia|]. unfold fbyte. rewrite baddr_ext by done.
  rewrite Hown; [done|]. split; [apply (wf_alloc _ _ _ Hw); lia|]. exists (k / BSIZE). split; [flia|].
  unfold slot. by rewrite (proj2 (Z.eqb_neq (k / BSIZE) ind_slot)) by flia.
Qed.
End Ext.
