(* ===== verification/FsWrite.v ===== *)
(** * [writei], [readi] and [itrunc] as operations on the content of a file *)

From S2P Require Import Prelude Bytes Riscv Cache Blocks Fs FsSpec FsFile.

(** ** The loop of [writei] *)

(** The state after [tot] bytes of [dat] were written at [off]: a file that grew, with the
    new bytes there and the old ones elsewhere. *)
Record wstate sb (a0 : atx) (di0 : dinode) (off : Z) (dat : list Z) (tot : Z) (a : atx) (di : dinode) : Prop := {
  wst_grows : grows sb a0 di0 a di;
  wst_size : di_size di = di_size di0;
  wst_alloc k : off <= k < off + tot -> baddr (t_view a) di (k / BSIZE) <> 0;
  wst_new k : off <= k < off + tot -> fbyte (t_view a) di k = nth (Z.to_nat (k - off)) dat 0;
  wst_old k : 0 <= k < di_size di0 -> ~ off <= k < off + tot -> fbyte (t_view a) di k = fbyte (t_view a0) di0 k;
}.

Lemma nth_sub bs k m i : in_range bs k m -> 0 <= i < m -> nth (Z.to_nat i) (sub bs k m) 0 = nth (Z.to_nat (k + i)) bs 0.
Proof.
  intros Hr Hi. rewrite !nth_lookup, sub_lookup by done. destruct Hr as (? & ? & ?). rewrite (proj2 (Z.ltb_lt _ _)) by lia.
  do 2 f_equal. lia.
Qed.

(** [bmap] does not change the bytes of the file. *)
Lemma fbyte_bmapped sb X a di bn b a' di' k : bmapped sb X a di bn b a' di' -> 0 <= k < MAXFILE * BSIZE ->
  baddr (t_view a) di (k / BSIZE) <> 0 ->
  baddr (t_view a') di' (k / BSIZE) = baddr (t_view a) di (k / BSIZE) /\ fbyte (t_view a') di' k = fbyte (t_view a) di k.
Proof.
  intros B Hk Hnz. destruct (io_bn k Hk) as [Hb _]. pose proof (gr_slot _ _ _ _ _ (bm_grows _ _ _ _ _ _ _ _ B) (k / BSIZE)) as E.
  unfold slot in E. rewrite (proj2 (Z.eqb_neq (k / BSIZE) ind_slot)) in E by flia.
  unfold fbyte. rewrite E by (done || flia). split; [done|]. by rewrite (bm_data _ _ _ _ _ _ _ _ B).
Qed.

Lemma wstate_start sb a di off dat : fs_ok sb a -> wf_file sb (t_view a) di -> wstate sb a di off dat 0 a di.
Proof.
  intros Hok Hw. split; try done; try (intros; lia). apply grows_refl; [done|]. apply (wf_slots_ok _ _ _ Hw).
Qed.

(** The blocks of the old content stay. *)
Lemma wstate_nz sb a0 di0 off dat tot a di k : wf_file sb (t_view a0) di0 -> wstate sb a0 di0 off dat tot a di -> 0 <= k < di_size di0 ->
  baddr (t_view a) di (k / BSIZE) <> 0.
Proof.
  intros Hw W Hk. pose proof (wf_size _ _ _ Hw) as Hmax. destruct (io_bn k) as [Hb Hb']; [lia|].
  assert (baddr (t_view a0) di0 (k / BSIZE) <> 0) as Hnz by (apply (wf_alloc _ _ _ Hw); lia).
  pose proof (gr_slot _ _ _ _ _ (wst_grows _ _ _ _ _ _ _ _ W) (k / BSIZE)) as E. unfold slot in E.
  rewrite (proj2 (Z.eqb_neq (k / BSIZE) ind_slot)) in E by flia. rewrite E by (done || flia). done.
Qed.

(** One round of the loop. *)
Lemma wstate_step sb X a0 di0 off dat tot a di b a1 di1 : fs_ok sb a0 -> wf_file sb (t_view a0) di0 -> bytes dat ->
  0 <= off <= di_size di0 -> 0 <= tot < zlen dat -> off + zlen dat <= MAXFILE * BSIZE ->
  wstate sb a0 di0 off dat tot a di -> bmapped sb X a di ((off + tot) / BSIZE) b a1 di1 ->
  let o := (off + tot) mod BSIZE in
  let m := Z.min (zlen dat - tot) (BSIZE - o) in
  wstate sb a0 di0 off dat (tot + m) (t_upd b (splice (t_view a1 b) o (sub dat tot m)) a1) di1.
Proof.
  intros Hok0 Hw0 Hdat Hoff Htot Hmax W B o m. pose proof (bm_grows _ _ _ _ _ _ _ _ B) as G. pose proof (gr_ok _ _ _ _ _ G) as Hok1.
  pose proof (gr_slots _ _ _ _ _ G) as Hs1. pose proof (wf_size _ _ _ Hw0) as Hsz.
  destruct (io_bn (off + tot)) as [Hbn Hbn']; [lia|]. set (bn := (off + tot) / BSIZE) in *.
  destruct (fo_view _ _ Hok1 b) as [Hl Hby].
  assert (0 <= o < BSIZE /\ bn * BSIZE + o = off + tot) as [Ho Ebo] by (unfold o, bn; fslia).
  assert (0 < m <= zlen dat - tot /\ o + m <= BSIZE) as [Hm Hom] by (unfold m; lia).
  assert (zlen (sub dat tot m) = m) as Elen by (apply length_sub; unfold in_range; lia).
  assert (grows sb a1 di1 (t_upd b (splice (t_view a1 b) o (sub dat tot m)) a1) di1) as G1.
  { apply (grows_data sb a1 di1 b _ bn); try done; [apply (bm_addr _ _ _ _ _ _ _ _ B)|apply (bm_nz _ _ _ _ _ _ _ _ B)| |].
    - rewrite length_splice; [done|]. unfold in_range. rewrite Hl, Elen. fslia.
    - apply bytes_splice; [done|by apply bytes_sub]. }
  assert (forall k, 0 <= k < MAXFILE * BSIZE -> baddr (t_view a1) di1 (k / BSIZE) <> 0 ->
    fbyte (t_view (t_upd b (splice (t_view a1 b) o (sub dat tot m)) a1)) di1 k =
    if (off + tot <=? k) && (k <? off + tot + m) then nth (Z.to_nat (k - (off + tot))) (sub dat tot m) 0 else fbyte (t_view a1) di1 k) as Hf.
  { intros k Hk Hnz. rewrite (fbyte_data sb a1 di1 b bn o (sub dat tot m) k); try done; try lia;
      [by rewrite Ebo, Elen|apply (fo_view _ _ Hok1)|apply (bm_addr _ _ _ _ _ _ _ _ B)|apply (bm_nz _ _ _ _ _ _ _ _ B)]. }
  assert (forall k, off + tot <= k < off + tot + m -> k / BSIZE = bn) as Hin by (intros k Hk; unfold bn, o, m in *; fslia).
  split.
  - eapply grows_trans; [apply W|]. eapply grows_trans; [exact G|exact G1].
  - by rewrite (bm_size _ _ _ _ _ _ _ _ B), (wst_size _ _ _ _ _ _ _ _ W).
  - intros k Hk. destruct (io_bn k) as [Hkb _]; [lia|].
    rewrite (baddr_data sb a1 di1 b _ bn); [|done|done|apply (bm_addr _ _ _ _ _ _ _ _ B)|apply (bm_nz _ _ _ _ _ _ _ _ B)|done]. destruct (decide (k < off + tot)) as [Hlt|Hge].
    + rewrite (proj1 (fbyte_bmapped sb X a di bn b a1 di1 k B ltac:(lia) (wst_alloc _ _ _ _ _ _ _ _ W k ltac:(lia)))).
      apply (wst_alloc _ _ _ _ _ _ _ _ W). lia.
    + rewrite Hin by lia. rewrite (bm_addr _ _ _ _ _ _ _ _ B). apply (bm_nz _ _ _ _ _ _ _ _ B).
  - intros k Hk. destruct (decide (k < off + tot)) as [Hlt|Hge].
    + destruct (fbyte_bmapped sb X a di bn b a1 di1 k B ltac:(lia) (wst_alloc _ _ _ _ _ _ _ _ W k ltac:(lia))) as [E1 E2].
      rewrite Hf; [|lia|rewrite E1; apply (wst_alloc _ _ _ _ _ _ _ _ W); lia].
      rewrite (proj2 (Z.leb_gt _ _)) by lia. cbn. rewrite E2. apply (wst_new _ _ _ _ _ _ _ _ W). lia.
    + rewrite Hf; [|lia|rewrite Hin, (bm_addr _ _ _ _ _ _ _ _ B) by lia; apply (bm_nz _ _ _ _ _ _ _ _ B)].
      rewrite (proj2 (Z.leb_le _ _)), (proj2 (Z.ltb_lt _ _)) by lia. cbn. rewrite nth_sub by (unfold in_range; lia). f_equal. lia.
  - intros k Hk Hout. destruct (fbyte_bmapped sb X a di bn b a1 di1 k B ltac:(lia) (wstate_nz _ _ _ _ _ _ _ _ k Hw0 W Hk)) as [E1 E2].
    rewrite Hf; [|lia|rewrite E1; by eapply wstate_nz]. destruct (_ && _) eqn:C; [bsplit; lia|]. rewrite E2.
    apply (wst_old _ _ _ _ _ _ _ _ W); lia.
Qed.

(** What a write at [off] does to the file [inum] and to the disk. *)
Record wrote sb (a : atx) (di : dinode) (inum off : Z) (dat : list Z) (a' : atx) (di' : dinode) : Prop := {
  wr_ok : fs_ok sb a';
  wr_held : t_held a' = t_held a;
  wr_file : wf_file sb (t_view a') di';
  wr_content : content (t_view a') di' = splice (content (t_view a) di) off dat;
  wr_type : di_type di' = di_type di /\ di_major di' = di_major di /\ di_minor di' = di_minor di /\ di_nlink di' = di_nlink di;
  wr_disk j : 0 <= j < sb_ninodes sb -> disk_inode (t_view a') sb j = if j =? inum then di' else disk_inode (t_view a) sb j;
  wr_frame c : nmeta sb <= c < sb_size sb -> bit (t_view a) sb c = true -> ~ owns (t_view a) di c -> t_view a' c = t_view a c;
  wr_bits c : 0 <= c < sb_size sb -> bit (t_view a) sb c = true -> bit (t_view a') sb c = true;
  wr_new c : 0 <= c < sb_size sb -> bit (t_view a') sb c = true -> bit (t_view a) sb c = true \/ owns (t_view a') di' c;
  wr_fresh c : owns (t_view a') di' c -> owns (t_view a) di c \/ bit (t_view a) sb c = false;
}.

(** The inode written back. *)
Lemma wrote_iupdate sb a di inum off dat a1 di1 : fs_ok sb a -> 0 <= inum < sb_ninodes sb -> grows sb a di a1 di1 -> wf_file sb (t_view a1) di1 ->
  content (t_view a1) di1 = splice (content (t_view a) di) off dat ->
  wrote sb a di inum off dat (t_iupdate sb inum di1 a1) di1.
Proof.
  intros Hok Hi G Hw Hc. pose proof (gr_ok _ _ _ _ _ G) as Hok1. pose proof (wl_di _ _ _ (gr_slots _ _ _ _ _ G)) as Hdi.
  destruct (iblock_fs_block sb inum (fo_sb _ _ Hok) Hi) as (_ & Hnb & Hrg & _). pose proof (nmeta_pos sb (fo_sb _ _ Hok)) as Hnm.
  assert (forall c, nmeta sb <= c -> t_view (t_iupdate sb inum di1 a1) c = t_view a1 c) as Hv.
  { intros c Hge. cbn [t_view t_iupdate t_upd]. apply upd_ne. lia. }
  assert (forall c, owns (t_view a1) di1 c -> t_view (t_iupdate sb inum di1 a1) c = t_view a1 c) as Hown.
  { intros c Ho. apply Hv. by apply (owns_range sb a1 di1 c Hok1 (gr_slots _ _ _ _ _ G)). }
  pose proof (t_iupdate_bit sb a1 Hok1 inum Hi di1) as Hbit.
  assert (forall c, owns (t_view a1) di1 c -> bit (t_view (t_iupdate sb inum di1 a1)) sb c = bit (t_view a1) sb c) as Hbo.
  { intros c Ho. pose proof (owns_range sb a1 di1 c Hok1 (gr_slots _ _ _ _ _ G) Ho). apply Hbit. lia. }
  split.
  - by apply t_iupdate_ok.
  - apply (gr_held _ _ _ _ _ G).
  - by apply (wf_file_ext sb (t_view a1)).
  - by rewrite (content_ext sb (t_view a1)).
  - apply (gr_type _ _ _ _ _ G).
  - intros j Hj. rewrite t_iupdate_inode by done. destruct (j =? inum); [done|].
    destruct (iblock_fs_block sb j (fo_sb _ _ Hok) Hj) as (_ & Hnbj & Hrgj & _). unfold disk_inode. f_equal.
    apply (gr_frame _ _ _ _ _ G); [lia|by apply (fo_meta _ _ Hok)|done|].
    intros Ho. pose proof (owns_range sb a1 di1 _ Hok1 (gr_slots _ _ _ _ _ G) (owns_kept sb _ _ _ _ _ G Ho)). lia.
  - intros c Hcr Hb Hno. rewrite Hv by lia. apply (gr_frame _ _ _ _ _ G); [lia|done|apply data_not_bitmap; lia|done].
  - intros c Hcr Hb. rewrite Hbit by done. by apply (gr_bits _ _ _ _ _ G).
  - intros c Hcr. rewrite Hbit by done. intros [?|?]%(gr_new _ _ _ _ _ G); [by left| |done]. right. by apply (owns_ext (t_view a1) _ di1 Hown).
  - intros c Ho. apply (gr_fresh _ _ _ _ _ G). by apply (owns_ext (t_view a1) _ di1 Hown).
Qed.

Section Writei.
Context {S : Type} {K : Blocks S} {KOk : BlocksOk S} (Hdev : u32 k_dev = k_dev).
Context (sb : superblock) (X : gset Z) (HX : forall b, bitmap_block sb b -> b ∈ X).
Context (ic0 : Z -> inode) (ip : Z) (a0 : atx) (off : Z) (dat : list Z).
Context (Hok0 : fs_ok sb a0) (Hw0 : wf_file sb (t_view a0) (i_di (ic0 ip))) (Hd0 : i_dev (ic0 ip) = k_dev) (Hh0 : t_held a0 = ∅).
Context (Hoff : 0 <= off <= di_size (i_di (ic0 ip))) (Hmax : off + zlen dat <= MAXFILE * BSIZE) (Hdat : bytes dat).

(** The memory that is copied from: [dat] is at [src]. *)
Context {T : Type} (inp : list Z -> Z -> M T (Z * list Z)) (src : Z) (I : T -> Prop).
Hypothesis Hin : forall k old t, 0 <= k -> k + zlen old <= zlen dat -> bytes old -> zlen old <= BSIZE -> I t ->
  exists t', inp old (u64 (src + k)) t = Ok ((0, sub dat k (zlen old)), t') /\ I t'.

Let di0 := i_di (ic0 ip).
Let cnt := zlen dat.

Lemma nfree_data a di b d bn : fs_ok sb a -> wf_slots sb (t_view a) di -> 0 <= bn < MAXFILE -> baddr (t_view a) di bn = b -> b <> 0 ->
  nfree sb (t_view (t_upd b d a)) = nfree sb (t_view a).
Proof.
  intros Hok Hw Hbn E Hnz. destruct (baddr_used sb _ _ bn Hw Hbn ltac:(by rewrite E)) as [Hr _]. rewrite E in Hr.
  apply nfree_ext. intros c Hc. apply bit_other; [apply (fo_sb _ _ Hok)|apply data_not_bitmap; lia|done].
Qed.

Lemma writei_loop_ok : forall fuel tot ic x t a di,
  0 <= tot <= cnt -> io_blocks (off + tot) (cnt - tot) <= Z.of_nat fuel ->
  wstate sb a0 di0 off dat tot a di -> same_icache ic (upd ic0 ip (set_di di (ic0 ip))) -> brep x a -> I t ->
  room X (io_blocks (off + tot) (cnt - tot) + icost X a di) 2 a ->
  io_blocks (off + tot) (cnt - tot) + fcost di <= nfree sb (t_view a) ->
  exists ic' x' t' a' di', writei_loop inp fuel ip (u64 (src + tot)) (off + tot) cnt tot (Fs sb ic x, t) = Ok (off + cnt, (Fs sb ic' x', t')) /\
    wstate sb a0 di0 off dat cnt a' di' /\ same_icache ic' (upd ic0 ip (set_di di' (ic0 ip))) /\ brep x' a' /\ I t' /\ room X 0 2 a'.
Proof.
  induction fuel as [|fuel IH]; intros tot ic x t a di Htot Hfuel W Hic Hr HI Hroom Hfree.
  { destruct (Z.eq_dec tot cnt) as [->|]; [|destruct (io_blocks_step (off + tot) (cnt - tot)) as (_ & _ & ?); lia].
    cbn [writei_loop]. rewrite (proj2 (Z.ltb_ge cnt cnt)) by lia. exists ic, x, t, a, di. split_and!; try done.
    pose proof (icost_bound X a di). pose proof (rm_n _ _ _ _ Hroom). eapply room_le; [exact Hroom|lia|lia]. }
  cbn [writei_loop]. destruct (Z.ltb_spec tot cnt) as [Hlt|Hge].
  2: { replace tot with cnt in * by lia. exists ic, x, t, a, di. split_and!; try done.
    pose proof (icost_bound X a di). pose proof (rm_n _ _ _ _ Hroom). eapply room_le; [exact Hroom|lia|lia]. }
  destruct (io_blocks_step (off + tot) (cnt - tot)) as (Hm & Hstep & Hpos); [lia|lia|]. set (m := Z.min _ _) in *.
  destruct (io_bn (off + tot)) as [Hbn _]; [lia|]. set (bn := (off + tot) / BSIZE) in *.
  pose proof (Hic ip) as Eip. rewrite upd_eq in Eip. pose proof (wst_grows _ _ _ _ _ _ _ _ W) as G.
  assert (i_di (ic ip) = di) as Edi by (by rewrite Eip). assert (i_dev (ic ip) = k_dev) as Ed by (by rewrite Eip).
  destruct (bmap_ok Hdev sb X HX ic x a ip bn (io_blocks (off + tot) (cnt - tot) - 1)) as (b & ic1 & x1 & a1 & di1 & H1 & R1 & Hic1 & B);
    rewrite ?Edi; try done; try apply G; try lia.
  { by rewrite (gr_held _ _ _ _ _ G). }
  { by replace (io_blocks (off + tot) (cnt - tot) - 1 + 1) with (io_blocks (off + tot) (cnt - tot)) by lia. }
  rewrite Edi in B. pose proof (bm_grows _ _ _ _ _ _ _ _ B) as G1. pose proof (gr_ok _ _ _ _ _ G1) as Hok1.
  assert (t_held a1 = ∅) as Hh1 by (by rewrite (gr_held _ _ _ _ _ G1), (gr_held _ _ _ _ _ G)).
  destruct (baddr_used sb _ _ bn (gr_slots _ _ _ _ _ G1) Hbn) as [Hu _].
  { rewrite (bm_addr _ _ _ _ _ _ _ _ B). apply (bm_nz _ _ _ _ _ _ _ _ B). }
  rewrite (bm_addr _ _ _ _ _ _ _ _ B) in Hu. pose proof (nmeta_pos sb (fo_sb _ _ Hok0)) as Hnm.
  assert (forall d, room X (io_blocks (off + (tot + m)) (cnt - (tot + m)) + icost X a1 di1) 2 (t_upd b d a1)) as Hroom1.
  { intros d. replace (io_blocks (off + (tot + m)) (cnt - (tot + m))) with (io_blocks (off + tot) (cnt - tot) - 1)
      by (rewrite <- Hstep; f_equal; lia).
    apply (bm_room _ _ _ _ _ _ _ _ B); [|lia]. by replace (io_blocks (off + tot) (cnt - tot) - 1 + 1) with (io_blocks (off + tot) (cnt - tot)) by lia. }
  pose proof (room_of_upd _ _ _ _ [] _ (Hroom1 [])) as Hroom1'.
  destruct (bread_run sb ic1 x1 a1 b X _ 2 R1 ltac:(lia) ltac:(intros i; by rewrite Hh1) Hroom1' ltac:(lia)) as (j & x2 & H2 & Hj & R2).
  destruct (fo_view _ _ Hok1 b) as [Hl Hby].
  assert (zlen (sub (t_view a1 b) ((off + tot) mod BSIZE) m) = m) as Elen.
  { apply length_sub. unfold in_range. rewrite Hl. unfold m. fslia. }
  destruct (Hin tot (sub (t_view a1 b) ((off + tot) mod BSIZE) m) t ltac:(lia) ltac:(lia) (bytes_sub _ _ _ Hby) ltac:(unfold m in *; fslia) HI) as (t1 & Ht1 & HI1). rewrite Elen in Ht1.
  destruct (finish_run sb ic1 x2 a1 j b (splice (t_view a1 b) ((off + tot) mod BSIZE) (sub dat tot m)) X _ 2 R2 Hj Hroom1')
    as (x3 & x4 & x5 & H3 & H4 & H5 & R5).
  { apply (fo_home _ _ Hok1). destruct (fo_sb _ _ Hok0). unfold nmeta in *. fslia. }
  assert (wstate sb a0 di0 off dat (tot + m) (t_upd b (splice (t_view a1 b) ((off + tot) mod BSIZE) (sub dat tot m)) a1) di1) as W1.
  { apply (wstate_step sb X a0 di0 off dat tot a di b a1 di1); done || lia. }
  pose proof (Hic1 ip) as Eip1. rewrite upd_eq in Eip1. assert (i_dev (ic1 ip) = k_dev) as Ed1 by (by rewrite Eip1).
  destruct (IH (tot + m) ic1 x5 t1 (t_upd b (splice (t_view a1 b) ((off + tot) mod BSIZE) (sub dat tot m)) a1) di1)
    as (ic' & x' & t' & a' & di' & Hrun & Hres); try done; try lia.
  { replace (cnt - (tot + m)) with (cnt - tot - m) by lia. replace (off + (tot + m)) with (off + tot + m) by lia. lia. }
  { intros p. rewrite Hic1, Eip. unfold upd. destruct (p =? ip) eqn:Ep; [done|]. rewrite Hic. unfold upd. by rewrite Ep. }
  { set (a2 := t_upd _ _ _). pose proof (icost_bound X a2 di1). pose proof (icost_mono X a1 di1 a2 di1 eq_refl ltac:(set_solver)).
    eapply room_le; [apply Hroom1| |lia]. pose proof (rm_n _ _ _ _ Hroom1').
    assert (0 <= io_blocks (off + (tot + m)) (cnt - (tot + m))) by (apply io_blocks_fuel; lia). lia. }
  { rewrite (nfree_data a1 di1 b _ bn); [|done|apply G1|done|apply (bm_addr _ _ _ _ _ _ _ _ B)|apply (bm_nz _ _ _ _ _ _ _ _ B)].
    apply (bm_free _ _ _ _ _ _ _ _ B). replace (io_blocks (off + (tot + m)) (cnt - (tot + m))) with (io_blocks (off + tot) (cnt - tot) - 1)
      by (rewrite <- Hstep; f_equal; lia). lia. }
  exists ic', x', t', a', di'. split; [|done]. unfold in_fs, in_mem.
  erewrite bind_ok; [|by apply zoom_ok; exact H1]. erewrite bind_ok; [|by apply zoom_ok]. cbn [fst snd f_icache]. rewrite Ed1.
  erewrite bind_ok; [|by apply zoom_ok; exact H2]. erewrite bind_ok; [|by apply zoom_ok; apply (data_run sb ic1 _ _ j _ R2 (lookup_insert_eq _ _ _))].
  cbn [t_view t_hold fst snd]. erewrite bind_ok; [|by apply zoom_ok; exact Ht1]. cbn [fst snd Z.eqb].
  erewrite bind_ok; [|by apply zoom_ok; exact H3]. erewrite bind_ok; [|by apply zoom_ok; exact H4].
  erewrite bind_ok; [|by apply zoom_ok; exact H5]. cbn [fst snd].
  assert (off + cnt <= 274432) as Hmx by exact Hmax. rewrite u64_add, !u32_small by lia.
  replace (off + tot + m) with (off + (tot + m)) by lia. exact Hrun.
Qed.

(** The inode after the loop. *)
Definition new_size (di : dinode) : dinode := if di_size di0 <? off + cnt then with_size (off + cnt) di else di.

Lemma new_size_slot v di t : slot v (new_size di) t = slot v di t.
Proof using Type. unfold new_size. by destruct (_ <? _). Qed.

Lemma wf_new_size di : wf_dinode di -> wf_dinode (new_size di).
Proof using Hoff Hmax.
  intros [H1 H2 H3 H4 H5 H6 H7]. unfold new_size. destruct (_ <? _); [|by split]. split; cbn; try done.
  assert (off + cnt <= 274432) by exact Hmax. lia.
Qed.

(** The content after the loop. *)
Lemma wstate_content a di : wstate sb a0 di0 off dat cnt a di ->
  wf_file sb (t_view a) (new_size di) /\ content (t_view a) (new_size di) = splice (content (t_view a0) di0) off dat.
Proof using Hok0 Hw0 Hoff Hmax.
  intros W. pose proof (wst_grows _ _ _ _ _ _ _ _ W) as G. pose proof (wf_size _ _ _ Hw0) as Hsz. fold di0 in Hsz.
  assert (di_size (new_size di) = Z.max (di_size di0) (off + cnt)) as Es.
  { unfold new_size. destruct (Z.ltb_spec (di_size di0) (off + cnt)); cbn; rewrite ?(wst_size _ _ _ _ _ _ _ _ W); lia. }
  assert (forall v t, baddr v (new_size di) t = baddr v di t) as Hb by (intros; unfold new_size; by destruct (_ <? _)).
  assert (forall v k, fbyte v (new_size di) k = fbyte v di k) as Hf by (intros; unfold fbyte; by rewrite Hb).
  split.
  - split; [split|rewrite Es; lia|].
    + apply wf_new_size, (gr_slots _ _ _ _ _ G).
    + intros s Hs. rewrite new_size_slot. by apply (wl_used _ _ _ (gr_slots _ _ _ _ _ G)).
    + intros s t Hs Ht. rewrite !new_size_slot. by apply (wl_inj _ _ _ (gr_slots _ _ _ _ _ G)).
    + intros bn Hbn. rewrite Es, Hb. intros Hlt. destruct (decide (bn * BSIZE < di_size di0)).
      * replace bn with (bn * BSIZE / BSIZE) by fslia. apply (wstate_nz sb a0 di0 off dat cnt a di (bn * BSIZE) Hw0 W). fslia.
      * destruct (decide (off <= bn * BSIZE)).
        -- replace bn with (bn * BSIZE / BSIZE) by fslia. apply (wst_alloc _ _ _ _ _ _ _ _ W). lia.
        -- fold di0 in Hoff. lia.
  - apply list_eq. intros i. destruct Hoff as [Ho1 Ho2]. fold di0 in Ho2.
    assert (zlen (content (t_view a0) di0) = di_size di0) as El by (apply length_content; lia).
    destruct (decide (Z.of_nat i < Z.max (di_size di0) (off + cnt))) as [Hi|Hi].
    + rewrite <- (Nat2Z.id i) at 1. rewrite content_lookup by lia. rewrite Hf. unfold splice.
      destruct (decide (off <= Z.of_nat i < off + cnt)) as [Hin'|Hout].
      * rewrite (wst_new _ _ _ _ _ _ _ _ W) by done. rewrite lookup_app_r by (rewrite length_take; lia).
        rewrite length_take, Nat.min_l by lia. rewrite lookup_app_l by lia. rewrite nth_lookup.
        replace (Z.to_nat (Z.of_nat i - off)) with (i - Z.to_nat off)%nat by lia.
        destruct (lookup_lt_is_Some_2 dat (i - Z.to_nat off)) as [y ->]; [lia|done].
      * rewrite (wst_old _ _ _ _ _ _ _ _ W) by lia. rewrite <- (content_lookup (t_view a0) di0 (Z.of_nat i)) by lia. rewrite Nat2Z.id.
        destruct (decide (Z.of_nat i < off)).
        -- rewrite lookup_app_l by (rewrite length_take; lia). by rewrite lookup_take_lt by lia.
        -- rewrite lookup_app_r by (rewrite length_take; lia). rewrite length_take, Nat.min_l by lia.
           rewrite lookup_app_r by lia. rewrite lookup_drop. f_equal. lia.
    + rewrite !lookup_ge_None_2; [done|..].
      * unfold splice. rewrite !length_app, length_take, length_drop. lia.
      * pose proof (length_content (t_view a) (new_size di)). lia.
Qed.

Lemma writei_ok x t : 0 < cnt -> 0 <= i_inum (ic0 ip) < sb_ninodes sb -> IBLOCK (i_inum (ic0 ip)) sb ∈ X -> brep x a0 -> I t ->
  room X (io_blocks off cnt + icost X a0 di0) 2 a0 -> io_blocks off cnt + fcost di0 <= nfree sb (t_view a0) ->
  exists ic' x' t' a' di', writei inp ip (u64 src) off cnt (Fs sb ic0 x, t) = Ok (cnt, (Fs sb ic' x', t')) /\ brep x' a' /\ I t' /\
    same_icache ic' (upd ic0 ip (set_di di' (ic0 ip))) /\ wrote sb a0 di0 (i_inum (ic0 ip)) off dat a' di' /\ room X 0 2 a'.
Proof.
  intros Hcnt Hinum HXi Hr HI Hroom Hfree. pose proof (wf_size _ _ _ Hw0) as Hsz. fold di0 in Hsz, Hoff.
  assert (off + cnt <= 274432) as Hmx by exact Hmax.
  destruct (writei_loop_ok (io_fuel cnt) 0 ic0 x t a0 di0) as (ic1 & x1 & t1 & a1 & di1 & Hrun & W & Hic1 & R1 & HI1 & Hroom1);
    rewrite ?Z.add_0_r, ?Z.sub_0_r; try done; try lia.
  { pose proof (io_blocks_fuel off cnt). unfold io_fuel. lia. }
  { by apply wstate_start. }
  { intros p. by rewrite same_di. }
  rewrite !Z.add_0_r in Hrun. destruct (wstate_content a1 di1 W) as [Hf Hc].
  pose proof (wst_grows _ _ _ _ _ _ _ _ W) as G. pose proof (gr_ok _ _ _ _ _ G) as Hok1.
  assert (grows sb a0 di0 a1 (new_size di1)) as G'.
  { eapply grows_trans; [exact G|]. split; try done; try (by intros; rewrite ?new_size_slot).
    - apply (wf_slots_ok _ _ _ Hf).
    - unfold new_size. by destruct (_ <? _).
    - intros c Hcr. by left.
    - intros c (Hc0 & s & Hs & E). rewrite new_size_slot in E. left. split; [done|]. by exists s. }
  set (ic2 := if di_size di0 <? off + cnt then upd ic1 ip (set_di (new_size di1) (ic1 ip)) else ic1).
  assert (same_icache ic2 (upd ic0 ip (set_di (new_size di1) (ic0 ip)))) as Hic2.
  { intros p. unfold ic2, new_size. pose proof (Hic1 ip) as E. rewrite upd_eq in E. destruct (_ <? _); [|apply Hic1]. rewrite E. unfold upd.
    destruct (p =? ip) eqn:Ep; [done|]. rewrite Hic1. unfold upd. by rewrite Ep. }
  pose proof (Hic2 ip) as Eip2. rewrite upd_eq in Eip2.
  destruct (iupdate_ok sb x1 a1 ic2 ip X 0 2) as (x2 & H2 & R2); rewrite ?Eip2; try done; try lia.
  { apply (wl_di _ _ _ (wf_slots_ok _ _ _ Hf)). }
  { intros j. by rewrite (gr_held _ _ _ _ _ G), Hh0. }
  rewrite Eip2 in R2. cbn in R2.
  exists ic2, x2, t1, (t_iupdate sb (i_inum (ic0 ip)) (new_size di1) a1), (new_size di1). split_and!; try done.
  - unfold writei. setoid_rewrite (bind_ok _ _ _ (ic0 ip) (Fs sb ic0 x, t)); [|done]. change (i_size (ic0 ip)) with (di_size di0).
    rewrite (u32_small (off + cnt)) by lia.
    rewrite (proj2 (Z.ltb_ge (di_size di0) off)), (proj2 (Z.ltb_ge (off + cnt) off)), (proj2 (Z.ltb_ge (MAXFILE * BSIZE) _)) by (done || lia).
    cbn [orb]. mstep Hrun. rewrite (proj2 (Z.ltb_lt 0 cnt)) by done. cbv beta.
    erewrite bind_ok; [unfold ret; rewrite i32_small by lia; reflexivity|].
    erewrite bind_ok; [|by apply zoom_ok]. cbn [fst snd f_icache].
    replace (i_size (ic1 ip)) with (di_size di0) by (rewrite (Hic1 ip), upd_eq; symmetry; apply (wst_size _ _ _ _ _ _ _ _ W)).
    unfold ic2, new_size in *. destruct (di_size di0 <? off + cnt).
    + erewrite bind_ok; [|by apply zoom_ok]. cbn [fst snd f_icache f_sb f_blk].
      replace (with_size (off + cnt) (i_di (ic1 ip))) with (with_size (off + cnt) di1) by (by rewrite (Hic1 ip), upd_eq).
      unfold in_fs. by erewrite zoom_ok by exact H2.
    + mcomp. unfold in_fs. by erewrite zoom_ok by exact H2.
  - by apply wrote_iupdate.
  - by apply room_upd_in.
Qed.
End Writei.
