(* ===== verification/FsTrunc.v ===== *)
(** * [itrunc]: the blocks of a file given back *)

From S2P Require Import Prelude Bytes Riscv Cache Blocks Fs FsSpec FsFile FsWrite.

Definition empty_dinode (di : dinode) : dinode :=
  Dinode (di_type di) (di_major di) (di_minor di) (di_nlink di) 0 (replicate 13 0).

(** After the blocks in the slots [L] were freed: only the bitmap changed, by their bits. *)
Record tstate sb (a0 : atx) (di0 : dinode) (L : list Z) (a : atx) : Prop := {
  tt_ok : fs_ok sb a;
  tt_held : t_held a = t_held a0;
  tt_view c : ~ bitmap_block sb c -> t_view a c = t_view a0 c;
  tt_bit c : 0 <= c < sb_size sb ->
    bit (t_view a) sb c = bit (t_view a0) sb c && negb (bool_decide (c <> 0 /\ c ∈ slot (t_view a0) di0 <$> L));
}.

Section Trunc.
Context {S : Type} {K : Blocks S} {KOk : BlocksOk S} (Hdev : u32 k_dev = k_dev).
Context (sb : superblock) (X : gset Z) (HX : forall b, bitmap_block sb b -> b ∈ X).
Context (a0 : atx) (di0 : dinode) (Hok0 : fs_ok sb a0) (Hw0 : wf_slots sb (t_view a0) di0).
Implicit Types (x : S) (a : atx) (ic : Z -> inode) (di : dinode) (L : list Z).

Lemma tstate_start : tstate sb a0 di0 [] a0.
Proof.
  split; try done. intros c Hc. rewrite bool_decide_eq_false_2; [by rewrite andb_true_r|]. intros [_ H]. by apply elem_of_nil in H.
Qed.

(** A slot that is empty, and one that is freed. *)
Lemma tstate_skip L a s : tstate sb a0 di0 L a -> slot (t_view a0) di0 s = 0 -> tstate sb a0 di0 (s :: L) a.
Proof.
  intros [H1 H2 H3 H4] E. split; try done. intros c Hc. rewrite H4 by done. do 2 f_equal. apply bool_decide_ext.
  rewrite fmap_cons, elem_of_cons, E. naive_solver.
Qed.

Lemma tstate_bfree L a s : tstate sb a0 di0 L a -> 0 <= s <= ind_slot -> s ∉ L -> (forall t, t ∈ L -> 0 <= t <= ind_slot) ->
  slot (t_view a0) di0 s <> 0 ->
  bit (t_view a) sb (slot (t_view a0) di0 s) = true /\ tstate sb a0 di0 (s :: L) (t_bfree sb (slot (t_view a0) di0 s) a).
Proof.
  intros T Hs HL Hr Hnz. pose proof (nmeta_pos sb (fo_sb _ _ Hok0)) as Hnm. destruct (wl_used _ _ _ Hw0 s Hs Hnz) as [Hu Hb].
  assert (slot (t_view a0) di0 s ∉ slot (t_view a0) di0 <$> L) as Hni.
  { intros (t & E & Ht)%list_elem_of_fmap. apply HL. rewrite (wl_inj _ _ _ Hw0 s t Hs (Hr t Ht) Hnz E). done. }
  split.
  { rewrite (tt_bit _ _ _ _ _ T), Hb, bool_decide_eq_false_2 by (lia || by intros [_ ?]). done. }
  destruct (BBLOCK_spec sb (fo_sb _ _ Hok0) (slot (t_view a0) di0 s)) as [_ Hbm]; [lia|]. split.
  - apply t_bfree_ok; [apply T|lia].
  - apply (tt_held _ _ _ _ _ T).
  - intros c Hc. cbn [t_view t_bfree t_upd]. rewrite upd_ne by (by intros ->). by apply (tt_view _ _ _ _ _ T).
  - intros c Hc. rewrite (t_bfree_bit sb a (tt_ok _ _ _ _ _ T)) by lia. rewrite (tt_bit _ _ _ _ _ T) by done.
    rewrite fmap_cons. destruct (Z.eqb_spec c (slot (t_view a0) di0 s)) as [->|Hne]; cbn [negb andb].
    + rewrite bool_decide_eq_true_2; [by rewrite andb_false_r|]. split; [done|by left].
    + do 2 f_equal. apply bool_decide_ext. rewrite elem_of_cons. naive_solver.
Qed.

(** [bfree] of a slot, with the buffers [hs] held. *)
Lemma free_slot_ok ic x a L s n h : tstate sb a0 di0 L a -> brep x a -> room X n h a -> 1 <= h ->
  (forall i c, t_held a0 !! i = Some c -> ~ bitmap_block sb c) ->
  0 <= s <= ind_slot -> s ∉ L -> (forall t, t ∈ L -> 0 <= t <= ind_slot) -> slot (t_view a0) di0 s <> 0 ->
  exists x' a', bfree k_dev (slot (t_view a0) di0 s) (Fs sb ic x) = Ok (tt, Fs sb ic x') /\ brep x' a' /\ room X n h a' /\
    tstate sb a0 di0 (s :: L) a'.
Proof.
  intros T Hr Hroom Hh Hheld Hs HL Hrg Hnz. pose proof (nmeta_pos sb (fo_sb _ _ Hok0)) as Hnm.
  destruct (wl_used _ _ _ Hw0 s Hs Hnz) as [Hu _]. destruct (tstate_bfree L a s T Hs HL Hrg Hnz) as [Hb T'].
  destruct (BBLOCK_spec sb (fo_sb _ _ Hok0) (slot (t_view a0) di0 s)) as [_ Hbm]; [lia|].
  destruct (bfree_ok sb ic Hdev x a (slot (t_view a0) di0 s) X n h) as (x' & H & R'); try done; [apply T| |lia|].
  { intros i Hi. rewrite (tt_held _ _ _ _ _ T) in Hi. by apply (Hheld i _ Hi). }
  exists x', (t_bfree sb (slot (t_view a0) di0 s) a). split_and!; try done. apply room_upd_in; [by apply HX|done].
Qed.
End Trunc.

(** The slots freed so far. *)
Definition slots_of (P : Z -> Prop) (L : list Z) : Prop := forall t, t ∈ L <-> P t.

Lemma upto_0 : upto 0 = [].
Proof. done. Qed.

Section Loops.
Context {S : Type} {K : Blocks S} {KOk : BlocksOk S} (Hdev : u32 k_dev = k_dev).
Context (sb : superblock) (X : gset Z) (HX : forall b, bitmap_block sb b -> b ∈ X).
Context (ic0 : Z -> inode) (ip : Z) (Hd0 : i_dev (ic0 ip) = k_dev).
Implicit Types (x : S) (a : atx) (ic : Z -> inode) (di : dinode) (L : list Z).
Let di0 := i_di (ic0 ip).

Definition trunc_direct (i : Z) : M fs unit :=
  let! y := get_inode ip in
  if negb (i_addr y i =? 0) then
    bfree (i_dev y) (i_addr y i) ;;
    mod_di ip (with_addr i 0)
  else ret tt.

(** The inode with the addresses of [P] cleared. *)
Record cleared (P : Z -> Prop) di : Prop := {
  cl_addr j : 0 <= j <= NDIRECT -> P j -> d_addr di j = 0;
  cl_keep j : 0 <= j <= NDIRECT -> ~ P j -> d_addr di j = d_addr di0 j;
  cl_di : wf_dinode di;
  cl_type : di_type di = di_type di0 /\ di_major di = di_major di0 /\ di_minor di = di_minor di0 /\ di_nlink di = di_nlink di0;
}.

Lemma cleared_step P Q di i : cleared P di -> 0 <= i <= NDIRECT -> (forall j, Q j <-> j = i \/ P j) -> cleared Q (with_addr i 0 di).
Proof.
  intros [C1 C2 C3 C4] Hi HQ. pose proof (wd_addrs _ C3) as Hl. split.
  - intros j Hj Hq. rewrite addr_with_addr by flia. destruct (Z.eqb_spec j i); [done|]. apply C1; [done|]. apply HQ in Hq as [?|?]; done.
  - intros j Hj Hq. rewrite addr_with_addr by flia. destruct (Z.eqb_spec j i) as [->|]; [destruct Hq; apply HQ; by left|].
    apply C2; [done|]. intros Hp. apply Hq, HQ. by right.
  - apply wf_with_addr; [done|lia].
  - done.
Qed.

(** One direct block. *)
Lemma trunc_direct_step a0 n ic x a di L k : fs_ok sb a0 -> wf_slots sb (t_view a0) di0 -> t_held a0 = ∅ -> 0 <= k < NDIRECT ->
  brep x a -> room X n 2 a -> tstate sb a0 di0 L a -> slots_of (fun t => 0 <= t < k) L ->
  same_icache ic (upd ic0 ip (set_di di (ic0 ip))) -> cleared (fun j => 0 <= j < k) di ->
  exists ic' x' a' di' L', trunc_direct k (Fs sb ic x) = Ok (tt, Fs sb ic' x') /\ brep x' a' /\ room X n 2 a' /\
    tstate sb a0 di0 L' a' /\ slots_of (fun t => 0 <= t < k + 1) L' /\ same_icache ic' (upd ic0 ip (set_di di' (ic0 ip))) /\
    cleared (fun j => 0 <= j < k + 1) di'.
Proof.
  intros Hok0 Hw0 Hh0 Hk R Hroom T HL Hic Hcl. pose proof (Hic ip) as Eip. rewrite upd_eq in Eip.
  assert (slot (t_view a0) di0 k = d_addr di0 k) as Es.
  { unfold slot, baddr. rewrite (proj2 (Z.eqb_neq k ind_slot)), (proj2 (Z.ltb_lt k NDIRECT)) by flia. done. }
  assert (slots_of (fun t => 0 <= t < k + 1) (k :: L)) as HL' by (intros t; rewrite elem_of_cons, (HL t); lia).
  assert (i_addr (ic ip) k = d_addr di0 k) as Ea by (rewrite Eip; apply (cl_keep _ _ Hcl); lia).
  assert (i_dev (ic ip) = k_dev) as Ed by (by rewrite Eip).
  unfold trunc_direct. setoid_rewrite (bind_ok _ _ _ (ic ip) (Fs sb ic x)); [|done]. rewrite Ea, Ed, <- Es.
  destruct (Z.eqb_spec (slot (t_view a0) di0 k) 0) as [E0|E0]; cbn [negb].
  - exists ic, x, a, di, (k :: L). split_and!; try done; [by apply tstate_skip|]. split; try apply Hcl.
    + intros j Hj Hlt. destruct (Z.eq_dec j k) as [->|]; [|apply (cl_addr _ _ Hcl); lia].
      rewrite (cl_keep _ _ Hcl) by lia. congruence.
    + intros j Hj Hn. apply (cl_keep _ _ Hcl); lia.
  - destruct (free_slot_ok Hdev sb X HX a0 di0 Hok0 Hw0 ic x a L k n 2) as (x' & a' & H & R' & Hroom' & T'); try done; try flia.
    { intros i c. by rewrite Hh0. }
    { intros Hin%HL. lia. }
    { intros t Ht%HL. flia. }
    eexists _, x', a', (with_addr k 0 di), (k :: L). split_and!; [|done|done|done|done| |].
    + mstep H. reflexivity.
    + intros p. cbn [f_icache]. unfold upd. destruct (p =? ip) eqn:Ep; [by rewrite Eip|]. rewrite Hic. unfold upd. by rewrite Ep.
    + eapply cleared_step; [exact Hcl|lia|]. intros j. lia.
Qed.

Lemma trunc_direct_ok a0 n x : fs_ok sb a0 -> wf_slots sb (t_view a0) di0 -> t_held a0 = ∅ -> brep x a0 -> room X n 2 a0 ->
  forall k, 0 <= k -> k <= NDIRECT ->
  exists ic x' a di L, mfor (upto k) trunc_direct (Fs sb ic0 x) = Ok (tt, Fs sb ic x') /\ brep x' a /\ room X n 2 a /\
    tstate sb a0 di0 L a /\ slots_of (fun t => 0 <= t < k) L /\ same_icache ic (upd ic0 ip (set_di di (ic0 ip))) /\
    cleared (fun j => 0 <= j < k) di.
Proof.
  intros Hok0 Hw0 Hh0 Hr Hroom k Hk. pattern k. revert k Hk. apply natlike_ind.
  - intros _. exists ic0, x, a0, di0, []. split_and!; try done.
    + by apply tstate_start.
    + intros t. split; [by intros ?%elem_of_nil|lia].
    + intros p. by rewrite same_di.
    + split; try done; [lia|apply (wl_di _ _ _ Hw0)].
  - intros k Hk IH Hle. destruct IH as (ic & x1 & a & di & L & Hrun & R & Hroom1 & T & HL & Hic & Hcl); [lia|].
    destruct (trunc_direct_step a0 n ic x1 a di L k) as (ic' & x' & a' & di' & L' & H & Hres); try done; [lia|].
    exists ic', x', a', di', L'. rewrite <- Z.add_1_r. split; [|done]. rewrite upto_S by done.
    erewrite mfor_app_ok by exact Hrun. cbn [mfor]. mstep H. done.
Qed.

(** The blocks that the indirect block names; [jb] holds it. *)
Definition trunc_entry (jb j : Z) : M fs unit :=
  let! d := data jb in
  if negb (get_le d (4 * j) 4 =? 0) then bfree k_dev (get_le d (4 * j) 4) else ret tt.

Lemma trunc_entries_ok ic a0 n jb : fs_ok sb a0 -> wf_slots sb (t_view a0) di0 -> d_addr di0 NDIRECT <> 0 ->
  t_held a0 = {[jb := d_addr di0 NDIRECT]} -> forall a x L, brep x a -> room X n 1 a -> tstate sb a0 di0 L a -> slots_of (fun t => 0 <= t < NDIRECT) L ->
  forall k, 0 <= k -> k <= NINDIRECT ->
  exists x' a' L', mfor (upto k) (trunc_entry jb) (Fs sb ic x) = Ok (tt, Fs sb ic x') /\ brep x' a' /\ room X n 1 a' /\
    tstate sb a0 di0 L' a' /\ slots_of (fun t => 0 <= t < NDIRECT + k) L'.
Proof.
  intros Hok0 Hw0 Hi Hh0 a x L R Hroom T HL k Hk. destruct (ind_used sb _ _ Hw0 Hi) as [Hir _]. pattern k. revert k Hk. apply natlike_ind.
  - intros _. exists x, a, L. rewrite Z.add_0_r. by split_and!.
  - intros k Hk IH Hle. destruct IH as (x1 & a1 & L1 & Hrun & R1 & Hroom1 & T1 & HL1); [lia|].
    rewrite <- Z.add_1_r, upto_S by done. setoid_rewrite (mfor_app_ok _ _ _ _ _ Hrun). cbn [mfor]. clear Hrun.
    assert (t_held a1 !! jb = Some (d_addr di0 NDIRECT)) as Hj by (rewrite (tt_held _ _ _ _ _ T1), Hh0; apply lookup_singleton_eq).
    assert (slot (t_view a0) di0 (NDIRECT + k) = get_le (t_view a1 (d_addr di0 NDIRECT)) (4 * k) 4) as Es.
    { unfold slot, baddr. rewrite (proj2 (Z.eqb_neq (NDIRECT + k) ind_slot)), (proj2 (Z.ltb_ge (NDIRECT + k) NDIRECT)) by flia.
      rewrite (proj2 (Z.eqb_neq _ _) Hi), (tt_view _ _ _ _ _ T1) by (apply data_not_bitmap; lia). do 2 f_equal. lia. }
    assert (slots_of (fun t => 0 <= t < NDIRECT + (k + 1)) (NDIRECT + k :: L1)) as HL' by (intros t; rewrite elem_of_cons, (HL1 t); flia).
    unfold trunc_entry at 1. rewrite bind_assoc. setoid_rewrite (bind_ok _ _ _ _ _ (data_run sb ic x1 a1 jb _ R1 Hj)). rewrite <- Es.
    destruct (Z.eqb_spec (slot (t_view a0) di0 (NDIRECT + k)) 0) as [E0|E0]; cbn [negb].
    + exists x1, a1, (NDIRECT + k :: L1). split_and!; try done. by apply tstate_skip.
    + destruct (free_slot_ok Hdev sb X HX a0 di0 Hok0 Hw0 ic x1 a1 L1 (NDIRECT + k) n 1) as (x' & a' & H & R' & Hroom' & T'); try done; try flia.
      { intros i c. rewrite Hh0, lookup_singleton_Some. intros [_ <-]. apply data_not_bitmap. lia. }
      { intros Hin%HL1. lia. }
      { intros t Ht%HL1. flia. }
      exists x', a', (NDIRECT + k :: L1). split_and!; try done. by mstep H.
Qed.

Lemma hold_of_drop a i b : t_held a !! i = Some b -> t_hold i b (t_drop i a) = a.
Proof using Type. intros H. destruct a. unfold t_hold, t_drop. cbn in *. by rewrite insert_delete_id by done. Qed.

(** The indirect block and what it names. *)
Definition trunc_indirect : M fs unit :=
  let! y := get_inode ip in
  if negb (i_addr y NDIRECT =? 0) then
    let! bp := blk (k_bread (i_dev y) (i_addr y NDIRECT)) in
    mfor (upto NINDIRECT) (fun j =>
      let! d := data bp in
      if negb (get_le d (4 * j) 4 =? 0) then bfree (i_dev y) (get_le d (4 * j) 4) else ret tt) ;;
    blk (k_brelse bp) ;;
    bfree (i_dev y) (i_addr y NDIRECT) ;;
    mod_di ip (with_addr NDIRECT 0)
  else ret tt.

Lemma tstate_hold a0 L a i b : tstate sb a0 di0 L a -> tstate sb (t_hold i b a0) di0 L (t_hold i b a).
Proof using Type. intros [H1 H2 H3 H4]. split; [by apply fs_ok_hold|by cbn; rewrite H2|done|done]. Qed.

Lemma tstate_drop a0 L a i b : t_held a0 !! i = None -> tstate sb (t_hold i b a0) di0 L a -> tstate sb a0 di0 L (t_drop i a).
Proof using Type.
  intros Hi [[F1 F2 F3 F4] H2 H3 H4]. split; [by split| |done|done]. cbn. rewrite H2. cbn. by rewrite delete_insert_id.
Qed.

(** All slots are freed. *)
Lemma trunc_indirect_ok a0 n ic x a di L : fs_ok sb a0 -> wf_slots sb (t_view a0) di0 -> t_held a0 = ∅ ->
  brep x a -> room X n 2 a -> tstate sb a0 di0 L a -> slots_of (fun t => 0 <= t < NDIRECT) L ->
  same_icache ic (upd ic0 ip (set_di di (ic0 ip))) -> cleared (fun j => 0 <= j < NDIRECT) di ->
  exists ic' x' a' di' L', trunc_indirect (Fs sb ic x) = Ok (tt, Fs sb ic' x') /\ brep x' a' /\ room X n 2 a' /\
    tstate sb a0 di0 L' a' /\ (forall c, c <> 0 -> c ∈ slot (t_view a0) di0 <$> L' <-> owns (t_view a0) di0 c) /\
    same_icache ic' (upd ic0 ip (set_di di' (ic0 ip))) /\ cleared (fun j => 0 <= j <= NDIRECT) di'.
Proof.
  intros Hok0 Hw0 Hh0 R Hroom T HL Hic Hcl. pose proof (Hic ip) as Eip. rewrite upd_eq in Eip. pose proof (nmeta_pos sb (fo_sb _ _ Hok0)) as Hnm.
  assert (i_addr (ic ip) NDIRECT = d_addr di0 NDIRECT) as Ea by (rewrite Eip; apply (cl_keep _ _ Hcl); [done|lia]).
  assert (i_dev (ic ip) = k_dev) as Ed by (by rewrite Eip).
  unfold trunc_indirect. setoid_rewrite (bind_ok _ _ _ (ic ip) (Fs sb ic x)); [|done]. rewrite Ea, Ed.
  destruct (Z.eqb_spec (d_addr di0 NDIRECT) 0) as [E0|E0]; cbn [negb].
  - exists ic, x, a, di, L. split_and!; try done.
    + intros c Hc. rewrite list_elem_of_fmap. split.
      * intros (t & -> & Ht%HL). split; [done|]. exists t. split; [flia|done].
      * intros (_ & t & Ht & E). exists t. split; [done|]. apply HL. unfold slot, baddr in E. rewrite E0 in E.
        destruct (Z.eqb_spec t ind_slot); [congruence|]. destruct (Z.ltb_spec t NDIRECT); [lia|cbn in E; congruence].
    + split; try apply Hcl.
      * intros j Hj _. destruct (Z.eq_dec j NDIRECT) as [->|]; [|apply (cl_addr _ _ Hcl); lia]. rewrite (cl_keep _ _ Hcl) by lia. done.
      * intros j Hj Hn. lia.
  - destruct (ind_used sb _ _ Hw0 E0) as [Hir Hib].
    destruct (bread_run sb ic x a (d_addr di0 NDIRECT) X n 2 R ltac:(lia)) as (jb & x1 & H1 & Hjb & R1); [|done|lia|].
    { intros i. by rewrite (tt_held _ _ _ _ _ T), Hh0. }
    rewrite (tt_held _ _ _ _ _ T) in Hjb.
    destruct (trunc_entries_ok ic (t_hold jb (d_addr di0 NDIRECT) a0) n jb) with (a := t_hold jb (d_addr di0 NDIRECT) a) (x := x1) (L := L) (k := NINDIRECT)
      as (x2 & a2 & L2 & H2 & R2 & Hroom2 & T2 & HL2); try done.
    { by apply fs_ok_hold. }
    { cbn. by rewrite Hh0. }
    { apply room_hold; [|lia]. done. }
    { by apply tstate_hold. }
    assert (t_held a2 !! jb = Some (d_addr di0 NDIRECT)) as Hj2 by (rewrite (tt_held _ _ _ _ _ T2); apply lookup_insert_eq).
    rewrite <- (hold_of_drop a2 jb _ Hj2) in R2. pose proof (tstate_drop a0 L2 a2 jb _ Hjb T2) as T3.
    destruct (drop_run sb ic x2 (t_drop jb a2) jb _ R2 (lookup_delete_eq _ _)) as (x3 & H3 & R3).
    assert (room X n 2 (t_drop jb a2)) as Hroom3.
    { destruct Hroom2 as [B1 B2 B3 B4]. rewrite (tt_held _ _ _ _ _ T2) in B4. cbn in B4. rewrite map_size_insert_None in B4 by done.
      split; cbn; try lia. rewrite (tt_held _ _ _ _ _ T2). cbn. rewrite delete_insert_id by done. lia. }
    destruct (free_slot_ok Hdev sb X HX a0 di0 Hok0 Hw0 ic x3 (t_drop jb a2) L2 ind_slot n 2) as (x4 & a4 & H4 & R4 & Hroom4 & T4); try done; try flia.
    { intros i c. by rewrite Hh0. }
    { intros Hin%HL2. flia. }
    { intros t Ht%HL2. flia. }
    eexists _, x4, a4, (with_addr NDIRECT 0 di), (ind_slot :: L2). split_and!; [|done|done|done| | |].
    + mstep H1. mstep H2. mstep H3. change (d_addr di0 NDIRECT) with (slot (t_view a0) di0 ind_slot). mstep H4. reflexivity.
    + intros c Hc. rewrite list_elem_of_fmap. split.
      * intros (t & -> & Ht). split; [done|]. exists t. split; [|done]. apply elem_of_cons in Ht as [->|Ht%HL2]; flia.
      * intros (_ & t & Ht & E). exists t. split; [done|]. apply elem_of_cons. destruct (Z.eq_dec t ind_slot); [by left|right]. apply HL2. flia.
    + intros p. cbn [f_icache]. unfold upd. destruct (p =? ip) eqn:Ep; [by rewrite Eip|]. rewrite Hic. unfold upd. by rewrite Ep.
    + eapply cleared_step; [exact Hcl|flia|]. intros j. flia.
Qed.

(** What [itrunc] does to the disk: the bits of the file's blocks are cleared, and its
    inode is empty. *)
Record truncated (a0 : atx) (inum : Z) (a : atx) : Prop := {
  tr_ok : fs_ok sb a;
  tr_held : t_held a = t_held a0;
  tr_bit c : 0 <= c < sb_size sb -> bit (t_view a) sb c = true <-> bit (t_view a0) sb c = true /\ ~ owns (t_view a0) di0 c;
  tr_disk j : 0 <= j < sb_ninodes sb -> disk_inode (t_view a) sb j = if j =? inum then empty_dinode di0 else disk_inode (t_view a0) sb j;
  tr_view c : nmeta sb <= c -> t_view a c = t_view a0 c;
}.

Lemma cleared_all di : cleared (fun j => 0 <= j <= NDIRECT) di -> with_size 0 di = empty_dinode di0 /\ wf_dinode (with_size 0 di).
Proof using sb.
  intros [C1 C2 [H1 H2 H3 H4 H5 H6 H7] (T1 & T2 & T3 & T4)]. split; [|by split].
  unfold with_size, empty_dinode. rewrite T1, T2, T3, T4. f_equal. apply list_eq. intros i.
  destruct (decide (i < 13)%nat) as [Hi|Hi].
  - rewrite lookup_replicate_2 by done. specialize (C1 (Z.of_nat i)). unfold d_addr in C1. rewrite Nat2Z.id, nth_lookup in C1.
    destruct (lookup_lt_is_Some_2 (di_addrs di) i) as [y Ey]; [lia|]. rewrite Ey in C1 |- *. f_equal. apply C1; flia.
  - rewrite !lookup_ge_None_2; [done|rewrite length_replicate; lia|lia].
Qed.

Lemma itrunc_ok a0 n x : fs_ok sb a0 -> wf_slots sb (t_view a0) di0 -> t_held a0 = ∅ -> brep x a0 -> room X n 2 a0 ->
  0 <= i_inum (ic0 ip) < sb_ninodes sb -> IBLOCK (i_inum (ic0 ip)) sb ∈ X ->
  exists ic x' a, itrunc ip (Fs sb ic0 x) = Ok (tt, Fs sb ic x') /\ brep x' a /\ room X n 2 a /\
    same_icache ic (upd ic0 ip (set_di (empty_dinode di0) (ic0 ip))) /\ truncated a0 (i_inum (ic0 ip)) a.
Proof.
  intros Hok0 Hw0 Hh0 R Hroom Hi HXi. destruct (trunc_direct_ok a0 n x Hok0 Hw0 Hh0 R Hroom NDIRECT) as (ic1 & x1 & a1 & di1 & L1 & H1 & R1 & Hroom1 & T1 & HL1 & Hic1 & Hcl1); [done|done|].
  destruct (trunc_indirect_ok a0 n ic1 x1 a1 di1 L1) as (ic2 & x2 & a2 & di2 & L2 & H2 & R2 & Hroom2 & T2 & HL2 & Hic2 & Hcl2); try done.
  destruct (cleared_all di2 Hcl2) as [Ee Hwe]. pose proof (Hic2 ip) as Eip2. rewrite upd_eq in Eip2.
  set (ic3 := upd ic2 ip (set_di (with_size 0 di2) (ic2 ip))).
  assert (same_icache ic3 (upd ic0 ip (set_di (empty_dinode di0) (ic0 ip)))) as Hic3.
  { intros p. unfold ic3. rewrite Ee, Eip2. unfold upd. destruct (p =? ip) eqn:Ep; [done|]. rewrite Hic2. unfold upd. by rewrite Ep. }
  pose proof (Hic3 ip) as Eip3. rewrite upd_eq in Eip3. pose proof (tt_ok _ _ _ _ _ T2) as Hok2.
  destruct (iupdate_ok sb x2 a2 ic3 ip X n 2) as (x3 & H3 & R3); rewrite ?Eip3; try done; try lia.
  { by rewrite <- Ee. }
  { intros j. by rewrite (tt_held _ _ _ _ _ T2), Hh0. }
  rewrite Eip3 in R3. cbn in R3. pose proof Hwe as Hwe'. rewrite Ee in Hwe'. pose proof (nmeta_pos sb (fo_sb _ _ Hok0)) as Hnm.
  exists ic3, x3, (t_iupdate sb (i_inum (ic0 ip)) (empty_dinode di0) a2). split_and!; try done.
  - unfold itrunc. setoid_rewrite (bind_ok _ _ _ tt (Fs sb ic1 x1)); [|exact H1].
    etransitivity; [symmetry; apply bind_assoc|]. setoid_rewrite (bind_ok _ _ _ tt (Fs sb ic2 x2)); [|exact H2].
    mcomp. cbn [f_icache f_sb f_blk]. unfold ic3 in H3 |- *. rewrite Eip2 in H3 |- *. exact H3.
  - by apply room_upd_in.
  - split.
    + by apply t_iupdate_ok.
    + apply (tt_held _ _ _ _ _ T2).
    + intros c Hc. rewrite t_iupdate_bit by done. rewrite (tt_bit _ _ _ _ _ T2), andb_true_iff, negb_true_iff, bool_decide_eq_false by done.
      assert (c <> 0 /\ c ∈ slot (t_view a0) di0 <$> L2 <-> owns (t_view a0) di0 c) as ->; [|done].
      split; [intros [H4 H5]; by apply HL2|]. intros Ho. pose proof (proj1 Ho). split; [done|]. by apply HL2.
    + intros j Hj. rewrite t_iupdate_inode by done. destruct (j =? i_inum (ic0 ip)); [done|].
      destruct (iblock_fs_block sb j (fo_sb _ _ Hok0) Hj) as (_ & Hnbj & _). unfold disk_inode. by rewrite (tt_view _ _ _ _ _ T2).
    + intros c Hc. destruct (iblock_fs_block sb _ (fo_sb _ _ Hok0) Hi) as (_ & _ & Hrg & _). cbn [t_view t_iupdate t_upd].
      rewrite upd_ne by lia. apply (tt_view _ _ _ _ _ T2). by apply data_not_bitmap.
Qed.
End Loops.
