(* ===== verification/FsDir.v ===== *)
(** * Directories and the inode cache

    A directory is a file of entries; [dirlookup] finds the first entry with a name and
    [dirlink] adds one.  Names are compared up to the first NUL or [DIRSIZ] bytes.  The
    cache has one entry per inode, counted by [ref]. *)

From S2P Require Import Prelude Bytes Riscv Cache Blocks Fs FsSpec FsFile FsWrite.

(** ** Names *)

(** The name that an array holds: its bytes up to the first NUL, [n] at most. *)
Fixpoint cname (n : nat) (s : list Z) : list Z :=
  match n, s with
  | S k, c :: s' => if c =? 0 then [] else c :: cname k s'
  | _, _ => []
  end.
Abbreviation dname := (cname 14).

Lemma strncmp_cname n : forall s t, strncmp_list s t n = 0 <-> cname n s = cname n t.
Proof.
  induction n as [|n IH]; intros s t; [done|]. cbn [strncmp_list].
  destruct s as [|c s], t as [|d t]; cbn [head tail default cname]; cbn.
  - done.
  - destruct (Z.eqb_spec d 0) as [->|]; [done|]. split; [lia|done].
  - destruct (Z.eqb_spec c 0) as [->|]; cbn; [done|]. split; [lia|done].
  - destruct (Z.eqb_spec c 0) as [->|Hc]; cbn.
    + destruct (Z.eqb_spec d 0) as [->|]; [done|]. split; [lia|done].
    + destruct (Z.eqb_spec c d) as [->|Hd]; cbn.
      * rewrite (proj2 (Z.eqb_neq d 0)) by done. rewrite IH. split; congruence.
      * split; [lia|]. destruct (Z.eqb_spec d 0); congruence.
Qed.

Lemma namecmp_dname s t : namecmp s t = 0 <-> dname s = dname t.
Proof. apply strncmp_cname. Qed.

Lemma cname_zeros n m : cname n (replicate m 0) = [].
Proof. by destruct n, m. Qed.

Lemma cname_strncpy n : forall s, cname n (strncpy_list s n) = cname n s.
Proof.
  induction n as [|n IH]; intros s; [done|]. cbn [strncpy_list]. destruct s as [|c s]; cbn [head default tail]; cbn; [done|].
  destruct (Z.eqb_spec c 0) as [->|Hc]; cbn; [done|]. rewrite (proj2 (Z.eqb_neq c 0)) by done. by rewrite IH.
Qed.

Lemma length_strncpy n : forall s, length (strncpy_list s n) = n.
Proof.
  induction n as [|n IH]; intros s; [done|]. cbn [strncpy_list]. destruct (_ =? 0); [apply length_replicate|]. cbn. by rewrite IH.
Qed.

Lemma bytes_strncpy n : forall s, bytes s -> bytes (strncpy_list s n).
Proof.
  induction n as [|n IH]; intros s Hs; [constructor|]. cbn [strncpy_list]. destruct (_ =? 0); [apply Forall_replicate; lia|].
  destruct s as [|c s]; cbn.
  - constructor; [lia|]. apply IH. constructor.
  - apply Forall_cons in Hs as [Hc Hs]. constructor; [done|by apply IH].
Qed.

(** ** The entries of a directory *)

Definition dent (c : list Z) (off : Z) : list Z := sub c off dirent_size.

(** An entry in use with the name [nm], and the offset of the first one. *)
Definition dtest (c nm : list Z) (off : Z) : bool :=
  negb (de_inum (dent c off) =? 0) && bool_decide (dname (de_name (dent c off)) = nm).
Fixpoint dfind (c nm : list Z) (offs : list Z) : option Z :=
  match offs with
  | [] => None
  | off :: offs' =>
      if dtest c nm off then Some off
      else dfind c nm offs'
  end.
Definition dir_find (c nm : list Z) : option Z := dfind c nm (dir_offs (zlen c)).

(** The inode that a directory gives to a name. *)
Definition dir_lookup (c nm : list Z) : option Z := (fun off => de_inum (dent c off)) <$> dir_find c nm.

Record wf_dir sb (v : Z -> block) (di : dinode) : Prop := {
  wd_file : wf_file sb v di;
  wd_isdir : di_type di = T_DIR;
  wd_whole : di_size di mod dirent_size = 0;
}.

Lemma elem_of_dir_offs size off : 0 <= size -> size mod dirent_size = 0 -> off ∈ dir_offs size -> 0 <= off /\ off + dirent_size <= size /\ off mod dirent_size = 0.
Proof.
  intros Hs Hm (k & -> & Hk%elem_of_upto)%list_elem_of_fmap. change dirent_size with 16 in *. dlia.
Qed.

Lemma splice_splice d bs0 bs : in_range d 0 (zlen (bs0 ++ bs)) -> splice (splice d 0 bs0) (zlen bs0) bs = splice d 0 (bs0 ++ bs).
Proof.
  intros (_ & _ & Hl). rewrite length_app in Hl. unfold splice. change (Z.to_nat 0) with 0%nat. rewrite !take_0, !app_nil_l, !Nat.add_0_l, Nat2Z.id.
  rewrite take_app_length, <- app_assoc. do 2 f_equal. rewrite drop_app_ge by lia. rewrite drop_drop. f_equal. rewrite length_app. lia.
Qed.

Lemma splice_full d bs : zlen bs = zlen d -> splice d 0 bs = bs.
Proof. intros H. unfold splice. cbn. rewrite drop_ge by lia. by rewrite app_nil_r. Qed.

(** ** Reading entries *)

Section Lookup.
Context {S : Type} {K : Blocks S} {KOk : BlocksOk S}.
Context (sb : superblock) (X : gset Z) (n h : Z) (ic : Z -> inode) (dp : Z) (a : atx).
Context (Hok : fs_ok sb a) (Hw : wf_dir sb (t_view a) (i_di (ic dp))) (Hdev : i_dev (ic dp) = k_dev).
Context (Hheld : t_held a = ∅) (Hroom : room X n h a) (Hh : 1 <= h).
Let c := content (t_view a) (i_di (ic dp)).

Lemma dir_size : zlen c = di_size (i_di (ic dp)) /\ 0 <= di_size (i_di (ic dp)) <= 274432.
Proof using Hw.
  pose proof (wf_size _ _ _ (wd_file _ _ _ Hw)) as Hs. pose proof (wd_size _ (wl_di _ _ _ (wf_slots_ok _ _ _ (wd_file _ _ _ Hw)))).
  change (MAXFILE * BSIZE) with 274432 in Hs. split; [apply length_content; lia|lia].
Qed.

(** An entry is read as it is in the content. *)
Lemma read_dirent_ok x off msg : brep x a -> 0 <= off -> off + dirent_size <= zlen c ->
  exists x', read_dirent dp off msg (Fs sb ic x) = Ok (dent c off, Fs sb ic x') /\ brep x' a.
Proof.
  intros Hr Ho Hs. destruct dir_size as [El Hsz]. set (R := fun bs t => zlen bs <= 16 -> t = splice (replicate 16 0) 0 bs).
  destruct (readi_ok sb X n h ic dp a Hok (wd_file _ _ _ Hw) Hdev Hheld Hroom Hh buf_out 0 R (fun _ _ => False)) with
    (off := off) (cnt := dirent_size) (x := x) (t := replicate 16 0) as (j & x' & t' & Hrun & R' & Hj); try done.
  - intros bs0 bs t HR. exists 0. eexists. split; [done|]. left. split; [done|]. intros Hlen. rewrite length_app in Hlen.
    rewrite HR by lia. rewrite Z.add_0_l, u64_small by lia. apply splice_splice.
    unfold in_range. rewrite length_app, length_replicate. lia.
  - change dirent_size with 16 in *. lia.
  - change dirent_size with 16 in *. rewrite (proj2 (Z.ltb_ge _ _)), (proj2 (Z.leb_gt _ _)), Z.min_l in Hj by lia. cbn [orb] in Hj.
    destruct Hj as [[-> HR]|[_ []]]. exists x'. split; [|done]. unfold read_dirent, local. change (u64 0) with 0 in Hrun.
    unfold bind at 1. change (Z.to_nat dirent_size) with 16%nat. change dirent_size with 16. rewrite Hrun. cbn [fst snd Z.eqb negb panic_if].
    mcomp. unfold ret. rewrite HR.
    + rewrite splice_full; [done|]. rewrite length_replicate. rewrite length_sub; [done|]. unfold in_range. fold c. lia.
    + rewrite length_sub; [done|]. unfold in_range. fold c. lia.
Qed.

(** The body of the loop of [dirlookup]. *)
Definition lookup_body (dev : Z) (name : list Z) (off : Z) : M fs (option (Z * Z)) :=
  let! de := read_dirent dp off "dirlookup read" in
  if de_inum de =? 0 then ret None
  else if namecmp name (de_name de) =? 0 then
    let! ip := iget dev (de_inum de) in
    ret (Some (ip, off))
  else ret None.

Lemma dirlookup_run name x : brep x a ->
  exists x', brep x' a /\ dirlookup dp name (Fs sb ic x) =
    match dir_find c (dname name) with
    | None => Ok ((0, 0), Fs sb ic x')
    | Some off => (let! ip := iget k_dev (de_inum (dent c off)) in ret (ip, off)) (Fs sb ic x')
    end.
Proof.
  intros Hr. destruct dir_size as [El Hsz].
  assert (dirlookup dp name (Fs sb ic x) =
    (let! r := msearch (dir_offs (di_size (i_di (ic dp)))) (lookup_body k_dev name) in ret (default (0, 0) r)) (Fs sb ic x)) as E0.
  { unfold dirlookup. mcomp. cbn [f_icache]. rewrite (proj2 (Z.eqb_eq (i_type (ic dp)) T_DIR) (wd_isdir _ _ _ Hw)). rewrite Hdev. mcomp. done. }
  rewrite E0. unfold dir_find. rewrite El.
  assert (forall offs x, (forall off, off ∈ offs -> 0 <= off /\ off + dirent_size <= zlen c) -> brep x a ->
    exists x', brep x' a /\ msearch offs (lookup_body k_dev name) (Fs sb ic x) =
      match dfind c (dname name) offs with
      | None => Ok (None, Fs sb ic x')
      | Some off => (let! ip := iget k_dev (de_inum (dent c off)) in ret (Some (ip, off))) (Fs sb ic x')
      end) as Hloop.
  { clear x Hr E0. intros offs. induction offs as [|off offs IH]; intros x Hin Hr; [by exists x|]. cbn [msearch dfind]. unfold dtest.
    destruct (read_dirent_ok x off "dirlookup read" Hr) as (x1 & H1 & R1); [apply Hin; by left..|].
    unfold lookup_body at 1. setoid_rewrite bind_assoc. setoid_rewrite (bind_ok _ _ _ _ _ H1).
    destruct (de_inum (dent c off) =? 0); cbn [negb andb].
    - destruct (IH x1) as (x' & R' & E); [intros; apply Hin; by right|done|]. exists x'. split; [done|]. mcomp. exact E.
    - destruct (Z.eqb_spec (namecmp name (de_name (dent c off))) 0) as [En|En].
      + rewrite bool_decide_eq_true_2 by (symmetry; by apply namecmp_dname). exists x1. split; [done|]. rewrite bind_assoc.
        unfold bind. destruct (iget _ _ _) as [[ip s']| | |]; done.
      + rewrite bool_decide_eq_false_2 by (intros E; apply En, namecmp_dname; done).
        destruct (IH x1) as (x' & R' & E); [intros; apply Hin; by right|done|]. exists x'. split; [done|]. mcomp. exact E. }
  destruct (Hloop (dir_offs (di_size (i_di (ic dp)))) x) as (x' & R' & E); [|done|].
  { intros off Hoff. rewrite El. destruct (elem_of_dir_offs (di_size (i_di (ic dp))) off) as (? & ? & _); [lia|exact (wd_whole _ _ _ Hw)|done|lia]. }
  exists x'. split; [done|]. unfold bind at 1. rewrite E. destruct (dfind _ _ _) as [off|]; [|done].
  unfold bind. destruct (iget _ _ _) as [[ip s']| | |]; done.
Qed.
End Lookup.

(** ** Adding an entry *)

Lemma dfind_ext c c' nm nm' offs : (forall off, off ∈ offs -> dtest c' nm' off = dtest c nm off) -> dfind c' nm' offs = dfind c nm offs.
Proof.
  induction offs as [|off offs IH]; intros H; [done|]. cbn [dfind]. rewrite H by (by left).
  destruct (dtest c nm off); [done|]. apply IH. intros o Ho. apply H. by right.
Qed.

Lemma dfind_None c nm offs : dfind c nm offs = None <-> forall off, off ∈ offs -> dtest c nm off = false.
Proof.
  induction offs as [|off offs IH]; cbn [dfind]; [split; [intros _ o Ho; by apply elem_of_nil in Ho|done]|].
  destruct (dtest c nm off) eqn:E.
  - split; [done|]. intros H. rewrite H in E by (by left). done.
  - rewrite IH. split; intros H o Ho; [apply elem_of_cons in Ho as [->|Ho]; auto|apply H; by right].
Qed.

Lemma dfind_Some c nm offs off : NoDup offs -> off ∈ offs -> dtest c nm off = true ->
  (forall o, o ∈ offs -> o <> off -> dtest c nm o = false) -> dfind c nm offs = Some off.
Proof.
  intros Hnd Hin Ht Ho. induction offs as [|o offs IH]; [by apply elem_of_nil in Hin|]. cbn [dfind].
  destruct (Z.eq_dec o off) as [->|Hne]; [by rewrite Ht|]. rewrite Ho by (done || by left).
  apply NoDup_cons in Hnd as [_ Hnd]. apply IH; [done|apply elem_of_cons in Hin as [?|?]; done|]. intros o' Ho'. apply Ho. by right.
Qed.

Lemma dfind_app c nm l1 l2 : dfind c nm (l1 ++ l2) = match dfind c nm l1 with Some o => Some o | None => dfind c nm l2 end.
Proof. induction l1 as [|o l1 IH]; cbn [dfind app]; [done|]. by destruct (dtest c nm o). Qed.

Lemma NoDup_dir_offs size : NoDup (dir_offs size).
Proof. unfold dir_offs. apply NoDup_fmap_2; [intros i j; change dirent_size with 16; lia|apply NoDup_upto]. Qed.

Lemma dir_offs_elem size off : size mod dirent_size = 0 -> off ∈ dir_offs size <-> 0 <= off < size /\ off mod dirent_size = 0.
Proof.
  intros Hm. unfold dir_offs. rewrite list_elem_of_fmap. change dirent_size with 16 in *. split.
  - intros (k & -> & Hk%elem_of_upto). dlia.
  - intros [H1 H2]. exists (off / 16). rewrite elem_of_upto. dlia.
Qed.

Section AddEntry.
Context (c de : list Z) (off inum : Z) (nm : list Z).
Context (Hc : zlen c mod dirent_size = 0) (Hde : zlen de = dirent_size) (Hoff : 0 <= off <= zlen c) (Hal : off mod dirent_size = 0).
Context (Hfree : off < zlen c -> de_inum (dent c off) = 0).
Context (Hinum : de_inum de = inum) (Hi0 : inum <> 0) (Hnm : dname (de_name de) = nm).

Lemma length_add : zlen (splice c off de) = Z.max (zlen c) (off + dirent_size) /\ zlen (splice c off de) mod dirent_size = 0.
Proof.
  assert (zlen (splice c off de) = Z.max (zlen c) (off + dirent_size)) as E.
  { unfold splice. rewrite !length_app, length_take, length_drop. change dirent_size with 16 in *. lia. }
  split; [done|]. rewrite E. change dirent_size with 16 in *. dlia.
Qed.

Lemma dent_add o : 0 <= o -> o mod dirent_size = 0 -> o + dirent_size <= Z.max (zlen c) (off + dirent_size) ->
  dent (splice c off de) o = if o =? off then de else dent c o.
Proof.
  intros Ho Hm Hle. destruct length_add as [El _]. unfold dent. change dirent_size with 16 in *.
  apply list_eq. intros i. rewrite sub_lookup by (split_and!; lia). rewrite splice_lookup_le by lia.
  destruct (Z.ltb_spec (Z.of_nat i) 16).
  - destruct (Z.eqb_spec o off) as [->|Hne].
    + rewrite (proj2 (Z.leb_le _ _)), (proj2 (Z.ltb_lt _ _)) by lia. cbn. f_equal. lia.
    + replace ((off <=? Z.of_nat (Z.to_nat o + i)) && (Z.of_nat (Z.to_nat o + i) <? off + zlen de)) with false.
      * rewrite sub_lookup by (split_and!; dlia). by rewrite (proj2 (Z.ltb_lt _ _)).
      * symmetry. apply andb_false_iff. destruct (decide (o < off)); [left; apply Z.leb_gt|right; apply Z.ltb_ge]; dlia.
  - symmetry. destruct (Z.eqb_spec o off); apply lookup_ge_None_2; [lia|]. unfold sub. rewrite length_take. lia.
Qed.

Lemma dtest_add n o : o ∈ dir_offs (zlen (splice c off de)) ->
  dtest (splice c off de) n o = if o =? off then bool_decide (nm = n) else dtest c n o.
Proof.
  destruct length_add as [El Em]. intros Ho%(dir_offs_elem _ _ Em). rewrite El in Ho. change dirent_size with 16 in *.
  unfold dtest. rewrite dent_add by (change dirent_size with 16; dlia). destruct (o =? off); [|done].
  rewrite Hinum, Hnm. by rewrite (proj2 (Z.eqb_neq inum 0)).
Qed.

Lemma dir_offs_add : off = zlen c -> dir_offs (zlen (splice c off de)) = dir_offs (zlen c) ++ [zlen c].
Proof.
  intros Ho. destruct length_add as [-> _]. unfold dir_offs. change dirent_size with 16 in *.
  replace ((Z.max (zlen c) (off + 16) + 16 - 1) / 16) with ((zlen c + 16 - 1) / 16 + 1) by dlia.
  rewrite upto_S by dlia. rewrite fmap_app. cbn [fmap list_fmap]. do 2 f_equal. dlia.
Qed.

(** The new name is found where it was put, and the others as before. *)
Lemma dir_find_add : dir_find c nm = None -> dir_find (splice c off de) nm = Some off.
Proof.
  intros Hn. destruct length_add as [El Em]. unfold dir_find.
  assert (off ∈ dir_offs (zlen (splice c off de))) as Hin.
  { apply (dir_offs_elem _ _ Em). rewrite El. change dirent_size with 16 in *. lia. }
  apply dfind_Some; [apply NoDup_dir_offs|done|rewrite dtest_add by done; rewrite Z.eqb_refl; by apply bool_decide_eq_true_2|].
  intros o Ho Hne. rewrite dtest_add by done. rewrite (proj2 (Z.eqb_neq _ _) Hne).
  apply (proj1 (dfind_None c nm (dir_offs (zlen c)))); [exact Hn|]. apply (dir_offs_elem _ _ Em) in Ho. apply (dir_offs_elem _ _ Hc). rewrite El in Ho.
  change dirent_size with 16 in *. dlia.
Qed.

Lemma dir_find_add_other n : n <> nm -> dir_find (splice c off de) n = dir_find c n.
Proof.
  intros Hne. destruct length_add as [El Em]. unfold dir_find.
  assert (dtest c n off = false \/ off = zlen c) as Hold.
  { destruct (Z.eq_dec off (zlen c)); [by right|left]. unfold dtest. rewrite Hfree by lia. done. }
  destruct (decide (off < zlen c)) as [Hlt|Hge].
  - assert (zlen (splice c off de) = zlen c) as E by (rewrite El; change dirent_size with 16 in *; dlia).
    rewrite E. apply dfind_ext. intros o Ho. rewrite dtest_add by (by rewrite E).
    destruct (Z.eqb_spec o off) as [->|]; [|done]. destruct Hold as [->|]; [|lia]. by apply bool_decide_eq_false_2, not_eq_sym.
  - rewrite dir_offs_add by lia. rewrite dfind_app.
    rewrite (dfind_ext c (splice c off de) n n (dir_offs (zlen c))).
    + destruct (dfind c n (dir_offs (zlen c))); [done|]. cbn [dfind]. rewrite dtest_add.
      * rewrite (proj2 (Z.eqb_eq (zlen c) off)) by lia. by rewrite bool_decide_eq_false_2 by (by apply not_eq_sym).
      * rewrite dir_offs_add by lia. apply elem_of_app. right. by left.
    + intros o Ho. pose proof (proj1 (dir_offs_elem _ _ Hc) Ho). rewrite dtest_add.
      * by rewrite (proj2 (Z.eqb_neq o off)) by lia.
      * rewrite dir_offs_add by lia. apply elem_of_app. by left.
Qed.
End AddEntry.

(** ** [dirlink] *)

(** The entry that [dirlink] writes. *)
Definition new_dirent (name : list Z) (inum : Z) : list Z := le_put 2 inum ++ strncpy_list name (Z.to_nat DIRSIZ).

Lemma new_dirent_fields name inum : zlen (new_dirent name inum) = dirent_size /\
  de_inum (new_dirent name inum) = u16 inum /\ dname (de_name (new_dirent name inum)) = dname name.
Proof.
  unfold new_dirent, de_inum, de_name, get_le, sub. pose proof (length_strncpy 14 name) as El. change (Z.to_nat DIRSIZ) with 14%nat in *.
  split_and!.
  - rewrite length_app, length_le_put, El. done.
  - rewrite drop_0, take_app_le by (by rewrite length_le_put). rewrite take_ge by (by rewrite length_le_put). rewrite le_get_put. done.
  - change (Z.to_nat 2) with 2%nat. rewrite drop_app_ge by (by rewrite length_le_put). rewrite length_le_put. cbn [Nat.sub]. rewrite drop_0.
    rewrite take_ge by (rewrite El; done). apply cname_strncpy.
Qed.

Lemma bytes_new_dirent name inum : bytes name -> bytes (new_dirent name inum).
Proof. intros Hn. apply Forall_app. split; [apply bytes_le_put|by apply bytes_strncpy]. Qed.

(** Where a new entry goes. *)
Definition free_at (c : list Z) (off : Z) : Prop :=
  0 <= off <= zlen c /\ off mod dirent_size = 0 /\ (off < zlen c -> de_inum (dent c off) = 0).

Section Link.
Context {S : Type} {K : Blocks S} {KOk : BlocksOk S} (Hkdev : u32 k_dev = k_dev).
Context (sb : superblock) (X : gset Z) (ic : Z -> inode) (dp : Z) (a : atx).
Context (HX : forall b, bitmap_block sb b -> b ∈ X) (Hok : fs_ok sb a) (Hw : wf_dir sb (t_view a) (i_di (ic dp))).
Context (Hdev : i_dev (ic dp) = k_dev) (Hheld : t_held a = ∅) (Hroom : room X 2 2 a).
Let c := content (t_view a) (i_di (ic dp)).

Definition free_body (off : Z) : M fs (option Z) :=
  let! de := read_dirent dp off "dirlink read" in
  ret (if de_inum de =? 0 then Some off else None).

Lemma free_dirent_run x : brep x a -> exists x' off, free_dirent dp (Fs sb ic x) = Ok (off, Fs sb ic x') /\ brep x' a /\ free_at c off.
Proof.
  intros Hr. destruct (dir_size sb ic dp a Hw) as [El Hsz]. fold c in El.
  assert (forall offs x, (forall off, off ∈ offs -> 0 <= off /\ off + dirent_size <= zlen c) -> brep x a ->
    exists x' r, msearch offs free_body (Fs sb ic x) = Ok (r, Fs sb ic x') /\ brep x' a /\
      match r with Some off => off ∈ offs /\ de_inum (dent c off) = 0 | None => True end) as Hloop.
  { clear x Hr. intros offs. induction offs as [|off offs IH]; intros x Hin Hr; [by exists x, None|]. cbn [msearch].
    destruct (read_dirent_ok sb X 2 2 ic dp a Hok Hw Hdev Hheld Hroom ltac:(lia) x off "dirlink read" Hr) as (x1 & H1 & R1); [apply Hin; by left..|].
    fold c in H1. destruct (IH x1) as (x2 & r & H2 & R2 & Hr2); [intros; apply Hin; by right|done|].
    destruct (Z.eqb_spec (de_inum (dent c off)) 0) as [E0|E0].
    - exists x1, (Some off). split_and!; [|done|by left|done]. unfold free_body at 1. rewrite bind_assoc. mstep H1. mcomp. rewrite E0. done.
    - exists x2, r. split_and!; [|done|destruct r; [|done]; split; [right|]; apply Hr2]. unfold free_body at 1. rewrite bind_assoc. mstep H1. mcomp.
      rewrite (proj2 (Z.eqb_neq _ _) E0). exact H2. }
  destruct (Hloop (dir_offs (di_size (i_di (ic dp)))) x) as (x' & r & H1 & R1 & Hr1); [|done|].
  { intros off Hoff. rewrite El. destruct (elem_of_dir_offs (di_size (i_di (ic dp))) off) as (? & ? & _); [lia|exact (wd_whole _ _ _ Hw)|done|lia]. }
  exists x', (default (dirent_size * ((i_size (ic dp) + dirent_size - 1) / dirent_size)) r). split_and!; [|done|].
  - unfold free_dirent. mcomp. mstep H1. done.
  - pose proof (wd_whole _ _ _ Hw) as Hm. unfold free_at. rewrite El. unfold i_size. destruct r as [off|]; cbn [default]; unfold id.
    + destruct Hr1 as [Hin H0]. destruct (elem_of_dir_offs (di_size (i_di (ic dp))) off ltac:(lia) Hm Hin) as (? & ? & ?). change dirent_size with 16 in *. repeat split; [lia|lia|done|done].
    + change dirent_size with 16 in *. split_and!; dlia.
Qed.

(** A new name is added in a free entry or at the end. *)
Lemma dirlink_new me name inum x : dir_find c (dname name) = None -> bytes name -> brep x a ->
  0 <= i_inum (ic dp) < sb_ninodes sb -> IBLOCK (i_inum (ic dp)) sb ∈ X ->
  di_size (i_di (ic dp)) + dirent_size <= MAXFILE * BSIZE -> 2 <= nfree sb (t_view a) ->
  exists ic' x' a' di' off, dirlink me dp name inum (Fs sb ic x) = Ok (0, Fs sb ic' x') /\ brep x' a' /\ room X 0 2 a' /\
    same_icache ic' (upd ic dp (set_di di' (ic dp))) /\ free_at c off /\
    wrote sb a (i_di (ic dp)) (i_inum (ic dp)) off (new_dirent name inum) a' di'.
Proof.
  intros Hnone Hname Hr Hinum HXi Hmax Hfree. destruct (dir_size sb ic dp a Hw) as [El Hsz]. fold c in El.
  destruct (dirlookup_run sb X 2 2 ic dp a Hok Hw Hdev Hheld Hroom ltac:(lia) name x Hr) as (x1 & R1 & H1). fold c in H1. rewrite Hnone in H1.
  destruct (free_dirent_run x1 R1) as (x2 & off & H2 & R2 & Hf). pose proof Hf as (Hoff & Hal & _).
  destruct (new_dirent_fields name inum) as (Elen & _). set (de := new_dirent name inum) in *.
  assert (io_blocks off (zlen de) = 1) as Eio.
  { rewrite Elen. unfold io_blocks. change dirent_size with 16 in *. cbn. fslia. }
  destruct (writei_ok Hkdev sb X HX ic dp a off de Hok (wd_file _ _ _ Hw) Hdev Hheld) with
    (T := list Z) (inp := buf_in) (src := 0) (I := fun t => t = de) (x := x2) (t := de)
    as (ic' & x3 & t3 & a' & di' & H3 & R3 & _ & Hic & W & Hroom'); rewrite ?Eio, ?Elen; try done.
  - lia.
  - lia.
  - by apply bytes_new_dirent.
  - intros k old t Hk Hko _ _ ->. exists de. split; [|done]. unfold buf_in, gets. rewrite Z.add_0_l, u64_small; [done|].
    change dirent_size with 16 in *. lia.
  - pose proof (icost_bound X a (i_di (ic dp))). eapply room_le; [exact Hroom|lia|lia].
  - unfold fcost. destruct (_ =? 0); lia.
  - exists ic', x3, a', di', off. split_and!; try done. unfold dirlink. mstep H1. cbn [fst Z.eqb negb]. mstep H2. fold (new_dirent name inum). fold de.
    rewrite Elen in H3. unfold bind at 1. unfold local. change (u64 0) with 0 in H3. rewrite H3. done.
Qed.
End Link.

(** ** [iget] *)

Definition cached (ino : inode) (dev inum : Z) : Prop := 0 < i_ref ino /\ i_dev ino = dev /\ i_inum ino = inum.

Lemma cached_test ino dev inum : (0 <? i_ref ino) && (i_dev ino =? dev) && (i_inum ino =? inum) = true <-> cached ino dev inum.
Proof. unfold cached. rewrite !andb_true_iff, Z.ltb_lt, !Z.eqb_eq. tauto. Qed.

Lemma iget_scan_spec ic dev inum ps : forall e,
  match iget_scan ic dev inum ps e with
  | inl ip => ip ∈ ps /\ cached (ic ip) dev inum
  | inr e' => (forall ip, ip ∈ ps -> ~ cached (ic ip) dev inum) /\ (e' = e \/ e' ∈ ps /\ i_ref (ic e') = 0) /\
      (e' = 0 -> e = 0 /\ forall ip, ip ∈ ps -> ip <> 0 -> i_ref (ic ip) <> 0)
  end.
Proof.
  induction ps as [|p ps IH]; intros e; cbn [iget_scan].
  { split_and!; [intros ip H; by apply elem_of_nil in H|by left|]. intros ->. split; [done|]. intros ip H. by apply elem_of_nil in H. }
  destruct (_ && _ && _) eqn:E.
  - apply cached_test in E. split; [by left|done].
  - assert (~ cached (ic p) dev inum) as Hn by (intros H; apply cached_test in H; congruence).
    specialize (IH (if (e =? 0) && (i_ref (ic p) =? 0) then p else e)). destruct (iget_scan _ _ _ _ _) as [ip|e'].
    + split; [right|]; apply IH.
    + destruct IH as (H1 & H2 & H3). destruct (Z.eqb_spec e 0) as [->|He], (Z.eqb_spec (i_ref (ic p)) 0) as [Hp|Hp]; cbn [andb] in *;
        (split_and!; [intros ip [->|Hip]%elem_of_cons; auto| |]).
      * destruct H2 as [->|[H2 H2']]; right; (split; [|done]); [by left|by right].
      * intros ->. destruct (H3 eq_refl) as [-> H3']. split; [done|]. intros ip [->|Hip]%elem_of_cons Hnz; [done|auto].
      * destruct H2 as [->|[H2 H2']]; [by left|right; split; [by right|done]].
      * intros ->. destruct (H3 eq_refl) as [_ H3']. split; [done|]. intros ip [->|Hip]%elem_of_cons Hnz; [done|auto].
      * destruct H2 as [->|[H2 H2']]; [by left|right; split; [by right|done]].
      * intros ->. by destruct (H3 eq_refl).
      * destruct H2 as [->|[H2 H2']]; [by left|right; split; [by right|done]].
      * intros ->. by destruct (H3 eq_refl).
Qed.

Lemma elem_of_icache_ptrs p : p ∈ icache_ptrs <-> 1 <= p <= NINODE.
Proof.
  unfold icache_ptrs. rewrite list_elem_of_fmap. split.
  - intros (k & -> & Hk%elem_of_upto). lia.
  - intros Hp. exists (p - 1). rewrite elem_of_upto. lia.
Qed.

(** A reference [ip] to inode [inum]: one more to its entry, or the first to an entry that
    had none. *)
Record got (ic : Z -> inode) (dev inum ip : Z) (ic' : Z -> inode) : Prop := {
  got_ptr : ip ∈ icache_ptrs;
  got_frame p : p <> ip -> ic' p = ic p;
  got_entry : cached (ic ip) dev inum /\ ic' ip = set_ref (i32 (i_ref (ic ip) + 1)) (ic ip) \/
    i_ref (ic ip) = 0 /\ (forall p, p ∈ icache_ptrs -> ~ cached (ic p) dev inum) /\
    ic' ip = Inode dev inum 1 (i_lock (ic ip)) false (i_di (ic ip));
}.

(** No entry is free for [inum]. *)
Definition icache_full (ic : Z -> inode) (dev inum : Z) : Prop :=
  forall p, p ∈ icache_ptrs -> i_ref (ic p) <> 0 /\ ~ cached (ic p) dev inum.

Section Iget.
Context {S : Type} {K : Blocks S}.

Lemma iget_run dev inum (s : @fs S) :
  icache_full (f_icache s) dev inum /\ iget dev inum s = Panic "iget: no inodes" \/
  exists ip ic', iget dev inum s = Ok (ip, Fs (f_sb s) ic' (f_blk s)) /\ got (f_icache s) dev inum ip ic'.
Proof.
  unfold iget. mcomp. pose proof (iget_scan_spec (f_icache s) dev inum icache_ptrs 0) as H.
  destruct (iget_scan _ _ _ _ _) as [ip|e].
  - right. destruct H as [Hp Hc]. eexists ip, _. split; [done|]. split; [done|intros p Hne; by rewrite upd_ne|]. left. by rewrite upd_eq.
  - destruct H as (Hn & He & H0). destruct (Z.eqb_spec e 0) as [->|Hne].
    + left. split; [|done]. intros p Hp. split; [|auto]. apply H0; [done..|]. apply elem_of_icache_ptrs in Hp. lia.
    + right. destruct He as [->|[He Hr]]; [done|]. eexists e, _. split; [done|]. split; [done|intros p Hp; by rewrite upd_ne|]. right.
      by rewrite upd_eq.
Qed.
End Iget.

Lemma got_ident ic dev inum ip ic' : got ic dev inum ip ic' -> i_dev (ic' ip) = dev /\ i_inum (ic' ip) = inum.
Proof. intros [_ _ [[(_ & H1 & H2) ->]|(_ & _ & ->)]]; done. Qed.

Lemma got_di ic dev inum ip ic' p : got ic dev inum ip ic' -> i_di (ic' p) = i_di (ic p).
Proof. intros [_ Hf He]. destruct (Z.eq_dec p ip) as [->|Hne]; [|by rewrite Hf]. by destruct He as [[_ ->]|(_ & _ & ->)]. Qed.

(** [dirlookup] is the lookup in the entries followed by [iget]. *)
Lemma dirlookup_ok {S} {K : Blocks S} {KOk : BlocksOk S} sb X n h ic dp a name x :
  fs_ok sb a -> wf_dir sb (t_view a) (i_di (ic dp)) -> i_dev (ic dp) = k_dev -> t_held a = ∅ -> room X n h a -> 1 <= h -> brep x a ->
  match dir_lookup (content (t_view a) (i_di (ic dp))) (dname name) with
  | None => exists x', dirlookup dp name (Fs sb ic x) = Ok ((0, 0), Fs sb ic x') /\ brep x' a
  | Some i =>
      icache_full ic k_dev i /\ dirlookup dp name (Fs sb ic x) = Panic "iget: no inodes" \/
      exists ip off ic' x', dirlookup dp name (Fs sb ic x) = Ok ((ip, off), Fs sb ic' x') /\ brep x' a /\ got ic k_dev i ip ic'
  end.
Proof.
  intros Hok Hw Hdev Hheld Hroom Hh Hr. destruct (dirlookup_run sb X n h ic dp a Hok Hw Hdev Hheld Hroom Hh name x Hr) as (x' & R' & E).
  unfold dir_lookup. destruct (dir_find _ _) as [off|]; cbn [fmap option_fmap option_map].
  - rewrite E. destruct (iget_run k_dev (de_inum (dent (content (t_view a) (i_di (ic dp))) off)) (Fs sb ic x')) as [[Hf Hp]|(ip & ic' & Hi & Hg)].
    + left. split; [done|]. by rewrite (bind_panic _ _ _ _ Hp).
    + right. exists ip, off, ic', x'. split_and!; [|done|done]. by mstep Hi.
  - by exists x'.
Qed.

(** A reference taken and given back. *)
Lemma iput_got {S} {K : Blocks S} me sb ic dev inum ip ic' (x : S) : got ic dev inum ip ic' -> 0 <= i_ref (ic ip) < 2 ^ 31 - 1 ->
  exists ic'', iput me ip (Fs sb ic' x) = Ok (tt, Fs sb ic'' x) /\ forall p, i_ref (ic'' p) = i_ref (ic p) /\ i_di (ic'' p) = i_di (ic p).
Proof.
  intros Hg Hr. pose proof (got_di _ _ _ _ _ ip Hg) as Hdi. destruct Hg as [Hp Hf He].
  assert ((i_ref (ic' ip) =? 1) && i_valid (ic' ip) = false /\ i_ref (ic' ip) = i_ref (ic ip) + 1) as [E1 E2].
  { destruct He as [[(Hc & _) ->]|(Hc & _ & ->)]; cbn; [|by rewrite Hc]. rewrite i32_small by lia. by rewrite (proj2 (Z.eqb_neq _ _)) by lia. }
  eexists. split.
  - unfold iput. mcomp. cbn [f_icache]. rewrite E1. cbn [andb]. mcomp. done.
  - intros p. cbn [f_icache]. unfold upd. destruct (Z.eqb_spec p ip) as [->|Hne]; [|by rewrite Hf].
    cbn [i_ref i_di set_ref]. rewrite E2, i32_small by lia. split; [lia|done].
Qed.

(** What a link adds to a directory. *)
Lemma dir_lookup_add c off name inum : zlen c mod dirent_size = 0 -> free_at c off -> 0 < inum < 2 ^ 16 -> dir_find c (dname name) = None ->
  forall nm, dir_lookup (splice c off (new_dirent name inum)) nm = if bool_decide (nm = dname name) then Some inum else dir_lookup c nm.
Proof.
  intros Hc (Ho & Hal & Hf) Hi Hn nm. destruct (new_dirent_fields name inum) as (El & Ei & En).
  assert (u16 inum = inum) as Eu by (apply Z.mod_small; lia). rewrite Eu in Ei.
  pose proof (dent_add c (new_dirent name inum) off Hc El Ho Hal) as Hd. unfold dir_lookup. case_bool_decide as E.
  - subst nm. rewrite (dir_find_add c (new_dirent name inum) off inum (dname name)); try done; [|lia]. cbn. f_equal.
    rewrite Hd by (done || lia). by rewrite Z.eqb_refl.
  - rewrite (dir_find_add_other c (new_dirent name inum) off inum (dname name)); try done; [|lia].
    destruct (dir_find c nm) as [o|] eqn:Eo; [|done]. cbn. f_equal.
    assert (o ∈ dir_offs (zlen c) /\ dtest c nm o = true) as [Hin Ht].
    { clear -Eo. unfold dir_find in Eo. induction (dir_offs (zlen c)) as [|o' l IH]; [done|]. cbn [dfind] in Eo.
      destruct (dtest c nm o') eqn:Et; [injection Eo as ->; split; [by left|done]|]. destruct (IH Eo). split; [by right|done]. }
    apply (dir_offs_elem _ _ Hc) in Hin. rewrite Hd; [|lia|lia|change dirent_size with 16 in *; dlia].
    destruct (Z.eqb_spec o off) as [->|]; [|done]. unfold dtest in Ht. rewrite Hf in Ht by lia. done.
Qed.

Section LinkTop.
Context {S : Type} {K : Blocks S} {KOk : BlocksOk S} (Hkdev : u32 k_dev = k_dev).

(** C20. Directory entries.  If the name is in the directory [dirlink] returns -1 and leaves
    the disk and the reference counts as they were.  Otherwise it adds the entry, in the
    first free place or at the end: looking up the name now gives [inum], every other
    name what it gave before, the directory is well formed and on the disk, and
    [dirlookup] finds the new inode. *)
Theorem dirlink_correct (me : Z) (sb : superblock) (X : gset Z) (ic : Z -> inode) (dp : Z) (a : atx) (name : list Z) (inum : Z) (x : S)
    (HX : forall b, bitmap_block sb b -> b ∈ X) (Hok : fs_ok sb a) (Hw : wf_dir sb (t_view a) (i_di (ic dp)))
    (Hdev : i_dev (ic dp) = k_dev) (Hheld : t_held a = ∅) (Hroom : room X 2 2 a) (Hname : bytes name) (Hr : brep x a)
    (Hi : 0 <= i_inum (ic dp) < sb_ninodes sb) (HXi : IBLOCK (i_inum (ic dp)) sb ∈ X)
    (Hmax : di_size (i_di (ic dp)) + dirent_size <= MAXFILE * BSIZE) (Hfree : 2 <= nfree sb (t_view a))
    (Hinum : 0 < inum < 2 ^ 16) (Hrefs : forall p, p ∈ icache_ptrs -> 0 <= i_ref (ic p) < 2 ^ 31 - 1) :
  match dir_lookup (content (t_view a) (i_di (ic dp))) (dname name) with
  | Some i =>
      icache_full ic k_dev i /\ dirlink me dp name inum (Fs sb ic x) = Panic "iget: no inodes" \/
      exists ic' x', dirlink me dp name inum (Fs sb ic x) = Ok (-1, Fs sb ic' x') /\ brep x' a /\
        forall p, i_ref (ic' p) = i_ref (ic p) /\ i_di (ic' p) = i_di (ic p)
  | None =>
      exists ic' x' a', dirlink me dp name inum (Fs sb ic x) = Ok (0, Fs sb ic' x') /\ brep x' a' /\ fs_ok sb a' /\
        wf_dir sb (t_view a') (i_di (ic' dp)) /\ disk_inode (t_view a') sb (i_inum (ic dp)) = i_di (ic' dp) /\
        (forall nm, dir_lookup (content (t_view a') (i_di (ic' dp))) nm =
           if bool_decide (nm = dname name) then Some inum else dir_lookup (content (t_view a) (i_di (ic dp))) nm) /\
        (icache_full ic' k_dev inum /\ dirlookup dp name (Fs sb ic' x') = Panic "iget: no inodes" \/
         exists ip off ic2 x2, dirlookup dp name (Fs sb ic' x') = Ok ((ip, off), Fs sb ic2 x2) /\ brep x2 a' /\ got ic' k_dev inum ip ic2)
  end.
Proof.
  destruct (dir_lookup _ _) as [i|] eqn:El.
  - pose proof (dirlookup_ok sb X 2 2 ic dp a name x Hok Hw Hdev Hheld Hroom ltac:(lia) Hr) as H. rewrite El in H.
    destruct H as [[Hf Hp]|(ip & off & ic1 & x1 & H1 & R1 & Hg)].
    + left. split; [done|]. unfold dirlink. by rewrite (bind_panic _ _ _ _ Hp).
    + right. destruct (iput_got me sb ic k_dev i ip ic1 x1 Hg (Hrefs _ (got_ptr _ _ _ _ _ Hg))) as (ic2 & H2 & Hs).
      exists ic2, x1. split_and!; [|done|done]. unfold dirlink. mstep H1. cbn [fst].
      rewrite (proj2 (Z.eqb_neq ip 0)) by (pose proof (proj1 (elem_of_icache_ptrs ip) (got_ptr _ _ _ _ _ Hg)); lia). cbn [negb]. by mstep H2.
  - assert (dir_find (content (t_view a) (i_di (ic dp))) (dname name) = None) as Hn by (unfold dir_lookup in El; by destruct (dir_find _ _)).
    destruct (dirlink_new Hkdev sb X ic dp a HX Hok Hw Hdev Hheld Hroom me name inum x Hn) as (ic' & x' & a' & di' & off & H1 & R1 & Hroom1 & Hs & Hat & W); try done.
    pose proof (Hs dp) as Edp. rewrite upd_eq in Edp. exists ic', x', a'. rewrite Edp. cbn [i_di set_di].
    destruct (dir_size sb ic dp a Hw) as [Esz Hsz]. destruct (new_dirent_fields name inum) as (Elen & _).
    assert (zlen (content (t_view a) (i_di (ic dp))) mod dirent_size = 0) as Hc by (rewrite Esz; exact (wd_whole _ _ _ Hw)).
    destruct Hat as (Ho & Hal & Hfr). destruct (length_add (content (t_view a) (i_di (ic dp))) (new_dirent name inum) off Hc Elen Ho Hal) as [_ Hm].
    rewrite <- (wr_content _ _ _ _ _ _ _ _ W) in Hm.
    assert (wf_dir sb (t_view a') di') as Hw'.
    { split; [exact (wr_file _ _ _ _ _ _ _ _ W)|destruct (wr_type _ _ _ _ _ _ _ _ W) as (-> & _); exact (wd_isdir _ _ _ Hw)|].
      rewrite length_content in Hm; [done|]. apply (wd_size _ (wl_di _ _ _ (wf_slots_ok _ _ _ (wr_file _ _ _ _ _ _ _ _ W)))). }
    assert (forall nm, dir_lookup (content (t_view a') di') nm = if bool_decide (nm = dname name) then Some inum else dir_lookup (content (t_view a) (i_di (ic dp))) nm) as Hlk.
    { intros nm. rewrite (wr_content _ _ _ _ _ _ _ _ W). by apply dir_lookup_add. }
    split_and!; try done.
    + apply (wr_ok _ _ _ _ _ _ _ _ W).
    + rewrite (wr_disk _ _ _ _ _ _ _ _ W) by done. by rewrite Z.eqb_refl.
    + pose proof (dirlookup_ok sb X 0 2 ic' dp a' name x' (wr_ok _ _ _ _ _ _ _ _ W)) as H. rewrite Edp in H. cbn [i_di set_di i_dev] in H.
      specialize (H Hw' Hdev). rewrite (wr_held _ _ _ _ _ _ _ _ W) in H. specialize (H Hheld Hroom1 ltac:(lia) R1).
      rewrite Hlk in H. by rewrite bool_decide_eq_true_2 in H.
Qed.
End LinkTop.
