(* ===== verification/FsPath.v ===== *)
(** * Path names

    [skipelem] against a splitting of the path at its slashes, and [namei] against the
    walk through the directories on the disk. *)

From S2P Require Import Prelude Bytes Riscv Cache Blocks Fs FsSpec FsFile FsWrite FsDir.

(** ** The elements of a path *)

(** The pieces between slashes. *)
Fixpoint pieces (p : list Z) : list (list Z) :=
  match p with
  | [] => [[]]
  | c :: r =>
      if c =? slash then [] :: pieces r
      else match pieces r with
           | e :: es => (c :: e) :: es
           | [] => [[c]]
           end
  end.
Definition elems (p : list Z) : list (list Z) := filter (fun e => e <> []) (pieces p).

Lemma pieces_cons p : exists e es, pieces p = e :: es.
Proof. destruct p as [|c p]; cbn; [by eexists _, _|]. destruct (c =? slash); [by eexists _, _|]. destruct (pieces p); by eexists _, _. Qed.

Lemma elems_slash p : elems (slash :: p) = elems p.
Proof. done. Qed.

Lemma elems_skip p : elems (skip_slashes p) = elems p.
Proof. induction p as [|c p IH]; [done|]. cbn [skip_slashes]. destruct (Z.eqb_spec c slash) as [->|]; [|done]. by rewrite elems_slash. Qed.

Lemma skip_slashes_head p c r : skip_slashes p = c :: r -> c <> slash.
Proof. induction p as [|d p IH]; [done|]. cbn [skip_slashes]. destruct (Z.eqb_spec d slash); [done|]. by intros [= -> _]. Qed.

Lemma length_skip p : (length (skip_slashes p) <= length p)%nat.
Proof. induction p as [|c p IH]; [done|]. cbn [skip_slashes]. destruct (c =? slash); cbn; lia. Qed.

(** The first piece and the pieces of the rest. *)
Lemma path_elem_spec p e r : path_elem p = (e, r) ->
  p = e ++ r /\ slash ∉ e /\ (r = [] \/ exists r', r = slash :: r') /\
  pieces p = e :: (match r with [] => [] | _ :: r' => pieces r' end).
Proof.
  revert e r. induction p as [|c p IH]; intros e r; cbn [path_elem].
  { intros [= <- <-]. split_and!; [done|apply not_elem_of_nil|by left|done]. }
  destruct (Z.eqb_spec c slash) as [->|Hc].
  - intros [= <- <-]. split_and!; [done|apply not_elem_of_nil|right; by eexists|done].
  - destruct (path_elem p) as [e' r'] eqn:E. intros [= <- <-]. destruct (IH e' r' eq_refl) as (-> & Hs & Hr & Hp).
    split_and!; [done|apply not_elem_of_cons; by split; [apply not_eq_sym|]|done|].
    cbn [pieces]. rewrite (proj2 (Z.eqb_neq _ _) Hc). by rewrite Hp.
Qed.

(** The elements of a path that starts with an element. *)
Lemma elems_elem p e r : path_elem p = (e, r) -> e <> [] -> elems p = e :: elems r.
Proof.
  intros H He. destruct (path_elem_spec p e r H) as (_ & _ & Hr & Hp). unfold elems. rewrite Hp, filter_cons_True by done. f_equal.
  destruct Hr as [->|[r' ->]]; [done|]. cbn [pieces]. rewrite Z.eqb_refl, filter_cons_False by auto. done.
Qed.

Lemma path_elem_nonempty c p e r : c <> slash -> path_elem (c :: p) = (e, r) -> e <> [].
Proof. intros Hc. cbn [path_elem]. rewrite (proj2 (Z.eqb_neq _ _) Hc). destruct (path_elem p). by intros [= <- _]. Qed.

(** The name of an element in [name]. *)
Lemma cname_full n s : 0 ∉ s -> cname n s = take n s.
Proof.
  revert s. induction n as [|n IH]; intros s Hs; [done|]. destruct s as [|c s]; [done|]. cbn [cname take].
  apply not_elem_of_cons in Hs as [Hc Hs]. rewrite (proj2 (Z.eqb_neq c 0)) by (by apply not_eq_sym). by rewrite IH.
Qed.

Lemma cname_nul n s t : 0 ∉ s -> (length s < n)%nat -> cname n (s ++ 0 :: t) = s.
Proof.
  revert n. induction s as [|c s IH]; intros n Hs Hl; [by destruct n|]. destruct n as [|n]; [cbn in Hl; lia|]. cbn [cname app].
  apply not_elem_of_cons in Hs as [Hc Hs]. rewrite (proj2 (Z.eqb_neq c 0)) by (by apply not_eq_sym). rewrite IH; [done|done|cbn in Hl; lia].
Qed.

Lemma skip_nil p : skip_slashes p = [] <-> elems p = [].
Proof.
  rewrite <- elems_skip. destruct (skip_slashes p) as [|c r] eqn:E; [done|]. split; [done|]. intros He.
  apply skip_slashes_head in E. destruct (path_elem (c :: r)) as [e r'] eqn:Ep.
  by rewrite (elems_elem _ _ _ Ep (path_elem_nonempty _ _ _ _ E Ep)) in He.
Qed.

Lemma skip_slashes_suffix p : exists q, p = q ++ skip_slashes p.
Proof.
  induction p as [|c p [q IH]]; [by exists []|]. cbn [skip_slashes]. destruct (c =? slash); [exists (c :: q); cbn; congruence|by exists []].
Qed.

(** The name that [skipelem] leaves in the array [name]. *)
Definition elem_name (name e : list Z) : list Z :=
  if DIRSIZ <=? zlen e then splice name 0 (take (Z.to_nat DIRSIZ) e) else splice name 0 (e ++ [0]).

Lemma elem_name_spec name e : zlen name = DIRSIZ -> 0 ∉ e -> zlen (elem_name name e) = DIRSIZ /\ dname (elem_name name e) = take 14 e.
Proof.
  intros Hn He. unfold elem_name. change DIRSIZ with 14 in *. change (Z.to_nat 14) with 14%nat. destruct (Z.leb_spec 14 (zlen e)).
  - rewrite splice_full by (rewrite length_take; lia). split; [rewrite length_take; lia|].
    rewrite cname_full, take_take; [done|]. intros Hx. apply He. rewrite <- (take_drop 14 e). apply elem_of_app. by left.
  - split; [rewrite length_splice; [done|]; unfold in_range; rewrite length_app; cbn; lia|].
    unfold splice. change (Z.to_nat 0) with 0%nat. rewrite take_0, app_nil_l, <- app_assoc. cbn [app]. rewrite cname_nul by (done || lia). by rewrite take_ge by lia.
Qed.

(** [skipelem] takes the first element off the path and copies it, cut to [DIRSIZ] bytes,
    to [name]; it returns null at the end of the path. *)
Lemma skipelem_spec path name : 0 ∉ path -> zlen name = DIRSIZ ->
  match elems path with
  | [] => skipelem path name = None
  | e :: es => exists path' name', skipelem path name = Some (path', name') /\ elems path' = es /\ (path' = [] <-> es = []) /\
      dname name' = take 14 e /\ zlen name' = DIRSIZ /\ 0 ∉ path' /\ (length path' < length path)%nat
  end.
Proof.
  intros H0 Hn. rewrite <- elems_skip. unfold skipelem. pose proof (length_skip path) as Hlen.
  destruct (skip_slashes_suffix path) as [q Eq]. rewrite Eq in H0. apply not_elem_of_app in H0 as [_ H0].
  destruct (skip_slashes path) as [|c p] eqn:E; [done|].
  assert (c <> slash) as Hc by (by eapply skip_slashes_head). destruct (path_elem (c :: p)) as [e r] eqn:Ep.
  assert (e <> []) as He by (by eapply path_elem_nonempty). rewrite (elems_elem _ _ _ Ep He).
  destruct (path_elem_spec _ _ _ Ep) as (Eapp & Hse & Hr & _). rewrite Eapp in H0. apply not_elem_of_app in H0 as [He0 Hr0].
  destruct (skip_slashes_suffix r) as [q' Eq']. destruct (elem_name_spec name e Hn He0) as [E1 E2].
  exists (skip_slashes r), (elem_name name e). split_and!; try done.
  - apply elems_skip.
  - apply skip_nil.
  - intros Hx. apply Hr0. rewrite Eq'. apply elem_of_app. by right.
  - rewrite Eapp, length_app in Hlen. pose proof (length_skip r). destruct e; [done|]. cbn in Hlen. lia.
Qed.

(** ** The walk through the directories *)

(** The inode at the end of the path, or before its last element; nothing if a directory
    on the way has no entry for an element or is not a directory. *)
Fixpoint path_walk (sb : superblock) (v : Z -> block) (np : bool) (inum : Z) (es : list (list Z)) : option Z :=
  match es with
  | [] => if np then None else Some inum
  | e :: es' =>
      let di := disk_inode v sb inum in
      if di_type di =? T_DIR then
        if np && bool_decide (es' = []) then Some inum
        else match dir_lookup (content v di) (take 14 e) with
             | Some j => path_walk sb v np j es'
             | None => None
             end
      else None
  end.

(** The directories of a disk: their entries are inodes in use, all with links. *)
Record tree_ok sb (v : Z -> block) : Prop := {
  to_links i : 0 <= i < sb_ninodes sb -> di_type (disk_inode v sb i) <> 0 -> di_nlink (disk_inode v sb i) <> 0;
  to_dir i : 0 <= i < sb_ninodes sb -> di_type (disk_inode v sb i) = T_DIR -> wf_dir sb v (disk_inode v sb i);
  to_entry i nm j : 0 <= i < sb_ninodes sb -> di_type (disk_inode v sb i) = T_DIR ->
    dir_lookup (content v (disk_inode v sb i)) nm = Some j -> 0 <= j < sb_ninodes sb /\ di_type (disk_inode v sb j) <> 0;
}.

(** An entry of the cache that agrees with the disk. *)
Record ientry_ok sb (v : Z -> block) (dev : Z) (ino : inode) : Prop := {
  ie_dev : i_dev ino = dev;
  ie_inum : 0 <= i_inum ino < sb_ninodes sb;
  ie_type : di_type (disk_inode v sb (i_inum ino)) <> 0;
  ie_di : i_valid ino = true -> i_di ino = disk_inode v sb (i_inum ino);
}.

(** A cache in which no entry is locked. *)
Record icache_ok sb (v : Z -> block) (dev : Z) (ic : Z -> inode) : Prop := {
  ico_lock p : p ∈ icache_ptrs -> il_locked (i_lock (ic p)) = false;
  ico_entry p : p ∈ icache_ptrs -> 0 < i_ref (ic p) -> ientry_ok sb v dev (ic p);
}.

(** The references of [ic0] and one more to [ip]. *)
Definition one_more (ic0 : Z -> inode) (ip : Z) (ic : Z -> inode) : Prop :=
  forall p, p ∈ icache_ptrs -> i_ref (ic p) = i_ref (ic0 p) + if p =? ip then 1 else 0.

Section Walk.
Context {S : Type} {K : Blocks S} {KOk : BlocksOk S}.
Context (me : Z) (sb : superblock) (a : atx) (X : gset Z) (n h : Z).
Context (Hok : fs_ok sb a) (Hheld : t_held a = ∅) (Hroom : room X n h a) (Hh : 1 <= h) (Htree : tree_ok sb (t_view a)).
Implicit Types (x : S) (ic : Z -> inode).
Let dino i := disk_inode (t_view a) sb i.
Let cache_ok := icache_ok sb (t_view a) k_dev.

Lemma ilock_ok ic ip x : cache_ok ic -> ip ∈ icache_ptrs -> 0 < i_ref (ic ip) -> brep x a ->
  exists ic' x', ilock me ip (Fs sb ic x) = Ok (tt, Fs sb ic' x') /\ brep x' a /\
    same_icache ic' (upd ic ip (loaded me (dino (i_inum (ic ip))) (ic ip))).
Proof.
  intros Hic Hp Hr R. destruct (ico_entry _ _ _ _ Hic ip Hp Hr) as [E1 E2 E3 E4]. pose proof (ico_lock _ _ _ _ Hic ip Hp) as Hl.
  assert (ip <> 0) as Hnz by (apply elem_of_icache_ptrs in Hp; lia).
  destruct (i_valid (ic ip)) eqn:Ev.
  - exists (upd ic ip (locked me (ic ip))), x. split_and!; [apply ilock_valid; done || lia|done|]. intros p. unfold upd. destruct (p =? ip); [|done].
    unfold locked, loaded, set_lock. by rewrite Ev, E4.
  - pose proof (ilock_load me sb x a ic ip X n h Hok R Hroom Hh Hnz ltac:(lia) Hl Ev E1 E2) as H.
    rewrite Hheld in H. specialize (H ltac:(done)). cbn beta zeta in H. rewrite (proj2 (Z.eqb_neq _ _) E3) in H. exact H.
Qed.

(** Unlocking and giving up a reference to an inode with links. *)
Definition released (ino : inode) : inode := set_ref (i_ref ino - 1) (set_lock (Islock false 0) ino).

Lemma iunlockput_run ic ip x : ip ∈ icache_ptrs -> holds_inode me (ic ip) = true -> 1 <= i_ref (ic ip) < 2 ^ 31 -> di_nlink (i_di (ic ip)) <> 0 ->
  exists ic', iunlockput me ip (Fs sb ic x) = Ok (tt, Fs sb ic' x) /\ same_icache ic' (upd ic ip (released (ic ip))).
Proof.
  intros Hp Hl Hr Hn. assert (ip <> 0) as Hnz by (apply elem_of_icache_ptrs in Hp; lia).
  set (ic1 := upd ic ip (set_lock (Islock false 0) (ic ip))).
  assert (iunlock me ip (Fs sb ic x) = Ok (tt, Fs sb ic1 x)) as H1.
  { unfold iunlock. mcomp. cbn [f_icache]. rewrite Hl, (proj2 (Z.eqb_neq _ _) Hnz), (proj2 (Z.ltb_ge _ _)) by lia. done. }
  exists (upd ic1 ip (set_ref (i32 (i_ref (ic1 ip) - 1)) (ic1 ip))). split.
  - unfold iunlockput. mstep H1. unfold iput. mcomp. cbn [f_icache].
    assert ((i_ref (ic1 ip) =? 1) && i_valid (ic1 ip) && (i_nlink (ic1 ip) =? 0) = false) as ->; [|done].
    unfold ic1, i_nlink. rewrite upd_eq. cbn [i_di set_lock]. rewrite (proj2 (Z.eqb_neq _ _) Hn). by rewrite andb_false_r.
  - intros p. unfold ic1, upd. rewrite Z.eqb_refl. destruct (p =? ip); [|done]. cbn [i_ref set_lock]. by rewrite i32_small by lia.
Qed.

(** The entries stay in agreement with the disk. *)
Definition entries_ok ic : Prop := forall p, p ∈ icache_ptrs -> 0 < i_ref (ic p) -> ientry_ok sb (t_view a) k_dev (ic p).

Lemma entries_upd ic ic' ip ino : entries_ok ic -> same_icache ic' (upd ic ip ino) -> (0 < i_ref ino -> ientry_ok sb (t_view a) k_dev ino) -> entries_ok ic'.
Proof using Type. intros He Hs Hi p Hp. rewrite Hs. unfold upd. destruct (p =? ip); [done|by apply He]. Qed.

Lemma got_entries ic i ip ic' : entries_ok ic -> got ic k_dev i ip ic' -> 0 <= i < sb_ninodes sb -> di_type (dino i) <> 0 -> entries_ok ic'.
Proof using Type.
  intros He [Hp Hf Hg] Hi Ht p Hpp Hr. destruct (Z.eq_dec p ip) as [->|Hne]; [|rewrite Hf in * by done; by apply He].
  destruct Hg as [[Hc ->]|(_ & _ & ->)]; [|by split].
  destruct (He ip Hp) as [E1 E2 E3 E4]; [apply Hc|]. by split.
Qed.

Lemma got_ref ic i ip ic' p : got ic k_dev i ip ic' -> p ∈ icache_ptrs -> 0 <= i_ref (ic p) < 2 ^ 31 - 1 ->
  i_ref (ic' p) = i_ref (ic p) + (if p =? ip then 1 else 0) /\ i_lock (ic' p) = i_lock (ic p).
Proof using Type.
  intros [Hp Hf Hg] Hpp Hr. destruct (Z.eqb_spec p ip) as [->|Hne]; [|by rewrite Hf, Z.add_0_r by done].
  destruct Hg as [[Hc ->]|(H0 & _ & ->)]; cbn; [|split; [lia|done]]. by rewrite i32_small by lia.
Qed.

(** [ip] unlocked and released after being locked; [d] references to it were added. *)
Lemma release_ok ic ic1 ic2 ip x : cache_ok ic -> ip ∈ icache_ptrs -> 0 < i_ref (ic ip) -> entries_ok ic1 ->
  (forall p, p ∈ icache_ptrs -> p <> ip -> il_locked (i_lock (ic1 p)) = false) ->
  holds_inode me (ic1 ip) = true -> 1 <= i_ref (ic1 ip) < 2 ^ 31 -> i_di (ic1 ip) = dino (i_inum (ic ip)) ->
  exists ic2, iunlockput me ip (Fs sb ic1 x) = Ok (tt, Fs sb ic2 x) /\ cache_ok ic2 /\
    (forall p, i_inum (ic2 p) = i_inum (ic1 p) /\ i_ref (ic2 p) = i_ref (ic1 p) - if p =? ip then 1 else 0).
Proof using Htree.
  clear ic2. intros Hic Hp Hr He Hl Hh1 Hr1 Hd. destruct (ico_entry _ _ _ _ Hic ip Hp Hr) as [E1 E2 E3 E4].
  destruct (iunlockput_run ic1 ip x Hp Hh1 Hr1) as (ic2 & H & Hs).
  { rewrite Hd. by apply (to_links _ _ Htree). }
  exists ic2. split_and!; [done|split|].
  - intros p Hpp. rewrite Hs. unfold upd. destruct (Z.eqb_spec p ip); [done|by apply Hl].
  - apply (entries_upd ic1 ic2 ip (released (ic1 ip)) He Hs). intros _. destruct (He ip Hp ltac:(lia)) as [F1 F2 F3 F4]. by split.
  - intros p. rewrite Hs. unfold upd. destruct (Z.eqb_spec p ip) as [->|]; cbn; [done|]. split; [done|lia].
Qed.

(** What is known of a locked directory on the way. *)
Record on_way ic (ip : Z) ic1 : Prop := {
  ow_entries : entries_ok ic1;
  ow_locks p : p ∈ icache_ptrs -> p <> ip -> il_locked (i_lock (ic1 p)) = false;
  ow_holds : holds_inode me (ic1 ip) = true;
  ow_same p : i_ref (ic1 p) = i_ref (ic p) /\ i_inum (ic1 p) = i_inum (ic p);
  ow_dev : i_dev (ic1 ip) = k_dev;
  ow_di : i_di (ic1 ip) = dino (i_inum (ic ip));
}.

Lemma on_way_ok ic ip x : cache_ok ic -> ip ∈ icache_ptrs -> 0 < i_ref (ic ip) -> brep x a ->
  exists ic1 x1, ilock me ip (Fs sb ic x) = Ok (tt, Fs sb ic1 x1) /\ brep x1 a /\ on_way ic ip ic1.
Proof.
  intros Hic Hp Hr R. destruct (ilock_ok ic ip x Hic Hp Hr R) as (ic1 & x1 & H1 & R1 & Hs1).
  destruct (ico_entry _ _ _ _ Hic ip Hp Hr) as [E1 E2 E3 E4].
  exists ic1, x1. split_and!; [done|done|]. pose proof (Hs1 ip) as E. rewrite upd_eq in E. split; rewrite ?E; try done.
  - apply (entries_upd ic ic1 ip (loaded me (dino (i_inum (ic ip))) (ic ip))); [exact (ico_entry _ _ _ _ Hic)|done|]. intros _. by split.
  - intros p Hpp Hne. rewrite Hs1, upd_ne by done. by apply (ico_lock _ _ _ _ Hic).
  - unfold holds_inode. cbn. by rewrite Z.eqb_refl.
  - intros p. rewrite Hs1. unfold upd. by destruct (Z.eqb_spec p ip) as [->|].
Qed.

Context (ic0 : Z -> inode) (p1 p2 : Z).
Context (Hbound : forall p, p ∈ icache_ptrs -> 0 <= i_ref (ic0 p) < 2 ^ 31 - 2).
Context (Hp12 : p1 <> p2) (Hp1 : p1 ∈ icache_ptrs) (Hp2 : p2 ∈ icache_ptrs) (Hf1 : i_ref (ic0 p1) = 0) (Hf2 : i_ref (ic0 p2) = 0).

Lemma not_full ic ip ic1 dev i : one_more ic0 ip ic -> on_way ic ip ic1 -> ~ icache_full ic1 dev i.
Proof using Hp12 Hp1 Hp2 Hf1 Hf2.
  intros Hm Hw Hf. assert (exists q, q ∈ icache_ptrs /\ q <> ip /\ i_ref (ic0 q) = 0) as (q & Hq & Hne & H0).
  { destruct (Z.eq_dec p1 ip) as [<-|]; [exists p2|exists p1]; auto. }
  destruct (Hf q Hq) as [Hnz _]. apply Hnz. destruct (ow_same _ _ _ Hw q) as [-> _]. rewrite (Hm q Hq), (proj2 (Z.eqb_neq _ _) Hne). lia.
Qed.

(** The walk goes on from the entry [j] of the directory. *)
Lemma next_dir ic ip ic1 x1 name j : one_more ic0 ip ic -> cache_ok ic -> ip ∈ icache_ptrs -> on_way ic ip ic1 -> brep x1 a ->
  di_type (dino (i_inum (ic ip))) = T_DIR -> dir_lookup (content (t_view a) (dino (i_inum (ic ip)))) (dname name) = Some j ->
  exists next off ic2 x2 ic3, dirlookup ip name (Fs sb ic1 x1) = Ok ((next, off), Fs sb ic2 x2) /\
    iunlockput me ip (Fs sb ic2 x2) = Ok (tt, Fs sb ic3 x2) /\ brep x2 a /\
    next ∈ icache_ptrs /\ cache_ok ic3 /\ one_more ic0 next ic3 /\ i_inum (ic3 next) = j.
Proof.
  intros Hm Hic Hp Hw R Ht Hl. pose proof (Hbound ip Hp) as Hb. pose proof (Hm ip Hp) as Href. rewrite Z.eqb_refl in Href.
  destruct (ico_entry _ _ _ _ Hic ip Hp ltac:(lia)) as [E1 E2 E3 E4]. pose proof Hw as [W1 W2 W3 W4 W5 W6].
  destruct (to_entry _ _ Htree _ _ _ E2 Ht Hl) as [Hj Hjt].
  pose proof (dirlookup_ok sb X n h ic1 ip a name x1 Hok) as H. rewrite W6 in H. 
  specialize (H (to_dir _ _ Htree _ E2 Ht) W5 Hheld Hroom Hh R). fold (dino (i_inum (ic ip))) in H. rewrite Hl in H.
  destruct H as [[Hfull _]|(next & off & ic2 & x2 & H2 & R2 & Hg)]; [by destruct (not_full _ _ _ _ _ Hm Hw Hfull)|].
  pose proof (fun p => got_ref ic1 j next ic2 p Hg) as Hgr.
  assert (forall p, p ∈ icache_ptrs -> 0 <= i_ref (ic1 p) < 2 ^ 31 - 1) as Hb1.
  { intros p Hpp. destruct (W4 p) as [-> _]. rewrite (Hm p Hpp). specialize (Hbound p Hpp). destruct (p =? ip); lia. }
  destruct (release_ok ic ic2 ic2 ip x2 Hic Hp) as (ic3 & H3 & Hic3 & Hs3); try done.
  - lia.
  - by apply (got_entries ic1 j next ic2).
  - intros p Hpp Hne. destruct (Hgr p Hpp (Hb1 p Hpp)) as [_ ->]. by apply W2.
  - unfold holds_inode. destruct (Hgr ip Hp (Hb1 ip Hp)) as [_ ->]. exact W3.
  - destruct (Hgr ip Hp (Hb1 ip Hp)) as [-> _]. destruct (W4 ip) as [-> _]. rewrite Href. destruct (ip =? next); lia.
  - by rewrite (got_di _ _ _ _ _ ip Hg).
  - exists next, off, ic2, x2, ic3. split_and!; try done; [apply Hg|..].
    + intros p Hpp. destruct (Hs3 p) as [_ ->]. destruct (Hgr p Hpp (Hb1 p Hpp)) as [-> _]. destruct (W4 p) as [-> _]. rewrite (Hm p Hpp). lia.
    + destruct (Hs3 next) as [-> _]. by apply (got_ident _ _ _ _ _ Hg).
Qed.

(** The ways in which the walk ends. *)
Lemma walk_fails ic ip ic1 x : one_more ic0 ip ic -> cache_ok ic -> ip ∈ icache_ptrs -> on_way ic ip ic1 ->
  exists ic2, iunlockput me ip (Fs sb ic1 x) = Ok (tt, Fs sb ic2 x) /\ cache_ok ic2 /\ forall p, p ∈ icache_ptrs -> i_ref (ic2 p) = i_ref (ic0 p).
Proof using Htree Hbound.
  intros Hm Hic Hp [W1 W2 W3 W4 W5 W6]. pose proof (Hbound ip Hp) as Hb. pose proof (Hm ip Hp) as Href. rewrite Z.eqb_refl in Href.
  destruct (release_ok ic ic1 ic1 ip x Hic Hp) as (ic2 & H2 & Hic2 & Hs2); try done; [lia|destruct (W4 ip); lia|].
  exists ic2. split_and!; try done. intros p Hpp. destruct (Hs2 p) as [_ ->]. destruct (W4 p) as [-> _]. rewrite (Hm p Hpp). lia.
Qed.

Lemma keep_parent ic ip ic1 x : one_more ic0 ip ic -> cache_ok ic -> ip ∈ icache_ptrs -> on_way ic ip ic1 ->
  exists ic2, iunlock me ip (Fs sb ic1 x) = Ok (tt, Fs sb ic2 x) /\ cache_ok ic2 /\ one_more ic0 ip ic2 /\ i_inum (ic2 ip) = i_inum (ic ip).
Proof using Hbound.
  intros Hm Hic Hp [W1 W2 W3 W4 W5 W6]. pose proof (Hbound ip Hp) as Hb. pose proof (Hm ip Hp) as Href. rewrite Z.eqb_refl in Href.
  assert (ip <> 0) as Hnz by (apply elem_of_icache_ptrs in Hp; lia). destruct (W4 ip) as [Er Ei].
  exists (upd ic1 ip (set_lock (Islock false 0) (ic1 ip))). split_and!.
  - unfold iunlock. mcomp. cbn [f_icache]. rewrite W3, (proj2 (Z.eqb_neq _ _) Hnz), (proj2 (Z.ltb_ge _ _)) by lia. done.
  - split.
    + intros p Hpp. unfold upd. destruct (Z.eqb_spec p ip); [done|by apply W2].
    + refine (entries_upd ic1 _ ip _ W1 (fun p => eq_refl) _). intros _. destruct (W1 ip Hp ltac:(lia)) as [F1 F2 F3 F4]. by split.
  - intros p Hpp. rewrite <- (Hm p Hpp). destruct (W4 p) as [<- _]. unfold upd. by destruct (Z.eqb_spec p ip) as [->|].
  - by rewrite upd_eq.
Qed.

Lemma iput_linked ic ip x : one_more ic0 ip ic -> cache_ok ic -> ip ∈ icache_ptrs ->
  exists ic2, iput me ip (Fs sb ic x) = Ok (tt, Fs sb ic2 x) /\ cache_ok ic2 /\ forall p, p ∈ icache_ptrs -> i_ref (ic2 p) = i_ref (ic0 p).
Proof using Htree Hbound.
  intros Hm Hic Hp. pose proof (Hbound ip Hp) as Hb. pose proof (Hm ip Hp) as Href. rewrite Z.eqb_refl in Href.
  destruct (ico_entry _ _ _ _ Hic ip Hp ltac:(lia)) as [E1 E2 E3 E4].
  assert ((i_ref (ic ip) =? 1) && i_valid (ic ip) && (i_nlink (ic ip) =? 0) = false) as Et.
  { destruct (i_valid (ic ip)); [|by rewrite andb_false_r]. unfold i_nlink. rewrite E4 by done.
    rewrite (proj2 (Z.eqb_neq _ _) (to_links _ _ Htree _ E2 E3)). by rewrite andb_false_r. }
  exists (upd ic ip (set_ref (i32 (i_ref (ic ip) - 1)) (ic ip))). split_and!.
  - unfold iput. mcomp. cbn [f_icache]. rewrite Et. done.
  - split.
    + intros p Hpp. unfold upd. destruct (Z.eqb_spec p ip); by apply (ico_lock _ _ _ _ Hic).
    + refine (entries_upd ic _ ip _ (ico_entry _ _ _ _ Hic) (fun p => eq_refl) _). intros _. by split.
  - intros p Hpp. unfold upd. destruct (Z.eqb_spec p ip) as [->|Hne]; cbn.
    + rewrite i32_small by lia. lia.
    + rewrite (Hm p Hpp), (proj2 (Z.eqb_neq _ _) Hne). lia.
Qed.

(** What [namex] returns, and the references it leaves: one to the inode it found, or none. *)
Definition walked (np : bool) (inum : Z) (es : list (list Z)) (r : res ((Z * list Z) * fs)) : Prop :=
  exists ip' name' ic' x', r = Ok ((ip', name'), Fs sb ic' x') /\ brep x' a /\ cache_ok ic' /\
    match path_walk sb (t_view a) np inum es with
    | Some j => ip' ∈ icache_ptrs /\ i_inum (ic' ip') = j /\ one_more ic0 ip' ic' /\
        (np = true -> exists e, last es = Some e /\ dname name' = take 14 e)
    | None => ip' = 0 /\ forall p, p ∈ icache_ptrs -> i_ref (ic' p) = i_ref (ic0 p)
    end.

Lemma namex_loop_ok np : forall fuel path name ip ic x, 0 ∉ path -> zlen name = DIRSIZ -> (length path <= fuel)%nat ->
  one_more ic0 ip ic -> cache_ok ic -> ip ∈ icache_ptrs -> brep x a ->
  walked np (i_inum (ic ip)) (elems path) (namex_loop me fuel ip path np name (Fs sb ic x)).
Proof.
  induction fuel as [|fuel IH]; intros path name ip ic x H0 Hn Hl Hm Hic Hp R; cbn [namex_loop];
    pose proof (skipelem_spec path name H0 Hn) as Hs.
  { destruct path; [|cbn in Hl; lia]. cbn. destruct np.
    - destruct (iput_linked ic ip x Hm Hic Hp) as (ic2 & H2 & Hic2 & Hr2). exists 0, name, ic2, x. split_and!; try done. by mstep H2.
    - exists ip, name, ic, x. split_and!; done. }
  destruct (elems path) as [|e es] eqn:Ee.
  { rewrite Hs. destruct np.
    - destruct (iput_linked ic ip x Hm Hic Hp) as (ic2 & H2 & Hic2 & Hr2). exists 0, name, ic2, x. split_and!; try done. by mstep H2.
    - exists ip, name, ic, x. split_and!; done. }
  destruct Hs as (path' & name' & -> & Ees & Hnil & En & Hn' & H0' & Hl').
  pose proof (Hbound ip Hp) as Hb. pose proof (Hm ip Hp) as Href. rewrite Z.eqb_refl in Href.
  destruct (on_way_ok ic ip x Hic Hp ltac:(lia) R) as (ic1 & x1 & H1 & R1 & Hw).
  mstep H1. mcomp. cbn [f_icache]. unfold i_type. rewrite (ow_di _ _ _ Hw). unfold walked. cbn [path_walk].
  fold (dino (i_inum (ic ip))). destruct (Z.eqb_spec (di_type (dino (i_inum (ic ip)))) T_DIR) as [Ht|Ht]; cbn [negb].
  2: { destruct (walk_fails ic ip ic1 x1 Hm Hic Hp Hw) as (ic2 & H2 & Hic2 & Hr2). exists 0, name', ic2, x1. split_and!; try done. by mstep H2. }
  rewrite (bool_decide_ext (path' = []) (es = []) Hnil). destruct (np && bool_decide (es = [])) eqn:Enp.
  { destruct (keep_parent ic ip ic1 x1 Hm Hic Hp Hw) as (ic2 & H2 & Hic2 & Hm2 & Ei). exists ip, name', ic2, x1. split_and!; try done; [by mstep H2|].
    intros _. apply andb_true_iff in Enp as [_ Enil%bool_decide_eq_true]. rewrite Enil. by exists e. }
  rewrite <- En. destruct (dir_lookup _ _) as [j|] eqn:Ej.
  - destruct (next_dir ic ip ic1 x1 name' j Hm Hic Hp Hw R1 Ht Ej) as (next & off & ic2 & x2 & ic3 & H2 & H3 & R2 & Hpn & Hic3 & Hm3 & Ej3).
    mstep H2. cbn [fst]. rewrite (proj2 (Z.eqb_neq next 0)) by (apply elem_of_icache_ptrs in Hpn; lia). mstep H3.
    destruct (IH path' name' next ic3 x2 H0' Hn' ltac:(lia) Hm3 Hic3 Hpn R2) as (ip' & nm' & ic' & x' & Hr & R' & Hic' & Hres).
    rewrite Ej3, Ees in Hres. exists ip', nm', ic', x'. split_and!; [done..|]. destruct (path_walk _ _ _ j es) as [k|]; [|done].
    destruct Hres as (F1 & F2 & F3 & F4). split_and!; [done..|]. intros Hnp. destruct (F4 Hnp) as (e' & Hl2 & He'). exists e'. split; [|done].
    destruct es; [|done]. subst np. done.
  - pose proof (dirlookup_ok sb X n h ic1 ip a name' x1 Hok) as H. rewrite (ow_di _ _ _ Hw) in H.
    destruct (ico_entry _ _ _ _ Hic ip Hp ltac:(lia)) as [E1 E2 E3 E4].
    specialize (H (to_dir _ _ Htree _ E2 Ht) (ow_dev _ _ _ Hw) Hheld Hroom Hh R1). fold (dino (i_inum (ic ip))) in H. rewrite Ej in H.
    destruct H as (x2 & H2 & R2). mstep H2. cbn [fst Z.eqb].
    destruct (walk_fails ic ip ic1 x2 Hm Hic Hp Hw) as (ic2 & H3 & Hic2 & Hr2). exists 0, name', ic2, x2. split_and!; try done. by mstep H3.
Qed.

(** The start of the walk: the root or the working directory. *)
Lemma namex_start cwd path x : cache_ok ic0 -> brep x a -> k_dev = ROOTDEV -> 0 <= ROOTINO < sb_ninodes sb -> di_type (dino ROOTINO) <> 0 ->
  cwd ∈ icache_ptrs -> 0 < i_ref (ic0 cwd) ->
  exists ip ic, (if bool_decide (head path = Some slash) then iget ROOTDEV ROOTINO else idup cwd) (Fs sb ic0 x) = Ok (ip, Fs sb ic x) /\
    ip ∈ icache_ptrs /\ cache_ok ic /\ one_more ic0 ip ic /\
    i_inum (ic ip) = if bool_decide (head path = Some slash) then ROOTINO else i_inum (ic0 cwd).
Proof using Hbound Hp1 Hf1.
  intros Hic R Hkd Hroot Hrt Hcwd Hcr. case_bool_decide.
  - destruct (iget_run ROOTDEV ROOTINO (Fs sb ic0 x)) as [[Hf _]|(ip & ic & Hi & Hg)]; [by destruct (Hf p1 Hp1)|]. cbn [f_icache] in *.
    rewrite <- Hkd in *. pose proof (fun p Hpp => got_ref ic0 ROOTINO ip ic p Hg Hpp) as Hgr.
    exists ip, ic. split_and!; [done|apply Hg| |intros p Hpp; apply Hgr; [done|specialize (Hbound p Hpp); lia]|by apply (got_ident _ _ _ _ _ Hg)].
    split; [|by apply (got_entries ic0 ROOTINO ip ic (ico_entry _ _ _ _ Hic))].
    intros p Hpp. destruct (Hgr p Hpp) as [_ ->]; [specialize (Hbound p Hpp); lia|]. by apply (ico_lock _ _ _ _ Hic).
  - destruct (ico_entry _ _ _ _ Hic cwd Hcwd Hcr) as [E1 E2 E3 E4]. exists cwd, (upd ic0 cwd (set_ref (i32 (i_ref (ic0 cwd) + 1)) (ic0 cwd))).
    split_and!; [done|done|split| |by rewrite upd_eq].
    + intros p Hpp. unfold upd. destruct (Z.eqb_spec p cwd); by apply (ico_lock _ _ _ _ Hic).
    + refine (entries_upd ic0 _ cwd _ (ico_entry _ _ _ _ Hic) (fun p => eq_refl) _). intros _. by split.
    + intros p Hpp. unfold upd. destruct (Z.eqb_spec p cwd) as [->|]; [|lia]. cbn. specialize (Hbound cwd Hcwd). by rewrite i32_small by lia.
Qed.

(** C18. Name resolution.  From the root or the working directory, [namex] returns the inode
    that the walk through the directories of the disk gives (of the parent, with the last
    element in [name], for [nameiparent]), and null if there is none.  It reads the disk
    only, leaves every inode unlocked, and gives back all references but the one it
    returns.  Two free entries in the cache are enough for paths of any length. *)
Theorem namex_correct (cwd : Z) (path name : list Z) (np : bool) (x : S)
    (Hic : icache_ok sb (t_view a) k_dev ic0) (R : brep x a) (Hkd : k_dev = ROOTDEV)
    (Hroot : 0 <= ROOTINO < sb_ninodes sb) (Hrt : di_type (disk_inode (t_view a) sb ROOTINO) <> 0)
    (Hcwd : cwd ∈ icache_ptrs) (Hcr : 0 < i_ref (ic0 cwd)) (Hpath : 0 ∉ path) (Hname : zlen name = DIRSIZ) :
  walked np (if bool_decide (head path = Some slash) then ROOTINO else i_inum (ic0 cwd)) (elems path)
    (namex me cwd path np name (Fs sb ic0 x)).
Proof.
  destruct (namex_start cwd path x) as (ip & ic & H1 & Hp & Hic1 & Hm & Ei); try done.
  unfold namex. mstep H1. rewrite <- Ei. by apply namex_loop_ok.
Qed.
End Walk.
