(* ===== verification/FsTop.v ===== *)
(** * Files: what a write, a read and the end of a file do

    The theorems about [writei], [readi] and [iput] on whole files. *)

From S2P Require Import Prelude Bytes Riscv Cache Blocks Fs FsSpec FsFile FsWrite FsTrunc FsDir.

Section Top.
Context {S : Type} {K : Blocks S} {KOk : BlocksOk S} (Hkdev : u32 k_dev = k_dev).
Implicit Types (x : S) (a : atx) (ic : Z -> inode).

(** A read of bytes that are there, into a buffer of the kernel. *)
Lemma readi_buf sb X n h ic ip a off m x : fs_ok sb a -> wf_file sb (t_view a) (i_di (ic ip)) -> i_dev (ic ip) = k_dev ->
  t_held a = ∅ -> room X n h a -> 1 <= h -> brep x a -> 0 <= off -> 0 <= m -> off + m <= di_size (i_di (ic ip)) ->
  exists x', readi buf_out ip 0 off m (Fs sb ic x, replicate (Z.to_nat m) 0) = Ok (m, (Fs sb ic x', sub (content (t_view a) (i_di (ic ip))) off m)) /\
    brep x' a.
Proof.
  intros Hok Hw Hdev Hheld Hroom Hh Hr Ho Hm Hle. pose proof (wf_size _ _ _ Hw) as Hmax. change (MAXFILE * BSIZE) with 274432 in Hmax.
  set (z := replicate (Z.to_nat m) 0). assert (zlen z = m) as Ez by (unfold z; rewrite length_replicate; lia).
  assert (zlen (sub (content (t_view a) (i_di (ic ip))) off m) = m) as Es.
  { apply length_sub. unfold in_range. rewrite length_content; lia. }
  destruct (readi_ok sb X n h ic ip a Hok Hw Hdev Hheld Hroom Hh buf_out 0
    (fun bs t => zlen bs <= m -> t = splice z 0 bs) (fun _ _ => False)) with (off := off) (cnt := m) (x := x) (t := z)
    as (j & x' & t' & Hrun & R' & Hj); try done.
  - intros bs0 bs t HR. exists 0. eexists. split; [done|]. left. split; [done|]. intros Hlen. rewrite length_app in Hlen.
    rewrite HR by lia. rewrite Z.add_0_l, u64_small by lia. apply splice_splice. unfold in_range. rewrite length_app. lia.
  - lia.
  - lia.
  - rewrite (proj2 (Z.ltb_ge _ _)), (proj2 (Z.leb_gt _ _)), Z.min_l in Hj by lia. cbn [orb] in Hj.
    destruct Hj as [[-> HR]|[_ []]]. exists x'. split; [|done]. change (u64 0) with 0 in Hrun. rewrite Hrun, HR by lia.
    by rewrite splice_full by lia.
Qed.

(** Another file of the same disk: its blocks are in use and none is a block of [di]. *)
Definition other_file sb (v : Z -> block) (di di2 : dinode) : Prop :=
  wf_file sb v di2 /\ forall b, owns v di2 b -> ~ owns v di b.

(** C19. A write followed by reads.  [writei] of [dat] at [off], inside the file or at its end,
    returns the number of bytes; then [readi] of any range inside the file returns the
    bytes of the old content with [dat] written over it at [off].  The inode is on the
    disk with its new size, the file is well formed, the other inodes and the contents of
    the other files are as before. *)
Theorem write_read_roundtrip (sb : superblock) (X : gset Z) (ic : Z -> inode) (ip : Z) (a : atx) (off : Z) (dat : list Z) (x : S)
    (HX : forall b, bitmap_block sb b -> b ∈ X) (Hok : fs_ok sb a) (Hw : wf_file sb (t_view a) (i_di (ic ip)))
    (Hdev : i_dev (ic ip) = k_dev) (Hheld : t_held a = ∅) (Hoff : 0 <= off <= di_size (i_di (ic ip)))
    (Hmax : off + zlen dat <= MAXFILE * BSIZE) (Hdat : bytes dat) (Hne : dat <> []) (Hr : brep x a)
    (Hi : 0 <= i_inum (ic ip) < sb_ninodes sb) (HXi : IBLOCK (i_inum (ic ip)) sb ∈ X)
    (Hroom : room X (io_blocks off (zlen dat) + 1) 2 a) (Hfree : io_blocks off (zlen dat) + 1 <= nfree sb (t_view a)) :
  exists ic' x' a', writei buf_in ip 0 off (zlen dat) (Fs sb ic x, dat) = Ok (zlen dat, (Fs sb ic' x', dat)) /\
    brep x' a' /\ fs_ok sb a' /\ wf_file sb (t_view a') (i_di (ic' ip)) /\
    disk_inode (t_view a') sb (i_inum (ic ip)) = i_di (ic' ip) /\
    i_size (ic' ip) = Z.max (i_size (ic ip)) (off + zlen dat) /\
    (forall off' m, 0 <= off' -> 0 <= m -> off' + m <= i_size (ic' ip) ->
       exists x2, readi buf_out ip 0 off' m (Fs sb ic' x', replicate (Z.to_nat m) 0) =
         Ok (m, (Fs sb ic' x2, sub (splice (content (t_view a) (i_di (ic ip))) off dat) off' m)) /\ brep x2 a') /\
    (forall j, 0 <= j < sb_ninodes sb -> j <> i_inum (ic ip) -> disk_inode (t_view a') sb j = disk_inode (t_view a) sb j) /\
    (forall di2, other_file sb (t_view a) (i_di (ic ip)) di2 -> content (t_view a') di2 = content (t_view a) di2).
Proof.
  pose proof (wf_size _ _ _ Hw) as Hsz. change (MAXFILE * BSIZE) with 274432 in *.
  assert (0 < zlen dat) as Hpos by (destruct dat; [done|cbn; lia]). pose proof (icost_bound X a (i_di (ic ip))) as Hic.
  destruct (writei_ok Hkdev sb X HX ic ip a off dat Hok Hw Hdev Hheld Hoff Hmax Hdat buf_in 0 (fun t => t = dat)) with (x := x) (t := dat)
    as (ic' & x' & t' & a' & di' & H & R & -> & Hs & W & Hroom'); try done.
  - intros k old t Hk Hko _ _ ->. exists dat. split; [|done]. unfold buf_in, gets. by rewrite Z.add_0_l, u64_small by lia.
  - eapply room_le; [exact Hroom| |lia]. pose proof (io_blocks_fuel off (zlen dat)). lia.
  - unfold fcost. destruct (_ =? _); lia.
  - pose proof (Hs ip) as E. rewrite upd_eq in E. exists ic', x', a'. rewrite E. cbn [i_di set_di i_size].
    pose proof (wr_file _ _ _ _ _ _ _ _ W) as Hw'. pose proof (wl_di _ _ _ (wf_slots_ok _ _ _ Hw')) as Hwd.
    assert (di_size di' = Z.max (di_size (i_di (ic ip))) (off + zlen dat)) as Esz.
    { pose proof (f_equal (fun l => zlen l) (wr_content _ _ _ _ _ _ _ _ W)) as El. cbn beta in El.
      rewrite length_content in El by apply (wd_size _ Hwd). rewrite El. unfold splice. rewrite !length_app, length_take, length_drop.
      pose proof (length_content (t_view a) (i_di (ic ip)) ltac:(lia)). lia. }
    split_and!; try done.
    + apply (wr_ok _ _ _ _ _ _ _ _ W).
    + rewrite (wr_disk _ _ _ _ _ _ _ _ W) by done. by rewrite Z.eqb_refl.
    + intros off' m Ho Hm Hle. unfold i_size in Hle. cbn [i_di set_di] in Hle.
      destruct (readi_buf sb X 0 2 ic' ip a' off' m x' (wr_ok _ _ _ _ _ _ _ _ W)) as (x2 & H2 & R2); rewrite ?E; try done; try lia.
      { rewrite (wr_held _ _ _ _ _ _ _ _ W). done. }
      exists x2. split; [|done]. rewrite H2, E. cbn [i_di set_di]. by rewrite (wr_content _ _ _ _ _ _ _ _ W).
    + intros j Hj Hjn. rewrite (wr_disk _ _ _ _ _ _ _ _ W) by done. by rewrite (proj2 (Z.eqb_neq _ _) Hjn).
    + intros di2 [Hw2 Hd2]. apply (content_ext sb (t_view a)); [|done]. intros b Hb.
      pose proof Hb as (Hnz & s & Hsr & Es). rewrite <- Es in Hnz. destruct (wl_used _ _ _ (wf_slots_ok _ _ _ Hw2) s Hsr Hnz) as [Hu1 Hu2].
      rewrite Es in *. apply (wr_frame _ _ _ _ _ _ _ _ W); [done|done|by apply Hd2].
Qed.

Lemma splice_sub d o m : in_range d o m -> splice d o (sub d o m) = d.
Proof using Type.
  intros Hr. pose proof (length_sub d o m Hr) as El. apply list_eq. intros i. rewrite splice_lookup by (by rewrite El).
  rewrite El. destruct (_ && _) eqn:E; [|done]. bsplit. rewrite sub_lookup by done. rewrite (proj2 (Z.ltb_lt _ _)) by lia. f_equal. destruct Hr. lia.
Qed.

(** A block set to what it holds. *)
Definition t_touch (b : Z) (a : atx) : atx := ATx (upd (t_view a) b (t_view a b)) (t_base a) (t_logged a) (t_held a) (t_cap a) (t_home a).

Lemma t_touch_view b a c : t_view (t_touch b a) c = t_view a c.
Proof using Type. cbn. unfold upd. by destruct (Z.eqb_spec c b) as [->|]. Qed.

Lemma fs_ok_touch sb b a : fs_ok sb a -> fs_ok sb (t_touch b a).
Proof using Type.
  intros [H1 H2 H3 H4]. split; [done|intros c; rewrite t_touch_view; apply H2|intros c Hc; rewrite <- (H3 c Hc)|done].
  unfold bit. by rewrite t_touch_view.
Qed.

(** The round of the loop in which nothing could be copied. *)
Lemma writei_loop_bad {T} (inp : list Z -> Z -> M T (Z * list Z)) sb X n ic ip a off src cnt x (t : T) fuel :
  (forall old s t, inp old s t = Ok ((-1, old), t)) ->
  fs_ok sb a -> wf_file sb (t_view a) (i_di (ic ip)) -> i_dev (ic ip) = k_dev -> t_held a = ∅ -> room X n 1 a -> brep x a ->
  0 <= off -> 0 < cnt -> off + cnt <= di_size (i_di (ic ip)) ->
  exists b x', writei_loop inp (Datatypes.S fuel) ip src off cnt 0 (Fs sb ic x, t) = Ok (off, (Fs sb ic x', t)) /\ brep x' (t_touch b a).
Proof using KOk.
  intros Hin Hok Hw Hdev Hheld Hroom Hr Ho Hc Hle. pose proof (wf_size _ _ _ Hw) as Hmax. pose proof (nmeta_pos sb (fo_sb _ _ Hok)) as Hnm.
  set (di := i_di (ic ip)) in *. set (v := t_view a). set (bn := off / BSIZE). destruct (io_bn off) as [Hbn Hbn']; [lia|].
  assert (baddr v di bn <> 0) as Hnz by (apply (wf_alloc _ _ _ Hw); unfold bn; lia).
  destruct (bmap_found sb ic x a ip bn X n 1 Hok (wf_slots_ok _ _ _ Hw) Hr Hheld Hroom ltac:(lia) Hdev Hbn Hnz) as (x1 & H1 & R1).
  destruct (baddr_used sb _ _ bn (wf_slots_ok _ _ _ Hw) Hbn Hnz) as [Hu _]. fold v di in H1, Hu |- *. set (b := baddr v di bn) in *.
  destruct (bread_run sb ic x1 a b X n 1 R1 ltac:(lia) ltac:(intros i; by rewrite Hheld) Hroom ltac:(lia)) as (j & x2 & H2 & Hj & R2).
  destruct (fo_view _ _ Hok b) as [Hl _]. set (m := Z.min (cnt - 0) (BSIZE - off mod BSIZE)).
  assert (splice (v b) (off mod BSIZE) (sub (v b) (off mod BSIZE) m) = v b) as Esp.
  { apply splice_sub. unfold in_range. fold v in Hl. rewrite Hl. unfold m. fslia. }
  destruct R2 as [R2 T2]. pose proof (lookup_insert_eq (t_held a) j b) as Hhj.
  destruct (k_set_ok _ _ j b (v b) R2 Hhj) as (x3 & H3 & R3).
  destruct (k_brelse_ok _ _ j b R3 Hhj) as (x4 & H4 & R4).
  { destruct (T2 b) as [?|E]; [by left|right]. cbn. rewrite upd_eq. exact E. }
  exists b, x4. split.
  - cbn [writei_loop]. rewrite (proj2 (Z.ltb_lt 0 cnt)) by lia. unfold in_fs, in_mem.
    erewrite bind_ok; [|by apply zoom_ok; exact H1]. erewrite bind_ok; [|by apply zoom_ok]. cbn [fst snd f_icache]. rewrite Hdev.
    erewrite bind_ok; [|by apply zoom_ok; exact H2].
    erewrite bind_ok; [|by apply zoom_ok; apply (data_run sb ic _ _ j b (conj R2 T2) Hhj)]. cbn [t_view t_hold fst snd]. fold m v.
    erewrite bind_ok; [|by apply zoom_ok; apply Hin]. cbn [fst snd Z.eqb]. rewrite Esp.
    erewrite bind_ok; [|by apply zoom_ok; apply blk_run; exact H3]. cbn [Pos.eqb].
    erewrite bind_ok; [|by apply zoom_ok; apply blk_run; exact H4]. done.
  - assert (t_drop j (t_set b (v b) (t_hold j b a)) = t_touch b a) as E.
    { unfold t_drop, t_set, t_hold, t_touch. cbn. by rewrite delete_insert_id. }
    rewrite E in R4. split; [done|]. intros c. rewrite t_touch_view. apply (T2 c).
Qed.

(** A write from memory that cannot be read.  When [either_copyin] fails on the first
    block, nothing is written and yet [writei] returns the number of bytes asked for: the
    caller is told that the write succeeded. *)
Theorem writei_reports_failed_copy {T} (inp : list Z -> Z -> M T (Z * list Z)) (sb : superblock) (X : gset Z) (ic : Z -> inode) (ip : Z)
    (a : atx) (off src cnt : Z) (x : S) (t : T) (Hin : forall old s t, inp old s t = Ok ((-1, old), t))
    (Hok : fs_ok sb a) (Hw : wf_file sb (t_view a) (i_di (ic ip))) (Hdev : i_dev (ic ip) = k_dev) (Hheld : t_held a = ∅)
    (Hroom : room X 1 1 a) (Hr : brep x a) (Hi : 0 <= i_inum (ic ip) < sb_ninodes sb)
    (Hoff : 0 <= off) (Hcnt : 0 < cnt) (Hle : off + cnt <= i_size (ic ip)) :
  exists x' a', writei inp ip src off cnt (Fs sb ic x, t) = Ok (cnt, (Fs sb ic x', t)) /\ brep x' a' /\
    content (t_view a') (i_di (ic ip)) = content (t_view a) (i_di (ic ip)).
Proof using KOk.
  unfold i_size in Hle. pose proof (wf_size _ _ _ Hw) as Hmax. change (MAXFILE * BSIZE) with 274432 in Hmax.
  destruct (io_fuel cnt) as [|fuel] eqn:Ef; [unfold io_fuel in Ef; fslia|].
  destruct (writei_loop_bad inp sb X 1 ic ip a off src cnt x t fuel) as (b & x1 & H1 & R1); try done.
  destruct (iupdate_ok sb x1 (t_touch b a) ic ip X 1 1) as (x2 & H2 & R2); try done.
  { by apply fs_ok_touch. }
  { destruct Hroom. by split. }
  { apply (wl_di _ _ _ (wf_slots_ok _ _ _ Hw)). }
  { intros j. cbn. by rewrite Hheld. }
  exists x2. eexists. split_and!; [|exact R2|].
  - unfold writei. setoid_rewrite (bind_ok _ _ _ (ic ip) (Fs sb ic x, t)); [|done]. unfold i_size.
    rewrite u32_small by lia. rewrite (proj2 (Z.ltb_ge (di_size _) off)), (proj2 (Z.ltb_ge (off + cnt) off)) by lia. cbn [orb].
    change (MAXFILE * BSIZE) with 274432. rewrite (proj2 (Z.ltb_ge 274432 (off + cnt))) by lia. rewrite Ef. mstep H1.
    rewrite (proj2 (Z.ltb_lt 0 cnt)) by lia. unfold in_fs.
    erewrite bind_ok; [|erewrite bind_ok; [|by apply zoom_ok]; cbn [fst snd f_icache];
      rewrite (proj2 (Z.ltb_ge (di_size (i_di (ic ip))) off)) by lia; mcomp; by apply zoom_ok; exact H2].
    rewrite i32_small by lia. done.
  - pose proof (fo_sb _ _ Hok) as Hsb. destruct (iblock_fs_block sb _ Hsb Hi) as (_ & _ & Hrg & _).
    apply (content_ext sb (t_view a)); [|done]. intros c Hc. destruct (owns_range sb a (i_di (ic ip)) c Hok (wf_slots_ok _ _ _ Hw) Hc) as [? ?].
    cbn [t_view t_iupdate t_upd]. rewrite upd_ne by lia. apply t_touch_view.
Qed.

Lemma wf_empty di : wf_dinode di -> wf_dinode (with_type 0 (empty_dinode di)).
Proof using Type.
  intros [H1 H2 H3 H4 H5 H6 H7]. split; cbn; try done; try lia. repeat constructor; lia.
Qed.

(** C21. The end of a file.  [iput] of the last reference to an inode without links frees the
    inode on the disk and exactly the blocks of the file, direct, indirect and those listed
    in the indirect block; every other block and inode is as before.  The entry of the
    cache is empty and unlocked. *)
Theorem iput_frees_file (me : Z) (sb : superblock) (X : gset Z) (ic : Z -> inode) (ip : Z) (a : atx) (n : Z) (x : S)
    (HX : forall b, bitmap_block sb b -> b ∈ X) (Hok : fs_ok sb a) (Hw : wf_slots sb (t_view a) (i_di (ic ip)))
    (Hdev : i_dev (ic ip) = k_dev) (Hheld : t_held a = ∅) (Hr : brep x a) (Hroom : room X n 2 a)
    (Hi : 0 <= i_inum (ic ip) < sb_ninodes sb) (HXi : IBLOCK (i_inum (ic ip)) sb ∈ X)
    (Href : i_ref (ic ip) = 1) (Hv : i_valid (ic ip) = true) (Hn : i_nlink (ic ip) = 0) (Hl : il_locked (i_lock (ic ip)) = false) :
  exists ic' x' a', iput me ip (Fs sb ic x) = Ok (tt, Fs sb ic' x') /\ brep x' a' /\ fs_ok sb a' /\ t_held a' = ∅ /\
    di_type (disk_inode (t_view a') sb (i_inum (ic ip))) = 0 /\
    (forall j, 0 <= j < sb_ninodes sb -> j <> i_inum (ic ip) -> disk_inode (t_view a') sb j = disk_inode (t_view a) sb j) /\
    (forall c, 0 <= c < sb_size sb -> bit (t_view a') sb c = true <-> bit (t_view a) sb c = true /\ ~ owns (t_view a) (i_di (ic ip)) c) /\
    (forall c, nmeta sb <= c -> t_view a' c = t_view a c) /\
    i_ref (ic' ip) = 0 /\ i_valid (ic' ip) = false /\ il_locked (i_lock (ic' ip)) = false /\ (forall p, p <> ip -> ic' p = ic p).
Proof.
  set (ic1 := upd ic ip (set_lock (Islock true me) (ic ip))).
  assert (ic1 ip = set_lock (Islock true me) (ic ip)) as E1 by apply upd_eq.
  assert (i_di (ic1 ip) = i_di (ic ip)) as Edi by (by rewrite E1).
  destruct (itrunc_ok Hkdev sb X HX ic1 ip ltac:(by rewrite E1) a n x Hok) as (ic2 & x2 & a2 & H2 & R2 & Hroom2 & Hs2 & T2);
    rewrite ?Edi, ?E1; try done.
  cbn [i_inum set_lock] in T2. rewrite Edi, E1 in *. cbn [i_inum set_lock] in T2.
  set (d := with_type 0 (empty_dinode (i_di (ic ip)))).
  assert (wf_dinode d) as Hwd by (apply wf_empty, (wl_di _ _ _ Hw)).
  set (ic3 := upd ic2 ip (set_di (with_type 0 (i_di (ic2 ip))) (ic2 ip))).
  pose proof (Hs2 ip) as E2. rewrite upd_eq in E2.
  assert (i_di (ic3 ip) = d) as E3 by (unfold ic3; rewrite upd_eq, E2; done).
  assert (i_inum (ic3 ip) = i_inum (ic ip) /\ i_dev (ic3 ip) = k_dev) as [E3i E3d] by (unfold ic3; rewrite upd_eq, E2; done).
  pose proof (tr_ok _ _ _ _ _ _ T2) as Hok2. pose proof (tr_held _ _ _ _ _ _ T2) as Hh2.
  destruct (iupdate_ok sb x2 a2 ic3 ip X n 2) as (x3 & H3 & R3); rewrite ?E3, ?E3i; try done; try lia.
  { intros j. by rewrite Hh2, Hheld. }
  rewrite E3, E3i in R3. destruct (iblock_fs_block sb _ (fo_sb _ _ Hok) Hi) as (_ & _ & Hrg & _).
  set (ic4 := upd ic3 ip (set_valid false (ic3 ip))). set (ic5 := upd ic4 ip (set_lock (Islock false 0) (ic4 ip))).
  set (ic6 := upd ic5 ip (set_ref (i32 (i_ref (ic5 ip) - 1)) (ic5 ip))).
  exists ic6, x3, (t_iupdate sb (i_inum (ic ip)) d a2).
  assert (ic6 ip = set_ref 0 (set_lock (Islock false 0) (set_valid false (set_di d (ic ip))))) as E6.
  { unfold ic6, ic5, ic4, ic3. rewrite !upd_eq, E2. cbn. by rewrite Href. }
  split_and!; rewrite ?E6; try done.
  - unfold iput. mcomp. cbn [f_icache]. rewrite Href, Hv, Hn. cbn [Z.eqb Pos.eqb andb].
    erewrite bind_ok; [|unfold lock_inode; erewrite bind_ok; [|erewrite bind_ok; [|reflexivity]; cbn [f_icache]; rewrite Hl; reflexivity];
      cbn [f_sb f_icache f_blk]; mstep H2; mcomp; cbn [f_sb f_icache f_blk]; mstep H3; mcomp; reflexivity]. done.
  - by apply t_iupdate_ok.
  - cbn. by rewrite Hh2.
  - rewrite t_iupdate_inode by done. by rewrite Z.eqb_refl.
  - intros j Hj Hne. rewrite t_iupdate_inode by done. rewrite (proj2 (Z.eqb_neq _ _) Hne), (tr_disk _ _ _ _ _ _ T2) by done.
    by rewrite (proj2 (Z.eqb_neq _ _) Hne).
  - intros c Hc. rewrite t_iupdate_bit by done. rewrite (tr_bit _ _ _ _ _ _ T2) by done. by rewrite E1.
  - intros c Hc. cbn [t_view t_iupdate t_upd]. rewrite upd_ne by lia. by apply (tr_view _ _ _ _ _ _ T2).
  - intros p Hp. unfold ic6, ic5, ic4, ic3. rewrite !upd_ne by done. rewrite Hs2, upd_ne by done. unfold ic1. by rewrite upd_ne.
Qed.
End Top.
