(* ===== verification/FsDemo.v ===== *)
(** * A small disk

    A disk of 16 blocks in the layout of [mkfs]: the boot block, the superblock, four
    blocks of log, one block of inodes, the bitmap and eight data blocks.  Inode 1 is the
    root directory, with entries [.], [..] and [a]; inode 2 is the file [a].  The theorems
    on the file system are applied to it. *)

From S2P Require Import Prelude Bytes Riscv Cache Blocks Fs FsSpec FsFile FsWrite FsTrunc FsDir FsPath FsTop.

Definition demo_sb : superblock := Superblock FSMAGIC 16 8 16 4 2 6 7.

Definition root_di : dinode := Dinode T_DIR 0 0 1 48 (8 :: replicate 12 0).
Definition file_di : dinode := Dinode T_FILE 0 0 1 5 (9 :: replicate 12 0).

Definition pad (bs : list Z) : block := bs ++ replicate (1024 - length bs) 0.
Definition inode_block : block := put_dinode (put_dinode (pad []) 1 root_di) 2 file_di.
Definition root_block : block := pad (new_dirent [46] 1 ++ new_dirent [46; 46] 1 ++ new_dirent [97] 2).
Definition file_block : block := pad [104; 101; 108; 108; 111].

Definition demo_view (b : Z) : block :=
  if b =? 6 then inode_block else if b =? 7 then pad [255; 3] else if b =? 8 then root_block
  else if b =? 9 then file_block else pad [].

Definition demo_disk : flat_disk := FlatDisk demo_view demo_view ∅ ∅ 0.
Definition demo_tx : atx := ATx demo_view demo_view ∅ ∅ 30 (fun b => 6 <=? b).
Definition demo_meta : gset Z := {[6; 7]}.

Definition no_inode : inode := Inode 0 0 0 (Islock false 0) false (Dinode 0 0 0 0 0 (replicate 13 0)).
Definition demo_icache (p : Z) : inode :=
  if p =? 1 then Inode 1 1 1 (Islock false 0) true root_di
  else if p =? 2 then Inode 1 2 1 (Islock false 0) true file_di
  else no_inode.

(** ** The disk is well formed *)

Lemma forall_upto (P : Z -> Prop) n : Forall P (upto n) -> forall i, 0 <= i < n -> P i.
Proof. intros H i Hi. rewrite Forall_forall in H. by apply H, elem_of_upto. Qed.

Lemma demo_blocks (P : block -> Prop) : P inode_block -> P (pad [255; 3]) -> P root_block -> P file_block -> P (pad []) -> forall b, P (demo_view b).
Proof. intros. unfold demo_view. repeat (case_match; [done|]). done. Qed.

Lemma demo_dev : u32 (@k_dev flat_disk _) = k_dev.
Proof. reflexivity. Qed.

Lemma demo_rep : brep demo_disk demo_tx.
Proof. split; [|by right]. cbn. split_and!; try done. Qed.

Definition bytes_b (bs : list Z) : bool := forallb (fun b => (0 <=? b) && (b <? 256)) bs.
Lemma bytes_b_ok bs : bytes_b bs = true -> bytes bs.
Proof. intros H. apply Forall_forall. intros b Hb. apply forallb_forall with (x := b) in H; [bsplit; lia|by apply list_elem_of_In]. Qed.

Lemma demo_ok : fs_ok demo_sb demo_tx.
Proof.
  split.
  - split; vm_compute; done || (split; congruence || done).
  - intros b. apply demo_blocks; (split; [reflexivity|apply bytes_b_ok; reflexivity]).
  - intros b Hb. revert b Hb. apply forall_upto. change (nmeta demo_sb) with 8. repeat constructor.
  - intros b [Hb _]. apply Z.leb_le. exact Hb.
Qed.

Lemma demo_room n h : 0 <= n <= 5 -> 0 <= h <= 5 -> room demo_meta n h demo_tx.
Proof.
  intros Hn Hh. assert (Z.of_nat (size (demo_meta ∪ t_logged demo_tx)) = 2) as E by reflexivity.
  split; rewrite ?E; [lia|lia|cbn; lia|]. change (size (t_held demo_tx)) with 0%nat. change NBUF with 30. lia.
Qed.

Lemma demo_bitmap b : bitmap_block demo_sb b -> b ∈ demo_meta.
Proof. intros Hb. unfold demo_meta. assert (b = 7) as ->; [|set_solver]. unfold bitmap_block in Hb. cbn in Hb. change ((16 + BPB - 1) / BPB) with 1 in Hb. lia. Qed.

(** A file of one block. *)
Lemma one_block_slot v ty mj mn nl sz b s : 0 <= s <= ind_slot ->
  slot v (Dinode ty mj mn nl sz (b :: replicate 12 0)) s = if s =? 0 then b else 0.
Proof.
  intros Hs. set (di := Dinode ty mj mn nl sz (b :: replicate 12 0)). unfold slot, baddr. destruct (Z.eqb_spec s ind_slot) as [->|]; [done|].
  change (d_addr di NDIRECT) with 0. cbn [Z.eqb]. destruct (Z.ltb_spec s NDIRECT); [|by destruct (Z.eqb_spec s 0); [subst|]].
  destruct (Z.eqb_spec s 0) as [->|]; [done|]. unfold d_addr, di. cbn [di_addrs]. replace (Z.to_nat s) with (S (Z.to_nat (s - 1))) by lia. cbn [nth].
  rewrite nth_lookup. by destruct (replicate 12 0 !! _) as [y|] eqn:Ey; [apply lookup_replicate in Ey as [-> _]|].
Qed.

Lemma one_block_file sb v ty mj mn nl sz b : fs_ok sb v -> wf_dinode (Dinode ty mj mn nl sz (b :: replicate 12 0)) ->
  sz <= 1024 -> nmeta sb <= b < sb_size sb -> bit (t_view v) sb b = true -> wf_file sb (t_view v) (Dinode ty mj mn nl sz (b :: replicate 12 0)).
Proof.
  intros Hok Hwd Hsz Hb Hbit. set (di := Dinode ty mj mn nl sz (b :: replicate 12 0)) in *.
  pose proof (nmeta_pos sb (fo_sb _ _ Hok)) as Hnm.
  pose proof (one_block_slot (t_view v) ty mj mn nl sz b) as Hs. fold di in Hs.
  split; [split; [done|..]|cbn; change (MAXFILE * BSIZE) with 274432; lia|].
  - intros s Hr. rewrite Hs by done. by destruct (s =? 0).
  - intros s t Hr Ht. rewrite !Hs by done. destruct (Z.eqb_spec s 0), (Z.eqb_spec t 0); lia || done.
  - intros bn H0 H1. cbn in H1. assert (bn = 0) as -> by (fslia). change (baddr (t_view v) di 0) with b. lia.
Qed.

Lemma demo_root : wf_dir demo_sb demo_view root_di.
Proof. split; [apply (one_block_file demo_sb demo_tx); try done; [exact demo_ok|]; split; try done; repeat constructor; done|done|done]. Qed.

Lemma demo_file : wf_file demo_sb demo_view file_di.
Proof. apply (one_block_file demo_sb demo_tx); try done; [exact demo_ok|]. split; try done; repeat constructor; done. Qed.

Lemma demo_inodes : disk_inode demo_view demo_sb 1 = root_di /\ disk_inode demo_view demo_sb 2 = file_di.
Proof. split; reflexivity. Qed.

Lemma demo_types i : 0 <= i < 16 -> di_type (disk_inode demo_view demo_sb i) = if i =? 1 then T_DIR else if i =? 2 then T_FILE else 0.
Proof. revert i. apply forall_upto. repeat constructor. Qed.

Lemma demo_in_use i : 0 <= i < 16 -> di_type (disk_inode demo_view demo_sb i) <> 0 -> i = 1 \/ i = 2.
Proof. intros Hi. rewrite demo_types by done. destruct (Z.eqb_spec i 1), (Z.eqb_spec i 2); auto; done. Qed.

Lemma dfind_in c nm offs o : dfind c nm offs = Some o -> o ∈ offs.
Proof.
  induction offs as [|o' offs IH]; [done|]. cbn [dfind]. destruct (dtest c nm o'); [intros [= ->]; by left|]. intros H. right. auto.
Qed.

Lemma demo_tree : tree_ok demo_sb demo_view.
Proof.
  destruct demo_inodes as [E1 E2]. split.
  - intros i Hi [->| ->]%(demo_in_use i Hi); [by rewrite E1|by rewrite E2].
  - intros i Hi Ht. destruct (demo_in_use i Hi) as [->| ->]; [by rewrite Ht|rewrite E1; exact demo_root|by rewrite E2 in Ht].
  - intros i nm j Hi Ht. destruct (demo_in_use i Hi) as [->| ->]; [by rewrite Ht| |by rewrite E2 in Ht].
    rewrite E1. unfold dir_lookup, dir_find. change (dir_offs _) with [0; 16; 32].
    destruct (dfind _ _ _) as [o|] eqn:Eo; [|done]. apply dfind_in in Eo. cbn. intros [= <-].
    apply elem_of_cons in Eo as [->|[->|[->|[]%elem_of_nil]%elem_of_cons]%elem_of_cons]; vm_compute; done || (split; [split; congruence|congruence]).
Qed.

Lemma demo_cache : icache_ok demo_sb demo_view 1 demo_icache.
Proof.
  split; intros p Hp; unfold demo_icache; destruct (p =? 1); [done| |..]; destruct (p =? 2); try done; intros _; split; done || (cbn; lia).
Qed.

Lemma demo_nfree : nfree demo_sb demo_view = 6.
Proof. vm_compute. reflexivity. Qed.

Lemma demo_refs p : p ∈ icache_ptrs -> 0 <= i_ref (demo_icache p) < 2 ^ 31 - 2.
Proof. intros _. unfold demo_icache. destruct (p =? 1); [cbn; lia|]. destruct (p =? 2); cbn; lia. Qed.

(** ** The theorems at work *)

Lemma balloc_correct_witness : exists b x' a', balloc 1 (Fs demo_sb demo_icache demo_disk) = Ok (b, Fs demo_sb demo_icache x') /\ brep x' a' /\ b = 10.
Proof.
  destruct (balloc_correct demo_sb demo_icache demo_disk demo_tx demo_meta) as [[Hf _]|(b & x' & a' & H & R & _ & Hb & (_ & Hfree & Hlow) & _)].
  - reflexivity.
  - exact demo_ok.
  - intros i c Hc. done.
  - exact demo_rep.
  - apply demo_room; lia.
  - exfalso. specialize (Hf 10 ltac:(cbn; lia)). discriminate Hf.
  - exists b, x', a'. split_and!; [exact H|exact R|]. change (nmeta demo_sb <= b < 16) in Hb. change (nmeta demo_sb) with 8 in Hb.
    destruct (Z.lt_trichotomy b 10) as [Hlt|[->|Hgt]]; [|done|].
    + exfalso. assert (b = 8 \/ b = 9) as [->| ->] by lia; discriminate Hfree.
    + exfalso. specialize (Hlow 10 ltac:(lia)). discriminate Hlow.
Defined.

Lemma bfree_balloc_roundtrip_witness : exists x' a', (let! c := balloc 1 in bfree 1 c) (Fs demo_sb demo_icache demo_disk) = Ok (tt, Fs demo_sb demo_icache x') /\
  brep x' a' /\ forall c, 0 <= c < 16 -> bit (t_view a') demo_sb c = bit demo_view demo_sb c.
Proof.
  destruct (bfree_balloc_roundtrip demo_sb demo_icache demo_disk demo_tx demo_meta 10) as (_ & x' & a' & H & R & Hb).
  - reflexivity.
  - exact demo_ok.
  - intros i c Hc. done.
  - exact demo_rep.
  - apply demo_room; lia.
  - split_and!; [cbn; lia|cbn; lia|reflexivity|]. intros c Hc. revert c Hc. apply forall_upto. repeat constructor.
  - exists x', a'. split_and!; [exact H|exact R|exact Hb].
Defined.

Lemma inode_write_through_witness : exists x1 a1, iupdate 2 (Fs demo_sb demo_icache demo_disk) = Ok (tt, Fs demo_sb demo_icache x1) /\ brep x1 a1 /\
  disk_inode (t_view a1) demo_sb 1 = root_di.
Proof.
  destruct (inode_write_through 7 demo_sb demo_icache demo_disk demo_tx demo_meta 2) as (x1 & a1 & H & R & _ & Hd & _).
  - exact demo_ok.
  - exact demo_rep.
  - apply demo_room; lia.
  - reflexivity.
  - cbn. lia.
  - apply (wl_di _ _ _ (wf_slots_ok _ _ _ demo_file)).
  - intros j Hj. done.
  - exists x1, a1. split_and!; [exact H|exact R|]. apply (Hd 1); cbn; lia.
Defined.

Lemma write_read_roundtrip_witness : exists ic' x' a', writei buf_in 2 0 3 4 (Fs demo_sb demo_icache demo_disk, [112; 33; 33; 33]) = Ok (4, (Fs demo_sb ic' x', [112; 33; 33; 33])) /\
  brep x' a' /\ exists x2, readi buf_out 2 0 0 7 (Fs demo_sb ic' x', replicate 7 0) = Ok (7, (Fs demo_sb ic' x2, [104; 101; 108; 112; 33; 33; 33])).
Proof.
  destruct (write_read_roundtrip demo_dev demo_sb demo_meta demo_icache 2 demo_tx 3 [112; 33; 33; 33] demo_disk) as (ic' & x' & a' & H & R & _ & _ & _ & Hs & Hrd & _).
  - exact demo_bitmap.
  - exact demo_ok.
  - exact demo_file.
  - reflexivity.
  - reflexivity.
  - cbn. lia.
  - vm_compute. congruence.
  - repeat constructor; done.
  - done.
  - exact demo_rep.
  - cbn. lia.
  - set_solver.
  - apply demo_room; vm_compute; split; congruence.
  - change (t_view demo_tx) with demo_view. rewrite demo_nfree. vm_compute. congruence.
  - exists ic', x', a'. split_and!; [exact H|exact R|]. destruct (Hrd 0 7) as (x2 & H2 & _); [lia|lia|rewrite Hs; vm_compute; congruence|].
    exists x2. exact H2.
Defined.

Lemma writei_reports_failed_copy_witness : exists x' a', writei (fun old _ => ret (-1, old)) 2 0 0 5 (Fs demo_sb demo_icache demo_disk, tt) = Ok (5, (Fs demo_sb demo_icache x', tt)) /\
  brep x' a' /\ content (t_view a') file_di = [104; 101; 108; 108; 111].
Proof.
  destruct (writei_reports_failed_copy (fun old _ => ret (-1, old)) demo_sb demo_meta demo_icache 2 demo_tx 0 0 5 demo_disk tt) as (x' & a' & H & R & Hc).
  - done.
  - exact demo_ok.
  - exact demo_file.
  - reflexivity.
  - reflexivity.
  - apply demo_room; lia.
  - exact demo_rep.
  - cbn. lia.
  - lia.
  - lia.
  - cbn. lia.
  - exists x', a'. split_and!; [exact H|exact R|]. rewrite <- (eq_refl : content demo_view file_di = [104; 101; 108; 108; 111]). exact Hc.
Defined.

(** The file [a] after its last link was removed. *)
Definition unlinked_di : dinode := with_nlink 0 file_di.
Definition unlinked_icache : Z -> inode := upd demo_icache 2 (set_di unlinked_di (demo_icache 2)).

Lemma unlinked_file : wf_file demo_sb demo_view unlinked_di.
Proof. apply (one_block_file demo_sb demo_tx); try done; [exact demo_ok|]. split; try done; repeat constructor; done. Qed.

Lemma iput_frees_file_witness : exists ic' x' a', iput 7 2 (Fs demo_sb unlinked_icache demo_disk) = Ok (tt, Fs demo_sb ic' x') /\ brep x' a' /\
  bit (t_view a') demo_sb 8 = true /\ bit (t_view a') demo_sb 9 = false /\ di_type (disk_inode (t_view a') demo_sb 2) = 0.
Proof.
  destruct (iput_frees_file demo_dev 7 demo_sb demo_meta unlinked_icache 2 demo_tx 0 demo_disk) as (ic' & x' & a' & H & R & _ & _ & Ht & _ & Hb & _).
  - exact demo_bitmap.
  - exact demo_ok.
  - exact (wf_slots_ok _ _ _ unlinked_file).
  - reflexivity.
  - reflexivity.
  - exact demo_rep.
  - apply demo_room; lia.
  - cbn. lia.
  - set_solver.
  - reflexivity.
  - reflexivity.
  - reflexivity.
  - reflexivity.
  - exists ic', x', a'. split_and!; [exact H|exact R| | |exact Ht].
    + apply Hb; [cbn; lia|]. split; [reflexivity|]. intros (_ & s & Hs & E).
      change (i_di (unlinked_icache 2)) with unlinked_di in E. unfold unlinked_di, with_nlink, file_di in E. cbn [di_type di_major di_minor di_size di_addrs] in E.
      rewrite one_block_slot in E by done. destruct (s =? 0); discriminate E.
    + destruct (bit (t_view a') demo_sb 9) eqn:E9; [|done]. apply Hb in E9 as [_ Hn]; [|cbn; lia]. destruct Hn. split; [done|]. exists 0. split; [vm_compute; split; congruence|reflexivity].
Defined.

(** [a] gets a second name. *)
Lemma dirlink_correct_witness : exists ic' x' a', dirlink 7 1 [98] 2 (Fs demo_sb demo_icache demo_disk) = Ok (0, Fs demo_sb ic' x') /\ brep x' a' /\
  dir_lookup (content (t_view a') (i_di (ic' 1))) [98] = Some 2 /\ dir_lookup (content (t_view a') (i_di (ic' 1))) [97] = Some 2.
Proof.
  assert (dir_lookup (content (t_view demo_tx) (i_di (demo_icache 1))) (dname [98]) = None) as E by reflexivity.
  assert (dir_lookup (content (t_view demo_tx) (i_di (demo_icache 1))) [97] = Some 2) as Ea by reflexivity.
  pose proof (dirlink_correct demo_dev 7 demo_sb demo_meta demo_icache 1 demo_tx [98] 2 demo_disk) as H. rewrite E in H.
  destruct H as (ic' & x' & a' & H & R & _ & _ & _ & Hl & _).
  - exact demo_bitmap.
  - exact demo_ok.
  - exact demo_root.
  - reflexivity.
  - reflexivity.
  - apply demo_room; lia.
  - repeat constructor; done.
  - exact demo_rep.
  - cbn. lia.
  - set_solver.
  - vm_compute. congruence.
  - change (t_view demo_tx) with demo_view. rewrite demo_nfree. lia.
  - lia.
  - intros p Hp. pose proof (demo_refs p Hp). lia.
  - exists ic', x', a'. split_and!; [exact H|exact R|rewrite Hl; reflexivity|rewrite Hl; exact Ea].
Defined.

(** [/a] is inode 2. *)
Lemma namex_correct_witness : exists ip' name' ic' x', namex 7 1 [47; 97] false (replicate 14 0) (Fs demo_sb demo_icache demo_disk) = Ok ((ip', name'), Fs demo_sb ic' x') /\
  brep x' demo_tx /\ i_inum (ic' ip') = 2.
Proof.
  assert (path_walk demo_sb demo_view false 1 [[97]] = Some 2) as Ew by reflexivity.
  destruct (namex_correct 7 demo_sb demo_tx demo_meta 1 1) with (ic0 := demo_icache) (p1 := 3) (p2 := 4) (cwd := 1) (path := [47; 97])
    (name := replicate 14 0) (np := false) (x := demo_disk) as (ip' & name' & ic' & x' & H & R & _ & Hres).
  - exact demo_ok.
  - reflexivity.
  - apply demo_room; lia.
  - lia.
  - exact demo_tree.
  - exact demo_refs.
  - done.
  - by apply elem_of_icache_ptrs.
  - by apply elem_of_icache_ptrs.
  - reflexivity.
  - reflexivity.
  - exact demo_cache.
  - exact demo_rep.
  - reflexivity.
  - done.
  - done.
  - by apply elem_of_icache_ptrs.
  - done.
  - set_solver.
  - reflexivity.
  - change (path_walk demo_sb (t_view demo_tx) false _ _) with (path_walk demo_sb demo_view false 1 [[97]]) in Hres. rewrite Ew in Hres. destruct Hres as (_ & Hi & _). exists ip', name', ic', x'. split_and!; [exact H|exact R|exact Hi].
Defined.
