(* ===== verification/LogBlocks.v ===== *)
(** * The log and the buffer cache under the file system

    [kernel/log.c] over any buffer cache with the interface [BlockCache] is a block layer
    for the file system: the laws of [BlocksOk] inside a transaction, and those of [TxnOk].
    So everything that [FsSpec] and the files behind it prove of the file system holds over
    the code of the log and of the buffer cache.  Here also: an operation of the file system
    between [begin_op] and [end_op] is atomic under crashes. *)

From S2P Require Import Prelude Bytes Riscv Cache Bio Log LogCrash LogTxn Blocks.

Lemma size_union_le (X Y : gset Z) : (size (X ∪ Y) <= size X + size Y)%nat.
Proof. rewrite size_union_alt. assert (size (Y ∖ X) <= size Y)%nat; [apply subseteq_size; set_solver|lia]. Qed.

Lemma size_img (m : gmap Z Z) : (size (map_img m : gset Z) <= size m)%nat.
Proof.
  induction m as [|i x m Hi IH] using map_ind; [by rewrite map_img_empty_L|]. rewrite map_size_insert_None by done.
  rewrite map_img_insert_notin_L by done. pose proof (size_union_le {[x]} (map_img m)) as H. rewrite size_singleton in H. lia.
Qed.

Section Instance_.
Context {S : Type} {C : BlockCache S} {COk : BlockCacheOk S}.
Implicit Types (s : lstate (S := S)) (a : atx) (b : Z).

Definition held_blocks a : gset Z := map_img (t_held a).

(** The references to a block: the log's, and that of the buffer that is held. *)
Definition ref_count a b : Z :=
  (if bool_decide (b ∈ t_logged a) then 1 else 0) + (if bool_decide (b ∈ held_blocks a) then 1 else 0).

(** In a transaction that began on the disk [d], after the disk writes [w], with a log at
    the blocks of [l0]. *)
Record log_rep (d : Z -> block) (w : list (Z * block)) (l0 : log) s a : Prop := {
  lr_cache : exists v rf, c_rep (l_cache s) (ACache d v w rf (t_held a)) /\ (forall b, v b = t_view a b) /\ (forall b, rf b = ref_count a b);
  lr_log : log_ok (l_log s);
  lr_params : l_start (l_log s) = l_start l0 /\ l_size (l_log s) = l_size l0 /\ l_dev (l_log s) = l_dev l0 /\
    l_outstanding (l_log s) = l_outstanding l0 /\ l_committing (l_log s) = false;
  lr_out : 1 <= l_outstanding l0;
  lr_size : l_size l0 <= LOGSIZE;
  lr_base b : t_base a b = d b;
  lr_logged b : b ∈ t_logged a <-> b ∈ log_blocks (l_log s);
  lr_apart i j b : t_held a !! i = Some b -> t_held a !! j = Some b -> i = j;
  lr_cap : t_cap a <= l_size l0 - 1;
  lr_home b : t_home a b = true -> 0 <= b < 2 ^ 31 /\ ~ in_log l0 b;
}.

#[export] Instance log_layer (d : Z -> block) (w : list (Z * block)) (l0 : log) : Blocks (lstate (S := S)) := {|
  k_dev := c_dev;
  k_bread dev b := cache (c_bread dev b);
  k_data s i := c_data (l_cache s) i;
  k_set i x := cache (c_set i x);
  k_log_write := log_write;
  k_brelse i := cache (c_brelse i);
  k_initlog dev start n := initlog dev (Logsb start n);
  k_rep := log_rep d w l0;
|}.

#[export] Instance log_txn : Txn (lstate (S := S)) := {|
  k_begin_op := begin_op;
  k_end_op := end_op;
  k_depth s := l_outstanding (l_log s);
|}.

Section Laws.
Context (d : Z -> block) (w : list (Z * block)) (l0 : log).

Lemma held_block a i b : t_held a !! i = Some b -> b ∈ held_blocks a.
Proof. intros H. unfold held_blocks. apply elem_of_map_img. by exists i. Qed.

Lemma held_not a b : (forall i, t_held a !! i <> Some b) -> b ∉ held_blocks a.
Proof. intros H. unfold held_blocks. rewrite elem_of_map_img. intros [i Hi]. by destruct (H i). Qed.

Lemma ref_count_bound a b : 0 <= ref_count a b <= 2.
Proof. unfold ref_count. repeat case_bool_decide; lia. Qed.

Lemma rep_sane v rf a : (forall b, rf b = ref_count a b) -> sane (ACache d v w rf (t_held a)).
Proof.
  intros Hrf i b Hi. cbn in *. rewrite Hrf. unfold ref_count. rewrite (bool_decide_eq_true_2 (b ∈ held_blocks a)) by (by eapply held_block).
  case_bool_decide; lia.
Qed.

Lemma rep_available v rf a b : (forall b, rf b = ref_count a b) -> t_room a b -> available (ACache d v w rf (t_held a)) \/ rf b <> 0.
Proof.
  intros Hrf [Hl|Hn]; [right; rewrite Hrf; unfold ref_count; rewrite (bool_decide_eq_true_2 (b ∈ t_logged a)) by done; case_bool_decide; lia|left].
  exists (t_logged a ∪ held_blocks a). split.
  - intros c Hc. cbn in Hc. rewrite Hrf in Hc. unfold ref_count in Hc. apply elem_of_union. repeat case_bool_decide; auto; lia.
  - pose proof (size_union_le (t_logged a) (held_blocks a)). pose proof (size_img (t_held a)). unfold held_blocks in *. lia.
Qed.

(** What the operations on buffers do to the counts. *)
Lemma ref_count_hold a i b c : t_held a !! i = None -> (forall j, t_held a !! j <> Some b) ->
  ref_count (t_hold i b a) c = if c =? b then ref_count a b + 1 else ref_count a c.
Proof.
  intros Hi Hb. unfold ref_count. assert (c ∈ held_blocks (t_hold i b a) <-> c = b \/ c ∈ held_blocks a) as E.
  { unfold held_blocks. cbn. rewrite map_img_insert_notin_L by done. set_solver. }
  pose proof (held_not a b Hb) as Hn. change (t_logged (t_hold i b a)) with (t_logged a). destruct (Z.eqb_spec c b) as [->|Hne].
  - rewrite (bool_decide_eq_true_2 (b ∈ held_blocks (t_hold i b a))), (bool_decide_eq_false_2 (b ∈ held_blocks a)) by tauto. lia.
  - rewrite (bool_decide_ext (c ∈ held_blocks (t_hold i b a)) (c ∈ held_blocks a)) by tauto. done.
Qed.

Lemma ref_count_drop a i b c : t_held a !! i = Some b -> (forall j, t_held a !! j = Some b -> j = i) ->
  ref_count (t_drop i a) c = if c =? b then ref_count a b - 1 else ref_count a c.
Proof.
  intros Hi Hu. unfold ref_count. assert (c ∈ held_blocks (t_drop i a) <-> c <> b /\ c ∈ held_blocks a) as E.
  { unfold held_blocks. cbn. rewrite !elem_of_map_img. setoid_rewrite lookup_delete_Some. split.
    - intros (j & Hj & E). split; [|by exists j]. intros ->. by apply Hj; symmetry; apply Hu.
    - intros (Hne & j & Hj). exists j. split; [|done]. intros ->. congruence. }
  pose proof (held_block a i b Hi) as Hin. change (t_logged (t_drop i a)) with (t_logged a). destruct (Z.eqb_spec c b) as [->|Hne].
  - rewrite (bool_decide_eq_false_2 (b ∈ held_blocks (t_drop i a))), (bool_decide_eq_true_2 (b ∈ held_blocks a)) by tauto. lia.
  - rewrite (bool_decide_ext (c ∈ held_blocks (t_drop i a)) (c ∈ held_blocks a)) by tauto. done.
Qed.

Lemma log_bread_law s a b : log_rep d w l0 s a -> 0 <= b < 2 ^ 31 -> (forall i, t_held a !! i <> Some b) -> t_room a b ->
  exists i s', cache (c_bread c_dev b) s = Ok (i, s') /\ t_held a !! i = None /\ log_rep d w l0 s' (t_hold i b a).
Proof.
  destruct s as [l c]. intros [(v & rf & Hr & Hv & Hrf) H1 H2 H3 H4 H5 H6 H7 H8 H9] Hb Hn Hroom. cbn [l_log l_cache] in *. pose proof (ref_count_bound a b) as Hbd.
  destruct (c_bread_ok c _ b Hr) as (i & c' & Hrun & Hi & Hr').
  - by apply rep_sane.
  - exact Hn.
  - by apply rep_available.
  - cbn. rewrite Hrf. lia.
  - exists i, (LState l c'). split_and!; [by apply (cache_run _ (LState l c))|done|]. split; try done.
    + exists v, (upd rf b (u32 (rf b + 1))). split_and!; [exact Hr'|done|]. intros c0. rewrite ref_count_hold by done. unfold upd. destruct (Z.eqb_spec c0 b) as [->|]; [|done].
      rewrite Hrf. apply u32_small. lia.
    + intros j k x. cbn. rewrite !lookup_insert_Some. intros [[<- <-]|[Hj Hx]] [[<- E]|[Hk Hy]]; try done; [by destruct (Hn k)|subst x; by destruct (Hn j)|by eapply H7].
Qed.

Lemma log_set_law s a i b x : log_rep d w l0 s a -> t_held a !! i = Some b ->
  exists s', cache (c_set i x) s = Ok (tt, s') /\ log_rep d w l0 s' (t_set b x a).
Proof.
  destruct s as [l c]. intros [(v & rf & Hr & Hv & Hrf) H1 H2 H3 H4 H5 H6 H7 H8 H9] Hi. cbn [l_log l_cache] in *.
  destruct (c_set_ok c _ i b x Hr Hi) as (c' & Hrun & Hr'). exists (LState l c'). split; [by apply (cache_run _ (LState l c))|]. split; try done.
  exists (upd v b x), rf. split_and!; [exact Hr'| |done]. intros c0. cbn. unfold upd. by destruct (c0 =? b).
Qed.

Lemma log_log_law s a i b : log_rep d w l0 s a -> t_held a !! i = Some b -> Z.of_nat (size (t_logged a)) < t_cap a -> t_home a b = true ->
  exists s', log_write i s = Ok (tt, s') /\ log_rep d w l0 s' (t_log b a).
Proof.
  destruct s as [l c]. intros [(v & rf & Hr & Hv & Hrf) H1 (P1 & P2 & P3 & P4 & P5) H3 H4 H5 H6 H7 H8 H9] Hi Hcap Hhome. cbn [l_log l_cache] in *.
  destruct (H9 b Hhome) as [Hb Hout]. assert (Z.of_nat (size (t_logged a)) = lh_n l) as Hsz.
  { assert (t_logged a = list_to_set (log_blocks l)) as -> by (apply leibniz_equiv; intros x; by rewrite H6, elem_of_list_to_set).
    rewrite size_list_to_set by apply (lo_nodup _ H1). unfold log_blocks. rewrite length_fmap, length_upto. pose proof (lo_n _ H1). lia. }
  destruct (log_write_ok l c _ i b Hr Hi H1 Hb) as (c' & Hrun & Hr'); [lia|lia|lia|]. destruct (log_entry_blocks b l H1 Hb) as (E1 & _ & _).
  destruct (log_entry_params b l) as (Q1 & Q2 & Q3 & Q4 & Q5). exists (LState (log_entry b l) c'). split; [done|].
  assert (forall c0, ref_count (t_log b a) c0 = if bool_decide (b ∈ log_blocks l) then ref_count a c0 else if c0 =? b then ref_count a b + 1 else ref_count a c0) as Hcount.
  { intros c0. unfold ref_count. change (held_blocks (t_log b a)) with (held_blocks a). change (t_logged (t_log b a)) with ({[b]} ∪ t_logged a).
    case_bool_decide as Hin; [|destruct (Z.eqb_spec c0 b) as [->|Hne]].
    - rewrite <- H6 in Hin. rewrite (bool_decide_ext (c0 ∈ {[b]} ∪ t_logged a) (c0 ∈ t_logged a)) by set_solver. done.
    - rewrite <- H6 in Hin. rewrite (bool_decide_eq_true_2 (b ∈ {[b]} ∪ t_logged a)), (bool_decide_eq_false_2 (b ∈ t_logged a)) by set_solver. lia.
    - rewrite (bool_decide_ext (c0 ∈ {[b]} ∪ t_logged a) (c0 ∈ t_logged a)) by set_solver. done. }
  split; cbn [l_log l_cache]; rewrite ?Q1, ?Q2, ?Q3, ?Q4, ?Q5; try done.
  - revert Hr' Hcount. case_bool_decide as Hin; intros Hr' Hcount; [exists v, rf; split_and!; [done|done|]; intros c0; by rewrite Hcount|].
    exists v, (upd rf b (u32 (rf b + 1))). split_and!; [exact Hr'|done|]. intros c0. rewrite Hcount. unfold upd. destruct (c0 =? b); [|done].
    rewrite Hrf. pose proof (ref_count_bound a b). apply u32_small. lia.
  - apply log_entry_ok; [done|done| |lia|]; unfold in_log, LOGSIZE, NBUF in *; [by rewrite P1, P2|lia].
  - intros c0. rewrite E1, elem_of_logged, <- H6. cbn. set_solver.
Qed.

Lemma log_brelse_law s a i b : log_rep d w l0 s a -> t_held a !! i = Some b -> b ∈ t_logged a \/ t_view a b = t_base a b ->
  exists s', cache (c_brelse i) s = Ok (tt, s') /\ log_rep d w l0 s' (t_drop i a).
Proof.
  destruct s as [l c]. intros [(v & rf & Hr & Hv & Hrf) H1 H2 H3 H4 H5 H6 H7 H8 H9] Hi Hc. cbn [l_log l_cache] in *.
  assert (0 < ref_count a b) as Hpos by (unfold ref_count; rewrite (bool_decide_eq_true_2 (b ∈ held_blocks a)) by (by eapply held_block); case_bool_decide; lia).
  pose proof (ref_count_bound a b) as Hbd.
  destruct (c_brelse_ok c _ i b Hr Hi) as (c' & Hrun & Hr').
  - cbn. rewrite Hrf, u32_small by lia. intros E. rewrite Hv. destruct Hc as [Hl|Hc]; [|by rewrite Hc]. exfalso. unfold ref_count in E.
    rewrite (bool_decide_eq_true_2 (b ∈ t_logged a)), (bool_decide_eq_true_2 (b ∈ held_blocks a)) in E by (done || by eapply held_block). lia.
  - exists (LState l c'). split; [by apply (cache_run _ (LState l c))|]. split; try done.
    + exists v, (upd rf b (u32 (rf b - 1))). split_and!; [exact Hr'|done|]. intros c0. rewrite (ref_count_drop a i b) by (done || intros j Hj; by eapply H7). unfold upd.
      destruct (c0 =? b); [|done]. rewrite Hrf. apply u32_small. lia.
    + intros j k x. cbn. rewrite !lookup_delete_Some. intros [_ Hj] [_ Hk]. by eapply H7.
Qed.

#[export] Instance log_layer_ok : BlocksOk (lstate (S := S)) (K := log_layer d w l0).
Proof.
  split; cbn.
  - intros. by apply log_bread_law.
  - intros s a i b [(v & rf & Hr & Hv & _) _ _ _ _ _ _ _ _ _] Hi. rewrite <- Hv. by apply (c_data_ok _ _ _ _ Hr Hi).
  - intros. by apply log_set_law.
  - intros. by apply log_log_law.
  - intros. by eapply log_brelse_law.
Qed.
End Laws.

(** ** [outstanding] *)

Definition keeps {A} (m : M (lstate (S := S)) A) : Prop := forall s x s', m s = Ok (x, s') -> l_outstanding (l_log s') = l_outstanding (l_log s).

Lemma keeps_bind {A B} (m : M lstate A) (k : A -> M lstate B) : keeps m -> (forall x, keeps (k x)) -> keeps (bind m k).
Proof. intros Hm Hk s x s' H. apply bind_ok_inv in H as (a & s1 & H1 & H2). by rewrite (Hk a _ _ _ H2), (Hm _ _ _ H1). Qed.
Lemma keeps_ret {A} (x : A) : keeps (ret x).
Proof. by intros s y s' [= <- <-]. Qed.
Lemma keeps_gets {A} (f : lstate -> A) : keeps (gets f).
Proof. by intros s y s' [= <- <-]. Qed.
Lemma keeps_cache {A} (m : M S A) : keeps (cache m).
Proof. intros s x s' H. apply zoom_ok_inv in H as (c & _ & ->). done. Qed.
Lemma keeps_mod f : (forall l, l_outstanding (f l) = l_outstanding l) -> keeps (mod_log (S := S) f).
Proof. intros Hf s x s' [= <- <-]. apply Hf. Qed.
Lemma keeps_mfor {A} (l : list A) (f : A -> M lstate unit) : (forall x, keeps (f x)) -> keeps (mfor l f).
Proof. intros Hf. induction l as [|x l IH]; cbn [mfor]; [apply keeps_ret|]. by apply keeps_bind. Qed.
Lemma keeps_if {A} (b : bool) (m n : M lstate A) : keeps m -> keeps n -> keeps (if b then m else n).
Proof. by destruct b. Qed.
Lemma keeps_panic {A} msg : keeps (panic (S := lstate) (A := A) msg).
Proof. done. Qed.
Lemma keeps_panic_if (t : bool) msg : keeps (panic_if (S := lstate) t msg).
Proof. unfold panic_if. destruct t; [done|apply keeps_ret]. Qed.

Create HintDb keeps.
Hint Resolve keeps_ret keeps_gets keeps_cache keeps_if keeps_panic keeps_panic_if : keeps.

Ltac keeps := unfold get_log, log_bread; cbv zeta; repeat first [ progress cbv zeta | apply keeps_bind; [|intros ?] | apply keeps_mfor; intros ? | apply keeps_if | apply keeps_mod; intros ? | solve [eauto with keeps] | reflexivity ].

Lemma keeps_write_head : keeps write_head.
Proof. unfold write_head. keeps. Qed.
Lemma keeps_write_log : keeps write_log.
Proof. unfold write_log. keeps. Qed.
Lemma keeps_install_trans : keeps install_trans.
Proof. unfold install_trans. keeps. Qed.

Lemma keeps_commit : keeps commit.
Proof.
  pose proof keeps_write_head. pose proof keeps_write_log. pose proof keeps_install_trans. unfold commit. keeps.
Qed.

Lemma keeps_log_write i : keeps (log_write i).
Proof. unfold log_write. keeps. Qed.

Lemma begin_op_depth s x s' : begin_op s = Ok (x, s') -> l_outstanding (l_log s') = l_outstanding (l_log s) + 1.
Proof.
  intros H. unfold begin_op in H. apply bind_ok_inv in H as (l & s1 & [-> ->]%gets_inv & H). destruct (l_committing _); [done|]. destruct (_ <? _); [done|].
  by injection H as _ <-.
Qed.

Lemma end_op_depth s x s' : end_op s = Ok (x, s') -> l_outstanding (l_log s') = l_outstanding (l_log s) - 1.
Proof.
  intros H. unfold end_op in H. apply bind_ok_inv in H as ([] & s1 & [= <-] & H). apply bind_ok_inv in H as (l & s2 & [-> ->]%gets_inv & H).
  apply bind_ok_inv in H as ([] & s2 & H2 & H). assert (forall t : bool, keeps (if t then mod_log (S := S) (with_committing true) ;; commit ;; mod_log (with_committing false) else ret tt)) as Hk
    by (intros t; pose proof keeps_commit; keeps).
  by rewrite (Hk _ _ _ _ H), (keeps_panic_if _ _ _ _ _ H2).
Qed.

#[export] Instance log_txn_ok (d : Z -> block) (w : list (Z * block)) (l0 : log) : TxnOk (lstate (S := S)) (K := log_layer d w l0).
Proof.
  split; intros *; [apply begin_op_depth|apply end_op_depth|apply keeps_cache|apply keeps_cache|apply keeps_log_write|apply keeps_cache].
Qed.

(** ** An operation from [begin_op] to [end_op] *)

Lemma op_begin s l d w cap home : idle s l d w -> cap <= l_size l - 1 -> (forall b, home b = true -> 0 <= b < 2 ^ 31 /\ ~ in_log l b) ->
  exists s1, begin_op s = Ok (tt, s1) /\ log_rep d w (ctl 1 false l) s1 (ATx d d ∅ ∅ cap home).
Proof.
  intros Hi Hcap Hhome. pose proof (id_n _ _ _ _ Hi) as Hn. pose proof (id_size _ _ _ _ Hi) as Hsz.
  destruct (begin_op_ok s l d d w (fun _ => 0) 0) as (s1 & H1 & Hl & Hr); [apply Hi..|unfold LOGSIZE, MAXOPBLOCKS; lia|]. exists s1. split; [done|].
  rewrite Z.add_0_l in Hl. pose proof (id_ok _ _ _ _ Hi) as Hok. split; cbn [l_start l_size l_outstanding t_cap t_held t_view t_base t_logged t_home ctl]; rewrite ?Hl; try done.
  - by exists d, (fun _ => 0).
  - by apply log_ok_ctl.
  - intros b. rewrite (log_blocks_none (ctl 1 false l)) by done. set_solver.
Qed.

(** The state of an operation that holds no buffers and has logged all that it changed. *)
Lemma op_in_txn s l0 d w a : log_rep d w l0 s a -> t_held a = ∅ -> (forall b, b ∈ t_logged a \/ t_view a b = t_base a b) ->
  exists v, in_txn s (l_log s) d v w /\ forall b, v b = t_view a b.
Proof.
  intros [(v & rf & Hr & Hv & Hrf) H1 (P1 & P2 & P3 & P4 & P5) H3 H4 H5 H6 H7 H8 H9] Hh Ht. exists v. split; [|done]. split; [|done| |by rewrite P4|done].
  - exists rf. split; [split; [done|by rewrite Hh in Hr]|]. intros b. rewrite Hrf. unfold ref_count, held_blocks. rewrite Hh, map_img_empty_L.
    rewrite (bool_decide_eq_false_2 (b ∈ ∅)) by set_solver. rewrite (bool_decide_ext (b ∈ t_logged a) (b ∈ log_blocks (l_log s))) by done. lia.
  - intros b Hb. rewrite Hv, <- H5. destruct (Ht b) as [Hl|]; [|done]. by apply H6 in Hl.
Qed.

Lemma op_end sb s l d w s2 a : idle s l d w -> sb_is sb l -> log_rep d w (ctl 1 false l) s2 a -> t_held a = ∅ -> (forall b, b ∈ t_logged a \/ t_view a b = t_base a b) ->
  exists s3 l3 d3 W, end_op s2 = Ok (tt, s3) /\ idle s3 l3 d3 (w ++ W) /\ l_start l3 = l_start l /\ l_size l3 = l_size l /\ l_dev l3 = l_dev l /\
    (forall b, ~ in_log l b -> d3 b = t_view a b) /\
    forall P D, P `prefix_of` W -> crashes sb (apply_writes d P) D ->
    exists s4, reboot sb D = Ok (tt, s4) /\
      ((forall b, ~ in_log l b -> c_disk (l_cache s4) b = d b) \/ (forall b, ~ in_log l b -> c_disk (l_cache s4) b = t_view a b)).
Proof.
  intros Hi Hsb Hrep Hh Ht. destruct (op_in_txn _ _ _ _ _ Hrep Hh Ht) as (v & Htx & Hv). destruct (lr_params _ _ _ _ _ Hrep) as (P1 & P2 & P3 & P4 & _). cbn in P1, P2, P3, P4.
  set (L := l_log s2) in *. assert (settled L d d) as Hset by (eapply settled_params; [exact P1|exact P2|apply Hi]). pose proof (tx_ok _ _ _ _ _ Htx) as Hlo.
  pose proof (tx_clean _ _ _ _ _ Htx) as Hcl. assert (forall b, ~ in_log l b -> ~ in_log L b) as Hlog by (intros b; unfold in_log; by rewrite P1, P2).
  destruct (end_op_ok s2 L d v w Htx P4 Hset) as (s3 & H3 & Hi3); [rewrite P2; apply Hi|]. eexists s3, _, _, (end_writes L v).
  split; [done|]. split; [exact Hi3|]. split_and!; [exact P1|exact P2|exact P3|intros b Hb; rewrite <- Hv; apply end_writes_value; auto|]. intros P D HP HD.
  assert (sb_is sb L) as HsbL by (unfold sb_is; by rewrite P1, P2, P3). assert (crashed L d v D) as Hcr.
  { eapply crashes_crashed; [exact HsbL|done|exact HD|]. unfold end_writes in HP. destruct (0 <? lh_n L).
    - apply crash_in_commit; [done|done| |done]. apply Hcl. intros Hb. by apply (lo_home L Hlo _ Hb), start_in_log.
    - apply prefix_nil_inv in HP as ->. by left. }
  destruct (crashed_recovers sb L _ _ D HsbL Hlo Hcr) as (s4 & l2 & rf & Hr2 & _ & [_ Hq2] & Hfin & _).
  exists s4. split; [done|]. destruct (c_obs_ok _ _ Hq2) as [Hd _].
  destruct Hfin as [(_ & _ & Hf)|(_ & _ & Hf)]; [left|right]; intros b Hb; rewrite Hd; cbn [a_disk]; rewrite Hf by auto; [done|].
  unfold updated. rewrite <- Hv. case_bool_decide; [done|]. symmetry. by apply Hcl.
Qed.
End Instance_.
