(* ===== verification/FsLog.v ===== *)
(** * The file system over the log and the buffer cache

    The code of [kernel/fs.c], [kernel/log.c] and [kernel/bio.c] together: the block layer
    of the file system is [LogBlocks.log_layer] over [Bio.bio_cache].  A write to a file is
    atomic under crashes, in terms of inodes and contents of files. *)

From S2P Require Import Prelude Bytes Riscv UserIO Cache Bio Log LogCrash LogTxn Blocks LogBlocks Fs FsSpec FsFile FsWrite FsTrunc FsDir.

Section FsLog.
(** The process that runs. *)
Context (me : Z).
Notation lst := (lstate (S := bcache)).
#[local] Instance my_cache : BlockCache bcache := bio_cache me.
#[local] Instance my_cache_ok : BlockCacheOk bcache := bio_cache_ok me.

(** What two disks have in common for the file system. *)
Definition same_fs (sb : superblock) (v v' : Z -> block) : Prop := forall b, fs_block sb b -> v' b = v b.

Lemma same_fs_inode sb v v' j : wf_sb sb -> same_fs sb v v' -> 0 <= j < sb_ninodes sb -> disk_inode v' sb j = disk_inode v sb j.
Proof. intros Hsb Hs Hj. unfold disk_inode. rewrite Hs; [done|]. by apply iblock_fs_block. Qed.

Lemma owned_fs_block sb v di c : wf_sb sb -> wf_file sb v di -> owns v di c -> fs_block sb c /\ nmeta sb <= c < sb_size sb /\ bit v sb c = true.
Proof.
  intros Hsb Hw (Hnz & t & Ht & Et). rewrite <- Et in Hnz. destruct (wl_used _ _ _ (wf_slots_ok _ _ _ Hw) t Ht Hnz) as [Hr Hu]. rewrite Et in Hr, Hu.
  split_and!; try done; try lia. destruct Hsb. unfold fs_block, nmeta in *. assert (0 <= (sb_size sb + BPB - 1) / BPB) by (apply Z.div_pos; [fslia|done]).
  assert (0 <= (sb_ninodes sb + IPB - 1) / IPB) by (apply Z.div_pos; [fslia|done]). lia.
Qed.

Lemma same_fs_content sb v v' di : wf_sb sb -> same_fs sb v v' -> wf_file sb v di -> content v' di = content v di.
Proof.
  intros Hsb Hs Hw. apply (content_ext sb v); [|done]. intros c Hc. by apply Hs, (owned_fs_block sb v di).
Qed.

Lemma same_fs_bit sb v v' b : wf_sb sb -> same_fs sb v v' -> 0 <= b < sb_size sb -> bit v' sb b = bit v sb b.
Proof. intros Hsb Hs Hb. unfold bit. rewrite Hs; [done|]. by apply (bitmap_fs_block sb Hsb), (BBLOCK_spec sb Hsb). Qed.

(** The file system on the disk [v] is that of [v0]: all its blocks, and with them the inodes
    and the files, are the same. *)
Definition unwritten (sb : superblock) (v0 v : Z -> block) : Prop :=
  same_fs sb v0 v /\
  (forall j, 0 <= j < sb_ninodes sb -> disk_inode v sb j = disk_inode v0 sb j) /\
  (forall di, wf_file sb v0 di -> content v di = content v0 di).

(** It is that of [v0] with [dat] written at [off] to the file of inode [inum]: the inode keeps
    its type, device and links and is well formed, a block is marked as used if it was or if
    the file has it, and the blocks that the file got were free. *)
Definition written (sb : superblock) (inum off : Z) (dat : list Z) (v0 v : Z -> block) : Prop :=
  let di0 := disk_inode v0 sb inum in let di := disk_inode v sb inum in
  content v di = splice (content v0 di0) off dat /\
  (wf_file sb v di /\ di_type di = di_type di0 /\ di_major di = di_major di0 /\ di_minor di = di_minor di0 /\ di_nlink di = di_nlink di0) /\
  (forall b, 0 <= b < sb_size sb -> bit v sb b = true <-> bit v0 sb b = true \/ owns v di b) /\
  (forall b, owns v di b -> owns v0 di0 b \/ bit v0 sb b = false) /\
  (forall j, 0 <= j < sb_ninodes sb -> j <> inum -> disk_inode v sb j = disk_inode v0 sb j) /\
  (forall di, wf_file sb v0 di -> (forall b, owns v0 di b -> ~ owns v0 (disk_inode v0 sb inum) b) -> content v di = content v0 di).

Lemma written_same sb inum off dat a di v0 v : fs_ok sb a -> t_view a = v0 -> disk_inode v0 sb inum = di -> 0 <= inum < sb_ninodes sb ->
  forall a' di', wrote sb a di inum off dat a' di' -> same_fs sb (t_view a') v -> written sb inum off dat v0 v.
Proof.
  intros Hok <- <- Hi a' di' W Hs. pose proof (fo_sb _ _ Hok) as Hsb. pose proof (wr_disk _ _ _ _ _ _ _ _ W inum Hi) as Ed. rewrite Z.eqb_refl in Ed.
  pose proof (same_fs_inode _ _ _ _ Hsb Hs Hi) as Ev. rewrite Ed in Ev. pose proof (wr_file _ _ _ _ _ _ _ _ W) as Hw'.
  assert (forall c, owns (t_view a') di' c -> v c = t_view a' c) as Hown by (intros c Hc; by apply Hs, (owned_fs_block sb (t_view a') di')).
  assert (forall c, owns v di' c <-> owns (t_view a') di' c) as Ho by (intros c; by apply owns_ext).
  assert (forall c, owns (t_view a') di' c -> 0 <= c < sb_size sb) as Hr by (intros c Hc; destruct (owned_fs_block sb (t_view a') di' c Hsb Hw' Hc) as (_ & ? & _); pose proof (nmeta_pos sb Hsb); lia).
  unfold written. rewrite Ev. cbv zeta. split; [rewrite (same_fs_content sb (t_view a')); [apply W|done..]|]. split; [split; [|apply W]|]. 2: split; [|split; [|split]].
  - apply (wf_file_ext sb (t_view a')); [done| |done]. intros c Hc. apply same_fs_bit; auto.
  - intros b Hb. rewrite (same_fs_bit _ _ _ _ Hsb Hs Hb), Ho. split; [by apply (wr_new _ _ _ _ _ _ _ _ W)|]. intros [H|H]; [by apply (wr_bits _ _ _ _ _ _ _ _ W)|]. by apply (owned_fs_block sb (t_view a') di').
  - intros b Hb%Ho. by apply (wr_fresh _ _ _ _ _ _ _ _ W).
  - intros j Hj Hne. rewrite (same_fs_inode _ _ _ _ Hsb Hs Hj), (wr_disk _ _ _ _ _ _ _ _ W) by done. by rewrite (proj2 (Z.eqb_neq _ _) Hne).
  - intros di2 Hw Hd. apply (content_ext sb (t_view a)); [|done]. intros c Hc. destruct (owned_fs_block sb _ di2 c Hsb Hw Hc) as (H1 & H2 & H3).
    rewrite Hs by done. apply (wr_frame _ _ _ _ _ _ _ _ W); [done|done|by apply Hd].
Qed.

(** The layer that the code runs on. *)
Definition fs_layer : Blocks lst := log_layer (fun _ => []) [] bss_log.

(** The memory of the process. *)
Context {U : Type} {UM : UserMem U} {UMOk : UserMemOk U}.

(** One round of the loop of [filewrite]: [off] is [f->off], and the results are [r] and the
    new [f->off]. *)
Definition write_op (ip addr off n1 : Z) : M (fs (S := lst) * U) (Z * Z) :=
  in_fs (blk begin_op) ;;
  in_fs (ilock (K := fs_layer) me ip) ;;
  let! r := writei (K := fs_layer) u_copyin ip addr off n1 in
  let off := if 0 <? r then u32 (off + r) else off in
  in_fs (iunlock me ip) ;;
  in_fs (blk end_op) ;;
  ret (r, off).

(** [dat] is in the memory of the process at [addr]. *)
Definition user_has (um : Z -> option Z) (addr : Z) (dat : list Z) : Prop :=
  0 <= addr /\ addr + zlen dat <= 2 ^ 64 /\ forall i b, dat !! i = Some b -> um (addr + Z.of_nat i) = Some b.

Lemma user_copyin um addr dat k old (u : U) : user_has um addr dat -> 0 <= k -> k + zlen old <= zlen dat -> bytes old -> zlen old <= BSIZE -> u_rep u um ->
  exists u', u_copyin old (u64 (addr + k)) u = Ok ((0, sub dat k (zlen old)), u') /\ u_rep u' um.
Proof.
  intros (H0 & H1 & Hd) Hk Hko Hold Hl Hu. destruct (u_copyin_ok u um old (u64 (addr + k)) Hu (u64_bound _) Hold) as (rv & bs & u' & -> & Hu' & _ & Hbs & Hres).
  { unfold BSIZE in Hl. unfold PGSIZE. lia. }
  exists u'. split; [|done]. destruct (Z.eq_dec (zlen old) 0) as [E0|Hne].
  { destruct old; [|cbn in E0; lia]. destruct Hres as [[-> E]|(_ & E & _)]; cbn in E; [|lia]. destruct bs; [|done]. unfold sub. by rewrite take_0. }
  rewrite u64_small in Hbs, Hres by lia. assert (forall i, 0 <= i < zlen old -> um (addr + k + i) = dat !! Z.to_nat (k + i)) as Hum.
  { intros i Hi. destruct (lookup_lt_is_Some_2 dat (Z.to_nat (k + i)) ltac:(lia)) as [b Hb]. rewrite Hb, <- (Hd _ _ Hb). f_equal. lia. }
  destruct Hres as [[-> E]|(_ & E & En)].
  - do 3 f_equal. unfold filled. rewrite E, drop_all, app_nil_r. apply list_eq. intros i. unfold sub. destruct (bs !! i) as [b|] eqn:Eb.
    + apply lookup_lt_Some in Eb as Hi. rewrite lookup_take_lt, lookup_drop by lia. apply Hbs in Eb. rewrite Hum in Eb by lia. rewrite <- Eb. f_equal. lia.
    + symmetry. apply lookup_ge_None_2. apply lookup_ge_None in Eb. rewrite length_take, length_drop. lia.
  - rewrite Hum in En by lia. apply lookup_ge_None in En. lia.
Qed.

(** A file system on the disk [d] with its log at the blocks of [l]; the entry [ip] of the
    cache is free to be locked, and if it is valid it has the inode as it is on the disk. *)
Record fs_disk (sb : superblock) (l : log) (d : Z -> block) (ic : Z -> inode) (ip : Z) : Prop := {
  fd_sb : wf_sb sb;
  fd_log : sb_is (Logsb (sb_logstart sb) (sb_nlog sb)) l;
  fd_view : wf_view d;
  fd_meta b : 0 <= b < nmeta sb -> bit d sb b = true;
  fd_home b : fs_block sb b -> ~ in_log l b;
  fd_inum : 0 <= i_inum (ic ip) < sb_ninodes sb;
  fd_dev : i_dev (ic ip) = ROOTDEV;
  fd_entry : ip <> 0 /\ 1 <= i_ref (ic ip) /\ il_locked (i_lock (ic ip)) = false;
  fd_valid : i_valid (ic ip) = true -> i_di (ic ip) = disk_inode d sb (i_inum (ic ip));
  fd_type : di_type (disk_inode d sb (i_inum (ic ip))) <> 0;
  fd_file : wf_file sb d (disk_inode d sb (i_inum (ic ip)));
}.

(** The blocks that every write may change: the bitmap and the block of the inode. *)
Definition meta_blocks (sb : superblock) (inum : Z) : gset Z :=
  {[IBLOCK inum sb]} ∪ list_to_set (Z.add (sb_bmapstart sb) <$> upto ((sb_size sb + BPB - 1) / BPB)).

(** [n] bytes at [off] fit into one transaction. *)
Definition op_fits (sb : superblock) (l : log) (d : Z -> block) (inum off n : Z) : Prop :=
  let m := Z.of_nat (size (meta_blocks sb inum)) + io_blocks off n + 1 in
  m < l_size l - 1 /\ m + 2 <= NBUF /\ io_blocks off n + 1 <= nfree sb d.

Definition home_of (l : log) (b : Z) : bool := (0 <=? b) && (b <? 2 ^ 31) && negb ((l_start l <=? b) && (b <? l_start l + l_size l)).

Lemma home_of_spec l b : home_of l b = true <-> 0 <= b < 2 ^ 31 /\ ~ in_log l b.
Proof.
  unfold home_of, in_log. rewrite !andb_true_iff, negb_true_iff, andb_false_iff, Z.leb_le, Z.ltb_lt, Z.leb_gt, Z.ltb_ge. lia.
Qed.

Lemma meta_blocks_bitmap sb inum b : bitmap_block sb b -> b ∈ meta_blocks sb inum.
Proof.
  intros Hb. unfold meta_blocks. apply elem_of_union. right. apply elem_of_list_to_set, list_elem_of_fmap. exists (b - sb_bmapstart sb).
  unfold bitmap_block in Hb. split; [lia|]. apply elem_of_upto. lia.
Qed.

Definition start_of (l : log) (d : Z -> block) : atx := ATx d d ∅ ∅ (l_size l - 1) (home_of l).

Lemma start_ok sb l d ic ip : fs_disk sb l d ic ip -> fs_ok sb (start_of l d).
Proof.
  intros [F1 F2 F3 F4 F5 F6 F7 F8 F9 F10 F11]. split; [done|done|done|]. intros b Hb. apply home_of_spec. split; [|by apply F5].
  pose proof (nmeta_pos sb F1). unfold fs_block in Hb. destruct F1. lia.
Qed.

Lemma start_room sb l d inum off n k h : op_fits sb l d inum off n -> 0 <= k <= io_blocks off n + 1 -> 0 <= h <= 2 -> room (meta_blocks sb inum) k h (start_of l d).
Proof.
  intros (G1 & G2 & G3) Hk Hh. split; [lia|lia|..]; cbn [start_of t_logged t_held t_cap]; rewrite ?union_empty_r_L, ?map_size_empty; lia.
Qed.

(** [ilock] in the transaction. *)
Lemma ilock_in_txn sb ic ip off n s1 l d w : fs_disk sb l d ic ip -> op_fits sb l d (i_inum (ic ip)) off n -> 0 <= io_blocks off n ->
  log_rep d w (ctl 1 false l) s1 (start_of l d) ->
  exists ic1 s2, ilock (K := fs_layer) me ip (Fs sb ic s1) = Ok (tt, Fs sb ic1 s2) /\ log_rep d w (ctl 1 false l) s2 (start_of l d) /\
    ic1 ip = loaded me (disk_inode d sb (i_inum (ic ip))) (ic ip).
Proof.
  intros Hfs Hfit Hio R1. pose proof (start_ok _ _ _ _ _ Hfs) as Hok. destruct Hfs as [F1 F2 F3 F4 F5 F6 F7 (F8 & F9 & F10) F11 F12 F13].
  destruct (i_valid (ic ip)) eqn:Ev.
  - exists (upd ic ip (locked me (ic ip))), s1. split_and!; [by apply (ilock_valid (K := fs_layer))|done|]. rewrite upd_eq, <- (F11 eq_refl).
    unfold loaded, locked. destruct (ic ip). cbn in *. by subst.
  - pose proof (ilock_load (K := log_layer d w (ctl 1 false l)) me sb s1 (start_of l d) ic ip (meta_blocks sb (i_inum (ic ip))) 0 1 Hok) as H.
    cbv zeta in H. cbn [t_view start_of] in H. rewrite (proj2 (Z.eqb_neq _ _) F12) in H.
    destruct H as (ic1 & s2 & H1 & [R2 _] & Hs); try done.
    + split; [done|]. intros b. by right.
    + apply (start_room sb l d _ off n); [done|lia|lia].
    + exists ic1, s2. split_and!; [exact H1|exact R2|]. pose proof (Hs ip) as E. by rewrite upd_eq in E.
Qed.

(** [writei] in the transaction. *)
Lemma writei_in_txn sb ic ip off dat s1 l d w di um addr (u : U) : fs_ok sb (start_of l d) -> wf_file sb d di -> i_di (ic ip) = di -> i_dev (ic ip) = ROOTDEV ->
  0 <= i_inum (ic ip) < sb_ninodes sb -> 0 <= off <= di_size di -> off + zlen dat <= MAXFILE * BSIZE -> bytes dat -> dat <> [] ->
  op_fits sb l d (i_inum (ic ip)) off (zlen dat) -> log_rep d w (ctl 1 false l) s1 (start_of l d) -> user_has um addr dat -> u_rep u um ->
  exists ic' s2 a' di' u', writei (K := fs_layer) u_copyin ip addr off (zlen dat) (Fs sb ic s1, u) = Ok (zlen dat, (Fs sb ic' s2, u')) /\ u_rep u' um /\
    log_rep d w (ctl 1 false l) s2 a' /\ tidy a' /\ wrote sb (start_of l d) di (i_inum (ic ip)) off dat a' di' /\ ic' ip = set_di di' (ic ip).
Proof.
  intros Hok Hw <- Hdev Hi Hoff Hmax Hdat Hne Hfit R1 Hum Hu.
  set (X := meta_blocks sb (i_inum (ic ip))). set (a := start_of l d) in *. assert (0 < zlen dat) as Hpos by (destruct dat; [done|cbn; lia]).
  assert (MAXFILE * BSIZE = 274432) as EM by done. pose proof (icost_bound X a (i_di (ic ip))) as Hic. pose proof (io_blocks_fuel off (zlen dat)) as Hio.
  destruct (writei_ok (K := log_layer d w (ctl 1 false l)) (c_dev_int (C := my_cache)) sb X) with (ic0 := ic) (ip := ip) (a0 := a) (off := off) (dat := dat)
    (inp := u_copyin) (src := addr) (I := fun u => u_rep u um) (x := s1) (t := u)
    as (ic' & s2 & u' & a' & di' & H2 & [R2 T2] & Hu' & Hs & W & _); try done.
  - apply meta_blocks_bitmap.
  - intros k old t Hk Hko Hold Hl Ht. by apply user_copyin.
  - unfold X, meta_blocks. set_solver.
  - split; [exact R1|]. intros b. by right.
  - apply (start_room sb l d _ off (zlen dat)); [done|lia|lia].
  - destruct Hfit as (_ & _ & G3). cbn [t_view start_of a]. unfold fcost. destruct (_ =? _); lia.
  - destruct Hum as (? & ? & _). rewrite u64_small in H2 by lia. exists ic', s2, a', di', u'. split_and!; [exact H2|exact Hu'|exact R2|exact T2|exact W|]. pose proof (Hs ip) as E. by rewrite upd_eq in E.
Qed.

(** C1. A write to a file is atomic.  With a file system on the disk and no other operation,
    one round of [filewrite], whose bytes fit into one transaction, returns; then the disk has
    the file with the bytes of the process's memory at the offset, the inode has the same type
    and links, the bitmap has marks for just the new blocks of the file, and all other inodes
    and files are as before.  If the machine stops at any of the disk
    writes on the way, and again during any of the following recoveries, the recovery that
    completes returns, and the file system on the disk is either the one before the write or
    the one after it. *)
Theorem file_write_crash_atomic (sb : superblock) (ic : Z -> inode) (ip addr off : Z) (dat : list Z) (u : U) (um : Z -> option Z) (s : lst) (l : log) (d : Z -> block) (w : list (Z * block))
    (Hidle : idle s l d w) (Hfs : fs_disk sb l d ic ip) (Hoff : 0 <= off <= di_size (disk_inode d sb (i_inum (ic ip)))) (Hmax : off + zlen dat <= MAXFILE * BSIZE)
    (Hdat : bytes dat) (Hne : dat <> []) (Hfits : op_fits sb l d (i_inum (ic ip)) off (zlen dat)) (Hu : u_rep u um) (Hum : user_has um addr dat) :
  exists ic' s' l' d' W u', write_op ip addr off (zlen dat) (Fs sb ic s, u) = Ok ((zlen dat, off + zlen dat), (Fs sb ic' s', u')) /\ u_rep u' um /\ idle s' l' d' (w ++ W) /\
    written sb (i_inum (ic ip)) off dat d d' /\
    forall P D, P `prefix_of` W -> crashes (Logsb (sb_logstart sb) (sb_nlog sb)) (apply_writes d P) D ->
    exists s2, reboot (Logsb (sb_logstart sb) (sb_nlog sb)) D = Ok (tt, s2) /\
      (unwritten sb d (c_disk (l_cache s2)) \/ written sb (i_inum (ic ip)) off dat d (c_disk (l_cache s2))).
Proof.
  destruct (op_begin s l d w (l_size l - 1) (home_of l) Hidle ltac:(lia)) as (s1 & H1 & R1); [by intros b Hb%home_of_spec|].
  assert (0 <= io_blocks off (zlen dat)) as Hio by (apply io_blocks_fuel; lia).
  destruct (ilock_in_txn sb ic ip off (zlen dat) s1 l d w Hfs Hfits Hio R1) as (ic1 & s2 & H2 & R2 & E1).
  pose proof (start_ok _ _ _ _ _ Hfs) as Hok. destruct Hfs as [F1 F2 F3 F4 F5 F6 F7 (F8 & F9 & F10) F11 F12 F13].
  destruct (writei_in_txn sb ic1 ip off dat s2 l d w (disk_inode d sb (i_inum (ic ip))) um addr u) as (ic2 & s3 & a' & di' & u' & H3 & Hu' & R3 & T3 & W & E2); rewrite ?E1; try done.
  rewrite E1 in W, E2. cbn [i_inum loaded] in W. set (ic3 := upd ic2 ip (set_lock (Islock false 0) (ic2 ip))).
  assert (iunlock me ip (Fs sb ic2 s3) = Ok (tt, Fs sb ic3 s3)) as H4.
  { unfold iunlock. mcomp. cbn [f_icache]. rewrite (proj2 (Z.eqb_neq _ _) F8), E2. unfold holds_inode. cbn [i_lock set_di loaded il_locked il_pid i_ref orb].
    rewrite Z.eqb_refl, (proj2 (Z.ltb_ge _ _)) by lia. cbn [andb negb orb]. mcomp. done. }
  destruct (op_end _ s l d w s3 a' Hidle F2 R3) as (s4 & l4 & d4 & Ws & H5 & Hi4 & P1 & P2 & P3 & Hd4 & Hcr); [by rewrite (wr_held _ _ _ _ _ _ _ _ W)|exact T3|].
  assert (forall v, (forall b, ~ in_log l b -> v b = t_view a' b) -> written sb (i_inum (ic ip)) off dat d v) as Hwr.
  { intros v Hv. eapply (written_same sb _ off dat (start_of l d) _); try done. intros b Hb. by apply Hv, F5. }
  exists ic3, s4, l4, d4, Ws, u'. split; [|split; [exact Hu'|split; [|split]]].
  - unfold write_op, in_fs. erewrite bind_ok; [|by apply zoom_ok, blk_run; exact H1]. erewrite bind_ok; [|by apply zoom_ok; exact H2]. erewrite bind_ok; [|exact H3].
    erewrite bind_ok; [|by apply zoom_ok; exact H4]. erewrite bind_ok; [|by apply zoom_ok, blk_run; exact H5].
    assert (0 < zlen dat) by (destruct dat; [done|cbn; lia]). change (MAXFILE * BSIZE) with 274432 in Hmax. rewrite (proj2 (Z.ltb_lt _ _)), u32_small by lia. done.
  - done.
  - by apply Hwr.
  - intros P D HP HD. destruct (Hcr P D HP HD) as (s5 & H6 & [Hold|Hnew]); exists s5; (split; [done|]); [left|right; by apply Hwr].
    assert (same_fs sb d (c_disk (l_cache s5))) as Hs by (intros b Hb; by apply Hold, F5).
    split; [exact Hs|]. split; [intros j Hj; by apply same_fs_inode|intros di Hw; by apply (same_fs_content sb)].
Qed.
End FsLog.
