(* ===== verification/FsLogDemo.v ===== *)
(** * A small disk with its log

    A disk of 24 blocks in the layout of [mkfs]: 12 blocks of log, one block of inodes, the
    bitmap and eight data blocks, with a file [a] in the root directory.  The theorems of
    [FsLog] are applied to it. *)

From S2P Require Import Prelude Bytes Riscv UserIO Cache Bio Log LogCrash LogTxn Blocks LogBlocks Fs FsSpec FsFile FsWrite FsTrunc FsDir FsDemo FsLog.

Definition jsb : superblock := Superblock FSMAGIC 24 8 16 12 2 14 15.
Definition jroot : dinode := Dinode T_DIR 0 0 1 48 (16 :: replicate 12 0).
Definition jfile : dinode := Dinode T_FILE 0 0 1 5 (17 :: replicate 12 0).
Definition jinodes : block := put_dinode (put_dinode (pad []) 1 jroot) 2 jfile.

Definition jdisk (b : Z) : block :=
  if b =? 14 then jinodes else if b =? 15 then pad [255; 255; 3] else if b =? 16 then root_block
  else if b =? 17 then file_block else pad [].
Definition jlog : log := Log 2 12 0 false ROOTDEV 0 (fun _ => 0).
Definition jicache (p : Z) : inode := if p =? 2 then Inode 1 2 1 (Islock false 0) true jfile else no_inode.

Lemma jdisk_blocks (P : block -> Prop) : P jinodes -> P (pad [255; 255; 3]) -> P root_block -> P file_block -> P (pad []) -> forall b, P (jdisk b).
Proof. intros. unfold jdisk. repeat (case_match; [done|]). done. Qed.

Lemma jlog_ok : log_ok (C := bio_cache 1) jlog.
Proof.
  split; [reflexivity|cbn; unfold NBUF, MAXOPBLOCKS; lia|cbn; lia| |cbn; lia| |apply NoDup_nil_2]; intros b Hb; by apply elem_of_nil in Hb.
Qed.

(** The machine behind [binit] and [initlog]. *)
Lemma jidle : exists c, idle (C := bio_cache 1) (LState jlog c) jlog jdisk [].
Proof.
  destruct (c_boot_ok (BlockCacheOk := bio_cache_ok 1) jdisk) as (c & _ & Hr). exists c. split; try done; try exact jlog_ok.
Qed.

Lemma jview : wf_view jdisk.
Proof. intros b. apply jdisk_blocks; (split; [reflexivity|apply bytes_b_ok; reflexivity]). Qed.

Lemma jmeta b : 0 <= b < nmeta jsb -> bit jdisk jsb b = true.
Proof. revert b. apply forall_upto. change (nmeta jsb) with 16. repeat constructor. Qed.

Lemma jsb_ok : wf_sb jsb.
Proof. split; vm_compute; done || (split; congruence || done). Qed.

Definition jtx : atx := ATx jdisk jdisk ∅ ∅ 11 (fun b => 14 <=? b).

Lemma jtx_ok : fs_ok jsb jtx.
Proof. split; [exact jsb_ok|exact jview|exact jmeta|]. intros b [Hb _]. apply Z.leb_le. exact Hb. Qed.

Lemma jfile_ok : wf_file jsb jdisk jfile.
Proof. apply (one_block_file jsb jtx); try done; [exact jtx_ok|]. split; try done; repeat constructor; done. Qed.

Lemma jfs : fs_disk 1 jsb jlog jdisk jicache 2.
Proof.
  split; [exact jsb_ok|split_and!; reflexivity|exact jview|exact jmeta| |cbn; lia|reflexivity|cbn; lia|reflexivity|done|exact jfile_ok].
  intros b [Hb _] [_ Hl]. cbn in Hb, Hl. lia.
Qed.

Lemma jfits : op_fits jsb jlog jdisk 2 3 4.
Proof.
  assert (nfree jsb jdisk = 6) as E by (vm_compute; reflexivity). assert (size (meta_blocks jsb 2) = 2%nat) as E2 by (vm_compute; reflexivity).
  unfold op_fits. rewrite E, E2. vm_compute. split_and!; congruence || done.
Qed.

(** The memory of a process with "pful" at 1000. *)
Definition jmem : flat := fun x => if (1000 <=? x) && (x <? 1004) then [112; 102; 117; 108] !! Z.to_nat (x - 1000) else None.

Lemma jmem_rep : u_rep jmem jmem.
Proof.
  intros x. split; [done|]. intros b. unfold jmem. destruct (_ && _); [|done]. intros H%list_elem_of_lookup_2. repeat (apply elem_of_cons in H as [->|H]; [lia|]). by apply elem_of_nil in H.
Qed.

Lemma jmem_has : user_has jmem 1000 [112; 102; 117; 108].
Proof. split; [lia|]. split; [cbn; lia|]. intros [|[|[|[|i]]]] b Hb; cbn in Hb; try (injection Hb as <-; reflexivity); done. Qed.

(** "hello" becomes "helpful": four bytes at offset 3. *)
Lemma file_write_crash_atomic_witness : exists s ic' s' l' d' W u',
  write_op 1 2 1000 3 4 (Fs jsb jicache s, jmem) = Ok ((4, 7), (Fs jsb ic' s', u')) /\ idle (C := bio_cache 1) s' l' d' W /\
  written jsb 2 3 [112; 102; 117; 108] jdisk d'.
Proof.
  destruct jidle as (c & Hi). exists (LState jlog c).
  destruct (file_write_crash_atomic 1 jsb jicache 2 1000 3 [112; 102; 117; 108] jmem jmem (LState jlog c) jlog jdisk [] Hi jfs) as (ic' & s' & l' & d' & W & u' & H1 & _ & H2 & H3 & _).
  - change (di_size _) with 5. lia.
  - vm_compute. congruence.
  - apply bytes_b_ok. reflexivity.
  - done.
  - exact jfits.
  - exact jmem_rep.
  - exact jmem_has.
  - exists ic', s', l', d', W, u'. exact (conj H1 (conj H2 H3)).
Defined.
