(* ===== verification/ProcTop.v ===== *)
(** * The process table from boot on *)

From S2P Require Import Prelude Riscv KString Kalloc Vm Proc ProcSpec.

Section Boot.
Context {L : Linker} {F : Type} {FO : Files F} (fa ia : Z) (xa pa : Z -> Z).
Implicit Types (s : pst (F := F)).

(** The table before [userinit], and after it: init is the only process. *)
Definition bss_table s : Prop :=
  nextpid s = 1 /\ forall i, 0 <= i < NPROC -> p_state (procs s i) = UNUSED /\ p_parent (procs s i) = None /\ p_pid (procs s i) = 0.

Record booted s (i0 : Z) : Prop := {
  bt_init : initproc s = Some i0;
  bt_slot : 0 <= i0 < NPROC;
  bt_state : p_state (procs s i0) = RUNNABLE;
  bt_pid : p_pid (procs s i0) = 1 /\ nextpid s = 2;
  bt_parent i : 0 <= i < NPROC -> p_parent (procs s i) = None;
  bt_free i : 0 <= i < NPROC -> i <> i0 -> p_state (procs s i) = UNUSED /\ p_pid (procs s i) = 0;
}.

Lemma userinit_boots s s' : bss_table s -> userinit fa ia s = Ok (tt, s') -> exists i0, booted s' i0.
Proof.
  intros [Hn Hb] H. unfold userinit in H. apply bind_ok_inv in H as (x & s1 & H1 & H).
  apply allocproc_slot in H1 as [(-> & _)|(i & Hi & [(-> & _)|(tf & pt & c & -> & [T1 T2 T3 T4])])]; [discriminate H..|].
  apply find_unused_some in Hi as [Hi%elem_of_upto _]. rewrite Hn in *.
  apply bind_ok_inv in H as ([] & s2 & [= <-] & H). set (s2 := Pst _ _ _ _ _) in H.
  pose proof (slot_refl s2 i) as Hs.
  apply bind_ok_inv in H as (p & s3 & [-> ->]%gets_inv & H). apply bind_ok_inv in H as ([] & s3 & H3 & H).
  apply bind_ok_inv in H as ([] & s4 & H4 & H). apply bind_ok_inv in H as ([] & s5 & H5 & H).
  apply bind_ok_inv in H as ([] & s6 & H6 & H). apply bind_ok_inv in H as ([] & s7 & H7 & H).
  apply bind_ok_inv in H as (ip & s8 & H8 & H). apply bind_ok_inv in H as ([] & s9 & H9 & H). slot_steps.
  destruct H as [U1 U2 U3 U4]. destruct (Hb i Hi) as (_ & Hp & _). exists i. split.
  - by rewrite U3.
  - done.
  - by rewrite U1.
  - rewrite U1, U4. cbn. by rewrite T1, T4.
  - intros j Hj. destruct (Z.eq_dec j i) as [->|Hne]; [rewrite U1; cbn; rewrite T1; exact Hp|].
    rewrite U2 by done. cbn. rewrite T2 by done. by apply Hb.
  - intros j Hj Hne. rewrite U2 by done. cbn. rewrite T2 by done. destruct (Hb j Hj) as (? & _ & ?). done.
Qed.

Lemma booted_inv s i0 : booted s i0 -> table_inv pa i0 (World s (fun _ => Normal)).
Proof.
  intros [B1 B2 B3 [B4 B5] B6 B7].
  assert (forall i, 0 <= i < NPROC -> p_pid (procs s i) = if i =? i0 then 1 else 0) as Hpid.
  { intros i Hi. destruct (Z.eqb_spec i i0) as [->|Hne]; [done|]. by apply B7. }
  assert (forall i, 0 <= i < NPROC -> used (procs s i) -> i = i0) as Hused.
  { intros i Hi Hu. destruct (Z.eq_dec i i0) as [|Hne]; [done|]. by destruct (B7 i Hi Hne). }
  split; cbn.
  - split_and!; [done|lia|lia| |by apply B6]. unfold alive. by rewrite B3.
  - lia.
  - intros i Hi. rewrite (Hpid i Hi), B5. split; [destruct (i =? i0); lia|]. intros ->%Hused; [|done]. by rewrite Z.eqb_refl.
  - intros i j Hi Hj Hne. rewrite !Hpid by done. destruct (Z.eqb_spec i i0), (Z.eqb_spec j i0); congruence.
  - intros i q Hi. by rewrite B6.
  - intros i Hi Hu Hne. by apply Hused in Hu.
  - intros i c Hi Hc. by rewrite (B6 c).
  - done.
  - done.
Qed.
End Boot.

(** ** Theorems *)

Section Theorems.
Context {L : Linker} {F : Type} {FO : Files F} (fa : Z) (xa pa : Z -> Z).
Implicit Types (s : pst (F := F)).

(** C23. The process table.  From the table that [userinit] leaves, under any interleaving of
    the scheduler, [fork], [exit], [wait], [kill], [sleep] and [wakeup], as long as [nextpid]
    does not reach 2^31 - 1: no two processes
    have the same pid, init never exits, every other process has a parent that is still
    able to call [wait], and a process asleep in [wait], unless it is init, has no zombie
    child, so that no wakeup is lost. *)
Theorem process_table_safe (s : pst (F := F)) (i0 : Z) (w : world)
    (Hpa : forall i j, 0 <= i < NPROC -> 0 <= j < NPROC -> pa i = pa j -> i = j)
    (Hboot : booted s i0) (Hrun : rtc (tstep fa xa pa) (World s (fun _ => Normal)) w) :
  alive (procs (w_st w) i0) /\
  (forall i j, 0 <= i < NPROC -> 0 <= j < NPROC -> used (procs (w_st w) i) -> used (procs (w_st w) j) ->
     p_pid (procs (w_st w) i) = p_pid (procs (w_st w) j) -> i = j) /\
  (forall i, 0 <= i < NPROC -> used (procs (w_st w) i) -> i <> i0 ->
     exists q, p_parent (procs (w_st w) i) = Some q /\ q <> i /\ 0 <= q < NPROC /\ alive (procs (w_st w) q)) /\
  (forall i c, 0 <= i < NPROC -> 0 <= c < NPROC -> i <> i0 -> p_state (procs (w_st w) i) = SLEEPING ->
     p_chan (procs (w_st w) i) = pa i -> p_parent (procs (w_st w) c) = Some i -> p_state (procs (w_st w) c) <> ZOMBIE).
Proof.
  destruct (table_reach fa xa pa Hpa i0 _ w (booted_inv pa s i0 Hboot) Hrun) as [(_ & _ & I1 & _) _ I2 I3 I4 I5 I6 _ _].
  split_and!; [done| | |done].
  - intros i j Hi Hj Hu _ E. destruct (Z.eq_dec i j) as [|Hne]; [done|]. by destruct (I3 i j Hi Hj Hne (proj2 (I2 i Hi) Hu)).
  - intros i Hi Hu Hne. destruct (I5 i Hi Hu Hne) as [q Hq]. exists q. split; [done|]. by destruct (I4 i q Hi Hq) as (_ & ? & ? & ?).
Qed.

(** The scan of [kill] stops at the first free slot. *)
Lemma kill_scan_unused l : forall s j, (forall i, i ∈ l -> p_pid (procs s i) = 0 <-> p_state (procs s i) = UNUSED) ->
  find_unused (procs s) l = Some j -> exists s1, kill_scan 0 l s = Ok (0, s1) /\ slot_upd s j (with_killed true (procs s j)) (nextpid s) s1.
Proof.
  induction l as [|i l IH]; intros s j Hl; [done|]. cbn [find_unused kill_scan]. unfold procstate_eqb. case_bool_decide as Hu.
  - intros [= ->]. eexists. split.
    + mcomp. rewrite (proj2 (Hl j (list_elem_of_here _ _)) Hu), Hu. cbn [Z.eqb]. mcomp. rewrite bool_decide_eq_false_2 by done. mcomp. done.
    + split; cbn; [by rewrite upd_eq|intros k Hk; by rewrite upd_ne|done|done].
  - intros Hf. destruct (IH s j) as (s1 & H1 & Hs); [intros k Hk; apply Hl; by right|done|]. exists s1. split; [|done].
    mcomp. destruct (Z.eqb_spec (p_pid (procs s i)) 0) as [E|]; [|exact H1]. apply Hl in E; [done|by left].
Qed.

(** [kill(0)] with a free slot in the table, whose pid is 0: it returns 0 as if a process
    had been found, and marks the free slot as killed.  Nothing clears the mark, so that
    the next process that [fork] puts there is killed from the start. *)
Theorem kill_zero_hits_free_slot (s : pst (F := F)) (j : Z)
    (Hpids : forall i, i ∈ upto NPROC -> p_pid (procs s i) = 0 <-> p_state (procs s i) = UNUSED)
    (Hfree : find_unused (procs s) (upto NPROC) = Some j) :
  exists s1, kill 0 s = Ok (0, s1) /\ p_state (procs s1 j) = UNUSED /\ p_killed (procs s1 j) = true /\
    forall me r s2, fork fa me s1 = Ok (r, s2) -> r <> -1 ->
      p_state (procs s2 j) = RUNNABLE /\ p_pid (procs s2 j) = r /\ p_killed (procs s2 j) = true.
Proof.
  destruct (kill_scan_unused _ s j Hpids Hfree) as (s1 & H1 & [E1 E2 E3 E4]). exists s1.
  destruct (find_unused_some _ _ _ Hfree) as [Hj Hu]. split_and!; [done|by rewrite E1|by rewrite E1|]. intros me r s2 Hf Hr.
  assert (find_unused (procs s1) (upto NPROC) = Some j) as Hf1.
  { rewrite <- Hfree. clear -E1 E2. induction (upto NPROC) as [|i l IH]; [done|]. cbn [find_unused]. destruct (Z.eq_dec i j) as [->|Hne].
    - rewrite E1. cbn. by rewrite IH.
    - by rewrite (E2 i Hne), IH. }
  apply fork_slot in Hf as [[-> _]|(i & p & Hi & -> & [S1 _ _ _] & Hk)]; [done|]. rewrite Hf1 in Hi. injection Hi as <-. rewrite S1.
  unfold key in Hk. injection Hk as K1 _ _ K2 K3. by rewrite K1, K2, K3, E1.
Qed.
End Theorems.

(** ** A table with two processes *)

Definition free_proc : proc := Proc UNUSED None 0 false 0 0 0 0 0 0 (Context_ 0 0) (fun _ => 0) 0 [].
Definition init_proc : proc := with_pid 1 (with_state RUNNABLE free_proc).

#[local] Instance no_files : Files unit := {|
  f_dup := fun f => ret f; f_close := fun _ => ret tt; f_idup := fun ip => ret ip; f_iput := fun _ => ret tt; f_root := ret 1;
|}.
Definition demo_table : pst (F := unit) := Pst (upd (fun _ => free_proc) 0 init_proc) (Some 0) 2 (Phys (fun _ => 0) 0 0) tt.

Lemma process_table_safe_witness : exists w : world (F := unit),
  rtc (tstep (L := small_linker) 0 (fun _ => 0) (fun i => i + 1)) (World demo_table (fun _ => Normal)) w /\
  p_state (procs (w_st w) 0) = RUNNING /\ alive (procs (w_st w) 0).
Proof.
  exists (World (Pst (upd (procs demo_table) 0 (with_state RUNNING init_proc)) (Some 0) 2 (Phys (fun _ => 0) 0 0) tt) (fun _ => Normal)).
  assert (rtc (tstep (L := small_linker) 0 (fun _ => 0) (fun i => i + 1)) (World demo_table (fun _ => Normal))
    (World (Pst (upd (procs demo_table) 0 (with_state RUNNING init_proc)) (Some 0) 2 (Phys (fun _ => 0) 0 0) tt) (fun _ => Normal))) as Hr.
  { eapply rtc_l; [|apply rtc_refl]. apply (t_run _ _ _ demo_table _ 0); done. }
  split_and!; [exact Hr|done|].
  apply (process_table_safe (L := small_linker) 0 (fun _ => 0) (fun i => i + 1) demo_table 0 _); [lia| |exact Hr].
  split; [done|done|done|done|intros i Hi; cbn; unfold upd; by destruct (i =? 0)|intros i Hi Hne; cbn; by rewrite upd_ne].
Defined.

Lemma kill_zero_hits_free_slot_witness : exists s1, kill 0 demo_table = Ok (0, s1) /\ p_killed (procs s1 1) = true.
Proof.
  destruct (kill_zero_hits_free_slot (L := small_linker) 0 demo_table 1) as (s1 & H & _ & Hk & _).
  - intros i Hi. cbn. unfold upd. by destruct (i =? 0).
  - reflexivity.
  - exists s1. split; [exact H|exact Hk].
Defined.
