(* ===== verification/FsBalance.v ===== *)
(** * References and locks of inodes

    A small logic for resources.  A token stands for a reference to an entry of the inode
    cache, for the lock of an inode or for an open transaction, and the tokens that exist
    account for the state: [i_ref] is the number of references, a lock is held exactly
    when its token exists, and two entries never cache the same inode.
    [bal k R m Q]: from the tokens [R], and any others, the code [m] returns [r] with the
    tokens [Q r] and the others untouched; a reference that is held keeps naming the same
    inode.  [k] bounds the tokens in hand, for the 32-bit counts. *)

From S2P Require Import Prelude Bytes Riscv Cache Blocks Fs FsSpec FsDir.

Inductive tok := TRef (ip : Z) | TLock (ip : Z) | TOp | TFile (f : Z).

#[export] Instance tok_eq_dec : EqDecision tok.
Proof. solve_decision. Defined.

(** ** Counting tokens *)

Fixpoint cnt (t : tok) (L : list tok) : Z :=
  match L with
  | [] => 0
  | x :: L' => (if decide (x = t) then 1 else 0) + cnt t L'
  end.

Lemma cnt_app t L1 L2 : cnt t (L1 ++ L2) = cnt t L1 + cnt t L2.
Proof. induction L1 as [|x L1 IH]; cbn; [done|]. rewrite IH. lia. Qed.

Lemma cnt_nonneg t L : 0 <= cnt t L.
Proof. induction L as [|x L IH]; cbn; [lia|]. destruct (decide _); lia. Qed.

Lemma cnt_bound t L : cnt t L <= Z.of_nat (length L).
Proof. induction L as [|x L IH]; cbn [cnt length]; [lia|]. destruct (decide _); lia. Qed.

Lemma cnt_elem t L : t ∈ L <-> 0 < cnt t L.
Proof.
  induction L as [|x L IH]; cbn [cnt].
  - split; [intros H; by apply elem_of_nil in H|lia].
  - rewrite elem_of_cons, IH. pose proof (cnt_nonneg t L). destruct (decide (x = t)) as [->|]; [split; [lia|by left]|].
    split; [intros [->|?]; [done|lia]|intros; right; lia].
Qed.

(** Lists with the same tokens. *)
Definition same_toks (L L' : list tok) : Prop := forall t, cnt t L = cnt t L'.

Ltac toks := intros ?t; rewrite ?cnt_app; cbn [cnt app fst snd]; rewrite ?cnt_app; cbn [cnt]; lia.

(** Counts of lists that are known. *)
Ltac cnts := cbn [cnt app]; rewrite ?cnt_app; cbn [cnt app]; repeat first [rewrite decide_True by done | rewrite decide_False by congruence].

(** ** Code that leaves references, locks and transactions alone *)

Section Balance.
Context {S : Type} {K : Blocks S} {KX : Txn S} {KXOk : TxnOk S}.

Definition ident (x : inode) : Z * Z * Z * islock := (i_dev x, i_inum x, i_ref x, i_lock x).

Record same_ids (s s' : @fs S) : Prop := {
  si_id p : ident (f_icache s' p) = ident (f_icache s p);
  si_depth : k_depth (f_blk s') = k_depth (f_blk s);
}.

Lemma same_ids_refl s : same_ids s s.
Proof. done. Qed.

Lemma same_ids_trans s1 s2 s3 : same_ids s1 s2 -> same_ids s2 s3 -> same_ids s1 s3.
Proof. intros [H1 H2] [H3 H4]. split; [intros p; by rewrite H3|congruence]. Qed.

(** [T] is a state with a file system in it. *)
Definition still {T A} (get : T -> @fs S) (m : M T A) : Prop := forall t r t', m t = Ok (r, t') -> same_ids (get t) (get t').

Lemma still_bind {T A B} (get : T -> @fs S) (m : M T A) (k : A -> M T B) : still get m -> (forall r, still get (k r)) -> still get (bind m k).
Proof. intros Hm Hk t r t' H. mrun_inv H. eapply same_ids_trans; [by eapply Hm|by eapply Hk]. Qed.

Lemma still_ret {T A} (get : T -> @fs S) (a : A) : still get (ret a).
Proof. intros t r t' [= <- <-]. apply same_ids_refl. Qed.

Lemma still_gets {T A} (get : T -> @fs S) (f : T -> A) : still get (gets f).
Proof. intros t r t' [= <- <-]. apply same_ids_refl. Qed.

Lemma still_panic {T A} (get : T -> @fs S) msg : still get (@panic T A msg).
Proof. by intros t r t'. Qed.

Lemma still_panic_if {T} (get : T -> @fs S) b msg : still get (@panic_if T b msg).
Proof. destruct b; [apply still_panic|apply still_ret]. Qed.

Lemma still_nofuel {T A} (get : T -> @fs S) : still get (@nofuel T A).
Proof. by intros t r t'. Qed.

Lemma still_mfor {T A} (get : T -> @fs S) (l : list A) f : (forall x, still get (f x)) -> still get (mfor l f).
Proof. intros Hf. induction l as [|x l IH]; cbn [mfor]; [apply still_ret|]. apply still_bind; auto. Qed.

Lemma still_msearch {T A B} (get : T -> @fs S) (l : list A) (f : A -> M T (option B)) : (forall x, still get (f x)) -> still get (msearch l f).
Proof.
  intros Hf. induction l as [|x l IH]; cbn [msearch]; [apply still_ret|]. apply still_bind; [done|]. intros [b|]; [apply still_ret|done].
Qed.

Lemma still_mod_inode ip f : (forall x, ident (f x) = ident x) -> still id (mod_inode (S := S) ip f).
Proof. intros Hf t r t' [= <- <-]. split; [|done]. intros p. cbn. unfold upd. destruct (Z.eqb_spec p ip) as [->|]; [apply Hf|done]. Qed.

Lemma still_blk {A} (m : M S A) : (forall s r s', m s = Ok (r, s') -> k_depth s' = k_depth s) -> still id (blk m).
Proof. intros Hm t r t' (x & H & ->)%zoom_ok_inv. split; [done|]. cbn. by eapply Hm. Qed.

Lemma still_in_fs {T A} (m : M fs A) : still id m -> still (fst (B := T)) (in_fs m).
Proof. intros Hm t r t' (x & H & ->)%zoom_ok_inv. cbn. by apply Hm in H. Qed.

Lemma still_in_mem {T A} (m : M T A) : still fst (in_mem (S := S) m).
Proof. intros t r t' (x & H & ->)%zoom_ok_inv. apply same_ids_refl. Qed.

Lemma still_local {T A} (t0 : T) (m : M (fs * T) A) : still fst m -> still id (local t0 m).
Proof.
  intros Hm s r s'. unfold local. destruct (m (s, t0)) as [[a [s1 t1]]| | |] eqn:E; [|done..]. intros [= <- <-]. by apply Hm in E.
Qed.
End Balance.

Create HintDb still.
#[export] Hint Resolve still_ret still_gets still_panic still_panic_if still_nofuel still_in_mem : still.

(** Decompose the code. *)
Ltac still := repeat first
  [ solve [eauto with still]
  | apply still_bind; [|intros ?r]
  | apply still_mfor; intros ?x
  | apply still_msearch; intros ?x
  | apply still_mod_inode; intros ?x; reflexivity
  | apply still_in_fs
  | apply still_local
  | progress cbn beta iota zeta
  | match goal with
    | |- still _ (if ?b then _ else _) => destruct b
    | |- still _ (match ?o with Some _ => _ | None => _ end) => destruct o
    | |- still _ (let (_, _) := ?p in _) => destruct p
    end ].

Section StillFs.
Context {S : Type} {K : Blocks S} {KX : Txn S} {KXOk : TxnOk S}.

Lemma still_bread dev b : still id (blk (S := S) (k_bread dev b)).
Proof. apply still_blk. intros *. apply k_bread_depth. Qed.
Lemma still_set i d : still id (blk (S := S) (k_set i d)).
Proof. apply still_blk. intros *. apply k_set_depth. Qed.
Lemma still_log i : still id (blk (S := S) (k_log_write i)).
Proof. apply still_blk. intros *. apply k_log_depth. Qed.
Lemma still_brelse i : still id (blk (S := S) (k_brelse i)).
Proof. apply still_blk. intros *. apply k_brelse_depth. Qed.
Lemma still_data i : still id (data (S := S) i).
Proof. apply still_blk. by intros s r s' [= <- <-]. Qed.
Lemma still_get_inode ip : still id (get_inode (S := S) ip).
Proof. apply still_gets. Qed.
Lemma still_mod_di ip f : still id (mod_di (S := S) ip f).
Proof. by apply still_mod_inode. Qed.
Hint Resolve still_bread still_set still_log still_brelse still_data still_get_inode still_mod_di : still.

Lemma still_balloc dev : still id (balloc (S := S) dev).
Proof. unfold balloc, bzero. still. Qed.
Lemma still_bfree dev b : still id (bfree (S := S) dev b).
Proof. unfold bfree. still. Qed.
Lemma still_iupdate ip : still id (iupdate (S := S) ip).
Proof. unfold iupdate. still. Qed.
Hint Resolve still_balloc still_bfree still_iupdate : still.

Lemma still_bmap ip bn : still id (bmap (S := S) ip bn).
Proof. unfold bmap. still. Qed.
Lemma still_itrunc ip : still id (itrunc (S := S) ip).
Proof. unfold itrunc. still. Qed.
Lemma still_stati ip : still id (stati (S := S) ip).
Proof. unfold stati. still. Qed.
Hint Resolve still_bmap still_itrunc : still.

Lemma still_readi_loop {T} (out : Z -> list Z -> M T Z) ip fuel : forall dst off n tot, still fst (readi_loop (S := S) out fuel ip dst off n tot).
Proof. induction fuel as [|fuel IH]; intros; cbn [readi_loop]; still. Qed.
Lemma still_writei_loop {T} (inp : list Z -> Z -> M T (Z * list Z)) ip fuel : forall src off n tot, still fst (writei_loop (S := S) inp fuel ip src off n tot).
Proof. induction fuel as [|fuel IH]; intros; cbn [writei_loop]; still. Qed.
Hint Resolve still_readi_loop still_writei_loop : still.

Lemma still_readi {T} (out : Z -> list Z -> M T Z) ip dst off n : still fst (readi (S := S) out ip dst off n).
Proof. unfold readi. still. Qed.
Lemma still_writei {T} (inp : list Z -> Z -> M T (Z * list Z)) ip src off n : still fst (writei (S := S) inp ip src off n).
Proof. unfold writei. still. Qed.
Hint Resolve still_readi still_writei : still.

Lemma still_read_dirent dp off msg : still id (read_dirent (S := S) dp off msg).
Proof. unfold read_dirent. still. Qed.
Hint Resolve still_read_dirent : still.
Lemma still_free_dirent dp : still id (free_dirent (S := S) dp).
Proof. unfold free_dirent. still. Qed.
End StillFs.

#[export] Hint Resolve still_bread still_set still_log still_brelse still_data still_get_inode still_mod_di still_balloc still_bfree
  still_iupdate still_bmap still_itrunc still_stati still_readi still_writei still_read_dirent still_free_dirent : still.

(** ** The accounting *)

Section Tokens.
Context {S : Type} {K : Blocks S} {KX : Txn S} {KXOk : TxnOk S}.

Record accounts (s : @fs S) (L : list tok) : Prop := {
  ac_ref p : p ∈ icache_ptrs -> i_ref (f_icache s p) = cnt (TRef p) L;
  ac_lock p : p ∈ icache_ptrs -> cnt (TLock p) L = if il_locked (i_lock (f_icache s p)) then 1 else 0;
  ac_ptr p : p ∉ icache_ptrs -> cnt (TRef p) L = 0 /\ cnt (TLock p) L = 0;
  ac_one p q dev inum : p ∈ icache_ptrs -> q ∈ icache_ptrs -> cached (f_icache s p) dev inum -> cached (f_icache s q) dev inum -> p = q;
  ac_op : k_depth (f_blk s) = cnt TOp L;
}.

(** References in [E] keep their inodes. *)
Definition same_names (E : list tok) (s s' : @fs S) : Prop :=
  forall p, TRef p ∈ E -> i_dev (f_icache s' p) = i_dev (f_icache s p) /\ i_inum (f_icache s' p) = i_inum (f_icache s p).

Definition limit : Z := 2 ^ 31 - 100.

Definition bal {A} (k : nat) (R : list tok) (m : M (@fs S) A) (Q : A -> list tok) : Prop :=
  forall E s r s', accounts s (R ++ E) -> Z.of_nat (length E) + Z.of_nat k < limit -> m s = Ok (r, s') ->
    accounts s' (Q r ++ E) /\ same_names E s s'.

Lemma accounts_same s L L' : accounts s L -> same_toks L L' -> accounts s L'.
Proof. intros [H1 H2 H3 H4 H5] E. split; [intros p; rewrite <- ?E; auto..|exact H4|by rewrite <- E]. Qed.

Lemma accounts_still s s' L : accounts s L -> same_ids s s' -> accounts s' L.
Proof.
  intros [H1 H2 H3 H4 H5] [E1 E2]. split.
  - intros p Hp. pose proof (E1 p) as E. unfold ident in E. injection E as _ _ -> _. auto.
  - intros p Hp. pose proof (E1 p) as E. unfold ident in E. injection E as _ _ _ ->. auto.
  - done.
  - intros p q dev inum Hp Hq. pose proof (E1 p) as Ep. pose proof (E1 q) as Eq. unfold ident in Ep, Eq.
    injection Ep as P1 P2 P3 _. injection Eq as Q1 Q2 Q3 _. unfold cached. rewrite P1, P2, P3, Q1, Q2, Q3. by apply H4.
  - congruence.
Qed.

Lemma same_names_still E s s' : same_ids s s' -> same_names E s s'.
Proof. intros [E1 _] p _. pose proof (E1 p) as Ep. unfold ident in Ep. by injection Ep as -> -> _ _. Qed.

Lemma same_names_trans E s1 s2 s3 : same_names E s1 s2 -> same_names E s2 s3 -> same_names E s1 s3.
Proof. intros H1 H2 p Hp. destruct (H1 p Hp) as [<- <-]. by apply H2. Qed.

Lemma bal_still {A} k R (m : M fs A) : still id m -> bal k R m (fun _ => R).
Proof. intros Hm E s r s' Ha _ H. apply Hm in H. split; [by eapply accounts_still|by apply same_names_still]. Qed.

Lemma bal_ret {A} k (a : A) (Q : A -> list tok) L : same_toks L (Q a) -> bal k L (ret a) Q.
Proof.
  intros Hs E s r s' Ha _ [-> ->]%ret_inv. split; [|done]. eapply accounts_same; [exact Ha|]. intros t. rewrite !cnt_app. by rewrite Hs.
Qed.

Lemma bal_panic {A} k L msg (Q : A -> list tok) : bal k L (panic msg) Q.
Proof. by intros E s r s' _ _ H. Qed.

Lemma bal_nofuel {A} k L (Q : A -> list tok) : bal k L nofuel Q.
Proof. by intros E s r s' _ _ H. Qed.

(** A command that uses the tokens [R] of [R ++ F]. *)
Lemma bal_bind {A B} k k' R F L (m : M fs A) Q (c : A -> M fs B) P :
  bal k' R m Q -> same_toks L (R ++ F) -> (k' + length F <= k)%nat -> (forall r, bal k (Q r ++ F) (c r) P) -> bal k L (bind m c) P.
Proof.
  intros Hm Hs Hk Hc E s r s' Ha Hl H. apply bind_ok_inv in H as (a & s1 & H1 & H2).
  destruct (Hm (F ++ E) s a s1) as [Ha1 Hn1]; [| |done|].
  - eapply accounts_same; [exact Ha|]. intros t. rewrite !cnt_app, Hs, cnt_app. lia.
  - rewrite length_app. lia.
  - destruct (Hc a E s1 r s') as [Ha2 Hn2]; [by rewrite <- app_assoc|done|done|]. split; [done|].
    eapply same_names_trans; [|exact Hn2]. intros p Hp. apply Hn1, elem_of_app. by right.
Qed.

Lemma bal_still_bind {A B} k L (m : M fs A) (c : A -> M fs B) P : still id m -> (forall r, bal k L (c r) P) -> bal k L (bind m c) P.
Proof.
  intros Hm Hc. apply (bal_bind k k L [] L m (fun _ => L)); [by apply bal_still|toks|cbn; lia|]. intros r. rewrite app_nil_r. apply Hc.
Qed.

Lemma bal_frame {A} k k' R F (m : M fs A) Q : bal k' R m Q -> (k' + length F <= k)%nat -> bal k (R ++ F) m (fun r => Q r ++ F).
Proof.
  intros Hm Hk E s r s' Ha Hl H. rewrite <- app_assoc in *. destruct (Hm (F ++ E) s r s' Ha) as [Ha' Hn]; [rewrite length_app; lia|done|].
  split; [done|]. intros p Hp. apply Hn, elem_of_app. by right.
Qed.

Lemma bal_weaken {A} k k' R (m : M fs A) Q : bal k R m Q -> (k <= k')%nat -> bal k' R m Q.
Proof. intros Hm Hk E s r s' Ha Hl. apply Hm; [done|lia]. Qed.

Lemma bal_conseq {A} k R R' (m : M fs A) Q Q' : bal k R' m Q' -> same_toks R R' -> (forall r, same_toks (Q' r) (Q r)) -> bal k R m Q.
Proof.
  intros Hm HR HQ E s r s' Ha Hl H. destruct (Hm E s r s') as [Ha' Hn]; [|done|done|].
  - eapply accounts_same; [exact Ha|]. intros t. by rewrite !cnt_app, HR.
  - split; [|done]. eapply accounts_same; [exact Ha'|]. intros t. by rewrite !cnt_app, HQ.
Qed.

(** ** The operations of the cache *)

(** An update of one entry that keeps the names of the references in [E]. *)
Lemma accounts_upd sb ic x R R' E p ino : accounts (Fs sb ic x) (R ++ E) ->
  p ∈ icache_ptrs ->
  (forall q, q <> p -> cnt (TRef q) R' = cnt (TRef q) R /\ cnt (TLock q) R' = cnt (TLock q) R) -> cnt TOp R' = cnt TOp R ->
  i_ref ino = cnt (TRef p) (R' ++ E) -> cnt (TLock p) (R' ++ E) = (if il_locked (i_lock ino) then 1 else 0) ->
  (i_dev ino = i_dev (ic p) /\ i_inum ino = i_inum (ic p) /\ (0 < i_ref ino -> 0 < i_ref (ic p)) \/
   i_ref (ic p) = 0 /\ forall q, q ∈ icache_ptrs -> ~ cached (ic q) (i_dev ino) (i_inum ino)) ->
  accounts (Fs sb (upd ic p ino) x) (R' ++ E) /\ same_names E (Fs sb ic x) (Fs sb (upd ic p ino) x).
Proof.
  intros [H1 H2 H3 H4 H5] Hp Hq Hop Hr Hl Hn. cbn in *. split; [split; cbn|].
  - intros q Hqp. unfold upd. destruct (Z.eqb_spec q p) as [->|Hne]; [done|]. rewrite H1 by done. rewrite !cnt_app. by rewrite (proj1 (Hq q Hne)).
  - intros q Hqp. unfold upd. destruct (Z.eqb_spec q p) as [->|Hne]; [done|]. rewrite <- H2 by done. rewrite !cnt_app. by rewrite (proj2 (Hq q Hne)).
  - intros q Hqp. assert (q <> p) as Hne by (by intros ->). destruct (Hq q Hne) as [E1 E2], (H3 q Hqp) as [E3 E4].
    rewrite !cnt_app in *. lia.
  - assert (forall q dev inum, q ∈ icache_ptrs -> q <> p -> cached ino dev inum -> cached (ic q) dev inum -> False) as Hx.
    { intros q dev inum Hqp Hne (A1 & A2 & A3) Hc. destruct Hn as [(E1 & E2 & E3)|[_ Hn]].
      - apply Hne. apply (H4 q p dev inum Hqp Hp Hc). split_and!; [auto|congruence|congruence].
      - apply (Hn q Hqp). by rewrite A2, A3. }
    intros q q' dev inum Hqp Hqp'. unfold upd. destruct (Z.eqb_spec q p) as [->|Hne], (Z.eqb_spec q' p) as [->|Hne']; [done| | |by apply H4].
    + intros C1 C2. by destruct (Hx q' dev inum).
    + intros C1 C2. by destruct (Hx q dev inum).
  - rewrite H5, !cnt_app. lia.
  - intros q Hqe. cbn. unfold upd. destruct (Z.eqb_spec q p) as [->|]; [|done]. destruct Hn as [(E1 & E2 & _)|[E0 _]]; [done|].
    apply cnt_elem in Hqe. pose proof (H1 p Hp) as E1. rewrite cnt_app in E1. pose proof (cnt_nonneg (TRef p) R). lia.
Qed.

Lemma accounts_ref s L p : accounts s L -> 0 < cnt (TRef p) L -> p ∈ icache_ptrs.
Proof. intros Ha Hc. destruct (decide (p ∈ icache_ptrs)) as [|Hn]; [done|]. destruct (ac_ptr _ _ Ha p Hn). lia. Qed.


Lemma bal_iget k dev inum : bal k [] (iget (S := S) dev inum) (fun ip => [TRef ip]).
Proof.
  intros E [sb ic x] r s' Ha Hl H. destruct (iget_run dev inum (Fs sb ic x)) as [[_ Hp]|(ip & ic' & Hi & Hg)]; [by rewrite Hp in H|].
  rewrite Hi in H. injection H as -> <-. cbn [f_sb f_icache f_blk app] in *.
  assert (accounts (Fs sb (upd ic r (ic' r)) x) ([TRef r] ++ E) /\ same_names E (Fs sb ic x) (Fs sb (upd ic r (ic' r)) x)) as [H1 H2].
  { pose proof (ac_ref _ _ Ha r (got_ptr _ _ _ _ _ Hg)) as Er. pose proof (ac_lock _ _ Ha r (got_ptr _ _ _ _ _ Hg)) as El. cbn [f_icache] in Er, El.
    pose proof (cnt_bound (TRef r) E) as Hb. pose proof (cnt_nonneg (TRef r) E). unfold limit in Hl.
    apply (accounts_upd sb ic x [] [TRef r] E r (ic' r) Ha (got_ptr _ _ _ _ _ Hg)).
    - intros q Hq. cnts. done.
    - by cnts.
    - cnts. destruct (got_entry _ _ _ _ _ Hg) as [[_ ->]|(E0 & _ & ->)]; cbn [i_ref set_ref]; [rewrite i32_small by lia; lia|lia].
    - cnts. rewrite El. by destruct (got_entry _ _ _ _ _ Hg) as [[_ ->]|(E0 & _ & ->)].
    - destruct (got_entry _ _ _ _ _ Hg) as [[Hc ->]|(E0 & Hn & ->)]; [left|right]; cbn; [split_and!; [done|done|intros _; apply Hc]|done]. }
  assert (forall p, upd ic r (ic' r) p = ic' p) as Hs.
  { intros p. unfold upd. destruct (Z.eqb_spec p r) as [->|Hne]; [done|]. by rewrite (got_frame _ _ _ _ _ Hg). }
  split.
  - eapply accounts_still; [exact H1|]. split; [intros p; cbn; by rewrite Hs|done].
  - intros p Hp. destruct (H2 p Hp) as [E1 E2]. cbn in E1, E2 |- *. by rewrite <- Hs.
Qed.

(** A change of the number of transactions. *)
Lemma accounts_op s s' R R' E : accounts s (R ++ E) -> f_icache s' = f_icache s ->
  (forall p, cnt (TRef p) R' = cnt (TRef p) R /\ cnt (TLock p) R' = cnt (TLock p) R) ->
  k_depth (f_blk s') - k_depth (f_blk s) = cnt TOp R' - cnt TOp R -> accounts s' (R' ++ E) /\ same_names E s s'.
Proof.
  intros [A1 A2 A3 A4 A5] Ei Hc Hd. split; [|intros p _; by rewrite Ei]. split; rewrite ?Ei.
  - intros p Hp. rewrite A1 by done. rewrite !cnt_app. by rewrite (proj1 (Hc p)).
  - intros p Hp. rewrite <- A2 by done. rewrite !cnt_app. by rewrite (proj2 (Hc p)).
  - intros p Hp. destruct (A3 p Hp) as [E1 E2], (Hc p) as [E3 E4]. rewrite !cnt_app in *. lia.
  - done.
  - rewrite cnt_app in *. lia.
Qed.

Lemma bal_idup k ip : bal k [TRef ip] (idup (S := S) ip) (fun r => [TRef ip; TRef r]).
Proof.
  intros E [sb ic x] r s' Ha Hl H. apply bind_ok_inv in H as ([] & s1 & [= <-] & [-> ->]%ret_inv). cbn [f_sb f_icache f_blk] in *.
  assert (ip ∈ icache_ptrs) as Hp by (eapply accounts_ref; [exact Ha|]; cnts; pose proof (cnt_nonneg (TRef ip) E); lia).
  pose proof (ac_ref _ _ Ha ip Hp) as Er. pose proof (ac_lock _ _ Ha ip Hp) as El. cbn [f_icache] in Er, El.
  pose proof (cnt_bound (TRef ip) E). pose proof (cnt_nonneg (TRef ip) E). unfold limit in Hl. revert Er El. cnts. intros Er El.
  apply (accounts_upd sb ic x [TRef ip] [TRef ip; TRef ip] E ip); [done|done|intros q Hq; by cnts|by cnts| | |left; split_and!; [done|done|intros _; lia]].
  - cnts. cbn [i_ref set_ref]. rewrite i32_small by lia. lia.
  - cnts. exact El.
Qed.

(** [ref--] *)
Lemma bal_drop k ip : bal k [TRef ip] (mod_inode (S := S) ip (fun x => set_ref (i32 (i_ref x - 1)) x)) (fun _ => []).
Proof.
  intros E [sb ic x] [] s' Ha Hl [= <-]. cbn [f_sb f_icache f_blk] in *.
  assert (ip ∈ icache_ptrs) as Hp by (eapply accounts_ref; [exact Ha|]; cnts; pose proof (cnt_nonneg (TRef ip) E); lia).
  pose proof (ac_ref _ _ Ha ip Hp) as Er. pose proof (ac_lock _ _ Ha ip Hp) as El. cbn [f_icache] in Er, El.
  pose proof (cnt_bound (TRef ip) E). pose proof (cnt_nonneg (TRef ip) E). unfold limit in Hl. revert Er El. cnts. intros Er El.
  apply (accounts_upd sb ic x [TRef ip] [] E ip); [done|done|intros q Hq; by cnts|by cnts| | |left; split_and!; [done|done|intros _; lia]].
  - cnts. cbn [i_ref set_ref]. rewrite i32_small by lia. lia.
  - cnts. exact El.
Qed.

Lemma bal_lock_inode k me ip : bal k [TRef ip] (lock_inode (S := S) me ip) (fun _ => [TRef ip; TLock ip]).
Proof.
  intros E [sb ic x] [] s' Ha Hl H. apply bind_ok_inv in H as (y & s1 & [-> ->]%gets_inv & H). cbn [f_icache] in H.
  destruct (il_locked _) eqn:Elk; [done|]. injection H as <-. cbn [f_sb f_icache f_blk] in *.
  assert (ip ∈ icache_ptrs) as Hp by (eapply accounts_ref; [exact Ha|]; cnts; pose proof (cnt_nonneg (TRef ip) E); lia).
  pose proof (ac_ref _ _ Ha ip Hp) as Er. pose proof (ac_lock _ _ Ha ip Hp) as El. cbn [f_icache] in Er, El. rewrite Elk in El.
  revert Er El. cnts. intros Er El.
  apply (accounts_upd sb ic x [TRef ip] [TRef ip; TLock ip] E ip); [done|done|intros q Hq; by cnts|by cnts| | |left; by split_and!].
  - cnts. cbn [i_ref set_lock]. lia.
  - cnts. cbn [i_lock set_lock il_locked]. lia.
Qed.

Lemma accounts_lock s L p : accounts s L -> 0 < cnt (TLock p) L -> p ∈ icache_ptrs.
Proof. intros Ha Hc. destruct (decide (p ∈ icache_ptrs)) as [|Hn]; [done|]. destruct (ac_ptr _ _ Ha p Hn). lia. Qed.

Lemma bal_unlock_inode k ip : bal k [TLock ip] (unlock_inode (S := S) ip) (fun _ => []).
Proof.
  intros E [sb ic x] [] s' Ha Hl [= <-]. cbn [f_sb f_icache f_blk] in *.
  assert (ip ∈ icache_ptrs) as Hp by (eapply accounts_lock; [exact Ha|]; cnts; pose proof (cnt_nonneg (TLock ip) E); lia).
  pose proof (ac_ref _ _ Ha ip Hp) as Er. pose proof (ac_lock _ _ Ha ip Hp) as El. cbn [f_icache] in Er, El.
  pose proof (cnt_nonneg (TLock ip) E). revert Er El. cnts. intros Er El.
  apply (accounts_upd sb ic x [TLock ip] [] E ip); [done|done|intros q Hq; by cnts|by cnts| | |left; by split_and!].
  - cnts. cbn [i_ref set_lock]. lia.
  - cnts. cbn [i_lock set_lock il_locked]. destruct (il_locked _) in El; lia.
Qed.
End Tokens.

(** Remove the tokens [R] from the list [L]. *)
Ltac take_tok t L := match L with
  | t :: ?L' => L'
  | ?x :: ?L' => let r := take_tok t L' in constr:(x :: r)
  end.
Ltac take_toks R L := match R with
  | [] => L
  | ?t :: ?R' => let L' := take_tok t L in take_toks R' L'
  end.

(** [bal_use H]: the first command of the goal by [H], with the tokens it needs. *)
Ltac bal_use H :=
  match goal with
  | |- bal ?k ?L (bind _ _) _ =>
      lazymatch type of H with
      | bal ?k' ?R _ _ => let F := take_toks R L in apply (bal_bind k k' R F L _ _ _ _ H); [toks|cbn [length]; lia|intros ?r; cbn [app]]
      end
  end.
Ltac bal_end := apply bal_ret; first [done | toks].
Ltac bal_quiet := match goal with
  | |- bal ?k ?L (bind _ _) _ => apply bal_still_bind; [solve [still]|intros ?r]
  end.

Section Ops.
Context {S : Type} {K : Blocks S} {KX : Txn S} {KXOk : TxnOk S} (me : Z).

Lemma bal_ilock ip : bal 1 [TRef ip] (ilock (S := S) me ip) (fun _ => [TRef ip; TLock ip]).
Proof.
  unfold ilock. bal_quiet. bal_quiet. bal_use (bal_lock_inode 1 me ip).
  apply bal_still. still.
Qed.

Lemma bal_iunlock ip : bal 1 [TLock ip] (iunlock (S := S) me ip) (fun _ => []).
Proof. unfold iunlock. bal_quiet. bal_quiet. apply bal_unlock_inode. Qed.

Lemma bal_iput ip : bal 2 [TRef ip] (iput (S := S) me ip) (fun _ => []).
Proof.
  unfold iput. bal_quiet. apply (bal_bind 2 2 [TRef ip] [] _ _ (fun _ => [TRef ip])); [|toks|cbn; lia|intros []; apply (bal_drop 2 ip)].
  destruct (_ && _ && _); [|bal_end].
  bal_use (bal_lock_inode 1 me ip). do 4 bal_quiet.
  apply (bal_conseq 2 _ ([TLock ip] ++ [TRef ip]) _ _ (fun _ => [] ++ [TRef ip])); [|toks|intros r'; toks]. apply (bal_frame 2 0); [apply bal_unlock_inode|cbn; lia].
Qed.

Lemma bal_iunlockput ip : bal 3 [TRef ip; TLock ip] (iunlockput (S := S) me ip) (fun _ => []).
Proof. unfold iunlockput. bal_use (bal_iunlock ip). apply (bal_weaken 2); [apply bal_iput|lia]. Qed.

(** A token tells that its pointer is not null. *)
Lemma bal_nz {A} k L ip (m : M fs A) Q : TRef ip ∈ L -> (ip <> 0 -> bal k L m Q) -> bal k L m Q.
Proof.
  intros Hin Hm E s r s' Ha Hl H. apply (Hm ltac:(intros ->; apply cnt_elem in Hin; pose proof (accounts_ref s _ 0 Ha) as H0;
    rewrite cnt_app in H0; pose proof (cnt_nonneg (TRef 0) E); specialize (H0 ltac:(lia)); apply elem_of_icache_ptrs in H0; lia) E s r s' Ha Hl H).
Qed.

(** The token of a pointer that may be null. *)
Definition ref_of (ip : Z) : list tok := if ip =? 0 then [] else [TRef ip].

Lemma ref_of_nz ip : ip <> 0 -> ref_of ip = [TRef ip].
Proof. intros H. unfold ref_of. by rewrite (proj2 (Z.eqb_neq _ _) H). Qed.

(** The end of a function that returns a reference. *)
Lemma bal_return {A} k ip (a : A) (Q : A -> list tok) : Q a = ref_of ip -> bal k [TRef ip] (ret (S := @fs S) a) Q.
Proof. intros E. apply (bal_nz k _ ip); [by left|]. intros Hnz. apply bal_ret. by rewrite E, ref_of_nz by done. Qed.

Lemma bal_msearch {A B} k (l : list A) (f : A -> M (@fs S) (option B)) (Q : B -> list tok) :
  (forall x, bal k [] (f x) (fun o => match o with Some b => Q b | None => [] end)) ->
  bal k [] (msearch l f) (fun o => match o with Some b => Q b | None => [] end).
Proof.
  intros Hf. induction l as [|x l IH]; cbn [msearch]; [bal_end|]. bal_use (Hf x). rewrite app_nil_r.
  destruct r as [b|]; [bal_end|exact IH].
Qed.

(** A search first. *)
Lemma bal_search {A B C} k (l : list A) (f : A -> M (@fs S) (option B)) (Q : B -> list tok) (c : option B -> M (@fs S) C) P :
  (forall x, bal k [] (f x) (fun o => match o with Some b => Q b | None => [] end)) ->
  (forall o, bal k (match o with Some b => Q b | None => [] end) (c o) P) -> bal k [] (bind (msearch l f) c) P.
Proof.
  intros Hf Hc. apply (bal_bind k k [] [] _ _ (fun o => match o with Some b => Q b | None => [] end)); [by apply bal_msearch|toks|cbn; lia|].
  intros o. rewrite app_nil_r. apply Hc.
Qed.

Lemma bal_ialloc dev type : bal 1 [] (ialloc (S := S) dev type) ref_of.
Proof.
  unfold ialloc. bal_quiet. apply (bal_search 1 _ _ (fun ip => [TRef ip])).
  - intros inum. do 2 bal_quiet. destruct (_ =? 0).
    + do 3 bal_quiet. bal_use (bal_iget 1 dev inum). bal_end.
    + bal_quiet. bal_end.
  - intros [ip|]; [by apply (bal_return 1 ip)|apply bal_panic].
Qed.

Lemma bal_dirlookup dp name : bal 1 [] (dirlookup (S := S) dp name) (fun r => ref_of (fst r)).
Proof.
  unfold dirlookup. do 2 bal_quiet. apply (bal_search 1 _ _ (fun r => [TRef (fst r)])).
  - intros off. bal_quiet. destruct (_ =? 0); [bal_end|]. destruct (_ =? 0); [|bal_end].
    bal_use (bal_iget 1 (i_dev r) (de_inum r1)). bal_end.
  - intros [[ip off]|]; [by apply (bal_return 1 ip)|bal_end].
Qed.

Lemma bal_dirlink dp name inum : bal 3 [] (dirlink (S := S) me dp name inum) (fun _ => []).
Proof.
  unfold dirlink. bal_use (bal_dirlookup dp name). rewrite app_nil_r. unfold ref_of. destruct (Z.eqb_spec (fst r) 0); cbn [negb].
  - bal_quiet. apply bal_still. still.
  - bal_use (bal_iput (fst r)). bal_end.
Qed.

(** [namex] keeps exactly the reference that it returns. *)
Lemma bal_namex_loop fuel : forall ip path np name, bal 5 [TRef ip] (namex_loop (S := S) me fuel ip path np name) (fun r => ref_of (fst r)).
Proof.
  induction fuel as [|fuel IH]; intros ip path np name; cbn [namex_loop]; destruct (skipelem path name) as [[path' name']|].
  - apply bal_nofuel.
  - destruct np; [bal_use (bal_iput ip); bal_end|by apply (bal_return _ ip)].
  - bal_use (bal_ilock ip). bal_quiet. destruct (negb _); [bal_use (bal_iunlockput ip); bal_end|].
    destruct (_ && _).
    { bal_use (bal_iunlock ip). by apply (bal_return _ ip). }
    bal_use (bal_dirlookup ip name'). unfold ref_of. destruct (Z.eqb_spec (fst r1) 0); cbn [app].
    + bal_use (bal_iunlockput ip). bal_end.
    + bal_use (bal_iunlockput ip). apply IH.
  - destruct np; [bal_use (bal_iput ip); bal_end|by apply (bal_return _ ip)].
Qed.

Lemma bal_namex cwd path np name : bal 7 [TRef cwd] (namex (S := S) me cwd path np name) (fun r => TRef cwd :: ref_of (fst r)).
Proof.
  unfold namex. apply (bal_bind 7 5 [TRef cwd] [] _ _ (fun ip => [TRef ip; TRef cwd])); [|toks|cbn; lia|].
  - case_bool_decide.
    + apply (bal_frame 5 0 [] [TRef cwd] _ (fun ip => [TRef ip])); [apply bal_iget|cbn; lia].
    + apply (bal_conseq 5 _ [TRef cwd] _ _ (fun ip => [TRef cwd; TRef ip])); [apply bal_idup|toks|intros r; toks].
  - intros ip. cbn [app]. apply (bal_conseq 7 _ ([TRef ip] ++ [TRef cwd]) _ _ (fun r => ref_of (fst r) ++ [TRef cwd])); [|toks|intros r; toks].
    apply (bal_frame 7 5); [apply bal_namex_loop|cbn; lia].
Qed.

Lemma bal_namei cwd path : bal 7 [TRef cwd] (namei (S := S) me cwd path) (fun ip => TRef cwd :: ref_of ip).
Proof. unfold namei. bal_use (bal_namex cwd path false (replicate (Z.to_nat DIRSIZ) 0)). rewrite app_nil_r. bal_end. Qed.
End Ops.
