(* ===== verification/File.v ===== *)
(** * Open files, [kernel/file.c], and the rest of [kernel/pipe.c]

    The state of the kernel as a system call of one process sees it: the file system, the
    memory of the process, the table of open files, the pipes, the devices and the fields
    of the process that files need.  A pointer to an entry of [ftable.file] is its index
    counted from 1, 0 is the null pointer, and a pipe is known by the address of its page.
    A call that has to wait for another process ends in [Blocked].

    [Sysfile] has the system calls, [Balance] the theorems. *)

From S2P Require Import Prelude Bytes Riscv Cache Blocks Fs UserIO Pipe.

(** [kalloc] and [kfree]. *)
Class Pages (U : Type) := {
  pg_alloc : M U Z;
  pg_free : Z -> M U unit;
}.

Inductive fdtype := FD_NONE | FD_PIPE | FD_INODE | FD_DEVICE.

Record file := File_ {
  fl_type : fdtype; fl_ref : Z; fl_readable : bool; fl_writable : bool;
  fl_pipe : Z; fl_ip : Z; fl_off : Z; fl_major : Z;
}.

Definition set_fref v (f : file) := File_ (fl_type f) v (fl_readable f) (fl_writable f) (fl_pipe f) (fl_ip f) (fl_off f) (fl_major f).
Definition set_ftype v (f : file) := File_ v (fl_ref f) (fl_readable f) (fl_writable f) (fl_pipe f) (fl_ip f) (fl_off f) (fl_major f).
Definition set_foff v (f : file) := File_ (fl_type f) (fl_ref f) (fl_readable f) (fl_writable f) (fl_pipe f) (fl_ip f) v (fl_major f).

(** The running process: [pid], [killed], [sz], [cwd], [ofile], and [a0] to [a5] of its
    trapframe. *)
Record cproc := CProc { c_pid : Z; c_killed : bool; c_sz : Z; c_cwd : Z; c_ofile : Z -> Z; c_arg : Z -> Z }.

Definition set_cwd v (p : cproc) := CProc (c_pid p) (c_killed p) (c_sz p) v (c_ofile p) (c_arg p).
Definition set_ofile fd v (p : cproc) := CProc (c_pid p) (c_killed p) (c_sz p) (c_cwd p) (upd (c_ofile p) fd v) (c_arg p).

(** [CONSOLE] and the size of [struct stat]. *)
Definition CONSOLE : Z := 1.

(** [struct stat] in memory; [pad] are the four bytes before [size]. *)
Definition stat_bytes (pad : list Z) (st : stat) : list Z :=
  le_put 4 (st_dev st) ++ le_put 4 (st_ino st) ++ le_put 2 (st_type st) ++ le_put 2 (st_nlink st) ++ pad ++ le_put 8 (st_size st).

Section File.
Context {S : Type} {K : Blocks S} {TX : Txn S} {U : Type} {UM : UserMem U} {PG : Pages U} {D : Type}.

(** [devsw]: a device copies to or from the memory of the process. *)
Context (dev_read dev_write : Z -> option (Z -> Z -> M (U * D) Z)).

(** Memory that [filestat] does not set. *)
Context (stack_pad : list Z).

Record kst := KSt {
  ks_fs : fs (S := S); ks_user : U; ks_file : Z -> file; ks_proc : cproc;
  ks_pipe : Z -> pipe; ks_woken : list (Z * pchan); ks_dev : D;
}.

Definition kfs {A} (m : M fs A) : M kst A :=
  zoom ks_fs (fun x s => KSt x (ks_user s) (ks_file s) (ks_proc s) (ks_pipe s) (ks_woken s) (ks_dev s)) m.
Definition kuser {A} (m : M U A) : M kst A :=
  zoom ks_user (fun x s => KSt (ks_fs s) x (ks_file s) (ks_proc s) (ks_pipe s) (ks_woken s) (ks_dev s)) m.
Definition kfsu {A} (m : M (fs * U) A) : M kst A :=
  zoom (fun s => (ks_fs s, ks_user s))
    (fun x s => KSt (fst x) (snd x) (ks_file s) (ks_proc s) (ks_pipe s) (ks_woken s) (ks_dev s)) m.
Definition kdev {A} (m : M (U * D) A) : M kst A :=
  zoom (fun s => (ks_user s, ks_dev s))
    (fun x s => KSt (ks_fs s) (fst x) (ks_file s) (ks_proc s) (ks_pipe s) (ks_woken s) (snd x)) m.
Definition get_file (f : Z) : M kst file := gets (fun s => ks_file s f).
Definition mod_file (f : Z) (g : file -> file) : M kst unit :=
  modify (fun s => KSt (ks_fs s) (ks_user s) (upd (ks_file s) f (g (ks_file s f))) (ks_proc s) (ks_pipe s) (ks_woken s) (ks_dev s)).
Definition myproc : M kst cproc := gets ks_proc.
Definition mod_myproc (g : cproc -> cproc) : M kst unit :=
  modify (fun s => KSt (ks_fs s) (ks_user s) (ks_file s) (g (ks_proc s)) (ks_pipe s) (ks_woken s) (ks_dev s)).

(** Calls of [fs.c] and [log.c] by the process. *)
Definition kbegin_op : M kst unit := kfs (blk k_begin_op).
Definition kend_op : M kst unit := kfs (blk k_end_op).
Definition kilock (ip : Z) : M kst unit := let! p := myproc in kfs (ilock (c_pid p) ip).
Definition kiunlock (ip : Z) : M kst unit := let! p := myproc in kfs (iunlock (c_pid p) ip).
Definition kiput (ip : Z) : M kst unit := let! p := myproc in kfs (iput (c_pid p) ip).
Definition kiunlockput (ip : Z) : M kst unit := let! p := myproc in kfs (iunlockput (c_pid p) ip).

Definition file_ptrs : list Z := (fun i => i + 1) <$> upto NFILE.

(** [ftable.lock] is a lock of this model's atomic steps. *)
Definition fileinit : M kst unit := ret tt.

Fixpoint find_file (ft : Z -> file) (l : list Z) : option Z :=
  match l with
  | [] => None
  | f :: l' => if fl_ref (ft f) =? 0 then Some f else find_file ft l'
  end.

Definition filealloc : M kst Z :=
  let! r := gets (fun s => find_file (ks_file s) file_ptrs) in
  match r with
  | Some f => mod_file f (set_fref 1) ;; ret f
  | None => ret 0
  end.

Definition filedup (f : Z) : M kst Z :=
  let! x := get_file f in
  panic_if (fl_ref x <? 1) "filedup" ;;
  mod_file f (set_fref (i32 (fl_ref x + 1))) ;;
  ret f.

(** ** [kernel/pipe.c] *)

(** Code of [Pipe] on the pipe of the page [pi]. *)
Definition on_pipe {A} (pi : Z) (m : M (pstate U) A) : M kst A :=
  zoom (fun s => PState (ks_pipe s pi) (ks_user s) [])
    (fun x s => KSt (ks_fs s) (ps_user x) (ks_file s) (ks_proc s) (upd (ks_pipe s) pi (ps_pipe x))
       (ks_woken s ++ (pair pi <$> ps_woken x)) (ks_dev s)) m.

Definition pipeclose (pi : Z) (writable : bool) : M kst unit :=
  on_pipe pi (pipeclose_end writable) ;;
  let! p := gets (fun s => ks_pipe s pi) in
  if negb (readopen p) && negb (writeopen p) then kuser (pg_free pi) else ret tt.

Definition fileclose (f : Z) : M kst unit :=
  let! x := get_file f in
  panic_if (fl_ref x <? 1) "fileclose" ;;
  mod_file f (set_fref (fl_ref x - 1)) ;;
  if 0 <? fl_ref x - 1 then ret tt
  else
    let! ff := get_file f in
    mod_file f (set_fref 0) ;;
    mod_file f (set_ftype FD_NONE) ;;
    match fl_type ff with
    | FD_PIPE => pipeclose (fl_pipe ff) (fl_writable ff)
    | FD_INODE | FD_DEVICE =>
        kbegin_op ;;
        kiput (fl_ip ff) ;;
        kend_op
    | FD_NONE => ret tt
    end.

(** The files of the two ends of [pi]. *)
Definition read_end (pi : Z) (f : file) := File_ FD_PIPE (fl_ref f) true false pi (fl_ip f) (fl_off f) (fl_major f).
Definition write_end (pi : Z) (f : file) := File_ FD_PIPE (fl_ref f) false true pi (fl_ip f) (fl_off f) (fl_major f).

(** The return value, and [*f0] and [*f1]. *)
Definition pipealloc : M kst (Z * Z * Z) :=
  let bad f0 f1 :=
    (if negb (f0 =? 0) then fileclose f0 else ret tt) ;;
    (if negb (f1 =? 0) then fileclose f1 else ret tt) ;;
    ret (-1, f0, f1) in
  let! f0 := filealloc in
  if f0 =? 0 then bad 0 0
  else
    let! f1 := filealloc in
    if f1 =? 0 then bad f0 0
    else
      let! pi := kuser pg_alloc in
      if pi =? 0 then bad f0 f1
      else
        modify (fun s => KSt (ks_fs s) (ks_user s) (ks_file s) (ks_proc s) (upd (ks_pipe s) pi (p_init (ks_pipe s pi))) (ks_woken s) (ks_dev s)) ;;
        mod_file f0 (read_end pi) ;;
        mod_file f1 (write_end pi) ;;
        ret (0, f0, f1).

(** A call that returns, or sleeps. *)
Definition finish (o : outcome) : M kst Z :=
  match o with
  | Return r => ret r
  | Sleep _ _ => blocked
  end.

(** ** Reading and writing *)

Definition filestat (f addr : Z) : M kst Z :=
  let! x := get_file f in
  match fl_type x with
  | FD_INODE | FD_DEVICE =>
      kilock (fl_ip x) ;;
      let! st := kfs (stati (fl_ip x)) in
      kiunlock (fl_ip x) ;;
      let! r := kuser (u_copyout addr (stat_bytes stack_pad st)) in
      if r <? 0 then ret (-1) else ret 0
  | _ => ret (-1)
  end.

Definition fileread (f addr n : Z) : M kst Z :=
  let! x := get_file f in
  if negb (fl_readable x) then ret (-1)
  else
    match fl_type x with
    | FD_PIPE =>
        let! p := myproc in
        let! o := on_pipe (fl_pipe x) (piperead (c_killed p) addr n) in
        finish o
    | FD_DEVICE =>
        match dev_read (fl_major x) with
        | Some rd => if (fl_major x <? 0) || (NDEV <=? fl_major x) then ret (-1) else kdev (rd addr n)
        | None => ret (-1)
        end
    | FD_INODE =>
        kilock (fl_ip x) ;;
        let! r := kfsu (readi u_copyout (fl_ip x) addr (fl_off x) (u32 n)) in
        (if 0 <? r then mod_file f (set_foff (u32 (fl_off x + r))) else ret tt) ;;
        kiunlock (fl_ip x) ;;
        ret r
    | FD_NONE => panic "fileread"
    end.

(** The bytes that [filewrite] writes in one transaction. *)
Definition write_max : Z := (MAXOPBLOCKS - 1 - 1 - 2) / 2 * BSIZE.

(** The loop of [filewrite]; it returns the last [i]. *)
Fixpoint filewrite_loop (fuel : nat) (f addr n i : Z) : M kst Z :=
  if i <? n then
    match fuel with
    | O => nofuel
    | Datatypes.S fuel =>
        let n1 := Z.min (n - i) write_max in
        let! x := get_file f in
        kbegin_op ;;
        kilock (fl_ip x) ;;
        let! r := kfsu (writei u_copyin (fl_ip x) (u64 (addr + i)) (fl_off x) n1) in
        (if 0 <? r then mod_file f (set_foff (u32 (fl_off x + r))) else ret tt) ;;
        kiunlock (fl_ip x) ;;
        kend_op ;;
        if r <? 0 then ret i
        else
          panic_if (negb (r =? n1)) "short filewrite" ;;
          filewrite_loop fuel f addr n (i + r)
    end
  else ret i.

Definition filewrite (f addr n : Z) : M kst Z :=
  let! x := get_file f in
  if negb (fl_writable x) then ret (-1)
  else
    match fl_type x with
    | FD_PIPE =>
        let! p := myproc in
        let! o := on_pipe (fl_pipe x) (pipewrite (c_killed p) addr n 0) in
        finish o
    | FD_DEVICE =>
        match dev_write (fl_major x) with
        | Some wr => if (fl_major x <? 0) || (NDEV <=? fl_major x) then ret (-1) else kdev (wr addr n)
        | None => ret (-1)
        end
    | FD_INODE =>
        let! i := filewrite_loop (Z.to_nat (n / write_max + 1)) f addr n 0 in
        ret (if i =? n then n else -1)
    | FD_NONE => panic "filewrite"
    end.
End File.
