(* ===== verification/Sysfile.v ===== *)
(** * System calls on files, [kernel/sysfile.c], and arguments, [kernel/syscall.c]

    Arguments come from the registers of the trapframe ([argint], [argaddr]) and from the
    memory of the process ([argstr]).  A path is the contents of its buffer up to the NUL. *)

From S2P Require Import Prelude Bytes Riscv Cache Blocks Fs UserIO Pipe File.

(** ** [kernel/fcntl.h] *)

Definition O_RDONLY : Z := 0x000.
Definition O_WRONLY : Z := 0x001.
Definition O_RDWR : Z := 0x002.
Definition O_CREATE : Z := 0x200.
Definition O_TRUNC : Z := 0x400.

(** The characters of a buffer before its first NUL. *)
Fixpoint c_string (buf : list Z) : list Z :=
  match buf with
  | c :: rest => if c =? 0 then [] else c :: c_string rest
  | [] => []
  end.

(** ["."] and [".."] *)
Definition dot : list Z := [46; 0].
Definition dotdot : list Z := [46; 46; 0].

Section Sysfile.
Context {S : Type} {K : Blocks S} {TX : Txn S} {U : Type} {UM : UserMem U} {PG : Pages U} {D : Type}.
Context (dev_read dev_write : Z -> option (Z -> Z -> M (U * D) Z)) (stack_pad : list Z).

Abbreviation KM := (M (kst (S := S) (U := U) (D := D))).

(** ** [kernel/syscall.c] *)

(** -1, or 0 and the word. *)
Definition fetchaddr (addr : Z) : KM (Z * Z) :=
  let! p := myproc in
  if (c_sz p <=? addr) || (c_sz p <? u64 (addr + 8)) then ret (-1, 0)
  else
    let! r := kuser (u_copyin (replicate 8 0) addr) in
    if negb (fst r =? 0) then ret (-1, le_get (snd r)) else ret (0, le_get (snd r)).

(** The result, and the contents of the buffer. *)
Definition fetchstr (addr : Z) (buf : list Z) : KM (Z * list Z) :=
  let! r := kuser (u_copyinstr buf addr) in
  if fst r <? 0 then ret r else ret (zlen (c_string (snd r)), snd r).

Definition argraw (n : Z) : KM Z :=
  if (0 <=? n) && (n <? 6) then let! p := myproc in ret (c_arg p n) else panic "argraw".

Definition argint (n : Z) : KM Z := let! v := argraw n in ret (i32 v).
Definition argaddr (n : Z) : KM Z := argraw n.

(** [None] for -1. *)
Definition argstr (n : Z) (max : Z) : KM (option (list Z)) :=
  let! addr := argaddr n in
  let! r := fetchstr addr (replicate (Z.to_nat max) 0) in
  ret (if fst r <? 0 then None else Some (c_string (snd r))).

(** ** [kernel/sysfile.c] *)

Definition argfd (n : Z) : KM (option (Z * Z)) :=
  let! fd := argint n in
  let! p := myproc in
  if (fd <? 0) || (NOFILE <=? fd) then ret None
  else if c_ofile p fd =? 0 then ret None
  else ret (Some (fd, c_ofile p fd)).

Fixpoint find_fd (ofile : Z -> Z) (l : list Z) : option Z :=
  match l with
  | [] => None
  | fd :: l' => if ofile fd =? 0 then Some fd else find_fd ofile l'
  end.

Definition fdalloc (f : Z) : KM Z :=
  let! p := myproc in
  match find_fd (c_ofile p) (upto NOFILE) with
  | Some fd => mod_myproc (set_ofile fd f) ;; ret fd
  | None => ret (-1)
  end.

Definition sys_dup : KM Z :=
  let! r := argfd 0 in
  match r with
  | None => ret (-1)
  | Some (_, f) =>
      let! fd := fdalloc f in
      if fd <? 0 then ret (-1)
      else filedup f ;; ret fd
  end.

Definition sys_read : KM Z :=
  let! r := argfd 0 in
  match r with
  | None => ret (-1)
  | Some (_, f) =>
      let! n := argint 2 in
      let! p := argaddr 1 in
      fileread dev_read f p n
  end.

Definition sys_write : KM Z :=
  let! r := argfd 0 in
  match r with
  | None => ret (-1)
  | Some (_, f) =>
      let! n := argint 2 in
      let! p := argaddr 1 in
      filewrite dev_write f p n
  end.

Definition sys_close : KM Z :=
  let! r := argfd 0 in
  match r with
  | None => ret (-1)
  | Some (fd, f) =>
      mod_myproc (set_ofile fd 0) ;;
      fileclose f ;;
      ret 0
  end.

Definition sys_fstat : KM Z :=
  let! r := argfd 0 in
  match r with
  | None => ret (-1)
  | Some (_, f) =>
      let! st := argaddr 1 in
      filestat stack_pad f st
  end.

Definition knamei (path : list Z) : KM Z := let! p := myproc in kfs (namei (c_pid p) (c_cwd p) path).
Definition knameiparent (path : list Z) : KM (Z * list Z) :=
  let! p := myproc in kfs (nameiparent (c_pid p) (c_cwd p) path (replicate (Z.to_nat DIRSIZ) 0)).
Definition kdirlink (dp : Z) (name : list Z) (inum : Z) : KM Z := let! p := myproc in kfs (dirlink (c_pid p) dp name inum).
Definition kinode (ip : Z) : KM inode := kfs (get_inode ip).

(** Add [d] to [ip->nlink], a [short], and write the inode. *)
Definition add_nlink (ip d : Z) : KM unit :=
  kfs (mod_di ip (fun x => with_nlink (i16 (di_nlink x + d)) x)) ;;
  kfs (iupdate ip).

Definition sys_link : KM Z :=
  let! old := argstr 0 MAXPATH in
  match old with
  | None => ret (-1)
  | Some old =>
  let! new := argstr 1 MAXPATH in
  match new with
  | None => ret (-1)
  | Some new =>
      kbegin_op ;;
      let! ip := knamei old in
      if ip =? 0 then kend_op ;; ret (-1)
      else
        kilock ip ;;
        let! x := kinode ip in
        if i_type x =? T_DIR then kiunlockput ip ;; kend_op ;; ret (-1)
        else
          add_nlink ip 1 ;;
          kiunlock ip ;;
          let bad :=
            kilock ip ;;
            add_nlink ip (-1) ;;
            kiunlockput ip ;;
            kend_op ;;
            ret (-1) in
          let! r := knameiparent new in
          let dp := fst r in
          if dp =? 0 then bad
          else
            kilock dp ;;
            let! xd := kinode dp in
            let! x := kinode ip in
            let! fails :=
              (if negb (i_dev xd =? i_dev x) then ret true
               else let! r := kdirlink dp (snd r) (i_inum x) in ret (r <? 0)) in
            if fails then kiunlockput dp ;; bad
            else
              kiunlockput dp ;;
              kiput ip ;;
              kend_op ;;
              ret 0
  end
  end.

(** The offsets of the entries after [.] and [..]. *)
Definition isdirempty (dp : Z) : KM bool :=
  kfs (
    let! x := get_inode dp in
    let! r := msearch (drop 2 (dir_offs (i_size x))) (fun off =>
      let! de := read_dirent dp off "isdirempty: readi" in
      ret (if negb (de_inum de =? 0) then Some tt else None)) in
    ret (match r with Some _ => false | None => true end)).

Definition sys_unlink : KM Z :=
  let! path := argstr 0 MAXPATH in
  match path with
  | None => ret (-1)
  | Some path =>
      kbegin_op ;;
      let! r := knameiparent path in
      let dp := fst r in
      let name := snd r in
      if dp =? 0 then kend_op ;; ret (-1)
      else
        kilock dp ;;
        let bad := kiunlockput dp ;; kend_op ;; ret (-1) in
        if (namecmp name dot =? 0) || (namecmp name dotdot =? 0) then bad
        else
          let! r := kfs (dirlookup dp name) in
          let ip := fst r in
          if ip =? 0 then bad
          else
            kilock ip ;;
            let! x := kinode ip in
            panic_if (i_nlink x <? 1) "unlink: nlink < 1" ;;
            let! full := (if i_type x =? T_DIR then let! e := isdirempty ip in ret (negb e) else ret false) in
            if full then kiunlockput ip ;; bad
            else
              let! w := kfs (local (replicate (Z.to_nat dirent_size) 0) (writei buf_in dp 0 (snd r) dirent_size)) in
              panic_if (negb (fst w =? dirent_size)) "unlink: writei" ;;
              (if i_type x =? T_DIR then add_nlink dp (-1) else ret tt) ;;
              kiunlockput dp ;;
              add_nlink ip (-1) ;;
              kiunlockput ip ;;
              kend_op ;;
              ret 0
  end.

(** The inode, locked, or 0. *)
Definition create (path : list Z) (type major minor : Z) : KM Z :=
  let! r := knameiparent path in
  let dp := fst r in
  let name := snd r in
  if dp =? 0 then ret 0
  else
    kilock dp ;;
    let! l := kfs (dirlookup dp name) in
    let ip := fst l in
    if negb (ip =? 0) then
      kiunlockput dp ;;
      kilock ip ;;
      let! x := kinode ip in
      if (type =? T_FILE) && ((i_type x =? T_FILE) || (i_type x =? T_DEVICE)) then ret ip
      else kiunlockput ip ;; ret 0
    else
      let! xd := kinode dp in
      let! ip := kfs (ialloc (i_dev xd) type) in
      panic_if (ip =? 0) "create: ialloc" ;;
      kilock ip ;;
      kfs (mod_di ip (fun x => with_nlink 1 (with_majmin (i16 major) (i16 minor) x))) ;;
      kfs (iupdate ip) ;;
      let! x := kinode ip in
      (if type =? T_DIR then
         add_nlink dp 1 ;;
         let! r := kdirlink ip dot (i_inum x) in
         panic_if (r <? 0) "create dots" ;;
         let! r := kdirlink ip dotdot (i_inum xd) in
         panic_if (r <? 0) "create dots"
       else ret tt) ;;
      let! r := kdirlink dp name (i_inum x) in
      panic_if (r <? 0) "create: dirlink" ;;
      kiunlockput dp ;;
      ret ip.

(** The file of an open inode. *)
Definition open_file (x : inode) (ip omode : Z) (f : file) : file :=
  let readable := Z.land omode O_WRONLY =? 0 in
  let writable := negb (Z.land omode O_WRONLY =? 0) || negb (Z.land omode O_RDWR =? 0) in
  if i_type x =? T_DEVICE
  then File_ FD_DEVICE (fl_ref f) readable writable (fl_pipe f) ip (fl_off f) (di_major (i_di x))
  else File_ FD_INODE (fl_ref f) readable writable (fl_pipe f) ip 0 (fl_major f).

(** [sys_open] from the locked inode on. *)
Definition open_inode (ip omode : Z) : KM Z :=
  let! x := kinode ip in
  if (i_type x =? T_DEVICE) && ((di_major (i_di x) <? 0) || (NDEV <=? di_major (i_di x))) then
    kiunlockput ip ;; kend_op ;; ret (-1)
  else
    let! f := filealloc in
    let! fd := (if f =? 0 then ret (-1) else fdalloc f) in
    if fd <? 0 then
      (if negb (f =? 0) then fileclose f else ret tt) ;;
      kiunlockput ip ;;
      kend_op ;;
      ret (-1)
    else
      mod_file f (open_file x ip omode) ;;
      (if negb (Z.land omode O_TRUNC =? 0) && (i_type x =? T_FILE) then kfs (itrunc ip) else ret tt) ;;
      kiunlock ip ;;
      kend_op ;;
      ret fd.

Definition sys_open : KM Z :=
  let! path := argstr 0 MAXPATH in
  match path with
  | None => ret (-1)
  | Some path =>
      let! omode := argint 1 in
      kbegin_op ;;
      if negb (Z.land omode O_CREATE =? 0) then
        let! ip := create path T_FILE 0 0 in
        if ip =? 0 then kend_op ;; ret (-1) else open_inode ip omode
      else
        let! ip := knamei path in
        if ip =? 0 then kend_op ;; ret (-1)
        else
          kilock ip ;;
          let! x := kinode ip in
          if (i_type x =? T_DIR) && negb (omode =? O_RDONLY) then kiunlockput ip ;; kend_op ;; ret (-1)
          else open_inode ip omode
  end.

(** The end of [sys_mkdir] and [sys_mknod]. *)
Definition made (ip : Z) : KM Z :=
  if ip =? 0 then kend_op ;; ret (-1)
  else
    kiunlockput ip ;;
    kend_op ;;
    ret 0.

Definition sys_mkdir : KM Z :=
  kbegin_op ;;
  let! path := argstr 0 MAXPATH in
  let! ip := (match path with None => ret 0 | Some path => create path T_DIR 0 0 end) in
  made ip.

Definition sys_mknod : KM Z :=
  kbegin_op ;;
  let! path := argstr 0 MAXPATH in
  let! ip :=
    (match path with
     | None => ret 0
     | Some path =>
         let! major := argint 1 in
         let! minor := argint 2 in
         create path T_DEVICE major minor
     end) in
  made ip.

Definition sys_chdir : KM Z :=
  kbegin_op ;;
  let! path := argstr 0 MAXPATH in
  let! ip := (match path with None => ret 0 | Some path => knamei path end) in
  if ip =? 0 then kend_op ;; ret (-1)
  else
    kilock ip ;;
    let! x := kinode ip in
    if negb (i_type x =? T_DIR) then kiunlockput ip ;; kend_op ;; ret (-1)
    else
      kiunlock ip ;;
      let! p := myproc in
      kiput (c_cwd p) ;;
      kend_op ;;
      mod_myproc (set_cwd ip) ;;
      ret 0.

Definition sys_pipe : KM Z :=
  let! fdarray := argaddr 0 in
  let! r := pipealloc in
  let '(rc, rf, wf) := r in
  if rc <? 0 then ret (-1)
  else
    let close_both := fileclose rf ;; fileclose wf ;; ret (-1) in
    let! fd0 := fdalloc rf in
    let! fd1 := (if fd0 <? 0 then ret (-1) else fdalloc wf) in
    if fd1 <? 0 then
      (if 0 <=? fd0 then mod_myproc (set_ofile fd0 0) else ret tt) ;;
      close_both
    else
      let! r0 := kuser (u_copyout fdarray (le_put 4 fd0)) in
      let! r1 := (if r0 <? 0 then ret r0 else kuser (u_copyout (u64 (fdarray + 4)) (le_put 4 fd1))) in
      if r1 <? 0 then
        mod_myproc (set_ofile fd0 0) ;;
        mod_myproc (set_ofile fd1 0) ;;
        close_both
      else ret 0.
End Sysfile.
