(* ===== verification/Balance.v ===== *)
(** * Resources of the system calls on files

    The tokens of [FsBalance] for the whole kernel state, with one more kind for the
    references to open files.  Tokens are held by the table of open files (each open inode
    is a reference), by the process (its working directory and its descriptors), by other
    processes, and by the call that runs.  A system call starts and ends with none in hand. *)

From S2P Require Import Prelude Bytes Riscv Cache Blocks Fs FsSpec FsDir FsBalance UserIO Pipe File Sysfile.

(** ** The tokens that the state holds *)

Definition ftok (f : file) : list tok :=
  if 0 <? fl_ref f then match fl_type f with FD_INODE | FD_DEVICE => [TRef (fl_ip f)] | _ => [] end else [].
Definition file_toks (ft : Z -> file) : list tok := concat ((fun f => ftok (ft f)) <$> file_ptrs).

Definition fdtok (f : Z) : list tok := if f =? 0 then [] else [TFile f].
Definition proc_toks (p : cproc) : list tok := TRef (c_cwd p) :: concat ((fun fd => fdtok (c_ofile p fd)) <$> upto NOFILE).

(** Counting in a table of which one entry changes. *)
Lemma cnt_concat_upd {A} (h : A -> list tok) (g : Z -> A) i v l t : NoDup l -> i ∈ l ->
  cnt t (concat ((fun j => h (upd g i v j)) <$> l)) + cnt t (h (g i)) = cnt t (concat ((fun j => h (g j)) <$> l)) + cnt t (h v).
Proof.
  intros Hn Hi. induction l as [|j l IH]; [by apply elem_of_nil in Hi|]. apply NoDup_cons in Hn as [Hj Hn]. cbn [fmap list_fmap concat]. rewrite !cnt_app.
  destruct (Z.eq_dec i j) as [->|Hne].
  - rewrite upd_eq. assert (concat ((fun k => h (upd g j v k)) <$> l) = concat ((fun k => h (g k)) <$> l)) as ->; [|lia].
    f_equal. apply list_fmap_ext. intros k x Hx. apply list_elem_of_lookup_2 in Hx. rewrite upd_ne; [done|]. by intros ->.
  - rewrite upd_ne by auto. apply elem_of_cons in Hi as [?|Hi]; [done|]. specialize (IH Hn Hi). lia.
Qed.

Lemma elem_of_file_ptrs f : f ∈ file_ptrs <-> 1 <= f <= NFILE.
Proof.
  unfold file_ptrs. rewrite list_elem_of_fmap. split.
  - intros (k & -> & Hk%elem_of_upto). lia.
  - intros Hf. exists (f - 1). rewrite elem_of_upto. lia.
Qed.

Lemma NoDup_file_ptrs : NoDup file_ptrs.
Proof. unfold file_ptrs. apply NoDup_fmap_2; [intros i j; lia|apply NoDup_upto]. Qed.

Lemma cnt_file_upd ft f x t : f ∈ file_ptrs -> cnt t (file_toks (upd ft f x)) + cnt t (ftok (ft f)) = cnt t (file_toks ft) + cnt t (ftok x).
Proof. apply (cnt_concat_upd ftok ft f x file_ptrs t NoDup_file_ptrs). Qed.

Lemma cnt_ofile_upd p fd f t : 0 <= fd < NOFILE ->
  cnt t (proc_toks (set_ofile fd f p)) + cnt t (fdtok (c_ofile p fd)) = cnt t (proc_toks p) + cnt t (fdtok f).
Proof.
  intros Hfd. unfold proc_toks. cbn [cnt c_cwd set_ofile c_ofile].
  pose proof (cnt_concat_upd fdtok (c_ofile p) fd f (upto NOFILE) t (NoDup_upto _) (proj2 (elem_of_upto _ _) Hfd)). lia.
Qed.

Lemma cnt_cwd p ip t : cnt t (proc_toks (set_cwd ip p)) + cnt t [TRef (c_cwd p)] = cnt t (proc_toks p) + cnt t [TRef ip].
Proof. unfold proc_toks. cbn [cnt c_cwd set_cwd c_ofile]. lia. Qed.

Lemma length_concat_le {A} (h : A -> list tok) l : (forall x, (length (h x) <= 1)%nat) -> (length (concat (h <$> l)) <= length l)%nat.
Proof. intros Hh. induction l as [|x l IH]; cbn; [lia|]. rewrite length_app. specialize (Hh x). cbn in IH. lia. Qed.

Lemma elem_of_file_toks ft f t : f ∈ file_ptrs -> t ∈ ftok (ft f) -> t ∈ file_toks ft.
Proof. intros Hf Ht. unfold file_toks. apply list_elem_of_In, in_concat. exists (ftok (ft f)). split; [|by apply list_elem_of_In].
  apply list_elem_of_In, list_elem_of_fmap. by exists f. Qed.

Lemma elem_of_proc_toks p fd : 0 <= fd < NOFILE -> c_ofile p fd <> 0 -> TFile (c_ofile p fd) ∈ proc_toks p.
Proof.
  intros Hfd Hnz. unfold proc_toks. right. apply list_elem_of_In, in_concat. exists (fdtok (c_ofile p fd)). split.
  - apply list_elem_of_In, list_elem_of_fmap. exists fd. split; [done|]. by apply elem_of_upto.
  - unfold fdtok. rewrite (proj2 (Z.eqb_neq _ _) Hnz). by left.
Qed.

(** ** The accounting *)

Section Balance.
Context {S : Type} {K : Blocks S} {TX : Txn S} {TXOk : TxnOk S} {U : Type} {UM : UserMem U} {PG : Pages U} {D : Type}.
Abbreviation kstate := (kst (S := S) (U := U) (D := D)).
Abbreviation KM := (M kstate).

Definition owned (s : kstate) : list tok := file_toks (ks_file s) ++ proc_toks (ks_proc s).

Lemma length_owned s : (length (owned s) <= 117)%nat.
Proof.
  unfold owned, file_toks, proc_toks. rewrite length_app. cbn [length].
  pose proof (length_concat_le (fun f => ftok (ks_file s f)) file_ptrs) as H1. pose proof (length_concat_le (fun fd => fdtok (c_ofile (ks_proc s) fd)) (upto NOFILE)) as H2.
  specialize (H1 ltac:(intros f; unfold ftok; destruct (_ <? _); [|cbn; lia]; destruct (fl_type _); cbn; lia)).
  specialize (H2 ltac:(intros fd; unfold fdtok; destruct (_ =? _); cbn; lia)).
  replace (length file_ptrs) with 100%nat in H1 by reflexivity. replace (length (upto NOFILE)) with 16%nat in H2 by reflexivity. lia.
Qed.

Lemma owned_op s : cnt TOp (owned s) = 0.
Proof.
  assert (forall {A} (h : A -> list tok) l, (forall x, cnt TOp (h x) = 0) -> cnt TOp (concat (h <$> l)) = 0) as Hz.
  { intros A h l Hh. induction l as [|x l IH]; [done|]. cbn. rewrite cnt_app, Hh. exact IH. }
  unfold owned, file_toks, proc_toks. rewrite cnt_app. cbn [cnt]. rewrite !Hz; [done| |].
  - intros fd. unfold fdtok. by destruct (_ =? _).
  - intros f. unfold ftok. destruct (_ <? _); [|done]. by destruct (fl_type _).
Qed.

Record kaccounts (s : kstate) (L : list tok) : Prop := {
  ka_fs : accounts (ks_fs s) L;
  ka_file f : f ∈ file_ptrs -> fl_ref (ks_file s f) = cnt (TFile f) L;
  ka_fptr f : f ∉ file_ptrs -> cnt (TFile f) L = 0;
  ka_none f : f ∈ file_ptrs -> fl_ref (ks_file s f) = 0 -> fl_type (ks_file s f) = FD_NONE;
}.

Definition klimit : Z := 2 ^ 31 - 1000.

(** From the state [s], [m] ends with [Q] in hand. *)
Definition kpost {A} (E : list tok) (s : kstate) (m : KM A) (Q : A -> list tok) : Prop :=
  forall r s', m s = Ok (r, s') -> kaccounts s' (Q r ++ owned s' ++ E) /\ same_names E (ks_fs s) (ks_fs s').

Definition kbal {A} (k : nat) (R : list tok) (m : KM A) (Q : A -> list tok) : Prop :=
  forall E s, kaccounts s (R ++ owned s ++ E) -> Z.of_nat (length E) + Z.of_nat k < klimit -> kpost E s m Q.

Lemma kaccounts_same s L L' : kaccounts s L -> same_toks L L' -> kaccounts s L'.
Proof.
  intros [H1 H2 H3 H4] E. split; [by eapply accounts_same|intros f; rewrite <- E; auto..|done].
Qed.

Lemma kpost_ret {A} E s (a : A) Q L : kaccounts s L -> same_toks L (Q a ++ owned s ++ E) -> kpost E s (ret a) Q.
Proof. intros Ha Hs r s' [-> ->]%ret_inv. split; [by eapply kaccounts_same|done]. Qed.

Lemma kbal_ret {A} k (a : A) Q L : same_toks L (Q a) -> kbal k L (ret a) Q.
Proof. intros Hs E s Ha _. eapply kpost_ret; [exact Ha|]. intros t. by rewrite !cnt_app, Hs. Qed.

(** Run a command whose effect is known, then go on. *)
Lemma kpost_step {A B} k k' E s R F (m : KM A) (c : A -> KM B) Q P L :
  kbal k' R m Q -> kaccounts s L -> same_toks L (R ++ F ++ owned s ++ E) -> Z.of_nat (length E) + Z.of_nat k < klimit -> (k' + length F <= k)%nat ->
  (forall r s', kaccounts s' ((Q r ++ F) ++ owned s' ++ E) -> kpost E s' (c r) P) -> kpost E s (bind m c) P.
Proof.
  intros Hm Ha Hs Hl Hk Hc r s' H. apply bind_ok_inv in H as (a & s1 & H1 & H2).
  destruct (Hm (F ++ E) s) with (r := a) (s' := s1) as [Ha1 Hn1]; [| |done|].
  - eapply kaccounts_same; [exact Ha|]. intros t. rewrite Hs, !cnt_app. lia.
  - rewrite length_app. lia.
  - destruct (Hc a s1) with (r := r) (s' := s') as [Ha2 Hn2]; [|done|].
    + eapply kaccounts_same; [exact Ha1|]. intros t. rewrite !cnt_app. lia.
    + split; [done|]. eapply same_names_trans; [|exact Hn2]. intros p Hp. apply Hn1, elem_of_app. by right.
Qed.

Lemma kbal_bind {A B} k k' R F L (m : KM A) Q (c : A -> KM B) P :
  kbal k' R m Q -> same_toks L (R ++ F) -> (k' + length F <= k)%nat -> (forall r, kbal k (Q r ++ F) (c r) P) -> kbal k L (bind m c) P.
Proof.
  intros Hm Hs Hk Hc E s Ha Hl. eapply kpost_step; [exact Hm|exact Ha| |exact Hl|exact Hk|].
  - intros t. rewrite !cnt_app, Hs, !cnt_app. lia.
  - intros r s' Ha'. by apply Hc.
Qed.

Lemma kbal_frame {A} k k' R F (m : KM A) Q : kbal k' R m Q -> (k' + length F <= k)%nat -> kbal k (R ++ F) m (fun r => Q r ++ F).
Proof.
  intros Hm Hk E s Ha Hl r s' H. destruct (Hm (F ++ E) s) with (r := r) (s' := s') as [Ha' Hn]; [|rewrite length_app; lia|done|].
  - eapply kaccounts_same; [exact Ha|]. intros t. rewrite !cnt_app. lia.
  - split; [eapply kaccounts_same; [exact Ha'|]; intros t; rewrite !cnt_app; lia|]. intros p Hp. apply Hn, elem_of_app. by right.
Qed.

Lemma kbal_conseq {A} k k' R R' (m : KM A) Q Q' : kbal k' R' m Q' -> (k' <= k)%nat -> same_toks R R' -> (forall r, same_toks (Q' r) (Q r)) -> kbal k R m Q.
Proof.
  intros Hm Hk HR HQ E s Ha Hl r s' H. destruct (Hm E s) with (r := r) (s' := s') as [Ha' Hn]; [|lia|done|].
  - eapply kaccounts_same; [exact Ha|]. intros t. by rewrite !cnt_app, HR.
  - split; [|done]. eapply kaccounts_same; [exact Ha'|]. intros t. by rewrite !cnt_app, HQ.
Qed.

Lemma kbal_panic {A} k L msg (Q : A -> list tok) : kbal k L (panic msg) Q.
Proof. by intros E s _ _ r s'. Qed.
Lemma kbal_blocked {A} k L (Q : A -> list tok) : kbal k L blocked Q.
Proof. by intros E s _ _ r s'. Qed.
Lemma kbal_nofuel {A} k L (Q : A -> list tok) : kbal k L nofuel Q.
Proof. by intros E s _ _ r s'. Qed.

(** ** Code of the file system

    It does not use the tokens of open files. *)
Definition no_file (L : list tok) : Prop := forall f, cnt (TFile f) L = 0.

Lemma no_file_ref_of ip : no_file (ref_of ip).
Proof. intros f. unfold ref_of. by destruct (_ =? _). Qed.

Lemma kpost_fs {A} k E s R (m : M fs A) Q : bal k R m Q -> no_file R -> (forall r, no_file (Q r)) -> kaccounts s (R ++ owned s ++ E) ->
  Z.of_nat (length E) + Z.of_nat k < klimit -> kpost E s (kfs m) Q.
Proof.
  intros Hm HR HQ [H1 H2 H3 H4] Hl r s' (x & H & ->)%zoom_ok_inv. pose proof (length_owned s) as Ho.
  destruct (Hm (owned s ++ E) (ks_fs s) r x H1) as [Ha Hn]; [rewrite length_app; unfold limit, klimit in *; lia|done|].
  assert (forall f, cnt (TFile f) (Q r ++ owned s ++ E) = cnt (TFile f) (R ++ owned s ++ E)) as Ec.
  { intros f. rewrite !cnt_app, HR, HQ. lia. }
  split; [split|].
  - exact Ha.
  - intros f Hf. etransitivity; [by apply H2|]. symmetry. apply Ec.
  - intros f Hf. etransitivity; [apply Ec|by apply H3].
  - exact H4.
  - intros p Hp. apply Hn, elem_of_app. by right.
Qed.

Lemma kbal_fs {A} k R (m : M fs A) Q : bal k R m Q -> no_file R -> (forall r, no_file (Q r)) -> kbal k R (kfs m) Q.
Proof. intros Hm HR HQ E s Ha Hl. by eapply kpost_fs. Qed.

Lemma kbal_me {A} k R (m : cproc -> M fs A) Q : (forall p, bal k R (m p) Q) -> no_file R -> (forall r, no_file (Q r)) ->
  kbal k R (let! p := myproc in kfs (m p)) Q.
Proof. intros Hm HR HQ E s Ha Hl. apply (kpost_fs k E s R (m (ks_proc s)) Q); auto. Qed.

(** With the working directory of the process. *)
Lemma kbal_cwd {A} k R (m : cproc -> M fs A) Q :
  (forall p, bal k (TRef (c_cwd p) :: R) (m p) (fun r => TRef (c_cwd p) :: Q r)) -> no_file R -> (forall r, no_file (Q r)) ->
  kbal k R (let! p := myproc in kfs (m p)) Q.
Proof.
  intros Hm HR HQ E s [H1 H2 H3 H4] Hl r s' (x & H & ->)%zoom_ok_inv. pose proof (length_owned s) as Ho.
  set (C := TRef (c_cwd (ks_proc s))). set (rest := file_toks (ks_file s) ++ concat ((fun fd => fdtok (c_ofile (ks_proc s) fd)) <$> upto NOFILE)).
  assert (forall t, cnt t (owned s) = cnt t [C] + cnt t rest) as Eo.
  { intros t. unfold owned, rest, proc_toks. rewrite !cnt_app. cbn [cnt]. fold C. lia. }
  assert (length rest <= 117)%nat as Hrest.
  { unfold owned, rest, proc_toks in *. rewrite length_app in *. cbn [length] in Ho. lia. }
  destruct (Hm (ks_proc s) (rest ++ E) (ks_fs s) r x) as [Ha Hn]; [| |done|].
  - eapply accounts_same; [exact H1|]. intros t. change (TRef (c_cwd (ks_proc s)) :: R) with ([C] ++ R). rewrite !cnt_app, Eo. lia.
  - rewrite length_app. unfold limit, klimit in *. lia.
  - assert (forall f, cnt (TFile f) (Q r ++ owned s ++ E) = cnt (TFile f) (R ++ owned s ++ E)) as Ec.
    { intros f. rewrite !cnt_app, HR, HQ. lia. }
    split; [split|].
    + eapply accounts_same; [exact Ha|]. intros t. change (TRef (c_cwd (ks_proc s)) :: Q r) with ([C] ++ Q r). rewrite !cnt_app.
      change (owned (KSt _ _ _ _ _ _ _)) with (owned s). rewrite Eo. lia.
    + intros f Hf. etransitivity; [by apply H2|]. symmetry. apply Ec.
    + intros f Hf. etransitivity; [apply Ec|by apply H3].
    + exact H4.
    + intros p Hp. apply Hn, elem_of_app. by right.
Qed.

(** ** Code that changes nothing of the accounts *)

Definition krel (s s' : kstate) : Prop :=
  same_ids (ks_fs s) (ks_fs s') /\ ks_proc s' = ks_proc s /\
  forall f, fl_ref (ks_file s' f) = fl_ref (ks_file s f) /\ fl_type (ks_file s' f) = fl_type (ks_file s f) /\ fl_ip (ks_file s' f) = fl_ip (ks_file s f).

Definition kstill {A} (m : KM A) : Prop := forall s r s', m s = Ok (r, s') -> krel s s'.

Lemma kaccounts_rel s s' R E : kaccounts s (R ++ owned s ++ E) -> krel s s' -> kaccounts s' (R ++ owned s' ++ E).
Proof.
  intros [H1 H2 H3 H4] (Hi & Hp & Hf).
  assert (owned s' = owned s) as ->.
  { unfold owned, file_toks. rewrite Hp. do 2 f_equal. apply list_fmap_ext. intros i f _. unfold ftok. destruct (Hf f) as (-> & -> & ->). done. }
  split.
  - by eapply accounts_still.
  - intros f Hff. destruct (Hf f) as (-> & _). auto.
  - done.
  - intros f Hff. destruct (Hf f) as (-> & -> & _). auto.
Qed.

Lemma kbal_still {A} k R (m : KM A) : kstill m -> kbal k R m (fun _ => R).
Proof.
  intros Hm E s Ha _ r s' H. apply Hm in H. split; [by eapply kaccounts_rel|]. apply same_names_still, H.
Qed.

Lemma kstill_bind {A B} (m : KM A) (c : A -> KM B) : kstill m -> (forall r, kstill (c r)) -> kstill (bind m c).
Proof.
  intros Hm Hc s r s' H. apply bind_ok_inv in H as (a & s1 & H1 & H2). apply Hm in H1 as (A1 & A2 & A3). apply Hc in H2 as (B1 & B2 & B3).
  split_and!; [by eapply same_ids_trans|congruence|]. intros f. destruct (A3 f) as (F1 & F2 & F3), (B3 f) as (E1 & E2 & E3).
  split_and!; congruence.
Qed.

Lemma kstill_gets {A} (f : kstate -> A) : kstill (gets f).
Proof. by intros s r s' [= <- <-]. Qed.
Lemma kstill_ret {A} (a : A) : kstill (ret a).
Proof. by intros s r s' [= <- <-]. Qed.
Lemma kstill_panic_if b msg : kstill (panic_if b msg).
Proof. destruct b; [by intros s r s'|apply kstill_ret]. Qed.
Lemma kstill_user {A} (m : M U A) : kstill (kuser m).
Proof. by intros s r s' (x & H & ->)%zoom_ok_inv. Qed.
Lemma kstill_dev {A} (m : M (U * D) A) : kstill (kdev m).
Proof. by intros s r s' (x & H & ->)%zoom_ok_inv. Qed.
Lemma kstill_pipe {A} pi (m : M (pstate U) A) : kstill (on_pipe pi m).
Proof. by intros s r s' (x & H & ->)%zoom_ok_inv. Qed.
Lemma kstill_fs {A} (m : M fs A) : still id m -> kstill (kfs m).
Proof. intros Hm s r s' (x & H & ->)%zoom_ok_inv. apply Hm in H. done. Qed.
Lemma kstill_fsu {A} (m : M (fs * U) A) : still fst m -> kstill (kfsu m).
Proof. intros Hm s r s' (x & H & ->)%zoom_ok_inv. apply Hm in H. done. Qed.
Lemma kstill_off f off : kstill (mod_file f (set_foff off)).
Proof. intros s r s' [= <- <-]. unfold krel. cbn. split_and!; [done|done|]. intros g. unfold upd. by destruct (Z.eqb_spec g f) as [->|]. Qed.
Lemma kstill_finish o : kstill (finish o).
Proof. destruct o; [apply kstill_ret|by intros s r s']. Qed.

Lemma kbal_still_bind {A B} k L (m : KM A) (c : A -> KM B) P : kstill m -> (forall r, kbal k L (c r) P) -> kbal k L (bind m c) P.
Proof.
  intros Hm Hc. apply (kbal_bind k k L [] L m (fun _ => L)); [by apply kbal_still|toks|cbn; lia|]. intros r. rewrite app_nil_r. apply Hc.
Qed.

Lemma kbal_begin : kbal 0 [] kbegin_op (fun _ => [TOp]).
Proof.
  apply kbal_fs; [|done|done]. intros E s [] s' Ha _ (y & H & ->)%zoom_ok_inv. apply k_begin_depth in H.
  apply (accounts_op s _ [] [TOp]); [done|done|done|]. cbn [f_blk]. cnts. lia.
Qed.

Lemma kbal_end : kbal 0 [TOp] kend_op (fun _ => []).
Proof.
  apply kbal_fs; [|done|done]. intros E s [] s' Ha _ (y & H & ->)%zoom_ok_inv. apply k_end_depth in H.
  apply (accounts_op s _ [TOp] []); [done|done|done|]. cbn [f_blk]. cnts. lia.
Qed.

(** ** The table of open files and the process *)

Definition put_file (f : Z) (x : file) (s : kstate) : kstate :=
  KSt (ks_fs s) (ks_user s) (upd (ks_file s) f x) (ks_proc s) (ks_pipe s) (ks_woken s) (ks_dev s).
Definition put_proc (p : cproc) (s : kstate) : kstate :=
  KSt (ks_fs s) (ks_user s) (ks_file s) p (ks_pipe s) (ks_woken s) (ks_dev s).

Lemma no_file_ftok x : no_file (ftok x).
Proof. intros f. unfold ftok. destruct (_ <? _); [|done]. by destruct (fl_type x). Qed.

Lemma accounts_toks (s : @fs S) L L' : accounts s L -> (forall t, (forall f, t <> TFile f) -> cnt t L' = cnt t L) -> accounts s L'.
Proof.
  intros [A1 A2 A3 A4 A5] Ht. split; [intros p Hp; rewrite Ht by done; auto..|done|by rewrite Ht].
  rewrite !Ht by done. auto.
Qed.

Lemma put_file_ok s f x R R' E : kaccounts s (R ++ owned s ++ E) -> f ∈ file_ptrs ->
  (forall t, (forall g, t <> TFile g) -> cnt t R' + cnt t (ftok x) = cnt t R + cnt t (ftok (ks_file s f))) ->
  (forall g, g <> f -> cnt (TFile g) R' = cnt (TFile g) R) -> fl_ref x = fl_ref (ks_file s f) + cnt (TFile f) R' - cnt (TFile f) R ->
  (fl_ref x = 0 -> fl_type x = FD_NONE) -> kaccounts (put_file f x s) (R' ++ owned (put_file f x s) ++ E).
Proof.
  intros [H1 H2 H3 H4] Hf Ht Hg Hx Hn. pose proof (fun t => cnt_file_upd (ks_file s) f x t Hf) as Hc.
  assert (forall g, cnt (TFile g) (R' ++ owned (put_file f x s) ++ E) = cnt (TFile g) (R ++ owned s ++ E) + cnt (TFile g) R' - cnt (TFile g) R) as Hfile.
  { intros g. specialize (Hc (TFile g)). rewrite !no_file_ftok in Hc. unfold owned. cbn [put_file ks_file ks_proc]. rewrite !cnt_app. lia. }
  split.
  - apply (accounts_toks _ (R ++ owned s ++ E)); [exact H1|]. intros t Hnt. specialize (Hc t). specialize (Ht t Hnt).
    unfold owned. cbn [put_file ks_file ks_proc]. rewrite !cnt_app. lia.
  - intros g Hgp. rewrite Hfile. cbn [put_file ks_file]. unfold upd. destruct (Z.eqb_spec g f) as [->|Hne].
    + rewrite Hx, H2 by done. lia.
    + rewrite H2, Hg by done. lia.
  - intros g Hgp. rewrite Hfile, H3 by done. assert (g <> f) as Hne by (by intros ->). rewrite Hg by done. lia.
  - intros g Hgp. cbn [put_file ks_file]. unfold upd. destruct (Z.eqb_spec g f) as [->|Hne]; auto.
Qed.

Lemma put_proc_ok s p R R' E : kaccounts s (R ++ owned s ++ E) ->
  (forall t, cnt t R' + cnt t (proc_toks p) = cnt t R + cnt t (proc_toks (ks_proc s))) -> kaccounts (put_proc p s) (R' ++ owned (put_proc p s) ++ E).
Proof.
  intros [H1 H2 H3 H4] Hc. assert (same_toks (R ++ owned s ++ E) (R' ++ owned (put_proc p s) ++ E)) as Hs.
  { intros t. specialize (Hc t). unfold owned. cbn [put_proc ks_file ks_proc]. rewrite !cnt_app. lia. }
  split; [by eapply accounts_same|intros f Hf; rewrite <- Hs; by apply H2|intros f Hf; rewrite <- Hs; by apply H3|exact H4].
Qed.

Lemma kaccounts_file s L f : kaccounts s L -> 0 < cnt (TFile f) L -> f ∈ file_ptrs.
Proof. intros Ha Hc. destruct (decide (f ∈ file_ptrs)) as [|Hn]; [done|]. pose proof (ka_fptr _ _ Ha f Hn). lia. Qed.

(** The token of a file pointer that may be null. *)
Definition file_of (f : Z) : list tok := if f =? 0 then [] else [TFile f].

Lemma find_file_some ft l f : find_file ft l = Some f -> f ∈ l /\ fl_ref (ft f) = 0.
Proof.
  induction l as [|g l IH]; [done|]. cbn [find_file]. destruct (Z.eqb_spec (fl_ref (ft g)) 0) as [E|E].
  - intros [= ->]. split; [by left|done].
  - intros H. destruct (IH H). split; [by right|done].
Qed.

Lemma ftok_ref0 x : fl_ref x = 0 -> ftok x = [].
Proof. intros H. unfold ftok. by rewrite H. Qed.

Lemma ftok_none x : fl_type x = FD_NONE -> ftok x = [].
Proof. intros H. unfold ftok. rewrite H. by destruct (_ <? _). Qed.

Lemma kbal_filealloc : kbal 0 [] filealloc file_of.
Proof.
  intros E s Ha _ r s' H. apply bind_ok_inv in H as (o & s1 & [-> ->]%gets_inv & H).
  destruct (find_file _ _) as [f|] eqn:Ef; [|apply ret_inv in H as [-> ->]; by split].
  apply bind_ok_inv in H as ([] & s1 & [= <-] & [-> ->]%ret_inv). destruct (find_file_some _ _ _ Ef) as [Hf H0].
  pose proof (ka_none _ _ Ha f Hf H0) as Hn. split; [|done].
  assert (file_of f = [TFile f]) as -> by (unfold file_of; rewrite (proj2 (Z.eqb_neq f 0)); [done|apply elem_of_file_ptrs in Hf; lia]).
  apply (put_file_ok s f (set_fref 1 (ks_file s f)) [] [TFile f] E Ha Hf); cbn [fl_ref fl_type set_fref]; try done.
  - intros t Ht. rewrite !ftok_none by done. cbn [cnt]. rewrite decide_False; [done|]. intros E'. by destruct (Ht f).
  - intros g Hg. by cnts.
  - cnts. lia.
Qed.

(** A second reference to a file that has one. *)
Lemma filedup_ok s f R E r s' : kaccounts s (R ++ owned s ++ E) -> Z.of_nat (length (R ++ E)) < klimit -> f ∈ file_ptrs -> filedup f s = Ok (r, s') ->
  let x := set_fref (fl_ref (ks_file s f) + 1) (ks_file s f) in s' = put_file f x s /\ kaccounts s' ((TFile f :: R) ++ owned s' ++ E).
Proof.
  intros Ha Hl Hf H. apply bind_ok_inv in H as (x & s1 & [-> ->]%gets_inv & H). apply bind_ok_inv in H as ([] & s1 & Hp & H).
  destruct (Z.ltb_spec (fl_ref (ks_file s f)) 1) as [|Hge]; [done|]. injection Hp as <-.
  apply bind_ok_inv in H as ([] & s1 & [= <-] & [-> ->]%ret_inv).
  pose proof (ka_file _ _ Ha f Hf) as Er. revert Er. rewrite !cnt_app. intros Er. pose proof (cnt_bound (TFile f) E). pose proof (cnt_bound (TFile f) (owned s)).
  pose proof (cnt_bound (TFile f) R). pose proof (length_owned s). rewrite length_app in Hl. unfold klimit in Hl.
  rewrite i32_small by lia. split; [done|]. set (x := set_fref (fl_ref (ks_file s f) + 1) (ks_file s f)).
  assert (ftok x = ftok (ks_file s f)) as Et by (unfold ftok; cbn [fl_ref fl_type set_fref fl_ip x]; by rewrite !(proj2 (Z.ltb_lt 0 _)) by lia).
  apply (put_file_ok s f x R (TFile f :: R) E Ha Hf); cbn [fl_ref fl_type set_fref x].
  - intros t Ht. cbn [cnt]. rewrite decide_False by (intros E'; by destruct (Ht f)). fold x. rewrite Et. lia.
  - intros g Hg. by cnts.
  - cnts. lia.
  - lia.
Qed.

Lemma find_fd_some o l fd : find_fd o l = Some fd -> fd ∈ l /\ o fd = 0.
Proof.
  induction l as [|g l IH]; [done|]. cbn [find_fd]. destruct (Z.eqb_spec (o g) 0) as [E|E].
  - intros [= ->]. split; [by left|done].
  - intros H. destruct (IH H). split; [by right|done].
Qed.

Lemma kbal_fdalloc f : kbal 0 [TFile f] (fdalloc f) (fun fd => if fd <? 0 then [TFile f] else []).
Proof.
  intros E s Ha Hl r s' H. apply bind_ok_inv in H as (p & s1 & [-> ->]%gets_inv & H).
  destruct (find_fd _ _) as [fd|] eqn:Ef; [|apply ret_inv in H as [-> ->]; by split].
  apply bind_ok_inv in H as ([] & s1 & [= <-] & [-> ->]%ret_inv). destruct (find_fd_some _ _ _ Ef) as [Hfd%elem_of_upto H0]. split; [|done].
  rewrite (proj2 (Z.ltb_ge fd 0)) by lia.
  assert (f ∈ file_ptrs) as Hf by (eapply kaccounts_file; [exact Ha|]; cnts; pose proof (cnt_nonneg (TFile f) (owned s)); pose proof (cnt_nonneg (TFile f) E); lia).
  apply (put_proc_ok s (set_ofile fd f (ks_proc s)) [TFile f] [] E Ha). intros t. pose proof (cnt_ofile_upd (ks_proc s) fd f t Hfd) as Hc.
  unfold fdtok in Hc. rewrite H0, (proj2 (Z.eqb_neq f 0)) in Hc by (apply elem_of_file_ptrs in Hf; lia). cbn [Z.eqb] in Hc. change (cnt t []) with 0 in *. lia.
Qed.

(** ** Calls of the process into [fs.c] *)

Lemma kbal_ilock ip : kbal 1 [TRef ip] (kilock ip) (fun _ => [TRef ip; TLock ip]).
Proof. apply kbal_me; [intros p; apply bal_ilock|done|done]. Qed.
Lemma kbal_iunlock ip : kbal 1 [TLock ip] (kiunlock ip) (fun _ => []).
Proof. apply kbal_me; [intros p; apply bal_iunlock|done|done]. Qed.
Lemma kbal_iput ip : kbal 2 [TRef ip] (kiput ip) (fun _ => []).
Proof. apply kbal_me; [intros p; apply bal_iput|done|done]. Qed.
Lemma kbal_iunlockput ip : kbal 3 [TRef ip; TLock ip] (kiunlockput ip) (fun _ => []).
Proof. apply kbal_me; [intros p; apply bal_iunlockput|done|done]. Qed.
Lemma kbal_dirlink dp name inum : kbal 3 [] (kdirlink dp name inum) (fun _ => []).
Proof. apply kbal_me; [intros p; apply bal_dirlink|done|done]. Qed.
Lemma kbal_dirlookup dp name : kbal 1 [] (kfs (dirlookup dp name)) (fun r => ref_of (fst r)).
Proof. apply kbal_fs; [apply bal_dirlookup|done|intros r; apply no_file_ref_of]. Qed.
Lemma kbal_ialloc dev type : kbal 1 [] (kfs (ialloc dev type)) ref_of.
Proof. apply kbal_fs; [apply bal_ialloc|done|intros r; apply no_file_ref_of]. Qed.
Lemma kbal_namei path : kbal 7 [] (knamei path) ref_of.
Proof. apply kbal_cwd; [intros p; apply bal_namei|done|intros r; apply no_file_ref_of]. Qed.
Lemma kbal_nameiparent path : kbal 7 [] (knameiparent path) (fun r => ref_of (fst r)).
Proof. apply kbal_cwd; [intros p; apply bal_namex|done|intros r; apply no_file_ref_of]. Qed.
End Balance.

Create HintDb kstill.
#[export] Hint Resolve kstill_ret kstill_gets kstill_panic_if kstill_user kstill_dev kstill_pipe kstill_off kstill_finish : kstill.

Ltac kstill := repeat first
  [ solve [eauto with kstill]
  | apply kstill_bind; [|intros ?r]
  | apply kstill_fs; solve [still]
  | apply kstill_fsu; solve [still]
  | progress cbn beta iota zeta
  | match goal with
    | |- kstill (if ?b then _ else _) => destruct b
    | |- kstill (match ?o with Some _ => _ | None => _ end) => destruct o
    | |- kstill (let (_, _) := ?p in _) => destruct p
    end ].

Tactic Notation "kuse" open_constr(H) :=
  match goal with
  | |- kbal ?k ?L (bind _ _) _ =>
      lazymatch type of H with
      | kbal ?k' ?R _ _ => let F := take_toks R L in apply (kbal_bind k k' R F L _ _ _ _ H); [toks|cbn [length]; lia|intros ?r; cbn [app]]
      end
  end.
Ltac kquiet := match goal with
  | |- kbal ?k ?L (bind _ _) _ => apply kbal_still_bind; [solve [kstill]|intros ?r]
  end.
Ltac kend := apply kbal_ret; first [done | toks].

Section Files.
Context {S : Type} {K : Blocks S} {TX : Txn S} {TXOk : TxnOk S} {U : Type} {UM : UserMem U} {PG : Pages U} {D : Type}.
Abbreviation kstate := (kst (S := S) (U := U) (D := D)).
Abbreviation KM := (M kstate).
Abbreviation kb := (kbal (S := S) (U := U) (D := D)).
Implicit Types (s : kstate).

Lemma kstill_pipeclose pi w : kstill (S := S) (U := U) (D := D) (pipeclose pi w).
Proof. unfold pipeclose. kstill. Qed.
Hint Resolve kstill_pipeclose : kstill.

(** The end of a file whose last reference went. *)
Definition close_last (ff : file) : KM unit :=
  match fl_type ff with
  | FD_PIPE => pipeclose (fl_pipe ff) (fl_writable ff)
  | FD_INODE | FD_DEVICE => kbegin_op ;; kiput (fl_ip ff) ;; kend_op
  | FD_NONE => ret tt
  end.

Lemma kbal_close_last ff : 0 < fl_ref ff -> kb 4 (ftok ff) (close_last ff) (fun _ => []).
Proof.
  intros Hr. unfold ftok, close_last. rewrite (proj2 (Z.ltb_lt _ _) Hr). destruct (fl_type ff).
  - kend.
  - apply kbal_still, kstill_pipeclose.
  - kuse kbal_begin. kuse (kbal_iput (fl_ip ff)). apply (kbal_conseq 4 0 _ [TOp] _ _ (fun _ => [])); [apply kbal_end|lia|toks|intros x; toks].
  - kuse kbal_begin. kuse (kbal_iput (fl_ip ff)). apply (kbal_conseq 4 0 _ [TOp] _ _ (fun _ => [])); [apply kbal_end|lia|toks|intros x; toks].
Qed.

Lemma kbal_fileclose f : kb 4 [TFile f] (fileclose f) (fun _ => []).
Proof.
  intros E s Ha Hl r s' H. apply bind_ok_inv in H as (x & s1 & [-> ->]%gets_inv & H). apply bind_ok_inv in H as ([] & s1 & Hp & H).
  destruct (Z.ltb_spec (fl_ref (ks_file s f)) 1) as [|Hge]; [done|]. injection Hp as <-.
  assert (f ∈ file_ptrs) as Hf by (eapply kaccounts_file; [exact Ha|]; cnts; pose proof (cnt_nonneg (TFile f) (owned s)); pose proof (cnt_nonneg (TFile f) E); lia).
  set (x := ks_file s f) in *. apply bind_ok_inv in H as ([] & s1 & [= <-] & H). fold x in H. destruct (Z.ltb_spec 0 (fl_ref x - 1)) as [Hlt|Hle].
  - apply ret_inv in H as [-> ->]. split; [|done]. apply (put_file_ok s f (set_fref (fl_ref x - 1) x) [TFile f] [] E Ha Hf); cbn [fl_ref fl_type set_fref].
    + intros t Ht. cbn [cnt]. rewrite decide_False by (intros E'; by destruct (Ht f)).
      assert (ftok (set_fref (fl_ref x - 1) x) = ftok x) as ->; [|fold x; lia]. unfold ftok. cbn [fl_ref fl_type set_fref fl_ip].
      by rewrite !(proj2 (Z.ltb_lt 0 _)) by lia.
    + intros g Hg. by cnts.
    + cnts. fold x. lia.
    + lia.
  - apply bind_ok_inv in H as (ff & s2 & [-> ->]%gets_inv & H). cbn [ks_file] in H. rewrite upd_eq in H.
    apply bind_ok_inv in H as ([] & s2 & [= <-] & H). apply bind_ok_inv in H as ([] & s3 & [= <-] & H). cbn [ks_fs ks_user ks_file ks_proc ks_pipe ks_woken ks_dev] in H.
    set (s3 := KSt _ _ _ _ _ _ _) in H. set (y := set_ftype FD_NONE (set_fref 0 x)).
    assert (kaccounts s3 (ftok x ++ owned s3 ++ E)) as Ha3.
    { eapply (kaccounts_rel (put_file f y s)).
      - apply (put_file_ok s f y [TFile f] (ftok x) E Ha Hf); cbn [fl_ref fl_type set_fref set_ftype y].
        + intros t Ht. rewrite (ftok_ref0 y) by done. cbn [cnt]. rewrite decide_False by (intros E'; by destruct (Ht f)). fold x. lia.
        + intros g Hg. rewrite no_file_ftok. by cnts.
        + rewrite no_file_ftok. cnts. fold x. lia.
        + done.
      - unfold krel. split_and!; [done|done|]. intros g. cbn [put_file ks_file s3]. unfold upd. rewrite !Z.eqb_refl. by destruct (g =? f). }
    apply (kbal_close_last x ltac:(lia) E s3 Ha3 Hl r s'). exact H.
Qed.

Lemma kbal_close_opt f : kb 4 (file_of f) (if negb (f =? 0) then fileclose f else ret tt) (fun _ => []).
Proof. unfold file_of. destruct (f =? 0); cbn [negb]; [kend|apply kbal_fileclose]. Qed.

(** ** Files that the process has open *)

Lemma kpost_bind {A B} E s (m : KM A) (c : A -> KM B) Q P :
  kpost E s m Q -> (forall r s', m s = Ok (r, s') -> kaccounts s' (Q r ++ owned s' ++ E) -> kpost E s' (c r) P) -> kpost E s (bind m c) P.
Proof.
  intros Hm Hc r s' H. apply bind_ok_inv in H as (a & s1 & H1 & H2). destruct (Hm a s1 H1) as [Ha Hn].
  destruct (Hc a s1 H1 Ha r s' H2) as [Ha' Hn']. split; [done|by eapply same_names_trans].
Qed.

Lemma kpost_gets {A B} E s (g : kstate -> A) (c : A -> KM B) P : kpost E s (c (g s)) P -> kpost E s (bind (gets g) c) P.
Proof. intros Hc r s' H. by apply Hc. Qed.

(** A lock on an inode to which the state has a reference. *)
Lemma kpost_ilock_owned E s R ip : kaccounts s (R ++ owned s ++ E) -> TRef ip ∈ owned s -> Z.of_nat (length (R ++ E)) < klimit ->
  kpost E s (kilock ip) (fun _ => TLock ip :: R).
Proof.
  intros Ha Hin Hl r s' (x & H & ->)%zoom_ok_inv. apply list_elem_of_split in Hin as (L1 & L2 & Eo).
  assert (length (L1 ++ L2) <= 117)%nat as Hlen by (pose proof (length_owned s) as Ho; rewrite Eo, length_app in Ho; rewrite length_app; cbn in Ho; lia).
  destruct Ha as [H1 H2 H3 H4]. destruct (bal_ilock (c_pid (ks_proc s)) ip (R ++ (L1 ++ L2) ++ E) (ks_fs s) r x) as [Ha Hn]; [| |exact H|].
  - eapply accounts_same; [exact H1|]. rewrite Eo. toks.
  - rewrite !length_app in *. unfold limit, klimit in *. lia.
  - split; [split|].
    + change (owned (KSt _ _ _ _ _ _ _)) with (owned s). eapply accounts_same; [exact Ha|]. rewrite Eo. toks.
    + intros f Hf. exact (H2 f Hf).
    + intros f Hf. exact (H3 f Hf).
    + exact H4.
    + intros p Hp. apply Hn, elem_of_app. right. apply elem_of_app. by right.
Qed.

Lemma open_inode_ref s f ip : f ∈ file_ptrs -> 0 < fl_ref (ks_file s f) -> fl_type (ks_file s f) = FD_INODE \/ fl_type (ks_file s f) = FD_DEVICE ->
  ip = fl_ip (ks_file s f) -> TRef ip ∈ owned (S := S) (U := U) (D := D) s.
Proof.
  intros Hf Hr Ht ->. unfold owned. apply elem_of_app. left. apply (elem_of_file_toks _ f); [done|]. unfold ftok.
  rewrite (proj2 (Z.ltb_lt _ _) Hr). destruct Ht as [-> | ->]; by left.
Qed.

Definition live (s : kstate) (f : Z) : Prop := f ∈ file_ptrs /\ 0 < fl_ref (ks_file s f).

Context (dev_read dev_write : Z -> option (Z -> Z -> M (U * D) Z)) (stack_pad : list Z).

Lemma kpost_of {A} k R (m : KM A) Q E s : kb k R m Q -> kaccounts s (R ++ owned s ++ E) -> Z.of_nat (length E) + Z.of_nat k < klimit -> kpost E s m Q.
Proof. intros Hm. apply Hm. Qed.

(** A call on the inode of an open file: it locks it, does nothing to the accounts and
    unlocks it. *)
Lemma kpost_with_inode {B} E s f ip k (c : unit -> KM B) :
  kaccounts s (owned s ++ E) -> Z.of_nat (length E) + Z.of_nat k < klimit -> live s f ->
  fl_type (ks_file s f) = FD_INODE \/ fl_type (ks_file s f) = FD_DEVICE -> ip = fl_ip (ks_file s f) ->
  kb k [TLock ip] (c tt) (fun _ => []) -> kpost E s (bind (kilock ip) c) (fun _ => []).
Proof.
  intros Ha Hl [Hf Hr] Ht Hip Hc. eapply kpost_bind; [apply (kpost_ilock_owned E s [] ip Ha); [by eapply open_inode_ref|cbn; lia]|].
  intros [] s1 _ Ha1. by apply (kpost_of k [TLock ip]).
Qed.

Lemma kpost_filestat E s f addr : kaccounts s (owned s ++ E) -> Z.of_nat (length E) + 5 < klimit -> live s f -> kpost E s (filestat stack_pad f addr) (fun _ => []).
Proof.
  intros Ha Hl Hlv. apply kpost_gets. destruct (fl_type (ks_file s f)) eqn:Et; try (by apply (kpost_ret E s _ _ _ Ha)).
  all: (apply (kpost_with_inode E s f (fl_ip (ks_file s f)) 5); auto; kquiet; kuse (kbal_iunlock (fl_ip (ks_file s f))); kquiet; destruct (_ <? _); kend).
Qed.

Lemma kpost_fileread E s f addr n : kaccounts s (owned s ++ E) -> Z.of_nat (length E) + 5 < klimit -> live s f -> kpost E s (fileread dev_read f addr n) (fun _ => []).
Proof.
  intros Ha Hl Hlv. apply kpost_gets. destruct (negb _); [by apply (kpost_ret E s _ _ _ Ha)|]. destruct (fl_type (ks_file s f)) eqn:Et.
  - by intros r s'.
  - apply (kpost_of 0 []); [apply kbal_still; kstill|exact Ha|lia].
  - apply (kpost_with_inode E s f (fl_ip (ks_file s f)) 5); auto. kquiet. kquiet. kuse (kbal_iunlock (fl_ip (ks_file s f))). kend.
  - apply (kpost_of 0 []); [apply kbal_still; kstill|exact Ha|lia].
Qed.

(** Code that keeps what the accounts need of the files. *)
Definition kkeep {A} (m : KM A) : Prop := forall s r s', m s = Ok (r, s') ->
  forall f, fl_ref (ks_file s' f) = fl_ref (ks_file s f) /\ fl_type (ks_file s' f) = fl_type (ks_file s f) /\ fl_ip (ks_file s' f) = fl_ip (ks_file s f).

Lemma kkeep_fs {A} (m : M fs A) : kkeep (kfs m).
Proof. by intros s r s' (x & H & ->)%zoom_ok_inv. Qed.
Lemma kkeep_me {A} (m : cproc -> M fs A) : kkeep (let! p := myproc in kfs (m p)).
Proof. by intros s r s' (x & H & ->)%zoom_ok_inv. Qed.
Lemma kkeep_ilock ip : kkeep (kilock ip).
Proof. apply kkeep_me. Qed.
Lemma kkeep_still {A} (m : KM A) : kstill m -> kkeep m.
Proof. intros Hm s r s' H. apply (Hm _ _ _ H). Qed.

(** [f] is an open file on the inode [ip]. *)
Definition on_inode (s : kstate) (f ip : Z) : Prop := live s f /\ fl_type (ks_file s f) = FD_INODE /\ fl_ip (ks_file s f) = ip.

Lemma kpost_keep {A B} k R F L E s f ip (m : KM A) (c : A -> KM B) Q P :
  kb k R m Q -> kkeep m -> same_toks L (R ++ F) -> kaccounts s (L ++ owned s ++ E) -> on_inode s f ip -> Z.of_nat (length (F ++ E)) + Z.of_nat k < klimit ->
  (forall r s', on_inode s' f ip -> kaccounts s' ((Q r ++ F) ++ owned s' ++ E) -> kpost E s' (c r) P) -> kpost E s (bind m c) P.
Proof.
  intros Hm Hkp Hs Ha [[Hf Hr] [Ht Hi]] Hl Hc. rewrite length_app in Hl.
  eapply kpost_bind; [apply (kpost_of (k + length F) L m (fun r => Q r ++ F)); [|exact Ha|lia]|].
  - eapply kbal_conseq; [eapply (kbal_frame _ _ R F); [exact Hm|reflexivity]|lia|exact Hs|]. by intros r t.
  - intros r s' H Ha'. apply Hc; [|exact Ha']. destruct (Hkp _ _ _ H f) as (E1 & E2 & E3). split_and!; [split; [done|lia]|congruence..].
Qed.

Lemma kstill_write_chunk ip src off n : kstill (S := S) (U := U) (D := D) (kfsu (writei u_copyin ip src off n)).
Proof. apply kstill_fsu, still_writei. Qed.
Lemma kstill_advance f off (b : bool) : kstill (S := S) (U := U) (D := D) (if b then mod_file f (set_foff off) else ret tt).
Proof. destruct b; [apply kstill_off|apply kstill_ret]. Qed.

Lemma kpost_filewrite_loop E f ip addr n fuel : Z.of_nat (length E) + 10 < klimit -> forall i s, kaccounts s (owned s ++ E) -> on_inode s f ip ->
  kpost E s (filewrite_loop fuel f addr n i) (fun _ => []).
Proof.
  intros Hl. induction fuel as [|fuel IH]; intros i s Ha Hon; cbn [filewrite_loop]; destruct (i <? n); try (by apply (kpost_ret E s _ _ _ Ha)); [by intros r s'|].
  apply kpost_gets. cbv zeta. replace (fl_ip (ks_file s f)) with ip by (symmetry; apply Hon).
  eapply (kpost_keep 0 [] [] []); [apply kbal_begin|apply kkeep_fs|toks|exact Ha|exact Hon|cbn; lia|]. intros [] s1 Hon1 Ha1.
  eapply kpost_bind; [apply (kpost_ilock_owned E s1 [TOp] ip Ha1); [|cbn; lia]; destruct Hon1 as ([Hf Hr] & Ht & Hi); by eapply open_inode_ref; eauto|].
  intros [] s2 H2 Ha2. assert (on_inode s2 f ip) as Hon2.
  { destruct Hon1 as ([Hf Hr] & Ht & Hi), (kkeep_ilock ip _ _ _ H2 f) as (E1 & E2 & E3). split_and!; [split; [done|lia]|congruence..]. }
  eapply (kpost_keep 0 [] [TLock ip; TOp] [TLock ip; TOp]); [apply kbal_still, kstill_write_chunk|apply kkeep_still, kstill_write_chunk|toks|exact Ha2|exact Hon2|cbn; lia|]. intros r s3 Hon3 Ha3.
  eapply (kpost_keep 0 [] [TLock ip; TOp] [TLock ip; TOp]); [apply kbal_still, kstill_advance|apply kkeep_still, kstill_advance|toks|exact Ha3|exact Hon3|cbn; lia|]. intros [] s4 Hon4 Ha4.
  eapply (kpost_keep 1 [TLock ip] [TOp] [TLock ip; TOp]); [apply kbal_iunlock|apply kkeep_me|toks|exact Ha4|exact Hon4|cbn; lia|]. intros [] s5 Hon5 Ha5.
  eapply (kpost_keep 0 [TOp] [] [TOp]); [apply kbal_end|apply kkeep_fs|toks|exact Ha5|exact Hon5|cbn; lia|]. intros [] s6 Hon6 Ha6.
  destruct (r <? 0); [by apply (kpost_ret E s6 _ _ _ Ha6)|].
  eapply (kpost_keep 0 [] [] []); [apply kbal_still, kstill_panic_if|apply kkeep_still, kstill_panic_if|toks|exact Ha6|exact Hon6|cbn; lia|]. intros [] s7 Hon7 Ha7. by apply IH.
Qed.

Lemma kpost_filewrite E s f addr n : kaccounts s (owned s ++ E) -> Z.of_nat (length E) + 10 < klimit -> live s f -> kpost E s (filewrite dev_write f addr n) (fun _ => []).
Proof.
  intros Ha Hl Hlv. apply kpost_gets. destruct (negb _); [by apply (kpost_ret E s _ _ _ Ha)|]. destruct (fl_type (ks_file s f)) eqn:Et.
  - by intros r s'.
  - apply (kpost_of 0 []); [apply kbal_still; kstill|exact Ha|lia].
  - eapply kpost_bind; [by eapply kpost_filewrite_loop|]. intros r s' _ Ha'. by apply (kpost_ret E s' _ _ _ Ha').
  - apply (kpost_of 0 []); [apply kbal_still; kstill|exact Ha|lia].
Qed.

(** ** Descriptors *)

Lemma argraw_same n s v s' : argraw n s = Ok (v, s') -> s' = s.
Proof. unfold argraw. destruct (_ && _); [|done]. intros H. apply bind_ok_inv in H as (? & ? & [-> ->]%gets_inv & [-> ->]%ret_inv). done. Qed.
Lemma argint_same n s v s' : argint n s = Ok (v, s') -> s' = s.
Proof. intros H. apply bind_ok_inv in H as (x & s1 & ->%argraw_same & [-> ->]%ret_inv). done. Qed.

Lemma argfd_inv n s r s' : argfd n s = Ok (r, s') ->
  s' = s /\ match r with Some (fd, f) => 0 <= fd < NOFILE /\ f = c_ofile (ks_proc s) fd /\ f <> 0 | None => True end.
Proof.
  intros H. apply bind_ok_inv in H as (x & s1 & ->%argint_same & H).
  apply bind_ok_inv in H as (p & s1 & [-> ->]%gets_inv & H). destruct (Z.ltb_spec x 0); [by apply ret_inv in H as [-> ->]|].
  destruct (Z.leb_spec NOFILE x); [by apply ret_inv in H as [-> ->]|]. cbn [orb] in H.
  by destruct (Z.eqb_spec (c_ofile (ks_proc s) x) 0) as [|Hnz]; apply ret_inv in H as [-> ->].
Qed.

Lemma open_live s fd R E : kaccounts s (R ++ owned s ++ E) -> 0 <= fd < NOFILE -> c_ofile (ks_proc s) fd <> 0 -> live s (c_ofile (ks_proc s) fd).
Proof.
  intros Ha Hfd Hnz. set (f := c_ofile (ks_proc s) fd) in *. assert (0 < cnt (TFile f) (R ++ owned s ++ E)) as Hc.
  { rewrite !cnt_app. unfold owned. rewrite cnt_app. pose proof (proj1 (cnt_elem (TFile f) _) (elem_of_proc_toks (ks_proc s) fd Hfd Hnz)).
    pose proof (cnt_nonneg (TFile f) R). pose proof (cnt_nonneg (TFile f) E). pose proof (cnt_nonneg (TFile f) (file_toks (ks_file s))). lia. }
  pose proof (kaccounts_file s _ f Ha Hc) as Hf. split; [done|]. by rewrite (ka_file _ _ Ha f Hf).
Qed.

(** A call that starts with [argfd]. *)
Lemma kpost_argfd {A} E s n (c : option (Z * Z) -> KM A) : kaccounts s (owned s ++ E) -> kpost E s (c None) (fun _ => []) ->
  (forall fd f, 0 <= fd < NOFILE -> f = c_ofile (ks_proc s) fd -> f <> 0 -> live s f -> kpost E s (c (Some (fd, f))) (fun _ => [])) ->
  kpost E s (bind (argfd n) c) (fun _ => []).
Proof.
  intros Ha Hn Hc r s' H. apply bind_ok_inv in H as (o & s1 & [-> Ho]%argfd_inv & H). destruct o as [[fd f]|]; [|exact (Hn r s' H)].
  destruct Ho as (Hfd & -> & Hnz). exact (Hc fd _ Hfd eq_refl Hnz (open_live s fd [] E Ha Hfd Hnz) r s' H).
Qed.

(** The references of descriptors to files move between the process and the call. *)
Lemma close_fd s fd f R E : kaccounts s (R ++ owned s ++ E) -> 0 <= fd < NOFILE -> c_ofile (ks_proc s) fd = f -> f <> 0 ->
  kaccounts (put_proc (set_ofile fd 0 (ks_proc s)) s) ((TFile f :: R) ++ owned (put_proc (set_ofile fd 0 (ks_proc s)) s) ++ E).
Proof.
  intros Ha Hfd Hf Hnz. apply (put_proc_ok s _ R (TFile f :: R) E Ha). intros t. pose proof (cnt_ofile_upd (ks_proc s) fd 0 t Hfd) as Hc.
  rewrite Hf in Hc. unfold fdtok in Hc. rewrite (proj2 (Z.eqb_neq f 0) Hnz) in Hc. cbn [Z.eqb] in Hc. change (cnt t (TFile f :: R)) with (cnt t ([TFile f] ++ R)).
  rewrite cnt_app. change (cnt t []) with 0 in Hc. lia.
Qed.

(** A file that is not of any type yet gets one. *)
Lemma retype s f x R R' E : kaccounts s (R ++ owned s ++ E) -> live s f -> fl_type (ks_file s f) = FD_NONE -> fl_ref x = fl_ref (ks_file s f) ->
  same_toks R (ftok x ++ R') -> kaccounts (put_file f x s) (R' ++ owned (put_file f x s) ++ E).
Proof.
  intros Ha [Hf Hr] Ht Hx Hs. assert (forall g, cnt (TFile g) R' = cnt (TFile g) R) as Hg by (intros g; rewrite Hs, cnt_app, no_file_ftok; lia).
  apply (put_file_ok s f x R R' E Ha Hf); [|auto|rewrite Hg; lia|lia].
  intros t _. rewrite (ftok_none (ks_file s f) Ht), Hs, cnt_app. cbn [cnt]. lia.
Qed.

Lemma filealloc_inv s f s' : filealloc s = Ok (f, s') ->
  (f = 0 /\ s' = s) \/ (f ∈ file_ptrs /\ fl_ref (ks_file s f) = 0 /\ s' = put_file f (set_fref 1 (ks_file s f)) s).
Proof.
  intros H. apply bind_ok_inv in H as (o & s1 & [-> ->]%gets_inv & H). destruct (find_file _ _) as [g|] eqn:Eg; [|apply ret_inv in H as [-> ->]; by left].
  apply bind_ok_inv in H as ([] & s1 & [= <-] & [-> ->]%ret_inv). destruct (find_file_some _ _ _ Eg). by right.
Qed.

Lemma fdalloc_inv f s fd s' : fdalloc f s = Ok (fd, s') ->
  (fd = -1 /\ s' = s) \/ (0 <= fd < NOFILE /\ c_ofile (ks_proc s) fd = 0 /\ s' = put_proc (set_ofile fd f (ks_proc s)) s).
Proof.
  intros H. apply bind_ok_inv in H as (p & s1 & [-> ->]%gets_inv & H). destruct (find_fd _ _) as [g|] eqn:Eg; [|apply ret_inv in H as [-> ->]; by left].
  apply bind_ok_inv in H as ([] & s1 & [= <-] & [-> ->]%ret_inv). destruct (find_fd_some _ _ _ Eg) as [Hg%elem_of_upto ?]. by right.
Qed.

(** ** Creating and opening *)

Lemma kstill_inode ip : kstill (S := S) (U := U) (D := D) (kinode ip).
Proof. apply kstill_fs, still_get_inode. Qed.
Lemma kstill_add_nlink ip d : kstill (S := S) (U := U) (D := D) (add_nlink ip d).
Proof. unfold add_nlink. kstill. Qed.
Hint Resolve kstill_inode kstill_add_nlink : kstill.

Lemma kbal_dots ip dp inum pinum (b : bool) : kb 5 []
  (if b then add_nlink dp 1 ;;
     let! r := kdirlink ip dot inum in
     panic_if (r <? 0) "create dots" ;;
     let! r := kdirlink ip dotdot pinum in
     panic_if (r <? 0) "create dots"
   else ret tt) (fun _ => []).
Proof.
  destruct b; [|kend]. kquiet. kuse (kbal_dirlink ip dot inum). kquiet. kuse (kbal_dirlink ip dotdot pinum). apply kbal_still. kstill.
Qed.

(** [create] returns with a reference to the inode and its lock. *)
Definition locked_ref (ip : Z) : list tok := if ip =? 0 then [] else [TRef ip; TLock ip].

Lemma kbal_create path type major minor : kb 14 [] (create path type major minor) locked_ref.
Proof.
  unfold create. kuse (kbal_nameiparent path). unfold ref_of. destruct (Z.eqb_spec (fst r) 0) as [|Hdp]; cbn [app]; [kend|].
  kuse (kbal_ilock (fst r)). kuse (kbal_dirlookup (fst r) (snd r)). unfold ref_of. destruct (Z.eqb_spec (fst r1) 0) as [|Hip]; cbn [app negb].
  - kquiet. kuse (kbal_ialloc (i_dev r2) type). unfold ref_of. destruct (Z.eqb_spec r3 0) as [|Hip]; cbn [app]; [intros E s _ _ x y H; done|].
    kquiet. kuse (kbal_ilock r3). kquiet. kquiet. kquiet. kuse (kbal_dots r3 (fst r) (i_inum r8) (i_inum r2) (type =? T_DIR)).
    kuse (kbal_dirlink (fst r) (snd r) (i_inum r8)). kquiet. kuse (kbal_iunlockput (fst r)). apply kbal_ret.
    unfold locked_ref. rewrite (proj2 (Z.eqb_neq r3 0) Hip). toks.
  - kuse (kbal_iunlockput (fst r)). kuse (kbal_ilock (fst r1)). kquiet. destruct (_ && _).
    + apply kbal_ret. unfold locked_ref. rewrite (proj2 (Z.eqb_neq _ 0) Hip). toks.
    + kuse (kbal_iunlockput (fst r1)). kend.
Qed.

Lemma kpost_open_file E s f x ip omode : kaccounts s ([TRef ip; TLock ip; TOp] ++ owned s ++ E) -> live s f -> fl_type (ks_file s f) = FD_NONE ->
  kaccounts (put_file f (open_file x ip omode (ks_file s f)) s) ([TLock ip; TOp] ++ owned (put_file f (open_file x ip omode (ks_file s f)) s) ++ E).
Proof.
  intros Ha Hlv Ht. apply (retype s f _ [TRef ip; TLock ip; TOp] [TLock ip; TOp] E Ha Hlv Ht); unfold open_file; destruct (_ =? _); cbn [fl_ref]; [done..| |].
  all: unfold ftok; cbn [fl_ref fl_type fl_ip]; rewrite (proj2 (Z.ltb_lt _ _) (proj2 Hlv)); toks.
Qed.

Lemma kbal_leave ip (a : Z) : kb 6 [TRef ip; TLock ip; TOp] (kiunlockput ip ;; kend_op ;; ret a) (fun _ => []).
Proof. kuse (kbal_iunlockput ip). kuse kbal_end. kend. Qed.

(** The end of [open_inode] with a new file. *)
Lemma kbal_opened ip (fd : Z) (b : bool) : kb 6 [TLock ip; TOp] ((if b then kfs (itrunc ip) else ret tt) ;; kiunlock ip ;; kend_op ;; ret fd) (fun _ => []).
Proof. apply kbal_still_bind; [destruct b; kstill|intros []]. kuse (kbal_iunlock ip). kuse kbal_end. kend. Qed.

Lemma kbal_no_fd ip f : kb 9 (file_of f ++ [TRef ip; TLock ip; TOp])
  ((if negb (f =? 0) then fileclose f else ret tt) ;; kiunlockput ip ;; kend_op ;; ret (-1)) (fun _ => []).
Proof.
  apply (kbal_bind 9 4 (file_of f) [TRef ip; TLock ip; TOp] _ _ (fun _ => [])); [apply kbal_close_opt|by intros t|cbn; lia|]. intros [].
  eapply kbal_conseq; [apply kbal_leave|lia|by intros t|by intros r t].
Qed.

Lemma kpost_new_fd E s x ip omode : kaccounts s ([TRef ip; TLock ip; TOp] ++ owned s ++ E) -> Z.of_nat (length E) + 10 < klimit ->
  kpost E s (
    let! f := filealloc in
    let! fd := (if f =? 0 then ret (-1) else fdalloc f) in
    if fd <? 0 then
      (if negb (f =? 0) then fileclose f else ret tt) ;;
      kiunlockput ip ;;
      kend_op ;;
      ret (-1)
    else
      mod_file f (open_file x ip omode) ;;
      (if negb (Z.land omode O_TRUNC =? 0) && (i_type x =? T_FILE) then kfs (itrunc ip) else ret tt) ;;
      kiunlock ip ;;
      kend_op ;;
      ret fd) (fun _ => []).
Proof.
  intros Ha Hl. assert (kb 9 [TRef ip; TLock ip; TOp] filealloc (fun f => file_of f ++ [TRef ip; TLock ip; TOp])) as Hal.
  { apply (kbal_frame 9 0 [] _ filealloc file_of); [apply kbal_filealloc|cbn; lia]. }
  eapply kpost_bind; [apply (kpost_of 9 [TRef ip; TLock ip; TOp] _ _ E s Hal Ha); lia|]. intros f s1 H1 Ha1.
  destruct (filealloc_inv _ _ _ H1) as [[-> ->]|(Hf & H0 & Hs1)].
  { intros r s' H. exact (kpost_of 9 _ _ _ E s (kbal_no_fd ip 0) Ha1 ltac:(lia) r s' H). }
  assert (0 < f) as Hpos by (apply elem_of_file_ptrs in Hf; lia). assert (file_of f = [TFile f]) as Ef by (unfold file_of; by rewrite (proj2 (Z.eqb_neq f 0) ltac:(lia))).
  rewrite (proj2 (Z.eqb_neq f 0) ltac:(lia)). cbn beta in Ha1. rewrite Ef in Ha1.
  eapply kpost_bind; [apply (kpost_of 9 ([TFile f] ++ [TRef ip; TLock ip; TOp]) _ _ E s1 (kbal_frame 9 0 [TFile f] [TRef ip; TLock ip; TOp] _ _ (kbal_fdalloc f) ltac:(cbn; lia)) Ha1); lia|].
  intros fd s2 H2 Ha2. destruct (fdalloc_inv _ _ _ _ H2) as [[-> ->]|(Hfd & H0' & Hs2)].
  { pose proof (kbal_no_fd ip f) as Hn. rewrite Ef, (proj2 (Z.eqb_neq f 0) ltac:(lia)) in Hn. exact (kpost_of 9 _ _ _ E s1 Hn Ha2 ltac:(lia)). }
  cbn beta in Ha2. rewrite (proj2 (Z.ltb_ge fd 0)) in Ha2 |- * by lia. intros r s' H. apply bind_ok_inv in H as ([] & s3 & [= <-] & H).
  assert (ks_file s2 f = set_fref 1 (ks_file s f)) as Ex by (rewrite Hs2, Hs1; cbn [put_proc put_file ks_file]; by rewrite upd_eq).
  refine (kpost_of 6 [TLock ip; TOp] _ _ E (put_file f _ s2) (kbal_opened ip fd _) (kpost_open_file E s2 f x ip omode Ha2 _ _) ltac:(lia) r s' H).
  - split; [done|]. by rewrite Ex.
  - rewrite Ex. cbn [fl_type set_fref]. by apply (ka_none _ _ Ha f Hf).
Qed.

Lemma kbal_open_inode ip omode : kb 10 [TRef ip; TLock ip; TOp] (open_inode ip omode) (fun _ => []).
Proof.
  unfold open_inode. kquiet. destruct (_ && _); [eapply kbal_conseq; [apply kbal_leave|lia|done|done]|]. intros E s Ha Hl. apply kpost_new_fd; [exact Ha|lia].
Qed.

(** ** System calls *)

Lemma kstill_argstr n max : kstill (S := S) (U := U) (D := D) (argstr n max).
Proof. unfold argstr, argaddr, argraw, fetchstr, myproc. kstill. by intros s r s'. Qed.
Lemma kstill_argint n : kstill (S := S) (U := U) (D := D) (argint n).
Proof. unfold argint, argraw, myproc. kstill. by intros s r s'. Qed.
Lemma kstill_argaddr n : kstill (S := S) (U := U) (D := D) (argaddr n).
Proof. unfold argaddr, argraw, myproc. kstill. by intros s r s'. Qed.
Hint Resolve kstill_argstr kstill_argint kstill_argaddr : kstill.

Lemma kbal_sys_open : kb 20 [] sys_open (fun _ => []).
Proof.
  unfold sys_open. kquiet. destruct r as [path|]; [|kend]. kquiet. kuse kbal_begin. destruct (negb _).
  - kuse (kbal_create path T_FILE 0 0). unfold locked_ref. destruct (Z.eqb_spec r1 0); cbn [app]; [kuse kbal_end; kend|].
    eapply kbal_conseq; [apply kbal_open_inode|lia|toks|done].
  - kuse (kbal_namei path). unfold ref_of. destruct (Z.eqb_spec r1 0); cbn [app]; [kuse kbal_end; kend|]. kuse (kbal_ilock r1). kquiet.
    destruct (_ && _); [eapply kbal_conseq; [apply kbal_leave|lia|toks|done]|]. eapply kbal_conseq; [apply kbal_open_inode|lia|toks|done].
Qed.

Lemma kbal_made ip : kb 6 (locked_ref ip ++ [TOp]) (made ip) (fun _ => []).
Proof. unfold made, locked_ref. destruct (_ =? _); cbn [app]; [kuse kbal_end; kend|apply kbal_leave]. Qed.

Lemma kbal_sys_mkdir : kb 20 [] sys_mkdir (fun _ => []).
Proof.
  unfold sys_mkdir. kuse kbal_begin. kquiet.
  apply (kbal_bind 20 14 [] [TOp] _ _ locked_ref); [destruct r0; [apply kbal_create|by kend]|toks|cbn; lia|].
  intros ip. eapply kbal_conseq; [apply kbal_made|lia|toks|done].
Qed.

Lemma kbal_sys_mknod : kb 20 [] sys_mknod (fun _ => []).
Proof.
  unfold sys_mknod. kuse kbal_begin. kquiet.
  apply (kbal_bind 20 14 [] [TOp] _ _ locked_ref); [destruct r0; [kquiet; kquiet; apply kbal_create|by kend]|toks|cbn; lia|].
  intros ip. eapply kbal_conseq; [apply kbal_made|lia|toks|done].
Qed.

Lemma kbal_link_undo ip : kb 8 [TRef ip; TOp] (kilock ip ;; add_nlink ip (-1) ;; kiunlockput ip ;; kend_op ;; ret (-1)) (fun _ => []).
Proof. kuse (kbal_ilock ip). kquiet. eapply kbal_conseq; [apply kbal_leave|lia|toks|done]. Qed.

Lemma kbal_sys_link : kb 20 [] sys_link (fun _ => []).
Proof.
  unfold sys_link. kquiet. destruct r as [old|]; [|kend]. kquiet. destruct r as [new|]; [|kend]. kuse kbal_begin.
  kuse (kbal_namei old). unfold ref_of. destruct (Z.eqb_spec r0 0) as [|Hip]; cbn [app]; [kuse kbal_end; kend|].
  kuse (kbal_ilock r0). kquiet. destruct (_ =? _); [eapply kbal_conseq; [apply kbal_leave|lia|toks|done]|]. kquiet. kuse (kbal_iunlock r0). cbv zeta.
  kuse (kbal_nameiparent new). unfold ref_of. destruct (Z.eqb_spec (fst r5) 0) as [|Hdp]; cbn [app]; [eapply kbal_conseq; [apply kbal_link_undo|lia|toks|done]|].
  kuse (kbal_ilock (fst r5)). kquiet. kquiet.
  apply (kbal_bind 20 5 [] [TRef (fst r5); TLock (fst r5); TRef r0; TOp] _ _ (fun _ => [])); [|toks|cbn; lia|].
  - destruct (negb _); [kend|]. kuse (kbal_dirlink (fst r5) (snd r5) (i_inum r8)). kend.
  - intros fails. cbn [app]. destruct fails; kuse (kbal_iunlockput (fst r5)).
    + eapply kbal_conseq; [apply kbal_link_undo|lia|toks|done].
    + kuse (kbal_iput r0). kuse kbal_end. kend.
Qed.

Lemma kstill_isdirempty dp : kstill (S := S) (U := U) (D := D) (isdirempty dp).
Proof. unfold isdirempty. kstill. Qed.
Hint Resolve kstill_isdirempty : kstill.

Lemma kbal_sys_unlink : kb 20 [] sys_unlink (fun _ => []).
Proof.
  unfold sys_unlink. kquiet. destruct r as [path|]; [|kend]. kuse kbal_begin. kuse (kbal_nameiparent path). unfold ref_of.
  destruct (Z.eqb_spec (fst r0) 0) as [|Hdp]; cbn [app]; [kuse kbal_end; kend|]. kuse (kbal_ilock (fst r0)). cbv zeta.
  destruct (_ || _); [eapply kbal_conseq; [apply kbal_leave|lia|toks|done]|]. kuse (kbal_dirlookup (fst r0) (snd r0)). unfold ref_of.
  destruct (Z.eqb_spec (fst r2) 0) as [|Hip]; cbn [app]; [eapply kbal_conseq; [apply kbal_leave|lia|toks|done]|]. kuse (kbal_ilock (fst r2)). kquiet. kquiet. kquiet.
  destruct r6; [kuse (kbal_iunlockput (fst r2)); eapply kbal_conseq; [apply kbal_leave|lia|toks|done]|].
  kquiet. kquiet. kquiet. kuse (kbal_iunlockput (fst r0)). kquiet. eapply kbal_conseq; [apply kbal_leave|lia|toks|done].
Qed.

Lemma sys_close_ok E s : kaccounts s (owned s ++ E) -> Z.of_nat (length E) + 20 < klimit -> kpost E s sys_close (fun _ => []).
Proof.
  intros Ha Hl. apply kpost_argfd; [done|by apply (kpost_ret E s _ _ _ Ha)|]. intros fd f Hfd -> Hnz _ r s' H.
  apply bind_ok_inv in H as ([] & s1 & [= <-] & H). pose proof (close_fd s fd _ [] E Ha Hfd eq_refl Hnz) as Ha1.
  assert (kb 4 [TFile (c_ofile (ks_proc s) fd)] (fileclose (c_ofile (ks_proc s) fd) ;; ret 0) (fun _ => [])) as Hc by (kuse (kbal_fileclose (c_ofile (ks_proc s) fd)); kend).
  exact (Hc E _ Ha1 ltac:(lia) r s' H).
Qed.

Lemma sys_dup_ok E s : kaccounts s (owned s ++ E) -> Z.of_nat (length E) + 20 < klimit -> kpost E s sys_dup (fun _ => []).
Proof.
  intros Ha Hl. apply kpost_argfd; [done|by apply (kpost_ret E s _ _ _ Ha)|]. intros fd0 f _ _ Hnz [Hf Hr] r s' H.
  apply bind_ok_inv in H as (fd & s1 & H1 & H). destruct (fdalloc_inv _ _ _ _ H1) as [[-> ->]|(Hfd & H0 & ->)]; [apply ret_inv in H as [-> ->]; by split|].
  rewrite (proj2 (Z.ltb_ge fd 0)) in H by lia. apply bind_ok_inv in H as (x & s2 & H2 & [-> ->]%ret_inv).
  set (y := set_fref (i32 (fl_ref (ks_file s f) + 1)) (ks_file s f)).
  assert (filedup f s = Ok (f, put_file f y s) /\ s2 = put_proc (set_ofile fd f (ks_proc s)) (put_file f y s)) as [Hd ->].
  { unfold filedup, get_file, mod_file, bind, gets, panic_if, modify, ret in *. cbn [put_proc ks_file] in H2. destruct (_ <? 1); [done|]. injection H2 as _ <-. done. }
  split; [|done]. destruct (filedup_ok s f [] E f _ Ha ltac:(cbn; lia) Hf Hd) as [_ Ha2].
  apply (put_proc_ok (put_file f y s) (set_ofile fd f (ks_proc s)) [TFile f] [] E Ha2). intros t. pose proof (cnt_ofile_upd (ks_proc s) fd f t Hfd) as Hc.
  unfold fdtok in Hc. rewrite H0, (proj2 (Z.eqb_neq f 0) Hnz) in Hc. cbn [Z.eqb put_file ks_proc] in *. change (cnt t []) with 0 in *. lia.
Qed.

Lemma kpost_argint {A} E s n (c : Z -> KM A) P : (forall v, kpost E s (c v) P) -> kpost E s (bind (argint n) c) P.
Proof. intros Hc r s' H. apply bind_ok_inv in H as (v & s1 & ->%argint_same & H). exact (Hc v r s' H). Qed.
Lemma kpost_argaddr {A} E s n (c : Z -> KM A) P : (forall v, kpost E s (c v) P) -> kpost E s (bind (argaddr n) c) P.
Proof. intros Hc r s' H. apply bind_ok_inv in H as (v & s1 & ->%argraw_same & H). exact (Hc v r s' H). Qed.

Lemma sys_read_ok E s : kaccounts s (owned s ++ E) -> Z.of_nat (length E) + 20 < klimit -> kpost E s (sys_read dev_read) (fun _ => []).
Proof.
  intros Ha Hl. apply kpost_argfd; [done|by apply (kpost_ret E s _ _ _ Ha)|]. intros fd f _ _ _ Hlv. apply kpost_argint. intros n. apply kpost_argaddr. intros p.
  apply kpost_fileread; [done|lia|done].
Qed.
Lemma sys_write_ok E s : kaccounts s (owned s ++ E) -> Z.of_nat (length E) + 20 < klimit -> kpost E s (sys_write dev_write) (fun _ => []).
Proof.
  intros Ha Hl. apply kpost_argfd; [done|by apply (kpost_ret E s _ _ _ Ha)|]. intros fd f _ _ _ Hlv. apply kpost_argint. intros n. apply kpost_argaddr. intros p.
  apply kpost_filewrite; [done|lia|done].
Qed.
Lemma sys_fstat_ok E s : kaccounts s (owned s ++ E) -> Z.of_nat (length E) + 20 < klimit -> kpost E s (sys_fstat stack_pad) (fun _ => []).
Proof.
  intros Ha Hl. apply kpost_argfd; [done|by apply (kpost_ret E s _ _ _ Ha)|]. intros fd f _ _ _ Hlv. apply kpost_argaddr. intros p.
  apply kpost_filestat; [done|lia|done].
Qed.

(** Replacing the working directory: the old one is put back by the call. *)
Lemma chdir_end ip s r s' : (let! p := myproc in kiput (c_cwd p) ;; kend_op ;; mod_myproc (set_cwd ip) ;; ret 0) s = Ok (r, s') ->
  (kiput (c_cwd (ks_proc s)) ;; kend_op ;; ret 0) (put_proc (set_cwd ip (ks_proc s)) s) = Ok (r, s').
Proof.
  intros H. apply bind_ok_inv in H as (p & s1 & [-> ->]%gets_inv & H). apply bind_ok_inv in H as ([] & s1 & H1 & H).
  apply bind_ok_inv in H as ([] & s2 & H2 & H). apply bind_ok_inv in H as ([] & s3 & [= <-] & [-> ->]%ret_inv).
  apply bind_ok_inv in H1 as (p & s1' & [-> ->]%gets_inv & H1). apply zoom_ok_inv in H1 as (x & H1 & ->). apply zoom_ok_inv in H2 as (y & H2 & ->).
  cbn [ks_fs] in H2. set (s1 := put_proc (set_cwd ip (ks_proc s)) s). assert (kiput (c_cwd (ks_proc s)) s1 = Ok (tt, KSt x (ks_user s) (ks_file s) (ks_proc s1) (ks_pipe s) (ks_woken s) (ks_dev s))) as E1.
  { unfold kiput. erewrite bind_ok; [|reflexivity]. unfold kfs. by erewrite zoom_ok. }
  erewrite bind_ok; [|exact E1]. erewrite bind_ok; [reflexivity|]. unfold kend_op, kfs. by erewrite zoom_ok.
Qed.

Lemma kbal_chdir_end ip : kb 6 [TRef ip; TOp] (let! p := myproc in kiput (c_cwd p) ;; kend_op ;; mod_myproc (set_cwd ip) ;; ret 0) (fun _ => []).
Proof.
  intros E s Ha Hl r s' H. apply chdir_end in H. set (cwd := c_cwd (ks_proc s)) in *.
  assert (kb 6 [TRef cwd; TOp] (kiput cwd ;; kend_op ;; ret 0) (fun _ => [])) as Hc by (kuse (kbal_iput cwd); kuse kbal_end; kend).
  refine (Hc E _ _ Hl r s' H). apply (put_proc_ok s (set_cwd ip (ks_proc s)) [TRef ip; TOp] [TRef cwd; TOp] E Ha).
  intros t. pose proof (cnt_cwd (ks_proc s) ip t) as Hcw. fold cwd in Hcw. cbn [cnt] in *. lia.
Qed.

Lemma kbal_sys_chdir : kb 20 [] sys_chdir (fun _ => []).
Proof.
  unfold sys_chdir. kuse kbal_begin. kquiet.
  apply (kbal_bind 20 7 [] [TOp] _ _ ref_of); [destruct r0; [apply kbal_namei|by kend]|toks|cbn; lia|]. intros ip. unfold ref_of. destruct (Z.eqb_spec ip 0); cbn [app]; [kuse kbal_end; kend|].
  kuse (kbal_ilock ip). kquiet. destruct (negb _); [eapply kbal_conseq; [apply kbal_leave|lia|toks|done]|]. kuse (kbal_iunlock ip).
  eapply kbal_conseq; [apply kbal_chdir_end|lia|toks|done].
Qed.

(** ** Pipes *)

(** What [pipealloc] returns: no tokens on failure, two files otherwise. *)
Definition pipe_toks (r : Z * Z * Z) : list tok := let '(rc, f0, f1) := r in if rc <? 0 then [] else [TFile f0; TFile f1].

Lemma kbal_pipe_bad f0 f1 : kb 9 (file_of f0 ++ file_of f1)
  ((if negb (f0 =? 0) then fileclose f0 else ret tt) ;; (if negb (f1 =? 0) then fileclose f1 else ret tt) ;; ret (-1, f0, f1)) pipe_toks.
Proof.
  apply (kbal_bind 9 4 (file_of f0) (file_of f1) _ _ (fun _ => [])); [apply kbal_close_opt|by intros t|unfold file_of; destruct (_ =? _); cbn; lia|]. intros [].
  apply (kbal_bind 9 4 (file_of f1) [] _ _ (fun _ => [])); [apply kbal_close_opt|toks|cbn; lia|]. intros []. kend.
Qed.

Lemma kpost_pipe_ends E s f0 f1 pi : kaccounts s ([TFile f0; TFile f1] ++ owned s ++ E) -> f0 <> f1 -> live s f0 -> live s f1 ->
  fl_type (ks_file s f0) = FD_NONE -> fl_type (ks_file s f1) = FD_NONE ->
  kpost E s (mod_file f0 (read_end pi) ;; mod_file f1 (write_end pi) ;; ret (0, f0, f1)) pipe_toks.
Proof.
  intros Ha Hne L0 L1 T0 T1 r s' H. apply bind_ok_inv in H as ([] & s1 & [= <-] & H). apply bind_ok_inv in H as ([] & s2 & [= <-] & [-> ->]%ret_inv).
  cbn [ks_file ks_fs ks_user ks_proc ks_pipe ks_woken ks_dev]. rewrite upd_ne by auto. split; [|done]. cbn [pipe_toks Z.ltb Z.compare].
  assert (forall (x : file), fl_type x = FD_PIPE -> ftok x = []) as Hp by (intros x Hx; unfold ftok; rewrite Hx; by destruct (_ <? _)).
  pose proof (retype s f0 (read_end pi (ks_file s f0)) [TFile f0; TFile f1] [TFile f0; TFile f1] E Ha L0 T0 eq_refl ltac:(rewrite Hp by done; done)) as Ha1.
  apply (retype (put_file f0 (read_end pi (ks_file s f0)) s) f1 (write_end pi (ks_file s f1)) [TFile f0; TFile f1] [TFile f0; TFile f1] E Ha1).
  - destruct L1. split; [done|]. cbn [put_file ks_file]. by rewrite upd_ne by auto.
  - cbn [put_file ks_file]. by rewrite upd_ne by auto.
  - cbn [put_file ks_file fl_ref write_end]. by rewrite upd_ne by auto.
  - rewrite Hp by done. done.
Qed.

Lemma kpost_pipe_page E s f0 f1 (bad : KM (Z * Z * Z)) : kaccounts s ([TFile f0; TFile f1] ++ owned s ++ E) -> f0 <> f1 -> live s f0 -> live s f1 ->
  fl_type (ks_file s f0) = FD_NONE -> fl_type (ks_file s f1) = FD_NONE -> kb 9 [TFile f0; TFile f1] bad pipe_toks -> Z.of_nat (length E) + 10 < klimit ->
  kpost E s (
    let! pi := kuser pg_alloc in
    if pi =? 0 then bad
    else
      modify (fun s => KSt (ks_fs s) (ks_user s) (ks_file s) (ks_proc s) (upd (ks_pipe s) pi (p_init (ks_pipe s pi))) (ks_woken s) (ks_dev s)) ;;
      mod_file f0 (read_end pi) ;;
      mod_file f1 (write_end pi) ;;
      ret (0, f0, f1)) pipe_toks.
Proof.
  intros Ha Hne L0 L1 T0 T1 Hbad Hl r s' H. apply bind_ok_inv in H as (pi & s1 & (x & _ & ->)%zoom_ok_inv & H).
  assert (forall (x : U) p, kaccounts (KSt (ks_fs s) x (ks_file s) (ks_proc s) p (ks_woken s) (ks_dev s)) ([TFile f0; TFile f1] ++ owned s ++ E)) as Hk.
  { intros x0 p. destruct Ha as [H1 H2 H3 H4]. by split. }
  destruct (pi =? 0).
  - exact (kpost_of 9 [TFile f0; TFile f1] bad pipe_toks E _ Hbad (Hk x (ks_pipe s)) ltac:(lia) r s' H).
  - apply bind_ok_inv in H as ([] & s1 & [= <-] & H). cbn [ks_fs ks_user ks_file ks_proc ks_pipe ks_woken ks_dev] in H.
    exact (kpost_pipe_ends E _ f0 f1 pi (Hk x _) Hne L0 L1 T0 T1 r s' H).
Qed.

Lemma file_of_ptr f : f ∈ file_ptrs -> f <> 0 /\ file_of f = [TFile f].
Proof. intros Hf%elem_of_file_ptrs. unfold file_of. rewrite (proj2 (Z.eqb_neq f 0)) by lia. split; [lia|done]. Qed.

Lemma kbal_pipealloc : kb 10 [] pipealloc pipe_toks.
Proof.
  intros E s Ha Hl. eapply kpost_bind; [apply (kpost_of 0 [] _ _ E s kbal_filealloc Ha); lia|]. intros f0 s1 H1 Ha1.
  destruct (filealloc_inv _ _ _ H1) as [[-> ->]|(Hf0 & H0 & ->)].
  { intros r s' H. apply bind_ok_inv in H as ([] & s1 & [_ ->]%ret_inv & H). apply bind_ok_inv in H as ([] & s1 & [_ ->]%ret_inv & H). apply ret_inv in H as [-> ->]. by split. }
  pose proof (ka_none _ _ Ha f0 Hf0 H0) as Ht0.
  destruct (file_of_ptr f0 Hf0) as [Hnz0 E0]. rewrite (proj2 (Z.eqb_neq f0 0) Hnz0). rewrite E0 in Ha1. set (s1 := put_file f0 _ s) in *.
  assert (kb 5 [TFile f0] filealloc (fun f => file_of f ++ [TFile f0])) as Hal by (apply (kbal_frame 5 0 [] _ filealloc file_of); [apply kbal_filealloc|cbn; lia]).
  eapply kpost_bind; [apply (kpost_of 5 [TFile f0] _ _ E s1 Hal Ha1); lia|]. intros f1 s2 H2 Ha2. cbn beta in Ha2.
  pose proof (kbal_pipe_bad f0) as Hbad. rewrite (proj2 (Z.eqb_neq f0 0) Hnz0), E0 in Hbad.
  destruct (filealloc_inv _ _ _ H2) as [[-> ->]|(Hf1 & H0' & Hs2)].
  { refine (kpost_of 9 ([TFile f0] ++ file_of 0) _ _ E s1 (Hbad 0) _ ltac:(lia)). eapply kaccounts_same; [exact Ha2|toks]. }
  destruct (file_of_ptr f1 Hf1) as [Hnz1 E1]. rewrite E1 in Ha2. specialize (Hbad f1). rewrite (proj2 (Z.eqb_neq f1 0) Hnz1) in Hbad |- *. rewrite E1 in Hbad.
  assert (f0 <> f1) as Hne by (intros <-; revert H0'; cbn [s1 put_file ks_file]; by rewrite upd_eq). pose proof (ka_none _ _ Ha1 f1 Hf1 H0') as Ht1.
  assert (ks_file s2 f0 = set_fref 1 (ks_file s f0)) as X0 by (rewrite Hs2; cbn [put_file ks_file]; rewrite upd_ne by auto; apply upd_eq).
  assert (ks_file s2 f1 = set_fref 1 (ks_file s1 f1)) as X1 by (rewrite Hs2; cbn [put_file ks_file]; apply upd_eq).
  apply (kpost_pipe_page E s2 f0 f1); unfold live; rewrite ?X0, ?X1; [|auto|by split|by split|auto..|exact Hbad|lia]. eapply kaccounts_same; [exact Ha2|toks].
Qed.

Lemma kpost_two_fds E s rf wf (c : Z -> Z -> KM Z) : kaccounts s ([TFile rf; TFile wf] ++ owned s ++ E) -> rf <> 0 -> wf <> 0 -> Z.of_nat (length E) + 20 < klimit ->
  (forall fd0 fd1 s', kaccounts s' (owned s' ++ E) -> fd0 <> fd1 -> 0 <= fd0 < NOFILE -> 0 <= fd1 < NOFILE ->
     c_ofile (ks_proc s') fd0 = rf -> c_ofile (ks_proc s') fd1 = wf -> kpost E s' (c fd0 fd1) (fun _ => [])) ->
  kpost E s (
    let! fd0 := fdalloc rf in
    let! fd1 := (if fd0 <? 0 then ret (-1) else fdalloc wf) in
    if fd1 <? 0 then
      (if 0 <=? fd0 then mod_myproc (set_ofile fd0 0) else ret tt) ;;
      fileclose rf ;; fileclose wf ;; ret (-1)
    else c fd0 fd1) (fun _ => []).
Proof.
  intros Ha Hr Hw Hl Hc. assert (kb 10 [TFile rf; TFile wf] (fileclose rf ;; fileclose wf ;; ret (-1)) (fun _ => [])) as Hb.
  { kuse (kbal_fileclose rf). kuse (kbal_fileclose wf). kend. }
  eapply kpost_bind; [apply (kpost_of 5 _ _ _ E s (kbal_frame 5 0 [TFile rf] [TFile wf] _ _ (kbal_fdalloc rf) ltac:(cbn; lia)) Ha); lia|]. cbn beta.
  intros fd0 s1 H1 Ha1. destruct (fdalloc_inv _ _ _ _ H1) as [[-> ->]|(Hfd0 & H0 & Hs1)].
  { intros r s' H. exact (Hb E s Ha ltac:(lia) r s' H). }
  rewrite (proj2 (Z.ltb_ge fd0 0)) in Ha1 |- * by lia. rewrite (proj2 (Z.leb_le 0 fd0)) by lia.
  assert (c_ofile (ks_proc s1) fd0 = rf) as Ho0 by (rewrite Hs1; cbn; apply upd_eq).
  eapply kpost_bind; [apply (kpost_of 5 _ _ _ E s1 (kbal_frame 5 0 [TFile wf] [] _ _ (kbal_fdalloc wf) ltac:(cbn; lia)) Ha1); lia|]. cbn beta.
  intros fd1 s2 H2 Ha2. destruct (fdalloc_inv _ _ _ _ H2) as [[-> ->]|(Hfd1 & H0' & Hs2)].
  - intros r s' H. apply bind_ok_inv in H as ([] & s3 & [= <-] & H).
    exact (Hb E _ (close_fd s1 fd0 rf [TFile wf] E Ha1 Hfd0 Ho0 Hr) ltac:(lia) r s' H).
  - rewrite (proj2 (Z.ltb_ge fd1 0)) in Ha2 |- * by lia. assert (fd0 <> fd1) as Hne by congruence.
    apply Hc; auto; rewrite Hs2; cbn; [by rewrite upd_ne by auto|apply upd_eq].
Qed.

(** Giving two descriptors back. *)
Lemma kpost_undo_fds E s rf wf fd0 fd1 : kaccounts s (owned s ++ E) -> rf <> 0 -> wf <> 0 -> Z.of_nat (length E) + 20 < klimit ->
  fd0 <> fd1 -> 0 <= fd0 < NOFILE -> 0 <= fd1 < NOFILE -> c_ofile (ks_proc s) fd0 = rf -> c_ofile (ks_proc s) fd1 = wf ->
  kpost E s (mod_myproc (set_ofile fd0 0) ;; mod_myproc (set_ofile fd1 0) ;; fileclose rf ;; fileclose wf ;; ret (-1)) (fun _ => []).
Proof.
  intros Ha Hr Hw Hl Hne Hfd0 Hfd1 Ho0 Ho1 r s' H. apply bind_ok_inv in H as ([] & s1 & [= <-] & H). apply bind_ok_inv in H as ([] & s2 & [= <-] & H).
  pose proof (close_fd s fd0 rf [] E Ha Hfd0 Ho0 Hr) as Ha1. eapply (close_fd _ fd1 wf) in Ha1; [|done| |done]; [|by cbn; rewrite upd_ne by auto].
  assert (kb 10 [TFile wf; TFile rf] (fileclose rf ;; fileclose wf ;; ret (-1)) (fun _ => [])) as Hb by (kuse (kbal_fileclose rf); kuse (kbal_fileclose wf); kend).
  exact (Hb E _ Ha1 ltac:(lia) r s' H).
Qed.

Lemma kaccounts_file_nz s f R E : kaccounts s (R ++ owned s ++ E) -> TFile f ∈ R -> f <> 0.
Proof.
  intros Ha Hin%cnt_elem. assert (f ∈ file_ptrs) as Hf%elem_of_file_ptrs; [|lia]. apply (kaccounts_file s _ f Ha). rewrite !cnt_app.
  pose proof (cnt_nonneg (TFile f) (owned s)). pose proof (cnt_nonneg (TFile f) E). lia.
Qed.

Lemma sys_pipe_ok E s : kaccounts s (owned s ++ E) -> Z.of_nat (length E) + 20 < klimit -> kpost E s sys_pipe (fun _ => []).
Proof.
  intros Ha Hl. apply kpost_argaddr. intros fdarray. eapply kpost_bind; [apply (kpost_of 10 [] _ _ E s kbal_pipealloc Ha); lia|].
  intros [[rc rf] wf] s1 H1 Ha1. cbn [pipe_toks] in Ha1. destruct (rc <? 0); [by apply (kpost_ret E s1 _ _ _ Ha1)|].
  assert (rf <> 0) as Hr by (apply (kaccounts_file_nz _ _ _ _ Ha1); set_solver). assert (wf <> 0) as Hw by (apply (kaccounts_file_nz _ _ _ _ Ha1); set_solver).
  cbv zeta. apply (kpost_two_fds E s1 rf wf _ Ha1 Hr Hw Hl). intros fd0 fd1 s2 Ha2 Hne Hfd0 Hfd1 Ho0 Ho1 r s' H.
  apply bind_ok_inv in H as (r0 & s3 & (x & _ & ->)%zoom_ok_inv & H). apply bind_ok_inv in H as (r1 & s4 & H4 & H).
  assert (exists y, s4 = KSt (ks_fs s2) y (ks_file s2) (ks_proc s2) (ks_pipe s2) (ks_woken s2) (ks_dev s2)) as (y & ->).
  { destruct (r0 <? 0); [apply ret_inv in H4 as [_ ->]; by exists x|apply zoom_ok_inv in H4 as (y & _ & ->); by exists y]. }
  assert (kaccounts (KSt (ks_fs s2) y (ks_file s2) (ks_proc s2) (ks_pipe s2) (ks_woken s2) (ks_dev s2)) (owned s2 ++ E)) as Ha4.
  { destruct Ha2 as [A1 A2 A3 A4]. by split. }
  destruct (r1 <? 0); [|apply ret_inv in H as [-> ->]; by split].
  exact (kpost_undo_fds E _ rf wf fd0 fd1 Ha4 Hr Hw Hl Hne Hfd0 Hfd1 Ho0 Ho1 r s' H).
Qed.

(** ** All of [sysfile.c] *)

Definition file_calls : list (KM Z) :=
  [sys_dup; sys_read dev_read; sys_write dev_write; sys_close; sys_fstat stack_pad; sys_link; sys_unlink; sys_open; sys_mkdir; sys_mknod; sys_chdir; sys_pipe].

(** C22. Every system call on files, whatever it returns, is balanced.  Before it, the reference
    counts of the inode cache and of the file table count the references held by open
    files, by the descriptors and the working directory of the process, and by others
    ([E]); no inode is locked, and no log operation open, but by others.  The same holds
    afterwards: no reference, lock or operation is leaked or dropped twice on any path,
    and the inodes to which others have references are still the same inodes. *)
Theorem syscalls_balanced m E s r s' :
  m ∈ file_calls -> kaccounts s (owned s ++ E) -> Z.of_nat (length E) < 2 ^ 31 - 2000 -> m s = Ok (r, s') ->
  kaccounts s' (owned s' ++ E) /\ same_names E (ks_fs s) (ks_fs s') /\ k_depth (f_blk (ks_fs s')) = k_depth (f_blk (ks_fs s)).
Proof.
  intros Hm Ha Hl H. assert (Z.of_nat (length E) + 20 < klimit) as Hl' by (unfold klimit; lia).
  assert (kpost E s m (fun _ => [])) as Hp.
  { unfold file_calls in Hm. rewrite !elem_of_cons, elem_of_nil in Hm.
    destruct Hm as [->|[->|[->|[->|[->|[->|[->|[->|[->|[->|[->|[->|[]]]]]]]]]]]]]; [by apply sys_dup_ok|by apply sys_read_ok|by apply sys_write_ok|by apply sys_close_ok|by apply sys_fstat_ok| | | | | | |by apply sys_pipe_ok].
    all: first [apply kbal_sys_link | apply kbal_sys_unlink | apply kbal_sys_open | apply kbal_sys_mkdir | apply kbal_sys_mknod | apply kbal_sys_chdir]; [exact Ha|lia]. }
  destruct (Hp r s' H) as [Ha' Hn]. split_and!; [exact Ha'|exact Hn|]. rewrite (ac_op _ _ (ka_fs _ _ Ha)), (ac_op _ _ (ka_fs _ _ Ha')).
  cbn [app]. rewrite !cnt_app, !owned_op. done.
Qed.
End Files.
