(* ===== verification/SysDemo.v ===== *)
(** * A process on the small disk

    The process of pid 7 with the root as its working directory, on the disk of [FsDemo];
    some other process holds a reference to the file [a].  The theorem on system calls is
    applied to [open("/a", O_RDONLY)]. *)

From S2P Require Import Prelude Bytes Riscv Cache Blocks Fs FsSpec FsDir FsBalance FsDemo UserIO Pipe File Sysfile Balance.

(** A machine with no page for a pipe. *)
#[local] Instance no_pages : Pages flat := {| pg_alloc := ret 0; pg_free := fun _ => ret tt |}.

Definition demo_proc : cproc := CProc 7 false 4096 1 (fun _ => 0) (fun _ => 0).
Definition no_file_open : file := File_ FD_NONE 0 false false 0 0 0 0.

(** [/a] is the string at address 0. *)
Definition demo_user : flat := fun a => if a =? 0 then Some 47 else if a =? 1 then Some 97 else if a =? 2 then Some 0 else None.
Definition demo_kst : kst (S := flat_disk) (U := flat) (D := unit) :=
  KSt (Fs demo_sb demo_icache demo_disk) demo_user (fun _ => no_file_open) demo_proc (fun _ => p_init (Pipe (fun _ => 0) 0 0 false false)) [] tt.

Lemma demo_owned : owned demo_kst = [TRef 1].
Proof. reflexivity. Qed.

Lemma demo_kaccounts : kaccounts demo_kst (owned demo_kst ++ [TRef 2]).
Proof.
  rewrite demo_owned. split; [split| | |]; cbn [demo_kst ks_fs f_icache ks_file no_file_open fl_ref fl_type f_blk]; try done.
  - intros p _. unfold demo_icache. cnts. by destruct (Z.eqb_spec p 1), (Z.eqb_spec p 2); repeat case_decide; simplify_eq.
  - intros p _. unfold demo_icache. cnts. by destruct (Z.eqb_spec p 1), (Z.eqb_spec p 2).
  - intros p Hp. rewrite elem_of_icache_ptrs in Hp. cnts. repeat case_decide; simplify_eq; try done; destruct Hp; done.
  - intros p q dev inum _ _. unfold cached, demo_icache. destruct (Z.eqb_spec p 1), (Z.eqb_spec p 2), (Z.eqb_spec q 1), (Z.eqb_spec q 2); cbn; lia.
Qed.

Definition result {A B} (m : res (A * B)) : option A := match m with Ok (a, _) => Some a | _ => None end.

Lemma result_inv {A B} (m : res (A * B)) a : result m = Some a -> exists b, m = Ok (a, b).
Proof. destruct m as [[a' b]| | |]; [|done..]. intros [= ->]. by exists b. Qed.

Lemma demo_open : result (sys_open demo_kst) = Some 0.
Proof. vm_compute. reflexivity. Qed.

Lemma syscalls_balanced_witness : exists s', sys_open demo_kst = Ok (0, s') /\ kaccounts s' (owned s' ++ [TRef 2]).
Proof.
  destruct (result_inv _ _ demo_open) as [s' H].
  destruct (syscalls_balanced (fun _ => None) (fun _ => None) [] sys_open [TRef 2] demo_kst 0 s') as [Ha _].
  - unfold file_calls. do 7 right. left.
  - exact demo_kaccounts.
  - cbn. lia.
  - exact H.
  - exists s'. split; [exact H|exact Ha].
Defined.
