(* ===== verification/Grep.v ===== *)
(** * [user/grep.c]

    The matcher for [^ . * $] and the loop that reads a file in pieces and prints the lines
    that match.  A string is the list of its characters before the NUL.  [read] returns any
    number of bytes from one to the number asked for, and zero at the end of the file. *)

From S2P Require Import Prelude Bytes.

(** ** The matcher *)

Definition CARET : Z := 94.
Definition DOLLAR : Z := 36.
Definition DOT : Z := 46.
Definition STAR : Z := 42.
Definition NL : Z := 10.

(** [matchstar(c, re, text)] is the inner loop, with [here] for [matchhere(re, _)]. *)
Fixpoint matchstar (here : list Z -> bool) (c : Z) (text : list Z) : bool :=
  if here text then true
  else
    match text with
    | [] => false
    | t :: text' => if (t =? c) || (c =? DOT) then matchstar here c text' else false
    end.

Fixpoint matchhere (re text : list Z) : bool :=
  match re with
  | [] => true
  | c :: re1 =>
      let step := match text with
        | [] => false
        | t :: text' => if (c =? DOT) || (c =? t) then matchhere re1 text' else false
        end in
      match re1 with
      | s :: re2 => if s =? STAR then matchstar (matchhere re2) c text else step
      | [] => if c =? DOLLAR then match text with [] => true | _ => false end else step
      end
  end.

Fixpoint match_any (re text : list Z) : bool :=
  if matchhere re text then true
  else
    match text with
    | [] => false
    | _ :: text' => match_any re text'
    end.

Definition match_ (re text : list Z) : bool :=
  match re with
  | c :: re' => if c =? CARET then matchhere re' text else match_any re text
  | [] => match_any re text
  end.

(** ** The language of a pattern *)

Inductive item := One (c : Z) | Many (c : Z).

(** The items of a pattern, and whether it ends in [$]. *)
Fixpoint items (re : list Z) : list item * bool :=
  match re with
  | [] => ([], false)
  | c :: re1 =>
      match re1 with
      | s :: re2 =>
          if s =? STAR then let '(l, e) := items re2 in (Many c :: l, e)
          else let '(l, e) := items re1 in (One c :: l, e)
      | [] => if c =? DOLLAR then ([], true) else ([One c], false)
      end
  end.

Definition fits (c t : Z) : Prop := c = DOT \/ t = c.

Inductive lang : list item -> list Z -> Prop :=
| lang_nil : lang [] []
| lang_one c l t w : fits c t -> lang l w -> lang (One c :: l) (t :: w)
| lang_many c l u w : Forall (fits c) u -> lang l w -> lang (Many c :: l) (u ++ w).

(** The text starts with a word of the pattern, and is it when the pattern ends in [$]. *)
Definition here_spec (re text : list Z) : Prop :=
  exists w rest, text = w ++ rest /\ lang (fst (items re)) w /\ (snd (items re) = true -> rest = []).

Definition match_spec (re text : list Z) : Prop :=
  match re with
  | c :: re' => if c =? CARET then here_spec re' text else exists skip rest, text = skip ++ rest /\ here_spec re rest
  | [] => True
  end.

Lemma here_nil text : here_spec [] text.
Proof. exists [], text. split_and!; [done|constructor|done]. Qed.

Lemma here_one c re1 text : items (c :: re1) = (let '(l, e) := items re1 in (One c :: l, e)) ->
  here_spec (c :: re1) text <-> exists t text', text = t :: text' /\ fits c t /\ here_spec re1 text'.
Proof.
  intros E. unfold here_spec. rewrite E. destruct (items re1) as [l e]. cbn [fst snd]. split.
  - intros (w & rest & -> & H & He). inversion H as [|? ? t w' Hf Hw|]; subst. exists t, (w' ++ rest). split_and!; [done|done|]. by exists w', rest.
  - intros (t & text' & -> & Hf & w & rest & -> & Hw & He). exists (t :: w), rest. split_and!; [done|by constructor|done].
Qed.

Lemma here_many c re2 text : here_spec (c :: STAR :: re2) text <-> exists u text', text = u ++ text' /\ Forall (fits c) u /\ here_spec re2 text'.
Proof.
  unfold here_spec. cbn [items]. rewrite Z.eqb_refl. destruct (items re2) as [l e]. cbn [fst snd]. split.
  - intros (w & rest & -> & H & He). inversion H as [| |? ? u w' Hf Hw]; subst. exists u, (w' ++ rest). rewrite (assoc_L (++)). split_and!; [done|done|]. by exists w', rest.
  - intros (u & text' & -> & Hf & w & rest & -> & Hw & He). exists (u ++ w), rest. rewrite (assoc_L (++)). split_and!; [done|by constructor|done].
Qed.

Lemma here_dollar text : here_spec [DOLLAR] text <-> text = [].
Proof.
  split.
  - intros (w & rest & -> & H & He). inversion H; subst. by apply He.
  - intros ->. exists [], []. split_and!; [done|constructor|done].
Qed.

Lemma fits_bool c t : (t =? c) || (c =? DOT) = true <-> fits c t.
Proof. unfold fits. rewrite orb_true_iff, !Z.eqb_eq. tauto. Qed.

Lemma matchstar_spec here c P : (forall text, here text = true <-> P text) ->
  forall text, matchstar here c text = true <-> exists u text', text = u ++ text' /\ Forall (fits c) u /\ P text'.
Proof.
  intros Hh. induction text as [|t text IH]; cbn [matchstar]; destruct (here _) eqn:E.
  - split; [intros _; exists [], []; split_and!; [done|constructor|by apply Hh]|done].
  - split; [done|]. intros (u & x & Hu & _ & Hx). symmetry in Hu. apply app_eq_nil in Hu as [-> ->]. apply Hh in Hx. congruence.
  - split; [intros _; exists [], (t :: text); split_and!; [done|constructor|by apply Hh]|done].
  - destruct ((t =? c) || (c =? DOT)) eqn:Ef.
    + rewrite IH. split.
      * intros (u & x & -> & Hu & Hx). exists (t :: u), x. split_and!; [done|constructor; [by apply fits_bool|done]|done].
      * intros ([|t' u] & x & Hu & Hf & Hx); cbn in Hu; [subst x; apply Hh in Hx; congruence|]. injection Hu as <- ->. inversion Hf; subst. by exists u, x.
    + split; [done|]. intros ([|t' u] & x & Hu & Hf & Hx); cbn in Hu; [subst x; apply Hh in Hx; congruence|].
      injection Hu as <- ->. inversion Hf as [|? ? Hft]; subst. apply fits_bool in Hft. congruence.
Qed.

Lemma matchhere_spec n : forall re, (length re <= n)%nat -> forall text, matchhere re text = true <-> here_spec re text.
Proof.
  induction n as [|n IH]; intros re Hn text; (destruct re as [|c re1]; [split; [intros _; apply here_nil|done]|]); [cbn in Hn; lia|]. cbn in Hn.
  assert ((match text with [] => false | t :: text' => if (c =? DOT) || (c =? t) then matchhere re1 text' else false end) = true <->
    exists t text', text = t :: text' /\ fits c t /\ here_spec re1 text') as Hstep.
  { destruct text as [|t text']; [split; [done|by intros (? & ? & ? & _)]|]. rewrite (Z.eqb_sym c t), orb_comm. destruct ((t =? c) || (c =? DOT)) eqn:Ef.
    - rewrite (IH re1) by lia. apply fits_bool in Ef. split; [by exists t, text'|by intros (? & ? & [= <- <-] & _ & ?)].
    - split; [done|]. intros (? & ? & [= <- <-] & Hf & _). apply fits_bool in Hf. congruence. }
  cbn [matchhere]. destruct re1 as [|s re2].
  - destruct (Z.eqb_spec c DOLLAR) as [->|Hd].
    + rewrite here_dollar. by destruct text.
    + rewrite Hstep. symmetry. apply here_one. cbn [items]. by rewrite (proj2 (Z.eqb_neq _ _) Hd).
  - destruct (Z.eqb_spec s STAR) as [->|Hs].
    + rewrite here_many. apply matchstar_spec. apply IH. cbn in Hn. lia.
    + rewrite Hstep. symmetry. apply here_one. cbn [items]. by rewrite (proj2 (Z.eqb_neq _ _) Hs).
Qed.

Lemma match_any_spec re text : match_any re text = true <-> exists skip rest, text = skip ++ rest /\ here_spec re rest.
Proof.
  pose proof (fun t => matchhere_spec _ re (le_n _) t) as Hh. induction text as [|t text IH]; cbn [match_any]; destruct (matchhere re _) eqn:E.
  - split; [intros _; exists [], []; split; [done|by apply Hh]|done].
  - split; [done|]. intros (u & x & Hu & Hx). symmetry in Hu. apply app_eq_nil in Hu as [-> ->]. apply Hh in Hx. congruence.
  - split; [intros _; exists [], (t :: text); split; [done|by apply Hh]|done].
  - rewrite IH. split.
    + intros (u & x & -> & Hx). by exists (t :: u), x.
    + intros ([|t' u] & x & Hu & Hx); cbn in Hu; [subst x; apply Hh in Hx; congruence|]. injection Hu as <- ->. by exists u, x.
Qed.

Theorem match_matches re text : match_ re text = true <-> match_spec re text.
Proof.
  unfold match_, match_spec. destruct re as [|c re'].
  - split; [done|]. intros _. by destruct text.
  - destruct (c =? CARET); [by apply matchhere_spec with (length re')|apply match_any_spec].
Qed.

#[export] Instance match_spec_dec re text : Decision (match_spec re text).
Proof. refine (cast_if (decide (match_ re text = true))); by rewrite <- match_matches. Defined.

(** ** The loop *)

(** What is left of the file, how much the next calls of [read] return, and the output. *)
Record gst := GSt { g_rest : list Z; g_sizes : list Z; g_out : list Z }.

Definition read_size (n : Z) (sizes : list Z) : nat := if n <=? 0 then O else Z.to_nat (Z.max 1 (Z.min (hd n sizes) n)).

(** [read(fd, _, n)] *)
Definition read (n : Z) : M gst (list Z) :=
  let! rest := gets g_rest in
  let! sizes := gets g_sizes in
  let k := read_size n sizes in
  modify (fun s => GSt (drop k rest) (tl sizes) (g_out s)) ;;
  ret (take k rest).

(** [write(1, _, _)] *)
Definition write (bs : list Z) : M gst unit := modify (fun s => GSt (g_rest s) (g_sizes s) (g_out s ++ bs)).

(** [strchr(p, '\n')]: the characters before the newline and those after it. *)
Fixpoint line_end (p : list Z) : option (list Z * list Z) :=
  match p with
  | [] => None
  | c :: p' =>
      if c =? 0 then None
      else if c =? NL then Some ([], p')
      else match line_end p' with Some (l, q) => Some (c :: l, q) | None => None end
  end.

(** The inner loop; it returns the bytes from the last [p] on. *)
Fixpoint grep_lines (fuel : nat) (pattern p : list Z) : M gst (list Z) :=
  match fuel with
  | O => nofuel
  | S fuel =>
      match line_end p with
      | None => ret p
      | Some (l, q) =>
          (if match_ pattern l then write (l ++ [NL]) else ret tt) ;;
          grep_lines fuel pattern q
      end
  end.

Definition BUF : Z := 1024.

(** [buf] are the first [m] bytes of the buffer. *)
Fixpoint grep_loop (fuel : nat) (pattern buf : list Z) : M gst unit :=
  match fuel with
  | O => nofuel
  | S fuel =>
      let! got := read (BUF - zlen buf - 1) in
      match got with
      | [] => ret tt
      | _ =>
          let! p := grep_lines (S (length (buf ++ got))) pattern (buf ++ got) in
          grep_loop fuel pattern p
      end
  end.

Definition grep (pattern : list Z) : M gst unit :=
  let! rest := gets g_rest in
  grep_loop (S (length rest)) pattern [].

(** ** Lines *)

(** A line without its newline. *)
Definition wf_line (l : list Z) : Prop := Forall (fun c => c <> 0 /\ c <> NL) l.

Definition unlines (ls : list (list Z)) : list Z := concat ((fun l => l ++ [NL]) <$> ls).

Lemma unlines_cons l ls : unlines (l :: ls) = l ++ NL :: unlines ls.
Proof. unfold unlines. cbn. by rewrite <- (assoc_L (++)). Qed.

Lemma unlines_app ls1 ls2 : unlines (ls1 ++ ls2) = unlines ls1 ++ unlines ls2.
Proof. unfold unlines. by rewrite fmap_app, concat_app. Qed.

Lemma line_end_line l q : wf_line l -> line_end (l ++ NL :: q) = Some (l, q).
Proof.
  induction 1 as [|c l [H0 Hn] _ IH]; [done|]. cbn [line_end app]. rewrite (proj2 (Z.eqb_neq c 0) H0), (proj2 (Z.eqb_neq c NL) Hn). by rewrite IH.
Qed.

Lemma line_end_none l : wf_line l -> line_end l = None.
Proof. induction 1 as [|c l [H0 Hn] _ IH]; [done|]. cbn [line_end]. rewrite (proj2 (Z.eqb_neq c 0) H0), (proj2 (Z.eqb_neq c NL) Hn). by rewrite IH. Qed.

(** The lines of [ls] that [pattern] matches. *)
Definition matching (pattern : list Z) (ls : list (list Z)) : list (list Z) := filter (match_spec pattern) ls.

Lemma matching_cons pattern l ls : unlines (matching pattern (l :: ls)) = (if match_ pattern l then l ++ [NL] else []) ++ unlines (matching pattern ls).
Proof.
  unfold matching. rewrite filter_cons. destruct (match_ pattern l) eqn:E.
  - rewrite decide_True by (by apply match_matches). rewrite unlines_cons. by rewrite <- (assoc_L (++)).
  - rewrite decide_False; [done|]. intros H%match_matches. congruence.
Qed.

Lemma grep_lines_ok pattern p : wf_line p -> forall ls fuel s, Forall wf_line ls -> (length (unlines ls ++ p) < fuel)%nat ->
  grep_lines fuel pattern (unlines ls ++ p) s = Ok (p, GSt (g_rest s) (g_sizes s) (g_out s ++ unlines (matching pattern ls))).
Proof.
  intros Hp. induction ls as [|l ls IH]; intros [|fuel] s Hls Hf; try lia; cbn [grep_lines].
  - cbn [unlines fmap list_fmap concat app]. rewrite line_end_none by done. destruct s. unfold ret. cbn. by rewrite app_nil_r.
  - apply Forall_cons in Hls as [Hl Hls]. rewrite unlines_cons in *. rewrite <- (assoc_L (++)) in *. cbn [app] in *. rewrite line_end_line by done.
    rewrite length_app in Hf. cbn [length] in Hf. rewrite matching_cons. destruct (match_ pattern l); mcomp; rewrite IH by (done || lia); [|done].
    cbn. by rewrite !(assoc_L (++)).
Qed.

(** A piece of the file ends inside a line. *)
Lemma piece tail : wf_line tail -> forall ls x y, Forall wf_line ls -> x ++ y = unlines ls ++ tail ->
  exists ls1 ls2 p, ls = ls1 ++ ls2 /\ x = unlines ls1 ++ p /\ wf_line p /\ p ++ y = unlines ls2 ++ tail.
Proof.
  intros Ht. induction ls as [|l ls IH]; intros x y Hls E.
  - exists [], [], x. split_and!; [done|done| |done]. cbn in E. rewrite <- E in Ht. by apply Forall_app in Ht as [? _].
  - apply Forall_cons in Hls as [Hl Hls]. rewrite unlines_cons in E. rewrite <- (assoc_L (++)) in E. cbn [app] in E.
    destruct (app_eq_inv _ _ _ _ E) as [(k & -> & E2)|(k & El & E2)].
    + destruct k as [|c k]; cbn in E2.
      * exists [], (l :: ls), l. rewrite app_nil_r, unlines_cons, <- (assoc_L (++)). cbn. subst y. done.
      * injection E2 as <- E2. destruct (IH k y Hls (eq_sym E2)) as (ls1 & ls2 & p & -> & -> & Hp & Ep). exists (l :: ls1), ls2, p.
        rewrite unlines_cons, <- (assoc_L (++)). done.
    + exists [], (l :: ls), x. rewrite El in Hl. apply Forall_app in Hl as [Hx Hk]. split_and!; [done|done|done|]. by rewrite unlines_cons, <- (assoc_L (++)).
Qed.

Lemma no_newline x y l z : wf_line x -> x ++ y = l ++ NL :: z -> (length x <= length l)%nat.
Proof.
  intros Hx E. destruct (app_eq_inv _ _ _ _ E) as [(k & -> & E2)|(k & -> & E2)]; [|rewrite length_app; lia].
  destruct k as [|c k]; [rewrite app_nil_r; lia|]. injection E2 as <- _. apply Forall_app in Hx as [_ Hx]. apply Forall_cons in Hx as [[_ ?] _]. done.
Qed.

Lemma read_run n s : let k := read_size n (g_sizes s) in
  read n s = Ok (take k (g_rest s), GSt (drop k (g_rest s)) (tl (g_sizes s)) (g_out s)).
Proof. reflexivity. Qed.

Lemma read_size_pos n sizes : 0 < n -> (0 < read_size n sizes)%nat.
Proof. intros Hn. unfold read_size. rewrite (proj2 (Z.leb_gt n 0)) by lia. lia. Qed.

Definition short (l : list Z) : Prop := zlen l < BUF - 1.

Lemma grep_loop_ok pattern tail : wf_line tail -> forall fuel buf ls s, wf_line buf -> Forall wf_line ls -> Forall short ls ->
  buf ++ g_rest s = unlines ls ++ tail -> (length (g_rest s) < fuel)%nat ->
  exists s', grep_loop fuel pattern buf s = Ok (tt, s') /\ g_out s' = g_out s ++ unlines (matching pattern ls).
Proof.
  intros Ht. induction fuel as [|fuel IH]; intros buf ls s Hb Hls Hsh E Hf; [lia|]. cbn [grep_loop]. mstep read_run.
  set (k := read_size _ _). set (s1 := GSt _ _ _). destruct (take k (g_rest s)) as [|c got] eqn:Eg.
  - exists s1. split; [done|]. cbn [s1 g_out]. assert (ls = []) as ->; [|cbn; by rewrite app_nil_r].
    destruct ls as [|l ls]; [done|]. exfalso. rewrite unlines_cons, <- (assoc_L (++)) in E. cbn [app] in E. pose proof (no_newline _ _ _ _ Hb E) as Hle.
    apply Forall_cons in Hsh as [Hl _]. unfold short in Hl. destruct (Z.le_gt_cases (BUF - zlen buf - 1) 0) as [|Hpos]; [lia|].
    pose proof (read_size_pos _ (g_sizes s) Hpos) as Hk. fold k in Hk. destruct (g_rest s) as [|d rest]; [|by destruct k; [lia|]].
    rewrite app_nil_r in E. rewrite E in Hb. apply Forall_app in Hb as [_ Hb]. apply Forall_cons in Hb as [[_ ?] _]. done.
  - rewrite <- Eg. assert (buf ++ g_rest s = (buf ++ take k (g_rest s)) ++ drop k (g_rest s)) as E' by (by rewrite <- (assoc_L (++)), take_drop).
    rewrite E' in E. destruct (piece tail Ht ls _ _ Hls E) as (ls1 & ls2 & p & -> & Ex & Hp & Ep). rewrite Ex.
    apply Forall_app in Hls as [Hl1 Hl2]. apply Forall_app in Hsh as [_ Hs2]. mstep (grep_lines_ok pattern p Hp ls1 (S (length (unlines ls1 ++ p))) s1 Hl1 ltac:(lia)).
    destruct (IH p ls2 (GSt (g_rest s1) (g_sizes s1) (g_out s1 ++ unlines (matching pattern ls1))) Hp Hl2 Hs2 Ep) as (s' & H & Ho).
    { cbn [g_rest s1]. rewrite length_drop. destruct k; [done|]. destruct (g_rest s); [done|]. cbn in *. lia. }
    exists s'. split; [exact H|]. rewrite Ho. cbn [g_out s1]. unfold matching. by rewrite filter_app, unlines_app, (assoc_L (++)).
Qed.

(** C30. [grep] on a file of lines that fit in the buffer, and perhaps some characters after
    the last newline.  However [read] cuts the file into pieces, [grep] returns, and it has
    printed, in order, exactly the lines that contain a word of the language of the
    pattern: at their start after [^], up to their end before [$], with [.] for any
    character and [c*] for any number of [c].  The characters after the last newline are
    never looked at. *)
Theorem grep_correct (pattern tail : list Z) (ls : list (list Z)) (sizes : list Z) (out : list Z)
    (Hls : Forall wf_line ls) (Hshort : Forall short ls) (Htail : wf_line tail) :
  exists s', grep pattern (GSt (unlines ls ++ tail) sizes out) = Ok (tt, s') /\
    g_out s' = out ++ unlines (filter (match_spec pattern) ls).
Proof.
  unfold grep. mcomp. by apply (grep_loop_ok pattern tail Htail _ [] ls (GSt (unlines ls ++ tail) sizes out)); [constructor|..|cbn; lia].
Qed.

(** [grep '^a.*c$'] on the lines [abc], [ab] and [xabc]. *)
Lemma grep_correct_witness : exists s', grep [94; 97; 46; 42; 99; 36] (GSt (unlines [[97; 98; 99]; [97; 98]; [120; 97; 98; 99]] ++ [97; 99]) [2; 3; 1] []) = Ok (tt, s') /\
  g_out s' = [97; 98; 99; 10].
Proof.
  destruct (grep_correct [94; 97; 46; 42; 99; 36] [97; 99] [[97; 98; 99]; [97; 98]; [120; 97; 98; 99]] [2; 3; 1] []) as (s' & H & Ho).
  - repeat constructor; done.
  - repeat constructor; done.
  - repeat constructor; done.
  - exists s'. split; [exact H|]. rewrite Ho. reflexivity.
Defined.
