(* ===== verification/Sh.v ===== *)
(** * The parser of the shell, [user/sh.c]

    The line is a buffer of [strlen] characters; a [char*] is an offset into it, and a
    read at the end gives the NUL.  The state of the parser is [*ps].  [Panic] is the
    shell's own [panic], which prints the message and exits.  [malloc] is taken not to
    fail. *)

From S2P Require Import Prelude Bytes Sysfile.

Definition MAXARGS : Z := 10.

(** [struct cmd] and the structs it is cast to.  The arguments of [EXEC] are the pairs of
    [argv] and [eargv]. *)
Inductive cmd :=
| EXEC (argv : list (Z * Z))
| REDIR (c : cmd) (file efile mode fd : Z)
| PIPE (left right : cmd)
| LIST (left right : cmd)
| BACK (c : cmd).

Definition whitespace : list Z := [32; 9; 13; 10; 11].
Definition symbols : list Z := [60; 124; 62; 38; 59; 40; 41].

Definition LPAREN : Z := 40.
Definition RPAREN : Z := 41.
Definition BAR : Z := 124.
Definition SEMI : Z := 59.
Definition AMP : Z := 38.
Definition LT : Z := 60.
Definition GT : Z := 62.
Definition PLUS : Z := 43.
Definition WORD : Z := 97.

(** [strchr(toks, c) != 0], for [c] other than the NUL. *)
Definition strchr (toks : list Z) (c : Z) : bool := existsb (Z.eqb c) toks.

Definition is_space (c : Z) : bool := strchr whitespace c.
Definition is_word (c : Z) : bool := negb (strchr whitespace c) && negb (strchr symbols c).

(** The number of characters at the front of [l] for which [p] holds. *)
Fixpoint run (p : Z -> bool) (l : list Z) : Z :=
  match l with
  | c :: l' => if p c then 1 + run p l' else 0
  | [] => 0
  end.

Section Parser.
Context (buf : list Z).

(** [*s] *)
Definition char_at (s : Z) : Z := nth (Z.to_nat s) buf 0.

(** [while(s < es && p( *s)) s++;] *)
Definition skip (p : Z -> bool) (s : Z) : Z := s + run p (drop (Z.to_nat s) buf).

(** The token, [*q] and [*eq]. *)
Definition gettoken : M Z (Z * Z * Z) :=
  fun s0 =>
    let q := skip is_space s0 in
    let c := char_at q in
    let '(tok, s) :=
      if c =? 0 then (0, q)
      else if strchr [BAR; LPAREN; RPAREN; SEMI; AMP; LT] c then (c, q + 1)
      else if c =? GT then if char_at (q + 1) =? GT then (PLUS, q + 2) else (GT, q + 1)
      else (WORD, skip is_word q) in
    Ok ((tok, q, s), skip is_space s).

Definition peek (toks : list Z) : M Z bool :=
  fun s0 =>
    let s := skip is_space s0 in
    let c := char_at s in
    Ok (negb (c =? 0) && strchr toks c, s).

(** [cmd->argv[argc] = q; cmd->eargv[argc] = eq;], where [cmd] is the [EXEC] inside the
    redirections of [ret]. *)
Fixpoint add_arg (q eq : Z) (ret : cmd) : cmd :=
  match ret with
  | EXEC argv => EXEC (argv ++ [(q, eq)])
  | REDIR c file efile mode fd => REDIR (add_arg q eq c) file efile mode fd
  | _ => ret
  end.

(** *** Constructors *)

Definition execcmd : cmd := EXEC [].
Definition redircmd (subcmd : cmd) (file efile mode fd : Z) : cmd := REDIR subcmd file efile mode fd.
Definition pipecmd (left right : cmd) : cmd := PIPE left right.
Definition listcmd (left right : cmd) : cmd := LIST left right.
Definition backcmd (subcmd : cmd) : cmd := BACK subcmd.

(** The redirection for the token. *)
Definition redir (tok : Z) (c : cmd) (q eq : Z) : cmd :=
  if tok =? LT then redircmd c q eq O_RDONLY 0
  else if tok =? GT then redircmd c q eq (Z.lor (Z.lor O_WRONLY O_CREATE) O_TRUNC) 1
  else if tok =? PLUS then redircmd c q eq (Z.lor O_WRONLY O_CREATE) 1
  else c.

Fixpoint parseredirs (fuel : nat) (c : cmd) : M Z cmd :=
  match fuel with
  | O => nofuel
  | S fuel =>
      let! b := peek [LT; GT] in
      if b then
        let! t := gettoken in
        let '(tok, _, _) := t in
        let! f := gettoken in
        let '(ftok, q, eq) := f in
        panic_if (negb (ftok =? WORD)) "missing file for redirection" ;;
        parseredirs fuel (redir tok c q eq)
      else ret c
  end.

(** The loop of [parseexec]. *)
Fixpoint parseargs (fuel : nat) (argc : Z) (r : cmd) : M Z cmd :=
  match fuel with
  | O => nofuel
  | S fuel =>
      let! b := peek [BAR; RPAREN; AMP; SEMI] in
      if b then ret r
      else
        let! t := gettoken in
        let '(tok, q, eq) := t in
        if tok =? 0 then ret r
        else
          panic_if (negb (tok =? WORD)) "syntax" ;;
          panic_if (MAXARGS <=? argc + 1) "too many args" ;;
          let! r := parseredirs fuel (add_arg q eq r) in
          parseargs fuel (argc + 1) r
  end.

(** [while(peek(ps, es, "&")) ...] in [parseline]. *)
Fixpoint parsebacks (fuel : nat) (c : cmd) : M Z cmd :=
  match fuel with
  | O => nofuel
  | S fuel =>
      let! b := peek [AMP] in
      if b then gettoken ;; parsebacks fuel (backcmd c) else ret c
  end.

Fixpoint parseline (fuel : nat) : M Z cmd :=
  match fuel with
  | O => nofuel
  | S fuel =>
      let! c := parsepipe fuel in
      let! c := parsebacks fuel c in
      let! b := peek [SEMI] in
      if b then
        gettoken ;;
        let! r := parseline fuel in
        ret (listcmd c r)
      else ret c
  end
with parsepipe (fuel : nat) : M Z cmd :=
  match fuel with
  | O => nofuel
  | S fuel =>
      let! c := parseexec fuel in
      let! b := peek [BAR] in
      if b then
        gettoken ;;
        let! r := parsepipe fuel in
        ret (pipecmd c r)
      else ret c
  end
with parseexec (fuel : nat) : M Z cmd :=
  match fuel with
  | O => nofuel
  | S fuel =>
      let! b := peek [LPAREN] in
      if b then parseblock fuel
      else
        let! r := parseredirs fuel execcmd in
        parseargs fuel 0 r
  end
with parseblock (fuel : nat) : M Z cmd :=
  match fuel with
  | O => nofuel
  | S fuel =>
      let! b := peek [LPAREN] in
      panic_if (negb b) "parseblock" ;;
      gettoken ;;
      let! c := parseline fuel in
      let! b := peek [RPAREN] in
      panic_if (negb b) "syntax - missing )" ;;
      gettoken ;;
      parseredirs fuel c
  end.
End Parser.

(** The [NUL]s that [nulterminate] writes. *)
Fixpoint nulterminate (c : cmd) (buf : list Z) : list Z :=
  match c with
  | EXEC argv => fold_left (fun b a => <[Z.to_nat (snd a) := 0]> b) argv buf
  | REDIR c _ efile _ _ => <[Z.to_nat efile := 0]> (nulterminate c buf)
  | PIPE l r | LIST l r => nulterminate r (nulterminate l buf)
  | BACK c => nulterminate c buf
  end.

(** Four calls of the parser for each character are enough. *)
Definition parse_fuel (buf : list Z) : nat := 4 * length buf + 4.

(** The command and the buffer that it points into. *)
Definition parsecmd (buf : list Z) : res (cmd * list Z) :=
  match (let! c := parseline buf (parse_fuel buf) in
         peek buf [] ;;
         let! s := gets id in
         panic_if (negb (s =? zlen buf)) "syntax" ;;
         ret c) 0 with
  | Ok (c, _) => Ok (c, nulterminate c buf)
  | Panic e => Panic e
  | Blocked => Blocked
  | NoFuel => NoFuel
  end.
