(* ===== verification/ShSpec.v ===== *)
(** * The language of the shell

    The tokens of a line, the grammar of commands, and the proof that [parsecmd] accepts
    exactly the grammar and points to the words of the line. *)

From S2P Require Import Prelude Bytes Sysfile Sh.

(** ** Tokens *)

Inductive tok := TWord (w : list Z) | TSym (c : Z).

Definition spaces_off (l : list Z) : list Z := drop (Z.to_nat (run is_space l)) l.

(** The first token of [l], which does not start with a space, and what follows it. *)
Definition lex1 (l : list Z) : option (tok * list Z) :=
  match l with
  | [] => None
  | c :: l' =>
      if strchr [BAR; LPAREN; RPAREN; SEMI; AMP; LT] c then Some (TSym c, l')
      else if c =? GT then
        match l' with
        | d :: l'' => if d =? GT then Some (TSym PLUS, l'') else Some (TSym GT, l')
        | [] => Some (TSym GT, l')
        end
      else
        let n := Z.to_nat (run is_word l) in
        Some (TWord (take n l), drop n l)
  end.

Fixpoint lex (fuel : nat) (l : list Z) : list tok :=
  match fuel with
  | O => []
  | S fuel =>
      match lex1 (spaces_off l) with
      | None => []
      | Some (t, l') => t :: lex fuel l'
      end
  end.

Definition tokens (l : list Z) : list tok := lex (S (length l)) l.

Lemma run_bound p l : 0 <= run p l <= zlen l.
Proof. induction l as [|c l IH]; cbn [run length]; [lia|]. destruct (p c); lia. Qed.

Lemma run_drop p l : run p (drop (Z.to_nat (run p l)) l) = 0.
Proof.
  induction l as [|c l IH]; [done|]. cbn [run]. destruct (p c) eqn:E.
  - pose proof (run_bound p l). replace (Z.to_nat (1 + run p l)) with (S (Z.to_nat (run p l))) by lia. exact IH.
  - change (run p (c :: l) = 0). cbn [run]. by rewrite E.
Qed.

Lemma run_take p l : Forall (fun c => p c = true) (take (Z.to_nat (run p l)) l).
Proof.
  induction l as [|c l IH]; [constructor|]. cbn [run]. destruct (p c) eqn:E; [|constructor].
  pose proof (run_bound p l). replace (Z.to_nat (1 + run p l)) with (S (Z.to_nat (run p l))) by lia. by constructor.
Qed.

Lemma run_0 p l : run p l = 0 -> match l with c :: _ => p c = false | [] => True end.
Proof. destruct l as [|c l]; [done|]. cbn [run]. destruct (p c); [|done]. pose proof (run_bound p l). lia. Qed.

Lemma length_spaces_off l : (length (spaces_off l) <= length l)%nat.
Proof. unfold spaces_off. rewrite length_drop. lia. Qed.

Lemma spaces_off_idem l : spaces_off (spaces_off l) = spaces_off l.
Proof. unfold spaces_off. by rewrite (run_drop is_space l). Qed.

(** A character that is neither a space nor a symbol. *)
Lemma word_char c : is_space c = false -> strchr [BAR; LPAREN; RPAREN; SEMI; AMP; LT] c = false -> c <> GT -> is_word c = true.
Proof.
  intros Hs Hc Hg. unfold is_word. unfold is_space in Hs. rewrite Hs. cbn [negb andb]. apply negb_true_iff.
  cbn in *. bsplit. repeat (rewrite (proj2 (Z.eqb_neq _ _)) by done). done.
Qed.

Lemma lex1_shorter l t l' : run is_space l = 0 -> lex1 l = Some (t, l') -> (length l' < length l)%nat.
Proof.
  intros Hs%run_0. destruct l as [|c l]; [done|]. cbn [lex1]. destruct (strchr _ c) eqn:Ec; [intros [= <- <-]; cbn; lia|].
  destruct (Z.eqb_spec c GT) as [->|Hg].
  - destruct l as [|d l]; [intros [= <- <-]; cbn; lia|]. destruct (d =? GT); intros [= <- <-]; cbn; lia.
  - intros [= <- <-]. cbn [run]. rewrite (word_char c Hs Ec Hg). pose proof (run_bound is_word l). rewrite length_drop. cbn. lia.
Qed.

Lemma lex_fuel n : forall m l, (length l < n)%nat -> (length l < m)%nat -> lex n l = lex m l.
Proof.
  induction n as [|n IH]; intros [|m] l Hn Hm; try lia. cbn [lex]. destruct (lex1 (spaces_off l)) as [[t l']|] eqn:E; [|done].
  apply lex1_shorter in E; [|apply run_drop]. pose proof (length_spaces_off l). f_equal. apply IH; lia.
Qed.

Lemma tokens_eq l : tokens l = match lex1 (spaces_off l) with None => [] | Some (t, l') => t :: tokens l' end.
Proof.
  unfold tokens at 1. cbn [lex]. destruct (lex1 (spaces_off l)) as [[t l']|] eqn:E; [|done].
  apply lex1_shorter in E; [|apply run_drop]. pose proof (length_spaces_off l). f_equal. apply (lex_fuel _ (S (length l'))); lia.
Qed.

Lemma tokens_spaces l : tokens (spaces_off l) = tokens l.
Proof. rewrite (tokens_eq l), tokens_eq. by rewrite spaces_off_idem. Qed.

(** ** The grammar

<<
      line  ::=  pipe '&'*  |  pipe '&'* ';' line
      pipe  ::=  exec  |  exec '|' pipe
      exec  ::=  (word | redir)*  |  '(' line ')' redir*
      redir ::=  '<' word  |  '>' word  |  '>>' word
>>
    with fewer than [MAXARGS] words in a command. *)

Inductive rkind := RIn | ROut | RAppend.
Definition rsym (k : rkind) : Z := match k with RIn => LT | ROut => GT | RAppend => PLUS end.

(** Commands with their strings. *)
Inductive acmd :=
| AExec (args : list (list Z))
| ARedir (c : acmd) (k : rkind) (file : list Z)
| APipe (l r : acmd)
| AList (l r : acmd)
| ABack (c : acmd).

Inductive elem := EWord (w : list Z) | ERedir (k : rkind) (file : list Z).

Definition elem_toks (e : elem) : list tok :=
  match e with EWord w => [TWord w] | ERedir k f => [TSym (rsym k); TWord f] end.
Definition elems_toks (es : list elem) : list tok := concat (elem_toks <$> es).
Fixpoint nwords (es : list elem) : Z :=
  match es with
  | EWord _ :: es => 1 + nwords es
  | ERedir _ _ :: es => nwords es
  | [] => 0
  end.

Fixpoint a_add_arg (w : list Z) (c : acmd) : acmd :=
  match c with
  | AExec args => AExec (args ++ [w])
  | ARedir c k f => ARedir (a_add_arg w c) k f
  | _ => c
  end.
Definition a_elem (c : acmd) (e : elem) : acmd := match e with EWord w => a_add_arg w c | ERedir k f => ARedir c k f end.

Definition redir_elems (rs : list (rkind * list Z)) : list elem := (fun r => ERedir (fst r) (snd r)) <$> rs.

Inductive gline : list tok -> acmd -> Prop :=
| g_line ts c n : gpipe ts c -> gline (ts ++ replicate n (TSym AMP)) (Nat.iter n ABack c)
| g_list ts c n ts' c' : gpipe ts c -> gline ts' c' ->
    gline (ts ++ replicate n (TSym AMP) ++ TSym SEMI :: ts') (AList (Nat.iter n ABack c) c')
with gpipe : list tok -> acmd -> Prop :=
| g_exec ts c : gexec ts c -> gpipe ts c
| g_pipe ts c ts' c' : gexec ts c -> gpipe ts' c' -> gpipe (ts ++ TSym BAR :: ts') (APipe c c')
with gexec : list tok -> acmd -> Prop :=
| g_simple es : nwords es < MAXARGS -> gexec (elems_toks es) (fold_left a_elem es (AExec []))
| g_block ts c rs : gline ts c ->
    gexec (TSym LPAREN :: ts ++ TSym RPAREN :: elems_toks (redir_elems rs)) (fold_left a_elem (redir_elems rs) c).

Scheme gline_mut := Induction for gline Sort Prop
  with gpipe_mut := Induction for gpipe Sort Prop
  with gexec_mut := Induction for gexec Sort Prop.
Combined Scheme grammar_ind from gline_mut, gpipe_mut, gexec_mut.

(** ** The parser on a line *)

Section Line.
Context (buf : list Z) (Hbuf : Forall (fun c => c <> 0) buf).

Abbreviation rest s := (drop (Z.to_nat s) buf).

(** [ps] is at [s], before the tokens [ts]. *)
Definition at_toks (s : Z) (ts : list tok) : Prop := 0 <= s <= zlen buf /\ tokens (rest s) = ts.

(** [q] and [eq] are the ends of the word [w] of the line. *)
Record word_at (q eq : Z) (w : list Z) : Prop := {
  wa_range : 0 <= q /\ q <= eq <= zlen buf;
  wa_word : sub buf q (eq - q) = w;
  wa_chars : Forall (fun c => is_word c = true) w;
  wa_end : eq < zlen buf -> is_word (char_at buf eq) = false;
}.

Lemma rest_skip p s : 0 <= s <= zlen buf -> rest (skip buf p s) = drop (Z.to_nat (run p (rest s))) (rest s) /\ s <= skip buf p s <= zlen buf.
Proof.
  intros Hs. unfold skip. pose proof (run_bound p (rest s)) as Hr. rewrite length_drop in Hr. rewrite drop_drop. split; [f_equal; lia|lia].
Qed.

Lemma char_at_rest s : 0 <= s -> char_at buf s = match rest s with c :: _ => c | [] => 0 end.
Proof.
  intros Hs. unfold char_at. rewrite nth_lookup. destruct (buf !! Z.to_nat s) as [c|] eqn:E.
  - rewrite (drop_S _ _ _ E). done.
  - apply lookup_ge_None in E. by rewrite drop_ge.
Qed.

Lemma rest_S s c l : 0 <= s -> rest s = c :: l -> rest (s + 1) = l /\ s + 1 <= zlen buf.
Proof.
  intros Hs E. replace (Z.to_nat (s + 1)) with (Z.to_nat s + 1)%nat by lia. rewrite <- drop_drop, E. split; [done|].
  apply (f_equal length) in E. rewrite length_drop in E. cbn in E. lia.
Qed.

Lemma rest_nz s c l : rest s = c :: l -> c <> 0.
Proof. intros E. apply (Forall_drop _ (Z.to_nat s)) in Hbuf. rewrite E in Hbuf. by apply Forall_cons in Hbuf as [? _]. Qed.

Lemma at_space s ts : at_toks s ts -> at_toks (skip buf is_space s) ts /\ s <= skip buf is_space s /\ run is_space (rest (skip buf is_space s)) = 0.
Proof.
  intros [Hs Ht]. destruct (rest_skip is_space s Hs) as [E Hr]. split_and!; [|lia|rewrite E; apply run_drop].
  split; [lia|]. rewrite E. rewrite <- Ht. apply tokens_spaces.
Qed.

(** The first character of a token, for [peek]. *)
Definition sym_in (pk : list Z) (ts : list tok) : bool :=
  match ts with
  | TSym c :: _ => strchr pk (if c =? PLUS then GT else c)
  | _ => false
  end.

Lemma strchr_word pk c : (forall x, x ∈ pk -> x ∈ symbols) -> is_word c = true -> strchr pk c = false.
Proof.
  intros Hpk Hw. unfold strchr. apply not_true_is_false. intros (x & Hx & ->%Z.eqb_eq)%existsb_exists. apply list_elem_of_In, Hpk in Hx.
  unfold is_word in Hw. apply andb_true_iff in Hw as [_ Hw%negb_true_iff]. assert (strchr symbols x = true); [|congruence].
  apply existsb_exists. exists x. split; [by apply list_elem_of_In|apply Z.eqb_refl].
Qed.

Lemma tokens_nospace l : run is_space l = 0 -> tokens l = match lex1 l with None => [] | Some (t, l') => t :: tokens l' end.
Proof. intros Hl. rewrite tokens_eq. unfold spaces_off. by rewrite Hl. Qed.

Lemma peek_at s ts pk : at_toks s ts -> (forall x, x ∈ pk -> x ∈ symbols) ->
  exists s', peek buf pk s = Ok (sym_in pk ts, s') /\ at_toks s' ts /\ s <= s'.
Proof.
  intros Hat Hpk. destruct (at_space s ts Hat) as (Hat' & Hle & Hrun). unfold peek. set (s1 := skip buf is_space s) in *.
  exists s1. split_and!; [|done|done]. do 2 f_equal. destruct Hat' as [Hs1 Ht]. rewrite char_at_rest by lia. rewrite tokens_nospace in Ht by done.
  pose proof (run_0 _ _ Hrun) as Hsp. destruct (rest s1) as [|c l] eqn:E; [by subst ts|]. pose proof (rest_nz s1 c l E) as Hc.
  rewrite (proj2 (Z.eqb_neq c 0) Hc). cbn [negb andb]. cbn [lex1] in Ht. destruct (strchr _ c) eqn:Ec.
  - subst ts. cbn [sym_in]. destruct (Z.eqb_spec c PLUS) as [->|]; [done|done].
  - destruct (Z.eqb_spec c GT) as [->|Hg].
    + destruct l as [|d l]; [by subst ts|]. destruct (d =? GT); by subst ts.
    + subst ts. cbn [sym_in]. apply strchr_word; [done|by apply word_char].
Qed.

(** Where [gettoken] ends: after the token and the spaces behind it. *)
Lemma at_after s e l : 0 <= s -> s < e <= zlen buf -> rest e = l -> at_toks (skip buf is_space e) (tokens l) /\ s < skip buf is_space e.
Proof. intros Hs He <-. destruct (at_space e (tokens (rest e))) as (H & Hle & _); [split; [lia|done]|]. split; [done|lia]. Qed.

Lemma lex1_word_at q c l : 0 <= q -> rest q = c :: l -> is_word c = true ->
  let n := Z.to_nat (run is_word (c :: l)) in word_at q (skip buf is_word q) (take n (c :: l)) /\
    rest (skip buf is_word q) = drop n (c :: l) /\ q < skip buf is_word q <= zlen buf.
Proof.
  intros Hq E Hw. assert (q <= zlen buf) as Hle by (apply (f_equal length) in E; rewrite length_drop in E; cbn in E; lia).
  destruct (rest_skip is_word q) as [Er Hr]; [lia|]. rewrite E in Er. cbv zeta. pose proof (run_bound is_word (c :: l)) as Hb.
  assert (skip buf is_word q = q + run is_word (c :: l)) as Es by (unfold skip; by rewrite E).
  assert (0 < run is_word (c :: l)) as Hpos by (cbn [run]; rewrite Hw; pose proof (run_bound is_word l); lia).
  split_and!; [split|exact Er|lia|lia].
  - lia.
  - unfold sub. rewrite E. f_equal. lia.
  - apply run_take.
  - intros Hlt. rewrite char_at_rest by lia. assert (length (rest (skip buf is_word q)) <> O) as Hne by (rewrite length_drop; lia). rewrite Er in Hne |- *. pose proof (run_0 _ _ (run_drop is_word (c :: l))) as H0.
    destruct (drop (Z.to_nat (run is_word (c :: l))) (c :: l)); [done|exact H0].
Qed.

Lemma gettoken_at s ts : at_toks s ts -> exists k q e s', gettoken buf s = Ok ((k, q, e), s') /\
  match ts with
  | [] => k = 0 /\ at_toks s' [] /\ s <= s'
  | TSym c :: ts' => k = c /\ c <> WORD /\ c <> 0 /\ at_toks s' ts' /\ s < s'
  | TWord w :: ts' => k = WORD /\ word_at q e w /\ at_toks s' ts' /\ s < s'
  end.
Proof.
  intros Hat. pose proof (proj1 Hat) as Hs. destruct (at_space s ts Hat) as (Hat' & Hle & Hrun). unfold gettoken. set (q := skip buf is_space s) in *.
  pose proof Hat' as [Hq Ht]. rewrite char_at_rest by lia. rewrite tokens_nospace in Ht by done.
  pose proof (run_0 _ _ Hrun) as Hsp. destruct (rest q) as [|c l] eqn:E.
  { subst ts. cbn [Z.eqb]. do 4 eexists. split; [done|]. destruct (at_space q [] Hat') as (H & ? & _). split_and!; [done|done|lia]. }
  pose proof (rest_nz q c l E) as Hc. rewrite (proj2 (Z.eqb_neq c 0) Hc). destruct (rest_S q c l) as [E1 Hq1]; [lia|done|].
  cbn [lex1] in Ht. destruct (strchr _ c) eqn:Ec.
  { subst ts. do 4 eexists. split; [done|]. destruct (at_after s (q + 1) l) as [H1 H2]; [lia|lia|done|].
    split_and!; [done| |done|done|lia]. intros ->. done. }
  destruct (Z.eqb_spec c GT) as [->|Hg].
  - rewrite (char_at_rest (q + 1)) by lia. rewrite E1. destruct l as [|d l].
    + subst ts. cbn [Z.eqb]. do 4 eexists. split; [done|]. destruct (at_after s (q + 1) []) as [H1 H2]; [lia|lia|done|]. by split_and!.
    + destruct (rest_S (q + 1) d l) as [E2 Hq2]; [lia|done|]. replace (q + 1 + 1) with (q + 2) in * by lia.
      destruct (d =? GT); subst ts; do 4 eexists; (split; [done|]).
      * destruct (at_after s (q + 2) l) as [H1 H2]; [lia|lia|done|]. by split_and!.
      * destruct (at_after s (q + 1) (d :: l)) as [H1 H2]; [lia|lia|done|]. by split_and!.
  - subst ts. destruct (lex1_word_at q c l) as (Hwa & Er & Hr); [lia|done|by apply word_char|]. do 4 eexists. split; [done|].
    destruct (at_after s (skip buf is_word q) (drop (Z.to_nat (run is_word (c :: l))) (c :: l))) as [H1 H2]; [lia|lia|exact Er|]. by split_and!.
Qed.

(** ** What the parser returns *)

(** [m] returns with [Q], or, if [b], panics. *)
Definition out {A} (b : bool) (s : Z) (m : M Z A) (Q : A -> Z -> Prop) : Prop :=
  match m s with
  | Ok (a, s') => Q a s'
  | Panic _ => b = true
  | _ => False
  end.

Lemma out_bind {A B} b s (m : M Z A) (k : A -> M Z B) Q R : out b s m Q -> (forall a s', Q a s' -> out b s' (k a) R) -> out b s (bind m k) R.
Proof. unfold out, bind. destruct (m s) as [[a s']| | |]; [|done..]. intros HQ Hk. exact (Hk a s' HQ). Qed.

Lemma out_mono {A} b s (m : M Z A) (Q R : A -> Z -> Prop) : out b s m Q -> (forall a s', Q a s' -> R a s') -> out b s m R.
Proof. unfold out. destruct (m s) as [[a s']| | |]; auto. Qed.

Lemma out_ret {A} b s (a : A) (Q : A -> Z -> Prop) : Q a s -> out b s (ret a) Q.
Proof. done. Qed.

Lemma out_panic_if b s (c : bool) msg (Q : unit -> Z -> Prop) : (c = true -> b = true) -> (c = false -> Q tt s) -> out b s (panic_if c msg) Q.
Proof. unfold out. destruct c; cbn; auto. Qed.

Lemma out_peek {B} b s ts pk (k : bool -> M Z B) R : at_toks s ts -> (forall x, x ∈ pk -> x ∈ symbols) ->
  (forall s', at_toks s' ts -> s <= s' -> out b s' (k (sym_in pk ts)) R) -> out b s (bind (peek buf pk) k) R.
Proof. intros Ha Hp HQ. destruct (peek_at s ts pk Ha Hp) as (s' & E & Ha' & Hl). unfold out, bind. rewrite E. exact (HQ s' Ha' Hl). Qed.

Lemma out_token {B} b s ts (k : Z * Z * Z -> M Z B) R : at_toks s ts ->
  (forall t q e s', match ts with
     | [] => t = 0 /\ at_toks s' [] /\ s <= s'
     | TSym c :: ts' => t = c /\ c <> WORD /\ c <> 0 /\ at_toks s' ts' /\ s < s'
     | TWord w :: ts' => t = WORD /\ word_at q e w /\ at_toks s' ts' /\ s < s'
     end -> out b s' (k (t, q, e)) R) -> out b s (bind (gettoken buf) k) R.
Proof. intros Ha HQ. destruct (gettoken_at s ts Ha) as (t & q & e & s' & E & H). unfold out, bind. rewrite E. exact (HQ t q e s' H). Qed.

(** The command [c] is [a], with pointers into the line. *)
Inductive denotes : cmd -> acmd -> Prop :=
| d_exec args ws : Forall2 (fun a w => word_at (fst a) (snd a) w) args ws -> denotes (EXEC args) (AExec ws)
| d_redir c a q e k f : denotes c a -> word_at q e f -> denotes (redir (rsym k) c q e) (ARedir a k f)
| d_pipe l r a b : denotes l a -> denotes r b -> denotes (PIPE l r) (APipe a b)
| d_list l r a b : denotes l a -> denotes r b -> denotes (LIST l r) (AList a b)
| d_back c a : denotes c a -> denotes (BACK c) (ABack a).

Lemma redir_sym k c q e : exists mode fd, redir (rsym k) c q e = REDIR c q e mode fd.
Proof. destruct k; do 2 eexists; reflexivity. Qed.

Lemma denotes_add_arg c a q e w : denotes c a -> word_at q e w -> denotes (add_arg q e c) (a_add_arg w a).
Proof.
  induction 1 as [args ws Hw|c a q' e' k f Hc IH Hf| | |]; intros Hq; cbn [add_arg a_add_arg]; [| |by constructor..].
  - constructor. apply Forall2_app; [done|]. by apply Forall2_cons.
  - specialize (IH Hq). assert (forall c, redir (rsym k) c q' e' = REDIR c q' e' (match k with RIn => O_RDONLY | ROut => Z.lor (Z.lor O_WRONLY O_CREATE) O_TRUNC | RAppend => Z.lor O_WRONLY O_CREATE end) (match k with RIn => 0 | _ => 1 end)) as E by (by destruct k).
    rewrite E. cbn [add_arg]. rewrite <- E. by apply d_redir.
Qed.

Definition left_of (s : Z) : nat := Z.to_nat (zlen buf - s).

Ltac pk := intros ?x ?Hx; unfold symbols; set_solver.

(** A redirection symbol. *)
Lemma sym_redir ts : sym_in [LT; GT] ts = true -> exists k ts', ts = TSym (rsym k) :: ts'.
Proof.
  destruct ts as [|[w|c] ts]; [done|done|]. cbn [sym_in strchr existsb]. intros H. destruct (Z.eqb_spec c PLUS) as [->|]; [by exists RAppend, ts|].
  rewrite orb_false_r, orb_true_iff, !Z.eqb_eq in H. destruct H as [-> | ->]; [by exists RIn, ts|by exists ROut, ts].
Qed.

Lemma sym_one c ts : c <> GT -> sym_in [c] ts = true -> exists ts', ts = TSym c :: ts'.
Proof.
  intros Hc. destruct ts as [|[w|d] ts]; [done|done|]. cbn. rewrite orb_false_r. intros E%Z.eqb_eq. destruct (d =? PLUS); [by subst|]. subst d. by exists ts.
Qed.

Lemma sound_redirs fuel : forall s ts c a, at_toks s ts -> denotes c a -> (left_of s < fuel)%nat ->
  out true s (parseredirs buf fuel c) (fun c' s' => exists rs ts', ts = elems_toks (redir_elems rs) ++ ts' /\ at_toks s' ts' /\ s <= s' /\
    denotes c' (fold_left a_elem (redir_elems rs) a)).
Proof.
  induction fuel as [|fuel IH]; intros s ts c a Ha Hc Hf; [lia|]. cbn [parseredirs]. apply (out_peek _ s ts); [done|pk|]. intros s1 Ha1 Hl1.
  destruct (sym_in _ ts) eqn:E; [|apply out_ret; by exists [], ts].
  destruct (sym_redir ts E) as (k & ts' & ->). apply (out_token _ s1 _ _ _ Ha1). intros t q0 e0 s2 (-> & _ & _ & Ha2 & Hl2).
  apply (out_token _ s2 _ _ _ Ha2). intros t q e s3 Ht. destruct ts' as [|[f|c0] ts'].
  - destruct Ht as (-> & _). done.
  - destruct Ht as (-> & Hw & Ha3 & Hl3). eapply out_bind; [apply (out_panic_if _ _ _ _ (fun _ s' => s' = s3)); done|]. intros _ s4 ->.
    eapply out_mono; [apply (IH s3 ts' _ (ARedir a k f) Ha3); [by apply d_redir|unfold left_of in *; destruct Ha3; lia]|]. cbn beta.
    intros c' s' (rs & ts2 & -> & Ha' & Hl' & Hd). exists ((k, f) :: rs), ts2. split_and!; [done|done|lia|done].
  - destruct Ht as (-> & Hn & _). eapply out_bind; [apply (out_panic_if _ _ _ _ (fun _ s' => False)); [done|]|done]. intros Hx%negb_false_iff%Z.eqb_eq. done.
Qed.

Lemma elems_toks_app es es' : elems_toks (es ++ es') = elems_toks es ++ elems_toks es'.
Proof. unfold elems_toks. by rewrite fmap_app, concat_app. Qed.
Lemma nwords_app es es' : nwords (es ++ es') = nwords es + nwords es'.
Proof. induction es as [|[] es IH]; cbn [nwords app]; [done|lia|done]. Qed.
Lemma nwords_redirs rs : nwords (redir_elems rs) = 0.
Proof. by induction rs. Qed.

Ltac sp := unfold left_of in *; repeat match goal with H : at_toks _ _ |- _ => destruct H as [? _] end; lia.

Lemma sound_args fuel : forall s ts argc es r, at_toks s ts -> denotes r (fold_left a_elem es (AExec [])) -> argc = nwords es -> argc < MAXARGS ->
  (left_of s < fuel)%nat ->
  out true s (parseargs buf fuel argc r) (fun c' s' => exists es' ts', ts = elems_toks es' ++ ts' /\ at_toks s' ts' /\ s <= s' /\
    nwords (es ++ es') < MAXARGS /\ denotes c' (fold_left a_elem (es ++ es') (AExec []))).
Proof.
  induction fuel as [|fuel IH]; intros s ts argc es r Ha Hd Hn Hlt Hf; [lia|]. cbn [parseargs]. apply (out_peek _ s ts); [done|pk|]. intros s1 Ha1 Hl1.
  assert (forall s', at_toks s' ts -> s <= s' -> exists es' ts', ts = elems_toks es' ++ ts' /\ at_toks s' ts' /\ s <= s' /\
    nwords (es ++ es') < MAXARGS /\ denotes r (fold_left a_elem (es ++ es') (AExec []))) as Hend.
  { intros s' ? ?. exists [], ts. rewrite app_nil_r, <- Hn. done. }
  destruct (sym_in _ ts) eqn:E; [apply out_ret; auto|]. apply (out_token _ s1 _ _ _ Ha1). intros t q e s2 Ht. destruct ts as [|[w|c0] ts].
  - destruct Ht as (-> & Ha2 & Hl2). apply out_ret, Hend; [done|lia].
  - destruct Ht as (-> & Hw & Ha2 & Hl2). cbn [Z.eqb WORD]. eapply out_bind; [apply (out_panic_if _ _ _ _ (fun _ s' => s' = s2)); done|]. intros _ s3 ->.
    eapply out_bind; [apply (out_panic_if _ _ _ _ (fun _ s' => s' = s2 /\ argc + 1 < MAXARGS)); [done|by intros ?%Z.leb_gt]|]. intros _ s3 [-> Hm].
    eapply out_bind; [apply (sound_redirs fuel s2 ts _ _ Ha2 (denotes_add_arg _ _ _ _ _ Hd Hw)); sp|]. cbn beta.
    intros c1 s3 (rs & ts2 & -> & Ha3 & Hl3 & Hd3).
    assert (denotes c1 (fold_left a_elem (es ++ EWord w :: redir_elems rs) (AExec []))) as Hd3' by (by rewrite fold_left_app).
    assert (nwords (es ++ EWord w :: redir_elems rs) = argc + 1) as Hn3 by (rewrite nwords_app; cbn [nwords]; rewrite nwords_redirs; lia).
    eapply out_mono; [apply (IH s3 ts2 (argc + 1) _ _ Ha3 Hd3' (eq_sym Hn3) Hm); sp|]. cbn beta.
    intros c' s' (es' & ts' & -> & Ha' & Hl' & Hn' & Hd'). exists (EWord w :: redir_elems rs ++ es'), ts'. rewrite <- (assoc_L (++)) in Hn', Hd'. cbn [app] in Hn', Hd'.
    split_and!; [|done|lia|done|done]. change (EWord w :: redir_elems rs ++ es') with ([EWord w] ++ redir_elems rs ++ es').
    rewrite !elems_toks_app. cbn. by rewrite <- (assoc_L (++)).
  - destruct Ht as (-> & Hw & Hz & _). rewrite (proj2 (Z.eqb_neq c0 0) Hz). eapply out_bind; [apply (out_panic_if _ _ _ _ (fun _ s' => False)); [done|]|done].
    intros Hx%negb_false_iff%Z.eqb_eq. done.
Qed.

Lemma sound_backs fuel : forall s ts c a, at_toks s ts -> denotes c a -> (left_of s < fuel)%nat ->
  out true s (parsebacks buf fuel c) (fun c' s' => exists n ts', ts = replicate n (TSym AMP) ++ ts' /\ at_toks s' ts' /\ s <= s' /\ denotes c' (Nat.iter n ABack a)).
Proof.
  induction fuel as [|fuel IH]; intros s ts c a Ha Hd Hf; [lia|]. cbn [parsebacks]. apply (out_peek _ s ts); [done|pk|]. intros s1 Ha1 Hl1.
  destruct (sym_in [AMP] ts) eqn:E; [|apply out_ret; by exists O, ts].
  apply sym_one in E as (ts' & ->); [|done].
  apply (out_token _ s1 _ _ _ Ha1). intros t q e s2 (_ & _ & _ & Ha2 & Hl2).
  eapply out_mono; [apply (IH s2 ts' _ (ABack a) Ha2); [by constructor|sp]|]. cbn beta.
  intros c' s' (n & ts2 & -> & Ha' & Hl' & Hd'). exists (S n), ts2. split_and!; [done|done|lia|]. by rewrite Nat.iter_succ_r.
Qed.

(** A command of the grammar [g] was found at the front of [ts]. *)
Definition found (g : list tok -> acmd -> Prop) (ts : list tok) (s : Z) (c : cmd) (s' : Z) : Prop :=
  exists ts1 ts2 a, ts = ts1 ++ ts2 /\ g ts1 a /\ denotes c a /\ at_toks s' ts2 /\ s <= s'.

Definition sound_upto (fuel : nat) : Prop :=
  (forall s ts, at_toks s ts -> (4 * left_of s + 4 <= fuel)%nat -> out true s (parseline buf fuel) (found gline ts s)) /\
  (forall s ts, at_toks s ts -> (4 * left_of s + 3 <= fuel)%nat -> out true s (parsepipe buf fuel) (found gpipe ts s)) /\
  (forall s ts, at_toks s ts -> (4 * left_of s + 2 <= fuel)%nat -> out true s (parseexec buf fuel) (found gexec ts s)) /\
  (forall s ts, at_toks s ts -> (4 * left_of s + 1 <= fuel)%nat -> out true s (parseblock buf fuel) (found gexec ts s)).

Lemma sound_line fuel s ts : sound_upto fuel -> at_toks s ts -> (4 * left_of s + 4 <= S fuel)%nat -> out true s (parseline buf (S fuel)) (found gline ts s).
Proof.
  intros (Hline & Hpipe & _) Ha Hf. cbn [parseline]. eapply out_bind; [apply (Hpipe s ts Ha); lia|]. intros c s1 (ts1 & ts2 & a & -> & Hg & Hd & Ha1 & Hl1).
  eapply out_bind; [apply (sound_backs fuel s1 ts2 c a Ha1 Hd); sp|]. cbn beta. intros c2 s2 (n & ts3 & -> & Ha2 & Hl2 & Hd2).
  apply (out_peek _ s2 ts3); [done|pk|]. intros s3 Ha3 Hl3. destruct (sym_in [SEMI] ts3) eqn:E.
  - apply sym_one in E as (ts4 & ->); [|done]. apply (out_token _ s3 _ _ _ Ha3). intros t q e s4 (_ & _ & _ & Ha4 & Hl4).
    eapply out_bind; [apply (Hline s4 ts4 Ha4); sp|]. intros c5 s5 (ts5 & ts6 & a5 & -> & Hg5 & Hd5 & Ha5 & Hl5). apply out_ret.
    exists (ts1 ++ replicate n (TSym AMP) ++ TSym SEMI :: ts5), ts6, (AList (Nat.iter n ABack a) a5). split_and!; [|by constructor|by constructor|done|lia].
    by rewrite <- !(assoc_L (++)).
  - apply out_ret. exists (ts1 ++ replicate n (TSym AMP)), ts3, (Nat.iter n ABack a). split_and!; [by rewrite <- (assoc_L (++))|by constructor|done|done|lia].
Qed.

Lemma sound_pipe fuel s ts : sound_upto fuel -> at_toks s ts -> (4 * left_of s + 3 <= S fuel)%nat -> out true s (parsepipe buf (S fuel)) (found gpipe ts s).
Proof.
  intros (_ & Hpipe & Hexec & _) Ha Hf. cbn [parsepipe]. eapply out_bind; [apply (Hexec s ts Ha); lia|]. intros c s1 (ts1 & ts2 & a & -> & Hg & Hd & Ha1 & Hl1).
  apply (out_peek _ s1 ts2); [done|pk|]. intros s3 Ha3 Hl3. destruct (sym_in [BAR] ts2) eqn:E.
  - apply sym_one in E as (ts4 & ->); [|done]. apply (out_token _ s3 _ _ _ Ha3). intros t q e s4 (_ & _ & _ & Ha4 & Hl4).
    eapply out_bind; [apply (Hpipe s4 ts4 Ha4); sp|]. intros c5 s5 (ts5 & ts6 & a5 & -> & Hg5 & Hd5 & Ha5 & Hl5). apply out_ret.
    exists (ts1 ++ TSym BAR :: ts5), ts6, (APipe a a5). split_and!; [|by constructor|by constructor|done|lia]. by rewrite <- !(assoc_L (++)).
  - apply out_ret. exists ts1, ts2, a. split_and!; [done|by constructor|done|done|lia].
Qed.

Lemma sound_exec fuel s ts : sound_upto fuel -> at_toks s ts -> (4 * left_of s + 2 <= S fuel)%nat -> out true s (parseexec buf (S fuel)) (found gexec ts s).
Proof.
  intros (_ & _ & _ & Hblock) Ha Hf. cbn [parseexec]. apply (out_peek _ s ts); [done|pk|]. intros s1 Ha1 Hl1. destruct (sym_in [LPAREN] ts).
  - eapply out_mono; [apply (Hblock s1 ts Ha1); sp|]. intros c s' (ts1 & ts2 & a & H1 & H2 & H3 & H4 & H5). exists ts1, ts2, a. split_and!; [done..|lia].
  - eapply out_bind; [apply (sound_redirs fuel s1 ts _ (AExec []) Ha1); [by repeat constructor|sp]|]. cbn beta. intros c2 s2 (rs & ts2 & -> & Ha2 & Hl2 & Hd2).
    eapply out_mono; [apply (sound_args fuel s2 ts2 0 (redir_elems rs) c2 Ha2 Hd2); [by rewrite nwords_redirs|done|sp]|]. cbn beta.
    intros c3 s3 (es & ts3 & -> & Ha3 & Hl3 & Hn & Hd3). exists (elems_toks (redir_elems rs ++ es)), ts3, (fold_left a_elem (redir_elems rs ++ es) (AExec [])).
    split_and!; [by rewrite elems_toks_app, <- (assoc_L (++))|by constructor|done|done|lia].
Qed.

Lemma sound_block fuel s ts : sound_upto fuel -> at_toks s ts -> (4 * left_of s + 1 <= S fuel)%nat -> out true s (parseblock buf (S fuel)) (found gexec ts s).
Proof.
  intros (Hline & _) Ha Hf. cbn [parseblock]. apply (out_peek _ s ts); [done|pk|]. intros s1 Ha1 Hl1. destruct (sym_in [LPAREN] ts) eqn:E; [|done].
  eapply out_bind; [apply (out_panic_if _ _ _ _ (fun _ s' => s' = s1)); done|]. intros _ ? ->. apply sym_one in E as (ts4 & ->); [|done].
  apply (out_token _ s1 _ _ _ Ha1). intros t q e s2 (_ & _ & _ & Ha2 & Hl2). eapply out_bind; [apply (Hline s2 ts4 Ha2); sp|].
  intros c3 s3 (ts5 & ts6 & a & -> & Hg & Hd & Ha3 & Hl3). apply (out_peek _ s3 ts6); [done|pk|]. intros s4 Ha4 Hl4. destruct (sym_in [RPAREN] ts6) eqn:E; [|done].
  eapply out_bind; [apply (out_panic_if _ _ _ _ (fun _ s' => s' = s4)); done|]. intros _ ? ->. apply sym_one in E as (ts7 & ->); [|done].
  apply (out_token _ s4 _ _ _ Ha4). intros t' q' e' s5 (_ & _ & _ & Ha5 & Hl5).
  eapply out_mono; [apply (sound_redirs fuel s5 ts7 c3 a Ha5 Hd); sp|]. cbn beta. intros c6 s6 (rs & ts8 & -> & Ha6 & Hl6 & Hd6).
  exists (TSym LPAREN :: ts5 ++ TSym RPAREN :: elems_toks (redir_elems rs)), ts8, (fold_left a_elem (redir_elems rs) a).
  split_and!; [cbn; by rewrite <- (assoc_L (++))|by constructor|done|done|lia].
Qed.

Lemma sound_all fuel : sound_upto fuel.
Proof.
  induction fuel as [|fuel IH]; [split_and!; intros s ts _ Hf; lia|].
  split_and!; intros s ts Ha Hf; [by apply sound_line|by apply sound_pipe|by apply sound_exec|by apply sound_block].
Qed.

(** ** The parser finds every command of the grammar *)

(** [ts] is empty or starts with one of the symbols [cs]. *)
Definition follow (cs : list Z) (ts : list tok) : Prop :=
  match ts with
  | [] => True
  | TSym c :: _ => c ∈ cs
  | TWord _ :: _ => False
  end.

Lemma follow_mono cs cs' ts : (forall c, c ∈ cs -> c ∈ cs') -> follow cs ts -> follow cs' ts.
Proof. destruct ts as [|[]]; cbn; auto. Qed.

Lemma follow_not pk cs ts : follow cs ts -> (forall c, c ∈ cs -> strchr pk (if c =? PLUS then GT else c) = false) -> sym_in pk ts = false.
Proof. destruct ts as [|[w|c] ts]; cbn [follow sym_in]; auto. Qed.

(** [fl] proves that the next token is not one of those looked for. *)
Ltac fl := eapply follow_not; [eassumption|]; intros ?c ?Hc; set_unfold; naive_solver.

Definition ends (ts : list tok) (a : acmd) (s : Z) (c : cmd) (s' : Z) : Prop := denotes c a /\ at_toks s' ts /\ s <= s'.

Lemma complete_redirs fuel : forall rs s ts c a, at_toks s (elems_toks (redir_elems rs) ++ ts) -> denotes c a -> sym_in [LT; GT] ts = false ->
  (left_of s < fuel)%nat -> out false s (parseredirs buf fuel c) (ends ts (fold_left a_elem (redir_elems rs) a) s).
Proof.
  induction fuel as [|fuel IH]; intros rs s ts c a Ha Hd Hn Hf; [lia|]. cbn [parseredirs]. apply (out_peek _ s _ _ _ _ Ha); [pk|]. intros s1 Ha1 Hl1.
  destruct rs as [|[k f] rs]; [cbn in Ha1 |- *; rewrite Hn; by apply out_ret|]. cbn in Ha1.
  replace (sym_in _ _) with true by (by destruct k). apply (out_token _ s1 _ _ _ Ha1). intros t q0 e0 s2 (-> & _ & _ & Ha2 & Hl2).
  apply (out_token _ s2 _ _ _ Ha2). intros t q e s3 (-> & Hw & Ha3 & Hl3). eapply out_bind; [apply (out_panic_if _ _ _ _ (fun _ s' => s' = s3)); done|]. intros _ s4 ->.
  eapply out_mono; [apply (IH rs s3 ts _ (ARedir a k f) Ha3); [by apply d_redir|done|sp]|]. intros c' s' (H1 & H2 & H3). split_and!; [done|done|lia].
Qed.

(** The redirections at the front. *)
Lemma split_redirs es : exists rs, es = redir_elems rs \/ exists w es', es = redir_elems rs ++ EWord w :: es'.
Proof.
  induction es as [|[w|k f] es IH].
  - exists []. by left.
  - exists []. right. by exists w, es.
  - destruct IH as (rs & [-> | (w & es' & ->)]); exists ((k, f) :: rs); [by left|right; by exists w, es'].
Qed.

Definition after_exec : list Z := [BAR; RPAREN; AMP; SEMI].

Lemma parseargs_end fuel s ts argc r a : at_toks s ts -> follow after_exec ts -> denotes r a -> (0 < fuel)%nat ->
  out false s (parseargs buf fuel argc r) (ends ts a s).
Proof.
  intros Ha Hfl Hd Hf. destruct fuel as [|fuel]; [lia|]. cbn [parseargs]. apply (out_peek _ s _ _ _ _ Ha); [pk|]. intros s1 Ha1 Hl1.
  destruct ts as [|[w|c] ts]; cbn [sym_in]; [|done|].
  - apply (out_token _ s1 _ _ _ Ha1). intros t q e s2 (-> & Ha2 & Hl2). apply out_ret. split_and!; [done|done|lia].
  - cbn [follow] in Hfl. assert (c <> PLUS /\ strchr after_exec c = true) as [Hp Hs] by (unfold after_exec in Hfl; set_unfold; naive_solver).
    rewrite (proj2 (Z.eqb_neq _ _) Hp). fold after_exec. rewrite Hs. by apply out_ret.
Qed.

Lemma complete_args fuel : forall es s ts argc es0 r, at_toks s (elems_toks es ++ ts) -> follow after_exec ts ->
  denotes r (fold_left a_elem es0 (AExec [])) -> argc = nwords es0 -> argc + nwords es < MAXARGS -> (left_of s < fuel)%nat ->
  out false s (let! r := parseredirs buf fuel r in parseargs buf fuel argc r) (ends ts (fold_left a_elem (es0 ++ es) (AExec [])) s).
Proof.
  induction fuel as [|fuel IH]; intros es s ts argc es0 r Ha Hfl Hd Hn Hm Hf; [lia|]. destruct (split_redirs es) as (rs & [-> | (w & es' & ->)]).
  - eapply out_bind; [apply (complete_redirs (S fuel) rs s ts r _ Ha Hd); [unfold after_exec in Hfl; fl|done]|].
    intros c s1 (Hd1 & Ha1 & Hl1). rewrite fold_left_app. eapply out_mono; [by apply (parseargs_end (S fuel) s1 ts argc c _ Ha1 Hfl Hd1); lia|].
    intros c' s' (H1 & H2 & H3). split_and!; [done|done|lia].
  - rewrite elems_toks_app, <- (assoc_L (++)) in Ha. eapply out_bind; [apply (complete_redirs (S fuel) rs s _ r _ Ha Hd); done|].
    intros c s1 (Hd1 & Ha1 & Hl1). rewrite nwords_app, nwords_redirs in Hm. cbn [nwords] in Hm. assert (0 <= nwords es') as Hpos by (clear; induction es' as [|[] es' IH]; cbn [nwords]; lia).
    cbn [parseargs]. apply (out_peek _ s1 _ _ _ _ Ha1); [pk|]. intros s2 Ha2 Hl2. cbn [elems_toks fmap list_fmap elem_toks concat app sym_in] in Ha2 |- *.
    apply (out_token _ s2 _ _ _ Ha2). intros t q e s3 (-> & Hw & Ha3 & Hl3). cbn [Z.eqb WORD].
    eapply out_bind; [apply (out_panic_if _ _ _ _ (fun _ s' => s' = s3)); done|]. intros _ ? ->.
    eapply out_bind; [apply (out_panic_if _ _ _ _ (fun _ s' => s' = s3)); [intros ?%Z.leb_le; lia|done]|]. intros _ ? ->.
    eapply out_mono; [apply (IH es' s3 ts (argc + 1) (es0 ++ redir_elems rs ++ [EWord w])); [done|done| | |lia|sp]|].
    + rewrite (assoc_L (++)), !fold_left_app. cbn. by apply denotes_add_arg.
    + rewrite !nwords_app, nwords_redirs. cbn. lia.
    + intros c' s' (H1 & H2 & H3). rewrite <- !(assoc_L (++)) in H1. split_and!; [done|done|lia].
Qed.

Lemma complete_backs fuel : forall n s ts c a, at_toks s (replicate n (TSym AMP) ++ ts) -> denotes c a -> sym_in [AMP] ts = false -> (left_of s < fuel)%nat ->
  out false s (parsebacks buf fuel c) (ends ts (Nat.iter n ABack a) s).
Proof.
  induction fuel as [|fuel IH]; intros n s ts c a Ha Hd Hn Hf; [lia|]. cbn [parsebacks]. apply (out_peek _ s _ _ _ _ Ha); [pk|]. intros s1 Ha1 Hl1.
  destruct n as [|n]; [cbn in Ha1 |- *; rewrite Hn; by apply out_ret|]. cbn [replicate app] in Ha1. cbn [replicate app sym_in]. change (strchr [AMP] _) with true.
  apply (out_token _ s1 _ _ _ Ha1). intros t q e s2 (_ & _ & _ & Ha2 & Hl2).
  eapply out_mono; [apply (IH n s2 ts _ (ABack a) Ha2); [by constructor|done|sp]|]. intros c' s' (H1 & H2 & H3). rewrite Nat.iter_succ_r. split_and!; [done|done|lia].
Qed.

Definition complete_line (ts : list tok) (a : acmd) : Prop := forall fuel s ts', at_toks s (ts ++ ts') -> follow [RPAREN] ts' ->
  (4 * left_of s + 4 <= fuel)%nat -> out false s (parseline buf fuel) (ends ts' a s).
Definition complete_pipe (ts : list tok) (a : acmd) : Prop := forall fuel s ts', at_toks s (ts ++ ts') -> follow [RPAREN; AMP; SEMI] ts' ->
  (4 * left_of s + 3 <= fuel)%nat -> out false s (parsepipe buf fuel) (ends ts' a s).
Definition complete_exec (ts : list tok) (a : acmd) : Prop := forall fuel s ts', at_toks s (ts ++ ts') -> follow after_exec ts' ->
  (4 * left_of s + 2 <= fuel)%nat -> out false s (parseexec buf fuel) (ends ts' a s).

(** [parseline] up to the [&]s. *)
Lemma complete_prefix {B} ts c n fuel s ts' (k : cmd -> M Z B) R : complete_pipe ts c -> at_toks s (ts ++ replicate n (TSym AMP) ++ ts') ->
  follow [RPAREN; SEMI] ts' -> (4 * left_of s + 3 <= fuel)%nat ->
  (forall c' s', denotes c' (Nat.iter n ABack c) -> at_toks s' ts' -> s <= s' -> out false s' (k c') R) ->
  out false s (let! c := parsepipe buf fuel in let! c := parsebacks buf fuel c in k c) R.
Proof.
  intros Hp Ha Hfl Hf Hk. eapply out_bind; [apply (Hp fuel s _ Ha); [|lia]|].
  { destruct n; [|cbn; set_solver]. eapply follow_mono; [|exact Hfl]. set_solver. }
  intros c1 s1 (Hd1 & Ha1 & Hl1). eapply out_bind; [apply (complete_backs fuel n s1 ts' c1 c Ha1 Hd1); [fl|sp]|].
  intros c2 s2 (Hd2 & Ha2 & Hl2). apply Hk; [done|done|lia].
Qed.

Lemma complete_g_line ts c n : complete_pipe ts c -> complete_line (ts ++ replicate n (TSym AMP)) (Nat.iter n ABack c).
Proof.
  intros Hp [|fuel] s ts' Ha Hfl Hf; [lia|]. cbn [parseline]. rewrite <- (assoc_L (++)) in Ha.
  apply (complete_prefix ts c n fuel s ts' _ _ Hp Ha); [eapply follow_mono; [|exact Hfl]; set_solver|lia|]. intros c1 s1 Hd1 Ha1 Hl1.
  apply (out_peek _ s1 _ _ _ _ Ha1); [pk|]. intros s2 Ha2 Hl2. replace (sym_in [SEMI] ts') with false by (symmetry; fl). apply out_ret. split_and!; [done|done|lia].
Qed.

Lemma complete_g_list ts c n ts2 c2 : complete_pipe ts c -> complete_line ts2 c2 ->
  complete_line (ts ++ replicate n (TSym AMP) ++ TSym SEMI :: ts2) (AList (Nat.iter n ABack c) c2).
Proof.
  intros Hp Hline [|fuel] s ts' Ha Hfl Hf; [lia|]. cbn [parseline]. rewrite <- !(assoc_L (++)) in Ha. cbn [app] in Ha.
  apply (complete_prefix ts c n fuel s _ _ _ Hp Ha); [cbn; set_solver|lia|]. intros c1 s1 Hd1 Ha1 Hl1.
  apply (out_peek _ s1 _ _ _ _ Ha1); [pk|]. intros s2 Ha2 Hl2. cbn [sym_in]. change (strchr [SEMI] _) with true.
  apply (out_token _ s2 _ _ _ Ha2). intros t q e s3 (_ & _ & _ & Ha3 & Hl3). eapply out_bind; [apply (Hline fuel s3 ts' Ha3 Hfl); sp|].
  intros c4 s4 (Hd4 & Ha4 & Hl4). apply out_ret. split_and!; [by constructor|done|lia].
Qed.

Lemma complete_g_exec ts c : complete_exec ts c -> complete_pipe ts c.
Proof.
  intros He [|fuel] s ts' Ha Hfl Hf; [lia|]. cbn [parsepipe]. eapply out_bind; [apply (He fuel s ts' Ha); [eapply follow_mono; [|exact Hfl]; unfold after_exec; set_solver|lia]|].
  intros c1 s1 (Hd1 & Ha1 & Hl1). apply (out_peek _ s1 _ _ _ _ Ha1); [pk|]. intros s2 Ha2 Hl2. replace (sym_in [BAR] ts') with false by (symmetry; fl).
  apply out_ret. split_and!; [done|done|lia].
Qed.

Lemma complete_g_pipe ts c ts2 c2 : complete_exec ts c -> complete_pipe ts2 c2 -> complete_pipe (ts ++ TSym BAR :: ts2) (APipe c c2).
Proof.
  intros He Hp [|fuel] s ts' Ha Hfl Hf; [lia|]. cbn [parsepipe]. rewrite <- (assoc_L (++)) in Ha. cbn [app] in Ha.
  eapply out_bind; [apply (He fuel s _ Ha); [cbn; unfold after_exec; set_solver|lia]|]. intros c1 s1 (Hd1 & Ha1 & Hl1).
  apply (out_peek _ s1 _ _ _ _ Ha1); [pk|]. intros s2 Ha2 Hl2. cbn [sym_in]. change (strchr [BAR] _) with true.
  apply (out_token _ s2 _ _ _ Ha2). intros t q e s3 (_ & _ & _ & Ha3 & Hl3). eapply out_bind; [apply (Hp fuel s3 ts' Ha3 Hfl); sp|].
  intros c4 s4 (Hd4 & Ha4 & Hl4). apply out_ret. split_and!; [by constructor|done|lia].
Qed.

Lemma complete_g_simple es : nwords es < MAXARGS -> complete_exec (elems_toks es) (fold_left a_elem es (AExec [])).
Proof.
  intros Hn [|fuel] s ts' Ha Hfl Hf; [lia|]. cbn [parseexec]. apply (out_peek _ s _ _ _ _ Ha); [pk|]. intros s1 Ha1 Hl1.
  replace (sym_in _ _) with false; [|destruct es as [|[w|k f] es]; [symmetry; cbn; unfold after_exec in Hfl; fl|done|by destruct k]].
  eapply out_mono; [apply (complete_args fuel es s1 ts' 0 [] (EXEC []) Ha1 Hfl); [by repeat constructor|done|done|sp]|].
  intros c' s' (H1 & H2 & H3). split_and!; [done|done|lia].
Qed.

Lemma complete_g_block ts c rs : complete_line ts c ->
  complete_exec (TSym LPAREN :: ts ++ TSym RPAREN :: elems_toks (redir_elems rs)) (fold_left a_elem (redir_elems rs) c).
Proof.
  intros Hline [|[|fuel]] s ts' Ha Hfl Hf; [lia|lia|]. cbn [app] in Ha. rewrite <- (assoc_L (++)) in Ha. cbn [app] in Ha.
  cbn [parseexec parseblock]. apply (out_peek _ s _ _ _ _ Ha); [pk|]. intros s1 Ha1 Hl1. cbn [sym_in]. change (strchr [LPAREN] _) with true. cbv iota.
  apply (out_peek _ s1 _ _ _ _ Ha1); [pk|]. intros s2 Ha2 Hl2. cbn [sym_in]. change (strchr [LPAREN] _) with true.
  eapply out_bind; [apply (out_panic_if _ _ _ _ (fun _ s' => s' = s2)); done|]. intros _ ? ->.
  apply (out_token _ s2 _ _ _ Ha2). intros t q e s3 (_ & _ & _ & Ha3 & Hl3). eapply out_bind; [apply (Hline fuel s3 _ Ha3); [cbn; set_solver|sp]|].
  intros c4 s4 (Hd4 & Ha4 & Hl4). apply (out_peek _ s4 _ _ _ _ Ha4); [pk|]. intros s5 Ha5 Hl5. cbn [sym_in]. change (strchr [RPAREN] _) with true.
  eapply out_bind; [apply (out_panic_if _ _ _ _ (fun _ s' => s' = s5)); done|]. intros _ ? ->.
  apply (out_token _ s5 _ _ _ Ha5). intros t' q' e' s6 (_ & _ & _ & Ha6 & Hl6).
  eapply out_mono; [apply (complete_redirs fuel rs s6 ts' c4 c Ha6 Hd4); [unfold after_exec in Hfl; fl|sp]|]. intros c' s' (H1 & H2 & H3). split_and!; [done|done|lia].
Qed.

Lemma complete_all :
  (forall ts a, gline ts a -> complete_line ts a) /\ (forall ts a, gpipe ts a -> complete_pipe ts a) /\ (forall ts a, gexec ts a -> complete_exec ts a).
Proof.
  apply grammar_ind; intros; [by apply complete_g_line|by apply complete_g_list|by apply complete_g_exec|by apply complete_g_pipe|by apply complete_g_simple|by apply complete_g_block].
Qed.
End Line.

(** ** The strings of a command *)

(** Where [nulterminate] writes. *)
Fixpoint ends_of (c : cmd) : list nat :=
  match c with
  | EXEC argv => (fun a => Z.to_nat (snd a)) <$> argv
  | REDIR c _ efile _ _ => Z.to_nat efile :: ends_of c
  | PIPE l r | LIST l r => ends_of l ++ ends_of r
  | BACK c => ends_of c
  end.

Lemma lookup_zero (b : list Z) i j : <[i := 0]> b !! j = if decide (j = i) then (fun _ => 0) <$> b !! j else b !! j.
Proof.
  destruct (decide (j = i)) as [->|Hne]; [|by rewrite list_lookup_insert_ne by done].
  destruct (b !! i) as [x|] eqn:E; [by rewrite list_lookup_insert_eq by (by eapply lookup_lt_Some)|].
  rewrite list_insert_ge; [by rewrite E|]. by apply lookup_ge_None.
Qed.

Lemma nulterminate_lookup c : forall b j, nulterminate c b !! j = if decide (j ∈ ends_of c) then (fun _ => 0) <$> b !! j else b !! j.
Proof.
  assert (forall (P Q : Prop) `{Decision P, Decision Q} (o : option Z),
    (if decide P then (fun _ => 0) <$> (if decide Q then (fun _ => 0) <$> o else o) else (if decide Q then (fun _ => 0) <$> o else o)) =
    if decide (P \/ Q) then (fun _ => 0) <$> o else o) as Hor by (intros P Q ? ? [x|]; repeat case_decide; tauto || done).
  assert (forall (P Q : Prop) `{Decision P, Decision Q} (o : option Z), (P <-> Q) -> (if decide P then (fun _ => 0) <$> o else o) = (if decide Q then (fun _ => 0) <$> o else o)) as Hiff
    by (intros P Q ? ? o HPQ; repeat case_decide; tauto || done).
  induction c as [argv|c IH f e m d|l IHl r IHr|l IHl r IHr|c IH]; intros b j; cbn [nulterminate ends_of].
  - revert b. induction argv as [|[q e] argv IH]; intros b; [done|]. cbn [fold_left fmap list_fmap]. rewrite IH, lookup_zero, Hor. apply Hiff. cbn. set_solver.
  - rewrite lookup_zero, IH, Hor. apply Hiff. set_solver.
  - rewrite IHr, IHl, Hor. apply Hiff. set_solver.
  - rewrite IHr, IHl, Hor. apply Hiff. set_solver.
  - apply IH.
Qed.

Definition rmode (k : rkind) : Z :=
  match k with
  | RIn => O_RDONLY
  | ROut => Z.lor (Z.lor O_WRONLY O_CREATE) O_TRUNC
  | RAppend => Z.lor O_WRONLY O_CREATE
  end.
Definition rfd (k : rkind) : Z := match k with RIn => 0 | _ => 1 end.

(** The C string at the offset [q]. *)
Definition string_at (buf : list Z) (q : Z) : list Z := c_string (drop (Z.to_nat q) buf).

(** [c] with the strings of [buf] is [a]. *)
Inductive says (buf : list Z) : cmd -> acmd -> Prop :=
| s_exec args ws : Forall2 (fun a w => string_at buf (fst a) = w) args ws -> says buf (EXEC args) (AExec ws)
| s_redir c a q e k f : says buf c a -> string_at buf q = f -> says buf (REDIR c q e (rmode k) (rfd k)) (ARedir a k f)
| s_pipe l r a b : says buf l a -> says buf r b -> says buf (PIPE l r) (APipe a b)
| s_list l r a b : says buf l a -> says buf r b -> says buf (LIST l r) (AList a b)
| s_back c a : says buf c a -> says buf (BACK c) (ABack a).

Lemma c_string_run w l : Forall (fun c => c <> 0) w -> match l with c :: _ => c = 0 | [] => True end -> c_string (w ++ l) = w.
Proof.
  induction 1 as [|c w Hc _ IH]; intros Hl; [destruct l; [done|subst; done]|]. cbn [c_string app]. rewrite (proj2 (Z.eqb_neq c 0) Hc). by rewrite IH.
Qed.

Section Strings.
Context (buf buf' : list Z) (Hbuf : Forall (fun c => c <> 0) buf).
Context (Hlen : length buf' = length buf).
Context (Hkeep : forall i c, buf !! i = Some c -> is_word c = true -> buf' !! i = Some c).

Lemma word_string q e w : word_at buf q e w -> (forall c, buf' !! Z.to_nat e = Some c -> c = 0) -> string_at buf' q = w.
Proof.
  intros [Hr Hw Hc Hend] He. assert (sub buf' q (e - q) = w) as Hw'.
  { rewrite <- Hw. apply list_eq. intros i. rewrite !sub_lookup by (unfold in_range; lia). destruct (Z.ltb_spec (Z.of_nat i) (e - q)) as [Hi|]; [|done].
    destruct (buf !! (Z.to_nat q + i)%nat) as [c|] eqn:E; [|apply lookup_ge_None in E; lia]. apply (Hkeep _ _ E).
    rewrite Forall_lookup in Hc. apply (Hc i). rewrite <- Hw, sub_lookup by (unfold in_range; lia). by rewrite (proj2 (Z.ltb_lt _ _) Hi). }
  unfold string_at. rewrite <- (take_drop (Z.to_nat (e - q)) (drop (Z.to_nat q) buf')). fold (sub buf' q (e - q)). rewrite Hw', drop_drop. apply c_string_run.
  - rewrite <- Hw. by apply Forall_take, Forall_drop.
  - replace (Z.to_nat q + Z.to_nat (e - q))%nat with (Z.to_nat e) by lia. destruct (drop (Z.to_nat e) buf') as [|c l] eqn:E; [done|].
    apply He. assert (drop (Z.to_nat e) buf' !! O = Some c) as El by (by rewrite E). by rewrite lookup_drop, Nat.add_0_r in El.
Qed.

Lemma denotes_says c a : denotes buf c a -> (forall e x, e ∈ ends_of c -> buf' !! e = Some x -> x = 0) -> says buf' c a.
Proof.
  induction 1 as [args ws Hw|c a q e k f Hc IH Hf|l r a b _ IHl _ IHr|l r a b _ IHl _ IHr|c a _ IH]; intros He.
  - constructor. cbn [ends_of] in He. induction Hw as [|[q e] w args ws Hw _ IH]; constructor.
    + eapply word_string; [exact Hw|]. intros x. apply He. cbn. set_solver.
    + apply IH. intros e' x Hin. apply He. cbn. set_solver.
  - assert (redir (rsym k) c q e = REDIR c q e (rmode k) (rfd k)) as E by (by destruct k). rewrite E in He |- *. cbn [ends_of] in He. constructor.
    + apply IH. intros e' x Hin. apply He. set_solver.
    + eapply word_string; [exact Hf|]. intros x. apply He. set_solver.
  - cbn [ends_of] in He. constructor; [apply IHl|apply IHr]; intros e' x Hin; apply He; set_solver.
  - cbn [ends_of] in He. constructor; [apply IHl|apply IHr]; intros e' x Hin; apply He; set_solver.
  - constructor. by apply IH.
Qed.
End Strings.

(** [nulterminate] writes behind words only. *)
Lemma ends_not_word buf c a : denotes buf c a -> forall e x, e ∈ ends_of c -> buf !! e = Some x -> is_word x = false.
Proof.
  assert (forall q e w x, word_at buf q e w -> buf !! Z.to_nat e = Some x -> is_word x = false) as Hw.
  { intros q e w x [Hr _ _ Hend] Hx. pose proof (lookup_lt_Some _ _ _ Hx). assert (char_at buf e = x) as <- by (unfold char_at; by apply nth_lookup_Some). apply Hend. lia. }
  induction 1 as [args ws Hws|c a q e k f Hc IH Hf|l r a b _ IHl _ IHr|l r a b _ IHl _ IHr|c a _ IH]; intros e' x Hin.
  - cbn [ends_of] in Hin. apply list_elem_of_fmap in Hin as ([q e] & -> & Hin). apply list_elem_of_lookup in Hin as [i Hi].
    destruct (Forall2_lookup_l _ _ _ _ _ Hws Hi) as (w & _ & Hwa). eapply Hw, Hwa.
  - destruct (redir_sym k c q e) as (m & d & E). rewrite E in Hin. cbn [ends_of] in Hin. apply elem_of_cons in Hin as [->|Hin]; [eapply Hw, Hf|by apply IH].
  - cbn [ends_of] in Hin. apply elem_of_app in Hin as [Hin|Hin]; eauto.
  - cbn [ends_of] in Hin. apply elem_of_app in Hin as [Hin|Hin]; eauto.
  - by apply IH.
Qed.

Lemma length_nulterminate c : forall b, length (nulterminate c b) = length b.
Proof.
  induction c as [argv|c IH f e m d|l IHl r IHr|l IHl r IHr|c IH]; intros b; cbn [nulterminate].
  - revert b. induction argv as [|x argv IH]; intros b; [done|]. cbn. by rewrite IH, length_insert.
  - by rewrite length_insert.
  - by rewrite IHr.
  - by rewrite IHr.
  - done.
Qed.

Lemma nulterminate_says buf c a : Forall (fun c => c <> 0) buf -> denotes buf c a -> says (nulterminate c buf) c a.
Proof.
  intros Hbuf Hd. apply (denotes_says buf); [done|apply length_nulterminate| |done|].
  - intros i x Hx Hw. rewrite nulterminate_lookup. rewrite decide_False; [done|]. intros Hin. pose proof (ends_not_word buf c a Hd i x Hin Hx). congruence.
  - intros e x Hin. rewrite nulterminate_lookup, decide_True by done. destruct (buf !! e); [by intros [= <-]|done].
Qed.

Lemma says_fun buf c a a' : says buf c a -> says buf c a' -> a = a'.
Proof.
  intros H. revert a'. induction H as [args ws Hw|c a q e k f _ IH <-|l r a b _ IHl _ IHr|l r a b _ IHl _ IHr|c a _ IH]; intros a' H'; inversion H'; subst.
  - f_equal. match goal with H : Forall2 _ args _ |- _ => revert H end. clear -Hw. rename Hw into H. revert ws0. induction H as [|x y args ws Hx _ IH]; intros ws' H'; inversion H'; subst; [done|].
    f_equal. by apply IH.
  - f_equal; [by apply IH|]. by destruct k, k0.
  - f_equal; auto.
  - f_equal; auto.
  - f_equal; auto.
Qed.

(** ** Theorem *)

Lemma at_start buf : at_toks buf 0 (tokens buf).
Proof. split; [lia|done]. Qed.

(** Nothing but spaces is left exactly at the end of the line. *)
Lemma at_end buf s ts : Forall (fun c => c <> 0) buf -> at_toks buf s ts -> skip buf is_space s = zlen buf <-> ts = [].
Proof.
  intros Hbuf Ha. destruct (at_space buf s ts Ha) as ([Hr Ht] & _ & Hrun). set (s1 := skip buf is_space s) in *. rewrite tokens_nospace in Ht by done. split.
  - intros E. rewrite E, Nat2Z.id, drop_all in Ht. by subst.
  - intros ->. destruct (drop (Z.to_nat s1) buf) as [|c l] eqn:E.
    + apply (f_equal length) in E. rewrite length_drop in E. cbn in E. lia.
    + cbn [lex1] in Ht. destruct (strchr _ c); [done|]. destruct (c =? GT); [|done]. destruct l as [|d l]; [done|]. by destruct (d =? GT).
Qed.

Lemma parsecmd_out buf b (R : cmd -> Prop) : Forall (fun c => c <> 0) buf ->
  out b 0 (parseline buf (parse_fuel buf)) (fun c s => exists ts, at_toks buf s ts /\ (ts = [] -> R c) /\ (b = false -> ts = [])) ->
  match parsecmd buf with
  | Ok (c, buf') => R c /\ buf' = nulterminate c buf
  | Panic _ => b = true
  | _ => False
  end.
Proof.
  intros Hbuf. unfold out, parsecmd, bind at 1. destruct (parseline buf (parse_fuel buf) 0) as [[c s]| | |]; [|done..].
  intros (ts & Ha & HR & Hb). destruct (peek_at buf Hbuf s ts [] Ha) as (s' & Hpk & _ & _); [set_solver|].
  assert (s' = skip buf is_space s) as -> by (unfold peek in Hpk; by injection Hpk as _ <-).
  unfold bind, gets. rewrite Hpk. pose proof (at_end buf s ts Hbuf Ha) as He. destruct (Z.eqb_spec (id (skip buf is_space s)) (zlen buf)) as [E|E]; cbn.
  - split; [|done]. apply HR, He, E.
  - destruct b; [done|]. destruct E. by apply He, Hb.
Qed.

(** A command of the grammar is found. *)
Lemma parsecmd_complete buf a : Forall (fun c => c <> 0) buf -> gline (tokens buf) a -> exists c buf', parsecmd buf = Ok (c, buf') /\ says buf' c a.
Proof.
  intros Hbuf Hg. assert (4 * left_of buf 0 + 4 <= parse_fuel buf)%nat as Hf by (unfold left_of, parse_fuel; lia).
  pose proof (parsecmd_out buf false (fun c => denotes buf c a) Hbuf) as Hc.
  specialize (Hc ltac:(eapply out_mono; [apply (proj1 (complete_all buf Hbuf) _ a Hg _ 0 []); [rewrite app_nil_r; apply at_start|done|exact Hf]|];
    intros c s (Hd & Ha & _); exists []; done)).
  destruct (parsecmd buf) as [[c buf']| | |]; [|done..]. destruct Hc as [Hd ->]. exists c, (nulterminate c buf). split; [done|by apply nulterminate_says].
Qed.

(** What is found is a command of the grammar. *)
Lemma parsecmd_sound buf : Forall (fun c => c <> 0) buf ->
  match parsecmd buf with Ok (c, buf') => exists a, gline (tokens buf) a /\ says buf' c a | Panic _ => True | _ => False end.
Proof.
  intros Hbuf. assert (4 * left_of buf 0 + 4 <= parse_fuel buf)%nat as Hf by (unfold left_of, parse_fuel; lia).
  pose proof (parsecmd_out buf true (fun c => exists a, gline (tokens buf) a /\ denotes buf c a) Hbuf) as Hs.
  specialize (Hs ltac:(eapply out_mono; [apply (proj1 (sound_all buf Hbuf _) 0 _ (at_start buf) Hf)|]; intros c s (ts1 & ts2 & a & E & Hg & Hd & Ha & _);
    exists ts2; split_and!; [done|intros ->; rewrite app_nil_r in E; subst ts1; by exists a|done])).
  destruct (parsecmd buf) as [[c buf']| | |]; [|done..]. destruct Hs as [(a & Hg & Hd) ->]. exists a. split; [done|by apply nulterminate_says].
Qed.

(** C28. The parser of the shell.  It returns on every line, and it accepts exactly the lines
    of the grammar: a command that it returns is one that the grammar gives to the tokens
    of the line, and for every command of the grammar it returns that command.  The
    strings of the command are the words of the line: the NULs that [nulterminate] writes
    into the line end every word and destroy none. *)
Theorem shell_parses_grammar (buf : list Z) (Hbuf : Forall (fun c => c <> 0) buf) :
  (forall a, gline (tokens buf) a <-> exists c buf', parsecmd buf = Ok (c, buf') /\ says buf' c a) /\
  ((exists c buf', parsecmd buf = Ok (c, buf')) \/ exists msg, parsecmd buf = Panic msg).
Proof.
  pose proof (parsecmd_sound buf Hbuf) as Hs. split.
  - intros a. split; [by apply parsecmd_complete|]. intros (c & buf' & E & Hsay). rewrite E in Hs. destruct Hs as (a' & Hg & Hsay'). by rewrite (says_fun _ _ _ _ Hsay Hsay').
  - destruct (parsecmd buf) as [[c buf']| | |]; [left; by exists c, buf'|right; by eexists|done|done].
Qed.

(** [(a;b|c>f)&; d], with a tab and a newline behind it. *)
Definition demo_line : list Z := [40; 97; 59; 98; 124; 99; 62; 102; 41; 38; 59; 32; 100; 9; 10].
Definition demo_cmd : cmd :=
  LIST (BACK (LIST (EXEC [(1, 2)]) (PIPE (EXEC [(3, 4)]) (REDIR (EXEC [(5, 6)]) 7 8 (rmode ROut) (rfd ROut))))) (EXEC [(12, 13)]).
Definition demo_buf : list Z := [40; 97; 0; 98; 0; 99; 0; 102; 0; 38; 59; 32; 100; 0; 10].

Lemma demo_parse : parsecmd demo_line = Ok (demo_cmd, demo_buf).
Proof. vm_compute. reflexivity. Qed.

Lemma shell_parses_grammar_witness :
  gline (tokens demo_line) (AList (ABack (AList (AExec [[97]]) (APipe (AExec [[98]]) (ARedir (AExec [[99]]) ROut [102])))) (AExec [[100]])).
Proof.
  destruct (shell_parses_grammar demo_line) as [H _].
  - repeat constructor; discriminate.
  - apply H. exists demo_cmd, demo_buf. split; [exact demo_parse|].
    repeat first [apply s_list | apply s_back | apply s_pipe | apply s_redir | apply s_exec | apply Forall2_cons; split | apply Forall2_nil | reflexivity].
Defined.
