(* ===== verification/Runcmd.v ===== *)
(** * Running commands, [runcmd] and [main] of [user/sh.c]

    A process has a table of descriptors; [open], [dup] and [pipe] take the lowest free one.
    What a line does is the tree of the processes that it starts: which programs run, with
    which arguments and descriptors, and which processes wait for others with which
    descriptors.  [fork], [pipe], [open] and [exec] can fail: the oracle [ok] says so for
    every call, a call being named by its place in the tree.  Messages are left out, and a
    shell process that panics exits with 1.

    The theorem is that the descriptors are those that the notation of the command means:
    the output of the left side of a bar and the input of its right side are the two ends of
    a pipe, a redirection replaces one descriptor, and no process has another descriptor. *)

From S2P Require Import Prelude Bytes Riscv Sysfile Sh ShSpec.

(** ** Descriptors *)

(** What a descriptor refers to; a pipe is named by the place of the call. *)
Inductive target := Inherited (k : Z) | Console | File (name : list Z) (mode : Z) | PipeR (id : list Z) | PipeW (id : list Z).
#[export] Instance target_eq_dec : EqDecision target.
Proof. solve_decision. Defined.

Abbreviation fds := (list (option target)).

Definition fd_close (fd : Z) (t : fds) : fds := <[Z.to_nat fd := None]> t.

(** The lowest free descriptor, and the table with [o] there. *)
Fixpoint fd_alloc (o : target) (t : fds) : option (Z * fds) :=
  match t with
  | [] => None
  | None :: t => Some (0, Some o :: t)
  | Some x :: t => '(fd, t) ← fd_alloc o t; Some (fd + 1, Some x :: t)
  end.

(** [dup(fd)]: its result is not used. *)
Definition fd_dup (fd : Z) (t : fds) : fds :=
  match t !! Z.to_nat fd with
  | Some (Some o) => match fd_alloc o t with Some (_, t) => t | None => t end
  | _ => t
  end.

(** [pipe(p)]: [p[0]], [p[1]] and the table. *)
Definition fd_pipe (id : list Z) (t : fds) : option (Z * Z * fds) :=
  '(p0, t) ← fd_alloc (PipeR id) t;
  '(p1, t) ← fd_alloc (PipeW id) t;
  Some (p0, p1, t).

(** ** [runcmd] *)

(** A process of the shell: it exits, becomes a program, forks a child and goes on after the
    child as another command ([PSeq]), waits for two children ([PPipe]) or for none, before
    it exits ([PBack]); [POrphan] has exited after the first of two forks. *)
Inductive ptree :=
| PExit (status : Z)
| PExec (argv : list (list Z)) (t : fds)
| PSeq (child next : ptree) (t : fds)
| PPipe (id : list Z) (left right : ptree) (t : fds)
| PBack (child : ptree)
| POrphan (child : ptree).

Section Run.
Variables (ok : list Z -> bool) (buf : list Z).

Fixpoint runcmd (at_ : list Z) (c : cmd) (t : fds) : ptree :=
  match c with
  | EXEC [] => PExit 1
  | EXEC argv => if ok (0 :: at_) then PExec ((fun a => string_at buf (fst a)) <$> argv) t else PExit 0
  | REDIR c file _ mode fd =>
      let t := fd_close fd t in
      if ok (0 :: at_) then
        match fd_alloc (File (string_at buf file) mode) t with
        | Some (_, t) => runcmd (1 :: at_) c t
        | None => PExit 1
        end
      else PExit 1
  | LIST l r => if ok (0 :: at_) then PSeq (runcmd (1 :: at_) l t) (runcmd (2 :: at_) r t) t else PExit 1
  | PIPE l r =>
      match (if ok (0 :: at_) then fd_pipe at_ t else None) with
      | None => PExit 1
      | Some (p0, p1, t) =>
          if negb (ok (1 :: at_)) then PExit 1
          else
            let left := runcmd (2 :: at_) l (fd_close p1 (fd_close p0 (fd_dup p1 (fd_close 1 t)))) in
            if negb (ok (3 :: at_)) then POrphan left
            else
              let right := runcmd (4 :: at_) r (fd_close p1 (fd_close p0 (fd_dup p0 (fd_close 0 t)))) in
              PPipe at_ left right (fd_close p1 (fd_close p0 t))
      end
  | BACK c => if ok (0 :: at_) then PBack (runcmd (1 :: at_) c t) else PExit 1
  end.
End Run.

(** ** [main] *)

(** [while((fd = open("console", O_RDWR)) >= 0)]; [ok k] if the [k]th [open] succeeds. *)
Fixpoint open_console (fuel : nat) (ok : Z -> bool) (k : Z) (t : fds) : fds :=
  match fuel with
  | O => t
  | S fuel =>
      match (if ok k then fd_alloc Console t else None) with
      | None => t
      | Some (fd, t) => if 3 <=? fd then fd_close fd t else open_console fuel ok (k + 1) t
      end
  end.

(** What the shell does with a line: [chdir], a child, nothing more because [fork] failed. *)
Inductive action := Chdir (path : list Z) | Child (p : ptree) | Dies.

Definition cd_prefix : list Z := [99; 100; 32].

Definition run_line (ok : list Z -> bool) (at_ : list Z) (buf : list Z) (t : fds) : action :=
  if bool_decide (take 3 buf = cd_prefix) then Chdir (drop 3 (removelast buf))
  else if ok (0 :: at_) then
    Child match parsecmd buf with
          | Ok (c, buf') => runcmd ok buf' (1 :: at_) c t
          | _ => PExit 1
          end
  else Dies.

(** The lines that [gets] returns; the empty one is the end of the input. *)
Fixpoint sh_loop (ok : list Z -> bool) (at_ : list Z) (lines : list (list Z)) (t : fds) : list action :=
  match lines with
  | [] | [] :: _ => []
  | buf :: lines =>
      match run_line ok at_ buf t with
      | Dies => [Dies]
      | a => a :: sh_loop ok (2 :: at_) lines t
      end
  end.

Definition sh_main (ok_open : Z -> bool) (ok : list Z -> bool) (lines : list (list Z)) (t : fds) : list action :=
  sh_loop ok [] lines (open_console (S (length t)) ok_open 0 t).

(** ** What a command means *)

(** Standard input, output and error, and nothing else. *)
Definition std (t : fds) : Prop := exists a b c, t = Some a :: Some b :: Some c :: replicate 13 None.

Section Plan.
Variable ok : list Z -> bool.

Fixpoint plan (at_ : list Z) (a : acmd) (t : fds) : ptree :=
  match a with
  | AExec [] => PExit 1
  | AExec argv => if ok (0 :: at_) then PExec argv t else PExit 0
  | ARedir a k f => if ok (0 :: at_) then plan (1 :: at_) a (<[Z.to_nat (rfd k) := Some (File f (rmode k))]> t) else PExit 1
  | AList l r => if ok (0 :: at_) then PSeq (plan (1 :: at_) l t) (plan (2 :: at_) r t) t else PExit 1
  | APipe l r =>
      if ok (0 :: at_) && ok (1 :: at_) then
        let left := plan (2 :: at_) l (<[1%nat := Some (PipeW at_)]> t) in
        if ok (3 :: at_) then PPipe at_ left (plan (4 :: at_) r (<[0%nat := Some (PipeR at_)]> t)) t else POrphan left
      else PExit 1
  | ABack a => if ok (0 :: at_) then PBack (plan (1 :: at_) a t) else PExit 1
  end.
End Plan.

(** The tables of the processes that run a program or wait. *)
Fixpoint tables (p : ptree) : list fds :=
  match p with
  | PExit _ => []
  | PExec _ t => [t]
  | PSeq l r t | PPipe _ l r t => t :: tables l ++ tables r
  | PBack c | POrphan c => tables c
  end.

Lemma std_insert t k o : std t -> (k < 3)%nat -> std (<[k := Some o]> t).
Proof. intros (a & b & c & ->) Hk. destruct k as [|[|[|k]]]; [by exists o, b, c|by exists a, o, c|by exists a, b, o|lia]. Qed.

Lemma runcmd_plan ok buf c a : says buf c a -> forall at_ t, std t -> runcmd ok buf at_ c t = plan ok at_ a t.
Proof.
  induction 1 as [args ws Hw|c a q e k f Hs IH Hf|l r a b Hl IHl Hr IHr|l r a b Hl IHl Hr IHr|c a Hs IH]; intros at_ t Ht.
  - cbn [runcmd plan]. destruct Hw as [|x w args ws Hx Hw]; [done|]. destruct (ok (0 :: at_)); [|done]. f_equal. cbn [fmap list_fmap]. rewrite Hx. f_equal. induction Hw as [|y w' args ws Hy _ IHw]; [done|]. cbn. by rewrite Hy, IHw.
  - cbn [runcmd plan]. destruct (ok (0 :: at_)); [|done]. rewrite Hf. pose proof (std_insert t (Z.to_nat (rfd k)) (File f (rmode k)) Ht ltac:(destruct k; cbn; lia)) as Hstd. destruct Ht as (x & y & z & ->). rewrite <- (IH (1 :: at_)) by exact Hstd. by destruct k.
  - cbn [runcmd plan]. destruct (ok (0 :: at_)); [|done]. pose proof (std_insert t 1 (PipeW at_) Ht ltac:(lia)) as H1. pose proof (std_insert t 0 (PipeR at_) Ht ltac:(lia)) as H0. destruct Ht as (x & y & z & ->). cbn [fd_pipe fd_alloc replicate mbind option_bind]. cbn [andb]. destruct (ok (1 :: at_)); [|done]. cbn [negb].
    rewrite <- (IHl (2 :: at_)) by exact H1. rewrite <- (IHr (4 :: at_)) by exact H0. by destruct (ok (3 :: at_)).
  - cbn [runcmd plan]. destruct (ok (0 :: at_)); [|done]. by rewrite IHl, IHr.
  - cbn [runcmd plan]. destruct (ok (0 :: at_)); [|done]. by rewrite IH.
Qed.

(** ** The ends of a pipe *)

(** What a process of a command can refer to: what the shell could, files, and the pipes of
    the command. *)
Definition from (at_ : list Z) (t : fds) (o : target) : Prop :=
  Some o ∈ t \/ match o with PipeR id | PipeW id => at_ `suffix_of` id | File _ _ => True | _ => False end.

Lemma from_insert at_ k at' t j x o : at' = k :: at_ -> from at' (<[j := Some x]> t) o -> (x = o -> from at_ t o) -> from at_ t o.
Proof.
  intros -> [Hin|Ho] Hx.
  - apply list_elem_of_lookup in Hin as [i Hi]. destruct (decide (i = j)) as [->|Hne].
    + apply list_lookup_insert_Some in Hi as [(_ & E & _)|[? _]]; [injection E as ->; by apply Hx|done].
    + rewrite list_lookup_insert_ne in Hi by done. left. by eapply list_elem_of_lookup_2.
  - right. destruct o; try done; by eapply suffix_cons_l.
Qed.

Lemma from_deeper at_ k t o : from (k :: at_) t o -> from at_ t o.
Proof. intros [H|H]; [by left|right]. destruct o; try done; by eapply suffix_cons_l. Qed.

Lemma plan_tables ok : forall a at_ t, std t -> Forall (fun t' => std t' /\ forall o, Some o ∈ t' -> from at_ t o) (tables (plan ok at_ a t)).
Proof.
  assert (forall t at_, std t -> std t /\ forall o, Some o ∈ t -> from at_ t o) as Hself by (intros; split; [done|by left]).
  induction a as [args|a IH k f|l IHl r IHr|l IHl r IHr|a IH]; intros at_ t Ht; cbn [plan].
  - destruct args; [constructor|]. destruct (ok (0 :: at_)); [|constructor]. constructor; [by apply Hself|constructor].
  - destruct (ok (0 :: at_)); [|constructor]. eapply Forall_impl; [apply IH, std_insert; [done|destruct k; cbn; lia]|]. intros t' [Hs Ho]. split; [done|]. intros o Hin. eapply from_insert; [reflexivity|by apply Ho|]. intros <-. by right.
  - destruct (ok (0 :: at_) && ok (1 :: at_)); [|constructor]. assert (Forall (fun t' => std t' /\ forall o, Some o ∈ t' -> from at_ t o) (tables (plan ok (2 :: at_) l (<[1%nat := Some (PipeW at_)]> t)))) as HL.
    { eapply Forall_impl; [apply IHl, std_insert; [done|lia]|]. intros t' [Hs Ho]. split; [done|]. intros o Hin. eapply from_insert; [reflexivity|by apply Ho|]. intros <-. right. done. }
    destruct (ok (3 :: at_)); [|exact HL]. cbn [tables]. constructor; [by apply Hself|]. apply Forall_app. split; [exact HL|]. eapply Forall_impl; [apply IHr, std_insert; [done|lia]|]. intros t' [Hs Ho]. split; [done|]. intros o Hin. eapply from_insert; [reflexivity|by apply Ho|]. intros <-. right. done.
  - destruct (ok (0 :: at_)); [|constructor]. cbn [tables]. constructor; [by apply Hself|]. apply Forall_app. split; [eapply Forall_impl; [by apply IHl|]|eapply Forall_impl; [by apply IHr|]]; intros t' [Hs Ho]; (split; [done|]); intros o Hin; by eapply from_deeper, Ho.
  - destruct (ok (0 :: at_)); [|constructor]. eapply Forall_impl; [by apply IH|]. intros t' [Hs Ho]. split; [done|]. intros o Hin. by eapply from_deeper, Ho.
Qed.

(** The pipes of a tree of processes. *)
Fixpoint pipes (p : ptree) : list (list Z) :=
  match p with
  | PExit _ | PExec _ _ => []
  | PSeq l r _ => pipes l ++ pipes r
  | PPipe id l r _ => id :: pipes l ++ pipes r
  | PBack c | POrphan c => pipes c
  end.

Definition without (o : target) (ts : list fds) : Prop := Forall (fun t => Some o ∉ t) ts.
Definition without_pipes (ids : list (list Z)) (ts : list fds) : Prop := Forall (fun id => without (PipeR id) ts /\ without (PipeW id) ts) ids.

(** Only the processes on the left of a bar have the end that writes, only those on its right
    the end that reads: when they have exited, the pipe is closed. *)
Fixpoint plumbed (p : ptree) : Prop :=
  match p with
  | PExit _ | PExec _ _ => True
  | PSeq l r t => plumbed l /\ plumbed r /\ without_pipes (pipes l) (t :: tables r) /\ without_pipes (pipes r) (t :: tables l)
  | PPipe id l r t => plumbed l /\ plumbed r /\ without_pipes (pipes l) (t :: tables r) /\ without_pipes (pipes r) (t :: tables l) /\
      without (PipeR id) (t :: tables l) /\ without (PipeW id) (t :: tables r)
  | PBack c | POrphan c => plumbed c
  end.

(** No pipe with a name at or below [at_]. *)
Definition fresh (at_ : list Z) (t : fds) : Prop := forall id, at_ `suffix_of` id -> Some (PipeR id) ∉ t /\ Some (PipeW id) ∉ t.

Lemma plan_pipes ok : forall a at_ t, Forall (fun id => at_ `suffix_of` id) (pipes (plan ok at_ a t)).
Proof.
  assert (forall (at_ : list Z) k ids, Forall (fun id => (k :: at_) `suffix_of` id) ids -> Forall (fun id => at_ `suffix_of` id) ids) as Hup by (intros at_ k ids H; eapply Forall_impl; [exact H|]; intros id; apply suffix_cons_l).
  induction a as [args|a IH k f|l IHl r IHr|l IHl r IHr|a IH]; intros at_ t; cbn [plan].
  - destruct args; [constructor|]. destruct (ok (0 :: at_)); constructor.
  - destruct (ok (0 :: at_)); [|constructor]. eapply Hup, IH.
  - destruct (ok (0 :: at_) && ok (1 :: at_)); [|constructor]. destruct (ok (3 :: at_)); [|eapply Hup, IHl]. cbn [pipes]. constructor; [done|]. apply Forall_app. split; [eapply Hup, IHl|eapply Hup, IHr].
  - destruct (ok (0 :: at_)); [|constructor]. cbn [pipes]. apply Forall_app. split; [eapply Hup, IHl|eapply Hup, IHr].
  - destruct (ok (0 :: at_)); [|constructor]. eapply Hup, IH.
Qed.

(** Two places of which neither is above the other. *)
Lemma suffix_apart j k (at_ id : list Z) : j <> k -> (j :: at_) `suffix_of` id -> ~ (k :: at_) `suffix_of` id.
Proof.
  intros Hne [x ->] [y E]. apply (f_equal reverse) in E. rewrite !reverse_app, !reverse_cons, <- !app_assoc in E. apply app_inv_head in E. by injection E as ?.
Qed.

Lemma suffix_above k (at_ : list Z) : ~ (k :: at_) `suffix_of` at_.
Proof. intros H. apply suffix_length in H. cbn in H. lia. Qed.

(** The processes of a command at [at_] do not know the pipes of another place. *)
Lemma plan_without ok a at_ t ids : std t -> Forall (fun id => Some (PipeR id) ∉ t /\ Some (PipeW id) ∉ t /\ ~ at_ `suffix_of` id) ids -> without_pipes ids (tables (plan ok at_ a t)).
Proof.
  intros Ht Hids. eapply Forall_impl; [exact Hids|]. intros id (H1 & H2 & H3). split; (eapply Forall_impl; [by apply plan_tables|]); intros t' [_ Ho] Hin; destruct (Ho _ Hin); done.
Qed.

Lemma insert_in (t : fds) j x o : Some o ∈ <[j := Some x]> t -> o = x \/ Some o ∈ t.
Proof.
  intros H. apply list_elem_of_lookup in H as [i Hi]. apply list_lookup_insert_Some in Hi as [(_ & E & _)|[_ Hi]]; [left; congruence|right; by eapply list_elem_of_lookup_2].
Qed.

Lemma fresh_insert at_ k t j x : fresh at_ t -> match x with PipeR id | PipeW id => id = at_ | _ => True end -> fresh (k :: at_) (<[j := Some x]> t).
Proof.
  intros Hf Hx id Hid. destruct (Hf id (suffix_cons_l _ _ _ Hid)) as [H1 H2]. split; intros H; (apply insert_in in H as [<-|H]; [subst id; by eapply suffix_above|done]).
Qed.

Lemma fresh_deeper at_ k t : fresh at_ t -> fresh (k :: at_) t.
Proof. intros Hf id Hid. apply Hf. by eapply suffix_cons_l. Qed.

(** The pipes at one place are unknown to the command at another one, and to the shell. *)
Lemma plan_siblings ok a b at_ j k t tb ta : j <> k -> std tb -> fresh at_ t -> fresh at_ tb \/ (exists i x, tb = <[i := Some x]> t /\ match x with PipeR id | PipeW id => id = at_ | _ => True end) ->
  without_pipes (pipes (plan ok (j :: at_) a ta)) (t :: tables (plan ok (k :: at_) b tb)).
Proof.
  intros Hjk Hb Hf Htb. assert (fresh (j :: at_) tb) as Hfb by (destruct Htb as [H|(i & x & -> & Hx)]; [by apply fresh_deeper|by apply fresh_insert]). pose proof (plan_pipes ok a (j :: at_) ta) as Hp.
  assert (without_pipes (pipes (plan ok (j :: at_) a ta)) (tables (plan ok (k :: at_) b tb))) as Hw.
  { apply plan_without; [done|]. eapply Forall_impl; [exact Hp|]. intros id Hid. destruct (Hfb id Hid). split_and!; [done|done|by eapply suffix_apart]. }
  apply Forall_forall. intros id Hin. pose proof (proj1 (Forall_forall _ _) Hp id Hin) as Hid. pose proof (proj1 (Forall_forall _ _) Hw id Hin) as [H1 H2]. destruct (Hf id (suffix_cons_l _ _ _ Hid)). split; by constructor.
Qed.

Lemma plan_plumbed ok : forall a at_ t, std t -> fresh at_ t -> plumbed (plan ok at_ a t).
Proof.
  induction a as [args|a IH k f|l IHl r IHr|l IHl r IHr|a IH]; intros at_ t Ht Hf; cbn [plan].
  - destruct args; [done|]. by destruct (ok (0 :: at_)).
  - destruct (ok (0 :: at_)); [|done]. apply IH; [apply std_insert; [done|destruct k; cbn; lia]|by apply fresh_insert].
  - destruct (ok (0 :: at_) && ok (1 :: at_)); [|done]. set (tl := <[1%nat := Some (PipeW at_)]> t). set (tr := <[0%nat := Some (PipeR at_)]> t). assert (std tl) as Hl by (apply std_insert; [done|lia]). assert (std tr) as Hr by (apply std_insert; [done|lia]).
    assert (plumbed (plan ok (2 :: at_) l tl)) as HL by (apply IHl; [done|by apply fresh_insert]). destruct (ok (3 :: at_)); [|exact HL]. destruct (Hf at_ ltac:(done)) as [F1 F2]. cbn [plumbed]. split_and!; [done|apply IHr; [done|by apply fresh_insert]|..].
    + eapply plan_siblings; [done|done|done|right; by exists 0%nat, (PipeR at_)].
    + eapply plan_siblings; [done|done|done|right; by exists 1%nat, (PipeW at_)].
    + constructor; [done|]. eapply Forall_impl; [by apply plan_tables|]. intros t' [_ Ho] Hin. destruct (Ho _ Hin) as [H|H]; [|by eapply suffix_above]. apply insert_in in H as [|]; done.
    + constructor; [done|]. eapply Forall_impl; [by apply plan_tables|]. intros t' [_ Ho] Hin. destruct (Ho _ Hin) as [H|H]; [|by eapply suffix_above]. apply insert_in in H as [|]; done.
  - destruct (ok (0 :: at_)); [|done]. cbn [plumbed]. split_and!; [apply IHl; [done|by apply fresh_deeper]|apply IHr; [done|by apply fresh_deeper]|eapply plan_siblings; [done|done|done|by left]|eapply plan_siblings; [done|done|done|by left]].
  - destruct (ok (0 :: at_)); [|done]. apply IH; [done|by apply fresh_deeper].
Qed.

(** ** The shell *)

(** The descriptors with which the shell starts, and those after [main] opened the console
    for the missing ones. *)
Definition start_fds (x y z : option Z) : fds := (Inherited <$> x) :: (Inherited <$> y) :: (Inherited <$> z) :: replicate 13 None.
Definition stdio (x : option Z) : target := match x with Some k => Inherited k | None => Console end.
Definition std_fds (x y z : option Z) : fds := Some (stdio x) :: Some (stdio y) :: Some (stdio z) :: replicate 13 None.

Lemma open_console_std x y z : open_console (S (length (start_fds x y z))) (fun _ => true) 0 (start_fds x y z) = std_fds x y z.
Proof. by destruct x, y, z. Qed.

Lemma std_fds_ok x y z at_ : std (std_fds x y z) /\ fresh at_ (std_fds x y z).
Proof.
  split; [by eexists _, _, _|]. intros id _. unfold std_fds. rewrite !not_elem_of_cons. split; (split_and!; [by destruct x|by destruct y|by destruct z|intros H; apply elem_of_replicate in H as [? _]; done]).
Qed.

(** C29. The shell.  When it can open the console, it starts with exactly standard input, output
    and error.  The child for a line that is not a [cd] exits if the line is not a command;
    otherwise the processes that it starts, up to calls that fail, are those that the command
    means: with the right arguments, with exactly three descriptors each, and so that of
    every pipe the writing end is with the processes on the left of the bar only and the
    reading end with those on its right only. *)
Theorem shell_runs (ok : list Z -> bool) (x y z : option Z) (lines : list (list Z)) : let t := std_fds x y z in
  sh_main (fun _ => true) ok lines (start_fds x y z) = sh_loop ok [] lines t /\
  forall at_ buf, Forall (fun c => c <> 0) buf -> take 3 buf <> cd_prefix -> ok (0 :: at_) = true ->
    exists p, run_line ok at_ buf t = Child p /\ Forall std (tables p) /\ plumbed p /\
      (p = PExit 1 /\ (forall a, ~ gline (tokens buf) a) \/ exists a, gline (tokens buf) a /\ p = plan ok (1 :: at_) a t).
Proof.
  intros t. split; [unfold sh_main; by rewrite open_console_std|]. intros at_ buf Hbuf Hcd Hok. destruct (std_fds_ok x y z (1 :: at_)) as [Hstd Hf]. fold t in Hstd, Hf. unfold run_line. rewrite bool_decide_false, Hok by done. eexists. split; [reflexivity|].
  pose proof (parsecmd_sound buf Hbuf) as Hs. destruct (parsecmd buf) as [[c buf']|msg| |] eqn:E; [|split_and!; [constructor|done|left]|done|done].
  - destruct Hs as (a & Hg & Hsay). rewrite (runcmd_plan ok buf' c a Hsay) by done. split_and!; [|by apply plan_plumbed|right; by exists a]. eapply Forall_impl; [by apply plan_tables|]. by intros t' [? _].
  - split; [done|]. intros a Hg. destruct (parsecmd_complete buf a Hbuf Hg) as (c & buf' & E' & _). congruence.
Qed.

(** [a|b>c] *)
Lemma shell_runs_witness : exists p, run_line (fun _ => true) [] [97; 124; 98; 62; 99] (std_fds None None None) = Child p /\ plumbed p /\
  p = PPipe [1] (PExec [[97]] (Some Console :: Some (PipeW [1]) :: Some Console :: replicate 13 None)) (PExec [[98]] (Some (PipeR [1]) :: Some (File [99] (rmode ROut)) :: Some Console :: replicate 13 None)) (std_fds None None None).
Proof.
  destruct (shell_runs (fun _ => true) None None None []) as [_ H]. destruct (H [] [97; 124; 98; 62; 99]) as (p & E & _ & Hp & _); [repeat constructor; discriminate|discriminate|reflexivity|].
  exists p. split; [exact E|]. split; [exact Hp|]. vm_compute in E. by injection E as <-.
Defined.
