(* ===== verification/Umalloc.v ===== *)
(** * The memory allocator of user programs, [user/umalloc.c]

    Memory in units of [sizeof(Header)], 16 bytes: an address is the number of its unit,
    and each unit may hold a header, with its fields [s.ptr] and [s.size].  The heap grows
    by [sbrk] up to a limit. *)

From stdpp Require Import sorting.
From S2P Require Import Prelude Riscv.

Definition HEADER : Z := 16.

Record ust := Ust {
  u_ptr : Z -> Z;      (* p->s.ptr *)
  u_size : Z -> Z;     (* p->s.size *)
  u_freep : Z;
  u_brk : Z;
  u_limit : Z;
}.

Definition set_ptr (p v : Z) : M ust unit := modify (fun s => Ust (upd (u_ptr s) p v) (u_size s) (u_freep s) (u_brk s) (u_limit s)).
Definition set_size (p v : Z) : M ust unit := modify (fun s => Ust (u_ptr s) (upd (u_size s) p (u32 v)) (u_freep s) (u_brk s) (u_limit s)).
Definition set_freep (v : Z) : M ust unit := modify (fun s => Ust (u_ptr s) (u_size s) v (u_brk s) (u_limit s)).
Definition get_ptr (p : Z) : M ust Z := gets (fun s => u_ptr s p).
Definition get_size (p : Z) : M ust Z := gets (fun s => u_size s p).

(** [sbrk(n)], with [n] in bytes: the old break, or -1. *)
Definition sbrk (n : Z) : M ust Z :=
  let! brk := gets u_brk in
  let! limit := gets u_limit in
  if limit <? brk + n / HEADER then ret (-1)
  else modify (fun s => Ust (u_ptr s) (u_size s) (u_freep s) (brk + n / HEADER) (u_limit s)) ;; ret brk.

Section Umalloc.
(** The address of [base]. *)
Context (base : Z).

(** The loop of [free]. *)
Fixpoint find_place (fuel : nat) (bp p : Z) : M ust Z :=
  match fuel with
  | O => nofuel
  | S fuel =>
      let! q := get_ptr p in
      if (p <? bp) && (bp <? q) then ret p
      else if (q <=? p) && ((p <? bp) || (bp <? q)) then ret p
      else find_place fuel bp q
  end.

(** Join [bp] with the block behind it, or link it to the next free block. *)
Definition free_up (bp p : Z) : M ust unit :=
  let! n := get_size bp in
  let! q := get_ptr p in
  if bp + n =? q then
    let! k := get_size q in
    set_size bp (n + k) ;;
    let! qq := get_ptr q in
    set_ptr bp qq
  else set_ptr bp q.

(** Join [bp] with the block before it, or link it there. *)
Definition free_down (bp p : Z) : M ust unit :=
  let! k := get_size p in
  if p + k =? bp then
    let! n := get_size bp in
    set_size p (k + n) ;;
    let! r := get_ptr bp in
    set_ptr p r
  else set_ptr p bp.

Definition free (fuel : nat) (ap : Z) : M ust unit :=
  let bp := ap - 1 in
  let! freep := gets u_freep in
  let! p := find_place fuel bp freep in
  free_up bp p ;;
  free_down bp p ;;
  set_freep p.

(** [nu * sizeof(Header)] is passed as an [int]. *)
Definition morecore (fuel : nat) (nu : Z) : M ust Z :=
  let nu := if nu <? 4096 then 4096 else nu in
  let! p := sbrk (i32 (nu * HEADER)) in
  if p =? -1 then ret 0
  else
    set_size p nu ;;
    free fuel (p + 1) ;;
    gets u_freep.

(** The block [p] is large enough. *)
Definition malloc_take (nunits prevp p : Z) : M ust Z :=
  let! n := get_size p in
  if n =? nunits then
    let! q := get_ptr p in
    set_ptr prevp q ;;
    set_freep prevp ;;
    ret (p + 1)
  else
    set_size p (n - nunits) ;;
    set_size (p + (n - nunits)) nunits ;;
    set_freep prevp ;;
    ret (p + (n - nunits) + 1).

Fixpoint malloc_loop (fuel : nat) (nunits prevp p : Z) : M ust Z :=
  match fuel with
  | O => nofuel
  | S fuel =>
      let! n := get_size p in
      if nunits <=? n then malloc_take nunits prevp p
      else
        let! freep := gets u_freep in
        if p =? freep then
          let! p := morecore fuel nunits in
          if p =? 0 then ret 0
          else
            let! q := get_ptr p in
            malloc_loop fuel nunits p q
        else
          let! q := get_ptr p in
          malloc_loop fuel nunits p q
  end.

Definition malloc (fuel : nat) (nbytes : Z) : M ust Z :=
  let nunits := u32 ((nbytes + HEADER - 1) mod 2 ^ 64 / HEADER + 1) in
  let! freep := gets u_freep in
  (if freep =? 0 then
     set_ptr base base ;;
     set_freep base ;;
     set_size base 0
   else ret tt) ;;
  let! prevp := gets u_freep in
  let! p := get_ptr prevp in
  malloc_loop fuel nunits prevp p.
End Umalloc.

(** ** The heap as a list of blocks

    The heap from [lo] to the break is tiled by blocks, each free or allocated; the free
    ones, in the order of their addresses, are the circular list of [base]. *)

Abbreviation tile := (Z * bool)%type.

Fixpoint total (bl : list tile) : Z :=
  match bl with
  | (n, _) :: bl' => n + total bl'
  | [] => 0
  end.

(** The addresses of the free blocks, and the allocated blocks with their sizes. *)
Fixpoint frees (lo : Z) (bl : list tile) : list Z :=
  match bl with
  | (n, b) :: bl' => (if b then [lo] else []) ++ frees (lo + n) bl'
  | [] => []
  end.

Fixpoint allocs (lo : Z) (bl : list tile) : list (Z * Z) :=
  match bl with
  | (n, b) :: bl' => (if b then [] else [(lo, n)]) ++ allocs (lo + n) bl'
  | [] => []
  end.

(** The headers have the sizes of the blocks. *)
Fixpoint sized (size : Z -> Z) (lo : Z) (bl : list tile) : Prop :=
  match bl with
  | (n, _) :: bl' => size lo = n /\ 0 < n /\ sized size (lo + n) bl'
  | [] => True
  end.

(** No two free blocks touch. *)
Definition starts_free (bl : list tile) : bool := match bl with (_, b) :: _ => b | [] => false end.
Fixpoint merged (bl : list tile) : Prop :=
  match bl with
  | (_, b) :: bl' => b && starts_free bl' = false /\ merged bl'
  | [] => True
  end.

Fixpoint linked (ptr : Z -> Z) (l : list Z) (stop : Z) : Prop :=
  match l with
  | a :: l' => ptr a = hd stop l' /\ linked ptr l' stop
  | [] => True
  end.

Lemma total_app t1 t2 : total (t1 ++ t2) = total t1 + total t2.
Proof. induction t1 as [|[n b] t1 IH]; cbn [total app]; lia. Qed.

Lemma frees_app t1 t2 lo : frees lo (t1 ++ t2) = frees lo t1 ++ frees (lo + total t1) t2.
Proof.
  revert lo. induction t1 as [|[n b] t1 IH]; intros lo; cbn [frees total app]; [by rewrite Z.add_0_r|].
  rewrite IH, Z.add_assoc. by rewrite (assoc_L (++)).
Qed.

Lemma allocs_app t1 t2 lo : allocs lo (t1 ++ t2) = allocs lo t1 ++ allocs (lo + total t1) t2.
Proof.
  revert lo. induction t1 as [|[n b] t1 IH]; intros lo; cbn [allocs total app]; [by rewrite Z.add_0_r|].
  rewrite IH, Z.add_assoc. by rewrite (assoc_L (++)).
Qed.

Lemma sized_app size t1 t2 lo : sized size lo (t1 ++ t2) <-> sized size lo t1 /\ sized size (lo + total t1) t2.
Proof.
  revert lo. induction t1 as [|[n b] t1 IH]; intros lo; cbn [sized total app]; [rewrite Z.add_0_r; tauto|].
  rewrite IH, Z.add_assoc. tauto.
Qed.

Lemma merged_app t1 t2 : merged (t1 ++ t2) -> merged t1 /\ merged t2.
Proof.
  induction t1 as [|[n b] t1 IH]; cbn [merged app]; [done|]. intros [H1 H2]. destruct (IH H2). split_and!; [|done|done]. destruct t1 as [|[]]; [by rewrite andb_false_r|done].
Qed.

Lemma total_nonneg size lo bl : sized size lo bl -> 0 <= total bl.
Proof. revert lo. induction bl as [|[n b] bl IH]; intros lo; cbn [sized total]; [lia|]. intros (_ & Hn & H). specialize (IH _ H). lia. Qed.

Lemma frees_range size lo bl x : sized size lo bl -> x ∈ frees lo bl -> lo <= x < lo + total bl.
Proof.
  revert lo. induction bl as [|[n b] bl IH]; intros lo; cbn [sized total frees]; [set_solver|]. intros (_ & Hn & H) Hx. pose proof (total_nonneg _ _ _ H).
  apply elem_of_app in Hx as [Hx|Hx]; [destruct b; [|set_solver]; assert (x = lo) by set_solver; lia|]. apply IH in Hx; [lia|done].
Qed.

(** Sizes may change outside of the blocks. *)
Lemma sized_ext size size' lo bl : sized size lo bl -> (forall x, lo <= x < lo + total bl -> size' x = size x) -> sized size' lo bl.
Proof.
  revert lo. induction bl as [|[n b] bl IH]; intros lo; cbn [sized total]; [done|]. intros (H1 & Hn & H) Hx. pose proof (total_nonneg _ _ _ H).
  split_and!; [rewrite Hx by lia; done|done|]. apply IH; [done|]. intros x Hr. apply Hx. lia.
Qed.

Lemma linked_app ptr l1 a l2 stop : linked ptr (l1 ++ a :: l2) stop <-> linked ptr l1 a /\ linked ptr (a :: l2) stop.
Proof.
  induction l1 as [|b l1 IH]; [cbn; tauto|]. change ((b :: l1) ++ a :: l2) with (b :: (l1 ++ a :: l2)). cbn [linked] in IH |- *. rewrite IH.
  assert (hd stop (l1 ++ a :: l2) = hd a l1) as -> by (by destruct l1). tauto.
Qed.

Lemma linked_ext ptr ptr' l stop : linked ptr l stop -> (forall x, x ∈ l -> ptr' x = ptr x) -> linked ptr' l stop.
Proof.
  induction l as [|a l IH]; cbn [linked]; [done|]. intros [H1 H2] Hx. split; [rewrite Hx by (by left); done|]. apply IH; [done|]. intros x Hin. apply Hx. by right.
Qed.

Abbreviation sorted := (StronglySorted Z.lt).

Lemma sorted_app l1 a l2 : sorted (l1 ++ a :: l2) -> (forall x, x ∈ l1 -> x < a) /\ (forall x, x ∈ l2 -> a < x) /\ sorted (a :: l2) /\ sorted l1.
Proof.
  induction l1 as [|b l1 IH]; cbn [app]; intros H; apply StronglySorted_inv in H as [H1 H2].
  - rewrite Forall_forall in H2. split_and!; [set_solver|done|by constructor; [|apply Forall_forall]|constructor].
  - destruct (IH H1) as (IH1 & IH2 & IH3 & IH4). rewrite Forall_forall in H2. split_and!; [|done|done|].
    + intros x [->|Hx]%elem_of_cons; [|auto]. apply H2, elem_of_app. right. by left.
    + constructor; [done|]. apply Forall_forall. intros x Hx. apply H2, elem_of_app. by left.
Qed.

Lemma frees_sorted size lo bl b : sized size lo bl -> b < lo -> sorted (b :: frees lo bl).
Proof.
  intros Hs Hb. constructor.
  - clear b Hb. revert lo Hs. induction bl as [|[n b] bl IH]; intros lo; cbn [sized frees]; [constructor|]. intros (_ & Hn & H). destruct b; [|by apply IH].
    constructor; [by apply IH|]. apply Forall_forall. intros x Hx%(frees_range size); [lia|done].
  - apply Forall_forall. intros x Hx%(frees_range size); [lia|done].
Qed.

(** ** [free] finds the place of a block *)

Section Place.
Context (base bp p : Z) (s : ust) (B : list Z).
Context (Hp : p < bp) (HB : forall x, x ∈ B -> bp < x) (Hbase : base <= p).

Lemma place_at fuel : (0 < fuel)%nat -> linked (u_ptr s) (p :: B) base -> find_place fuel bp p s = Ok (p, s).
Proof.
  intros Hf [Hl _]. destruct fuel as [|fuel]; [lia|]. cbn [find_place]. mcomp. rewrite Hl. destruct B as [|b B']; cbn [hd].
  - rewrite (proj2 (Z.ltb_ge bp base)), andb_false_r by lia. rewrite (proj2 (Z.leb_le base p)), (proj2 (Z.ltb_lt p bp)) by lia. done.
  - specialize (HB b ltac:(by left)). rewrite (proj2 (Z.ltb_lt p bp)), (proj2 (Z.ltb_lt bp b)) by lia. done.
Qed.

Lemma place_before l : forall fuel, linked (u_ptr s) (l ++ p :: B) base -> sorted (l ++ p :: B) -> (length l < fuel)%nat ->
  find_place fuel bp (hd p l) s = Ok (p, s).
Proof.
  induction l as [|a l IH]; intros fuel Hl Hs Hf; [by apply place_at|]. destruct fuel as [|fuel]; [cbn in Hf; lia|]. cbn [find_place hd]. mcomp.
  cbn [app linked] in Hl. destruct Hl as [Ha Hl]. cbn [app] in Hs. apply StronglySorted_inv in Hs as [Hs Hlt]. rewrite Ha.
  assert (hd base (l ++ p :: B) = hd p l) as -> by (by destruct l).
  assert (a < hd p l <= p) as Hq.
  { rewrite Forall_forall in Hlt. destruct (sorted_app l p B Hs) as (H1 & _). destruct l as [|c l]; cbn [hd app] in *.
    - split; [apply Hlt; by left|lia].
    - split; [apply Hlt; by left|]. specialize (H1 c ltac:(by left)). lia. }
  rewrite (proj2 (Z.ltb_ge bp (hd p l))), andb_false_r by lia. rewrite (proj2 (Z.leb_gt (hd p l) a)) by lia. cbn [andb]. apply IH; [done|done|cbn in Hf; lia].
Qed.

Lemma place_behind l : forall fuel, linked (u_ptr s) l base -> sorted l -> (forall x, x ∈ l -> bp < x) ->
  find_place (length l + fuel) bp (hd base l) s = find_place fuel bp base s.
Proof.
  induction l as [|a l IH]; intros fuel Hl Hs Hx; [done|]. cbn [length Nat.add find_place hd]. mcomp. destruct Hl as [Ha Hl]. rewrite Ha.
  apply StronglySorted_inv in Hs as [Hs Hlt]. specialize (Hx a ltac:(by left)) as Hxa. rewrite (proj2 (Z.ltb_ge a bp)) by lia. cbn [andb orb].
  assert ((hd base l <=? a) && (bp <? hd base l) = false) as ->.
  { destruct l as [|b l]; cbn [hd]; [rewrite (proj2 (Z.ltb_ge bp base)) by lia; by rewrite andb_false_r|].
    rewrite Forall_forall in Hlt. specialize (Hlt b ltac:(by left)). by rewrite (proj2 (Z.leb_gt b a)) by lia. }
  apply IH; [done|done|]. intros x Hin. apply Hx. by right.
Qed.

Lemma place A x fuel : linked (u_ptr s) (A ++ p :: B) base -> sorted (A ++ p :: B) -> hd p A = base -> x ∈ A ++ p :: B -> (length (A ++ p :: B) < fuel)%nat ->
  find_place fuel bp x s = Ok (p, s).
Proof.
  intros Hl Hs Hhd Hx Hf. rewrite length_app in Hf. cbn [length] in Hf. apply elem_of_app in Hx as [Hx|[->|Hx]%elem_of_cons].
  - apply list_elem_of_split in Hx as (A1 & A2 & ->). rewrite <- (assoc_L (++)) in Hl, Hs. cbn [app] in Hl, Hs. apply linked_app in Hl as [_ Hl].
    apply sorted_app in Hs as (_ & _ & Hs & _). rewrite length_app in Hf. cbn [length] in Hf. apply (place_before (x :: A2)); [done|done|cbn; lia].
  - apply place_at; [lia|]. by apply linked_app in Hl as [_ Hl].
  - apply list_elem_of_split in Hx as (B1 & B2 & EB). assert (linked (u_ptr s) (x :: B2) base /\ sorted (x :: B2)) as [Hl2 Hs2].
    { rewrite EB in Hl, Hs. change (p :: B1 ++ x :: B2) with ((p :: B1) ++ x :: B2) in Hl, Hs. rewrite (assoc_L (++)) in Hl, Hs.
      apply linked_app in Hl as [_ Hl]. by apply sorted_app in Hs as (_ & _ & Hs & _). }
    assert (length B = length B1 + length (x :: B2))%nat as Elen by (by rewrite EB, length_app). cbn [length] in Elen.
    replace fuel with (length (x :: B2) + (fuel - length (x :: B2)))%nat by (cbn [length]; lia).
    rewrite (place_behind (x :: B2) _ Hl2 Hs2); [|intros y Hy; apply HB; rewrite EB; apply elem_of_app; by right].
    rewrite <- Hhd. apply place_before; [done|done|cbn [length]; lia].
Qed.
End Place.

(** ** The invariant *)

Section Heap.
Context (base lo : Z).

Record heap (s : ust) (bl : list tile) : Prop := {
  h_link : linked (u_ptr s) (base :: frees lo bl) base;
  h_size : sized (u_size s) lo bl;
  h_base : u_size s base = 0;
  h_merged : merged bl;
  h_freep : u_freep s ∈ base :: frees lo bl;
  h_brk : u_brk s = lo + total bl;
  h_range : 0 < base < lo /\ u_brk s <= u_limit s /\ u_limit s - lo < 2 ^ 27;
}.

(** The block of [m] units at [a] joined with a free block behind it. *)
Definition join_up (m : Z) (t2 : list tile) : Z * list tile := match t2 with (k, true) :: t2' => (m + k, t2') | _ => (m, t2) end.

Lemma frees_starts size a t2 : sized size a t2 ->
  match t2 with (k, true) :: t2' => frees a t2 = a :: frees (a + k) t2' | _ => forall x, x ∈ frees a t2 -> a < x end.
Proof.
  destruct t2 as [|[k []] t2]; cbn [frees sized app]; [set_solver|done|]. intros (_ & Hk & Hs) x Hx%(frees_range size); [lia|done].
Qed.

Lemma join_up_ok size a m t2 : let '(m', t2') := join_up m t2 in sized size (a + m) t2 -> merged t2 ->
  sized size (a + m') t2' /\ merged t2' /\ starts_free t2' = false /\ m <= m' /\ m' + total t2' = m + total t2 /\ allocs (a + m') t2' = allocs (a + m) t2 /\
  frees (a + m') t2' = (if starts_free t2 then tail (frees (a + m) t2) else frees (a + m) t2).
Proof.
  unfold join_up. destruct t2 as [|[k []] t2]; cbn [sized merged frees allocs total starts_free app tail]; [intros _ _; split_and!; done || lia| |].
  - intros (_ & Hk & Hs) [Hst Hm]. rewrite !Z.add_assoc. split_and!; try done; lia.
  - intros (Hk & Hpos & Hs) [Hst Hm]. split_and!; try done; lia.
Qed.

Lemma free_up_ok s bp p m t2 : u_size s bp = m -> 0 < m -> u_ptr s p = hd base (frees (bp + m) t2) -> linked (u_ptr s) (frees (bp + m) t2) base ->
  sized (u_size s) (bp + m) t2 -> merged t2 -> base < bp -> m + total t2 < 2 ^ 32 ->
  let '(m', t2') := join_up m t2 in
  exists s', free_up bp p s = Ok (tt, s') /\ u_ptr s' = upd (u_ptr s) bp (hd base (frees (bp + m') t2')) /\
    (forall x, u_size s' x = upd (u_size s) bp m' x) /\ u_freep s' = u_freep s /\ u_brk s' = u_brk s /\ u_limit s' = u_limit s.
Proof.
  intros Hm Hpos Hp Hl Hs Hmg Hb Hlim. unfold free_up. pose proof (frees_starts _ _ _ Hs) as Hst. mcomp. mcomp. rewrite Hm, Hp. unfold join_up.
  destruct t2 as [|[k []] t2].
  - cbn [frees hd]. rewrite (proj2 (Z.eqb_neq (bp + m) base)) by lia. eexists. split_and!; try done. intros x. cbn. unfold upd. by destruct (Z.eqb_spec x bp) as [->|].
  - rewrite Hst in Hl |- *. cbn [hd linked] in Hl |- *. rewrite Z.eqb_refl. destruct Hs as (Hk & Hkpos & Hs). mcomp. rewrite Hk. mcomp. mcomp.
    cbn [u_ptr]. destruct Hl as [Hl _]. rewrite Hl. pose proof (total_nonneg _ _ _ Hs). cbn [total] in Hlim. eexists. split_and!; try done; cbn.
    + by rewrite Z.add_assoc.
    + intros x. by rewrite u32_small by lia.
  - assert (bp + m <> hd base (frees (bp + m) ((k, false) :: t2))) as Hne.
    { destruct (frees (bp + m) ((k, false) :: t2)) as [|x l] eqn:E; cbn [hd]; [lia|]. specialize (Hst x ltac:(by left)). lia. }
    rewrite (proj2 (Z.eqb_neq _ _) Hne). eexists. split_and!; try done. intros x. cbn. unfold upd. by destruct (Z.eqb_spec x bp) as [->|].
Qed.

Lemma frees_end size a bl x : sized size a bl -> x ∈ frees a bl -> 0 < size x /\ a <= x /\ x + size x <= a + total bl.
Proof.
  revert a. induction bl as [|[n b] bl IH]; intros a; cbn [sized frees total]; [set_solver|]. intros (Hn & Hpos & Hs) Hx. pose proof (total_nonneg _ _ _ Hs).
  apply elem_of_app in Hx as [Hx|Hx]; [destruct b; [|set_solver]; assert (x = a) as -> by set_solver; lia|]. specialize (IH _ Hs Hx). lia.
Qed.

Definition ends_free (bl : list tile) : bool := match last bl with Some (_, b) => b | None => false end.

Lemma merged_join t1 x t2 : merged t1 -> merged (x :: t2) -> ends_free t1 && snd x = false -> merged (t1 ++ x :: t2).
Proof.
  intros H1 H2 H3. induction t1 as [|[n b] t1 IH]; [done|]. cbn [app merged] in H1 |- *. destruct H1 as [Hb H1]. split.
  - destruct t1 as [|[n' b'] t1]; [|done]. cbn [app starts_free]. cbn in H3. by destruct x.
  - apply IH; [done|]. destruct t1 as [|y t1]; [by cbn|]. exact H3.
Qed.

Lemma merged_snoc t1 k b : merged (t1 ++ [(k, b)]) -> ends_free t1 && b = false.
Proof.
  induction t1 as [|[n c] t1 IH]; [done|]. cbn [app merged]. intros [Hc H]. destruct t1 as [|y t1]; [exact Hc|]. exact (IH H).
Qed.

Lemma ends_free_true t1 : ends_free t1 = true -> exists t1' k, t1 = t1' ++ [(k, true)].
Proof.
  unfold ends_free. destruct t1 as [|[k b] t1' _] using rev_ind; [done|]. rewrite last_snoc. intros ->. by exists t1', k.
Qed.

(** The last free block before a block: it touches it exactly if the tile before it is free. *)
Lemma last_free size t1 A p : sized size lo t1 -> size base = 0 -> base < lo -> base :: frees lo t1 = A ++ [p] ->
  (base <= p < lo + total t1 /\ 0 <= size p <= total t1) /\
  if ends_free t1 then exists t1' k, t1 = t1' ++ [(k, true)] /\ p = lo + total t1' /\ size p = k /\ base :: frees lo t1' = A else p + size p <> lo + total t1.
Proof.
  intros Hs Hb Hlo E. pose proof (total_nonneg _ _ _ Hs) as Ht. assert (p ∈ base :: frees lo t1) as Hin by (rewrite E; set_solver).
  split; [apply elem_of_cons in Hin as [->|Hin%(frees_end size)]; [lia|lia|done]|]. destruct (ends_free t1) eqn:Ee.
  - destruct (ends_free_true t1 Ee) as (t1' & k & ->). exists t1', k. rewrite frees_app in E. cbn [frees app] in E.
    change (base :: frees lo t1' ++ [lo + total t1']) with ((base :: frees lo t1') ++ [lo + total t1']) in E. apply app_inj_tail in E as [E1 E2].
    apply sized_app in Hs as [_ (Hk & _)]. rewrite E2 in Hk. done.
  - apply elem_of_cons in Hin as [->|Hin]; [lia|]. destruct t1 as [|[k b] t1' _] using rev_ind; [by apply elem_of_nil in Hin|].
    unfold ends_free in Ee. rewrite last_snoc in Ee. subst b. rewrite frees_app in Hin. cbn [frees app] in Hin. rewrite app_nil_r in Hin.
    apply sized_app in Hs as [Hs (_ & Hk & _)]. pose proof (frees_end _ _ _ _ Hs Hin). rewrite total_app. cbn [total]. lia.
Qed.

Lemma free_down_ok s bp p k m r : u_size s p = k -> u_size s bp = m -> u_ptr s bp = r -> 0 <= k -> 0 <= m -> k + m < 2 ^ 32 ->
  exists s', free_down bp p s = Ok (tt, s') /\ u_ptr s' = upd (u_ptr s) p (if p + k =? bp then r else bp) /\
    (forall x, u_size s' x = if p + k =? bp then upd (u_size s) p (k + m) x else u_size s x) /\
    u_freep s' = u_freep s /\ u_brk s' = u_brk s /\ u_limit s' = u_limit s.
Proof.
  intros <- <- <- Hk Hm Hlt. unfold free_down. mcomp. destruct (_ =? bp).
  - mcomp. mcomp. mcomp. eexists. split_and!; try done. intros x. cbn. by rewrite u32_small by lia.
  - eexists. by split_and!.
Qed.

(** After a block was freed: the other blocks are where they were, and there is a free
    block of at least its size. *)
Definition freed (bl : list tile) (t1 : list tile) (m : Z) (t2 : list tile) : Prop :=
  allocs lo bl = allocs lo t1 ++ allocs (lo + total t1 + m) t2 /\ total bl = total t1 + m + total t2 /\
  (length (frees lo bl) <= S (length (frees lo (t1 ++ (m, false) :: t2))))%nat /\ exists n, (n, true) ∈ bl /\ m <= n.

Section Freeing.
Context (s : ust) (t1 t2 t2' : list tile) (A : list Z) (m m' p : Z).
Context (Hh : heap s (t1 ++ (m, false) :: t2)) (EA : base :: frees lo t1 = A ++ [p]) (EJ : join_up m t2 = (m', t2')).
Local Abbreviation bp := (lo + total t1).
Local Abbreviation r := (hd base (frees (bp + m') t2')).

Lemma freeing_nodes : base :: frees lo (t1 ++ (m, false) :: t2) = A ++ p :: frees (bp + m) t2.
Proof. rewrite frees_app. cbn [frees app]. rewrite app_comm_cons, EA, <- (assoc_L (++)). done. Qed.

Lemma freeing_sorted : sorted (A ++ p :: frees (bp + m) t2).
Proof. rewrite <- freeing_nodes. apply (frees_sorted (u_size s)); [apply Hh|apply Hh]. Qed.

Lemma freeing_links : linked (u_ptr s) A p /\ u_ptr s p = hd base (frees (bp + m) t2) /\ linked (u_ptr s) (frees (bp + m) t2) base /\
  linked (u_ptr s) (frees (bp + m') t2') base.
Proof.
  pose proof (h_link _ _ Hh) as Hl. rewrite freeing_nodes in Hl. apply linked_app in Hl as [H1 [H2 H3]]. split_and!; [done|done|done|].
  pose proof (join_up_ok (u_size s) bp m t2) as Hj. rewrite EJ in Hj. pose proof (h_size _ _ Hh) as (_ & _ & _ & Hs)%sized_app.
  pose proof (h_merged _ _ Hh) as (_ & _ & Hm)%merged_app. destruct (Hj Hs Hm) as (_ & _ & _ & _ & _ & _ & ->).
  destruct (starts_free t2); [|done]. destruct (frees (bp + m) t2); [done|]. by destruct H3.
Qed.

Lemma freeing_tiles : sized (u_size s) lo t1 /\ u_size s bp = m /\ 0 < m /\ sized (u_size s) (bp + m') t2' /\ merged t1 /\ merged t2' /\ starts_free t2' = false /\
  m <= m' /\ m' + total t2' = m + total t2 /\ allocs (bp + m') t2' = allocs (bp + m) t2 /\ 0 <= total t1 /\ 0 <= total t2'.
Proof.
  pose proof (join_up_ok (u_size s) bp m t2) as Hj. rewrite EJ in Hj. pose proof (h_size _ _ Hh) as (Hs1 & Hm & Hpos & Hs2)%sized_app.
  pose proof (h_merged _ _ Hh) as (Hmg1 & _ & Hmg2)%merged_app. destruct (Hj Hs2 Hmg2) as (H1 & H2 & H3 & H4 & H5 & H6 & _).
  pose proof (total_nonneg _ _ _ Hs1). pose proof (total_nonneg _ _ _ H1). by split_and!.
Qed.

Lemma freeing_order : (forall x, x ∈ A -> x < p) /\ base <= p < bp /\ (forall x, x ∈ frees (bp + m') t2' -> bp < x).
Proof.
  destruct (sorted_app _ _ _ freeing_sorted) as (H1 & _). destruct freeing_tiles as (Hs1 & _ & Hpos & Hs2 & _ & _ & _ & Hle & _).
  destruct (last_free (u_size s) t1 A p Hs1 (h_base _ _ Hh) ltac:(apply Hh) EA) as [[Hp _] _].
  split_and!; [done|lia|lia|]. intros x Hx%(frees_range (u_size s)); [lia|done].
Qed.

Lemma heap_insert s' : ends_free t1 = false -> u_ptr s' = upd (upd (u_ptr s) bp r) p bp -> (forall x, u_size s' x = upd (u_size s) bp m' x) ->
  u_freep s' = p -> u_brk s' = u_brk s -> u_limit s' = u_limit s -> heap s' (t1 ++ (m', true) :: t2').
Proof.
  intros He Hptr Hsz Hfp Hbrk Hlim. destruct freeing_links as (L1 & L2 & _ & L3). destruct freeing_order as (O1 & O2 & O3).
  destruct freeing_tiles as (S1 & S2 & Hpos & S3 & M1 & M2 & M3 & Hle & Htot & Hal & P1 & P2). destruct Hh as [_ _ Hb0 _ _ Hb (R1 & R2 & R3)].
  assert (base :: frees lo (t1 ++ (m', true) :: t2') = A ++ p :: bp :: frees (bp + m') t2') as En.
  { rewrite frees_app. cbn [frees app]. rewrite app_comm_cons, EA, <- (assoc_L (++)). done. }
  split.
  - rewrite En, Hptr. apply linked_app. split; [|split; [by rewrite upd_eq|split; [by rewrite upd_ne, upd_eq by lia|]]].
    + eapply linked_ext; [exact L1|]. intros x Hx. specialize (O1 x Hx). rewrite !upd_ne by lia. done.
    + eapply linked_ext; [exact L3|]. intros x Hx. specialize (O3 x Hx). rewrite !upd_ne by lia. done.
  - apply sized_app. split; [|split_and!].
    + eapply sized_ext; [exact S1|]. intros x Hx. rewrite Hsz, upd_ne by lia. done.
    + by rewrite Hsz, upd_eq.
    + lia.
    + eapply sized_ext; [exact S3|]. intros x Hx. rewrite Hsz, upd_ne by lia. done.
  - rewrite Hsz, upd_ne by lia. done.
  - apply merged_join; [done|cbn [merged]; by rewrite M3|by rewrite He].
  - rewrite En, Hfp. set_solver.
  - rewrite Hbrk, Hb, !total_app. cbn [total]. lia.
  - rewrite Hbrk, Hlim. done.
Qed.

Lemma heap_join s' t1' k : t1 = t1' ++ [(k, true)] -> base :: frees lo t1' = A -> p = lo + total t1' -> u_size s p = k ->
  u_ptr s' = upd (upd (u_ptr s) bp r) p r -> (forall x, u_size s' x = upd (upd (u_size s) bp m') p (k + m') x) ->
  u_freep s' = p -> u_brk s' = u_brk s -> u_limit s' = u_limit s -> heap s' (t1' ++ (k + m', true) :: t2').
Proof.
  intros Et1 EA' Ep Hk Hptr Hsz Hfp Hbrk Hlim. destruct freeing_links as (L1 & L2 & _ & L3). destruct freeing_order as (O1 & O2 & O3).
  destruct freeing_tiles as (S1 & S2 & Hpos & S3 & M1 & M2 & M3 & Hle & Htot & Hal & P1 & P2). destruct Hh as [_ _ Hb0 _ _ Hb (R1 & R2 & R3)].
  assert (total t1 = total t1' + k) as Ett by (rewrite Et1, total_app; cbn [total]; lia).
  assert (bp + m' = p + (k + m')) as Eend by lia.
  assert (base :: frees lo (t1' ++ (k + m', true) :: t2') = A ++ p :: frees (bp + m') t2') as En.
  { rewrite frees_app. cbn [frees app]. rewrite <- Ep, Eend, app_comm_cons, EA'. done. }
  assert (sized (u_size s) lo t1' /\ 0 < k) as [S1' Hkpos] by (rewrite Et1 in S1; apply sized_app in S1 as (? & ? & ? & _); done).
  split.
  - rewrite En, Hptr. apply linked_app. split; [|split; [by rewrite upd_eq|]].
    + eapply linked_ext; [exact L1|]. intros x Hx. specialize (O1 x Hx). rewrite !upd_ne by lia. done.
    + eapply linked_ext; [exact L3|]. intros x Hx. specialize (O3 x Hx). rewrite !upd_ne by lia. done.
  - apply sized_app. rewrite <- Ep. split; [|split_and!].
    + eapply sized_ext; [exact S1'|]. intros x Hx. rewrite Hsz, !upd_ne by lia. done.
    + by rewrite Hsz, upd_eq.
    + lia.
    + rewrite <- Eend. eapply sized_ext; [exact S3|]. intros x Hx. rewrite Hsz, !upd_ne by lia. done.
  - pose proof (total_nonneg _ _ _ S1'). rewrite Hsz, !upd_ne by lia. done.
  - rewrite Et1 in M1. apply merged_join; [by apply merged_app in M1 as [? _]|cbn [merged]; by rewrite M3|]. apply merged_snoc in M1. exact M1.
  - rewrite En, Hfp. set_solver.
  - rewrite Hbrk, Hb, !total_app. cbn [total]. lia.
  - rewrite Hbrk, Hlim. done.
Qed.
End Freeing.

Lemma length_frees_up a m t2 : let '(m', t2') := join_up m t2 in (length (frees (a + m') t2') <= length (frees (a + m) t2))%nat.
Proof. unfold join_up. destruct t2 as [|[k []] t2]; [done| |done]. cbn [frees app length]. rewrite Z.add_assoc. lia. Qed.

Lemma freed_insert t1 m m' t2 t2' : join_up m t2 = (m', t2') -> m <= m' -> m' + total t2' = m + total t2 ->
  allocs (lo + total t1 + m') t2' = allocs (lo + total t1 + m) t2 -> freed (t1 ++ (m', true) :: t2') t1 m t2.
Proof.
  intros EJ Hle Htot Hal. pose proof (length_frees_up (lo + total t1) m t2) as Hlen. rewrite EJ in Hlen. split_and!.
  - rewrite allocs_app. cbn [allocs app]. by rewrite Hal.
  - rewrite total_app. cbn [total]. lia.
  - rewrite !frees_app, !length_app. cbn [frees app length]. lia.
  - exists m'. split; [set_solver|lia].
Qed.

Lemma freed_join t1' k m m' t2 t2' : join_up m t2 = (m', t2') -> m <= m' -> m' + total t2' = m + total t2 -> 0 < k ->
  allocs (lo + total (t1' ++ [(k, true)]) + m') t2' = allocs (lo + total (t1' ++ [(k, true)]) + m) t2 ->
  freed (t1' ++ (k + m', true) :: t2') (t1' ++ [(k, true)]) m t2.
Proof.
  intros EJ Hle Htot Hk Hal. pose proof (length_frees_up (lo + total (t1' ++ [(k, true)])) m t2) as Hlen. rewrite EJ in Hlen.
  assert (lo + total t1' + (k + m') = lo + total (t1' ++ [(k, true)]) + m') as Eend by (rewrite total_app; cbn [total]; lia). split_and!.
  - rewrite !allocs_app. cbn [allocs app]. rewrite Eend, Hal, app_nil_r. done.
  - rewrite !total_app. cbn [total]. lia.
  - rewrite (frees_app t1'). cbn [frees app]. rewrite Eend, (frees_app (t1' ++ _)), !length_app. cbn [frees app length].
    rewrite (frees_app t1' [(k, true)]), length_app. cbn [frees app length]. lia.
  - exists (k + m'). split; [set_solver|lia].
Qed.

Lemma free_ok fuel s t1 m t2 : heap s (t1 ++ (m, false) :: t2) -> (S (length (frees lo (t1 ++ (m, false) :: t2))) < fuel)%nat ->
  exists s' bl, free fuel (lo + total t1 + 1) s = Ok (tt, s') /\ heap s' bl /\ u_brk s' = u_brk s /\ u_limit s' = u_limit s /\ freed bl t1 m t2.
Proof.
  intros Hh Hf. destruct (exists_last (l := base :: frees lo t1)) as (A & p & EA); [done|]. destruct (join_up m t2) as [m' t2'] eqn:EJ.
  destruct (freeing_links s t1 t2 t2' A m m' p Hh EA EJ) as (L1 & L2 & L4 & L3). destruct (freeing_order s t1 t2 t2' A m m' p Hh EA EJ) as (O1 & O2 & O3).
  destruct (freeing_tiles s t1 t2 t2' m m' Hh EJ) as (S1 & S2 & Hpos & S3 & M1 & M2 & M3 & Hle & Htot & Hal & P1 & P2).
  pose proof (freeing_nodes t1 t2 A m p EA) as En. pose proof (freeing_sorted s t1 t2 A m p Hh EA) as Hso.
  pose proof Hh as [_ Hsize Hb0 Hmg Hfp Hbrk (R1 & R2 & R3)]. set (bp := lo + total t1) in *.
  apply sized_app in Hsize as (_ & _ & _ & S4). apply merged_app in Hmg as [_ [_ M4]]. pose proof (total_nonneg _ _ _ S4).
  rewrite total_app in Hbrk. cbn [total] in Hbrk.
  assert (find_place fuel bp (u_freep s) s = Ok (p, s)) as Hpl.
  { apply (place base bp p s (frees (bp + m) t2)) with (A := A); [lia| |lia|rewrite <- En; apply Hh|exact Hso| |rewrite <- En; exact Hfp|rewrite <- En; cbn [length]; lia].
    - intros x Hx%(frees_range (u_size s)); [lia|done].
    - destruct A; injection EA as <- _; done. }
  unfold free. replace (bp + 1 - 1) with bp by lia. mcomp. mstep Hpl.
  pose proof (free_up_ok s bp p m t2 S2 Hpos L2 L4 S4 M4 ltac:(lia) ltac:(lia)) as Hup. rewrite EJ in Hup. destruct Hup as (s1 & H1 & P1' & Z1 & F1 & B1 & X1). mstep H1.
  destruct (last_free (u_size s) t1 A p S1 Hb0 ltac:(lia) EA) as [[_ Hk] Hlast]. fold bp in Hlast.
  destruct (free_down_ok s1 bp p (u_size s p) m' (hd base (frees (bp + m') t2'))) as (s2 & H2 & P2' & Z2 & F2 & B2 & X2).
  { rewrite Z1, upd_ne by lia. done. } { by rewrite Z1, upd_eq. } { by rewrite P1', upd_eq. }
  { lia. } { lia. } { lia. }
  mstep H2. destruct (ends_free t1) eqn:Ee.
  - destruct Hlast as (t1' & k & Et & Ep & Ek & EA'). rewrite Ek in P2', Z2. assert (p + k = bp) as Epk by (unfold bp; rewrite Et, total_app; cbn [total]; lia).
    rewrite Epk, Z.eqb_refl in P2', Z2. eexists _, (t1' ++ (k + m', true) :: t2'). split; [reflexivity|]. split_and!; cbn; [|congruence|congruence|].
    + eapply (heap_join s t1 t2 t2' A m m' p Hh EA EJ _ t1' k); try done; cbn; [by rewrite P2', P1'|intros x; rewrite Z2|congruence|congruence].
      unfold upd. rewrite Z1. done.
    + rewrite Et. apply (freed_join t1' k m m' t2 t2' EJ Hle Htot); [|rewrite <- Et; exact Hal].
      rewrite Et in S1. by apply sized_app in S1 as (_ & _ & Hk' & _).
  - rewrite (proj2 (Z.eqb_neq _ _) Hlast) in P2', Z2. eexists _, (t1 ++ (m', true) :: t2'). split; [reflexivity|]. split_and!; cbn; [|congruence|congruence|].
    + eapply (heap_insert s t1 t2 t2' A m m' p Hh EA EJ); try done; cbn; [by rewrite P2', P1'|intros x; by rewrite Z2, Z1|congruence|congruence].
    + by apply (freed_insert t1 m m' t2 t2' EJ).
Qed.

(** ** [morecore] *)

Lemma heap_grow s bl nu : heap s bl -> 0 < nu -> u_brk s + nu <= u_limit s ->
  heap (Ust (u_ptr s) (upd (u_size s) (u_brk s) nu) (u_freep s) (u_brk s + nu) (u_limit s)) (bl ++ [(nu, false)]).
Proof.
  intros [Hl Hs Hb0 Hm Hf Hb (R1 & R2 & R3)] Hnu Hlim. pose proof (total_nonneg _ _ _ Hs).
  assert (frees lo (bl ++ [(nu, false)]) = frees lo bl) as Ef by (rewrite frees_app; cbn; by rewrite app_nil_r).
  split; rewrite ?Ef; cbn [u_ptr u_size u_freep u_brk u_limit]; try done.
  - apply sized_app. split; [|cbn [sized]; rewrite <- Hb, upd_eq; done]. eapply sized_ext; [exact Hs|]. intros x Hx. rewrite upd_ne by lia. done.
  - rewrite upd_ne by lia. done.
  - apply merged_join; [done|done|by rewrite andb_false_r].
  - rewrite total_app. cbn [total]. lia.
Qed.

Definition core_units (nu : Z) : Z := if nu <? 4096 then 4096 else nu.

Lemma morecore_ok fuel s bl nu : heap s bl -> 0 < nu < 2 ^ 27 -> (S (length (frees lo bl)) < fuel)%nat ->
  exists r s', morecore fuel nu s = Ok (r, s') /\
    (r = 0 /\ s' = s /\ u_limit s < u_brk s + core_units nu \/
     r = u_freep s' /\ r <> 0 /\ u_limit s' = u_limit s /\ exists bl', heap s' bl' /\ allocs lo bl' = allocs lo bl /\
       (length (frees lo bl') <= S (length (frees lo bl)))%nat /\ exists n, (n, true) ∈ bl' /\ nu <= n).
Proof.
  intros Hh Hnu Hf. unfold morecore. fold (core_units nu). assert (nu <= core_units nu < 2 ^ 27 /\ 0 < core_units nu) as Hc by (unfold core_units; destruct (Z.ltb_spec nu 4096); lia).
  set (c := core_units nu) in *. pose proof (h_range _ _ Hh) as (R1 & R2 & R3). pose proof (h_brk _ _ Hh) as Hb. pose proof (total_nonneg _ _ _ (h_size _ _ Hh)).
  unfold sbrk. rewrite i32_small by (unfold HEADER; lia). replace (c * HEADER / HEADER) with c by (unfold HEADER; dlia).
  rewrite bind_assoc. mcomp. rewrite bind_assoc. mcomp. destruct (Z.ltb_spec (u_limit s) (u_brk s + c)) as [Hlt|Hge].
  { exists 0, s. split; [done|]. by left. }
  rewrite bind_assoc. mcomp. mcomp. rewrite (proj2 (Z.eqb_neq (u_brk s) (-1))) by lia. mcomp. cbn [u_ptr u_size u_freep u_brk u_limit].
  rewrite u32_small by lia. set (s1 := Ust _ _ _ _ _). pose proof (heap_grow s bl c Hh ltac:(lia) Hge) as Hg. fold s1 in Hg.
  assert (frees lo (bl ++ [(c, false)]) = frees lo bl) as Ef by (rewrite frees_app; cbn; by rewrite app_nil_r).
  destruct (free_ok fuel s1 bl c [] Hg) as (s2 & bl' & H2 & Hh2 & _ & X2 & Hal & _ & Hlen & n & Hn & Hcn); [rewrite Ef; lia|].
  replace (u_brk s + 1) with (lo + total bl + 1) by lia. mstep H2. exists (u_freep s2), s2. split; [done|]. right. rewrite Ef in Hlen.
  split_and!; [done| |done|exists bl'; split_and!; [done|by rewrite Hal, app_nil_r|done|exists n; split; [done|lia]]].
  pose proof (h_freep _ _ Hh2) as [->|Hx%(frees_range (u_size s2))]%elem_of_cons; [lia|lia|apply Hh2].
Qed.

(** ** Taking a block *)

Lemma frees_split bl a x : x ∈ frees a bl -> exists t1 n t2, bl = t1 ++ (n, true) :: t2 /\ x = a + total t1.
Proof.
  revert a. induction bl as [|[n b] bl IH]; intros a; cbn [frees]; [set_solver|]. intros [Hx|Hx]%elem_of_app.
  - destruct b; [|set_solver]. exists [], n, bl. split; [done|]. cbn. assert (x = a) by set_solver. lia.
  - destruct (IH _ Hx) as (t1 & k & t2 & -> & ->). exists ((n, b) :: t1), k, t2. split; [done|]. cbn [total]. lia.
Qed.

Lemma linked_map ptr l stop : linked ptr l stop -> ptr <$> l = match l with [] => [] | _ => tail l ++ [stop] end.
Proof.
  induction l as [|a l IH]; [done|]. intros [H1 H2]. cbn [fmap list_fmap tail]. rewrite H1, (IH H2). by destruct l.
Qed.

(** Two nodes of the circular list do not have the same successor. *)
Lemma linked_inj ptr l y z : linked ptr (base :: l) base -> NoDup (base :: l) -> y ∈ base :: l -> z ∈ base :: l -> ptr y = ptr z -> y = z.
Proof.
  intros Hl Hn Hy Hz E. apply linked_map in Hl. cbn [tail] in Hl. apply NoDup_cons in Hn as [Hb Hn].
  assert (NoDup (ptr <$> base :: l)) as Hnd by (rewrite Hl; apply NoDup_app; split_and!; [done|set_solver|apply NoDup_singleton]).
  apply list_elem_of_lookup in Hy as [i Hi]. apply list_elem_of_lookup in Hz as [j Hj].
  assert (i = j) as <-; [|congruence]. eapply (NoDup_lookup _ i j (ptr y) Hnd); rewrite list_lookup_fmap; [by rewrite Hi|by rewrite Hj, E].
Qed.

Lemma heap_nodup s bl : heap s bl -> NoDup (base :: frees lo bl).
Proof.
  intros Hh. assert (sorted (base :: frees lo bl)) as Hs by (eapply frees_sorted; apply Hh). revert Hs. generalize (base :: frees lo bl). clear.
  intros l. induction 1 as [|a l _ IH Ha]; constructor; [|done]. intros Hin. rewrite Forall_forall in Ha. specialize (Ha a Hin). lia.
Qed.

(** The block [r - 1] of [n] units is new, all others are as before. *)
Definition took (s' : ust) (r n : Z) (bl : list tile) : Prop :=
  exists u1 u2, heap s' (u1 ++ (n, false) :: u2) /\ r = lo + total u1 + 1 /\ allocs lo (u1 ++ (n, false) :: u2) ≡ₚ (r - 1, n) :: allocs lo bl.

Lemma merged_flip t1 n b t2 : merged (t1 ++ (n, b) :: t2) -> merged (t1 ++ (n, false) :: t2).
Proof.
  intros H. destruct (merged_app _ _ H) as [H1 [_ H2]]. apply merged_join; [done|by split|by rewrite andb_false_r].
Qed.

Lemma take_whole s t1 n t2 prev : heap s (t1 ++ (n, true) :: t2) -> prev ∈ base :: frees lo (t1 ++ (n, true) :: t2) -> u_ptr s prev = lo + total t1 ->
  exists s', malloc_take n prev (lo + total t1) s = Ok (lo + total t1 + 1, s') /\ (u_limit s' = u_limit s /\ u_brk s' = u_brk s) /\ took s' (lo + total t1 + 1) n (t1 ++ (n, true) :: t2).
Proof.
  intros Hh Hprev Hptr. pose proof Hh as [Hl Hs Hb0 Hm Hf Hb (R1 & R2 & R3)]. set (x := lo + total t1) in *.
  pose proof Hs as (S1 & Sx & Hn & S2)%sized_app. fold x in Sx, S2. unfold malloc_take. mcomp. rewrite Sx, Z.eqb_refl. repeat mcomp.
  eexists. split; [reflexivity|]. split; [done|]. exists t1, t2.
  destruct (exists_last (l := base :: frees lo t1)) as (A & p & EA); [done|].
  assert (base :: frees lo (t1 ++ (n, true) :: t2) = A ++ p :: x :: frees (x + n) t2) as En.
  { rewrite frees_app. cbn [frees app]. fold x. rewrite app_comm_cons, EA, <- (assoc_L (++)). done. }
  assert (u_ptr s p = x) as Hp by (rewrite En in Hl; apply linked_app in Hl as [_ [Hp _]]; exact Hp).
  assert (prev = p) as ->. { eapply (linked_inj (u_ptr s)); [exact Hl|by eapply heap_nodup|exact Hprev|rewrite En; set_solver|congruence]. }
  pose proof (heap_nodup _ _ Hh) as Hnd. rewrite En in Hl, Hnd. pose proof Hl as (LA & _ & Lx & LB)%linked_app.
  assert (p <> x /\ (forall y, y ∈ A -> y <> p) /\ (forall y, y ∈ frees (x + n) t2 -> y <> p)) as (N1 & N2 & N3).
  { apply NoDup_app in Hnd as (_ & Hd & Hnd). apply NoDup_cons in Hnd as [Hd2 _]. split_and!; [set_solver|set_solver|set_solver]. }
  split_and!; [|lia|].
  - assert (base :: frees lo (t1 ++ (n, false) :: t2) = A ++ p :: frees (x + n) t2) as En'.
    { rewrite frees_app. cbn [frees app]. fold x. rewrite app_comm_cons, EA, <- (assoc_L (++)). done. }
    split; rewrite ?En'; cbn [u_ptr u_size u_freep u_brk u_limit]; try done.
    + apply linked_app. split; [|split; [by rewrite upd_eq|]].
      * eapply linked_ext; [exact LA|]. intros y Hy. rewrite upd_ne by auto. done.
      * eapply linked_ext; [exact LB|]. intros y Hy. rewrite upd_ne by auto. done.
    + apply sized_app. split; [done|]. split_and!; done.
    + by eapply merged_flip.
    + set_solver.
    + rewrite Hb, !total_app. done.
  - rewrite !allocs_app. cbn [allocs app]. fold x. replace (x + 1 - 1) with x by lia. by rewrite Permutation_middle.
Qed.

Lemma take_part s t1 n t2 k prev : heap s (t1 ++ (n, true) :: t2) -> prev ∈ base :: frees lo (t1 ++ (n, true) :: t2) -> 0 < k < n ->
  exists s', malloc_take k prev (lo + total t1) s = Ok (lo + total t1 + (n - k) + 1, s') /\ (u_limit s' = u_limit s /\ u_brk s' = u_brk s) /\
    took s' (lo + total t1 + (n - k) + 1) k (t1 ++ (n, true) :: t2).
Proof.
  intros Hh Hprev Hk. pose proof Hh as [Hl Hs Hb0 Hm Hf Hb (R1 & R2 & R3)]. set (x := lo + total t1) in *.
  pose proof Hs as (S1 & Sx & Hn & S2)%sized_app. fold x in Sx, S2. pose proof (total_nonneg _ _ _ S1). pose proof (total_nonneg _ _ _ S2).
  rewrite total_app in Hb. cbn [total] in Hb. unfold malloc_take. mcomp. rewrite Sx, (proj2 (Z.eqb_neq n k)) by lia. repeat mcomp.
  eexists. split; [reflexivity|]. split; [done|]. exists (t1 ++ [(n - k, true)]), t2. cbn [u_ptr u_size u_freep u_brk u_limit].
  assert (lo + total (t1 ++ [(n - k, true)]) = x + (n - k)) as Ea by (rewrite total_app; cbn [total]; lia).
  assert (frees lo ((t1 ++ [(n - k, true)]) ++ (k, false) :: t2) = frees lo (t1 ++ (n, true) :: t2)) as Ef.
  { rewrite (frees_app _ ((k, false) :: t2)), Ea, !frees_app. cbn [frees app]. fold x. replace (x + (n - k) + k) with (x + n) by lia. by rewrite <- (assoc_L (++)). }
  rewrite !u32_small by lia. split_and!; [|lia|].
  - split; rewrite ?Ef; cbn [u_ptr u_size u_freep u_brk u_limit]; try done.
    + apply sized_app. rewrite Ea, sized_app. fold x. split; [split|].
      * eapply sized_ext; [exact S1|]. intros y Hy. rewrite !upd_ne by lia. done.
      * cbn [sized]. rewrite upd_ne, upd_eq by lia. split_and!; [done|lia|done].
      * cbn [sized]. rewrite upd_eq. split_and!; [done|lia|]. replace (x + (n - k) + k) with (x + n) by lia.
        eapply sized_ext; [exact S2|]. intros y Hy. rewrite !upd_ne by lia. done.
    + rewrite !upd_ne by lia. done.
    + destruct (merged_app _ _ Hm) as [M1 [_ M2]]. rewrite <- (assoc_L (++)). cbn [app]. apply merged_join; [done|by cbn [merged starts_free]|].
      change (t1 ++ (n, true) :: t2) with (t1 ++ [(n, true)] ++ t2) in Hm. rewrite (assoc_L (++)) in Hm. apply merged_app in Hm as [Hm _]. by apply merged_snoc in Hm.
    + rewrite Hb, !total_app. cbn [total]. lia.
  - rewrite allocs_app, Ea, !allocs_app. cbn [allocs app]. fold x. replace (x + (n - k) + 1 - 1) with (x + (n - k)) by lia. replace (x + (n - k) + k) with (x + n) by lia.
    rewrite app_nil_r. by rewrite Permutation_middle.
Qed.

(** ** The search *)

Lemma cycle ptr l1 f l2 : linked ptr (l1 ++ f :: l2) base -> hd f l1 = base -> linked ptr (f :: l2 ++ l1) f.
Proof.
  intros [H1 H2]%linked_app Hhd. destruct l1 as [|b l1].
  - cbn in Hhd. subst f. by rewrite app_nil_r.
  - cbn in Hhd. subst b. change (f :: l2 ++ base :: l1) with ((f :: l2) ++ base :: l1). by apply linked_app.
Qed.

Lemma last_default {A} (l : list A) x a b : List.last (x :: l) a = List.last (x :: l) b.
Proof. revert x. induction l as [|y l IH]; intros x; [done|]. apply IH. Qed.

(** Blocks that are too small are passed. *)
Lemma walk s nunits w : forall prev, linked (u_ptr s) (prev :: w) (u_freep s) -> u_freep s ∉ w ->
  exists w1 w2, w = w1 ++ w2 /\ (forall x, x ∈ w1 -> u_size s x < nunits) /\ match w2 with [] => True | x :: _ => nunits <= u_size s x end /\
    u_ptr s (List.last w1 prev) = hd (u_freep s) w2 /\
    forall n, malloc_loop (length w1 + n) nunits prev (hd (u_freep s) w) s = malloc_loop n nunits (List.last w1 prev) (hd (u_freep s) w2) s.
Proof.
  induction w as [|x w IH]; intros prev [Hp Hl] Hf.
  - exists [], []. split_and!; try done. intros x []%elem_of_nil.
  - destruct (Z.le_gt_cases nunits (u_size s x)) as [Hle|Hgt].
    + exists [], (x :: w). split_and!; try done. intros y []%elem_of_nil.
    + apply not_elem_of_cons in Hf as [Hne Hf]. destruct (IH x Hl Hf) as (w1 & w2 & -> & Hs & Hw2 & Hlast & E). exists (x :: w1), w2.
      assert (List.last (x :: w1) prev = List.last w1 x) as Elast by (destruct w1 as [|y w1]; [done|]; change (List.last (x :: y :: w1) prev) with (List.last (y :: w1) prev); apply last_default).
      rewrite Elast. split_and!; [done| |done|done|].
      * intros y [->|Hy]%elem_of_cons; [done|auto].
      * intros n. cbn [length Nat.add hd malloc_loop]. mcomp. rewrite (proj2 (Z.leb_gt nunits (u_size s x)) Hgt). mcomp. rewrite (proj2 (Z.eqb_neq x (u_freep s))) by auto. mcomp.
        destruct Hl as [-> _]. apply E.
Qed.

Lemma take_ok s bl prev x k : heap s bl -> prev ∈ base :: frees lo bl -> u_ptr s prev = x -> x ∈ base :: frees lo bl -> 0 < k <= u_size s x ->
  exists r s', malloc_take k prev x s = Ok (r, s') /\ (u_limit s' = u_limit s /\ u_brk s' = u_brk s) /\ took s' r k bl.
Proof.
  intros Hh Hprev Hptr [->|Hx]%elem_of_cons Hk; [pose proof (h_base _ _ Hh); lia|]. destruct (frees_split _ _ _ Hx) as (t1 & n & t2 & -> & ->).
  pose proof (h_size _ _ Hh) as (_ & Sx & _)%sized_app. rewrite Sx in Hk. destruct (Z.eq_dec n k) as [->|Hne].
  - destruct (take_whole s t1 k t2 prev Hh Hprev Hptr) as (s' & H & X & T). by exists (lo + total t1 + 1), s'.
  - destruct (take_part s t1 n t2 k prev Hh Hprev ltac:(lia)) as (s' & H & X & T). by exists (lo + total t1 + (n - k) + 1), s'.
Qed.

(** One round through the list: a block is taken, or all are too small and [morecore] is
    called. *)
Lemma search_round fuel s bl k : heap s bl -> 0 < k -> (length (frees lo bl) < fuel)%nat ->
  (exists r s', malloc_loop fuel k (u_freep s) (u_ptr s (u_freep s)) s = Ok (r, s') /\ (u_limit s' = u_limit s /\ u_brk s' = u_brk s) /\ took s' r k bl) \/
  (forall x, x ∈ base :: frees lo bl -> u_size s x < k) /\
  malloc_loop fuel k (u_freep s) (u_ptr s (u_freep s)) s =
    (let! p := morecore (fuel - S (length (frees lo bl))) k in
     if p =? 0 then ret 0
     else
       let! q := get_ptr p in
       malloc_loop (fuel - S (length (frees lo bl))) k p q) s.
Proof.
  intros Hh Hk Hf. set (f := u_freep s). pose proof (h_freep _ _ Hh) as Hin. apply list_elem_of_split in Hin as (l1 & l2 & En). fold f in En.
  pose proof (h_link _ _ Hh) as Hl. pose proof (heap_nodup _ _ Hh) as Hnd. rewrite En in Hl, Hnd.
  assert (hd f l1 = base) as Hhd by (by destruct l1; injection En as ->).
  pose proof (cycle _ _ _ _ Hl Hhd) as Hcy. assert (f ∉ l2 ++ l1) as Hnot.
  { apply NoDup_app in Hnd as (_ & Hd & Hnd). apply NoDup_cons in Hnd as [Hd2 _]. rewrite not_elem_of_app. split; [done|]. intros Hin. apply (Hd f Hin). by left. }
  assert (length (frees lo bl) = length (l2 ++ l1)) as Elen.
  { apply (f_equal length) in En. rewrite length_app in En. rewrite length_app. cbn [length] in En. lia. }
  assert (forall x, x ∈ f :: l2 ++ l1 -> x ∈ base :: frees lo bl) as Hsub by (intros x; rewrite En; set_solver).
  destruct (walk s k (l2 ++ l1) f Hcy Hnot) as (w1 & w2 & Ew & Hsm & Hw2 & Hlast & E).
  assert (List.last w1 f ∈ f :: l2 ++ l1) as Hpin.
  { destruct w1 as [|y w1 _] using rev_ind; [by left|]. rewrite last_last, Ew. set_solver. }
  assert (length w1 + length w2 = length (l2 ++ l1))%nat as Ewl by (by rewrite Ew, length_app).
  destruct Hcy as [Hpf _]. assert (u_ptr s f = hd f (l2 ++ l1)) as -> by exact Hpf. fold f in E, Hlast.
  assert (malloc_loop fuel k f (hd f (l2 ++ l1)) s = malloc_loop (S (fuel - S (length w1))) k (List.last w1 f) (hd f w2) s) as ->.
  { rewrite <- E. f_equal. lia. }
  cbn [malloc_loop].
  assert (forall x, x = hd f w2 -> x ∈ f :: l2 ++ l1 -> k <= u_size s x -> exists r s', (let! n := get_size x in if k <=? n then malloc_take k (List.last w1 f) x else
      let! freep := gets u_freep in if x =? freep then let! p := morecore (fuel - S (length w1)) k in
        if p =? 0 then ret 0 else let! q := get_ptr p in malloc_loop (fuel - S (length w1)) k p q else let! q := get_ptr x in malloc_loop (fuel - S (length w1)) k x q) s = Ok (r, s') /\
      (u_limit s' = u_limit s /\ u_brk s' = u_brk s) /\ took s' r k bl) as Htake.
  { intros x -> Hx Hle. mcomp. rewrite (proj2 (Z.leb_le k _) Hle). apply take_ok; auto. }
  destruct w2 as [|x w2]; cbn [hd] in *.
  - destruct (Z.le_gt_cases k (u_size s f)) as [Hle|Hgt]; [left; apply Htake; [done|by left|done]|]. right. split.
    + intros x Hx. rewrite En in Hx. rewrite app_nil_r in Ew. apply elem_of_app in Hx as [Hx|[->|Hx]%elem_of_cons]; [|done|]; apply Hsm; rewrite <- Ew; set_solver.
    + mcomp. rewrite (proj2 (Z.leb_gt k (u_size s f)) Hgt). mcomp. fold f. rewrite Z.eqb_refl. cbn [length] in Ewl.
      replace (fuel - S (length (frees lo bl)))%nat with (fuel - S (length w1))%nat by lia. done.
  - left. apply Htake; [done| |done]. rewrite Ew. set_solver.
Qed.

(** ** [malloc] *)

Definition units (nbytes : Z) : Z := (nbytes + HEADER - 1) / HEADER + 1.

(** The heap, or the memory before the first call. *)
Definition ready (s : ust) (bl : list tile) : Prop :=
  heap s bl \/ u_freep s = 0 /\ bl = [] /\ u_brk s = lo /\ 0 < base < lo /\ lo <= u_limit s /\ u_limit s - lo < 2 ^ 27.

(** When nothing is allocated, the heap is one free block, and [malloc] takes from it. *)
Lemma all_free bl : allocs lo bl = [] -> merged bl -> bl = [] \/ exists n, bl = [(n, true)].
Proof.
  destruct bl as [|[n b] bl]; [by left|]. cbn [allocs merged]. intros Ha [Hm _]. destruct b; [|done]. right. exists n. f_equal.
  destruct bl as [|[k b] bl]; [done|]. cbn [starts_free] in Hm. destruct b; [done|]. done.
Qed.

Lemma malloc_loop_whole fuel s bl k : heap s bl -> allocs lo bl = [] -> 0 < k <= u_brk s - lo -> (10 < fuel)%nat ->
  exists r s', malloc_loop fuel k (u_freep s) (u_ptr s (u_freep s)) s = Ok (r, s') /\ r <> 0 /\ u_brk s' = u_brk s.
Proof.
  intros Hh Ha Hk Hf. pose proof (h_brk _ _ Hh) as Hb. destruct (all_free bl Ha (h_merged _ _ Hh)) as [->|(n & ->)]; [cbn in Hb; lia|].
  cbn [total] in Hb. destruct (search_round fuel s [(n, true)] k Hh ltac:(lia) ltac:(cbn; lia)) as [(r & s' & H & [_ Hbrk] & u1 & u2 & Hh' & -> & _)|[Hsmall _]].
  - exists (lo + total u1 + 1), s'. split_and!; [exact H| |done]. pose proof (h_range _ _ Hh) as (? & _). pose proof (h_size _ _ Hh') as (S1 & _)%sized_app.
    pose proof (total_nonneg _ _ _ S1). lia.
  - exfalso. specialize (Hsmall lo). cbn [frees app] in Hsmall. pose proof (h_size _ _ Hh) as (Sx & _). rewrite Sx in Hsmall. assert (n < k); [apply Hsmall; set_solver|lia].
Qed.

Lemma malloc_loop_ok fuel s bl k : heap s bl -> 0 < k < 2 ^ 27 -> (2 * length (frees lo bl) + 10 < fuel)%nat ->
  exists r s', malloc_loop fuel k (u_freep s) (u_ptr s (u_freep s)) s = Ok (r, s') /\
    (r = 0 /\ s' = s /\ u_limit s < u_brk s + core_units k \/ took s' r k bl).
Proof.
  intros Hh Hk Hf. destruct (search_round fuel s bl k Hh ltac:(lia) ltac:(lia)) as [(r & s' & H & _ & T)|[_ ->]]; [exists r, s'; auto|].
  destruct (morecore_ok (fuel - S (length (frees lo bl))) s bl k Hh Hk ltac:(lia)) as (r & s1 & H1 & Hr). mstep H1.
  destruct Hr as [(-> & -> & Hlim)|(-> & Hnz & X1 & bl' & Hh1 & Hal & Hlen & n & Hn & Hkn)]; [by exists 0, s; auto|].
  rewrite (proj2 (Z.eqb_neq _ _) Hnz). mcomp.
  destruct (search_round (fuel - S (length (frees lo bl))) s1 bl' k Hh1 ltac:(lia) ltac:(lia)) as [(r & s' & H & _ & u1 & u2 & T1 & T2 & T3)|[Hsmall _]].
  - exists r, s'. split; [exact H|]. right. exists u1, u2. by rewrite Hal in T3.
  - exfalso. apply list_elem_of_split in Hn as (t1 & t2 & ->). pose proof (h_size _ _ Hh1) as (_ & Sx & _)%sized_app.
    specialize (Hsmall (lo + total t1)). rewrite Sx in Hsmall. rewrite frees_app in Hsmall. cbn [frees app] in Hsmall. assert (n < k); [|lia]. apply Hsmall. set_solver.
Qed.

Lemma units_u32 nbytes : 0 <= nbytes < 2 ^ 31 - 32 -> u32 ((nbytes + HEADER - 1) mod 2 ^ 64 / HEADER + 1) = units nbytes /\ 0 < units nbytes < 2 ^ 27.
Proof. intros Hn. unfold units, HEADER. rewrite Z.mod_small by lia. split; [apply u32_small|]; dlia. Qed.

Lemma heap_freep s bl : heap s bl -> u_freep s <> 0.
Proof. intros Hh. pose proof (h_range _ _ Hh) as (? & _). pose proof (h_freep _ _ Hh) as [->|Hx%(frees_range (u_size s))]%elem_of_cons; [lia|lia|apply Hh]. Qed.

Lemma malloc_whole fuel s bl nbytes : heap s bl -> allocs lo bl = [] -> 0 <= nbytes < 2 ^ 31 - 32 -> units nbytes <= u_brk s - lo -> (10 < fuel)%nat ->
  exists r s', malloc base fuel nbytes s = Ok (r, s') /\ r <> 0 /\ u_brk s' = u_brk s.
Proof.
  intros Hh Ha Hn Hle Hf. destruct (units_u32 nbytes Hn) as [Eu Hu]. unfold malloc. rewrite Eu. mcomp. rewrite (proj2 (Z.eqb_neq _ _) (heap_freep _ _ Hh)). do 3 mcomp.
  apply (malloc_loop_whole fuel s bl); [done|done|lia|done].
Qed.

Lemma malloc_ok fuel s bl nbytes : ready s bl -> 0 <= nbytes < 2 ^ 31 - 32 -> (2 * length (frees lo bl) + 10 < fuel)%nat ->
  exists r s', malloc base fuel nbytes s = Ok (r, s') /\
    (r = 0 /\ ready s' bl /\ u_brk s' = u_brk s /\ u_limit s' = u_limit s /\ u_limit s < u_brk s + core_units (units nbytes) \/ took s' r (units nbytes) bl).
Proof.
  intros Hr Hn Hf. destruct (units_u32 nbytes Hn) as [Eu Hu]. unfold malloc. rewrite Eu.
  mcomp. destruct Hr as [Hh|(Hz & -> & Hb & R1 & R2 & R3)].
  - rewrite (proj2 (Z.eqb_neq _ _) (heap_freep _ _ Hh)). do 3 mcomp. destruct (malloc_loop_ok fuel s bl _ Hh Hu Hf) as (r & s' & H & [(-> & -> & Hlim)|T]).
    + exists 0, s. split; [exact H|]. left. split_and!; try done. by left.
    + exists r, s'. split; [exact H|by right].
  - rewrite Hz. cbn [Z.eqb]. rewrite bind_assoc. mcomp. rewrite bind_assoc. mcomp. do 3 mcomp. cbn [u_ptr u_size u_freep u_brk u_limit].
    set (s1 := Ust _ _ _ _ _). assert (heap s1 []) as Hh1.
    { split; cbn [u_ptr u_size u_freep u_brk u_limit frees total sized merged linked hd s1]; rewrite ?upd_eq; try done; [set_solver|lia|lia]. }
    destruct (malloc_loop_ok fuel s1 [] _ Hh1 Hu Hf) as (r & s' & H & [(-> & -> & Hlim)|T]).
    + exists 0, s1. split; [exact H|]. left. split_and!; try done. by left.
    + exists r, s'. split; [exact H|by right].
Qed.
End Heap.
