(* ===== verification/UmallocTop.v ===== *)
(** * A program that uses the allocator

    Any sequence of [malloc], of [free] of a block that the program holds, and of writes
    into the blocks that it holds. *)

From stdpp Require Import sorting.
From S2P Require Import Prelude Riscv Umalloc.

(** Two blocks, with their addresses and sizes in units, do not overlap. *)
Definition disjoint_from (x y : Z * Z) : Prop := fst x + snd x <= fst y \/ fst y + snd y <= fst x.

Fixpoint all_disjoint (l : list (Z * Z)) : Prop :=
  match l with
  | x :: l' => (forall y, y ∈ l' -> disjoint_from x y) /\ all_disjoint l'
  | [] => True
  end.

Lemma all_disjoint_perm l l' : l ≡ₚ l' -> all_disjoint l -> all_disjoint l'.
Proof.
  induction 1 as [|x l l' HP IH|x y l|l1 l2 l3 _ IH1 _ IH2]; cbn [all_disjoint]; [done| | |auto].
  - intros [H1 H2]. split; [|auto]. intros y Hy. apply H1. by rewrite HP.
  - intros (H1 & H2 & H3). split_and!; [|intros z Hz; apply H1; by right|done]. intros z [->|Hz]%elem_of_cons; [|auto].
    destruct (H1 x) as [|]; [by left|by right|by left].
Qed.

Section Program.
Context (base lo : Z).

(** The blocks that the program holds: address of the header and units. *)
Record uworld := UWorld { uw_st : ust; uw_held : list (Z * Z) }.

(** The program writes into a unit of a block behind its header. *)
Definition scribble (x p n : Z) (s : ust) : ust := Ust (upd (u_ptr s) x p) (upd (u_size s) x n) (u_freep s) (u_brk s) (u_limit s).

Inductive ustep : uworld -> uworld -> Prop :=
| us_malloc fuel nbytes s held r s' : 0 <= nbytes < 2 ^ 31 - 32 -> malloc base fuel nbytes s = Ok (r, s') ->
    ustep (UWorld s held) (UWorld s' (if r =? 0 then held else (r - 1, units nbytes) :: held))
| us_free fuel s a n held held' s' : held ≡ₚ (a, n) :: held' -> free fuel (a + 1) s = Ok (tt, s') ->
    ustep (UWorld s held) (UWorld s' held')
| us_write s held a n x p v : (a, n) ∈ held -> a < x < a + n -> ustep (UWorld s held) (UWorld (scribble x p v s) held).

Lemma allocs_split bl a x n : (x, n) ∈ allocs a bl -> exists t1 t2, bl = t1 ++ (n, false) :: t2 /\ x = a + total t1.
Proof.
  revert a. induction bl as [|[k b] bl IH]; intros a; cbn [allocs]; [set_solver|]. intros [Hx|Hx]%elem_of_app.
  - destruct b; [set_solver|]. assert (x = a /\ n = k) as [-> ->] by (apply list_elem_of_singleton in Hx; by injection Hx as -> ->). exists [], bl. split; [done|]. cbn. lia.
  - destruct (IH _ Hx) as (t1 & t2 & -> & ->). exists ((k, b) :: t1), t2. split; [done|]. cbn [total]. lia.
Qed.

Lemma allocs_range size a bl x n : sized size a bl -> (x, n) ∈ allocs a bl -> a <= x /\ x + n <= a + total bl.
Proof.
  intros Hs Hx. destruct (allocs_split _ _ _ _ Hx) as (t1 & t2 & -> & ->). apply sized_app in Hs as (H1 & _ & _ & H2).
  pose proof (total_nonneg _ _ _ H1). pose proof (total_nonneg _ _ _ H2). rewrite total_app. cbn [total]. lia.
Qed.

Lemma allocs_disjoint size a bl : sized size a bl -> all_disjoint (allocs a bl).
Proof.
  revert a. induction bl as [|[n b] bl IH]; intros a; cbn [sized allocs]; [done|]. intros (_ & Hn & Hs). destruct b; [by apply IH|]. cbn [app all_disjoint].
  split; [|by apply IH]. intros [x k] Hx%(allocs_range size); [|done]. left. cbn. lia.
Qed.

Lemma heap_scribble s bl a n x p v : heap base lo s bl -> (a, n) ∈ allocs lo bl -> a < x < a + n -> heap base lo (scribble x p v s) bl.
Proof.
  intros [Hl Hs Hb0 Hm Hf Hb (R1 & R2)] Ha Hx. destruct (allocs_split _ _ _ _ Ha) as (t1 & t2 & -> & ->). pose proof Hs as (S1 & Sa & Hn & S2)%sized_app.
  pose proof (total_nonneg _ _ _ S1). split; cbn [scribble u_ptr u_size u_freep u_brk u_limit]; try done.
  - eapply linked_ext; [exact Hl|]. intros y Hy. apply upd_ne. intros ->. rewrite frees_app in Hy. cbn [frees app] in Hy.
    apply elem_of_cons in Hy as [->|Hy]; [lia|]. apply elem_of_app in Hy as [Hy%(frees_range (u_size s))|Hy%(frees_range (u_size s))]; [lia|done|lia|done].
  - apply sized_app. split; [eapply sized_ext; [exact S1|]; intros y Hy; rewrite upd_ne by lia; done|]. cbn [sized]. rewrite upd_ne by lia.
    split_and!; [done|done|]. eapply sized_ext; [exact S2|]. intros y Hy. rewrite upd_ne by lia. done.
  - rewrite upd_ne by lia. done.
Qed.

Definition held_inv (w : uworld) : Prop := exists bl, ready base lo (uw_st w) bl /\ allocs lo bl ≡ₚ uw_held w.

(** ** Fuel

    A result does not depend on the fuel. *)
Definition below {A} (m m' : M ust A) : Prop := forall s r, m s = Ok r -> m' s = Ok r.

Lemma below_refl {A} (m : M ust A) : below m m.
Proof. by intros s r. Qed.
Lemma below_bind {A B} (m m' : M ust A) (k k' : A -> M ust B) : below m m' -> (forall a, below (k a) (k' a)) -> below (bind m k) (bind m' k').
Proof.
  intros Hm Hk s [b s'] H. apply bind_ok_inv in H as (a & s1 & H1 & H2). unfold bind. rewrite (Hm _ _ H1). by apply Hk.
Qed.
Lemma below_if {A} (b : bool) (m m' n n' : M ust A) : below m m' -> below n n' -> below (if b then m else n) (if b then m' else n').
Proof. by destruct b. Qed.

Ltac below := repeat first [ apply below_refl | apply below_bind; [|intros ?a] | apply below_if | assumption ].

Lemma find_place_fuel f f' bp : (f <= f')%nat -> forall p, below (find_place f bp p) (find_place f' bp p).
Proof.
  revert f'. induction f as [|f IH]; intros f' Hf p; [by intros s r|]. destruct f' as [|f']; [lia|]. cbn [find_place]. below. apply IH. lia.
Qed.

Lemma free_fuel f f' ap : (f <= f')%nat -> below (free f ap) (free f' ap).
Proof. intros Hf. unfold free. below. by apply find_place_fuel. Qed.

Lemma malloc_loop_fuel f f' k : (f <= f')%nat -> forall prevp p, below (malloc_loop f k prevp p) (malloc_loop f' k prevp p).
Proof.
  revert f'. induction f as [|f IH]; intros f' Hf prevp p; [by intros s r|]. destruct f' as [|f']; [lia|]. cbn [malloc_loop]. below.
  - apply find_place_fuel. lia.
  - apply IH. lia.
  - apply IH. lia.
Qed.

Lemma malloc_fuel f f' nbytes : (f <= f')%nat -> below (malloc base f nbytes) (malloc base f' nbytes).
Proof. intros Hf. unfold malloc. below. by apply malloc_loop_fuel. Qed.

(** ** The invariant *)

Definition enough (bl : list tile) : nat := 2 * length (frees lo bl) + 11.

Lemma malloc_inv fuel nbytes s r s' bl : ready base lo s bl -> 0 <= nbytes < 2 ^ 31 - 32 -> malloc base fuel nbytes s = Ok (r, s') ->
  exists bl', ready base lo s' bl' /\ allocs lo bl' ≡ₚ (if r =? 0 then [] else [(r - 1, units nbytes)]) ++ allocs lo bl.
Proof.
  intros Hr Hn H. destruct (malloc_ok base lo (fuel + enough bl) s bl nbytes Hr Hn ltac:(unfold enough; lia)) as (r1 & s1 & H1 & Hres).
  rewrite (malloc_fuel fuel (fuel + enough bl) nbytes ltac:(lia) _ _ H) in H1. injection H1 as -> ->.
  destruct Hres as [(-> & Hr' & _)|(u1 & u2 & Hh & Er & Hp)]; [by exists bl|]. exists (u1 ++ (units nbytes, false) :: u2). split; [by left|].
  pose proof (h_range _ _ _ _ Hh) as (? & _). pose proof (h_size _ _ _ _ Hh) as (S1 & _)%sized_app. pose proof (total_nonneg _ _ _ S1).
  rewrite (proj2 (Z.eqb_neq r1 0)) by lia. exact Hp.
Qed.

Lemma ready_held s bl x : ready base lo s bl -> x ∈ allocs lo bl -> heap base lo s bl.
Proof. intros [Hh|(_ & -> & _)] Hx; [done|by apply elem_of_nil in Hx]. Qed.

Lemma free_inv fuel s a n s' bl held : ready base lo s bl -> allocs lo bl ≡ₚ (a, n) :: held -> free fuel (a + 1) s = Ok (tt, s') ->
  exists bl', ready base lo s' bl' /\ allocs lo bl' ≡ₚ held.
Proof.
  intros Hr Hp H. assert ((a, n) ∈ allocs lo bl) as Hin by (rewrite Hp; by left). pose proof (ready_held _ _ _ Hr Hin) as Hh.
  destruct (allocs_split _ _ _ _ Hin) as (t1 & t2 & -> & ->).
  destruct (free_ok base lo (fuel + enough (t1 ++ (n, false) :: t2)) s t1 n t2 Hh ltac:(unfold enough; lia)) as (s1 & bl & H1 & Hh1 & _ & _ & Hal & _).
  rewrite (free_fuel fuel (fuel + enough (t1 ++ (n, false) :: t2)) _ ltac:(lia) _ _ H) in H1. injection H1 as ->. exists bl. split; [by left|].
  rewrite Hal. apply (Permutation_cons_inv (a := (lo + total t1, n))). rewrite <- Hp, allocs_app. cbn [allocs app]. by rewrite Permutation_middle.
Qed.

Lemma ustep_inv w w' : ustep w w' -> held_inv w -> held_inv w'.
Proof.
  intros Hs (bl & Hr & Hp). destruct Hs as [fuel nbytes s held r s' Hn H|fuel s a n held held' s' Hh H|s held a n x p v Ha Hx]; cbn [uw_st uw_held] in *.
  - destruct (malloc_inv _ _ _ _ _ _ Hr Hn H) as (bl' & Hr' & Hp'). exists bl'. split; [done|]. rewrite Hp', Hp. cbn [uw_held]. by destruct (r =? 0).
  - destruct (free_inv fuel s a n s' bl held') as (bl' & Hr' & Hp'); [done|by rewrite Hp|done|]. by exists bl'.
  - exists bl. split; [|done]. rewrite <- Hp in Ha. left. eapply heap_scribble; [by eapply ready_held|exact Ha|done].
Qed.

Lemma held_reach w w' : rtc ustep w w' -> held_inv w -> held_inv w'.
Proof. induction 1 as [|w1 w2 w3 Hs _ IH]; [done|]. intros H. apply IH. by eapply ustep_inv. Qed.

(** Before the first call of [malloc]. *)
Definition fresh (s : ust) : Prop := u_freep s = 0 /\ u_brk s = lo /\ 0 < base < lo /\ lo <= u_limit s < lo + 2 ^ 27.

(** C27. The allocator of user programs, on a heap below 2 GB and for requests below
    2^31 - 32 bytes.  Under any sequence of [malloc], of [free] of held blocks and of writes into held blocks, the held blocks are pairwise disjoint parts of
    the heap.  In every state that is reached, [malloc] returns: a block with room for the
    bytes asked for, disjoint from all held blocks, or null if [sbrk] cannot give the
    memory; and [free] of a held block returns.  When no block is held, all of the heap can
    be allocated again without growing it. *)
Theorem umalloc_safe (s0 : ust) (w : uworld) (Hfresh : fresh s0) (Hrun : rtc ustep (UWorld s0 []) w) :
  all_disjoint (uw_held w) /\ Forall (fun x => lo <= fst x /\ fst x + snd x <= u_brk (uw_st w)) (uw_held w) /\
  (forall nbytes, 0 <= nbytes < 2 ^ 31 - 32 -> exists fuel r s', malloc base fuel nbytes (uw_st w) = Ok (r, s') /\
     (r = 0 /\ u_limit (uw_st w) < u_brk (uw_st w) + Z.max 4096 (units nbytes) \/
      nbytes <= HEADER * (units nbytes - 1) /\ lo <= r - 1 /\ r - 1 + units nbytes <= u_brk s' /\ Forall (disjoint_from (r - 1, units nbytes)) (uw_held w))) /\
  (forall a n, (a, n) ∈ uw_held w -> exists fuel s', free fuel (a + 1) (uw_st w) = Ok (tt, s')) /\
  (uw_held w = [] -> forall nbytes, 0 <= nbytes < 2 ^ 31 - 32 -> units nbytes <= u_brk (uw_st w) - lo ->
     exists fuel r s', malloc base fuel nbytes (uw_st w) = Ok (r, s') /\ r <> 0 /\ u_brk s' = u_brk (uw_st w)).
Proof.
  destruct Hfresh as (F1 & F2 & F3 & F4). destruct (held_reach _ _ Hrun) as (bl & Hr & Hp); [exists []; split; [right; cbn [uw_st]; split_and!; done || lia|done]|].
  assert (sized (u_size (uw_st w)) lo bl /\ u_brk (uw_st w) = lo + total bl) as [Hs Hb].
  { destruct Hr as [Hh|(_ & -> & Hb & _)]; [split; apply Hh|split; [done|cbn; lia]]. }
  split_and!.
  - eapply all_disjoint_perm; [exact Hp|by eapply allocs_disjoint].
  - rewrite <- Hp. apply Forall_forall. intros [x n] Hx%(allocs_range (u_size (uw_st w))); [|done]. cbn. lia.
  - intros nbytes Hn. destruct (malloc_ok base lo (enough bl) _ bl nbytes Hr Hn ltac:(unfold enough; lia)) as (r & s' & H & Hres). exists (enough bl), r, s'. split; [exact H|].
    destruct Hres as [(-> & _ & _ & _ & Hlim)|(u1 & u2 & Hh & -> & Hperm)]; [left; split; [done|]; unfold core_units in Hlim; destruct (Z.ltb_spec (units nbytes) 4096); lia|right].
    pose proof (h_size _ _ _ _ Hh) as Hs'. pose proof (allocs_disjoint _ _ _ Hs') as Hd. eapply all_disjoint_perm in Hd; [|exact Hperm]. destruct Hd as [Hd _].
    pose proof (allocs_range (u_size s') lo _ (lo + total u1 + 1 - 1) (units nbytes) Hs') as Hrange. rewrite <- (h_brk _ _ _ _ Hh) in Hrange.
    destruct Hrange as [H1 H2]; [rewrite Hperm; by left|]. split_and!; [unfold units, HEADER; dlia|done|done|]. rewrite <- Hp. by apply Forall_forall.
  - intros a n Hin. rewrite <- Hp in Hin. pose proof (ready_held _ _ _ Hr Hin) as Hh. destruct (allocs_split _ _ _ _ Hin) as (t1 & t2 & -> & ->).
    destruct (free_ok base lo (enough (t1 ++ (n, false) :: t2)) _ t1 n t2 Hh ltac:(unfold enough; lia)) as (s' & bl & H & _). by exists (enough (t1 ++ (n, false) :: t2)), s'.
  - intros Hz nbytes Hn Hle. rewrite Hz in Hp. apply Permutation_nil_r in Hp. destruct (units_u32 nbytes Hn) as [_ Hu].
    destruct Hr as [Hh|(_ & -> & Hb' & _)]; [|lia]. exists 11%nat. by apply (malloc_whole base lo 11 _ bl); [..|lia].
Qed.
End Program.

(** A program that allocates 100 and 40 bytes, writes into the first block and frees it. *)
Definition demo_mem : ust := Ust (fun _ => 0) (fun _ => 0) 0 100 100000.
Definition after {A} (r : res (A * ust)) : ust := match r with Ok (_, s) => s | _ => demo_mem end.
Definition demo1 : ust := after (malloc 10 20 100 demo_mem).
Definition demo2 : ust := after (malloc 10 20 40 demo1).
Definition demo3 : ust := scribble 4190 7 7 demo2.
Definition demo4 : ust := after (free 20 4189 demo3).

Lemma demo_steps : malloc 10 20 100 demo_mem = Ok (4189, demo1) /\ malloc 10 20 40 demo1 = Ok (4185, demo2) /\ free 20 4189 demo3 = Ok (tt, demo4).
Proof. split_and!; vm_compute; reflexivity. Qed.

Lemma demo_run : rtc (ustep 10) (UWorld demo_mem []) (UWorld demo4 [(4184, 4)]).
Proof.
  destruct demo_steps as (H1 & H2 & H3).
  eapply rtc_l; [exact (us_malloc 10 20 100 demo_mem [] 4189 demo1 ltac:(lia) H1)|].
  eapply rtc_l; [exact (us_malloc 10 20 40 demo1 [(4188, 8)] 4185 demo2 ltac:(lia) H2)|].
  eapply rtc_l; [exact (us_write 10 demo2 [(4184, 4); (4188, 8)] 4188 8 4190 7 7 ltac:(right; left) ltac:(lia))|].
  eapply rtc_l; [exact (us_free 10 20 demo3 4188 8 [(4184, 4); (4188, 8)] [(4184, 4)] demo4 ltac:(apply perm_swap) H3)|].
  apply rtc_refl.
Qed.

Lemma umalloc_safe_witness : rtc (ustep 10) (UWorld demo_mem []) (UWorld demo4 [(4184, 4)]) /\
  exists fuel s', free fuel 4185 demo4 = Ok (tt, s').
Proof.
  split; [exact demo_run|].
  destruct (umalloc_safe 10 100 demo_mem (UWorld demo4 [(4184, 4)])) as (_ & _ & _ & Hfree & _).
  - unfold fresh. cbn. lia.
  - exact demo_run.
  - exact (Hfree 4184 4 ltac:(left)).
Defined.

(** [morecore] passes the bytes it needs as an [int]: asked for 2^32 - 1 bytes, [malloc]
    gets 16 bytes from [sbrk] and returns a block all of which lies above the break. *)
Lemma malloc_overcommits : exists s', malloc 10 20 (2 ^ 32 - 1) demo_mem = Ok (101, s') /\ u_size s' 100 = 2 ^ 28 + 1 /\ u_brk s' = 101.
Proof. exists (after (malloc 10 20 (2 ^ 32 - 1) demo_mem)). split_and!; vm_compute; reflexivity. Qed.
