(* ===== verification/Printf.v ===== *)
(** * Formatted output: [kernel/printf.c] and [user/printf.c]

    Characters are bytes and C strings lists of them, without the final nul.  The arguments
    behind the format are 64-bit words, as the calling convention passes them; [cstr] gives
    the string at an address.  A write outside of the buffer of [printint] panics, and so
    does [va_arg] without an argument: the theorems show where neither happens. *)

From S2P Require Import Prelude.

(** What the two printers write to: the console in the kernel, a file descriptor in user
    programs. *)
Class Terminal (S : Type) := {
  putc : Z -> M S unit;
  shown : S -> list Z;
}.

Class TerminalOk (S : Type) `{Terminal S} := {
  putc_ok c s : exists s', putc c s = Ok (tt, s') /\ shown s' = shown s ++ [c];
}.

Definition zlook (l : list Z) (i : Z) : Z := nth (Z.to_nat i) l 0.

(** "0123456789abcdef" and "0123456789ABCDEF" *)
Definition digits : list Z := [48; 49; 50; 51; 52; 53; 54; 55; 56; 57; 97; 98; 99; 100; 101; 102].
Definition udigits : list Z := [48; 49; 50; 51; 52; 53; 54; 55; 56; 57; 65; 66; 67; 68; 69; 70].

(** "(null)" *)
Definition null_text : list Z := [40; 110; 117; 108; 108; 41].

Section Printing.
Context {S : Type} `{Terminal S} (cstr : Z -> list Z).

Definition puts (l : list Z) : M S unit := mfor l putc.

(** [buf[i++] = c], where [buf] has 16 characters. *)
Definition buf_put (buf : list Z) (c : Z) : M S (list Z) :=
  if Z.of_nat (length buf) <? 16 then ret (buf ++ [c]) else panic "buf".

(** The loop of [printint], with the characters of [buf] up to [i]. *)
Fixpoint digit_loop (dg : list Z) (fuel : nat) (buf : list Z) (x base : Z) : M S (list Z) :=
  match fuel with
  | O => nofuel
  | Datatypes.S fuel =>
      let! buf := buf_put buf (zlook dg (x mod base)) in
      let x := x / base in
      if negb (x =? 0) then digit_loop dg fuel buf x base else ret buf
  end.

(** 32 rounds are enough for a number of 32 bits. *)
Definition printint (xx base sign : Z) : M S unit :=
  let neg := negb (sign =? 0) && (xx <? 0) in
  let x := if neg then u32 (- xx) else u32 xx in
  let! buf := digit_loop digits 32 [] x base in
  let! buf := if neg then buf_put buf 45 else ret buf in
  puts (rev buf).

Fixpoint ptr_loop (dg : list Z) (n : nat) (x : Z) : M S unit :=
  match n with
  | O => ret tt
  | Datatypes.S n =>
      putc (zlook dg (Z.shiftr x (8 * 8 - 4))) ;;
      ptr_loop dg n (u64 (Z.shiftl x 4))
  end.

Definition printptr (x : Z) : M S unit :=
  putc 48 ;;
  putc 120 ;;
  ptr_loop digits 16 x.

Definition va_arg (ap : list Z) : M S (Z * list Z) :=
  match ap with
  | a :: ap => ret (a, ap)
  | [] => panic "va_arg"
  end.

(** The string of a [%s]. *)
Definition str_arg (s : Z) : list Z := if s =? 0 then null_text else cstr s.

(** One round of the loop of [printf], at the character [c] behind a [%]. *)
Definition kdirective (c : Z) (ap : list Z) : M S (list Z) :=
  if c =? 100 then
    let! v := va_arg ap in
    printint (i32 (fst v)) 10 1 ;; ret (snd v)
  else if c =? 120 then
    let! v := va_arg ap in
    printint (i32 (fst v)) 16 1 ;; ret (snd v)
  else if c =? 112 then
    let! v := va_arg ap in
    printptr (u64 (fst v)) ;; ret (snd v)
  else if c =? 115 then
    let! v := va_arg ap in
    puts (str_arg (fst v)) ;; ret (snd v)
  else if c =? 37 then putc 37 ;; ret ap
  else putc 37 ;; putc c ;; ret ap.

Fixpoint kprintf_loop (fmt : list Z) (ap : list Z) : M S unit :=
  match fmt with
  | [] => ret tt
  | c :: fmt =>
      if negb (c =? 37) then putc c ;; kprintf_loop fmt ap
      else
        match fmt with
        | [] => ret tt
        | c :: fmt =>
            let! ap := kdirective c ap in
            kprintf_loop fmt ap
        end
  end.

(** ** [user/printf.c] *)

Definition uprintint (xx base sgn : Z) : M S unit :=
  let neg := negb (sgn =? 0) && (xx <? 0) in
  let x := if neg then u32 (- xx) else u32 xx in
  let! buf := digit_loop udigits 32 [] x base in
  let! buf := if neg then buf_put buf 45 else ret buf in
  puts (rev buf).

Definition uprintptr (x : Z) : M S unit :=
  putc 48 ;;
  putc 120 ;;
  ptr_loop udigits 16 x.

Definition udirective (c : Z) (ap : list Z) : M S (list Z) :=
  if c =? 100 then
    let! v := va_arg ap in
    uprintint (i32 (fst v)) 10 1 ;; ret (snd v)
  else if c =? 108 then
    let! v := va_arg ap in
    uprintint (i32 (u64 (fst v))) 10 0 ;; ret (snd v)
  else if c =? 120 then
    let! v := va_arg ap in
    uprintint (i32 (fst v)) 16 0 ;; ret (snd v)
  else if c =? 112 then
    let! v := va_arg ap in
    uprintptr (u64 (fst v)) ;; ret (snd v)
  else if c =? 115 then
    let! v := va_arg ap in
    puts (str_arg (fst v)) ;; ret (snd v)
  else if c =? 99 then
    let! v := va_arg ap in
    putc (u8 (fst v)) ;; ret (snd v)
  else if c =? 37 then putc c ;; ret ap
  else putc 37 ;; putc c ;; ret ap.

(** [state] is 0 or the character [%]. *)
Fixpoint vprintf (fmt : list Z) (state : Z) (ap : list Z) : M S unit :=
  match fmt with
  | [] => ret tt
  | c :: fmt =>
      if state =? 0 then
        if c =? 37 then vprintf fmt 37 ap
        else putc c ;; vprintf fmt state ap
      else if state =? 37 then
        let! ap := udirective c ap in
        vprintf fmt 0 ap
      else vprintf fmt state ap
  end.

Definition uprintf (fmt : list Z) (ap : list Z) : M S unit := vprintf fmt 0 ap.
End Printing.

(** ** The state of [kernel/printf.c] *)

Record kpr (S : Type) := Kpr {
  pr_locked : bool;     (* pr.lock *)
  pr_locking : Z;
  pr_panicked : Z;
  pr_cons : S;
}.
Arguments Kpr {S}.
Arguments pr_locked {S}.
Arguments pr_locking {S}.
Arguments pr_panicked {S}.
Arguments pr_cons {S}.

Section Kernel.
Context {S : Type} `{Terminal S} (cstr : Z -> list Z).

Definition pr_acquire : M (kpr S) unit := fun p =>
  if pr_locked p then Blocked else Ok (tt, Kpr true (pr_locking p) (pr_panicked p) (pr_cons p)).
Definition pr_release : M (kpr S) unit :=
  modify (fun p => Kpr false (pr_locking p) (pr_panicked p) (pr_cons p)).
Definition on_console {A} (m : M S A) : M (kpr S) A :=
  zoom pr_cons (fun c p => Kpr (pr_locked p) (pr_locking p) (pr_panicked p) c) m.

(** [fmt] is [None] for the null pointer. *)
Definition printf (fmt : option (list Z)) (ap : list Z) : M (kpr S) unit :=
  let! locking := gets pr_locking in
  (if negb (locking =? 0) then pr_acquire else ret tt) ;;
  match fmt with
  | None => panic "null fmt"
  | Some fmt =>
      on_console (kprintf_loop cstr fmt ap) ;;
      (if negb (locking =? 0) then pr_release else ret tt)
  end.

(** "panic: " *)
Definition panic_text : list Z := [112; 97; 110; 105; 99; 58; 32].

(** [panic] up to its last loop, which never ends. *)
Definition kpanic (s : list Z) : M (kpr S) unit :=
  modify (fun p => Kpr (pr_locked p) 0 (pr_panicked p) (pr_cons p)) ;;
  printf (Some panic_text) [] ;;
  printf (Some s) [] ;;
  printf (Some [10]) [] ;;
  modify (fun p => Kpr (pr_locked p) (pr_locking p) 1 (pr_cons p)).

Definition printfinit : M (kpr S) unit :=
  modify (fun p => Kpr false 1 (pr_panicked p) (pr_cons p)).
End Kernel.

(** ** Numerals *)

(** The most significant digit comes first. *)
Definition value (base : Z) (ds : list Z) : Z := fold_left (fun n d => n * base + d) ds 0.

(** [l] is the number [x] in base [base], without leading zeros. *)
Definition numeral (dg : list Z) (base x : Z) (l : list Z) : Prop :=
  exists ds, l = zlook dg <$> ds /\ Forall (fun d => 0 <= d < base) ds /\ value base ds = x /\
    (ds = [0] \/ exists d ds', ds = d :: ds' /\ d <> 0).

Definition int_text (dg : list Z) (base v : Z) (l : list Z) : Prop :=
  if v <? 0 then exists l', l = 45 :: l' /\ numeral dg base (- v) l' else numeral dg base v l.

(** The 16 hexadecimal digits of a word. *)
Definition ptr_text (dg : list Z) (x : Z) (l : list Z) : Prop :=
  exists ds, l = 48 :: 120 :: (zlook dg <$> ds) /\ length ds = 16%nat /\ Forall (fun d => 0 <= d < 16) ds /\ value 16 ds = x.

(** ** What a format prints *)

Section Render.
Context (cstr : Z -> list Z).

(** [kpiece c ap t ap']: [%c] with the arguments [ap] is the text [t], and leaves [ap']. *)
Inductive kpiece : Z -> list Z -> list Z -> list Z -> Prop :=
| kp_d a ap t : int_text digits 10 (i32 a) t -> kpiece 100 (a :: ap) t ap
| kp_x a ap t : int_text digits 16 (i32 a) t -> kpiece 120 (a :: ap) t ap
| kp_p a ap t : ptr_text digits (u64 a) t -> kpiece 112 (a :: ap) t ap
| kp_s a ap : kpiece 115 (a :: ap) (if a =? 0 then null_text else cstr a) ap
| kp_percent ap : kpiece 37 ap [37] ap
| kp_other c ap : c ∉ [100; 120; 112; 115; 37] -> kpiece c ap [37; c] ap.

Inductive upiece : Z -> list Z -> list Z -> list Z -> Prop :=
| up_d a ap t : int_text udigits 10 (i32 a) t -> upiece 100 (a :: ap) t ap
| up_l a ap t : numeral udigits 10 (u32 a) t -> upiece 108 (a :: ap) t ap
| up_x a ap t : numeral udigits 16 (u32 a) t -> upiece 120 (a :: ap) t ap
| up_p a ap t : ptr_text udigits (u64 a) t -> upiece 112 (a :: ap) t ap
| up_s a ap : upiece 115 (a :: ap) (if a =? 0 then null_text else cstr a) ap
| up_c a ap : upiece 99 (a :: ap) [u8 a] ap
| up_percent ap : upiece 37 ap [37] ap
| up_other c ap : c ∉ [100; 108; 120; 112; 115; 99; 37] -> upiece c ap [37; c] ap.

(** A [%] at the end of the format prints nothing. *)
Inductive renders (piece : Z -> list Z -> list Z -> list Z -> Prop) : list Z -> list Z -> list Z -> Prop :=
| r_nil ap : renders piece [] ap []
| r_end ap : renders piece [37] ap []
| r_char c fmt ap out : c <> 37 -> renders piece fmt ap out -> renders piece (c :: fmt) ap (c :: out)
| r_piece c fmt ap t ap' out : piece c ap t ap' -> renders piece fmt ap' out -> renders piece (37 :: c :: fmt) ap (t ++ out).
End Render.

(** The number of arguments that a format needs; [takes] are the characters that take one. *)
Fixpoint needs (takes : list Z) (fmt : list Z) : nat :=
  match fmt with
  | [] => 0
  | c :: fmt =>
      if c =? 37 then
        match fmt with
        | [] => 0
        | c :: fmt => (if bool_decide (c ∈ takes) then 1 else 0) + needs takes fmt
        end
      else needs takes fmt
  end.

(** ** The integers *)

Lemma value_snoc base ds d : value base (ds ++ [d]) = value base ds * base + d.
Proof. unfold value. by rewrite fold_left_app. Qed.

Lemma value_cons base d ds : value base (d :: ds) = d * base ^ Z.of_nat (length ds) + value base ds.
Proof.
  induction ds as [|e ds IH] using rev_ind; [cbn; lia|]. rewrite app_comm_cons, !value_snoc, IH, length_app. cbn [length].
  replace (Z.of_nat (length ds + 1)) with (Z.succ (Z.of_nat (length ds))) by lia. rewrite Z.pow_succ_r by lia. lia.
Qed.

Lemma fmap_rev {A B} (f : A -> B) l : f <$> rev l = rev (f <$> l).
Proof. induction l as [|x l IH]; [done|]. cbn. by rewrite fmap_app, IH. Qed.

Section Integers.
Context {S : Type} `{Terminal S}.

Lemma buf_put_ok (s : S) buf c : (length buf < 16)%nat -> buf_put buf c s = Ok (buf ++ [c], s).
Proof. intros Hb. unfold buf_put. by rewrite (proj2 (Z.ltb_lt _ _)) by lia. Qed.

(** The loop puts the digits of [x], the least significant first. *)
Lemma digit_loop_ok (s : S) dg base k : 2 <= base -> forall fuel x buf, 0 <= x < base ^ (Z.of_nat k + 1) -> (k < fuel)%nat -> (length buf + k < 16)%nat ->
  exists ds, digit_loop dg fuel buf x base s = Ok (buf ++ (zlook dg <$> ds), s) /\ (length ds <= k + 1)%nat /\ numeral dg base x (zlook dg <$> rev ds).
Proof.
  intros Hbase. induction k as [|k IH]; intros fuel x buf Hx Hf Hb; (destruct fuel as [|fuel]; [lia|]); cbn [digit_loop]; (mstep buf_put_ok; [|lia]).
  all: destruct (Z.eqb_spec (x / base) 0) as [E|E]; cbn [negb].
  1, 3: exists [x mod base]; assert (x mod base = x) as -> by (rewrite Z.mod_small; [done|]; apply Z.div_small_iff in E; lia);
    split_and!; [done|cbn; lia|]; exists [x]; split_and!; [done|by apply Forall_singleton; apply Z.div_small_iff in E; lia|done|];
    destruct (decide (x = 0)) as [->|]; [by left|right; eauto].
  - exfalso. apply E, Z.div_small. change (Z.of_nat 0 + 1) with 1 in Hx. lia.
  - assert (0 <= x / base < base ^ (Z.of_nat k + 1)) as Hd.
    { split; [apply Z.div_pos; lia|]. apply Z.div_lt_upper_bound; [lia|]. rewrite <- Z.pow_succ_r by lia. replace (Z.succ _) with (Z.of_nat (Datatypes.S k) + 1) by lia. lia. }
    destruct (IH fuel (x / base) (buf ++ [zlook dg (x mod base)]) Hd ltac:(lia) ltac:(rewrite length_app; cbn; lia)) as (ds & Hrun & Hlen & ds' & Heq & Hall & Hval & Hlead).
    exists (x mod base :: ds). split_and!; [by rewrite Hrun, <- app_assoc|cbn; lia|].
    exists (ds' ++ [x mod base]). split_and!.
    + cbn [rev]. by rewrite !fmap_app, Heq.
    + apply Forall_app. split; [done|]. apply Forall_singleton. apply Z.mod_pos_bound. lia.
    + rewrite value_snoc, Hval. pose proof (Z.div_mod x base). lia.
    + right. destruct Hlead as [->|(d & ds1 & -> & Hd0)]; [|by exists d, (ds1 ++ [x mod base])]. exfalso. apply E. by rewrite <- Hval.
Qed.

Context `{!TerminalOk S}.

Lemma puts_ok l : forall s : S, exists s', puts l s = Ok (tt, s') /\ shown s' = shown s ++ l.
Proof.
  induction l as [|c l IH]; intros s; [exists s; by rewrite app_nil_r|]. destruct (putc_ok c s) as (s1 & H1 & E1). destruct (IH s1) as (s2 & H2 & E2).
  exists s2. cbn [puts mfor]. mstep H1. split; [exact H2|]. by rewrite E2, E1, <- app_assoc.
Qed.

(** The common body of the two [printint]. *)
Definition put_number (dg : list Z) (xx base sign : Z) : M S unit :=
  let neg := negb (sign =? 0) && (xx <? 0) in
  let x := if neg then u32 (- xx) else u32 xx in
  let! buf := digit_loop dg 32 [] x base in
  let! buf := if neg then buf_put buf 45 else ret buf in
  puts (rev buf).

Definition number_text (dg : list Z) (xx base sign : Z) (l : list Z) : Prop :=
  if sign =? 0 then numeral dg base (u32 xx) l else int_text dg base xx l.

Lemma put_number_ok dg xx base sign (s : S) : 5 <= base -> - 2 ^ 31 <= xx < 2 ^ 31 ->
  exists l s', put_number dg xx base sign s = Ok (tt, s') /\ shown s' = shown s ++ l /\ number_text dg xx base sign l.
Proof.
  intros Hb Hx. unfold put_number. set (neg := negb (sign =? 0) && (xx <? 0)). set (x := if neg then _ else _).
  assert (0 <= x < base ^ (Z.of_nat 13 + 1)) as Hxb.
  { assert (5 ^ (Z.of_nat 13 + 1) <= base ^ (Z.of_nat 13 + 1)) by (apply Z.pow_le_mono_l; lia). assert (2 ^ 32 < 5 ^ (Z.of_nat 13 + 1)) by done.
    subst x. destruct neg; (match goal with |- context [u32 ?y] => pose proof (u32_bound y) end); lia. }
  destruct (digit_loop_ok s dg base 13 ltac:(lia) 32 x [] Hxb ltac:(lia) ltac:(cbn; lia)) as (ds & Hrun & Hlen & Hnum). rewrite app_nil_l in Hrun.
  mstep Hrun. unfold number_text, int_text. destruct (Z.eqb_spec sign 0) as [->|Hs]; [|destruct (Z.ltb_spec xx 0)]; subst neg x; cbn [negb andb] in *.
  - mcomp. destruct (puts_ok (rev (zlook dg <$> ds)) s) as (s' & H1 & E1). eexists _, s'. split_and!; [exact H1|exact E1|]. by rewrite <- fmap_rev.
  - mstep buf_put_ok; [|rewrite length_fmap; lia]. destruct (puts_ok (rev ((zlook dg <$> ds) ++ [45])) s) as (s' & H1 & E1). eexists _, s'. split_and!; [exact H1|exact E1|].
    exists (zlook dg <$> rev ds). rewrite rev_unit, fmap_rev. split; [done|]. by rewrite u32_small, fmap_rev in Hnum by lia.
  - mcomp. destruct (puts_ok (rev (zlook dg <$> ds)) s) as (s' & H1 & E1). eexists _, s'. split_and!; [exact H1|exact E1|]. rewrite <- fmap_rev. by rewrite u32_small in Hnum by lia.
Qed.

(** ** Pointers *)

(** [n] rounds print the first [n] of the 16 digits. *)
Lemma ptr_loop_ok dg (n : nat) : (n <= 16)%nat -> forall x (s : S), 0 <= x < 2 ^ 64 ->
  exists ds s', ptr_loop dg n x s = Ok (tt, s') /\ shown s' = shown s ++ (zlook dg <$> ds) /\
    length ds = n /\ Forall (fun d => 0 <= d < 16) ds /\ value 16 ds = x / 16 ^ (16 - Z.of_nat n).
Proof.
  induction n as [|n IH]; intros Hn x s Hx.
  - exists [], s. split_and!; [done|by rewrite app_nil_r|done|done|]. symmetry. by apply Z.div_small.
  - cbn [ptr_loop]. rewrite Z.shiftr_div_pow2, Z.shiftl_mul_pow2 by lia. change (2 ^ 4) with 16. change (8 * 8 - 4) with 60.
    destruct (putc_ok (zlook dg (x / 2 ^ 60)) s) as (s1 & H1 & E1). mstep H1.
    destruct (IH ltac:(lia) (u64 (x * 16)) s1 (u64_bound _)) as (ds & s' & H2 & E2 & Hl & Hall & Hv). exists (x / 2 ^ 60 :: ds), s'.
    split_and!; [exact H2|rewrite E2, E1, <- app_assoc; done|cbn; lia|constructor; [dlia|done]|].
    rewrite value_cons, Hv, Hl. unfold u64. set (k := Z.of_nat n). replace (16 - Z.of_nat (Datatypes.S n)) with (15 - k) by lia.
    assert (x * 16 = x / 2 ^ 60 * 2 ^ 64 + (x * 16) mod 2 ^ 64) as Ex by dlia.
    replace (x / 16 ^ (15 - k)) with (x * 16 / 16 ^ (16 - k)); [|replace (16 - k) with (Z.succ (15 - k)) by lia; rewrite Z.pow_succ_r, Z.mul_comm by lia; apply Z.div_mul_cancel_l; [apply Z.pow_nonzero|]; lia].
    rewrite Ex at 2. replace (2 ^ 64) with (16 ^ k * 16 ^ (16 - k)) at 2 by (rewrite <- Z.pow_add_r by lia; by replace (k + (16 - k)) with 16 by lia).
    rewrite Z.mul_assoc, Z.div_add_l by (apply Z.pow_nonzero; lia). done.
Qed.

Definition put_ptr (dg : list Z) (x : Z) : M S unit := putc 48 ;; putc 120 ;; ptr_loop dg 16 x.

Lemma put_ptr_ok dg x (s : S) : 0 <= x < 2 ^ 64 -> exists l s', put_ptr dg x s = Ok (tt, s') /\ shown s' = shown s ++ l /\ ptr_text dg x l.
Proof.
  intros Hx. unfold put_ptr. destruct (putc_ok 48 s) as (s1 & H1 & E1). destruct (putc_ok 120 s1) as (s2 & H2 & E2). mstep H1. mstep H2.
  destruct (ptr_loop_ok dg 16 ltac:(lia) x s2 Hx) as (ds & s' & H3 & E3 & Hl & Hall & Hv). exists (48 :: 120 :: (zlook dg <$> ds)), s'.
  split_and!; [exact H3|rewrite E3, E2, E1, <- !app_assoc; done|]. exists ds. split_and!; try done. by rewrite Hv, Z.div_1_r.
Qed.
End Integers.

(** ** Formats *)

Lemma fmt_ind (P : list Z -> Prop) : P [] -> P [37] -> (forall c fmt, c <> 37 -> P fmt -> P (c :: fmt)) -> (forall c fmt, P fmt -> P (37 :: c :: fmt)) -> forall fmt, P fmt.
Proof.
  intros H0 H1 H2 H3 fmt. remember (length fmt) as n eqn:En. assert (length fmt <= n)%nat as Hn by lia. clear En. revert fmt Hn.
  induction n as [|n IH]; intros fmt Hn; (destruct fmt as [|c fmt]; [done|]); cbn in Hn; [lia|].
  destruct (decide (c = 37)) as [->|Hc]; [|apply H2; [done|]; apply IH; lia]. destruct fmt as [|c' fmt]; [done|]. cbn in Hn. apply H3, IH. lia.
Qed.

Section Formats.
Context {S : Type} `{TerminalOk S} (cstr : Z -> list Z).

(** [m] shows the text [l] and returns [a]. *)
Definition prints {A} (m : M S A) (s : S) (l : list Z) (a : A) : Prop :=
  exists s', m s = Ok (a, s') /\ shown s' = shown s ++ l.

Lemma prints_ret {A} (a : A) s : prints (ret a) s [] a.
Proof. exists s. by rewrite app_nil_r. Qed.

Lemma prints_bind {A B} (m : M S A) (k : A -> M S B) s l a (Q : list Z -> B -> Prop) : prints m s l a ->
  (forall s', exists l' b, prints (k a) s' l' b /\ Q (l ++ l') b) -> exists l' b, prints (bind m k) s l' b /\ Q l' b.
Proof.
  intros (s1 & H1 & E1) Hk. destruct (Hk s1) as (l' & b & (s2 & H2 & E2) & HQ). exists (l ++ l'), b. split; [|done]. exists s2. mstep H1.
  split; [exact H2|]. by rewrite E2, E1, <- app_assoc.
Qed.

Lemma prints_after {A} (m : M S unit) s l (a : A) : prints m s l tt -> prints (m ;; ret a) s l a.
Proof. intros (s' & H1 & E1). exists s'. by mstep H1. Qed.

Lemma prints_putc c s : prints (putc c) s [c] tt.
Proof. destruct (putc_ok c s) as (s' & H1 & E1). by exists s'. Qed.

Lemma prints_puts l s : prints (puts l) s l tt.
Proof. destruct (puts_ok l s) as (s' & H1 & E1). by exists s'. Qed.

Lemma prints_two c c' {A} (a : A) s : prints (putc c ;; putc c' ;; ret a) s [c; c'] a.
Proof.
  destruct (putc_ok c s) as (s1 & H1 & E1). destruct (putc_ok c' s1) as (s2 & H2 & E2). exists s2. mstep H1. mstep H2.
  split; [done|]. by rewrite E2, E1, <- app_assoc.
Qed.

Lemma i32_range a : - 2 ^ 31 <= i32 a < 2 ^ 31.
Proof. unfold i32. pose proof (Z.mod_pos_bound (a + 2 ^ 31) (2 ^ 32)). lia. Qed.

Lemma u32_i32 a : u32 (i32 a) = u32 a.
Proof. unfold u32, i32. rewrite Zminus_mod_idemp_l. f_equal. lia. Qed.

Lemma u32_u64 a : u32 (u64 a) = u32 a.
Proof. unfold u32, u64. symmetry. apply Znumtheory.Zmod_div_mod; [lia..|]. by exists (2 ^ 32). Qed.

Lemma prints_number dg a base sign s : 5 <= base -> exists l, prints (put_number dg (i32 a) base sign) s l tt /\ number_text dg (i32 a) base sign l.
Proof.
  intros Hb. destruct (put_number_ok dg (i32 a) base sign s Hb (i32_range a)) as (l & s' & H1 & E1 & Ht). exists l. split; [by exists s'|done].
Qed.

Lemma prints_ptr dg a s : exists l, prints (put_ptr dg (u64 a)) s l tt /\ ptr_text dg (u64 a) l.
Proof. destruct (put_ptr_ok dg (u64 a) s (u64_bound a)) as (l & s' & H1 & E1 & Ht). exists l. split; [by exists s'|done]. Qed.

Definition ktakes : list Z := [100; 120; 112; 115].
Definition utakes : list Z := [100; 108; 120; 112; 115; 99].

(** One directive that finds its argument. *)
Definition directive_ok (takes : list Z) (piece : Z -> list Z -> list Z -> list Z -> Prop) (run : Z -> list Z -> M S (list Z)) : Prop :=
  forall c ap s, ((if bool_decide (c ∈ takes) then 1 else 0) <= length ap)%nat ->
  exists t ap', piece c ap t ap' /\ prints (run c ap) s t ap' /\ (length ap = (if bool_decide (c ∈ takes) then 1 else 0) + length ap')%nat.

(** A directive that takes an argument. *)
Lemma directive_arg (takes : list Z) (piece : Z -> list Z -> list Z -> list Z -> Prop) c ap (k : Z -> M S unit) s : c ∈ takes ->
  ((if bool_decide (c ∈ takes) then 1 else 0) <= length ap)%nat ->
  (forall a ap', exists l, prints (k a) s l tt /\ piece c (a :: ap') l ap') ->
  exists t ap', piece c ap t ap' /\ prints (let! v := va_arg ap in k (fst v) ;; ret (snd v)) s t ap' /\
    (length ap = (if bool_decide (c ∈ takes) then 1 else 0) + length ap')%nat.
Proof.
  intros Hc Hl Hk. rewrite bool_decide_eq_true_2 in Hl |- * by done. destruct ap as [|a ap]; [cbn in Hl; lia|].
  destruct (Hk a ap) as (l & Hp & HP). exists l, ap. split_and!; [done| |done]. destruct (prints_after _ _ _ ap Hp) as (s' & H1 & E1). exists s'. split; [|done].
  mcomp. exact H1.
Qed.

(** A directive that takes none. *)
Lemma directive_plain (takes : list Z) (piece : Z -> list Z -> list Z -> list Z -> Prop) c ap (m : M S (list Z)) s t : c ∉ takes ->
  prints m s t ap -> piece c ap t ap ->
  exists t ap', piece c ap t ap' /\ prints m s t ap' /\ (length ap = (if bool_decide (c ∈ takes) then 1 else 0) + length ap')%nat.
Proof. intros Hc Hm Hp. exists t, ap. by rewrite bool_decide_eq_false_2. Qed.

Lemma kdirective_ok : directive_ok ktakes (kpiece cstr) (kdirective cstr).
Proof.
  intros c ap s Hl. unfold kdirective.
  destruct (Z.eqb_spec c 100) as [->|N1]; [|destruct (Z.eqb_spec c 120) as [->|N2]; [|destruct (Z.eqb_spec c 112) as [->|N3]; [|destruct (Z.eqb_spec c 115) as [->|N4]; [|destruct (Z.eqb_spec c 37) as [->|N5]]]]].
  - apply (directive_arg ktakes _ _ ap (fun a => printint (i32 a) 10 1)); [set_solver|done|]. intros a ap'.
    destruct (prints_number digits a 10 1 s ltac:(lia)) as (l & Hp & Ht). exists l. split; [exact Hp|by constructor].
  - apply (directive_arg ktakes _ _ ap (fun a => printint (i32 a) 16 1)); [set_solver|done|]. intros a ap'.
    destruct (prints_number digits a 16 1 s ltac:(lia)) as (l & Hp & Ht). exists l. split; [exact Hp|by constructor].
  - apply (directive_arg ktakes _ _ ap (fun a => printptr (u64 a))); [set_solver|done|]. intros a ap'.
    destruct (prints_ptr digits a s) as (l & Hp & Ht). exists l. split; [exact Hp|by constructor].
  - apply (directive_arg ktakes _ _ ap (fun a => puts (str_arg cstr a))); [set_solver|done|]. intros a ap'. exists (str_arg cstr a). split; [apply prints_puts|apply kp_s].
  - apply (directive_plain ktakes _ _ _ _ _ [37]); [set_solver|by apply prints_after, prints_putc|constructor].
  - apply (directive_plain ktakes _ _ _ _ _ [37; c]); [set_solver|apply prints_two|constructor; set_solver].
Qed.

Lemma udirective_ok : directive_ok utakes (upiece cstr) (udirective cstr).
Proof.
  intros c ap s Hl. unfold udirective.
  destruct (Z.eqb_spec c 100) as [->|N1]; [|destruct (Z.eqb_spec c 108) as [->|N2]; [|destruct (Z.eqb_spec c 120) as [->|N3]; [|destruct (Z.eqb_spec c 112) as [->|N4];
    [|destruct (Z.eqb_spec c 115) as [->|N5]; [|destruct (Z.eqb_spec c 99) as [->|N6]; [|destruct (Z.eqb_spec c 37) as [->|N7]]]]]]].
  - apply (directive_arg utakes _ _ ap (fun a => uprintint (i32 a) 10 1)); [set_solver|done|]. intros a ap'.
    destruct (prints_number udigits a 10 1 s ltac:(lia)) as (l & Hp & Ht). exists l. split; [exact Hp|by constructor].
  - apply (directive_arg utakes _ _ ap (fun a => uprintint (i32 (u64 a)) 10 0)); [set_solver|done|]. intros a ap'.
    destruct (prints_number udigits (u64 a) 10 0 s ltac:(lia)) as (l & Hp & Ht). exists l. split; [exact Hp|]. constructor.
    unfold number_text in Ht. cbn [Z.eqb] in Ht. rewrite u32_i32 in Ht. by rewrite <- u32_u64.
  - apply (directive_arg utakes _ _ ap (fun a => uprintint (i32 a) 16 0)); [set_solver|done|]. intros a ap'.
    destruct (prints_number udigits a 16 0 s ltac:(lia)) as (l & Hp & Ht). exists l. split; [exact Hp|]. constructor. unfold number_text in Ht. by rewrite u32_i32 in Ht.
  - apply (directive_arg utakes _ _ ap (fun a => uprintptr (u64 a))); [set_solver|done|]. intros a ap'.
    destruct (prints_ptr udigits a s) as (l & Hp & Ht). exists l. split; [exact Hp|by constructor].
  - apply (directive_arg utakes _ _ ap (fun a => puts (str_arg cstr a))); [set_solver|done|]. intros a ap'. exists (str_arg cstr a). split; [apply prints_puts|apply up_s].
  - apply (directive_arg utakes _ _ ap (fun a => putc (u8 a))); [set_solver|done|]. intros a ap'. exists [u8 a]. split; [apply prints_putc|apply up_c].
  - apply (directive_plain utakes _ _ _ _ _ [37]); [set_solver|by apply prints_after, prints_putc|constructor].
  - apply (directive_plain utakes _ _ _ _ _ [37; c]); [set_solver|apply prints_two|constructor; set_solver].
Qed.

(** ** The loops over the format *)


Lemma kprintf_loop_ok fmt : forall ap s, (needs ktakes fmt <= length ap)%nat ->
  exists out, prints (kprintf_loop cstr fmt ap) s out tt /\ renders (kpiece cstr) fmt ap out.
Proof.
  induction fmt as [| |c fmt Hc IH|c fmt IH] using fmt_ind; intros ap s Hn.
  - exists []. split; [apply prints_ret|constructor].
  - exists []. split; [apply prints_ret|constructor].
  - cbn [needs] in Hn. rewrite (proj2 (Z.eqb_neq _ _) Hc) in Hn. cbn [kprintf_loop]. rewrite (proj2 (Z.eqb_neq _ _) Hc). cbn [negb].
    destruct (putc_ok c s) as (s1 & H1 & E1). destruct (IH ap s1 Hn) as (out & (s2 & H2 & E2) & Hr). exists (c :: out). split; [|by constructor].
    exists s2. mstep H1. split; [exact H2|]. by rewrite E2, E1, <- app_assoc.
  - change (needs ktakes (37 :: c :: fmt)) with ((if bool_decide (c ∈ ktakes) then 1 else 0) + needs ktakes fmt)%nat in Hn.
    change (kprintf_loop cstr (37 :: c :: fmt) ap) with (let! ap' := kdirective cstr c ap in kprintf_loop cstr fmt ap').
    destruct (kdirective_ok c ap s ltac:(lia)) as (t & ap' & Hp & (s1 & H1 & E1) & Hl). destruct (IH ap' s1 ltac:(lia)) as (out & (s2 & H2 & E2) & Hr).
    exists (t ++ out). split; [|by econstructor]. exists s2. mstep H1. split; [exact H2|]. by rewrite E2, E1, <- app_assoc.
Qed.

Lemma vprintf_ok fmt : forall ap s, (needs utakes fmt <= length ap)%nat ->
  exists out, prints (uprintf cstr fmt ap) s out tt /\ renders (upiece cstr) fmt ap out.
Proof.
  unfold uprintf. induction fmt as [| |c fmt Hc IH|c fmt IH] using fmt_ind; intros ap s Hn.
  - exists []. split; [apply prints_ret|constructor].
  - exists []. split; [apply prints_ret|constructor].
  - cbn [needs] in Hn. rewrite (proj2 (Z.eqb_neq _ _) Hc) in Hn. cbn [vprintf Z.eqb]. rewrite (proj2 (Z.eqb_neq _ _) Hc).
    destruct (putc_ok c s) as (s1 & H1 & E1). destruct (IH ap s1 Hn) as (out & (s2 & H2 & E2) & Hr). exists (c :: out). split; [|by constructor].
    exists s2. mstep H1. split; [exact H2|]. by rewrite E2, E1, <- app_assoc.
  - change (needs utakes (37 :: c :: fmt)) with ((if bool_decide (c ∈ utakes) then 1 else 0) + needs utakes fmt)%nat in Hn.
    change (vprintf cstr (37 :: c :: fmt) 0 ap) with (let! ap' := udirective cstr c ap in vprintf cstr fmt 0 ap').
    destruct (udirective_ok c ap s ltac:(lia)) as (t & ap' & Hp & (s1 & H1 & E1) & Hl). destruct (IH ap' s1 ltac:(lia)) as (out & (s2 & H2 & E2) & Hr).
    exists (t ++ out). split; [|by econstructor]. exists s2. mstep H1. split; [exact H2|]. by rewrite E2, E1, <- app_assoc.
Qed.
End Formats.

Lemma printf_ok {S} `{TerminalOk S} cstr fmt ap lk lg pk (c : S) : (needs ktakes fmt <= length ap)%nat -> lg = 0 \/ lk = false ->
  exists out c', printf cstr (Some fmt) ap (Kpr lk lg pk c) = Ok (tt, Kpr lk lg pk c') /\
    renders (kpiece cstr) fmt ap out /\ shown c' = shown c ++ out.
Proof.
  intros Hn Hl. destruct (kprintf_loop_ok cstr fmt ap c Hn) as (out & (c' & H1 & E1) & Hr). exists out, c'. split_and!; [|done|done].
  unfold printf, on_console, zoom, bind, gets, pr_acquire, pr_release, ret, modify. cbn [pr_locking pr_locked pr_panicked pr_cons].
  destruct (Z.eqb_spec lg 0); cbn [negb pr_locking pr_locked pr_panicked pr_cons].
  - by rewrite H1.
  - destruct Hl as [Hl|Hl]; [done|]. subst lk. cbn [pr_locking pr_locked pr_panicked pr_cons]. by rewrite H1.
Qed.

Lemma renders_plain cstr fmt ap out : 37 ∉ fmt -> renders (kpiece cstr) fmt ap out -> out = fmt.
Proof. intros Hn Hr. induction Hr as [| |c fmt ap out _ _ IH|]; [done|set_solver|f_equal; apply IH; set_solver|set_solver]. Qed.

(** C33. The formatted output of the kernel and of user programs.  [printf] returns for every
    format that has its arguments, never writes outside of the buffer of [printint], shows
    exactly the text of the format, and leaves its lock free.  [panic] shows its message
    whoever holds the lock. *)
Theorem printf_renders (S : Type) (T : Terminal S) (Tok : TerminalOk S) (cstr : Z -> list Z) :
  (forall fmt ap p, (needs ktakes fmt <= length ap)%nat -> pr_locked p = false ->
     exists out c, printf cstr (Some fmt) ap p = Ok (tt, Kpr false (pr_locking p) (pr_panicked p) c) /\
       renders (kpiece cstr) fmt ap out /\ shown c = shown (pr_cons p) ++ out) /\
  (forall msg p, needs ktakes msg = 0%nat ->
     exists out c, kpanic cstr msg p = Ok (tt, Kpr (pr_locked p) 0 1 c) /\
       renders (kpiece cstr) msg [] out /\ shown c = shown (pr_cons p) ++ panic_text ++ out ++ [10]) /\
  (forall fmt ap s, (needs utakes fmt <= length ap)%nat ->
     exists out s', uprintf cstr fmt ap s = Ok (tt, s') /\ renders (upiece cstr) fmt ap out /\ shown s' = shown s ++ out).
Proof.
  split_and!.
  - intros fmt ap [lk lg pk c] Hn Hl. cbn [pr_locked pr_locking pr_panicked pr_cons] in *. subst lk. apply printf_ok; auto.
  - intros msg [lk lg pk c] Hn. cbn [pr_locked pr_cons].
    destruct (printf_ok cstr panic_text [] lk 0 pk c ltac:(cbn; lia) (or_introl eq_refl)) as (o1 & c1 & H1 & R1 & E1).
    destruct (printf_ok cstr msg [] lk 0 pk c1 ltac:(lia) (or_introl eq_refl)) as (o2 & c2 & H2 & R2 & E2).
    destruct (printf_ok cstr [10] [] lk 0 pk c2 ltac:(cbn; lia) (or_introl eq_refl)) as (o3 & c3 & H3 & R3 & E3).
    exists o2, c3. split_and!; [|done|].
    + unfold kpanic. mcomp. cbn [pr_locked pr_panicked pr_cons]. mstep H1. mstep H2. mstep H3. reflexivity.
    + apply renders_plain in R1 as ->; [|unfold panic_text; set_solver]. apply renders_plain in R3 as ->; [|set_solver]. by rewrite E3, E2, E1, <- !app_assoc.
  - intros fmt ap s Hn. destruct (vprintf_ok cstr fmt ap s Hn) as (out & (s' & H1 & E1) & Hr). by exists out, s'.
Qed.

(** A terminal that keeps what is written to it. *)
#[export] Instance paper : Terminal (list Z) := { putc c := modify (fun l => l ++ [c]); shown l := l }.
#[export] Instance paper_ok : TerminalOk (list Z).
Proof. constructor. intros c s. by exists (s ++ [c]). Qed.

(** "%d" with the argument -7 *)
Lemma printf_renders_witness : exists out c, printf (fun _ => []) (Some [37; 100]) [2 ^ 64 - 7] (Kpr false 1 0 []) = Ok (tt, Kpr false 1 0 c) /\
  renders (kpiece (fun _ => [])) [37; 100] [2 ^ 64 - 7] out /\ shown c = out.
Proof.
  destruct (printf_renders (list Z) paper paper_ok (fun _ => [])) as (Hk & _ & _).
  exact (Hk [37; 100] [2 ^ 64 - 7] (Kpr false 1 0 []) (le_n 1) eq_refl).
Defined.
