(* ===== verification/Ulib.v ===== *)
(** * The library of user programs, [user/ulib.c]

    On the byte memory of [KString]; [atoi] is on the characters of a string.  The loops that
    run to a nul byte have fuel. *)

From S2P Require Import Prelude KString Printf.

(** The loop copies up to the nul byte, which it copies too. *)
Fixpoint strcpy (m : mem) (s t : Z) (fuel : nat) : option mem :=
  match fuel with
  | O => None
  | S fuel =>
      let m' := store8 m s (load8 m t) in
      if load8 m t =? 0 then Some m' else strcpy m' (s + 1) (t + 1) fuel
  end.

Fixpoint strcmp (m : mem) (p q : Z) (fuel : nat) : option Z :=
  match fuel with
  | O => None
  | S fuel =>
      if negb (load8 m p =? 0) && (load8 m p =? load8 m q) then strcmp m (p + 1) (q + 1) fuel
      else Some (load8 m p - load8 m q)
  end.

Fixpoint ustrlen_loop (m : mem) (s n : Z) (fuel : nat) : option Z :=
  match fuel with
  | O => None
  | S fuel => if load8 m (s + n) =? 0 then Some n else ustrlen_loop m s (n + 1) fuel
  end.

Definition ustrlen (m : mem) (s : Z) (fuel : nat) : option Z := ustrlen_loop m s 0 fuel.

Fixpoint umemset_loop (m : mem) (cdst c i : Z) (n : nat) : mem :=
  match n with
  | O => m
  | S k => umemset_loop (store8 m (cdst + i) c) cdst c (i + 1) k
  end.

Definition umemset (m : mem) (dst c n : Z) : mem := umemset_loop m dst c 0 (Z.to_nat n).

(** The address of the first [c], or 0. *)
Fixpoint ustrchr (m : mem) (s c : Z) (fuel : nat) : option Z :=
  match fuel with
  | O => None
  | S fuel =>
      if load8 m s =? 0 then Some 0
      else if load8 m s =? c then Some s
      else ustrchr m (s + 1) c fuel
  end.

(** The memory of the program and the characters that [read(0, &c, 1)] still gives. *)
Record ulib_st := UlibSt { ul_mem : mem; ul_in : list Z }.

Definition read1 : M ulib_st (option Z) := fun s =>
  match ul_in s with
  | c :: l => Ok (Some c, UlibSt (ul_mem s) l)
  | [] => Ok (None, s)
  end.
Definition poke (a v : Z) : M ulib_st unit := modify (fun s => UlibSt (store8 (ul_mem s) a v) (ul_in s)).

(** The loop of [gets] from [i] on, with [n] the number of rounds that [i + 1 < max] still
    allows; the value of [i] at its end. *)
Fixpoint gets_loop (buf i : Z) (n : nat) : M ulib_st Z :=
  match n with
  | O => ret i
  | S n =>
      let! r := read1 in
      match r with
      | None => ret i
      | Some c =>
          poke (buf + i) c ;;
          if (c =? 10) || (c =? 13) then ret (i + 1) else gets_loop buf (i + 1) n
      end
  end.

Definition ugets (buf max : Z) : M ulib_st Z :=
  let! i := gets_loop buf 0 (Z.to_nat (max - 1)) in
  poke (buf + i) 0 ;;
  ret buf.

(** [n = n*10 + *s++ - '0'], at the width of an [int]. *)
Fixpoint atoi_loop (s : list Z) (n : Z) : Z :=
  match s with
  | c :: s => if (48 <=? c) && (c <=? 57) then atoi_loop s (i32 (n * 10 + c - 48)) else n
  | [] => n
  end.

Definition atoi (s : list Z) : Z := atoi_loop s 0.

Definition umemmove (m : mem) (dst src n : Z) : mem :=
  if dst <? src then copy_forward m dst src (Z.to_nat n)
  else copy_backward m (dst + n) (src + n) (Z.to_nat n).

Fixpoint umemcmp_loop (m : mem) (p1 p2 : Z) (n : nat) : Z :=
  match n with
  | O => 0
  | S k =>
      if negb (load8 m p1 =? load8 m p2) then load8 m p1 - load8 m p2
      else umemcmp_loop m (p1 + 1) (p2 + 1) k
  end.

Definition umemcmp (m : mem) (s1 s2 n : Z) : Z := umemcmp_loop m s1 s2 (Z.to_nat n).

Definition umemcpy (m : mem) (dst src n : Z) : mem := umemmove m dst src n.

(** [stat], over the system calls that it makes. *)
Definition ustat {S A} (open_ : M S Z) (fstat : Z -> M S (Z * A)) (close : Z -> M S Z) (none : A) : M S (Z * A) :=
  let! fd := open_ in
  if fd <? 0 then ret (-1, none)
  else
    let! r := fstat fd in
    close fd ;;
    ret r.

(** ** [atoi] *)

Lemma atoi_digits ds : forall n rest, Forall (fun d => 0 <= d < 10) ds -> 0 <= n -> fold_left (fun n d => n * 10 + d) ds n < 2 ^ 31 ->
  (match rest with c :: _ => ~ 48 <= c <= 57 | [] => True end) ->
  atoi_loop ((zlook udigits <$> ds) ++ rest) n = fold_left (fun n d => n * 10 + d) ds n.
Proof.
  assert (forall ds n, Forall (fun d => 0 <= d < 10) ds -> 0 <= n -> n <= fold_left (fun n d => n * 10 + d) ds n) as Hmono.
  { intros ds'. induction ds' as [|d ds' IH]; intros n Ha Hn; [done|]. inversion_clear Ha. cbn [fold_left]. etransitivity; [|apply IH; [done|lia]]. lia. }
  induction ds as [|d ds IH]; intros n rest Ha Hn Hlt Hrest.
  - destruct rest as [|c rest]; [done|]. cbn. destruct (Z.leb_spec 48 c); [|done]. destruct (Z.leb_spec c 57); [lia|done].
  - inversion_clear Ha as [|? ? Hd Ha']. change ((zlook udigits <$> d :: ds) ++ rest) with (zlook udigits d :: (zlook udigits <$> ds) ++ rest). cbn [atoi_loop fold_left] in *.
    assert (zlook udigits d = 48 + d) as -> by (assert (d ∈ upto 10) as Hu by (by apply elem_of_upto); vm_compute in Hu; repeat (apply elem_of_cons in Hu as [->|Hu]; [reflexivity|]); by apply elem_of_nil in Hu).
    rewrite (proj2 (Z.leb_le 48 _)), (proj2 (Z.leb_le _ 57)) by lia. cbn [andb]. specialize (Hmono ds (n * 10 + d) Ha' ltac:(lia)).
    rewrite i32_small by lia. replace (n * 10 + (48 + d) - 48) with (n * 10 + d) by lia. apply IH; [done|lia|done|done].
Qed.

(** What a program prints with [%d] or [%l], [atoi] reads back, up to the end of the string
    or the next character that is not a digit: for every [int] that is not negative. *)
Theorem print_atoi_roundtrip (S : Type) (T : Terminal S) (Tok : TerminalOk S) (cstr : Z -> list Z) (v : Z) (rest : list Z) (s : S)
  (Hv : 0 <= v < 2 ^ 31) (Hrest : match rest with c :: _ => ~ 48 <= c <= 57 | [] => True end) (c : Z) (Hc : c = 100 \/ c = 108) :
  exists out s', uprintf cstr [37; c] [v] s = Ok (tt, s') /\ shown s' = shown s ++ out /\ atoi (out ++ rest) = v.
Proof.
  destruct (vprintf_ok cstr [37; c] [v] s) as (out & (s' & H1 & E1) & Hr); [by destruct Hc as [-> | ->]|]. exists out, s'. split_and!; [done|done|].
  assert (numeral udigits 10 v out) as (ds & -> & Ha & Hval & _).
  { inversion Hr as [| |? ? ? ? Hne|? ? ? t ap' out' Hp Hend]; subst; [done|]. inversion Hend; subst. rewrite app_nil_r.
    destruct Hc as [-> | ->]; inversion Hp as [? ? ? Ht|? ? ? Ht| | | | | |? ? Hn]; subst; try (exfalso; set_solver).
    - unfold int_text in Ht. rewrite i32_small in Ht by lia. by rewrite (proj2 (Z.ltb_ge v 0)) in Ht by lia.
    - by rewrite u32_small in Ht by lia. }
  unfold atoi. rewrite atoi_digits; [exact Hval|done|lia| |done]. fold (value 10 ds). lia.
Qed.

Lemma print_atoi_roundtrip_witness : exists out s', uprintf (fun _ => []) [37; 100] [2147483647] ([] : list Z) = Ok (tt, s') /\
  shown s' = shown ([] : list Z) ++ out /\ atoi (out ++ [10]) = 2147483647.
Proof.
  apply (print_atoi_roundtrip (list Z) paper paper_ok (fun _ => []) 2147483647 [10] []); [split; [by vm_compute|by vm_compute]|lia|by left].
Defined.

(** ** [gets] *)

(** The characters that [gets] takes from its input, at most [n]. *)
Fixpoint line_of (n : nat) (l : list Z) : list Z :=
  match n, l with
  | S n, c :: l => c :: (if (c =? 10) || (c =? 13) then [] else line_of n l)
  | _, _ => []
  end.

Lemma gets_loop_ok n : forall buf i s, exists m', let t := line_of n (ul_in s) in
  gets_loop buf i n s = Ok (i + Z.of_nat (length t), UlibSt m' (drop (length t) (ul_in s))) /\ (length t <= n)%nat /\
  same_outside (buf + i) (Z.of_nat (length t)) (ul_mem s) m' /\
  forall j c, t !! j = Some c -> m' (buf + i + Z.of_nat j) = u8 c.
Proof.
  induction n as [|n IH]; intros buf i [m l].
  { exists m. cbn [line_of length ul_in ul_mem gets_loop]. split_and!; [by rewrite Z.add_0_r|lia|apply same_outside_refl|done]. }
  destruct l as [|c l].
  { exists m. cbn [line_of length ul_in ul_mem gets_loop]. split_and!; [rewrite Z.add_0_r; reflexivity|lia|apply same_outside_refl|done]. }
  cbn [gets_loop]. mcomp. cbn iota. mcomp. cbn [line_of ul_in ul_mem]. set (m1 := store8 m (buf + i) c). destruct ((c =? 10) || (c =? 13)).
  - exists m1. cbn [length drop]. split_and!; [done|lia|apply store8_outside; lia|]. intros [|j] d; [|done]. intros [= ->]. rewrite Z.add_0_r. apply store8_eq.
  - destruct (IH buf (i + 1) (UlibSt m1 l)) as (m' & H1 & Hl & Ho & Hb). cbn [ul_in ul_mem] in *. exists m'. cbn [length drop].
    split_and!; [rewrite H1; replace (i + 1 + Z.of_nat (length (line_of n l))) with (i + Z.of_nat (Datatypes.S (length (line_of n l)))) by lia; reflexivity|lia| |].
    + intros x Hx. rewrite Ho by lia. apply store8_ne. lia.
    + intros [|j] d; cbn [lookup list_lookup].
      * intros [= ->]. rewrite Z.add_0_r, Ho by lia. apply store8_eq.
      * intros Hd. rewrite <- (Hb j d Hd). f_equal. lia.
Qed.

Lemma line_of_prefix n l : line_of n l = take (length (line_of n l)) l.
Proof.
  revert l. induction n as [|n IH]; intros [|c l]; cbn [line_of]; try done. destruct ((c =? 10) || (c =? 13)); [done|]. cbn [length take]. by rewrite <- IH.
Qed.

(** A line ends at the first newline or carriage return; without one it is as long as the
    bound or the input allows. *)
Lemma line_of_end n l t c : line_of n l = t ++ [c] -> Forall (fun d => d <> 10 /\ d <> 13) t /\ (c = 10 \/ c = 13 \/ length (t ++ [c]) = Nat.min n (length l)).
Proof.
  revert l t. induction n as [|n IH]; intros [|d l] t; cbn [line_of]; try (by destruct t). intros E. destruct t as [|e t]; cbn [app] in E; injection E as -> E.
  - split; [done|]. destruct (Z.eqb_spec c 10); [auto|]. destruct (Z.eqb_spec c 13); [auto|]. cbn [orb] in E. right; right. cbn [app length].
    destruct n; [lia|]. destruct l; [cbn; lia|done].
  - destruct (Z.eqb_spec e 10); [by destruct t|]. destruct (Z.eqb_spec e 13); [by destruct t|]. cbn [orb] in E. destruct (IH l t E) as [H1 H2]. split; [by constructor|].
    destruct H2 as [|[|H2]]; [auto|auto|]. right; right. cbn [app length]. lia.
Qed.

(** C34. [gets] with a buffer of [max] bytes returns, writes only to the buffer, and leaves there
    the first line of its input, with its newline, cut to [max - 1] characters, and a nul
    byte behind it; the rest of the input is left. *)
Theorem gets_bounds (buf max : Z) (s : ulib_st) (Hmax : 1 <= max) :
  exists t m', ugets buf max s = Ok (buf, UlibSt m' (drop (length t) (ul_in s))) /\
  t = take (length t) (ul_in s) /\ Z.of_nat (length t) < max /\ same_outside buf max (ul_mem s) m' /\
  (forall j c, t !! j = Some c -> m' (buf + Z.of_nat j) = u8 c) /\ m' (buf + Z.of_nat (length t)) = 0 /\
  (forall u c, t = u ++ [c] -> Forall (fun d => d <> 10 /\ d <> 13) u /\
     (c = 10 \/ c = 13 \/ Z.of_nat (length t) = Z.min (max - 1) (Z.of_nat (length (ul_in s))))) /\
  (t = [] -> max = 1 \/ ul_in s = []).
Proof.
  destruct (gets_loop_ok (Z.to_nat (max - 1)) buf 0 s) as (m1 & H1 & Hl & Ho & Hb). set (t := line_of (Z.to_nat (max - 1)) (ul_in s)) in *.
  rewrite Z.add_0_r, Z.add_0_l in *. exists t, (store8 m1 (buf + Z.of_nat (length t)) 0). split_and!.
  - unfold ugets. mstep H1. reflexivity.
  - apply line_of_prefix.
  - lia.
  - intros x Hx. rewrite store8_ne by lia. apply Ho. lia.
  - intros j c Hj. pose proof (lookup_lt_Some _ _ _ Hj). rewrite store8_ne by lia. by apply Hb.
  - apply store8_eq.
  - intros u c Hu. destruct (line_of_end _ _ _ _ Hu) as [Hf Hc]. split; [done|]. destruct Hc as [|[|Hc]]; [auto|auto|]. right; right. rewrite Hu, Hc. lia.
  - subst t. destruct (ul_in s); [auto|]. destruct (Z.to_nat (max - 1)) eqn:E; [lia|done].
Qed.

Lemma gets_bounds_witness : exists (t : list Z) m', ugets 100 8 (UlibSt (fun _ => 7) [104; 105; 10; 120]) = Ok (100, UlibSt m' (drop (length t) [104; 105; 10; 120])) /\
  Z.of_nat (length t) < 8 /\ same_outside 100 8 (fun _ => 7) m'.
Proof.
  destruct (gets_bounds 100 8 (UlibSt (fun _ => 7) [104; 105; 10; 120]) ltac:(lia)) as (t & m' & H1 & _ & H2 & H3 & _). by exists t, m'.
Defined.

(** ** [memmove] *)

(** The [memmove] of user programs and that of the kernel choose the direction by different
    tests, and leave the same memory. *)
Lemma umemmove_kernel (m : mem) (dst src n x : Z) : 0 <= n -> load8 (umemmove m dst src n) x = load8 (memmove m dst src n) x.
Proof.
  intros Hn. assert ((forall i, 0 <= i < n -> load8 (umemmove m dst src n) (dst + i) = load8 m (src + i)) /\ same_outside dst n m (umemmove m dst src n)) as [H1 H2].
  { unfold umemmove. destruct (Z.ltb_spec dst src).
    - destruct (copy_forward_spec (Z.to_nat n) m dst src) as [A B]; [lia|]. rewrite Z2Nat.id in A, B by lia. done.
    - destruct (copy_backward_spec (Z.to_nat n) m (dst + n) (src + n)) as [A B]; [lia|]. rewrite Z2Nat.id in A, B by lia.
      replace (dst + n - n) with dst in B by lia. split; [|done]. intros i Hi. specialize (A (n - i) ltac:(lia)).
      by replace (dst + n - (n - i)) with (dst + i) in A by lia; replace (src + n - (n - i)) with (src + i) in A by lia. }
  destruct (decide (dst <= x < dst + n)) as [Hx|Hx].
  - replace x with (dst + (x - dst)) by lia. rewrite H1, memmove_load; [done|lia|lia].
  - rewrite (load8_same m _ x (H2 x Hx)). symmetry. apply load8_same. by apply memmove_outside.
Qed.
