(* ===== verification/Sched.v ===== *)
(** * The scheduler and the switches between processes, [kernel/proc.c]

    Each hart runs its [scheduler] or the kernel thread of a process; [swtch] goes from one
    to the other and back.  A step of a hart is the code between two points at which other
    harts matter: an attempt to acquire a lock, a release, or the code under a lock.  The
    locks and the nesting of [push_off] are those of [Spinlock]; lock [i] below [NPROC] is
    [proc[i].lock].

    What a process does besides is an action [act], chosen at each step: it may yield, take
    and release a lock of another object, sleep, wait, exit, or turn interrupts on and off
    while it holds no lock.  It holds at most one lock of another object at a time, the one
    that it passes to [sleep]: this is what [sched] requires of the callers of [sleep], and an
    assumption of the model, not a property of the kernel.  [consolewrite] in
    [kernel/console.c] does not respect it: it sleeps in [uartputc] with two locks.

    [exit] is modelled with the locks of the parent and of the process; the locks of the
    children, which [reparent] takes one at a time, and that of init, for its wakeup, are left
    out, and [fork] is one step on a slot, without the lock that it holds meanwhile.  The
    theorem says nothing of these acquisitions. *)

From S2P Require Import Prelude Riscv Kalloc Vm Spinlock Proc.

(** How a process called [sched], and where its context resumes: [sleep(chan, lk)] on a
    lock [lk] that is [None] for its own. *)
Inductive resume := RYield | RSleep (lk : option Z) | RExit.
Inductive kctx := AtForkret | AtSched (r : resume) (ie : bool).

(** Where a hart is: in [scheduler] at the slot [k] (at the top of the loop; before
    [acquire]; with the lock; back from [swtch]; before [release]), or in the thread of
    process [p]. *)
Inductive hpc :=
| SLoop | SAcq (k : Z) | SGot (k : Z) | SBack (k : Z) | SRel (k : Z)
| PFree (p : Z)                                  (* no lock *)
| PHold (p lk : Z)                               (* a lock that is not of a process *)
| PYield (p : Z)                                 (* yield, with p->lock *)
| PSleepLk (p chan lk : Z)                       (* sleep, with lk and p->lock *)
| PSleep (p chan : Z) (lk : option Z)            (* sleep, with p->lock only *)
| PWait (p : Z)                                  (* wait, with p->lock *)
| PWaitChild (p np : Z)                          (* wait, with p->lock and np->lock *)
| PReap (p np : Z)                               (* wait, with both locks, behind freeproc *)
| PReaped (p : Z)                                (* wait, before the last release *)
| PExitParent (p q : Z)                          (* exit, with the lock of the parent *)
| PExit (p q : Z)                                (* exit, with both locks *)
| PExitZombie (p q : Z)
| PSched (p : Z) (r : resume)                    (* before sched *)
| PResume (p : Z) (c : kctx)                     (* behind swtch *)
| PResched (p : Z) (lk : option Z)               (* behind sched in sleep *)
| PRelock (p lk : Z).                            (* sleep, before the last acquire *)

Record kst := Kst {
  k_smp : smp;
  k_procs : Z -> proc;
  k_cproc : Z -> option Z;      (* cpus[h].proc *)
  k_ctx : Z -> kctx;            (* proc[i].context *)
  k_sctx : Z -> Z;              (* cpus[h].context: the variable p of the scheduler *)
  k_pc : Z -> hpc;
}.

Inductive act :=
| ANone | AYield | ALock (lk : Z) | AUnlock | ASleep (chan : Z) | AWait | AWaitScan (np : Z) | AWaitSleep | AWaitReturn | AExit (q : Z) | AIntr (b : bool).

Definition on_smp {A} (m : M smp A) : M kst A :=
  zoom k_smp (fun x s => Kst x (k_procs s) (k_cproc s) (k_ctx s) (k_sctx s) (k_pc s)) m.
Definition kget (i : Z) : M kst proc := gets (fun s => k_procs s i).
Definition kmod (i : Z) (f : proc -> proc) : M kst unit :=
  modify (fun s => Kst (k_smp s) (upd (k_procs s) i (f (k_procs s i))) (k_cproc s) (k_ctx s) (k_sctx s) (k_pc s)).
Definition set_cproc (h : Z) (v : option Z) : M kst unit :=
  modify (fun s => Kst (k_smp s) (k_procs s) (upd (k_cproc s) h v) (k_ctx s) (k_sctx s) (k_pc s)).
Definition save_ctx (p : Z) (c : kctx) : M kst unit :=
  modify (fun s => Kst (k_smp s) (k_procs s) (k_cproc s) (upd (k_ctx s) p c) (k_sctx s) (k_pc s)).
Definition save_sctx (h k : Z) : M kst unit :=
  modify (fun s => Kst (k_smp s) (k_procs s) (k_cproc s) (k_ctx s) (upd (k_sctx s) h k) (k_pc s)).
Definition goto (h : Z) (c : hpc) : M kst unit :=
  modify (fun s => Kst (k_smp s) (k_procs s) (k_cproc s) (k_ctx s) (k_sctx s) (upd (k_pc s) h c)).
Definition set_intr (h : Z) (b : bool) : M smp unit :=
  modify (fun s => set_cpu h (Cpu (noff (cpus s h)) (intena (cpus s h)) b) s).
Definition set_intena (h : Z) (b : bool) : M smp unit :=
  modify (fun s => set_cpu h (Cpu (noff (cpus s h)) b (intr (cpus s h))) s).

(** [swtch(&c->context, &p->context)] in the scheduler, and [swtch(&p->context,
    &mycpu()->context)] in [sched]. *)
Definition swtch_to (h p : Z) : M kst unit :=
  save_sctx h p ;;
  let! c := gets (fun s => k_ctx s p) in
  goto h (PResume p c).
Definition swtch_back (h p : Z) (c : kctx) : M kst unit :=
  save_ctx p c ;;
  let! k := gets (fun s => k_sctx s h) in
  goto h (SBack k).

(** The scheduler at slot [k], with the lock. *)
Definition sched_try (h k : Z) : M kst unit :=
  let! p := kget k in
  if procstate_eqb (p_state p) RUNNABLE then
    kmod k (with_state RUNNING) ;;
    set_cproc h (Some k) ;;
    swtch_to h k
  else goto h (SRel k).

Definition sched_next (h k : Z) : M kst unit := goto h (if k + 1 <? NPROC then SAcq (k + 1) else SLoop).

Definition sched (h p : Z) (r : resume) : M kst unit :=
  let! held := on_smp (holding h p) in
  panic_if (negb held) "sched p->lock" ;;
  let! c := gets (fun s => cpus (k_smp s) h) in
  panic_if (negb (noff c =? 1)) "sched locks" ;;
  let! x := kget p in
  panic_if (procstate_eqb (p_state x) RUNNING) "sched running" ;;
  panic_if (intr c) "sched interruptible" ;;
  swtch_back h p (AtSched r (intena c)).

(** Behind [swtch]: the end of [sched], and of its caller; [forkret]. *)
Definition resumed (h p : Z) (c : kctx) : M kst unit :=
  match c with
  | AtForkret => on_smp (release h p) ;; goto h (PFree p)
  | AtSched r ie =>
      on_smp (set_intena h ie) ;;
      match r with
      | RYield => on_smp (release h p) ;; goto h (PFree p)
      | RSleep lk => kmod p (with_chan 0) ;; goto h (PResched p lk)
      | RExit => panic "zombie exit"
      end
  end.

(** [wakeup1(q)], under [q->lock]. *)
Definition wake_parent (chan q : Z) : M kst unit :=
  let! x := kget q in
  if (p_chan x =? chan) && procstate_eqb (p_state x) SLEEPING then kmod q (with_state RUNNABLE) else ret tt.

Section Steps.
(** The address of [&proc[i]]. *)
Context (pa : Z -> Z).

(** A step of [scheduler]. *)
Definition scheduler (h : Z) (pc : hpc) : M kst unit :=
  match pc with
  | SLoop => on_smp (set_intr h true) ;; goto h (SAcq 0)
  | SAcq k => on_smp (acquire h k) ;; goto h (SGot k)
  | SGot k => sched_try h k
  | SBack k => set_cproc h None ;; goto h (SRel k)
  | SRel k => on_smp (release h k) ;; sched_next h k
  | _ => blocked
  end.

(** A step of the thread of a process, in [yield], [sleep], [wait], [exit], behind [swtch] or
    outside of them. *)
Definition thread (h : Z) (pc : hpc) (a : act) : M kst unit :=
  match pc, a with
  | PFree p, AYield => on_smp (acquire h p) ;; goto h (PYield p)
  | PFree p, ALock lk => if NPROC <=? lk then on_smp (acquire h lk) ;; goto h (PHold p lk) else blocked
  | PFree p, AWait => on_smp (acquire h p) ;; goto h (PWait p)
  | PFree p, AExit q => if (0 <=? q) && (q <? NPROC) && negb (q =? p) then on_smp (acquire h q) ;; goto h (PExitParent p q) else blocked
  | PFree p, AIntr b => on_smp (set_intr h b)
  | PHold p lk, AUnlock => on_smp (release h lk) ;; goto h (PFree p)
  | PHold p lk, ASleep chan => on_smp (acquire h p) ;; goto h (PSleepLk p chan lk)
  | PSleepLk p chan lk, ANone => on_smp (release h lk) ;; goto h (PSleep p chan (Some lk))
  | PSleep p chan lk, ANone => kmod p (with_chan chan) ;; kmod p (with_state SLEEPING) ;; goto h (PSched p (RSleep lk))
  | PYield p, ANone => kmod p (with_state RUNNABLE) ;; goto h (PSched p RYield)
  | PWait p, AWaitScan np =>
      if (0 <=? np) && (np <? NPROC) && negb (np =? p) then on_smp (acquire h np) ;; goto h (PWaitChild p np) else blocked
  | PWait p, AWaitSleep => goto h (PSleep p (pa p) None)
  | PWait p, AWaitReturn => on_smp (release h p) ;; goto h (PFree p)
  | PWaitChild p np, ANone =>
      let! x := kget np in
      if procstate_eqb (p_state x) ZOMBIE then
        kmod np (with_state UNUSED) ;;
        goto h (PReap p np)
      else on_smp (release h np) ;; goto h (PWait p)
  | PReap p np, ANone => on_smp (release h np) ;; goto h (PReaped p)
  | PReaped p, ANone => on_smp (release h p) ;; goto h (PFree p)
  | PExitParent p q, ANone => on_smp (acquire h p) ;; goto h (PExit p q)
  | PExit p q, ANone => wake_parent (pa q) q ;; kmod p (with_state ZOMBIE) ;; goto h (PExitZombie p q)
  | PExitZombie p q, ANone => on_smp (release h q) ;; goto h (PSched p RExit)
  | PSched p r, ANone => sched h p r
  | PResume p c, ANone => resumed h p c
  | PResched p None, ANone => goto h (PWait p)
  | PResched p (Some lk), ANone => on_smp (release h p) ;; goto h (PRelock p lk)
  | PRelock p lk, ANone => on_smp (acquire h lk) ;; goto h (PHold p lk)
  | _, _ => blocked
  end.

Definition hart_step (h : Z) (a : act) : M kst unit :=
  let! pc := gets (fun s => k_pc s h) in
  match pc with
  | SLoop | SAcq _ | SGot _ | SBack _ | SRel _ => match a with ANone => scheduler h pc | _ => blocked end
  | _ => thread h pc a
  end.

(** What other code does to slot [i] in one critical section of its lock: [wakeup], [kill],
    and the end of [fork]. *)
Inductive slot_act := SWake (chan : Z) | SKill | SFork.

Definition slot_step (i : Z) (a : slot_act) : M kst unit :=
  let! l := gets (fun s => locks (k_smp s) i) in
  if negb (locked l =? 0) then blocked
  else
    let! x := kget i in
    match a with
    | SWake chan => if procstate_eqb (p_state x) SLEEPING && (p_chan x =? chan) then kmod i (with_state RUNNABLE) else ret tt
    | SKill => kmod i (with_killed true) ;; if procstate_eqb (p_state x) SLEEPING then kmod i (with_state RUNNABLE) else ret tt
    | SFork => if procstate_eqb (p_state x) UNUSED then save_ctx i AtForkret ;; kmod i (with_state RUNNABLE) else blocked
    end.

Inductive kstep : kst -> kst -> Prop :=
| k_hart h a s s' : hart_step h a s = Ok (tt, s') -> kstep s s'
| k_slot i a s s' : 0 <= i < NPROC -> slot_step i a s = Ok (tt, s') -> kstep s s'.
End Steps.

(** ** Locks of a hart *)

Definition held (c : hpc) : list Z :=
  match c with
  | SGot k | SBack k | SRel k => [k]
  | PHold _ lk => [lk]
  | PYield p | PSleep p _ _ | PWait p | PReaped p | PSched p _ | PResume p _ | PResched p _ => [p]
  | PSleepLk p _ lk => [p; lk]
  | PWaitChild p np | PReap p np => [np; p]
  | PExitParent _ q => [q]
  | PExit p q | PExitZombie p q => [p; q]
  | SLoop | SAcq _ | PFree _ | PRelock _ _ => []
  end.

(** The process whose kernel stack the hart uses. *)
Definition onp (c : hpc) : option Z :=
  match c with
  | SLoop | SAcq _ | SGot _ | SBack _ | SRel _ => None
  | PFree p | PHold p _ | PYield p | PSleepLk p _ _ | PSleep p _ _ | PWait p | PWaitChild p _ | PReap p _ | PReaped p | PExitParent p _
  | PExit p _ | PExitZombie p _ | PSched p _ | PResume p _ | PResched p _ | PRelock p _ => Some p
  end.

Definition slot (i : Z) : Prop := 0 <= i < NPROC.
Definition other_lock (lk : Z) : Prop := NPROC <= lk.
Definition good_resume (r : resume) : Prop :=
  match r with RYield | RSleep None => True | RSleep (Some lk) => other_lock lk | RExit => False end.
Definition good_ctx (c : kctx) : Prop := match c with AtForkret => True | AtSched r _ => good_resume r end.

Definition valid (c : hpc) : Prop :=
  match c with
  | SLoop => True
  | SAcq k | SGot k | SBack k | SRel k => slot k
  | PFree p | PYield p | PWait p | PReaped p => slot p
  | PHold p lk | PSleepLk p _ lk | PRelock p lk => slot p /\ other_lock lk
  | PSleep p _ lk | PResched p lk => slot p /\ good_resume (RSleep lk)
  | PWaitChild p q | PReap p q | PExitParent p q | PExit p q | PExitZombie p q => slot p /\ slot q /\ p <> q
  | PSched p r => slot p /\ (r = RExit \/ good_resume r)
  | PResume p c => slot p /\ good_ctx c
  end.

(** The state that a process has when it calls [sched]. *)
Definition sched_state (r : resume) : procstate :=
  match r with RYield => RUNNABLE | RSleep _ => SLEEPING | RExit => ZOMBIE end.

Definition st_of (s : kst) (i : Z) : procstate := p_state (k_procs s i).

(** What a hart at [c] knows. *)
Definition hart_ok (s : kst) (h : Z) (c : hpc) : Prop :=
  match onp c with
  | Some p => k_cproc s h = Some p /\ k_sctx s h = p /\
      st_of s p = match c with PSched _ r => sched_state r | PExitZombie _ _ => ZOMBIE | _ => RUNNING end
  | None => k_cproc s h = match c with SBack k => Some k | _ => None end
  end.

Definition cpu_ok (s : smp) (h : Z) (c : hpc) : Prop :=
  noff (cpus s h) = Z.of_nat (length (held c)) /\ (held c <> [] -> intr (cpus s h) = false).

Record kinv (s : kst) : Prop := {
  kv_lock h lk : lk ∈ held (k_pc s h) -> locks (k_smp s) lk = Spinlock 1 (Some h);
  kv_free lk : (exists h, lk ∈ held (k_pc s h)) \/ locks (k_smp s) lk = Spinlock 0 None;
  kv_cpu h : cpu_ok (k_smp s) h (k_pc s h);
  kv_valid h : valid (k_pc s h);
  kv_hart h : hart_ok s h (k_pc s h);
  kv_excl h h' i : onp (k_pc s h) = Some i -> onp (k_pc s h') = Some i -> h = h';
  kv_running i : slot i -> st_of s i = RUNNING -> exists h, onp (k_pc s h) = Some i;
  kv_ctx i : slot i -> st_of s i = RUNNABLE \/ st_of s i = SLEEPING -> (exists h, onp (k_pc s h) = Some i) \/ good_ctx (k_ctx s i);
}.

Lemma held_unique s h h' lk : kinv s -> lk ∈ held (k_pc s h) -> lk ∈ held (k_pc s h') -> h = h'.
Proof. intros I H1%(kv_lock _ I) H2%(kv_lock _ I). congruence. Qed.

(** Nobody is on the stack of a process that does not run and whose lock [h] holds. *)
Lemma not_on s h h' i : kinv s -> i ∈ held (k_pc s h) -> st_of s i <> RUNNING -> h' <> h -> onp (k_pc s h') <> Some i.
Proof.
  intros I Hin Hst Hne Hon. pose proof (kv_hart _ I h') as Hh. unfold hart_ok in Hh. rewrite Hon in Hh. destruct Hh as (_ & _ & E).
  assert (i ∈ held (k_pc s h')) as Hin'.
  { destruct (k_pc s h') eqn:Ec; cbn [onp held] in *; try congruence; injection Hon as ->; set_solver. }
  apply Hne. by apply (held_unique s h' h i).
Qed.

(** ** A step of hart [h] to [c']

    It may acquire locks that are free, release locks, change slots whose locks it held, and
    move to another stack that no other hart uses. *)
Lemma hart_update s s' h c' : kinv s ->
  (forall h', k_pc s' h' = upd (k_pc s) h c' h') ->
  (forall lk, lk ∈ held c' -> locks (k_smp s') lk = Spinlock 1 (Some h) /\ (lk ∈ held (k_pc s h) \/ locks (k_smp s) lk = Spinlock 0 None)) ->
  (forall lk, lk ∉ held c' -> lk ∈ held (k_pc s h) -> locks (k_smp s') lk = Spinlock 0 None) ->
  (forall lk, lk ∉ held c' -> lk ∉ held (k_pc s h) -> locks (k_smp s') lk = locks (k_smp s) lk) ->
  (forall h', h' <> h -> cpus (k_smp s') h' = cpus (k_smp s) h' /\ k_cproc s' h' = k_cproc s h' /\ k_sctx s' h' = k_sctx s h') ->
  cpu_ok (k_smp s') h c' -> valid c' -> hart_ok s' h c' ->
  (forall i, st_of s' i <> st_of s i -> forall h', h' <> h -> onp (k_pc s h') <> Some i) ->
  (forall i, onp c' = Some i -> forall h', h' <> h -> onp (k_pc s h') <> Some i) ->
  (forall i, slot i -> st_of s' i = RUNNING -> onp c' = Some i \/ (st_of s i = RUNNING /\ onp (k_pc s h) <> Some i)) ->
  (forall i, slot i -> st_of s' i = RUNNABLE \/ st_of s' i = SLEEPING -> onp c' = Some i \/ good_ctx (k_ctx s' i) \/
     ((st_of s i = RUNNABLE \/ st_of s i = SLEEPING) /\ k_ctx s' i = k_ctx s i /\ onp (k_pc s h) <> Some i)) ->
  kinv s'.
Proof.
  intros I Hpc Hl1 Hl2 Hl3 Hoth Hcpu Hval Hart Hst Hon Hrun Hctx.
  assert (k_pc s' h = c') as Ec by (by rewrite Hpc, upd_eq).
  assert (forall h', h' <> h -> k_pc s' h' = k_pc s h') as Eo by (intros h' Hne; by rewrite Hpc, upd_ne).
  split.
  - intros h' lk Hin. destruct (decide (h' = h)) as [->|Hne]; [rewrite Ec in Hin; by apply Hl1|]. rewrite Eo in Hin by done. pose proof (kv_lock _ I _ _ Hin) as E.
    destruct (decide (lk ∈ held c')) as [Hc|Hc].
    { destruct (Hl1 lk Hc) as [_ [Hh|Hh]]; [|congruence]. exfalso. apply Hne. by apply (held_unique s h' h lk). }
    rewrite Hl3; [done|done|]. intros Hh. apply Hne. by apply (held_unique s h' h lk).
  - intros lk. destruct (decide (lk ∈ held c')) as [Hc|Hc]; [left; exists h; by rewrite Ec|]. destruct (decide (lk ∈ held (k_pc s h))) as [Hh|Hh]; [right; by apply Hl2|].
    rewrite Hl3 by done. destruct (kv_free _ I lk) as [(h' & Hin)|]; [|by right]. left. exists h'. rewrite Eo; [done|]. by intros ->.
  - intros h'. destruct (decide (h' = h)) as [->|Hne]; [by rewrite Ec|]. rewrite Eo by done. pose proof (kv_cpu _ I h') as H. unfold cpu_ok in *. by rewrite (proj1 (Hoth h' Hne)).
  - intros h'. destruct (decide (h' = h)) as [->|Hne]; [by rewrite Ec|]. rewrite Eo by done. apply I.
  - intros h'. destruct (decide (h' = h)) as [->|Hne]; [by rewrite Ec|]. rewrite Eo by done. pose proof (kv_hart _ I h') as H. destruct (Hoth h' Hne) as (_ & E1 & E2).
    unfold hart_ok in *. rewrite E1, E2. destruct (onp (k_pc s h')) as [i|] eqn:Ei; [|done]. destruct H as (? & ? & H). split_and!; [done|done|].
    destruct (decide (st_of s' i = st_of s i)) as [->|Hd]; [done|]. by destruct (Hst i Hd h' Hne).
  - intros h1 h2 i. destruct (decide (h1 = h)) as [->|N1], (decide (h2 = h)) as [->|N2]; [done| | |].
    + rewrite Ec, (Eo h2 N2). intros H1 H2. by destruct (Hon i H1 h2 N2).
    + rewrite Ec, (Eo h1 N1). intros H1 H2. by destruct (Hon i H2 h1 N1).
    + rewrite (Eo h1 N1), (Eo h2 N2). apply I.
  - intros i Hi Hr. destruct (Hrun i Hi Hr) as [H|[H1 H2]]; [exists h; by rewrite Ec|]. destruct (kv_running _ I i Hi H1) as [h' Hh']. exists h'. rewrite Eo; [done|]. by intros ->.
  - intros i Hi Hr. destruct (Hctx i Hi Hr) as [H|[H|(H1 & H2 & H3)]]; [left; exists h; by rewrite Ec|by right|].
    destruct (kv_ctx _ I i Hi H1) as [[h' Hh']|Hg]; [|right; by rewrite H2]. left. exists h'. rewrite Eo; [done|]. by intros ->.
Qed.

(** ** Acquire and release *)

Ltac mgo := repeat first [ mcomp | rewrite bind_assoc ].

(** The change that [acquire] and [release] make. *)
Record smp_upd (h lk : Z) (l : spinlock) (n : Z) (sm sm' : smp) : Prop := {
  su_lock : locks sm' lk = l;
  su_locks x : x <> lk -> locks sm' x = locks sm x;
  su_noff : noff (cpus sm' h) = n;
  su_intr : n <> 0 -> intr (cpus sm' h) = false;
  su_cpus h' : h' <> h -> cpus sm' h' = cpus sm h';
}.

Lemma acquire_free h lk sm : locks sm lk = Spinlock 0 None -> 0 <= noff (cpus sm h) < 100 ->
  exists sm', acquire h lk sm = Ok (tt, sm') /\ smp_upd h lk (Spinlock 1 (Some h)) (noff (cpus sm h) + 1) sm sm'.
Proof.
  intros Hl Hn. eexists. split.
  - unfold acquire, acquire_enter, push_off, holding, test_and_set, acquire_mark. mgo. cbn [set_cpu locks]. rewrite Hl. cbn [locked Z.eqb negb andb].
    mgo. cbn [set_cpu set_lock locks]. rewrite Hl. cbn [locked Z.eqb negb]. reflexivity.
  - split; cbn [set_lock set_cpu locks cpus].
    + by rewrite !upd_eq.
    + intros x Hx. by rewrite !upd_ne.
    + rewrite upd_eq. cbn [noff]. by destruct (noff (cpus sm h) =? 0); cbn [noff]; rewrite i32_small by lia.
    + intros _. rewrite upd_eq. cbn [noff intr]. by destruct (noff (cpus sm h) =? 0).
    + intros h' Hne. by rewrite upd_ne.
Qed.

Lemma acquire_busy h h' lk sm : locks sm lk = Spinlock 1 (Some h') -> h' <> h -> acquire h lk sm = Blocked.
Proof.
  intros Hl Hn. unfold acquire, acquire_enter, push_off, holding, test_and_set, acquire_mark. mgo. cbn [set_cpu locks]. rewrite Hl.
  cbn [locked lkcpu Z.eqb negb]. rewrite bool_decide_eq_false_2 by congruence. cbn [andb]. mgo. cbn [set_cpu set_lock locks]. rewrite Hl. reflexivity.
Qed.

Lemma release_held h lk sm : locks sm lk = Spinlock 1 (Some h) -> 1 <= noff (cpus sm h) -> intr (cpus sm h) = false ->
  exists sm', release h lk sm = Ok (tt, sm') /\ smp_upd h lk (Spinlock 0 None) (noff (cpus sm h) - 1) sm sm'.
Proof.
  intros Hl Hn Hi. eexists. split.
  - unfold release, release_unmark, holding, lock_release, pop_off. mgo. rewrite Hl. cbn [locked lkcpu Z.eqb negb]. rewrite bool_decide_eq_true_2 by done. cbn [andb].
    mgo. cbn [set_lock cpus]. rewrite Hi. mcomp. rewrite (proj2 (Z.ltb_ge _ 1)) by lia. mcomp. reflexivity.
  - split; cbn [set_lock set_cpu locks cpus].
    + by rewrite !upd_eq.
    + intros x Hx. by rewrite !upd_ne.
    + by rewrite upd_eq.
    + intros H0. rewrite upd_eq. cbn [intr]. by rewrite (proj2 (Z.eqb_neq _ _) H0).
    + intros h' Hne. by rewrite upd_ne.
Qed.

(** The step returns a state with [Q], or waits for a lock; it does not panic. *)
Definition fine (m : M kst unit) (s : kst) (Q : kst -> Prop) : Prop :=
  match m s with Ok (_, s') => Q s' | Blocked => True | _ => False end.

Definition with_smp (s : kst) (sm : smp) : kst := Kst sm (k_procs s) (k_cproc s) (k_ctx s) (k_sctx s) (k_pc s).

Lemma fine_step (m k : M kst unit) s s1 Q : m s = Ok (tt, s1) -> fine k s1 Q -> fine (m ;; k) s Q.
Proof. intros H Hk. unfold fine in *. by rewrite (bind_ok _ _ _ _ _ H). Qed.

Lemma held_length c : (length (held c) <= 2)%nat.
Proof. destruct c; cbn; lia. Qed.

Lemma fine_acquire s h lk k Q : kinv s -> lk ∉ held (k_pc s h) ->
  (forall sm, locks (k_smp s) lk = Spinlock 0 None -> smp_upd h lk (Spinlock 1 (Some h)) (Z.of_nat (length (held (k_pc s h))) + 1) (k_smp s) sm -> fine k (with_smp s sm) Q) ->
  fine (on_smp (acquire h lk) ;; k) s Q.
Proof.
  intros I Hn Hk. destruct (kv_cpu _ I h) as [En _]. pose proof (held_length (k_pc s h)). destruct (kv_free _ I lk) as [[h' Hh']|Hf].
  - pose proof (kv_lock _ I _ _ Hh') as E. unfold fine, on_smp, bind, zoom. rewrite (acquire_busy h h' lk); [done|done|]. by intros ->.
  - destruct (acquire_free h lk (k_smp s) Hf ltac:(lia)) as (sm & H1 & Hu). rewrite En in Hu. eapply fine_step; [by apply zoom_ok|]. by apply Hk.
Qed.

(** [s] has the locks of the hart at [c]. *)
Lemma fine_release s h lk c k Q : locks (k_smp s) lk = Spinlock 1 (Some h) -> cpu_ok (k_smp s) h c -> held c <> [] ->
  (forall sm, smp_upd h lk (Spinlock 0 None) (Z.of_nat (length (held c)) - 1) (k_smp s) sm -> fine k (with_smp s sm) Q) ->
  fine (on_smp (release h lk) ;; k) s Q.
Proof.
  intros Hl [En Hi] Hne Hk. destruct (release_held h lk (k_smp s) Hl) as (sm & H1 & Hu); [rewrite En; destruct (held c); [done|cbn; lia]|auto|].
  rewrite En in Hu. eapply fine_step; [by apply zoom_ok|]. by apply Hk.
Qed.

(** ** Progress of the scheduler

    [rank_of p sc c] locks will the scheduler of a hart at [c] take up to that of slot [p];
    [sc] is the slot whose process the hart runs. *)
Definition rank_of (p sc : Z) (c : hpc) : Z :=
  match c with
  | SLoop => p + 1
  | SAcq k => (p - k) mod NPROC + 1
  | SGot k => (p - k) mod NPROC
  | SBack k | SRel k => (p - k - 1) mod NPROC + 1
  | _ => (p - sc - 1) mod NPROC + 1
  end.

Definition rank (p h : Z) (s : kst) : Z := rank_of p (k_sctx s h) (k_pc s h).

(** The hart takes the lock of a slot. *)
Definition scans (c : hpc) : bool := match c with SAcq _ => true | _ => false end.

(** A runnable process stays so until it runs, and the scheduler comes closer to it. *)
Definition kept (s : kst) (h : Z) (s' : kst) : Prop :=
  (forall h', h' <> h -> k_pc s' h' = k_pc s h' /\ k_sctx s' h' = k_sctx s h') /\
  forall p, slot p -> st_of s p = RUNNABLE ->
    st_of s' p = RUNNING \/ st_of s' p = RUNNABLE /\ rank p h s' = rank p h s - (if scans (k_pc s h) then 1 else 0).

Definition moved (s : kst) (h : Z) (c' : hpc) (sm : smp) : kst := Kst sm (k_procs s) (k_cproc s) (k_ctx s) (k_sctx s) (upd (k_pc s) h c').

Definition same_rank (s : kst) (h : Z) (c' : hpc) : Prop :=
  forall p, slot p -> st_of s p = RUNNABLE -> rank_of p (k_sctx s h) c' = rank_of p (k_sctx s h) (k_pc s h) - (if scans (k_pc s h) then 1 else 0).

Lemma moved_kept s h c' sm : same_rank s h c' -> kept s h (moved s h c' sm).
Proof.
  intros Hr. split; [intros h' Hne; cbn; by rewrite upd_ne|]. intros p Hp Hst. right. split; [done|]. unfold rank. cbn [moved k_pc k_sctx]. rewrite upd_eq. by apply Hr.
Qed.

(** The steps that take or give a lock. *)
Lemma moved_inv s h c' sm : kinv s ->
  (forall lk, lk ∈ held c' -> locks sm lk = Spinlock 1 (Some h) /\ (lk ∈ held (k_pc s h) \/ locks (k_smp s) lk = Spinlock 0 None)) ->
  (forall lk, lk ∉ held c' -> lk ∈ held (k_pc s h) -> locks sm lk = Spinlock 0 None) ->
  (forall lk, lk ∉ held c' -> lk ∉ held (k_pc s h) -> locks sm lk = locks (k_smp s) lk) ->
  (forall h', h' <> h -> cpus sm h' = cpus (k_smp s) h') ->
  cpu_ok sm h c' -> valid c' -> onp c' = onp (k_pc s h) -> hart_ok s h c' ->
  kinv (moved s h c' sm).
Proof.
  intros I H1 H2 H3 H4 H5 H6 H7 H8. apply (hart_update s _ h c'); try done.
  - intros h' Hne. split; [by apply H4|done].
  - intros i Hi h' Hne Hon. apply Hne. rewrite H7 in Hi. by apply (kv_excl _ I h' h i).
  - intros i Hi Hr. destruct (decide (onp c' = Some i)) as [|Hd]; [by left|]. right. split; [done|]. by rewrite <- H7.
  - intros i Hi Hr. destruct (decide (onp c' = Some i)) as [|Hd]; [by left|]. right; right. split_and!; [done|done|]. by rewrite <- H7.
Qed.

Lemma acquired_inv s h lk c' sm : kinv s -> lk ∉ held (k_pc s h) -> locks (k_smp s) lk = Spinlock 0 None ->
  smp_upd h lk (Spinlock 1 (Some h)) (Z.of_nat (length (held (k_pc s h))) + 1) (k_smp s) sm ->
  (forall x, x ∈ held c' <-> x = lk \/ x ∈ held (k_pc s h)) -> length (held c') = S (length (held (k_pc s h))) ->
  valid c' -> onp c' = onp (k_pc s h) -> hart_ok s h c' -> kinv (moved s h c' sm).
Proof.
  intros I Hn Hf [U1 U2 U3 U4 U5] Hh Hl Hv Ho Hk. apply moved_inv; try done.
  - intros x [->|Hx]%Hh; [auto|]. split; [|by left]. rewrite U2; [by apply (kv_lock _ I)|]. by intros ->.
  - intros x Hx Hx'. destruct Hx. apply Hh. auto.
  - intros x Hx Hx'. apply U2. intros ->. apply Hx, Hh. auto.
  - split; [rewrite U3, Hl; lia|]. intros _. apply U4. lia.
Qed.

Lemma released_inv s h lk c' sm : kinv s -> lk ∈ held (k_pc s h) ->
  smp_upd h lk (Spinlock 0 None) (Z.of_nat (length (held (k_pc s h))) - 1) (k_smp s) sm ->
  (forall x, x ∈ held c' <-> x <> lk /\ x ∈ held (k_pc s h)) -> length (held (k_pc s h)) = S (length (held c')) ->
  valid c' -> onp c' = onp (k_pc s h) -> hart_ok s h c' -> kinv (moved s h c' sm).
Proof.
  intros I Hin [U1 U2 U3 U4 U5] Hh Hl Hv Ho Hk. apply moved_inv; try done.
  - intros x [Hx Hx']%Hh. split; [|by left]. rewrite U2 by done. by apply (kv_lock _ I).
  - intros x Hx Hx'. destruct (decide (x = lk)) as [->|]; [done|]. destruct Hx. by apply Hh.
  - intros x Hx Hx'. apply U2. by intros ->.
  - rewrite Hl in U3, U4. split; [rewrite U3; lia|]. intros Hne. apply U4. destruct (held c'); [done|cbn; lia].
Qed.

(** A whole step that takes the lock [lk] and goes to [c']. *)
Lemma fine_acquire_to s h lk c' : kinv s -> lk ∉ held (k_pc s h) ->
  (forall x, x ∈ held c' <-> x = lk \/ x ∈ held (k_pc s h)) -> length (held c') = S (length (held (k_pc s h))) ->
  valid c' -> onp c' = onp (k_pc s h) -> hart_ok s h c' -> same_rank s h c' ->
  fine (on_smp (acquire h lk) ;; goto h c') s (fun s' => kinv s' /\ kept s h s').
Proof.
  intros I Hn Hh Hl Hv Ho Hk Hr. apply fine_acquire; [done|done|]. intros sm Hf Hu. cbn [fine goto modify]. change (Kst _ _ _ _ _ _) with (moved s h c' sm).
  split; [by eapply acquired_inv|by apply moved_kept].
Qed.

Lemma fine_release_to s h lk c' : kinv s -> lk ∈ held (k_pc s h) ->
  (forall x, x ∈ held c' <-> x <> lk /\ x ∈ held (k_pc s h)) -> length (held (k_pc s h)) = S (length (held c')) ->
  valid c' -> onp c' = onp (k_pc s h) -> hart_ok s h c' -> same_rank s h c' ->
  fine (on_smp (release h lk) ;; goto h c') s (fun s' => kinv s' /\ kept s h s').
Proof.
  intros I Hin Hh Hl Hv Ho Hk Hr. eapply (fine_release s h lk (k_pc s h)); [by apply (kv_lock _ I)|apply I|by destruct (held (k_pc s h))|]. intros sm Hu.
  cbn [fine goto modify]. change (Kst _ _ _ _ _ _) with (moved s h c' sm). split; [by eapply released_inv|by apply moved_kept].
Qed.

(** The steps that keep the locks. *)
Lemma local_to s h c' sm : kinv s -> held c' = held (k_pc s h) -> locks sm = locks (k_smp s) ->
  (forall h', h' <> h -> cpus sm h' = cpus (k_smp s) h') -> cpu_ok sm h c' ->
  valid c' -> onp c' = onp (k_pc s h) -> hart_ok s h c' -> same_rank s h c' ->
  kinv (moved s h c' sm) /\ kept s h (moved s h c' sm).
Proof.
  intros I Hh Hl Hc Hk Hv Ho Hp Hr. split; [|by apply moved_kept]. apply moved_inv; rewrite ?Hl, ?Hh; try done. intros lk Hin. split; [by apply (kv_lock _ I)|by left].
Qed.

(** What a process may do to slots whose locks its hart holds: its own, and others that
    do not run. *)
Definition slots_ok (s : kst) (h p : Z) (procs' : Z -> proc) : Prop :=
  forall i, p_state (procs' i) <> st_of s i ->
    i ∈ held (k_pc s h) /\ st_of s i <> RUNNABLE /\
    (i = p \/ (st_of s i <> RUNNING /\ p_state (procs' i) <> RUNNING /\
       (p_state (procs' i) = RUNNABLE \/ p_state (procs' i) = SLEEPING -> st_of s i = SLEEPING))).

Lemma slots_to s h p c' procs' : kinv s -> onp (k_pc s h) = Some p -> onp c' = Some p -> held c' = held (k_pc s h) -> scans (k_pc s h) = false ->
  slots_ok s h p procs' -> valid c' -> hart_ok (Kst (k_smp s) procs' (k_cproc s) (k_ctx s) (k_sctx s) (k_pc s)) h c' -> same_rank s h c' ->
  let s' := Kst (k_smp s) procs' (k_cproc s) (k_ctx s) (k_sctx s) (upd (k_pc s) h c') in kinv s' /\ kept s h s'.
Proof.
  intros I Ho Ho' Hh Hsc Hs Hv Hk Hr s'. split.
  - apply (hart_update s _ h c'); try done; rewrite ?Hh; try done.
    + intros lk Hin. split; [by apply (kv_lock _ I)|by left].
    + pose proof (kv_cpu _ I h) as Hc. unfold cpu_ok in *. by rewrite Hh.
    + intros i Hd h' Hne Hon. destruct (Hs i Hd) as (Hin & _ & [->|(Hr1 & _)]); [apply Hne; by apply (kv_excl _ I h' h p)|by apply (not_on s h h' i)].
    + intros i Hi h' Hne Hon. rewrite Ho' in Hi. injection Hi as <-. apply Hne. by apply (kv_excl _ I h' h p).
    + intros i Hi Hst. destruct (decide (i = p)) as [->|Hp]; [by left|]. right. split; [|rewrite Ho; congruence].
      destruct (decide (p_state (procs' i) = st_of s i)) as [<-|Hd]; [done|]. by destruct (Hs i Hd) as (_ & _ & [?|(_ & ? & _)]).
    + intros i Hi Hst. destruct (decide (i = p)) as [->|Hp]; [by left|]. right; right. split_and!; [|done|rewrite Ho; congruence].
      destruct (decide (p_state (procs' i) = st_of s i)) as [<-|Hd]; [done|]. destruct (Hs i Hd) as (_ & _ & [?|(_ & _ & H)]); [done|]. right. by apply H.
  - split; [intros h' Hne; cbn; by rewrite upd_ne|]. intros q Hq Hst. right. split; [destruct (decide (p_state (procs' q) = st_of s q)) as [E|Hd]; [change (p_state (procs' q) = RUNNABLE); congruence|by destruct (Hs q Hd) as (_ & ? & _)]|].
    unfold rank, s'. cbn [k_pc k_sctx]. rewrite upd_eq. by apply Hr.
Qed.

(** ** The steps one by one *)

Ltac at_pc I h E :=
  let V := fresh "V" in let K := fresh "K" in let C := fresh "C" in
  pose proof (kv_valid _ I h) as V; pose proof (kv_hart _ I h) as K; pose proof (kv_cpu _ I h) as C;
  rewrite E in V, K, C; unfold hart_ok in K; cbn [valid onp held] in V, K, C.

(** The side conditions of the lemmas above, at the places [E]. *)
Ltac side E :=
  unfold same_rank, hart_ok, cpu_ok; rewrite ?E; cbn [held onp valid length scans rank_of good_resume good_ctx];
  unfold slot, other_lock in *; rewrite ?elem_of_cons, ?elem_of_nil;
  try solve [ done | lia | intuition (try lia) | intros; rewrite ?elem_of_cons, ?elem_of_nil; intuition (subst; done || lia) ].

Section StepsOk.
Context (pa : Z -> Z).
Implicit Types (s : kst).

Lemma rank_next p k : slot p -> slot k -> p <> k -> (p - k - 1) mod NPROC + 1 = (p - k) mod NPROC.
Proof.
  unfold slot, NPROC. intros Hp Hk Hne. destruct (Z.lt_ge_cases k p).
  - rewrite !Z.mod_small; lia.
  - replace (p - k - 1) with (p - k + 63 + (-1) * 64) by lia. replace (p - k) with (p - k + 64 + (-1) * 64) at 2 by lia.
    rewrite !Z_mod_plus_full, !Z.mod_small; lia.
Qed.

Lemma fine_gets {A} (f : kst -> A) (k : A -> M kst unit) s Q : fine (k (f s)) s Q -> fine (let! x := gets f in k x) s Q.
Proof. done. Qed.

Lemma scheduler_step s h a k : kinv s -> k_pc s h = SLoop \/ k_pc s h = SAcq k \/ k_pc s h = SRel k ->
  fine (hart_step pa h a) s (fun s' => kinv s' /\ kept s h s').
Proof.
  intros I [E|[E|E]]; at_pc I h E; unfold hart_step; apply fine_gets; cbn beta; rewrite E; cbn [scheduler thread]; (destruct a; try exact Logic.I).
  - set (sm := set_cpu h (Cpu (noff (cpus (k_smp s) h)) (intena (cpus (k_smp s) h)) true) (k_smp s)). change (kinv (moved s h (SAcq 0) sm) /\ kept s h (moved s h (SAcq 0) sm)).
    apply local_to; side E.
    + subst sm. intros h' Hne. cbn. by rewrite upd_ne.
    + subst sm. cbn. rewrite upd_eq. cbn. destruct C. done.
    + intros p Hp Hst. rewrite Z.sub_0_r, Z.mod_small by lia. lia.
  - apply fine_acquire_to; side E.
  - unfold sched_next. apply fine_release_to; side E; destruct (Z.ltb_spec (k + 1) NPROC); side E.
    + intros p Hp Hst. replace (p - (k + 1)) with (p - k - 1) by lia. lia.
    + intros p Hp Hst. assert (k = NPROC - 1) as -> by lia. unfold NPROC in *. replace (p - (64 - 1) - 1) with (p + (-1) * 64) by lia. rewrite Z_mod_plus_full, Z.mod_small; lia.
Qed.

Lemma pick_step s h k : kinv s -> k_pc s h = SGot k -> st_of s k = RUNNABLE ->
  let s' := Kst (k_smp s) (upd (k_procs s) k (with_state RUNNING (k_procs s k))) (upd (k_cproc s) h (Some k)) (k_ctx s) (upd (k_sctx s) h k)
    (upd (k_pc s) h (PResume k (k_ctx s k))) in
  kinv s' /\ kept s h s'.
Proof.
  intros I E Hst s'. at_pc I h E.
  assert (forall h', h' <> h -> onp (k_pc s h') <> Some k) as Hno by (intros h' Hne; apply (not_on s h h' k I); [rewrite E; by left|congruence|done]).
  assert (forall h', onp (k_pc s h') <> Some k) as Hno' by (intros h'; destruct (decide (h' = h)) as [->|]; [by rewrite E|auto]).
  assert (forall i, i <> k -> st_of s' i = st_of s i) as Hsame by (intros i Hi; unfold st_of, s'; cbn [k_procs]; by rewrite upd_ne).
  assert (st_of s' k = RUNNING) as Hk by (unfold st_of, s'; cbn [k_procs]; by rewrite upd_eq).
  split.
  - apply (hart_update s s' h (PResume k (k_ctx s k))); try done; rewrite ?E; try done.
    + intros lk Hin. split; [apply (kv_lock _ I); by rewrite E|by left].
    + intros h' Hne. cbn. by rewrite !upd_ne.
    + split; [done|]. destruct (kv_ctx _ I k V (or_introl Hst)) as [[h' Hh']|Hg]; [by destruct (Hno' h')|done].
    + unfold hart_ok. cbn [onp k_cproc k_sctx s']. by rewrite !upd_eq.
    + intros i Hd h' Hne. destruct (decide (i = k)) as [->|Hi]; [by apply Hno|]. by destruct Hd; apply Hsame.
    + intros i [= <-]. exact Hno.
    + intros i Hi Hr. destruct (decide (i = k)) as [->|Hd]; [by left|]. right. by rewrite <- Hsame.
    + intros i Hi Hr. destruct (decide (i = k)) as [->|Hd]; [by left|]. right; right. by rewrite <- Hsame.
  - split; [intros h' Hne; cbn; by rewrite !upd_ne|]. intros p Hp Hr. destruct (decide (p = k)) as [->|Hd]; [by left|]. right. rewrite Hsame by done. split; [done|].
    unfold rank. cbn [k_pc k_sctx s']. rewrite !upd_eq, E. cbn [rank_of scans]. rewrite rank_next by done. lia.
Qed.

Lemma got_step s h a k : kinv s -> k_pc s h = SGot k -> fine (hart_step pa h a) s (fun s' => kinv s' /\ kept s h s').
Proof.
  intros I E. at_pc I h E. unfold hart_step. apply fine_gets. cbn beta. rewrite E. cbn [scheduler thread]. destruct a; try exact Logic.I. unfold sched_try. apply fine_gets. cbn beta.
  unfold procstate_eqb. case_bool_decide as Hst; [exact (pick_step s h k I E Hst)|].
  change (kinv (moved s h (SRel k) (k_smp s)) /\ kept s h (moved s h (SRel k) (k_smp s))). apply local_to; side E.
  intros p Hp Hr. destruct (decide (p = k)) as [->|Hd]; [done|]. rewrite rank_next by done. lia.
Qed.

Lemma back_step s h a k : kinv s -> k_pc s h = SBack k -> fine (hart_step pa h a) s (fun s' => kinv s' /\ kept s h s').
Proof.
  intros I E. at_pc I h E. unfold hart_step. apply fine_gets. cbn beta. rewrite E. cbn [scheduler thread]. destruct a; try exact Logic.I.
  set (s' := Kst (k_smp s) (k_procs s) (upd (k_cproc s) h None) (k_ctx s) (k_sctx s) (upd (k_pc s) h (SRel k))). change (kinv s' /\ kept s h s'). split.
  - apply (hart_update s s' h (SRel k)); try done; rewrite ?E; try done.
    + intros lk Hin. split; [apply (kv_lock _ I); by rewrite E|by left].
    + intros h' Hne. cbn. by rewrite !upd_ne.
    + unfold hart_ok. cbn. by rewrite upd_eq.
    + intros i Hi Hr. by right.
    + intros i Hi Hr. by right; right.
  - split; [intros h' Hne; cbn; by rewrite upd_ne|]. intros p Hp Hr. right. split; [done|]. unfold rank. cbn [k_pc k_sctx s']. rewrite upd_eq, E. cbn [rank_of scans]. lia.
Qed.

(** [sched] finds its conditions. *)
Lemma sched_ok s h p r : kinv s -> k_pc s h = PSched p r ->
  sched h p r s = Ok (tt, Kst (k_smp s) (k_procs s) (k_cproc s) (upd (k_ctx s) p (AtSched r (intena (cpus (k_smp s) h)))) (k_sctx s) (upd (k_pc s) h (SBack p))).
Proof.
  intros I E. at_pc I h E. destruct K as (_ & K2 & K3), C as [C1 C2]. cbn [held length] in C1. specialize (C2 ltac:(done)).
  assert (locks (k_smp s) p = Spinlock 1 (Some h)) as Hl by (apply (kv_lock _ I); rewrite E; by left).
  unfold sched. mcomp. rewrite Hl. cbn [locked lkcpu Z.eqb negb]. rewrite bool_decide_eq_true_2 by done. cbn [andb negb].
  mcomp. mcomp. cbn [k_smp k_procs]. rewrite C1. mcomp. mcomp. cbn [k_smp k_procs]. unfold procstate_eqb.
  rewrite bool_decide_eq_false_2; [|change (st_of s p <> RUNNING); rewrite K3; by destruct r]. mcomp. rewrite C2. mcomp.
  unfold swtch_back. mcomp. mcomp. cbn [k_sctx k_smp]. by rewrite K2.
Qed.

Lemma sched_step s h a p r : kinv s -> k_pc s h = PSched p r -> fine (hart_step pa h a) s (fun s' => kinv s' /\ kept s h s').
Proof.
  intros I E. pose proof (sched_ok s h p r I E) as Hrun. set (s' := Kst _ _ _ _ _ _) in Hrun. at_pc I h E. destruct V as [Vp Vr], K as (K1 & K2 & K3).
  unfold hart_step. apply fine_gets. cbn beta. rewrite E. cbn [scheduler thread]. destruct a; try exact Logic.I.
  unfold fine. rewrite Hrun. split.
  - apply (hart_update s s' h (SBack p)); try done; rewrite ?E; try done.
    + intros lk Hin. split; [apply (kv_lock _ I); by rewrite E|by left].
    + intros i Hi Hr. right. split; [done|]. intros [= ->]. change (st_of s' i) with (st_of s i) in Hr. rewrite K3 in Hr. by destruct r.
    + intros i Hi Hr. change (st_of s' i) with (st_of s i) in Hr. cbn [k_ctx s']. destruct (decide (i = p)) as [->|Hd].
      * right; left. rewrite upd_eq. destruct Vr as [->|Hg]; [|done]. rewrite K3 in Hr. by destruct Hr.
      * right; right. rewrite upd_ne by done. split_and!; [done|done|]. cbn [onp]. congruence.
  - split; [intros h' Hne; cbn; by rewrite upd_ne|]. intros q Hq Hr. right. split; [done|]. unfold rank. cbn [k_pc k_sctx s']. rewrite upd_eq, E. cbn [rank_of scans]. rewrite K2. lia.
Qed.

(** The steps of a process that only take or give locks. *)
Lemma lock_step s h a p lk q ch : kinv s ->
  k_pc s h = PHold p lk \/ k_pc s h = PSleepLk p ch lk \/ k_pc s h = PReap p q \/ k_pc s h = PReaped p \/
  k_pc s h = PExitParent p q \/ k_pc s h = PExitZombie p q \/ k_pc s h = PRelock p lk \/ k_pc s h = PResched p (Some lk) ->
  fine (hart_step pa h a) s (fun s' => kinv s' /\ kept s h s').
Proof.
  intros I HE. destruct HE as [E|[E|[E|[E|[E|[E|[E|E]]]]]]]; at_pc I h E; unfold hart_step; apply fine_gets; cbn beta; rewrite E; cbn [scheduler thread]; (destruct a; try exact Logic.I).
  all: first [ apply fine_acquire_to; side E | apply fine_release_to; side E ].
Qed.

Lemma free_step s h a p : kinv s -> k_pc s h = PFree p -> fine (hart_step pa h a) s (fun s' => kinv s' /\ kept s h s').
Proof.
  intros I E. at_pc I h E. unfold hart_step. apply fine_gets. cbn beta. rewrite E. cbn [scheduler thread]. destruct a; try exact Logic.I.
  - apply fine_acquire_to; side E.
  - destruct (Z.leb_spec NPROC lk); [|exact Logic.I]. apply fine_acquire_to; side E.
  - apply fine_acquire_to; side E.
  - destruct (Z.leb_spec 0 q); [|exact Logic.I]. destruct (Z.ltb_spec q NPROC); [|exact Logic.I]. destruct (Z.eqb_spec q p); [exact Logic.I|].
    cbn [andb negb]. apply fine_acquire_to; side E.
  - set (sm := set_cpu h (Cpu (noff (cpus (k_smp s) h)) (intena (cpus (k_smp s) h)) b) (k_smp s)). change (kinv (with_smp s sm) /\ kept s h (with_smp s sm)). split.
    + apply (hart_update s _ h (PFree p)); try done; rewrite ?E; try done.
      * intros h'. cbn. destruct (decide (h' = h)) as [->|Hne]; [by rewrite upd_eq|by rewrite upd_ne].
      * intros lk Hin. by apply elem_of_nil in Hin.
      * intros h' Hne. subst sm. cbn. by rewrite upd_ne.
      * unfold cpu_ok. subst sm. cbn. rewrite upd_eq. by destruct C.
      * intros i Hi h' Hne Hon. apply Hne. apply (kv_excl _ I h' h i); [done|by rewrite E].
      * intros i Hi Hr. change (st_of (with_smp s sm) i) with (st_of s i) in Hr. destruct (decide (onp (PFree p) = Some i)); auto.
      * intros i Hi Hr. change (st_of (with_smp s sm) i) with (st_of s i) in Hr. destruct (decide (onp (PFree p) = Some i)); auto.
    + split; [done|]. intros q Hq Hr. right. split; [done|]. unfold rank. cbn [with_smp k_pc k_sctx]. rewrite E. cbn. lia.
Qed.

Lemma slots_own s h p procs' : p ∈ held (k_pc s h) -> st_of s p = RUNNING -> (forall i, i <> p -> procs' i = k_procs s i) -> slots_ok s h p procs'.
Proof.
  intros Hin Hst Hf i Hd. destruct (decide (i = p)) as [->|Hne]; [|by rewrite Hf in Hd]. split_and!; [done|by rewrite Hst|by left].
Qed.

(** [yield], [sleep] and the loop of [wait]. *)
Lemma own_step s h a p ch lk : kinv s -> k_pc s h = PYield p \/ k_pc s h = PSleep p ch lk \/ k_pc s h = PWait p \/ k_pc s h = PResched p None ->
  fine (hart_step pa h a) s (fun s' => kinv s' /\ kept s h s').
Proof.
  intros I HE. destruct HE as [E|[E|[E|E]]]; at_pc I h E; destruct K as (K1 & K2 & K3); unfold hart_step; apply fine_gets; cbn beta; rewrite E; cbn [scheduler thread]; (destruct a; try exact Logic.I).
  - apply (slots_to s h p (PSched p RYield) (upd (k_procs s) p (with_state RUNNABLE (k_procs s p)))); side E.
    + apply slots_own; rewrite ?E; [by left|done|]. intros i Hi. by rewrite upd_ne.
    + unfold st_of. cbn. by rewrite upd_eq.
  - set (pr := upd (upd (k_procs s) p (with_chan ch (k_procs s p))) p (with_state SLEEPING (upd (k_procs s) p (with_chan ch (k_procs s p)) p))).
    apply (slots_to s h p (PSched p (RSleep lk)) pr); side E.
    + apply slots_own; rewrite ?E; [by left|done|]. intros i Hi. subst pr. by rewrite !upd_ne.
    + unfold st_of. cbn. subst pr. by rewrite upd_eq.
  - destruct (Z.leb_spec 0 np); [|exact Logic.I]. destruct (Z.ltb_spec np NPROC); [|exact Logic.I]. destruct (Z.eqb_spec np p); [exact Logic.I|].
    cbn [andb negb]. apply fine_acquire_to; side E.
  - apply (local_to s h (PSleep p (pa p) None) (k_smp s)); side E.
  - apply fine_release_to; side E.
  - apply (local_to s h (PWait p) (k_smp s)); side E.
Qed.

(** [wait] frees a zombie child. *)
Lemma child_step s h a p np : kinv s -> k_pc s h = PWaitChild p np -> fine (hart_step pa h a) s (fun s' => kinv s' /\ kept s h s').
Proof.
  intros I E. at_pc I h E. destruct K as (K1 & K2 & K3). unfold hart_step. apply fine_gets. cbn beta. rewrite E. cbn [scheduler thread]. destruct a; try exact Logic.I. apply fine_gets. cbn beta.
  unfold procstate_eqb. case_bool_decide as Hz; [|apply fine_release_to; side E].
  apply (slots_to s h p (PReap p np) (upd (k_procs s) np (with_state UNUSED (k_procs s np)))); side E.
  - intros i Hd. destruct (decide (i = np)) as [->|Hne]; [|by rewrite upd_ne in Hd]. rewrite E, upd_eq. change (p_state (k_procs s np)) with (st_of s np) in Hz. rewrite Hz.
    split_and!; [by left|done|]. right. split_and!; [done|done|]. by intros [|].
  - unfold st_of. cbn. rewrite upd_ne; [done|]. by destruct V as (_ & _ & ?).
Qed.

Lemma wake_parent_ok ch q s : exists pr, wake_parent ch q s = Ok (tt, Kst (k_smp s) pr (k_cproc s) (k_ctx s) (k_sctx s) (k_pc s)) /\
  (forall i, i <> q -> pr i = k_procs s i) /\ (p_state (pr q) = st_of s q \/ st_of s q = SLEEPING /\ p_state (pr q) = RUNNABLE).
Proof.
  unfold wake_parent. destruct ((p_chan (k_procs s q) =? ch) && procstate_eqb (p_state (k_procs s q)) SLEEPING) eqn:Ew.
  - exists (upd (k_procs s) q (with_state RUNNABLE (k_procs s q))). split_and!; [mcomp; by rewrite Ew|intros i Hi; by rewrite upd_ne|].
    right. rewrite upd_eq. apply andb_true_iff in Ew as [_ Ew]. unfold procstate_eqb in Ew. by apply bool_decide_eq_true in Ew.
  - exists (k_procs s). split_and!; [mcomp; rewrite Ew; by destruct s|done|by left].
Qed.

(** [exit] wakes the parent and becomes a zombie. *)
Lemma exit_step s h a p q : kinv s -> k_pc s h = PExit p q -> fine (hart_step pa h a) s (fun s' => kinv s' /\ kept s h s').
Proof.
  intros I E. at_pc I h E. destruct K as (K1 & K2 & K3), V as (V1 & V2 & V3). unfold hart_step. apply fine_gets. cbn beta. rewrite E. cbn [scheduler thread]. destruct a; try exact Logic.I.
  destruct (wake_parent_ok (pa q) q s) as (pr & Hw & Hpr & Hq). eapply fine_step; [exact Hw|].
  apply (slots_to s h p (PExitZombie p q) (upd pr p (with_state ZOMBIE (pr p)))); side E.
  - intros i Hd. rewrite E. destruct (decide (i = p)) as [->|Hp]; [split_and!; [by left|by rewrite K3|by left]|]. rewrite upd_ne in Hd |- * by done.
    destruct (decide (i = q)) as [->|Hiq]; [|by rewrite Hpr in Hd]. destruct Hq as [?|[Hq1 Hq2]]; [done|]. rewrite Hq1, Hq2. split_and!; [right; by left|done|]. right. by split_and!.
  - unfold st_of. cbn. by rewrite upd_eq.
Qed.

(** [mycpu()->intena = intena] *)
Lemma intena_inv s h ie : kinv s -> let sm := set_cpu h (Cpu (noff (cpus (k_smp s) h)) ie (intr (cpus (k_smp s) h))) (k_smp s) in kinv (with_smp s sm).
Proof.
  intros I sm. destruct I as [I1 I2 I3 I4 I5 I6 I7 I8]. split; try done. intros h'. specialize (I3 h'). unfold cpu_ok in *. subst sm. cbn.
  destruct (decide (h' = h)) as [->|Hne]; [by rewrite upd_eq|by rewrite upd_ne].
Qed.

(** Behind [swtch]. *)
Lemma resume_step s h a p c : kinv s -> k_pc s h = PResume p c -> fine (hart_step pa h a) s (fun s' => kinv s' /\ kept s h s').
Proof.
  intros I E. at_pc I h E. destruct K as (K1 & K2 & K3), V as (V1 & V2). unfold hart_step. apply fine_gets. cbn beta. rewrite E. cbn [scheduler thread]. destruct a; try exact Logic.I.
  destruct c as [|r ie]; cbn [resumed]; [apply fine_release_to; side E|]. eapply fine_step; [reflexivity|].
  pose proof (intena_inv s h ie I) as I'. cbv zeta in I'. set (s1 := with_smp s _) in I'. assert (k_pc s1 h = PResume p (AtSched r ie)) as E1 by done.
  change (fine (match r with
      | RYield => on_smp (release h p) ;; goto h (PFree p)
      | RSleep lk => kmod p (with_chan 0) ;; goto h (PResched p lk)
      | RExit => panic "zombie exit"
      end) s1 (fun s' => kinv s' /\ kept s1 h s')).
  destruct r as [|lk|]; [apply fine_release_to; side E1| |by destruct V2].
  apply (slots_to s1 h p (PResched p lk) (upd (k_procs s) p (with_chan 0 (k_procs s p)))); side E1.
  - apply slots_own; rewrite ?E1; [by left|done|]. intros i Hi. by rewrite upd_ne.
  - unfold st_of. cbn. by rewrite upd_eq.
Qed.

(** ** Every step *)

Lemma hart_step_ok s h a : kinv s -> fine (hart_step pa h a) s (fun s' => kinv s' /\ kept s h s').
Proof.
  intros I. destruct (k_pc s h) as [|k|k|k|k|p|p lk|p|p ch lk|p ch lk|p|p np|p np|p|p q|p q|p q|p r|p c|p [lk|]|p lk] eqn:E.
  - apply (scheduler_step s h a 0); tauto.
  - apply (scheduler_step s h a k); tauto.
  - by apply (got_step s h a k).
  - by apply (back_step s h a k).
  - apply (scheduler_step s h a k); tauto.
  - by apply (free_step s h a p).
  - apply (lock_step s h a p lk 0 0); tauto.
  - apply (own_step s h a p 0 None); tauto.
  - apply (lock_step s h a p lk 0 ch); tauto.
  - apply (own_step s h a p ch lk); tauto.
  - apply (own_step s h a p 0 None); tauto.
  - by apply (child_step s h a p np).
  - apply (lock_step s h a p 0 np 0); tauto.
  - apply (lock_step s h a p 0 0 0); tauto.
  - apply (lock_step s h a p 0 q 0); tauto.
  - by apply (exit_step s h a p q).
  - apply (lock_step s h a p 0 q 0); tauto.
  - by apply (sched_step s h a p r).
  - by apply (resume_step s h a p c).
  - apply (lock_step s h a p lk 0 0); tauto.
  - apply (own_step s h a p 0 None); tauto.
  - apply (lock_step s h a p lk 0 0); tauto.
Qed.

(** A slot whose lock is free and that does not run: nobody is on its stack. *)
Lemma idle s i h : kinv s -> locked (locks (k_smp s) i) = 0 -> st_of s i <> RUNNING -> onp (k_pc s h) <> Some i.
Proof.
  intros I Hl Hst Hon. pose proof (kv_hart _ I h) as Hh. unfold hart_ok in Hh. rewrite Hon in Hh. destruct Hh as (_ & _ & E).
  assert (i ∈ held (k_pc s h)) as Hin%(kv_lock _ I).
  { destruct (k_pc s h) eqn:Ec; cbn [onp held] in *; try congruence; injection Hon as ->; set_solver. }
  by rewrite Hin in Hl.
Qed.

Lemma slot_inv s i pr cx : kinv s -> locked (locks (k_smp s) i) = 0 ->
  (forall j, j <> i -> pr j = k_procs s j /\ cx j = k_ctx s j) ->
  (p_state (pr i) = st_of s i /\ cx i = k_ctx s i) \/ (st_of s i = SLEEPING /\ p_state (pr i) = RUNNABLE /\ cx i = k_ctx s i) \/
    (st_of s i = UNUSED /\ p_state (pr i) = RUNNABLE /\ good_ctx (cx i)) ->
  let s' := Kst (k_smp s) pr (k_cproc s) cx (k_sctx s) (k_pc s) in
  kinv s' /\ k_pc s' = k_pc s /\ k_sctx s' = k_sctx s /\ forall p, st_of s p = RUNNABLE -> st_of s' p = RUNNABLE.
Proof.
  intros I Hl Ho Hc s'. assert (p_state (pr i) = st_of s i \/ forall h, onp (k_pc s h) <> Some i) as Hidle.
  { destruct Hc as [[? _]|[[E _]|[E _]]]; [by left|right; intros h; apply idle; congruence..]. }
  assert (forall j, j <> i -> st_of s' j = st_of s j) as Est by (intros j Hj; unfold st_of, s'; cbn [k_procs]; by rewrite (proj1 (Ho j Hj))).
  split_and!; [|done|done|].
  - split; try apply I.
    + intros h. pose proof (kv_hart _ I h) as Hh. unfold hart_ok in *. destruct (onp (k_pc s h)) as [j|] eqn:Ej; cbn [s' k_pc k_cproc k_sctx]; rewrite Ej; [|done].
      destruct Hh as (? & ? & Hh). split_and!; [done|done|]. destruct (decide (j = i)) as [->|Hne]; [|by rewrite Est]. destruct Hidle as [E|Hn]; [by rewrite <- Hh, <- E|by destruct (Hn h)].
    + intros j Hj. destruct (decide (j = i)) as [->|Hne]; [|rewrite Est by done; by apply I]. intros Hr. change (p_state (pr i) = RUNNING) in Hr.
      destruct Hc as [[E _]|[(_ & E & _)|(_ & E & _)]]; [|congruence..]. apply I; congruence.
    + intros j Hj. destruct (decide (j = i)) as [->|Hne]; [|rewrite Est by done; cbn [k_ctx s']; rewrite (proj2 (Ho j Hne)); by apply I]. intros Hr. change (p_state (pr i) = RUNNABLE \/ p_state (pr i) = SLEEPING) in Hr.
      cbn [k_ctx k_pc s']. destruct Hc as [[E ->]|[(E & _ & ->)|(_ & _ & Hg)]]; [apply I; [done|by rewrite <- E]|apply I; auto|by right].
  - intros p Hp. destruct (decide (p = i)) as [->|Hne]; [|by rewrite Est]. change (p_state (pr i) = RUNNABLE). destruct Hc as [[-> _]|[(_ & E & _)|(_ & E & _)]]; done.
Qed.

(** [wakeup], [kill] and [fork] on a slot whose lock is free. *)
Lemma slot_step_ok s i a : kinv s -> fine (slot_step i a) s (fun s' => kinv s' /\ k_pc s' = k_pc s /\ k_sctx s' = k_sctx s /\
  forall p, st_of s p = RUNNABLE -> st_of s' p = RUNNABLE).
Proof.
  intros I. unfold slot_step. apply fine_gets. cbn beta. destruct (Z.eqb_spec (locked (locks (k_smp s) i)) 0) as [Hl|]; [|exact Logic.I]. cbn [negb]. apply fine_gets. cbn beta.
  unfold procstate_eqb. destruct a as [chan| |].
  - case_bool_decide as Hs; cbn [andb]; [|done]. destruct (p_chan (k_procs s i) =? chan); [|done].
    apply (slot_inv s i (upd (k_procs s) i (with_state RUNNABLE (k_procs s i))) (k_ctx s)); [done|done|intros j Hj; by rewrite upd_ne|]. rewrite upd_eq. auto.
  - eapply fine_step; [reflexivity|]. case_bool_decide as Hs.
    + set (pr := upd (k_procs s) i (with_killed true (k_procs s i))).
      apply (slot_inv s i (upd pr i (with_state RUNNABLE (pr i))) (k_ctx s)); [done|done|intros j Hj; subst pr; by rewrite !upd_ne|]. rewrite upd_eq. auto.
    + apply (slot_inv s i (upd (k_procs s) i (with_killed true (k_procs s i))) (k_ctx s)); [done|done|intros j Hj; by rewrite !upd_ne|]. rewrite upd_eq. auto.
  - case_bool_decide as Hs; [|exact Logic.I].
    apply (slot_inv s i (upd (k_procs s) i (with_state RUNNABLE (k_procs s i))) (upd (k_ctx s) i AtForkret)); [done|done|intros j Hj; by rewrite !upd_ne|]. rewrite !upd_eq. right; right. done.
Qed.
End StepsOk.
