(* ===== verification/SchedTop.v ===== *)
(** * The scheduler is safe and live

    From the boot of the harts on: the theorems about the steps of [Sched]. *)

From S2P Require Import Prelude Riscv Kalloc Vm Spinlock Proc Sched.

(** [main] calls [scheduler] on each hart; no lock is held, no process runs, and processes
    that may run have not run yet. *)
Record kboot (s : kst) : Prop := {
  kb_hart h : k_pc s h = SLoop /\ k_cproc s h = None /\ noff (cpus (k_smp s) h) = 0;
  kb_lock lk : locks (k_smp s) lk = Spinlock 0 None;
  kb_slot i : slot i -> st_of s i = UNUSED \/ (st_of s i = RUNNABLE /\ k_ctx s i = AtForkret);
}.

Lemma boot_inv s : kboot s -> kinv s.
Proof.
  intros [B1 B2 B3]. assert (forall h, k_pc s h = SLoop) as Hpc by apply B1. split.
  - intros h lk. rewrite Hpc. cbn. by intros ?%elem_of_nil.
  - intros lk. by right.
  - intros h. unfold cpu_ok. rewrite Hpc. cbn. split; [apply B1|done].
  - intros h. by rewrite Hpc.
  - intros h. rewrite Hpc. apply B1.
  - intros h h' i. by rewrite Hpc.
  - intros i Hi Hr. destruct (B3 i Hi) as [E|[E _]]; congruence.
  - intros i Hi Hr. destruct (B3 i Hi) as [E|[_ E]]; [destruct Hr; congruence|]. right. by rewrite E.
Qed.

Section Theorems.
Context (pa : Z -> Z).
Implicit Types (s : kst).

Lemma sched_kstep_inv s s' : kinv s -> kstep pa s s' -> kinv s'.
Proof.
  intros I H. revert I. destruct H as [h a s1 s2 H|i a s1 s2 Hi H]; intros I.
  - pose proof (hart_step_ok pa s1 h a I) as F. unfold fine in F. rewrite H in F. apply F.
  - pose proof (slot_step_ok pa s1 i a I) as F. unfold fine in F. rewrite H in F. apply F.
Qed.

Lemma krun_inv s s' : kinv s -> rtc (kstep pa) s s' -> kinv s'.
Proof. intros I H. induction H as [|s1 s2 s3 H _ IH]; [done|]. apply IH. by eapply sched_kstep_inv. Qed.

(** C31. The switches between processes are safe.  From boot, under any interleaving of the harts,
    for processes that hold at most one lock of another object at a time and sleep with that
    one: no two harts use the kernel stack of the same process; a
    process that is RUNNING is the process of a hart, on its stack; the slot of a process is
    not freed as long as a hart uses its stack; a hart that holds a lock has its interrupts
    off; and no hart panics: [sched] always finds its lock held, one level of [push_off], a
    process that is not RUNNING and interrupts off, no lock is acquired twice or released by
    another hart, and no zombie is resumed. *)
Theorem switch_safe (s0 s : kst) (Hboot : kboot s0) (Hrun : rtc (kstep pa) s0 s) :
  (forall h h' p, onp (k_pc s h) = Some p -> onp (k_pc s h') = Some p -> h = h') /\
  (forall p, slot p -> st_of s p = RUNNING -> exists h, onp (k_pc s h) = Some p /\ k_cproc s h = Some p) /\
  (forall h p, onp (k_pc s h) = Some p -> st_of s p <> UNUSED) /\
  (forall h, held (k_pc s h) <> [] -> intr (cpus (k_smp s) h) = false) /\
  (forall h a msg, hart_step pa h a s <> Panic msg).
Proof.
  pose proof (krun_inv _ _ (boot_inv _ Hboot) Hrun) as I. split_and!.
  - apply I.
  - intros p Hp Hr. destruct (kv_running _ I p Hp Hr) as [h Hh]. exists h. split; [done|]. pose proof (kv_hart _ I h) as K. unfold hart_ok in K. rewrite Hh in K. apply K.
  - intros h p Hon. pose proof (kv_hart _ I h) as K. unfold hart_ok in K. rewrite Hon in K. destruct K as (_ & _ & ->). destruct (k_pc s h) as [| | | | | | | | | | | | | | | | |? []| | |]; done.
  - intros h Hne. by apply (kv_cpu _ I).
  - intros h a msg H. pose proof (hart_step_ok pa s h a I) as F. unfold fine in F. by rewrite H in F.
Qed.

(** ** Liveness *)

(** The scheduler of hart [h] takes the lock of a slot between [s] and [s']. *)
Definition take1 (h : Z) (s s' : kst) : Z := if scans (k_pc s h) && negb (scans (k_pc s' h)) then 1 else 0.

(** How often it does so in the run from [n] on, in [d] steps. *)
Fixpoint takes (run : nat -> kst) (h : Z) (n d : nat) : Z :=
  match d with
  | O => 0
  | S d => takes run h n d + take1 h (run (n + d)%nat) (run (S (n + d)))
  end.

Lemma scan_step s h a s' : hart_step pa h a s = Ok (tt, s') -> scans (k_pc s h) = true -> scans (k_pc s' h) = false.
Proof.
  intros H Hs. destruct (k_pc s h) as [|k| | | | | | | | | | | | | | | | | | |] eqn:E; try discriminate Hs. unfold hart_step in H.
  apply bind_ok_inv in H as (c & s1 & [-> ->]%gets_inv & H). rewrite E in H. destruct a; try discriminate H. apply bind_ok_inv in H as ([] & s2 & H2 & H).
  injection H as <-. cbn. by rewrite upd_eq.
Qed.

Lemma step_rank s s' h p : kinv s -> kstep pa s s' -> slot p -> st_of s p = RUNNABLE ->
  st_of s' p = RUNNING \/ (st_of s' p = RUNNABLE /\ rank p h s' = rank p h s - take1 h s s').
Proof.
  intros I H. revert I. destruct H as [h' a s1 s2 H|i a s1 s2 Hi H]; intros I Hp Hst.
  - pose proof (hart_step_ok pa s1 h' a I) as F. unfold fine in F. rewrite H in F. destruct F as [_ [Ho Hk]]. destruct (Hk p Hp Hst) as [|[Hr Hrank]]; [by left|]. right. split; [done|].
    unfold take1. destruct (decide (h' = h)) as [->|Hne].
    + rewrite Hrank. destruct (scans (k_pc s1 h)) eqn:Es; [|done]. by rewrite (scan_step s1 h a s2 H Es).
    + destruct (Ho h ltac:(done)) as [E1 E2]. unfold rank. rewrite E1, E2. destruct (scans (k_pc s1 h)); cbn [andb negb]; lia.
  - pose proof (slot_step_ok pa s1 i a I) as F. unfold fine in F. rewrite H in F. destruct F as (_ & E1 & E2 & Hk). right. split; [by apply Hk|].
    unfold take1, rank. rewrite E1, E2. destruct (scans (k_pc s1 h)); cbn [andb negb]; lia.
Qed.

Lemma rank_bound s h p : slot p -> 0 <= rank p h s <= NPROC.
Proof.
  intros Hp. unfold slot, rank, rank_of in *. assert (forall x, 0 <= x mod NPROC < NPROC) as Hm by (intros x; apply Z.mod_pos_bound; by unfold NPROC).
  destruct (k_pc s h); try (match goal with |- context [?x mod NPROC] => pose proof (Hm x) end; lia). lia.
Qed.

Section Run.
Context (run : nat -> kst) (Hboot : kboot (run O)) (Hstep : forall n, kstep pa (run n) (run (S n))).

Lemma run_inv n : kinv (run n).
Proof. induction n as [|n IH]; [by apply boot_inv|]. by eapply sched_kstep_inv. Qed.

Lemma take1_bound h s s' : 0 <= take1 h s s' <= 1.
Proof. unfold take1. destruct (_ && _); lia. Qed.

(** Until the process runs, each lock that the scheduler takes brings it closer. *)
Lemma run_walk h p n d : slot p -> st_of (run n) p = RUNNABLE ->
  (exists j, (j <= d)%nat /\ st_of (run (n + j)%nat) p = RUNNING /\ takes run h n j <= NPROC + 1) \/
  (st_of (run (n + d)%nat) p = RUNNABLE /\ rank p h (run (n + d)%nat) = rank p h (run n) - takes run h n d).
Proof.
  intros Hp Hst. induction d as [|d IH]; [right; rewrite Nat.add_0_r; cbn; split; [done|lia]|]. destruct IH as [(j & Hj & Hr & Ht)|[Hr Hk]]; [left; exists j; split; [lia|done]|].
  destruct (step_rank _ _ h p (run_inv (n + d)) (Hstep (n + d)) Hp Hr) as [Hrun|[Hr' Hk']]; rewrite <- Nat.add_succ_r in *.
  - left. exists (S d). split_and!; [lia|done|]. cbn [takes]. pose proof (rank_bound (run n) h p Hp). pose proof (rank_bound (run (n + d)%nat) h p Hp).
    pose proof (take1_bound h (run (n + d)%nat) (run (S (n + d)))). lia.
  - right. split; [done|]. rewrite Hk', Hk. cbn [takes]. rewrite Nat.add_succ_r. lia.
Qed.

Lemma takes_app h n d e : takes run h n (d + e) = takes run h n d + takes run h (n + d) e.
Proof. induction e as [|e IH]; [rewrite Nat.add_0_r; cbn; lia|]. rewrite Nat.add_succ_r. cbn [takes]. rewrite IH, Nat.add_assoc. lia. Qed.

Lemma takes_nonneg h n d : 0 <= takes run h n d.
Proof. induction d as [|d IH]; [done|]. cbn [takes]. pose proof (take1_bound h (run (n + d)%nat) (run (S (n + d)))). lia. Qed.
End Run.

(** C32. The scheduler is fair.  In every infinite run of the system in which the scheduler of
    some hart keeps taking the locks of slots (so that processes give the hart back, and
    locks are released), every process that becomes RUNNABLE runs: before that scheduler
    has looked at more than [NPROC] + 1 slots. *)
Theorem scheduler_live (run : nat -> kst) (h p : Z) (n : nat) (Hboot : kboot (run O)) (Hstep : forall n, kstep pa (run n) (run (S n)))
    (Hfair : forall n, exists m, (n <= m)%nat /\ scans (k_pc (run m) h) = true /\ scans (k_pc (run (S m)) h) = false)
    (Hp : slot p) (Hready : st_of (run n) p = RUNNABLE) :
  exists d, st_of (run (n + d)%nat) p = RUNNING /\ takes run h n d <= NPROC + 1.
Proof.
  assert (forall k : nat, exists d, Z.of_nat k <= takes run h n d) as Hmany.
  { induction k as [|k [d Hd]]; [by exists O|]. destruct (Hfair (n + d)%nat) as (m & Hm & H1 & H2). exists (S (m - n)). cbn [takes]. replace (n + (m - n))%nat with m by lia.
    unfold take1. rewrite H1, H2. cbn [andb negb]. replace (m - n)%nat with (d + (m - (n + d)))%nat by lia. rewrite takes_app.
    pose proof (takes_nonneg run h (n + d) (m - (n + d))). lia. }
  destruct (Hmany (Z.to_nat (NPROC + 1))) as [d Hd]. destruct (run_walk run Hboot Hstep h p n d Hp Hready) as [(j & _ & Hr & Ht)|[Hr Hk]]; [by exists j|].
  pose proof (rank_bound (run n) h p Hp). pose proof (rank_bound (run (n + d)%nat) h p Hp). unfold NPROC in *. lia.
Qed.
End Theorems.

(** ** One hart, one process that yields whenever it runs *)

Definition lone_proc (st : procstate) : proc := Proc st None 0 false 0 1 0 0 0 0 (Context_ 0 0) (fun _ => 0) 0 [].
Definition lone : kst :=
  Kst (Smp (fun _ => Cpu 0 false false) (fun _ => Spinlock 0 None)) (fun i => lone_proc (if i =? 3 then RUNNABLE else UNUSED))
    (fun _ => None) (fun _ => AtForkret) (fun _ => 0) (fun _ => SLoop).

Lemma lone_boot : kboot lone.
Proof. split; [done|done|]. intros i _. unfold st_of, lone. cbn. destruct (i =? 3); auto. Qed.

Definition policy (c : hpc) : act := match c with PFree _ => AYield | _ => ANone end.
Definition next (s : kst) : kst := match hart_step (fun i => i) 0 (policy (k_pc s 0)) s with Ok (_, s') => s' | _ => s end.
Definition lone_run (n : nat) : kst := Nat.iter n next lone.

Definition yctx (c : kctx) : Prop := match c with AtForkret | AtSched RYield _ => True | _ => False end.
Definition turn (c : hpc) : Prop :=
  match c with
  | SLoop | SAcq _ | SGot _ | SBack _ | SRel _ | PFree _ | PYield _ | PSched _ RYield => True
  | PResume _ c => yctx c
  | _ => False
  end.
Definition until_scan (c : hpc) : nat :=
  match c with
  | SAcq _ => 0 | SLoop => 1 | SRel _ => 2 | SBack _ => 3 | PSched _ _ => 4 | PYield _ => 5 | PFree _ => 6 | PResume _ _ => 7 | _ => 8
  end.

Record lone_inv (s : kst) : Prop := {
  li_inv : kinv s;
  li_others h : h <> 0 -> k_pc s h = SLoop;
  li_turn : turn (k_pc s 0);
  li_ctx i : yctx (k_ctx s i);
}.

Lemma lone_free s lk : lone_inv s -> held (k_pc s 0) = [] -> locks (k_smp s) lk = Spinlock 0 None.
Proof.
  intros [I Ho _ _] H0. destruct (kv_free _ I lk) as [[h Hh]|]; [|done]. exfalso. destruct (decide (h = 0)) as [->|Hne]; [rewrite H0 in Hh|rewrite (Ho h Hne) in Hh]; by apply elem_of_nil in Hh.
Qed.

(** What a step of the hart leaves. *)
Definition lone_step (s s' : kst) : Prop :=
  hart_step (fun i => i) 0 (policy (k_pc s 0)) s = Ok (tt, s') /\ (forall h, h <> 0 -> k_pc s' h = k_pc s h) /\ turn (k_pc s' 0) /\ (forall i, yctx (k_ctx s' i)) /\
  (scans (k_pc s 0) = false -> (until_scan (k_pc s' 0) < until_scan (k_pc s 0))%nat).

Lemma lone_acquire s lk c' : lone_inv s -> held (k_pc s 0) = [] -> hart_step (fun i => i) 0 (policy (k_pc s 0)) s = (on_smp (acquire 0 lk) ;; goto 0 c') s -> turn c' ->
  (scans (k_pc s 0) = false -> (until_scan c' < until_scan (k_pc s 0))%nat) -> exists s', lone_step s s'.
Proof.
  intros L H0 Hs Ht Hm. destruct (kv_cpu _ (li_inv _ L) 0) as [En _]. rewrite H0 in En. cbn in En.
  destruct (acquire_free 0 lk (k_smp s) (lone_free s lk L H0) ltac:(lia)) as (sm & H1 & _). exists (moved s 0 c' sm). split_and!.
  - rewrite Hs. unfold on_smp, bind, zoom. by rewrite H1.
  - intros h Hne. cbn. by rewrite upd_ne.
  - by cbn.
  - apply (li_ctx _ L).
  - by cbn.
Qed.

Lemma lone_release s lk c' : lone_inv s -> held (k_pc s 0) = [lk] -> hart_step (fun i => i) 0 (policy (k_pc s 0)) s = (on_smp (release 0 lk) ;; goto 0 c') s -> turn c' ->
  (scans (k_pc s 0) = false -> (until_scan c' < until_scan (k_pc s 0))%nat) -> exists s', lone_step s s'.
Proof.
  intros L H0 Hs Ht Hm. pose proof (li_inv _ L) as I. destruct (kv_cpu _ I 0) as [En Hi]. rewrite H0 in En, Hi. cbn in En.
  destruct (release_held 0 lk (k_smp s)) as (sm & H1 & _); [apply (kv_lock _ I); rewrite H0; by left|lia|by apply Hi|]. exists (moved s 0 c' sm). split_and!.
  - rewrite Hs. unfold on_smp, bind, zoom. by rewrite H1.
  - intros h Hne. cbn. by rewrite upd_ne.
  - by cbn.
  - apply (li_ctx _ L).
  - by cbn.
Qed.

Lemma lone_resume s p ie : lone_inv s -> k_pc s 0 = PResume p (AtSched RYield ie) -> exists s', lone_step s s'.
Proof.
  intros L E. pose proof (li_inv _ L) as I. destruct (kv_cpu _ I 0) as [En Hi]. rewrite E in En, Hi. cbn in En.
  set (sm := set_cpu 0 (Cpu (noff (cpus (k_smp s) 0)) ie (intr (cpus (k_smp s) 0))) (k_smp s)).
  destruct (release_held 0 p sm) as (sm' & H1 & _).
  - apply (kv_lock _ I). rewrite E. by left.
  - subst sm. cbn. lia.
  - subst sm. cbn. by apply Hi.
  - exists (moved s 0 (PFree p) sm'). unfold lone_step. rewrite E. split_and!; [|intros h Hne; cbn; by rewrite upd_ne|done|apply (li_ctx _ L)|cbn; lia].
    unfold hart_step. mcomp. rewrite E. cbn [thread resumed policy]. mcomp. unfold on_smp, bind, zoom. cbn [k_smp]. fold sm. by rewrite H1.
Qed.

Lemma lone_next s : lone_inv s -> exists s', lone_step s s'.
Proof.
  intros L. pose proof (li_turn _ L) as Ht. pose proof (li_inv _ L) as I.
  assert (forall c, k_pc s 0 = c -> hart_step (fun i => i) 0 (policy c) s = hart_step (fun i => i) 0 (policy (k_pc s 0)) s) as Hp by (by intros c ->).
  destruct (k_pc s 0) as [|k|k|k|k|p| |p| | | | | | | | | |p r|p c| |] eqn:E; try (by destruct Ht).
  - eexists. unfold lone_step. rewrite E. split_and!; [unfold hart_step; mcomp; rewrite E; reflexivity|intros h Hne; cbn; by rewrite upd_ne|done|apply (li_ctx _ L)|cbn; lia].
  - eapply (lone_acquire s k (SGot k) L); rewrite ?E; [done|unfold hart_step; mcomp; by rewrite E|done|done].
  - pose proof (li_ctx _ L) as Hc. unfold lone_step. rewrite E. unfold hart_step, scheduler, sched_try. destruct (procstate_eqb (p_state (k_procs s k)) RUNNABLE) eqn:Er.
    + eexists. split_and!; [mcomp; rewrite E; cbn [policy scheduler thread]; mcomp; rewrite Er; reflexivity|intros h Hne; cbn; by rewrite upd_ne|cbn; apply Hc|exact Hc|cbn; lia].
    + eexists. split_and!; [mcomp; rewrite E; cbn [policy scheduler thread]; mcomp; rewrite Er; reflexivity|intros h Hne; cbn; by rewrite upd_ne|done|exact Hc|cbn; lia].
  - eexists. unfold lone_step. rewrite E. split_and!; [unfold hart_step; mcomp; rewrite E; reflexivity|intros h Hne; cbn; by rewrite upd_ne|done|apply (li_ctx _ L)|cbn; lia].
  - eapply (lone_release s k (if k + 1 <? NPROC then SAcq (k + 1) else SLoop) L); rewrite ?E; [done|unfold hart_step; mcomp; by rewrite E|by destruct (_ <? _)|intros _; destruct (_ <? _); cbn; lia].
  - eapply (lone_acquire s p (PYield p) L); rewrite ?E; [done|unfold hart_step; mcomp; by rewrite E|done|cbn; lia].
  - eexists. unfold lone_step. rewrite E. split_and!; [unfold hart_step; mcomp; rewrite E; reflexivity|intros h Hne; cbn; by rewrite upd_ne|done|apply (li_ctx _ L)|cbn; lia].
  - destruct r; try (by destruct Ht). pose proof (sched_ok s 0 p RYield I E) as Hs. eexists. unfold lone_step. rewrite E.
    split_and!; [unfold hart_step; mcomp; rewrite E; cbn [policy scheduler thread]; exact Hs|intros h Hne; cbn; by rewrite upd_ne|done| |cbn; lia].
    intros i. cbn. unfold upd. destruct (i =? p); [done|apply (li_ctx _ L)].
  - destruct c as [|r ie]; [|destruct r; try (by destruct Ht); by apply (lone_resume s p ie)].
    eapply (lone_release s p (PFree p) L); rewrite ?E; [done|unfold hart_step; mcomp; by rewrite E|done|cbn; lia].
Qed.

Lemma lone_run_inv n : lone_inv (lone_run n) /\ lone_step (lone_run n) (lone_run (S n)).
Proof.
  assert (forall m, lone_inv (lone_run m) -> lone_step (lone_run m) (lone_run (S m))) as Hs.
  { intros m L. destruct (lone_next _ L) as [s' Hs']. assert (lone_run (S m) = s') as ->; [|done]. change (next (lone_run m) = s'). unfold next. by rewrite (proj1 Hs'). }
  assert (lone_inv (lone_run n)) as L; [|by split; [|apply Hs]]. induction n as [|n L].
  - split; [apply boot_inv, lone_boot|done|done|done].
  - destruct (Hs n L) as (H1 & H2 & H3 & H4 & _). pose proof (hart_step_ok (fun i => i) _ 0 (policy (k_pc (lone_run n) 0)) (li_inv _ L)) as F. unfold fine in F. rewrite H1 in F.
    split; [apply F| |done|done]. intros h Hne. rewrite H2 by done. by apply (li_others _ L).
Qed.

Lemma lone_kstep n : kstep (fun i => i) (lone_run n) (lone_run (S n)).
Proof. destruct (lone_run_inv n) as [_ (H & _)]. by eapply k_hart. Qed.

Lemma lone_fair n : exists m, (n <= m)%nat /\ scans (k_pc (lone_run m) 0) = true /\ scans (k_pc (lone_run (S m)) 0) = false.
Proof.
  remember (until_scan (k_pc (lone_run n) 0)) as u eqn:Eu. assert (until_scan (k_pc (lone_run n) 0) <= u)%nat as Hu by lia. clear Eu. revert n Hu.
  induction u as [|u IH]; intros n Hu; destruct (lone_run_inv n) as [L (H & _ & _ & _ & Hm)]; (destruct (scans (k_pc (lone_run n) 0)) eqn:Es;
    [exists n; split_and!; [lia|done|]; by apply (scan_step (fun i => i) (lone_run n) 0 (policy (k_pc (lone_run n) 0)))|]).
  - specialize (Hm eq_refl). lia.
  - specialize (Hm eq_refl). destruct (IH (S n) ltac:(lia)) as (m & Hn & Hm'). exists m. split; [lia|done].
Qed.

Lemma scheduler_live_witness : exists d, st_of (lone_run (0 + d)%nat) 3 = RUNNING /\ takes lone_run 0 0 d <= NPROC + 1.
Proof.
  apply (scheduler_live (fun i => i) lone_run 0 3 0 lone_boot lone_kstep lone_fair); [unfold slot, NPROC; lia|reflexivity].
Defined.

(** The hart of [lone] after 12 steps. *)
Lemma lone_reach n : rtc (kstep (fun i => i)) lone (lone_run n).
Proof. induction n as [|n IH]; [apply rtc_refl|]. eapply rtc_r; [exact IH|apply lone_kstep]. Qed.

Lemma switch_safe_witness : kboot lone /\ forall a msg, hart_step (fun i => i) 0 a (lone_run 12) <> Panic msg.
Proof.
  split; [exact lone_boot|]. destruct (switch_safe (fun i => i) lone (lone_run 12) lone_boot (lone_reach 12)) as (_ & _ & _ & _ & H). exact (H 0).
Defined.
