(* ===== verification/Virtio.v ===== *)
(** * The disk driver, [kernel/virtio_disk.c]

    The driver, the threads that call it and the device.  Descriptors hold addresses of four
    kinds of memory: the header [buf0] on the kernel stack of a thread, the data of a
    [struct buf], the status byte of [disk.info], and null.  A thread's code under
    [vdisk_lock] is one step; [sleep] ends a step with the thread asleep on a channel, and
    [wakeup] makes the threads asleep on the channel go on.  The device does not take the
    lock: it may answer between two iterations of the loop of [virtio_disk_intr], so an
    iteration is a step of its own.  Within a step of a thread the device sees nothing of a
    new request before the last store, to [avail[1]].

    The device is any device that does what the virtio specification says of a block device
    with the legacy interface: the relation [device] below. *)

From S2P Require Import Prelude Riscv Cache.

Definition NUM : Z := 8.
Definition VRING_DESC_F_NEXT : Z := 1.
Definition VRING_DESC_F_WRITE : Z := 2.
Definition VIRTIO_BLK_T_IN : Z := 0.
Definition VIRTIO_BLK_T_OUT : Z := 1.

Inductive maddr := ANull | AHdr (t : Z) | AData (b : Z) | AStatus (i : Z).

(** [struct VRingDesc] and [struct virtio_blk_outhdr] *)
Record vdesc := VDesc { vd_addr : maddr; vd_len : Z; vd_flags : Z; vd_next : Z }.
Record outhdr := OutHdr { oh_type : Z; oh_reserved : Z; oh_sector : Z }.

(** What a thread sleeps on: [&disk.free[0]], or a [struct buf]. *)
Inductive vchan := CFree | CBuf (b : Z).

#[export] Instance vchan_eq_dec : EqDecision vchan.
Proof. solve_decision. Defined.

(** Where a thread is in [virtio_disk_rw(b, write)]: outside; in the loop for descriptors;
    in the loop at its end, with [idx[0]].  [x] and [y] are the contents of the buffer and
    of the block on the disk at the call. *)
Inductive vpc := VIdle | VWant (b : Z) (write : bool) (x y : block) | VWait (b : Z) (write : bool) (x y : block) (i0 : Z).

#[export] Instance vpc_eq_dec : EqDecision vpc.
Proof. solve_decision. Defined.

(** [struct disk] *)
Record drv := Drv {
  v_desc : Z -> vdesc;
  v_avail_idx : Z;              (* avail[1] *)
  v_avail : Z -> Z;             (* avail[2..] *)
  v_free : Z -> bool;
  v_used_idx : Z;
  v_info_b : Z -> option Z;     (* None for a null pointer *)
  v_status : Z -> Z;
}.

(** The device: the blocks, how far it has looked in [avail], the requests it has taken and
    not answered, and the part of the ring that it writes. *)
Record vdev := Vdev { v_disk : Z -> block; v_seen : Z; v_pend : list Z; v_used_id : Z; v_used : Z -> Z }.

Record vst := Vst {
  v_drv : drv;
  v_dev : vdev;
  v_hdr : Z -> outhdr;          (* buf0 of the threads *)
  v_data : Z -> block;          (* b->data *)
  v_bdisk : Z -> Z;             (* b->disk *)
  v_pc : Z -> vpc;
  v_asleep : Z -> option vchan;
}.

Definition mod_drv (f : drv -> drv) : M vst unit :=
  modify (fun s => Vst (f (v_drv s)) (v_dev s) (v_hdr s) (v_data s) (v_bdisk s) (v_pc s) (v_asleep s)).
Definition set_desc (i : Z) (d : vdesc) : M vst unit :=
  mod_drv (fun r => Drv (upd (v_desc r) i d) (v_avail_idx r) (v_avail r) (v_free r) (v_used_idx r) (v_info_b r) (v_status r)).
Definition set_free (i : Z) (v : bool) : M vst unit :=
  mod_drv (fun r => Drv (v_desc r) (v_avail_idx r) (v_avail r) (upd (v_free r) i v) (v_used_idx r) (v_info_b r) (v_status r)).
Definition set_avail (k v : Z) : M vst unit :=
  mod_drv (fun r => Drv (v_desc r) (v_avail_idx r) (upd (v_avail r) k v) (v_free r) (v_used_idx r) (v_info_b r) (v_status r)).
Definition set_avail_idx (v : Z) : M vst unit :=
  mod_drv (fun r => Drv (v_desc r) v (v_avail r) (v_free r) (v_used_idx r) (v_info_b r) (v_status r)).
Definition set_used_idx (v : Z) : M vst unit :=
  mod_drv (fun r => Drv (v_desc r) (v_avail_idx r) (v_avail r) (v_free r) v (v_info_b r) (v_status r)).
Definition set_info_b (i : Z) (v : option Z) : M vst unit :=
  mod_drv (fun r => Drv (v_desc r) (v_avail_idx r) (v_avail r) (v_free r) (v_used_idx r) (upd (v_info_b r) i v) (v_status r)).
Definition set_status (i v : Z) : M vst unit :=
  mod_drv (fun r => Drv (v_desc r) (v_avail_idx r) (v_avail r) (v_free r) (v_used_idx r) (v_info_b r) (upd (v_status r) i v)).
Definition set_hdr (t : Z) (h : outhdr) : M vst unit :=
  modify (fun s => Vst (v_drv s) (v_dev s) (upd (v_hdr s) t h) (v_data s) (v_bdisk s) (v_pc s) (v_asleep s)).
Definition set_bdisk (b v : Z) : M vst unit :=
  modify (fun s => Vst (v_drv s) (v_dev s) (v_hdr s) (v_data s) (upd (v_bdisk s) b v) (v_pc s) (v_asleep s)).
Definition set_vpc (t : Z) (c : vpc) : M vst unit :=
  modify (fun s => Vst (v_drv s) (v_dev s) (v_hdr s) (v_data s) (v_bdisk s) (upd (v_pc s) t c) (v_asleep s)).
Definition vsleep (t : Z) (c : vchan) : M vst unit :=
  modify (fun s => Vst (v_drv s) (v_dev s) (v_hdr s) (v_data s) (v_bdisk s) (v_pc s) (upd (v_asleep s) t (Some c))).
Definition vwakeup (c : vchan) : M vst unit :=
  modify (fun s => Vst (v_drv s) (v_dev s) (v_hdr s) (v_data s) (v_bdisk s) (v_pc s)
    (fun t => if bool_decide (v_asleep s t = Some c) then None else v_asleep s t)).

(** ** Descriptors *)

(** The first free descriptor, or -1. *)
Fixpoint first_free_desc (f : Z -> bool) (l : list Z) : Z :=
  match l with
  | [] => -1
  | i :: l => if f i then i else first_free_desc f l
  end.

Definition alloc_desc : M vst Z :=
  let! i := gets (fun s => first_free_desc (v_free (v_drv s)) (upto NUM)) in
  if i =? -1 then ret (-1)
  else set_free i false ;; ret i.

Definition free_desc (i : Z) : M vst unit :=
  panic_if (NUM <=? i) "virtio_disk_intr 1" ;;
  let! fr := gets (fun s => v_free (v_drv s) i) in
  panic_if fr "virtio_disk_intr 2" ;;
  let! d := gets (fun s => v_desc (v_drv s) i) in
  set_desc i (VDesc ANull (vd_len d) (vd_flags d) (vd_next d)) ;;
  set_free i true ;;
  vwakeup CFree.

(** A chain has at most [NUM] descriptors. *)
Fixpoint free_chain (fuel : nat) (i : Z) : M vst unit :=
  match fuel with
  | O => nofuel
  | S fuel =>
      free_desc i ;;
      let! d := gets (fun s => v_desc (v_drv s) i) in
      if negb (Z.land (vd_flags d) VRING_DESC_F_NEXT =? 0) then free_chain fuel (vd_next d) else ret tt
  end.

(** [None] for the result -1. *)
Definition alloc3_desc : M vst (option (Z * Z * Z)) :=
  let! i0 := alloc_desc in
  if i0 <? 0 then ret None
  else
    let! i1 := alloc_desc in
    if i1 <? 0 then free_desc i0 ;; ret None
    else
      let! i2 := alloc_desc in
      if i2 <? 0 then free_desc i0 ;; free_desc i1 ;; ret None
      else ret (Some (i0, i1, i2)).

Section Driver.
(** [b->blockno] *)
Context (blockno : Z -> Z).

(** The middle part of [virtio_disk_rw]: the descriptors, the entry of the ring, and the
    notification of the device. *)
Definition rw_submit (t b : Z) (write : bool) (i0 i1 i2 : Z) : M vst unit :=
  let sector := u32 (blockno b * (BSIZE / 512)) in
  set_hdr t (OutHdr (if write then VIRTIO_BLK_T_OUT else VIRTIO_BLK_T_IN) 0 sector) ;;
  set_desc i0 (VDesc (AHdr t) 16 VRING_DESC_F_NEXT i1) ;;
  set_desc i1 (VDesc (AData b) BSIZE (Z.lor (if write then 0 else VRING_DESC_F_WRITE) VRING_DESC_F_NEXT) i2) ;;
  set_status i0 0 ;;
  set_desc i2 (VDesc (AStatus i0) 1 VRING_DESC_F_WRITE 0) ;;
  set_bdisk b 1 ;;
  set_info_b i0 (Some b) ;;
  let! n := gets (fun s => v_avail_idx (v_drv s)) in
  set_avail (n mod NUM) i0 ;;
  set_avail_idx (u16 (n + 1)).

(** The loop at the end of [virtio_disk_rw], once. *)
Definition rw_wait (t b i0 : Z) : M vst unit :=
  let! k := gets (fun s => v_bdisk s b) in
  if k =? 1 then vsleep t (CBuf b)
  else
    set_info_b i0 None ;;
    free_chain 8 i0 ;;
    set_vpc t VIdle.

(** A step of the thread [t] in [virtio_disk_rw]. *)
Definition virtio_disk_rw (t : Z) : M vst unit :=
  let! sl := gets (fun s => v_asleep s t) in
  let! pc := gets (fun s => v_pc s t) in
  match sl, pc with
  | None, VWant b write x y =>
      let! r := alloc3_desc in
      match r with
      | None => vsleep t CFree
      | Some (i0, i1, i2) =>
          rw_submit t b write i0 i1 i2 ;;
          set_vpc t (VWait b write x y i0) ;;
          rw_wait t b i0
      end
  | None, VWait b write x y i0 => rw_wait t b i0
  | _, _ => blocked
  end.

(** An iteration of the loop of [virtio_disk_intr]; [false] when its condition is false. *)
Definition intr_body : M vst bool :=
  let! ui := gets (fun s => v_used_idx (v_drv s)) in
  let! uid := gets (fun s => v_used_id (v_dev s)) in
  if ui mod NUM =? uid mod NUM then ret false
  else
    let! id := gets (fun s => v_used (v_dev s) ui) in
    let! st := gets (fun s => v_status (v_drv s) id) in
    panic_if (negb (st =? 0)) "virtio_disk_intr status" ;;
    let! ob := gets (fun s => v_info_b (v_drv s) id) in
    match ob with
    | None => panic "virtio_disk_intr: null pointer"
    | Some b =>
        set_bdisk b 0 ;;
        vwakeup (CBuf b) ;;
        set_used_idx ((ui + 1) mod NUM) ;;
        ret true
    end.

(** The whole handler, when the device is quiet: fewer than [NUM] answers are in the ring. *)
Fixpoint intr_loop (fuel : nat) : M vst unit :=
  let! more := intr_body in
  if more then match fuel with O => nofuel | S fuel => intr_loop fuel end else ret tt.

Definition virtio_disk_intr : M vst unit := intr_loop 8.
End Driver.

(** ** The device *)

(** The three descriptors of a request of a block device, by their addresses. *)
Definition request (r : drv) (head : Z) (a0 a1 a2 : maddr) (dev_writes : bool) : Prop :=
  exists i1 i2 f1, v_desc r head = VDesc a0 16 VRING_DESC_F_NEXT i1 /\
    v_desc r i1 = VDesc a1 BSIZE f1 i2 /\ Z.land f1 VRING_DESC_F_NEXT <> 0 /\ (dev_writes = true <-> Z.land f1 VRING_DESC_F_WRITE <> 0) /\
    exists n2, v_desc r i2 = VDesc a2 1 VRING_DESC_F_WRITE n2.

(** The state in which the request [head] has been answered. *)
Definition answered (s : vst) (head k : Z) (disk' : Z -> block) (data' : Z -> block) : vst :=
  let r := v_drv s in let e := v_dev s in
  Vst (Drv (v_desc r) (v_avail_idx r) (v_avail r) (v_free r) (v_used_idx r) (v_info_b r) (upd (v_status r) k 0))
    (Vdev disk' (v_seen e) (filter (fun h => h <> head) (v_pend e)) (u16 (v_used_id e + 1)) (upd (v_used e) (v_used_id e mod NUM) head))
    (v_hdr s) data' (v_bdisk s) (v_pc s) (v_asleep s).

(** The device takes the next entry of [avail], or it answers a request that it has taken: in
    any order, by reading or writing the block, with status 0. *)
Inductive device : vst -> vst -> Prop :=
| dev_fetch s : let r := v_drv s in let e := v_dev s in v_seen e <> v_avail_idx r ->
    device s (Vst r (Vdev (v_disk e) (u16 (v_seen e + 1)) (v_pend e ++ [v_avail r (v_seen e mod NUM)]) (v_used_id e) (v_used e))
      (v_hdr s) (v_data s) (v_bdisk s) (v_pc s) (v_asleep s))
| dev_write s head t b k : head ∈ v_pend (v_dev s) -> request (v_drv s) head (AHdr t) (AData b) (AStatus k) false ->
    oh_type (v_hdr s t) = VIRTIO_BLK_T_OUT ->
    device s (answered s head k (upd (v_disk (v_dev s)) (oh_sector (v_hdr s t) / 2) (v_data s b)) (v_data s))
| dev_read s head t b k : head ∈ v_pend (v_dev s) -> request (v_drv s) head (AHdr t) (AData b) (AStatus k) true ->
    oh_type (v_hdr s t) = VIRTIO_BLK_T_IN ->
    device s (answered s head k (v_disk (v_dev s)) (upd (v_data s) b (v_disk (v_dev s) (oh_sector (v_hdr s t) / 2)))).

(** ** Initialisation *)

(** The stores to the registers of the device, and the driver.  [mmio] is what the device
    gives for a read of a register, [pages] the address of [disk.pages]. *)
Definition vini : Type := list (Z * Z) * vst.
Definition wreg (r v : Z) : M vini unit := modify (fun '(l, s) => (l ++ [(r, u32 v)], s)).

Definition clear_bit (x n : Z) : Z := Z.land x (Z.lnot (Z.shiftl 1 n)).

(** [memset(disk.pages, 0, ...)]: the descriptors and both rings; then [disk.free]. *)
Definition zero_rings (s : vst) : vst :=
  let r := v_drv s in let e := v_dev s in
  Vst (Drv (fun _ => VDesc ANull 0 0 0) 0 (fun _ => 0) (v_free r) (v_used_idx r) (v_info_b r) (v_status r))
    (Vdev (v_disk e) (v_seen e) (v_pend e) 0 (fun _ => 0)) (v_hdr s) (v_data s) (v_bdisk s) (v_pc s) (v_asleep s).

Definition virtio_disk_init (mmio : Z -> Z) (pages : Z) : M vini unit :=
  panic_if (negb (mmio 0x000 =? 0x74726976) || negb (mmio 0x004 =? 1) || negb (mmio 0x008 =? 2) || negb (mmio 0x00c =? 0x554d4551))
    "could not find virtio disk" ;;
  wreg 0x070 1 ;;
  wreg 0x070 (Z.lor 1 2) ;;
  wreg 0x020 (fold_left clear_bit [5; 7; 11; 12; 27; 29; 28] (mmio 0x010)) ;;
  wreg 0x070 (Z.lor (Z.lor 1 2) 8) ;;
  wreg 0x070 (Z.lor (Z.lor (Z.lor 1 2) 8) 4) ;;
  wreg 0x028 PGSIZE ;;
  wreg 0x030 0 ;;
  let max := mmio 0x034 in
  panic_if (max =? 0) "virtio disk has no queue 0" ;;
  panic_if (max <? NUM) "virtio disk max queue too short" ;;
  wreg 0x038 NUM ;;
  modify (fun '(l, s) => (l, zero_rings s)) ;;
  wreg 0x040 (Z.shiftr pages 12) ;;
  mfor (upto NUM) (fun i => zoom snd (fun v s => (fst s, v)) (set_free i true)).
