(* ===== verification/VirtioSpec.v ===== *)
(** * The invariant of the disk driver

    What holds between the steps of the threads, of the interrupt handler and of the device:
    who owns the descriptors, what is in the rings, and how far each request is. *)

From S2P Require Import Prelude Riscv Cache Virtio Ring.

(** ** Rings *)

Lemma u16_bound z : 0 <= u16 z < 65536.
Proof. unfold u16. apply Z.mod_pos_bound. lia. Qed.

Lemma u16_num z : u16 z mod NUM = z mod NUM.
Proof. unfold u16, NUM. dlia. Qed.

Lemma u16_add a b : u16 (u16 a + b) = u16 (a + b).
Proof. unfold u16. by rewrite Zplus_mod_idemp_l. Qed.

(** ** Free descriptors *)

Definition nfree (f : Z -> bool) : nat := length (filter (fun i => f i = true) (upto NUM)).

Lemma first_free_none f (l : list Z) : first_free_desc f l = -1 -> Forall (fun i => 0 <= i) l -> filter (fun i => f i = true) l = [].
Proof.
  induction l as [|i l IH]; [done|]. cbn [first_free_desc]. intros H [Hi Hl]%Forall_cons. destruct (f i) eqn:E; [lia|].
  rewrite filter_cons_False by congruence. by apply IH.
Qed.

Lemma first_free_some f l : first_free_desc f l <> -1 -> first_free_desc f l ∈ l /\ f (first_free_desc f l) = true.
Proof.
  induction l as [|i l IH]; [done|]. cbn [first_free_desc]. destruct (f i) eqn:E; [by split; [left|]|].
  intros H. destruct (IH H). split; [by right|done].
Qed.

Lemma filter_same (f g : Z -> bool) (l : list Z) : (forall i, i ∈ l -> f i = g i) -> filter (fun i => f i = true) l = filter (fun i => g i = true) l.
Proof.
  induction l as [|i l IH]; intros E; [done|]. assert (f i = g i) as Ei by (apply E; by left). rewrite !filter_cons, Ei, IH; [done|]. intros j Hj. apply E. by right.
Qed.

Lemma free_count_ext f g : (forall i, 0 <= i < NUM -> f i = g i) -> nfree f = nfree g.
Proof.
  intros E. unfold nfree. f_equal. apply filter_same. intros i Hi%elem_of_upto. by apply E.
Qed.

Lemma filter_take f i (l : list Z) : NoDup l -> i ∈ l -> f i = true ->
  length (filter (fun j => f j = true) l) = S (length (filter (fun j => upd f i false j = true) l)).
Proof.
  induction l as [|j l IH]; [by intros _ ?%elem_of_nil|]. intros [Hj Hnd]%NoDup_cons Hi Hf. destruct (decide (i = j)) as [->|Hne].
  - rewrite filter_cons_True by done. rewrite filter_cons_False by by rewrite upd_eq. cbn. do 2 f_equal. apply filter_same.
    intros k Hk. rewrite upd_ne; [done|]. by intros ->.
  - apply elem_of_cons in Hi as [|Hi]; [done|]. destruct (f j) eqn:Ej.
    + rewrite !filter_cons_True by (by rewrite ?upd_ne by congruence). cbn. f_equal. by apply IH.
    + rewrite !filter_cons_False by (rewrite ?upd_ne by congruence; congruence). by apply IH.
Qed.

Lemma nfree_take f i : 0 <= i < NUM -> f i = true -> nfree f = S (nfree (upd f i false)).
Proof. intros Hi Hf. apply filter_take; [apply NoDup_upto|by apply elem_of_upto|done]. Qed.

(** [alloc_desc] takes a free descriptor, or there is none. *)
Lemma alloc_desc_run s :
  (nfree (v_free (v_drv s)) = O /\ alloc_desc s = Ok (-1, s)) \/
  (exists i s', 0 <= i < NUM /\ v_free (v_drv s) i = true /\ alloc_desc s = Ok (i, s') /\ set_free i false s = Ok (tt, s')).
Proof.
  unfold alloc_desc. mcomp. destruct (_ =? -1) eqn:E; bsplit.
  - left. split; [|done]. unfold nfree. rewrite first_free_none; [done..|]. apply Forall_forall. intros i Hi%elem_of_upto. lia.
  - right. destruct (first_free_some _ _ E) as [Hi%elem_of_upto Hf]. eexists _, _. split_and!; [apply Hi..|done|reflexivity|reflexivity].
Qed.

(** ** The invariant *)

(** The descriptors of the request [h]. *)
Definition next1 (r : drv) (h : Z) : Z := vd_next (v_desc r h).
Definition next2 (r : drv) (h : Z) : Z := vd_next (v_desc r (next1 r h)).
Definition chain (r : drv) (h : Z) : list Z := [h; next1 r h; next2 r h].

(** The buffer that a thread has given to the driver. *)
Definition uses (c : vpc) : option Z :=
  match c with VIdle => None | VWant b _ _ _ => Some b | VWait b _ _ _ _ => Some b end.

(** The descriptors of a request are formatted, and taken. *)
Record chain_ok (r : drv) (t b : Z) (w : bool) (h : Z) : Prop := {
  wo_desc0 : v_desc r h = VDesc (AHdr t) 16 VRING_DESC_F_NEXT (next1 r h);
  wo_desc1 : v_desc r (next1 r h) = VDesc (AData b) BSIZE (Z.lor (if w then 0 else VRING_DESC_F_WRITE) VRING_DESC_F_NEXT) (next2 r h);
  wo_desc2 : v_desc r (next2 r h) = VDesc (AStatus h) 1 VRING_DESC_F_WRITE 0;
  wo_nodup : NoDup (chain r h);
  wo_taken i : i ∈ chain r h -> 0 <= i < NUM /\ v_free r i = false;
}.

Section Inv.
Context (blockno : Z -> Z).

(** The request of a thread that waits for it. *)
Record wait_ok (s : vst) (t b : Z) (w : bool) (h : Z) : Prop := {
  wo_chain :> chain_ok (v_drv s) t b w h;
  wo_info : v_info_b (v_drv s) h = Some b;
  wo_status : v_status (v_drv s) h = 0;
  wo_hdr : v_hdr s t = OutHdr (if w then VIRTIO_BLK_T_OUT else VIRTIO_BLK_T_IN) 0 (u32 (blockno b * (BSIZE / 512)));
  wo_bdisk : v_bdisk s b = 0 \/ v_bdisk s b = 1;
}.

(** Before the answer the buffer and the block are as at the call; after it both hold what was
    to be transferred. *)
Definition data_ok (s : vst) (Q : list Z) (c : vpc) : Prop :=
  match c with
  | VIdle => True
  | VWant b w x y => v_data s b = x /\ v_disk (v_dev s) (blockno b) = y
  | VWait b w x y h =>
      if decide (h ∈ Q ++ v_pend (v_dev s)) then v_data s b = x /\ v_disk (v_dev s) (blockno b) = y
      else v_data s b = (if w then x else y) /\ v_disk (v_dev s) (blockno b) = (if w then x else y)
  end.

(** A thread sleeps only as long as what it waits for has not happened. *)
Definition sleep_ok (s : vst) (c : vpc) (ch : vchan) : Prop :=
  match ch with
  | CFree => (exists b w x y, c = VWant b w x y) /\ (nfree (v_free (v_drv s)) < 3)%nat
  | CBuf b => (exists w x y h, c = VWait b w x y h) /\ v_bdisk s b = 1
  end.

(** [Q] are the requests that the device has not seen, [U] the answers that the driver has
    not seen. *)
Record vinv (s : vst) (Q U : list Z) : Prop := {
  vi_wait t b w x y h : v_pc s t = VWait b w x y h -> wait_ok s t b w h;
  vi_disj t t' b b' w w' x x' y y' h h' i : v_pc s t = VWait b w x y h -> v_pc s t' = VWait b' w' x' y' h' -> t <> t' ->
    i ∈ chain (v_drv s) h -> i ∉ chain (v_drv s) h';
  vi_own i : 0 <= i < NUM -> v_free (v_drv s) i = false -> exists t b w x y h, v_pc s t = VWait b w x y h /\ i ∈ chain (v_drv s) h;
  vi_excl t t' b b' : uses (v_pc s t) = Some b -> uses (v_pc s t') = Some b' -> t <> t' -> blockno b <> blockno b';
  vi_seen : 0 <= v_seen (v_dev s) < 65536;
  vi_avail : v_avail_idx (v_drv s) = u16 (v_seen (v_dev s) + Z.of_nat (length Q));
  vi_availr : ring NUM (v_avail (v_drv s)) (v_seen (v_dev s)) Q;
  vi_uidx : 0 <= v_used_idx (v_drv s) < NUM;
  vi_used : v_used_id (v_dev s) mod NUM = (v_used_idx (v_drv s) + Z.of_nat (length U)) mod NUM;
  vi_usedr : ring NUM (v_used (v_dev s)) (v_used_idx (v_drv s)) U;
  vi_nodup : NoDup (Q ++ v_pend (v_dev s) ++ U);
  vi_heads h : h ∈ Q ++ v_pend (v_dev s) ++ U <-> exists t b w x y, v_pc s t = VWait b w x y h /\ v_bdisk s b = 1;
  vi_data t : data_ok s Q (v_pc s t);
  vi_sleep t ch : v_asleep s t = Some ch -> sleep_ok s (v_pc s t) ch;
}.

Context (Hblk : forall b, 0 <= blockno b < 2 ^ 31).

Lemma sector_block b : u32 (blockno b * (BSIZE / 512)) / 2 = blockno b.
Proof. pose proof (Hblk b). change (BSIZE / 512) with 2. rewrite u32_small by lia. by rewrite Z.div_mul. Qed.

Lemma same_head s Q U t t' b b' w w' x x' y y' h : vinv s Q U -> v_pc s t = VWait b w x y h -> v_pc s t' = VWait b' w' x' y' h -> t = t'.
Proof. intros I H H'. destruct (decide (t = t')) as [|Hne]; [done|]. exfalso. eapply (vi_disj _ _ _ I _ _ _ _ _ _ _ _ _ _ _ _ h H H' Hne); by left. Qed.

Lemma same_buf s Q U t t' b : vinv s Q U -> uses (v_pc s t) = Some b -> uses (v_pc s t') = Some b -> t = t'.
Proof. intros I H H'. destruct (decide (t = t')) as [|Hne]; [done|]. by destruct (vi_excl _ _ _ I _ _ _ _ H H' Hne). Qed.

(** The heads of different requests have different descriptors, so there are at most two. *)
Lemma heads_chains s Q U l : vinv s Q U -> NoDup l -> (forall h, h ∈ l -> h ∈ Q ++ v_pend (v_dev s) ++ U) ->
  NoDup (l ≫= chain (v_drv s)) /\ forall i, i ∈ l ≫= chain (v_drv s) -> i ∈ upto NUM.
Proof.
  intros I. induction l as [|h l IH]; intros Hnd Hin; [split; [constructor|by intros i ?%elem_of_nil]|]. apply NoDup_cons in Hnd as [Hh Hnd].
  destruct IH as [IH1 IH2]; [done|intros; apply Hin; by right|]. destruct (proj1 (vi_heads _ _ _ I h)) as (t & b & w & x & y & Hpc & _); [apply Hin; by left|].
  pose proof (vi_wait _ _ _ I _ _ _ _ _ _ Hpc) as W. rewrite bind_cons. split.
  - apply NoDup_app. split_and!; [apply W| |done]. intros i Hi (h' & Hi' & Hl)%list_elem_of_bind.
    destruct (proj1 (vi_heads _ _ _ I h')) as (t' & b' & w' & x' & y' & Hpc' & _); [apply Hin; by right|].
    destruct (decide (t = t')) as [->|Hne]; [congruence|]. by apply (vi_disj _ _ _ I _ _ _ _ _ _ _ _ _ _ _ _ i Hpc Hpc' Hne Hi).
  - intros i [Hi|Hi]%elem_of_app; [|by apply IH2]. apply elem_of_upto. by apply (wo_taken _ _ _ _ _ W).
Qed.

Lemma few_heads s Q U : vinv s Q U -> (length Q + length (v_pend (v_dev s)) + length U <= 2)%nat.
Proof.
  intros I. destruct (heads_chains s Q U _ I (vi_nodup _ _ _ I)) as [H1 H2]; [done|]. pose proof (submseteq_length _ _ (NoDup_submseteq _ _ H1 H2)) as H.
  assert (forall l, length (l ≫= chain (v_drv s)) = 3 * length l)%nat as E by (induction l as [|h l IH]; [done|]; rewrite bind_cons, length_app, IH; cbn; lia).
  rewrite E, !length_app, length_upto in H. change (Z.to_nat NUM) with 8%nat in H. lia.
Qed.

(** ** The device *)

Lemma data_frame s s' Q Q' c : data_ok s Q c ->
  (forall b, uses c = Some b -> v_data s' b = v_data s b /\ v_disk (v_dev s') (blockno b) = v_disk (v_dev s) (blockno b)) ->
  (forall b w x y h, c = VWait b w x y h -> h ∈ Q' ++ v_pend (v_dev s') <-> h ∈ Q ++ v_pend (v_dev s)) -> data_ok s' Q' c.
Proof.
  intros D Hb Hh. destruct c as [|b w x y|b w x y h]; [done| |]; cbn in *; destruct (Hb b eq_refl) as [-> ->]; [done|].
  specialize (Hh b w x y h eq_refl). destruct (decide (h ∈ Q ++ _)), (decide (h ∈ Q' ++ _)); tauto.
Qed.

(** A wait goes on if a step leaves alone what belongs to it. *)
Lemma wait_frame s s' t b w h : wait_ok s t b w h ->
  (forall i, i ∈ chain (v_drv s) h -> v_desc (v_drv s') i = v_desc (v_drv s) i /\ v_free (v_drv s') i = v_free (v_drv s) i) ->
  v_info_b (v_drv s') h = v_info_b (v_drv s) h -> v_status (v_drv s') h = 0 -> v_hdr s' t = v_hdr s t ->
  v_bdisk s' b = 0 \/ v_bdisk s' b = 1 -> wait_ok s' t b w h /\ chain (v_drv s') h = chain (v_drv s) h.
Proof.
  intros W Hd Hi Hs Hh Hb. destruct (Hd h) as [E0 _]; [by left|]. destruct (Hd (next1 (v_drv s) h)) as [E1 _]; [by right; left|]. destruct (Hd (next2 (v_drv s) h)) as [E2 _]; [by right; right; left|].
  assert (next1 (v_drv s') h = next1 (v_drv s) h) as N1 by (unfold next1; by rewrite E0).
  assert (next2 (v_drv s') h = next2 (v_drv s) h) as N2 by (unfold next2; by rewrite N1, E1).
  assert (chain (v_drv s') h = chain (v_drv s) h) as C by (unfold chain; by rewrite N1, N2). split; [|done]. split; [|by rewrite Hi; apply W|done|by rewrite Hh; apply W|done].
  split; rewrite ?C, ?N1, ?N2, ?E0, ?E1, ?E2; try apply W. intros i Hin. destruct (Hd i Hin) as [_ ->]. by apply W.
Qed.

(** A request that the device has is the one of the thread that waits for it. *)
Lemma request_of s Q U h t b k dw : vinv s Q U -> h ∈ v_pend (v_dev s) -> request (v_drv s) h (AHdr t) (AData b) (AStatus k) dw ->
  exists w x y, v_pc s t = VWait b w x y h /\ v_bdisk s b = 1 /\ k = h /\ dw = negb w.
Proof.
  intros I Hh (i1 & i2 & f1 & D0 & D1 & _ & Hw & n2 & D2). destruct (proj1 (vi_heads _ _ _ I h)) as (t' & b' & w & x & y & Hpc & Hb); [set_solver|].
  pose proof (vi_wait _ _ _ I _ _ _ _ _ _ Hpc) as W. pose proof (wo_desc0 _ _ _ _ _ W) as E0. rewrite D0 in E0. injection E0 as -> ->.
  pose proof (wo_desc1 _ _ _ _ _ W) as E1. rewrite D1 in E1. injection E1 as -> -> ->. pose proof (wo_desc2 _ _ _ _ _ W) as E2. rewrite D2 in E2. injection E2 as -> _.
  exists w, x, y. split_and!; [done..|]. destruct w, dw; try done; cbn in Hw; destruct Hw as [Hw1 Hw2]; [by destruct Hw1|]. by discriminate Hw2.
Qed.

(** Every request that the device has taken is well formed. *)
Lemma request_there s Q U h : vinv s Q U -> h ∈ v_pend (v_dev s) ->
  exists t b w x y, v_pc s t = VWait b w x y h /\ request (v_drv s) h (AHdr t) (AData b) (AStatus h) (negb w) /\
    v_hdr s t = OutHdr (if w then VIRTIO_BLK_T_OUT else VIRTIO_BLK_T_IN) 0 (blockno b * 2).
Proof.
  intros I Hh. destruct (proj1 (vi_heads _ _ _ I h)) as (t & b & w & x & y & Hpc & _); [set_solver|]. pose proof (vi_wait _ _ _ I _ _ _ _ _ _ Hpc) as W.
  exists t, b, w, x, y. split; [done|]. split.
  - eexists _, _, _. split; [apply W|]. split; [apply W|]. split; [by destruct w|]. split; [by destruct w|]. eexists. apply W.
  - rewrite (wo_hdr _ _ _ _ _ W). pose proof (Hblk b). change (BSIZE / 512) with 2. by rewrite u32_small by lia.
Qed.

Lemma answered_inv s Q U t b w x y h disk' data' : vinv s Q U -> h ∈ v_pend (v_dev s) -> v_pc s t = VWait b w x y h -> v_bdisk s b = 1 ->
  (forall n, n <> blockno b -> disk' n = v_disk (v_dev s) n) -> (forall b', b' <> b -> data' b' = v_data s b') ->
  data' b = (if w then x else y) -> disk' (blockno b) = (if w then x else y) ->
  vinv (answered s h h disk' data') Q (U ++ [h]).
Proof.
  intros I Hh Hpc Hb Hdisk Hdata Hx Hy. pose proof (few_heads s Q U I) as Hfew. pose proof (vi_nodup _ _ _ I) as Hnd.
  assert (h ∉ Q /\ h ∉ U) as [HQ HU] by (apply NoDup_app in Hnd as (_ & Hq & (_ & Hp & _)%NoDup_app); split; [intros Hq'; apply (Hq h Hq'); set_solver|by apply Hp]).
  assert (Q ++ filter (fun h' => h' <> h) (v_pend (v_dev s)) ++ U ++ [h] ≡ₚ Q ++ v_pend (v_dev s) ++ U) as HP.
  { apply Permutation_app_head. rewrite (Permutation_app_comm U), app_assoc. apply Permutation_app_tail. apply NoDup_app in Hnd as (_ & _ & (Hp & _ & _)%NoDup_app).
    apply NoDup_Permutation; [|done|].
    - apply NoDup_app. split_and!; [by apply NoDup_filter| |apply NoDup_singleton]. intros i [? _]%list_elem_of_filter. set_solver.
    - intros i. rewrite elem_of_app, list_elem_of_filter, list_elem_of_singleton. destruct (decide (i = h)) as [->|]; tauto. }
  split; cbn [answered v_drv v_dev v_pc v_bdisk v_asleep v_seen v_avail_idx v_avail v_used_idx v_used_id v_used v_pend v_free].
  - intros t' b' w' x' y' h' Hpc'. pose proof (vi_wait _ _ _ I _ _ _ _ _ _ Hpc') as W. eapply wait_frame; [exact W|by intros|done| |done|apply W].
    cbn. unfold upd. destruct (_ =? _); [done|apply W].
  - apply I.
  - apply I.
  - apply I.
  - apply I.
  - apply I.
  - apply I.
  - apply I.
  - rewrite u16_num, length_app, Nat2Z.inj_add. cbn [length]. rewrite <- Zplus_mod_idemp_l, (vi_used _ _ _ I), Zplus_mod_idemp_l. f_equal. lia.
  - apply ring_push; [done|apply I|unfold NUM; lia|apply I].
  - by rewrite HP.
  - intros i. rewrite HP. apply I.
  - intros t'. destruct (decide (t' = t)) as [->|Hne].
    + rewrite Hpc. cbn. rewrite decide_False; [done|]. rewrite elem_of_app, list_elem_of_filter. tauto.
    + eapply data_frame; [apply (vi_data _ _ _ I t')| |]; cbn.
      * intros b' Hu. assert (blockno b' <> blockno b) by (eapply (vi_excl _ _ _ I t' t); [done|by rewrite Hpc|done]). split; [apply Hdata; congruence|by apply Hdisk].
      * intros b' w' x' y' h' Hpc'. rewrite !elem_of_app, list_elem_of_filter. assert (h' <> h); [|tauto]. intros ->. by destruct Hne; eapply same_head.
  - apply I.
Qed.

Lemma device_inv s s' Q U : vinv s Q U -> device s s' -> exists Q' U', vinv s' Q' U'.
Proof.
  intros I H. revert I. destruct H as [s r e Hne|s h t b k Hh R Ht|s h t b k Hh R Ht]; intros I.
  - destruct Q as [|q Q]. { destruct Hne. subst r e. rewrite (vi_avail _ _ _ I), Z.add_0_r. unfold u16. rewrite Z.mod_small; [done|apply I]. }
    destruct (ring_pop NUM _ _ _ _ (vi_availr _ _ _ I)) as [Hq HQ]. subst r e. rewrite Hq. exists Q, U.
    assert (Q ++ (v_pend (v_dev s) ++ [q]) ++ U ≡ₚ (q :: Q) ++ v_pend (v_dev s) ++ U) as HP by solve_Permutation.
    split; cbn [v_drv v_dev v_pc v_bdisk v_asleep v_seen v_used_id v_used v_pend]; try apply I.
    + intros * Hpc. destruct (vi_wait _ _ _ I _ _ _ _ _ _ Hpc). by split.
    + apply u16_bound.
    + rewrite u16_add, (vi_avail _ _ _ I). f_equal. cbn [length]. lia.
    + eapply ring_start; [|exact HQ]. by rewrite u16_num.
    + rewrite HP. apply I.
    + intros h. rewrite HP. apply I.
    + intros t. eapply data_frame; [apply (vi_data _ _ _ I t)|done|]. intros. cbn. set_solver.
  - destruct (request_of _ _ _ _ _ _ _ _ I Hh R) as (w & x & y & Hpc & Hb & -> & Hw). destruct w; [|done]. pose proof (vi_wait _ _ _ I _ _ _ _ _ _ Hpc) as W.
    rewrite (wo_hdr _ _ _ _ _ W). cbn [oh_sector]. rewrite sector_block. exists Q, (U ++ [h]). pose proof (vi_data _ _ _ I t) as D. rewrite Hpc in D. cbn in D. rewrite decide_True in D by set_solver.
    eapply answered_inv; [done..| | | |]; [intros; by rewrite upd_ne|done|apply D|rewrite upd_eq; apply D].
  - destruct (request_of _ _ _ _ _ _ _ _ I Hh R) as (w & x & y & Hpc & Hb & -> & Hw). destruct w; [done|]. pose proof (vi_wait _ _ _ I _ _ _ _ _ _ Hpc) as W.
    rewrite (wo_hdr _ _ _ _ _ W). cbn [oh_sector]. rewrite sector_block. exists Q, (U ++ [h]). pose proof (vi_data _ _ _ I t) as D. rewrite Hpc in D. cbn in D. rewrite decide_True in D by set_solver.
    eapply answered_inv; [done..| | | |]; [done|intros; by rewrite upd_ne|rewrite upd_eq; apply D|apply D].
Qed.

(** ** The interrupt handler *)

(** An iteration takes the oldest answer. *)
Lemma intr_body_inv s Q U : vinv s Q U ->
  match U with
  | [] => intr_body s = Ok (false, s)
  | u :: U' => exists s', intr_body s = Ok (true, s') /\ vinv s' Q U'
  end.
Proof using.
  clear Hblk.
  intros I. pose proof (few_heads s Q U I) as Hfew. pose proof (vi_used _ _ _ I) as Hu. pose proof (vi_uidx _ _ _ I) as Hui. destruct U as [|u U]; unfold intr_body; mcomp; mcomp.
  { rewrite Hu. cbn [length]. by rewrite Z.add_0_r, Z.eqb_refl. }
  destruct (ring_pop NUM _ _ _ _ (vi_usedr _ _ _ I)) as [Hid HU]. rewrite Z.mod_small in Hid by done.
  destruct (proj1 (vi_heads _ _ _ I u)) as (t & b & w & x & y & Hpc & Hb); [set_solver|]. pose proof (vi_wait _ _ _ I _ _ _ _ _ _ Hpc) as W.
  rewrite Hu, (proj2 (Z.eqb_neq _ _)) by (cbn [length] in *; unfold NUM in *; dlia). mcomp. rewrite Hid. mcomp. rewrite (wo_status _ _ _ _ _ W). cbn [Z.eqb negb]. mcomp. mcomp.
  rewrite (wo_info _ _ _ _ _ W). eexists. split; [mcomp; mcomp; mcomp; reflexivity|]. pose proof (vi_nodup _ _ _ I) as Hnd.
  assert (Q ++ v_pend (v_dev s) ++ u :: U ≡ₚ u :: Q ++ v_pend (v_dev s) ++ U) as HP by solve_Permutation. rewrite HP in Hnd. apply NoDup_cons in Hnd as [Hnu Hnd].
  assert (forall t' b' w' x' y' h', v_pc s t' = VWait b' w' x' y' h' -> b' = b <-> h' = u) as Hbu.
  { intros t' b' w' x' y' h' Hpc'. split; intros ->.
    - assert (t' = t) as -> by (eapply same_buf; [exact I|by rewrite Hpc'|by rewrite Hpc]). congruence.
    - assert (t' = t) as -> by (eapply same_head; eassumption). congruence. }
  split; cbn; try apply I; try done.
  - intros t' b' w' x' y' h' Hpc'. pose proof (vi_wait _ _ _ I _ _ _ _ _ _ Hpc') as W'. eapply wait_frame; [exact W'|by intros|done|apply W'|done|]. cbn. unfold upd. destruct (_ =? _); [by left|apply W'].
  - apply Z.mod_pos_bound. by unfold NUM.
  - rewrite Hu, Zplus_mod_idemp_l. f_equal. cbn [length]. lia.
  - eapply ring_start; [|exact HU]. by rewrite Z.mod_mod.
  - intros h. split.
    + intros Hh. destruct (proj1 (vi_heads _ _ _ I h)) as (t' & b' & w' & x' & y' & Hpc' & Hb'); [rewrite HP; by right|]. exists t', b', w', x', y'. split; [done|].
      rewrite upd_ne; [done|]. intros E%(Hbu _ _ _ _ _ _ Hpc'). by subst.
    + intros (t' & b' & w' & x' & y' & Hpc' & Hb'). destruct (decide (b' = b)) as [->|Hne]; [by rewrite upd_eq in Hb'|]. rewrite upd_ne in Hb' by done.
      assert (h ∈ Q ++ v_pend (v_dev s) ++ u :: U) as Hh by (apply (vi_heads _ _ _ I); by exists t', b', w', x', y'). rewrite HP in Hh. apply elem_of_cons in Hh as [->|]; [|done].
      by destruct Hne; apply (Hbu _ _ _ _ _ _ Hpc').
  - intros t' ch. case_bool_decide as E; [done|]. intros Hch. pose proof (vi_sleep _ _ _ I _ _ Hch) as S. destruct ch as [|b']; [done|]. cbn in *. rewrite upd_ne; [done|]. congruence.
Qed.

Lemma intr_loop_inv U : forall s Q fuel, (length U <= fuel)%nat -> vinv s Q U -> exists s', intr_loop fuel s = Ok (tt, s') /\ vinv s' Q [].
Proof using.
  clear Hblk.
  induction U as [|u U IH]; intros s Q fuel Hf I; pose proof (intr_body_inv _ _ _ I) as H; cbv iota in H.
  - exists s. split; [|done]. destruct fuel; cbn [intr_loop]; by rewrite (bind_ok _ _ _ _ _ H).
  - destruct H as (s1 & H & I1). destruct fuel as [|fuel]; [cbn in Hf; lia|]. destruct (IH s1 Q fuel) as (s2 & H2 & I2); [cbn in Hf; lia|done|].
    exists s2. split; [|done]. cbn [intr_loop]. by rewrite (bind_ok _ _ _ _ _ H).
Qed.
End Inv.

(** ** Steps on descriptors *)

(** [s'] differs from [s] in the descriptors [l], and in that threads that were asleep for a
    descriptor may be awake. *)
Record touch (s s' : vst) (l : list Z) : Prop := {
  to_desc i : i ∉ l -> v_desc (v_drv s') i = v_desc (v_drv s) i;
  to_free i : i ∉ l -> v_free (v_drv s') i = v_free (v_drv s) i;
  to_rings : v_avail_idx (v_drv s') = v_avail_idx (v_drv s) /\ v_avail (v_drv s') = v_avail (v_drv s) /\ v_used_idx (v_drv s') = v_used_idx (v_drv s);
  to_info : v_info_b (v_drv s') = v_info_b (v_drv s) /\ v_status (v_drv s') = v_status (v_drv s);
  to_rest : v_dev s' = v_dev s /\ v_hdr s' = v_hdr s /\ v_data s' = v_data s /\ v_bdisk s' = v_bdisk s /\ v_pc s' = v_pc s;
  to_sleep t : v_asleep s' t = v_asleep s t \/ (v_asleep s t = Some CFree /\ v_asleep s' t = None);
}.

Lemma touch_trans s1 s2 s3 l1 l2 : touch s1 s2 l1 -> touch s2 s3 l2 -> touch s1 s3 (l1 ++ l2).
Proof.
  intros [A1 A2 (A3 & A4 & A5) (A6 & A7) (A8 & A9 & A10 & A11 & A12) A13] [B1 B2 (B3 & B4 & B5) (B6 & B7) (B8 & B9 & B10 & B11 & B12) B13].
  split; [| |split_and!; congruence..|].
  - intros i Hi. rewrite B1, A1 by set_solver. done.
  - intros i Hi. rewrite B2, A2 by set_solver. done.
  - intros t. destruct (A13 t) as [E|[E E']], (B13 t) as [F|[F F']]; rewrite ?E, ?E' in *; rewrite ?F in *; naive_solver.
Qed.

Lemma touch_refl s : touch s s [].
Proof. split; auto. Qed.

Lemma free_desc_run s i : i < NUM -> v_free (v_drv s) i = false ->
  exists s', free_desc i s = Ok (tt, s') /\ touch s s' [i] /\ v_free (v_drv s') i = true /\
    vd_flags (v_desc (v_drv s') i) = vd_flags (v_desc (v_drv s) i) /\ vd_next (v_desc (v_drv s') i) = vd_next (v_desc (v_drv s) i) /\
    forall t, v_asleep s' t <> Some CFree.
Proof.
  intros Hi Hf. unfold free_desc. rewrite (proj2 (Z.leb_gt _ _)) by lia. eexists. split; [mcomp; mcomp; rewrite Hf; mcomp; mcomp; mcomp; mcomp; reflexivity|].
  split_and!; cbn; [|by rewrite ?upd_eq..|].
  - split; cbn; try done.
    + intros j Hj. by rewrite upd_ne by set_solver.
    + intros j Hj. by rewrite upd_ne by set_solver.
    + intros t. case_bool_decide; [by right|by left].
  - intros t. by case_bool_decide.
Qed.

Lemma set_free_run s i : exists s', set_free i false s = Ok (tt, s') /\ touch s s' [i] /\ v_desc (v_drv s') = v_desc (v_drv s) /\
  v_free (v_drv s') = upd (v_free (v_drv s)) i false /\ v_asleep s' = v_asleep s.
Proof. eexists. split; [reflexivity|]. split_and!; [|done..]. split; cbn; auto. intros j Hj. by rewrite upd_ne by set_solver. Qed.

Lemma alloc_touch s i s' : 0 <= i < NUM -> v_free (v_drv s) i = true -> set_free i false s = Ok (tt, s') ->
  touch s s' [i] /\ v_free (v_drv s') = upd (v_free (v_drv s)) i false /\ v_asleep s' = v_asleep s /\ nfree (v_free (v_drv s)) = S (nfree (v_free (v_drv s'))).
Proof.
  intros Hi Hf H. destruct (set_free_run s i) as (s1 & H1 & T & _ & E & A). rewrite H1 in H. injection H as <-. split_and!; [done..|]. rewrite E. by apply nfree_take.
Qed.
(** [alloc3_desc] takes three free descriptors; or there are fewer, and it gives back what it
    took. *)
Lemma alloc3_run s :
  (exists s' l, alloc3_desc s = Ok (None, s') /\ touch s s' l /\ (forall i, i ∈ l -> v_free (v_drv s) i = true) /\
    (forall i, v_free (v_drv s') i = v_free (v_drv s) i) /\ (nfree (v_free (v_drv s)) < 3)%nat) \/
  (exists s' i0 i1 i2, alloc3_desc s = Ok (Some (i0, i1, i2), s') /\ touch s s' [i0; i1; i2] /\ NoDup [i0; i1; i2] /\
    (forall i, i ∈ [i0; i1; i2] -> 0 <= i < NUM /\ v_free (v_drv s) i = true /\ v_free (v_drv s') i = false) /\
    v_asleep s' = v_asleep s /\ (3 <= nfree (v_free (v_drv s)))%nat).
Proof.
  unfold alloc3_desc. destruct (alloc_desc_run s) as [[N A0]|(i0 & s0 & R0 & F0 & A0 & S0)]; rewrite (bind_ok _ _ _ _ _ A0).
  { left. exists s, []. split; [done|]. split; [apply touch_refl|]. split; [by intros i ?%elem_of_nil|]. split; [done|lia]. }
  rewrite (proj2 (Z.ltb_ge _ _)) by lia. destruct (alloc_touch _ _ _ R0 F0 S0) as (T0 & E0 & L0 & N0).
  destruct (alloc_desc_run s0) as [[N A1]|(i1 & s1 & R1 & F1 & A1 & S1)]; rewrite (bind_ok _ _ _ _ _ A1).
  { left. destruct (free_desc_run s0 i0) as (s' & H & T & F & _); [lia|by rewrite E0, upd_eq|]. cbn [Z.ltb Z.compare]. rewrite (bind_ok _ _ _ _ _ H). exists s', ([i0] ++ [i0]).
    split; [done|]. split; [by eapply touch_trans|]. split; [set_solver|]. split; [|lia]. intros i. destruct (decide (i = i0)) as [->|]; [congruence|].
    rewrite (to_free _ _ _ T), E0, upd_ne by set_solver. done. }
  rewrite (proj2 (Z.ltb_ge _ _)) by lia. destruct (alloc_touch _ _ _ R1 F1 S1) as (T1 & E1 & L1 & N1).
  assert (i1 <> i0 /\ v_free (v_drv s) i1 = true) as [D1 F1'] by (rewrite E0 in F1; unfold upd in F1; destruct (i1 =? i0) eqn:?; bsplit; done).
  destruct (alloc_desc_run s1) as [[N A2]|(i2 & s2 & R2 & F2 & A2 & S2)]; rewrite (bind_ok _ _ _ _ _ A2).
  { left. destruct (free_desc_run s1 i0) as (s2 & H & T & F & _); [lia|by rewrite E1, upd_ne, E0, upd_eq by done|].
    destruct (free_desc_run s2 i1) as (s3 & H' & T' & F' & _); [lia|rewrite (to_free _ _ _ T), E1, upd_eq by set_solver; done|].
    cbn [Z.ltb Z.compare]. rewrite (bind_ok _ _ _ _ _ H), (bind_ok _ _ _ _ _ H'). exists s3, ([i0] ++ [i1] ++ [i0] ++ [i1]).
    split; [done|]. split; [by repeat (eapply touch_trans; [eassumption|])|]. split; [set_solver|]. split; [|lia]. intros i. destruct (decide (i = i1)) as [->|]; [congruence|].
    rewrite (to_free _ _ _ T') by set_solver. destruct (decide (i = i0)) as [->|]; [congruence|]. rewrite (to_free _ _ _ T), E1, upd_ne, E0, upd_ne by set_solver. done. }
  rewrite (proj2 (Z.ltb_ge _ _)) by lia. destruct (alloc_touch _ _ _ R2 F2 S2) as (T2 & E2 & L2 & N2). right. exists s2, i0, i1, i2.
  assert (i2 <> i1 /\ i2 <> i0 /\ v_free (v_drv s) i2 = true) as (D2 & D3 & F2') by (rewrite E1, E0 in F2; unfold upd in F2; destruct (i2 =? i1) eqn:?, (i2 =? i0) eqn:?; bsplit; done).
  split; [done|]. split; [change [i0; i1; i2] with ([i0] ++ [i1] ++ [i2]); by repeat (eapply touch_trans; [eassumption|])|].
  split; [rewrite !NoDup_cons; repeat split; [set_solver..|constructor]|]. split; [|split; [congruence|lia]].
  intros i Hi. rewrite E2, E1, E0. unfold upd. rewrite !elem_of_cons, elem_of_nil in Hi.
  destruct Hi as [->|[->|[->|[]]]]; rewrite ?Z.eqb_refl; repeat case_match; done.
Qed.

(** [free_chain] gives back the descriptors of a request. *)
Lemma free_chain_run s t b w h : chain_ok (v_drv s) t b w h ->
  exists s', free_chain 8 h s = Ok (tt, s') /\ touch s s' (chain (v_drv s) h) /\ (forall i, i ∈ chain (v_drv s) h -> v_free (v_drv s') i = true) /\
    forall t, v_asleep s' t <> Some CFree.
Proof.
  intros W. pose proof (wo_nodup _ _ _ _ _ W) as Hnd. assert (forall i, i ∈ chain (v_drv s) h -> i < NUM /\ v_free (v_drv s) i = false) as Ht by (intros i Hi; apply W in Hi; lia || (destruct Hi; split; [lia|done])).
  unfold chain in Hnd. rewrite !NoDup_cons, !elem_of_cons in Hnd. destruct Hnd as (D0 & D1 & _).
  destruct (Ht h) as [R0 F0]; [by left|]. destruct (Ht (next1 (v_drv s) h)) as [R1 F1]; [by right; left|]. destruct (Ht (next2 (v_drv s) h)) as [R2 F2]; [by right; right; left|].
  destruct (free_desc_run s h R0 F0) as (s1 & H1 & T1 & G1 & L1 & N1 & _).
  destruct (free_desc_run s1 (next1 (v_drv s) h) R1) as (s2 & H2 & T2 & G2 & L2 & N2 & _); [rewrite (to_free _ _ _ T1); [done|set_solver]|].
  destruct (free_desc_run s2 (next2 (v_drv s) h) R2) as (s3 & H3 & T3 & G3 & L3 & N3 & A3); [rewrite (to_free _ _ _ T2), (to_free _ _ _ T1); [done|set_solver..]|].
  exists s3. split; [|split; [apply (touch_trans _ _ _ [h] _ T1), (touch_trans _ _ _ [_] _ T2), T3|split; [|done]]].
  - rewrite (to_desc _ _ _ T1) in L2, N2 by set_solver. rewrite (to_desc _ _ _ T2), (to_desc _ _ _ T1) in L3 by set_solver.
    rewrite (wo_desc0 _ _ _ _ _ W) in L1, N1. rewrite (wo_desc1 _ _ _ _ _ W) in L2, N2. rewrite (wo_desc2 _ _ _ _ _ W) in L3. cbn [vd_flags vd_next] in L1, N1, L2, N2, L3.
    cbn [free_chain]. rewrite (bind_ok _ _ _ _ _ H1). mcomp. rewrite L1, N1. change (negb (Z.land VRING_DESC_F_NEXT VRING_DESC_F_NEXT =? 0)) with true. cbv iota. rewrite (bind_ok _ _ _ _ _ H2). mcomp. rewrite L2, N2.
    replace (negb _) with true by (by destruct w). cbv iota. rewrite (bind_ok _ _ _ _ _ H3). mcomp. by rewrite L3.
  - intros i. unfold chain. rewrite !elem_of_cons, elem_of_nil. intros [->|[->|[->|[]]]]; [|rewrite (to_free _ _ _ T3); [done|set_solver]|done].
    rewrite (to_free _ _ _ T3), (to_free _ _ _ T2); [done|set_solver..].
Qed.
