(* ===== verification/VirtioRw.v ===== *)
(** * The threads of the disk driver keep its invariant

    The steps of [virtio_disk_rw]: no descriptors, a new request, and the return. *)

From S2P Require Import Prelude Riscv Cache Virtio Ring VirtioSpec.

Arguments vi_wait {_ _ _ _} _.
Arguments vi_disj {_ _ _ _} _.
Arguments vi_own {_ _ _ _} _.
Arguments vi_excl {_ _ _ _} _.
Arguments vi_heads {_ _ _ _} _.
Arguments vi_data {_ _ _ _} _.
Arguments vi_sleep {_ _ _ _} _.

(** One command of the driver, with the fields of the new state computed. *)
Ltac vstep := rewrite ?bind_assoc; erewrite bind_ok; [|reflexivity];
  cbn [v_drv v_dev v_hdr v_data v_bdisk v_pc v_asleep v_desc v_avail_idx v_avail v_free v_used_idx v_info_b v_status].

Section Rw.
Context (blockno : Z -> Z).
Implicit Types (s : vst) (Q U : list Z).

(** The descriptors of a request are not free. *)
Lemma chain_taken s Q U t b w x y h i : vinv blockno s Q U -> v_pc s t = VWait b w x y h -> v_free (v_drv s) i = true -> i ∉ chain (v_drv s) h.
Proof. intros I Hpc Hf Hi. destruct (wo_taken _ _ _ _ _ (vi_wait I _ _ _ _ _ _ Hpc) i Hi). congruence. Qed.

(** A thread that finds fewer than three free descriptors goes to sleep. *)
Lemma sleep_inv s s' Q U t b w x y l : vinv blockno s Q U -> v_pc s t = VWant b w x y ->
  touch s s' l -> (forall i, i ∈ l -> v_free (v_drv s) i = true) -> (forall i, v_free (v_drv s') i = v_free (v_drv s) i) -> (nfree (v_free (v_drv s)) < 3)%nat ->
  exists s2, vsleep t CFree s' = Ok (tt, s2) /\ vinv blockno s2 Q U.
Proof.
  intros I Hpc T Hl Hf Hn. eexists. split; [reflexivity|]. destruct T as [T1 _ (T3 & T4 & T5) (T6 & T7) (T8 & T9 & T10 & T11 & T12) T13].
  assert (forall t b w x y h, v_pc s t = VWait b w x y h -> wait_ok blockno s' t b w h /\ chain (v_drv s') h = chain (v_drv s) h) as HW.
  { intros t' b' w' x' y' h Hpc'. pose proof (vi_wait I _ _ _ _ _ _ Hpc') as W. eapply wait_frame; [exact W| |by rewrite T6|rewrite T7; apply W|by rewrite T9|rewrite T11; apply W].
    intros i Hi. split; [|by apply Hf]. apply T1. intros Hil%Hl. by eapply chain_taken. }
  split; cbn; [intros * Hpc'; rewrite T12 in Hpc'; destruct (HW _ _ _ _ _ _ Hpc') as [[] _]; by split|rewrite ?T3, ?T4, ?T5, ?T8, ?T11, ?T12; try apply I..].
  - intros * H1 H2. rewrite (proj2 (HW _ _ _ _ _ _ H1)), (proj2 (HW _ _ _ _ _ _ H2)). by eapply I.
  - intros i Hi. rewrite Hf. intros Hi'. destruct (vi_own I i Hi Hi') as (t' & b' & w' & x' & y' & h & H & Hin). exists t', b', w', x', y', h. by rewrite (proj2 (HW _ _ _ _ _ _ H)).
  - intros t'. eapply data_frame; [apply (vi_data I t')|cbn; by rewrite ?T8, ?T10|cbn; by rewrite ?T8].
  - intros t' ch. unfold upd. destruct (t' =? t) eqn:E; bsplit; [subst; intros [= <-]|].
    + cbn. rewrite Hpc. split; [by eexists _, _, _, _|]. by rewrite (free_count_ext _ _ (fun i _ => Hf i)).
    + intros Hch. assert (v_asleep s t' = Some ch) as Hs by (destruct (T13 t') as [|[? ?]]; congruence). pose proof (vi_sleep I _ _ Hs) as S. destruct ch; cbn in *; [|done].
      by rewrite (free_count_ext _ _ (fun i _ => Hf i)).
Qed.

(** A thread returns: its request is over, and its descriptors are free again. *)
Lemma return_inv s Q U t b w x y h : vinv blockno s Q U -> v_pc s t = VWait b w x y h -> v_asleep s t = None -> v_bdisk s b <> 1 ->
  exists s', rw_wait t b h s = Ok (tt, s') /\ vinv blockno s' Q U /\ v_pc s' = upd (v_pc s) t VIdle /\ v_data s' = v_data s /\ v_dev s' = v_dev s.
Proof.
  intros I Hpc Haw Hb. pose proof (vi_wait I _ _ _ _ _ _ Hpc) as W. unfold rw_wait. mcomp. rewrite (proj2 (Z.eqb_neq _ _)) by done. mcomp.
  match goal with |- context [bind _ _ ?s] => set (s1 := s) end. assert (chain_ok (v_drv s1) t b w h) as C1 by (destruct (wo_chain _ _ _ _ _ _ W); by split).
  destruct (free_chain_run s1 t b w h C1) as (s2 & H2 & T & Hfree & Hno). rewrite (bind_ok _ _ _ _ _ H2). eexists. split; [reflexivity|].
  change (chain (v_drv s1) h) with (chain (v_drv s) h) in *. destruct T as [T1 T2 (T3 & T4 & T5) (T6 & T7) (T8 & T9 & T10 & T11 & T12) T13]. cbn in T1, T2, T3, T4, T5, T6, T7, T8, T9, T10, T11, T12, T13.
  cbn [v_pc v_data v_dev]. rewrite T8, T10, T12. split_and!; [|done..]. set (s3 := Vst _ _ _ _ _ _ _).
  assert (forall t' c, v_pc s3 t' = c -> c <> VIdle -> t' <> t /\ v_pc s t' = c) as Hpc3 by (cbn; intros t' c; unfold upd; destruct (t' =? t) eqn:?; bsplit; intros; [congruence|done]).
  assert (forall t' b' w' x' y' h', t' <> t -> v_pc s t' = VWait b' w' x' y' h' -> wait_ok blockno s3 t' b' w' h' /\ chain (v_drv s3) h' = chain (v_drv s) h') as HW.
  { intros t' b' w' x' y' h' Hne Hpc'. pose proof (vi_wait I _ _ _ _ _ _ Hpc') as W'. assert (h' <> h) by (intros ->; by destruct Hne; eapply same_head).
    eapply wait_frame; [exact W'| |cbn; by rewrite T6, upd_ne|cbn; rewrite T7; apply W'|cbn; by rewrite T9|cbn; rewrite T11; apply W'].
    intros i Hi. assert (i ∉ chain (v_drv s) h) by (by eapply (vi_disj I t' t)). split; [by apply T1|by apply T2]. }
  assert (h ∉ Q ++ v_pend (v_dev s) ++ U) as Hh.
  { intros (t' & b' & w' & x' & y' & Hpc' & Hb')%(vi_heads I). assert (t' = t) as -> by (eapply same_head; eassumption). congruence. }
  split; cbn [v_drv v_dev v_pc v_bdisk v_asleep s3]; rewrite ?T3, ?T4, ?T5; try apply I.
  - intros t' b' w' x' y' h' H. destruct (Hpc3 t' _ H) as [Hne H']; [done|]. by eapply HW.
  - intros * K1 K2 Hne. destruct (Hpc3 _ _ K1) as [N1 K1']; [done|]. destruct (Hpc3 _ _ K2) as [N2 K2']; [done|].
    change (v_drv s2) with (v_drv s3). rewrite (proj2 (HW _ _ _ _ _ _ N1 K1')), (proj2 (HW _ _ _ _ _ _ N2 K2')). by eapply I.
  - intros i Hi Hf. assert (i ∉ chain (v_drv s) h) as Hc by (intros Hc; rewrite (Hfree i Hc) in Hf; done). rewrite (T2 i Hc) in Hf.
    destruct (vi_own I i Hi Hf) as (t' & b' & w' & x' & y' & h' & H & Hin). assert (t' <> t) as Hne by (intros ->; congruence).
    exists t', b', w', x', y', h'. rewrite upd_ne by done. split; [done|]. change (v_drv s2) with (v_drv s3). by rewrite (proj2 (HW _ _ _ _ _ _ Hne H)).
  - intros t1 t2 b1 b2. unfold upd. destruct (t1 =? t), (t2 =? t); try done. apply I.
  - intros h'. rewrite (vi_heads I), T11. split; intros (t' & b' & w' & x' & y' & H & Hb'); exists t', b', w', x', y'; (split; [|done]).
    + rewrite upd_ne; [done|]. intros ->. congruence.
    + by destruct (Hpc3 t' _ H).
  - intros t'. unfold upd. destruct (t' =? t); [done|]. by apply (data_frame blockno s s3 Q Q _ (vi_data I t')).
  - intros t' ch Hch. assert (v_asleep s t' = Some ch) as Hs by (destruct (T13 t') as [|[? ?]]; congruence). pose proof (vi_sleep I _ _ Hs) as S.
    rewrite upd_ne by congruence. destruct ch; [by destruct (Hno t')|]. cbn in *. by rewrite T11.
Qed.

(** The state after a new request, with the thread asleep for the answer. *)
Definition submitted (s : vst) (t b : Z) (w : bool) (x y : block) (i0 i1 i2 : Z) : vst :=
  let r := v_drv s in
  Vst (Drv (upd (upd (upd (v_desc r) i0 (VDesc (AHdr t) 16 VRING_DESC_F_NEXT i1))
        i1 (VDesc (AData b) BSIZE (Z.lor (if w then 0 else VRING_DESC_F_WRITE) VRING_DESC_F_NEXT) i2)) i2 (VDesc (AStatus i0) 1 VRING_DESC_F_WRITE 0))
      (u16 (v_avail_idx r + 1)) (upd (v_avail r) (v_avail_idx r mod NUM) i0) (v_free r) (v_used_idx r)
      (upd (v_info_b r) i0 (Some b)) (upd (v_status r) i0 0))
    (v_dev s) (upd (v_hdr s) t (OutHdr (if w then VIRTIO_BLK_T_OUT else VIRTIO_BLK_T_IN) 0 (u32 (blockno b * (BSIZE / 512)))))
    (v_data s) (upd (v_bdisk s) b 1) (upd (v_pc s) t (VWait b w x y i0)) (upd (v_asleep s) t (Some (CBuf b))).

Lemma submit_run s t b w x y i0 i1 i2 :
  (rw_submit blockno t b w i0 i1 i2 ;; set_vpc t (VWait b w x y i0) ;; rw_wait t b i0) s = Ok (tt, submitted s t b w x y i0 i1 i2).
Proof.
  unfold rw_submit, rw_wait, submitted. repeat vstep. rewrite upd_eq. reflexivity.
Qed.

(** *** A new request *)

Section Submit.
Context (s s1 : vst) (Q U : list Z) (t b : Z) (w : bool) (x y : block) (i0 i1 i2 : Z).
Context (I : vinv blockno s Q U) (Hpc : v_pc s t = VWant b w x y) (T : touch s s1 [i0; i1; i2]) (Hnd : NoDup [i0; i1; i2]).
Context (Hi : forall i, i ∈ [i0; i1; i2] -> 0 <= i < NUM /\ v_free (v_drv s) i = true /\ v_free (v_drv s1) i = false).
Context (Ha : v_asleep s1 = v_asleep s) (Hn : (3 <= nfree (v_free (v_drv s)))%nat).
Let s' : vst := submitted s1 t b w x y i0 i1 i2.

Lemma submit_distinct : i0 <> i1 /\ i0 <> i2 /\ i1 <> i2.
Proof using Hnd. clear -Hnd. rewrite !NoDup_cons, !elem_of_cons in Hnd. tauto. Qed.

(** The other requests have other buffers and descriptors. *)
Lemma submit_others t' b' w' x' y' h : v_pc s t' = VWait b' w' x' y' h -> t' <> t /\ b' <> b /\ forall i, i ∈ [i0; i1; i2] -> i ∉ chain (v_drv s) h.
Proof using I Hpc Hi.
  intros H. assert (t' <> t) as Hne by (intros ->; congruence). split; [done|]. split.
  - intros ->. by eapply (vi_excl I t' t b b); [rewrite H|rewrite Hpc|..].
  - intros i (_ & Hf & _)%Hi. by eapply chain_taken.
Qed.

Lemma submit_wait_others t' b' w' x' y' h : v_pc s t' = VWait b' w' x' y' h -> wait_ok blockno s' t' b' w' h /\ chain (v_drv s') h = chain (v_drv s) h.
Proof using I Hpc Hi T.
  intros H. destruct (submit_others _ _ _ _ _ _ H) as (Ht & Hb & Hc). pose proof (vi_wait I _ _ _ _ _ _ H) as W.
  destruct T as [T1 T2 _ (T6 & T7) (_ & T9 & _ & T11 & _) _]. assert (h <> i0) by (intros ->; apply (Hc i0); by left). eapply wait_frame; [exact W| |..]; cbn.
  - intros i Hin. assert (i ∉ [i0; i1; i2]) as Hni by (intros Hx; by apply (Hc i)). split; [|by apply T2]. rewrite !elem_of_cons in Hni. rewrite !upd_ne by tauto. apply T1. rewrite !elem_of_cons. tauto.
  - by rewrite upd_ne, T6.
  - rewrite upd_ne, T7 by done. apply W.
  - by rewrite upd_ne, T9.
  - rewrite upd_ne, T11 by done. apply W.
Qed.

Lemma submit_next : next1 (v_drv s') i0 = i1 /\ next2 (v_drv s') i0 = i2.
Proof using Hnd.
  destruct submit_distinct as (N01 & N02 & N12). assert (next1 (v_drv s') i0 = i1) as E1 by (unfold next1; cbn; by rewrite !upd_ne, upd_eq by done).
  split; [done|]. unfold next2. rewrite E1. cbn. by rewrite upd_ne, upd_eq by done.
Qed.

Lemma submit_chain : chain (v_drv s') i0 = [i0; i1; i2].
Proof using Hnd. unfold chain. by destruct submit_next as [-> ->]. Qed.

Lemma submit_wait : wait_ok blockno s' t b w i0.
Proof using Hnd Hi.
  destruct submit_distinct as (N01 & N02 & N12). destruct submit_next as [N1 N2]. split; [split|..]; rewrite ?submit_chain, ?N1, ?N2.
  - cbn. by rewrite !upd_ne, upd_eq by done.
  - cbn. by rewrite upd_ne, upd_eq by done.
  - cbn. by rewrite upd_eq.
  - exact Hnd.
  - intros i Hin. by destruct (Hi i Hin) as (? & _ & ?).
  - apply upd_eq.
  - apply upd_eq.
  - apply upd_eq.
  - right. apply upd_eq.
Qed.

Lemma submit_case t' b' w' x' y' h : v_pc s' t' = VWait b' w' x' y' h ->
  (t' = t /\ b' = b /\ w' = w /\ h = i0) \/ (t' <> t /\ v_pc s t' = VWait b' w' x' y' h).
Proof using T. cbn. destruct T as [_ _ _ _ (_ & _ & _ & _ & ->) _]. unfold upd. destruct (t' =? t) eqn:E; bsplit; [intros [= <- <- <- <- <-]; by left|by right]. Qed.

Lemma submit_fresh : i0 ∉ Q ++ v_pend (v_dev s) ++ U.
Proof using I Hpc Hi. intros (t' & b' & w' & x' & y' & H & _)%(vi_heads I). destruct (submit_others _ _ _ _ _ _ H) as (_ & _ & Hc). apply (Hc i0); by left. Qed.

Lemma submit_inv : vinv blockno s' (Q ++ [i0]) U.
Proof using I Hpc T Hnd Hi Ha Hn.
  pose proof (few_heads blockno s Q U I) as Hfew. pose proof submit_fresh as Hi0. pose proof submit_chain as C0. pose proof T as [_ T2 (T3 & T4 & T5) _ (T8 & _ & T10 & T11 & T12) _].
  assert ((Q ++ [i0]) ++ v_pend (v_dev s) ++ U ≡ₚ i0 :: Q ++ v_pend (v_dev s) ++ U) as HP by solve_Permutation.
  split.
  - intros t' b' w' x' y' h [(-> & -> & -> & ->)|[_ H]]%submit_case; [apply submit_wait|by eapply submit_wait_others].
  - intros t1 t2 b1 b2 w1 w2 x1 x2 y1 y2 h1 h2 i [(-> & -> & -> & ->)|[N1 H1]]%submit_case [(-> & -> & -> & ->)|[N2 H2]]%submit_case Hne; [done|..].
    + rewrite C0, (proj2 (submit_wait_others _ _ _ _ _ _ H2)). by apply (submit_others _ _ _ _ _ _ H2).
    + rewrite C0, (proj2 (submit_wait_others _ _ _ _ _ _ H1)). intros Hin Hin'. by apply (submit_others _ _ _ _ _ _ H1) in Hin'.
    + rewrite (proj2 (submit_wait_others _ _ _ _ _ _ H1)), (proj2 (submit_wait_others _ _ _ _ _ _ H2)). by eapply I.
  - intros i Hr Hf. destruct (decide (i ∈ [i0; i1; i2])) as [Hin|Hin].
    + exists t, b, w, x, y, i0. rewrite C0. split; [apply upd_eq|done].
    + cbn in Hf. rewrite (T2 i Hin) in Hf. destruct (vi_own I i Hr Hf) as (t' & b' & w' & x' & y' & h & H & Hc). exists t', b', w', x', y', h.
      rewrite (proj2 (submit_wait_others _ _ _ _ _ _ H)). split; [|done]. cbn. rewrite T12, upd_ne; [done|]. apply (submit_others _ _ _ _ _ _ H).
  - assert (forall t', uses (v_pc s' t') = uses (v_pc s t')) as Hu by (intros t'; cbn; rewrite T12; unfold upd; destruct (t' =? t) eqn:E; bsplit; [subst; by rewrite Hpc|done]).
    intros t1 t2 b1 b2. rewrite !Hu. apply I.
  - cbn. rewrite T8. apply I.
  - cbn. rewrite T3, T8, (vi_avail _ _ _ _ I), u16_add, length_app. f_equal. cbn. lia.
  - cbn. rewrite T3, T4, T8. apply ring_push; [done|apply I|unfold NUM; lia|]. by rewrite (vi_avail _ _ _ _ I), u16_num.
  - cbn. rewrite T5. apply I.
  - cbn. rewrite T5, T8. apply I.
  - cbn. rewrite T5, T8. apply I.
  - cbn [v_dev submitted s']. rewrite T8, HP. apply NoDup_cons. split; [done|apply I].
  - intros h. cbn [v_dev submitted s']. rewrite T8, HP, elem_of_cons, (vi_heads I). split.
    + intros [->|(t' & b' & w' & x' & y' & H & Hb)]; [exists t, b, w, x, y; split; apply upd_eq|]. destruct (submit_others _ _ _ _ _ _ H) as (Ht & Hb' & _).
      exists t', b', w', x', y'. cbn. by rewrite T11, T12, !upd_ne.
    + intros (t' & b' & w' & x' & y' & [(-> & -> & -> & ->)|[Ht H]]%submit_case & Hb); [by left|]. right. exists t', b', w', x', y'. split; [done|].
      cbn in Hb. rewrite T11, upd_ne in Hb; [done|]. apply (submit_others _ _ _ _ _ _ H).
  - intros t'. cbn [v_pc submitted s']. rewrite T12. unfold upd. destruct (t' =? t) eqn:E; bsplit.
    + pose proof (vi_data I t) as D. rewrite Hpc in D. cbn in *. rewrite T8, T10, decide_True; [done|]. rewrite !elem_of_app. left. right. by left.
    + eapply data_frame; [apply (vi_data I t')|cbn; by rewrite T8, T10|]. intros b' w' x' y' h H. destruct (submit_others _ _ _ _ _ _ H) as (_ & _ & Hc).
      cbn. rewrite T8, !elem_of_app, list_elem_of_singleton. assert (h <> i0); [|tauto]. intros ->. by apply (Hc i0); left.
  - intros t' ch. cbn [v_pc v_asleep submitted s']. rewrite T12, Ha. unfold upd. destruct (t' =? t) eqn:E; bsplit.
    + intros [= <-]. split; [by eexists _, _, _, _|apply upd_eq].
    + intros Hch. pose proof (vi_sleep I _ _ Hch) as S. destruct ch as [|b']; cbn in *; [lia|]. destruct S as [Hw Hb]. split; [done|]. rewrite T11. unfold upd. destruct (b' =? b); [done|exact Hb].
Qed.
End Submit.
End Rw.
