(* ===== verification/VirtioTop.v ===== *)
(** * The disk driver is correct

    From [virtio_disk_init] on, under any interleaving of threads in [virtio_disk_rw], the
    interrupt handler and a device that follows the specification. *)

From S2P Require Import Prelude Riscv Cache Virtio VirtioSpec VirtioRw.

Definition with_pc (s : vst) (t : Z) (c : vpc) : vst := Vst (v_drv s) (v_dev s) (v_hdr s) (v_data s) (v_bdisk s) (upd (v_pc s) t c) (v_asleep s).
Definition with_data (s : vst) (b : Z) (d : block) : vst := Vst (v_drv s) (v_dev s) (v_hdr s) (upd (v_data s) b d) (v_bdisk s) (v_pc s) (v_asleep s).

Section Top.
Context (blockno : Z -> Z).

(** The steps of the system.  A thread calls [virtio_disk_rw] with a buffer that no other
    thread has given to the driver, for another block than theirs: it holds the lock of the
    buffer, and the buffer cache has one buffer for a block.  The contents of a buffer change
    otherwise only while the driver does not have it. *)
Inductive vstep : vst -> vst -> Prop :=
| st_call s t b w : v_pc s t = VIdle -> (forall t' b', uses (v_pc s t') = Some b' -> blockno b' <> blockno b) ->
    vstep s (with_pc s t (VWant b w (v_data s b) (v_disk (v_dev s) (blockno b))))
| st_rw s t s' : virtio_disk_rw blockno t s = Ok (tt, s') -> vstep s s'
| st_intr s r s' : intr_body s = Ok (r, s') -> vstep s s'
| st_device s s' : device s s' -> vstep s s'
| st_edit s b d : (forall t, uses (v_pc s t) <> Some b) -> vstep s (with_data s b d).

(** Before [virtio_disk_init]: no thread is in the driver, the device has taken nothing, and
    [disk] is zero. *)
Record vfresh (s : vst) : Prop := {
  vf_pc t : v_pc s t = VIdle;
  vf_awake t : v_asleep s t = None;
  vf_used : v_used_idx (v_drv s) = 0;
  vf_dev : v_seen (v_dev s) = 0 /\ v_pend (v_dev s) = [];
}.

Lemma init_run mmio pages s0 l s : virtio_disk_init mmio pages ([], s0) = Ok (tt, (l, s)) ->
  v_dev s = v_dev (zero_rings s0) /\ v_pc s = v_pc s0 /\ v_asleep s = v_asleep s0 /\ v_used_idx (v_drv s) = v_used_idx (v_drv s0) /\
  v_avail_idx (v_drv s) = 0 /\ forall i, 0 <= i < NUM -> v_free (v_drv s) i = true.
Proof.
  unfold virtio_disk_init. unfold panic_if at 1. destruct (_ || _); [done|]. rewrite (bind_ok _ _ _ _ _ (ret_ok _ _)).
  do 7 (erewrite bind_ok; [|reflexivity]). cbv zeta. unfold panic_if at 1. destruct (_ =? 0); [done|]. rewrite (bind_ok _ _ _ _ _ (ret_ok _ _)).
  unfold panic_if at 1. destruct (_ <? _); [done|]. rewrite (bind_ok _ _ _ _ _ (ret_ok _ _)). do 3 (erewrite bind_ok; [|reflexivity]).
  change (upto NUM) with [0; 1; 2; 3; 4; 5; 6; 7]. cbn [mfor]. intros H. 
  do 8 (erewrite bind_ok in H; [|reflexivity]; cbn [fst snd v_drv v_dev v_hdr v_data v_bdisk v_pc v_asleep v_desc v_avail_idx v_avail v_free v_used_idx v_info_b v_status] in H).
  injection H as _ <-. cbn. split_and!; [done..|]. intros i Hi. unfold upd, NUM in *. repeat case_match; bsplit; try done. lia.
Qed.

Lemma init_inv mmio pages s0 l s : vfresh s0 -> virtio_disk_init mmio pages ([], s0) = Ok (tt, (l, s)) -> vinv blockno s [] [].
Proof.
  intros [F1 F2 F3 [F4 F5]] (E1 & E2 & E3 & E4 & E5 & E6)%init_run. assert (forall t, v_pc s t = VIdle) as Hpc by (intros; by rewrite E2).
  split; rewrite ?E1, ?E4, ?E5; cbn; rewrite ?F3, ?F4, ?F5; try done.
  - intros * H. by rewrite Hpc in H.
  - intros * H. by rewrite Hpc in H.
  - intros i Hi H. by rewrite E6 in H.
  - intros * H. by rewrite Hpc in H.
  - constructor.
  - intros h. split; [by intros ?%elem_of_nil|]. intros (t & b & w & x & y & H & _). by rewrite Hpc in H.
  - intros t. by rewrite Hpc.
  - intros t ch. by rewrite E3, F2.
Qed.

(** A step of a thread that is awake in the driver succeeds; when it returns, the transfer is
    done. *)
Lemma rw_ok s Q U t : vinv blockno s Q U -> v_asleep s t = None -> v_pc s t <> VIdle ->
  exists s' Q', virtio_disk_rw blockno t s = Ok (tt, s') /\ vinv blockno s' Q' U /\
    (v_pc s' t = VIdle -> exists b w x y h, v_pc s t = VWait b w x y h /\ v_data s' b = (if w then x else y) /\ v_disk (v_dev s') (blockno b) = (if w then x else y)).
Proof.
  intros I Ha Hpc. unfold virtio_disk_rw. mcomp. mcomp. rewrite Ha. destruct (v_pc s t) as [|b w x y|b w x y h] eqn:E; [done| |].
  - destruct (alloc3_run s) as [(s1 & l & H & T & Hl & Hf & Hn)|(s1 & i0 & i1 & i2 & H & T & Hnd & Hi & Hs & Hn)]; rewrite (bind_ok _ _ _ _ _ H); cbv iota beta.
    + destruct (sleep_inv blockno s s1 Q U t b w x y l I E T Hl Hf Hn) as (s2 & H2 & I2). exists s2, Q. split_and!; [done..|]. injection H2 as <-. cbn.
      destruct T as [_ _ _ _ (_ & _ & _ & _ & ->) _]. by rewrite E.
    + rewrite submit_run. eexists _, _. split; [reflexivity|]. split; [by eapply submit_inv|]. cbn. by rewrite upd_eq.
  - destruct (decide (v_bdisk s b = 1)) as [Hb|Hb].
    + exists (Vst (v_drv s) (v_dev s) (v_hdr s) (v_data s) (v_bdisk s) (v_pc s) (upd (v_asleep s) t (Some (CBuf b)))), Q. split; [unfold rw_wait; mcomp; by rewrite Hb|]. cbn. rewrite E. split; [|done].
      split; cbn; try apply I.
      * intros * H. destruct (vi_wait I _ _ _ _ _ _ H). by split.
      * intros t' ch. unfold upd. destruct (t' =? t) eqn:Et; bsplit; [intros [= <-]; subst; cbn; rewrite E; split; [by eexists _, _, _, _|done]|apply I].
    + destruct (return_inv blockno s Q U t b w x y h I E Ha Hb) as (s' & H & I' & Epc & Ed & Ev). exists s', Q. split_and!; [done..|]. intros _. exists b, w, x, y, h. rewrite Ed, Ev. split; [done|].
      pose proof (vi_data I t) as D. rewrite E in D. cbn in D. rewrite decide_False in D; [done|]. intros Hin.
      destruct (proj1 (vi_heads I h)) as (t' & b' & w' & x' & y' & H' & Hb'); [rewrite app_assoc; set_solver|]. assert (t' = t) as -> by (eapply (same_head blockno s); eassumption). congruence.
Qed.

Lemma rw_runs s t s' : virtio_disk_rw blockno t s = Ok (tt, s') -> v_asleep s t = None /\ v_pc s t <> VIdle.
Proof.
  unfold virtio_disk_rw. erewrite bind_ok by reflexivity. erewrite bind_ok by reflexivity. by destruct (v_asleep s t), (v_pc s t).
Qed.

Lemma call_inv s Q U t b w : vinv blockno s Q U -> v_pc s t = VIdle -> (forall t' b', uses (v_pc s t') = Some b' -> blockno b' <> blockno b) ->
  vinv blockno (with_pc s t (VWant b w (v_data s b) (v_disk (v_dev s) (blockno b)))) Q U.
Proof.
  intros I Hpc Hx. set (s' := with_pc _ _ _). assert (forall t' b' w' x' y' h, v_pc s' t' = VWait b' w' x' y' h <-> v_pc s t' = VWait b' w' x' y' h) as Hw.
  { intros. cbn. unfold upd. destruct (t' =? t) eqn:E; bsplit; [subst; rewrite Hpc; done|done]. }
  split; try apply I.
  - intros * H%Hw. destruct (vi_wait I _ _ _ _ _ _ H). by split.
  - intros * H1%Hw H2%Hw. by eapply I.
  - intros i Hi Hf. destruct (vi_own I i Hi Hf) as (t' & b' & w' & x' & y' & h & H%Hw & Hin). by exists t', b', w', x', y', h.
  - intros t1 t2 b1 b2. cbn. unfold upd. destruct (t1 =? t) eqn:E1, (t2 =? t) eqn:E2; bsplit; [by intros; subst|..|apply I].
    + intros [= <-] H _ Heq. by apply (Hx _ _ H).
    + intros H [= <-] _. by apply (Hx _ _ H).
  - intros h. change (v_dev s') with (v_dev s). rewrite (vi_heads I h). split; intros (t' & b' & w' & x' & y' & H%Hw & Hb); by exists t', b', w', x', y'.
  - intros t'. cbn. unfold upd. destruct (t' =? t); [done|]. by apply (data_frame blockno s s' Q Q _ (vi_data I t')).
  - intros t' ch Hch. pose proof (vi_sleep I t' ch Hch) as S. cbn. rewrite upd_ne; [done|]. intros ->. rewrite Hpc in S. by destruct ch; naive_solver.
Qed.

Lemma edit_inv s Q U b d : vinv blockno s Q U -> (forall t, uses (v_pc s t) <> Some b) -> vinv blockno (with_data s b d) Q U.
Proof.
  intros I Hx. split; try apply I.
  - intros * H. destruct (vi_wait I _ _ _ _ _ _ H). by split.
  - intros t. apply (data_frame blockno s _ Q Q _ (vi_data I t)); [|done]. intros b' Hb. cbn. rewrite upd_ne; [done|]. intros ->. by apply (Hx t).
Qed.

Context (Hblk : forall b, 0 <= blockno b < 2 ^ 31).

Lemma vstep_inv s s' Q U : vinv blockno s Q U -> vstep s s' -> exists Q' U', vinv blockno s' Q' U'.
Proof.
  intros I H. revert I. destruct H as [s t b w H1 H2|s t s' H|s r s' H|s s' H|s b d H]; intros I.
  - eexists _, _. by apply call_inv.
  - destruct (rw_runs _ _ _ H) as [Ea E].
    destruct (rw_ok s Q U t I Ea E) as (s2 & Q' & H2 & I2 & _). rewrite H2 in H. injection H as <-. by exists Q', U.
  - pose proof (intr_body_inv blockno s Q U I) as H'. destruct U as [|u U]; [rewrite H' in H; injection H as _ <-; by exists Q, []|].
    destruct H' as (s2 & H2 & I2). rewrite H2 in H. injection H as _ <-. by exists Q, U.
  - by eapply device_inv.
  - eexists _, _. by apply edit_inv.
Qed.

(** A request that is not finished is in the hands of the device, or its answer waits for the
    interrupt handler. *)
Lemma progress s Q U h : vinv blockno s Q U -> h ∈ Q ++ v_pend (v_dev s) ++ U -> (exists s', device s s') \/ (exists s', intr_body s = Ok (true, s')).
Proof.
  intros I Hh. pose proof (few_heads blockno s Q U I) as Hfew. destruct Q as [|q Q]; [destruct (v_pend (v_dev s)) as [|p l] eqn:Ep; [destruct U as [|u U]; [by apply elem_of_nil in Hh|]|]|].
  - right. destruct (intr_body_inv blockno s _ _ I) as (s' & H & _). by exists s'.
  - left. destruct (request_there blockno Hblk s _ _ p I) as (t & b & w & x & y & Hpc & R & Hd); [rewrite Ep; by left|]. destruct w.
    + eexists. eapply dev_write; [rewrite Ep; by left|exact R|by rewrite Hd].
    + eexists. eapply dev_read; [rewrite Ep; by left|exact R|by rewrite Hd].
  - left. eexists. apply dev_fetch. rewrite (vi_avail _ _ _ _ I). pose proof (vi_seen _ _ _ _ I). unfold u16. cbn [length] in *. dlia.
Qed.

(** If fewer than three descriptors are free, some request is in progress. *)
Lemma someone_waits s Q U : vinv blockno s Q U -> (nfree (v_free (v_drv s)) < 3)%nat -> exists t b w x y h, v_pc s t = VWait b w x y h.
Proof.
  intros I Hn. destruct (decide (Exists (fun i => v_free (v_drv s) i = false) (upto NUM))) as [H|H].
  - apply Exists_exists in H as (i & Hi%elem_of_upto & Hf). destruct (vi_own I i Hi Hf) as (t & b & w & x & y & h & H & _). by exists t, b, w, x, y, h.
  - exfalso. assert (nfree (v_free (v_drv s)) = 8%nat); [|lia]. rewrite (free_count_ext _ (fun _ => true)); [done|]. intros i Hi%elem_of_upto.
    destruct (v_free (v_drv s) i) eqn:E; [done|]. destruct H. apply Exists_exists. by exists i.
Qed.

Lemma vrun_inv s s' Q U : vinv blockno s Q U -> rtc vstep s s' -> exists Q' U', vinv blockno s' Q' U'.
Proof.
  intros I H. revert Q U I. induction H as [s|s1 s2 s3 H _ IH]; intros Q U I; [by exists Q, U|].
  destruct (vstep_inv _ _ _ _ I H) as (Q' & U' & I'). by eapply IH.
Qed.
End Top.

(** C35. The disk driver is correct.  After [virtio_disk_init], whatever the threads, the interrupts
    and the device do, in any order: a thread in the driver that is awake makes its step, and
    the interrupt handler runs to its end (no panic: no descriptor is freed twice, no answer
    has a bad status or no buffer); when a thread returns, a write has put on the disk what the
    buffer held at the call, and a read has put in the buffer what the disk held at the call;
    every request that the device has taken is a well-formed chain for its block; no wakeup is
    lost: as long as a thread is asleep for an answer the device or the interrupt handler can
    make a step, and as long as one is asleep for descriptors some request is in progress; and
    when no thread is in the driver, all descriptors are free. *)
Theorem disk_rw_correct (blockno : Z -> Z) (mmio : Z -> Z) (pages : Z) (s00 s0 s : vst) (regs : list (Z * Z))
    (Hblk : forall b, 0 <= blockno b < 2 ^ 31) (Hfresh : vfresh s00)
    (Hinit : virtio_disk_init mmio pages ([], s00) = Ok (tt, (regs, s0))) (Hrun : rtc (vstep blockno) s0 s) :
  (forall t, v_asleep s t = None -> v_pc s t <> VIdle -> exists s', virtio_disk_rw blockno t s = Ok (tt, s')) /\
  (exists s', virtio_disk_intr s = Ok (tt, s')) /\
  (forall t b w x y h s', v_pc s t = VWait b w x y h -> virtio_disk_rw blockno t s = Ok (tt, s') -> v_pc s' t = VIdle ->
    v_data s' b = (if w then x else y) /\ v_disk (v_dev s') (blockno b) = (if w then x else y)) /\
  (forall h, h ∈ v_pend (v_dev s) -> exists t b w x y, v_pc s t = VWait b w x y h /\
    request (v_drv s) h (AHdr t) (AData b) (AStatus h) (negb w) /\ v_hdr s t = OutHdr (if w then VIRTIO_BLK_T_OUT else VIRTIO_BLK_T_IN) 0 (blockno b * 2)) /\
  (forall t b, v_asleep s t = Some (CBuf b) -> (exists s', device s s') \/ (exists s', intr_body s = Ok (true, s'))) /\
  (forall t, v_asleep s t = Some CFree -> exists t' b w x y h, v_pc s t' = VWait b w x y h) /\
  ((forall t, v_pc s t = VIdle) -> forall i, 0 <= i < NUM -> v_free (v_drv s) i = true).
Proof.
  destruct (vrun_inv blockno Hblk _ _ _ _ (init_inv blockno _ _ _ _ _ Hfresh Hinit) Hrun) as (Q & U & I). pose proof (few_heads _ _ _ _ I) as Hfew. split_and!.
  - intros t Ha Hpc. destruct (rw_ok blockno s Q U t I Ha Hpc) as (s' & _ & H & _). by exists s'.
  - destruct (intr_loop_inv blockno U s Q 8) as (s' & H & _); [lia|done|]. by exists s'.
  - intros t b w x y h s' Hpc H Hidle. destruct (rw_runs _ _ _ _ H) as [Ea Hne].
    destruct (rw_ok blockno s Q U t I Ea Hne) as (s2 & Q' & H2 & _ & Hret). rewrite H2 in H. injection H as <-.
    destruct (Hret Hidle) as (b' & w' & x' & y' & h' & E & Hd). rewrite Hpc in E. by injection E as <- <- <- <- <-.
  - intros h Hh. by apply (request_there blockno Hblk s Q U).
  - intros t b Ha. destruct (vi_sleep I _ _ Ha) as [(w & x & y & h & Hpc) Hb]. eapply (progress blockno Hblk s Q U h I). apply (vi_heads I). by exists t, b, w, x, y.
  - intros t Ha. destruct (vi_sleep I _ _ Ha) as [_ Hn]. by eapply someone_waits.
  - intros Hall i Hi. destruct (v_free (v_drv s) i) eqn:E; [done|]. destruct (vi_own I i Hi E) as (t & b & w & x & y & h & H & _). by rewrite Hall in H.
Qed.
