(* ===== verification/VirtioDemo.v ===== *)
(** * A write through the disk driver

    One thread writes a block: the call, the request, the device, the interrupt and the
    return, evaluated. *)

From S2P Require Import Prelude Riscv Cache Virtio VirtioSpec VirtioRw VirtioTop.

Definition demo_blockno (b : Z) : Z := b mod 2 ^ 31.

(** The registers of a disk with a queue of 1024. *)
Definition demo_mmio (r : Z) : Z :=
  if r =? 0x000 then 0x74726976 else if r =? 0x004 then 1 else if r =? 0x008 then 2 else if r =? 0x00c then 0x554d4551
  else if r =? 0x034 then 1024 else 0.

Definition demo_fresh : vst :=
  Vst (Drv (fun _ => VDesc ANull 0 0 0) 0 (fun _ => 0) (fun _ => false) 0 (fun _ => None) (fun _ => 0))
    (Vdev (fun _ => [0]) 0 [] 0 (fun _ => 0)) (fun _ => OutHdr 0 0 0) (fun _ => [7]) (fun _ => 0) (fun _ => VIdle) (fun _ => None).

(** The state after a command; that the command returns [a] is evaluated without the state. *)
Definition vgo {S A} (m : M S A) (s : S) : S := match m s with Ok (_, s') => s' | _ => s end.
Definition vret {S A} (m : M S A) (s : S) : option A := match m s with Ok (a, _) => Some a | _ => None end.

Lemma vgo_ok {S A} (m : M S A) s a : vret m s = Some a -> m s = Ok (a, vgo m s).
Proof. unfold vret, vgo. destruct (m s) as [[? ?]| | |]; [by intros [= ->]|done..]. Qed.

Definition demo_start : vini := vgo (virtio_disk_init demo_mmio 0x80010000) ([], demo_fresh).
Definition demo_regs : list (Z * Z) := fst demo_start.
Definition demo0 : vst := snd demo_start.
Definition demo1 : vst := with_pc demo0 1 (VWant 5 true [7] [0]).
Definition demo2 : vst := vgo (virtio_disk_rw demo_blockno 1) demo1.
Definition demo3 : vst :=
  let r := v_drv demo2 in let e := v_dev demo2 in
  Vst r (Vdev (v_disk e) (u16 (v_seen e + 1)) (v_pend e ++ [v_avail r (v_seen e mod NUM)]) (v_used_id e) (v_used e))
    (v_hdr demo2) (v_data demo2) (v_bdisk demo2) (v_pc demo2) (v_asleep demo2).
Definition demo4 : vst := answered demo3 0 0 (upd (v_disk (v_dev demo3)) (oh_sector (v_hdr demo3 1) / 2) (v_data demo3 5)) (v_data demo3).
Definition demo5 : vst := vgo intr_body demo4.
Definition demo6 : vst := vgo (virtio_disk_rw demo_blockno 1) demo5.

Lemma demo_init : virtio_disk_init demo_mmio 0x80010000 ([], demo_fresh) = Ok (tt, (demo_regs, demo0)).
Proof.
  assert (vret (virtio_disk_init demo_mmio 0x80010000) ([], demo_fresh) = Some tt) as H by (vm_compute; reflexivity).
  rewrite (vgo_ok _ _ _ H). unfold demo_regs, demo0, demo_start. clear H. by destruct (vgo _ _).
Qed.

Lemma demo_request : request (v_drv demo3) 0 (AHdr 1) (AData 5) (AStatus 0) false.
Proof. exists 1, 2, 1. split; [by vm_compute|]. split; [by vm_compute|]. split; [by vm_compute|]. split; [split; by vm_compute|]. exists 0. by vm_compute. Qed.

Lemma demo0_idle t : v_pc demo0 t = VIdle.
Proof. destruct (init_run _ _ _ _ _ demo_init) as (_ & -> & _). done. Qed.

Lemma go_rw bn t s : vret (virtio_disk_rw bn t) s = Some tt -> vstep bn s (vgo (virtio_disk_rw bn t) s).
Proof. intros H. by apply (st_rw _ _ t), vgo_ok. Qed.

Lemma go_intr bn s r : vret intr_body s = Some r -> vstep bn s (vgo intr_body s).
Proof. intros H. by apply (st_intr _ _ r), vgo_ok. Qed.

Lemma demo_call : vstep demo_blockno demo0 demo1.
Proof. apply (st_call demo_blockno demo0 1 5 true); [apply demo0_idle|]. intros t' b'. by rewrite demo0_idle. Qed.

Lemma demo_submit : vstep demo_blockno demo1 demo2.
Proof. unfold demo2. apply go_rw. vm_compute. reflexivity. Qed.

Lemma demo_fetch : vstep demo_blockno demo2 demo3.
Proof.
  assert (v_seen (v_dev demo2) <> v_avail_idx (v_drv demo2)) as H by (vm_compute; discriminate). exact (st_device _ _ _ (dev_fetch demo2 H)).
Qed.

Lemma demo_write : vstep demo_blockno demo3 demo4.
Proof.
  assert (v_pend (v_dev demo3) = [0]) as H by (vm_compute; reflexivity). assert (oh_type (v_hdr demo3 1) = VIRTIO_BLK_T_OUT) as H' by (vm_compute; reflexivity).
  assert (0 ∈ v_pend (v_dev demo3)) as Hin by (rewrite H; by left). exact (st_device _ _ _ (dev_write demo3 0 1 5 0 Hin demo_request H')).
Qed.

Lemma demo_intr : vstep demo_blockno demo4 demo5.
Proof. unfold demo5. apply (go_intr _ _ true). vm_compute. reflexivity. Qed.

Lemma vdemo_run : rtc (vstep demo_blockno) demo0 demo5.
Proof. eapply rtc_l; [exact demo_call|]. eapply rtc_l; [exact demo_submit|]. eapply rtc_l; [exact demo_fetch|]. eapply rtc_l; [exact demo_write|]. apply rtc_once. exact demo_intr. Qed.

Lemma demo_fresh_ok : vfresh demo_fresh.
Proof. by split. Qed.

Lemma demo_return : v_pc demo5 1 = VWait 5 true [7] [0] 0 /\ virtio_disk_rw demo_blockno 1 demo5 = Ok (tt, demo6) /\ v_pc demo6 1 = VIdle.
Proof. split_and!; [vm_compute; reflexivity|unfold demo6; apply vgo_ok; vm_compute; reflexivity|vm_compute; reflexivity]. Qed.

Lemma vdemo_blocks b : 0 <= demo_blockno b < 2 ^ 31.
Proof. by apply Z.mod_pos_bound. Qed.

(** The theorem at the end of the run: the block is on the disk when the thread returns. *)
Lemma disk_rw_correct_witness : v_disk (v_dev demo6) (demo_blockno 5) = [7].
Proof.
  destruct (disk_rw_correct demo_blockno demo_mmio 0x80010000 demo_fresh demo0 demo5 demo_regs vdemo_blocks demo_fresh_ok demo_init vdemo_run) as (_ & _ & H & _).
  destruct demo_return as (H1 & H2 & H3). exact (proj2 (H 1 5 true [7] [0] 0 demo6 H1 H2 H3)).
Defined.
