(* ===== verification/Console.v ===== *)
(** * Writing to the console: [kernel/uart.c] and the output of [kernel/console.c]

    The transmit buffer of the serial port, and the path of a [write] of a process to it:
    [consolewrite], [uartputc], [uartstart] and [sleep].  The locks, the nesting of [push_off]
    and [sched] are those of [Spinlock] and [Sched], because they decide what happens when the
    buffer is full.  The registers of the serial port are a parameter. *)

From S2P Require Import Prelude Riscv Kalloc Vm Spinlock Proc UserIO Sched Ring.

Definition UART_TX_BUF_SIZE : Z := 32.
Definition LSR_RX_READY : Z := 1.
Definition LSR_TX_IDLE : Z := 32.

(** The registers: a read of LSR, a read of RHR, a write of THR and of the others. *)
Class Uart (D : Type) := {
  read_lsr : M D Z;
  read_rhr : M D Z;
  write_thr : Z -> M D unit;
  write_reg : Z -> Z -> M D unit;
}.

Section Output.
Context {D U : Type} {UA : Uart D} {UM : UserMem U}.

(** [uart_tx_buf], [uart_tx_w], [uart_tx_r] and [panicked]; the harts and the processes; the
    serial port; the memory of the process that runs. *)
Record ost := Ost {
  x_buf : Z -> Z;
  x_w : Z;
  x_r : Z;
  x_panicked : bool;
  x_k : kst;
  x_dev : D;
  x_user : U;
}.

Definition in_k {A} (m : M kst A) : M ost A :=
  zoom x_k (fun k s => Ost (x_buf s) (x_w s) (x_r s) (x_panicked s) k (x_dev s) (x_user s)) m.
Definition in_uart {A} (m : M D A) : M ost A :=
  zoom x_dev (fun d s => Ost (x_buf s) (x_w s) (x_r s) (x_panicked s) (x_k s) d (x_user s)) m.
Definition in_user {A} (m : M U A) : M ost A :=
  zoom x_user (fun u s => Ost (x_buf s) (x_w s) (x_r s) (x_panicked s) (x_k s) (x_dev s) u) m.

(** The addresses that the code uses as locks and channels: [cons.lock], [uart_tx_lock] and
    [&uart_tx_r]; the hart and the process that run. *)
Context (cons_lock uart_tx_lock uart_tx_r_addr h p : Z).

Definition lock (lk : Z) : M ost unit := in_k (on_smp (acquire h lk)).
Definition unlock (lk : Z) : M ost unit := in_k (on_smp (release h lk)).

(** [sleep(chan, lk)] up to the switch to the scheduler, for a lock that is not [p->lock]. *)
Definition sleep_switch (chan lk : Z) : M ost unit :=
  lock p ;;
  unlock lk ;;
  in_k (kmod p (with_chan chan) ;; kmod p (with_state SLEEPING) ;; sched h p (RSleep (Some lk))).

(** [wakeup(&uart_tx_r)] *)
Definition wake_writers : M ost unit :=
  in_k (modify (fun s => Kst (k_smp s)
    (fun i => let x := k_procs s i in
      if (0 <=? i) && (i <? NPROC) && procstate_eqb (p_state x) SLEEPING && (p_chan x =? uart_tx_r_addr) then with_state RUNNABLE x else x)
    (k_cproc s) (k_ctx s) (k_sctx s) (k_pc s))).

(** The buffer holds fewer than [UART_TX_BUF_SIZE] characters. *)
Fixpoint uartstart (fuel : nat) : M ost unit :=
  let! w := gets x_w in
  let! r := gets x_r in
  if w =? r then ret tt
  else
    let! l := in_uart read_lsr in
    if Z.land l LSR_TX_IDLE =? 0 then ret tt
    else
      match fuel with
      | O => nofuel
      | S fuel =>
          let! c := gets (fun s => x_buf s r) in
          modify (fun s => Ost (x_buf s) (x_w s) ((r + 1) mod UART_TX_BUF_SIZE) (x_panicked s) (x_k s) (x_dev s) (x_user s)) ;;
          wake_writers ;;
          in_uart (write_thr c) ;;
          uartstart fuel
      end.

(** With a full buffer the thread goes to sleep; it goes on at the test when it runs again.
    After a panic it spins. *)
Definition uartputc (c : Z) : M ost unit :=
  lock uart_tx_lock ;;
  let! pk := gets x_panicked in
  if pk then blocked
  else
    let! w := gets x_w in
    let! r := gets x_r in
    if (w + 1) mod UART_TX_BUF_SIZE =? r then sleep_switch uart_tx_r_addr uart_tx_lock ;; blocked
    else
      modify (fun s => Ost (upd (x_buf s) w (u8 c)) ((w + 1) mod UART_TX_BUF_SIZE) (x_r s) (x_panicked s) (x_k s) (x_dev s) (x_user s)) ;;
      uartstart 32 ;;
      unlock uart_tx_lock.

(** The loop that waits for the port ends when the port is idle; [spin] bounds the reads of LSR. *)
Fixpoint wait_idle (spin : nat) : M ost unit :=
  match spin with
  | O => nofuel
  | S spin =>
      let! l := in_uart read_lsr in
      if Z.land l LSR_TX_IDLE =? 0 then wait_idle spin else ret tt
  end.

Definition uartputc_sync (spin : nat) (c : Z) : M ost unit :=
  in_k (on_smp (push_off h)) ;;
  let! pk := gets x_panicked in
  if pk then blocked
  else
    wait_idle spin ;;
    in_uart (write_thr (u8 c)) ;;
    in_k (on_smp (pop_off h)).

Definition uartgetc : M ost Z :=
  let! l := in_uart read_lsr in
  if negb (Z.land l LSR_RX_READY =? 0) then in_uart read_rhr else ret (-1).

(** IER is register 1, FCR 2 and LCR 3. *)
Definition uartinit : M ost unit :=
  in_uart (write_reg 1 0) ;;
  in_uart (write_reg 3 128) ;;
  in_uart (write_reg 0 3) ;;
  in_uart (write_reg 1 0) ;;
  in_uart (write_reg 3 3) ;;
  in_uart (write_reg 2 7) ;;
  in_uart (write_reg 1 3) ;;
  in_k (on_smp (initlock uart_tx_lock)).

(** The loop of [consolewrite], for memory of the process. *)
Fixpoint consolewrite_loop (k : nat) (src i : Z) : M ost Z :=
  match k with
  | O => ret i
  | S k =>
      let! r := in_user (u_copyin [0] (u64 (src + i))) in
      if fst r =? -1 then ret i
      else uartputc (hd 0 (snd r)) ;; consolewrite_loop k src (i + 1)
  end.

Definition consolewrite (src n : Z) : M ost Z :=
  lock cons_lock ;;
  let! i := consolewrite_loop (Z.to_nat n) src 0 in
  unlock cons_lock ;;
  ret i.
End Output.

Arguments ost : clear implicits.

(** ** The transmit buffer is a queue *)

Section Fifo.
Context {D U : Type} {UA : Uart D} (uart_tx_r_addr : Z).
Implicit Types (s : ost D U).

(** The characters that the port has taken: a read of LSR does not change them, and a write to
    THR of an idle port adds one. *)
Context (sent : D -> list Z).
Context (Hlsr : forall d, exists l d', read_lsr d = Ok (l, d') /\ sent d' = sent d).
Context (Hthr : forall c d, exists d', write_thr c d = Ok (tt, d') /\ sent d' = sent d ++ [c]).

Definition tx_queue (s : ost D U) (q : list Z) : Prop :=
  0 <= x_r s < UART_TX_BUF_SIZE /\ x_w s = (x_r s + Z.of_nat (length q)) mod UART_TX_BUF_SIZE /\
  Z.of_nat (length q) < UART_TX_BUF_SIZE /\ ring UART_TX_BUF_SIZE (x_buf s) (x_r s) q.

(** [uartstart] passes characters to the port in their order; it stops when the buffer is empty
    or the port busy. *)
Lemma uartstart_fifo q : forall fuel s, (length q <= fuel)%nat -> tx_queue s q ->
  exists s' q1 q2, uartstart uart_tx_r_addr fuel s = Ok (tt, s') /\ q = q1 ++ q2 /\ tx_queue s' q2 /\ sent (x_dev s') = sent (x_dev s) ++ q1.
Proof.
  induction q as [|c q IH]; intros fuel s Hf HQ; pose proof HQ as (Hr & Hw & Hl & R).
  - exists s, [], []. split; [|by rewrite !app_nil_r]. cbn [length] in Hw. rewrite Z.add_0_r, Z.mod_small in Hw by done. destruct fuel; cbn [uartstart]; mcomp; mcomp; by rewrite Hw, Z.eqb_refl.
  - destruct fuel as [|fuel]; [cbn in Hf; lia|]. destruct (ring_pop _ _ _ _ _ R) as [Hc R']. rewrite Z.mod_small in Hc by done.
    destruct (Hlsr (x_dev s)) as (l & d & El & Es). cbn [uartstart]. mcomp. mcomp.
    rewrite (proj2 (Z.eqb_neq _ _)) by (rewrite Hw; cbn [length] in *; unfold UART_TX_BUF_SIZE in *; dlia). unfold in_uart at 1. erewrite bind_ok; [|by apply zoom_ok; exact El].
    destruct (_ =? 0).
    { eexists _, [], (c :: q). split; [reflexivity|]. split; [done|]. split; [exact HQ|]. cbn. by rewrite Es, app_nil_r. }
    destruct (Hthr c d) as (d' & Et & Es'). mcomp. mcomp. unfold wake_writers, in_k. mcomp. cbn [x_buf]. rewrite Hc. unfold in_uart at 1. erewrite bind_ok; [|by apply zoom_ok; exact Et].
    match goal with |- context [uartstart _ _ ?x] => destruct (IH fuel x) as (s' & q1 & q2 & H & -> & Q & E) end; [cbn in Hf; lia| |].
    + split_and!; cbn; [apply Z.mod_pos_bound; by unfold UART_TX_BUF_SIZE..| | |].
      * rewrite Hw, Zplus_mod_idemp_l. f_equal. cbn [length]. lia.
      * cbn [length] in Hl. lia.
      * eapply ring_start; [|exact R']. by rewrite Z.mod_mod.
    + exists s', (c :: q1), q2. split; [done|]. split; [done|]. split; [done|]. rewrite E. cbn. rewrite Es', Es. by rewrite <- app_assoc.
Qed.
End Fifo.

(** ** Writing while the port is busy *)

Section Full.
Context {D U : Type} {UA : Uart D} {UM : UserMem U} {UMOk : UserMemOk U}.
Context (cons_lock uart_tx_lock uart_tx_r_addr h p : Z) (Hdiff : cons_lock <> uart_tx_lock /\ cons_lock <> p /\ uart_tx_lock <> p).
Implicit Types (s : ost D U).

(** The serial port is busy: it sends, and does not take another character. *)
Context (busy : D -> Prop) (Hbusy : forall d, busy d -> exists l d', read_lsr d = Ok (l, d') /\ Z.land l LSR_TX_IDLE = 0 /\ busy d').

(** The room in the transmit buffer. *)
Definition tx_room (s : ost D U) : Z := UART_TX_BUF_SIZE - 1 - (x_w s - x_r s) mod UART_TX_BUF_SIZE.

(** In the loop of [consolewrite]: the hart holds [cons.lock] and no other lock. *)
Record writing (s : ost D U) (um : Z -> option Z) : Prop := {
  wr_cons : locks (k_smp (x_k s)) cons_lock = Spinlock 1 (Some h);
  wr_uart : locks (k_smp (x_k s)) uart_tx_lock = Spinlock 0 None;
  wr_proc : locks (k_smp (x_k s)) p = Spinlock 0 None;
  wr_noff : noff (cpus (k_smp (x_k s)) h) = 1;
  wr_intr : intr (cpus (k_smp (x_k s)) h) = false;
  wr_range : 0 <= x_w s < UART_TX_BUF_SIZE /\ 0 <= x_r s < UART_TX_BUF_SIZE;
  wr_up : x_panicked s = false;
  wr_busy : busy (x_dev s);
  wr_user : u_rep (x_user s) um;
}.

Lemma lock_run lk s : locks (k_smp (x_k s)) lk = Spinlock 0 None -> 0 <= noff (cpus (k_smp (x_k s)) h) < 100 ->
  exists sm, lock h lk s = Ok (tt, Ost (x_buf s) (x_w s) (x_r s) (x_panicked s) (with_smp (x_k s) sm) (x_dev s) (x_user s)) /\
    smp_upd h lk (Spinlock 1 (Some h)) (noff (cpus (k_smp (x_k s)) h) + 1) (k_smp (x_k s)) sm.
Proof.
  intros Hl Hn. destruct (acquire_free h lk _ Hl Hn) as (sm & H & Hu). exists sm. split; [|done]. unfold lock, in_k, on_smp, zoom. by rewrite H.
Qed.

Lemma unlock_run lk s : locks (k_smp (x_k s)) lk = Spinlock 1 (Some h) -> 1 <= noff (cpus (k_smp (x_k s)) h) -> intr (cpus (k_smp (x_k s)) h) = false ->
  exists sm, unlock h lk s = Ok (tt, Ost (x_buf s) (x_w s) (x_r s) (x_panicked s) (with_smp (x_k s) sm) (x_dev s) (x_user s)) /\
    smp_upd h lk (Spinlock 0 None) (noff (cpus (k_smp (x_k s)) h) - 1) (k_smp (x_k s)) sm.
Proof.
  intros Hl Hn Hi. destruct (release_held h lk _ Hl Hn Hi) as (sm & H & Hu). exists sm. split; [|done]. unfold unlock, in_k, on_smp, zoom. by rewrite H.
Qed.

(** [sched] refuses to switch while [cons.lock] is held. *)
Lemma sleep_panics chan s : locks (k_smp (x_k s)) uart_tx_lock = Spinlock 1 (Some h) -> locks (k_smp (x_k s)) p = Spinlock 0 None ->
  noff (cpus (k_smp (x_k s)) h) = 2 -> sleep_switch h p chan uart_tx_lock s = Panic "sched locks".
Proof.
  intros Hu Hp Hn. destruct Hdiff as (_ & _ & Hup). unfold sleep_switch. destruct (lock_run p s) as (sm1 & H1 & U1); [done|lia|]. rewrite (bind_ok _ _ _ _ _ H1).
  match goal with |- bind _ _ ?x = _ => set (s1 := x) end. destruct (unlock_run uart_tx_lock s1) as (sm2 & H2 & U2).
  { cbn. by rewrite (su_locks _ _ _ _ _ _ U1). }
  { cbn. rewrite (su_noff _ _ _ _ _ _ U1). lia. }
  { cbn. apply (su_intr _ _ _ _ _ _ U1). lia. }
  rewrite (bind_ok _ _ _ _ _ H2). unfold in_k, zoom. cbn [x_k s1 with_smp]. mcomp. mcomp. unfold sched, on_smp, holding. mcomp. cbn [k_smp].
  cbn in U2. rewrite (su_locks _ _ _ _ _ _ U2), (su_lock _ _ _ _ _ _ U1) by done. cbn [locked lkcpu Z.eqb negb andb]. rewrite bool_decide_eq_true_2 by done. cbn [negb panic_if]. mcomp. mcomp.
  cbn [k_smp with_smp]. rewrite (su_noff _ _ _ _ _ _ U2), (su_noff _ _ _ _ _ _ U1), Hn. reflexivity.
Qed.

(** A full buffer: the panic. *)
Lemma uartputc_full c s um : writing s um -> tx_room s = 0 -> uartputc uart_tx_lock uart_tx_r_addr h p c s = Panic "sched locks".
Proof.
  intros W Hroom. unfold uartputc. destruct (lock_run uart_tx_lock s) as (sm & H & Hu); [apply W|rewrite (wr_noff _ _ W); lia|]. rewrite (bind_ok _ _ _ _ _ H). mcomp. cbn [x_panicked]. rewrite (wr_up _ _ W).
  mcomp. mcomp. cbn [x_w x_r]. pose proof (wr_range _ _ W) as Hr. unfold tx_room, UART_TX_BUF_SIZE in *. rewrite (proj2 (Z.eqb_eq _ _)) by dlia.
  apply bind_panic, sleep_panics; cbn.
  - apply Hu.
  - rewrite (su_locks _ _ _ _ _ _ Hu); [apply W|]. destruct Hdiff as (_ & _ & ?). congruence.
  - rewrite (su_noff _ _ _ _ _ _ Hu), (wr_noff _ _ W). lia.
Qed.

(** Room in the buffer: the character is stored, and stays there. *)
Lemma uartputc_room c s um : writing s um -> 0 < tx_room s ->
  exists s', uartputc uart_tx_lock uart_tx_r_addr h p c s = Ok (tt, s') /\ writing s' um /\ tx_room s' = tx_room s - 1.
Proof.
  intros W Hroom. unfold uartputc. destruct (lock_run uart_tx_lock s) as (sm & H & Hu); [apply W|rewrite (wr_noff _ _ W); lia|]. rewrite (bind_ok _ _ _ _ _ H). mcomp. cbn [x_panicked]. rewrite (wr_up _ _ W).
  mcomp. mcomp. cbn [x_w x_r]. pose proof (wr_range _ _ W) as Hr. unfold tx_room, UART_TX_BUF_SIZE in *. rewrite (proj2 (Z.eqb_neq _ _)) by dlia. mcomp. cbn [x_buf x_w x_r x_panicked x_k x_dev x_user].
  destruct (Hbusy _ (wr_busy _ _ W)) as (l & d' & Hl & Hidle & Hb'). match goal with |- context [bind (uartstart _ _) _ ?x] => set (s1 := x) end.
  assert (uartstart uart_tx_r_addr 32 s1 = Ok (tt, Ost (x_buf s1) (x_w s1) (x_r s1) (x_panicked s1) (x_k s1) d' (x_user s1))) as Hst.
  { cbn [uartstart]. mcomp. mcomp. cbn [x_w x_r s1]. rewrite (proj2 (Z.eqb_neq _ _)) by dlia. unfold in_uart. erewrite bind_ok; [|by apply zoom_ok; exact Hl]. by rewrite Hidle. }
  rewrite (bind_ok _ _ _ _ _ Hst). match goal with |- context [unlock _ _ ?x] => destruct (unlock_run uart_tx_lock x) as (sm2 & H2 & U2) end.
  { cbn. apply Hu. }
  { cbn. rewrite (su_noff _ _ _ _ _ _ Hu), (wr_noff _ _ W). lia. }
  { cbn. apply (su_intr _ _ _ _ _ _ Hu). rewrite (wr_noff _ _ W). lia. }
  eexists. split; [exact H2|]. destruct Hdiff as (Hcu & Hcp & Hup). cbn in U2. split; [split; cbn|cbn; dlia].
  - rewrite (su_locks _ _ _ _ _ _ U2), (su_locks _ _ _ _ _ _ Hu); [apply W|done|done].
  - apply U2.
  - rewrite (su_locks _ _ _ _ _ _ U2), (su_locks _ _ _ _ _ _ Hu); [apply W|congruence|congruence].
  - rewrite (su_noff _ _ _ _ _ _ U2), (su_noff _ _ _ _ _ _ Hu), (wr_noff _ _ W). lia.
  - apply (su_intr _ _ _ _ _ _ U2). rewrite (su_noff _ _ _ _ _ _ Hu), (wr_noff _ _ W). lia.
  - unfold UART_TX_BUF_SIZE. split; [apply Z.mod_pos_bound; lia|lia].
  - done.
  - exact Hb'.
  - apply W.
Qed.

(** A byte of the process. *)
Lemma getchar s um va b : u_rep (x_user s) um -> 0 <= va < 2 ^ 64 -> um va = Some b ->
  exists u, in_user (u_copyin [0] va) s = Ok ((0, [b]), Ost (x_buf s) (x_w s) (x_r s) (x_panicked s) (x_k s) (x_dev s) u) /\ u_rep u um.
Proof.
  intros Hr Hva Hb. destruct (u_copyin_ok (x_user s) um [0] va Hr Hva) as (rv & bs & u & H & Hu & _ & Hbs & [[-> Hl]|(_ & Hl & Hn)]).
  - by repeat constructor.
  - cbn. unfold PGSIZE. lia.
  - destruct bs as [|b' [|]]; cbn in Hl; try lia. specialize (Hbs O b' eq_refl). rewrite Z.add_0_r, Hb in Hbs. injection Hbs as <-.
    exists u. split; [|done]. unfold in_user, zoom. by rewrite H.
  - destruct bs; cbn in Hl; [|lia]. cbn in Hn. rewrite Z.add_0_r in Hn. congruence.
Qed.

(** The loop stores what there is room for, and panics on the next character. *)
Lemma consolewrite_loop_run k : forall s um src i, writing s um -> 0 <= i ->
  (forall j, i <= j < i + Z.of_nat k -> is_Some (um (u64 (src + j)))) ->
  (tx_room s < Z.of_nat k -> consolewrite_loop uart_tx_lock uart_tx_r_addr h p k src i s = Panic "sched locks") /\
  (Z.of_nat k <= tx_room s -> exists s', consolewrite_loop uart_tx_lock uart_tx_r_addr h p k src i s = Ok (i + Z.of_nat k, s') /\ writing s' um /\ tx_room s' = tx_room s - Z.of_nat k).
Proof.
  induction k as [|k IH]; intros s um src i W Hi Hb.
  { assert (0 <= tx_room s) by (unfold tx_room, UART_TX_BUF_SIZE; dlia). split; [lia|]. intros _. exists s. split_and!; [|done|lia]. cbn. by rewrite Z.add_0_r. }
  destruct (Hb i) as [b Eb]; [lia|]. destruct (getchar s um (u64 (src + i)) b) as (u & Hg & Hu); [apply W|apply u64_bound|done|].
  cbn [consolewrite_loop]. rewrite (bind_ok _ _ _ _ _ Hg). cbn [fst snd hd Z.eqb]. match goal with |- context [bind _ _ ?x] => set (s1 := x) end.
  assert (writing s1 um) as W1 by (destruct W; by split). change (tx_room s) with (tx_room s1).
  destruct (decide (tx_room s1 = 0)) as [E|E].
  - split; [|lia]. intros _. by eapply bind_panic, uartputc_full.
  - assert (0 <= tx_room s1) by (unfold tx_room, UART_TX_BUF_SIZE; dlia). destruct (uartputc_room b s1 um W1) as (s2 & H2 & W2 & R2); [lia|]. rewrite (bind_ok _ _ _ _ _ H2).
    destruct (IH s2 um src (i + 1) W2) as [Hp Hr]; [lia|intros; apply Hb; lia|]. split; [intros; apply Hp; lia|]. intros Hk.
    destruct Hr as (s3 & H3 & W3 & R3); [lia|]. exists s3. split_and!; [rewrite H3; do 2 f_equal; lia|done|lia].
Qed.

(** No lock is held before the call. *)
Record quiet (s : ost D U) (um : Z -> option Z) : Prop := {
  qu_locks lk : lk ∈ [cons_lock; uart_tx_lock; p] -> locks (k_smp (x_k s)) lk = Spinlock 0 None;
  qu_noff : noff (cpus (k_smp (x_k s)) h) = 0;
  qu_range : 0 <= x_w s < UART_TX_BUF_SIZE /\ 0 <= x_r s < UART_TX_BUF_SIZE;
  qu_up : x_panicked s = false;
  qu_busy : busy (x_dev s);
  qu_user : u_rep (x_user s) um;
}.

Lemma consolewrite_run s um src n : quiet s um -> 0 <= n -> (forall j, 0 <= j < n -> is_Some (um (u64 (src + j)))) ->
  (tx_room s < n -> consolewrite cons_lock uart_tx_lock uart_tx_r_addr h p src n s = Panic "sched locks") /\
  (n <= tx_room s -> exists s', consolewrite cons_lock uart_tx_lock uart_tx_r_addr h p src n s = Ok (n, s') /\ quiet s' um /\ tx_room s' = tx_room s - n).
Proof.
  intros Hq Hn Hb. destruct Hdiff as (Hcu & Hcp & Hup). unfold consolewrite. destruct (lock_run cons_lock s) as (sm & H & Hu); [apply Hq; by left|rewrite (qu_noff _ _ Hq); lia|].
  rewrite (bind_ok _ _ _ _ _ H). match goal with |- context [bind _ _ ?x] => set (s1 := x) end.
  assert (writing s1 um) as W.
  { split; cbn; try apply Hq; [apply Hu|rewrite (su_locks _ _ _ _ _ _ Hu) by done; apply Hq; by right; left|rewrite (su_locks _ _ _ _ _ _ Hu) by done; apply Hq; by right; right; left|..].
    all: rewrite ?(su_noff _ _ _ _ _ _ Hu), ?(qu_noff _ _ Hq); try lia. apply (su_intr _ _ _ _ _ _ Hu). rewrite (qu_noff _ _ Hq). lia. }
  destruct (consolewrite_loop_run (Z.to_nat n) s1 um src 0 W) as [Hp Hr]; [lia|intros; apply Hb; lia|]. rewrite Z2Nat.id in Hp, Hr by done. change (tx_room s1) with (tx_room s) in *.
  split; [intros; by apply bind_panic, Hp|]. intros Hle. destruct (Hr Hle) as (s2 & H2 & W2 & R2). rewrite (bind_ok _ _ _ _ _ H2).
  destruct (unlock_run cons_lock s2) as (sm2 & H3 & U3); [apply W2|rewrite (wr_noff _ _ W2); lia|apply (wr_intr _ _ W2)|]. rewrite (bind_ok _ _ _ _ _ H3). eexists. split; [reflexivity|].
  split; [|done]. split; cbn; try apply W2; [|rewrite (su_noff _ _ _ _ _ _ U3), (wr_noff _ _ W2); lia].
  intros lk Hlk. destruct (decide (lk = cons_lock)) as [->|Hne]; [apply U3|]. rewrite (su_locks _ _ _ _ _ _ U3) by done. rewrite !elem_of_cons, elem_of_nil in Hlk. destruct Hlk as [|[->|[->|[]]]]; [done|apply W2|apply W2].
Qed.
End Full.

(** C37. A long write to the console panics the kernel.  [consolewrite] holds [cons.lock] while
    [uartputc] sleeps for room in the transmit buffer; [sleep] releases [uart_tx_lock] only, and
    [sched] panics because a lock is held.  So while the serial port is busy, a [write] of a
    process of more bytes than there is room for in the buffer (at most 31) ends in the panic
    [sched locks]; a write that fits returns its length and leaves the locks free. *)
Theorem consolewrite_panics (D U : Type) (UA : Uart D) (UM : UserMem U) (UMOk : UserMemOk U) (cons_lock uart_tx_lock uart_tx_r_addr h p : Z)
    (busy : D -> Prop) (s : ost D U) (um : Z -> option Z) (src n : Z)
    (Hdiff : cons_lock <> uart_tx_lock /\ cons_lock <> p /\ uart_tx_lock <> p)
    (Hbusy : forall d, busy d -> exists l d', read_lsr d = Ok (l, d') /\ Z.land l LSR_TX_IDLE = 0 /\ busy d')
    (Hquiet : quiet cons_lock uart_tx_lock h p busy s um) (Hn : 0 <= n) (Hmapped : forall j, 0 <= j < n -> is_Some (um (u64 (src + j)))) :
  0 <= tx_room s < UART_TX_BUF_SIZE /\
  (tx_room s < n -> consolewrite cons_lock uart_tx_lock uart_tx_r_addr h p src n s = Panic "sched locks") /\
  (n <= tx_room s -> exists s', consolewrite cons_lock uart_tx_lock uart_tx_r_addr h p src n s = Ok (n, s') /\
     quiet cons_lock uart_tx_lock h p busy s' um /\ tx_room s' = tx_room s - n).
Proof.
  split; [unfold tx_room, UART_TX_BUF_SIZE; dlia|]. by apply consolewrite_run.
Qed.

(** A port that is always busy, an empty buffer, and a write of 40 bytes. *)
#[local] Instance busy_port : Uart unit := { read_lsr := ret 0; read_rhr := ret 0; write_thr _ := ret tt; write_reg _ _ := ret tt }.

Definition slow_write : ost unit flat :=
  Ost (fun _ => 0) 0 0 false
    (Kst (Smp (fun _ => Cpu 0 true true) (fun _ => Spinlock 0 None)) (fun _ => Proc RUNNING None 0 false 0 1 0 0 0 0 (Context_ 0 0) (fun _ => 0) 0 [])
      (fun _ => Some 3) (fun _ => AtForkret) (fun _ => 0) (fun _ => PFree 3)) tt (fun x => if (0 <=? x) && (x <? 4096) then Some 65 else None).

Lemma consolewrite_panics_witness : consolewrite 100 101 200 0 3 1000 40 slow_write = Panic "sched locks".
Proof.
  refine (proj1 (proj2 (consolewrite_panics unit flat busy_port flat_user flat_user_ok 100 101 200 0 3 (fun _ => True) slow_write (x_user slow_write) 1000 40 _ _ _ _ _)) _).
  - lia.
  - intros []. by exists 0, tt.
  - split; try done. intros x. split; [done|]. cbn. by destruct (_ && _); intros b [= <-].
  - lia.
  - intros j Hj. rewrite u64_small by lia. cbn. rewrite (proj2 (Z.leb_le _ _)), (proj2 (Z.ltb_lt _ _)) by lia. by eexists.
  - by vm_compute.
Defined.
