(* ===== verification/ConsoleIn.v ===== *)
(** * Reading from the console: the input of [kernel/console.c]

    [consoleintr] edits a line in the ring [cons.buf] and echoes it; [consoleread] gives whole
    lines to processes.  Code under [cons.lock] is one step, and [sleep] ends a step with the
    process asleep on [&cons.r].  The echo goes to a terminal, as the output of [printf]. *)

From S2P Require Import Prelude Riscv Bytes Ring Proc ProcSpec UserIO Printf.

Definition BACKSPACE : Z := 256.
Definition INPUT_BUF : Z := 128.
(** [C(x)]: control characters. *)
Definition ctrl (x : Z) : Z := x - 64.
Definition CTRL_P : Z := ctrl 80.
Definition CTRL_U : Z := ctrl 85.
Definition CTRL_H : Z := ctrl 72.
Definition CTRL_D : Z := ctrl 68.
Definition NEWLINE : Z := 10.

(** [cons], the printer, the memory of the process that runs, and the process table. *)
Record cin (S U : Type) := Cin {
  c_buf : Z -> Z;
  c_r : Z;
  c_w : Z;
  c_e : Z;
  c_pr : kpr S;
  c_user : U;
  c_procs : Z -> proc;
}.
Arguments Cin {S U}.
Arguments c_buf {S U}.
Arguments c_r {S U}.
Arguments c_w {S U}.
Arguments c_e {S U}.
Arguments c_pr {S U}.
Arguments c_user {S U}.
Arguments c_procs {S U}.

(** What a read does: it returns, or it sleeps with [n] bytes to go. *)
Inductive cout := CReturn (v : Z) | CSleep (dst : Z) (n : nat).

(** ["unused"], ["sleep "], ["runble"], ["run   "], ["zombie"] *)
Definition state_text (st : procstate) : list Z :=
  match st with
  | UNUSED => [117; 110; 117; 115; 101; 100]
  | SLEEPING => [115; 108; 101; 101; 112; 32]
  | RUNNABLE => [114; 117; 110; 98; 108; 101]
  | RUNNING => [114; 117; 110; 32; 32; 32]
  | ZOMBIE => [122; 111; 109; 98; 105; 101]
  end.

(** The characters before the NUL. *)
Fixpoint cut_nul (l : list Z) : list Z :=
  match l with
  | [] => []
  | c :: l => if c =? 0 then [] else c :: cut_nul l
  end.

Section Input.
Context {S U : Type} {T : Terminal S} {UM : UserMem U}.
(** The address [&cons.r]. *)
Context (cons_r : Z).

Definition in_pr {A} (m : M (kpr S) A) : M (cin S U) A :=
  zoom c_pr (fun x s => Cin (c_buf s) (c_r s) (c_w s) (c_e s) x (c_user s) (c_procs s)) m.
Definition in_mem {A} (m : M U A) : M (cin S U) A :=
  zoom c_user (fun x s => Cin (c_buf s) (c_r s) (c_w s) (c_e s) (c_pr s) x (c_procs s)) m.
Definition set_r (v : Z) : M (cin S U) unit := modify (fun s => Cin (c_buf s) v (c_w s) (c_e s) (c_pr s) (c_user s) (c_procs s)).
Definition set_w (v : Z) : M (cin S U) unit := modify (fun s => Cin (c_buf s) (c_r s) v (c_e s) (c_pr s) (c_user s) (c_procs s)).
Definition set_e (v : Z) : M (cin S U) unit := modify (fun s => Cin (c_buf s) (c_r s) (c_w s) v (c_pr s) (c_user s) (c_procs s)).
Definition set_cbuf (i v : Z) : M (cin S U) unit := modify (fun s => Cin (upd (c_buf s) i v) (c_r s) (c_w s) (c_e s) (c_pr s) (c_user s) (c_procs s)).
Definition set_procs (f : Z -> proc -> proc) : M (cin S U) unit :=
  modify (fun s => Cin (c_buf s) (c_r s) (c_w s) (c_e s) (c_pr s) (c_user s) (fun i => f i (c_procs s i))).

Definition consputc (c : Z) : M (cin S U) unit :=
  in_pr (on_console (
    if c =? BACKSPACE then putc 8 ;; putc 32 ;; putc 8
    else putc c)).

(** 1 and 2 stand for the addresses of [state] and of [p->name]. *)
Definition procdump : M (cin S U) unit :=
  in_pr (printf (fun _ => []) (Some [10]) []) ;;
  mfor (upto NPROC) (fun i =>
    let! p := gets (fun s => c_procs s i) in
    if procstate_eqb (p_state p) UNUSED then ret tt
    else
      in_pr (printf (fun a => if a =? 1 then state_text (p_state p) else cut_nul (p_name p)) (Some [37; 100; 32; 37; 115; 32; 37; 115]) [p_pid p; 1; 2]) ;;
      in_pr (printf (fun _ => []) (Some [10]) [])).

(** Kill line: the buffer has at most [INPUT_BUF] characters. *)
Fixpoint kill_line (fuel : nat) : M (cin S U) unit :=
  let! e := gets c_e in
  let! w := gets c_w in
  let! b := gets (fun s => c_buf s (u32 (e - 1) mod INPUT_BUF)) in
  if negb (e =? w) && negb (b =? NEWLINE) then
    match fuel with
    | O => nofuel
    | Datatypes.S fuel => set_e (u32 (e - 1)) ;; consputc BACKSPACE ;; kill_line fuel
    end
  else ret tt.

Definition consoleintr (c : Z) : M (cin S U) unit :=
  if c =? CTRL_P then procdump
  else if c =? CTRL_U then kill_line 128
  else if (c =? CTRL_H) || (c =? 127) then
    let! e := gets c_e in
    let! w := gets c_w in
    if negb (e =? w) then set_e (u32 (e - 1)) ;; consputc BACKSPACE else ret tt
  else
    let! e := gets c_e in
    let! r := gets c_r in
    if negb (c =? 0) && (u32 (e - r) <? INPUT_BUF) then
      let c := if c =? 13 then NEWLINE else c in
      consputc c ;;
      set_cbuf (e mod INPUT_BUF) (u8 c) ;;
      set_e (u32 (e + 1)) ;;
      if (c =? NEWLINE) || (c =? CTRL_D) || (u32 (e + 1) =? u32 (r + INPUT_BUF)) then
        set_w (u32 (e + 1)) ;;
        set_procs (fun _ => woken cons_r)
      else ret tt
    else ret tt.

(** The loop of [consoleread] in process [p], with [n] bytes to go out of [target]. *)
Fixpoint consoleread_loop (p target dst : Z) (n : nat) : M (cin S U) cout :=
  match n with
  | O => ret (CReturn target)
  | Datatypes.S n' =>
      let! r := gets c_r in
      let! w := gets c_w in
      if r =? w then
        let! x := gets (fun s => c_procs s p) in
        if p_killed x then ret (CReturn (-1))
        else set_procs (fun i x => if i =? p then with_state SLEEPING (with_chan cons_r x) else x) ;; ret (CSleep dst n)
      else
        let! c := gets (fun s => c_buf s (r mod INPUT_BUF)) in
        set_r (u32 (r + 1)) ;;
        if c =? CTRL_D then
          (if Z.of_nat n <? target then set_r (u32 (u32 (r + 1) - 1)) else ret tt) ;;
          ret (CReturn (target - Z.of_nat n))
        else
          let! rv := in_mem (u_copyout dst [u8 c]) in
          if rv =? -1 then ret (CReturn (target - Z.of_nat n))
          else if c =? NEWLINE then ret (CReturn (target - Z.of_nat n'))
          else consoleread_loop p target (u64 (dst + 1)) n'
  end.

Definition consoleread (p dst n : Z) : M (cin S U) cout :=
  if 0 <? n then consoleread_loop p n dst (Z.to_nat n) else ret (CReturn 0).

(** A process that was asleep in a read goes on at the test of the inner loop. *)
Definition consoleread_resume (p target dst : Z) (n : nat) : M (cin S U) cout :=
  set_procs (fun i x => if i =? p then with_chan 0 x else x) ;;
  consoleread_loop p target dst n.
End Input.
