(* ===== verification/ConsoleSpec.v ===== *)
(** * The console as a line editor

    The ring of [ConsoleIn] holds the lines that were entered, and behind them the line that is
    being edited.  [edit] is what a key does to the two, [read_out] what a read takes. *)

From S2P Require Import Prelude Riscv Bytes Ring Proc ProcSpec UserIO Printf ConsoleIn.

(** A character that ends a line: newline and end of file. *)
Definition ends (c : Z) : bool := (c =? NEWLINE) || (c =? CTRL_D).
Definition plain (l : list Z) : Prop := Forall (fun c => ends c = false) l.

(** What a key does to the lines entered [C] and the line being edited [E]. *)
Definition edit (c : Z) (C E : list Z) : list Z * list Z :=
  if c =? CTRL_P then (C, E)
  else if c =? CTRL_U then (C, [])
  else if (c =? CTRL_H) || (c =? 127) then (C, take (length E - 1) E)
  else if negb (c =? 0) && (Z.of_nat (length C + length E) <? INPUT_BUF) then
    let c := if c =? 13 then NEWLINE else c in
    if ends c || (Z.of_nat (length C + length E) + 1 =? INPUT_BUF) then (C ++ E ++ [c], []) else (C, E ++ [c])
  else (C, E).

(** The characters that it shows. *)
Definition rubout : list Z := [8; 32; 8].
Definition echo (c : Z) (C E : list Z) : list Z :=
  if c =? CTRL_U then mjoin (replicate (length E) rubout)
  else if (c =? CTRL_H) || (c =? 127) then (if E is [] then [] else rubout)
  else if negb (c =? 0) && (Z.of_nat (length C + length E) <? INPUT_BUF) then [if c =? 13 then NEWLINE else c]
  else [].

(** What a read with [n] bytes to go takes of the lines [C]: up to a newline; as much as it may;
    up to an end of file, which it takes too if it has taken nothing else; all there is, and
    then it waits, or fails if it is killed; or up to an address that is not mapped, where the
    next character is lost. *)
Inductive read_out (um : Z -> option Z) (killed : bool) (target dst : Z) (n : nat) (C : list Z) : list Z -> cout -> list Z -> Prop :=
| ro_line l rest : C = l ++ NEWLINE :: rest -> plain l -> (length l < n)%nat ->
    read_out um killed target dst n C (l ++ [NEWLINE]) (CReturn (target - Z.of_nat n + Z.of_nat (length l) + 1)) rest
| ro_full l rest : C = l ++ rest -> plain l -> length l = n -> read_out um killed target dst n C l (CReturn target) rest
| ro_eof l rest : C = l ++ CTRL_D :: rest -> plain l -> (length l < n)%nat ->
    read_out um killed target dst n C l (CReturn (target - Z.of_nat n + Z.of_nat (length l))) (if Z.of_nat (n - length l) <? target then CTRL_D :: rest else rest)
| ro_wait : plain C -> (length C < n)%nat ->
    read_out um killed target dst n C C (if killed then CReturn (-1) else CSleep (dst + Z.of_nat (length C)) (n - length C)) []
| ro_fault l x rest : C = l ++ x :: rest -> plain l -> x <> CTRL_D -> (length l < n)%nat -> um (dst + Z.of_nat (length l)) = None ->
    read_out um killed target dst n C l (CReturn (target - Z.of_nat n + Z.of_nat (length l))) rest.

Section Spec.
Context {S U : Type} {T : Terminal S} {TOk : TerminalOk S} {UM : UserMem U} {UMOk : UserMemOk U} (cons_r : Z).
Implicit Types (s : cin S U) (C E : list Z).

(** [C] and [E] are in the ring, behind the counters that wrap around at 2^32. *)
Record crep (s : cin S U) (C E : list Z) : Prop := {
  cr_r : 0 <= c_r s < 2 ^ 32;
  cr_w : c_w s = u32 (c_r s + Z.of_nat (length C));
  cr_e : c_e s = u32 (c_r s + Z.of_nat (length (C ++ E)));
  cr_ring : ring INPUT_BUF (c_buf s) (c_r s) (C ++ E);
  cr_room : Z.of_nat (length (C ++ E)) <= INPUT_BUF;
  cr_bytes : bytes (C ++ E);
  cr_edit : plain E;
}.

(** Nobody sleeps for a line when there is one. *)
Definition calm (s : cin S U) (C : list Z) : Prop :=
  forall p, p_state (c_procs s p) = SLEEPING -> p_chan (c_procs s p) = cons_r -> C = [].

Lemma u32_dist a n : 0 <= n < 2 ^ 32 -> u32 (u32 (a + n) - a) = n.
Proof. intros H. unfold u32. rewrite Zminus_mod_idemp_l. replace (a + n - a) with n by lia. by apply Z.mod_small. Qed.

Lemma u32_inj a m n : 0 <= m < 2 ^ 32 -> 0 <= n < 2 ^ 32 -> u32 (a + m) = u32 (a + n) -> m = n.
Proof. intros Hm Hn E. by rewrite <- (u32_dist a m), <- (u32_dist a n), E. Qed.

Lemma u32_buf a : u32 a mod INPUT_BUF = a mod INPUT_BUF.
Proof. unfold u32, INPUT_BUF. dlia. Qed.

Lemma u32_shift a b : u32 (u32 a + b) = u32 (a + b).
Proof. unfold u32. by rewrite Zplus_mod_idemp_l. Qed.

(** One character on the terminal, and a rubout. *)
Lemma consputc_run c s : exists x, consputc (U := U) c s = Ok (tt, Cin (c_buf s) (c_r s) (c_w s) (c_e s) x (c_user s) (c_procs s)) /\
  pr_locked x = pr_locked (c_pr s) /\ pr_locking x = pr_locking (c_pr s) /\ shown (pr_cons x) = shown (pr_cons (c_pr s)) ++ (if c =? BACKSPACE then rubout else [c]).
Proof.
  unfold consputc, in_pr, on_console. destruct (c =? BACKSPACE).
  - destruct (putc_ok 8 (pr_cons (c_pr s))) as (s1 & H1 & E1). destruct (putc_ok 32 s1) as (s2 & H2 & E2). destruct (putc_ok 8 s2) as (s3 & H3 & E3).
    eexists. split; [unfold zoom, bind; by rewrite H1, H2, H3|]. split_and!; [done..|]. cbn. by rewrite E3, E2, E1, <- !app_assoc.
  - destruct (putc_ok c (pr_cons (c_pr s))) as (s1 & H1 & E1). eexists. split; [unfold zoom; by rewrite H1|]. by split_and!.
Qed.

Lemma plain_take k l : plain l -> plain (take k l).
Proof. by apply Forall_take. Qed.

(** The last character of the edited line leaves the ring. *)
Lemma crep_drop s C E c x : crep s C (E ++ [c]) ->
  crep (Cin (c_buf s) (c_r s) (c_w s) (u32 (c_e s - 1)) x (c_user s) (c_procs s)) C E /\
  c_e s <> c_w s /\ c_buf s (u32 (c_e s - 1) mod INPUT_BUF) = c.
Proof.
  intros [R1 R2 R3 R4 R5 R6 R7]. rewrite app_assoc, length_app in R3, R5. rewrite app_assoc in R4, R6. cbn [length] in R3, R5. unfold INPUT_BUF in R5.
  apply ring_app in R4 as [R4 R8]. apply Forall_app in R6 as [R6 _]. apply Forall_app in R7 as [R7 _].
  assert (u32 (c_e s - 1) = u32 (c_r s + Z.of_nat (length (C ++ E)))) as Ee by (rewrite R3; replace (u32 _ - 1) with (u32 (c_r s + Z.of_nat (length (C ++ E) + 1)) + -1) by lia; rewrite u32_shift; f_equal; lia).
  split_and!.
  - split; cbn; try done. unfold INPUT_BUF. lia.
  - rewrite R2, R3. intros H%u32_inj; rewrite length_app in *; lia.
  - rewrite Ee, u32_buf. rewrite <- (R8 O c eq_refl). f_equal. f_equal. lia.
Qed.

(** What an interrupt changes besides the ring: what is shown. *)
Definition prints (s s' : cin S U) (out : list Z) : Prop :=
  c_user s' = c_user s /\ pr_locked (c_pr s') = pr_locked (c_pr s) /\ pr_locking (c_pr s') = pr_locking (c_pr s) /\
  shown (pr_cons (c_pr s')) = shown (pr_cons (c_pr s)) ++ out.

Lemma prints_trans s1 s2 s3 o1 o2 : prints s1 s2 o1 -> prints s2 s3 o2 -> prints s1 s3 (o1 ++ o2).
Proof. intros (A1 & A2 & A3 & A4) (B1 & B2 & B3 & B4). split_and!; try congruence. by rewrite B4, A4, app_assoc. Qed.

(** Erase the last character. *)
Lemma erase_run s C E c : crep s C (E ++ [c]) ->
  exists s', (set_e (u32 (c_e s - 1)) ;; consputc BACKSPACE) s = Ok (tt, s') /\ crep s' C E /\ c_procs s' = c_procs s /\ prints s s' rubout.
Proof.
  intros R. mcomp. match goal with |- context [consputc _ ?x] => destruct (consputc_run BACKSPACE x) as (y & H & E1 & E2 & E3) end. exists (Cin (c_buf s) (c_r s) (c_w s) (u32 (c_e s - 1)) y (c_user s) (c_procs s)).
  split; [exact H|]. split; [by eapply crep_drop|]. by split_and!.
Qed.

Lemma crep_empty s C : crep s C [] -> c_e s = c_w s.
Proof. intros R. by rewrite (cr_w _ _ _ R), (cr_e _ _ _ R), app_nil_r. Qed.

Lemma kill_line_run E : forall fuel s C, (length E <= fuel)%nat -> crep s C E ->
  exists s', kill_line fuel s = Ok (tt, s') /\ crep s' C [] /\ c_procs s' = c_procs s /\ prints s s' (mjoin (replicate (length E) rubout)).
Proof.
  induction E as [|c E IH] using rev_ind; intros fuel s C Hf R.
  - exists s. split; [|split; [done|]; split; [done|]; split_and!; try done; by rewrite app_nil_r]. destruct fuel; cbn [kill_line]; mcomp; mcomp; mcomp; by rewrite (crep_empty _ _ R), Z.eqb_refl.
  - rewrite length_app in *. cbn [length] in *. destruct fuel as [|fuel]; [lia|]. destruct (crep_drop s C E c (c_pr s) R) as (_ & Hne & Hc).
    assert (ends c = false) as He by (pose proof (cr_edit _ _ _ R) as [_ [? _]%Forall_cons]%Forall_app; done). apply orb_false_iff in He as [He _].
    destruct (erase_run s C E c R) as (s1 & H1 & R1 & P1 & Q1). destruct (IH fuel s1 C) as (s2 & H2 & R2 & P2 & Q2); [lia|done|].
    exists s2. split_and!; [|done|congruence|].
    + cbn [kill_line]. mcomp. mcomp. mcomp. rewrite (proj2 (Z.eqb_neq _ _) Hne), Hc, He. cbn [negb andb]. rewrite <- bind_assoc. by rewrite (bind_ok _ _ _ _ _ H1).
    + replace (length E + 1)%nat with (Datatypes.S (length E)) by lia. cbn [replicate mjoin list_join]. by eapply prints_trans.
Qed.

Lemma prints_refl s : prints s s [].
Proof. unfold prints. by rewrite app_nil_r. Qed.

(** Code that only prints. *)
Definition only_prints (m : M (cin S U) unit) : Prop := forall s, pr_locked (c_pr s) = false \/ pr_locking (c_pr s) = 0 ->
  exists s' out, m s = Ok (tt, s') /\ c_buf s' = c_buf s /\ c_r s' = c_r s /\ c_w s' = c_w s /\ c_e s' = c_e s /\ c_procs s' = c_procs s /\ prints s s' out.

Lemma only_prints_printf cstr fmt ap : (needs ktakes fmt <= length ap)%nat -> only_prints (in_pr (printf cstr (Some fmt) ap)).
Proof.
  intros Hn s Hl. destruct (c_pr s) as [lk lg pk c] eqn:Ep. destruct (printf_ok cstr fmt ap lk lg pk c Hn) as (out & c' & H & _ & Hs); [cbn in Hl; tauto|].
  eexists _, out. split; [unfold in_pr, zoom; rewrite Ep, H; reflexivity|]. unfold prints. cbn. rewrite Ep. by split_and!.
Qed.

Lemma only_prints_ret : only_prints (ret tt).
Proof. intros s _. exists s, []. split_and!; try done. apply prints_refl. Qed.

Lemma only_prints_bind m1 m2 : only_prints m1 -> only_prints m2 -> only_prints (m1 ;; m2).
Proof.
  intros O1 O2 s Hl. destruct (O1 s Hl) as (s1 & o1 & H1 & A1 & A2 & A3 & A4 & A5 & A6). destruct (O2 s1) as (s2 & o2 & H2 & B1 & B2 & B3 & B4 & B5 & B6); [by destruct A6 as (_ & -> & -> & _)|].
  exists s2, (o1 ++ o2). rewrite (bind_ok _ _ _ _ _ H1). assert (prints s s2 (o1 ++ o2)) by (by eapply prints_trans). split_and!; try done; congruence.
Qed.

Lemma procdump_run : only_prints procdump.
Proof.
  unfold procdump. apply only_prints_bind; [by apply only_prints_printf|]. induction (upto NPROC) as [|i l IH]; [apply only_prints_ret|]. cbn [mfor].
  apply only_prints_bind; [|done]. intros s Hl. mcomp. destruct (procstate_eqb _ _); [by apply only_prints_ret|]. apply only_prints_bind; [apply only_prints_printf, Nat.leb_le; reflexivity|by apply only_prints_printf|done].
Qed.

(** ** Keys *)

Lemma no_sleeper s f : (forall p, f p = woken cons_r (c_procs s p)) -> forall p, p_state (f p) = SLEEPING -> p_chan (f p) <> cons_r.
Proof.
  intros Hf p. rewrite Hf. unfold woken. destruct (procstate_eqb _ _ && _) eqn:E; [done|]. intros H1 H2. unfold procstate_eqb in E. by rewrite H1, H2, bool_decide_eq_true_2, Z.eqb_refl in E.
Qed.

(** A character that is stored. *)
Lemma store_run s C E c y : crep s C E -> 0 < c < 256 -> Z.of_nat (length (C ++ E)) < INPUT_BUF -> ends c || (Z.of_nat (length (C ++ E)) + 1 =? INPUT_BUF) = false ->
  crep (Cin (upd (c_buf s) (c_e s mod INPUT_BUF) (u8 c)) (c_r s) (c_w s) (u32 (c_e s + 1)) y (c_user s) (c_procs s)) C (E ++ [c]).
Proof.
  intros [R1 R2 R3 R4 R5 R6 R7] Hc Hl [He _]%orb_false_iff. split; cbn; try done.
  - rewrite R3, u32_shift, !length_app. cbn. f_equal. lia.
  - rewrite app_assoc, u8_small by lia. apply ring_push; [done|done|done|]. by rewrite R3, u32_buf.
  - rewrite app_assoc, length_app. cbn. lia.
  - rewrite app_assoc. apply Forall_app. split; [done|]. by constructor; [lia|].
  - apply Forall_app. split; [done|]. by repeat constructor.
Qed.

Lemma enter_run s C E c y f : crep s C E -> 0 < c < 256 -> Z.of_nat (length (C ++ E)) < INPUT_BUF ->
  crep (Cin (upd (c_buf s) (c_e s mod INPUT_BUF) (u8 c)) (c_r s) (u32 (c_e s + 1)) (u32 (c_e s + 1)) y (c_user s) f) (C ++ E ++ [c]) [].
Proof.
  intros [R1 R2 R3 R4 R5 R6 R7] Hc Hl. assert (u32 (c_e s + 1) = u32 (c_r s + Z.of_nat (length (C ++ E ++ [c])))) as Ee by (rewrite R3, u32_shift, app_assoc, (length_app (C ++ E)); cbn; f_equal; lia).
  split; cbn; rewrite ?app_nil_r; try done.
  - rewrite app_assoc, u8_small by lia. apply ring_push; [done|done|done|]. by rewrite R3, u32_buf.
  - rewrite app_assoc, length_app. cbn. lia.
  - rewrite app_assoc. apply Forall_app. split; [done|]. by constructor; [lia|].
  - constructor.
Qed.

(** Any key does to the ring what [edit] says. *)
Lemma consoleintr_run s C E c : crep s C E -> calm s C -> 0 <= c < 256 -> pr_locked (c_pr s) = false \/ pr_locking (c_pr s) = 0 ->
  exists s' out, consoleintr cons_r c s = Ok (tt, s') /\ crep s' (fst (edit c C E)) (snd (edit c C E)) /\ calm s' (fst (edit c C E)) /\ prints s s' out /\ (c <> CTRL_P -> out = echo c C E).
Proof.
  intros R Hcalm Hc Hl. unfold consoleintr, edit, echo. destruct (c =? CTRL_P) eqn:EP; bsplit.
  { destruct (procdump_run s Hl) as (s' & out & H & A1 & A2 & A3 & A4 & A5 & A6). exists s', out. split_and!; try done; [|by unfold calm; rewrite A5]. destruct R. by split; rewrite ?A1, ?A2, ?A3, ?A4. }
  destruct (c =? CTRL_U) eqn:EU; bsplit.
  { destruct (kill_line_run E 128 s C) as (s' & H & R' & P & Q); [pose proof (cr_room _ _ _ R) as Hr; rewrite length_app in Hr; unfold INPUT_BUF in Hr; lia|done|]. eexists s', _. split_and!; try done. unfold calm. by rewrite P. }
  destruct ((c =? CTRL_H) || (c =? 127)).
  { mcomp. mcomp. destruct (decide (E = [])) as [->|Hne].
    - rewrite (crep_empty _ _ R), Z.eqb_refl. exists s, []. split_and!; try done. apply prints_refl.
    - destruct (exists_last Hne) as (E' & x & ->). destruct (crep_drop s C E' x (c_pr s) R) as (_ & Hd & _). destruct (erase_run s C E' x R) as (s' & H & R' & P & Q).
      rewrite (proj2 (Z.eqb_neq _ _) Hd). exists s', rubout. split; [done|]. rewrite length_app, Nat.add_sub, take_app_length. split; [done|]. split; [unfold calm; by rewrite P|]. split; [done|]. by destruct E'. }
  mcomp. mcomp. assert (u32 (c_e s - c_r s) = Z.of_nat (length C + length E)) as Ed.
  { rewrite (cr_e _ _ _ R), u32_dist, length_app; [done|]. pose proof (cr_room _ _ _ R). unfold INPUT_BUF in *. lia. }
  rewrite Ed. destruct (negb (c =? 0) && _) eqn:Eacc; [|exists s, []; split_and!; try done; apply prints_refl]. bsplit. set (c' := if c =? 13 then NEWLINE else c).
  assert (0 < c' < 256) as Hc' by (unfold c', NEWLINE; destruct (c =? 13); lia). assert (Z.of_nat (length (C ++ E)) < INPUT_BUF) as Hroom by (rewrite length_app; lia).
  destruct (consputc_run c' s) as (y & Hput & L1 & L2 & Hs). rewrite (bind_ok _ _ _ _ _ Hput). rewrite (proj2 (Z.eqb_neq c' BACKSPACE)) in Hs by (unfold BACKSPACE; lia). mcomp. mcomp. cbn [c_buf c_r c_w c_e c_pr c_user c_procs].
  assert ((u32 (c_e s + 1) =? u32 (c_r s + INPUT_BUF)) = (Z.of_nat (length C + length E) + 1 =? INPUT_BUF)) as Efull.
  { rewrite (cr_e _ _ _ R), u32_shift, length_app. apply eq_bool_prop_intro. rewrite !Is_true_true, !Z.eqb_eq. split; [|intros; f_equal; lia].
    replace (c_r s + Z.of_nat (length C + length E) + 1) with (c_r s + (Z.of_nat (length C + length E) + 1)) by lia. intros E0%u32_inj; unfold INPUT_BUF in *; lia. }
  rewrite Efull. fold (ends c'). destruct (ends c' || _) eqn:Eend.
  - mcomp. cbn [c_buf c_r c_w c_e c_pr c_user c_procs]. eexists _, _. split; [reflexivity|]. split; [exact (enter_run s C E c' y _ R Hc' Hroom)|]. split; [|by split_and!].
    intros p H1 H2. exfalso. by eapply (no_sleeper s (fun i => woken cons_r (c_procs s i))).
  - eexists _, _. split; [reflexivity|]. split; [apply (store_run s C E c' y R Hc' Hroom); by rewrite length_app|]. by split_and!.
Qed.

(** ** Reads *)

(** The first character leaves the ring. *)
Lemma crep_take s C E c u : crep s (c :: C) E ->
  crep (Cin (c_buf s) (u32 (c_r s + 1)) (c_w s) (c_e s) (c_pr s) u (c_procs s)) C E /\ c_r s <> c_w s /\ c_buf s (c_r s mod INPUT_BUF) = c /\ 0 <= c < 256.
Proof.
  intros [R1 R2 R3 R4 R5 R6 R7]. cbn [app length] in *. destruct (ring_pop _ _ _ _ _ R4) as [Hc R4']. apply Forall_cons in R6 as [Hb R6]. rewrite length_app in *. unfold INPUT_BUF in R5. split_and!; try done; try lia.
  - split; cbn; try done.
    + apply u32_bound.
    + rewrite R2, u32_shift. f_equal. lia.
    + rewrite R3, u32_shift, length_app. f_equal. lia.
    + eapply ring_start; [|exact R4']. by rewrite u32_buf.
    + rewrite length_app. unfold INPUT_BUF. lia.
  - rewrite R2. intros E0. assert (0 = Z.of_nat (Datatypes.S (length C))); [|lia]. apply (u32_inj (c_r s)); [lia|lia|]. rewrite Z.add_0_r, <- E0. by apply u32_small.
Qed.

Lemma crep_none s E : crep s [] E -> c_r s = c_w s.
Proof. intros R. rewrite (cr_w _ _ _ R). cbn. rewrite Z.add_0_r. symmetry. by apply u32_small, R. Qed.

Lemma u_write_cons um dst c l x : u_write (u_write um dst [c]) (dst + 1) l x = u_write um dst (c :: l) x.
Proof.
  unfold u_write. cbn [length]. destruct (dst =? x) eqn:E0; bsplit.
  - subst x. rewrite (proj2 (Z.leb_gt (dst + 1) dst)) by lia. cbn [andb]. rewrite Z.leb_refl, !(proj2 (Z.ltb_lt _ _)) by lia. cbn [andb]. by rewrite Z.sub_diag.
  - destruct (dst + 1 <=? x) eqn:E1, (dst <=? x) eqn:E2; bsplit; try lia; cbn [andb].
    + destruct (x <? dst + 1 + _) eqn:E3, (x <? dst + Z.of_nat (Datatypes.S _)) eqn:E4; bsplit; try lia.
      * replace (Z.to_nat (x - dst)) with (Datatypes.S (Z.to_nat (x - (dst + 1)))) by lia. done.
      * by rewrite (proj2 (Z.ltb_ge x _)) by (cbn; lia).
    + done.
Qed.

Lemma read_out_cons um killed target dst n c C out o rest : ends c = false -> read_out um killed target (dst + 1) n C out o rest ->
  read_out um killed target dst (Datatypes.S n) (c :: C) (c :: out) o rest.
Proof.
  intros Hc H. destruct H as [l rest -> Hp Hl|l rest -> Hp Hl|l rest -> Hp Hl|Hp Hl|l x rest -> Hp Hx Hl Hn].
  - replace (target - Z.of_nat n + Z.of_nat (length l) + 1) with (target - Z.of_nat (Datatypes.S n) + Z.of_nat (length (c :: l)) + 1) by (cbn [length]; lia). apply (ro_line _ _ _ _ _ _ (c :: l)); [done|by constructor|cbn; lia].
  - apply (ro_full _ _ _ _ _ _ (c :: l)); [done|by constructor|cbn; lia].
  - replace (target - Z.of_nat n + Z.of_nat (length l)) with (target - Z.of_nat (Datatypes.S n) + Z.of_nat (length (c :: l))) by (cbn [length]; lia).
    replace (n - length l)%nat with (Datatypes.S n - length (c :: l))%nat by (cbn [length]; lia). apply (ro_eof _ _ _ _ _ _ (c :: l)); [done|by constructor|cbn; lia].
  - replace (dst + 1 + Z.of_nat (length C)) with (dst + Z.of_nat (length (c :: C))) by (cbn [length]; lia).
    replace (n - length C)%nat with (Datatypes.S n - length (c :: C))%nat by (cbn [length]; lia). apply ro_wait; [by constructor|cbn; lia].
  - replace (target - Z.of_nat n + Z.of_nat (length l)) with (target - Z.of_nat (Datatypes.S n) + Z.of_nat (length (c :: l))) by (cbn [length]; lia).
    apply (ro_fault _ _ _ _ _ _ (c :: l) x); [done|by constructor|done|cbn; lia|]. rewrite <- Hn. f_equal. cbn [length]. lia.
Qed.

Lemma read_out_um um um' killed target dst n C out o rest : (forall x, um' x = None -> um x = None) -> read_out um' killed target dst n C out o rest -> read_out um killed target dst n C out o rest.
Proof. intros Hu H. destruct H as [l rest -> Hp Hl|l rest -> Hp Hl|l rest -> Hp Hl|Hp Hl|l x rest -> Hp Hx Hl Hn]; [by apply ro_line|by apply ro_full|by apply ro_eof|by apply ro_wait|eapply ro_fault; eauto]. Qed.

(** One byte to the process. *)
Lemma copy1 (u : U) um dst c : u_rep u um -> 0 <= dst < 2 ^ 64 -> 0 <= c < 256 ->
  (exists u', u_copyout dst [c] u = Ok (0, u') /\ u_rep u' (u_write um dst [c]) /\ is_Some (um dst)) \/
  (exists u', u_copyout dst [c] u = Ok (-1, u') /\ u_rep u' um /\ um dst = None).
Proof.
  intros Hu Hd Hc. destruct (u_copyout_ok u um dst [c] Hu Hd) as (rv & k & u' & H & Hu' & Hk & [[-> ->]|(-> & Hl & Hn)]).
  - by apply Forall_singleton.
  - cbn. unfold PGSIZE. lia.
  - left. exists u'. split_and!; [done|done|]. specialize (Hk 0). rewrite Z.add_0_r in Hk. apply Hk. cbn. lia.
  - right. cbn in Hl. assert (k = O) as -> by lia. exists u'. cbn in Hn. rewrite Z.add_0_r in Hn. split_and!; [done| |done]. eapply u_rep_ext; [exact Hu'|]. intros x. by rewrite u_write_nil.
Qed.

Lemma sleeper_none um killed target dst n C out o rest : read_out um killed target dst n C out o rest -> C = [] -> rest = [].
Proof. intros H ->. destruct H as [l rest E|l rest E|l rest E| |l x rest E]; try done; destruct l; try done; by injection E. Qed.

(** What a run of the loop is to do. *)
Definition reads (p target dst : Z) (n : nat) (s : cin S U) (C E : list Z) (um : Z -> option Z) (r : res (cout * cin S U)) : Prop :=
  exists s' out o rest, r = Ok (o, s') /\ read_out um (p_killed (c_procs s p)) target dst n C out o rest /\ crep s' rest E /\
    u_rep (c_user s') (u_write um dst out) /\ c_pr s' = c_pr s /\
    c_procs s' p = (if o is CSleep _ _ then with_state SLEEPING (with_chan cons_r (c_procs s p)) else c_procs s p) /\ forall q, q <> p -> c_procs s' q = c_procs s q.

Lemma u_rep_nil (u : U) um dst : u_rep u um -> u_rep u (u_write um dst []).
Proof. intros Hu. eapply u_rep_ext; [exact Hu|]. intros x. by rewrite u_write_nil. Qed.

Lemma read_empty p target dst n s E um : crep s [] E -> u_rep (c_user s) um -> reads p target dst (Datatypes.S n) s [] E um (consoleread_loop cons_r p target dst (Datatypes.S n) s).
Proof.
  intros R Hu. pose proof (ro_wait um (p_killed (c_procs s p)) target dst (Datatypes.S n) []) as Hw. cbn [length] in Hw. rewrite Z.add_0_r, Nat.sub_0_r in Hw.
  cbn [consoleread_loop]. mcomp. mcomp. rewrite (crep_none _ _ R), Z.eqb_refl. mcomp. unfold reads. destruct (p_killed (c_procs s p)).
  - exists s, [], (CReturn (-1)), []. split; [done|]. split; [apply Hw; [constructor|lia]|]. split; [done|]. split; [by apply u_rep_nil|done].
  - eexists _, [], _, []. split; [mcomp; reflexivity|]. split; [apply Hw; [constructor|lia]|]. split; [destruct R; by split|]. split; [by apply u_rep_nil|]. split; [done|].
    cbn. rewrite Z.eqb_refl. split; [done|]. intros q Hq. by rewrite (proj2 (Z.eqb_neq _ _) Hq).
Qed.

Lemma read_eof p target dst n s C E um : crep s (CTRL_D :: C) E -> u_rep (c_user s) um ->
  reads p target dst (Datatypes.S n) s (CTRL_D :: C) E um (consoleread_loop cons_r p target dst (Datatypes.S n) s).
Proof.
  intros R Hu. destruct (crep_take s C E CTRL_D (c_user s) R) as (R1 & Hne & Hc & _). pose proof (ro_eof um (p_killed (c_procs s p)) target dst (Datatypes.S n) (CTRL_D :: C) [] C eq_refl) as Ho.
  cbn [length] in Ho. rewrite Nat.sub_0_r, Z.add_0_r in Ho. cbn [consoleread_loop]. mcomp. mcomp. rewrite (proj2 (Z.eqb_neq _ _) Hne). mcomp. rewrite Hc. mcomp. rewrite Z.eqb_refl. unfold reads.
  destruct (Z.of_nat (Datatypes.S n) <? target).
  - eexists _, [], _, _. split; [mcomp; reflexivity|]. split; [apply Ho; [constructor|lia]|]. split; [|split; [by apply u_rep_nil|done]]. cbn. replace (u32 (u32 (c_r s + 1) - 1)) with (c_r s); [destruct R; by split|].
    unfold u32. rewrite Zminus_mod_idemp_l, Z.add_simpl_r. symmetry. apply Z.mod_small, R.
  - eexists _, [], _, _. split; [mcomp; reflexivity|]. split; [apply Ho; [constructor|lia]|]. split; [exact R1|]. split; [by apply u_rep_nil|done].
Qed.

Lemma consoleread_loop_run p target n : forall s C E um dst, crep s C E -> u_rep (c_user s) um -> 0 <= dst -> dst + Z.of_nat n < 2 ^ 64 ->
  reads p target dst n s C E um (consoleread_loop cons_r p target dst n s).
Proof.
  induction n as [|n IH]; intros s C E um dst R Hu Hd Hd'.
  { exists s, [], (CReturn target), C. split; [done|]. split; [by apply (ro_full _ _ _ _ _ _ []); [|constructor|]|]. split; [done|]. split; [by apply u_rep_nil|done]. }
  destruct C as [|c C]; [by apply read_empty|]. destruct (decide (c = CTRL_D)) as [->|HD]; [by apply read_eof|].
  destruct (crep_take s C E c (c_user s) R) as (R1 & Hne & Hc & Hb). cbn [consoleread_loop]. mcomp. mcomp. rewrite (proj2 (Z.eqb_neq _ _) Hne). mcomp. rewrite Hc. mcomp. rewrite (proj2 (Z.eqb_neq _ _) HD).
  rewrite u8_small by done. cbn [c_user]. destruct (copy1 (c_user s) um dst c) as [(u & H & Hu' & Hm)|(u & H & Hu' & Hm)]; [done|lia|done|..]; unfold in_mem; (erewrite bind_ok; [|by apply zoom_ok; exact H]); cbn [Z.eqb].
  2: { exists (Cin (c_buf s) (u32 (c_r s + 1)) (c_w s) (c_e s) (c_pr s) u (c_procs s)), [], (CReturn (target - Z.of_nat (Datatypes.S n))), C. split; [done|]. split; [|split; [destruct R1; by split|split; [by apply u_rep_nil|done]]].
       pose proof (ro_fault um (p_killed (c_procs s p)) target dst (Datatypes.S n) (c :: C) [] c C eq_refl) as Ho. cbn [length] in Ho. rewrite !Z.add_0_r in Ho. apply Ho; [constructor|done|lia|done]. }
  assert (crep (Cin (c_buf s) (u32 (c_r s + 1)) (c_w s) (c_e s) (c_pr s) u (c_procs s)) C E) as R2 by (destruct R1; by split). destruct (c =? NEWLINE) eqn:EN; bsplit.
  { clear Hc. subst c. eexists _, [NEWLINE], _, C. split; [reflexivity|]. split; [|split; [exact R2|split; [exact Hu'|done]]]. pose proof (ro_line um (p_killed (c_procs s p)) target dst (Datatypes.S n) (NEWLINE :: C) [] C eq_refl) as Ho. cbn [length app] in Ho.
    replace (target - Z.of_nat n) with (target - Z.of_nat (Datatypes.S n) + Z.of_nat 0 + 1) by lia. apply Ho; [constructor|lia]. }
  assert (ends c = false) as He by (unfold ends; by rewrite (proj2 (Z.eqb_neq _ _) EN), (proj2 (Z.eqb_neq _ _) HD)).
  rewrite (u64_small (dst + 1)) by lia. destruct (IH _ C E (u_write um dst [c]) (dst + 1) R2 Hu') as (s' & out & o & rest & H1 & H2 & H3 & H4 & H5); [lia|lia|].
  exists s', (c :: out), o, rest. split; [exact H1|]. split; [|split; [exact H3|split; [|exact H5]]].
  - apply read_out_cons; [done|]. eapply read_out_um; [|exact H2]. intros x. unfold u_write. destruct (_ && _) eqn:Ex; [|done]. bsplit. replace x with dst by (cbn in *; lia). by rewrite Z.sub_diag.
  - eapply u_rep_ext; [exact H4|]. intros x. symmetry. apply u_write_cons.
Qed.

(** The console before the first key. *)
Lemma crep_init s : c_r s = 0 -> c_w s = 0 -> c_e s = 0 -> crep s [] [].
Proof. intros E1 E2 E3. split; rewrite ?E1, ?E2, ?E3; try done; constructor. Qed.

Lemma calm_read p s s' C rest um k target dst n out o : calm s C -> read_out um k target dst n C out o rest ->
  c_procs s' p = (if o is CSleep _ _ then with_state SLEEPING (with_chan cons_r (c_procs s p)) else c_procs s p) -> (forall q, q <> p -> c_procs s' q = c_procs s q) -> calm s' rest.
Proof.
  intros Hc Ho Hp Hq q. destruct (decide (q = p)) as [->|Hne]; [|rewrite (Hq q Hne); intros; eapply sleeper_none; [exact Ho|by eapply Hc]].
  rewrite Hp. destruct o as [v|d m] eqn:Eo; [intros; eapply sleeper_none; [exact Ho|by eapply Hc]|]. intros _ _. by inversion Ho.
Qed.
End Spec.

(** C36. The console is a line editor.  While the ring holds the lines [C] that were entered and the
    line [E] that is being edited, with counters that wrap around: every key leaves the ring
    with what [edit] says (a line is entered by newline, by end of file or when the buffer is
    full; backspace and kill never reach an entered line) and shows what [echo] says; every
    read takes what [read_out] says, and puts exactly these bytes in the memory of the process;
    and no wakeup is lost: a process is asleep for input only while no line is there. *)
Theorem console_lines (S U : Type) (T : Terminal S) (TOk : TerminalOk S) (UM : UserMem U) (UMOk : UserMemOk U)
    (cons_r : Z) (s : cin S U) (C E : list Z) (um : Z -> option Z) (Hrep : crep s C E) (Hcalm : calm cons_r s C) (Hum : u_rep (c_user s) um)
    (Hprint : pr_locked (c_pr s) = false \/ pr_locking (c_pr s) = 0) :
  (forall c, 0 <= c < 256 -> exists s' out, consoleintr cons_r c s = Ok (tt, s') /\ crep s' (fst (edit c C E)) (snd (edit c C E)) /\
     calm cons_r s' (fst (edit c C E)) /\ c_user s' = c_user s /\ shown (pr_cons (c_pr s')) = shown (pr_cons (c_pr s)) ++ out /\ (c <> CTRL_P -> out = echo c C E)) /\
  (forall p dst n, 0 <= dst -> dst + n < 2 ^ 64 -> 0 < n -> exists s' out o rest, consoleread cons_r p dst n s = Ok (o, s') /\
     read_out um (p_killed (c_procs s p)) n dst (Z.to_nat n) C out o rest /\ crep s' rest E /\ calm cons_r s' rest /\ u_rep (c_user s') (u_write um dst out)) /\
  (forall p target dst n, 0 <= dst -> dst + Z.of_nat n < 2 ^ 64 -> p_state (c_procs s p) <> SLEEPING -> exists s' out o rest, consoleread_resume cons_r p target dst n s = Ok (o, s') /\
     read_out um (p_killed (c_procs s p)) target dst n C out o rest /\ crep s' rest E /\ calm cons_r s' rest /\ u_rep (c_user s') (u_write um dst out)).
Proof.
  split_and!.
  - intros c Hc. destruct (consoleintr_run cons_r s C E c Hrep Hcalm Hc Hprint) as (s' & out & H & R & K & (P1 & _ & _ & P2) & P3). exists s', out. by split_and!.
  - intros p dst n Hd Hd' Hn. unfold consoleread. rewrite (proj2 (Z.ltb_lt _ _) Hn). destruct (consoleread_loop_run cons_r p n (Z.to_nat n) s C E um dst Hrep Hum Hd) as (s' & out & o & rest & H & Ho & R & Hu & _ & Hp & Hq); [lia|].
    exists s', out, o, rest. split_and!; try done. by eapply calm_read.
  - intros p target dst n Hd Hd' Hs. unfold consoleread_resume. mcomp. set (s1 := Cin _ _ _ _ _ _ _).
    assert (crep s1 C E) as R1 by (destruct Hrep; by split). assert (calm cons_r s1 C) as K1 by (intros q; cbn; destruct (q =? p) eqn:Eq; bsplit; [subst; by intros|apply Hcalm]).
    assert (p_killed (c_procs s1 p) = p_killed (c_procs s p)) as Ek by (cbn; by rewrite Z.eqb_refl).
    destruct (consoleread_loop_run cons_r p target n s1 C E um dst R1 Hum Hd Hd') as (s' & out & o & rest & H & Ho & R & Hu & _ & Hp & Hq). rewrite Ek in Ho.
    exists s', out, o, rest. split_and!; try done. by eapply calm_read.
Qed.

(** The keys [l], [s], backspace, [p], newline: the line is [lp]. *)
Definition demo_proc : proc := Proc RUNNING None 0 false 0 1 0 0 0 0 (Context_ 0 0) (fun _ => 0) 0 [].
Definition demo_mem : flat := fun x => if (0 <=? x) && (x <? 4096) then Some 0 else None.
Definition demo_cin (buf : Z -> Z) (w e : Z) : cin (list Z) flat := Cin buf 0 w e (Kpr false 1 0 []) demo_mem (fun _ => demo_proc).

Lemma demo_mem_rep : u_rep demo_mem demo_mem.
Proof. intros x. split; [done|]. unfold demo_mem. by destruct (_ && _); intros b [= <-]. Qed.

Lemma demo_line_rep : crep (demo_cin (fun i => nth (Z.to_nat i) [108; 112; 10; 100] 0) 3 4) [108; 112; 10] [100].
Proof. split; try done; [|by repeat constructor..]. intros j q Hj. do 4 (destruct j as [|j]; [by injection Hj as <-|]). done. Qed.

(** With the line [lp] entered and [d] typed, a read of 10 bytes returns the line. *)
Lemma console_lines_witness : exists s' out o rest, consoleread 7 3 100 10 (demo_cin (fun i => nth (Z.to_nat i) [108; 112; 10; 100] 0) 3 4) = Ok (o, s') /\
  read_out demo_mem false 10 100 10 [108; 112; 10] out o rest /\ crep s' rest [100] /\ u_rep (c_user s') (u_write demo_mem 100 out).
Proof.
  destruct (console_lines (list Z) flat paper paper_ok flat_user flat_user_ok 7 (demo_cin (fun i => nth (Z.to_nat i) [108; 112; 10; 100] 0) 3 4) [108; 112; 10] [100] demo_mem demo_line_rep
    ltac:(by intros p) demo_mem_rep ltac:(by left)) as (_ & H & _).
  destruct (H 3 100 10 ltac:(lia) ltac:(lia) ltac:(lia)) as (s' & out & o & rest & H1 & H2 & H3 & _ & H4). by exists s', out, o, rest.
Defined.
