(* ===== verification/VmExec.v ===== *)
(** * Address spaces of processes

    What [exec] needs of [kernel/vm.c]: [uvmalloc] up to any 64-bit size, page tables that also
    map the trampoline and the trapframe, [uvmclear], and two address spaces side by side. *)

From S2P Require Import Prelude Riscv KString Kalloc Vm VmSpec VmUser VmFree UserMem.

Section VmExec.
Context {L : Linker} {LOk : LinkerOk L}.

(** ** Frames are few *)

Definition MAXPAGES : Z := 32768.

Lemma length_pages_from p n : length (pages_from p n) = n.
Proof. revert p. induction n as [|n IH]; intros p; cbn; [done|]. by rewrite IH. Qed.

(** Memory has at most [MAXPAGES] pages. *)
Lemma few_frames P : NoDup P -> Forall page_ok P -> Z.of_nat (length P) <= MAXPAGES.
Proof.
  intros Hnd Hok. assert (P ⊆+ all_pages) as Hs.
  { apply NoDup_submseteq; [done|]. intros x Hx. apply elem_of_all_pages. rewrite Forall_forall in Hok. by apply Hok. }
  apply submseteq_length in Hs. unfold all_pages in Hs. rewrite length_pages_from in Hs. pose proof PGROUNDUP_kend as (_ & Hk & _). pose proof linker_bounds as Hb.
  unfold MAXPAGES. enough ((PHYSTOP - PGROUNDUP kend) / PGSIZE <= 32768) by lia. kdlia.
Qed.

Lemma upages_length U : length (upages U) = size U.
Proof. unfold upages. by rewrite length_fmap, length_map_to_list. Qed.

Lemma upages_few s l r d t U : uvm_inv s l r d t U -> Z.of_nat (size U) <= MAXPAGES.
Proof.
  intros I. rewrite <- upages_length. apply few_frames; [|apply (ui_ok _ _ _ _ _ _ I)]. pose proof (ui_nodup _ _ _ _ _ _ I) as Hnd. apply NoDup_app in Hnd as (_ & _ & Hnd). by apply NoDup_app in Hnd as (Hnd & _).
Qed.

(** The number of pages below [n] that are all there. *)
Lemma size_ge (U : gmap Z Z) n : (forall i, 0 <= i < Z.of_nat n -> is_Some (U !! i)) -> (n <= size U)%nat.
Proof.
  intros H. assert (size (gset_to_gmap 0 (list_to_set (upto (Z.of_nat n)) : gset Z)) <= size U)%nat as Hs.
  { rewrite <- !size_dom, dom_gset_to_gmap. apply subseteq_size. intros i Hi. rewrite elem_of_list_to_set, elem_of_upto in Hi. apply elem_of_dom. by apply H. }
  rewrite <- size_dom, dom_gset_to_gmap, size_list_to_set, length_upto in Hs by apply NoDup_upto. lia.
Qed.

Lemma usize_few s l r d t U sz : uvm_inv s l r d t U -> usize U sz -> npages sz <= MAXPAGES.
Proof.
  intros I Hs. destruct (decide (0 <= npages sz)) as [Hp|]; [|unfold MAXPAGES; lia]. pose proof (upages_few _ _ _ _ _ _ I). assert (Z.to_nat (npages sz) <= size U)%nat; [|lia]. apply size_ge. intros i Hi. apply Hs. lia.
Qed.

(** ** [uvmalloc] to any size *)

(** A run that ends for lack of memory does not depend on the size that was asked for. *)
Lemma uvmalloc_loop_more fuel : forall fuel' r a oldsz n1 n2 s s', (fuel <= fuel')%nat -> 0 < n1 <= n2 ->
  uvmalloc_loop r a oldsz n1 fuel s = Ok (0, s') -> uvmalloc_loop r a oldsz n2 fuel' s = Ok (0, s').
Proof.
  induction fuel as [|fuel IH]; intros fuel' r a oldsz n1 n2 s s' Hf Hn H; [done|]. destruct fuel' as [|fuel']; [lia|]. cbn [uvmalloc_loop] in *.
  destruct (Z.ltb_spec a n1); [|injection H as E _; lia]. rewrite (proj2 (Z.ltb_lt _ _)) by lia. unfold bind at 1 in H. unfold bind at 1. destruct (kalloc s) as [[pa s1]| | |]; try done.
  destruct (pa =? 0); [done|]. unfold bind at 1 in H. unfold bind at 1. destruct (pmemset _ _ _ _) as [[[] s2]| | |]; try done. unfold bind at 1 in H. unfold bind at 1.
  destruct (mappages _ _ _ _ _ _) as [[rv s3]| | |]; try done. destruct (negb _); [done|]. eapply IH; [|done|exact H]. lia.
Qed.

(** The first page number of the trapframe, above all user memory. *)
Definition TOP : Z := 2 ^ 26 - 2.

Lemma usize_grown U U' s' t' old new : usize U old -> npages old <= npages new -> 0 <= npages old -> uvm_zeroed s' t' U U' (npages old) (npages new) -> usize U' new.
Proof.
  intros Hs Hle Hp [Ho Hn] i. destruct (decide (npages old <= i < npages new)) as [Hi|Hi].
  - destruct (Hn i Hi) as (pa & -> & _). split; [lia|by eexists].
  - rewrite (Ho i Hi), (Hs i). lia.
Qed.

Lemma npages_div sz : 0 <= sz <= MAXVA -> npages sz = (sz + PGSIZE - 1) / PGSIZE.
Proof. intros H. unfold npages. rewrite PGROUNDUP_spec by klia. rewrite Z.mul_comm. by apply Z.div_mul. Qed.

(** With the pages below [TOP] unmapped behind the old size, [uvmalloc] to any size maps zeroed
    pages, or it returns 0 and leaves everything as it was. *)
Lemma uvmalloc_any s l r d t U oldsz newsz : uvm_inv s l r d t U -> usize U oldsz -> 0 <= oldsz <= MAXVA -> oldsz <= newsz < 2 ^ 64 ->
  (forall i, npages oldsz <= i < TOP -> vpte (pmem s) t i = None) ->
  exists rv s' l' d' t' U', uvmalloc r oldsz newsz s = Ok (rv, s') /\
    (rv = newsz /\ newsz <= PGSIZE * MAXPAGES /\ usize U' newsz /\ uvm_zeroed s' t' U U' (npages oldsz) (npages newsz) /\
      uvm_step s l r d t U s' l' d' t' U' (fun i => if (npages oldsz <=? i) && (i <? npages newsz) then vpte (pmem s') t' i else vpte (pmem s) t i) /\
      Z.of_nat (length l) <= Z.of_nat (length l') + 3 * (npages newsz - npages oldsz) \/
     rv = 0 /\ U' = U /\ uvm_step s l r d t U s' l' d' t' U (vpte (pmem s) t) /\
      Z.of_nat (length l) < 3 * ((newsz + PGSIZE - 1) / PGSIZE - npages oldsz)).
Proof.
  intros I Hs Ho Hn Hfree. pose proof (usize_few _ _ _ _ _ _ _ I Hs) as Hfew. destruct (npages_spec oldsz) as (HU & Hob & Hos); [lia|].
  set (lim := PGSIZE * (MAXPAGES + 1)). assert (npages lim = MAXPAGES + 1) as Elim by (apply npages_pages; unfold MAXPAGES; lia).
  assert (0 <= lim <= MAXVA /\ oldsz <= lim) as [Hlim Hol] by (unfold lim, MAXPAGES in *; klia).
  destruct (decide (newsz <= lim)) as [Hsmall|Hbig].
  - destruct (uvmalloc_ok s l r d t U oldsz newsz I) as (rv & s' & l' & d' & t' & U' & H & [(-> & Hz & Hst & Hc)|(-> & -> & Hc & Hst)]); [lia|lia| | |].
    { intros i Hi. apply Hfree. pose proof (npages_mono newsz lim) as Hm. rewrite Elim in Hm. unfold TOP, MAXPAGES in *. lia. }
    + exists newsz, s', l', d', t', U'. split; [done|]. left. assert (usize U' newsz) as Hs' by (eapply usize_grown; [done|by apply npages_mono; lia|lia|done]).
      pose proof (usize_few _ _ _ _ _ _ _ (us_inv _ _ _ _ _ _ _ _ _ _ _ _ Hst) Hs') as Hf'. destruct (npages_spec newsz) as (_ & _ & Hns); [lia|]. split_and!; [done|klia|done..].
    + exists 0, s', l', d', t', U. split; [done|]. right. split_and!; [done..|]. by rewrite <- npages_div by lia.
  - destruct (uvmalloc_ok s l r d t U oldsz lim I) as (rv & s' & l' & d' & t' & U' & H & [(-> & Hz & Hst & Hc)|(-> & -> & Hc & Hst)]); [lia|lia| | |].
    { intros i Hi. apply Hfree. rewrite Elim in Hi. unfold TOP, MAXPAGES in *. lia. }
    + exfalso. assert (usize U' lim) as Hs' by (eapply usize_grown; [done|rewrite Elim; lia|lia|done]). pose proof (usize_few _ _ _ _ _ _ _ (us_inv _ _ _ _ _ _ _ _ _ _ _ _ Hst) Hs'). lia.
    + exists 0, s', l', d', t', U. split; [|right; split_and!; [done..|rewrite Elim in Hc; apply (Z.lt_le_trans _ _ _ Hc); apply Z.mul_le_mono_nonneg_l; [lia|]; unfold lim in Hbig; apply Z.sub_le_mono_r; kdlia]]. unfold uvmalloc in H |- *. rewrite (proj2 (Z.ltb_ge lim oldsz)) in H by lia. rewrite (proj2 (Z.ltb_ge newsz oldsz)) by lia. eapply uvmalloc_loop_more; [| |exact H]; [|unfold lim; klia].
      apply Z2Nat.inj_le; [kdlia|kdlia|]. apply Z.add_le_mono_r, Z.div_le_mono; [by unfold PGSIZE|lia].
Qed.

(** ** Entries that change *)

(** A new set of entries that still maps the user pages. *)
Lemma maps_step s l r d t U s' l' d' t' F : uvm_inv s l r d t U -> pt_maps s l r d t s' l' d' t' F ->
  (forall n pa, U !! n = Some pa -> has (F n) PTE_V = true /\ PTE2PA (F n) = pa /\ PTE_FLAGS (F n) <> PTE_V) ->
  uvm_step s l r d t U s' l' d' t' U (fun n => if has (F n) PTE_V then Some (F n) else None).
Proof.
  intros I Hm HF. assert (forall n, vpte (pmem s') t' n = if has (F n) PTE_V then Some (F n) else None) as Hv.
  { intros n. unfold vpte. by rewrite (pg_lookup _ _ _ _ _ _ _ _ _ _ Hm). }
  assert (pt_pages r d' t' ++ upages U ++ l' ≡ₚ pt_pages r d t ++ upages U ++ l) as Hp.
  { rewrite !(Permutation_app_comm (upages U)), !app_assoc. apply Permutation_app_tail, Hm. }
  split; [split|done|done| | |apply Hm].
  - apply Hm.
  - intros n pa Hn. destruct (HF n pa Hn) as (HV & HP & Hf). split; [apply (ui_map _ _ _ _ _ _ I n pa Hn)|]. exists (F n). by rewrite Hv, HV.
  - apply I.
  - rewrite Hp. apply I.
  - intros n pa x Hn _ Hx. destruct (uvm_user_page _ _ _ _ _ _ _ _ I Hn) as (Hok & Hnp & Hnl). eapply (same_except_same_pages _ [pa]); [apply Hm|eapply vm_pages_ok, I|apply Forall_singleton, Hok| |by left|done].
    intros p ->%list_elem_of_singleton. rewrite elem_of_app. tauto.
  - eapply same_except_mono; [|apply Hm]. intros p. rewrite !elem_of_app. tauto.
Qed.

(** [uvmunmap(pagetable, va, 1, 0)] of a page that is not the user's. *)
Lemma unmap_keep s l r d t U n v : uvm_inv s l r d t U -> U !! n = None -> 0 <= n < 2 ^ 26 ->
  vpte (pmem s) t n = Some v -> PTE_FLAGS v <> PTE_V ->
  exists s', uvmunmap r (PGSIZE * n) 1 false s = Ok (tt, s') /\
    uvm_step s l r d t U s' l d t U (fun i => if i =? n then None else vpte (pmem s) t i).
Proof.
  intros I HU Hn Hv Hf. pose proof (vi_rep _ _ _ _ _ (ui_vm _ _ _ _ _ _ I)) as Hrep. pose proof (vpte_slot _ _ _ _ Hv) as Hslot.
  apply vpte_some in Hv as [Hlk HV]. exists (set_leaf s t n 0). destruct (leaf_store s l r d t n 0 (ui_vm _ _ _ _ _ _ I) Hslot) as [Hm _]. split.
  - unfold uvmunmap. rewrite (Z.mul_comm PGSIZE n), Z.mod_mul by done. mcomp. cbn zeta. rewrite Z.mul_1_l, (u64_small PGSIZE), (u64_small (_ + _)) by (unfold PGSIZE; lia). replace (n * PGSIZE + PGSIZE - n * PGSIZE) with PGSIZE by lia. change (Z.to_nat (PGSIZE / PGSIZE + 2)) with 3%nat.
    cbn [uvmunmap_loop]. rewrite (proj2 (Z.ltb_lt _ _)) by klia. mstep (walk_noalloc s r d t (n * PGSIZE) Hrep). 2:klia. rewrite Z.div_mul by done.
    rewrite (proj2 (Z.eqb_neq _ 0)) by (by eapply pte_slot_nonzero). mcomp. mcomp. rewrite (load_slot s r d t n Hrep Hslot), Hlk, HV, (proj2 (Z.eqb_neq _ _) Hf).
    mcomp. mcomp. mcomp. mcomp. rewrite u64_small by klia. by rewrite (proj2 (Z.ltb_ge _ _)) by lia.
  - eapply uvm_step_ext; [|eapply maps_step; [done|exact Hm|]].
    + intros i. cbn beta. unfold vpte. by destruct (Z.eqb_spec i n).
    + intros i pa Hi. cbn beta. destruct (Z.eqb_spec i n) as [->|]; [congruence|]. destruct (ui_map _ _ _ _ _ _ I i pa Hi) as (_ & w & Hw & HP & Hw'). apply vpte_some in Hw as [-> ?]. done.
Qed.

(** [v & ~PTE_U] *)
Lemma clear_U v : 0 <= v -> has v PTE_V = true ->
  let w := Z.land v (Z.lnot PTE_U) in has w PTE_V = true /\ has w PTE_U = false /\ PTE2PA w = PTE2PA v /\
    (has v PTE_R = true -> PTE_FLAGS w <> PTE_V).
Proof.
  intros Hv HV w. assert (forall f, Z.land (Z.lnot PTE_U) f = f -> Z.land w f = Z.land v f) as Hl.
  { intros f Ef. unfold w. by rewrite <- Z.land_assoc, Ef. }
  unfold has in *. rewrite (Hl PTE_V) by reflexivity. split_and!; [done| | |].
  - unfold w. rewrite <- Z.land_assoc. change (Z.land (Z.lnot PTE_U) PTE_U) with 0. by rewrite Z.land_0_r.
  - unfold PTE2PA. f_equal. f_equal. unfold w. rewrite Z.shiftr_land. change (Z.shiftr (Z.lnot PTE_U) 10) with (-1). apply Z.land_m1_r.
  - intros HR E. unfold PTE_FLAGS in E. assert (Z.land (Z.land w 0x3FF) PTE_R = Z.land w PTE_R) as E' by by rewrite <- Z.land_assoc.
    rewrite E, (Hl PTE_R) in E' by reflexivity. by rewrite <- E' in HR.
Qed.

(** [uvmclear] takes the page from the user and changes nothing else. *)
Lemma uvmclear_ok s l r d t U n pa : uvm_inv s l r d t U -> U !! n = Some pa ->
  (exists v, vpte (pmem s) t n = Some v /\ has v PTE_R = true) ->
  exists s' w, uvmclear r (PGSIZE * n) s = Ok (tt, s') /\ has w PTE_U = false /\ PTE2PA w = pa /\
    uvm_step s l r d t U s' l d t U (fun i => if i =? n then Some w else vpte (pmem s) t i).
Proof.
  intros I HU (v & Hv & HR). destruct (ui_map _ _ _ _ _ _ I n pa HU) as (Hn & v' & Hv' & HP & Hf). rewrite Hv in Hv'. injection Hv' as <-.
  pose proof (vi_rep _ _ _ _ _ (ui_vm _ _ _ _ _ _ I)) as Hrep. pose proof (vpte_slot _ _ _ _ Hv) as Hslot. apply vpte_some in Hv as [Hlk HV].
  assert (0 <= v < 2 ^ 64) as Hvb by (rewrite <- Hlk, <- (load_slot s r d t n Hrep Hslot); apply load64_bound).
  destruct (clear_U v) as (Hw1 & Hw2 & Hw3 & Hw4); [lia|done|]. set (w := Z.land v (Z.lnot PTE_U)) in *.
  assert (u64 w = w) as Hw64. { unfold u64. rewrite <- land_ones_mod by lia. unfold w. rewrite <- Z.land_assoc, (Z.land_comm (Z.lnot _)), Z.land_assoc, land_ones_mod by lia. by rewrite Z.mod_small. }
  destruct (leaf_store s l r d t n w (ui_vm _ _ _ _ _ _ I) Hslot) as [Hm _]. rewrite Hw64 in Hm. exists (set_leaf s t n w), w. split_and!; [|done|congruence|].
  - unfold uvmclear. mstep (walk_noalloc s r d t (PGSIZE * n) Hrep). 2:klia. replace (PGSIZE * n / PGSIZE) with n by kdlia.
    rewrite (proj2 (Z.eqb_neq _ 0)) by (by eapply pte_slot_nonzero). mcomp. mcomp. by rewrite (load_slot s r d t n Hrep Hslot), Hlk.
  - eapply uvm_step_ext; [|eapply maps_step; [done|exact Hm|]].
    + intros i. cbn beta. unfold vpte. destruct (Z.eqb_spec i n); [by rewrite Hw1|done].
    + intros i qa Hi. cbn beta. destruct (Z.eqb_spec i n) as [->|].
      * split_and!; [done|congruence|auto].
      * destruct (ui_map _ _ _ _ _ _ I i qa Hi) as (_ & u & Hu & HPu & Hfu). apply vpte_some in Hu as [-> ?]. done.
Qed.
End VmExec.
