(* ===== verification/ProcMem.v ===== *)
(** * The address space of a process

    [space]: a page table that maps the user pages of [sz] bytes, the trapframe and the
    trampoline, with [V] what the user sees.  [building]: such a table while [exec] builds
    it, out of the frames [l0] that were free when it started in [s0].  The lemmas are the
    steps of [exec] on it, and that an address space next to it is not disturbed. *)

From S2P Require Import Prelude Bytes Riscv KString Kalloc Vm VmSpec VmUser VmFree UserMem UserIO VmExec Proc.

(** The user's view of memory. *)
Definition umem (s : phys) (t : gmap Z Z) : flat := fun va => load8 (pmem s) <$> uaddr (pmem s) t va.

(** [V] after [uvmalloc] from [a] to [b], and after [uvmclear] of the page [n]. *)
Definition v_grow (V : flat) (a b : Z) : flat :=
  fun va => if (PGSIZE * npages a <=? va) && (va <? PGSIZE * npages b) then Some 0 else V va.
Definition v_clear (V : flat) (n : Z) : flat := fun va => if va / PGSIZE =? n then None else V va.

Section Space.
Context {L : Linker} {LOk : LinkerOk L}.

Definition top_pte (tf n : Z) : option Z :=
  if n =? TOP then Some (leaf_pte tf (Z.lor PTE_R PTE_W))
  else if n =? TOP + 1 then Some (leaf_pte trampoline (Z.lor PTE_R PTE_X)) else None.

Record space (s : phys) (l : list Z) (r : Z) (d t U : gmap Z Z) (tf sz : Z) (V : flat) : Prop := {
  sp_inv : uvm_inv s l r d t U;
  sp_size : usize U sz;
  sp_sz : 0 <= sz <= PGSIZE * MAXPAGES;
  sp_top n : TOP <= n -> vpte (pmem s) t n = top_pte tf n;
  sp_user n : n < TOP -> U !! n = PTE2PA <$> vpte (pmem s) t n;
  sp_view va : umem s t va = V va;
}.

Lemma space_ext s l r d t U tf sz V V' : space s l r d t U tf sz V -> (forall va, V' va = V va) -> space s l r d t U tf sz V'.
Proof. intros [] E. split; try done. intros va. by rewrite E. Qed.

(** A permission bit is one of the flags. *)
Lemma has_flags v f : Z.land 0x3FF f = f -> has v f = has (PTE_FLAGS v) f.
Proof. intros E. unfold has, PTE_FLAGS. by rewrite <- Z.land_assoc, E. Qed.

Lemma leaf_has pa perm f : 0 <= pa < 2 ^ 56 -> 0 <= perm < 1024 -> Z.land 0x3FF f = f -> has (leaf_pte pa perm) f = has (Z.lor perm PTE_V) f.
Proof. intros Hpa Hp Hf. rewrite (has_flags _ f) by done. destruct (leaf_pte_facts pa perm Hpa Hp) as (_ & _ & -> & _). done. Qed.

Lemma page_ok_56 pa : page_ok pa -> 0 <= pa < 2 ^ 56.
Proof. intros H%page_ok_bounds. klia. Qed.

(** What the user reaches is the user's. *)
Lemma space_user_only s l r d t U tf sz V : space s l r d t U tf sz V -> page_ok tf -> user_only (pmem s) t U.
Proof.
  intros I Htf n pa. unfold uframe. destruct (vpte (pmem s) t n) as [v|] eqn:Ev; [|done]. destruct (has v PTE_U) eqn:HU; [|done]. intros [= <-].
  destruct (decide (n < TOP)) as [Hn|Hn]; [by rewrite (sp_user _ _ _ _ _ _ _ _ _ I n Hn), Ev|]. exfalso. pose proof (page_ok_56 _ Htf) as Htf'.
  assert (0 <= trampoline < 2 ^ 56) as Htr by (pose proof trampoline_range; pose proof linker_bounds; klia).
  rewrite (sp_top _ _ _ _ _ _ _ _ _ I n) in Ev by lia. unfold top_pte in Ev. destruct (n =? TOP); [|destruct (n =? TOP + 1)]; try done; injection Ev as <-; by rewrite leaf_has in HU.
Qed.

(** The address space in another memory and with another free list. *)
Lemma space_mem s l r d t U tf sz V s' l' V' : space s l r d t U tf sz V -> kmem_inv s' l' -> NoDup (pt_pages r d t ++ upages U ++ l') ->
  same_pages (pt_pages r d t) (pmem s) (pmem s') -> (forall va, V' va = load8 (pmem s') <$> uaddr (pmem s) t va) -> space s' l' r d t U tf sz V'.
Proof.
  intros [I Hs Hz Ht Hu Hv] Hk Hnd Hsame HV. assert (forall n, vpte (pmem s') t n = vpte (pmem s) t n) as Hvp by (intros n; apply vpte_ext; by eapply lookup_pte_same).
  split; try done.
  - destruct I as [[_ Hrep _] Hmap Hok _]. split; [split|..]; [done|by eapply pt_rep_same| |intros n pa Hn; rewrite Hvp; by apply Hmap|done|done].
    intros p Hp Hl. apply NoDup_app in Hnd as (_ & Hd & _). apply (Hd p Hp). rewrite elem_of_app. by right.
  - intros n Hn. rewrite Hvp. by apply Ht.
  - intros n Hn. rewrite Hvp. by apply Hu.
  - intros va. rewrite HV. unfold umem. f_equal. unfold uaddr, uframe. by rewrite Hvp.
Qed.

(** Nothing of it changed. *)
Lemma space_same s l r d t U tf sz V s' l' : space s l r d t U tf sz V -> page_ok tf -> kmem_inv s' l' -> NoDup (pt_pages r d t ++ upages U ++ l') ->
  same_pages (pt_pages r d t ++ upages U) (pmem s) (pmem s') -> space s' l' r d t U tf sz V.
Proof.
  intros I Htf Hk Hnd Hsame. eapply space_mem; [exact I|done|done| |].
  - intros p x Hp. apply Hsame. rewrite elem_of_app. by left.
  - intros va. rewrite <- (sp_view _ _ _ _ _ _ _ _ _ I). unfold umem. destruct (uaddr (pmem s) t va) as [a|] eqn:E; [|done]. cbn. f_equal. symmetry. apply load8_same.
    pose proof (sp_inv _ _ _ _ _ _ _ _ _ I) as Iu. pose proof (space_user_only _ _ _ _ _ _ _ _ _ I Htf) as Ho.
    apply uaddr_some in E as (_ & pa & Hpa & _ & Ha). apply (Hsame pa); [|done]. rewrite elem_of_app. right. by eapply uframe_page in Hpa as (_ & _ & ? & _).
Qed.

(** ** Growing it and taking a page from the user *)

(** The view of a page whose entry and frame are kept. *)
Lemma view_keep s l r d t U tf sz V s' l' d' t' U' G va : space s l r d t U tf sz V -> page_ok tf -> uvm_step s l r d t U s' l' d' t' U' G ->
  G (va / PGSIZE) = vpte (pmem s) t (va / PGSIZE) -> U' !! (va / PGSIZE) = U !! (va / PGSIZE) -> umem s' t' va = V va.
Proof.
  intros I Htf St HG HU. rewrite <- (sp_view _ _ _ _ _ _ _ _ _ I). pose proof (space_user_only _ _ _ _ _ _ _ _ _ I Htf) as Ho.
  unfold umem. assert (uaddr (pmem s') t' va = uaddr (pmem s) t va) as ->. { unfold uaddr, uframe. by rewrite (us_vpte _ _ _ _ _ _ _ _ _ _ _ _ St), HG. }
  destruct (uaddr (pmem s) t va) as [a|] eqn:E; [|done]. cbn. f_equal. apply uaddr_some in E as (_ & pa & Hpa & _ & Ha). apply Ho in Hpa. apply load8_same. eapply us_keep; [exact St|exact Hpa|by rewrite HU|done].
Qed.

Lemma vpage_in va a b : PGSIZE * a <= va < PGSIZE * b <-> a <= va / PGSIZE < b.
Proof. kdlia. Qed.

Lemma PTE_WXRU_leaf pa : page_ok pa -> has (leaf_pte pa PTE_WXRU) PTE_U = true /\ has (leaf_pte pa PTE_WXRU) PTE_R = true /\ PTE2PA (leaf_pte pa PTE_WXRU) = pa.
Proof.
  intros Hok. pose proof (page_ok_56 _ Hok). destruct PTE_WXRU_facts as [Hf _]. rewrite !leaf_has by done. split_and!; [done..|]. apply leaf_pte_facts; [done|done|apply Hok].
Qed.

(** Memory that [uvmalloc] added. *)
Lemma space_grown s l r d t U tf sz V s' l' d' t' U' newsz : space s l r d t U tf sz V -> page_ok tf -> sz <= newsz <= PGSIZE * MAXPAGES -> usize U' newsz ->
  uvm_zeroed s' t' U U' (npages sz) (npages newsz) ->
  uvm_step s l r d t U s' l' d' t' U' (fun i => if (npages sz <=? i) && (i <? npages newsz) then vpte (pmem s') t' i else vpte (pmem s) t i) ->
  space s' l' r d' t' U' tf newsz (v_grow V sz newsz) /\ (forall n, npages sz <= n < npages newsz -> exists v, vpte (pmem s') t' n = Some v /\ has v PTE_R = true).
Proof.
  intros I Htf Hn HU' [Hold Hnew] St. pose proof (us_inv _ _ _ _ _ _ _ _ _ _ _ _ St) as I'. pose proof (sp_sz _ _ _ _ _ _ _ _ _ I) as Hsz. pose proof (usize_few _ _ _ _ _ _ _ I' HU') as Hfew.
  destruct (npages_spec sz) as (_ & Hpz & _); [unfold MAXPAGES in *; klia|].
  assert (forall n, npages sz <= n < npages newsz -> exists pa, U' !! n = Some pa /\ vpte (pmem s') t' n = Some (leaf_pte pa PTE_WXRU) /\ page_ok pa /\
    forall j, 0 <= j < PGSIZE -> load8 (pmem s') (pa + j) = 0) as Hpg.
  { intros n Hn'. destruct (Hnew n Hn') as (pa & HU & Hv & Hb). exists pa. split_and!; [done..| |done]. by apply (uvm_user_page _ _ _ _ _ _ _ _ I' HU). }
  assert (forall n, ~ (npages sz <= n < npages newsz) -> vpte (pmem s') t' n = vpte (pmem s) t n) as Hvo.
  { intros n Hn'. rewrite (us_vpte _ _ _ _ _ _ _ _ _ _ _ _ St). by zcase; try lia. }
  split; [split|]; [done|done|lia| | | |].
  - intros n Hnt. rewrite Hvo by (unfold TOP, MAXPAGES in *; lia). by apply (sp_top _ _ _ _ _ _ _ _ _ I).
  - intros n Hnt. destruct (decide (npages sz <= n < npages newsz)) as [Hi|Hi]; [|rewrite Hvo, Hold by done; by apply (sp_user _ _ _ _ _ _ _ _ _ I)].
    destruct (Hpg n Hi) as (pa & -> & -> & Hok & _). cbn. f_equal. symmetry. by apply PTE_WXRU_leaf.
  - intros va. unfold v_grow. destruct (decide (npages sz <= va / PGSIZE < npages newsz)) as [Hi|Hi].
    + destruct (Hpg _ Hi) as (pa & HU & Hv & Hok & Hb). pose proof (PTE_WXRU_leaf pa Hok) as (E1 & _ & E2). rewrite (proj2 (Z.leb_le _ va)), (proj2 (Z.ltb_lt va _)) by (apply vpage_in in Hi; lia). cbn [andb].
      unfold umem, uaddr, uframe. rewrite Hv, E1, E2, (proj2 (Z.ltb_lt _ _)) by (unfold MAXPAGES in *; kdlia). cbn. f_equal. apply Hb, Z.mod_pos_bound. done.
    + assert ((PGSIZE * npages sz <=? va) && (va <? PGSIZE * npages newsz) = false) as ->. { apply not_true_iff_false. intros [?%Z.leb_le ?%Z.ltb_lt]%andb_true_iff. apply Hi, vpage_in. lia. }
      eapply view_keep; [exact I|done|exact St| |by apply Hold]. cbn beta. by zcase; try lia.
  - intros n Hi. destruct (Hpg n Hi) as (pa & _ & Hv & Hok & _). exists (leaf_pte pa PTE_WXRU). split; [done|]. by apply PTE_WXRU_leaf.
Qed.

(** [uvmclear] *)
Lemma space_clear s l r d t U tf sz V n : space s l r d t U tf sz V -> page_ok tf -> 0 <= n < npages sz -> (exists v, vpte (pmem s) t n = Some v /\ has v PTE_R = true) ->
  exists s' G, uvmclear r (PGSIZE * n) s = Ok (tt, s') /\ uvm_step s l r d t U s' l d t U G /\ space s' l r d t U tf sz (v_clear V n).
Proof.
  intros I Htf Hn Hv. pose proof (sp_inv _ _ _ _ _ _ _ _ _ I) as Iu. pose proof (usize_few _ _ _ _ _ _ _ Iu (sp_size _ _ _ _ _ _ _ _ _ I)) as Hfew.
  destruct (proj2 (sp_size _ _ _ _ _ _ _ _ _ I n) Hn) as [pa HU]. destruct (uvmclear_ok s l r d t U n pa Iu HU Hv) as (s' & w & Hrun & Hw & HP & St).
  eexists s', _. split; [exact Hrun|]. split; [exact St|]. assert (n < TOP) as HnT by (unfold TOP, MAXPAGES in *; lia).
  split; [apply St|apply I|apply I| | |].
  - intros i Hi. rewrite (us_vpte _ _ _ _ _ _ _ _ _ _ _ _ St), (proj2 (Z.eqb_neq i n)) by lia. by apply (sp_top _ _ _ _ _ _ _ _ _ I).
  - intros i Hi. rewrite (us_vpte _ _ _ _ _ _ _ _ _ _ _ _ St). destruct (Z.eqb_spec i n) as [->|]; [cbn; by rewrite HP|by apply (sp_user _ _ _ _ _ _ _ _ _ I)].
  - intros va. unfold v_clear. destruct (Z.eqb_spec (va / PGSIZE) n) as [E|E].
    + unfold umem, uaddr, uframe. rewrite (us_vpte _ _ _ _ _ _ _ _ _ _ _ _ St), E, Z.eqb_refl, Hw. by destruct (va <? MAXVA).
    + eapply view_keep; [exact I|done|exact St|cbn beta; by rewrite (proj2 (Z.eqb_neq _ n))|done].
Qed.

(** ** Freeing it *)

Lemma top_flags tf n v : page_ok tf -> top_pte tf n = Some v -> has v PTE_V = true /\ PTE_FLAGS v <> PTE_V.
Proof.
  intros Htf%page_ok_56 Hv. assert (0 <= trampoline < 2 ^ 56) as Htr by (pose proof trampoline_range; pose proof linker_bounds; klia).
  unfold top_pte in Hv. destruct (n =? TOP); [|destruct (n =? TOP + 1)]; try done; injection Hv as <-.
  - by destruct (leaf_pte_facts tf (Z.lor PTE_R PTE_W)) as (_ & ? & -> & _).
  - by destruct (leaf_pte_facts trampoline (Z.lor PTE_R PTE_X)) as (_ & ? & -> & _).
Qed.

(** The frames of a table that maps the user pages of [sz] bytes and nothing else. *)
Lemma space_free s l r d t U tf sz V : space s l r d t U tf sz V -> page_ok tf ->
  exists s' l', proc_freepagetable r sz s = Ok (tt, s') /\ kmem_inv s' l' /\ l' ≡ₚ pt_pages r d t ++ upages U ++ l /\
    same_except (pt_pages r d t ++ upages U ++ l) (pmem s) (pmem s') /\ kernel_pagetable s' = kernel_pagetable s.
Proof.
  intros I Htf. pose proof (sp_inv _ _ _ _ _ _ _ _ _ I) as Iu. pose proof (sp_size _ _ _ _ _ _ _ _ _ I) as Hs. pose proof (sp_sz _ _ _ _ _ _ _ _ _ I) as Hz. pose proof (usize_few _ _ _ _ _ _ _ Iu Hs) as Hfew.
  assert (forall n, TOP <= n -> U !! n = None) as HUt. { intros n Hn. apply eq_None_not_Some. intros Hi. apply Hs in Hi. unfold TOP, MAXPAGES in *. lia. }
  pose proof (sp_top _ _ _ _ _ _ _ _ _ I) as Htop. destruct (top_flags tf (TOP + 1) _ Htf eq_refl) as [_ Hf1]. destruct (top_flags tf TOP _ Htf eq_refl) as [_ Hf0].
  destruct (unmap_keep s l r d t U (TOP + 1) _ Iu (HUt (TOP + 1) ltac:(lia)) ltac:(unfold TOP; lia) (Htop (TOP + 1) ltac:(lia)) Hf1) as (s1 & H1 & St1).
  assert (vpte (pmem s1) t TOP = top_pte tf TOP) as Ev. { rewrite (us_vpte _ _ _ _ _ _ _ _ _ _ _ _ St1). cbn beta. rewrite (proj2 (Z.eqb_neq TOP _)) by lia. by apply Htop. }
  destruct (unmap_keep s1 l r d t U TOP _ (us_inv _ _ _ _ _ _ _ _ _ _ _ _ St1) (HUt TOP ltac:(lia)) ltac:(unfold TOP; lia) Ev Hf0) as (s2 & H2 & St2).
  pose proof (uvm_step_trans _ _ _ _ _ _ _ _ _ _ _ _ _ _ _ _ _ _ St1 St2 ltac:(done)) as St.
  destruct (uvmfree_ok s2 l r d t U sz (us_inv _ _ _ _ _ _ _ _ _ _ _ _ St) Hs ltac:(unfold MAXPAGES in *; klia)) as (s3 & l3 & H3 & Hk & Hp & Hse & Hkp).
  { intros n. rewrite (us_vpte _ _ _ _ _ _ _ _ _ _ _ _ St2), (us_vpte _ _ _ _ _ _ _ _ _ _ _ _ St1). cbn beta. destruct (Z.eqb_spec n TOP); [by intros []|]. destruct (Z.eqb_spec n (TOP + 1)); [by intros []|].
    destruct (decide (n < TOP)) as [Hn|Hn]; [rewrite (sp_user _ _ _ _ _ _ _ _ _ I n Hn); by intros [v ->]; eexists|]. rewrite Htop by lia. unfold top_pte. rewrite !(proj2 (Z.eqb_neq n _)) by lia. by intros []. }
  exists s3, l3. split_and!; [|done|done|eapply same_except_trans; [apply St|done]|rewrite Hkp; apply St].
  unfold proc_freepagetable. change TRAMPOLINE with (PGSIZE * (TOP + 1)). change TRAPFRAME with (PGSIZE * TOP). mstep H1. mstep H2. done.
Qed.

(** ** Creating it *)

(** [mappages] of one page into a table without user pages. *)
Lemma map_top s l r d t n pa perm : uvm_inv s l r d t ∅ -> vpte (pmem s) t n = None -> 0 <= n < 2 ^ 26 -> 0 <= pa <= PHYSTOP -> 0 <= perm < 1024 ->
  exists rv s' l' d' t', mappages r (PGSIZE * n) PGSIZE pa perm s = Ok (rv, s') /\
    (rv = 0 /\ uvm_step s l r d t ∅ s' l' d' t' ∅ (fun i => if i =? n then Some (leaf_pte pa perm) else vpte (pmem s) t i) /\ Z.of_nat (length l) <= Z.of_nat (length l') + 2 \/
     rv = -1 /\ uvm_step s l r d t ∅ s' l' d' t' ∅ (vpte (pmem s) t) /\ Z.of_nat (length l) < 2).
Proof.
  intros I Hv Hn Hpa Hp. assert (PGSIZE * n / PGSIZE = n /\ (PGSIZE * n + PGSIZE - 1) / PGSIZE = n) as [E1 E2] by (split; kdlia).
  destruct (mappages_ok s l r d t (PGSIZE * n) PGSIZE pa perm (ui_vm _ _ _ _ _ _ I)) as (rv & s' & l' & d' & t' & j & Hrun & Hm & Hr); try klia.
  { intros i Hi. rewrite E1, E2 in Hi. replace i with n by lia. by apply vpte_none. }
  rewrite E1, E2 in *. pose proof (maps_step _ _ _ _ _ _ _ _ _ _ _ I Hm ltac:(done)) as St. exists rv, s', l', d', t'. split; [done|]. destruct Hr as [(-> & Hj & Hc)|(-> & Hj & Hj' & _ & Hc)].
  - left. split_and!; [done| |lia]. eapply uvm_step_ext; [|exact St]. intros i. cbn beta. replace j with 1 by lia. destruct (Z.eqb_spec i n) as [->|].
    + rewrite Z.leb_refl, (proj2 (Z.ltb_lt _ _)) by lia. cbn [andb]. rewrite Z.sub_diag, Z.mul_0_r, Z.add_0_r. destruct (leaf_pte_facts pa perm) as (_ & -> & _); [klia|done|done].
    + assert ((n <=? i) && (i <? n + 1) = false) as -> by (zcase; done || lia). done.
  - right. split_and!; [done| |lia]. eapply uvm_step_ext; [|exact St]. intros i. cbn beta. assert ((n <=? i) && (i <? n + j) = false) as -> by (zcase; done || lia). done.
Qed.

(** The body of [proc_pagetable] for the trapframe [tf]. *)
Definition new_pagetable (tf : Z) : M phys Z :=
  let! pagetable := uvmcreate in
  if pagetable =? 0 then ret 0
  else
    let! r := mappages pagetable TRAMPOLINE PGSIZE trampoline (Z.lor PTE_R PTE_X) in
    if r <? 0 then uvmfree pagetable 0 ;; ret 0
    else
      let! r := mappages pagetable TRAPFRAME PGSIZE tf (Z.lor PTE_R PTE_W) in
      if r <? 0 then
        uvmunmap pagetable TRAMPOLINE 1 false ;;
        uvmfree pagetable 0 ;;
        ret 0
      else ret pagetable.

Lemma proc_pagetable_unfold {F} i (s : pst (F := F)) : proc_pagetable i s = in_phys (new_pagetable (p_trapframe (procs s i))) s.
Proof. reflexivity. Qed.

(** Frames [l] of [s] are free again in [s']. *)
Definition all_back (s s' : phys) (l : list Z) : Prop :=
  exists l', kmem_inv s' l' /\ l' ≡ₚ l /\ same_except l (pmem s) (pmem s') /\ kernel_pagetable s' = kernel_pagetable s.

Lemma upages_empty : upages ∅ = [].
Proof. done. Qed.

(** [uvmfree] of a table that maps nothing. *)
Lemma free_empty s0 l0 s l r d t : uvm_inv s l r d t ∅ -> (forall n, vpte (pmem s) t n = None) -> pt_pages r d t ++ l ≡ₚ l0 ->
  same_except l0 (pmem s0) (pmem s) -> kernel_pagetable s = kernel_pagetable s0 -> exists s', uvmfree r 0 s = Ok (tt, s') /\ all_back s0 s' l0.
Proof.
  intros I Hv Hp Hse Hkp. destruct (uvmfree_ok s l r d t ∅ 0 I usize_empty) as (s' & l' & H & Hk & Hl & Hs & Hkp'); [klia| |].
  { intros n. rewrite Hv. by intros []. }
  rewrite upages_empty in *. cbn [app] in *. exists s'. split; [done|]. exists l'. split_and!; [done|by rewrite Hl| |congruence]. eapply same_except_trans; [exact Hse|by eapply same_except_perm].
Qed.

Lemma trampoline_bounds : 0 <= trampoline <= PHYSTOP.
Proof. pose proof trampoline_range. pose proof linker_bounds. klia. Qed.

Lemma new_pagetable_ok s l tf : kmem_inv s l -> page_ok tf ->
  exists rv s', new_pagetable tf s = Ok (rv, s') /\
    (rv = 0 /\ all_back s s' l /\ Z.of_nat (length l) < 5 \/
     rv <> 0 /\ exists l' d t, space s' l' rv d t ∅ tf 0 (fun _ => None) /\ pt_pages rv d t ++ l' ≡ₚ l /\
       same_except l (pmem s) (pmem s') /\ kernel_pagetable s' = kernel_pagetable s /\ Z.of_nat (length l) <= Z.of_nat (length l') + 5).
Proof.
  intros Hk Htf. unfold new_pagetable. destruct l as [|r l].
  { exists 0, s. unfold uvmcreate. rewrite bind_assoc. mstep (kalloc_nil s Hk). split; [done|]. left. split_and!; [done| |cbn; lia]. exists []. split_and!; try done. }
  destruct (uvmcreate_ok s r l Hk) as (s1 & H1 & I1 & Ho1 & Hkp1). mstep H1. assert (page_ok r) as Hr by (pose proof (ki_pages _ _ Hk) as Hf; by apply Forall_cons in Hf as [? _]).
  pose proof (page_ok_bounds _ Hr) as Hrb. rewrite (proj2 (Z.eqb_neq r 0)) by klia. assert (same_except (r :: l) (pmem s) (pmem s1)) as Hs1 by (eapply same_except_user; [exact Ho1|by left]).
  destruct (map_top s1 l r ∅ ∅ (TOP + 1) trampoline (Z.lor PTE_R PTE_X) I1 (vpte_empty _ _)) as (rv2 & s2 & l2 & d2 & t2 & H2 & Hr2); [unfold TOP; lia|apply trampoline_bounds|done|].
  change TRAMPOLINE with (PGSIZE * (TOP + 1)). change TRAPFRAME with (PGSIZE * TOP). mstep H2.
  assert (forall d t l' s' G, uvm_step s1 l r ∅ ∅ ∅ s' l' d t ∅ G -> pt_pages r d t ++ l' ≡ₚ r :: l /\ same_except (r :: l) (pmem s) (pmem s') /\ kernel_pagetable s' = kernel_pagetable s) as Hback.
  { intros d t l' s' G St. pose proof (us_perm _ _ _ _ _ _ _ _ _ _ _ _ St) as Hp. rewrite upages_empty in Hp. split_and!; [done| |rewrite (us_kpt _ _ _ _ _ _ _ _ _ _ _ _ St); done]. eapply same_except_trans; [exact Hs1|apply St]. }
  destruct Hr2 as [(-> & St2 & Hc2)|(-> & St2 & Hc2)]; cbn [Z.ltb Z.compare].
  2:{ destruct (Hback _ _ _ _ _ St2) as (Hp2 & Hse2 & Hkp2). destruct (free_empty s (r :: l) s2 l2 r d2 t2) as (s3 & H3 & Hb); try done; [apply St2|intros n; rewrite (us_vpte _ _ _ _ _ _ _ _ _ _ _ _ St2); apply vpte_empty|].
      exists 0, s3. mstep H3. split; [done|]. left. split_and!; [done|done|cbn [length]; lia]. }
  assert (vpte (pmem s2) t2 TOP = None) as Hv2 by (rewrite (us_vpte _ _ _ _ _ _ _ _ _ _ _ _ St2); cbn beta; rewrite (proj2 (Z.eqb_neq TOP _)) by lia; apply vpte_empty).
  destruct (map_top s2 l2 r d2 t2 TOP tf (Z.lor PTE_R PTE_W) (us_inv _ _ _ _ _ _ _ _ _ _ _ _ St2) Hv2) as (rv3 & s3 & l3 & d3 & t3 & H3 & Hr3); [unfold TOP; lia|apply page_ok_bounds in Htf; klia|done|]. mstep H3.
  destruct Hr3 as [(-> & St3 & Hc3)|(-> & St3 & Hc3)]; cbn [Z.ltb Z.compare]; pose proof (uvm_step_trans _ _ _ _ _ _ _ _ _ _ _ _ _ _ _ _ _ _ St2 St3 ltac:(done)) as St.
  - destruct (Hback _ _ _ _ _ St) as (Hp3 & Hse3 & Hkp3). exists r, s3. split; [done|]. right. split; [klia|]. exists l3, d3, t3. split_and!; [|done|done|done|cbn [length]; lia].
    assert (forall n, vpte (pmem s3) t3 n = top_pte tf n) as Hv. { intros n. rewrite (us_vpte _ _ _ _ _ _ _ _ _ _ _ _ St3). unfold top_pte. destruct (n =? TOP); [done|]. rewrite (us_vpte _ _ _ _ _ _ _ _ _ _ _ _ St2). destruct (n =? TOP + 1); [done|apply vpte_empty]. }
    split; [apply St|apply usize_empty|unfold MAXPAGES; klia|done| |].
    + intros n Hn. rewrite Hv. unfold top_pte. by rewrite !(proj2 (Z.eqb_neq n _)) by lia.
    + intros va. unfold umem, uaddr, uframe. rewrite Hv. destruct (va <? MAXVA); [|done]. unfold top_pte. pose proof (page_ok_56 _ Htf) as Htf'. pose proof trampoline_bounds as Htr.
      destruct (_ =? TOP); [by rewrite leaf_has|]. destruct (_ =? TOP + 1); [|done]. rewrite leaf_has; [done|klia|done|done].
  - destruct (top_flags tf (TOP + 1) _ Htf eq_refl) as [_ Hf]. assert (vpte (pmem s3) t3 (TOP + 1) = top_pte tf (TOP + 1)) as Hv3. { rewrite (us_vpte _ _ _ _ _ _ _ _ _ _ _ _ St3), (us_vpte _ _ _ _ _ _ _ _ _ _ _ _ St2). by rewrite Z.eqb_refl. }
    destruct (unmap_keep s3 l3 r d3 t3 ∅ (TOP + 1) _ (us_inv _ _ _ _ _ _ _ _ _ _ _ _ St3) eq_refl ltac:(unfold TOP; lia) Hv3 Hf) as (s4 & H4 & St4). mstep H4.
    pose proof (uvm_step_trans _ _ _ _ _ _ _ _ _ _ _ _ _ _ _ _ _ _ St St4 ltac:(done)) as St'. destruct (Hback _ _ _ _ _ St') as (Hp4 & Hse4 & Hkp4).
    destruct (free_empty s (r :: l) s4 l3 r d3 t3) as (s5 & H5 & Hb); try done; [apply St4| |].
    { intros n. rewrite (us_vpte _ _ _ _ _ _ _ _ _ _ _ _ St4), (us_vpte _ _ _ _ _ _ _ _ _ _ _ _ St3), (us_vpte _ _ _ _ _ _ _ _ _ _ _ _ St2). cbn beta. destruct (n =? TOP + 1); [done|apply vpte_empty]. }
    exists 0, s5. mstep H5. split; [done|]. left. split_and!; [done|done|cbn [length]; lia].
Qed.

(** ** Writing into it *)

(** A change of memory outside the table's pages and the free pages. *)
Lemma space_write s l r d t U tf sz V m V' : space s l r d t U tf sz V -> (forall p x, p ∈ pt_pages r d t ++ l -> in_page p x -> m x = pmem s x) ->
  (forall va, V' va = load8 m <$> uaddr (pmem s) t va) -> space (set_pmem m s) l r d t U tf sz V'.
Proof.
  intros I Hm HV. pose proof (sp_inv _ _ _ _ _ _ _ _ _ I) as Iu. eapply space_mem; [exact I| |apply Iu| |exact HV].
  - apply (kmem_inv_same s); [done| |apply Iu]. intros p x Hp. apply Hm. rewrite elem_of_app. by right.
  - intros p x Hp. apply Hm. rewrite elem_of_app. by left.
Qed.

(** A page of the user is none of those. *)
Lemma user_page_apart s l r d t U n pa p x : uvm_inv s l r d t U -> U !! n = Some pa -> p ∈ pt_pages r d t ++ l -> in_page p x -> ~ in_page pa x.
Proof.
  intros I Hn Hp Hx Hx'. destruct (uvm_user_page _ _ _ _ _ _ _ _ I Hn) as (Hok & Hnp & Hnl). pose proof (uvm_all_ok _ _ _ _ _ _ I) as Hall. rewrite Forall_forall in Hall.
  apply (page_ok_disjoint pa p x); [done| | |done|done].
  - apply Hall. rewrite !elem_of_app in *. tauto.
  - intros ->. rewrite elem_of_app in Hp. tauto.
Qed.

(** Bytes stored into the frame of the page of [va]. *)
Lemma space_store s l r d t U tf sz V va pa bs : space s l r d t U tf sz V -> page_ok tf -> 0 <= va < MAXVA -> uframe (pmem s) t (va / PGSIZE) = Some pa ->
  bytes bs -> va mod PGSIZE + zlen bs <= PGSIZE ->
  space (set_pmem (store_bytes (pmem s) (pa + va mod PGSIZE) bs) s) l r d t U tf sz (u_write V va bs) /\
  (forall x, ~ in_page pa x -> store_bytes (pmem s) (pa + va mod PGSIZE) bs x = pmem s x) /\ U !! (va / PGSIZE) = Some pa.
Proof.
  intros I Htf Hva Hpa Hb Hlen. pose proof (sp_inv _ _ _ _ _ _ _ _ _ I) as Iu. pose proof (space_user_only _ _ _ _ _ _ _ _ _ I Htf) as Ho. pose proof (Ho _ _ Hpa) as HU.
  pose proof (Z.mod_pos_bound va PGSIZE ltac:(done)) as Hmod. assert (forall x, ~ in_page pa x -> store_bytes (pmem s) (pa + va mod PGSIZE) bs x = pmem s x) as Hout.
  { intros x Hx. apply store_bytes_outside. unfold in_page in Hx. lia. }
  split_and!; [|done|done]. eapply space_write; [exact I| |].
  - intros p x Hp Hx. apply Hout. by eapply user_page_apart.
  - intros x. unfold u_write. rewrite <- (sp_view _ _ _ _ _ _ _ _ _ I x). destruct (decide (va <= x < va + zlen bs)) as [Hx|Hx].
    + rewrite (proj2 (Z.leb_le va x)), (proj2 (Z.ltb_lt x _)) by lia. cbn [andb]. replace x with (va + (x - va)) at 2 by lia. rewrite (uaddr_chunk s t va pa (x - va)) by (lia || done). cbn.
      destruct (lookup_lt_is_Some_2 bs (Z.to_nat (x - va))) as [b Eb]; [lia|]. rewrite Eb. f_equal. symmetry. rewrite <- (Z2Nat.id (x - va)) by lia. by apply load_store_bytes.
    + assert ((va <=? x) && (x <? va + zlen bs) = false) as -> by (zcase; done || lia). unfold umem. destruct (uaddr (pmem s) t x) as [a|] eqn:Ea; [|done]. cbn. f_equal. symmetry. apply load8_same, store_bytes_outside.
      intros Ha. assert (uaddr (pmem s) t (va + (a - pa - va mod PGSIZE)) = Some a) as Ea'. { rewrite (uaddr_chunk s t va pa) by (lia || done). f_equal. lia. }
      pose proof (uaddr_inj s l r d t U Iu Ho _ _ _ Ea Ea'). lia.
Qed.

(** [copyout] to addresses that the user reaches. *)
Lemma space_copyout s l r d t U tf sz V va src len : space s l r d t U tf sz V -> page_ok tf -> 0 <= va < 2 ^ 64 -> 0 <= len < 2 ^ 64 -> kernel_buffer U src len ->
  (forall i, 0 <= i < len -> is_Some (V (va + i))) ->
  exists m, copyout r va src len s = Ok (0, set_pmem m s) /\ space (set_pmem m s) l r d t U tf sz (u_write V va (load_bytes (pmem s) src (Z.to_nat len))) /\
    forall x, (forall pa, pa ∈ upages U -> ~ in_page pa x) -> m x = pmem s x.
Proof.
  intros I Htf Hva Hlen Hk HV. pose proof (sp_inv _ _ _ _ _ _ _ _ _ I) as Iu. pose proof (space_user_only _ _ _ _ _ _ _ _ _ I Htf) as Ho.
  destruct (copyout_ok s l r d t U va src len Iu Ho Hva Hlen Hk) as (rv & n & s' & Hrun & Es & Hw & Hres).
  assert (rv = 0 /\ n = len) as [-> ->].
  { destruct Hres as [?|(_ & Hn & Hnone)]; [done|]. destruct (HV n Hn) as [b Hb]. rewrite <- (sp_view _ _ _ _ _ _ _ _ _ I) in Hb. unfold umem in Hb. by rewrite Hnone in Hb. }
  exists (pmem s'). rewrite <- Es. assert (forall x, (forall pa, pa ∈ upages U -> ~ in_page pa x) -> pmem s' x = pmem s x) as Hout by (by eapply user_written_keep).
  split_and!; [done| |done]. rewrite Es. eapply space_write; [exact I| |].
  - intros p x Hp Hx. apply Hout. intros pa Hpa. apply elem_of_map_values in Hpa as [i Hi]. by eapply user_page_apart.
  - intros x. unfold u_write. rewrite length_load_bytes, Z2Nat.id by lia. rewrite <- (sp_view _ _ _ _ _ _ _ _ _ I x). destruct (decide (va <= x < va + len)) as [Hx|Hx].
    + rewrite (proj2 (Z.leb_le va x)), (proj2 (Z.ltb_lt x _)) by lia. cbn [andb]. destruct (uw_bytes _ _ _ _ _ _ _ Hw (x - va)) as (a & Ha & Hla); [lia|]. replace (va + (x - va)) with x in Ha by lia. rewrite Ha. cbn. rewrite Hla.
      unfold load_bytes. rewrite list_lookup_fmap, lookup_seq_lt by lia. cbn. repeat f_equal. lia.
    + assert ((va <=? x) && (x <? va + len) = false) as -> by (zcase; done || lia). unfold umem. destruct (uaddr (pmem s) t x) as [a|] eqn:Ea; [|done]. cbn. f_equal. symmetry. apply load8_same, (uw_frame _ _ _ _ _ _ _ Hw).
      intros i Hi Hai. pose proof (uaddr_inj s l r d t U Iu Ho _ _ _ Ea Hai). lia.
Qed.
End Space.

(** ** An address space under construction *)

(** Nothing changed but the pages [P] and the bytes [K]. *)
Definition same_but (K : Z -> Prop) (P : list Z) (m m' : mem) : Prop :=
  forall x, ~ K x -> (forall p, p ∈ P -> ~ in_page p x) -> m' x = m x.

Section Building.
Context {L : Linker} {LOk : LinkerOk L}.
(** The state and the free pages at the start, the trapframe, and a kernel buffer. *)
Context (K : Z -> Prop) (s0 : phys) (l0 : list Z) (tf : Z).
Context (Htf : page_ok tf) (HK : forall x p, K x -> p ∈ l0 -> ~ in_page p x).

Record building (s : phys) (l : list Z) (r : Z) (d t U : gmap Z Z) (sz : Z) (V : flat) : Prop := {
  bd_space : space s l r d t U tf sz V;
  bd_perm : pt_pages r d t ++ upages U ++ l ≡ₚ l0;
  bd_frame : same_but K l0 (pmem s0) (pmem s);
  bd_kpt : kernel_pagetable s = kernel_pagetable s0;
}.

Lemma building_ext s l r d t U sz V V' : building s l r d t U sz V -> (forall va, V' va = V va) -> building s l r d t U sz V'.
Proof. intros [] E. split; try done. by eapply space_ext. Qed.

Lemma building_step s l r d t U sz V s' l' d' t' U' sz' V' G : building s l r d t U sz V -> uvm_step s l r d t U s' l' d' t' U' G ->
  space s' l' r d' t' U' tf sz' V' -> building s' l' r d' t' U' sz' V'.
Proof using.
  intros [_ Hp Hf Hk] St Sp. split; [done|by rewrite (us_perm _ _ _ _ _ _ _ _ _ _ _ _ St)| |by rewrite (us_kpt _ _ _ _ _ _ _ _ _ _ _ _ St)].
  intros x Hx HP. rewrite (us_frame _ _ _ _ _ _ _ _ _ _ _ _ St); [by apply Hf|]. intros p Hp'. apply HP. by rewrite <- Hp.
Qed.

(** [uvmalloc] up to any size. *)
Lemma building_alloc s l r d t U sz V newsz : building s l r d t U sz V -> sz <= newsz < 2 ^ 64 ->
  exists rv s' l' d' t' U', uvmalloc r sz newsz s = Ok (rv, s') /\
    (rv = newsz /\ newsz <= PGSIZE * MAXPAGES /\ building s' l' r d' t' U' newsz (v_grow V sz newsz) /\
      (forall n, npages sz <= n < npages newsz -> exists v, vpte (pmem s') t' n = Some v /\ has v PTE_R = true) /\
      Z.of_nat (length l) <= Z.of_nat (length l') + 3 * (npages newsz - npages sz) \/
     rv = 0 /\ building s' l' r d' t' U' sz V /\ Z.of_nat (length l) < 3 * ((newsz + PGSIZE - 1) / PGSIZE - npages sz)).
Proof using Htf LOk.
  intros B Hn. pose proof (bd_space _ _ _ _ _ _ _ _ B) as I. pose proof (sp_sz _ _ _ _ _ _ _ _ _ I) as Hz. pose proof (sp_size _ _ _ _ _ _ _ _ _ I) as Hs.
  destruct (uvmalloc_any s l r d t U sz newsz (sp_inv _ _ _ _ _ _ _ _ _ I) Hs) as (rv & s' & l' & d' & t' & U' & H & Hr); [unfold MAXPAGES in *; klia|lia| |].
  { intros i Hi. pose proof (sp_user _ _ _ _ _ _ _ _ _ I i ltac:(lia)) as Hu. destruct (vpte (pmem s) t i); [|done]. exfalso. assert (is_Some (U !! i)) as Hsome by (rewrite Hu; by eexists). apply Hs in Hsome. lia. }
  exists rv, s', l', d', t', U'. split; [done|]. destruct Hr as [(-> & Hle & Hs' & Hz' & St & Hc)|(-> & -> & St & Hc)].
  - left. destruct (space_grown _ _ _ _ _ _ _ _ _ _ _ _ _ _ newsz I Htf ltac:(lia) Hs' Hz' St) as [Sp Hr]. split_and!; [done|done|by eapply building_step|done|done].
  - right. split_and!; [done| |done]. eapply building_step; [done|done|]. split; [apply St|done|done| | |].
    + intros n Hn'. rewrite (us_vpte _ _ _ _ _ _ _ _ _ _ _ _ St). by apply (sp_top _ _ _ _ _ _ _ _ _ I).
    + intros n Hn'. rewrite (us_vpte _ _ _ _ _ _ _ _ _ _ _ _ St). by apply (sp_user _ _ _ _ _ _ _ _ _ I).
    + intros va. by eapply view_keep.
Qed.

Lemma building_clear s l r d t U sz V n : building s l r d t U sz V -> 0 <= n < npages sz -> (exists v, vpte (pmem s) t n = Some v /\ has v PTE_R = true) ->
  exists s', uvmclear r (PGSIZE * n) s = Ok (tt, s') /\ building s' l r d t U sz (v_clear V n).
Proof using Htf LOk.
  intros B Hn Hv. destruct (space_clear _ _ _ _ _ _ _ _ _ n (bd_space _ _ _ _ _ _ _ _ B) Htf Hn Hv) as (s' & G & H & St & Sp). exists s'. split; [done|]. by eapply building_step.
Qed.

(** A change of user pages and of the buffer. *)
Lemma building_write s l r d t U sz V m V' : building s l r d t U sz V ->
  (forall x, ~ K x -> (forall pa, pa ∈ upages U -> ~ in_page pa x) -> m x = pmem s x) -> space (set_pmem m s) l r d t U tf sz V' ->
  building (set_pmem m s) l r d t U sz V'.
Proof using.
  intros [_ Hp Hf Hk] Hm Sp. split; [done|done| |done]. intros x Hx HP. cbn. rewrite Hm; [by apply Hf|done|]. intros pa Hpa. apply HP. rewrite <- Hp, !elem_of_app. tauto.
Qed.

(** The page of [va]: its frame, and bytes stored there. *)
Lemma building_page s l r d t U sz V va : building s l r d t U sz V -> 0 <= va -> va mod PGSIZE = 0 -> is_Some (V va) ->
  exists pa, walkaddr r va s = Ok (pa, s) /\ pa <> 0 /\
    forall bs, bytes bs -> zlen bs <= PGSIZE -> building (set_pmem (store_bytes (pmem s) pa bs) s) l r d t U sz (u_write V va bs).
Proof using Htf LOk.
  intros B Hva Hal [b Hb]. pose proof (bd_space _ _ _ _ _ _ _ _ B) as I. pose proof (sp_inv _ _ _ _ _ _ _ _ _ I) as Iu. pose proof (space_user_only _ _ _ _ _ _ _ _ _ I Htf) as Ho.
  rewrite <- (sp_view _ _ _ _ _ _ _ _ _ I) in Hb. unfold umem in Hb. destruct (uaddr (pmem s) t va) as [a|] eqn:Ea; [|done]. apply uaddr_some in Ea as (Hmax & pa & Hpa & -> & _). exists pa.
  split_and!.
  - rewrite (walkaddr_ok s r d t va) by (try apply Iu; done). rewrite (proj2 (Z.ltb_lt _ _)) by done. by rewrite Hpa.
  - by destruct (uframe_page s l r d t U Iu Ho _ _ Hpa) as (_ & _ & _ & ?).
  - intros bs Hbs Hlen. destruct (space_store s l r d t U tf sz V va pa bs I Htf) as (Sp & Hout & HU); [lia|done|done|lia|]. rewrite Hal, Z.add_0_r in *.
    eapply building_write; [done| |done]. intros x _ Hx. apply Hout, Hx. apply elem_of_map_values. eauto.
Qed.

Lemma building_copyout s l r d t U sz V va src len : building s l r d t U sz V -> 0 <= va < 2 ^ 64 -> 0 <= len < 2 ^ 64 ->
  (forall i p, 0 <= i < len -> p ∈ l0 -> ~ in_page p (src + i)) -> (forall i, 0 <= i < len -> is_Some (V (va + i))) ->
  exists m, copyout r va src len s = Ok (0, set_pmem m s) /\ building (set_pmem m s) l r d t U sz (u_write V va (load_bytes (pmem s) src (Z.to_nat len))) /\
    forall x, (forall p, p ∈ l0 -> ~ in_page p x) -> m x = pmem s x.
Proof using Htf LOk.
  intros B Hva Hlen Hsrc HV. assert (forall pa, pa ∈ upages U -> pa ∈ l0) as HU by (intros pa Hpa; rewrite <- (bd_perm _ _ _ _ _ _ _ _ B), !elem_of_app; tauto).
  destruct (space_copyout _ _ _ _ _ _ _ _ _ va src len (bd_space _ _ _ _ _ _ _ _ B) Htf Hva Hlen) as (m & H & Sp & Hm); [intros i pa Hi Hpa; apply Hsrc; auto|done|].
  exists m. split_and!; [done|eapply building_write; [done| |done]; auto|]. intros x Hx. apply Hm. auto.
Qed.

(** A store into the buffer. *)
Lemma building_buffer s l r d t U sz V m : building s l r d t U sz V -> (forall x, ~ K x -> m x = pmem s x) -> building (set_pmem m s) l r d t U sz V.
Proof using Htf HK LOk.
  intros B Hm. pose proof (bd_space _ _ _ _ _ _ _ _ B) as I. pose proof (bd_perm _ _ _ _ _ _ _ _ B) as Hp. pose proof (sp_inv _ _ _ _ _ _ _ _ _ I) as Iu. pose proof (space_user_only _ _ _ _ _ _ _ _ _ I Htf) as Ho.
  eapply building_write; [done|auto|]. eapply space_write; [exact I| |].
  - intros p x Hin Hx. apply Hm. intros HKx. apply (HK x p HKx); [|done]. rewrite <- Hp, !elem_of_app in *. tauto.
  - intros va. rewrite <- (sp_view _ _ _ _ _ _ _ _ _ I). unfold umem. destruct (uaddr (pmem s) t va) as [a|] eqn:Ea; [|done]. cbn. f_equal. symmetry. apply load8_same, Hm. intros HKa.
    apply uaddr_some in Ea as (_ & pa & Hpa & _ & Hin). apply (HK a pa HKa); [|done]. rewrite <- Hp, !elem_of_app. right. left. by apply (uframe_page s l r d t U Iu Ho) in Hpa as (_ & _ & ? & _).
Qed.

(** [proc_freepagetable] gives all the frames back. *)
Lemma building_free s l r d t U sz V : building s l r d t U sz V ->
  exists s' l', proc_freepagetable r sz s = Ok (tt, s') /\ kmem_inv s' l' /\ l' ≡ₚ l0 /\ same_but K l0 (pmem s0) (pmem s') /\ kernel_pagetable s' = kernel_pagetable s0.
Proof using Htf LOk.
  intros [I Hp Hf Hk]. destruct (space_free _ _ _ _ _ _ _ _ _ I Htf) as (s' & l' & H & Hk' & Hl & Hse & Hkp). exists s', l'. split_and!; [done|done|by rewrite Hl| |congruence].
  intros x Hx HP. rewrite Hse; [by apply Hf|]. intros p. rewrite Hp. apply HP.
Qed.
End Building.
