(* ===== verification/Exec.v ===== *)
(** * Loading programs, [kernel/exec.c] and [kernel/elf.h]

    [exec] runs on the process table of [Proc] with the page tables in the memory of
    [Kalloc.phys]; the calls into the file system are behind [Loader].  The path is its
    bytes, [argv] the addresses of the argument strings in kernel memory (up to the null
    pointer).  [ExecSpec] states what the new image is, [ExecLoad] and [ExecTop] prove
    that [exec] builds it. *)

From S2P Require Import Prelude Bytes Riscv KString Kalloc Vm UserIO Proc.

(** ** [kernel/elf.h] *)

Definition ELF_MAGIC : Z := 0x464C457F.
Definition ELF_PROG_LOAD : Z := 1.

Record elfhdr := Elfhdr {
  e_magic : Z; e_type : Z; e_machine : Z; e_version : Z; e_entry : Z; e_phoff : Z; e_shoff : Z; e_flags : Z;
  e_ehsize : Z; e_phentsize : Z; e_phnum : Z; e_shentsize : Z; e_shnum : Z; e_shstrndx : Z;
}.
Definition elfhdr_size : Z := 64.

Record proghdr := Proghdr {
  ph_type : Z; ph_flags : Z; ph_off : Z; ph_vaddr : Z; ph_paddr : Z; ph_filesz : Z; ph_memsz : Z; ph_align : Z;
}.
Definition proghdr_size : Z := 56.

(** The structures as they lie in the file. *)
Definition get_elfhdr (b : list Z) : elfhdr :=
  Elfhdr (get_le b 0 4) (get_le b 16 2) (get_le b 18 2) (get_le b 20 4) (get_le b 24 8) (get_le b 32 8) (get_le b 40 8) (get_le b 48 4)
    (get_le b 52 2) (get_le b 54 2) (get_le b 56 2) (get_le b 58 2) (get_le b 60 2) (get_le b 62 2).
Definition get_proghdr (b : list Z) : proghdr :=
  Proghdr (get_le b 0 4) (get_le b 4 4) (get_le b 8 8) (get_le b 16 8) (get_le b 24 8) (get_le b 32 8) (get_le b 40 8) (get_le b 48 8).

(** ** The file system as [exec] uses it

    [x_readi ip off n] is [readi(ip, 0, dst, off, n)]: the bytes that it stores at [dst],
    whose number it returns. *)
Class Loader (F : Type) := {
  x_begin_op : M F unit;
  x_end_op : M F unit;
  x_namei : list Z -> M F Z;
  x_ilock : Z -> M F unit;
  x_iunlockput : Z -> M F unit;
  x_readi : Z -> Z -> Z -> M F (list Z);
}.

(** The laws, over the files [T]: a call of [exec] is outside of a transaction, inside of
    one, has a reference to the inode [ip] of a file with contents [c], or has it locked. *)
Class LoaderOk (F : Type) {LO : Loader F} := {
  x_tree : Type;
  x_lookup : x_tree -> list Z -> option (list Z);
  x_idle : x_tree -> F -> Prop;
  x_op : x_tree -> F -> Prop;
  x_ref : x_tree -> Z -> list Z -> F -> Prop;
  x_locked : x_tree -> Z -> list Z -> F -> Prop;
  x_content T path c : x_lookup T path = Some c -> bytes c /\ zlen c < 2 ^ 31;
  x_begin_ok T f : x_idle T f -> exists f', x_begin_op f = Ok (tt, f') /\ x_op T f';
  x_end_ok T f : x_op T f -> exists f', x_end_op f = Ok (tt, f') /\ x_idle T f';
  x_namei_ok T path f : x_op T f -> exists ip f', x_namei path f = Ok (ip, f') /\
    match x_lookup T path with None => ip = 0 /\ x_op T f' | Some c => ip <> 0 /\ x_ref T ip c f' end;
  x_ilock_ok T ip c f : x_ref T ip c f -> exists f', x_ilock ip f = Ok (tt, f') /\ x_locked T ip c f';
  x_iunlockput_ok T ip c f : x_locked T ip c f -> exists f', x_iunlockput ip f = Ok (tt, f') /\ x_op T f';
  x_readi_ok T ip c f off n : x_locked T ip c f -> 0 <= off < 2 ^ 32 -> 0 <= n <= PGSIZE ->
    exists f', x_readi ip off n f = Ok (sub c off n, f') /\ x_locked T ip c f';
}.

(** ** [exec] *)

(** Offset of [a1] in [struct trapframe]. *)
Definition tf_a1 : Z := 120.

(** The loop that sets [last] to the rest of the path [s] after the last [/]. *)
Fixpoint path_last (last s : list Z) : list Z :=
  match s with
  | [] => last
  | c :: s' => if c =? 0 then last else path_last (if c =? 47 then s' else last) s'
  end.

Section Exec.
Context {L : Linker} {F : Type} {LO : Loader F}.
(** The process that calls, and the address of [ustack] in its kernel stack. *)
Variables (me ustack : Z).

Fixpoint loadseg_loop (pagetable va ip offset sz i : Z) (fuel : nat) : M (pst (F := F)) Z :=
  match fuel with
  | O => nofuel
  | S k =>
      if i <? sz then
        let! pa := in_phys (walkaddr pagetable (u64 (va + i))) in
        panic_if (pa =? 0) "loadseg: address should exist" ;;
        let n := if sz - i <? PGSIZE then sz - i else PGSIZE in
        let! bs := in_files (x_readi ip (u32 (offset + i)) n) in
        in_phys (modify (fun s => set_pmem (store_bytes (pmem s) pa bs) s)) ;;
        if negb (zlen bs =? n) then ret (-1)
        else loadseg_loop pagetable va ip offset sz (u32 (i + PGSIZE)) k
      else ret 0
  end.

Definition loadseg (pagetable va ip offset sz : Z) : M (pst (F := F)) Z :=
  panic_if (negb (va mod PGSIZE =? 0)) "loadseg: va must be page aligned" ;;
  loadseg_loop pagetable va ip offset sz 0 (Z.to_nat (sz / PGSIZE + 2)).

(** The loop over the [n] program headers that are left: whether they are loaded, and [sz]. *)
Fixpoint load_segments (ip pagetable : Z) (n : nat) (off sz : Z) : M (pst (F := F)) (bool * Z) :=
  match n with
  | O => ret (true, sz)
  | S k =>
      let! b := in_files (x_readi ip (u32 off) proghdr_size) in
      if negb (zlen b =? proghdr_size) then ret (false, sz)
      else
        let ph := get_proghdr b in
        if negb (ph_type ph =? ELF_PROG_LOAD) then load_segments ip pagetable k (i32 (off + proghdr_size)) sz
        else if ph_memsz ph <? ph_filesz ph then ret (false, sz)
        else if u64 (ph_vaddr ph + ph_memsz ph) <? ph_vaddr ph then ret (false, sz)
        else
          let! sz1 := in_phys (uvmalloc pagetable sz (u64 (ph_vaddr ph + ph_memsz ph))) in
          if sz1 =? 0 then ret (false, sz)
          else if negb (ph_vaddr ph mod PGSIZE =? 0) then ret (false, sz1)
          else
            let! r := loadseg pagetable (ph_vaddr ph) ip (u32 (ph_off ph)) (u32 (ph_filesz ph)) in
            if r <? 0 then ret (false, sz1)
            else load_segments ip pagetable k (i32 (off + proghdr_size)) sz1
  end.

(** [strlen] of an argument, which [sys_exec] keeps in a page. *)
Definition arg_len (a : Z) : M (pst (F := F)) Z :=
  in_phys (let! r := gets (fun s => strlen (pmem s) a (Z.to_nat PGSIZE)) in
           match r with Some k => ret k | None => nofuel end).

(** The loop over the arguments: [argc] and [sp] after it, [None] for [goto bad]. *)
Fixpoint push_args (pagetable stackbase : Z) (argv : list Z) (argc sp : Z) : M (pst (F := F)) (option (Z * Z)) :=
  match argv with
  | [] => ret (Some (argc, sp))
  | a :: rest =>
      if MAXARG <=? argc then ret None
      else
        let! k := arg_len a in
        let sp := u64 (sp - (k + 1)) in
        let sp := sp - sp mod 16 in
        if sp <? stackbase then ret None
        else
          let! r := in_phys (copyout pagetable sp a (k + 1)) in
          if r <? 0 then ret None
          else
            in_phys (pstore64 (ustack + 8 * argc) sp) ;;
            push_args pagetable stackbase rest (argc + 1) sp
  end.

(** The label [bad]; 0 for the null pointers. *)
Definition exec_bad (pagetable sz ip : Z) : M (pst (F := F)) Z :=
  (if negb (pagetable =? 0) then in_phys (proc_freepagetable pagetable sz) else ret tt) ;;
  (if negb (ip =? 0) then in_files (x_iunlockput ip) ;; in_files x_end_op else ret tt) ;;
  ret (-1).

Definition exec_commit (path : list Z) (pagetable sz entry argc sp oldsz : Z) : M (pst (F := F)) Z :=
  let! p := get_proc me in
  in_phys (pstore64 (p_trapframe p + tf_a1) sp) ;;
  mod_proc me (fun p => with_name (safestrcpy_list (p_name p) (path_last path path ++ [0]) 16) p) ;;
  let oldpagetable := p_pagetable p in
  mod_proc me (with_pagetable pagetable) ;;
  mod_proc me (with_sz sz) ;;
  in_phys (pstore64 (p_trapframe p + tf_epc) entry) ;;
  in_phys (pstore64 (p_trapframe p + tf_sp) sp) ;;
  in_phys (proc_freepagetable oldpagetable oldsz) ;;
  ret (i32 argc).

(** From the allocation of the stack on. *)
Definition exec_stack (path argv : list Z) (pagetable sz entry : Z) : M (pst (F := F)) Z :=
  let! p := get_proc me in
  let oldsz := p_sz p in
  let sz := PGROUNDUP sz in
  let! sz1 := in_phys (uvmalloc pagetable sz (u64 (sz + 2 * PGSIZE))) in
  if sz1 =? 0 then exec_bad pagetable sz 0
  else
    let sz := sz1 in
    in_phys (uvmclear pagetable (u64 (sz - 2 * PGSIZE))) ;;
    let stackbase := u64 (sz - PGSIZE) in
    let! r := push_args pagetable stackbase argv 0 sz in
    match r with
    | None => exec_bad pagetable sz 0
    | Some (argc, sp) =>
        in_phys (pstore64 (ustack + 8 * argc) 0) ;;
        let sp := u64 (sp - (argc + 1) * 8) in
        let sp := sp - sp mod 16 in
        if sp <? stackbase then exec_bad pagetable sz 0
        else
          let! r := in_phys (copyout pagetable sp ustack ((argc + 1) * 8)) in
          if r <? 0 then exec_bad pagetable sz 0
          else exec_commit path pagetable sz entry argc sp oldsz
    end.

Definition exec (path argv : list Z) : M (pst (F := F)) Z :=
  in_files x_begin_op ;;
  let! ip := in_files (x_namei path) in
  if ip =? 0 then in_files x_end_op ;; ret (-1)
  else
    in_files (x_ilock ip) ;;
    let! b := in_files (x_readi ip 0 elfhdr_size) in
    if negb (zlen b =? elfhdr_size) then exec_bad 0 0 ip
    else
      let elf := get_elfhdr b in
      if negb (e_magic elf =? ELF_MAGIC) then exec_bad 0 0 ip
      else
        let! pagetable := proc_pagetable me in
        if pagetable =? 0 then exec_bad 0 0 ip
        else
          let! r := load_segments ip pagetable (Z.to_nat (e_phnum elf)) (i32 (e_phoff elf)) 0 in
          let '(loaded, sz) := r in
          if negb loaded then exec_bad pagetable sz ip
          else
            in_files (x_iunlockput ip) ;;
            in_files x_end_op ;;
            exec_stack path argv pagetable sz (e_entry elf).
End Exec.
