(* ===== verification/ExecSpec.v ===== *)
(** * What [exec] is to build

    [exec_image c args]: the image of the program file with contents [c] started with the
    arguments [args], as a function of the two alone: the size, every byte that the user
    sees, the entry point, the stack pointer and [argc].  [None] if the file is not a
    program that the kernel loads or the arguments do not fit on the stack. *)

From S2P Require Import Prelude Bytes Riscv KString Kalloc Vm VmUser UserIO VmExec ProcMem Proc Exec.

(** All of memory; a larger image is not loaded. *)
Definition MEMSZ : Z := PGSIZE * MAXPAGES.

Record image := Image { im_sz : Z; im_view : flat; im_entry : Z; im_sp : Z; im_argc : Z }.

(** One program header: memory from the old size up to the end of the segment is zero, and
    then the bytes of the file are at the address of the segment. *)
Definition spec_segment (c : list Z) (off sz : Z) (V : flat) : option (Z * flat) :=
  let b := sub c (u32 off) proghdr_size in
  let ph := get_proghdr b in
  let sz' := Z.max sz (ph_vaddr ph + ph_memsz ph) in
  let bs := sub c (u32 (ph_off ph)) (ph_filesz ph) in
  if negb (zlen b =? proghdr_size) then None
  else if negb (ph_type ph =? ELF_PROG_LOAD) then Some (sz, V)
  else if (ph_memsz ph <? ph_filesz ph) || (MEMSZ <? ph_vaddr ph + ph_memsz ph) || (sz' =? 0)
       || negb (ph_vaddr ph mod PGSIZE =? 0) || negb (zlen bs =? ph_filesz ph) then None
  else Some (sz', u_write (v_grow V sz sz') (ph_vaddr ph) bs).

Fixpoint spec_segments (c : list Z) (n : nat) (off sz : Z) (V : flat) : option (Z * flat) :=
  match n with
  | O => Some (sz, V)
  | S k =>
      match spec_segment c off sz V with
      | None => None
      | Some (sz, V) => spec_segments c k (i32 (off + proghdr_size)) sz V
      end
  end.

(** The address [n] bytes below [sp], rounded down to a multiple of 16. *)
Definition push (sp n : Z) : Z := (sp - n) - (sp - n) mod 16.

(** The strings of the arguments on the stack, and their addresses [ptrs]. *)
Fixpoint spec_args (base : Z) (args : list (list Z)) (sp : Z) (ptrs : list Z) (V : flat) : option (Z * list Z * flat) :=
  match args with
  | [] => Some (sp, ptrs, V)
  | a :: rest =>
      if MAXARG <=? zlen ptrs then None
      else
        let sp := push sp (zlen a + 1) in
        if sp <? base then None
        else spec_args base rest sp (ptrs ++ [sp]) (u_write V sp (a ++ [0]))
  end.

(** [argv] in memory: the pointers and a null pointer. *)
Definition argv_bytes (ptrs : list Z) : list Z := concat (le_put 8 <$> (ptrs ++ [0])).

(** The stack page above an inaccessible page, with the arguments on it. *)
Definition spec_stack (sz : Z) (V : flat) (args : list (list Z)) (entry : Z) : option image :=
  let sz1 := PGSIZE * npages sz in
  let sz2 := sz1 + 2 * PGSIZE in
  if MEMSZ <? sz2 then None
  else
    match spec_args (sz2 - PGSIZE) args sz2 [] (v_clear (v_grow V sz1 sz2) (npages sz)) with
    | None => None
    | Some (sp, ptrs, V) =>
        let sp := push sp (8 * (zlen ptrs + 1)) in
        if sp <? sz2 - PGSIZE then None
        else Some (Image sz2 (u_write V sp (argv_bytes ptrs)) entry sp (zlen ptrs))
    end.

Definition exec_image (c : list Z) (args : list (list Z)) : option image :=
  let b := sub c 0 elfhdr_size in
  let elf := get_elfhdr b in
  if negb (zlen b =? elfhdr_size) || negb (e_magic elf =? ELF_MAGIC) then None
  else
    match spec_segments c (Z.to_nat (e_phnum elf)) (i32 (e_phoff elf)) 0 (fun _ => None) with
    | None => None
    | Some (sz, V) => spec_stack sz V args (e_entry elf)
    end.

(** ** Facts about views *)

(** The user reaches all the pages below [n]. *)
Definition v_full (V : flat) (n : Z) : Prop := forall va, 0 <= va < PGSIZE * n -> is_Some (V va).

Lemma v_grow_full V a b : v_full V (npages a) -> v_full (v_grow V a b) (npages b).
Proof.
  intros H va Hva. unfold v_grow. destruct (Z.leb_spec (PGSIZE * npages a) va); cbn [andb].
  - rewrite (proj2 (Z.ltb_lt _ _)) by lia. by eexists.
  - apply H. lia.
Qed.

Lemma u_write_some V a bs va : is_Some (V va) -> is_Some (u_write V a bs va).
Proof. intros H. unfold u_write. destruct (Z.leb_spec a va), (Z.ltb_spec va (a + zlen bs)); cbn [andb]; try done. apply lookup_lt_is_Some_2. lia. Qed.

Lemma u_write_app V a b1 b2 va : u_write (u_write V a b1) (a + zlen b1) b2 va = u_write V a (b1 ++ b2) va.
Proof.
  unfold u_write. rewrite length_app. destruct (Z.leb_spec a va), (Z.leb_spec (a + zlen b1) va), (Z.ltb_spec va (a + zlen b1)), (Z.ltb_spec va (a + zlen b1 + zlen b2)), (Z.ltb_spec va (a + Z.of_nat (length b1 + length b2))); cbn [andb]; try lia; try done.
  - rewrite lookup_app_r by lia. f_equal. lia.
  - rewrite lookup_app_l by lia. done.
Qed.

Lemma spec_segment_mono c off sz V sz' V' : spec_segment c off sz V = Some (sz', V') -> sz <= sz'.
Proof. unfold spec_segment. repeat case_match; intros [= <- <-]; lia. Qed.

Lemma spec_segments_mono c n : forall off sz V sz' V', spec_segments c n off sz V = Some (sz', V') -> sz <= sz'.
Proof.
  induction n as [|n IH]; intros off sz V sz' V'; cbn [spec_segments]; [by intros [= <- <-]|]. destruct (spec_segment c off sz V) as [[sz1 V1]|] eqn:E; [|done]. intros H. apply spec_segment_mono in E. apply IH in H. lia.
Qed.
