(* ===== verification/ExecLoad.v ===== *)
(** * [exec] loads the segments

    [loadseg] and the loop over the program headers build the memory of [ExecSpec]. *)

From S2P Require Import Prelude Bytes Riscv KString Kalloc Vm VmSpec VmUser UserMem UserIO VmExec ProcMem Proc Exec ExecSpec.

Lemma zlen_sub c off n : 0 <= off -> 0 <= n -> zlen (sub c off n) = Z.max 0 (Z.min n (zlen c - off)).
Proof. intros Ho Hn. unfold sub. rewrite length_take, length_drop. lia. Qed.

Lemma sub_nonpos c off n : n <= 0 -> sub c off n = [].
Proof. intros Hn. unfold sub. by rewrite (Z2Nat.nonpos n Hn). Qed.

Section Frames.
(** The free frames when [exec] started, and the contents of the file. *)
Context (l0 c : list Z).

(** Enough free frames at the start for an image of [sz] bytes, and what is left of them. *)
Definition frames_ok (l : list Z) (sz : Z) : Prop := zlen l0 <= zlen l + 3 * npages sz + 5.
Definition frames_short (sz : Z) : Prop := zlen l0 < 3 * npages sz + 5.

Lemma frames_step l sz l' sz' : frames_ok l sz -> zlen l <= zlen l' + 3 * (npages sz' - npages sz) -> frames_ok l' sz'.
Proof. unfold frames_ok. lia. Qed.

Lemma frames_fail l sz new sz' : frames_ok l sz -> zlen l < 3 * ((new + PGSIZE - 1) / PGSIZE - npages sz) -> 0 <= new <= sz' -> sz' <= MEMSZ -> frames_short sz'.
Proof.
  unfold frames_ok, frames_short. intros H1 H2 H3 H4. assert (MEMSZ <= MAXVA) as Hm by (unfold MEMSZ, MAXPAGES; klia). rewrite <- npages_div in H2 by lia. pose proof (npages_mono new sz'). lia.
Qed.

Lemma header_bounds b : bytes b -> zlen b = proghdr_size -> let ph := get_proghdr b in
  0 <= ph_vaddr ph < 2 ^ 64 /\ 0 <= ph_memsz ph < 2 ^ 64 /\ 0 <= ph_filesz ph < 2 ^ 64.
Proof.
  intros Hb Hl. cbn. assert (forall o, 0 <= o <= 48 -> 0 <= get_le b o 8 < 2 ^ 64) as H; [|split_and!; apply H; lia].
  intros o Ho. apply (get_le_bound b o 8 Hb). unfold in_range, proghdr_size in *. lia.
Qed.

Lemma u64_sum a b : 0 <= a < 2 ^ 64 -> 0 <= b < 2 ^ 64 -> if u64 (a + b) <? a then 2 ^ 64 <= a + b else u64 (a + b) = a + b /\ a + b < 2 ^ 64.
Proof.
  intros Ha Hb. unfold u64. destruct (decide (a + b < 2 ^ 64)).
  - rewrite Z.mod_small by lia. rewrite (proj2 (Z.ltb_ge _ _)) by lia. lia.
  - assert ((a + b) mod 2 ^ 64 = a + b - 2 ^ 64) as -> by (symmetry; apply (Z.mod_unique _ _ 1); lia). rewrite (proj2 (Z.ltb_lt _ _)) by lia. lia.
Qed.

(** What the spec says of the headers that are left if it accepts. *)
Definition segments_fail (n : nat) (off sz : Z) (V : flat) : Prop :=
  match spec_segments c n off sz V with None => True | Some (sz', _) => frames_short sz' end.

Lemma spec_segment_le off sz V sz' V' : spec_segment c off sz V = Some (sz', V') -> sz <= MEMSZ -> sz' <= MEMSZ.
Proof. unfold spec_segment. repeat case_match; intros [= <- <-]; [done|]. bsplit. cbn in *. lia. Qed.

Lemma spec_segments_le n : forall off sz V sz' V', spec_segments c n off sz V = Some (sz', V') -> sz <= MEMSZ -> sz' <= MEMSZ.
Proof.
  induction n as [|n IH]; intros off sz V sz' V'; cbn [spec_segments]; [by intros [= <- <-]|]. destruct (spec_segment c off sz V) as [[sz1 V1]|] eqn:E; [|done]. intros H Hs. eapply IH; [exact H|]. by eapply spec_segment_le.
Qed.

(** A segment for which there is no memory. *)
Lemma segments_short n off sz V l new : frames_ok l sz -> zlen l < 3 * ((new + PGSIZE - 1) / PGSIZE - npages sz) -> 0 <= new -> 0 <= sz <= MEMSZ ->
  (forall sz1 V1, spec_segment c off sz V = Some (sz1, V1) -> new <= sz1) -> segments_fail (S n) off sz V.
Proof.
  intros Hl Hs Hn Hz Hnew. unfold segments_fail. cbn [spec_segments]. destruct (spec_segment c off sz V) as [[sz1 V1]|] eqn:E; [|done]. specialize (Hnew sz1 V1 eq_refl).
  destruct (spec_segments c n _ sz1 V1) as [[sz' V']|] eqn:E'; [|done]. pose proof (spec_segments_mono _ _ _ _ _ _ _ E'). pose proof (spec_segment_le _ _ _ _ _ E). pose proof (spec_segments_le _ _ _ _ _ _ E'). eapply frames_fail; [done|done|lia|lia].
Qed.
End Frames.

Section Load.
Context {L : Linker} {LOk : LinkerOk L} {F : Type} {LO : Loader F} {LOK : LoaderOk F}.
(** The process table does not change. *)
Context (s : pst (F := F)) (K : Z -> Prop) (s0 : phys) (l0 : list Z) (tf : Z).
Context (Htf : page_ok tf) (T : x_tree) (ip : Z) (c : list Z) (Hc : bytes c) (Hclen : zlen c < 2 ^ 31).

Definition with_mem (ph : phys) (f : F) : pst := Pst (procs s) (initproc s) (nextpid s) ph f.

Lemma run_phys {A} (m : M phys A) ph f a ph' : m ph = Ok (a, ph') -> in_phys m (with_mem ph f) = Ok (a, with_mem ph' f).
Proof using. intros H. unfold in_phys. by erewrite zoom_ok. Qed.

Lemma run_files {A} (m : M F A) ph f a f' : m f = Ok (a, f') -> in_files m (with_mem ph f) = Ok (a, with_mem ph f').
Proof using. intros H. unfold in_files. by erewrite zoom_ok. Qed.

Section Loadseg.
Context (l : list Z) (r : Z) (d t U : gmap Z Z) (bsz va ofs sz : Z).
Context (Hva : 0 <= va) (Hal : va mod PGSIZE = 0) (Hin : va + sz <= PGSIZE * npages bsz) (Hmax : PGSIZE * npages bsz <= MEMSZ) (Hofs : 0 <= ofs < 2 ^ 32).

(** From page [j] of the segment on. *)
Lemma loadseg_loop_ok k : forall ph f V j fuel, building K s0 l0 tf ph l r d t U bsz V -> v_full V (npages bsz) -> x_locked T ip c f -> 0 <= j ->
  sz <= PGSIZE * (j + Z.of_nat k) -> (k < fuel)%nat -> (0 < j -> ofs + PGSIZE * j <= zlen c \/ sz <= PGSIZE * j) ->
  exists rv ph' f', loadseg_loop r va ip ofs sz (PGSIZE * j) fuel (with_mem ph f) = Ok (rv, with_mem ph' f') /\ x_locked T ip c f' /\
    (rv = 0 /\ (PGSIZE * j < sz -> ofs + sz <= zlen c) /\
       building K s0 l0 tf ph' l r d t U bsz (u_write V (va + PGSIZE * j) (sub c (ofs + PGSIZE * j) (sz - PGSIZE * j))) \/
     rv = -1 /\ PGSIZE * j < sz /\ zlen c < ofs + sz /\ exists V', building K s0 l0 tf ph' l r d t U bsz V').
Proof using Hva Hal Hin Hmax Hofs Htf Hc Hclen LOk LOK.
  induction k as [|k IH]; intros ph f V j fuel B Hfull Hf Hj Hk Hfuel Hpos; (destruct fuel as [|fuel]; [lia|]); cbn [loadseg_loop].
  all: destruct (Z.ltb_spec (PGSIZE * j) sz) as [Hlt|Hge]; [try lia|exists 0, ph, f; split_and!; [done|done|left; split_and!; [done|lia|]; eapply building_ext; [done|]; intros x; by rewrite sub_nonpos, u_write_nil by lia]].
  assert (PGSIZE * j < 2 ^ 28 /\ va + PGSIZE * j < 2 ^ 28) as [Hjb Hvb] by (unfold MEMSZ, MAXPAGES in *; klia).
  rewrite (u64_small (va + _)) by klia. destruct (building_page K s0 l0 tf Htf ph l r d t U bsz V (va + PGSIZE * j) B) as (pa & Hw & Hpa & Hst); [klia| |apply Hfull; klia|].
  { rewrite Z.add_mod, Hal, Z.mul_comm, Z.mod_mul by done. done. }
  mstep (run_phys _ _ f _ _ Hw). rewrite (proj2 (Z.eqb_neq pa 0)) by done. mcomp. assert (0 <= ofs + PGSIZE * j < 2 ^ 32) as Ho by (destruct (decide (0 < j)); [klia|replace j with 0 by lia; klia]).
  rewrite (u32_small (ofs + _)) by done. set (n := if sz - PGSIZE * j <? PGSIZE then sz - PGSIZE * j else PGSIZE). assert (n = Z.min (sz - PGSIZE * j) PGSIZE) as En by (unfold n; zcase; lia). clearbody n.
  destruct (x_readi_ok T ip c f (ofs + PGSIZE * j) n Hf Ho) as (f1 & Hr & Hf1); [klia|]. mstep (run_files _ ph _ _ _ Hr). set (bs := sub c (ofs + PGSIZE * j) n).
  pose proof (zlen_sub c (ofs + PGSIZE * j) n ltac:(lia) ltac:(klia)) as Hbl. fold bs in Hbl. specialize (Hst bs (bytes_sub _ _ _ Hc) ltac:(klia)).
  set (ph1 := set_pmem (store_bytes (pmem ph) pa bs) ph) in *. mstep (run_phys (modify (fun s => set_pmem (store_bytes (pmem s) pa bs) s)) ph f1 tt ph1 eq_refl).
  destruct (Z.eqb_spec (zlen bs) n) as [Eb|Eb]; cbn [negb].
  2:{ exists (-1), ph1, f1. split_and!; [done|done|right]. split_and!; [done|done|klia|by eexists]. }
  rewrite (u32_small (_ + PGSIZE)) by klia. replace (PGSIZE * j + PGSIZE) with (PGSIZE * (j + 1)) by lia.
  destruct (IH ph1 f1 _ (j + 1) fuel Hst) as (rv & ph' & f' & Hrun & Hf' & Hres); [intros x Hx; apply u_write_some, Hfull; klia|done|lia|klia|lia|klia|].
  exists rv, ph', f'. split_and!; [done|done|]. destruct Hres as [(-> & Hend & B')|(-> & Hj1 & Hz & B')]; [left|right; split_and!; [done|klia|done|done]]. split_and!; [done|klia|].
  eapply building_ext; [exact B'|]. intros x. symmetry. destruct (decide (sz - PGSIZE * j <= PGSIZE)) as [Hlast|Hmore].
  - rewrite (sub_nonpos c (ofs + PGSIZE * (j + 1))), u_write_nil by klia. unfold bs. by replace n with (sz - PGSIZE * j) by lia.
  - replace (va + PGSIZE * (j + 1)) with (va + PGSIZE * j + zlen bs) by lia. rewrite u_write_app. f_equal. replace (sz - PGSIZE * j) with (n + (sz - PGSIZE * (j + 1))) by lia. rewrite (sub_app c (ofs + PGSIZE * j) n) by klia. fold bs. f_equal. f_equal. lia.
Qed.
End Loadseg.

Lemma loadseg_ok l r d t U bsz va ofs sz ph f V : building K s0 l0 tf ph l r d t U bsz V -> v_full V (npages bsz) -> x_locked T ip c f ->
  0 <= va -> va mod PGSIZE = 0 -> 0 <= sz -> va + sz <= PGSIZE * npages bsz -> PGSIZE * npages bsz <= MEMSZ -> 0 <= ofs < 2 ^ 32 ->
  exists rv ph' f', loadseg r va ip ofs sz (with_mem ph f) = Ok (rv, with_mem ph' f') /\ x_locked T ip c f' /\
    (rv = 0 /\ zlen (sub c ofs sz) = sz /\ building K s0 l0 tf ph' l r d t U bsz (u_write V va (sub c ofs sz)) \/
     rv = -1 /\ zlen (sub c ofs sz) <> sz /\ exists V', building K s0 l0 tf ph' l r d t U bsz V').
Proof using Htf Hc Hclen LOk LOK.
  intros B Hfull Hf Hva Hal Hsz Hin Hmax Hofs. unfold loadseg. rewrite Hal. mcomp. pose proof (zlen_sub c ofs sz ltac:(lia) Hsz) as Hlen.
  destruct (loadseg_loop_ok l r d t U bsz va ofs sz Hva Hal Hin Hmax Hofs (Z.to_nat (sz / PGSIZE + 1)) ph f V 0 (Z.to_nat (sz / PGSIZE + 2)) B Hfull Hf) as (rv & ph' & f' & H & Hf' & Hr); [lia|kdlia|kdlia|lia|].
  rewrite Z.mul_0_r, !Z.add_0_r, Z.sub_0_r in *. exists rv, ph', f'. split_and!; [done|done|]. destruct Hr as [(-> & Hend & B')|(-> & Hpos & Hz & B')]; [left|right]; split_and!; try done; lia.
Qed.

(** [uvmalloc] for a segment that ends at [new]. *)
Lemma segment_alloc l r d t U sz V ph new : building K s0 l0 tf ph l r d t U sz V -> 0 <= new < 2 ^ 64 -> let sz' := Z.max sz new in
  exists rv ph' l' d' t' U', uvmalloc r sz new ph = Ok (rv, ph') /\
    (rv = sz' /\ sz' <= MEMSZ /\ building K s0 l0 tf ph' l' r d' t' U' sz' (v_grow V sz sz') /\ Z.of_nat (length l) <= Z.of_nat (length l') + 3 * (npages sz' - npages sz) \/
     rv = 0 /\ sz <= new /\ building K s0 l0 tf ph' l' r d' t' U' sz V /\ Z.of_nat (length l) < 3 * ((new + PGSIZE - 1) / PGSIZE - npages sz)).
Proof using Htf LOk.
  clear c Hc Hclen. intros B Hn sz'. unfold sz'. destruct (decide (new < sz)) as [Hlt|Hge].
  - rewrite Z.max_l by lia. exists sz, ph, l, d, t, U. split; [unfold uvmalloc; by rewrite (proj2 (Z.ltb_lt _ _))|]. left. pose proof (sp_sz _ _ _ _ _ _ _ _ _ (bd_space _ _ _ _ _ _ _ _ _ _ _ _ B)) as Hz. split_and!; [done|apply Hz| |lia].
    eapply building_ext; [done|]. intros va. unfold v_grow. by destruct (Z.leb_spec (PGSIZE * npages sz) va), (Z.ltb_spec va (PGSIZE * npages sz)); try lia.
  - rewrite Z.max_r by lia. destruct (building_alloc K s0 l0 tf Htf ph l r d t U sz V new B) as (rv & ph' & l' & d' & t' & U' & H & Hr); [lia|]. exists rv, ph', l', d', t', U'. split; [done|].
    destruct Hr as [(-> & Hle & B' & _ & Hlen)|(-> & B' & Hlen)]; [by left|right]. split_and!; [done|lia|done|done].
Qed.

(** What the loop over the headers leaves behind. *)
Definition loaded (r : Z) (n : nat) (off sz : Z) (V : flat) (b : bool) (sz' : Z) (ph' : phys) : Prop :=
  exists l' d' t' U' V', building K s0 l0 tf ph' l' r d' t' U' sz' V' /\
    if b then spec_segments c n off sz V = Some (sz', V') /\ v_full V' (npages sz') /\ frames_ok l0 l' sz' else segments_fail l0 c n off sz V.

Lemma loaded_bad r n off sz V ph l d t U sz' V' : building K s0 l0 tf ph l r d t U sz' V' -> segments_fail l0 c n off sz V -> loaded r n off sz V false sz' ph.
Proof using. intros B H. exists l, d, t, U, V'. done. Qed.

Lemma segment_none n off sz V : spec_segment c off sz V = None -> segments_fail l0 c (S n) off sz V.
Proof using. intros H. unfold segments_fail. cbn [spec_segments]. by rewrite H. Qed.

Lemma loaded_next r n off sz V sz1 V1 b sz' ph' : spec_segment c off sz V = Some (sz1, V1) -> loaded r n (i32 (off + proghdr_size)) sz1 V1 b sz' ph' -> loaded r (S n) off sz V b sz' ph'.
Proof using.
  intros E (l' & d' & t' & U' & V' & B & H). exists l', d', t', U', V'. split; [done|]. unfold segments_fail. cbn [spec_segments]. by rewrite E.
Qed.

Lemma load_segments_ok r n : forall off sz V ph f l d t U, building K s0 l0 tf ph l r d t U sz V -> v_full V (npages sz) -> frames_ok l0 l sz -> x_locked T ip c f ->
  exists b sz' ph' f', load_segments ip r n off sz (with_mem ph f) = Ok ((b, sz'), with_mem ph' f') /\ x_locked T ip c f' /\ loaded r n off sz V b sz' ph'.
Proof using Htf Hc Hclen LOk LOK.
  induction n as [|n IH]; intros off sz V ph f l d t U B Hfull Hfr Hf; cbn [load_segments].
  { exists true, sz, ph, f. split_and!; [done|done|]. by exists l, d, t, U, V. }
  destruct (x_readi_ok T ip c f (u32 off) proghdr_size Hf) as (f1 & Hr & Hf1); [apply u32_bound|done|]. mstep (run_files _ ph _ _ _ Hr).
  set (b := sub c (u32 off) proghdr_size). set (h := get_proghdr b). pose proof (sp_sz _ _ _ _ _ _ _ _ _ (bd_space _ _ _ _ _ _ _ _ _ _ _ _ B)) as Hz.
  assert (spec_segment c off sz V = if negb (zlen b =? proghdr_size) then None else if negb (ph_type h =? ELF_PROG_LOAD) then Some (sz, V) else
    if (ph_memsz h <? ph_filesz h) || (MEMSZ <? ph_vaddr h + ph_memsz h) || (Z.max sz (ph_vaddr h + ph_memsz h) =? 0) || negb (ph_vaddr h mod PGSIZE =? 0) || negb (zlen (sub c (u32 (ph_off h)) (ph_filesz h)) =? ph_filesz h) then None
    else Some (Z.max sz (ph_vaddr h + ph_memsz h), u_write (v_grow V sz (Z.max sz (ph_vaddr h + ph_memsz h))) (ph_vaddr h) (sub c (u32 (ph_off h)) (ph_filesz h)))) as Espec by reflexivity.
  assert (spec_segment c off sz V = None -> forall ph f l d t U sz' V', building K s0 l0 tf ph l r d t U sz' V' -> x_locked T ip c f ->
    exists b sz'' ph' f', @ret pst _ (false, sz') (with_mem ph f) = Ok ((b, sz''), with_mem ph' f') /\ x_locked T ip c f' /\ loaded r (S n) off sz V b sz'' ph') as Hbad.
  { intros En ph2 f2 l2 d2 t2 U2 sz2 V2 B2 Hf2. exists false, sz2, ph2, f2. split_and!; [done|done|]. by eapply loaded_bad, segment_none. }
  cbn zeta. destruct (Z.eqb_spec (zlen b) proghdr_size) as [Eb|Eb]; cbn [negb] in *; [|by eapply Hbad]. destruct (header_bounds b (bytes_sub _ _ _ Hc) Eb) as (Hva & Hmem & Hfile). fold h in Hva, Hmem, Hfile. clearbody h.
  destruct (ph_type h =? ELF_PROG_LOAD); cbn [negb] in *.
  2:{ destruct (IH (i32 (off + proghdr_size)) sz V ph f1 l d t U B Hfull Hfr Hf1) as (b' & sz' & ph' & f' & H & Hf' & Hld). exists b', sz', ph', f'. split_and!; [done|done|]. by eapply loaded_next. }
  destruct (Z.ltb_spec (ph_memsz h) (ph_filesz h)) as [Hms|Hms]; cbn [orb] in *; [by eapply Hbad|]. pose proof (u64_sum (ph_vaddr h) (ph_memsz h) Hva Hmem) as Hsum.
  destruct (Z.ltb_spec (u64 (ph_vaddr h + ph_memsz h)) (ph_vaddr h)) as [Hw|Hw]; [|destruct Hsum as [-> Hsum]].
  { eapply Hbad; [|done|done]. rewrite Espec, (proj2 (Z.ltb_lt MEMSZ _)) by (unfold MEMSZ, MAXPAGES; klia). done. }
  destruct (segment_alloc l r d t U sz V ph (ph_vaddr h + ph_memsz h) B) as (rv & ph1 & l1 & d1 & t1 & U1 & Hrun & Hres); [lia|]. set (sz' := Z.max sz (ph_vaddr h + ph_memsz h)) in *. mstep (run_phys _ _ f1 _ _ Hrun).
  destruct Hres as [(-> & Hle & B1 & Hcnt)|(-> & Hge & B1 & Hcnt)].
  2:{ exists false, sz, ph1, f1. split_and!; [done|done|]. eapply loaded_bad; [done|]. eapply segments_short; [exact Hfr|exact Hcnt|lia|exact Hz|]. intros sz1 V1. rewrite Espec. case_match; [done|]. intros [= <- _]. lia. }
  rewrite (proj2 (Z.ltb_ge MEMSZ _)) in Espec by lia. cbn [orb] in Espec. destruct (Z.eqb_spec sz' 0) as [E0|E0]; cbn [orb] in Espec.
  { assert (sz' = sz) as E1 by lia. rewrite E1 in B1. by eapply Hbad. }
  destruct (ph_vaddr h mod PGSIZE =? 0) eqn:Eal; cbn [negb orb] in *; [|by eapply Hbad]. apply Z.eqb_eq in Eal. destruct (npages_spec sz') as (_ & _ & Hnp); [unfold MEMSZ, MAXPAGES in *; klia|].
  assert (PGSIZE * npages sz' <= MEMSZ) as Hpm. { pose proof (usize_few _ _ _ _ _ _ _ (sp_inv _ _ _ _ _ _ _ _ _ (bd_space _ _ _ _ _ _ _ _ _ _ _ _ B1)) (sp_size _ _ _ _ _ _ _ _ _ (bd_space _ _ _ _ _ _ _ _ _ _ _ _ B1))). unfold MEMSZ. klia. }
  rewrite (u32_small (ph_filesz h)) by (unfold MEMSZ, MAXPAGES in *; klia).
  destruct (loadseg_ok l1 r d1 t1 U1 sz' (ph_vaddr h) (u32 (ph_off h)) (ph_filesz h) ph1 f1 _ B1) as (rv & ph2 & f2 & Hls & Hf2 & Hres); [by apply v_grow_full|done|lia|done|lia|lia|done|apply u32_bound|]. mstep Hls.
  destruct Hres as [(-> & Hlen & B2)|(-> & Hlen & V2 & B2)]; cbn [Z.ltb Z.compare].
  2:{ eapply Hbad; [|done|done]. by rewrite Espec, (proj2 (Z.eqb_neq _ _) Hlen). }
  rewrite Hlen, Z.eqb_refl in Espec. cbn [negb] in Espec. destruct (IH (i32 (off + proghdr_size)) sz' _ ph2 f2 l1 d1 t1 U1 B2) as (b' & sz2 & ph' & f' & H & Hf' & Hld); [intros x Hx; apply u_write_some; by apply v_grow_full|by eapply frames_step|done|].
  exists b', sz2, ph', f'. split_and!; [done|done|]. by eapply loaded_next.
Qed.
End Load.
