(* ===== verification/ExecStack.v ===== *)
(** * [exec] pushes the arguments

    The loop over [argv] builds the stack of [ExecSpec]: the strings, and the array of
    their addresses in [ustack]. *)

From S2P Require Import Prelude Bytes Riscv KString Kalloc Vm VmSpec VmUser UserMem UserIO VmExec ProcMem Proc Exec ExecSpec ExecLoad.

(** ** Bytes in memory *)

Lemma load_bytes_cons m a n : load_bytes m a (S n) = load8 m a :: load_bytes m (a + 1) n.
Proof.
  unfold load_bytes. cbn [seq fmap list_fmap]. f_equal; [f_equal; lia|]. rewrite <- seq_shift, <- list_fmap_compose. apply list_fmap_ext. intros i x _. cbn. f_equal. lia.
Qed.

Lemma load_bytes_app m n : forall a k, load_bytes m a (n + k) = load_bytes m a n ++ load_bytes m (a + Z.of_nat n) k.
Proof.
  induction n as [|n IH]; intros a k; cbn [Nat.add app]; [by rewrite Z.add_0_r|]. rewrite !load_bytes_cons, IH. by replace (a + Z.of_nat (S n)) with (a + 1 + Z.of_nat n) by lia.
Qed.

Lemma load_bytes_ext m m' a n : (forall i, 0 <= i < Z.of_nat n -> m' (a + i) = m (a + i)) -> load_bytes m' a n = load_bytes m a n.
Proof. intros H. unfold load_bytes. apply list_fmap_ext. intros i x Hi. apply lookup_seq in Hi. apply load8_same, H. lia. Qed.

Lemma le_put_load m n : forall a, le_put n (load_le m a n) = load_bytes m a n.
Proof.
  induction n as [|n IH]; intros a; [done|]. cbn [le_put load_le]. rewrite load_bytes_cons. pose proof (load8_bound m a) as Hb. f_equal; [symmetry; apply (Z.mod_unique _ _ (load_le m (a + 1) n)); lia|].
  rewrite <- IH. f_equal. symmetry. apply (Z.div_unique _ _ _ (load8 m a)); lia.
Qed.

Lemma le_put_load64 m a : le_put 8 (load64 m a) = load_bytes m a 8.
Proof. with_strategy transparent [load64] unfold load64. apply le_put_load. Qed.

(** The array of 64-bit words [ws] at [a]. *)
Definition words_at (m : mem) (a : Z) (ws : list Z) : Prop := forall i w, ws !! i = Some w -> load64 m (a + 8 * Z.of_nat i) = w.

Lemma words_bytes m ws : forall a, words_at m a ws -> load_bytes m a (8 * length ws) = concat (le_put 8 <$> ws).
Proof.
  induction ws as [|w ws IH]; intros a H; [done|]. cbn [length fmap list_fmap concat]. replace (8 * S (length ws))%nat with (8 + 8 * length ws)%nat by lia. rewrite load_bytes_app. f_equal.
  - rewrite <- le_put_load64. f_equal. rewrite <- (H 0%nat w eq_refl). f_equal. lia.
  - apply IH. intros i w' Hi. rewrite <- (H (S i) w' Hi). f_equal. lia.
Qed.

Lemma words_snoc m a ws w : words_at m a ws -> 0 <= w < 2 ^ 64 -> words_at (store64 m (a + 8 * zlen ws) w) a (ws ++ [w]).
Proof.
  intros H Hw i v Hi. apply lookup_app_Some in Hi as [Hi|[Hlen Hi]].
  - pose proof (lookup_lt_Some _ _ _ Hi). rewrite load64_store64_ne by lia. by apply H.
  - apply list_lookup_singleton_Some in Hi as [Hi <-]. replace (Z.of_nat i) with (zlen ws) by lia. rewrite load64_store64_eq. by apply u64_small.
Qed.

Lemma words_ext m m' a ws : words_at m a ws -> (forall x, a <= x < a + 8 * zlen ws -> m' x = m x) -> words_at m' a ws.
Proof. intros H E i w Hi. pose proof (lookup_lt_Some _ _ _ Hi). rewrite <- (H i w Hi). apply load64_ext. intros x Hx. apply E. lia. Qed.

Lemma push_bounds sp n : 0 <= n -> sp - n - 15 <= push sp n <= sp - n.
Proof. intros Hn. unfold push. pose proof (Z.mod_pos_bound (sp - n) 16). lia. Qed.

(** ** The loop *)

(** The bytes of [ustack]. *)
Definition ustack_bytes (ustack x : Z) : Prop := ustack <= x < ustack + 8 * (MAXARG + 1).

Section Stack.
Context {L : Linker} {LOk : LinkerOk L} {F : Type}.
Context (s : pst (F := F)) (ustack : Z) (s0 : phys) (l0 : list Z) (tf : Z).
Context (Htf : page_ok tf) (HK : forall x p, ustack_bytes ustack x -> p ∈ l0 -> ~ in_page p x).

(** The string [bs] with its NUL is at [a], away from [ustack] and from free pages. *)
Record arg_at (a : Z) (bs : list Z) : Prop := {
  arg_bytes : Forall (fun b => 0 < b < 256) bs;
  arg_page : zlen bs < PGSIZE;
  arg_mem : load_bytes (pmem s0) a (length bs + 1) = bs ++ [0];
  arg_apart x : a <= x <= a + zlen bs -> ~ ustack_bytes ustack x /\ forall p, p ∈ l0 -> ~ in_page p x;
}.

Context (l : list Z) (r : Z) (d t U : gmap Z Z) (sz : Z).
Abbreviation Build ph V := (building (ustack_bytes ustack) s0 l0 tf ph l r d t U sz V).

Lemma arg_kept ph V a bs : Build ph V -> arg_at a bs -> load_bytes (pmem ph) a (length bs + 1) = bs ++ [0].
Proof using.
  intros B [_ _ Hm Ha]. rewrite <- Hm. apply load_bytes_ext. intros i Hi. destruct (Ha (a + i)) as [Hk Hp]; [lia|]. by apply (bd_frame _ _ _ _ _ _ _ _ _ _ _ _ B).
Qed.

Lemma arg_strlen ph V a bs : Build ph V -> arg_at a bs -> strlen (pmem ph) a (Z.to_nat PGSIZE) = Some (zlen bs).
Proof using.
  intros B A. pose proof (arg_kept _ _ _ _ B A) as Hm. destruct A as [Hb Hl _ _].
  assert (forall i b, (bs ++ [0]) !! i = Some b -> load8 (pmem ph) (a + Z.of_nat i) = b) as Hat by (intros i b Hi; rewrite <- Hm in Hi; by apply load_bytes_lookup in Hi as [_ ->]).
  apply strlen_spec; [| |lia].
  - intros j Hj. destruct (lookup_lt_is_Some_2 bs j Hj) as [b Eb]. rewrite (Hat j b) by (by rewrite lookup_app_l). rewrite Forall_lookup in Hb. specialize (Hb j b Eb). lia.
  - apply Hat. rewrite lookup_app_r by lia. by rewrite Nat.sub_diag.
Qed.

(** The user reaches the stack page. *)
Definition stack_ok (V : flat) : Prop := forall x, sz - PGSIZE <= x < sz -> is_Some (V x).

Context (Hsz : 2 * PGSIZE <= sz <= MEMSZ).

(** [copyout] to the stack. *)
Lemma stack_copyout ph V sp src n : Build ph V -> stack_ok V -> sz - PGSIZE <= sp -> 0 <= n -> sp + n <= sz ->
  (forall x p, src <= x < src + n -> p ∈ l0 -> ~ in_page p x) ->
  exists ph', copyout r sp src n ph = Ok (0, ph') /\ Build ph' (u_write V sp (load_bytes (pmem ph) src (Z.to_nat n))) /\
    stack_ok (u_write V sp (load_bytes (pmem ph) src (Z.to_nat n))) /\ forall x, ustack_bytes ustack x -> pmem ph' x = pmem ph x.
Proof using Htf HK Hsz LOk.
  intros B Hst Hsp Hn Hend Hsrc. destruct (building_copyout (ustack_bytes ustack) s0 l0 tf Htf ph l r d t U sz V sp src n B) as (m & H & B' & Hm).
  - unfold MEMSZ, MAXPAGES in *. klia.
  - unfold MEMSZ, MAXPAGES in *. klia.
  - intros i p Hi. apply Hsrc. lia.
  - intros i Hi. apply Hst. lia.
  - exists (set_pmem m ph). split_and!; [done|done|intros x Hx; by apply u_write_some, Hst|]. intros x Hx. apply Hm. intros p Hp. by apply HK.
Qed.

Lemma push_args_ok argv args : Forall2 arg_at argv args -> forall ph f sp ptrs V, Build ph V -> stack_ok V -> words_at (pmem ph) ustack ptrs ->
  sz - PGSIZE <= sp <= sz -> zlen ptrs <= MAXARG ->
  exists o ph', push_args ustack r (sz - PGSIZE) argv (zlen ptrs) sp (with_mem s ph f) = Ok (o, with_mem s ph' f) /\
    match spec_args (sz - PGSIZE) args sp ptrs V with
    | None => o = None /\ exists V', Build ph' V'
    | Some (sp', ptrs', V') => o = Some (zlen ptrs', sp') /\ Build ph' V' /\ stack_ok V' /\ words_at (pmem ph') ustack ptrs' /\
        sz - PGSIZE <= sp' <= sz /\ zlen ptrs' = zlen ptrs + zlen args /\ zlen ptrs' <= MAXARG
    end.
Proof using Htf HK Hsz LOk.
  induction 1 as [|a bs argv args A _ IH]; intros ph f sp ptrs V B Hst Hw Hsp Hn; cbn [push_args spec_args].
  { eexists _, ph. split; [done|]. cbn [length]. split_and!; (done || lia). }
  destruct (Z.leb_spec MAXARG (zlen ptrs)) as [Hmax|Hmax]; [eexists None, ph; split; [done|]; by eauto|]. pose proof (arg_strlen _ _ _ _ B A) as Hlen. pose proof (arg_kept _ _ _ _ B A) as Hkept. pose proof (arg_page _ _ A) as Hpg.
  unfold arg_len. erewrite bind_ok. 2:{ apply run_phys. mcomp. rewrite Hlen. reflexivity. }
  unfold MEMSZ, MAXPAGES in Hsz. rewrite u64_small by klia. cbn zeta. fold (push sp (zlen bs + 1)). pose proof (push_bounds sp (zlen bs + 1) ltac:(lia)) as Hpb. set (sp' := push sp (zlen bs + 1)) in *.
  destruct (Z.ltb_spec sp' (sz - PGSIZE)) as [Hlow|Hlow]; [eexists None, ph; split; [done|]; by eauto|].
  destruct (stack_copyout ph V sp' a (zlen bs + 1) B Hst Hlow) as (ph1 & Hc & B1 & Hst1 & Hk1); [lia|lia|intros x p Hx Hp; apply (arg_apart _ _ A); [lia|done]|].
  replace (Z.to_nat (zlen bs + 1)) with (length bs + 1)%nat in * by lia. rewrite Hkept in *. mstep (run_phys s _ _ f _ _ Hc). cbn [Z.ltb Z.compare].
  set (ph2 := set_pmem (store64 (pmem ph1) (ustack + 8 * zlen ptrs) sp') ph1). mstep (run_phys s (pstore64 (ustack + 8 * zlen ptrs) sp') ph1 f tt ph2 eq_refl).
  assert (Build ph2 (u_write V sp' (bs ++ [0]))) as B2. { apply building_buffer; [done|done|done|]. intros x Hx. apply store64_outside. unfold ustack_bytes in Hx. lia. }
  assert (words_at (pmem ph2) ustack (ptrs ++ [sp'])) as Hw2. { apply words_snoc; [|klia]. eapply words_ext; [exact Hw|]. intros x Hx. apply Hk1. unfold ustack_bytes. lia. }
  replace (zlen ptrs + 1) with (zlen (ptrs ++ [sp'])) by (rewrite length_app; cbn; lia).
  destruct (IH ph2 f sp' (ptrs ++ [sp']) _ B2 Hst1 Hw2) as (o & ph' & Hrun & Hres); [lia|rewrite length_app; cbn; lia|]. exists o, ph'. split; [done|]. destruct (spec_args _ args _ _ _) as [[[sp2 ptrs2] V2]|]; [|done].
  destruct Hres as (-> & B' & Hst' & Hw' & Hsp' & Hl & Hm). rewrite length_app in Hl. cbn [length] in *. split_and!; (done || lia).
Qed.
End Stack.
