(* ===== verification/ExecTop.v ===== *)
(** * [exec] is correct

    For every file contents and every arguments, [exec] returns: with the image of
    [ExecSpec], or with the process as it was and every frame back. *)

From S2P Require Import Prelude Bytes Riscv KString Kalloc Vm VmSpec VmUser UserMem UserIO VmExec ProcMem Proc Exec ExecSpec ExecLoad ExecStack.

Lemma perm_swap_blocks (a b l : list Z) : a ++ b ++ l ≡ₚ b ++ a ++ l.
Proof. rewrite !app_assoc. apply Permutation_app_tail, Permutation_app_comm. Qed.

Lemma store_le_at n : forall m m' a v x, m' x = m x -> store_le m' a n v x = store_le m a n v x.
Proof. induction n as [|n IH]; intros m m' a v x H; cbn [store_le]; [done|]. apply IH. unfold store8. by destruct (x =? a). Qed.

Lemma store64_at m m' a v x : m' x = m x -> store64 m' a v x = store64 m a v x.
Proof. with_strategy transparent [store64] unfold store64. apply store_le_at. Qed.

Section Top.
Context {L : Linker} {LOk : LinkerOk L} {F : Type} {LO : Loader F}.
Context (s : pst (F := F)) (me ustack : Z).
Abbreviation p := (procs s me).
Abbreviation s0 := (p_phys s).
Abbreviation tf := (p_trapframe p).
Abbreviation K := (ustack_bytes ustack).

(** The address space of the process, its trapframe and [ustack]. *)
Context (l0 : list Z) (d0 t0 U0 : gmap Z Z) (V0 : flat).
Abbreviation old := (pt_pages (p_pagetable p) d0 t0 ++ upages U0).

Record ready : Prop := {
  rd_space : space s0 l0 (p_pagetable p) d0 t0 U0 tf (p_sz p) V0;
  rd_tf : page_ok tf;
  rd_apart : tf ∉ old ++ l0;
  rd_ustack x q : K x -> q ∈ tf :: old ++ l0 -> ~ in_page q x;
}.

Context (R : ready).

(** [exec] failed: every frame is back. *)
Definition gave_back (ph : phys) : Prop :=
  exists l', kmem_inv ph l' /\ l' ≡ₚ l0 /\ same_but K l0 (pmem s0) (pmem ph) /\ kernel_pagetable ph = kernel_pagetable s0.

Lemma ready_K x q : K x -> q ∈ l0 -> ~ in_page q x.
Proof using R. intros Hx Hq. apply (rd_ustack R); [done|]. right. rewrite elem_of_app. by right. Qed.

Lemma old_ok : Forall page_ok (old ++ l0).
Proof using R LOk. pose proof (uvm_all_ok _ _ _ _ _ _ (sp_inv _ _ _ _ _ _ _ _ _ (rd_space R))) as H. by rewrite <- app_assoc. Qed.

Lemma old_nodup : NoDup (old ++ l0).
Proof using R. rewrite <- app_assoc. apply (ui_nodup _ _ _ _ _ _ (sp_inv _ _ _ _ _ _ _ _ _ (rd_space R))). Qed.

(** Two of the pages share no byte. *)
Lemma old_disjoint q q' x : q ∈ old -> q' ∈ l0 -> in_page q x -> ~ in_page q' x.
Proof using R LOk.
  intros Hq Hq' Hx Hx'. pose proof old_ok as Hok. rewrite Forall_forall in Hok. apply (page_ok_disjoint q q' x); [apply Hok; rewrite elem_of_app; auto..| |done|done].
  intros ->. pose proof old_nodup as Hnd. apply NoDup_app in Hnd as (_ & Hd & _). by apply (Hd q').
Qed.

Lemma tf_disjoint q x : q ∈ old ++ l0 -> in_page tf x -> ~ in_page q x.
Proof using R LOk.
  intros Hq Hx Hx'. pose proof old_ok as Hok. rewrite Forall_forall in Hok. apply (page_ok_disjoint tf q x); [apply (rd_tf R)|by apply Hok| |done|done]. intros <-. by apply (rd_apart R).
Qed.

(** The label [bad] after the file is closed. *)
Lemma bad_ok ph f l r d t U sz V : r <> 0 -> building K s0 l0 tf ph l r d t U sz V ->
  exists ph', exec_bad r sz 0 (with_mem s ph f) = Ok (-1, with_mem s ph' f) /\ gave_back ph'.
Proof using R LOk.
  intros Hr B. destruct (building_free K s0 l0 tf (rd_tf R) _ _ _ _ _ _ _ _ B) as (ph' & l' & H & Hk & Hp & Hb & Hkp). exists ph'. split; [|by exists l']. unfold exec_bad. rewrite (proj2 (Z.eqb_neq r 0)) by done. cbn [negb Z.eqb].
  mstep (run_phys s _ _ f _ _ H). done.
Qed.

(** ** The commit *)

(** The trapframe after [exec]. *)
Definition new_frame (m : mem) (im : image) : mem :=
  store64 (store64 (store64 m (tf + tf_a1) (im_sp im)) (tf + tf_epc) (im_entry im)) (tf + tf_sp) (im_sp im).

(** The process after [exec]. *)
Definition new_proc (path : list Z) (r sz : Z) : proc :=
  with_sz sz (with_pagetable r (with_name (safestrcpy_list (p_name p) (path_last path path ++ [0]) 16) p)).

Record replaced (path : list Z) (im : image) (s' : pst (F := F)) (r : Z) (l : list Z) (d t U : gmap Z Z) : Prop := {
  rp_proc i : procs s' i = if i =? me then new_proc path r (im_sz im) else procs s i;
  rp_table : initproc s' = initproc s /\ nextpid s' = nextpid s;
  rp_space : space (p_phys s') l r d t U tf (im_sz im) (im_view im);
  rp_frames : pt_pages r d t ++ upages U ++ l ≡ₚ old ++ l0;
  rp_tf x : in_page tf x -> pmem (p_phys s') x = new_frame (pmem s0) im x;
  rp_rest x : (forall q, q ∈ tf :: old ++ l0 -> ~ in_page q x) -> ~ K x -> pmem (p_phys s') x = pmem s0 x;
}.

Lemma new_frame_outside m im x : ~ in_page tf x -> new_frame m im x = m x.
Proof using.
  intros Hx. unfold in_page, PGSIZE in Hx. unfold new_frame, tf_a1, tf_epc, tf_sp. by rewrite !store64_outside by lia.
Qed.

Lemma new_frame_at m m' im x : m' x = m x -> new_frame m' im x = new_frame m im x.
Proof using. intros H. unfold new_frame. by repeat apply store64_at. Qed.

(** The memory of the old address space while the new one is built, and then the trapframe
    is written. *)
Lemma old_kept ph m l r d t U sz V : building K s0 l0 tf ph l r d t U sz V -> (forall x, ~ in_page tf x -> m x = pmem ph x) ->
  space (set_pmem m ph) l (p_pagetable p) d0 t0 U0 tf (p_sz p) V0.
Proof using R LOk.
  intros B Hm. pose proof (bd_perm _ _ _ _ _ _ _ _ _ _ _ _ B) as Hperm. pose proof (sp_inv _ _ _ _ _ _ _ _ _ (bd_space _ _ _ _ _ _ _ _ _ _ _ _ B)) as Iu.
  assert (forall q, q ∈ l -> q ∈ l0) as Hsub by (intros q Hq; rewrite <- Hperm, !elem_of_app; auto).
  eapply space_same; [apply (rd_space R)|apply (rd_tf R)| | |].
  - apply (kmem_inv_same ph); [done| |apply Iu]. intros q x Hq Hx. apply Hm. intros Hx'. apply (tf_disjoint q x); [rewrite elem_of_app; auto|done|done].
  - rewrite app_assoc. apply NoDup_app. pose proof old_nodup as Hnd. apply NoDup_app in Hnd as (Hn & Hd & _). split_and!; [done|intros q Hq Hq'; apply (Hd q Hq); auto|]. apply (ki_nodup _ _ (vi_kmem _ _ _ _ _ (ui_vm _ _ _ _ _ _ Iu))).
  - intros q x Hq Hx. cbn. rewrite Hm. 2:{ intros Hx'. apply (tf_disjoint q x); [rewrite elem_of_app; auto|done|done]. }
    apply (bd_frame _ _ _ _ _ _ _ _ _ _ _ _ B); [|intros q' Hq'; by eapply old_disjoint]. intros HK. apply (rd_ustack R x q HK); [|done]. right. rewrite elem_of_app. by left.
Qed.

(** The new address space after the trapframe is written. *)
Lemma new_kept ph m l r d t U sz V : building K s0 l0 tf ph l r d t U sz V -> (forall x, ~ in_page tf x -> m x = pmem ph x) ->
  building (in_page tf) ph l0 tf (set_pmem m ph) l r d t U sz V.
Proof using R LOk.
  intros [Sp Hp _ _] Hm. apply building_buffer; [apply (rd_tf R)| |by split|by intros x Hx; apply Hm]. intros x q Hx Hq. apply tf_disjoint; [|done]. rewrite elem_of_app. by right.
Qed.

Lemma exec_commit_ok path ph f l r d t U im : building K s0 l0 tf ph l r d t U (im_sz im) (im_view im) -> 0 <= im_argc im < 2 ^ 31 ->
  exists s' l', exec_commit me path r (im_sz im) (im_entry im) (im_argc im) (im_sp im) (p_sz p) (with_mem s ph f) = Ok (im_argc im, s') /\
    p_files s' = f /\ replaced path im s' r l' d t U.
Proof using R LOk.
  intros B Hargc. set (ph1 := set_pmem (new_frame (pmem ph) im) ph). assert (forall x, ~ in_page tf x -> new_frame (pmem ph) im x = pmem ph x) as Hout by (intros x; apply new_frame_outside).
  pose proof (old_kept ph _ _ _ _ _ _ _ _ B Hout) as Hold. pose proof (new_kept ph _ _ _ _ _ _ _ _ B Hout) as Hnew. fold ph1 in Hold, Hnew.
  destruct (space_free _ _ _ _ _ _ _ _ _ Hold (rd_tf R)) as (ph2 & l2 & Hfree & Hk2 & Hl2 & Hse & _). pose proof (bd_perm _ _ _ _ _ _ _ _ _ _ _ _ Hnew) as Hperm.
  set (P1 := upd (procs s) me (with_name (safestrcpy_list (p_name p) (path_last path path ++ [0]) 16) p)). set (P2 := upd P1 me (with_pagetable r (P1 me))).
  set (s' := Pst (upd P2 me (with_sz (im_sz im) (P2 me))) (initproc s) (nextpid s) ph2 f). exists s', l2.
  assert (pt_pages r d t ++ upages U ++ l2 ≡ₚ old ++ l0) as Hfr. { rewrite Hl2, <- Hperm, (app_assoc (pt_pages (p_pagetable p) d0 t0)), !(app_assoc (pt_pages r d t)). apply perm_swap_blocks. }
  assert (forall q, q ∈ l -> q ∈ l0) as Hsub by (intros q Hq; rewrite <- Hperm, !elem_of_app; auto).
  assert (forall q, q ∈ pt_pages r d t ++ upages U -> q ∈ l0) as Hsub' by (intros q Hq; rewrite <- Hperm, app_assoc, elem_of_app; auto).
  assert (forall q x, q ∈ pt_pages (p_pagetable p) d0 t0 ++ upages U0 ++ l -> in_page tf x -> ~ in_page q x) as Htf2. { intros q x Hq. apply tf_disjoint. rewrite app_assoc, elem_of_app in Hq. rewrite elem_of_app. naive_solver. }
  split_and!; [|done|split].
  - unfold exec_commit. mcomp. mstep (run_phys s (pstore64 (tf + tf_a1) (im_sp im)) ph f tt _ eq_refl). mcomp. mcomp. mcomp. mcomp. mcomp. unfold in_phys at 1. erewrite bind_ok. 2:{ eapply zoom_ok. exact Hfree. }
    unfold ret. rewrite i32_small by lia. done.
  - intros i. cbn. unfold P2, P1, upd. rewrite Z.eqb_refl. by destruct (i =? me).
  - done.
  - cbn. eapply space_same; [apply Hnew|apply (rd_tf R)|done|rewrite Hfr; apply old_nodup|]. intros q x Hq Hx. apply Hse. intros q' Hq' Hx'. rewrite app_assoc, elem_of_app in Hq'. destruct Hq' as [Hq'|Hq']; [by eapply old_disjoint; [exact Hq'|by apply Hsub'|..]|].
    pose proof (ui_nodup _ _ _ _ _ _ (sp_inv _ _ _ _ _ _ _ _ _ (bd_space _ _ _ _ _ _ _ _ _ _ _ _ Hnew))) as Hnd. rewrite app_assoc in Hnd. apply NoDup_app in Hnd as (_ & Hd & _).
    pose proof old_ok as Hok. rewrite Forall_forall in Hok. apply (page_ok_disjoint q q' x); [apply Hok; rewrite elem_of_app; auto..|intros ->; by apply (Hd q')|done|done].
  - done.
  - intros x Hx. cbn. rewrite Hse by (intros q Hq; by eapply Htf2). unfold ph1. cbn. apply new_frame_at. apply (bd_frame _ _ _ _ _ _ _ _ _ _ _ _ B).
    + intros HK. apply (rd_ustack R x tf HK); [by left|done].
    + intros q Hq. apply tf_disjoint; [|done]. rewrite elem_of_app. auto.
  - intros x Hx HK. cbn. assert (forall q, q ∈ l0 -> ~ in_page q x) as Hx0 by (intros q Hq; apply Hx; right; rewrite elem_of_app; auto). rewrite Hse.
    + unfold ph1. cbn. rewrite Hout by (apply Hx; by left). by apply (bd_frame _ _ _ _ _ _ _ _ _ _ _ _ B).
    + intros q Hq. rewrite app_assoc, elem_of_app in Hq. destruct Hq as [Hq|Hq]; [|auto]. apply Hx. right. rewrite elem_of_app. auto.
Qed.

(** ** The stack *)

(** The process is as it was and every frame is back. *)
Record failed (s' : pst (F := F)) : Prop := {
  fl_table : procs s' = procs s /\ initproc s' = initproc s /\ nextpid s' = nextpid s;
  fl_space : exists l, l ≡ₚ l0 /\ space (p_phys s') l (p_pagetable p) d0 t0 U0 tf (p_sz p) V0;
  fl_mem : same_but K l0 (pmem s0) (pmem (p_phys s'));
}.

(** What [exec] leaves for the image [o]. *)
Definition outcome (path : list Z) (o : option image) (rv : Z) (s' : pst (F := F)) : Prop :=
  match o with
  | None => rv = -1 /\ failed s'
  | Some im => rv = -1 /\ failed s' /\ frames_short l0 (im_sz im) \/
      rv = im_argc im /\ exists r l d t U, replaced path im s' r l d t U
  end.

Lemma failed_mem ph f : gave_back ph -> failed (with_mem s ph f).
Proof using R LOk.
  intros (l & Hk & Hl & Hm & _). split; [done| |done]. exists l. split; [done|]. cbn. eapply space_same; [apply (rd_space R)|apply (rd_tf R)|done|rewrite Hl, app_assoc; apply old_nodup|].
  intros q x Hq Hx. apply Hm; [|intros q' Hq'; by eapply old_disjoint]. intros HK. apply (rd_ustack R x q HK); [|done]. right. rewrite elem_of_app. by left.
Qed.

Lemma outcome_bad path o rv s' : rv = -1 -> failed s' -> (forall im, o = Some im -> frames_short l0 (im_sz im)) -> outcome path o rv s'.
Proof using. intros -> H Ho. destruct o as [im|]; [left; auto|done]. Qed.

(** The size rounded up to pages. *)
Lemma building_round ph l r d t U sz V : building K s0 l0 tf ph l r d t U sz V -> building K s0 l0 tf ph l r d t U (PGSIZE * npages sz) V.
Proof using LOk.
  intros [[Iu Hs Hz Ht Hu Hv] Hp Hf Hk]. destruct (npages_spec sz) as (_ & Hb & _); [unfold MAXPAGES in *; klia|]. pose proof (usize_few _ _ _ _ _ _ _ Iu Hs) as Hfew.
  split; [split|..]; try done; [|klia]. intros i. by rewrite npages_pages.
Qed.

Lemma spec_stack_sz sz V args entry im : spec_stack sz V args entry = Some im -> im_sz im = PGSIZE * npages sz + 2 * PGSIZE /\ im_sz im <= MEMSZ.
Proof using. unfold spec_stack. repeat case_match; intros [= <-]; cbn. bsplit. lia. Qed.

(** The fresh stack page, above the page that the user cannot reach. *)
Lemma fresh_stack V n : 0 <= n -> let sz := PGSIZE * n + 2 * PGSIZE in n + 2 <= 2 ^ 26 -> stack_ok sz (v_clear (v_grow V (PGSIZE * n) sz) n).
Proof using.
  intros Hn sz Hb x Hx. unfold sz in *. replace (PGSIZE * n + 2 * PGSIZE) with (PGSIZE * (n + 2)) in * by lia. unfold v_clear, v_grow. rewrite !npages_pages by lia.
  rewrite (proj2 (Z.eqb_neq (x / PGSIZE) n)) by kdlia. rewrite (proj2 (Z.leb_le _ x)), (proj2 (Z.ltb_lt x _)) by klia. by eexists.
Qed.

(** From the pushed arguments on. *)
Lemma finish_ok path ph f l r d t U sz V sp ptrs entry : r <> 0 -> building K s0 l0 tf ph l r d t U sz V -> 2 * PGSIZE <= sz <= MEMSZ -> stack_ok sz V -> words_at (pmem ph) ustack ptrs ->
  sz - PGSIZE <= sp <= sz -> zlen ptrs <= MAXARG ->
  let sp' := push sp (8 * (zlen ptrs + 1)) in
  exists rv s', (in_phys (pstore64 (ustack + 8 * zlen ptrs) 0) ;;
     let sp := u64 (sp - (zlen ptrs + 1) * 8) in
     let sp := sp - sp mod 16 in
     if sp <? sz - PGSIZE then exec_bad r sz 0
     else
       let! rc := in_phys (copyout r sp ustack ((zlen ptrs + 1) * 8)) in
       if rc <? 0 then exec_bad r sz 0 else exec_commit me path r sz entry (zlen ptrs) sp (p_sz p)) (with_mem s ph f) = Ok (rv, s') /\
    p_files s' = f /\ outcome path (if sp' <? sz - PGSIZE then None else Some (Image sz (u_write V sp' (argv_bytes ptrs)) entry sp' (zlen ptrs))) rv s'.
Proof using R LOk.
  intros Hr B Hsz Hst Hw Hsp Hn sp'. unfold MAXARG in Hn. unfold MEMSZ, MAXPAGES in Hsz. set (ph1 := set_pmem (store64 (pmem ph) (ustack + 8 * zlen ptrs) 0) ph). mstep (run_phys s (pstore64 (ustack + 8 * zlen ptrs) 0) ph f tt ph1 eq_refl).
  assert (building K s0 l0 tf ph1 l r d t U sz V) as B1. { apply building_buffer; [apply (rd_tf R)|apply ready_K|done|]. intros x Hx. apply store64_outside. unfold ustack_bytes, MAXARG in Hx. lia. }
  assert (words_at (pmem ph1) ustack (ptrs ++ [0])) as Hw1 by (apply words_snoc; [done|lia]). cbn zeta. rewrite u64_small by klia. rewrite (Z.mul_comm (zlen ptrs + 1) 8). fold (push sp (8 * (zlen ptrs + 1))). fold sp'. pose proof (push_bounds sp (8 * (zlen ptrs + 1)) ltac:(lia)) as Hpb. fold sp' in Hpb.
  destruct (Z.ltb_spec sp' (sz - PGSIZE)) as [Hlow|Hlow].
  { destruct (bad_ok ph1 f l r d t U sz V Hr B1) as (ph2 & H & Hb). eexists _, _. split; [exact H|]. split; [done|]. by apply outcome_bad; [|apply failed_mem|]. }
  destruct (stack_copyout ustack s0 l0 tf (rd_tf R) ready_K l r d t U sz ltac:(unfold MEMSZ, MAXPAGES; klia) ph1 V sp' ustack (8 * (zlen ptrs + 1)) B1 Hst Hlow) as (ph2 & Hc & B2 & _ & _); [lia|lia| |].
  { intros x q Hx Hq. apply ready_K; [|done]. unfold ustack_bytes, MAXARG. lia. }
  mstep (run_phys s _ _ f _ _ Hc). cbn [Z.ltb Z.compare]. replace (Z.to_nat (8 * (zlen ptrs + 1))) with (8 * length (ptrs ++ [0%Z]))%nat in B2 by (rewrite length_app; cbn; lia). rewrite (words_bytes _ _ _ Hw1) in B2. fold (argv_bytes ptrs) in B2.
  destruct (exec_commit_ok path ph2 f l r d t U (Image sz (u_write V sp' (argv_bytes ptrs)) entry sp' (zlen ptrs)) B2) as (s' & l' & H & Hf & Hrep); [cbn; lia|]. cbn in H. eexists _, s'. split_and!; [exact H|done|]. right. split; [done|]. by exists r, l', d, t, U.
Qed.

Lemma exec_stack_ok path argv args ph f l r d t U sz V entry : r <> 0 -> building K s0 l0 tf ph l r d t U sz V -> frames_ok l0 l sz -> Forall2 (arg_at ustack s0 l0) argv args ->
  exists rv s', exec_stack me ustack path argv r sz entry (with_mem s ph f) = Ok (rv, s') /\ p_files s' = f /\ outcome path (spec_stack sz V args entry) rv s'.
Proof using R LOk.
  intros Hr B Hfr Hargs. pose proof (sp_sz _ _ _ _ _ _ _ _ _ (bd_space _ _ _ _ _ _ _ _ _ _ _ _ B)) as Hz. destruct (npages_spec sz) as (Eup & Hnb & _); [unfold MAXPAGES in *; klia|].
  pose proof (building_round _ _ _ _ _ _ _ _ B) as B0. unfold exec_stack. mcomp. cbn zeta. rewrite Eup. pose proof (usize_few _ _ _ _ _ _ _ (sp_inv _ _ _ _ _ _ _ _ _ (bd_space _ _ _ _ _ _ _ _ _ _ _ _ B)) (sp_size _ _ _ _ _ _ _ _ _ (bd_space _ _ _ _ _ _ _ _ _ _ _ _ B))) as Hfew.
  set (n := npages sz) in *. unfold MAXPAGES in Hfew. rewrite u64_small by klia. destruct (building_alloc K s0 l0 tf (rd_tf R) ph l r d t U (PGSIZE * n) V (PGSIZE * n + 2 * PGSIZE) B0) as (rv & ph1 & l1 & d1 & t1 & U1 & Hrun & Hres); [klia|]. mstep (run_phys s _ _ f _ _ Hrun).
  pose proof (fresh_stack V n ltac:(lia) ltac:(lia)) as Hst. assert (npages (PGSIZE * n) = n) as En by (apply npages_pages; lia). rewrite En in Hres. assert (npages (PGSIZE * n + 2 * PGSIZE) = n + 2) as En2 by (replace (PGSIZE * n + 2 * PGSIZE) with (PGSIZE * (n + 2)) by lia; apply npages_pages; lia).
  destruct Hres as [(-> & Hle & B1 & Hpte & Hcnt)|(-> & B1 & Hcnt)].
  2:{ cbn [Z.eqb]. destruct (bad_ok ph1 f l1 r d1 t1 U1 _ V Hr B1) as (ph2 & H & Hb). eexists _, _. split; [exact H|]. split; [done|]. apply outcome_bad; [done|by apply failed_mem|]. intros im Him. apply spec_stack_sz in Him as [E1 E2]. fold n in E1. eapply (frames_fail l0 l sz); [done|exact Hcnt|klia|done]. }
  rewrite (proj2 (Z.eqb_neq _ 0)) by klia. rewrite (u64_small (_ - 2 * PGSIZE)), (u64_small (_ - PGSIZE)) by klia. replace (PGSIZE * n + 2 * PGSIZE - 2 * PGSIZE) with (PGSIZE * n) by lia.
  destruct (building_clear K s0 l0 tf (rd_tf R) ph1 l1 r d1 t1 U1 _ _ n B1) as (ph2 & Hcl & B2); [lia|apply Hpte; lia|]. mstep (run_phys s _ _ f _ _ Hcl). set (sz2 := PGSIZE * n + 2 * PGSIZE) in *.
  destruct (push_args_ok s ustack s0 l0 tf (rd_tf R) ready_K l1 r d1 t1 U1 sz2 ltac:(unfold MEMSZ, MAXPAGES in *; klia) argv args Hargs ph2 f sz2 [] _ B2 Hst) as (o & ph3 & Hpush & Hspec); [by intros i w Hi|klia|done|].
  mstep Hpush. unfold spec_stack. fold n. fold sz2. rewrite (proj2 (Z.ltb_ge MEMSZ sz2)) by done.
  destruct (spec_args _ args sz2 [] _) as [[[sp ptrs] V3]|].
  - destruct Hspec as (-> & B3 & Hst3 & Hw & Hsp & _ & Hmax). apply (finish_ok path ph3 f l1 r d1 t1 U1 sz2 V3 sp ptrs entry Hr B3); try done. unfold MEMSZ, MAXPAGES in *. klia.
  - destruct Hspec as (-> & V3 & B3). destruct (bad_ok ph3 f l1 r d1 t1 U1 sz2 V3 Hr B3) as (ph4 & H & Hb). eexists _, _. split; [exact H|]. split; [done|]. by apply outcome_bad; [|apply failed_mem|].
Qed.
End Top.

(** ** The whole call *)

Section Call.
Context {L : Linker} {LOk : LinkerOk L} {F : Type} {LO : Loader F} {LOK : LoaderOk F}.

Lemma close_ok T ip c f : x_locked T ip c f -> exists f1 f2, x_iunlockput ip f = Ok (tt, f1) /\ x_end_op f1 = Ok (tt, f2) /\ x_idle T f2.
Proof. intros H. destruct (x_iunlockput_ok T ip c f H) as (f1 & H1 & Hop). destruct (x_end_ok T f1 Hop) as (f2 & H2 & Hidle). eauto. Qed.

(** The label [bad] with the file open. *)
Lemma bad_file_ok s me ustack l0 d0 t0 U0 V0 T ip c ph f r sz path o : ready s me ustack l0 d0 t0 U0 V0 -> ip <> 0 -> x_locked T ip c f ->
  (r = 0 /\ gave_back s ustack l0 ph \/
   r <> 0 /\ exists l d t U V, building (ustack_bytes ustack) (p_phys s) l0 (p_trapframe (procs s me)) ph l r d t U sz V) ->
  (forall im, o = Some im -> frames_short l0 (im_sz im)) ->
  exists rv s', exec_bad r sz ip (with_mem s ph f) = Ok (rv, s') /\ x_idle T (p_files s') /\ outcome s me ustack l0 d0 t0 U0 V0 path o rv s'.
Proof.
  intros R Hip Hf Hr Ho. destruct (close_ok T ip c f Hf) as (f1 & f2 & H1 & H2 & Hi).
  assert (exists ph', (if negb (r =? 0) then in_phys (proc_freepagetable r sz) else ret tt) (with_mem s ph f) = Ok (tt, with_mem s ph' f) /\ gave_back s ustack l0 ph') as (ph' & Hrun & Hb).
  { destruct Hr as [[-> Hb]|(Hr & l & d & t & U & V & B)]; [by exists ph|]. rewrite (proj2 (Z.eqb_neq r 0)) by done. destruct (building_free _ _ _ _ (rd_tf _ _ _ _ _ _ _ _ R) _ _ _ _ _ _ _ _ B) as (ph' & l' & H & Hk & Hp & Hm & Hkp). exists ph'. split; [by apply run_phys|]. by exists l'. }
  unfold exec_bad. mstep Hrun. rewrite (proj2 (Z.eqb_neq ip 0)) by done. cbn [negb]. rewrite bind_assoc. mstep (run_files s _ ph' _ _ _ H1). mstep (run_files s _ ph' _ _ _ H2).
  eexists _, _. split; [done|]. split; [done|]. apply outcome_bad; [done|by apply failed_mem|done].
Qed.

Lemma npages_nonneg sz : 0 <= npages sz.
Proof. unfold npages. apply Z.div_pos; [|done]. unfold PGROUNDUP. apply Z.land_nonneg. left. apply u64_bound. Qed.

(** A short supply for a part of the image is one for all of it. *)
Lemma image_short l0 c args im sz V : exec_image c args = Some im ->
  spec_segments c (Z.to_nat (e_phnum (get_elfhdr (sub c 0 elfhdr_size)))) (i32 (e_phoff (get_elfhdr (sub c 0 elfhdr_size)))) 0 (fun _ => None) = Some (sz, V) ->
  frames_short l0 sz -> frames_short l0 (im_sz im).
Proof.
  intros Him Hs. unfold exec_image in Him. destruct (_ || _); [done|]. rewrite Hs in Him. apply spec_stack_sz in Him as [-> Hle]. pose proof (npages_nonneg sz). unfold frames_short, MEMSZ, MAXPAGES in *.
  replace (PGSIZE * npages sz + 2 * PGSIZE) with (PGSIZE * (npages sz + 2)) in * by lia. rewrite npages_pages by klia. lia.
Qed.

(** From the header on. *)
Lemma exec_load_ok s me ustack path argv args l0 d0 t0 U0 V0 T ip c f : ready s me ustack l0 d0 t0 U0 V0 -> Forall2 (arg_at ustack (p_phys s) l0) argv args ->
  ip <> 0 -> x_locked T ip c f -> bytes c -> zlen c < 2 ^ 31 -> let elf := get_elfhdr (sub c 0 elfhdr_size) in
  zlen (sub c 0 elfhdr_size) = elfhdr_size -> e_magic elf = ELF_MAGIC ->
  exists rv s', (let! pagetable := proc_pagetable me in
    if pagetable =? 0 then exec_bad 0 0 ip
    else
      let! r := load_segments ip pagetable (Z.to_nat (e_phnum elf)) (i32 (e_phoff elf)) 0 in
      let '(loaded, sz) := r in
      if negb loaded then exec_bad pagetable sz ip
      else in_files (x_iunlockput ip) ;; in_files x_end_op ;; exec_stack me ustack path argv pagetable sz (e_entry elf)) (with_mem s (p_phys s) f) = Ok (rv, s') /\
    x_idle T (p_files s') /\ outcome s me ustack l0 d0 t0 U0 V0 path (exec_image c args) rv s'.
Proof.
  intros R Hargs Hip Hf Hc Hclen elf Hlen Hmagic. pose proof (rd_tf _ _ _ _ _ _ _ _ R) as Htf. assert (kmem_inv (p_phys s) l0) as Hk by apply (rd_space _ _ _ _ _ _ _ _ R).
  set (tf := p_trapframe (procs s me)) in *. destruct (new_pagetable_ok (p_phys s) l0 tf Hk Htf) as (r & ph1 & Hnew & Hr). erewrite bind_ok. 2:{ rewrite proc_pagetable_unfold. apply run_phys. exact Hnew. }
  assert (forall im sz V, exec_image c args = Some im -> spec_segments c (Z.to_nat (e_phnum elf)) (i32 (e_phoff elf)) 0 (fun _ => None) = Some (sz, V) -> frames_short l0 sz -> frames_short l0 (im_sz im)) as Hshort by (intros; by eapply image_short).
  destruct Hr as [(-> & (l1 & Hk1 & Hp1 & Hm1 & Hkp1) & Hl)|(Hr & l1 & d & t & Sp & Hperm & Hm & Hkp & Hcnt)].
  { cbn [Z.eqb]. eapply bad_file_ok; [done|done|done| |].
    - left. split; [done|]. exists l1. split_and!; [done|done| |done]. intros x _ Hx. by apply Hm1.
    - intros im _. unfold frames_short. pose proof (npages_nonneg (im_sz im)). lia. }
  rewrite (proj2 (Z.eqb_neq r 0)) by done. assert (building (ustack_bytes ustack) (p_phys s) l0 tf ph1 l1 r d t ∅ 0 (fun _ => None)) as B by (split; [done|done|by intros x _ Hx; apply Hm|done]).
  destruct (load_segments_ok s (ustack_bytes ustack) (p_phys s) l0 tf Htf T ip c Hc Hclen r (Z.to_nat (e_phnum elf)) (i32 (e_phoff elf)) 0 _ ph1 f l1 d t ∅ B) as (b & sz & ph2 & f2 & Hload & Hf2 & l2 & d2 & t2 & U2 & V2 & B2 & Hres); [intros va Hva; change (npages 0) with 0 in Hva; lia|unfold frames_ok; change (npages 0) with 0; lia|done|].
  mstep Hload. destruct b; cbn [negb].
  - destruct Hres as (Hspec & _ & Hfr). destruct (close_ok T ip c f2 Hf2) as (f3 & f4 & H3 & H4 & Hi). mstep (run_files s _ ph2 _ _ _ H3). mstep (run_files s _ ph2 _ _ _ H4).
    destruct (exec_stack_ok s me ustack l0 d0 t0 U0 V0 R path argv args ph2 f4 l2 r d2 t2 U2 sz V2 (e_entry elf) Hr B2 Hfr Hargs) as (rv & s' & H & Hf' & Hout). exists rv, s'. split_and!; [done|by rewrite Hf'|].
    unfold exec_image. fold elf. by rewrite Hlen, Hmagic, Hspec.
  - eapply bad_file_ok; [done|done|done| |].
    + right. split; [done|]. by exists l2, d2, t2, U2, V2.
    + intros im Him. unfold segments_fail in Hres. destruct (spec_segments _ _ _ _ _) as [[sz' V']|] eqn:Es; [by eapply Hshort|]. exfalso. unfold exec_image in Him. fold elf in Him. rewrite Hlen, Hmagic, Es in Him. done.
Qed.

(** C4. [exec], for every file and all arguments.  It never panics.  If the file exists and
    [exec_image] accepts it and the arguments, and there is memory for it, then [exec]
    returns [argc], and the process has a new address space of the size of the image in
    which the user sees exactly the bytes of the image, with the trampoline and the
    trapframe mapped; the entry point, the stack pointer and [argv] are in the trapframe,
    and the frames of the old address space are free.  Otherwise it returns -1, the process
    is as it was and every frame that was free is free again.  In both cases the file is
    closed and the transaction ended. *)
Theorem exec_correct (s : pst (F := F)) (me ustack : Z) (path argv : list Z) (args : list (list Z)) (l0 : list Z) (d0 t0 U0 : gmap Z Z) (V0 : flat) (T : x_tree)
    (R : ready s me ustack l0 d0 t0 U0 V0) (Hargs : Forall2 (arg_at ustack (p_phys s) l0) argv args) (Hidle : x_idle T (p_files s)) :
  exists rv s', exec me ustack path argv s = Ok (rv, s') /\ x_idle T (p_files s') /\
    outcome s me ustack l0 d0 t0 U0 V0 path (c ← x_lookup T path; exec_image c args) rv s'.
Proof.
  destruct s as [P0 i0 n0 ph f]. set (s := Pst P0 i0 n0 ph f) in *. change s with (with_mem s ph f) at 1. cbn in Hidle. unfold exec.
  destruct (x_begin_ok T f Hidle) as (f1 & H1 & Hop). mstep (run_files s _ ph _ _ _ H1). destruct (x_namei_ok T path f1 Hop) as (ip & f2 & H2 & Hl). mstep (run_files s _ ph _ _ _ H2).
  assert (gave_back s ustack l0 ph) as Hb by (exists l0; split_and!; [apply (rd_space _ _ _ _ _ _ _ _ R)|done..]).
  destruct (x_lookup T path) as [c|] eqn:Elk; cbn [mbind option_bind].
  2:{ destruct Hl as [-> Hop2]. cbn [Z.eqb]. destruct (x_end_ok T f2 Hop2) as (f3 & H3 & Hi). mstep (run_files s _ ph _ _ _ H3). eexists _, _. split; [done|]. split; [done|]. split; [done|by apply failed_mem]. }
  destruct Hl as [Hip Href]. rewrite (proj2 (Z.eqb_neq ip 0)) by done. destruct (x_content T path c Elk) as [Hc Hclen]. destruct (x_ilock_ok T ip c f2 Href) as (f3 & H3 & Hlk). mstep (run_files s _ ph _ _ _ H3).
  destruct (x_readi_ok T ip c f3 0 elfhdr_size Hlk) as (f4 & H4 & Hlk4); [lia|done|]. mstep (run_files s _ ph _ _ _ H4).
  destruct (Z.eqb_spec (zlen (sub c 0 elfhdr_size)) elfhdr_size) as [Elen|Elen]; cbn [negb].
  2:{ eapply bad_file_ok; [done|done|done|by left|]. intros im Him. unfold exec_image in Him. by rewrite (proj2 (Z.eqb_neq _ _) Elen) in Him. }
  cbn zeta. destruct (Z.eqb_spec (e_magic (get_elfhdr (sub c 0 elfhdr_size))) ELF_MAGIC) as [Em|Em]; cbn [negb].
  2:{ eapply bad_file_ok; [done|done|done|by left|]. intros im Him. unfold exec_image in Him. by rewrite Elen, (proj2 (Z.eqb_neq _ _) Em) in Him. }
  by apply (exec_load_ok s).
Qed.
End Call.

(** ** A program of one segment, started with one argument *)

(** The ELF header, one program header (4 bytes of the file at 0, 5000 bytes of memory)
    and the 4 bytes. *)
Definition demo_prog : list Z :=
  [127; 69; 76; 70] ++ replicate 20 0 ++ le_put 8 0 ++ le_put 8 64 ++ replicate 16 0 ++ le_put 2 1 ++ replicate 6 0 ++
  le_put 4 1 ++ le_put 4 7 ++ le_put 8 120 ++ le_put 8 0 ++ le_put 8 0 ++ le_put 8 4 ++ le_put 8 5000 ++ le_put 8 4096 ++ [19; 5; 16; 0].

(** A file system with that one file, [/a]; the state counts the calls that are open. *)
#[local] Instance one_file : Loader Z := {
  x_begin_op := fun _ => Ok (tt, 1);
  x_end_op := fun _ => Ok (tt, 0);
  x_namei path := fun f => Ok (if bool_decide (path = [47; 97]) then 7 else 0, if bool_decide (path = [47; 97]) then 2 else f);
  x_ilock _ := fun _ => Ok (tt, 3);
  x_iunlockput _ := fun _ => Ok (tt, 1);
  x_readi _ off n := fun f => Ok (sub demo_prog off n, f);
}.

#[local] Instance one_file_ok : LoaderOk Z (LO := one_file).
Proof.
  refine {| x_tree := unit; x_lookup _ path := if bool_decide (path = [47; 97]) then Some demo_prog else None;
    x_idle _ f := f = 0; x_op _ f := f = 1; x_ref _ _ c f := f = 2 /\ c = demo_prog; x_locked _ _ c f := f = 3 /\ c = demo_prog |}.
  - intros _ path c. case_bool_decide; intros [= <-]. split; [|done]. unfold bytes. apply (bool_decide_unpack _). by vm_compute.
  - intros _ f ->. by eexists.
  - intros _ f ->. by eexists.
  - intros _ path f ->. cbn. eexists _, _. split; [done|]. by case_bool_decide.
  - intros _ ip c f [-> ->]. by eexists.
  - intros _ ip c f [-> ->]. by eexists.
  - intros _ ip c f off n [-> ->] _ _. by eexists.
Defined.

#[local] Existing Instance demo_linker.

Definition demo_proc (tf r : Z) : proc := Proc RUNNING None 0 false 0 1 0 0 r tf (Context_ 0 0) (fun _ => 0) 0 (replicate 16 0).

(** A process with no memory, whose kernel stack and whose argument ["a"] are below the
    pages of the allocator. *)
Lemma demo_ready : exists s l d t, ready (F := Z) s 0 0x2000 l d t ∅ (fun _ => None) /\ Forall2 (arg_at 0x2000 (p_phys s) l) [0x3000] [[97]] /\ p_files s = 0 /\ (25 <= length l)%nat.
Proof.
  destruct demo_boot as (s & [|tf l] & Hk & Hl); [done|]. destruct (kalloc_cons s tf l Hk) as (s1 & _ & Hk1 & Htf & Hntf & _).
  destruct (new_pagetable_ok s1 l tf Hk1 Htf) as (r & s2 & _ & [(_ & _ & Hlt)|(Hr & l2 & d & t & Sp & Hperm & _ & _ & Hcnt)]); [cbn in Hl; lia|].
  set (m := store_bytes (pmem s2) 0x3000 [97; 0]). assert (forall q x, q ∈ tf :: pt_pages r d t ++ upages ∅ ++ l2 -> in_page q x -> 0x4000 < x) as Hhigh.
  { intros q x Hq Hx. assert (page_ok q) as [_ Hq']. { apply elem_of_cons in Hq as [->|Hq]; [done|]. pose proof (uvm_all_ok _ _ _ _ _ _ (sp_inv _ _ _ _ _ _ _ _ _ Sp)) as Hall. rewrite Forall_forall in Hall. by apply Hall. }
    unfold in_page in Hx. change (@kend demo_linker) with (PHYSTOP - 64 * PGSIZE - 100) in Hq'. klia. }
  assert (space (set_pmem m s2) l2 r d t ∅ tf 0 (fun _ => None)) as Sp'.
  { eapply space_write; [exact Sp| |].
    - intros q x Hq Hx. unfold m. apply store_bytes_outside. assert (0x4000 < x) by (apply (Hhigh q x); [right; by rewrite upages_empty|done]). cbn. lia.
    - intros va. pose proof (sp_view _ _ _ _ _ _ _ _ _ Sp va) as Hv. unfold umem in Hv. by destruct (uaddr (pmem s2) t va). }
  exists (Pst (fun _ => demo_proc tf r) None 2 (set_pmem m s2) 0), l2, d, t. split_and!; [split|..].
  - exact Sp'.
  - exact Htf.
  - cbn [procs demo_proc p_pagetable p_trapframe]. rewrite upages_empty, app_nil_r, Hperm. exact Hntf.
  - cbn [procs demo_proc p_pagetable p_trapframe]. intros x q Hx Hq Hq'. rewrite <- app_assoc in Hq. specialize (Hhigh q x Hq Hq'). unfold ustack_bytes, MAXARG in Hx. lia.
  - constructor; [|constructor]. split; [|done|done|].
    + repeat constructor; lia.
    + intros x Hx. cbn in Hx. split; [unfold ustack_bytes, MAXARG; lia|]. intros q Hq Hq'. assert (0x4000 < x); [|lia]. apply (Hhigh q x); [|done]. right. rewrite !elem_of_app. auto.
  - done.
  - cbn in Hl. lia.
Qed.

Lemma exec_correct_witness : exists (s s' : pst (F := Z)) l d t, ready s 0 0x2000 l d t ∅ (fun _ => None) /\ exec 0 0x2000 [47; 97] [0x3000] s = Ok (1, s') /\ p_sz (procs s' 0) = 16384.
Proof.
  destruct demo_ready as (s & l & d & t & R & Hargs & Hf & Hl). destruct (exec_correct (LOK := one_file_ok) s 0 0x2000 [47; 97] [0x3000] [[97]] l d t ∅ (fun _ => None) tt R Hargs Hf) as (rv & s' & Hrun & _ & Hout).
  exists s, s', l, d, t. split; [done|]. cbn [x_lookup one_file_ok] in Hout. rewrite bool_decide_true in Hout by done. cbn [mbind option_bind] in Hout.
  assert (match exec_image demo_prog [[97]] with Some im => (im_sz im, im_argc im) = (16384, 1) | None => False end) as Him by (by vm_compute).
  destruct (exec_image demo_prog [[97]]) as [im|]; [|done]. injection Him as Esz Eargc. destruct Hout as [(_ & _ & Hs)|(-> & r & l' & d' & t' & U' & Hrep)].
  - exfalso. unfold frames_short in Hs. rewrite Esz in Hs. change (npages 16384) with 4 in Hs. lia.
  - rewrite Eargc in Hrun. split; [done|]. rewrite (rp_proc _ _ _ _ _ _ _ _ _ _ _ _ _ _ _ Hrep). by rewrite <- Esz.
Defined.
