(* ===== verification/Primes.v ===== *)
(** * The prime sieve of processes, [user/primes.c]

    Every process that runs [traversal] reads numbers from the pipe on its left, prints the
    first one and passes on to a new process the others that it does not divide.  The
    processes and pipes form a line: [n_main] writes into the pipe of the first stage, a
    stage writes into the pipe of the next one.  A step is one system call of one of the
    processes, chosen by its number: the theorem holds for every choice.

    [pipe] and [fork] succeed: the theorem bounds the number of processes.  A pipe holds
    whole integers, since [PIPESIZE] is a multiple of their size. *)

From S2P Require Import Prelude.
From stdpp Require Import sorting.
From Stdlib Require Import Znumtheory.

(** Integers that fit in a pipe, [PIPESIZE / sizeof(int)]. *)
Definition PIPEINTS : nat := 128.

(** Where [traversal] is: before its first [read], its [printf], [pipe] and [fork], the
    [read] of the loop, its [write], the [write] after it, [wait]; after [exit]. *)
Inductive tstate := TRead | TPrint (prime : Z) | TFork (prime : Z) | TLoop (prime : Z) | TPut (prime buf : Z) | TEnd | TWait | TDone.

Inductive mstate := MFork | MWrite (i : Z) | MEnd | MWait | MDone.

#[export] Instance mstate_eq_dec : EqDecision mstate.
Proof. solve_decision. Defined.

(** A stage with the contents of the pipe that it reads. *)
Record stage := Stage { s_pipe : list Z; s_state : tstate }.

Record net := Net { n_main : mstate; n_stages : list stage; n_out : list Z }.

Definition is_done (t : tstate) : bool := match t with TDone => true | _ => false end.

(** [write(fd, &v, sizeof(v))] into the pipe of the first stage: it blocks on a full pipe
    and fails if the reader is gone. *)
Definition send (v : Z) (stages : list stage) : option (list stage) :=
  match stages with
  | [] => None
  | Stage q t :: rest =>
      if is_done t then Some stages
      else if (length q <? PIPEINTS)%nat then Some (Stage (q ++ [v]) t :: rest) else None
  end.

(** [wait(0)]: the only child is the first stage. *)
Definition child_done (stages : list stage) : bool :=
  match stages with Stage _ t :: _ => is_done t | [] => true end.

Section Primes.
(** The last number, and what an integer holds that was never written. *)
Variables (N junk : Z).

(** A step of the first stage; [closed] if the other end of its pipe is closed.  The
    numbers that it prints, and the stages after it. *)
Definition traversal (closed : bool) (stages : list stage) : option (list Z * list stage) :=
  match stages with
  | [] => None
  | Stage q t :: rest =>
      match t with
      | TRead =>
          match q with
          | v :: q' => Some ([], Stage q' (if v =? -1 then TDone else TPrint v) :: rest)
          | [] => if closed then Some ([], Stage [] (if junk =? -1 then TDone else TPrint junk) :: rest) else None
          end
      | TPrint prime => Some ([prime], Stage q (TFork prime) :: rest)
      | TFork prime => Some ([], Stage q (TLoop prime) :: Stage [] TRead :: rest)
      | TLoop prime =>
          match q with
          | v :: q' => Some ([], Stage q' (if v =? -1 then TEnd else if negb (Z.rem v prime =? 0) then TPut prime v else TLoop prime) :: rest)
          | [] => if closed then Some ([], Stage [] TEnd :: rest) else None
          end
      | TPut prime buf => rest' ← send buf rest; Some ([], Stage q (TLoop prime) :: rest')
      | TEnd => rest' ← send (-1) rest; Some ([], Stage q TWait :: rest')
      | TWait => if child_done rest then Some ([], Stage q TDone :: rest) else None
      | TDone => None
      end
  end.

(** A step of stage [k]. *)
Fixpoint stage_step (closed : bool) (k : nat) (stages : list stage) : option (list Z * list stage) :=
  match k, stages with
  | O, _ => traversal closed stages
  | S k, x :: rest => '(out, rest') ← stage_step (is_done (s_state x)) k rest; Some (out, x :: rest')
  | S _, [] => None
  end.

(** A step of [main]. *)
Definition main_step (n : net) : option net :=
  let 'Net m stages out := n in
  match m with
  | MFork => Some (Net (MWrite 2) (Stage [] TRead :: stages) out)
  | MWrite i => if i <=? N then stages' ← send i stages; Some (Net (MWrite (i + 1)) stages' out) else Some (Net MEnd stages out)
  | MEnd => stages' ← send (-1) stages; Some (Net MWait stages' out)
  | MWait => if child_done stages then Some (Net MDone stages out) else None
  | MDone => None
  end.

(** A step of the process [k]: [main] or a stage. *)
Definition net_step (k : nat) (n : net) : option net :=
  match k with
  | O => main_step n
  | S k => '(out, stages) ← stage_step (match n_main n with MDone => true | _ => false end) k (n_stages n);
           Some (Net (n_main n) stages (n_out n ++ out))
  end.

Definition start : net := Net MFork [] [].

(** A run that gives the processor to the processes [ks] in turn; one that cannot go on
    does nothing. *)
Fixpoint net_run (ks : list nat) (n : net) : net :=
  match ks with
  | [] => n
  | k :: ks => net_run ks (default n (net_step k n))
  end.

Definition finished (n : net) : Prop := n_main n = MDone /\ Forall (fun x => s_state x = TDone) (n_stages n).
End Primes.

(** ** The sieve as a function *)

(** The numbers of [l] that [p] does not divide. *)
Definition undivided (p : Z) (l : list Z) : list Z := filter (fun v => Z.rem v p <> 0) l.

Fixpoint sieve (n : nat) (l : list Z) : list Z :=
  match n, l with
  | S n, p :: l => p :: sieve n (undivided p l)
  | _, _ => []
  end.

Lemma undivided_length p l : (length (undivided p l) <= length l)%nat.
Proof. apply length_filter. Qed.

Lemma sieve_fuel n : forall l m, (length l <= n)%nat -> (length l <= m)%nat -> sieve n l = sieve m l.
Proof.
  induction n as [|n IH]; intros l m Hn Hm; destruct l as [|p l]; cbn in *; [by destruct m|lia|by destruct m|]. destruct m as [|m]; [lia|]. cbn. f_equal. pose proof (undivided_length p l). apply IH; lia.
Qed.

(** The numbers from [a] to [N] that no smaller number than [a] divides, in order. *)
Definition candidates (N a : Z) (l : list Z) : Prop :=
  StronglySorted Z.lt l /\ forall v, v ∈ l <-> a <= v <= N /\ forall d, 1 < d < a -> ~ (d | v).

#[local] Instance divide_dec (a b : Z) : Decision (a | b) := Zdivide_dec a b.

Lemma candidates_gap N a p l d : 1 < a -> candidates N a (p :: l) -> a <= d < p -> exists e, 1 < e < a /\ (e | d).
Proof.
  intros Ha [Hs Hl] Hd. destruct (proj1 (Hl p) ltac:(by left)) as [Hp _]. destruct (decide (d ∈ p :: l)) as [Hin|Hin].
  - exfalso. apply elem_of_cons in Hin as [->|Hin]; [lia|]. apply StronglySorted_inv in Hs as [_ Hf]. rewrite Forall_forall in Hf. specialize (Hf d Hin). lia.
  - destruct (decide (Exists (fun e => (e | d)) ((fun k => k + 2) <$> upto (a - 2)))) as [He|He].
    + apply Exists_exists in He as (e & Hin' & He). apply list_elem_of_fmap in Hin' as (k & -> & Hk). apply elem_of_upto in Hk. exists (k + 2). split; [lia|done].
    + exfalso. apply Hin, Hl. split; [lia|]. intros e Hee Hdiv. apply He, Exists_exists. exists e. split; [|done]. apply list_elem_of_fmap. exists (e - 2). split; [lia|]. apply elem_of_upto. lia.
Qed.

Lemma candidates_head N a p l : 1 < a -> candidates N a (p :: l) -> prime p /\ a <= p <= N /\ forall q, prime q -> a <= q -> p <= q.
Proof.
  intros Ha C. pose proof C as [_ Hl]. destruct (proj1 (Hl p) ltac:(by left)) as [Hp Hnd]. split_and!; [|lia|lia|].
  - apply prime_alt. split; [lia|]. intros d Hd Hdiv. destruct (decide (d < a)); [by apply (Hnd d); [lia|]|]. destruct (candidates_gap N a p l d Ha C) as (e & He & Hed); [lia|]. apply (Hnd e He). by transitivity d.
  - intros q Hq Haq. destruct (decide (p <= q)) as [|Hlt]; [done|]. destruct (candidates_gap N a p l q Ha C) as (e & He & Heq); [lia|]. exfalso. apply prime_alt in Hq as [_ Hq]. apply (Hq e); [lia|done].
Qed.

Lemma candidates_next N a p l : 1 < a -> candidates N a (p :: l) -> candidates N (p + 1) (undivided p l).
Proof.
  intros Ha C. pose proof C as [Hs Hl]. apply StronglySorted_inv in Hs as [Hs Hf]. rewrite Forall_forall in Hf. destruct (proj1 (Hl p) ltac:(by left)) as [Hp _]. split.
  - unfold undivided. clear - Hs. induction Hs as [|x l Hs IH Hx]; [constructor|]. rewrite filter_cons. case_decide; [|done]. constructor; [done|]. rewrite Forall_forall in *. intros y [_ Hy]%list_elem_of_filter. by apply Hx.
  - intros v. unfold undivided. rewrite list_elem_of_filter. assert (Z.rem v p = 0 <-> (p | v)) as -> by (apply Z.rem_divide; lia). split.
    + intros [Hdiv Hv]. specialize (Hf v Hv). destruct (proj1 (Hl v) ltac:(by right)) as [Hb Hnd]. split; [lia|]. intros d Hd Hdv. destruct (decide (d < a)); [by apply (Hnd d); [lia|]|]. destruct (decide (d = p)) as [->|]; [done|].
      destruct (candidates_gap N a p l d Ha C) as (e & He & Hed); [lia|]. apply (Hnd e He). by transitivity d.
    + intros [Hb Hnd]. split; [apply Hnd; lia|]. assert (v ∈ p :: l) as Hin by (apply Hl; split; [lia|]; intros d Hd; apply Hnd; lia). apply elem_of_cons in Hin as [->|]; [lia|done].
Qed.

(** The sieve keeps exactly the primes. *)
Lemma sieve_primes N n : forall a l, 1 < a -> (length l <= n)%nat -> candidates N a l ->
  StronglySorted Z.lt (sieve n l) /\ forall q, q ∈ sieve n l <-> prime q /\ a <= q <= N.
Proof.
  induction n as [|n IH]; intros a l Ha Hn C; (destruct l as [|p l]; [|cbn in Hn; try lia]).
  1,2: split; [constructor|]; intros q; split; [by intros ?%elem_of_nil|]; intros [Hq Hb]; exfalso; apply (not_elem_of_nil q), C; split; [lia|]; intros d Hd; apply prime_alt in Hq as [_ Hq]; apply Hq; lia.
  destruct (candidates_head N a p l Ha C) as (Hp & Hb & Hmin). pose proof (undivided_length p l). destruct (IH (p + 1) (undivided p l)) as [Hs Hin]; [lia|lia|by eapply candidates_next|]. cbn. split.
  - constructor; [done|]. apply Forall_forall. intros q [_ Hq]%Hin. lia.
  - intros q. rewrite elem_of_cons, Hin. split.
    + intros [->|[Hq Hq']]; [done|]. split; [done|lia].
    + intros [Hq Hq']. specialize (Hmin q Hq). destruct (decide (q = p)); [by left|right]. split; [done|lia].
Qed.

(** [i], ..., [N] *)
Definition range (N i : Z) : list Z := Z.add i <$> upto (N - i + 1).

Lemma range_cons N i : i <= N -> range N i = i :: range N (i + 1).
Proof.
  intros H. unfold range, upto. replace (Z.to_nat (N - i + 1)) with (S (Z.to_nat (N - (i + 1) + 1))) by lia. cbn [seq fmap list_fmap]. f_equal; [lia|]. rewrite <- seq_shift, <- !list_fmap_compose. apply list_fmap_ext. intros k x _. cbn. lia.
Qed.

Lemma range_nil N i : N < i -> range N i = [].
Proof. intros H. unfold range, upto. by rewrite Z2Nat.nonpos by lia. Qed.

Lemma range_candidates N : candidates N 2 (range N 2).
Proof.
  split.
  - unfold range, upto. generalize (Z.to_nat (N - 2 + 1)) 0%nat. intros n. induction n as [|n IH]; intros k; cbn; [constructor|]. constructor; [apply IH|]. apply Forall_forall. intros x. rewrite !list_elem_of_fmap. intros (y & -> & Hy). apply list_elem_of_fmap in Hy as (z & -> & Hz). apply elem_of_seq in Hz. lia.
  - intros v. unfold range. rewrite list_elem_of_fmap. split.
    + intros (k & -> & Hk%elem_of_upto). split; [lia|]. lia.
    + intros [Hv _]. exists (v - 2). split; [lia|]. apply elem_of_upto. lia.
Qed.
