(* ===== verification/PrimesTop.v ===== *)
(** * The prime sieve of processes is correct

    [den]: the numbers that a line of stages is still to print, for the numbers [I] that
    the process on the left is still to write; [cost]: the number of steps that they are
    still to take.  Every step of a process keeps what is printed in the end and takes one
    step off; and while a process is not done, one of them can go on. *)

From S2P Require Import Prelude Primes.
From stdpp Require Import sorting relations.
From Stdlib Require Import Znumtheory.

(** The numbers before the final -1. *)
Fixpoint nums (J : list Z) : list Z :=
  match J with
  | [] => []
  | v :: J' => if v =? -1 then [] else v :: nums J'
  end.

(** What a stage with the prime [p] passes on of [J]. *)
Definition pass (p : Z) (J : list Z) : list Z := undivided p (nums J) ++ [-1].

Definition sieved (l : list Z) : list Z := sieve (length l) l.

Lemma sieved_cons p l : sieved (p :: l) = p :: sieved (undivided p l).
Proof. unfold sieved. cbn. f_equal. pose proof (undivided_length p l). apply sieve_fuel; lia. Qed.

(** The steps of a loop with the prime [p] over [l], and of all the stages that read [l]. *)
Definition loop_cost (p : Z) (l : list Z) : nat := length l + length (undivided p l) + 3.

Fixpoint new_cost (n : nat) (l : list Z) : nat :=
  match n, l with
  | S n, p :: l => 3 + loop_cost p l + new_cost n (undivided p l)
  | _, _ => 1
  end.

Definition sieve_cost (l : list Z) : nat := new_cost (length l) l.

Lemma new_cost_fuel n : forall l m, (length l <= n)%nat -> (length l <= m)%nat -> new_cost n l = new_cost m l.
Proof.
  induction n as [|n IH]; intros l m Hn Hm; destruct l as [|p l]; cbn in *; [by destruct m|lia|by destruct m|]. destruct m as [|m]; [lia|]. cbn. do 4 f_equal. pose proof (undivided_length p l). apply IH; lia.
Qed.

Lemma sieve_cost_cons p l : sieve_cost (p :: l) = (3 + loop_cost p l + sieve_cost (undivided p l))%nat.
Proof. unfold sieve_cost. cbn [length new_cost]. f_equal. pose proof (undivided_length p l). apply new_cost_fuel; lia. Qed.

Fixpoint den (I : list Z) (stages : list stage) : list Z :=
  match stages with
  | [] => []
  | Stage q t :: rest =>
      match t with
      | TRead => sieved (nums (q ++ I))
      | TPrint p => p :: sieved (undivided p (nums (q ++ I)))
      | TFork p => sieved (undivided p (nums (q ++ I)))
      | TLoop p => den (pass p (q ++ I)) rest
      | TPut p b => den (b :: pass p (q ++ I)) rest
      | TEnd => den [-1] rest
      | TWait | TDone => den [] rest
      end
  end.

Fixpoint cost (I : list Z) (stages : list stage) : nat :=
  match stages with
  | [] => 0
  | Stage q t :: rest =>
      match t with
      | TRead => sieve_cost (nums (q ++ I))
      | TPrint p => 2 + loop_cost p (nums (q ++ I)) + sieve_cost (undivided p (nums (q ++ I)))
      | TFork p => 1 + loop_cost p (nums (q ++ I)) + sieve_cost (undivided p (nums (q ++ I)))
      | TLoop p => loop_cost p (nums (q ++ I)) + cost (pass p (q ++ I)) rest
      | TPut p b => 1 + loop_cost p (nums (q ++ I)) + cost (b :: pass p (q ++ I)) rest
      | TEnd => 2 + cost [-1] rest
      | TWait => 1 + cost [] rest
      | TDone => cost [] rest
      end
  end.

(** Numbers and then -1. *)
Definition stream (J : list Z) : Prop := exists l, J = l ++ [-1] /\ Forall (fun v => 1 < v) l.

(** The stages fit together: only the last one has no child, and it is before its [fork]
    or has read -1 at once. *)
Fixpoint wf (I : list Z) (stages : list stage) : Prop :=
  match stages with
  | [] => I = []
  | Stage q t :: rest =>
      match t with
      | TRead => stream (q ++ I) /\ rest = []
      | TPrint p | TFork p => 1 < p /\ stream (q ++ I) /\ rest = []
      | TLoop p => 1 < p /\ stream (q ++ I) /\ rest <> [] /\ wf (pass p (q ++ I)) rest
      | TPut p b => 1 < p /\ 1 < b /\ stream (q ++ I) /\ rest <> [] /\ wf (b :: pass p (q ++ I)) rest
      | TEnd => q ++ I = [] /\ rest <> [] /\ wf [-1] rest
      | TWait => q ++ I = [] /\ rest <> [] /\ wf [] rest
      | TDone => q ++ I = [] /\ wf [] rest /\ Forall (fun x => s_state x = TDone) rest
      end
  end.

(** The stages that printed a number and have not forked. *)
Definition forking (x : stage) : nat := match s_state x with TFork _ => 1 | _ => 0 end.
Definition forks (stages : list stage) : nat := length stages + sum_list (forking <$> stages).

Lemma stream_cons v J : stream (v :: J) -> v = -1 /\ J = [] \/ 1 < v /\ stream J.
Proof.
  intros ([|x l] & E & Hl); injection E as -> ->; [by left|right]. apply Forall_cons in Hl as [Hx Hl]. split; [done|]. by exists l.
Qed.

Lemma stream_nil : ~ stream [].
Proof. intros ([|x l] & E & _); done. Qed.

Lemma nums_stream l : Forall (fun v => 1 < v) l -> nums (l ++ [-1]) = l.
Proof. induction 1 as [|v l Hv _ IH]; [done|]. cbn. rewrite (proj2 (Z.eqb_neq v (-1))) by lia. by rewrite IH. Qed.

Lemma pass_stream p J : stream J -> stream (pass p J).
Proof.
  intros (l & -> & Hl). exists (undivided p l). unfold pass. rewrite nums_stream by done. split; [done|]. unfold undivided. rewrite Forall_forall in *. intros x [_ Hx]%list_elem_of_filter. by apply Hl.
Qed.

Lemma pass_cons p v J : 1 < v -> pass p (v :: J) = if Z.rem v p =? 0 then pass p J else v :: pass p J.
Proof.
  intros Hv. unfold pass. cbn. rewrite (proj2 (Z.eqb_neq v (-1))) by lia. unfold undivided. rewrite filter_cons. destruct (Z.eqb_spec (Z.rem v p) 0); case_decide; done.
Qed.

(** ** A write *)

Lemma send_ok v I stages stages' : send v stages = Some stages' -> wf (v :: I) stages ->
  wf I stages' /\ den I stages' = den (v :: I) stages /\ cost I stages' = cost (v :: I) stages /\ forks stages' = forks stages /\ (stages' <> []) /\ child_done stages' = false.
Proof.
  unfold send. destruct stages as [|[q t] rest]; [done|]. destruct (is_done t) eqn:Ed.
  - destruct t; try done. intros _ (E & _). exfalso. by destruct q.
  - destruct (_ <? _)%nat; [|done]. intros [= <-] Hwf. assert ((q ++ [v]) ++ I = q ++ v :: I) as E by by rewrite <- app_assoc. cbn [wf den cost forks]. rewrite E. split_and!; done.
Qed.

(** ** A step of a stage *)

(** What a step keeps of the stages; [out] is what it prints. *)
Record kept (I : list Z) (stages : list stage) (out : list Z) (stages' : list stage) : Prop := {
  kp_wf : wf I stages';
  kp_den : den I stages = out ++ den I stages';
  kp_cost : cost I stages = S (cost I stages');
  kp_forks : forks stages' = (forks stages + length out)%nat;
  kp_done : child_done stages = false;
}.

Lemma forks_tail x rest : forks (x :: rest) = (forks rest + S (forking x))%nat.
Proof. unfold forks. rewrite fmap_cons. cbn [length sum_list_with]. unfold id at 1. lia. Qed.

Lemma traversal_ok junk closed I stages out stages' : traversal junk closed stages = Some (out, stages') -> wf I stages -> (closed = true -> I = []) -> kept I stages out stages'.
Proof.
  intros H Hwf Hcl. destruct stages as [|[q t] rest]; [done|]. cbn in H. destruct t as [|p|p|p|p b| | |]; cbn [wf] in Hwf.
  - destruct Hwf as [Hs ->]. destruct q as [|v q]. { destruct closed; [|done]. rewrite (Hcl eq_refl) in Hs. by destruct (stream_nil Hs). }
    injection H as <- <-. cbn [app] in Hs. destruct (stream_cons _ _ Hs) as [[-> E]|[Hv Hs']].
    + split; cbn; [by rewrite E|done|done|done|done].
    + rewrite (proj2 (Z.eqb_neq v (-1))) by lia. split; cbn [wf]; [done| | |done|done].
      * cbn [den app nums]. rewrite (proj2 (Z.eqb_neq v (-1))) by lia. by rewrite sieved_cons.
      * cbn [cost app nums]. rewrite (proj2 (Z.eqb_neq v (-1))) by lia. by rewrite sieve_cost_cons.
  - destruct Hwf as (Hp & Hs & ->). injection H as <- <-. by split.
  - destruct Hwf as (Hp & Hs & ->). injection H as <- <-. destruct (pass_stream p _ Hs) as (l & El & Hl). pose proof (nums_stream _ Hl) as En. unfold pass in El. apply app_inj_tail in El as [El _].
    split; cbn [wf den cost app]; [split_and!; try done; by apply pass_stream| | |done|done].
    + unfold pass. by rewrite El, En.
    + unfold pass. by rewrite El, En.
  - destruct Hwf as (Hp & Hs & Hr & Hwf). destruct q as [|v q]. { destruct closed; [|done]. rewrite (Hcl eq_refl) in Hs. by destruct (stream_nil Hs). }
    injection H as <- <-. cbn [app] in Hs. destruct (stream_cons _ _ Hs) as [[-> E]|[Hv Hs']].
    + cbn. split; cbn; try done.
    + rewrite (proj2 (Z.eqb_neq v (-1))) by lia. cbn [app] in Hwf. rewrite pass_cons in Hwf by done.
      assert (nums (v :: q ++ I) = v :: nums (q ++ I)) as En by (cbn; by rewrite (proj2 (Z.eqb_neq v (-1))) by lia). destruct (Z.eqb_spec (Z.rem v p) 0) as [Er|Er]; cbn [negb].
      * split; cbn [wf den cost app]; [done|by rewrite pass_cons, (proj2 (Z.eqb_eq _ _) Er)| |done|done]. rewrite pass_cons, (proj2 (Z.eqb_eq _ _) Er), En by done. unfold loop_cost, undivided. rewrite filter_cons_False by auto. cbn. lia.
      * split; cbn [wf den cost app]; [done|by rewrite pass_cons, (proj2 (Z.eqb_neq _ _) Er)| |done|done]. rewrite pass_cons, (proj2 (Z.eqb_neq _ _) Er), En by done. unfold loop_cost, undivided. rewrite filter_cons_True by done. cbn. lia.
  - destruct Hwf as (Hp & Hb & Hs & Hr & Hwf). destruct (send b rest) as [rest'|] eqn:Es; [|done]. injection H as <- <-. destruct (send_ok _ _ _ _ Es Hwf) as (Hw' & Hd & Hc & Hf & Hne & _).
    split; cbn [wf den cost app]; [done|done|rewrite Hc; lia| |done]. rewrite !forks_tail, Hf. cbn. lia.
  - destruct Hwf as (E & Hr & Hwf). destruct (send (-1) rest) as [rest'|] eqn:Es; [|done]. injection H as <- <-. destruct (send_ok _ _ _ _ Es Hwf) as (Hw' & Hd & Hc & Hf & Hne & _).
    split; cbn [wf den cost app]; [done|done|rewrite Hc; lia| |done]. rewrite !forks_tail, Hf. cbn. lia.
  - destruct Hwf as (E & Hr & Hwf). destruct (child_done rest) eqn:Ec; [|done]. injection H as <- <-. split; cbn [wf den cost app]; [|done|done|done|done]. split_and!; [done|done|].
    destruct rest as [|[q' t'] rest]; [done|]. destruct t'; try done. cbn in Hwf. destruct Hwf as (_ & _ & Hall). by constructor.
  - done.
Qed.

Lemma done_stuck junk k : forall closed stages, Forall (fun x => s_state x = TDone) stages -> stage_step junk closed k stages = None.
Proof.
  induction k as [|k IH]; intros closed stages H; destruct H as [|[q t] rest Ht H]; cbn in *; subst; try done. by rewrite IH.
Qed.

Lemma stage_step_ok junk k : forall closed I stages out stages', stage_step junk closed k stages = Some (out, stages') -> wf I stages -> (closed = true -> I = []) -> kept I stages out stages'.
Proof.
  induction k as [|k IH]; intros closed I stages out stages' H Hwf Hcl; [by eapply traversal_ok|]. destruct stages as [|[q t] rest]; [done|]. cbn in H.
  destruct (stage_step junk (is_done t) k rest) as [[o rest']|] eqn:Es; [|done]. injection H as <- <-.
  assert (forall I', wf I' rest -> is_done t = false -> kept I' rest o rest') as Hk by (intros I' Hw Ed; eapply IH; [exact Es|done|]; intros Et; by rewrite Et in Ed).
  assert (rest <> []) as Hne by (intros ->; by destruct k).
  destruct t as [|p|p|p|p b| | |]; cbn [wf] in Hwf; try (by destruct Hwf as (_ & _ & ->) || destruct Hwf as (_ & ->)).
  - destruct Hwf as (Hp & Hs & _ & Hwf). destruct (Hk _ Hwf eq_refl) as [Hw Hd Hc Hf _]. split; cbn [wf den cost]; [|done|lia|rewrite !forks_tail, Hf; lia|done]. split_and!; try done. intros ->. by destruct (pass_stream p _ Hs) as ([|] & E & _); rewrite E in Hw.
  - destruct Hwf as (Hp & Hb & Hs & _ & Hwf). destruct (Hk _ Hwf eq_refl) as [Hw Hd Hc Hf _]. split; cbn [wf den cost]; [|done|lia|rewrite !forks_tail, Hf; lia|done]. split_and!; try done. by intros ->.
  - destruct Hwf as (E & _ & Hwf). destruct (Hk _ Hwf eq_refl) as [Hw Hd Hc Hf _]. split; cbn [wf den cost]; [|done|lia|rewrite !forks_tail, Hf; lia|done]. split_and!; try done. by intros ->.
  - destruct Hwf as (E & _ & Hwf). destruct (Hk _ Hwf eq_refl) as [Hw Hd Hc Hf Hdn]. split; cbn [wf den cost]; [|done|lia|rewrite !forks_tail, Hf; lia|done]. split_and!; try done. intros ->. unfold forks in Hf. destruct rest; cbn in Hf; [done|lia].
  - destruct Hwf as (_ & _ & Hall). by rewrite done_stuck in Es.
Qed.

(** ** While a stage is not done, one can go on *)

Definition wants_input (stages : list stage) : Prop :=
  match stages with Stage [] TRead :: _ | Stage [] (TLoop _) :: _ => True | _ => False end.

Lemma stage_progress junk stages : forall I, wf I stages ->
  (exists k r, stage_step junk false k stages = Some r) \/ Forall (fun x => s_state x = TDone) stages \/ wants_input stages.
Proof.
  induction stages as [|[q t] rest IH]; intros I Hwf; [by right; left; constructor|].
  assert (forall I', wf I' rest -> (t <> TDone) -> (exists k r, stage_step junk false k (Stage q t :: rest) = Some r) \/ Forall (fun x => s_state x = TDone) rest \/ wants_input rest) as Hrest.
  { intros I' Hw Ht. destruct (IH I' Hw) as [(k & [o r] & H)|[H|H]]; [left|by right; left|by right; right]. exists (S k). cbn. assert (is_done t = false) as -> by (by destruct t). rewrite H. by eexists. }
  assert (forall v I', wf (v :: I') rest -> rest <> [] -> is_Some (send v rest) \/ (exists k r, stage_step junk false k rest = Some r)) as Hsend.
  { intros v I' Hw Hne. destruct rest as [|[q' t'] rest']; [done|]. cbn [send]. destruct (is_done t'); [by left; eexists|]. destruct (_ <? _)%nat eqn:El; [by left; eexists|right]. apply Nat.ltb_ge in El. unfold PIPEINTS in El.
    destruct (IH _ Hw) as [H|[H|H]]; [done| |]; exfalso.
    - apply Forall_cons in H as [Ht _]. cbn in Ht. subst t'. destruct Hw as (E & _). by destruct q'.
    - cbn in H. destruct q'; [cbn in El; lia|by destruct t']. }
  destruct t as [|p|p|p|p b| | |]; cbn [wf] in Hwf.
  - destruct q as [|v q]; [by right; right|]. left. exists 0%nat. cbn. by eexists.
  - left. exists 0%nat. cbn. by eexists.
  - left. exists 0%nat. cbn. by eexists.
  - destruct q as [|v q]; [by right; right|]. left. exists 0%nat. cbn. by eexists.
  - left. destruct Hwf as (_ & _ & _ & Hne & Hw). destruct (Hsend _ _ Hw Hne) as [[r Hr]|(k & [o r] & Hr)]; [exists 0%nat; cbn; rewrite Hr; by eexists|]. exists (S k). cbn. rewrite Hr. by eexists.
  - left. destruct Hwf as (_ & Hne & Hw). destruct (Hsend _ _ Hw Hne) as [[r Hr]|(k & [o r] & Hr)]; [exists 0%nat; cbn; rewrite Hr; by eexists|]. exists (S k). cbn. rewrite Hr. by eexists.
  - left. destruct Hwf as (_ & Hne & Hw). destruct (Hrest _ Hw ltac:(done)) as [H|[H|H]]; [done| |].
    + exists 0%nat. cbn. assert (child_done rest = true) as ->; [|by eexists]. destruct H as [|[q' t'] r' Ht]; [done|]. cbn in *. by subst.
    + exfalso. destruct rest as [|[[|] t'] rest']; try done. destruct t'; try done; cbn in Hw; [destruct Hw as [Hs _]|destruct Hw as (_ & Hs & _)]; by destruct (stream_nil Hs).
  - destruct Hwf as (_ & _ & H). right. left. by constructor.
Qed.

(** ** All the processes *)

(** What [main] is still to write. *)
Definition future (N : Z) (m : mstate) : list Z :=
  match m with MWrite i => range N i ++ [-1] | MEnd => [-1] | _ => [] end.

Definition net_wf (N : Z) (n : net) : Prop :=
  match n_main n with
  | MFork => n = start
  | MWrite i => 1 < i /\ n_stages n <> [] /\ wf (future N (MWrite i)) (n_stages n)
  | MDone => Forall (fun x => s_state x = TDone) (n_stages n) /\ wf [] (n_stages n)
  | m => n_stages n <> [] /\ wf (future N m) (n_stages n)
  end.

Definition net_den (N : Z) (n : net) : list Z :=
  n_out n ++ match n_main n with MFork => sieved (range N 2) | m => den (future N m) (n_stages n) end.

Definition main_cost (N : Z) (m : mstate) : nat :=
  match m with MFork => length (range N 2) + 4 | MWrite i => length (range N i) + 3 | MEnd => 2 | MWait => 1 | MDone => 0 end.

Definition net_cost (N : Z) (n : net) : nat :=
  main_cost N (n_main n) + match n_main n with MFork => sieve_cost (range N 2) | m => cost (future N m) (n_stages n) end.

Definition net_forks (n : net) : Prop := match n_main n with MFork => True | _ => forks (n_stages n) = (length (n_out n) + 1)%nat end.

Record net_ok (N : Z) (n : net) (total : list Z) (left : nat) : Prop := {
  no_wf : net_wf N n;
  no_den : net_den N n = total;
  no_cost : net_cost N n = left;
  no_forks : net_forks n;
}.

Lemma range_stream N i : 1 < i -> stream (range N i ++ [-1]).
Proof. intros Hi. exists (range N i). split; [done|]. apply Forall_forall. intros v Hv. unfold range in Hv. apply list_elem_of_fmap in Hv as (k & -> & Hk%elem_of_upto). lia. Qed.

Lemma range_gt N i : 1 < i -> Forall (fun v => 1 < v) (range N i).
Proof. intros Hi. apply Forall_forall. intros v Hv. unfold range in Hv. apply list_elem_of_fmap in Hv as (k & -> & Hk%elem_of_upto). lia. Qed.

Lemma main_step_ok N n n' total left : main_step N n = Some n' -> net_ok N n total left -> exists left', left = S left' /\ net_ok N n' total left'.
Proof.
  destruct n as [m stages out]. intros H [Hwf Hden Hcost Hfk]. unfold net_wf, net_den, net_cost, net_forks in *. cbn [n_main n_stages n_out] in *. destruct m as [|i| | |]; cbn in H.
  - injection Hwf as -> ->. injection H as <-. exists (net_cost N (Net (MWrite 2) [Stage [] TRead] [])). pose proof (nums_stream _ (range_gt N 2 ltac:(lia))) as En. split.
    { rewrite <- Hcost. unfold net_cost. cbn [n_main n_stages main_cost future cost app]. rewrite En. lia. }
    split; [|unfold net_den; cbn [n_main n_stages n_out future den app]; by rewrite En|done|done].
    unfold net_wf. cbn [n_main n_stages]. split_and!; [lia|done|]. cbn. split; [by apply range_stream|done].
  - destruct Hwf as (Hi & Hne & Hwf). cbn [future] in *. destruct (Z.leb_spec i N) as [Hle|Hgt].
    + destruct (send i stages) as [stages'|] eqn:Es; [|done]. injection H as <-. rewrite range_cons in Hwf, Hden by done. cbn [app] in *. destruct (send_ok _ _ _ _ Es Hwf) as (Hw & Hd & Hc & Hf & Hne' & _).
      exists (net_cost N (Net (MWrite (i + 1)) stages' out)). split; [rewrite <- Hcost; unfold net_cost; cbn [n_main n_stages main_cost future]; rewrite Hc, (range_cons N i Hle); cbn [length app]; lia|].
      split; [|by rewrite <- Hden, <- Hd|done|by unfold net_forks; cbn [n_main n_stages n_out]; rewrite Hf]. unfold net_wf. cbn [n_main n_stages]. split_and!; [lia|done|done].
    + injection H as <-. exists (net_cost N (Net MEnd stages out)). cbn [main_cost] in Hcost. rewrite range_nil in Hwf, Hden, Hcost by done. split; [by rewrite <- Hcost|]. by split.
  - destruct Hwf as (Hne & Hwf). cbn [future] in *. destruct (send (-1) stages) as [stages'|] eqn:Es; [|done]. injection H as <-. destruct (send_ok _ _ _ _ Es Hwf) as (Hw & Hd & Hc & Hf & Hne' & _).
    exists (net_cost N (Net MWait stages' out)). split; [rewrite <- Hcost; unfold net_cost; cbn [n_main n_stages main_cost future]; by rewrite Hc|]. split; [done|by rewrite <- Hden, <- Hd|done|by unfold net_forks; cbn [n_main n_stages n_out]; rewrite Hf].
  - destruct Hwf as (Hne & Hwf). cbn [future] in *. destruct (child_done stages) eqn:Ec; [|done]. injection H as <-. exists (net_cost N (Net MDone stages out)). split; [by rewrite <- Hcost|]. split; [|done..]. split; [|done]. cbn. destruct stages as [|[q t] rest]; [done|]. destruct t; try done. cbn in Hwf. destruct Hwf as (_ & _ & Hall). by constructor.
  - done.
Qed.

Lemma net_step_ok N junk k n n' total left : net_step N junk k n = Some n' -> net_ok N n total left -> exists left', left = S left' /\ net_ok N n' total left'.
Proof.
  destruct k as [|k]; [apply main_step_ok|]. destruct n as [m stages out]. cbn [net_step n_main n_stages n_out]. intros H [Hwf Hden Hcost Hfk]. destruct (stage_step junk _ k stages) as [[o stages']|] eqn:Es; [|done]. injection H as <-.
  unfold net_wf, net_den, net_cost, net_forks in *. cbn [n_main n_stages n_out] in *.
  assert (forall I, wf I stages -> m <> MDone -> kept I stages o stages') as Hk. { intros I Hw Hm. eapply stage_step_ok; [exact Es|done|]. by destruct m. }
  assert (m <> MFork) as Hm by (intros ->; injection Hwf as -> ->; by destruct k). assert (m <> MDone) as Hm'. { intros ->. destruct Hwf as [Hall _]. by rewrite done_stuck in Es. }
  assert (wf (future N m) stages) as Hw by (destruct m; naive_solver). destruct (Hk _ Hw Hm') as [Hw' Hd Hc Hf Hdn].
  assert (stages' <> []) as Hne. { intros ->. unfold forks in Hf. destruct stages; [by destruct k|]. cbn in Hf. lia. }
  exists (main_cost N m + cost (future N m) stages')%nat. split; [rewrite <- Hcost; destruct m; try done; rewrite Hc; lia|]. split; unfold net_wf, net_den, net_cost, net_forks; cbn [n_main n_stages n_out].
  - destruct m; naive_solver.
  - rewrite <- Hden. destruct m; try done; rewrite Hd, <- app_assoc; done.
  - by destruct m.
  - rewrite length_app. destruct m; try done; rewrite Hf, Hfk; lia.
Qed.

(** A process that is not done can go on, or another one can. *)
Lemma net_progress N junk n total left : net_ok N n total left -> finished n \/ exists k n', net_step N junk k n = Some n'.
Proof.
  destruct n as [m stages out]. intros [Hwf _ _ _]. unfold net_wf in Hwf. cbn [n_main n_stages] in Hwf. destruct (decide (m = MDone)) as [->|Hm]; [left; by destruct Hwf|]. right.
  destruct (decide (m = MFork)) as [->|Hf]; [exists 0%nat; by eexists|]. assert (wf (future N m) stages /\ stages <> []) as [Hw Hne] by (destruct m; naive_solver).
  destruct (stage_progress junk stages _ Hw) as [(k & [o r] & H)|[H|H]].
  - exists (S k). cbn. assert (match m with MDone => true | _ => false end = false) as -> by (by destruct m). rewrite H. by eexists.
  - exists 0%nat. destruct stages as [|[q t] rest]; [done|]. apply Forall_cons in H as [Ht _]. cbn in Ht. subst t. cbn in Hw. destruct Hw as (E & _). apply app_eq_nil in E as [_ E]. destruct m as [|i| | |]; try done; cbn in E; [by destruct (range N i)|by eexists].
  - exists 0%nat. destruct stages as [|[[|] t] rest]; try done. cbn in H. assert (is_done t = false) as Hd by (by destruct t). destruct m as [|i| | |]; try done; cbn; rewrite ?Hd; [destruct (i <=? N); by eexists|by eexists|].
    exfalso. destruct t; try done; cbn in Hw; [destruct Hw as [Hs _]|destruct Hw as (_ & Hs & _)]; by destruct (stream_nil Hs).
Qed.

(** One step of one of the processes. *)
Definition proc_step (N junk : Z) (n n' : net) : Prop := exists k, net_step N junk k n = Some n'.

Lemma net_start_ok N : net_ok N start (sieved (range N 2)) (net_cost N start).
Proof. by split. Qed.

Lemma steps_ok N junk i : forall n n' total left, nsteps (proc_step N junk) i n n' -> net_ok N n total left -> exists left', left = (i + left')%nat /\ net_ok N n' total left'.
Proof.
  induction i as [|i IH]; intros n n' total left H Hok; inversion H as [|? ? n1 ? [k Hk] Hs]; subst; [by exists left|]. destruct (net_step_ok _ _ _ _ _ _ _ Hk Hok) as (l1 & -> & H1). destruct (IH _ _ _ _ Hs H1) as (l2 & -> & H2). by exists l2.
Qed.

Lemma finished_stuck N n total left : net_ok N n total left -> finished n -> left = 0%nat /\ n_out n = total.
Proof.
  destruct n as [m stages out]. intros [Hwf Hden Hcost _] [Hm Hall]. cbn in Hm, Hall. subst m. unfold net_den, net_cost in *. cbn [n_main n_stages n_out main_cost future] in *.
  assert (den [] stages = [] /\ cost [] stages = 0%nat) as [E1 E2]. { clear -Hall. induction Hall as [|[q t] rest Ht _ IH]; [done|]. cbn in Ht. by subst. }
  rewrite E1, app_nil_r in Hden. rewrite E2 in Hcost. done.
Qed.

Lemma sieved_spec N : StronglySorted Z.lt (sieved (range N 2)) /\ forall q, q ∈ sieved (range N 2) <-> prime q /\ q <= N.
Proof.
  destruct (sieve_primes N (length (range N 2)) 2 (range N 2)) as [Hs Hin]; [lia|done|apply range_candidates|]. split; [done|]. intros q. unfold sieved. rewrite Hin. split; [intros [? ?]; split; [done|lia]|]. intros [Hq Hle]. split; [done|]. apply prime_ge_2 in Hq. lia.
Qed.

(** C38. [primes] from its start, whatever the scheduler does: there is a number of steps that
    every run has; until then some process can go on, after them all the processes have
    exited and the output is exactly the primes up to [N] in increasing order.  At every
    point the output is the beginning of that list, and there are at most two more
    processes than numbers printed. *)
Theorem primes_correct (N junk : Z) : exists total, forall i n, nsteps (proc_step N junk) i start n ->
  (i <= total)%nat /\ ((i < total)%nat -> exists n', proc_step N junk n n') /\ (i = total <-> finished n) /\
  (finished n -> StronglySorted Z.lt (n_out n) /\ forall q, q ∈ n_out n <-> prime q /\ q <= N) /\
  n_out n `prefix_of` sieve (length (range N 2)) (range N 2) /\ (length (n_stages n) <= length (n_out n) + 1)%nat.
Proof.
  exists (net_cost N start). intros i n Hs. destruct (steps_ok _ _ _ _ _ _ _ Hs (net_start_ok N)) as (left & El & Hok). rewrite El. pose proof (net_progress N junk n _ _ Hok) as Hp. destruct (sieved_spec N) as [Hsort Hin]. split_and!.
  - lia.
  - intros Hlt. destruct Hp as [Hf|(k & n' & H)]; [|by exists n', k]. destruct (finished_stuck N _ _ _ Hok Hf) as [-> _]. lia.
  - split.
    + intros E. destruct Hp as [Hf|(k & n' & H)]; [done|]. destruct (net_step_ok _ _ _ _ _ _ _ H Hok) as (l' & -> & _). lia.
    + intros Hf. destruct (finished_stuck N _ _ _ Hok Hf) as [-> _]. lia.
  - intros Hf. destruct (finished_stuck N _ _ _ Hok Hf) as [_ ->]. done.
  - destruct Hok as [_ Hden _ _]. unfold net_den in Hden. fold (sieved (range N 2)). rewrite <- Hden. by apply prefix_app_r.
  - destruct Hok as [Hwf _ _ Hfk]. unfold net_forks, net_wf, forks in *. destruct (n_main n); [subst n; cbn; lia|lia..].
Qed.

(** The program: 35 numbers, and a run in which every process has its turn. *)
Lemma primes_correct_witness : exists total, (exists i n, nsteps (proc_step 35 0) i start n /\ (i <= total)%nat) /\ n_out (net_run 35 0 (concat (replicate 600 (seq 0 14))) start) = [2; 3; 5; 7; 11; 13; 17; 19; 23; 29; 31].
Proof.
  destruct (primes_correct 35 0) as [total H]. exists total. split; [|by vm_compute]. exists 0%nat, start. split; [constructor|]. apply (H 0%nat start). constructor.
Defined.
