(* ===== verification/Xargs.v ===== *)
(** * [user/xargs.c]

    The input is read byte by byte into [buf]; [p], [last_p] and the elements of [argsbuf]
    past the arguments of the command line are positions in it.  A write or a read outside
    [buf] or [argsbuf] has no result ([None]).  [run] starts a process with a copy of the
    memory, so it takes the arguments as they are at that moment.

    [read] gives the bytes of [input]; [None] in it is a failing call, which the loop takes
    for a byte. *)

From S2P Require Import Prelude.

Definition BUFSZ : nat := 2048.
Definition ARGSBUF : nat := 128.
Definition SPACE : Z := 32.
Definition NEWLINE : Z := 10.

(** The string at [off]. *)
Fixpoint str (b : list Z) : option (list Z) :=
  match b with
  | [] => None
  | c :: b' => if c =? 0 then Some [] else s ← str b'; Some (c :: s)
  end.
Definition str_at (buf : list Z) (off : nat) : option (list Z) := str (drop off buf).

Record xst := Xst { x_buf : list Z; x_p : nat; x_last : nat; x_pa : list nat; x_runs : list (list (list Z)) }.

Section Xargs.
(** [argv[1]], ..., [argv[argc-1]]; the first of them is the program. *)
Variable base : list (list Z).

Definition run (s : xst) : option xst :=
  args ← mapM (str_at (x_buf s)) (x_pa s);
  Some (Xst (x_buf s) (x_p s) (x_last s) (x_pa s) (x_runs s ++ [base ++ args])).

(** The store of an element of [argsbuf] at [pa]. *)
Definition args_ok (s : xst) : bool := (length base + length (x_pa s) <? ARGSBUF)%nat.

(** [*p = '\0'; *(pa++) = last_p; last_p = p + 1;] *)
Definition end_word (s : xst) : option xst :=
  if args_ok s then Some (Xst (<[x_p s := 0]> (x_buf s)) (x_p s) (x_p s + 1) (x_pa s ++ [x_last s]) (x_runs s)) else None.

(** The body of the loop. *)
Definition xargs_char (s : xst) : option xst :=
  c ← x_buf s !! x_p s;
  s ← (if c =? SPACE then end_word s
       else if c =? NEWLINE then
         s ← end_word s;
         if args_ok s then s ← run s; Some (Xst (x_buf s) (x_p s) (x_last s) [] (x_runs s)) else None
       else Some s);
  Some (Xst (x_buf s) (x_p s + 1) (x_last s) (x_pa s) (x_runs s)).

Fixpoint xargs_loop (input : list (option Z)) (s : xst) : option xst :=
  match input with
  | [] => Some s
  | r :: input =>
      b ← (match r with
           | None => Some (x_buf s)
           | Some c => if (x_p s <? length (x_buf s))%nat then Some (<[x_p s := c]> (x_buf s)) else None
           end);
      s ← xargs_char (Xst b (x_p s) (x_last s) (x_pa s) (x_runs s));
      xargs_loop input s
  end.

(** The commands that [xargs] starts; [buf] holds [junk] at the start. *)
Definition xargs (junk : list Z) (input : list (option Z)) : option (list (list (list Z))) :=
  s ← xargs_loop input (Xst junk 0 0 [] []);
  s ← (match x_pa s with [] => Some s | _ => if args_ok s then run s else None end);
  Some (x_runs s).

(** ** What it is to start *)

(** [l] cut at every [c]. *)
Fixpoint split_at (c : Z) (l : list Z) : list (list Z) :=
  match l with
  | [] => [[]]
  | x :: l' =>
      match split_at c l' with
      | w :: ws => if x =? c then [] :: w :: ws else (x :: w) :: ws
      | [] => []
      end
  end.

(** A string ends at its first NUL. *)
Fixpoint cut_nul (l : list Z) : list Z :=
  match l with
  | [] => []
  | c :: l' => if c =? 0 then [] else c :: cut_nul l'
  end.

(** The command of a line with the words [ws]. *)
Definition command (ws : list (list Z)) : list (list Z) := base ++ (cut_nul <$> ws).

(** One command for each line; of what follows the last newline all words but the last
    one, if there are such. *)
Definition xargs_spec (input : list Z) : list (list (list Z)) :=
  let lines := split_at NEWLINE input in
  let rest := removelast (split_at SPACE (List.last lines [])) in
  ((fun l => command (split_at SPACE l)) <$> removelast lines) ++ (if rest is [] then [] else [command rest]).

(** ** The commands, word by word *)

Fixpoint spec_from (ws : list (list Z)) (w rest : list Z) : list (list (list Z)) :=
  match rest with
  | [] => if ws is [] then [] else [command ws]
  | c :: rest =>
      if c =? SPACE then spec_from (ws ++ [w]) [] rest
      else if c =? NEWLINE then command (ws ++ [w]) :: spec_from [] [] rest
      else spec_from ws (w ++ [c]) rest
  end.

(** The words of the lines [rest], of which the first line goes on from [ws] and [w]. *)
Definition words (rest : list Z) : list (list (list Z)) := split_at SPACE <$> split_at NEWLINE rest.
Definition prepend (ws : list (list Z)) (w : list Z) (ls : list (list (list Z))) : list (list (list Z)) :=
  match ls with
  | (w0 :: ws0) :: ls => (ws ++ (w ++ w0) :: ws0) :: ls
  | _ => ls
  end.
Definition commands (ls : list (list (list Z))) : list (list (list Z)) :=
  (command <$> removelast ls) ++ (if removelast (List.last ls []) is [] then [] else [command (removelast (List.last ls []))]).

Lemma split_at_cons c l : exists w ws, split_at c l = w :: ws.
Proof. induction l as [|x l (w & ws & IH)]; cbn; [eauto|]. rewrite IH. destruct (x =? c); eauto. Qed.

Lemma words_cons rest : exists w ws ls, words rest = (w :: ws) :: ls.
Proof. unfold words. destruct (split_at_cons NEWLINE rest) as (l & ls & ->). destruct (split_at_cons SPACE l) as (w & ws & E). exists w, ws, (split_at SPACE <$> ls). by rewrite fmap_cons, E. Qed.

Lemma words_step c rest w ws ls : words rest = (w :: ws) :: ls ->
  words (c :: rest) = if c =? NEWLINE then [[]] :: (w :: ws) :: ls else if c =? SPACE then ([] :: w :: ws) :: ls else ((c :: w) :: ws) :: ls.
Proof.
  unfold words. destruct (split_at_cons NEWLINE rest) as (l & lr & E). cbn [split_at]. rewrite E, fmap_cons. intros [= E1 <-]. destruct (Z.eqb_spec c NEWLINE) as [->|Hn]; [by rewrite !fmap_cons, E1|]. rewrite fmap_cons. cbn [split_at]. rewrite E1. by destruct (c =? SPACE).
Qed.

Lemma removelast_snoc {A} (l : list A) x : removelast (l ++ [x]) = l.
Proof. apply removelast_last. Qed.

Lemma spec_from_commands rest : forall ws w, spec_from ws w rest = commands (prepend ws w (words rest)).
Proof.
  induction rest as [|c rest IH]; intros ws w; cbn [spec_from].
  { cbn. rewrite app_nil_r. unfold commands. cbn [removelast fmap list_fmap app List.last]. by rewrite removelast_snoc. }
  destruct (words_cons rest) as (w0 & ws0 & ls & E). rewrite (words_step _ _ _ _ _ E), !IH, E. destruct (Z.eqb_spec c SPACE) as [->|Hs]; [|destruct (Z.eqb_spec c NEWLINE) as [->|Hn]]; cbn [prepend].
  - change (SPACE =? NEWLINE) with false. cbn [prepend]. by rewrite app_nil_r, <- app_assoc.
  - unfold commands. cbn [app]. rewrite app_nil_r. done.
  - by rewrite <- app_assoc.
Qed.

Lemma spec_from_spec input : spec_from [] [] input = xargs_spec input.
Proof.
  rewrite spec_from_commands. destruct (words_cons input) as (w & ws & ls & E). rewrite E. cbn [prepend app]. rewrite <- E. unfold commands, xargs_spec, words. destruct (split_at_cons NEWLINE input) as (l & lr & ->). clear.
  assert (forall l, removelast (split_at SPACE <$> (l :: lr)) = split_at SPACE <$> removelast (l :: lr) /\ List.last (split_at SPACE <$> (l :: lr)) [] = split_at SPACE (List.last (l :: lr) [])) as H.
  { induction lr as [|x lr IH]; intros y; [done|]. destruct (IH x) as [E1 E2]. cbn in *. by rewrite E1, E2. }
  destruct (H l) as [-> ->]. by rewrite <- list_fmap_compose.
Qed.

(** ** The buffer *)

Definition enc (ws : list (list Z)) : list Z := concat ((fun w => w ++ [0]) <$> ws).

Fixpoint offsets (a : nat) (ws : list (list Z)) : list nat :=
  match ws with
  | [] => []
  | w :: ws => a :: offsets (a + length w + 1) ws
  end.

Lemma enc_snoc ws w : enc (ws ++ [w]) = enc ws ++ w ++ [0].
Proof. unfold enc. rewrite fmap_app, concat_app. cbn. by rewrite app_nil_r. Qed.

Lemma offsets_snoc ws w : forall a, offsets a (ws ++ [w]) = offsets a ws ++ [(a + length (enc ws))%nat].
Proof.
  induction ws as [|x ws IH]; intros a; cbn [offsets app]; [cbn; by rewrite Nat.add_0_r|]. rewrite IH. cbn. rewrite !length_app. cbn. do 3 f_equal. unfold enc. lia.
Qed.

Lemma length_offsets ws : forall a, length (offsets a ws) = length ws.
Proof. induction ws as [|w ws IH]; intros a; cbn; [done|]. by rewrite IH. Qed.

Lemma str_app w r : str (w ++ 0 :: r) = Some (cut_nul w).
Proof. induction w as [|c w IH]; cbn; [done|]. destruct (c =? 0); [done|]. by rewrite IH. Qed.

Lemma strs_at ws r : forall A, mapM (str_at (A ++ enc ws ++ r)) (offsets (length A) ws) = Some (cut_nul <$> ws).
Proof.
  induction ws as [|w ws IH]; intros A; [done|]. assert (A ++ enc (w :: ws) ++ r = (A ++ w ++ [0]) ++ enc ws ++ r) as E by (unfold enc; cbn; by rewrite <- !app_assoc).
  assert (str_at (A ++ enc (w :: ws) ++ r) (length A) = Some (cut_nul w)) as E1. { rewrite E, <- !app_assoc. unfold str_at. rewrite drop_app_length. apply str_app. }
  cbn [offsets mapM]. rewrite E1. cbn [mbind option_bind]. rewrite E. replace (length A + length w + 1)%nat with (length (A ++ w ++ [0])) by (rewrite !length_app; cbn; lia). by rewrite IH.
Qed.

Lemma insert_mid {X} (A B : list X) x y : <[length A := y]> (A ++ x :: B) = A ++ y :: B.
Proof. rewrite insert_app_r_alt by lia. by rewrite Nat.sub_diag. Qed.

(** ** The loop *)

(** The state after the words [ws] of the line and the beginning [w] of the next one; [A]
    is what is before the line in [buf], and [R] what is behind [p]. *)
Definition at_word (A : list Z) (ws : list (list Z)) (w R : list Z) (runs : list (list (list Z))) : xst :=
  Xst (A ++ enc ws ++ w ++ R) (length (A ++ enc ws ++ w)) (length (A ++ enc ws)) (offsets (length A) ws) runs.

Lemma end_word_ok A ws w c R runs : (length base + length ws < ARGSBUF)%nat ->
  end_word (Xst (A ++ enc ws ++ w ++ c :: R) (length (A ++ enc ws ++ w)) (length (A ++ enc ws)) (offsets (length A) ws) runs) =
    Some (Xst (A ++ enc (ws ++ [w]) ++ R) (length (A ++ enc ws ++ w)) (length (A ++ enc (ws ++ [w]))) (offsets (length A) (ws ++ [w])) runs).
Proof.
  intros H. unfold end_word, args_ok. cbn [x_pa x_buf x_p x_last x_runs]. rewrite length_offsets, (proj2 (Nat.ltb_lt _ _)) by done.
  replace (A ++ enc ws ++ w ++ c :: R) with ((A ++ enc ws ++ w) ++ c :: R) by by rewrite <- !app_assoc. rewrite insert_mid, enc_snoc, offsets_snoc, <- !app_assoc. cbn [app]. rewrite !length_app. cbn [length]. do 2 f_equal; lia.
Qed.

(** Enough room in [argsbuf] for every line. *)
Definition args_fit (ls : list (list (list Z))) : Prop := Forall (fun ws => (length base + length ws < ARGSBUF)%nat) ls.

Lemma xargs_loop_ok rest : forall A ws w R runs, (length rest <= length R)%nat -> args_fit (prepend ws w (words rest)) ->
  exists A' ws' w' R' runs', xargs_loop (Some <$> rest) (at_word A ws w R runs) = Some (at_word A' ws' w' R' runs') /\
    args_fit [ws' ++ [w']] /\ runs' ++ (if ws' is [] then [] else [command ws']) = runs ++ spec_from ws w rest.
Proof.
  induction rest as [|c rest IH]; intros A ws w R runs HR Hfit.
  { exists A, ws, w, R, runs. split_and!; [done| |done]. cbn in Hfit. by rewrite app_nil_r in Hfit. }
  destruct R as [|r0 R]; [cbn in HR; lia|]. cbn in HR. destruct (words_cons rest) as (w0 & ws0 & ls & E). rewrite (words_step _ _ _ _ _ E) in Hfit. cbn [fmap list_fmap xargs_loop spec_from]. change (at_word A ws w (r0 :: R) runs) with (Xst (A ++ enc ws ++ w ++ r0 :: R) (length (A ++ enc ws ++ w)) (length (A ++ enc ws)) (offsets (length A) ws) runs). cbn [x_p x_buf x_last x_pa x_runs].
  rewrite (proj2 (Nat.ltb_lt _ _)) by (rewrite !length_app; cbn; lia). cbn [mbind option_bind]. replace (A ++ enc ws ++ w ++ r0 :: R) with ((A ++ enc ws ++ w) ++ r0 :: R) by by rewrite <- !app_assoc. rewrite insert_mid.
  unfold xargs_char at 1. cbn [x_p x_buf x_last x_pa x_runs]. rewrite list_lookup_middle by done. cbn [mbind option_bind]. rewrite <- !app_assoc. cbn [app].
  destruct (Z.eqb_spec c SPACE) as [->|Hs]; [|destruct (Z.eqb_spec c NEWLINE) as [->|Hn]].
  - change (SPACE =? NEWLINE) with false in Hfit. cbn [prepend] in Hfit. rewrite app_nil_r in Hfit. pose proof (Forall_inv Hfit) as Hlen. cbn beta in Hlen. rewrite length_app in Hlen. cbn in Hlen. rewrite end_word_ok by lia. cbn [mbind option_bind x_p x_buf x_last x_pa x_runs].
    destruct (IH A (ws ++ [w]) [] R runs) as (A' & ws' & w' & R' & runs' & Hrun & Hf & Hr); [lia|rewrite E; cbn [prepend app]; by rewrite <- app_assoc|]. exists A', ws', w', R', runs'. split_and!; [|done|done]. rewrite <- Hrun. unfold at_word. rewrite app_nil_r. do 2 f_equal. rewrite enc_snoc, !length_app. cbn. lia.
  - cbn [prepend] in Hfit. rewrite app_nil_r in Hfit. pose proof (Forall_inv Hfit) as Hlen. apply Forall_inv_tail in Hfit. cbn beta in Hlen. rewrite length_app in Hlen. cbn in Hlen. rewrite end_word_ok by lia. cbn [mbind option_bind].
    unfold args_ok at 1. cbn [x_pa]. rewrite length_offsets, length_app. rewrite (proj2 (Nat.ltb_lt _ _)) by (cbn; lia). unfold run at 1. cbn [x_p x_buf x_last x_pa x_runs]. rewrite strs_at. cbn [mbind option_bind x_p x_buf x_last x_pa x_runs].
    destruct (IH (A ++ enc (ws ++ [w])) [] [] R (runs ++ [command (ws ++ [w])])) as (A' & ws' & w' & R' & runs' & Hrun & Hf & Hr); [lia|rewrite E; done|]. exists A', ws', w', R', runs'. split_and!; [|done|].
    + rewrite <- Hrun. unfold at_word. cbn [enc fmap list_fmap concat offsets app]. rewrite !app_nil_r, <- app_assoc. do 2 f_equal. rewrite enc_snoc, !length_app. cbn. lia.
    + rewrite Hr, <- app_assoc. done.
  - cbn [prepend] in Hfit. cbn [mbind option_bind x_p x_buf x_last x_pa x_runs]. destruct (IH A ws (w ++ [c]) R runs) as (A' & ws' & w' & R' & runs' & Hrun & Hf & Hr); [lia|rewrite E; cbn [prepend]; by rewrite <- app_assoc|].
    exists A', ws', w', R', runs'. split_and!; [|done|done]. rewrite <- Hrun. unfold at_word. rewrite <- !app_assoc. do 2 f_equal. rewrite !length_app. cbn. lia.
Qed.

(** C39. [xargs] on an input that fits in its buffer, with fewer arguments on each line than
    [argsbuf] has room for: it starts one command for each line, with the arguments of the
    command line and the words of the line; and if the input does not end in a newline, the
    words after the last one but for the very last word, which is lost. *)
Theorem xargs_correct (junk input : list Z) (Hjunk : length junk = BUFSZ) (Hlen : (length input <= BUFSZ)%nat) (Hfit : args_fit (words input)) :
  xargs junk (Some <$> input) = Some (xargs_spec input).
Proof.
  destruct (xargs_loop_ok input [] [] [] junk []) as (A & ws & w & R & runs & Hrun & Hf & Hr); [lia| |].
  { destruct (words_cons input) as (w & ws & ls & E). rewrite E in *. done. }
  unfold xargs. change (Xst junk 0 0 [] []) with (at_word [] [] [] junk []). rewrite Hrun. cbn [mbind option_bind]. rewrite <- spec_from_spec. cbn [app] in Hr. rewrite <- Hr. unfold at_word at 1. cbn [x_pa]. destruct ws as [|w1 ws]; [by rewrite app_nil_r|]. cbn [offsets].
  change (length A :: offsets (length A + length w1 + 1) ws) with (offsets (length A) (w1 :: ws)). unfold args_ok, run, at_word. cbn [x_pa x_buf x_runs]. apply Forall_inv in Hf. cbn beta in Hf. rewrite length_app in Hf. rewrite length_offsets, (proj2 (Nat.ltb_lt _ _)) by (cbn in *; lia).
  by rewrite strs_at.
Qed.
End Xargs.

(** [xargs echo] with "a b", a newline, and "c d e" without one. *)
Lemma xargs_correct_witness : xargs [[101; 99; 104; 111]] (replicate BUFSZ 7) (Some <$> [97; 32; 98; 10; 99; 32; 100; 32; 101]) = Some [[[101; 99; 104; 111]; [97]; [98]]; [[101; 99; 104; 111]; [99]; [100]]].
Proof.
  rewrite (xargs_correct [[101; 99; 104; 111]] (replicate BUFSZ 7) [97; 32; 98; 10; 99; 32; 100; 32; 101]); [reflexivity|reflexivity|unfold BUFSZ; cbn; lia|]. repeat constructor; cbn; unfold ARGSBUF; lia.
Defined.
