(* ===== verification/Find.v ===== *)
(** * [user/find.c]

    The file system is what [open], [fstat], [read] of a directory and [stat] see of it: an
    object for every path.  Every level of the recursion holds one descriptor, so the number
    of free descriptors bounds it.  A comparison that starts in front of a string has no
    result ([None]).

    The theorem is about a file system that is a tree below the path at which [find] starts. *)

From S2P Require Import Prelude.

Definition SLASH : Z := 47.
Definition DOTNAME : list Z := [46].
Definition DOTDOTNAME : list Z := [46; 46].
Definition DIRSIZ : nat := 14.
Definition PATHBUF : nat := 512.
Definition TARGETBUF : nat := 512.

(** [T_FILE], [T_DEVICE] and [T_DIR] with its entries: [inum] and [name]. *)
Inductive obj := OFile | ODev | ODir (des : list (Z * list Z)).

(** What is printed. *)
Inductive line := Found (path : list Z) | CannotOpen (path : list Z) | CannotStat (path : list Z) | TooLong.

(** The name up to its NUL, as [p[DIRSIZ] = 0] leaves it. *)
Fixpoint entry_name (name : list Z) : list Z :=
  match name with
  | [] => []
  | c :: name => if c =? 0 then [] else c :: entry_name name
  end.

(** [strcmp(s + strlen(s) - strlen(t), t) == 0] *)
Definition tail_is (s t : list Z) : option bool :=
  if (length s <? length t)%nat then None else Some (bool_decide (drop (length s - length t) s = t)).

Section Find.
Variable fs : list Z -> option obj.

(** One entry of the directory [path]; [fds] descriptors are free. *)
Definition find_entry (rec : list Z -> option (list line)) (fds : nat) (path : list Z) (de : Z * list Z) : option (list line) :=
  if fst de =? 0 then Some []
  else
    let buf := path ++ SLASH :: entry_name (take DIRSIZ (snd de)) in
    if (fds =? 0)%nat || negb (bool_decide (is_Some (fs buf))) then Some [CannotStat buf]
    else
      dot ← tail_is buf (SLASH :: DOTNAME);
      if (dot : bool) then Some []
      else
        dotdot ← tail_is buf (SLASH :: DOTDOTNAME);
        if (dotdot : bool) then Some [] else rec buf.

Fixpoint find (fds : nat) (path target : list Z) : option (list line) :=
  match fds, fs path with
  | S fds, Some OFile => b ← tail_is path target; Some (if (b : bool) then [Found path] else [])
  | S fds, Some (ODir des) =>
      if (PATHBUF <? length path + 1 + DIRSIZ + 1)%nat then Some [TooLong]
      else outs ← mapM (find_entry (fun buf => find fds buf target) fds path) des; Some (concat outs)
  | S fds, Some ODev => Some []
  | _, _ => Some [CannotOpen path]
  end.

(** [main] with the arguments of the command; [target] holds 512 bytes. *)
Definition find_main (fds : nat) (args : list (list Z)) : option (list line) :=
  match args with
  | path :: name :: _ => if (TARGETBUF <? length name + 2)%nat then None else find fds path (SLASH :: name)
  | _ => Some []
  end.
End Find.

(** ** A tree of files *)

Inductive tree := File | Dev | Dir (kids : list (list Z * tree)).

(** A name of a file. *)
Definition name_ok (n : list Z) : Prop := (0 < length n <= DIRSIZ)%nat /\ Forall (fun c => c <> 0 /\ c <> SLASH) n.

#[export] Instance name_ok_dec n : Decision (name_ok n).
Proof. unfold name_ok. apply _. Defined.

(** The names of the entries that are in use, [.] and [..] apart. *)
Definition dotted (n : list Z) : Prop := n = DOTNAME \/ n = DOTDOTNAME.
Definition child_names (des : list (Z * list Z)) : list (list Z) :=
  filter (fun n => ~ dotted n) ((fun de => entry_name (take DIRSIZ (snd de))) <$> filter (fun de => de.1 <> 0) des).

Section Tree.
Variable fs : list Z -> option obj.

Definition child (path n : list Z) : list Z := path ++ SLASH :: n.

(** At [path] there is the tree [t]; directories may have free entries, and [.] and [..]. *)
Fixpoint tree_at (path : list Z) (t : tree) : Prop :=
  match t with
  | File => fs path = Some OFile
  | Dev => fs path = Some ODev
  | Dir kids => exists des, fs path = Some (ODir des) /\ child_names des = kids.*1 /\ (length path + 16 <= PATHBUF)%nat /\
      Forall (fun de => de.1 <> 0 -> name_ok (entry_name (take DIRSIZ de.2)) /\ is_Some (fs (child path (entry_name (take DIRSIZ de.2))))) des /\
      (fix go l := match l with [] => True | (n, t) :: l => tree_at (child path n) t /\ go l end) kids
  end.

(** The levels of a tree. *)
Fixpoint depth (t : tree) : nat :=
  match t with
  | Dir kids => S ((fix go l := match l with [] => 0%nat | (_, t) :: l => Nat.max (depth t) (go l) end) kids)
  | _ => 1
  end.

(** The files below a directory, with their names, in the order of the directories. *)
Fixpoint files (path name : list Z) (t : tree) : list (list Z * list Z) :=
  match t with
  | File => [(path, name)]
  | Dev => []
  | Dir kids => (fix go l := match l with [] => [] | (n, t) :: l => files (child path n) n t ++ go l end) kids
  end.
End Tree.

(** ** Names *)

Lemma slash_split a b x y : Forall (fun c => c <> SLASH) a -> Forall (fun c => c <> SLASH) b -> a ++ SLASH :: x = b ++ SLASH :: y -> a = b.
Proof.
  intros Ha. revert b. induction Ha as [|c a Hc _ IH]; intros b Hb; destruct Hb as [|c' b Hc' Hb]; intros E; simplify_eq/=; [done|]. f_equal. by apply IH.
Qed.

Lemma last_name p q n m : Forall (fun c => c <> SLASH) n -> Forall (fun c => c <> SLASH) m -> p ++ SLASH :: n = q ++ SLASH :: m -> n = m.
Proof.
  intros Hn Hm E. apply (inj reverse). apply (f_equal reverse) in E. rewrite !reverse_app, !reverse_cons, <- !app_assoc in E. eapply slash_split; [| |exact E]; by apply Forall_reverse.
Qed.

(** The tail of a path is compared with the name of the file. *)
Lemma tail_is_name path n name : Forall (fun c => c <> SLASH) n -> Forall (fun c => c <> SLASH) name ->
  tail_is (child path n) (SLASH :: name) = if (length (child path n) <? length (SLASH :: name))%nat then None else Some (bool_decide (n = name)).
Proof.
  intros Hn Hm. unfold tail_is. destruct (Nat.ltb_spec (length (child path n)) (length (SLASH :: name))) as [|Hge]; [done|]. f_equal. apply bool_decide_ext. split.
  - intros E. eapply (last_name path (take (length (child path n) - length (SLASH :: name)) (child path n))); [done|done|]. rewrite <- E at 2. rewrite take_drop. done.
  - intros ->. unfold child. rewrite length_app. replace (length path + length (SLASH :: name) - length (SLASH :: name))%nat with (length path) by lia. by rewrite drop_app_length.
Qed.

Lemma name_noslash n : name_ok n -> Forall (fun c => c <> SLASH) n.
Proof. intros [_ H]. eapply Forall_impl; [exact H|]. by intros c [_ ?]. Qed.

(** ** The search *)

(** What a file contributes. *)
Definition hit (name : list Z) (f : list Z * list Z) : option (list line) :=
  if (length f.1 <? length (SLASH :: name))%nat then None else Some (if bool_decide (f.2 = name) then [Found f.1] else []).
Definition hits (name : list Z) (l : list (list Z * list Z)) : option (list line) := outs ← mapM (hit name) l; Some (concat outs).

Lemma hits_app name l1 l2 : hits name (l1 ++ l2) = (o1 ← hits name l1; o2 ← hits name l2; Some (o1 ++ o2)).
Proof.
  unfold hits. induction l1 as [|f l1 IH]; cbn [app mapM]; [cbn; by destruct (mapM (hit name) l2)|]. destruct (hit name f) as [o|]; [|done]. cbn [mbind option_bind]. destruct (mapM (hit name) (l1 ++ l2)) as [o12|], (mapM (hit name) l1) as [o1|], (mapM (hit name) l2) as [o2|]; cbn in *; try done.
  injection IH as E. by rewrite E, <- app_assoc.
Qed.

Fixpoint kid_files (path : list Z) (kids : list (list Z * tree)) : list (list Z * list Z) :=
  match kids with
  | [] => []
  | (n, t) :: kids => files (child path n) n t ++ kid_files path kids
  end.

Lemma kid_files_dir path n kids : files path n (Dir kids) = kid_files path kids.
Proof. cbn [files]. induction kids as [|[m t] kids IH]; [done|]. cbn [kid_files]. by rewrite <- IH. Qed.

Section Search.
Context (fs : list Z -> option obj) (name : list Z) (Hname : Forall (fun c => c <> SLASH) name).

Fixpoint kids_at (path : list Z) (kids : list (list Z * tree)) : Prop :=
  match kids with
  | [] => True
  | (n, t) :: kids => tree_at fs (child path n) t /\ kids_at path kids
  end.

Fixpoint kids_depth (kids : list (list Z * tree)) : nat :=
  match kids with
  | [] => 0
  | (_, t) :: kids => Nat.max (depth t) (kids_depth kids)
  end.

Lemma kids_at_dir path kids :
  (fix go (l : list (list Z * tree)) := match l with [] => True | (n, t) :: l => tree_at fs (child path n) t /\ go l end) kids -> kids_at path kids.
Proof using. induction kids as [|[n t] kids IH]; [done|]. intros [Ht Hk]. split; [done|by apply IH]. Qed.

Lemma kids_depth_dir kids : depth (Dir kids) = S (kids_depth kids).
Proof using. reflexivity. Qed.

Lemma find_entries rec k path des : forall kids, path <> [] -> (0 < k)%nat ->
  (forall n t, name_ok n -> tree_at fs (child path n) t -> (depth t <= kids_depth kids)%nat -> rec (child path n) = hits name (files (child path n) n t)) ->
  child_names des = kids.*1 -> kids_at path kids ->
  Forall (fun de => de.1 <> 0 -> name_ok (entry_name (take DIRSIZ de.2)) /\ is_Some (fs (child path (entry_name (take DIRSIZ de.2))))) des ->
  (outs ← mapM (find_entry fs rec k path) des; Some (concat outs)) = hits name (kid_files path kids).
Proof using.
  clear Hname. induction des as [|[inum nm] des IH]; intros kids Hp Hk Hrec Hn Hat Hok.
  { by destruct kids. }
  apply Forall_cons in Hok as [Hd Hok]. cbn [fst snd] in Hd. unfold child_names in Hn. rewrite filter_cons in Hn. cbn [fst snd] in Hn. cbn [mapM]. remember (find_entry fs rec k path (inum, nm)) as e eqn:He. unfold find_entry in He. cbn [fst snd] in He. destruct (Z.eqb_spec inum 0) as [->|Hi].
  { rewrite decide_False in Hn by (by intros ?). specialize (IH kids Hp Hk Hrec Hn Hat Hok). rewrite <- IH, He. cbn [mbind option_bind]. by destruct (mapM _ des). }
  rewrite decide_True in Hn by done. destruct (Hd Hi) as [Hnm Hst]. set (n := entry_name (take DIRSIZ nm)) in *. cbn zeta in He. fold (child path n) in He. rewrite (bool_decide_true _ Hst), (proj2 (Nat.eqb_neq k 0)) in He by lia. cbn [orb negb] in He. rewrite fmap_cons in Hn. cbn [snd] in Hn. fold n in Hn. clearbody n.
  assert (0 < length path)%nat as Hp' by (destruct path; [done|cbn; lia]). destruct Hnm as [Hlen Hch]. assert (name_ok n) as Hnm by done. pose proof (name_noslash n Hnm) as Hns.
  rewrite !(tail_is_name path n _ Hns) in He by (by repeat constructor). assert (forall m, (length m <= 2)%nat -> (length (child path n) <? length (SLASH :: m))%nat = false) as Hl.
  { intros m Hm. apply Nat.ltb_ge. unfold child. rewrite length_app. cbn [length]. lia. }
  rewrite !Hl in He by (cbn; lia). cbn [mbind option_bind] in He. rewrite filter_cons in Hn. destruct (decide (dotted n)) as [Hdot|Hdot].
  { rewrite decide_False in Hn by auto. specialize (IH kids Hp Hk Hrec Hn Hat Hok). rewrite <- IH. assert (e = Some []) as ->; [|cbn; by destruct (mapM _ des)]. rewrite He. by destruct Hdot as [->| ->]. }
  rewrite decide_True in Hn by done. destruct kids as [|[n' t] kids]; [done|]. cbn in Hn. injection Hn as <- Hn. destruct Hat as [Ht Hat]. rewrite !bool_decide_false in He by (intros E; apply Hdot; rewrite E; (by left) || (by right)).
  cbn [kid_files]. rewrite hits_app, He. rewrite (Hrec n t) by (done || cbn; lia). assert (forall n t, name_ok n -> tree_at fs (child path n) t -> (depth t <= kids_depth kids)%nat -> rec (child path n) = hits name (files (child path n) n t)) as Hrec' by (intros; apply Hrec; [done|done|cbn; lia]).
  rewrite <- (IH kids Hp Hk Hrec' Hn Hat Hok). destruct (hits name (files (child path n) n t)) as [o|]; [|done]. cbn [mbind option_bind]. by destruct (mapM _ des).
Qed.

Lemma find_dir fds path kids :
  (forall n t, name_ok n -> tree_at fs (child path n) t -> (depth t < fds)%nat -> find fs fds (child path n) (SLASH :: name) = hits name (files (child path n) n t)) ->
  path <> [] -> tree_at fs path (Dir kids) -> (depth (Dir kids) < S fds)%nat -> find fs (S fds) path (SLASH :: name) = hits name (kid_files path kids).
Proof using.
  intros Hrec Hp (des & Hfs & Hn & Hlen & Hok & Hat) Hd. apply kids_at_dir in Hat. rewrite kids_depth_dir in Hd. cbn [find]. rewrite Hfs, (proj2 (Nat.ltb_ge _ _)) by (unfold DIRSIZ; lia).
  apply find_entries; [done|lia| |exact Hn|exact Hat|exact Hok]. intros n t Hnm Ht Hdt. apply Hrec; [done|done|lia].
Qed.

Lemma find_tree fds : forall q n t, name_ok n -> tree_at fs (child q n) t -> (depth t < fds)%nat -> find fs fds (child q n) (SLASH :: name) = hits name (files (child q n) n t).
Proof using Hname.
  induction fds as [|fds IH]; intros q n t Hn Ht Hd; [lia|]. destruct t as [| |kids].
  - cbn in Ht. cbn [find files]. rewrite Ht. rewrite (tail_is_name q n name (name_noslash n Hn) Hname). unfold hits, hit. cbn [mapM fst snd]. destruct (_ <? _)%nat; [done|]. cbn. by destruct (bool_decide (n = name)).
  - cbn in Ht. cbn [find files]. by rewrite Ht.
  - rewrite kid_files_dir. apply find_dir; [by intros; apply IH|unfold child; by destruct q|done|done].
Qed.

Lemma hits_spec l : hits name l = if bool_decide (Exists (fun f => (length f.1 <= length name)%nat) l) then None else Some (Found ∘ fst <$> filter (fun f => f.2 = name) l).
Proof using.
  unfold hits. induction l as [|[p n] l IH]; cbn [mapM]; [done|]. rewrite filter_cons. unfold hit at 2. cbn [fst snd length]. destruct (Nat.ltb_spec (length p) (S (length name))) as [Hlt|Hge].
  - cbn. rewrite bool_decide_true; [done|]. left. cbn. lia.
  - assert (bool_decide (Exists (fun f : list Z * list Z => (length f.1 <= length name)%nat) ((p, n) :: l)) = bool_decide (Exists (fun f => (length f.1 <= length name)%nat) l)) as ->.
    { apply bool_decide_ext. rewrite Exists_cons. cbn. split; [intros [?|?]; [lia|done]|by right]. }
    cbn [mbind option_bind]. destruct (mapM (hit name) l) as [o|]; cbn [mbind option_bind] in *; destruct (bool_decide (Exists _ l)); try done. injection IH as E. cbn [mret option_ret mbind option_bind concat]. rewrite E. case_decide; [by rewrite bool_decide_true|by rewrite bool_decide_false].
Qed.
End Search.

(** C40. [find path name] in a tree of files, with a descriptor for each level of the tree and
    one more.  If no file below [path] has a path that is shorter than a slash and the name,
    it prints exactly the paths of the files with that name, each one once, in the order of
    the directories.  If there is such a file, it reads in front of a string. *)
Theorem find_correct (fs : list Z -> option obj) (fds : nat) (path name : list Z) (kids : list (list Z * tree))
    (Hpath : path <> []) (Hlen : (length name <= 510)%nat) (Hname : Forall (fun c => c <> SLASH) name) (Htree : tree_at fs path (Dir kids)) (Hfds : (depth (Dir kids) < fds)%nat) :
  find_main fs fds [path; name] =
    if bool_decide (Exists (fun f => (length f.1 <= length name)%nat) (files path [] (Dir kids))) then None
    else Some (Found ∘ fst <$> filter (fun f => f.2 = name) (files path [] (Dir kids))).
Proof.
  destruct fds as [|fds]; [lia|]. unfold find_main. rewrite (proj2 (Nat.ltb_ge _ _)) by (unfold TARGETBUF; lia). rewrite <- hits_spec, kid_files_dir. apply find_dir; [|done|done|done]. intros n t Hn Ht Hd. by apply find_tree.
Qed.

(** The tree [./a], [./d/a]. *)
Definition demo_files (path : list Z) : option obj :=
  if bool_decide (path = [46]) then Some (ODir [(1, [46; 0]); (1, [46; 46; 0]); (0, [120; 0]); (2, [97; 0]); (3, [100; 0])])
  else if bool_decide (path = [46; 47; 46] \/ path = [46; 47; 46; 46]) then Some (ODir [])
  else if bool_decide (path = [46; 47; 97] \/ path = [46; 47; 100; 47; 97]) then Some OFile
  else if bool_decide (path = [46; 47; 100]) then Some (ODir [(2, [97; 0])]) else None.

Lemma find_correct_witness : find_main demo_files 13 [[46]; [97]] = Some [Found [46; 47; 97]; Found [46; 47; 100; 47; 97]].
Proof.
  rewrite (find_correct demo_files 13 [46] [97] [([97], File); ([100], Dir [([97], File)])]); [reflexivity|done|cbn; lia|by repeat constructor| |cbn; lia].
  eexists. split; [reflexivity|]. split; [reflexivity|]. split; [cbn; unfold PATHBUF; lia|]. split; [apply (bool_decide_unpack _); vm_compute; exact I|].
  split; [reflexivity|]. split; [|done]. eexists. split; [reflexivity|]. split; [reflexivity|]. split; [cbn; unfold PATHBUF; lia|]. split; [apply (bool_decide_unpack _); vm_compute; exact I|by split].
Defined.
