(* ===== verification/Mkfs.v ===== *)
(** * [mkfs/mkfs.c]

    The tool that makes the first disk image, on a host whose integers are little-endian.
    The image is a file of [m_len] sectors; the calls of the host on it succeed, except for
    a [read] past its end, after which [mkfs] exits.  A failed [assert] and [exit(1)] are
    [Panic].  A file to be copied is its name and the pieces in which [read] returns its
    contents, or [None] if it cannot be opened.

    [MkfsSpec] and [MkfsTop] have the theorems. *)

From S2P Require Import Prelude Bytes Riscv Cache Blocks Fs.

Definition NINODES : Z := 200.
Definition nbitmap : Z := FSSIZE / (BSIZE * 8) + 1.
Definition ninodeblocks : Z := NINODES / IPB + 1.
Definition nlog : Z := LOGSIZE.
Definition mk_nmeta : Z := 2 + nlog + ninodeblocks + nbitmap.
Definition nblocks : Z := FSSIZE - mk_nmeta.

(** The bytes of the argument in the order of the disk. *)
Definition xshort (x : Z) : Z := le_get (le_put 2 x).
Definition xint (x : Z) : Z := le_get (le_put 4 x).

(** [sb] as [main] sets it. *)
Definition mk_sb : superblock :=
  Superblock FSMAGIC (xint FSSIZE) (xint nblocks) (xint NINODES) (xint nlog) (xint 2) (xint (2 + nlog)) (xint (2 + nlog + ninodeblocks)).
Definition sb_bytes (sb : superblock) : list Z :=
  le_put 4 (sb_magic sb) ++ le_put 4 (sb_size sb) ++ le_put 4 (sb_nblocks sb) ++ le_put 4 (sb_ninodes sb) ++
    le_put 4 (sb_nlog sb) ++ le_put 4 (sb_logstart sb) ++ le_put 4 (sb_inodestart sb) ++ le_put 4 (sb_bmapstart sb).

Record mk := Mk { m_disk : Z -> block; m_len : Z; m_freeinode : Z; m_freeblock : Z }.

Definition zeroes : block := replicate (Z.to_nat BSIZE) 0.

(** An empty image; [main] sets [freeblock]. *)
Definition mk_start : mk := Mk (fun _ => zeroes) 0 1 mk_nmeta.

(** ** Sectors, inodes *)

(** The sector at the offset [sec * BSIZE], a [uint]. *)
Definition sector (sec : Z) : Z := u32 (sec * BSIZE) / BSIZE.

Definition wsect (sec : Z) (buf : block) : M mk unit :=
  modify (fun s => Mk (upd (m_disk s) (sector sec) buf) (Z.max (m_len s) (sector sec + 1)) (m_freeinode s) (m_freeblock s)).

Definition rsect (sec : Z) : M mk block :=
  let! len := gets m_len in
  panic_if (len <=? sector sec) "read" ;;
  gets (fun s => m_disk s (sector sec)).

Definition winode (inum : Z) (ip : dinode) : M mk unit :=
  let bn := IBLOCK inum mk_sb in
  let! buf := rsect bn in
  wsect bn (put_dinode buf (inum mod IPB) ip).

Definition rinode (inum : Z) : M mk dinode :=
  let bn := IBLOCK inum mk_sb in
  let! buf := rsect bn in
  ret (get_dinode buf (inum mod IPB)).

Definition mk_ialloc (type : Z) : M mk Z :=
  let! inum := gets m_freeinode in
  modify (fun s => Mk (m_disk s) (m_len s) (u32 (inum + 1)) (m_freeblock s)) ;;
  winode inum (Dinode (xshort type) 0 0 (xshort 1) (xint 0) (replicate 13 0)) ;;
  ret inum.

Definition mk_balloc (used : Z) : M mk unit :=
  panic_if (BSIZE * 8 <=? used) "assert" ;;
  wsect (sb_bmapstart mk_sb)
    (foldl (fun buf i => set_byte buf (i / 8) (Z.lor (byte_at buf (i / 8)) (Z.shiftl 1 (i mod 8)))) zeroes (upto used)).

(** ** Appending to a file *)

(** [freeblock++] *)
Definition next_block : M mk Z :=
  let! b := gets m_freeblock in
  modify (fun s => Mk (m_disk s) (m_len s) (m_freeinode s) (u32 (b + 1))) ;;
  ret b.

Definition get_addr (din : dinode) (k : Z) : Z := nth (Z.to_nat k) (di_addrs din) 0.

(** [din.addrs[k]], with a new block if it is 0. *)
Definition need_addr (k : Z) (din : dinode) : M mk dinode :=
  if xint (get_addr din k) =? 0 then let! b := next_block in ret (with_addr k (xint b) din) else ret din.

(** [indirect[k]], with a new block if it is 0. *)
Definition need_entry (ind k : Z) : M mk Z :=
  let! indirect := rsect ind in
  if get_le indirect (4 * k) 4 =? 0 then
    let! b := next_block in
    let indirect := put_le indirect (4 * k) 4 (xint b) in
    wsect ind indirect ;;
    ret (xint (get_le indirect (4 * k) 4))
  else ret (xint (get_le indirect (4 * k) 4)).

(** The block of index [fbn]. *)
Definition file_block (fbn : Z) (din : dinode) : M mk (Z * dinode) :=
  if fbn <? NDIRECT then
    let! din := need_addr fbn din in
    ret (xint (get_addr din fbn), din)
  else
    let! din := need_addr NDIRECT din in
    let! x := need_entry (xint (get_addr din NDIRECT)) (fbn - NDIRECT) in
    ret (x, din).

Fixpoint iappend_loop (fuel : nat) (p : list Z) (off : Z) (din : dinode) : M mk (Z * dinode) :=
  match p, fuel with
  | [], _ => ret (off, din)
  | _, O => nofuel
  | _, Datatypes.S fuel =>
      let fbn := off / BSIZE in
      panic_if (MAXFILE <=? fbn) "assert" ;;
      let! r := file_block fbn din in
      let n1 := Z.min (zlen p) ((fbn + 1) * BSIZE - off) in
      let! buf := rsect (fst r) in
      wsect (fst r) (splice buf (off - fbn * BSIZE) (take (Z.to_nat n1) p)) ;;
      iappend_loop fuel (drop (Z.to_nat n1) p) (u32 (off + n1)) (snd r)
  end.

Definition iappend (inum : Z) (xp : list Z) : M mk unit :=
  let! din := rinode inum in
  let! r := iappend_loop (length xp) xp (xint (di_size din)) din in
  winode inum (with_size (xint (fst r)) (snd r)).

(** ** [main] *)

Definition user_prefix : list Z := [117; 115; 101; 114; 47].
Definition SLASH : Z := 47.
Definition UNDERSCORE : Z := 95.

(** [shortname] before and after the skip of the underscore. *)
Definition base_name (arg : list Z) : list Z := if bool_decide (take 5 arg = user_prefix) then drop 5 arg else arg.
Definition short_name (arg : list Z) : list Z :=
  if bool_decide (head (base_name arg) = Some UNDERSCORE) then tail (base_name arg) else base_name arg.

Definition dirent (inum : Z) (name : list Z) : list Z := le_put 2 (xshort inum) ++ strncpy_list name (Z.to_nat DIRSIZ).

Definition add_file (rootino : Z) (file : list Z * option (list (list Z))) : M mk unit :=
  panic_if (bool_decide (SLASH ∈ base_name (fst file))) "assert" ;;
  match snd file with
  | None => panic "open"
  | Some pieces =>
      let! inum := mk_ialloc T_FILE in
      iappend rootino (dirent inum (short_name (fst file))) ;;
      mfor pieces (iappend inum)
  end.

(** The size of the root directory, rounded up. *)
Definition fix_root (rootino : Z) : M mk unit :=
  let! din := rinode rootino in
  let off := xint (di_size din) in
  winode rootino (with_size (xint (u32 ((off / BSIZE + 1) * BSIZE))) din).

Definition mkfs (files : list (list Z * option (list (list Z)))) : M mk unit :=
  mfor (upto FSSIZE) (fun i => wsect i zeroes) ;;
  wsect 1 (splice zeroes 0 (sb_bytes mk_sb)) ;;
  let! rootino := mk_ialloc T_DIR in
  panic_if (negb (rootino =? ROOTINO)) "assert" ;;
  iappend rootino (dirent rootino [46]) ;;
  iappend rootino (dirent rootino [46; 46]) ;;
  mfor files (add_file rootino) ;;
  fix_root rootino ;;
  let! freeblock := gets m_freeblock in
  mk_balloc freeblock.
