(* ===== verification/MkfsSpec.v ===== *)
(** * The disk image while [mkfs] fills it

    [laid] relates the blocks of the image to the inodes and the contents of the files:
    every used slot of an inode has a block of its own from the first data block up to
    [freeblock], and no block in between is without an owner.  The lemmas give the effect of
    one new block, one write of data and one write of an inode. *)

From S2P Require Import Prelude Bytes Riscv Cache Blocks Fs FsSpec FsFile Mkfs.

Ltac mkconst := change mk_nmeta with 46 in *; change FSSIZE with 1000 in *; change NINODES with 200 in *; change ind_slot with 268 in *;
  change MAXFILE with 268 in *.
Ltac mklia := mkconst; fslia.

Lemma wf_mk_sb : wf_sb mk_sb.
Proof. split; vm_compute; by split || done. Qed.

Lemma wf_zeroes : length zeroes = 1024%nat /\ bytes zeroes.
Proof. split; [apply length_replicate|]. apply Forall_replicate. lia. Qed.

Lemma xint_small x : 0 <= x < 2 ^ 32 -> xint x = x.
Proof. apply u32_le. Qed.

Lemma get_zeroes off n : get_le zeroes off n = 0.
Proof.
  unfold get_le, sub, zeroes. rewrite drop_replicate, take_replicate. generalize (Z.to_nat n `min` (Z.to_nat BSIZE - Z.to_nat off))%nat. intros m. induction m as [|m IH]; [done|]. cbn. by rewrite IH.
Qed.

Lemma byte_zeroes k : byte_at zeroes k = 0.
Proof. unfold byte_at, zeroes. rewrite nth_lookup. destruct (replicate _ _ !! _) as [x|] eqn:E; [|done]. by apply lookup_replicate in E as [-> _]. Qed.

(** ** Slots *)

Lemma slot_low v di s : s < NDIRECT -> slot v di s = d_addr di s.
Proof. intros Hs. unfold slot, baddr. rewrite (proj2 (Z.eqb_neq _ _)), (proj2 (Z.ltb_lt _ _)) by flia. done. Qed.

Lemma slot_ind v di : slot v di ind_slot = d_addr di NDIRECT.
Proof. unfold slot. by rewrite Z.eqb_refl. Qed.

Lemma slot_high v di s : NDIRECT <= s < ind_slot ->
  slot v di s = if d_addr di NDIRECT =? 0 then 0 else get_le (v (d_addr di NDIRECT)) (4 * (s - NDIRECT)) 4.
Proof. intros Hs. unfold slot, baddr. by rewrite (proj2 (Z.eqb_neq _ _)), (proj2 (Z.ltb_ge _ _)) by flia. Qed.

Lemma slot_view v v' di s : (d_addr di NDIRECT <> 0 -> v' (d_addr di NDIRECT) = v (d_addr di NDIRECT)) -> slot v' di s = slot v di s.
Proof.
  intros H. unfold slot, baddr. destruct (s =? ind_slot); [done|]. destruct (s <? NDIRECT); [done|]. destruct (Z.eqb_spec (d_addr di NDIRECT) 0) as [|Hn]; [done|]. by rewrite H.
Qed.

Lemma fbyte_slot v di k : 0 <= k < MAXFILE * BSIZE -> fbyte v di k = byte_at (v (slot v di (k / BSIZE))) (k mod BSIZE).
Proof. intros Hk. unfold fbyte, slot. rewrite (proj2 (Z.eqb_neq _ _)) by flia. done. Qed.

Record laid (v : Z -> block) (fb : Z) (dis : Z -> dinode) (U : Z -> Z -> bool) (c : Z -> list Z) : Prop := {
  la_view : wf_view v;
  la_fb : mk_nmeta <= fb <= FSSIZE;
  la_wf i : wf_dinode (dis i);
  la_used i s : 0 <= s <= ind_slot -> if U i s then mk_nmeta <= slot v (dis i) s < fb else slot v (dis i) s = 0;
  la_inj i j s t : 0 <= s <= ind_slot -> 0 <= t <= ind_slot -> U i s = true -> U j t = true -> slot v (dis i) s = slot v (dis j) t -> i = j /\ s = t;
  la_onto b : mk_nmeta <= b < fb -> exists i s, 0 <= s <= ind_slot /\ U i s = true /\ slot v (dis i) s = b;
  la_data i k : 0 <= k < MAXFILE * BSIZE -> U i (k / BSIZE) = true -> fbyte v (dis i) k = nth (Z.to_nat k) (c i) 0;
  la_free b : fb <= b -> v b = zeroes;
}.

Lemma laid_ext v fb dis dis' U U' c c' : laid v fb dis U c -> (forall i, dis' i = dis i) -> (forall i s, 0 <= s <= ind_slot -> U' i s = U i s) -> (forall i, c' i = c i) ->
  laid v fb dis' U' c'.
Proof.
  intros [H1 H2 H3 H4 H5 H6 H7 H8] Ed EU Ec. split; try done.
  - intros i. rewrite Ed. done.
  - intros i s Hs. rewrite EU, Ed by done. by apply H4.
  - intros i j s t Hs Ht. rewrite !EU, !Ed by done. by apply H5.
  - intros b Hb. destruct (H6 b Hb) as (i & s & Hs & Hu & E). exists i, s. by rewrite EU, Ed by done.
  - intros i k Hk. rewrite EU, Ed, Ec by flia. by apply H7.
Qed.

Section Laid.
Context {v : Z -> block} {fb : Z} {dis : Z -> dinode} {U : Z -> Z -> bool} {c : Z -> list Z} (HL : laid v fb dis U c).

Lemma slot_used i s : 0 <= s <= ind_slot -> U i s = true -> mk_nmeta <= slot v (dis i) s < fb.
Proof. intros Hs HU. pose proof (la_used _ _ _ _ _ HL i s Hs) as H. by rewrite HU in H. Qed.

Lemma slot_unused i s : 0 <= s <= ind_slot -> U i s = false -> slot v (dis i) s = 0.
Proof. intros Hs HU. pose proof (la_used _ _ _ _ _ HL i s Hs) as H. by rewrite HU in H. Qed.

Lemma slot_nz i s : 0 <= s <= ind_slot -> slot v (dis i) s <> 0 -> U i s = true.
Proof. intros Hs Hn. destruct (U i s) eqn:E; [done|]. by rewrite slot_unused in Hn. Qed.

(** The indirect block of an inode that has one. *)
Lemma ind_nz i : d_addr (dis i) NDIRECT <> 0 -> U i ind_slot = true /\ mk_nmeta <= d_addr (dis i) NDIRECT < fb.
Proof. rewrite <- (slot_ind v). intros H. apply slot_nz in H; [|flia]. split; [done|]. by apply slot_used; [flia|]. Qed.

(** A block that is not the indirect block of [i] and not above [fb] may change without an
    effect on the slots. *)
Lemma slot_keep v' i s : (forall b, mk_nmeta <= b < fb -> v' b = v b \/ exists j t, 0 <= t < ind_slot /\ U j t = true /\ slot v (dis j) t = b) ->
  slot v' (dis i) s = slot v (dis i) s.
Proof.
  intros Hv. apply slot_view. intros Hn. destruct (ind_nz i Hn) as [HU Hr]. destruct (Hv _ Hr) as [|(j & t & Ht & HUt & E)]; [done|].
  rewrite <- (slot_ind v) in E. destruct (la_inj _ _ _ _ _ HL j i t ind_slot) as [_ Et]; [flia|flia|done|done|done|flia].
Qed.

Lemma laid_meta b d : b < mk_nmeta -> length d = 1024%nat -> bytes d -> laid (upd v b d) fb dis U c.
Proof.
  intros Hb Hl Hd. assert (forall i s, slot (upd v b d) (dis i) s = slot v (dis i) s) as Es.
  { intros i s. apply slot_keep. intros b' Hb'. left. apply upd_ne. lia. }
  pose proof HL as [H1 H2 H3 H4 H5 H6 H7 H8]. split; try done.
  - by apply wf_view_upd.
  - intros i s Hs. rewrite Es. by apply H4.
  - intros i j s t. rewrite !Es. apply H5.
  - intros b' Hb'. destruct (H6 b' Hb') as (i & s & Hs & HU & E). exists i, s. by rewrite Es.
  - intros i k Hk HU. rewrite <- H7 by done. rewrite !fbyte_slot by done. rewrite Es. rewrite upd_ne; [done|]. pose proof (slot_used i (k / BSIZE) ltac:(flia) HU). lia.
  - intros b' Hb'. rewrite upd_ne by lia. by apply H8.
Qed.

(** A new block in the empty slot [s] of [i]: only the indirect block of [i] may change. *)
Section Alloc.
Context (v' : Z -> block) (di' : dinode) (i s : Z) (Hs : 0 <= s <= ind_slot) (Hfree : U i s = false) (Hfb : fb < FSSIZE) (Hdi : wf_dinode di') (Hview : wf_view v').
Context (Hslot : forall t, 0 <= t <= ind_slot -> slot v' di' t = if t =? s then fb else slot v (dis i) t).
Context (Hv : forall b, v' b = v b \/ (d_addr (dis i) NDIRECT <> 0 /\ b = d_addr (dis i) NDIRECT)).

(** The blocks that stay: data blocks, blocks of other inodes, blocks that are not used. *)
Lemma alloc_view b : b < mk_nmeta \/ fb <= b \/ (exists j t, 0 <= t <= ind_slot /\ U j t = true /\ b = slot v (dis j) t /\ (j <> i \/ t < ind_slot)) -> v' b = v b.
Proof.
  intros Hb. destruct (Hv b) as [|[Hn ->]]; [done|]. destruct (ind_nz i Hn) as [HU Hr]. destruct Hb as [|[|(j & t & Ht & HUt & E & Hne)]]; [lia|lia|].
  rewrite <- (slot_ind v) in E. destruct (la_inj _ _ _ _ _ HL i j ind_slot t) as [-> <-]; [flia|done|done|done|done|]. destruct Hne; [done|flia].
Qed.

Let dis' := upd dis i di'.
Let U' := fun j t => (j =? i) && (t =? s) || U j t.

Lemma alloc_slot j t : 0 <= t <= ind_slot -> slot v' (dis' j) t = if (j =? i) && (t =? s) then fb else slot v (dis j) t.
Proof.
  intros Ht. unfold dis', upd. destruct (Z.eqb_spec j i) as [->|Hne]; [by apply Hslot|]. apply slot_view. intros Hn. apply alloc_view. right. right. destruct (ind_nz j Hn) as [HU Hr].
  exists j, ind_slot. rewrite slot_ind. split_and!; [flia|flia|done|done|by left].
Qed.

Lemma alloc_used j t : U' j t = true -> (j = i /\ t = s) \/ ((j =? i) && (t =? s) = false /\ U j t = true).
Proof. unfold U'. destruct (Z.eqb_spec j i) as [->|]; destruct (Z.eqb_spec t s) as [->|]; cbn; auto. Qed.

Lemma laid_alloc : (s < ind_slot -> zlen (c i) <= s * BSIZE) -> laid v' (fb + 1) dis' U' c.
Proof.
  intros Hsz. pose proof HL as [H1 H2 H3 H4 H5 H6 H7 H8]. split; try done.
  - mklia.
  - intros j. unfold dis', upd. by destruct (j =? i).
  - intros j t Ht. rewrite alloc_slot by done. unfold U'. destruct (_ && _); cbn [orb]; [lia|]. pose proof (H4 j t Ht) as H. destruct (U j t); [lia|done].
  - intros j k t u Ht Hu HUt HUu. rewrite !alloc_slot by done. destruct (alloc_used _ _ HUt) as [[-> ->]|[E1 HU1]], (alloc_used _ _ HUu) as [[-> ->]|[E2 HU2]]; rewrite ?Z.eqb_refl, ?E1, ?E2; cbn [andb].
    + done.
    + pose proof (slot_used k u Hu HU2). lia.
    + pose proof (slot_used j t Ht HU1). lia.
    + by apply H5.
  - intros b Hb. destruct (Z.eq_dec b fb) as [->|Hne].
    + exists i, s. rewrite alloc_slot by done. unfold U'. by rewrite !Z.eqb_refl.
    + destruct (H6 b ltac:(lia)) as (j & t & Ht & HU & E). exists j, t. rewrite alloc_slot by done. unfold U'. rewrite HU, orb_true_r. split_and!; [lia|lia|done|]. destruct (Z.eqb_spec j i) as [->|]; [|done]. destruct (Z.eqb_spec t s) as [->|]; [congruence|done].
  - intros j k Hk HU. assert (0 <= k / BSIZE < ind_slot) as Hb by mklia. rewrite fbyte_slot by done. rewrite alloc_slot by lia. destruct (alloc_used _ _ HU) as [[-> E]|[E HU1]].
    + rewrite E, !Z.eqb_refl. cbn [andb]. rewrite alloc_view, H8, byte_zeroes by lia. symmetry. apply nth_overflow. specialize (Hsz ltac:(lia)). fslia.
    + rewrite E. rewrite alloc_view; [rewrite <- fbyte_slot by done; by apply H7|]. right. right. exists j, (k / BSIZE). split_and!; [lia|lia|done|done|right; lia].
  - intros b Hb. rewrite alloc_view by lia. apply H8. lia.
Qed.
End Alloc.

(** Bytes behind those of a file, in its last block. *)
Lemma laid_write i bs : let off := zlen (c i) in let x := slot v (dis i) (off / BSIZE) in
  0 < zlen bs -> off mod BSIZE + zlen bs <= BSIZE -> off < MAXFILE * BSIZE -> bytes bs -> U i (off / BSIZE) = true ->
  laid (upd v x (splice (v x) (off mod BSIZE) bs)) fb dis U (upd c i (c i ++ bs)).
Proof.
  intros off x Hpos Hfit Hmax Hbs HU. pose proof HL as [H1 H2 H3 H4 H5 H6 H7 H8]. assert (0 <= off / BSIZE < ind_slot) as Hb by (unfold off in *; mklia). pose proof (slot_used i (off / BSIZE) ltac:(lia) HU) as Hx. fold x in Hx.
  destruct (H1 x) as [Hlx Hbx]. assert (in_range (v x) (off mod BSIZE) (zlen bs)) as Hin by (split_and!; fslia).
  assert (forall j t, slot (upd v x (splice (v x) (off mod BSIZE) bs)) (dis j) t = slot v (dis j) t) as Es.
  { intros j t. apply slot_keep. intros b _. destruct (Z.eq_dec b x) as [->|Hne]; [right|left; by rewrite upd_ne]. exists i, (off / BSIZE). split_and!; [lia|lia|done|done]. }
  split; try done.
  - apply wf_view_upd; [done|by rewrite length_splice|by apply bytes_splice].
  - intros j t Ht. rewrite Es. by apply H4.
  - intros j k t u. rewrite !Es. apply H5.
  - intros b Hb'. destruct (H6 b Hb') as (j & t & Ht & HUt & E). exists j, t. by rewrite Es.
  - intros j k Hk HUk. assert (0 <= k / BSIZE < ind_slot) as Hkb by mklia. pose proof (H7 j k Hk HUk) as Hold. rewrite fbyte_slot in Hold |- * by done. rewrite Es. destruct (Z.eq_dec (slot v (dis j) (k / BSIZE)) x) as [E|E].
    + destruct (H5 j i (k / BSIZE) (off / BSIZE)) as [-> Eb]; [lia|lia|done|done|done|]. rewrite E in Hold |- *. rewrite !upd_eq. unfold byte_at in *. rewrite !nth_lookup in *. rewrite splice_lookup by done. rewrite Z2Nat.id by fslia.
      rewrite lookup_app. unfold off in *. zcase; cbn [andb].
      * rewrite (lookup_ge_None_2 (c i)) by fslia. do 2 f_equal. fslia.
      * rewrite Hold. by destruct (lookup_lt_is_Some_2 (c i) (Z.to_nat k) ltac:(fslia)) as [y ->].
      * rewrite Hold, (lookup_ge_None_2 (c i)) by fslia. rewrite (lookup_ge_None_2 bs) by fslia. done.
      * fslia.
    + rewrite upd_ne by done. rewrite Hold. unfold upd. destruct (Z.eqb_spec j i) as [->|]; [|done]. rewrite !nth_lookup, lookup_app. destruct (c i !! Z.to_nat k) eqn:El; [done|]. apply lookup_ge_None in El. rewrite lookup_ge_None_2; [done|]. assert (k / BSIZE <> off / BSIZE) by (by intros Eq; apply E; rewrite Eq). unfold off in *. fslia.
  - intros b Hb'. rewrite upd_ne by lia. by apply H8.
Qed.
End Laid.
