(* ===== verification/MkfsAppend.v ===== *)
(** * [iappend] of [mkfs.c]

    Bytes are added at the end of a file: the image stays laid out as in [MkfsSpec], the file
    has the bytes behind its old contents, and the blocks taken are those that the new size
    needs. *)

From S2P Require Import Prelude Bytes Riscv Cache Blocks Fs FsSpec FsFile Mkfs MkfsSpec.

(** The slots that a file of [size] bytes uses, and their number. *)
Definition need (s size : Z) : bool := if s =? ind_slot then NDIRECT * BSIZE <? size else s * BSIZE <? size.
Definition nblk (size : Z) : Z := (size + BSIZE - 1) / BSIZE + (if NDIRECT * BSIZE <? size then 1 else 0).
Definition used (c : Z -> list Z) (i s : Z) : bool := need s (zlen (c i)).

(** ** Sectors *)

Lemma sector_small b : 0 <= b < FSSIZE -> sector b = b.
Proof. intros Hb. unfold sector. rewrite u32_small by mklia. mklia. Qed.

Lemma rsect_run v fi fb b : 0 <= b < FSSIZE -> rsect b (Mk v FSSIZE fi fb) = Ok (v b, Mk v FSSIZE fi fb).
Proof. intros Hb. unfold rsect. mcomp. cbn [m_len]. rewrite sector_small by done. rewrite (proj2 (Z.leb_gt _ _)) by lia. mcomp. done. Qed.

Lemma wsect_run v fi fb b d : 0 <= b < FSSIZE -> wsect b d (Mk v FSSIZE fi fb) = Ok (tt, Mk (upd v b d) FSSIZE fi fb).
Proof. intros Hb. unfold wsect, modify. cbn [m_disk m_len m_freeinode m_freeblock]. rewrite sector_small by done. by rewrite Z.max_l by lia. Qed.

Lemma next_block_run v fi fb : 0 <= fb < FSSIZE -> next_block (Mk v FSSIZE fi fb) = Ok (fb, Mk v FSSIZE fi (fb + 1)).
Proof. intros Hb. unfold next_block. mcomp. mcomp. cbn [m_disk m_len m_freeinode m_freeblock]. by rewrite u32_small by mklia. Qed.

(** ** The inode in memory *)

Definition same_head (x y : dinode) : Prop :=
  di_type y = di_type x /\ di_major y = di_major x /\ di_minor y = di_minor x /\ di_nlink y = di_nlink x /\ di_size y = di_size x.

(** What a step of [iappend] on the inode [i] leaves as it was. *)
Record kept (i : Z) (v v' : Z -> block) (dis dis' : Z -> dinode) : Prop := {
  ke_meta b : b < mk_nmeta -> v' b = v b;
  ke_other j : j <> i -> dis' j = dis j;
  ke_head : same_head (dis i) (dis' i);
}.

Lemma kept_refl i v dis : kept i v v dis dis.
Proof. by split. Qed.

Lemma kept_trans i v v' v'' dis dis' dis'' : kept i v v' dis dis' -> kept i v' v'' dis' dis'' -> kept i v v'' dis dis''.
Proof.
  intros [A1 A2 (A3 & A4 & A5 & A6 & A7)] [B1 B2 (B3 & B4 & B5 & B6 & B7)]. split; [intros; rewrite B1 by done; by apply A1|intros; rewrite B2 by done; by apply A2|split_and!; congruence].
Qed.

Section Steps.
Context {v : Z -> block} {fb : Z} {dis : Z -> dinode} {U : Z -> Z -> bool} {c : Z -> list Z} (HL : laid v fb dis U c) (fi i : Z).

Lemma fb_range : 46 <= fb <= 1000.
Proof. apply (la_fb _ _ _ _ _ HL). Qed.

(** The slot of an address in the inode. *)
Definition addr_slot (k : Z) : Z := if k =? NDIRECT then ind_slot else k.

Lemma addr_slot_spec k : 0 <= k <= NDIRECT -> 0 <= addr_slot k <= ind_slot /\ slot v (dis i) (addr_slot k) = d_addr (dis i) k.
Proof.
  intros Hk. unfold addr_slot. destruct (Z.eqb_spec k NDIRECT) as [->|]; [rewrite slot_ind; split; [flia|done]|]. rewrite slot_low by lia. split; [flia|done].
Qed.

Lemma need_addr_old k : 0 <= k <= NDIRECT -> U i (addr_slot k) = true -> need_addr k (dis i) (Mk v FSSIZE fi fb) = Ok (dis i, Mk v FSSIZE fi fb).
Proof.
  intros Hk HU. destruct (addr_slot_spec k Hk) as [Hs E]. pose proof (slot_used HL i _ Hs HU) as H. rewrite E in H. pose proof fb_range. unfold need_addr. change (get_addr (dis i) k) with (d_addr (dis i) k). rewrite xint_small by mklia. by rewrite (proj2 (Z.eqb_neq _ _)) by mklia.
Qed.

Lemma with_addr_slot k t : 0 <= k <= NDIRECT -> U i (addr_slot k) = false -> 0 <= t <= ind_slot ->
  slot v (with_addr k fb (dis i)) t = if t =? addr_slot k then fb else slot v (dis i) t.
Proof.
  intros Hk HU Ht. destruct (addr_slot_spec k Hk) as [Hs E]. pose proof (slot_unused HL i _ Hs HU) as E0. rewrite E in E0. pose proof fb_range. pose proof (wd_addrs _ (la_wf _ _ _ _ _ HL i)) as Hl.
  assert (forall j, 0 <= j <= NDIRECT -> d_addr (with_addr k fb (dis i)) j = if j =? k then fb else d_addr (dis i) j) as Ha by (intros j Hj; by apply addr_with_addr; [|flia|flia]).
  unfold addr_slot in *. destruct (Z.lt_ge_cases t NDIRECT) as [Hlt|Hge]; [|destruct (Z.eq_dec t ind_slot) as [->|Hne]].
  - rewrite !slot_low, Ha by flia. destruct (Z.eqb_spec k NDIRECT) as [->|]; zcase; (flia || done).
  - rewrite !slot_ind, Ha by flia. destruct (Z.eqb_spec k NDIRECT) as [->|]; zcase; (flia || done).
  - rewrite !slot_high, Ha by flia. destruct (Z.eqb_spec k NDIRECT) as [->|].
    + rewrite Z.eqb_refl, E0. cbn [Z.eqb]. rewrite (proj2 (Z.eqb_neq fb 0)), (proj2 (Z.eqb_neq t ind_slot)), (la_free _ _ _ _ _ HL), get_zeroes by lia. done.
    + rewrite (proj2 (Z.eqb_neq NDIRECT k)), (proj2 (Z.eqb_neq t k)) by flia. done.
Qed.

Lemma need_addr_new k : 0 <= k <= NDIRECT -> U i (addr_slot k) = false -> fb < FSSIZE -> (k < NDIRECT -> zlen (c i) <= k * BSIZE) ->
  need_addr k (dis i) (Mk v FSSIZE fi fb) = Ok (with_addr k fb (dis i), Mk v FSSIZE fi (fb + 1)) /\
  laid v (fb + 1) (upd dis i (with_addr k fb (dis i))) (fun j t => (j =? i) && (t =? addr_slot k) || U j t) c /\
  kept i v v dis (upd dis i (with_addr k fb (dis i))).
Proof.
  intros Hk HU Hfb Hsz. destruct (addr_slot_spec k Hk) as [Hs E]. pose proof (slot_unused HL i _ Hs HU) as E0. rewrite E in E0. pose proof fb_range. split_and!.
  - unfold need_addr. change (get_addr (dis i) k) with (d_addr (dis i) k). rewrite E0. change (xint 0 =? 0) with true. cbv iota. mstep (next_block_run v fi fb); [|mklia]. by rewrite xint_small by lia.
  - apply (laid_alloc HL); [done|done|done|apply wf_with_addr; [apply (la_wf _ _ _ _ _ HL)|lia]|apply (la_view _ _ _ _ _ HL)|by intros; apply with_addr_slot|by left|].
    unfold addr_slot in *. destruct (Z.eqb_spec k NDIRECT); [lia|]. intros _. apply Hsz. lia.
  - split; [done|intros; by rewrite upd_ne|by rewrite upd_eq].
Qed.

(** An entry of the indirect block. *)
Section Entry.
Context (s : Z) (Hs : NDIRECT <= s < ind_slot) (HI : U i ind_slot = true).
Let ind := d_addr (dis i) NDIRECT.

Lemma ind_range : mk_nmeta <= ind < fb.
Proof. pose proof (slot_used HL i ind_slot ltac:(flia) HI) as H. by rewrite slot_ind in H. Qed.

Lemma entry_slot : get_le (v ind) (4 * (s - NDIRECT)) 4 = slot v (dis i) s.
Proof. pose proof ind_range. rewrite slot_high by done. fold ind. by rewrite (proj2 (Z.eqb_neq _ _)) by mklia. Qed.

Lemma need_entry_old : U i s = true -> need_entry ind (s - NDIRECT) (Mk v FSSIZE fi fb) = Ok (slot v (dis i) s, Mk v FSSIZE fi fb).
Proof.
  intros HU. pose proof (slot_used HL i s ltac:(flia) HU) as H. pose proof fb_range. pose proof ind_range. unfold need_entry. mstep (rsect_run v fi fb ind); [|mklia]. rewrite entry_slot, (proj2 (Z.eqb_neq _ _)) by mklia. by rewrite xint_small by mklia.
Qed.

Let v' := upd v ind (put_le (v ind) (4 * (s - NDIRECT)) 4 fb).

Lemma entry_in_range t : NDIRECT <= t < ind_slot -> in_range (v ind) (4 * (t - NDIRECT)) 4.
Proof. intros Ht. destruct (la_view _ _ _ _ _ HL ind) as [Hl _]. split_and!; flia. Qed.

Lemma put_entry_slot t : 0 <= t <= ind_slot -> slot v' (dis i) t = if t =? s then fb else slot v (dis i) t.
Proof.
  intros Ht. pose proof fb_range. pose proof ind_range. destruct (Z.lt_ge_cases t NDIRECT) as [Hlt|Hge]; [|destruct (Z.eq_dec t ind_slot) as [->|Hne]].
  - rewrite !slot_low, (proj2 (Z.eqb_neq _ _)) by lia. done.
  - rewrite !slot_ind, (proj2 (Z.eqb_neq _ _)) by lia. done.
  - rewrite !slot_high by lia. fold ind. rewrite !(proj2 (Z.eqb_neq ind 0)) by mklia. unfold v'. rewrite upd_eq. destruct (Z.eqb_spec t s) as [->|Hts].
    + rewrite get_put_same by (by apply entry_in_range). rewrite Z.mod_small by lia. done.
    + apply get_put_other; [by apply entry_in_range|apply entry_in_range; lia|unfold apart; lia].
Qed.

Lemma need_entry_new : U i s = false -> fb < FSSIZE -> zlen (c i) <= s * BSIZE ->
  need_entry ind (s - NDIRECT) (Mk v FSSIZE fi fb) = Ok (fb, Mk v' FSSIZE fi (fb + 1)) /\
  laid v' (fb + 1) dis (fun j t => (j =? i) && (t =? s) || U j t) c /\ kept i v v' dis dis.
Proof.
  intros HU Hfb Hsz. pose proof fb_range. pose proof ind_range. destruct (la_view _ _ _ _ _ HL ind) as [Hl Hb]. pose proof (entry_in_range s Hs) as Hin. split_and!.
  - unfold need_entry. mstep (rsect_run v fi fb ind); [|mklia]. rewrite entry_slot, (slot_unused HL i s) by (done || flia). cbn [Z.eqb]. mstep (next_block_run v fi fb); [|mklia]. rewrite (xint_small fb) by lia. mstep (wsect_run v fi (fb + 1) ind (put_le (v ind) (4 * (s - NDIRECT)) 4 fb)); [|mklia].
    rewrite get_put_same, Z.mod_small, xint_small by (done || lia). done.
  - assert (laid v' (fb + 1) (upd dis i (dis i)) (fun j t => (j =? i) && (t =? s) || U j t) c) as Hl'.
    { apply (laid_alloc HL); [flia|done|done|apply (la_wf _ _ _ _ _ HL)|apply wf_view_upd; [apply (la_view _ _ _ _ _ HL)|by rewrite length_put_le|by apply bytes_put_le]|by apply put_entry_slot| |done].
      intros b. unfold v', upd. destruct (Z.eqb_spec b ind) as [->|]; [right; split; [mklia|done]|by left]. }
    eapply laid_ext; [exact Hl'|intros j; unfold upd; destruct (Z.eqb_spec j i) as [->|]; done|done|done].
  - split; [|done|done]. intros b Hb'. unfold v'. rewrite upd_ne by lia. done.
Qed.
End Entry.
End Steps.

(** ** One block *)

Lemma nblk_step off : 0 <= off ->
  nblk (off + 1) - nblk off = (if off mod BSIZE =? 0 then 1 else 0) + (if off =? NDIRECT * BSIZE then 1 else 0).
Proof. intros Ho. unfold nblk. zcase; fslia. Qed.

Lemma nblk_same off n : 0 <= off -> 0 < n -> off mod BSIZE + n <= BSIZE -> nblk (off + n) = nblk (off + 1).
Proof. intros Ho Hn Hf. unfold nblk. zcase; fslia. Qed.

Lemma nblk_mono a b : a <= b -> nblk a <= nblk b.
Proof. intros H. unfold nblk. zcase; fslia. Qed.

Lemma need_same t off n : 0 <= off -> 0 < n -> off mod BSIZE + n <= BSIZE -> 0 <= t <= ind_slot -> need t (off + n) = need t (off + 1).
Proof. intros Ho Hn Hf Ht. unfold need. zcase; try done; fslia. Qed.

(** The slots that one more byte needs. *)
Lemma need_step t off : 0 <= off -> 0 <= t <= ind_slot ->
  need t (off + 1) = (off mod BSIZE =? 0) && (t =? off / BSIZE) && negb (t =? ind_slot) || (off =? NDIRECT * BSIZE) && (t =? ind_slot) || need t off.
Proof. intros Ho Ht. unfold need. zcase; try done; fslia. Qed.

Definition grown (c : Z -> list Z) (i j t : Z) : bool := if j =? i then need t (zlen (c i) + 1) else used c j t.

Section Block.
Context {v : Z -> block} {fb : Z} {dis : Z -> dinode} {c : Z -> list Z} (HL : laid v fb dis (used c) c) (fi i : Z).
Let off := zlen (c i).
Let fbn := off / BSIZE.
Context (Hmax : off < MAXFILE * BSIZE).

Lemma fbn_range : 0 <= off /\ 0 <= fbn < ind_slot.
Proof. unfold fbn, off in *. mklia. Qed.

Lemma grown_eq j t : 0 <= t <= ind_slot ->
  grown c i j t = (j =? i) && ((off mod BSIZE =? 0) && (t =? fbn) || (off =? NDIRECT * BSIZE) && (t =? ind_slot)) || used c j t.
Proof.
  intros Ht. destruct fbn_range as [Ho Hb]. unfold grown, used. destruct (Z.eqb_spec j i) as [->|]; [|done]. cbn [andb]. rewrite need_step by done. fold off fbn. destruct (Z.eqb_spec t fbn) as [->|]; [rewrite (proj2 (Z.eqb_neq fbn ind_slot)) by lia|]; by rewrite ?andb_true_r, ?andb_false_r.
Qed.

Lemma used_fbn : used c i fbn = negb (off mod BSIZE =? 0).
Proof. destruct fbn_range as [Ho Hb]. unfold used, need. fold off. unfold fbn in *. zcase; try done; flia. Qed.

(** The block is there, or a new one goes into the inode. *)
Lemma file_block_direct : fbn < NDIRECT -> fb + nblk (off + 1) - nblk off <= FSSIZE ->
  exists v' dis', file_block fbn (dis i) (Mk v FSSIZE fi fb) = Ok ((slot v' (dis' i) fbn, dis' i), Mk v' FSSIZE fi (fb + nblk (off + 1) - nblk off)) /\
    laid v' (fb + nblk (off + 1) - nblk off) dis' (grown c i) c /\ kept i v v' dis dis'.
Proof.
  intros Hd Hsp. destruct fbn_range as [Ho Hb]. pose proof (fb_range HL) as Hfb. pose proof (nblk_step off Ho) as Hn. assert ((off =? NDIRECT * BSIZE) = false) as Ei by (apply Z.eqb_neq; unfold fbn in *; fslia). rewrite Ei in Hn. assert (addr_slot fbn = fbn) as Ea by (unfold addr_slot; by rewrite (proj2 (Z.eqb_neq _ _)) by lia).
  pose proof used_fbn as Eu. unfold file_block. rewrite (proj2 (Z.ltb_lt _ _)) by done. destruct (off mod BSIZE =? 0) eqn:Em; cbn [negb] in Eu.
  - destruct (need_addr_new HL fi i fbn) as (Hrun & HL' & Hk); [lia|by rewrite Ea|lia|intros _; fold off; bsplit; unfold fbn; fslia|]. exists v, (upd dis i (with_addr fbn fb (dis i))). replace (fb + nblk (off + 1) - nblk off) with (fb + 1) by lia. mstep Hrun. rewrite upd_eq.
    pose proof (with_addr_slot HL i fbn fbn ltac:(lia) ltac:(by rewrite Ea) ltac:(lia)) as Es. rewrite Ea, Z.eqb_refl in Es. rewrite Es. split_and!; [|eapply laid_ext; [exact HL'|done| |done]|done].
    + change (get_addr (with_addr fbn fb (dis i)) fbn) with (d_addr (with_addr fbn fb (dis i)) fbn). rewrite <- (slot_low v) by done. by rewrite Es, xint_small by lia.
    + intros j t Ht. rewrite grown_eq, Ea, Em, Ei by done. cbn [andb]. by rewrite orb_false_r.
  - exists v, dis. replace (fb + nblk (off + 1) - nblk off) with fb by lia. mstep (need_addr_old HL fi i fbn); [|lia|by rewrite Ea]. change (get_addr (dis i) fbn) with (d_addr (dis i) fbn). rewrite <- (slot_low v) by done. pose proof (slot_used HL i fbn ltac:(lia) Eu) as Hr. rewrite xint_small by mklia. split_and!; [done| |apply kept_refl].
    eapply laid_ext; [exact HL|done| |done]. intros j t Ht. rewrite grown_eq, Em, Ei by done. cbn [andb orb]. by rewrite andb_false_r.
Qed.

(** The first block behind the direct ones needs the indirect block as well. *)
Lemma file_block_first : off = NDIRECT * BSIZE -> fb + nblk (off + 1) - nblk off <= FSSIZE ->
  exists v' dis', file_block fbn (dis i) (Mk v FSSIZE fi fb) = Ok ((slot v' (dis' i) fbn, dis' i), Mk v' FSSIZE fi (fb + nblk (off + 1) - nblk off)) /\
    laid v' (fb + nblk (off + 1) - nblk off) dis' (grown c i) c /\ kept i v v' dis dis'.
Proof.
  intros Ei Hsp. destruct fbn_range as [Ho Hb]. pose proof (fb_range HL) as Hfb. pose proof (nblk_step off Ho) as Hn. assert (fbn = NDIRECT) as Eb by (unfold fbn; rewrite Ei; done). assert ((off mod BSIZE =? 0) = true) as Em by (rewrite Ei; done). rewrite Em, (proj2 (Z.eqb_eq off _) Ei) in Hn.
  assert (used c i ind_slot = false) as Eu by (unfold used, need; fold off; rewrite Z.eqb_refl, Ei; done). pose proof used_fbn as Eu'. rewrite Em in Eu'. unfold file_block. rewrite Eb, Z.ltb_irrefl. destruct (need_addr_new HL fi i NDIRECT) as (Hrun & HL1 & Hk1); [fslia|exact Eu|lia|lia|]. mstep Hrun.
  change (addr_slot NDIRECT) with ind_slot in HL1. set (dis1 := upd dis i (with_addr NDIRECT fb (dis i))) in *. assert (dis1 i = with_addr NDIRECT fb (dis i)) as Ed by apply upd_eq. rewrite <- Ed. pose proof (with_addr_slot HL i NDIRECT ind_slot ltac:(fslia) Eu ltac:(flia)) as Es. rewrite Z.eqb_refl, <- Ed, slot_ind in Es.
  destruct (need_entry_new HL1 fi i NDIRECT) as (Hrun2 & HL2 & Hk2); [flia|by rewrite !Z.eqb_refl|cbn beta; rewrite Z.eqb_refl; cbn [andb]; rewrite <- Eb, Eu'; unfold fbn; rewrite Ei; done|lia|fold off; lia|].
  change (get_addr (dis1 i) NDIRECT) with (d_addr (dis1 i) NDIRECT). rewrite xint_small by (rewrite Es; lia). mstep Hrun2. eexists _, dis1. replace (fb + nblk (off + 1) - nblk off) with (fb + 1 + 1) by lia. split_and!; [|eapply laid_ext; [exact HL2|done| |done]|by eapply kept_trans].
  - unfold ret. do 3 f_equal. rewrite (put_entry_slot HL1 i NDIRECT) by (flia || by rewrite !Z.eqb_refl). by rewrite Z.eqb_refl.
  - intros j t Ht. rewrite grown_eq, Em, Eb by done. rewrite (proj2 (Z.eqb_eq off _) Ei). cbn [andb]. destruct (j =? i), (t =? NDIRECT), (t =? ind_slot); done.
Qed.

Lemma file_block_entry : NDIRECT * BSIZE < off -> fb + nblk (off + 1) - nblk off <= FSSIZE ->
  exists v' dis', file_block fbn (dis i) (Mk v FSSIZE fi fb) = Ok ((slot v' (dis' i) fbn, dis' i), Mk v' FSSIZE fi (fb + nblk (off + 1) - nblk off)) /\
    laid v' (fb + nblk (off + 1) - nblk off) dis' (grown c i) c /\ kept i v v' dis dis'.
Proof.
  intros Hlt Hsp. destruct fbn_range as [Ho Hb]. pose proof (fb_range HL) as Hfb. pose proof (nblk_step off Ho) as Hn. assert ((off =? NDIRECT * BSIZE) = false) as Ei by (apply Z.eqb_neq; lia). rewrite Ei in Hn. assert (NDIRECT <= fbn) as Hge by (unfold fbn; fslia).
  assert (used c i ind_slot = true) as Eu by (unfold used, need; fold off; rewrite Z.eqb_refl; by apply Z.ltb_lt). pose proof used_fbn as Eu'. unfold file_block. rewrite (proj2 (Z.ltb_ge _ _)) by done. mstep (need_addr_old HL fi i NDIRECT); [|fslia|exact Eu].
  pose proof (ind_range HL i Eu) as Hr. change (get_addr (dis i) NDIRECT) with (d_addr (dis i) NDIRECT). rewrite xint_small by mklia. destruct (off mod BSIZE =? 0) eqn:Em; cbn [negb] in Eu'.
  - destruct (need_entry_new HL fi i fbn ltac:(lia) Eu Eu') as (Hrun & HL' & Hk); [lia|fold off; bsplit; unfold fbn; fslia|]. mstep Hrun. eexists _, dis. replace (fb + nblk (off + 1) - nblk off) with (fb + 1) by lia. split_and!; [|eapply laid_ext; [exact HL'|done| |done]|done].
    + unfold ret. do 3 f_equal. rewrite (put_entry_slot HL i fbn) by (done || lia). by rewrite Z.eqb_refl.
    + intros j t Ht. rewrite grown_eq, Em, Ei by done. cbn [andb]. by rewrite orb_false_r.
  - mstep (need_entry_old HL fi i fbn ltac:(lia) Eu Eu'). exists v, dis. replace (fb + nblk (off + 1) - nblk off) with fb by lia. split_and!; [done| |apply kept_refl].
    eapply laid_ext; [exact HL|done| |done]. intros j t Ht. rewrite grown_eq, Em, Ei by done. cbn [andb orb]. by rewrite andb_false_r.
Qed.

Lemma file_block_ok : fb + nblk (off + 1) - nblk off <= FSSIZE ->
  exists v' dis', file_block fbn (dis i) (Mk v FSSIZE fi fb) = Ok ((slot v' (dis' i) fbn, dis' i), Mk v' FSSIZE fi (fb + nblk (off + 1) - nblk off)) /\
    laid v' (fb + nblk (off + 1) - nblk off) dis' (grown c i) c /\ kept i v v' dis dis'.
Proof.
  intros Hsp. destruct (Z.lt_trichotomy off (NDIRECT * BSIZE)) as [H|[H|H]]; [|by apply file_block_first|by apply file_block_entry]. apply file_block_direct; [unfold fbn; fslia|done].
Qed.
End Block.

(** ** The loop *)

Lemma laid_used v fb dis c c' U : laid v fb dis U c -> (forall j, c' j = c j) -> (forall j s, 0 <= s <= ind_slot -> used c j s = U j s) -> laid v fb dis (used c') c'.
Proof. intros HL Ec EU. eapply laid_ext; [exact HL|done| |done]. intros j s Hs. rewrite <- EU by done. unfold used. by rewrite Ec. Qed.

(** The part of the bytes that goes into one block. *)
Lemma iappend_piece i fi v fb dis c bs : laid v fb dis (used c) c -> bytes bs -> 0 < zlen bs -> zlen (c i) mod BSIZE + zlen bs <= BSIZE ->
  zlen (c i) < MAXFILE * BSIZE -> let off := zlen (c i) in let fbn := off / BSIZE in let fb' := fb + nblk (off + zlen bs) - nblk off in fb' <= FSSIZE ->
  exists v1 v' dis' x, file_block fbn (dis i) (Mk v FSSIZE fi fb) = Ok ((x, dis' i), Mk v1 FSSIZE fi fb') /\ 0 <= x < FSSIZE /\
    v' = upd v1 x (splice (v1 x) (off - fbn * BSIZE) bs) /\ laid v' fb' dis' (used (upd c i (c i ++ bs))) (upd c i (c i ++ bs)) /\ kept i v v' dis dis'.
Proof.
  intros HL Hbs Hpos Hfit Hmax off fbn fb' Hsp. assert (0 <= off) as Ho by (unfold off; lia). unfold fb' in *. rewrite (nblk_same off (zlen bs)) in * by done. destruct (file_block_ok HL fi i Hmax Hsp) as (v1 & dis1 & Hrun & HL1 & Hk1). fold off in Hrun, HL1.
  assert (grown c i i fbn = true) as Hg by (unfold grown, need; rewrite Z.eqb_refl; fold off; unfold fbn; zcase; try done; mklia). pose proof (slot_used HL1 i fbn ltac:(unfold fbn, off in *; mklia) Hg) as Hx. eexists v1, _, dis1, (slot v1 (dis1 i) fbn). split_and!; [exact Hrun|mklia|mklia|reflexivity| |].
  - replace (off - fbn * BSIZE) with (off mod BSIZE) by (unfold fbn; fslia). eapply laid_used; [apply (laid_write HL1 i bs); done|done|]. intros j s Hs. unfold used, grown, upd. destruct (Z.eqb_spec j i) as [->|]; [|done]. rewrite length_app, Nat2Z.inj_add. by apply need_same.
  - eapply kept_trans; [exact Hk1|]. split; [|done|done]. intros b Hb. apply upd_ne. lia.
Qed.

Lemma iappend_loop_ok i fi : forall fuel p v fb dis c, laid v fb dis (used c) c -> (length p <= fuel)%nat -> bytes p ->
  zlen (c i) + zlen p <= MAXFILE * BSIZE -> fb + nblk (zlen (c i) + zlen p) - nblk (zlen (c i)) <= FSSIZE ->
  exists v' dis', iappend_loop fuel p (zlen (c i)) (dis i) (Mk v FSSIZE fi fb) =
      Ok ((zlen (c i) + zlen p, dis' i), Mk v' FSSIZE fi (fb + nblk (zlen (c i) + zlen p) - nblk (zlen (c i)))) /\
    laid v' (fb + nblk (zlen (c i) + zlen p) - nblk (zlen (c i))) dis' (used (upd c i (c i ++ p))) (upd c i (c i ++ p)) /\ kept i v v' dis dis'.
Proof.
  induction fuel as [|fuel IH]; intros p v fb dis c HL Hf Hp Hmax Hsp; (destruct p as [|x0 p0]; [|cbn [length] in Hf; try lia]).
  1,2: exists v, dis; rewrite Z.add_0_r, Z.add_simpl_r in *; split_and!; [done| |apply kept_refl]; eapply laid_used; [exact HL| |done]; intros j; unfold upd; destruct (Z.eqb_spec j i) as [->|]; [apply app_nil_r|done].
  set (p := x0 :: p0) in *. assert (0 < zlen p) as Hpos by (cbn; lia). set (off := zlen (c i)) in *. set (n1 := Z.min (zlen p) ((off / BSIZE + 1) * BSIZE - off)). assert (0 < n1 <= zlen p /\ off mod BSIZE + n1 <= BSIZE) as [Hn1 Hfit] by (unfold n1, off in *; fslia).
  set (bs := take (Z.to_nat n1) p). assert (zlen bs = n1) as Ebs by (unfold bs; rewrite length_take; lia). assert (p = bs ++ drop (Z.to_nat n1) p) as Ep by (symmetry; apply take_drop).
  assert (zlen (drop (Z.to_nat n1) p) = zlen p - n1) as Er by (rewrite length_drop; lia). pose proof (nblk_mono (off + n1) (off + zlen p) ltac:(lia)) as Hm.
  destruct (iappend_piece i fi v fb dis c bs HL) as (v1 & v' & dis1 & x & Hrun & Hx & Ev & HL' & Hk'); [by apply Forall_take|lia|fold off; lia|fold off; mklia|rewrite Ebs; fold off; lia|]. fold off in Hrun, Ev, HL'. rewrite Ebs in Hrun, HL'.
  set (c' := upd c i (c i ++ bs)) in *. assert (zlen (c' i) = off + n1) as Ec' by (unfold c'; rewrite upd_eq, length_app; unfold off; lia). destruct (IH (drop (Z.to_nat n1) p) v' (fb + nblk (off + n1) - nblk off) dis1 c' HL') as (v2 & dis2 & Hrun2 & HL2 & Hk2); [rewrite length_drop; cbn [length p] in *; lia|by apply Forall_drop|lia|rewrite Ec', Er; replace (off + n1 + (zlen p - n1)) with (off + zlen p) by lia; lia|].
  rewrite Ec', Er in Hrun2, HL2. replace (off + n1 + (zlen p - n1)) with (off + zlen p) in Hrun2, HL2 by lia. replace (fb + nblk (off + n1) - nblk off + nblk (off + zlen p) - nblk (off + n1)) with (fb + nblk (off + zlen p) - nblk off) in Hrun2, HL2 by lia.
  exists v2, dis2. split_and!; [|eapply laid_used; [exact HL2| |done]|by eapply kept_trans].
  - change (iappend_loop (S fuel) p off (dis i)) with (panic_if (MAXFILE <=? off / BSIZE) "assert" ;; let! r := file_block (off / BSIZE) (dis i) in let n1 := Z.min (zlen p) ((off / BSIZE + 1) * BSIZE - off) in let! buf := rsect (fst r) in wsect (fst r) (splice buf (off - off / BSIZE * BSIZE) (take (Z.to_nat n1) p)) ;; iappend_loop fuel (drop (Z.to_nat n1) p) (u32 (off + n1)) (snd r)).
    rewrite (proj2 (Z.leb_gt _ _)) by mklia. mcomp. mstep Hrun. cbn zeta. fold n1 bs. cbn [fst snd]. mstep (rsect_run v1 fi (fb + nblk (off + n1) - nblk off) x Hx). mstep (wsect_run v1 fi (fb + nblk (off + n1) - nblk off) x (splice (v1 x) (off - off / BSIZE * BSIZE) bs) Hx). rewrite <- Ev, u32_small by mklia. exact Hrun2.
  - intros j. unfold c', upd. destruct (Z.eqb_spec j i) as [->|]; [|done]. rewrite Z.eqb_refl. rewrite Ep at 1. by rewrite app_assoc.
Qed.
