(* ===== verification/MkfsFiles.v ===== *)
(** * [mkfs.c]: inodes and files

    [mkinv] is the image between two calls of [main]: the inodes on the disk, with the
    contents of their files laid out as in [MkfsSpec]. *)

From S2P Require Import Prelude Bytes Riscv Cache Blocks Fs FsSpec FsFile FsDir Mkfs MkfsSpec MkfsAppend.

(** ** Inodes *)

Lemma iblock_mk i : 0 <= i < NINODES -> IBLOCK i mk_sb = i / 16 + 32 /\ 32 <= i / 16 + 32 < 45.
Proof. intros Hi. unfold IBLOCK. change IPB with 16. change (sb_inodestart mk_sb) with 32. rewrite u32_small by mklia. split; [done|mklia]. Qed.

Lemma inode_upd v i j x : wf_view v -> 0 <= i < NINODES -> 0 <= j < NINODES -> wf_dinode x ->
  disk_inode (upd v (IBLOCK i mk_sb) (put_dinode (v (IBLOCK i mk_sb)) (i mod IPB) x)) mk_sb j = if j =? i then x else disk_inode v mk_sb j.
Proof.
  intros Hv Hi Hj Hx. destruct (Hv (IBLOCK i mk_sb)) as [Hl _]. destruct (iblock_mk i Hi) as [Ei _], (iblock_mk j Hj) as [Ej _]. unfold disk_inode. destruct (Z.eqb_spec j i) as [->|Hne].
  - rewrite upd_eq. apply get_put_dinode; [done|apply Z.mod_pos_bound; fslia|done].
  - destruct (Z.eq_dec (IBLOCK j mk_sb) (IBLOCK i mk_sb)) as [E|E]; [|by rewrite upd_ne]. rewrite E, upd_eq. apply get_dinode_other; [done|apply Z.mod_pos_bound; fslia|done|apply Z.mod_pos_bound; fslia|]. rewrite Ei, Ej in E. change IPB with 16. dlia.
Qed.

Lemma rinode_run v fi fb i : 0 <= i < NINODES -> rinode i (Mk v FSSIZE fi fb) = Ok (disk_inode v mk_sb i, Mk v FSSIZE fi fb).
Proof. intros Hi. destruct (iblock_mk i Hi) as [E Hr]. unfold rinode. mstep (rsect_run v fi fb (IBLOCK i mk_sb)); [|rewrite E; mklia]. done. Qed.

Lemma winode_run v fi fb i x : 0 <= i < NINODES ->
  winode i x (Mk v FSSIZE fi fb) = Ok (tt, Mk (upd v (IBLOCK i mk_sb) (put_dinode (v (IBLOCK i mk_sb)) (i mod IPB) x)) FSSIZE fi fb).
Proof.
  intros Hi. destruct (iblock_mk i Hi) as [E Hr]. unfold winode. mstep (rsect_run v fi fb (IBLOCK i mk_sb)); [|rewrite E; mklia]. apply wsect_run. rewrite E. mklia.
Qed.

(** Only the addresses decide where a file is. *)
Lemma slot_addrs v d d' s : di_addrs d = di_addrs d' -> slot v d s = slot v d' s.
Proof. intros E. unfold slot, baddr, d_addr. by rewrite E. Qed.

Lemma laid_addrs v fb dis dis' U c : laid v fb dis U c -> (forall i, wf_dinode (dis' i) /\ di_addrs (dis' i) = di_addrs (dis i)) -> laid v fb dis' U c.
Proof.
  intros [H1 H2 H3 H4 H5 H6 H7 H8] Hd. assert (forall i s, slot v (dis' i) s = slot v (dis i) s) as Es by (intros i s; apply slot_addrs, Hd). split; try done.
  - intros i. apply Hd.
  - intros i s Hs. rewrite Es. by apply H4.
  - intros i j s t. rewrite !Es. apply H5.
  - intros b Hb. destruct (H6 b Hb) as (i & s & Hs & HU & E). exists i, s. by rewrite Es.
  - intros i k Hk HU. rewrite <- H7 by done. by rewrite !fbyte_slot, Es by done.
Qed.

(** ** Between two calls *)

Definition blank : dinode := Dinode 0 0 0 0 0 (replicate 13 0).
Definition sb_block : block := splice zeroes 0 (sb_bytes mk_sb).

Record mkinv (s : mk) (n : Z) (dis : Z -> dinode) (c : Z -> list Z) : Prop := {
  mi_len : m_len s = FSSIZE;
  mi_n : m_freeinode s = n /\ 1 <= n <= NINODES;
  mi_laid : laid (m_disk s) (m_freeblock s) dis (used c) c;
  mi_inode j : 0 <= j < NINODES -> disk_inode (m_disk s) mk_sb j = dis j;
  mi_size j : di_size (dis j) = zlen (c j) /\ zlen (c j) <= MAXFILE * BSIZE;
  mi_kind j : 1 <= j < n -> di_type (dis j) = (if j =? ROOTINO then T_DIR else T_FILE) /\ di_nlink (dis j) = 1;
  mi_blank j : ~ (1 <= j < n) -> dis j = blank /\ c j = [];
  mi_sb : m_disk s 1 = sb_block;
  mi_zero b : b = 0 \/ 2 <= b < 32 \/ b = 45 -> m_disk s b = zeroes;
}.

(** An inode written to the disk. *)
Lemma mkinv_winode s n n' dis c c' j x : m_len s = FSSIZE -> m_freeinode s = n' -> 1 <= n' <= NINODES -> 1 <= j < n' ->
  laid (m_disk s) (m_freeblock s) (upd dis j x) (used c') c' -> (forall i, i <> j -> c' i = c i) -> zlen (c' j) <= MAXFILE * BSIZE -> wf_dinode x -> di_size x = zlen (c' j) ->
  di_type x = (if j =? ROOTINO then T_DIR else T_FILE) -> di_nlink x = 1 ->
  (forall i, 0 <= i < NINODES -> i <> j -> disk_inode (m_disk s) mk_sb i = dis i) -> (forall i, i <> j -> di_size (dis i) = zlen (c i) /\ zlen (c i) <= MAXFILE * BSIZE) ->
  (forall i, 1 <= i < n -> di_type (dis i) = (if i =? ROOTINO then T_DIR else T_FILE) /\ di_nlink (dis i) = 1) -> (forall i, ~ (1 <= i < n) -> dis i = blank /\ c i = []) -> (n' = n \/ n' = n + 1 /\ j = n) ->
  m_disk s 1 = sb_block -> (forall b, b = 0 \/ 2 <= b < 32 \/ b = 45 -> m_disk s b = zeroes) ->
  exists s', winode j x s = Ok (tt, s') /\ mkinv s' n' (upd dis j x) c' /\ m_freeblock s' = m_freeblock s.
Proof.
  intros Hlen Hfi Hn Hj HL Hc Hmax Hx Hsz Ht Hnl Hino Hsize Hkind Hblank Hnn Hsb Hz. destruct s as [v len fi fb]. cbn in *. subst len fi. assert (0 <= j < NINODES) as Hj' by lia. destruct (iblock_mk j Hj') as [E Hr]. eexists. split; [by apply winode_run|]. split; [|done]. destruct (la_view _ _ _ _ _ HL (IBLOCK j mk_sb)) as [Hl Hb]. split; cbn.
  - done.
  - done.
  - apply laid_meta; [done|rewrite E; mklia|apply length_put_dinode; [done|apply Z.mod_pos_bound; fslia|done]|by apply bytes_put_dinode].
  - intros i Hi. rewrite inode_upd by (done || apply (la_view _ _ _ _ _ HL)). unfold upd. destruct (Z.eqb_spec i j); [done|by apply Hino].
  - intros i. unfold upd. destruct (Z.eqb_spec i j) as [->|]; [done|]. rewrite Hc by done. by apply Hsize.
  - intros i Hi. unfold upd. destruct (Z.eqb_spec i j) as [->|]; [done|]. apply Hkind. lia.
  - intros i Hi. rewrite upd_ne, Hc by lia. apply Hblank. lia.
  - rewrite upd_ne by (rewrite E; lia). done.
  - intros b Hbz. rewrite upd_ne by (rewrite E; lia). by apply Hz.
Qed.

Lemma ialloc_ok s n dis c type : mkinv s n dis c -> n < NINODES -> type = (if n =? ROOTINO then T_DIR else T_FILE) ->
  exists s' dis', mk_ialloc type s = Ok (n, s') /\ mkinv s' (n + 1) dis' c /\ m_freeblock s' = m_freeblock s.
Proof.
  intros [Hlen [Hfi Hn] HL Hino Hsize Hkind Hblank Hsb Hz] Hlt Et. destruct s as [v len fi fb]. cbn in Hlen, Hfi, HL, Hino, Hsb, Hz. subst len fi. destruct (Hblank n ltac:(lia)) as [Edn Ecn]. set (x := Dinode type 0 0 1 0 (replicate 13 0)).
  assert (wf_dinode x) as Hx by (split; cbn; try lia; [rewrite Et; unfold T_DIR, T_FILE; destruct (_ =? _); lia|by repeat constructor]).
  destruct (mkinv_winode (Mk v FSSIZE (n + 1) fb) n (n + 1) dis c c n x) as (s' & Hrun & Hinv & Efb); try done; cbn [m_disk m_len m_freeinode m_freeblock]; try lia.
  - eapply laid_addrs; [exact HL|]. intros i. unfold upd. destruct (Z.eqb_spec i n) as [->|]; [|split; [apply (la_wf _ _ _ _ _ HL)|done]]. by rewrite Edn.
  - rewrite Ecn. cbn. mklia.
  - cbn. by rewrite Ecn.
  - intros i Hi _. by apply Hino.
  - exists s', (upd dis n x). split; [|done]. unfold mk_ialloc. mcomp. mcomp. cbn [m_disk m_len m_freeinode m_freeblock]. rewrite u32_small by mklia. assert (Dinode (xshort type) 0 0 (xshort 1) (xint 0) (replicate 13 0) = x) as -> by (unfold x; rewrite Et; by destruct (n =? ROOTINO)). by mstep Hrun.
Qed.

Lemma iappend_ok s n dis c j p : mkinv s n dis c -> 1 <= j < n -> bytes p -> zlen (c j) + zlen p <= MAXFILE * BSIZE ->
  let fb' := m_freeblock s + nblk (zlen (c j) + zlen p) - nblk (zlen (c j)) in fb' <= FSSIZE ->
  exists s' dis', iappend j p s = Ok (tt, s') /\ mkinv s' n dis' (upd c j (c j ++ p)) /\ m_freeblock s' = fb'.
Proof.
  intros [Hlen [Hfi Hn] HL Hino Hsize Hkind Hblank Hsb Hz] Hj Hp Hmax fb' Hsp. destruct s as [v len fi fb]. cbn in Hlen, Hfi, HL, Hino, Hsb, Hz, Hsp, fb'. subst len fi. assert (0 <= j < NINODES) as Hj' by lia.
  destruct (iappend_loop_ok j n (length p) p v fb dis c HL) as (v1 & dis1 & Hrun & HL1 & [Kmeta Kother (K1 & K2 & K3 & K4 & K5)]); [lia|done|done|done|]. fold fb' in Hrun, HL1. set (c' := upd c j (c j ++ p)) in *. set (off' := zlen (c j) + zlen p) in *.
  set (x := with_size off' (dis1 j)). destruct (Hkind j Hj) as [Kt Knl]. destruct (mkinv_winode (Mk v1 FSSIZE n fb') n n dis1 c c' j x) as (s' & Hw & Hinv & Efb); try done; cbn [m_disk m_len m_freeinode m_freeblock]; try (by left).
  - eapply laid_addrs; [exact HL1|]. intros i. pose proof (la_wf _ _ _ _ _ HL1 i) as [W1 W2 W3 W4 W5 W6 W7]. unfold upd. destruct (Z.eqb_spec i j) as [->|]; [|by split]. split; [|done]. split; cbn; try done. unfold off'. mklia.
  - intros i Hi. unfold c'. by rewrite upd_ne.
  - unfold c'. rewrite upd_eq, length_app. unfold off' in *. lia.
  - destruct (la_wf _ _ _ _ _ HL1 j) as [W1 W2 W3 W4 W5 W6 W7]. split; cbn; try done. unfold off'. mklia.
  - unfold c'. rewrite upd_eq, length_app. cbn. unfold off'. lia.
  - cbn. congruence.
  - cbn. congruence.
  - intros i Hi Hne. rewrite Kother by done. rewrite <- Hino by done. unfold disk_inode. rewrite Kmeta; [done|]. destruct (iblock_mk i Hi) as [-> ?]. mklia.
  - intros i Hne. rewrite Kother by done. apply Hsize.
  - intros i Hi. destruct (Z.eq_dec i j) as [->|Hne]; [split; congruence|]. rewrite Kother by done. by apply Hkind.
  - intros i Hi. rewrite Kother by lia. by apply Hblank.
  - rewrite Kmeta by mklia. done.
  - intros b Hb. rewrite Kmeta by mklia. by apply Hz.
  - exists s', (upd dis1 j x). split; [|done]. unfold iappend. mstep (rinode_run v n fb j Hj'). rewrite Hino by done. destruct (Hsize j) as [-> Hsm]. rewrite xint_small by mklia. mstep Hrun. cbn [fst snd]. rewrite xint_small by (unfold off'; mklia). exact Hw.
Qed.

Lemma mkinv_ext s n dis c c' : mkinv s n dis c -> (forall i, c' i = c i) -> mkinv s n dis c'.
Proof.
  intros [H1 H2 H3 H4 H5 H6 H7 H8 H9] E. split; try done.
  - by eapply laid_used.
  - intros j. rewrite E. apply H5.
  - intros j Hj. rewrite E. by apply H7.
Qed.

(** ** Files *)

Lemma pieces_ok n j : 1 <= j < n -> forall pieces s dis c, mkinv s n dis c -> Forall bytes pieces -> zlen (c j) + zlen (concat pieces) <= MAXFILE * BSIZE ->
  let fb' := m_freeblock s + nblk (zlen (c j) + zlen (concat pieces)) - nblk (zlen (c j)) in fb' <= FSSIZE ->
  exists s' dis', mfor pieces (iappend j) s = Ok (tt, s') /\ mkinv s' n dis' (upd c j (c j ++ concat pieces)) /\ m_freeblock s' = fb'.
Proof.
  intros Hj. induction pieces as [|p pieces IH]; intros s dis c Hinv Hb Hmax fb' Hsp.
  { exists s, dis. split_and!; [done| |unfold fb'; cbn; rewrite Z.add_0_r; lia]. eapply mkinv_ext; [exact Hinv|]. intros i. unfold upd. destruct (Z.eqb_spec i j) as [->|]; [apply app_nil_r|done]. }
  apply Forall_cons in Hb as [Hp Hb]. unfold fb' in *. cbn [concat] in *. rewrite length_app, Nat2Z.inj_add in *. set (a := zlen (c j)) in *. pose proof (nblk_mono (a + zlen p) (a + (zlen p + zlen (concat pieces))) ltac:(lia)) as Hm.
  destruct (iappend_ok s n dis c j p Hinv Hj Hp) as (s1 & dis1 & Hrun1 & Hinv1 & Efb1); [fold a; lia|fold a; lia|]. fold a in Efb1. set (c1 := upd c j (c j ++ p)) in *. assert (zlen (c1 j) = a + zlen p) as Ec1 by (unfold c1; rewrite upd_eq, length_app; unfold a; lia).
  destruct (IH s1 dis1 c1 Hinv1 Hb) as (s2 & dis2 & Hrun2 & Hinv2 & Efb2); [lia|rewrite Ec1, Efb1, <- Z.add_assoc; lia|]. exists s2, dis2. split_and!.
  - cbn [mfor]. by mstep Hrun1.
  - eapply mkinv_ext; [exact Hinv2|]. intros i. unfold c1, upd. destruct (Z.eqb_spec i j) as [->|]; [|done]. rewrite Z.eqb_refl. apply app_assoc.
  - rewrite Efb2, Ec1, Efb1, <- Z.add_assoc. lia.
Qed.

Definition fpieces (f : list Z * list (list Z)) : list Z * option (list (list Z)) := (fst f, Some (snd f)).
Definition fdata (f : list Z * list (list Z)) : list Z := concat (snd f).

(** A file that [mkfs] copies. *)
Record file_ok (f : list Z * list (list Z)) : Prop := {
  fk_name : SLASH ∉ base_name (fst f) /\ bytes (fst f);
  fk_data : Forall bytes (snd f) /\ zlen (fdata f) <= MAXFILE * BSIZE;
}.

Lemma bytes_short_name nm : bytes nm -> bytes (short_name nm).
Proof.
  intros H. assert (bytes (base_name nm)) as Hb by (unfold base_name; destruct (bool_decide _); [by apply Forall_drop|done]). unfold short_name. destruct (bool_decide _); [|done]. destruct (base_name nm); [done|]. by apply Forall_cons in Hb as [_ ?].
Qed.

Lemma dirent_new i nm : 0 <= i < 2 ^ 16 -> dirent i nm = new_dirent nm i.
Proof. intros Hi. unfold dirent, new_dirent, xshort. rewrite le_get_put. rewrite Z.mod_small by lia. done. Qed.

Lemma dirent_ok i nm : 0 <= i < 2 ^ 16 -> bytes nm -> zlen (dirent i nm) = 16 /\ bytes (dirent i nm).
Proof. intros Hi Hb. rewrite dirent_new by done. split; [apply new_dirent_fields|by apply bytes_new_dirent]. Qed.

Definition with_file (n : Z) (f : list Z * list (list Z)) (c : Z -> list Z) : Z -> list Z :=
  upd (upd c ROOTINO (c ROOTINO ++ dirent n (short_name (fst f)))) n (fdata f).

Lemma add_file_ok s n dis c f : mkinv s n dis c -> 2 <= n < NINODES -> file_ok f -> zlen (c ROOTINO) + 16 <= MAXFILE * BSIZE ->
  let fb' := m_freeblock s + nblk (zlen (c ROOTINO) + 16) - nblk (zlen (c ROOTINO)) + nblk (zlen (fdata f)) in fb' <= FSSIZE ->
  exists s' dis', add_file ROOTINO (fpieces f) s = Ok (tt, s') /\ mkinv s' (n + 1) dis' (with_file n f c) /\ m_freeblock s' = fb'.
Proof.
  intros Hinv Hn [[Hsl Hnm] [Hps Hmax]] Hroot fb' Hsp. unfold fb' in *. set (a := zlen (c ROOTINO)) in *. assert (0 <= nblk (zlen (fdata f))) as Hnb by (apply (nblk_mono 0); lia).
  destruct (ialloc_ok s n dis c T_FILE Hinv) as (s1 & dis1 & Hrun1 & Hinv1 & Efb1); [lia|by rewrite (proj2 (Z.eqb_neq _ _)) by (unfold ROOTINO; lia)|].
  destruct (dirent_ok n (short_name (fst f))) as [Hdl Hdb]; [mklia|by apply bytes_short_name|].
  destruct (iappend_ok s1 (n + 1) dis1 c ROOTINO (dirent n (short_name (fst f))) Hinv1) as (s2 & dis2 & Hrun2 & Hinv2 & Efb2); [unfold ROOTINO; lia|done|fold a; lia|fold a; rewrite Hdl, Efb1; lia|]. fold a in Efb2. rewrite Hdl, Efb1 in Efb2.
  set (c2 := upd c ROOTINO _) in *. assert (c2 n = []) as En by (unfold c2; rewrite upd_ne by (unfold ROOTINO; lia); by apply (mi_blank _ _ _ _ Hinv); lia).
  destruct (pieces_ok (n + 1) n ltac:(lia) (snd f) s2 dis2 c2 Hinv2 Hps) as (s3 & dis3 & Hrun3 & Hinv3 & Efb3); [rewrite En; done|rewrite En, Efb2; change (nblk (zlen [])) with 0; cbn [length]; rewrite Z.add_0_l; fold (fdata f); lia|]. rewrite En in Efb3, Hinv3. change (nblk (zlen [])) with 0 in Efb3. cbn [length] in Efb3. rewrite Z.add_0_l in Efb3. fold (fdata f) in Efb3.
  exists s3, dis3. split_and!; [|exact Hinv3|lia]. unfold add_file, fpieces. cbn [fst snd]. rewrite bool_decide_false by done. mcomp. mstep Hrun1. mstep Hrun2. exact Hrun3.
Qed.

Fixpoint filled (n : Z) (files : list (list Z * list (list Z))) (c : Z -> list Z) : Z -> list Z :=
  match files with
  | [] => c
  | f :: files => filled (n + 1) files (with_file n f c)
  end.

Definition data_blocks (files : list (list Z * list (list Z))) : Z := foldr Z.add 0 ((fun f => nblk (zlen (fdata f))) <$> files).

Lemma data_blocks_pos files : 0 <= data_blocks files.
Proof. unfold data_blocks. induction files as [|f files IH]; cbn; [done|]. pose proof (nblk_mono 0 (zlen (fdata f)) ltac:(lia)). change (nblk 0) with 0 in *. lia. Qed.

Lemma with_file_root n f c : 2 <= n < NINODES -> bytes (fst f) -> zlen (with_file n f c ROOTINO) = zlen (c ROOTINO) + 16.
Proof.
  intros Hn Hb. unfold with_file. rewrite upd_ne, upd_eq, length_app by (unfold ROOTINO; lia). destruct (dirent_ok n (short_name (fst f))) as [Hl _]; [mklia|by apply bytes_short_name|]. lia.
Qed.

Lemma files_ok : forall files n s dis c, mkinv s n dis c -> 2 <= n -> n + zlen files <= NINODES -> Forall file_ok files ->
  zlen (c ROOTINO) + 16 * zlen files <= MAXFILE * BSIZE ->
  let fb' := m_freeblock s + nblk (zlen (c ROOTINO) + 16 * zlen files) - nblk (zlen (c ROOTINO)) + data_blocks files in fb' <= FSSIZE ->
  exists s' dis', mfor (fpieces <$> files) (add_file ROOTINO) s = Ok (tt, s') /\ mkinv s' (n + zlen files) dis' (filled n files c) /\ m_freeblock s' = fb'.
Proof.
  induction files as [|f files IH]; intros n s dis c Hinv Hn Hlen Hok Hmax fb' Hsp; unfold fb' in *.
  { exists s, dis. cbn in *. rewrite !Z.add_0_r. split_and!; [done|done|lia]. }
  apply Forall_cons in Hok as [Hf Hok]. cbn [length] in *. change (data_blocks (f :: files)) with (nblk (zlen (fdata f)) + data_blocks files) in *. set (a := zlen (c ROOTINO)) in *. pose proof (data_blocks_pos files) as Hdp. pose proof (nblk_mono (a + 16) (a + 16 * Z.of_nat (S (length files))) ltac:(lia)) as Hm.
  destruct (add_file_ok s n dis c f Hinv) as (s1 & dis1 & Hrun1 & Hinv1 & Efb1); [lia|done|fold a; lia|fold a; lia|]. fold a in Efb1. assert (zlen (with_file n f c ROOTINO) = a + 16) as Er by (apply with_file_root; [lia|apply Hf]).
  destruct (IH (n + 1) s1 dis1 (with_file n f c) Hinv1) as (s2 & dis2 & Hrun2 & Hinv2 & Efb2); [lia|lia|done|lia|rewrite Er, Efb1; replace (a + 16 + 16 * zlen files) with (a + 16 * Z.of_nat (S (length files))) by lia; lia|].
  exists s2, dis2. split_and!.
  - cbn [fmap list_fmap mfor]. by mstep Hrun1.
  - replace (n + Z.of_nat (S (length files))) with (n + 1 + zlen files) by lia. exact Hinv2.
  - rewrite Efb2, Er, Efb1. replace (a + 16 + 16 * zlen files) with (a + 16 * Z.of_nat (S (length files))) by lia. lia.
Qed.
