(* ===== verification/MkfsTop.v ===== *)
(** * The disk image of [mkfs]

    [main] of [mkfs.c] returns, and the image is a file system on which the theorems about
    the kernel hold: the inodes and the bitmap are consistent, the root directory has the
    files under their names, and the files have their contents. *)

From S2P Require Import Prelude Bytes Riscv Cache Blocks Fs FsSpec FsFile FsDir FsPath Mkfs MkfsSpec MkfsAppend MkfsFiles.

(** ** The start *)

Lemma clear_run k : (k <= 1000)%nat ->
  exists v, mfor (upto (Z.of_nat k)) (fun i => wsect i zeroes) mk_start = Ok (tt, Mk v (Z.of_nat k) 1 mk_nmeta) /\ forall b, v b = zeroes.
Proof.
  induction k as [|k IH]; intros Hk; [by eexists|]. destruct IH as (v & Hrun & Hv); [lia|]. exists (upd v (Z.of_nat k) zeroes). split.
  - rewrite Nat2Z.inj_succ, <- Z.add_1_r, upto_S by lia. rewrite (mfor_app_ok _ _ _ _ _ Hrun). cbn [mfor]. erewrite bind_ok; [|reflexivity]. unfold ret. cbn [m_disk m_len m_freeinode m_freeblock]. rewrite sector_small by mklia. by rewrite Z.max_r by lia.
  - intros b. unfold upd. by destruct (_ =? _).
Qed.

Lemma get_dinode_zeroes k : get_dinode zeroes k = blank.
Proof. unfold get_dinode. rewrite !get_zeroes. unfold blank. f_equal. rewrite (list_fmap_ext _ (fun _ => 0)) by (intros; apply get_zeroes). reflexivity. Qed.

Lemma blank_addr k : d_addr blank k = 0.
Proof. unfold d_addr, blank. cbn [di_addrs]. rewrite nth_lookup. destruct (replicate 13 0 !! Z.to_nat k) as [x|] eqn:E; [|done]. by apply lookup_replicate in E as [-> _]. Qed.

Lemma blank_slot v s : slot v blank s = 0.
Proof. unfold slot, baddr. rewrite !blank_addr. by zcase. Qed.

Lemma sb_block_ok : length sb_block = 1024%nat /\ bytes sb_block /\ sb_of sb_block = mk_sb.
Proof.
  split; [reflexivity|]. split; [|reflexivity]. apply bytes_splice; [apply wf_zeroes|]. unfold sb_bytes. repeat (apply Forall_app_2; [apply bytes_le_put|]). apply bytes_le_put.
Qed.

Lemma start_inv v : (forall b, v b = zeroes) -> mkinv (Mk (upd v 1 sb_block) FSSIZE 1 mk_nmeta) 1 (fun _ => blank) (fun _ => []).
Proof.
  intros Hv. destruct sb_block_ok as (Hl & Hb & _). assert (forall s, 0 <= s <= ind_slot -> used (fun _ => []) 0 s = false) as HU by (intros s Hs; unfold used, need; cbn [length]; zcase; try done; flia).
  split; cbn [m_disk m_len m_freeinode m_freeblock].
  - done.
  - mklia.
  - apply laid_meta; [|mklia|done|done]. split.
    + intros b. rewrite Hv. apply wf_zeroes.
    + mklia.
    + intros i. split; cbn; try lia. by repeat constructor.
    + intros i s Hs. change (used (fun _ => []) i s) with (used (fun _ => []) 0 s). rewrite HU by done. apply blank_slot.
    + intros i j s t Hs Ht H. change (used (fun _ => []) i s) with (used (fun _ => []) 0 s) in H. by rewrite HU in H.
    + intros b Hb'. lia.
    + intros i k Hk H. change (used (fun _ => []) i (k / BSIZE)) with (used (fun _ => []) 0 (k / BSIZE)) in H. rewrite HU in H; [done|mklia].
    + intros b _. apply Hv.
  - intros j Hj. unfold disk_inode. destruct (iblock_mk j Hj) as [E Hr]. rewrite upd_ne, Hv by (rewrite E; lia). apply get_dinode_zeroes.
  - intros j. cbn. mklia.
  - intros j Hj. lia.
  - done.
  - apply upd_eq.
  - intros b Hb'. rewrite upd_ne by lia. apply Hv.
Qed.

(** The root directory before the files. *)
Definition dots : list Z := dirent ROOTINO [46] ++ dirent ROOTINO [46; 46].

Lemma prologue_ok : exists s dis c, (mfor (upto FSSIZE) (fun i => wsect i zeroes) ;; wsect 1 (splice zeroes 0 (sb_bytes mk_sb)) ;;
    let! rootino := mk_ialloc T_DIR in panic_if (negb (rootino =? ROOTINO)) "assert" ;; iappend rootino (dirent rootino [46]) ;; iappend rootino (dirent rootino [46; 46]) ;; ret rootino) mk_start = Ok (ROOTINO, s) /\
  mkinv s 2 dis c /\ m_freeblock s = mk_nmeta + 1 /\ c ROOTINO = dots.
Proof.
  destruct (clear_run 1000 ltac:(lia)) as (v & Hrun & Hv). pose proof (start_inv v Hv) as Hinv0. destruct (ialloc_ok _ _ _ _ T_DIR Hinv0) as (s1 & dis1 & Hrun1 & Hinv1 & Efb1); [mklia|done|]. cbn [m_freeblock] in Efb1. change (1 + 1) with 2 in Hinv1.
  destruct (iappend_ok s1 2 dis1 _ ROOTINO (dirent ROOTINO [46]) Hinv1) as (s2 & dis2 & Hrun2 & Hinv2 & Efb2); [unfold ROOTINO; lia|by apply dirent_ok; [unfold ROOTINO; lia|repeat constructor]|vm_compute; done|rewrite Efb1; vm_compute; done|].
  destruct (iappend_ok s2 2 dis2 _ ROOTINO (dirent ROOTINO [46; 46]) Hinv2) as (s3 & dis3 & Hrun3 & Hinv3 & Efb3); [unfold ROOTINO; lia|by apply dirent_ok; [unfold ROOTINO; lia|repeat constructor]|vm_compute; done|rewrite Efb2, Efb1; vm_compute; done|].
  eexists s3, dis3, _. split_and!; [|exact Hinv3|rewrite Efb3, Efb2, Efb1; reflexivity|reflexivity].
  mstep Hrun. mstep (wsect_run v 1 mk_nmeta 1 sb_block); [|mklia]. mstep Hrun1. mcomp. mstep Hrun2. by mstep Hrun3.
Qed.

(** ** The end *)

Definition mark (buf : block) (i : Z) : block := set_byte buf (i / 8) (Z.lor (byte_at buf (i / 8)) (Z.shiftl 1 (i mod 8))).

Lemma bblock_mk b : 0 <= b < FSSIZE -> BBLOCK b mk_sb = 45.
Proof. intros Hb. unfold BBLOCK. change BPB with 8192. change (sb_bmapstart mk_sb) with 45. rewrite Z.div_small by mklia. done. Qed.

(** The bitmap that [balloc] writes. *)
Lemma bitmap_bits v k : wf_view v -> (k <= 1000)%nat -> let bm := foldl mark zeroes (upto (Z.of_nat k)) in
  (length bm = 1024%nat /\ bytes bm) /\ forall b, 0 <= b < FSSIZE -> bit (upd v 45 bm) mk_sb b = (b <? Z.of_nat k).
Proof.
  intros Hv. induction k as [|k IH]; intros Hk bm.
  { split; [apply wf_zeroes|]. intros b Hb. unfold bit. rewrite bblock_mk, upd_eq by done. cbn [upto fmap list_fmap foldl bm Z.of_nat]. unfold bm. cbn. rewrite byte_zeroes, Z.bits_0. symmetry. apply Z.ltb_ge. lia. }
  unfold bm. rewrite Nat2Z.inj_succ, <- Z.add_1_r, upto_S, foldl_app by lia. cbn [foldl]. destruct IH as [[Hl Hb] Hbit]; [lia|]. set (bm0 := foldl mark zeroes (upto (Z.of_nat k))) in *. split.
  { split; [unfold mark; by rewrite length_set_byte|by apply bytes_set_byte]. }
  intros b Hb'. assert (mark bm0 (Z.of_nat k) = set_bit bm0 (Z.of_nat k)) as -> by (unfold mark, set_bit; change BPB with 8192; by rewrite (Z.mod_small (Z.of_nat k) 8192) by lia).
  pose proof (bit_set mk_sb wf_mk_sb (upd v 45 bm0) (Z.of_nat k) b) as E. rewrite (bblock_mk (Z.of_nat k)), upd_eq, Hbit in E by mklia. assert (bit (upd v 45 (set_bit bm0 (Z.of_nat k))) mk_sb b = bit (upd (upd v 45 bm0) 45 (set_bit bm0 (Z.of_nat k))) mk_sb b) as ->.
  { unfold bit. by rewrite !bblock_mk, !upd_eq by done. }
  change (sb_size mk_sb) with FSSIZE in E. rewrite E; [zcase; try done; lia|by apply wf_view_upd|mklia|done].
Qed.

Record sealed (v : Z -> block) (fb n : Z) (dis : Z -> dinode) (c : Z -> list Z) : Prop := {
  se_n : 2 <= n <= NINODES;
  se_laid : laid v fb dis (used c) c;
  se_inode j : 0 <= j < NINODES -> disk_inode v mk_sb j = dis j;
  se_root : di_size (dis ROOTINO) = (zlen (c ROOTINO) / BSIZE + 1) * BSIZE /\ di_size (dis ROOTINO) <= MAXFILE * BSIZE;
  se_size j : j <> ROOTINO -> di_size (dis j) = zlen (c j) /\ zlen (c j) <= MAXFILE * BSIZE;
  se_kind j : 1 <= j < n -> di_type (dis j) = (if j =? ROOTINO then T_DIR else T_FILE) /\ di_nlink (dis j) = 1;
  se_blank j : ~ (1 <= j < n) -> dis j = blank /\ c j = [];
  se_sb : v 1 = sb_block;
  se_zero b : b = 0 \/ 2 <= b < 32 -> v b = zeroes;
  se_bit b : 0 <= b < FSSIZE -> bit v mk_sb b = (b <? fb);
}.

Lemma fix_root_run s n dis c : mkinv s n dis c -> 2 <= n -> zlen (c ROOTINO) < MAXFILE * BSIZE ->
  let x := with_size ((zlen (c ROOTINO) / BSIZE + 1) * BSIZE) (dis ROOTINO) in
  wf_dinode x /\ fix_root ROOTINO s = Ok (tt, Mk (upd (m_disk s) (IBLOCK ROOTINO mk_sb) (put_dinode (m_disk s (IBLOCK ROOTINO mk_sb)) (ROOTINO mod IPB) x)) FSSIZE n (m_freeblock s)).
Proof.
  intros [Hlen [Hfi Hn] HL Hino Hsize Hkind Hblank Hsb Hz] Hn2 Hmax x. destruct s as [v len fi fb]. cbn in Hlen, Hfi, HL, Hino, Hsb, Hz. subst len fi. destruct (Hsize ROOTINO) as [Es _]. assert (0 <= ROOTINO < NINODES) as Hr by (unfold ROOTINO; mklia). split.
  - destruct (la_wf _ _ _ _ _ HL ROOTINO) as [W1 W2 W3 W4 W5 W6 W7]. split; cbn; try done. mklia.
  - unfold fix_root. mstep (rinode_run v n fb ROOTINO Hr). rewrite Hino, Es by done. cbn [m_disk m_freeblock]. rewrite (xint_small (zlen _)) by mklia. rewrite u32_small, xint_small by mklia. by apply winode_run.
Qed.

Lemma seal_ok s n dis c : mkinv s n dis c -> 2 <= n -> zlen (c ROOTINO) < MAXFILE * BSIZE ->
  exists s' dis', (fix_root ROOTINO ;; let! freeblock := gets m_freeblock in mk_balloc freeblock) s = Ok (tt, s') /\ m_len s' = FSSIZE /\ sealed (m_disk s') (m_freeblock s) n dis' c.
Proof.
  intros Hinv Hn2 Hmax. destruct (fix_root_run s n dis c Hinv Hn2 Hmax) as [Hx Hrun]. set (x := with_size _ (dis ROOTINO)) in *. pose proof Hinv as [Hlen [Hfi Hn] HL Hino Hsize Hkind Hblank Hsb Hz]. assert (0 <= ROOTINO < NINODES) as Hr by (unfold ROOTINO; mklia). destruct (iblock_mk ROOTINO Hr) as [Ei Hri].
  assert (laid (m_disk s) (m_freeblock s) (upd dis ROOTINO x) (used c) c) as HL1. { eapply laid_addrs; [exact HL|]. intros i. unfold upd. destruct (Z.eqb_spec i ROOTINO) as [->|]; [done|]. split; [apply (la_wf _ _ _ _ _ HL)|done]. }
  set (v1 := upd (m_disk s) _ _) in Hrun. assert (laid v1 (m_freeblock s) (upd dis ROOTINO x) (used c) c) as HL2.
  { destruct (la_view _ _ _ _ _ HL (IBLOCK ROOTINO mk_sb)) as [Hl Hb]. apply laid_meta; [done|rewrite Ei; mklia|apply length_put_dinode; [done|apply Z.mod_pos_bound; fslia|done]|by apply bytes_put_dinode]. }
  pose proof (fb_range HL) as Hfb. set (fb := m_freeblock s) in *. destruct (bitmap_bits v1 (Z.to_nat fb) (la_view _ _ _ _ _ HL2) ltac:(lia)) as [[Hbl Hbb] Hbit]. rewrite Z2Nat.id in * by lia. set (bm := foldl mark zeroes (upto fb)) in *.
  exists (Mk (upd v1 45 bm) FSSIZE n fb), (upd dis ROOTINO x). split_and!; [|done|].
  - mstep Hrun. mcomp. unfold mk_balloc. cbn [m_freeblock]. rewrite (proj2 (Z.leb_gt _ _)) by fslia. mcomp. change (sb_bmapstart mk_sb) with 45. apply (wsect_run v1 n fb 45 bm). mklia.
  - cbn [m_disk]. split; [lia|by apply laid_meta; [|mklia| |]|..].
    + intros j Hj. unfold disk_inode. destruct (iblock_mk j Hj) as [Ej Hrj]. rewrite upd_ne by (rewrite Ej; lia). fold (disk_inode v1 mk_sb j). unfold v1. rewrite inode_upd by (done || apply (la_view _ _ _ _ _ HL)). unfold upd. destruct (j =? ROOTINO); [done|by apply Hino].
    + rewrite upd_eq. cbn. mklia.
    + intros j Hj. rewrite upd_ne by done. apply Hsize.
    + intros j Hj. pose proof (Hkind j Hj) as H. unfold upd. by destruct (Z.eqb_spec j ROOTINO) as [->|].
    + intros j Hj. rewrite upd_ne by (unfold ROOTINO; lia). by apply Hblank.
    + rewrite upd_ne by lia. unfold v1. by rewrite upd_ne by (rewrite Ei; lia).
    + intros b Hb. rewrite upd_ne by lia. unfold v1. rewrite upd_ne by (rewrite Ei; lia). apply Hz. lia.
    + exact Hbit.
Qed.

(** ** What the image holds *)

Section Image.
Context {v : Z -> block} {fb n : Z} {dis : Z -> dinode} {c : Z -> list Z} (HS : sealed v fb n dis c).
Let HL := se_laid _ _ _ _ _ HS.

Lemma image_slots j : wf_slots mk_sb v (dis j).
Proof.
  pose proof (fb_range HL) as Hfb. split; [apply (la_wf _ _ _ _ _ HL)|..].
  - intros s Hs Hn. apply (slot_nz HL) in Hn; [|done]. pose proof (slot_used HL j s Hs Hn) as Hr. change (nmeta mk_sb) with mk_nmeta. change (sb_size mk_sb) with FSSIZE. split; [mklia|]. rewrite (se_bit _ _ _ _ _ HS) by mklia. apply Z.ltb_lt. lia.
  - intros s t Hs Ht Hn E. pose proof (slot_nz HL j s Hs Hn) as HUs. rewrite E in Hn. pose proof (slot_nz HL j t Ht Hn) as HUt. by apply (la_inj _ _ _ _ _ HL j j s t).
Qed.

Lemma image_owns j b : owns v (dis j) b <-> exists s, 0 <= s <= ind_slot /\ used c j s = true /\ slot v (dis j) s = b.
Proof.
  split.
  - intros (Hb & s & Hs & E). exists s. split_and!; [lia|lia| |done]. apply (slot_nz HL); [done|by rewrite E].
  - intros (s & Hs & HU & <-). pose proof (slot_used HL j s Hs HU). split; [mklia|by exists s].
Qed.

Lemma image_byte j k : 0 <= k < MAXFILE * BSIZE -> fbyte v (dis j) k = nth (Z.to_nat k) (c j) 0.
Proof.
  intros Hk. destruct (used c j (k / BSIZE)) eqn:HU; [by apply (la_data _ _ _ _ _ HL)|]. rewrite fbyte_slot, (slot_unused HL) by (done || mklia). rewrite (se_zero _ _ _ _ _ HS), byte_zeroes by (by left). symmetry. apply nth_overflow. unfold used, need in HU. rewrite (proj2 (Z.eqb_neq _ _)) in HU by mklia. bsplit. fslia.
Qed.

(** The bytes of a file, and zeroes up to its size. *)
Lemma image_content j z : di_size (dis j) = zlen (c j) + Z.of_nat z -> di_size (dis j) <= MAXFILE * BSIZE -> content v (dis j) = c j ++ replicate z 0.
Proof.
  intros Es Hm. unfold content. apply list_eq_same_length with (n := (length (c j) + z)%nat); [by rewrite length_app, length_replicate|rewrite length_fmap, length_upto; lia|].
  intros i x y Hi Hx Hy. rewrite list_lookup_fmap in Hx. pose proof (upto_lookup (di_size (dis j)) (Z.of_nat i) ltac:(lia)) as Hu. rewrite Nat2Z.id in Hu. rewrite Hu in Hx. cbn in Hx. injection Hx as <-. rewrite image_byte by lia. rewrite Nat2Z.id, nth_lookup.
  rewrite lookup_app in Hy. destruct (c j !! i); cbn; [congruence|]. by apply lookup_replicate in Hy as [-> _].
Qed.

Lemma image_file j : 1 <= j < n -> j <> ROOTINO -> wf_file mk_sb v (dis j) /\ content v (dis j) = c j.
Proof.
  intros Hj Hne. destruct (se_size _ _ _ _ _ HS j Hne) as [Es Hm]. split.
  - split; [apply image_slots|lia|]. intros bn Hb Hlt. assert (bn < ind_slot) as Hbn by mklia. assert (used c j bn = true) as HU by (unfold used, need; rewrite (proj2 (Z.eqb_neq _ _)) by lia; apply Z.ltb_lt; lia). pose proof (slot_used HL j bn ltac:(lia) HU) as Hr. unfold slot in Hr. rewrite (proj2 (Z.eqb_neq _ _)) in Hr by lia. mklia.
  - rewrite (image_content j 0) by lia. apply app_nil_r.
Qed.

(** The last block of the root directory is missing if its entries fill whole blocks. *)
Lemma image_root : wf_file mk_sb v (dis ROOTINO) <-> zlen (c ROOTINO) mod BSIZE <> 0.
Proof.
  destruct (se_root _ _ _ _ _ HS) as [Es Hm]. set (a := zlen (c ROOTINO)) in *. assert (0 <= a / BSIZE < ind_slot) as Hb by (unfold a in *; mklia). assert (baddr v (dis ROOTINO) (a / BSIZE) = slot v (dis ROOTINO) (a / BSIZE)) as Eb by (unfold slot; by rewrite (proj2 (Z.eqb_neq _ _)) by lia). split.
  - intros [_ _ Hal] Em. apply (Hal (a / BSIZE)); [lia|fslia|]. rewrite Eb. apply (slot_unused HL); [lia|]. unfold used, need. rewrite (proj2 (Z.eqb_neq _ _)) by lia. fold a. apply Z.ltb_ge. fslia.
  - intros Em. split; [apply image_slots|done|]. intros bn Hbn Hlt. assert (used c ROOTINO bn = true) as HU by (unfold used, need; rewrite (proj2 (Z.eqb_neq _ _)) by mklia; fold a; apply Z.ltb_lt; fslia). pose proof (slot_used HL ROOTINO bn ltac:(mklia) HU) as Hr. unfold slot in Hr. rewrite (proj2 (Z.eqb_neq _ _)) in Hr by mklia. mklia.
Qed.

Lemma image_bits b : 0 <= b < FSSIZE -> bit v mk_sb b = true <-> b < mk_nmeta \/ exists j, 0 <= j < NINODES /\ owns v (disk_inode v mk_sb j) b.
Proof.
  intros Hb. pose proof (fb_range HL) as Hfb. pose proof (se_n _ _ _ _ _ HS) as Hn. rewrite (se_bit _ _ _ _ _ HS) by done. rewrite Z.ltb_lt. split.
  - intros Hlt. destruct (Z.lt_ge_cases b mk_nmeta) as [|Hge]; [by left|right]. destruct (la_onto _ _ _ _ _ HL b ltac:(lia)) as (j & s & Hs & HU & E). assert (1 <= j < n) as Hj.
    { destruct (decide (1 <= j < n)) as [|Hnj]; [done|]. destruct (se_blank _ _ _ _ _ HS j Hnj) as [_ Ec]. unfold used, need in HU. rewrite Ec in HU. cbn [length] in HU. destruct (s =? ind_slot); bsplit; fslia. }
    exists j. split; [lia|]. rewrite (se_inode _ _ _ _ _ HS) by lia. apply image_owns. by exists s.
  - intros [|(j & Hj & Ho)]; [mklia|]. rewrite (se_inode _ _ _ _ _ HS) in Ho by done. apply image_owns in Ho as (s & Hs & HU & <-). by apply (slot_used HL).
Qed.

Lemma image_apart i j b : 0 <= i < NINODES -> 0 <= j < NINODES -> owns v (disk_inode v mk_sb i) b -> owns v (disk_inode v mk_sb j) b -> i = j.
Proof.
  intros Hi Hj. rewrite !(se_inode _ _ _ _ _ HS) by done. rewrite !image_owns. intros (s & Hs & HU & E) (t & Ht & HUt & E'). by destruct (la_inj _ _ _ _ _ HL i j s t Hs Ht HU HUt) as [-> _]; [congruence|].
Qed.

Lemma image_fs a : t_view a = v -> (forall b, fs_block mk_sb b -> t_home a b = true) -> fs_ok mk_sb a.
Proof.
  intros Ev Hh. pose proof (fb_range HL) as Hfb. split; [apply wf_mk_sb|rewrite Ev; apply (la_view _ _ _ _ _ HL)| |done]. intros b Hb. change (nmeta mk_sb) with 46 in Hb. rewrite Ev, (se_bit _ _ _ _ _ HS) by mklia. apply Z.ltb_lt. lia.
Qed.
End Image.
