(* ===== verification/MkfsImage.v ===== *)
(** * The files of the disk image

    The root directory that [mkfs] makes, as the kernel looks names up in it, and the theorem
    about [mkfs]. *)

From S2P Require Import Prelude Bytes Riscv Cache Blocks Fs FsSpec FsFile FsDir FsPath Mkfs MkfsSpec MkfsAppend MkfsFiles MkfsTop.

(** ** Directory entries *)

Fixpoint ents (n : Z) (files : list (list Z * list (list Z))) : list (list Z * Z) :=
  match files with
  | [] => []
  | f :: files => (short_name (fst f), n) :: ents (n + 1) files
  end.

(** The entries of the root directory: name and inode. *)
Definition root_ents (files : list (list Z * list (list Z))) : list (list Z * Z) := ([46], ROOTINO) :: ([46; 46], ROOTINO) :: ents 2 files.

Definition dirents (es : list (list Z * Z)) : list Z := concat ((fun e => dirent (snd e) (fst e)) <$> es).

(** The inode of the first entry with a name, of which 14 bytes count. *)
Fixpoint lookup_ent (nm : list Z) (es : list (list Z * Z)) : option Z :=
  match es with
  | [] => None
  | (s, i) :: es => if bool_decide (dname s = nm) then Some i else lookup_ent nm es
  end.

Definition ent_ok (e : list Z * Z) : Prop := 0 < snd e < 2 ^ 16.

Lemma length_dirents es : Forall ent_ok es -> length (dirents es) = (16 * length es)%nat.
Proof.
  intros H. induction H as [|e es He _ IH]; [done|]. cbn [dirents fmap list_fmap concat length]. rewrite length_app. fold (dirents es). rewrite IH. unfold ent_ok in He. rewrite dirent_new by lia. destruct (new_dirent_fields (fst e) (snd e)) as [El _]. change dirent_size with 16 in El. lia.
Qed.

Lemma sub_mid (A B C : list Z) off len : off = zlen A -> len = zlen B -> sub (A ++ B ++ C) off len = B.
Proof. intros -> ->. unfold sub. rewrite !Nat2Z.id, drop_app_length, take_app_length. done. Qed.

Lemma dfind_zeros nm z : forall A k m, zlen A = 16 * Z.of_nat k -> (m <= z)%nat -> dfind (A ++ replicate (16 * z) 0) nm (Z.mul 16 <$> (Z.of_nat <$> seq k m)) = None.
Proof.
  induction z as [|z IH]; intros A k m HA Hm; [by replace m with 0%nat by lia|]. destruct m as [|m]; [done|]. cbn [seq fmap list_fmap dfind]. replace (16 * S z)%nat with (16 + 16 * z)%nat by lia. rewrite replicate_add. unfold dtest at 1, dent. rewrite (sub_mid A (replicate 16 0)) by (done || cbn; lia). change (de_inum (replicate 16 0)) with 0. cbn [Z.eqb negb andb]. rewrite app_assoc. apply IH; [rewrite length_app; cbn [length replicate]; lia|lia].
Qed.

Lemma dfind_ents nm z es : Forall ent_ok es -> forall A k, zlen A = 16 * Z.of_nat k -> let d := A ++ dirents es ++ replicate (16 * z) 0 in
  (fun off => de_inum (dent d off)) <$> dfind d nm (Z.mul 16 <$> (Z.of_nat <$> seq k (length es + z))) = lookup_ent nm es.
Proof.
  intros H. induction H as [|[s i] es He _ IH]; intros A k HA d.
  { cbn [length Nat.add lookup_ent]. unfold d. cbn [dirents fmap list_fmap concat app]. by rewrite dfind_zeros. }
  unfold ent_ok in He. cbn [snd] in He. cbn [length Nat.add seq fmap list_fmap dfind lookup_ent]. assert (d = A ++ dirent i s ++ dirents es ++ replicate (16 * z) 0) as Ed by (unfold d, dirents; cbn [fmap list_fmap concat fst snd]; by rewrite <- !app_assoc).
  rewrite (dirent_new i s) in Ed by lia. destruct (new_dirent_fields s i) as (Hl & Hi & Hnm). change dirent_size with 16 in Hl. unfold u16 in Hi. rewrite Z.mod_small in Hi by lia. assert (dent d (16 * Z.of_nat k) = new_dirent s i) as Edent by (unfold dent; rewrite Ed; apply sub_mid; [lia|by rewrite Hl]).
  unfold dtest at 1. rewrite Edent, Hi, Hnm, (proj2 (Z.eqb_neq i 0)) by lia. cbn [negb andb]. destruct (bool_decide (dname s = nm)) eqn:Eb.
  - cbn. f_equal. by rewrite Edent, Hi.
  - specialize (IH (A ++ new_dirent s i) (S k)). rewrite <- !app_assoc, <- Ed in IH. apply IH. rewrite length_app. lia.
Qed.

Lemma dir_lookup_ents nm es z : Forall ent_ok es -> dir_lookup (dirents es ++ replicate (16 * z) 0) nm = lookup_ent nm es.
Proof.
  intros H. pose proof (dfind_ents nm z es H [] 0%nat eq_refl) as E. cbn [app] in E. rewrite <- E. unfold dir_lookup, dir_find. f_equal. f_equal. unfold dir_offs. change dirent_size with 16. f_equal. unfold upto. rewrite length_app, length_dirents, length_replicate by done. do 2 f_equal. dlia.
Qed.

(** ** The contents of the files *)

Lemma filled_root : forall files n c, 2 <= n -> filled n files c ROOTINO = c ROOTINO ++ dirents (ents n files).
Proof.
  induction files as [|f files IH]; intros n c Hn; [by rewrite app_nil_r|]. cbn [filled ents dirents fmap list_fmap concat fst snd]. rewrite IH by lia. unfold with_file. rewrite upd_ne, upd_eq by (unfold ROOTINO; lia). by rewrite <- app_assoc.
Qed.

Lemma filled_other : forall files n c j, j < n -> j <> ROOTINO -> filled n files c j = c j.
Proof. induction files as [|f files IH]; intros n c j Hj Hne; [done|]. cbn [filled]. rewrite IH by (done || lia). unfold with_file. by rewrite !upd_ne by (done || lia). Qed.

Lemma filled_file : forall files n c k f, 2 <= n -> files !! k = Some f -> filled n files c (n + Z.of_nat k) = fdata f.
Proof.
  induction files as [|f0 files IH]; intros n c k f Hn Hk; [done|]. cbn [filled]. destruct k as [|k].
  - injection Hk as ->. rewrite filled_other by (unfold ROOTINO; lia). rewrite Z.add_0_r. apply upd_eq.
  - replace (n + Z.of_nat (S k)) with (n + 1 + Z.of_nat k) by lia. apply IH; [lia|done].
Qed.

Lemma ents_ok : forall files n, 0 < n -> n + zlen files <= NINODES -> Forall ent_ok (ents n files) /\ length (ents n files) = length files.
Proof.
  induction files as [|f files IH]; intros n Hn Hl; [done|]. cbn [ents length] in *. destruct (IH (n + 1)) as [H1 H2]; [lia|lia|]. split; [|by rewrite H2]. constructor; [unfold ent_ok; cbn; mklia|done].
Qed.

Lemma ents_range : forall files n nm i, lookup_ent nm (ents n files) = Some i -> n <= i < n + zlen files.
Proof.
  induction files as [|f files IH]; intros n nm i; [done|]. cbn [ents lookup_ent length]. destruct (bool_decide _); [intros [= <-]; lia|]. intros H. apply IH in H. lia.
Qed.

(** ** The image *)

Record image_ok (files : list (list Z * list (list Z))) (v : Z -> block) : Prop := {
  (* the superblock, and a log that is empty *)
  im_sb : sb_of (v 1) = mk_sb;
  im_log b : sb_logstart mk_sb <= b < sb_logstart mk_sb + sb_nlog mk_sb -> v b = zeroes;
  (* what a transaction of the kernel starts from *)
  im_fs a : t_view a = v -> (forall b, fs_block mk_sb b -> t_home a b = true) -> fs_ok mk_sb a;
  (* the files and their names, up to 14 bytes of them *)
  im_file k f : files !! k = Some f -> let d := disk_inode v mk_sb (2 + Z.of_nat k) in
    di_type d = T_FILE /\ di_nlink d = 1 /\ wf_file mk_sb v d /\ content v d = fdata f;
  im_root : di_type (disk_inode v mk_sb ROOTINO) = T_DIR /\ di_nlink (disk_inode v mk_sb ROOTINO) = 1;
  im_walk e : path_walk mk_sb v false ROOTINO [e] = lookup_ent (take 14 e) (root_ents files);
  im_unused j : j = 0 \/ 2 + zlen files <= j < NINODES -> di_type (disk_inode v mk_sb j) = 0;
  (* the blocks in use have one owner each *)
  im_bits b : 0 <= b < FSSIZE -> bit v mk_sb b = true <-> b < mk_nmeta \/ exists j, 0 <= j < NINODES /\ owns v (disk_inode v mk_sb j) b;
  im_apart i j b : 0 <= i < NINODES -> 0 <= j < NINODES -> owns v (disk_inode v mk_sb i) b -> owns v (disk_inode v mk_sb j) b -> i = j;
  (* the directories, unless the entries of the root fill whole blocks *)
  im_tree : tree_ok mk_sb v <-> (zlen files + 2) mod 64 <> 0;
}.

Section Files.
Context {files : list (list Z * list (list Z))} {v : Z -> block} {fb : Z} {dis : Z -> dinode} {c : Z -> list Z}.
Context (HS : sealed v fb (2 + zlen files) dis c) (Hroot : c ROOTINO = dirents (root_ents files)) (Hfile : forall k f, files !! k = Some f -> c (2 + Z.of_nat k) = fdata f).
Let root := disk_inode v mk_sb ROOTINO.

Lemma root_ents_ok : Forall ent_ok (root_ents files) /\ length (root_ents files) = (2 + length files)%nat.
Proof.
  pose proof (se_n _ _ _ _ _ HS). destruct (ents_ok files 2) as [H1 H2]; [lia|lia|]. split; [|cbn; by rewrite H2]. constructor; [done|]. constructor; [done|exact H1].
Qed.

Lemma root_dis : root = dis ROOTINO.
Proof. apply (se_inode _ _ _ _ _ HS). unfold ROOTINO. mklia. Qed.

Lemma root_lookup nm : dir_lookup (content v root) nm = lookup_ent nm (root_ents files).
Proof.
  destruct root_ents_ok as [Hok Hl]. destruct (se_root _ _ _ _ _ HS) as [Es Hm]. pose proof (length_dirents _ Hok) as El. rewrite <- Hroot, Hl in El. rewrite root_dis.
  set (z := (64 * (Z.to_nat (zlen (c ROOTINO) / BSIZE) + 1) - (2 + length files))%nat). rewrite (image_content HS ROOTINO (16 * z)), Hroot by (unfold z; fslia). by apply dir_lookup_ents.
Qed.

Lemma root_entry nm j : dir_lookup (content v root) nm = Some j -> 0 <= j < NINODES /\ di_type (disk_inode v mk_sb j) <> 0.
Proof.
  rewrite root_lookup. pose proof (se_n _ _ _ _ _ HS) as Hn. intros E. assert (1 <= j < 2 + zlen files) as Hj.
  { unfold root_ents in E. cbn [lookup_ent] in E. destruct (bool_decide _); [injection E as <-; unfold ROOTINO; lia|]. destruct (bool_decide _); [injection E as <-; unfold ROOTINO; lia|]. apply ents_range in E. lia. }
  split; [lia|]. rewrite (se_inode _ _ _ _ _ HS) by lia. destruct (se_kind _ _ _ _ _ HS j Hj) as [-> _]. by destruct (j =? ROOTINO).
Qed.

Lemma root_type : di_type root = T_DIR /\ di_nlink root = 1.
Proof. rewrite root_dis. apply (se_kind _ _ _ _ _ HS ROOTINO). unfold ROOTINO. lia. Qed.

(** Only the root is a directory. *)
Lemma only_root i : 0 <= i < NINODES -> di_type (disk_inode v mk_sb i) = T_DIR -> i = ROOTINO.
Proof.
  intros Hi. rewrite (se_inode _ _ _ _ _ HS) by done. destruct (decide (1 <= i < 2 + zlen files)) as [Hj|Hj].
  - destruct (se_kind _ _ _ _ _ HS i Hj) as [-> _]. by destruct (Z.eqb_spec i ROOTINO).
  - destruct (se_blank _ _ _ _ _ HS i Hj) as [-> _]. done.
Qed.

Lemma image_tree : tree_ok mk_sb v <-> (zlen files + 2) mod 64 <> 0.
Proof.
  destruct root_ents_ok as [Hok Hl]. pose proof (length_dirents _ Hok) as El. rewrite <- Hroot, Hl in El. pose proof (image_root HS) as Hr. assert (zlen (c ROOTINO) mod BSIZE <> 0 <-> (zlen files + 2) mod 64 <> 0) as E by (rewrite El; fslia). rewrite E, <- root_dis in Hr. clear E. destruct root_type as [Ht Hnl].
  assert (0 <= ROOTINO < NINODES) as Hri by (unfold ROOTINO; mklia). change (sb_ninodes mk_sb) with NINODES. split.
  - intros [_ Hdir _]. apply Hr. by apply (Hdir ROOTINO Hri Ht).
  - intros Hm. split; change (sb_ninodes mk_sb) with NINODES.
    + intros i Hi. rewrite (se_inode _ _ _ _ _ HS) by done. destruct (decide (1 <= i < 2 + zlen files)) as [Hj|Hj]; [by destruct (se_kind _ _ _ _ _ HS i Hj) as [_ ->]|by destruct (se_blank _ _ _ _ _ HS i Hj) as [-> _]].
    + intros i Hi Hd. rewrite (only_root i Hi Hd). split; [by apply Hr|done|]. fold root. rewrite root_dis. destruct (se_root _ _ _ _ _ HS) as [-> _]. change dirent_size with 16. fslia.
    + intros i nm j Hi Hd. rewrite (only_root i Hi Hd). apply root_entry.
Qed.

Lemma image_ok_sealed : image_ok files v.
Proof.
  pose proof (se_n _ _ _ _ _ HS) as Hn. split.
  - rewrite (se_sb _ _ _ _ _ HS). apply sb_block_ok.
  - intros b Hb. apply (se_zero _ _ _ _ _ HS). right. exact Hb.
  - apply (image_fs HS).
  - intros k f Hk. pose proof (lookup_lt_Some _ _ _ Hk) as Hkl. cbn zeta. rewrite (se_inode _ _ _ _ _ HS) by lia. destruct (se_kind _ _ _ _ _ HS (2 + Z.of_nat k)) as [Ht Hnl]; [lia|]. rewrite (proj2 (Z.eqb_neq _ _)) in Ht by (unfold ROOTINO; lia). destruct (image_file HS (2 + Z.of_nat k)) as [Hw Hc]; [lia|unfold ROOTINO; lia|]. rewrite (Hfile k f Hk) in Hc. done.
  - apply root_type.
  - intros e. cbn [path_walk]. fold root. destruct root_type as [-> _]. cbn [Z.eqb Pos.eqb T_DIR andb]. rewrite root_lookup. by destruct (lookup_ent _ _).
  - intros j Hj. rewrite (se_inode _ _ _ _ _ HS) by mklia. by destruct (se_blank _ _ _ _ _ HS j) as [-> _]; [lia|].
  - apply (image_bits HS).
  - apply (image_apart HS).
  - apply image_tree.
Qed.
End Files.

(** C5. [mkfs] with files whose contents fit on the disk, whose inodes it has, and whose names
    have no slash: it returns, whatever the pieces in which it reads the files, and the image
    is a file system from which the kernel starts.  Every name gives the inode of the first
    file with that name, and the inode has the contents of the file.  A block is marked as
    used exactly if it is before the data blocks or belongs to one inode, and then only to
    that one.  The directories are well-formed unless there are 62 files, or 64 more: then
    the last block of the root directory is missing. *)
Theorem mkfs_correct (files : list (list Z * list (list Z))) (Hok : Forall file_ok files) (Hn : zlen files + 2 <= NINODES)
    (Hfit : mk_nmeta + nblk (16 * (zlen files + 2)) + data_blocks files <= FSSIZE) :
  exists s, mkfs (fpieces <$> files) mk_start = Ok (tt, s) /\ m_len s = FSSIZE /\ image_ok files (m_disk s).
Proof.
  destruct prologue_ok as (s1 & dis1 & c1 & Hrun1 & Hinv1 & Efb1 & Ec1). assert (zlen (c1 ROOTINO) = 32) as El by (by rewrite Ec1).
  destruct (files_ok files 2 s1 dis1 c1 Hinv1) as (s2 & dis2 & Hrun2 & Hinv2 & Efb2); [lia|lia|done|mklia|rewrite El, Efb1; replace (32 + 16 * zlen files) with (16 * (zlen files + 2)) by lia; change (nblk 32) with 1; lia|].
  assert (filled 2 files c1 ROOTINO = dirents (root_ents files)) as Hroot by (rewrite filled_root, Ec1 by lia; unfold dots, root_ents, dirents; cbn [fmap list_fmap concat fst snd]; by rewrite <- app_assoc).
  destruct (seal_ok s2 (2 + zlen files) dis2 _ Hinv2) as (s3 & dis3 & Hrun3 & Hl3 & HS); [lia| |].
  { destruct (ents_ok files 2) as [H1 H2]; [lia|lia|]. rewrite Hroot, length_dirents by (repeat constructor; done). unfold root_ents. cbn [length]. rewrite H2. mklia. }
  exists s3. split_and!; [|done|].
  - apply bind_ok_inv in Hrun1 as (? & ? & Ha & Hrun1). apply bind_ok_inv in Hrun1 as (? & ? & Hb & Hrun1). apply bind_ok_inv in Hrun1 as (r & ? & Hc & Hrun1). apply bind_ok_inv in Hrun1 as (? & ? & Hd & Hrun1). apply bind_ok_inv in Hrun1 as (? & ? & He & Hrun1). apply bind_ok_inv in Hrun1 as (? & ? & Hf & Hrun1). apply ret_inv in Hrun1 as [<- <-].
    unfold mkfs. mstep Ha. mstep Hb. mstep Hc. mstep Hd. mstep He. mstep Hf. mstep Hrun2. exact Hrun3.
  - eapply image_ok_sealed; [exact HS|exact Hroot|]. intros k f Hk. by apply filled_file; [lia|].
Qed.

(** Three files; the second one is read in two pieces. *)
Definition demo_files : list (list Z * list (list Z)) := [(user_prefix ++ [95; 99; 97; 116], [[1; 2; 3]]); ([97], [[1]; [2]]); ([98], [])].

Lemma mkfs_correct_witness : exists s, mkfs (fpieces <$> demo_files) mk_start = Ok (tt, s) /\ content (m_disk s) (disk_inode (m_disk s) mk_sb 3) = [1; 2] /\
  path_walk mk_sb (m_disk s) false ROOTINO [[99; 97; 116]] = Some 2 /\ tree_ok mk_sb (m_disk s).
Proof.
  destruct (mkfs_correct demo_files) as (s & Hrun & _ & Him).
  - repeat constructor; cbn; try lia; try (apply (bool_decide_unpack _); vm_compute; exact I).
  - vm_compute. done.
  - vm_compute. done.
  - exists s. split; [exact Hrun|]. split; [apply (im_file _ _ Him 1 ([97], [[1]; [2]]) eq_refl)|]. split; [rewrite (im_walk _ _ Him); reflexivity|]. apply (im_tree _ _ Him). vm_compute. done.
Defined.
