(* ===== verification/Sysproc.v ===== *)
(** * System calls on processes and the clock

    [kernel/sysproc.c], [syscall] of [kernel/syscall.c] and [clockintr] of [kernel/trap.c], on
    the process table of [Proc].  The arguments are in the trapframe, in physical memory.
    The calls of [sysfile.c] are the parameter [filecall].

    [sys_sleep] is cut where other processes and the clock can come in between: at its lock
    [tickslock] and at [sleep]; [Clock] interleaves the pieces. *)

From S2P Require Import Prelude Bytes Riscv KString Kalloc Vm UserIO Proc ProcSpec.

(** ** [kernel/syscall.h] *)

Definition SYS_fork : Z := 1.
Definition SYS_exit : Z := 2.
Definition SYS_wait : Z := 3.
Definition SYS_kill : Z := 6.
Definition SYS_getpid : Z := 11.
Definition SYS_sbrk : Z := 12.
Definition SYS_sleep : Z := 13.
Definition SYS_uptime : Z := 14.
(** [NELEM(syscalls)] *)
Definition NSYSCALLS : Z := 22.

Definition tf_a7 : Z := 168.

Section Sysproc.
Context {L : Linker} {F : Type} {FO : Files F}.
Context (forkret_addr : Z) (xstate_addr proc_addr : Z -> Z).

(** The address of [ticks], on which [sys_sleep] sleeps. *)
Variable ticks_addr : Z.

Record tst := Tst { t_st : pst (F := F); t_ticks : Z }.

Definition in_pst {A} (m : M (pst (F := F)) A) : M tst A := zoom t_st (fun x s => Tst x (t_ticks s)) m.

(** ** Calls *)

Section Calls.
Variable me : Z.

Definition arg_reg (n : Z) : M tst Z :=
  let! p := in_pst (get_proc me) in
  if (0 <=? n) && (n <? 6) then in_pst (in_phys (gets (fun s => load64 (pmem s) (p_trapframe p + tf_a0 + 8 * n)))) else panic "argraw".

Definition arg_int (n : Z) : M tst Z := let! v := arg_reg n in ret (i32 v).

Definition sys_exit : M tst unit := let! n := arg_int 0 in in_pst (exit proc_addr me n).

Definition sys_getpid : M tst Z := let! p := in_pst (get_proc me) in ret (p_pid p).

Definition sys_fork : M tst Z := in_pst (fork forkret_addr me).

(** One round of the loop of [wait]. *)
Definition sys_wait : M tst pres := let! p := arg_reg 0 in in_pst (wait xstate_addr proc_addr me p).

Definition sys_sbrk : M tst Z :=
  let! n := arg_int 0 in
  let! p := in_pst (get_proc me) in
  let addr := i32 (p_sz p) in
  let! r := in_pst (growproc me n) in
  if r <? 0 then ret (-1) else ret addr.

Definition sys_kill : M tst Z := let! pid := arg_int 0 in in_pst (kill pid).

Definition sys_uptime : M tst Z := gets t_ticks.

(** [ticks0 = ticks], with [tickslock] held. *)
Definition sleep_start : M tst (Z * Z) :=
  let! n := arg_int 0 in
  let! ticks0 := gets t_ticks in
  ret (ticks0, n).

(** The test of the loop, with [tickslock] held: [None] to sleep, or the result.  Both sides
    of the comparison are unsigned. *)
Definition sleep_test (ticks0 n : Z) : M tst (option Z) :=
  let! ticks := gets t_ticks in
  if u32 (ticks - ticks0) <? u32 n then
    let! p := in_pst (get_proc me) in
    if p_killed p then ret (Some (-1)) else ret None
  else ret (Some 0).

(** [sleep(&ticks, &tickslock)] up to [sched]. *)
Definition sleep_ticks : M tst unit := in_pst (sleep_enter me ticks_addr).

(** [sys_sleep] up to its first [sleep]. *)
Definition sys_sleep : M tst pres :=
  let! a := sleep_start in
  let! r := sleep_test (fst a) (snd a) in
  match r with
  | Some v => ret (Returns v)
  | None => sleep_ticks ;; ret Slept
  end.

(** ** [syscall] *)

Variable filecall : Z -> M tst pres.

Definition returns (m : M tst Z) : M tst pres := let! v := m in ret (Returns v).

(** The table; [exit] does not return. *)
Definition syscalls (num : Z) : M tst pres :=
  if num =? SYS_fork then returns sys_fork
  else if num =? SYS_exit then sys_exit ;; ret Slept
  else if num =? SYS_wait then sys_wait
  else if num =? SYS_kill then returns sys_kill
  else if num =? SYS_getpid then returns sys_getpid
  else if num =? SYS_sbrk then returns sys_sbrk
  else if num =? SYS_sleep then sys_sleep
  else if num =? SYS_uptime then returns sys_uptime
  else filecall num.

(** [p->trapframe->a0 = v] *)
Definition set_a0 (v : Z) : M tst unit :=
  let! p := in_pst (get_proc me) in
  in_pst (in_phys (pstore64 (p_trapframe p + tf_a0) v)).

(** Whether the call has returned; the message for an unknown number is left out. *)
Definition syscall : M tst bool :=
  let! p := in_pst (get_proc me) in
  let! a7 := in_pst (in_phys (gets (fun s => load64 (pmem s) (p_trapframe p + tf_a7)))) in
  let num := i32 a7 in
  if (0 <? num) && (num <? NSYSCALLS) then
    let! r := syscalls num in
    match r with
    | Returns v => set_a0 v ;; ret true
    | Slept => ret false
    end
  else set_a0 (-1) ;; ret true.
End Calls.

(** ** The clock *)

Definition clockintr : M tst unit :=
  modify (fun s => Tst (t_st s) (u32 (t_ticks s + 1))) ;;
  in_pst (wakeup ticks_addr).
End Sysproc.
