(* ===== verification/Clock.v ===== *)
(** * Sleeping for a time

    Any interleaving of processes in [sys_sleep], clock interrupts, [kill], [wakeup] and the
    scheduler, at the grain of [tickslock] and of the locks of the processes.  [k_total]
    counts the clock interrupts without wrapping around; it is not part of the program. *)

From S2P Require Import Prelude Bytes Riscv KString Kalloc Vm UserIO Proc ProcSpec Sysproc.

(** A call of [sys_sleep]: [ticks0], [n], and [k_total] at that moment. *)
Record call := Call { c_ticks0 : Z; c_n : Z; c_from : Z }.

(** Where a process is: outside of [sys_sleep], at the test of the loop or before [sleep]
    with [tickslock] held, in [sleep], or after it and waiting for [tickslock]. *)
Inductive spc := Out | Test (c : call) | Enter (c : call) | Asleep (c : call) | Back (c : call).

#[export] Instance call_eq_dec : EqDecision call.
Proof. solve_decision. Defined.
#[export] Instance spc_eq_dec : EqDecision spc.
Proof. solve_decision. Defined.

(** A call that has returned: its result, when, and whether the process was killed. *)
Record retn := Retn { r_call : call; r_val : Z; r_at : Z; r_killed : bool }.

Section Clock.
Context {L : Linker} {F : Type} {FO : Files F} (ticks_addr : Z).
Implicit Types (s : tst (F := F)).

Record cworld := CWorld { k_st : tst (F := F); k_pc : Z -> spc; k_lock : option Z; k_total : Z; k_log : list retn }.

Definition sproc s (i : Z) : proc := procs (t_st s) i.

(** What the rest of the kernel may change of a process in [sys_sleep]. *)
Definition same_run (p q : proc) : Prop := p_state q = p_state p /\ p_chan q = p_chan p /\ p_killed q = p_killed p.

Inductive cstep : cworld -> cworld -> Prop :=
| c_call s pc W log i a s' : 0 <= i < NPROC -> p_state (sproc s i) = RUNNING -> pc i = Out -> sleep_start i s = Ok (a, s') ->
    cstep (CWorld s pc None W log) (CWorld s' (upd pc i (Test (Call (fst a) (snd a) W))) (Some i) W log)
| c_sleep s pc W log i c s' : 0 <= i < NPROC -> pc i = Test c -> sleep_test i (c_ticks0 c) (c_n c) s = Ok (None, s') ->
    cstep (CWorld s pc (Some i) W log) (CWorld s' (upd pc i (Enter c)) (Some i) W log)
| c_return s pc W log i c v s' : 0 <= i < NPROC -> pc i = Test c -> sleep_test i (c_ticks0 c) (c_n c) s = Ok (Some v, s') ->
    cstep (CWorld s pc (Some i) W log) (CWorld s' (upd pc i Out) None W (log ++ [Retn c v W (p_killed (sproc s i))]))
| c_enter s pc W log i c s' : 0 <= i < NPROC -> pc i = Enter c -> sleep_ticks ticks_addr i s = Ok (tt, s') ->
    cstep (CWorld s pc (Some i) W log) (CWorld s' (upd pc i (Asleep c)) None W log)
| c_leave s pc lk W log i c s' : 0 <= i < NPROC -> pc i = Asleep c -> p_state (sproc s i) = RUNNING -> in_pst (sleep_leave i) s = Ok (tt, s') ->
    cstep (CWorld s pc lk W log) (CWorld s' (upd pc i (Back c)) lk W log)
| c_again s pc W log i c : 0 <= i < NPROC -> pc i = Back c -> p_state (sproc s i) = RUNNING ->
    cstep (CWorld s pc None W log) (CWorld s (upd pc i (Test c)) (Some i) W log)
| c_clock s pc W log s' : clockintr ticks_addr s = Ok (tt, s') -> cstep (CWorld s pc None W log) (CWorld s' pc None (W + 1) log)
| c_run s pc lk W log i s' : 0 <= i < NPROC -> p_state (sproc s i) = RUNNABLE -> in_pst (mod_proc i (with_state RUNNING)) s = Ok (tt, s') ->
    cstep (CWorld s pc lk W log) (CWorld s' pc lk W log)
| c_yield s pc lk W log i s' : 0 <= i < NPROC -> p_state (sproc s i) = RUNNING -> lk <> Some i -> in_pst (yield_enter i) s = Ok (tt, s') ->
    cstep (CWorld s pc lk W log) (CWorld s' pc lk W log)
| c_kill s pc lk W log pid r s' : in_pst (kill pid) s = Ok (r, s') -> cstep (CWorld s pc lk W log) (CWorld s' pc lk W log)
| c_wakeup s pc lk W log chan s' : in_pst (wakeup chan) s = Ok (tt, s') -> cstep (CWorld s pc lk W log) (CWorld s' pc lk W log)
| c_other s pc lk W log s' : t_ticks s' = t_ticks s -> (forall i, 0 <= i < NPROC -> pc i <> Out -> same_run (sproc s i) (sproc s' i)) ->
    cstep (CWorld s pc lk W log) (CWorld s' pc lk W log).

(** ** The invariant *)

Definition early (W : Z) (c : call) : Prop := u32 (W - c_from c) < u32 (c_n c).
Definition call_ok (W : Z) (c : call) : Prop := c_ticks0 c = u32 (c_from c) /\ c_from c <= W.

Definition pc_ok (W : Z) (lk : option Z) (i : Z) (p : proc) (pc : spc) : Prop :=
  match pc with
  | Out => lk <> Some i
  | Test c => lk = Some i /\ p_state p = RUNNING /\ call_ok W c
  | Enter c => lk = Some i /\ p_state p = RUNNING /\ call_ok W c /\ early W c
  | Asleep c => lk <> Some i /\ call_ok W c /\ (p_state p = SLEEPING -> p_chan p = ticks_addr /\ early W c)
  | Back c => lk <> Some i /\ call_ok W c /\ p_state p <> SLEEPING
  end.

Definition retn_ok (r : retn) : Prop :=
  r_val r = 0 /\ u32 (c_n (r_call r)) <= r_at r - c_from (r_call r) \/ r_val r = -1 /\ r_killed r = true.

Record cinv (w : cworld) : Prop := {
  ci_ticks : t_ticks (k_st w) = u32 (k_total w);
  ci_pc i : 0 <= i < NPROC -> pc_ok (k_total w) (k_lock w) i (sproc (k_st w) i) (k_pc w i);
  ci_lock i : k_lock w = Some i -> 0 <= i < NPROC;
  ci_log : Forall retn_ok (k_log w);
}.

Lemma elapsed W c : call_ok W c -> u32 (u32 W - c_ticks0 c) = u32 (W - c_from c).
Proof. intros [-> _]. unfold u32. by rewrite <- Zminus_mod. Qed.

Lemma in_pst_inv {A} (m : M (pst (F := F)) A) s r s' : in_pst m s = Ok (r, s') -> exists x, m (t_st s) = Ok (r, x) /\ s' = Tst x (t_ticks s).
Proof. intros H. by apply zoom_ok_inv in H. Qed.

(** A step that changes only the process [i] of the table, and its place. *)
Lemma cinv_one s pc lk W log i p c' lk' s' : cinv (CWorld s pc lk W log) -> 0 <= i < NPROC -> t_ticks s' = t_ticks s ->
  sproc s' i = p -> (forall j, j <> i -> sproc s' j = sproc s j) -> pc_ok W lk' i p c' ->
  (lk' = lk \/ lk = None /\ lk' = Some i \/ lk = Some i /\ lk' = None) -> cinv (CWorld s' (upd pc i c') lk' W log).
Proof.
  intros [H1 H2 H3 H4] Hi Et Ep Hj Hok Hlk. split; cbn in *; [congruence| | |done].
  - intros j Hjr. unfold upd. destruct (Z.eqb_spec j i) as [->|Hne]; [by rewrite Ep|]. rewrite Hj by done. specialize (H2 j Hjr). destruct Hlk as [->|[[-> ->]|[-> ->]]]; [done|..]; destruct (pc j); cbn in *; try done; intuition congruence.
  - intros j E. destruct Hlk as [->|[[-> ->]|[-> ->]]]; [by apply H3|by injection E as ->|done].
Qed.

(** A step of the table that leaves every place as it was. *)
Lemma cinv_table s pc lk W log s' : cinv (CWorld s pc lk W log) -> t_ticks s' = t_ticks s ->
  (forall i, 0 <= i < NPROC -> pc_ok W lk i (sproc s i) (pc i) -> pc_ok W lk i (sproc s' i) (pc i)) -> cinv (CWorld s' pc lk W log).
Proof. intros [H1 H2 H3 H4] Et Hp. split; cbn in *; [congruence|intros i Hi; by apply Hp, H2|done|done]. Qed.

(** The states that a process in [sys_sleep] can be put into from outside. *)
Definition stirred (p q : proc) : Prop :=
  p_state p = p_state q /\ p_chan p = p_chan q \/ p_state p = RUNNABLE /\ p_state q = RUNNING \/ p_state p = SLEEPING /\ p_state q = RUNNABLE.

Lemma pc_stirred W lk i p q pc : stirred p q -> pc_ok W lk i p pc -> pc_ok W lk i q pc.
Proof. unfold stirred. destruct pc; cbn; intuition (congruence || (repeat match goal with H : p_state _ = _ |- _ => rewrite H in * end; intuition congruence)). Qed.

Lemma woken_stirred chan p : stirred p (woken chan p).
Proof. unfold woken, procstate_eqb. destruct (bool_decide_reflect (p_state p = SLEEPING)) as [E|E]; cbn [andb]; [|by left]. destruct (p_chan p =? chan); [|by left]. right. right. done. Qed.

Lemma killed_stirred p : stirred p (killed p).
Proof. unfold killed, procstate_eqb. cbn [p_state with_killed]. destruct (bool_decide_reflect (p_state p = SLEEPING)) as [E|E]; [right; right; done|by left]. Qed.

Lemma all_stirred (x y : pst (F := F)) chan ks i : all_upd x (fun _ => woken chan) ks y -> stirred (procs x i) (procs y i).
Proof. intros [-> _ _]. destruct (bool_decide _); [apply woken_stirred|by left]. Qed.

Lemma sleep_test_run i t0 n s r s' : sleep_test i t0 n s = Ok (r, s') ->
  s' = s /\ r = if u32 (t_ticks s - t0) <? u32 n then (if p_killed (sproc s i) then Some (-1) else None) else Some 0.
Proof.
  unfold sleep_test. intros H. apply bind_ok_inv in H as (t & s1 & [-> ->]%gets_inv & H). destruct (_ <? _); [|apply ret_inv in H as [-> ->]; done].
  apply bind_ok_inv in H as (p & s1 & H1 & H). apply in_pst_inv in H1 as (x & [-> ->]%gets_inv & ->). replace (Tst (t_st s) (t_ticks s)) with s in H by (by destruct s). unfold sproc. destruct (p_killed _); by apply ret_inv in H as [-> ->].
Qed.

Lemma sleep_start_run i s a s' : sleep_start i s = Ok (a, s') -> s' = s /\ fst a = t_ticks s.
Proof.
  unfold sleep_start, arg_int, arg_reg. intros H. apply bind_ok_inv in H as (n & s1 & H1 & H). apply bind_ok_inv in H1 as (v & s2 & H2 & [-> ->]%ret_inv). apply bind_ok_inv in H2 as (p & s3 & H3 & H4). apply in_pst_inv in H3 as (x & [-> ->]%gets_inv & ->). cbn [andb] in H4.
  apply in_pst_inv in H4 as (y & H4 & ->). apply zoom_ok_inv in H4 as (z & [-> ->]%gets_inv & ->). apply bind_ok_inv in H as (t & s1 & [-> ->]%gets_inv & [-> ->]%ret_inv). by destruct s as [[] ?].
Qed.

Lemma clock_inv s pc W log s' : cinv (CWorld s pc None W log) -> clockintr ticks_addr s = Ok (tt, s') ->
  cinv (CWorld s' pc None (W + 1) log) /\ forall i c, 0 <= i < NPROC -> pc i = Asleep c -> p_state (sproc s i) = SLEEPING -> p_state (sproc s' i) = RUNNABLE.
Proof.
  intros [H1 H2 H3 H4] H. cbn in *. apply in_pst_inv in H as (x & Hw & ->). cbn [t_st t_ticks] in *. apply wakeup_table in Hw as [Ew _ _].
  assert (forall i, 0 <= i < NPROC -> procs x i = woken ticks_addr (sproc s i)) as Ei by (intros i Hi; rewrite Ew, bool_decide_true by (by apply elem_of_upto); done).
  assert (forall i c, 0 <= i < NPROC -> pc i = Asleep c -> p_state (sproc s i) = SLEEPING -> p_state (procs x i) = RUNNABLE) as Hwk.
  { intros i c Hi Ec Es. rewrite Ei by done. specialize (H2 i Hi). rewrite Ec in H2. destruct H2 as (_ & _ & Hc). destruct (Hc Es) as [E _]. unfold woken, procstate_eqb. by rewrite Es, E, bool_decide_true, Z.eqb_refl. }
  split; [split; cbn; [|intros i Hi|done|done]|exact Hwk].
  - rewrite H1. unfold u32. by rewrite Zplus_mod_idemp_l.
  - specialize (H2 i Hi). pose proof (Hwk i) as Hwi. unfold sproc in *. cbn [t_st]. rewrite Ei in * by done. unfold sproc in *. destruct (pc i) as [|c|c|c|c] eqn:Ec; cbn in *; [done|by destruct H2|by destruct H2|..].
    + destruct H2 as (_ & [E1 E2] & Hs). split_and!; [done|split; [done|lia]|]. intros Es. exfalso. destruct (woken_stirred ticks_addr (procs (t_st s) i)) as [[E _]|[[_ E]|[_ E]]]; [|congruence|congruence]. rewrite (Hwi c Hi eq_refl) in Es by congruence. done.
    + destruct H2 as (_ & [E1 E2] & Hs). split_and!; [done|split; [done|lia]|]. destruct (woken_stirred ticks_addr (procs (t_st s) i)) as [[E _]|[[_ E]|[_ E]]]; congruence.
Qed.

Lemma return_ok W c (v : Z) (killed_ : bool) : call_ok W c -> Some v = (if u32 (u32 W - c_ticks0 c) <? u32 (c_n c) then (if killed_ then Some (-1) else None) else Some 0) -> retn_ok (Retn c v W killed_).
Proof.
  intros Hc E. rewrite elapsed in E by done. destruct Hc as [_ Hle]. unfold retn_ok. cbn. destruct (Z.ltb_spec (u32 (W - c_from c)) (u32 (c_n c))) as [|Hge]; [destruct killed_; [injection E as ->; by right|done]|]. injection E as ->. left. split; [done|]. etransitivity; [exact Hge|]. apply Z.mod_le; lia.
Qed.

Lemma cstep_inv w w' : cinv w -> cstep w w' -> cinv w'.
Proof.
  intros Hinv Hs. destruct Hs as [s pc W log i a s' Hi Hr Epc H|s pc W log i c s' Hi Epc H|s pc W log i c v s' Hi Epc H|s pc W log i c s' Hi Epc H|s pc lk W log i c s' Hi Epc Hr H|s pc W log i c Hi Epc Hr|s pc W log s' H|s pc lk W log i s' Hi Hr H|s pc lk W log i s' Hi Hr Hlk H|s pc lk W log pid r s' H|s pc lk W log chan s' H|s pc lk W log s' Et Ho].
  - apply sleep_start_run in H as [-> Ea]. eapply cinv_one; [exact Hinv|done|done|reflexivity|done| |right; left; done]. cbn. split_and!; [done|done|split; cbn; [|lia]]. rewrite Ea. apply (ci_ticks _ Hinv).
  - apply sleep_test_run in H as [-> E]. pose proof (ci_pc _ Hinv i Hi) as Hp. pose proof (ci_ticks _ Hinv) as Ht. cbn in Hp, Ht. rewrite Epc in Hp. destruct Hp as (_ & Hr & Hc). eapply cinv_one; [exact Hinv|done|done|reflexivity|done| |by left]. cbn. split_and!; [done|done|exact Hc|]. rewrite Ht, elapsed in E by done. unfold early. destruct (Z.ltb_spec (u32 (W - c_from c)) (u32 (c_n c))); [done|discriminate].
  - apply sleep_test_run in H as [-> E]. pose proof (ci_pc _ Hinv i Hi) as Hp. pose proof (ci_ticks _ Hinv) as Ht. cbn in Hp, Ht. rewrite Epc in Hp. destruct Hp as (_ & Hr & Hc). assert (cinv (CWorld s (upd pc i Out) None W log)) as [I1 I2 I3 I4] by (eapply cinv_one; [exact Hinv|done|done|reflexivity|done|done|right; right; done]). split; cbn in *; [done|done|done|]. apply Forall_app. split; [done|]. constructor; [|constructor]. apply return_ok; [done|by rewrite <- Ht].
  - apply in_pst_inv in H as (x & H & ->). apply bind_ok_inv in H as ([] & y & [= <-] & [= <-]). pose proof (ci_pc _ Hinv i Hi) as Hp. cbn in Hp. rewrite Epc in Hp. destruct Hp as (_ & Hr & Hc & He). eapply cinv_one; [exact Hinv|done|done|reflexivity| |cbn; rewrite !upd_eq; cbn; split_and!; [done|exact Hc|done]|right; right; done]. intros j Hj. cbn. by rewrite !upd_ne.
  - apply in_pst_inv in H as (x & [= <-] & ->). pose proof (ci_pc _ Hinv i Hi) as Hp. cbn in Hp. rewrite Epc in Hp. destruct Hp as (Hl & Hc & _). eapply cinv_one; [exact Hinv|done|done|reflexivity| |cbn; rewrite upd_eq; cbn; split_and!; [done|exact Hc|unfold sproc in Hr; rewrite Hr; discriminate]|by left]. intros j Hj. cbn. by rewrite upd_ne.
  - pose proof (ci_pc _ Hinv i Hi) as Hp. cbn in Hp. rewrite Epc in Hp. destruct Hp as (Hl & Hc & _). eapply cinv_one; [exact Hinv|done|done|reflexivity|done|by split_and!|right; left; done].
  - by apply (clock_inv s).
  - apply in_pst_inv in H as (x & [= <-] & ->). eapply cinv_table; [exact Hinv|done|]. intros j Hj. apply pc_stirred. unfold sproc. cbn. unfold upd. destruct (Z.eqb_spec j i) as [->|]; [right; left; done|by left].
  - apply in_pst_inv in H as (x & [= <-] & ->). eapply cinv_table; [exact Hinv|done|]. intros j Hj. unfold sproc in *. cbn. unfold upd. destruct (Z.eqb_spec j i) as [->|]; [|done]. destruct (pc i); cbn; intuition congruence.
  - apply in_pst_inv in H as (x & H & ->). eapply cinv_table; [exact Hinv|done|]. intros j Hj. apply pc_stirred. unfold sproc. cbn. apply kill_table in H as [(_ & -> & _)|(_ & k & _ & _ & [E1 E2 _ _])]; [by left|]. destruct (Z.eq_dec j k) as [->|Hne]; [rewrite E1; apply killed_stirred|rewrite E2 by done; by left].
  - apply in_pst_inv in H as (x & H & ->). eapply cinv_table; [exact Hinv|done|]. intros j Hj. apply pc_stirred. apply wakeup_table in H. by eapply all_stirred.
  - eapply cinv_table; [exact Hinv|done|]. intros j Hj. destruct (decide (pc j = Out)) as [->|Hne]; [done|]. apply pc_stirred. destruct (Ho j Hj Hne) as (E1 & E2 & _). by left.
Qed.

Lemma wakeup_total chan (x : pst (F := F)) : exists y, wakeup chan x = Ok (tt, y).
Proof.
  unfold wakeup. revert x. induction (upto NPROC) as [|i l IH]; intros x; cbn [mfor]; [by eexists|]. set (body := fun i => _) in *. assert (exists y, body i x = Ok (tt, y)) as [y Hy] by (unfold body, bind, get_proc, gets; destruct (_ && _); by eexists). mstep Hy. apply IH.
Qed.

(** The holder of [tickslock] goes on, and after one or two steps it gives the lock back. *)
Lemma holder_steps w i : cinv w -> k_lock w = Some i -> exists w', cstep w w' /\ (k_lock w' = None \/ exists c, k_pc w i = Test c /\ k_pc w' i = Enter c).
Proof.
  intros Hinv El. pose proof (ci_lock _ Hinv i El) as Hi. pose proof (ci_pc _ Hinv i Hi) as Hp. destruct w as [s pc lk W log]. cbn in *. subst lk. destruct (pc i) as [|c|c|c|c] eqn:Ec; cbn in Hp; [done| | |by destruct Hp|by destruct Hp].
  - assert (exists r, sleep_test i (c_ticks0 c) (c_n c) s = Ok (r, s)) as [[v|] Hr].
    { unfold sleep_test. mcomp. destruct (_ <? _); [|by eexists]. erewrite bind_ok by reflexivity. destruct s. cbn. by destruct (p_killed _); eexists. }
    + eexists. split; [by eapply c_return|by left].
    + eexists. split; [by eapply c_sleep|right]. exists c. split; [done|]. apply upd_eq.
  - eexists. split; [by eapply c_enter|by left].
Qed.

(** C26. [sys_sleep], with any number of callers and any interleaving with the clock, [kill],
    [wakeup] and the scheduler, however often the tick counter wraps around.  A call that
    returns 0 returns after at least as many clock interrupts as its argument says, taken as
    an unsigned number; a call that returns -1 was killed.  A process that is asleep still
    has time to wait, and the next clock interrupt, for which the lock is free as soon as its
    holder has made one or two steps, makes it runnable again. *)
Theorem sleep_correct (s : tst (F := F)) (W : Z) (w : cworld) (Hticks : t_ticks s = u32 W) (Hrun : rtc cstep (CWorld s (fun _ => Out) None W []) w) :
  Forall retn_ok (k_log w) /\
  (forall i c, 0 <= i < NPROC -> k_pc w i = Asleep c -> p_state (sproc (k_st w) i) = SLEEPING -> early (k_total w) c) /\
  (k_lock w = None -> exists s', clockintr ticks_addr (k_st w) = Ok (tt, s') /\
     forall i c, 0 <= i < NPROC -> k_pc w i = Asleep c -> p_state (sproc (k_st w) i) = SLEEPING -> p_state (sproc s' i) = RUNNABLE) /\
  (forall i, k_lock w = Some i -> exists w', cstep w w' /\ (k_lock w' = None \/ exists c, k_pc w i = Test c /\ k_pc w' i = Enter c)).
Proof.
  assert (cinv w) as Hinv. { assert (cinv (CWorld s (fun _ => Out) None W [])) as H0 by (by split). revert H0. induction Hrun as [|w0 w1 w2 Hs _ IH]; [done|]. intros H0. eapply IH, cstep_inv; done. }
  split_and!; [apply (ci_log _ Hinv)| | |].
  - intros i c Hi Ec Es. pose proof (ci_pc _ Hinv i Hi) as Hp. rewrite Ec in Hp. destruct Hp as (_ & _ & H). by apply H.
  - destruct w as [s1 pc lk W1 log]. cbn. intros ->. destruct (wakeup_total ticks_addr (t_st s1)) as [y Hy]. assert (clockintr ticks_addr s1 = Ok (tt, Tst y (u32 (t_ticks s1 + 1)))) as Hc by (unfold clockintr; mcomp; unfold in_pst, zoom; cbn [t_st]; by rewrite Hy). eexists. split; [exact Hc|]. by apply (clock_inv _ _ _ _ _ Hinv Hc).
  - intros i. by apply holder_steps.
Qed.
End Clock.

(** ** A call of [sleep(1)] just before the counter wraps around *)

Definition demo_sleeper : proc := Proc RUNNING None 0 false 0 1 0 0 0 0x1000 (Context_ 0 0) (fun _ => 0) 0 [].
Definition demo_free : proc := Proc UNUSED None 0 false 0 0 0 0 0 0 (Context_ 0 0) (fun _ => 0) 0 [].
Definition demo_clock : tst (F := unit) :=
  Tst (Pst (upd (fun _ => demo_free) 0 demo_sleeper) None 2 (Phys (fun a => if a =? 0x1000 + tf_a0 then 1 else 0) 0 0) tt) (2 ^ 32 - 1).

Lemma sleep_correct_witness : exists w, rtc (cstep (F := unit) 7) (CWorld demo_clock (fun _ => Out) None (2 ^ 32 - 1) []) w /\
  k_log w = [Retn (Call (2 ^ 32 - 1) 1 (2 ^ 32 - 1)) 0 (2 ^ 32) false] /\ Forall retn_ok (k_log w).
Proof.
  assert (exists w, rtc (cstep (F := unit) 7) (CWorld demo_clock (fun _ => Out) None (2 ^ 32 - 1) []) w /\ k_log w = [Retn (Call (2 ^ 32 - 1) 1 (2 ^ 32 - 1)) 0 (2 ^ 32) false]) as (w & Hr & El).
  { eexists. split.
    - eapply rtc_l; [apply (c_call 7 _ _ _ _ 0 (2 ^ 32 - 1, 1) demo_clock); [done|done|done|by vm_compute]|]. eapply rtc_l; [apply (c_sleep 7 _ _ _ _ 0 (Call (2 ^ 32 - 1) 1 (2 ^ 32 - 1)) demo_clock); [done|done|by vm_compute]|].
      eapply rtc_l; [eapply (c_enter 7 _ _ _ _ 0); [done|reflexivity|reflexivity]|]. eapply rtc_l; [eapply (c_clock 7); reflexivity|]. eapply rtc_l; [eapply (c_run 7 _ _ _ _ _ 0); [done|reflexivity|reflexivity]|].
      eapply rtc_l; [eapply (c_leave 7 _ _ _ _ _ 0); [done|reflexivity|reflexivity|reflexivity]|]. eapply rtc_l; [eapply (c_again 7 _ _ _ _ 0); [done|reflexivity|reflexivity]|]. eapply rtc_l; [eapply (c_return 7 _ _ _ _ 0); [done|reflexivity|reflexivity]|]. apply rtc_refl.
    - reflexivity. }
  exists w. split; [exact Hr|]. split; [exact El|]. by destruct (sleep_correct 7 demo_clock (2 ^ 32 - 1) w eq_refl Hr) as [H _].
Defined.
