(* ===== verification/Trap.v ===== *)
(** * Traps

    [kernel/trap.c], [kernel/trampoline.S], the interrupt controller of [kernel/plic.c] and the
    accessors of control registers of [kernel/riscv.h].  The registers of the hart that runs
    the code are part of the state; [trap_entry] and [sret] are what the hardware does to them.
    The interrupt controller hands out pending interrupts one at a time.  Messages are left
    out.

    Interrupts come in where the code lets them, which is where the bit SIE of [sstatus] is
    set ([preempt]).  What they do there, [between], and what happens in [yield] until the
    process runs again, maybe on another hart, are parameters, as are the handlers of the two
    devices, which run on states of their own. *)

From S2P Require Import Prelude Bytes Riscv KString Kalloc Vm UserIO Proc ProcSpec Sysproc.

(** ** Registers *)

Definition SSTATUS_SPP : Z := Z.shiftl 1 8.
Definition SSTATUS_SPIE : Z := Z.shiftl 1 5.
Definition SSTATUS_SIE : Z := Z.shiftl 1 1.
Definition UART0_IRQ : Z := 10.
Definition VIRTIO0_IRQ : Z := 1.

(** [gpr n] is the register x[n]. *)
Record hart := Hart { sstatus : Z; stvec : Z; sepc : Z; scause : Z; stval : Z; sip : Z; satp : Z; sscratch : Z; gpr : Z -> Z }.

Definition x_sp : Z := 2.
Definition x_tp : Z := 4.
Definition x_t0 : Z := 5.
Definition x_t1 : Z := 6.
Definition x_a0 : Z := 10.
Definition x_a1 : Z := 11.

Definition set_sstatus x h := Hart x (stvec h) (sepc h) (scause h) (stval h) (sip h) (satp h) (sscratch h) (gpr h).
Definition set_stvec x h := Hart (sstatus h) x (sepc h) (scause h) (stval h) (sip h) (satp h) (sscratch h) (gpr h).
Definition set_sepc x h := Hart (sstatus h) (stvec h) x (scause h) (stval h) (sip h) (satp h) (sscratch h) (gpr h).
Definition set_sip x h := Hart (sstatus h) (stvec h) (sepc h) (scause h) (stval h) x (satp h) (sscratch h) (gpr h).
Definition set_satp x h := Hart (sstatus h) (stvec h) (sepc h) (scause h) (stval h) (sip h) x (sscratch h) (gpr h).
Definition set_sscratch x h := Hart (sstatus h) (stvec h) (sepc h) (scause h) (stval h) (sip h) (satp h) x (gpr h).
Definition set_gpr n x h := Hart (sstatus h) (stvec h) (sepc h) (scause h) (stval h) (sip h) (satp h) (sscratch h) (upd (gpr h) n x).

(** A trap, taken in user mode or not: SPIE gets SIE, SIE is cleared, SPP gets the mode. *)
Definition put_bit (n : Z) (b : bool) (x : Z) : Z := if b then Z.setbit x n else Z.clearbit x n.
Definition trap_entry (user : bool) (cause val pc : Z) (h : hart) : hart :=
  Hart (put_bit 8 (negb user) (put_bit 1 false (put_bit 5 (Z.testbit (sstatus h) 1) (sstatus h)))) (stvec h) pc cause val (sip h) (satp h) (sscratch h) (gpr h).
(** [sret]: SIE gets SPIE, SPIE is set, SPP cleared; execution goes on at [sepc]. *)
Definition sret (h : hart) : hart :=
  set_sstatus (put_bit 8 false (put_bit 5 true (put_bit 1 (Z.testbit (sstatus h) 5) (sstatus h)))) h.

(** Offsets in [struct trapframe]; the register x[n] is at [tf_reg n]. *)
Definition tf_kernel_satp : Z := 0.
Definition tf_kernel_sp : Z := 8.
Definition tf_kernel_trap : Z := 16.
Definition tf_kernel_hartid : Z := 32.
Definition tf_reg (n : Z) : Z := 40 + 8 * (n - 1).

(** The registers that [uservec] and [userret] move in a row: all but a0. *)
Definition saved_regs : list Z := [1; 2; 3; 4; 5; 6; 7; 8; 9] ++ [11; 12; 13; 14; 15; 16; 17; 18; 19; 20; 21; 22; 23; 24; 25; 26; 27; 28; 29; 30; 31].

Section Trap.
Context {L : Linker} {F : Type} {FO : Files F}.
Context (forkret_addr : Z) (xstate_addr proc_addr : Z -> Z) (ticks_addr : Z).
Notation tst := (tst (F := F)).

(** [tr_pending] are the interrupts that the controller will hand out, none of which has
    the number 0; [tr_claimed] those that this hart has claimed and not completed. *)
Record trst := Trst { tr_hart : hart; tr_k : tst; tr_pending : list positive; tr_claimed : list Z }.

Definition in_k {A} (m : M tst A) : M trst A := zoom tr_k (fun x s => Trst (tr_hart s) x (tr_pending s) (tr_claimed s)) m.
Definition get_hart {A} (f : hart -> A) : M trst A := gets (fun s => f (tr_hart s)).
Definition mod_hart (f : hart -> hart) : M trst unit := modify (fun s => Trst (f (tr_hart s)) (tr_k s) (tr_pending s) (tr_claimed s)).

Definition r_sstatus : M trst Z := get_hart sstatus.
Definition w_sstatus (x : Z) : M trst unit := mod_hart (set_sstatus x).
Definition r_sip : M trst Z := get_hart sip.
Definition w_sip (x : Z) : M trst unit := mod_hart (set_sip x).
Definition r_sepc : M trst Z := get_hart sepc.
Definition w_sepc (x : Z) : M trst unit := mod_hart (set_sepc x).
Definition w_stvec (x : Z) : M trst unit := mod_hart (set_stvec x).
Definition r_satp : M trst Z := get_hart satp.
Definition r_scause : M trst Z := get_hart scause.
Definition r_tp : M trst Z := get_hart (fun h => gpr h x_tp).

Definition intr_on : M trst unit := let! x := r_sstatus in w_sstatus (Z.lor x SSTATUS_SIE).
Definition intr_off : M trst unit := let! x := r_sstatus in w_sstatus (Z.land x (Z.lnot SSTATUS_SIE)).
Definition intr_get : M trst bool := let! x := r_sstatus in ret (negb (Z.land x SSTATUS_SIE =? 0)).

(** [cpuid()] *)
Definition cpuid : M trst Z := let! id := r_tp in ret (i32 id).

(** ** The interrupt controller *)

Definition plic_claim : M trst Z :=
  let! p := gets tr_pending in
  match p with
  | [] => ret 0
  | irq :: p => modify (fun s => Trst (tr_hart s) (tr_k s) p (Zpos irq :: tr_claimed s)) ;; ret (Zpos irq)
  end.

Definition plic_complete (irq : Z) : M trst unit :=
  modify (fun s => Trst (tr_hart s) (tr_k s) (tr_pending s) (filter (fun x => x <> irq) (tr_claimed s))).

(** ** Device interrupts *)

Context (uartintr virtio_disk_intr : M tst unit).

(** 2 for the clock, 1 for another device, 0 for what is not an interrupt. *)
Definition devintr : M trst Z :=
  let! cause := r_scause in
  if negb (Z.land cause 0x8000000000000000 =? 0) && (Z.land cause 0xff =? 9) then
    let! irq := plic_claim in
    (if irq =? UART0_IRQ then in_k uartintr else if irq =? VIRTIO0_IRQ then in_k virtio_disk_intr else ret tt) ;;
    (if negb (irq =? 0) then plic_complete irq else ret tt) ;;
    ret 1
  else if cause =? 0x8000000000000001 then
    let! id := cpuid in
    (if id =? 0 then in_k (clockintr ticks_addr) else ret tt) ;;
    let! x := r_sip in
    w_sip (Z.land x (Z.lnot 2)) ;;
    ret 2
  else ret 0.

Context (yield between : M trst unit) (kernelvec uservec_addr trampoline_addr usertrap_addr : Z).

(** Interrupts are taken here, if they are enabled. *)
Definition preempt : M trst unit := let! on := intr_get in if on then between else ret tt.

Definition trapinithart : M trst unit := w_stvec kernelvec.

(** [cur] is [myproc()]. *)
Definition kerneltrap (cur : option Z) : M trst unit :=
  let! pc := r_sepc in
  let! status := r_sstatus in
  panic_if (Z.land status SSTATUS_SPP =? 0) "kerneltrap: not from supervisor mode" ;;
  let! on := intr_get in
  panic_if on "kerneltrap: interrupts enabled" ;;
  let! which_dev := devintr in
  panic_if (which_dev =? 0) "kerneltrap" ;;
  let! run := gets (fun s => match cur with Some i => procstate_eqb (p_state (procs (t_st (tr_k s)) i)) RUNNING | None => false end) in
  (if (which_dev =? 2) && run then yield else ret tt) ;;
  w_sepc pc ;;
  w_sstatus status.

(** ** From and to user space *)

Section User.
Variable me : Z.
Variable filecall : Z -> M tst pres.

Definition myproc : M trst proc := gets (fun s => procs (t_st (tr_k s)) me).
Definition get_tf (off : Z) : M trst Z := in_k (let! p := in_pst (get_proc me) in in_pst (in_phys (gets (fun s => load64 (pmem s) (p_trapframe p + off))))).
Definition set_tf (off v : Z) : M trst unit := in_k (let! p := in_pst (get_proc me) in in_pst (in_phys (pstore64 (p_trapframe p + off) v))).

(** Where a piece of code ends: in [userret] with a value for [satp], in a system call that
    waits, in [exit]. *)
Inductive uout := ToUser (satp : Z) | InKernel | Exited.

Definition usertrapret : M trst uout :=
  preempt ;;
  intr_off ;;
  preempt ;;
  w_stvec (TRAMPOLINE + (uservec_addr - trampoline_addr)) ;;
  preempt ;;
  let! p := myproc in
  let! ksatp := r_satp in
  set_tf tf_kernel_satp ksatp ;;
  set_tf tf_kernel_sp (p_kstack p + PGSIZE) ;;
  set_tf tf_kernel_trap usertrap_addr ;;
  let! id := r_tp in
  set_tf tf_kernel_hartid id ;;
  let! x := r_sstatus in
  w_sstatus (Z.lor (Z.land x (Z.lnot SSTATUS_SPP)) SSTATUS_SPIE) ;;
  let! epc := get_tf tf_epc in
  w_sepc epc ;;
  ret (ToUser (MAKE_SATP (p_pagetable p))).

(** [usertrap] from its second test of [p->killed] on. *)
Definition usertrap_end (which_dev : Z) : M trst uout :=
  let! p := myproc in
  if p_killed p then in_k (in_pst (exit proc_addr me (-1))) ;; ret Exited
  else
    (if which_dev =? 2 then yield else ret tt) ;;
    usertrapret.

Definition usertrap : M trst uout :=
  let! status := r_sstatus in
  panic_if (negb (Z.land status SSTATUS_SPP =? 0)) "usertrap: not from user mode" ;;
  w_stvec kernelvec ;;
  preempt ;;
  let! epc := r_sepc in
  set_tf tf_epc epc ;;
  preempt ;;
  let! cause := r_scause in
  if cause =? 8 then
    let! p := myproc in
    if p_killed p then in_k (in_pst (exit proc_addr me (-1))) ;; ret Exited
    else
      let! epc := get_tf tf_epc in
      set_tf tf_epc (epc + 4) ;;
      intr_on ;;
      preempt ;;
      let! r := in_k (syscall forkret_addr xstate_addr proc_addr ticks_addr me filecall) in
      if r then preempt ;; usertrap_end 0 else ret InKernel
  else
    let! which_dev := devintr in
    (if which_dev =? 0 then in_k (in_pst (mod_proc me (with_killed true))) else ret tt) ;;
    usertrap_end which_dev.

(** ** [trampoline.S] *)

(** Memory of the process at the address [va], which has to be in its trapframe: the page
    table of the process maps it at TRAPFRAME. *)
Definition user_page (va : Z) : M trst Z :=
  let! p := myproc in
  let! pt := r_satp in
  panic_if (negb ((pt =? MAKE_SATP (p_pagetable p)) && (TRAPFRAME <=? va) && (va <=? TRAPFRAME + 280))) "page fault" ;;
  ret (va - TRAPFRAME).
Definition rd (n : Z) : M trst Z := get_hart (fun h => gpr h n).
Definition wr (n v : Z) : M trst unit := mod_hart (set_gpr n v).
(** [sd xn, off(a0)] and [ld xn, off(a0)] *)
Definition sd (n off : Z) : M trst unit := let! a := rd x_a0 in let! v := rd n in let! o := user_page (a + off) in set_tf o v.
Definition ld (n off : Z) : M trst unit := let! a := rd x_a0 in let! o := user_page (a + off) in let! v := get_tf o in wr n v.
(** [csrrw a0, sscratch, a0] *)
Definition swap_a0 : M trst unit := let! a := rd x_a0 in let! b := get_hart sscratch in mod_hart (set_sscratch a) ;; wr x_a0 b.

(** The result is where it jumps to. *)
Definition uservec : M trst Z :=
  swap_a0 ;;
  mfor saved_regs (fun n => sd n (tf_reg n)) ;;
  let! a := get_hart sscratch in
  wr x_t0 a ;;
  sd x_t0 (tf_reg x_a0) ;;
  ld x_sp tf_kernel_sp ;;
  ld x_tp tf_kernel_hartid ;;
  ld x_t0 tf_kernel_trap ;;
  ld x_t1 tf_kernel_satp ;;
  let! t1 := rd x_t1 in
  mod_hart (set_satp t1) ;;
  rd x_t0.

(** The call [userret(TRAPFRAME, satp)], with its arguments in a0 and a1. *)
Definition userret (tf satp : Z) : M trst unit :=
  wr x_a0 tf ;;
  wr x_a1 satp ;;
  let! a1 := rd x_a1 in
  mod_hart (set_satp a1) ;;
  ld x_t0 (tf_reg x_a0) ;;
  let! t0 := rd x_t0 in
  mod_hart (set_sscratch t0) ;;
  mfor saved_regs (fun n => ld n (tf_reg n)) ;;
  swap_a0 ;;
  mod_hart sret.

(** A trap in user mode: the hardware goes to [stvec], [uservec] to [kernel_trap]. *)
Definition trap_from_user (cause val pc : Z) : M trst uout :=
  mod_hart (trap_entry true cause val pc) ;;
  let! vec := get_hart stvec in
  panic_if (negb (vec =? TRAMPOLINE + (uservec_addr - trampoline_addr))) "not uservec" ;;
  let! fn := uservec in
  panic_if (negb (fn =? usertrap_addr)) "not usertrap" ;;
  let! o := usertrap in
  match o with
  | ToUser satp => userret TRAPFRAME satp ;; ret o
  | _ => ret o
  end.
End User.

(** An interrupt in the kernel, through [kernelvec]. *)
Definition trap_from_kernel (cur : option Z) (cause val pc : Z) : M trst unit :=
  mod_hart (trap_entry false cause val pc) ;;
  let! vec := get_hart stvec in
  panic_if (negb (vec =? kernelvec)) "not kernelvec" ;;
  kerneltrap cur ;;
  mod_hart sret.
End Trap.
