(* ===== verification/TrapTop.v ===== *)
(** * Traps: from user space to the kernel and back

    The registers of the user program are in the trapframe while the kernel runs, and an
    interrupt leaves them, and the program counter, as they were.  The same for an interrupt
    in the kernel.

    [runs m s Q] says that [m] runs from [s] to a result of which [Q] holds.  The laws of the
    parameters of [Trap] are in [trap_laws], relative to an invariant of the kernel's
    state. *)

From S2P Require Import Prelude Bytes Riscv KString Kalloc Vm UserIO Proc ProcSpec Sysproc Clock Trap.

(** ** Runs *)

Definition runs {S A} (m : M S A) (s : S) (Q : A -> S -> Prop) : Prop := exists a s', m s = Ok (a, s') /\ Q a s'.

Section Runs.
Context {S A B : Type}.
Implicit Types (s : S).

Lemma runs_bind (m : M S A) (k : A -> M S B) s Q : runs m s (fun a s' => runs (k a) s' Q) -> runs (bind m k) s Q.
Proof. intros (a & s' & H & b & s2 & H2 & HQ). exists b, s2. split; [|done]. by mstep H. Qed.
Lemma runs_ret (a : A) s (Q : A -> S -> Prop) : Q a s -> runs (ret a) s Q.
Proof. intros H. by exists a, s. Qed.
Lemma runs_gets (f : S -> A) s (Q : A -> S -> Prop) : Q (f s) s -> runs (gets f) s Q.
Proof. intros H. by exists (f s), s. Qed.
Lemma runs_modify (f : S -> S) s (Q : unit -> S -> Prop) : Q tt (f s) -> runs (modify f) s Q.
Proof. intros H. by exists tt, (f s). Qed.
Lemma runs_panic_if b msg s (Q : unit -> S -> Prop) : b = false -> Q tt s -> runs (panic_if b msg) s Q.
Proof. intros -> H. by exists tt, s. Qed.
Lemma runs_mono (m : M S A) s (P Q : A -> S -> Prop) : runs m s P -> (forall a s', P a s' -> Q a s') -> runs m s Q.
Proof. intros (a & s' & H & HP) HQ. exists a, s'. auto. Qed.

(** [ends m s Q E]: [m] ends with a result of which [Q] holds, or with a failure of which
    [E] holds. *)
Definition ends (m : M S A) s (Q : A -> S -> Prop) (E : res (A * S) -> Prop) : Prop :=
  match m s with Ok (a, s') => Q a s' | r => E r end.
End Runs.

(** The same failure, of computations with different results. *)
Definition same_failure {A B} (r : res A) (r' : res B) : Prop :=
  match r, r' with
  | Panic m, Panic m' => m = m'
  | Blocked, Blocked | NoFuel, NoFuel => True
  | _, _ => False
  end.
Definition fails_like {A B} (P : res A -> Prop) (r : res B) : Prop := exists r0, P r0 /\ same_failure r0 r.

Lemma fails_same {A B C} (P : res A -> Prop) (r : res B) (r' : res C) : fails_like P r -> same_failure r r' -> fails_like P r'.
Proof. intros (r0 & HP & H1) H2. exists r0. split; [done|]. destruct r0, r, r'; cbn in *; congruence || done. Qed.

Definition fault {A} (r : res A) : res unit := match r with Ok _ => Ok tt | Panic m => Panic m | Blocked => Blocked | NoFuel => NoFuel end.

Section Ends.
Context {S A B : Type} (P : res unit -> Prop).
Implicit Types (s : S).

Lemma ends_step (m : M S A) (k : A -> M S B) s Q : runs m s (fun a s' => ends (k a) s' Q (fails_like P)) -> ends (bind m k) s Q (fails_like P).
Proof. intros (a & s' & H & HQ). unfold ends. by mstep H. Qed.
Lemma ends_bind (m : M S A) (k : A -> M S B) s Q : ends m s (fun a s' => ends (k a) s' Q (fails_like P)) (fails_like P) -> ends (bind m k) s Q (fails_like P).
Proof. unfold ends, bind. destruct (m s) as [[a s']| | |] eqn:E; [done|..]; intros H; by eapply fails_same. Qed.
Lemma ends_runs (m : M S A) s (Q : A -> S -> Prop) : runs m s Q -> ends m s Q (fails_like P).
Proof. intros (a & s' & H & HQ). unfold ends. by rewrite H. Qed.
Lemma ends_mono (m : M S A) s (Q Q' : A -> S -> Prop) : ends m s Q (fails_like P) -> (forall a s', Q a s' -> Q' a s') -> ends m s Q' (fails_like P).
Proof. unfold ends. destruct (m s) as [[a s']| | |]; auto. Qed.
End Ends.

(** ** Bits *)

Lemma land_flag x n : 0 <= n -> (Z.land x (Z.shiftl 1 n) =? 0) = negb (Z.testbit x n).
Proof.
  intros Hn. destruct (Z.testbit x n) eqn:E; cbn.
  - apply Z.eqb_neq. intros H. assert (Z.testbit (Z.land x (Z.shiftl 1 n)) n = false) as H0 by (by rewrite H, Z.bits_0). rewrite Z.land_spec, E, Z.shiftl_spec, Z.sub_diag in H0 by done. done.
  - apply Z.eqb_eq. apply Z.bits_inj'. intros i Hi. rewrite Z.land_spec, Z.bits_0, Z.shiftl_spec by done. destruct (Z.eq_dec i n) as [->|]; [by rewrite E|]. destruct (Z.lt_ge_cases i n); [rewrite (Z.testbit_neg_r 1) by lia; apply andb_false_r|]. rewrite (testbit_high 1 1) by lia. apply andb_false_r.
Qed.

Lemma put_bit_spec n b x i : 0 <= n -> Z.testbit (put_bit n b x) i = if i =? n then b else Z.testbit x i.
Proof.
  intros Hn. unfold put_bit. destruct (Z.eqb_spec i n) as [->|].
  - destruct b; [by apply Z.setbit_eq|apply Z.clearbit_eq].
  - destruct b; [apply Z.setbit_neq|apply Z.clearbit_neq]; lia.
Qed.

Lemma land_lnot_bit x n i : 0 <= n -> 0 <= i -> Z.testbit (Z.land x (Z.lnot (Z.shiftl 1 n))) i = if i =? n then false else Z.testbit x i.
Proof.
  intros Hn Hi. rewrite Z.land_spec, Z.lnot_spec, Z.shiftl_spec by done. destruct (Z.eqb_spec i n) as [->|]; [rewrite Z.sub_diag; apply andb_false_r|]. destruct (Z.lt_ge_cases i n); [rewrite (Z.testbit_neg_r 1) by lia; apply andb_true_r|]. rewrite (testbit_high 1 1) by lia. apply andb_true_r.
Qed.

Lemma lor_bit x n i : 0 <= n -> 0 <= i -> Z.testbit (Z.lor x (Z.shiftl 1 n)) i = if i =? n then true else Z.testbit x i.
Proof.
  intros Hn Hi. rewrite Z.lor_spec, Z.shiftl_spec by done. destruct (Z.eqb_spec i n) as [->|]; [rewrite Z.sub_diag; apply orb_true_r|]. destruct (Z.lt_ge_cases i n); [rewrite (Z.testbit_neg_r 1) by lia; apply orb_false_r|]. rewrite (testbit_high 1 1) by lia. apply orb_false_r.
Qed.

Section Spec.
Context {L : Linker} {F : Type} {FO : Files F}.
Context (fa : Z) (xa pa : Z -> Z) (ta : Z) (uartintr virtio_disk_intr : M (tst (F := F)) unit).
Context (yield between : M (trst (F := F)) unit) (kvec uvec tramp utrap : Z) (me : Z) (filecall : Z -> M (tst (F := F)) pres).
Notation tst := (tst (F := F)).
Notation trst := (trst (F := F)).
Implicit Types (k : tst) (s : trst).

(** ** The trapframe *)

Definition kproc k : proc := procs (t_st k) me.
Definition kmem k : mem := pmem (p_phys (t_st k)).
Definition kslot k (off : Z) : Z := load64 (kmem k) (p_trapframe (kproc k) + off).
Definition kst k (off v : Z) : tst :=
  Tst (Pst (procs (t_st k)) (initproc (t_st k)) (nextpid (t_st k)) (set_pmem (store64 (kmem k) (p_trapframe (kproc k) + off) v) (p_phys (t_st k))) (p_files (t_st k))) (t_ticks k).
Definition with_k k s : trst := Trst (tr_hart s) k (tr_pending s) (tr_claimed s).
Definition with_hart (h : hart) s : trst := Trst h (tr_k s) (tr_pending s) (tr_claimed s).

Lemma kslot_eq k off v : kslot (kst k off v) off = u64 v.
Proof. apply load64_store64_eq. Qed.
Lemma kslot_ne k off off' v : off' + 8 <= off \/ off + 8 <= off' -> kslot (kst k off v) off' = kslot k off'.
Proof. intros. apply load64_store64_ne. change (p_trapframe (kproc (kst k off v))) with (p_trapframe (kproc k)). lia. Qed.

Lemma runs_k {A} (m : M tst A) s (Q : A -> trst -> Prop) : runs m (tr_k s) (fun a k => Q a (with_k k s)) -> runs (in_k m) s Q.
Proof. intros (a & k & H & HQ). exists a, (with_k k s). split; [|done]. unfold in_k. erewrite zoom_ok by exact H. done. Qed.
Lemma ends_k {A} (P : res unit -> Prop) (m : M tst A) s (Q : A -> trst -> Prop) :
  P (fault (m (tr_k s))) -> (forall a k, m (tr_k s) = Ok (a, k) -> Q a (with_k k s)) -> ends (in_k m) s Q (fails_like P).
Proof.
  intros HP HQ. unfold ends, in_k, zoom. destruct (m (tr_k s)) as [[a k]| | |] eqn:E; [by apply (HQ a k)|..]; eexists; by split; [exact HP|].
Qed.
Lemma runs_mod_hart f s (Q : unit -> trst -> Prop) : Q tt (with_hart (f (tr_hart s)) s) -> runs (mod_hart f) s Q.
Proof. intros H. eexists _, _. split; [reflexivity|exact H]. Qed.
Lemma runs_get_tf off s (Q : Z -> trst -> Prop) : Q (kslot (tr_k s) off) s -> runs (get_tf me off) s Q.
Proof. intros H. exists (kslot (tr_k s) off), s. split; [|done]. by destruct s as [h [[] ?] p c]. Qed.
Lemma runs_set_tf off v s (Q : unit -> trst -> Prop) : Q tt (with_k (kst (tr_k s) off v) s) -> runs (set_tf me off v) s Q.
Proof. intros H. eexists _, _. split; [reflexivity|exact H]. Qed.

(** ** Laws of the parameters *)

Context (KS : Z) (I : tst -> Prop).

(** The state of a hart that runs in the kernel. *)
Record kernel_ok s : Prop := {
  ko_vec : stvec (tr_hart s) = kvec;
  ko_satp : satp (tr_hart s) = KS;
  ko_tp : 0 <= gpr (tr_hart s) x_tp < 2 ^ 64;
  ko_claimed : tr_claimed s = [];
  ko_inv : I (tr_k s);
}.

(** The process keeps its place in memory and its trapframe. *)
Record keeps k k' : Prop := {
  kp_tf : p_trapframe (kproc k') = p_trapframe (kproc k);
  kp_pt : p_pagetable (kproc k') = p_pagetable (kproc k);
  kp_stack : p_kstack (kproc k') = p_kstack (kproc k);
  kp_slot off : 0 <= off <= 280 -> kslot k' off = kslot k off;
}.

Definition waits (m : M trst unit) : Prop := forall s, kernel_ok s -> runs m s (fun _ s' => kernel_ok s' /\ keeps (tr_k s) (tr_k s')).
(** A handler does not kill the process. *)
Definition handled k k' : Prop := keeps k k' /\ p_killed (kproc k') = p_killed (kproc k).
Definition handler (m : M tst unit) : Prop := forall k, I k -> runs m k (fun _ k' => I k' /\ handled k k').

Record trap_laws : Prop := {
  tl_ks : 0 <= KS < 2 ^ 64;
  tl_utrap : 0 <= utrap < 2 ^ 64;
  tl_yield : waits yield;
  tl_between : waits between;
  tl_uart : handler uartintr;
  tl_virtio : handler virtio_disk_intr;
  tl_clock k : I k -> forall k', clockintr ta k = Ok (tt, k') -> I k';
  tl_syscall k r k' : I k -> syscall fa xa pa ta me filecall k = Ok (r, k') -> I k';
  tl_tf k off v : I k -> 0 <= off <= 280 -> I (kst k off v);
  tl_killed k k' : I k -> in_pst (mod_proc me (with_killed true)) k = Ok (tt, k') -> I k';
}.

Lemma keeps_refl k : keeps k k.
Proof. by split. Qed.
Lemma keeps_trans k1 k2 k3 : keeps k1 k2 -> keeps k2 k3 -> keeps k1 k3.
Proof. intros [A1 A2 A3 A4] [B1 B2 B3 B4]. split; [congruence|congruence|congruence|]. intros off Ho. by rewrite B4, A4. Qed.

Lemma handled_refl k : handled k k.
Proof. split; [apply keeps_refl|done]. Qed.

(** ** Interrupts *)

Lemma wakeup_phys chan (x y : pst (F := F)) a : wakeup chan x = Ok (a, y) -> p_phys y = p_phys x.
Proof.
  unfold wakeup. revert x. induction (upto NPROC) as [|i l IH]; intros x H; cbn [mfor] in H; [by injection H as <- <-|]. apply bind_ok_inv in H as (u & z & Hz & H). rewrite (IH _ H). apply bind_ok_inv in Hz as (p & z1 & [-> ->]%gets_inv & Hz). by destruct (_ && _); injection Hz as <- <-.
Qed.

Lemma clock_handler : trap_laws -> handler (clockintr ta).
Proof.
  intros Hl k Hk. destruct (wakeup_total ta (t_st k)) as [y Hy]. assert (clockintr ta k = Ok (tt, Tst y (u32 (t_ticks k + 1)))) as Hc by (unfold clockintr; mcomp; unfold in_pst, zoom; cbn [t_st]; by rewrite Hy).
  exists tt, (Tst y (u32 (t_ticks k + 1))). split; [done|]. split; [by eapply tl_clock|]. pose proof (wakeup_phys _ _ _ _ Hy) as Ep. apply wakeup_table in Hy. assert (kproc (Tst y (u32 (t_ticks k + 1))) = kproc k \/ kproc (Tst y (u32 (t_ticks k + 1))) = woken ta (kproc k)) as E.
  { unfold kproc. cbn. destruct Hy as [-> _ _]. destruct (bool_decide _); auto. }
  assert (forall p, p_trapframe (woken ta p) = p_trapframe p /\ p_pagetable (woken ta p) = p_pagetable p /\ p_kstack (woken ta p) = p_kstack p /\ p_killed (woken ta p) = p_killed p) as Hw by (intros p; unfold woken; by destruct (_ && _)).
  destruct (Hw (kproc k)) as (W1 & W2 & W3 & W4). split; [|destruct E as [-> | ->]; congruence]. split; [destruct E as [-> | ->]; congruence..|]. intros off _. unfold kslot, kmem. cbn [t_st]. rewrite Ep. by destruct E as [-> | ->]; rewrite ?W1.
Qed.

(** What [devintr] makes of a cause. *)
Definition dev_of (cause : Z) : Z :=
  if Z.testbit cause 63 && (cause mod 256 =? 9) then 1 else if cause =? 2 ^ 63 + 1 then 2 else 0.

Definition dev_post s (r : Z) s' : Prop :=
  r = dev_of (scause (tr_hart s)) /\ I (tr_k s') /\ handled (tr_k s) (tr_k s') /\ tr_claimed s' = [] /\
  exists x, tr_hart s' = set_sip x (tr_hart s).

Lemma set_sip_same h : h = set_sip (sip h) h.
Proof. by destruct h. Qed.

Lemma runs_handler m s : handler m -> I (tr_k s) -> runs (in_k m) s (fun _ s' => exists k, s' = with_k k s /\ I k /\ handled (tr_k s) k).
Proof. intros Hm Hs. apply runs_k. eapply runs_mono; [by apply Hm|]. intros _ k [? ?]. by exists k. Qed.

Lemma runs_nothing s : I (tr_k s) -> runs (ret tt) s (fun _ s' => exists k, s' = with_k k s /\ I k /\ handled (tr_k s) k).
Proof. intros Hs. apply runs_ret. exists (tr_k s). split; [by destruct s|]. split; [done|apply handled_refl]. Qed.

Lemma claim_complete irq : filter (fun x : Z => x <> irq) [irq] = [].
Proof. rewrite filter_cons_False; [done|]. by intros H. Qed.

Lemma external_runs s : trap_laws -> I (tr_k s) -> tr_claimed s = [] ->
  runs (let! irq := plic_claim in
    (if irq =? UART0_IRQ then in_k uartintr else if irq =? VIRTIO0_IRQ then in_k virtio_disk_intr else ret tt) ;;
    (if negb (irq =? 0) then plic_complete irq else ret tt) ;;
    ret 1) s (fun r s' => r = 1 /\ I (tr_k s') /\ handled (tr_k s) (tr_k s') /\ tr_claimed s' = [] /\ tr_hart s' = tr_hart s).
Proof.
  intros Hl Hs Hc. apply runs_bind. unfold plic_claim. apply runs_bind, runs_gets. destruct (tr_pending s) as [|irq p].
  { apply runs_ret. cbn. apply runs_bind, runs_ret, runs_bind, runs_ret, runs_ret. split_and!; [done..|apply handled_refl|done|done]. }
  apply runs_bind, runs_modify, runs_ret. set (s1 := Trst _ _ _ _). apply runs_bind. eapply runs_mono with (P := fun _ s' => exists k, s' = with_k k s1 /\ I k /\ handled (tr_k s1) k).
  { destruct (_ =? _); [by apply runs_handler, Hs; apply tl_uart|]. destruct (_ =? _); [by apply runs_handler, Hs; apply tl_virtio|by apply runs_nothing]. }
  intros _ s' (k & -> & Hk & Hkeep). apply runs_bind. cbn [negb Z.eqb]. apply runs_modify, runs_ret. split_and!; [done|done|done| |done]. unfold s1, with_k. cbn [tr_claimed]. rewrite Hc. apply claim_complete.
Qed.

Lemma external_cause cause : negb (Z.land cause 0x8000000000000000 =? 0) && (Z.land cause 0xff =? 9) = Z.testbit cause 63 && (cause mod 256 =? 9).
Proof.
  change 0x8000000000000000 with (Z.shiftl 1 63). rewrite land_flag, negb_involutive by lia. do 2 f_equal. change 0xff with (Z.ones 8). by rewrite Z.land_ones by lia.
Qed.

Lemma devintr_runs s : trap_laws -> I (tr_k s) -> tr_claimed s = [] -> runs (devintr ta uartintr virtio_disk_intr) s (dev_post s).
Proof.
  intros Hl Hs Hc. unfold devintr. apply runs_bind, runs_gets. rewrite external_cause. unfold dev_post, dev_of. destruct (_ && _).
  { eapply runs_mono; [by apply external_runs|]. intros r s' (-> & ? & ? & ? & ->). split_and!; [done..|]. eexists. apply set_sip_same. }
  change 0x8000000000000001 with (2 ^ 63 + 1). destruct (_ =? 2 ^ 63 + 1).
  2:{ apply runs_ret. split_and!; [done..|apply handled_refl|done|]. eexists. apply set_sip_same. }
  apply runs_bind, runs_bind, runs_gets, runs_ret, runs_bind. eapply runs_mono with (P := fun _ s' => exists k, s' = with_k k s /\ I k /\ handled (tr_k s) k).
  { destruct (_ =? 0); [by apply runs_handler, Hs; apply clock_handler|by apply runs_nothing]. }
  intros _ s' (k & -> & Hk & Hkeep). apply runs_bind, runs_gets, runs_bind, runs_mod_hart, runs_ret. split_and!; [done..|]. by eexists.
Qed.

Lemma intr_get_runs s (Q : bool -> trst -> Prop) : Q (Z.testbit (sstatus (tr_hart s)) 1) s -> runs intr_get s Q.
Proof. intros H. apply runs_bind, runs_gets, runs_ret. unfold SSTATUS_SIE. rewrite land_flag, negb_involutive by lia. done. Qed.

(** With interrupts off nothing comes in between; with interrupts on, in the kernel, what
    comes in keeps the trapframe. *)
Lemma preempt_off s (Q : unit -> trst -> Prop) : Z.testbit (sstatus (tr_hart s)) 1 = false -> Q tt s -> runs (preempt between) s Q.
Proof. intros E H. apply runs_bind, intr_get_runs. rewrite E. by apply runs_ret. Qed.
Lemma preempt_runs s : trap_laws -> kernel_ok s -> runs (preempt between) s (fun _ s' => kernel_ok s' /\ keeps (tr_k s) (tr_k s')).
Proof. intros Hl Hs. apply runs_bind, intr_get_runs. destruct (Z.testbit _ _); [by apply tl_between|]. apply runs_ret. split; [done|apply keeps_refl]. Qed.
End Spec.

(** Offsets in the trapframe. *)
Ltac offsets := unfold tf_kernel_satp, tf_kernel_sp, tf_kernel_trap, tf_kernel_hartid, tf_epc, tf_reg in *; lia.

Section Tramp.
Context {L : Linker} {F : Type} {FO : Files F}.
Context (me : Z) (I : tst (F := F) -> Prop) (Htf : forall k off v, I k -> 0 <= off <= 280 -> I (kst me k off v)).
Notation trst := (trst (F := F)).
Notation kslot := (kslot me).
Notation kproc := (kproc me).
Notation kst := (kst me).
Implicit Types (s : trst).

(** ** [trampoline.S] *)

(** The trapframe can be reached through a0. *)
Definition mapped s : Prop := gpr (tr_hart s) x_a0 = TRAPFRAME /\ satp (tr_hart s) = MAKE_SATP (p_pagetable (kproc (tr_k s))).

Lemma user_page_runs off s (Q : Z -> trst -> Prop) : satp (tr_hart s) = MAKE_SATP (p_pagetable (kproc (tr_k s))) -> 0 <= off <= 280 -> Q off s -> runs (user_page me (TRAPFRAME + off)) s Q.
Proof.
  intros E Ho H. unfold user_page. apply runs_bind, runs_gets, runs_bind, runs_gets, runs_bind. apply runs_panic_if.
  - change (procs (t_st (tr_k s)) me) with (kproc (tr_k s)). rewrite E, Z.eqb_refl. cbn [andb]. destruct (Z.leb_spec TRAPFRAME (TRAPFRAME + off)); [|lia]. by destruct (Z.leb_spec (TRAPFRAME + off) (TRAPFRAME + 280)); [|lia].
  - apply runs_ret. by replace (TRAPFRAME + off - TRAPFRAME) with off by lia.
Qed.

Lemma sd_runs n off s (Q : unit -> trst -> Prop) : mapped s -> 0 <= off <= 280 -> Q tt (with_k (kst (tr_k s) off (gpr (tr_hart s) n)) s) -> runs (sd me n off) s Q.
Proof. intros [Ea Es] Ho H. apply runs_bind, runs_gets, runs_bind, runs_gets, runs_bind. rewrite Ea. apply user_page_runs; [done..|]. by apply runs_set_tf. Qed.

Lemma ld_runs n off s (Q : unit -> trst -> Prop) : mapped s -> 0 <= off <= 280 -> Q tt (with_hart (set_gpr n (kslot (tr_k s) off) (tr_hart s)) s) -> runs (ld me n off) s Q.
Proof. intros [Ea Es] Ho H. apply runs_bind, runs_gets, runs_bind. rewrite Ea. apply user_page_runs; [done..|]. apply runs_bind, runs_get_tf, runs_mod_hart. exact H. Qed.

Definition regs (l : list Z) : Prop := Forall (fun n => 1 <= n <= 31) l.

(** The registers of [l] are in the trapframe [k'], which is otherwise that of [k]. *)
Record saved (l : list Z) (g : Z -> Z) (k k' : tst (F := F)) : Prop := {
  sv_inv : I k';
  sv_proc : kproc k' = kproc k;
  sv_reg n : n ∈ l -> kslot k' (tf_reg n) = u64 (g n);
  sv_other off : (forall n, n ∈ l -> off + 8 <= tf_reg n \/ tf_reg n + 8 <= off) -> kslot k' off = kslot k off;
}.

Lemma save_loop l : forall s, regs l -> mapped s -> I (tr_k s) ->
  runs (mfor l (fun n => sd me n (tf_reg n))) s (fun _ s' => exists k, s' = with_k k s /\ saved l (gpr (tr_hart s)) (tr_k s) k).
Proof.
  induction l as [|n l IH]; intros s Hl Hm Hs; cbn [mfor].
  { apply runs_ret. exists (tr_k s). split; [by destruct s|]. split; [done|done| |done]. intros n Hn. by apply elem_of_nil in Hn. }
  apply Forall_cons in Hl as [Hn Hl]. apply runs_bind, sd_runs; [done|unfold tf_reg; lia|]. eapply runs_mono; [apply IH; [done|exact Hm|apply Htf; [done|unfold tf_reg; lia]]|].
  intros _ s' (k & -> & [K1 K2 K3 K4]). exists k. split; [done|]. split; [done|by rewrite K2| |].
  - intros m Hm'. destruct (decide (m ∈ l)) as [Hi|Hi]; [by apply K3|]. apply elem_of_cons in Hm' as [->|]; [|done]. rewrite K4; [apply kslot_eq|]. intros m Hml. assert (m <> n) by congruence. unfold tf_reg. lia.
  - intros off Ho. rewrite K4 by (intros m Hm'; apply Ho; by right). apply kslot_ne. specialize (Ho n). rewrite elem_of_cons in Ho. intuition lia.
Qed.

Definition set_gprs (g : Z -> Z) (h : hart) : hart := Hart (sstatus h) (stvec h) (sepc h) (scause h) (stval h) (sip h) (satp h) (sscratch h) g.

Lemma restore_loop l : forall s, regs l -> x_a0 ∉ l -> mapped s ->
  runs (mfor l (fun n => ld me n (tf_reg n))) s (fun _ s' => exists g, s' = with_hart (set_gprs g (tr_hart s)) s /\
    (forall n, n ∈ l -> g n = kslot (tr_k s) (tf_reg n)) /\ (forall n, n ∉ l -> g n = gpr (tr_hart s) n)).
Proof.
  induction l as [|n l IH]; intros s Hl Ha Hm; cbn [mfor].
  { apply runs_ret. exists (gpr (tr_hart s)). split; [by destruct s as [[]]|]. split; [|done]. intros n Hn. by apply elem_of_nil in Hn. }
  apply Forall_cons in Hl as [Hn Hl]. apply not_elem_of_cons in Ha as [Hne Ha]. apply runs_bind, ld_runs; [done|unfold tf_reg; lia|].
  eapply runs_mono; [apply IH; [done|done|]|].
  { destruct Hm as [Ea Es]. split; [|done]. cbn. by rewrite upd_ne. }
  intros _ s' (g & -> & G1 & G2). exists g. split; [done|]. split.
  - intros m Hm'. destruct (decide (m ∈ l)) as [Hi|Hi]; [by apply G1|]. apply elem_of_cons in Hm' as [->|]; [|done]. rewrite G2 by done. cbn. apply upd_eq.
  - intros m Hm'. apply not_elem_of_cons in Hm' as [? ?]. rewrite G2 by done. cbn. by apply upd_ne.
Qed.

Lemma saved_regs_all n : 1 <= n <= 31 -> n <> x_a0 -> n ∈ saved_regs.
Proof. unfold x_a0, saved_regs. cbn [app]. rewrite !elem_of_cons. lia. Qed.
Lemma saved_regs_ok : regs saved_regs /\ x_a0 ∉ saved_regs.
Proof. split; [repeat constructor; lia|]. unfold saved_regs, x_a0. cbn [app]. rewrite !elem_of_cons, elem_of_nil. lia. Qed.

(** The registers and the program's state after [uservec]. *)
Record entered s s' : Prop := {
  en_inv : I (tr_k s');
  en_proc : kproc (tr_k s') = kproc (tr_k s);
  en_reg n : 1 <= n <= 31 -> kslot (tr_k s') (tf_reg n) = u64 (gpr (tr_hart s) n);
  en_slot off : 0 <= off <= 32 -> kslot (tr_k s') off = kslot (tr_k s) off;
  en_claimed : tr_claimed s' = tr_claimed s;
  en_csr : sstatus (tr_hart s') = sstatus (tr_hart s) /\ stvec (tr_hart s') = stvec (tr_hart s) /\ sepc (tr_hart s') = sepc (tr_hart s) /\ scause (tr_hart s') = scause (tr_hart s);
  en_satp : satp (tr_hart s') = kslot (tr_k s) tf_kernel_satp;
  en_sp : gpr (tr_hart s') x_sp = kslot (tr_k s) tf_kernel_sp;
  en_tp : gpr (tr_hart s') x_tp = kslot (tr_k s) tf_kernel_hartid;
}.

Lemma uservec_runs s : I (tr_k s) -> sscratch (tr_hart s) = TRAPFRAME -> satp (tr_hart s) = MAKE_SATP (p_pagetable (kproc (tr_k s))) ->
  runs (uservec me) s (fun fn s' => fn = kslot (tr_k s) tf_kernel_trap /\ entered s s').
Proof.
  intros Hs Hx Hp. unfold uservec. apply runs_bind. unfold swap_a0. apply runs_bind, runs_gets, runs_bind, runs_gets, runs_bind, runs_mod_hart, runs_mod_hart. set (s1 := with_hart _ _). assert (mapped s1) as Hm by (split; [exact Hx|exact Hp]).
  apply runs_bind. eapply runs_mono; [apply save_loop; [apply saved_regs_ok|exact Hm|exact Hs]|]. intros _ s2 (k & -> & [K1 K2 K3 K4]). change (tr_k s1) with (tr_k s) in *. pose proof Hp as Hp2. rewrite <- K2 in Hp2.
  apply runs_bind, runs_gets, runs_bind, runs_mod_hart, runs_bind. apply sd_runs; [split; [exact Hx|exact Hp2]|done|].
  set (k2 := kst _ _ _). assert (forall off, 0 <= off <= 32 -> kslot k2 off = kslot (tr_k s) off) as Hlow.
  { intros off Ho. unfold k2. rewrite kslot_ne by (unfold tf_reg, x_a0; lia). cbn [tr_k with_k with_hart]. apply K4. intros n Hn. destruct saved_regs_ok as [Hr _]. eapply Forall_forall in Hr; [|done]. cbn in Hr. unfold tf_reg. lia. }
  do 4 (apply runs_bind; apply ld_runs; [split; [exact Hx|exact Hp2]|done|]).
  apply runs_bind, runs_gets, runs_bind, runs_mod_hart, runs_gets. cbn -[kslot k2]. split; [by apply Hlow|].
  split; cbn -[kslot k2]; [by apply Htf|exact K2| |by apply Hlow|done|done|by apply Hlow|by apply Hlow|by apply Hlow].
  intros n Hn. destruct (Z.eq_dec n x_a0) as [->|Hne].
  - unfold k2. rewrite kslot_eq. reflexivity.
  - unfold k2. rewrite kslot_ne by (unfold tf_reg, x_a0 in *; lia). rewrite K3 by (by apply saved_regs_all). cbn. by rewrite upd_ne.
Qed.

(** The state after [userret]. *)
Record left_kernel (v : Z) s s' : Prop := {
  lk_k : tr_k s' = tr_k s;
  lk_claimed : tr_claimed s' = tr_claimed s;
  lk_satp : satp (tr_hart s') = v;
  lk_scratch : sscratch (tr_hart s') = TRAPFRAME;
  lk_csr : stvec (tr_hart s') = stvec (tr_hart s) /\ sepc (tr_hart s') = sepc (tr_hart s) /\ sstatus (tr_hart s') = sstatus (sret (tr_hart s));
  lk_reg n : 1 <= n <= 31 -> gpr (tr_hart s') n = kslot (tr_k s) (tf_reg n);
}.

Lemma userret_runs v s : v = MAKE_SATP (p_pagetable (kproc (tr_k s))) -> runs (userret me TRAPFRAME v) s (fun _ s' => left_kernel v s s').
Proof.
  intros ->. unfold userret. apply runs_bind, runs_mod_hart, runs_bind, runs_mod_hart, runs_bind, runs_gets, runs_bind, runs_mod_hart, runs_bind. apply ld_runs; [split; [done|cbn; by rewrite ?upd_eq]|done|].
  apply runs_bind, runs_gets, runs_bind, runs_mod_hart, runs_bind. eapply runs_mono; [apply restore_loop; [apply saved_regs_ok..|split; [done|cbn; by rewrite ?upd_eq]]|].
  intros _ s2 (g & -> & G1 & G2). apply runs_bind. unfold swap_a0. apply runs_bind, runs_gets, runs_bind, runs_gets, runs_bind, runs_mod_hart, runs_mod_hart, runs_mod_hart.
  split; [done|done|cbn; by rewrite ?upd_eq| |done|].
  - cbn. rewrite G2 by apply saved_regs_ok. done.
  - intros n Hn. cbn -[kslot]. destruct (Z.eq_dec n x_a0) as [->|Hne]; [by rewrite !upd_eq|]. rewrite upd_ne by done. by rewrite G1 by (by apply saved_regs_all).
Qed.
End Tramp.

(** ** [usertrap] *)

Section User.
Context {L : Linker} {F : Type} {FO : Files F}.
Context (fa : Z) (xa pa : Z -> Z) (ta : Z) (uartintr virtio_disk_intr : M (tst (F := F)) unit).
Context (yield between : M (trst (F := F)) unit) (kvec uvec tramp utrap : Z) (me : Z) (filecall : Z -> M (tst (F := F)) pres).
Context (KS : Z) (I : tst (F := F) -> Prop).
Notation trst := (trst (F := F)).
Notation kslot := (kslot me).
Notation kproc := (kproc me).
Notation kernel_ok := (kernel_ok kvec KS I).
Notation laws := (trap_laws fa xa pa ta uartintr virtio_disk_intr yield between kvec utrap me filecall KS I).
Implicit Types (s : trst) (k : tst (F := F)).

Definition uservec_va : Z := TRAMPOLINE + (uvec - tramp).

(** What a user program sees of its trapframe. *)
Record same_user k k' : Prop := {
  su_pt : p_pagetable (kproc k') = p_pagetable (kproc k);
  su_epc : kslot k' tf_epc = kslot k tf_epc;
  su_reg n : 1 <= n <= 31 -> kslot k' (tf_reg n) = kslot k (tf_reg n);
}.

Lemma keeps_user k k' : keeps me k k' -> same_user k k'.
Proof. intros [A1 A2 A3 A4]. split; [done|by apply A4|]. intros n Hn. apply A4. unfold tf_reg. lia. Qed.
Lemma same_user_trans k1 k2 k3 : same_user k1 k2 -> same_user k2 k3 -> same_user k1 k3.
Proof. intros [A1 A2 A3] [B1 B2 B3]. split; [congruence|congruence|]. intros n Hn. by rewrite B3, A3. Qed.
Lemma same_user_low k off v : off + 8 <= tf_epc \/ tf_epc + 8 <= off <= 32 -> same_user k (kst me k off v).
Proof. unfold tf_epc. intros Ho. split; [done|apply kslot_ne; unfold tf_epc; lia|]. intros n Hn. apply kslot_ne. unfold tf_reg. lia. Qed.

(** The trapframe is ready for the next trap. *)
Record armed k : Prop := {
  ar_satp : kslot k tf_kernel_satp = KS;
  ar_sp : kslot k tf_kernel_sp = u64 (p_kstack (kproc k) + PGSIZE);
  ar_trap : kslot k tf_kernel_trap = utrap;
}.

(** The state in which [usertrapret] calls [userret]; [hid] is the hart. *)
Record ready (o : uout) s' : Prop := {
  rd_out : o = ToUser (MAKE_SATP (p_pagetable (kproc (tr_k s'))));
  rd_vec : stvec (tr_hart s') = uservec_va;
  rd_claimed : tr_claimed s' = [];
  rd_inv : I (tr_k s');
  rd_armed : armed (tr_k s');
  rd_hartid : kslot (tr_k s') tf_kernel_hartid = gpr (tr_hart s') x_tp;
  rd_bits : Z.testbit (sstatus (tr_hart s')) 8 = false /\ Z.testbit (sstatus (tr_hart s')) 5 = true;
  rd_epc : sepc (tr_hart s') = kslot (tr_k s') tf_epc;
}.

Lemma ret_bits x : Z.testbit (Z.lor (Z.land x (Z.lnot SSTATUS_SPP)) SSTATUS_SPIE) 8 = false /\ Z.testbit (Z.lor (Z.land x (Z.lnot SSTATUS_SPP)) SSTATUS_SPIE) 5 = true.
Proof. unfold SSTATUS_SPP, SSTATUS_SPIE. by rewrite !lor_bit, !land_lnot_bit. Qed.

Lemma usertrapret_runs s : laws -> kernel_ok s ->
  runs (usertrapret between uvec tramp utrap me) s (fun o s' => ready o s' /\ same_user (tr_k s) (tr_k s')).
Proof.
  intros Hl Hs. unfold usertrapret. apply runs_bind. eapply runs_mono; [by eapply preempt_runs|]. intros _ s1 [[H1 H2 H3 H4 H5] Hk]. apply runs_bind. unfold intr_off. apply runs_bind, runs_gets, runs_mod_hart.
  assert (Z.testbit (Z.land (sstatus (tr_hart s1)) (Z.lnot SSTATUS_SIE)) 1 = false) as Hoff by (unfold SSTATUS_SIE; by rewrite land_lnot_bit).
  apply runs_bind, preempt_off; [exact Hoff|]. apply runs_bind, runs_mod_hart, runs_bind, preempt_off; [exact Hoff|].
  apply runs_bind, runs_gets, runs_bind, runs_gets. do 3 (apply runs_bind, runs_set_tf). apply runs_bind, runs_gets, runs_bind, runs_set_tf, runs_bind, runs_gets, runs_bind, runs_mod_hart, runs_bind, runs_get_tf, runs_bind, runs_mod_hart, runs_ret.
  cbn -[TrapTop.kslot kst]. set (ks0 := satp (tr_hart s1)) in *. change (satp (tr_hart s1)) with ks0.
  destruct (tl_ks _ _ _ _ _ _ _ _ _ _ _ _ _ _ Hl), (tl_utrap _ _ _ _ _ _ _ _ _ _ _ _ _ _ Hl).
  split.
  - split; cbn -[TrapTop.kslot kst]; [done|done|done| | | | |done].
    + do 4 (apply (tl_tf _ _ _ _ _ _ _ _ _ _ _ _ _ _ Hl); [|done]). done.
    + split; repeat (rewrite kslot_ne by offsets); rewrite kslot_eq; [by rewrite H2, u64_small|done|by rewrite u64_small].
    + rewrite kslot_eq. by apply u64_small.
    + apply ret_bits.
  - eapply same_user_trans; [by apply keeps_user|]. do 3 (eapply same_user_trans; [|apply same_user_low; offsets]). apply same_user_low. offsets.
Qed.

(** What may fail: [exit] of a killed process, and a system call. *)
Context (P : res unit -> Prop).
Definition exit_fails : Prop := forall k, p_killed (kproc k) = true -> P (fault (in_pst (exit pa me (-1)) k)).

(** [exit(-1)] of a killed process in the state [k]. *)
Definition exits k s' : Prop := p_killed (kproc k) = true /\ in_pst (exit pa me (-1)) k = Ok (tt, tr_k s').

(** [usertrap] from its second test on: it calls [exit] if and only if the process is killed. *)
Definition end_post s (o : uout) s' : Prop :=
  if p_killed (kproc (tr_k s)) then o = Exited /\ exits (tr_k s) s' else ready o s' /\ same_user (tr_k s) (tr_k s').

Lemma exit_ends s : p_killed (kproc (tr_k s)) = true -> exit_fails ->
  ends (in_k (in_pst (exit pa me (-1))) ;; ret Exited) s (fun o s' => o = Exited /\ exits (tr_k s) s') (fails_like P).
Proof. intros Ek HP. apply ends_bind, ends_k; [by apply HP|]. by intros [] k Hk. Qed.

Lemma usertrap_end_runs w s : laws -> kernel_ok s -> (p_killed (kproc (tr_k s)) = true -> exit_fails) ->
  ends (usertrap_end pa yield between uvec tramp utrap me w) s (end_post s) (fails_like P).
Proof.
  intros Hl Hs HP. unfold usertrap_end, end_post. apply ends_step, runs_gets. change (procs (t_st (tr_k s)) me) with (kproc (tr_k s)). destruct (p_killed _) eqn:Ek.
  - apply exit_ends; auto.
  - apply ends_runs, runs_bind. eapply runs_mono with (P := fun _ s1 => kernel_ok s1 /\ keeps me (tr_k s) (tr_k s1)).
    { destruct (_ =? _); [by eapply tl_yield|]. apply runs_ret. split; [done|apply keeps_refl]. }
    intros _ s1 [H1 H2]. eapply runs_mono; [by apply usertrapret_runs|]. intros o s' [H3 H4]. split; [done|]. eapply same_user_trans; [by apply keeps_user|done].
Qed.

(** What a system call does: it finds the registers of the program and the address of the next
    instruction in the trapframe, and the program goes on with what it leaves there. *)
Definition calls k0 (pc : Z) k1 : Prop :=
  (forall n, 1 <= n <= 31 -> kslot k1 (tf_reg n) = kslot k0 (tf_reg n)) /\ kslot k1 tf_epc = u64 (u64 pc + 4).
(** After the call, which left the state [k]: the process waits in the kernel; or it goes on,
    unless it has been killed by then. *)
Definition call_end (r : bool) k (o : uout) s' : Prop :=
  if r then exists k1, keeps me k k1 /\ if p_killed (kproc k1) then o = Exited /\ exits k1 s' else ready o s' /\ same_user k1 (tr_k s')
  else o = InKernel /\ kernel_ok s' /\ tr_k s' = k.
Definition called k0 (pc : Z) (o : uout) s' : Prop :=
  exists k1 r k2, calls k0 pc k1 /\ syscall fa xa pa ta me filecall k1 = Ok (r, k2) /\ call_end r k2 o s'.

(** A system call of a process that is not killed is made; a process exits if it is killed or
    after a trap that is neither an interrupt nor a call; otherwise it goes on. *)
Definition usertrap_post s (o : uout) s' : Prop :=
  let cause := scause (tr_hart s) in let pc := sepc (tr_hart s) in let killed := p_killed (kproc (tr_k s)) in
  if (cause =? 8) && negb killed then called (tr_k s) pc o s'
  else if (dev_of cause =? 0) || killed then o = Exited /\ exists k, exits k s'
  else ready o s' /\ kslot (tr_k s') tf_epc = u64 pc /\ forall n, 1 <= n <= 31 -> kslot (tr_k s') (tf_reg n) = kslot (tr_k s) (tf_reg n).

(** The state in which [uservec] calls [usertrap]. *)
Record from_user s : Prop := {
  fu_bits : Z.testbit (sstatus (tr_hart s)) 8 = false /\ Z.testbit (sstatus (tr_hart s)) 1 = false;
  fu_satp : satp (tr_hart s) = KS;
  fu_tp : 0 <= gpr (tr_hart s) x_tp < 2 ^ 64;
  fu_claimed : tr_claimed s = [];
  fu_inv : I (tr_k s);
}.

Lemma kernel_ok_k k s : kernel_ok s -> I k -> kernel_ok (with_k k s).
Proof. by intros [A1 A2 A3 A4 A5] H. Qed.

Lemma inv_tf k off v : laws -> I k -> 0 <= off <= 280 -> I (kst me k off v).
Proof. intros []. auto. Qed.

Lemma inv_syscall k r k' : laws -> I k -> syscall fa xa pa ta me filecall k = Ok (r, k') -> I k'.
Proof. intros []. eauto. Qed.

Definition run_syscall : M trst uout :=
  let! epc := get_tf me tf_epc in
  set_tf me tf_epc (epc + 4) ;;
  intr_on ;;
  preempt between ;;
  let! r := in_k (syscall fa xa pa ta me filecall) in
  if r then preempt between ;; usertrap_end pa yield between uvec tramp utrap me 0 else ret InKernel.

Lemma run_syscall_runs s pc : laws -> kernel_ok s -> kslot (tr_k s) tf_epc = u64 pc ->
  (forall k, calls (tr_k s) pc k -> P (fault (syscall fa xa pa ta me filecall k))) -> exit_fails ->
  ends run_syscall s (called (tr_k s) pc) (fails_like P).
Proof.
  intros Hl Hs Epc HP HE. unfold run_syscall. apply ends_step, runs_get_tf, ends_step, runs_set_tf, ends_step. unfold intr_on. apply runs_bind, runs_gets, runs_mod_hart, ends_step. set (s1 := with_hart _ _).
  assert (kernel_ok s1) as H1. { destruct Hs as [A1 A2 A3 A4 A5]. split; [done..|]. exact (inv_tf _ tf_epc _ Hl A5 ltac:(offsets)). }
  assert (kslot (tr_k s1) tf_epc = u64 (u64 pc + 4)) as E1 by (rewrite <- Epc; apply kslot_eq).
  assert (forall n, 1 <= n <= 31 -> kslot (tr_k s1) (tf_reg n) = kslot (tr_k s) (tf_reg n)) as R1 by (intros n Hn; apply kslot_ne; offsets).
  eapply runs_mono; [by eapply preempt_runs|]. intros _ s2 [H2 K2%keeps_user].
  assert (calls (tr_k s) pc (tr_k s2)) as Hc by (split; [intros n Hn; by rewrite (su_reg _ _ K2), R1|by rewrite (su_epc _ _ K2)]).
  apply ends_bind, ends_k; [by apply HP|]. intros r k2 Hr. pose proof (kernel_ok_k k2 s2 H2 (inv_syscall _ _ _ Hl (ko_inv _ _ _ _ H2) Hr)) as H3.
  destruct r; [|by exists (tr_k s2), false, k2].
  apply ends_step. eapply runs_mono; [by eapply preempt_runs|]. intros _ s4 [H4 K4]. eapply ends_mono; [by apply usertrap_end_runs|]. intros o s' Hp. exists (tr_k s2), true, k2. split_and!; [done|done|]. by exists (tr_k s4).
Qed.

Lemma killed_kept s : kernel_ok s -> laws -> runs (in_k (in_pst (mod_proc me (with_killed true)))) s (fun _ s' => kernel_ok s' /\ p_killed (kproc (tr_k s')) = true).
Proof.
  intros Hs Hl. apply runs_k. eexists _, _. split; [reflexivity|]. split; [apply kernel_ok_k; [done|]; eapply (tl_killed _ _ _ _ _ _ _ _ _ _ _ _ _ _ Hl); [apply Hs|reflexivity]|]. unfold TrapTop.kproc. cbn. by rewrite upd_eq.
Qed.

Lemma run_other_runs s : laws -> kernel_ok s -> (dev_of (scause (tr_hart s)) = 0 \/ p_killed (kproc (tr_k s)) = true -> exit_fails) ->
  ends (let! which_dev := devintr ta uartintr virtio_disk_intr in
    (if which_dev =? 0 then in_k (in_pst (mod_proc me (with_killed true))) else ret tt) ;;
    usertrap_end pa yield between uvec tramp utrap me which_dev) s
  (fun o s' => if (dev_of (scause (tr_hart s)) =? 0) || p_killed (kproc (tr_k s)) then o = Exited /\ exists k, exits k s' else ready o s' /\ same_user (tr_k s) (tr_k s')) (fails_like P).
Proof.
  intros Hl Hs HE. apply ends_step. eapply runs_mono; [eapply devintr_runs; [exact Hl|apply Hs|apply Hs]|]. intros r s1 (-> & I1 & [K1%keeps_user Ek1] & C1 & x & E1).
  assert (kernel_ok s1) as H1 by (destruct Hs; split; rewrite ?E1; done). apply ends_step. destruct (Z.eqb_spec (dev_of (scause (tr_hart s))) 0) as [E|E]; cbn [orb].
  - eapply runs_mono; [by apply killed_kept|]. intros _ s2 [H2 Ek]. eapply ends_mono; [apply usertrap_end_runs; auto|]. intros o s' Hp. unfold end_post in Hp. rewrite Ek in Hp. destruct Hp. eauto.
  - apply runs_ret. eapply ends_mono; [apply usertrap_end_runs; [done|done|rewrite Ek1; auto]|]. intros o s' Hp. unfold end_post in Hp. rewrite Ek1 in Hp. destruct (p_killed _); destruct Hp; [eauto|]. split; [done|]. by eapply same_user_trans.
Qed.

Lemma calls_same k0 k0' pc k : (forall n, 1 <= n <= 31 -> kslot k0 (tf_reg n) = kslot k0' (tf_reg n)) -> calls k0 pc k -> calls k0' pc k.
Proof. intros R [A1 A2]. split; [|done]. intros n Hn. by rewrite A1, R. Qed.

Lemma usertrap_runs s : laws -> from_user s ->
  (forall k, scause (tr_hart s) = 8 -> calls (tr_k s) (sepc (tr_hart s)) k -> P (fault (syscall fa xa pa ta me filecall k))) ->
  (scause (tr_hart s) = 8 \/ dev_of (scause (tr_hart s)) = 0 \/ p_killed (kproc (tr_k s)) = true -> exit_fails) ->
  ends (usertrap fa xa pa ta uartintr virtio_disk_intr yield between kvec uvec tramp utrap me filecall) s (usertrap_post s) (fails_like P).
Proof.
  intros Hl [[B8 B1] Hsat Htp Hc Hi] HP HE. unfold usertrap. apply ends_step, runs_gets, ends_step, runs_panic_if; [unfold SSTATUS_SPP; by rewrite land_flag, negb_involutive|].
  apply ends_step, runs_mod_hart, ends_step, preempt_off; [exact B1|]. apply ends_step, runs_gets, ends_step, runs_set_tf, ends_step, preempt_off; [exact B1|]. apply ends_step, runs_gets. set (s1 := with_k _ _).
  assert (kernel_ok s1) as H1 by (split; [done..|exact (inv_tf _ tf_epc _ Hl Hi ltac:(offsets))]).
  assert (kslot (tr_k s1) tf_epc = u64 (sepc (tr_hart s))) as E1 by apply kslot_eq.
  assert (forall n, 1 <= n <= 31 -> kslot (tr_k s1) (tf_reg n) = kslot (tr_k s) (tf_reg n)) as R1 by (intros n Hn; apply kslot_ne; offsets).
  unfold usertrap_post. change (scause (tr_hart s1)) with (scause (tr_hart s)). destruct (Z.eqb_spec (scause (tr_hart s)) 8) as [E|E].
  - rewrite E. apply ends_step, runs_gets. change (procs (t_st (tr_k s1)) me) with (kproc (tr_k s)). destruct (p_killed _) eqn:Ek; cbn [negb andb].
    { eapply ends_mono; [apply exit_ends; [exact Ek|auto]|]. rewrite orb_true_r. intros o s' []. eauto. }
    eapply ends_mono.
    { apply run_syscall_runs; [done|done|done| |auto]. intros k Hk. apply HP, (calls_same (tr_k s1)); done. }
    intros o s' (k1 & r & k2 & A1 & A2). exists k1, r, k2. split; [by apply (calls_same (tr_k s1))|done].
  - cbn [andb]. eapply ends_mono; [apply run_other_runs; auto|]. change (kproc (tr_k s1)) with (kproc (tr_k s)). change (scause (tr_hart s1)) with (scause (tr_hart s)). intros o s'. destruct (_ || _); [done|]. intros (A2 & [A3 A4 A5]). split_and!; [done|by rewrite A4|]. intros n Hn. by rewrite A5, R1.
Qed.
End User.

(** ** Theorems *)

Section Theorems.
Context {L : Linker} {F : Type} {FO : Files F}.
Context (fa : Z) (xa pa : Z -> Z) (ta : Z) (uartintr virtio_disk_intr : M (tst (F := F)) unit).
Context (yield between : M (trst (F := F)) unit) (kvec uvec tramp utrap : Z) (me : Z) (filecall : Z -> M (tst (F := F)) pres).
Context (KS : Z) (I : tst (F := F) -> Prop).
Notation trst := (trst (F := F)).
Notation kslot := (kslot me).
Notation kproc := (kproc me).
Notation laws := (trap_laws fa xa pa ta uartintr virtio_disk_intr yield between kvec utrap me filecall KS I).
Implicit Types (s : trst) (k : tst (F := F)).

(** A hart that runs the process [me] in user mode. *)
Record in_user s : Prop := {
  iu_vec : stvec (tr_hart s) = uservec_va uvec tramp;
  iu_satp : satp (tr_hart s) = MAKE_SATP (p_pagetable (kproc (tr_k s)));
  iu_scratch : sscratch (tr_hart s) = TRAPFRAME;
  iu_claimed : tr_claimed s = [];
  iu_inv : I (tr_k s);
  iu_armed : armed utrap me KS (tr_k s);
}.

(** The trapframe during a system call of a program with the registers of [s], and the
    registers of a program that goes on in [s'] with the trapframe of [k]. *)
Definition call_state s (pc : Z) k : Prop := (forall n, 1 <= n <= 31 -> kslot k (tf_reg n) = gpr (tr_hart s) n) /\ kslot k tf_epc = u64 (pc + 4).
Definition resumes k s' : Prop := (forall n, 1 <= n <= 31 -> gpr (tr_hart s') n = kslot k (tf_reg n)) /\ sepc (tr_hart s') = kslot k tf_epc.

(** What can go wrong in the kernel: the system call, and [exit] of a killed process, after a
    call, a fault, or a trap of a process that was killed before. *)
Definition may_fail s (cause pc : Z) (r : res unit) : Prop :=
  (cause = 8 /\ exists k, call_state s pc k /\ r = fault (syscall fa xa pa ta me filecall k)) \/
  ((cause = 8 \/ dev_of cause = 0 \/ p_killed (kproc (tr_k s)) = true) /\ exists k, p_killed (kproc k) = true /\ r = fault (in_pst (exit pa me (-1)) k)).

(** The program goes on in user mode with interrupts on, ready for the next trap. *)
Definition goes_on (o : uout) s' : Prop := (exists v, o = ToUser v) /\ in_user s' /\ Z.testbit (sstatus (tr_hart s')) 1 = true.

Definition user_post s (cause pc : Z) (o : uout) s' : Prop :=
  let killed := p_killed (kproc (tr_k s)) in
  if (cause =? 8) && negb killed then
    exists k r k', call_state s pc k /\ syscall fa xa pa ta me filecall k = Ok (r, k') /\
      if r then exists k1, keeps me k' k1 /\ if p_killed (kproc k1) then o = Exited /\ exits pa me k1 s' else goes_on o s' /\ resumes k' s'
      else o = InKernel /\ kernel_ok kvec KS I s' /\ tr_k s' = k'
  else if (dev_of cause =? 0) || killed then o = Exited /\ exists k, exits pa me k s'
  else goes_on o s' /\ sepc (tr_hart s') = pc /\ forall n, 1 <= n <= 31 -> gpr (tr_hart s') n = gpr (tr_hart s) n.

Lemma u64_pc pc : u64 (u64 pc + 4) = u64 (pc + 4).
Proof. unfold u64. apply Zplus_mod_idemp_l. Qed.

(** The way back. *)
Lemma back_to_user s o : ready uvec tramp utrap me KS I o s ->
  runs (match o with ToUser v => userret me TRAPFRAME v ;; ret o | _ => ret o end) s
    (fun o' s' => goes_on o' s' /\ resumes (tr_k s) s').
Proof.
  intros [-> R1 R2 R3 R4 R5 [R6 R7] R8]. apply runs_bind. eapply runs_mono; [by apply userret_runs|]. intros _ s' [A1 A2 A3 A4 (A5 & A6 & A7) A8]. apply runs_ret. split; [split; [by eexists|]; split|].
  - split; rewrite ?A1; congruence || done.
  - rewrite A7. unfold sret, set_sstatus. cbn [sstatus]. rewrite !put_bit_spec by lia. exact R7.
  - split; [done|by rewrite A6].
Qed.

(** C24. A trap in user mode, of any cause.  It reaches [usertrap] with the page table, the hart id
    and the registers in place, and interrupts are only taken by the kernel's handler.  After
    an interrupt a process that was not killed before goes on at the same instruction with the
    same registers, maybe on another hart.  A system call of a process that is not killed finds
    the registers of the program and the address of the next instruction in the trapframe; if
    it returns, the program goes on with what it leaves there, unless the process is killed by
    then.  In all other cases, and only then, the process ends in [exit(-1)].  A program that goes
    on has interrupts on and is ready for the next trap.  No panic but those of the system call
    and of [exit] comes up. *)
Theorem user_trap_correct s (cause val pc : Z) (Hl : laws) (Hu : in_user s)
    (Hreg : forall n, 1 <= n <= 31 -> 0 <= gpr (tr_hart s) n < 2 ^ 64) (Hpc : 0 <= pc < 2 ^ 64) :
  ends (trap_from_user fa xa pa ta uartintr virtio_disk_intr yield between kvec uvec tramp utrap me filecall cause val pc) s
    (user_post s cause pc) (fails_like (may_fail s cause pc)).
Proof.
  destruct Hu as [U1 U2 U3 U4 U5 [U6 U7 U8]]. unfold trap_from_user. apply ends_step, runs_mod_hart, ends_step, runs_gets, ends_step, runs_panic_if; [cbn; by rewrite U1, Z.eqb_refl|].
  set (s1 := with_hart _ _). apply ends_step. eapply runs_mono; [apply (uservec_runs me I); [intros; by eapply inv_tf|done|done|done]|].
  intros fn s2 [-> [E1 E2 E3 E4 E5 (E6 & E7 & E8 & E9) E10 E11 E12]]. change (tr_k s1) with (tr_k s) in *. apply ends_step, runs_panic_if; [by rewrite U8, Z.eqb_refl|].
  assert (forall n, 1 <= n <= 31 -> kslot (tr_k s2) (tf_reg n) = gpr (tr_hart s) n) as R2 by (intros n Hn; rewrite E3 by done; apply u64_small; by apply Hreg).
  assert (forall k, calls me (tr_k s2) pc k -> call_state s pc k) as Hcalls by (intros k [A1 A2]; split; [intros n Hn; by rewrite A1, R2|by rewrite A2, u64_pc]).
  assert (from_user KS I s2) as Hfrom.
  { split; [|by rewrite E10|rewrite E12; apply load64_bound|by rewrite E5|done]. rewrite E6. unfold s1. cbn [tr_hart with_hart trap_entry sstatus]. rewrite !put_bit_spec by lia. done. }
  apply ends_bind. eapply ends_mono.
  { eapply usertrap_runs; [exact Hl|exact Hfrom|..]; rewrite ?E2, ?E8, E9.
    - intros k Hc Hk. left. split; [exact Hc|]. exists k. split; [by apply Hcalls|done].
    - intros Hc k Hk. right. split; [exact Hc|]. by exists k. }
  intros o s3 Hp. unfold usertrap_post in Hp. rewrite E8, E9, E2 in Hp. change (scause (tr_hart s1)) with cause in Hp. change (sepc (tr_hart s1)) with pc in Hp. unfold user_post. apply ends_runs. cbv zeta in *. destruct (_ && _).
  - destruct Hp as (k & r & k' & B1%Hcalls & B2 & B3). destruct r.
    + destruct B3 as (k1 & B4 & B5). destruct (p_killed _) eqn:Ek.
      * destruct B5 as [-> B5]. apply runs_ret. exists k, true, k'. split_and!; [done|done|]. exists k1. by rewrite Ek.
      * destruct B5 as [B5 [C1 C2 C3]]. eapply runs_mono; [by apply back_to_user|]. intros o' s' (A1 & A3 & A4). exists k, true, k'. split_and!; [done|done|]. exists k1. rewrite Ek. apply keeps_user in B4 as D. destruct D as [D1 D2 D3]. split_and!; [done|done|].
        split; [intros n Hn; by rewrite A3, C3, D3|by rewrite A4, C2, D2].
    + destruct B3 as (-> & B4 & B5). apply runs_ret. by exists k, false, k'.
  - destruct (_ || _); [destruct Hp as [-> Hp]; by apply runs_ret|]. destruct Hp as (B1 & B2 & B3). eapply runs_mono; [by apply back_to_user|]. intros o' s' (A1 & A3 & A4). split; [done|]. split; [rewrite A4, B2; by apply u64_small|]. intros n Hn. by rewrite A3, B3, R2.
Qed.

Lemma kerneltrap_runs s cur : laws -> kernel_ok kvec KS I s -> Z.testbit (sstatus (tr_hart s)) 8 = true -> Z.testbit (sstatus (tr_hart s)) 1 = false -> dev_of (scause (tr_hart s)) <> 0 ->
  runs (kerneltrap ta uartintr virtio_disk_intr yield cur) s
    (fun _ s' => kernel_ok kvec KS I s' /\ keeps me (tr_k s) (tr_k s') /\ sepc (tr_hart s') = sepc (tr_hart s) /\ sstatus (tr_hart s') = sstatus (tr_hart s)).
Proof.
  intros Hl Hk B8 B1 Hd. unfold kerneltrap. apply runs_bind, runs_gets, runs_bind, runs_gets, runs_bind, runs_panic_if; [unfold SSTATUS_SPP; by rewrite land_flag, B8|].
  apply runs_bind, intr_get_runs, runs_bind, runs_panic_if; [done|]. apply runs_bind. eapply runs_mono; [eapply devintr_runs; [exact Hl|apply Hk|apply Hk]|]. intros r s1 (-> & I1 & [P1 _] & C1 & x & E1).
  assert (kernel_ok kvec KS I s1) as H1 by (destruct Hk; split; rewrite ?E1; done). apply runs_bind, runs_panic_if; [by apply Z.eqb_neq|]. apply runs_bind, runs_gets, runs_bind.
  eapply runs_mono with (P := fun _ s2 => kernel_ok kvec KS I s2 /\ keeps me (tr_k s1) (tr_k s2)).
  { destruct (_ && _); [by eapply tl_yield|]. apply runs_ret. split; [done|apply keeps_refl]. }
  intros _ s2 [H2 P2]. apply runs_bind, runs_mod_hart, runs_mod_hart. split; [by destruct H2|]. split; [by eapply keeps_trans|done].
Qed.

Lemma kerneltrap_panics s cur : laws -> kernel_ok kvec KS I s -> Z.testbit (sstatus (tr_hart s)) 8 = true -> Z.testbit (sstatus (tr_hart s)) 1 = false -> dev_of (scause (tr_hart s)) = 0 ->
  kerneltrap ta uartintr virtio_disk_intr yield cur s = Panic "kerneltrap".
Proof.
  intros Hl Hk B8 B1 Hd. destruct (devintr_runs fa xa pa ta uartintr virtio_disk_intr yield between kvec utrap me filecall KS I s Hl (ko_inv _ _ _ _ Hk) (ko_claimed _ _ _ _ Hk)) as (r & s1 & Hr & -> & _). rewrite Hd in Hr.
  unfold kerneltrap. mcomp. mcomp. unfold SSTATUS_SPP. rewrite land_flag, B8 by lia. mcomp. destruct (intr_get_runs s (fun b s' => b = false /\ s' = s)) as (b & s' & Hb & -> & ->); [done|]. mstep Hb. mcomp. mstep Hr. done.
Qed.

(** C25. An interrupt in the kernel, while a process or the scheduler runs there.  The code that was
    interrupted goes on at the same instruction with its interrupts on or off as they were,
    every claimed interrupt is completed, and the trapframe of the process is kept.  Any
    other trap is a panic. *)
Theorem kernel_trap_correct s (cur : option Z) (cause val pc : Z) (Hl : laws) (Hk : kernel_ok kvec KS I s) :
  if dev_of cause =? 0 then trap_from_kernel ta uartintr virtio_disk_intr yield kvec cur cause val pc s = Panic "kerneltrap"
  else exists s', trap_from_kernel ta uartintr virtio_disk_intr yield kvec cur cause val pc s = Ok (tt, s') /\
    kernel_ok kvec KS I s' /\ keeps me (tr_k s) (tr_k s') /\ sepc (tr_hart s') = pc /\
    forall i, 0 <= i -> i <> 5 -> i <> 8 -> Z.testbit (sstatus (tr_hart s')) i = Z.testbit (sstatus (tr_hart s)) i.
Proof.
  set (s1 := with_hart (trap_entry false cause val pc (tr_hart s)) s).
  assert (kernel_ok kvec KS I s1) as H1 by (by destruct Hk). assert (Z.testbit (sstatus (tr_hart s1)) 8 = true /\ Z.testbit (sstatus (tr_hart s1)) 1 = false) as [B8 B1] by (unfold s1; cbn [tr_hart with_hart trap_entry sstatus]; by rewrite !put_bit_spec by lia).
  assert ((kvec =? kvec) = true) as Ev by apply Z.eqb_refl. unfold trap_from_kernel. mcomp. mcomp. cbn [stvec trap_entry tr_hart]. rewrite (ko_vec _ _ _ _ Hk), Ev. mcomp. fold (with_hart (trap_entry false cause val pc (tr_hart s)) s). fold s1.
  destruct (Z.eqb_spec (dev_of cause) 0) as [E|E].
  - unfold bind at 1. by rewrite (kerneltrap_panics s1 cur Hl H1 B8 B1 E).
  - destruct (kerneltrap_runs s1 cur Hl H1 B8 B1 E) as ([] & s2 & Hr & H2 & P2 & Epc & Est). mstep Hr. eexists. split; [reflexivity|]. split; [by destruct H2|]. split; [done|]. split; [exact Epc|].
    intros i Hi H5 H8. cbn [tr_hart sret set_sstatus sstatus]. rewrite Est. unfold s1. cbn [tr_hart with_hart trap_entry sstatus]. rewrite !put_bit_spec by lia. destruct (Z.eqb_spec i 8), (Z.eqb_spec i 5); [lia..|]. by destruct (Z.eqb_spec i 1) as [->|].
Qed.
End Theorems.

(** ** A process that is interrupted by the clock, and calls [getpid]

    Between the interrupt and the return another process runs, and this one goes on on
    hart 1. *)

#[local] Instance trap_files : Files unit := {|
  f_dup := fun f => ret f; f_close := fun _ => ret tt; f_idup := fun ip => ret ip; f_iput := fun _ => ret tt; f_root := ret 1;
|}.
Definition demo_kvec : Z := 0x80005000.
Definition demo_utrap : Z := 0x80002000.
Definition demo_ksatp : Z := 0x8000000000087fff.
Definition demo_yield : M (trst (F := unit)) unit := mod_hart (fun h => Hart 2 demo_kvec 77 5 0 0 demo_ksatp 0 (fun _ => 1)).
Definition demo_file (n : Z) : M (tst (F := unit)) pres := ret (Returns 0).

Definition user_proc : proc := Proc RUNNING (Some 0) 0 false 0 7 0x3fffff9000 4096 0x87f00000 0x1000 (Context_ 0 0) (fun _ => 0) 0 [].
Definition trap_free : proc := Proc UNUSED None 0 false 0 0 0 0 0 0 (Context_ 0 0) (fun _ => 0) 0 [].
Definition demo_frame : mem := store64 (store64 (store64 (fun _ => 0) 0x1000 demo_ksatp) 0x1008 (0x3fffff9000 + PGSIZE)) 0x1010 demo_utrap.
Definition demo_user : trst (F := unit) :=
  Trst (Hart 0x22 (TRAMPOLINE + 0x10) 0 0 0 2 (MAKE_SATP 0x87f00000) TRAPFRAME (fun n => if n =? 17 then SYS_getpid else 100 + n))
    (Tst (Pst (upd (fun _ => trap_free) 1 user_proc) (Some 0) 8 (Phys demo_frame 0 0) tt) 41) [] [].
Definition demo_trap (cause : Z) : M trst uout := trap_from_user (L := small_linker) 0 (fun _ => 0) (fun i => i + 1) 9 (ret tt) (ret tt) demo_yield (ret tt) demo_kvec 0x80007010 0x80007000 demo_utrap 1 demo_file cause 0 0x400.

Lemma demo_laws : trap_laws (L := small_linker) 0 (fun _ => 0) (fun i => i + 1) 9 (ret tt) (ret tt) demo_yield (ret tt) demo_kvec demo_utrap 1 demo_file demo_ksatp (fun _ => True).
Proof.
  split; try done.
  - intros s Hs. apply runs_mod_hart. split; [split; [done..|apply Hs|done]|apply keeps_refl].
  - intros s Hs. apply runs_ret. split; [done|apply keeps_refl].
  - intros k _. apply runs_ret. split; [done|apply handled_refl].
  - intros k _. apply runs_ret. split; [done|apply handled_refl].
Qed.

Lemma demo_in_user : in_user 0x80007010 0x80007000 demo_utrap 1 demo_ksatp (fun _ => True) demo_user.
Proof. split; [done..|]. split; by vm_compute. Qed.

Lemma demo_regs n : 1 <= n <= 31 -> 0 <= gpr (tr_hart demo_user) n < 2 ^ 64.
Proof. intros. cbn. destruct (_ =? _); unfold SYS_getpid; lia. Qed.

Lemma interrupted (m : M (trst (F := unit)) uout) E : match m demo_user with Ok _ => true | _ => false end = true ->
  ends m demo_user (user_post (L := small_linker) 0 (fun _ => 0) (fun i => i + 1) 9 demo_kvec 0x80007010 0x80007000 demo_utrap 1 demo_file demo_ksatp (fun _ => True) demo_user (2 ^ 63 + 1) 0x400) E ->
  exists v s', m demo_user = Ok (ToUser v, s') /\ sepc (tr_hart s') = 0x400 /\ gpr (tr_hart s') 31 = 131.
Proof.
  unfold ends. intros E1 H. destruct (m demo_user) as [[o s']| | |]; try discriminate E1. destruct H as (((v & ->) & _) & H1 & H2). exists v, s'. split; [reflexivity|]. split; [exact H1|]. apply (H2 31). lia.
Qed.

Lemma user_trap_correct_witness : exists v s', demo_trap (2 ^ 63 + 1) demo_user = Ok (ToUser v, s') /\ sepc (tr_hart s') = 0x400 /\ gpr (tr_hart s') 31 = 131.
Proof.
  eapply (interrupted (demo_trap (2 ^ 63 + 1))); [by vm_compute|].
  exact (user_trap_correct (L := small_linker) 0 (fun _ => 0) (fun i => i + 1) 9 (ret tt) (ret tt) demo_yield (ret tt) demo_kvec 0x80007010 0x80007000 demo_utrap 1 demo_file demo_ksatp (fun _ => True) demo_user (2 ^ 63 + 1) 0 0x400 demo_laws demo_in_user demo_regs ltac:(lia)).
Defined.

(** [getpid] returns 7, at the next instruction. *)
Example getpid_returns : match demo_trap 8 demo_user with Ok (ToUser _, s') => (gpr (tr_hart s') x_a0, gpr (tr_hart s') 17, sepc (tr_hart s')) = (7, SYS_getpid, 0x404) | _ => False end.
Proof. by vm_compute. Qed.

Definition demo_kernel : trst (F := unit) := Trst (Hart 2 demo_kvec 0 0 0 0 demo_ksatp 0 (fun _ => 0)) (tr_k demo_user) [10%positive] [].

Lemma kernel_trap_correct_witness : exists s', trap_from_kernel 9 (ret tt) (ret tt) demo_yield demo_kvec (Some 1) (2 ^ 63 + 9) 0 0x80001234 demo_kernel = Ok (tt, s') /\ sepc (tr_hart s') = 0x80001234 /\ tr_claimed s' = [].
Proof.
  pose proof (kernel_trap_correct (L := small_linker) 0 (fun _ => 0) (fun i => i + 1) 9 (ret tt) (ret tt) demo_yield (ret tt) demo_kvec demo_utrap 1 demo_file demo_ksatp (fun _ => True) demo_kernel (Some 1) (2 ^ 63 + 9) 0 0x80001234 demo_laws ltac:(by split)) as H.
  destruct H as (s' & H1 & H2 & _ & H3 & _). exists s'. split; [exact H1|]. split; [exact H3|]. apply H2.
Defined.
